(* ===== verification/_CoqProject ===== *)
-Q . S2P
Prelude.v
Endian.v
Status.v
Step.v
Buffers.v
Crc32c.v
Cobs.v
Frame.v
Stream.v
RecordReader.v
Cbor.v
Utf8.v
Broker.v
BrokerLogic.v
BrokerReceive.v
BrokerRequest.v
BrokerProps.v
BrokerBulk.v
BrokerUpload.v
BrokerSetup.v
ByteRing.v
BytePump.v
Proxy.v
Network.v
AntiRollback.v
BootConfig.v
Launcher.v
Compare.v
RecoveryStream.v
CborReader.v
TrustedTime.v
TimeProps.v
TimeQuery.v
Credentials.v
CredentialStore.v
CredentialProps.v
MeasuredBoot.v
MeasuredLog.v
MeasuredProps.v
CborTree.v
Crypto.v
RecoveryRequest.v
RecoveryManifest.v
ManifestProps.v
RecoveryLive.v
LiveProps.v
RecoveryService.v
FlatMap.v
Object.v
AttestationWire.v
AttestationUpload.v
Identity.v
Enrollment.v
EnrollmentBaseline.v
InventoryText.v
Smbios.v
SmbiosProps.v
Insertion.v
Inventory.v
PciInventory.v
InventoryReport.v
ControlledBaseline.v
TreeReads.v
AttestationReceipt.v
ReceiptProps.v
AttestationChallenge.v
ChallengeProps.v
AttestationEvidence.v
AttestationSubmit.v
SubmitProps.v
AttestationRun.v
RunProps.v
EnrollmentWire.v
EnrollmentWireProps.v
