(* ===== verification/Prelude.v ===== *)
(** * PBNS: pre-boot network services, host core and proxy firmware

    PBNS gives a machine without wireless firmware a network before it boots: a
    Pico W proxy carries octets between USB and TCP, and the host core runs
    authenticated services (time, recovery, attestation, enrollment) over the
    stream.  The host core is portable C17 under [src/core] with its headers in
    [include/pbns]; the proxy firmware is [pico/src].  This library models the
    parts that carry the program's own logic and proves what makes them correct.

    ** How the parts fit together

    A service hands a control body to the broker.  The broker encodes a frame
    (checksums, COBS, a delimiter), sends it over a transport, reassembles the
    records that come back, decodes them and lets the stream state decide whether
    each frame may come next.  On the proxy the byte pump moves the same octets
    between USB and the network through two rings, while the provisioning gate,
    the tail deadline and the connection state machine decide when.  The launcher
    starts the boot image and falls back to recovery; its records and the
    anti-rollback counter live in firmware variables.  Recovery asks for a signed
    manifest, binds it to the request, the time and the stored version, streams the
    image into pages under a running digest and only then raises the version;
    trusted time bounds what may be accepted.  Measured boot captures the event log
    of the firmware and replays it against the TPM's registers.  Enrollment records
    such a state under an identity.  Attestation accepts a signed challenge, answers it
    once with evidence (the inventory of the platform, the measured boot and a quote of
    the TPM, signed and encrypted), uploads it and checks the signed receipt.

    ** Conventions

    - Integers are [Z]; every conversion and wrap-around of the C types is written
      ([u8], [u16], [u32], [u64], [size_add]), and signed arithmetic that could
      overflow is partial ([int64] in TrustedTime).  [Machine] is the width of
      [size_t] and pointers, with the instances [x86_64] and [rp2040].
    - Memory is a list of octets; an access outside an object has no result
      ([None]).  Totality theorems therefore also say that no access is out of
      bounds.  A pointer argument is an option ([ptr]); views and buffers keep
      their address, since the sources test for [NULL] and overlap.
    - For each exported C function there is a definition of the same name on
      pointers, over a definition of the same body on values that the theorems
      use.  Callbacks are functions over a world [W] (the callback contexts), and
      what the code relies on of them is a class ([EndpointLaws],
      [PumpLaws], [NvramLaws], [HashLaws], [TimeServiceLaws], [FlashLaws],
      [CaptureLaws], [LiveLaws], [IdentityLaws], [EvidenceLaws], [RunLaws], ...),
      each with an instance.  The CBOR codec is the vendored QCBOR library and so
      the interfaces [QCBOR] (flat maps) and
      [QCBORSpiffy] (nested items): nothing is assumed of the decoder where a
      theorem does not say so ([QCBORReads], [SpiffyReads] and [TreeReads] say what it
      reads of well-formed items), and the encoder writes the preferred serialization.
    - Buffers that one call takes are separate objects, except where the source
      itself tests for overlap.

    ** Files

    - Prelude, Endian, Buffers, Compare: memory, octets, big-endian fields,
      [pbns_view] and [pbns_buffer] ([include/pbns/buffer.h]), constant-time
      comparison.
    - Step: sequences of calls that leave early with a status, and their logic.
    - Status ([status.c]), Crc32c ([crc32c.c]): the table-driven checksum is the
      bitwise CRC-32C and detects every changed octet.
    - Cobs ([cobs.c]), Frame ([frame.c]): encoder and decoder against their
      specifications, round trips, rejection of corrupted frames.
    - Stream ([stream.c]), RecordReader ([record_reader.c]): the exchanges that are
      accepted; chunking does not matter; frames are delivered.
    - Cbor, CborReader, Utf8: the codec interface, its serialization and that it
      determines its fields; the validator of [broker.c] against RFC 3629.
    - Broker ([broker.c]) is the code in a state, error and fuel monad;
      BrokerLogic is its program logic; BrokerReceive, BrokerRequest, BrokerBulk,
      BrokerUpload and BrokerSetup prove the receive loop, requests, downloads,
      uploads, initialisation, cancellation and remote errors; BrokerProps has the
      termination proofs and the contract of requests.
    - ByteRing ([byte_ring.c]), BytePump ([byte_pump.c]), Proxy
      ([provision_gate.c], [tail_deadline.c], [tcp_write_outcome.c]), Network
      ([network.c]): the proxy.  The ring is a queue; the pump conveys octets in
      order; provisioning needs a held button; connections are balanced and
      retries wait.
    - AntiRollback ([anti_rollback.c]), BootConfig ([boot_config.c]), Launcher
      ([launcher.c]): the version never goes back, even over torn writes; records
      round trip; a launch makes exactly the calls it should and leaks no image.
    - RecoveryStream ([recovery_stream.c], [recovery_assurance.c]): the pages hold
      exactly what was taken and completion needs the whole image and its digest.
    - TrustedTime ([trusted_time.c]), TimeProps, TimeQuery: intervals, canonical
      assertions, and the query bound to its request.
    - Credentials, CredentialStore, CredentialProps ([pico/src/credentials.c]): a
      store leaves the old or the new record readable wherever power fails.
    - MeasuredBoot, MeasuredLog, MeasuredProps ([measured_boot.c]): the log
      validators accept exactly the logs of the specification; a capture that
      succeeds is stable and complete.
    - CborTree: nested CBOR items; Crypto ([crypto.c], [encrypt.c], [random.c]):
      the checks around the cryptographic providers.
    - RecoveryRequest ([recovery_request.c]), RecoveryManifest and ManifestProps
      ([recovery_manifest.c]), RecoveryLive and LiveProps ([recovery_live.c]),
      RecoveryService ([recovery_service_adapter.c]): requests and manifests round
      trip; a manifest is accepted only when signed, canonical and bound; the
      exchanges never fault and end; the version never goes back over any sequence
      of operations.
    - FlatMap, Object ([object.c]), AttestationWire ([attestation_wire.c]): canonical
      maps of one level; signed objects and the answers of the verifier are accepted
      only canonical and only for what was asked.
    - AttestationUpload ([attestation_upload.c]): the adapter between evidence and
      the broker, proved over the broker's own theorems for any sequence of calls.
    - Identity ([identity.c]): signatures are whole or absent.
    - Enrollment ([enrollment.c]), EnrollmentBaseline ([enrollment_baseline.c]): an
      enrollment completes only in order, over any sequence of calls; only proper
      baselines are encoded; the token editor implements text editing.
    - EnrollmentWire and EnrollmentWireProps ([enrollment_wire.c]): the messages are
      canonical and determined by their octets, the decoders accept exactly the valid
      objects that name the expected key or operation, and associated data separates
      purposes and contents.
    - InventoryText, Smbios, SmbiosProps, Insertion, Inventory, PciInventory,
      InventoryReport ([inventory.c]): normalized texts; the SMBIOS table is read as its
      specification says; the digest of the PCI devices does not depend on their order;
      a report is canonical and determined by its inputs.
    - ControlledBaseline ([controlled_baseline.c]): only a platform in the controlled
      state yields a baseline, and its encoding determines it.
    - TreeReads: what the decoder reads of nested items, with an instance.
    - AttestationChallenge and ChallengeProps, AttestationReceipt and ReceiptProps
      ([attestation.c], [attestation_receipt.c]): challenges and receipts are accepted
      exactly when they are canonical, signed by the pinned key and bound to the request.
    - AttestationEvidence, AttestationSubmit and SubmitProps ([attestation.c]): a
      challenge is answered at most once, with evidence bound to it, and no buffer keeps
      any of it.
    - AttestationRun and RunProps ([attestation_run.c]): the whole exchange over the
      broker; a verdict is shown only for a challenge that was accepted and evidence that
      was submitted in the same run, and nothing is left behind.

    ** Fuel

    The receive loop of the broker ends by a deadline: its model takes fuel, and
    BrokerProps proves that the number of turns the deadline and the buffers allow
    is enough, under the law [Ticking] that only so many calls for octets fit into
    a millisecond; [enough_fuel] turns are enough for any session, since a deadline
    has 64 bits, and a run of attestation takes that many.  The record loop of the
    recovery image takes [image_size / 16384 + 2] turns, the event loops of measured
    boot as many as the log has octets, and the records of evidence
    [size / 16384 + 2] turns.  All are proved enough.  Batches of the pump take at
    most eight steps, as in the code.

    ** Not modelled

    The TPM profile ([tpm_profile.c]) calls the marshalling library of the TPM
    software stack.  OpenSSL, mbedTLS, lwIP, EDK II glue, the Go gateway, tests,
    tools and the vendored libraries are outside: the core reaches them through
    the callbacks and interfaces above. *)

From stdpp Require Import base list numbers decidable.
From Stdlib Require Import ZArith Lia.

#[global] Open Scope Z_scope.

(** ** Notations *)

Declare Scope pbns_scope.
Delimit Scope pbns_scope with pbns.
#[global] Open Scope pbns_scope.

(** A run of octets, each an integer in [0, 256). *)
Notation bytes := (list Z).

(** The length of a list as an unbounded integer, the way the C code counts. *)
Notation zlen l := (Z.of_nat (length l)).

(** A C pointer argument: [None] is [NULL], [Some x] points to [x]. *)
Notation ptr A := (option A).

(** ** Machine widths *)

Definition UINT8_MAX : Z := 255.
Definition UINT16_MAX : Z := 65535.
Definition UINT32_MAX : Z := 4294967295.
Definition UINT64_MAX : Z := 18446744073709551615.
Definition INT64_MAX : Z := 9223372036854775807.

(** The conversions to the unsigned types, which keep the low bits. *)
Definition u8 (z : Z) : Z := z mod 2 ^ 8.
Definition u16 (z : Z) : Z := z mod 2 ^ 16.
Definition u32 (z : Z) : Z := z mod 2 ^ 32.
Definition u64 (z : Z) : Z := z mod 2 ^ 64.

(** The host core runs on x86-64 (64-bit [size_t]) and the proxy firmware on
    the RP2040 (32-bit [size_t]).  What both targets promise is all that the
    components may use. *)
Class Machine := {
  SIZE_MAX : Z;
  UINTPTR_MAX : Z;
  SIZE_MAX_at_least : UINT32_MAX <= SIZE_MAX;
  SIZE_MAX_at_most : SIZE_MAX <= UINT64_MAX;
  UINTPTR_MAX_at_least : SIZE_MAX <= UINTPTR_MAX;
}.

#[refine] Definition x86_64 : Machine :=
  {| SIZE_MAX := UINT64_MAX; UINTPTR_MAX := UINT64_MAX |}.
Proof. all: vm_compute; discriminate. Defined.

#[refine] Definition rp2040 : Machine :=
  {| SIZE_MAX := UINT32_MAX; UINTPTR_MAX := UINT32_MAX |}.
Proof. all: vm_compute; discriminate. Defined.

(** [size_t] addition wraps. *)
Definition size_add `{Machine} (a b : Z) : Z := (a + b) mod (SIZE_MAX + 1).

(** ** Octets *)

Definition byteb (b : Z) : bool := (0 <=? b) && (b <? 256).
Definition is_byte (b : Z) : Prop := 0 <= b < 256.
Definition bytes_ok (l : bytes) : Prop := Forall is_byte l.

(** ** Memory accesses

    An access outside the object, which C leaves undefined, has no result. *)

Definition rd {A} (l : list A) (i : Z) : option A :=
  if (0 <=? i) && (i <? zlen l) then l !! Z.to_nat i else None.

Definition wr {A} (l : list A) (i : Z) (x : A) : option (list A) :=
  if (0 <=? i) && (i <? zlen l) then Some (<[Z.to_nat i := x]> l) else None.

(** A copy loop: one store after the other. *)
Fixpoint wr_list {A} (l : list A) (i : Z) (src : list A) : option (list A) :=
  match src with
  | [] => Some l
  | x :: src' => l' ← wr l i x; wr_list l' (i + 1) src'
  end.

(** The octets [i, i + n) of an object. *)
Definition slice {A} (l : list A) (i n : Z) : list A :=
  take (Z.to_nat n) (drop (Z.to_nat i) l).

Definition rd_slice {A} (l : list A) (i n : Z) : option (list A) :=
  if (0 <=? i) && (0 <=? n) && (i + n <=? zlen l) then Some (slice l i n)
  else None.

(** An object with the run [src] stored at [i]. *)
Definition splice {A} (l : list A) (i : Z) (src : list A) : list A :=
  take (Z.to_nat i) l ++ src ++ drop (Z.to_nat i + length src) l.

(** [memcmp (a, b, n) == 0] on runs of one length, and the constant-time
    comparison loops of the sources, which accumulate differences. *)
Definition bytes_eqb (a b : bytes) : bool := bool_decide (a = b).

(** ** Automation *)

Create HintDb pbns.

(** Case analysis on the conditionals of a definition, with the comparisons
    turned into propositions. *)
Ltac zbool :=
  repeat match goal with
  | H : context [?a <? ?b] |- _ => destruct (Z.ltb_spec a b)
  | H : context [?a <=? ?b] |- _ => destruct (Z.leb_spec a b)
  | H : context [?a =? ?b] |- _ => destruct (Z.eqb_spec a b)
  | |- context [?a <? ?b] => destruct (Z.ltb_spec a b)
  | |- context [?a <=? ?b] => destruct (Z.leb_spec a b)
  | |- context [?a =? ?b] => destruct (Z.eqb_spec a b)
  end.

(** Splits every [if] and [match] of a hypothesis that equates a definition's
    body with a result. *)
Ltac split_body H :=
  repeat (simpl in H;
    match type of H with
    | context [match ?x with _ => _ end] =>
        lazymatch x with
        | context [match _ with _ => _ end] => fail
        | _ => destruct x eqn:?
        end
    end); simplify_eq/=.

(** The boolean tests collected by [split_body] as linear facts. *)
Ltac bools :=
  repeat match goal with
  | H : (_ && _) = true |- _ => apply andb_true_iff in H as [? ?]
  | H : (_ || _) = false |- _ => apply orb_false_iff in H as [? ?]
  | H : (_ && _) = false |- _ => apply andb_false_iff in H
  | H : (_ || _) = true |- _ => apply orb_true_iff in H
  | H : negb _ = true |- _ => apply negb_true_iff in H
  | H : negb _ = false |- _ => apply negb_false_iff in H
  | H : (_ <? _) = true |- _ => apply Z.ltb_lt in H
  | H : (_ <? _) = false |- _ => apply Z.ltb_ge in H
  | H : (_ <=? _) = true |- _ => apply Z.leb_le in H
  | H : (_ <=? _) = false |- _ => apply Z.leb_gt in H
  | H : (_ =? _) = true |- _ => apply Z.eqb_eq in H
  | H : (_ =? _) = false |- _ => apply Z.eqb_neq in H
  | H : bool_decide _ = true |- _ => apply bool_decide_eq_true in H
  | H : bool_decide _ = false |- _ => apply bool_decide_eq_false in H
  end.

(** Lengths of concatenations as sums, then linear arithmetic. *)
Ltac lens :=
  repeat first [ progress rewrite ?length_app, ?length_take, ?length_drop, ?length_insert,
                   ?length_replicate in *
               | progress cbn [length app] in *
               | progress change (Z.of_nat 0) with 0 in *
               | progress rewrite ?Z.add_0_l, ?Z.add_0_r in * ].

Ltac llia := lens; lia.

(** ** Lemmas on memory accesses *)

Section memory.
Context {A : Type}.
Implicit Types l src d rest : list A.

Lemma rd_inside l i : 0 <= i < zlen l -> rd l i = l !! Z.to_nat i.
Proof. intros H. unfold rd. zbool; simpl; done || lia. Qed.

Lemma rd_some l i : 0 <= i < zlen l -> exists x, rd l i = Some x.
Proof. intros H. rewrite rd_inside by done. apply lookup_lt_is_Some. lia. Qed.

Lemma rd_app_head l x l' i : i = zlen l -> rd (l ++ x :: l') i = Some x.
Proof.
  intros ->. rewrite rd_inside by (rewrite length_app; simpl; lia).
  rewrite Nat2Z.id. by apply list_lookup_middle.
Qed.

Lemma wr_inside l i x : 0 <= i < zlen l -> wr l i x = Some (<[Z.to_nat i := x]> l).
Proof. intros H. unfold wr. zbool; simpl; done || lia. Qed.

Lemma wr_Some l i x l' :
  wr l i x = Some l' <-> 0 <= i < zlen l /\ l' = <[Z.to_nat i := x]> l.
Proof. unfold wr. zbool; simpl; naive_solver lia. Qed.

Lemma wr_length l i x l' : wr l i x = Some l' -> length l' = length l.
Proof. intros [_ ->]%wr_Some. apply length_insert. Qed.

Lemma wr_app_head l y l' i x : i = zlen l -> wr (l ++ y :: l') i x = Some (l ++ x :: l').
Proof.
  intros ->. rewrite wr_inside by (rewrite length_app; simpl; lia).
  rewrite Nat2Z.id. f_equal. rewrite <- (Nat.add_0_r (length l)) at 1.
  by rewrite insert_app_r.
Qed.

Lemma splice_length l i src :
  0 <= i -> i + zlen src <= zlen l -> length (splice l i src) = length l.
Proof. intros. unfold splice. rewrite !length_app, length_take, length_drop. lia. Qed.

Lemma splice_app l m r src :
  length m = length src -> splice (l ++ m ++ r) (zlen l) src = l ++ src ++ r.
Proof.
  intros E. unfold splice. rewrite Nat2Z.id, take_app_length. f_equal. f_equal.
  rewrite <- E, app_assoc. rewrite <- length_app. apply drop_app_length.
Qed.

(** The copy loop stores exactly the run when it fits, and faults otherwise. *)
Lemma wr_list_splice l i src :
  0 <= i -> i + zlen src <= zlen l -> wr_list l i src = Some (splice l i src).
Proof.
  revert l i. induction src as [|x src IH]; intros l i Hi Hfit; simpl in *.
  - unfold splice. simpl. by rewrite Nat.add_0_r, take_drop.
  - rewrite wr_inside by lia. simpl. rewrite IH by (rewrite ?length_insert; lia).
    f_equal. unfold splice. replace (Z.to_nat (i + 1)) with (S (Z.to_nat i)) by lia.
    erewrite take_S_r by (apply list_lookup_insert_eq; lia).
    rewrite take_insert_ge, drop_insert_lt by lia.
    rewrite <- app_assoc. simpl. do 4 f_equal. lia.
Qed.

Lemma wr_list_app l m r src :
  length m = length src -> wr_list (l ++ m ++ r) (zlen l) src = Some (l ++ src ++ r).
Proof.
  intros E. rewrite wr_list_splice by (rewrite ?length_app; lia).
  by rewrite splice_app.
Qed.

(** Stores one after the other: [d] is written, [rest] is not. *)
Lemma wr_list_next d rest i src :
  i = zlen d -> zlen src <= zlen rest ->
  wr_list (d ++ rest) i src = Some ((d ++ src) ++ drop (length src) rest).
Proof.
  intros -> Hfit. rewrite <- (take_drop (length src) rest) at 1.
  rewrite wr_list_app by llia. by rewrite app_assoc.
Qed.

Lemma wr_next d rest i x :
  i = zlen d -> 1 <= zlen rest -> wr (d ++ rest) i x = Some ((d ++ [x]) ++ drop 1 rest).
Proof.
  intros -> Hfit. destruct rest as [|y rest]; [llia|].
  rewrite wr_app_head by done. by rewrite <- app_assoc.
Qed.

Lemma rd_slice_prefix d rest n : n = zlen d -> rd_slice (d ++ rest) 0 n = Some d.
Proof.
  intros ->. unfold rd_slice, slice. rewrite Nat2Z.id, drop_0, take_app_length.
  lens. zbool; simpl; done || lia.
Qed.

Lemma slice_length l i n :
  0 <= i -> 0 <= n -> i + n <= zlen l -> zlen (slice l i n) = n.
Proof. intros. unfold slice. rewrite length_take, length_drop. lia. Qed.

Lemma slice_app l m r n : n = zlen m -> slice (l ++ m ++ r) (zlen l) n = m.
Proof.
  intros ->. unfold slice. rewrite !Nat2Z.id, drop_app_length. apply take_app_length.
Qed.

Lemma rd_slice_app l m r n : n = zlen m -> rd_slice (l ++ m ++ r) (zlen l) n = Some m.
Proof.
  intros ->. unfold rd_slice. rewrite slice_app by done.
  rewrite !length_app. zbool; simpl; done || lia.
Qed.

Lemma rd_slice_inside l i n :
  0 <= i -> 0 <= n -> i + n <= zlen l -> rd_slice l i n = Some (slice l i n).
Proof. intros. unfold rd_slice. zbool; simpl; done || lia. Qed.

Lemma slice_split l i n m :
  0 <= i -> 0 <= n -> 0 <= m -> slice l i (n + m) = slice l i n ++ slice l (i + n) m.
Proof.
  intros. unfold slice. rewrite !Z2Nat.inj_add by lia.
  rewrite <- drop_drop. rewrite take_take_drop. done.
Qed.

Lemma slice_app_l l r i n : 0 <= i -> 0 <= n -> i + n <= zlen l -> slice (l ++ r) i n = slice l i n.
Proof.
  intros. unfold slice. rewrite drop_app_le by lia. rewrite take_app_le; [done|llia].
Qed.

Lemma rd_slice_app_l l r i n : i + n <= zlen l -> rd_slice (l ++ r) i n = rd_slice l i n.
Proof.
  intros. unfold rd_slice. lens. destruct (Z.leb_spec 0 i); [|done].
  destruct (Z.leb_spec 0 n); [|done]. cbn [andb]. zbool; try lia. by rewrite slice_app_l by lia.
Qed.

Lemma slice_eq l a m b i n : l = a ++ m ++ b -> i = zlen a -> n = zlen m -> slice l i n = m.
Proof. intros -> -> ->. by apply slice_app. Qed.

Lemma rd_eq l a x b i : l = a ++ x :: b -> i = zlen a -> rd l i = Some x.
Proof. intros -> ->. by apply rd_app_head. Qed.

Lemma rd_app_l l r i : i < zlen l -> rd (l ++ r) i = rd l i.
Proof.
  intros. unfold rd. lens. destruct (Z.leb_spec 0 i); [|done]. zbool; try lia. cbn [andb].
  apply lookup_app_l. lia.
Qed.

Lemma slice_all l n : n = zlen l -> slice l 0 n = l.
Proof. intros ->. unfold slice. rewrite Nat2Z.id. simpl. by rewrite take_ge. Qed.

Lemma take_zlen l n : 0 <= n <= zlen l -> zlen (take (Z.to_nat n) l) = n.
Proof. intros. rewrite length_take. lia. Qed.
End memory.

#[export] Hint Resolve wr_length : pbns.

(** ** Lemmas on octets and integers *)

Lemma byteb_spec b : byteb b = true <-> is_byte b.
Proof. unfold byteb, is_byte. rewrite andb_true_iff, Z.leb_le, Z.ltb_lt. done. Qed.

Lemma u8_byte z : is_byte (u8 z).
Proof. unfold is_byte, u8. apply Z.mod_pos_bound. lia. Qed.

Lemma u8_small z : is_byte z -> u8 z = z.
Proof. unfold is_byte, u8. intros. apply Z.mod_small. lia. Qed.

Lemma u32_small z : 0 <= z <= UINT32_MAX -> u32 z = z.
Proof. unfold UINT32_MAX, u32. intros. apply Z.mod_small. lia. Qed.

Lemma u64_small z : 0 <= z <= UINT64_MAX -> u64 z = z.
Proof. unfold UINT64_MAX, u64. intros. apply Z.mod_small. lia. Qed.

Lemma size_add_small `{Machine} a b :
  0 <= a + b <= SIZE_MAX -> size_add a b = a + b.
Proof. intros. unfold size_add. apply Z.mod_small. lia. Qed.

Lemma bytes_ok_nil : bytes_ok [].
Proof. constructor. Qed.

Lemma bytes_ok_cons b l : bytes_ok (b :: l) <-> is_byte b /\ bytes_ok l.
Proof. apply Forall_cons_iff. Qed.

Lemma bytes_ok_app l1 l2 : bytes_ok (l1 ++ l2) <-> bytes_ok l1 /\ bytes_ok l2.
Proof. apply Forall_app. Qed.

Lemma bytes_ok_take n l : bytes_ok l -> bytes_ok (take n l).
Proof. apply Forall_take. Qed.

Lemma bytes_ok_drop n l : bytes_ok l -> bytes_ok (drop n l).
Proof. apply Forall_drop. Qed.

Lemma bytes_ok_slice l i n : bytes_ok l -> bytes_ok (slice l i n).
Proof. intros. by apply bytes_ok_take, bytes_ok_drop. Qed.

(** Stores of octets keep memory made of octets. *)
Lemma wr_ok l i x l' : bytes_ok l -> is_byte x -> wr l i x = Some l' -> bytes_ok l'.
Proof. intros Hl Hx [_ ->]%wr_Some. by apply Forall_insert. Qed.

Lemma wr_list_ok src l i l' : bytes_ok l -> bytes_ok src -> wr_list l i src = Some l' -> bytes_ok l'.
Proof.
  revert l i. induction src as [|x src IH]; intros l i Hl Hs E; cbn [wr_list] in E; [by simplify_eq|].
  apply bytes_ok_cons in Hs as [Hx Hs]. destruct (wr l i x) as [l1|] eqn:E1; [|done].
  eapply IH; [eapply wr_ok; [exact Hl|exact Hx|exact E1]|done|exact E].
Qed.

(** Goals [bytes_ok l], by the structure of [l]. *)
Ltac octets :=
  repeat first [ assumption | apply bytes_ok_nil | apply bytes_ok_app; split | apply bytes_ok_cons; split ];
  try (unfold is_byte in *; lia); auto with pbns.

#[export] Hint Resolve u8_byte bytes_ok_nil bytes_ok_take bytes_ok_drop
  bytes_ok_slice : pbns.

Lemma bytes_eqb_spec a b : bytes_eqb a b = true <-> a = b.
Proof. apply bool_decide_eq_true. Qed.

Lemma bytes_eqb_refl a : bytes_eqb a a = true.
Proof. by apply bytes_eqb_spec. Qed.
