(* ===== verification/Endian.v ===== *)
(** * Big-endian integers

    The wire formats and the persistent records store integers in network
    order.  Every source file carries its own copy of the same helpers
    ([write_u32_be], [read_u32_be], [read_u64_be], ...); they are modelled once
    here, next to the reference functions [be_bytes] and [be_value] on whole
    runs of octets. *)

From stdpp Require Import base list numbers.
From Stdlib Require Import ZArith Lia.
From S2P Require Import Prelude.

(** ** The helpers of the sources *)

Definition u32_octets (value : Z) : bytes :=
  [u8 (Z.shiftr value 24); u8 (Z.shiftr value 16); u8 (Z.shiftr value 8); u8 value].

Definition write_u32_be (destination : bytes) (offset value : Z) : option bytes :=
  wr_list destination offset (u32_octets value).

Definition read_u32_be (source : bytes) (offset : Z) : option Z :=
  b0 ← rd source offset;
  b1 ← rd source (offset + 1);
  b2 ← rd source (offset + 2);
  b3 ← rd source (offset + 3);
  Some (Z.lor (Z.lor (Z.lor (Z.shiftl b0 24) (Z.shiftl b1 16)) (Z.shiftl b2 8)) b3).

(** [value = (value << 8U) | source[index]] over eight octets. *)
Definition read_u64_be (source : bytes) (offset : Z) : option Z :=
  octets ← rd_slice source offset 8;
  Some (fold_left (fun value b => Z.lor (u64 (Z.shiftl value 8)) b) octets 0).

(** The loop fills the destination from its last octet to its first:
    [destination[7U - index] = (uint8_t)(value & 0xff); value >>= 8U]. *)
Fixpoint write_u64_loop (count : nat) (destination : bytes) (offset value : Z)
  : option bytes :=
  match count with
  | O => Some destination
  | S index =>
      destination' ← wr destination (offset + Z.of_nat index) (u8 (Z.land value 255));
      write_u64_loop index destination' offset (Z.shiftr value 8)
  end.

Definition write_u64_be (destination : bytes) (offset value : Z) : option bytes :=
  write_u64_loop 8 destination offset value.

(** ** Reference functions *)

Fixpoint be_bytes (n : nat) (v : Z) : bytes :=
  match n with
  | O => []
  | S k => u8 (Z.shiftr v (8 * Z.of_nat k)) :: be_bytes k v
  end.

Definition be_value (l : bytes) : Z :=
  fold_left (fun value b => value * 256 + b) l 0.

(** ** Lemmas *)

Lemma land_shiftl8_byte a b : is_byte b -> Z.land (Z.shiftl a 8) b = 0.
Proof.
  unfold is_byte. intros Hb. apply Z.bits_inj'. intros n Hn.
  rewrite Z.land_spec, Z.bits_0, Z.shiftl_spec by lia. destruct (Z.ltb_spec n 8).
  - by rewrite Z.testbit_neg_r by lia.
  - rewrite andb_comm. replace b with (b mod 2 ^ 8) by (apply Z.mod_small; lia).
    by rewrite Z.mod_pow2_bits_high by lia.
Qed.

Lemma lor_shiftl8 a b : is_byte b -> Z.lor (Z.shiftl a 8) b = a * 256 + b.
Proof.
  intros Hb. rewrite <- Z.lxor_lor, <- Z.add_nocarry_lxor by by apply land_shiftl8_byte.
  rewrite Z.shiftl_mul_pow2 by lia. done.
Qed.

Lemma be_value_from l acc :
  fold_left (fun value b => value * 256 + b) l acc =
  acc * 256 ^ zlen l + be_value l.
Proof.
  unfold be_value. revert acc. induction l as [|b l IH]; intros acc; simpl fold_left.
  - simpl. lia.
  - rewrite IH. rewrite (IH (0 * 256 + b)). simpl length.
    rewrite Nat2Z.inj_succ, Z.pow_succ_r by lia. lia.
Qed.

Lemma be_value_cons b l : be_value (b :: l) = b * 256 ^ zlen l + be_value l.
Proof. unfold be_value at 1. simpl. by rewrite be_value_from. Qed.

Lemma be_value_snoc l b : be_value (l ++ [b]) = be_value l * 256 + b.
Proof. unfold be_value. by rewrite fold_left_app. Qed.

Lemma be_value_bound l : bytes_ok l -> 0 <= be_value l < 256 ^ zlen l.
Proof.
  induction 1 as [|b l Hb Hl IH]; [done|]. rewrite be_value_cons. simpl length.
  unfold is_byte in Hb. rewrite Nat2Z.inj_succ, Z.pow_succ_r by lia. nia.
Qed.

Lemma be_bytes_length n v : length (be_bytes n v) = n.
Proof. induction n; simpl; congruence. Qed.

Lemma be_bytes_ok n v : bytes_ok (be_bytes n v).
Proof. induction n; constructor; auto with pbns. Qed.

Lemma pow256 n : 0 <= n -> 256 ^ n = 2 ^ (8 * n).
Proof. intros. by rewrite Z.pow_mul_r by lia. Qed.

(** Decoding an encoded integer gives its value in the width of the field. *)
Lemma be_value_bytes n v : be_value (be_bytes n v) = v mod 256 ^ Z.of_nat n.
Proof.
  induction n as [|k IH]; [by rewrite Z.mod_1_r|].
  simpl be_bytes. rewrite be_value_cons, be_bytes_length, IH.
  rewrite Nat2Z.inj_succ, Z.pow_succ_r by lia.
  assert (0 < 256 ^ Z.of_nat k) by (apply Z.pow_pos_nonneg; lia).
  rewrite (Z.mul_comm 256), Z.rem_mul_r by lia.
  unfold u8. rewrite Z.shiftr_div_pow2, <- pow256 by lia. change (2 ^ 8) with 256. lia.
Qed.

Lemma be_bytes_add_high n v w :
  be_bytes n (v + w * 256 ^ Z.of_nat n) = be_bytes n v.
Proof.
  revert w. induction n as [|k IH]; intros w; [done|]. simpl be_bytes. f_equal.
  - unfold u8. rewrite !Z.shiftr_div_pow2, <- !pow256 by lia.
    rewrite Nat2Z.inj_succ, Z.pow_succ_r by lia.
    replace (w * (256 * 256 ^ Z.of_nat k)) with (w * 256 * 256 ^ Z.of_nat k) by lia.
    rewrite Z.div_add by (apply Z.pow_nonzero; lia).
    change (2 ^ 8) with 256. apply Z.mod_add. lia.
  - rewrite Nat2Z.inj_succ, Z.pow_succ_r by lia.
    replace (w * (256 * 256 ^ Z.of_nat k)) with (w * 256 * 256 ^ Z.of_nat k) by lia.
    apply IH.
Qed.

(** Encoding a decoded field gives its octets back. *)
Lemma be_bytes_value l : bytes_ok l -> be_bytes (length l) (be_value l) = l.
Proof.
  induction 1 as [|b l Hb Hl IH]; [done|]. simpl length. simpl be_bytes.
  rewrite be_value_cons. pose proof (be_value_bound l Hl).
  rewrite Z.add_comm, be_bytes_add_high, IH. f_equal.
  rewrite Z.shiftr_div_pow2, <- pow256 by lia.
  rewrite Z.div_add by lia. rewrite Z.div_small by lia. by apply u8_small.
Qed.

Lemma u32_octets_be v : u32_octets v = be_bytes 4 v.
Proof. unfold u32_octets. simpl. by rewrite Z.shiftr_0_r. Qed.

Lemma u32_octets_length v : length (u32_octets v) = 4%nat.
Proof. done. Qed.

Lemma write_u32_be_splice d off v :
  0 <= off -> off + 4 <= zlen d -> write_u32_be d off v = Some (splice d off (be_bytes 4 v)).
Proof. intros. unfold write_u32_be. rewrite u32_octets_be. by apply wr_list_splice. Qed.

Lemma write_u32_be_app l m r v :
  length m = 4%nat -> write_u32_be (l ++ m ++ r) (zlen l) v = Some (l ++ be_bytes 4 v ++ r).
Proof. intros E. unfold write_u32_be. rewrite u32_octets_be. by apply wr_list_app. Qed.

Lemma shiftl_lor_octets b0 b1 b2 b3 :
  bytes_ok [b0; b1; b2; b3] ->
  Z.lor (Z.lor (Z.lor (Z.shiftl b0 24) (Z.shiftl b1 16)) (Z.shiftl b2 8)) b3
  = be_value [b0; b1; b2; b3].
Proof.
  intros (? & (? & (? & (? & _)%Forall_cons_iff)%Forall_cons_iff)%Forall_cons_iff)%Forall_cons_iff.
  replace (Z.shiftl b0 24) with (Z.shiftl (Z.shiftl (Z.shiftl b0 8) 8) 8)
    by (rewrite !Z.shiftl_shiftl by lia; done).
  replace (Z.shiftl b1 16) with (Z.shiftl (Z.shiftl b1 8) 8)
    by (rewrite !Z.shiftl_shiftl by lia; done).
  rewrite <- !Z.shiftl_lor, !lor_shiftl8 by done. done.
Qed.

Lemma slice_cons {A} (l : list A) i n x :
  0 <= i -> 0 < n -> rd l i = Some x -> slice l i n = x :: slice l (i + 1) (n - 1).
Proof.
  unfold rd. intros Hi Hn Hx. zbool; simplify_eq/=.
  unfold slice. rewrite (drop_S _ _ _ Hx).
  replace (Z.to_nat n) with (S (Z.to_nat (n - 1))) by lia.
  replace (Z.to_nat (i + 1)) with (S (Z.to_nat i)) by lia. done.
Qed.

Lemma read_u32_be_app_l s r off :
  off + 4 <= zlen s -> read_u32_be (s ++ r) off = read_u32_be s off.
Proof. intros. unfold read_u32_be. by rewrite !rd_app_l by lia. Qed.

Lemma read_u32_be_value s off :
  bytes_ok s -> 0 <= off -> off + 4 <= zlen s ->
  read_u32_be s off = Some (be_value (slice s off 4)).
Proof.
  intros Hs Hoff Hfit. unfold read_u32_be.
  destruct (rd_some s off) as [b0 E0]; [lia|].
  destruct (rd_some s (off + 1)) as [b1 E1]; [lia|].
  destruct (rd_some s (off + 2)) as [b2 E2]; [lia|].
  destruct (rd_some s (off + 3)) as [b3 E3]; [lia|].
  assert (E : slice s off 4 = [b0; b1; b2; b3]).
  { rewrite (slice_cons _ _ _ b0) by done || lia.
    rewrite (slice_cons _ _ _ b1) by done || lia.
    rewrite (slice_cons _ _ _ b2) by (rewrite <- ?E2; f_equal; lia).
    rewrite (slice_cons _ _ _ b3) by (rewrite <- ?E3; f_equal; lia).
    done. }
  rewrite E0, E1, E2, E3. simpl. rewrite E, shiftl_lor_octets; [done|].
  rewrite <- E. by apply bytes_ok_slice.
Qed.

Lemma read_u32_be_app l m r :
  bytes_ok (l ++ m ++ r) -> length m = 4%nat ->
  read_u32_be (l ++ m ++ r) (zlen l) = Some (be_value m).
Proof.
  intros Hok E. rewrite read_u32_be_value by (rewrite ?length_app; done || lia).
  by rewrite slice_app by lia.
Qed.

(** *** Sixty-four bit fields *)

Lemma read_u64_fold l v :
  bytes_ok l -> 0 <= v -> v * 256 ^ zlen l + be_value l < 2 ^ 64 ->
  fold_left (fun value b => Z.lor (u64 (Z.shiftl value 8)) b) l v
  = v * 256 ^ zlen l + be_value l.
Proof.
  revert v. induction l as [|b l IH]; intros v Hok Hv Hb; simpl fold_left.
  { simpl. unfold be_value. simpl. lia. }
  apply bytes_ok_cons in Hok as [Hbyte Hl]. pose proof (be_value_bound l Hl).
  rewrite be_value_cons in *. simpl length in *.
  rewrite Nat2Z.inj_succ, Z.pow_succ_r in * by lia. unfold is_byte in Hbyte.
  assert (1 <= 256 ^ zlen l) by (apply (Z.pow_le_mono_r 256 0); lia).
  assert (v * 256 + b < 2 ^ 64) by nia.
  rewrite u64_small by (rewrite Z.shiftl_mul_pow2 by lia; unfold UINT64_MAX; lia).
  rewrite lor_shiftl8 by done. rewrite IH by (done || nia). nia.
Qed.

Lemma read_u64_be_value s off :
  bytes_ok s -> 0 <= off -> off + 8 <= zlen s ->
  read_u64_be s off = Some (be_value (slice s off 8)).
Proof.
  intros Hs Hoff Hfit. unfold read_u64_be. rewrite rd_slice_inside by lia. simpl.
  pose proof (slice_length s off 8 Hoff ltac:(lia) Hfit) as El.
  pose proof (be_value_bound _ (bytes_ok_slice s off 8 Hs)) as Hb. rewrite El in Hb.
  rewrite read_u64_fold; [done|auto with pbns|lia|]. rewrite El. lia.
Qed.

Lemma be_bytes_snoc k v :
  be_bytes (S k) v = be_bytes k (Z.shiftr v 8) ++ [u8 v].
Proof.
  revert v. induction k as [|k IH]; intros v.
  - simpl. by rewrite Z.shiftr_0_r.
  - change (be_bytes (S (S k)) v)
      with (u8 (Z.shiftr v (8 * Z.of_nat (S k))) :: be_bytes (S k) v).
    rewrite IH. simpl. f_equal. rewrite Z.shiftr_shiftr by lia. do 2 f_equal. lia.
Qed.

Lemma write_u64_loop_app n l m r v :
  length m = n -> write_u64_loop n (l ++ m ++ r) (zlen l) v = Some (l ++ be_bytes n v ++ r).
Proof.
  revert m r v. induction n as [|k IH]; intros m r v E.
  { destruct m; [done|discriminate]. }
  destruct m as [|x m' _] using rev_ind; [discriminate|].
  rewrite length_app in E. simpl in E. cbn [write_u64_loop].
  assert (E' : length m' = k) by lia.
  rewrite be_bytes_snoc, <- !app_assoc. simpl. rewrite (app_assoc l).
  rewrite wr_app_head by (rewrite length_app; lia). simpl.
  rewrite <- app_assoc. rewrite IH by done.
  do 4 f_equal. unfold u8. change 255 with (Z.ones 8). rewrite Z.land_ones by lia.
  by rewrite Z.mod_mod by lia.
Qed.

Lemma write_u64_be_app l m r v :
  length m = 8%nat -> write_u64_be (l ++ m ++ r) (zlen l) v = Some (l ++ be_bytes 8 v ++ r).
Proof. apply write_u64_loop_app. Qed.

Lemma read_u64_be_app l m r :
  bytes_ok (l ++ m ++ r) -> length m = 8%nat ->
  read_u64_be (l ++ m ++ r) (zlen l) = Some (be_value m).
Proof.
  intros Hok E. rewrite read_u64_be_value by (rewrite ?length_app; done || lia).
  by rewrite slice_app by lia.
Qed.

Lemma be_value_bytes_u32 v : 0 <= v <= UINT32_MAX -> be_value (be_bytes 4 v) = v.
Proof. intros. rewrite be_value_bytes. apply u32_small. done. Qed.

Lemma be_value_bytes_u64 v : 0 <= v <= UINT64_MAX -> be_value (be_bytes 8 v) = v.
Proof. intros. rewrite be_value_bytes. apply u64_small. done. Qed.

#[export] Hint Resolve be_bytes_ok be_bytes_length : pbns.
