(* ===== verification/Status.v ===== *)
(** * Status codes ([include/pbns/status.h], [src/core/status.c])

    The enumeration, its integer values, and the diagnostic names.  A C
    function may hand back an integer outside the enumeration;
    [status_of_code] says which integers are typed. *)

From stdpp Require Import base list numbers strings.
From Stdlib Require Import ZArith Lia.
From S2P Require Import Prelude.

Inductive pbns_status :=
| PBNS_OK
| PBNS_ERR_ARGUMENT
| PBNS_ERR_LIMIT
| PBNS_ERR_FORMAT
| PBNS_ERR_CRC
| PBNS_ERR_VERSION
| PBNS_ERR_SERVICE
| PBNS_ERR_MESSAGE_TYPE
| PBNS_ERR_SEQUENCE
| PBNS_ERR_STATE
| PBNS_ERR_WOULD_BLOCK
| PBNS_ERR_TIMEOUT
| PBNS_ERR_TRANSPORT
| PBNS_ERR_CRYPTO
| PBNS_ERR_AUTHENTICATION
| PBNS_ERR_REPLAY
| PBNS_ERR_UNSUPPORTED
| PBNS_ERR_UNIMPLEMENTED
| PBNS_ERR_ENTROPY
| PBNS_ERR_AMBIGUOUS
| PBNS_ERR_RESOURCE
| PBNS_ERR_IO
| PBNS_ERR_BUSY.

#[export] Instance pbns_status_eq_dec : EqDecision pbns_status.
Proof. solve_decision. Defined.

(** [status == PBNS_OK] *)
Definition is_ok (status : pbns_status) : bool :=
  match status with PBNS_OK => true | _ => false end.

Definition status_eqb (a b : pbns_status) : bool := bool_decide (a = b).

(** The integer value of each enumerator. *)
Definition status_code (status : pbns_status) : Z :=
  match status with
  | PBNS_OK => 0
  | PBNS_ERR_ARGUMENT => -1
  | PBNS_ERR_LIMIT => -2
  | PBNS_ERR_FORMAT => -3
  | PBNS_ERR_CRC => -4
  | PBNS_ERR_VERSION => -5
  | PBNS_ERR_SERVICE => -6
  | PBNS_ERR_MESSAGE_TYPE => -7
  | PBNS_ERR_SEQUENCE => -8
  | PBNS_ERR_STATE => -9
  | PBNS_ERR_WOULD_BLOCK => -10
  | PBNS_ERR_TIMEOUT => -11
  | PBNS_ERR_TRANSPORT => -12
  | PBNS_ERR_CRYPTO => -13
  | PBNS_ERR_AUTHENTICATION => -14
  | PBNS_ERR_REPLAY => -15
  | PBNS_ERR_UNSUPPORTED => -16
  | PBNS_ERR_UNIMPLEMENTED => -17
  | PBNS_ERR_ENTROPY => -18
  | PBNS_ERR_AMBIGUOUS => -19
  | PBNS_ERR_RESOURCE => -20
  | PBNS_ERR_IO => -21
  | PBNS_ERR_BUSY => -22
  end.

(** The enumerators in the order of their codes, from [0] down to [-22]. *)
Definition all_statuses : list pbns_status :=
  [PBNS_OK; PBNS_ERR_ARGUMENT; PBNS_ERR_LIMIT; PBNS_ERR_FORMAT; PBNS_ERR_CRC;
   PBNS_ERR_VERSION; PBNS_ERR_SERVICE; PBNS_ERR_MESSAGE_TYPE; PBNS_ERR_SEQUENCE;
   PBNS_ERR_STATE; PBNS_ERR_WOULD_BLOCK; PBNS_ERR_TIMEOUT; PBNS_ERR_TRANSPORT;
   PBNS_ERR_CRYPTO; PBNS_ERR_AUTHENTICATION; PBNS_ERR_REPLAY; PBNS_ERR_UNSUPPORTED;
   PBNS_ERR_UNIMPLEMENTED; PBNS_ERR_ENTROPY; PBNS_ERR_AMBIGUOUS; PBNS_ERR_RESOURCE;
   PBNS_ERR_IO; PBNS_ERR_BUSY].

(** An [int] converted to the enumeration; [None] outside of it. *)
Definition status_of_code (code : Z) : option pbns_status := rd all_statuses (- code).

(** [pbns_status_string], on the integer the [switch] inspects. *)
Definition pbns_status_string (code : Z) : string :=
  match status_of_code code with
  | Some PBNS_OK => "ok"
  | Some PBNS_ERR_ARGUMENT => "argument"
  | Some PBNS_ERR_LIMIT => "limit"
  | Some PBNS_ERR_FORMAT => "format"
  | Some PBNS_ERR_CRC => "crc"
  | Some PBNS_ERR_VERSION => "version"
  | Some PBNS_ERR_SERVICE => "service"
  | Some PBNS_ERR_MESSAGE_TYPE => "message-type"
  | Some PBNS_ERR_SEQUENCE => "sequence"
  | Some PBNS_ERR_STATE => "state"
  | Some PBNS_ERR_WOULD_BLOCK => "would-block"
  | Some PBNS_ERR_TIMEOUT => "timeout"
  | Some PBNS_ERR_TRANSPORT => "transport"
  | Some PBNS_ERR_CRYPTO => "crypto"
  | Some PBNS_ERR_AUTHENTICATION => "authentication"
  | Some PBNS_ERR_REPLAY => "replay"
  | Some PBNS_ERR_UNSUPPORTED => "unsupported"
  | Some PBNS_ERR_UNIMPLEMENTED => "unimplemented"
  | Some PBNS_ERR_ENTROPY => "entropy"
  | Some PBNS_ERR_AMBIGUOUS => "ambiguous"
  | Some PBNS_ERR_RESOURCE => "resource"
  | Some PBNS_ERR_IO => "io"
  | Some PBNS_ERR_BUSY => "busy"
  | None => "unknown"
  end.

(** ** Lemmas *)

Lemma is_ok_spec s : is_ok s = true <-> s = PBNS_OK.
Proof. destruct s; simpl; naive_solver. Qed.

Lemma is_ok_false s : is_ok s = false <-> s <> PBNS_OK.
Proof. destruct s; simpl; naive_solver. Qed.

Lemma status_eqb_spec a b : status_eqb a b = true <-> a = b.
Proof. apply bool_decide_eq_true. Qed.

Lemma status_of_code_code s : status_of_code (status_code s) = Some s.
Proof. by destruct s. Qed.

Lemma status_of_code_Some code s : status_of_code code = Some s <-> code = status_code s.
Proof.
  split; [|intros ->; apply status_of_code_code].
  unfold status_of_code, rd. intros H. zbool; simplify_eq/=.
  remember (Z.to_nat (- code)) as n eqn:En.
  assert (code = - Z.of_nat n) as -> by lia.
  do 23 (destruct n as [|n]; [by simplify_eq/=|]). simpl in *. lia.
Qed.

Lemma status_of_code_None code :
  status_of_code code = None <-> code < -22 \/ 0 < code.
Proof.
  unfold status_of_code, rd. zbool; simpl in *; split; intros; try done; try lia.
  assert (is_Some (all_statuses !! Z.to_nat (- code))) as [s Hs]
    by (apply lookup_lt_is_Some; simpl; lia).
  congruence.
Qed.

Lemma status_code_inj a b : status_code a = status_code b -> a = b.
Proof. intros E. apply (f_equal status_of_code) in E. rewrite !status_of_code_code in E. congruence. Qed.

(** Distinct codes have distinct names, and only untyped codes are "unknown". *)
Lemma pbns_status_string_typed a b :
  status_of_code a <> None -> pbns_status_string a = pbns_status_string b -> a = b.
Proof.
  unfold pbns_status_string. intros Ha E.
  destruct (status_of_code a) as [sa|] eqn:Ea; [|done].
  apply status_of_code_Some in Ea as ->.
  destruct (status_of_code b) as [sb|] eqn:Eb.
  - apply status_of_code_Some in Eb as ->. f_equal. destruct sa, sb; done.
  - destruct sa; done.
Qed.
