(* ===== verification/Step.v ===== *)
(** * Steps that end early

    The longer operations of the core run a sequence of calls over a workspace
    and the world outside, and leave for their cleanup code with a status as
    soon as one fails.  A [step] is such a sequence: it has no result when it
    faults, and otherwise ends with a status or goes on with a value.  [wp_step]
    describes a step that never faults, never ends with [PBNS_OK], and keeps the
    shape of the workspace. *)

From stdpp Require Import base list numbers.
From Stdlib Require Import ZArith.
From S2P Require Import Prelude Status.

Definition step (S W A : Type) : Type := S -> W -> option ((pbns_status + A) * S * W).

Definition ret_step {S W A} (x : A) : step S W A := fun s w => Some (inr x, s, w).
Definition end_step {S W A} (status : pbns_status) : step S W A := fun s w => Some (inl status, s, w).
Definition bind_step {S W A B} (m : step S W A) (f : A -> step S W B) : step S W B := fun s w =>
  match m s w with
  | None => None
  | Some (inl status, s, w) => Some (inl status, s, w)
  | Some (inr x, s, w) => f x s w
  end.
Notation "'let*' x := m 'in' k" := (bind_step m (fun x => k)) (at level 100, x pattern, m at next level, k at level 200).

Section steps.
Context {S W : Type} (keeps : S -> S -> Prop) `{!PreOrder keeps}.

Definition wp_step {A} (m : step S W A) (s : S) (w : W) (P : A -> S -> W -> Prop) : Prop :=
  exists r s' w', m s w = Some (r, s', w') /\ keeps s s'
  /\ match r with inl st => st <> PBNS_OK | inr x => P x s' w' end.

Lemma wps_bind {A B} (m : step S W A) (f : A -> step S W B) s w P R :
  wp_step m s w R -> (forall x s' w', keeps s s' -> R x s' w' -> wp_step (f x) s' w' P) ->
  wp_step (bind_step m f) s w P.
Proof.
  intros (r & s1 & w1 & E & Hs & Hr) Hf. unfold wp_step, bind_step. rewrite E. destruct r as [st|x].
  - by eexists _, _, _.
  - destruct (Hf x s1 w1 Hs Hr) as (r2 & s2 & w2 & E2 & Hs2 & Hr2). rewrite E2. eexists _, _, _. split; [done|].
    split; [by etransitivity|done].
Qed.

(** The two ways a step can end. *)
Lemma wps_end {A} (m : step S W A) s w s' w' st P :
  m s w = end_step st s' w' -> st <> PBNS_OK -> keeps s s' -> wp_step m s w P.
Proof. intros E Hst Hs. exists (inl st), s', w'. by rewrite E. Qed.

Lemma wps_ret {A} (m : step S W A) s w s' w' x (P : A -> S -> W -> Prop) :
  m s w = ret_step x s' w' -> keeps s s' -> P x s' w' -> wp_step m s w P.
Proof. intros E Hs HP. exists (inr x), s', w'. by rewrite E. Qed.

Lemma wps_mono {A} (m : step S W A) s w (P R : A -> S -> W -> Prop) :
  wp_step m s w P -> (forall x s' w', keeps s s' -> P x s' w' -> R x s' w') -> wp_step m s w R.
Proof. intros (r & s' & w' & E & Hs & Hr) H. exists r, s', w'. split; [done|]. split; [done|]. destruct r; auto. Qed.
End steps.
