(* ===== verification/Buffers.v ===== *)
(** * Views and buffers ([include/pbns/buffer.h])

    A view or a buffer is a pointer with a length.  The model keeps the
    address, because the sources compare pointers with [NULL] and test ranges
    for overlap, together with the octets it refers to at the time of the
    call. *)

From stdpp Require Import base list numbers.
From Stdlib Require Import ZArith Lia.
From S2P Require Import Prelude.

(** [pbns_view]: [len] is the number of octets. *)
Record pbns_view := mk_view { v_ptr : Z; v_data : bytes }.

Definition v_len (view : pbns_view) : Z := zlen (v_data view).

(** [pbns_buffer]: [cap] is the number of octets of the storage. *)
Record pbns_buffer := mk_buffer { b_ptr : Z; b_len : Z; b_data : bytes }.

Definition b_cap (buffer : pbns_buffer) : Z := zlen (b_data buffer).

Definition null_view : pbns_view := mk_view 0 [].
Definition null_buffer : pbns_buffer := mk_buffer 0 0 [].

(** [view.ptr != NULL || view.len == 0U] *)
Definition view_is_valid (view : pbns_view) : bool :=
  negb (v_ptr view =? 0) || (v_len view =? 0).

(** [buffer.len == 0U && (buffer.ptr != NULL || buffer.cap == 0U)] *)
Definition buffer_is_valid (buffer : pbns_buffer) : bool :=
  (b_len buffer =? 0) && (negb (b_ptr buffer =? 0) || (b_cap buffer =? 0)).

(** The overlap test of two address ranges. *)
Definition ranges_overlap `{Machine} (left left_len right right_len : Z) : bool :=
  if (left_len =? 0) || (right_len =? 0) then false
  else if (UINTPTR_MAX - left <? left_len) || (UINTPTR_MAX - right <? right_len) then true
  else (left <? right + right_len) && (right <? left + left_len).

(** The buffer with new contents. *)
Definition with_data (buffer : pbns_buffer) (data : bytes) : pbns_buffer :=
  mk_buffer (b_ptr buffer) (b_len buffer) data.

(** ** Lemmas *)

Lemma view_is_valid_spec v : view_is_valid v = true <-> v_ptr v <> 0 \/ v_data v = [].
Proof.
  unfold view_is_valid, v_len. rewrite orb_true_iff, negb_true_iff, Z.eqb_neq, Z.eqb_eq.
  destruct (v_data v); simpl; naive_solver lia.
Qed.

Lemma buffer_is_valid_spec b :
  buffer_is_valid b = true <-> b_len b = 0 /\ (b_ptr b <> 0 \/ b_data b = []).
Proof.
  unfold buffer_is_valid, b_cap.
  rewrite andb_true_iff, orb_true_iff, negb_true_iff, Z.eqb_neq, !Z.eqb_eq.
  destruct (b_data b); simpl; naive_solver lia.
Qed.

(** The overlap test is exact: it fails to report two ranges of the address
    space only when they share no address. *)
Lemma ranges_overlap_sound `{Machine} l ll r rl :
  0 <= ll -> 0 <= rl -> ranges_overlap l ll r rl = false ->
  forall a, ~ (l <= a < l + ll /\ r <= a < r + rl).
Proof. unfold ranges_overlap. intros Hl Hr E a. zbool; simpl in *; done || lia. Qed.

Lemma ranges_overlap_complete `{Machine} l ll r rl :
  0 <= ll -> 0 <= rl -> l + ll <= UINTPTR_MAX -> r + rl <= UINTPTR_MAX ->
  ranges_overlap l ll r rl = true ->
  exists a, l <= a < l + ll /\ r <= a < r + rl.
Proof.
  unfold ranges_overlap. intros Hl0 Hr0 Hl Hr E.
  destruct (_ || _) eqn:E0 in E; [done|]. bools.
  zbool; simpl in *; try done; try lia. exists (Z.max l r). lia.
Qed.
