(* ===== verification/Crc32c.v ===== *)
(** * CRC-32C ([include/pbns/crc32c.h], [src/core/crc32c.c])

    The table-driven checksum, the bit-at-a-time reference it implements
    (reflected Castagnoli polynomial [0x82f63b78]), their equivalence, and what
    the checksum detects. *)

From stdpp Require Import base list numbers.
From Stdlib Require Import ZArith Lia.
From S2P Require Import Prelude Buffers.

(** ** The code *)

Definition crc32c_table : list Z :=
  [
   0x00000000; 0xf26b8303; 0xe13b70f7; 0x1350f3f4; 0xc79a971f; 0x35f1141c;
   0x26a1e7e8; 0xd4ca64eb; 0x8ad958cf; 0x78b2dbcc; 0x6be22838; 0x9989ab3b;
   0x4d43cfd0; 0xbf284cd3; 0xac78bf27; 0x5e133c24; 0x105ec76f; 0xe235446c;
   0xf165b798; 0x030e349b; 0xd7c45070; 0x25afd373; 0x36ff2087; 0xc494a384;
   0x9a879fa0; 0x68ec1ca3; 0x7bbcef57; 0x89d76c54; 0x5d1d08bf; 0xaf768bbc;
   0xbc267848; 0x4e4dfb4b; 0x20bd8ede; 0xd2d60ddd; 0xc186fe29; 0x33ed7d2a;
   0xe72719c1; 0x154c9ac2; 0x061c6936; 0xf477ea35; 0xaa64d611; 0x580f5512;
   0x4b5fa6e6; 0xb93425e5; 0x6dfe410e; 0x9f95c20d; 0x8cc531f9; 0x7eaeb2fa;
   0x30e349b1; 0xc288cab2; 0xd1d83946; 0x23b3ba45; 0xf779deae; 0x05125dad;
   0x1642ae59; 0xe4292d5a; 0xba3a117e; 0x4851927d; 0x5b016189; 0xa96ae28a;
   0x7da08661; 0x8fcb0562; 0x9c9bf696; 0x6ef07595; 0x417b1dbc; 0xb3109ebf;
   0xa0406d4b; 0x522bee48; 0x86e18aa3; 0x748a09a0; 0x67dafa54; 0x95b17957;
   0xcba24573; 0x39c9c670; 0x2a993584; 0xd8f2b687; 0x0c38d26c; 0xfe53516f;
   0xed03a29b; 0x1f682198; 0x5125dad3; 0xa34e59d0; 0xb01eaa24; 0x42752927;
   0x96bf4dcc; 0x64d4cecf; 0x77843d3b; 0x85efbe38; 0xdbfc821c; 0x2997011f;
   0x3ac7f2eb; 0xc8ac71e8; 0x1c661503; 0xee0d9600; 0xfd5d65f4; 0x0f36e6f7;
   0x61c69362; 0x93ad1061; 0x80fde395; 0x72966096; 0xa65c047d; 0x5437877e;
   0x4767748a; 0xb50cf789; 0xeb1fcbad; 0x197448ae; 0x0a24bb5a; 0xf84f3859;
   0x2c855cb2; 0xdeeedfb1; 0xcdbe2c45; 0x3fd5af46; 0x7198540d; 0x83f3d70e;
   0x90a324fa; 0x62c8a7f9; 0xb602c312; 0x44694011; 0x5739b3e5; 0xa55230e6;
   0xfb410cc2; 0x092a8fc1; 0x1a7a7c35; 0xe811ff36; 0x3cdb9bdd; 0xceb018de;
   0xdde0eb2a; 0x2f8b6829; 0x82f63b78; 0x709db87b; 0x63cd4b8f; 0x91a6c88c;
   0x456cac67; 0xb7072f64; 0xa457dc90; 0x563c5f93; 0x082f63b7; 0xfa44e0b4;
   0xe9141340; 0x1b7f9043; 0xcfb5f4a8; 0x3dde77ab; 0x2e8e845f; 0xdce5075c;
   0x92a8fc17; 0x60c37f14; 0x73938ce0; 0x81f80fe3; 0x55326b08; 0xa759e80b;
   0xb4091bff; 0x466298fc; 0x1871a4d8; 0xea1a27db; 0xf94ad42f; 0x0b21572c;
   0xdfeb33c7; 0x2d80b0c4; 0x3ed04330; 0xccbbc033; 0xa24bb5a6; 0x502036a5;
   0x4370c551; 0xb11b4652; 0x65d122b9; 0x97baa1ba; 0x84ea524e; 0x7681d14d;
   0x2892ed69; 0xdaf96e6a; 0xc9a99d9e; 0x3bc21e9d; 0xef087a76; 0x1d63f975;
   0x0e330a81; 0xfc588982; 0xb21572c9; 0x407ef1ca; 0x532e023e; 0xa145813d;
   0x758fe5d6; 0x87e466d5; 0x94b49521; 0x66df1622; 0x38cc2a06; 0xcaa7a905;
   0xd9f75af1; 0x2b9cd9f2; 0xff56bd19; 0x0d3d3e1a; 0x1e6dcdee; 0xec064eed;
   0xc38d26c4; 0x31e6a5c7; 0x22b65633; 0xd0ddd530; 0x0417b1db; 0xf67c32d8;
   0xe52cc12c; 0x1747422f; 0x49547e0b; 0xbb3ffd08; 0xa86f0efc; 0x5a048dff;
   0x8ecee914; 0x7ca56a17; 0x6ff599e3; 0x9d9e1ae0; 0xd3d3e1ab; 0x21b862a8;
   0x32e8915c; 0xc083125f; 0x144976b4; 0xe622f5b7; 0xf5720643; 0x07198540;
   0x590ab964; 0xab613a67; 0xb831c993; 0x4a5a4a90; 0x9e902e7b; 0x6cfbad78;
   0x7fab5e8c; 0x8dc0dd8f; 0xe330a81a; 0x115b2b19; 0x020bd8ed; 0xf0605bee;
   0x24aa3f05; 0xd6c1bc06; 0xc5914ff2; 0x37faccf1; 0x69e9f0d5; 0x9b8273d6;
   0x88d28022; 0x7ab90321; 0xae7367ca; 0x5c18e4c9; 0x4f48173d; 0xbd23943e;
   0xf36e6f75; 0x0105ec76; 0x12551f82; 0xe03e9c81; 0x34f4f86a; 0xc69f7b69;
   0xd5cf889d; 0x27a40b9e; 0x79b737ba; 0x8bdcb4b9; 0x988c474d; 0x6ae7c44e;
   0xbe2da0a5; 0x4c4623a6; 0x5f16d052; 0xad7d5351].

(** One round of the loop:
    [crc = crc32c_table[(uint8_t)(crc ^ octet)] ^ (crc >> 8U)]. *)
Definition crc32c_update (crc octet : Z) : Z :=
  let table_index := u8 (Z.lxor crc octet) in
  Z.lxor (crc32c_table !!! Z.to_nat table_index) (Z.shiftr crc 8).

(** The checksum of a run of octets; [~crc] on 32 bits. *)
Definition crc32c_bytes (data : bytes) : Z :=
  Z.lxor (fold_left crc32c_update data UINT32_MAX) UINT32_MAX.

Definition pbns_crc32c (input : pbns_view) : Z :=
  if (v_ptr input =? 0) && negb (v_len input =? 0) then 0
  else crc32c_bytes (v_data input).

(** ** The reference *)

Definition crc32c_polynomial : Z := 0x82f63b78.

(** One bit of polynomial division, least significant bit first. *)
Definition crc_bit (c : Z) : Z :=
  if Z.testbit c 0 then Z.lxor (Z.shiftr c 1) crc32c_polynomial else Z.shiftr c 1.

Definition crc_octet (c octet : Z) : Z := Nat.iter 8 crc_bit (Z.lxor c octet).

Definition crc32c_reference (data : bytes) : Z :=
  Z.lxor (fold_left crc_octet data UINT32_MAX) UINT32_MAX.

(** ** The reference is linear over exclusive or *)

Lemma crc_bit_lxor a b : crc_bit (Z.lxor a b) = Z.lxor (crc_bit a) (crc_bit b).
Proof.
  unfold crc_bit. rewrite Z.lxor_spec, Z.shiftr_lxor.
  destruct (Z.testbit a 0), (Z.testbit b 0); simpl; Z.bitwise;
    repeat match goal with |- context [Z.testbit ?x ?n] => destruct (Z.testbit x n) end; done.
Qed.

Lemma crc_bits_lxor n a b :
  Nat.iter n crc_bit (Z.lxor a b) = Z.lxor (Nat.iter n crc_bit a) (Nat.iter n crc_bit b).
Proof. induction n as [|n IH]; [done|]. simpl. by rewrite IH, crc_bit_lxor. Qed.

Lemma crc_bit_shiftl h k : 0 <= k -> crc_bit (Z.shiftl h (k + 1)) = Z.shiftl h k.
Proof.
  intros Hk. unfold crc_bit. rewrite Z.shiftl_spec_low by lia.
  rewrite Z.shiftr_shiftl_l by lia. f_equal. lia.
Qed.

Lemma crc_bits_shiftl n h : Nat.iter n crc_bit (Z.shiftl h (Z.of_nat n)) = h.
Proof.
  induction n as [|n IH]; [by rewrite Z.shiftl_0_r|].
  rewrite Nat.iter_succ_r. rewrite Nat2Z.inj_succ, <- Z.add_1_r, crc_bit_shiftl by lia. done.
Qed.

(** ** The table *)

Lemma crc32c_table_checked :
  forallb (fun i => (crc32c_table !!! i) =? Nat.iter 8 crc_bit (Z.of_nat i)) (seq 0 256) = true.
Proof. vm_compute. reflexivity. Qed.

Lemma crc32c_table_bits i : is_byte i -> crc32c_table !!! Z.to_nat i = Nat.iter 8 crc_bit i.
Proof.
  intros Hi. unfold is_byte in Hi. pose proof crc32c_table_checked as H.
  rewrite forallb_forall in H. specialize (H (Z.to_nat i)).
  rewrite Z2Nat.id in H by lia. apply Z.eqb_eq, H. apply in_seq. lia.
Qed.

(** ** Equivalence *)

Lemma lxor_split8 x : x = Z.lxor (Z.shiftl (Z.shiftr x 8) 8) (u8 x).
Proof.
  unfold u8. apply Z.bits_inj'. intros n Hn. rewrite Z.lxor_spec.
  rewrite Z.shiftl_spec by lia. destruct (Z.ltb_spec n 8).
  - rewrite Z.mod_pow2_bits_low by lia. rewrite (Z.testbit_neg_r _ (n - 8)) by lia.
    by rewrite xorb_false_l.
  - rewrite Z.mod_pow2_bits_high by lia. rewrite Z.shiftr_spec by lia.
    rewrite xorb_false_r. f_equal. lia.
Qed.

Lemma shiftr8_byte b : is_byte b -> Z.shiftr b 8 = 0.
Proof. unfold is_byte. intros. rewrite Z.shiftr_div_pow2 by lia. apply Z.div_small. lia. Qed.

Lemma crc32c_update_octet crc b : is_byte b -> crc32c_update crc b = crc_octet crc b.
Proof.
  intros Hb. unfold crc32c_update, crc_octet.
  rewrite crc32c_table_bits by apply u8_byte.
  rewrite (lxor_split8 (Z.lxor crc b)) at 2. rewrite crc_bits_lxor.
  rewrite Z.shiftr_lxor, (shiftr8_byte b Hb), Z.lxor_0_r.
  change 8 with (Z.of_nat 8) at 3. rewrite crc_bits_shiftl. apply Z.lxor_comm.
Qed.

Lemma fold_left_ext {A B} (f g : A -> B -> A) l a :
  (forall x b, b ∈ l -> f x b = g x b) -> fold_left f l a = fold_left g l a.
Proof.
  revert a. induction l as [|b l IH]; intros a H; [done|]. simpl.
  rewrite H by constructor. apply IH. intros. apply H. by constructor.
Qed.

Lemma crc32c_bytes_reference data : bytes_ok data -> crc32c_bytes data = crc32c_reference data.
Proof.
  intros H. unfold crc32c_bytes, crc32c_reference. f_equal. apply fold_left_ext.
  intros x b Hb. apply crc32c_update_octet. unfold bytes_ok in H.
  rewrite Forall_forall in H. by apply H, list_elem_of_In.
Qed.

(** ** Range *)

Definition is_u32 (c : Z) : Prop := 0 <= c < 2 ^ 32.

Lemma lxor_u32 a b : is_u32 a -> is_u32 b -> is_u32 (Z.lxor a b).
Proof.
  unfold is_u32. intros [Ha Ha'] [Hb Hb']. split; [apply Z.lxor_nonneg; lia|].
  destruct (Z.eq_dec (Z.lxor a b) 0) as [->|]; [lia|].
  apply Z.log2_lt_pow2; [pose proof (Z.lxor_nonneg a b); lia|].
  pose proof (Z.log2_lxor a b Ha Hb).
  assert (forall c, 0 <= c < 2 ^ 32 -> Z.log2 c < 32).
  { intros c Hc. destruct (Z.eq_dec c 0) as [->|]; [done|]. apply Z.log2_lt_pow2; lia. }
  pose proof (H0 a ltac:(lia)). pose proof (H0 b ltac:(lia)). lia.
Qed.

Lemma crc_bit_u32 c : is_u32 c -> is_u32 (crc_bit c).
Proof.
  intros H. assert (Hs : is_u32 (Z.shiftr c 1)).
  { unfold is_u32 in *. rewrite Z.shiftr_div_pow2 by lia. change (2 ^ 1) with 2.
    split; [apply Z.div_pos; lia|]. apply Z.div_lt_upper_bound; lia. }
  unfold crc_bit. destruct (Z.testbit c 0); [|done]. by apply lxor_u32.
Qed.

Lemma crc_octet_u32 c b : is_u32 c -> is_byte b -> is_u32 (crc_octet c b).
Proof.
  intros Hc Hb. unfold crc_octet.
  assert (is_u32 (Z.lxor c b)) by (apply lxor_u32; unfold is_u32, is_byte in *; lia).
  simpl. by repeat apply crc_bit_u32.
Qed.

Lemma crc_fold_u32 l c : bytes_ok l -> is_u32 c -> is_u32 (fold_left crc_octet l c).
Proof.
  intros Hl. revert c. induction Hl; intros c Hc; simpl; [done|].
  auto using crc_octet_u32.
Qed.

Lemma crc32c_bytes_u32 data : bytes_ok data -> is_u32 (crc32c_bytes data).
Proof.
  intros. rewrite crc32c_bytes_reference by done.
  by apply lxor_u32; [apply crc_fold_u32|].
Qed.

(** ** Error detection *)

(** A division step never sends a non-zero remainder to zero: the top bit of
    the polynomial survives whenever it is added. *)
Lemma crc_bit_kernel c : is_u32 c -> crc_bit c = 0 -> c = 0.
Proof.
  intros Hc E. unfold crc_bit in E. destruct (Z.testbit c 0) eqn:E0.
  - apply (f_equal (fun z => Z.testbit z 31)) in E. rewrite Z.lxor_spec in E.
    rewrite Z.shiftr_spec in E by lia. rewrite Z.bits_0 in E.
    unfold is_u32 in Hc. rewrite <- (Z.mod_small c (2 ^ 32)) in E by lia.
    rewrite Z.mod_pow2_bits_high in E by lia. discriminate.
  - rewrite Z.shiftr_div_pow2 in E by lia. change (2 ^ 1) with 2 in E.
    unfold is_u32 in Hc. rewrite (Z.div_mod c 2) by lia. rewrite E.
    rewrite <- Z.bit0_mod, E0. done.
Qed.

Lemma crc_bits_kernel n c : is_u32 c -> Nat.iter n crc_bit c = 0 -> c = 0.
Proof.
  revert c. induction n as [|n IH]; intros c Hc E; [done|].
  rewrite Nat.iter_succ_r in E. by apply crc_bit_kernel, IH; auto using crc_bit_u32.
Qed.


(** A round is injective in the running remainder... *)
Lemma crc_octet_inj c c' b :
  is_u32 c -> is_u32 c' -> crc_octet c b = crc_octet c' b -> c = c'.
Proof.
  intros Hc Hc' E. unfold crc_octet in E. rewrite !crc_bits_lxor in E.
  apply Z.lxor_eq. apply (crc_bits_kernel 8); [by apply lxor_u32|].
  rewrite crc_bits_lxor. apply Z.lxor_eq_0_iff.
  apply (f_equal (fun z => Z.lxor z (Nat.iter 8 crc_bit b))) in E.
  by rewrite !Z.lxor_assoc, Z.lxor_nilpotent, !Z.lxor_0_r in E.
Qed.

(** ... and in the octet. *)
Lemma crc_octet_inj_octet c b b' :
  is_byte b -> is_byte b' -> crc_octet c b = crc_octet c b' -> b = b'.
Proof.
  intros Hb Hb' E. unfold crc_octet in E. rewrite !crc_bits_lxor in E.
  apply Z.lxor_eq. apply (crc_bits_kernel 8).
  { apply lxor_u32; unfold is_u32, is_byte in *; lia. }
  rewrite crc_bits_lxor. apply Z.lxor_eq_0_iff.
  apply (f_equal (Z.lxor (Nat.iter 8 crc_bit c))) in E.
  by rewrite <- !Z.lxor_assoc, Z.lxor_nilpotent, !Z.lxor_0_l in E.
Qed.

Lemma crc_fold_inj l c c' :
  bytes_ok l -> is_u32 c -> is_u32 c' ->
  fold_left crc_octet l c = fold_left crc_octet l c' -> c = c'.
Proof.
  intros Hl. revert c c'. induction Hl as [|b l Hb Hl IH]; intros c c' Hc Hc' E; [done|].
  simpl in E. apply IH in E; [|by apply crc_octet_u32..].
  by apply crc_octet_inj in E.
Qed.

Lemma lxor_cancel_r a b c : Z.lxor a c = Z.lxor b c -> a = b.
Proof.
  intros E. apply (f_equal (fun z => Z.lxor z c)) in E.
  by rewrite !Z.lxor_assoc, Z.lxor_nilpotent, !Z.lxor_0_r in E.
Qed.

(** The checksum of two runs that differ in one octet differs. *)
Lemma crc32c_bytes_one_octet l b b' r :
  bytes_ok (l ++ b :: r) -> is_byte b' -> b <> b' ->
  crc32c_bytes (l ++ b :: r) <> crc32c_bytes (l ++ b' :: r).
Proof.
  intros Hok Hb' Hne E. apply bytes_ok_app in Hok as [Hl [Hb Hr]%bytes_ok_cons].
  rewrite !crc32c_bytes_reference in E
    by (apply bytes_ok_app; split; [done|by apply bytes_ok_cons]).
  unfold crc32c_reference in E. apply lxor_cancel_r in E.
  rewrite !fold_left_app in E. simpl in E.
  apply crc_fold_inj in E; [|done|apply crc_octet_u32; [by apply crc_fold_u32|done]..].
  apply crc_octet_inj_octet in E; done.
Qed.

#[export] Hint Resolve crc32c_bytes_u32 : pbns.

(** ** Properties *)

(** C31: on any run of octets the table-driven loop computes the bit-at-a-time
    CRC-32C of the run (reflected Castagnoli polynomial, initial remainder and
    final complement all ones); a [NULL] view with a length gives [0]. *)
Theorem pbns_crc32c_correct (input : pbns_view) :
  bytes_ok (v_data input) ->
  pbns_crc32c input =
    if view_is_valid input then crc32c_reference (v_data input) else 0.
Proof.
  intros Hok. unfold pbns_crc32c, view_is_valid.
  rewrite crc32c_bytes_reference by done. by destruct (v_ptr input =? 0), (v_len input =? 0).
Qed.

(** The standard check value of CRC-32C. *)
Lemma pbns_crc32c_correct_witness :
  pbns_crc32c (mk_view 4096 [49; 50; 51; 52; 53; 54; 55; 56; 57]) = 0xe3069283.
Proof. rewrite pbns_crc32c_correct by (repeat constructor; done). vm_compute. reflexivity. Defined.

(** The checksum detects every change of a single octet, whatever its
    position and the length of the run. *)
Theorem pbns_crc32c_detects_octet (p q : Z) (l r : bytes) (b b' : Z) :
  bytes_ok (l ++ b :: r) -> is_byte b' -> b <> b' -> p <> 0 -> q <> 0 ->
  pbns_crc32c (mk_view p (l ++ b :: r)) <> pbns_crc32c (mk_view q (l ++ b' :: r)).
Proof.
  intros Hok Hb' Hne Hp Hq. unfold pbns_crc32c. simpl.
  rewrite (proj2 (Z.eqb_neq p 0) Hp), (proj2 (Z.eqb_neq q 0) Hq). simpl.
  by apply crc32c_bytes_one_octet.
Qed.

Lemma pbns_crc32c_detects_octet_witness :
  pbns_crc32c (mk_view 4096 [80; 66; 78; 83]) <> pbns_crc32c (mk_view 4096 [80; 66; 79; 83]).
Proof.
  apply (pbns_crc32c_detects_octet 4096 4096 [80; 66] [83] 78 79); try done.
  repeat constructor; done.
Defined.
