(* ===== verification/Cobs.v ===== *)
(** * Consistent overhead byte stuffing ([include/pbns/cobs.h], [src/core/cobs.c])

    The encoder and the decoder with their indices, capacity checks and early
    returns; the block-structured reference functions they implement; memory
    safety, exact capacity behaviour, absence of zero octets and the round
    trip. *)

From stdpp Require Import base list numbers.
From Stdlib Require Import ZArith Lia.
From S2P Require Import Prelude Status Buffers.

(** ** The code *)

Definition pbns_cobs_max_encoded_size `{Machine} (input_len : Z) (result : ptr Z)
  : pbns_status * ptr Z :=
  match result with
  | None => (PBNS_ERR_ARGUMENT, None)
  | Some _ =>
      let overhead := input_len / 254 + 1 in
      if SIZE_MAX - overhead <? input_len then (PBNS_ERR_LIMIT, Some 0)
      else (PBNS_OK, Some (input_len + overhead))
  end.

(** The [while] loop of the encoder.  [read_index] is the position of [input]
    in the view; each round consumes one octet.  The result is the status, the
    storage and [*written]. *)
Fixpoint cobs_encode_loop (input output : bytes) (write_index code_index code : Z)
  : option (pbns_status * bytes * Z) :=
  match input with
  | [] =>
      output ← wr output code_index code;
      Some (PBNS_OK, output, write_index)
  | octet :: input' =>
      if octet =? 0 then
        output ← wr output code_index code;
        let code_index := write_index in
        if zlen output <=? write_index then Some (PBNS_ERR_LIMIT, output, 0)
        else cobs_encode_loop input' output (write_index + 1) code_index 1
      else if zlen output <=? write_index then Some (PBNS_ERR_LIMIT, output, 0)
      else
        output ← wr output write_index octet;
        let write_index := write_index + 1 in
        let code := u8 (code + 1) in
        if code =? UINT8_MAX then
          output ← wr output code_index code;
          let code_index := write_index in
          if zlen output <=? write_index then Some (PBNS_ERR_LIMIT, output, 0)
          else cobs_encode_loop input' output (write_index + 1) code_index 1
        else cobs_encode_loop input' output write_index code_index code
  end.

(** The result is the status, the contents of the output storage and
    [*written]; no result means an access outside the storage. *)
Definition pbns_cobs_encode (input : pbns_view) (output : pbns_buffer) (written : ptr Z)
  : option (pbns_status * bytes * ptr Z) :=
  match written with
  | None => Some (PBNS_ERR_ARGUMENT, b_data output, None)
  | Some _ =>
      if negb (view_is_valid input) || negb (buffer_is_valid output) then
        Some (PBNS_ERR_ARGUMENT, b_data output, Some 0)
      else if b_cap output =? 0 then Some (PBNS_ERR_LIMIT, b_data output, Some 0)
      else
        r ← cobs_encode_loop (v_data input) (b_data output) 1 0 1;
        let '(status, data, count) := r in
        Some (status, data, Some count)
  end.

(** The inner loop of the decoder, from [offset] on; [false] is the early
    return on a zero octet. *)
Fixpoint cobs_copy_run (count : nat) (input output : bytes) (read_index write_index offset : Z)
  : option (bool * bytes) :=
  match count with
  | O => Some (true, output)
  | S count' =>
      value ← rd input (read_index + offset);
      if value =? 0 then Some (false, output)
      else
        output ← wr output (write_index + offset) value;
        cobs_copy_run count' input output read_index write_index (offset + 1)
  end.

(** The outer [while] loop; every round consumes a code octet, so the length of
    the input bounds the rounds. *)
Fixpoint cobs_decode_loop (fuel : nat) (input output : bytes) (read_index write_index : Z)
  : option (pbns_status * bytes * Z) :=
  match fuel with
  | O => None
  | S fuel' =>
      if read_index <? zlen input then
        code ← rd input read_index;
        let read_index := read_index + 1 in
        if code =? 0 then Some (PBNS_ERR_FORMAT, output, 0)
        else
          let run_length := code - 1 in
          if zlen input - read_index <? run_length then Some (PBNS_ERR_FORMAT, output, 0)
          else if zlen output - write_index <? run_length then
            Some (PBNS_ERR_LIMIT, output, 0)
          else
            copied ← cobs_copy_run (Z.to_nat run_length) input output read_index write_index 0;
            let '(clean, output) := copied in
            if negb clean then Some (PBNS_ERR_FORMAT, output, 0)
            else
              let read_index := read_index + run_length in
              let write_index := write_index + run_length in
              if negb (code =? UINT8_MAX) && (read_index <? zlen input) then
                if zlen output <=? write_index then Some (PBNS_ERR_LIMIT, output, 0)
                else
                  output ← wr output write_index 0;
                  cobs_decode_loop fuel' input output read_index (write_index + 1)
              else cobs_decode_loop fuel' input output read_index write_index
      else Some (PBNS_OK, output, write_index)
  end.

Definition pbns_cobs_decode (input : pbns_view) (output : pbns_buffer) (written : ptr Z)
  : option (pbns_status * bytes * ptr Z) :=
  match written with
  | None => Some (PBNS_ERR_ARGUMENT, b_data output, None)
  | Some _ =>
      if negb (view_is_valid input) || negb (buffer_is_valid output) then
        Some (PBNS_ERR_ARGUMENT, b_data output, Some 0)
      else if v_len input =? 0 then Some (PBNS_ERR_FORMAT, b_data output, Some 0)
      else
        r ← cobs_decode_loop (S (length (v_data input))) (v_data input) (b_data output) 0 0;
        let '(status, data, count) := r in
        Some (status, data, Some count)
  end.

(** ** The reference

    A message is cut into blocks: a code octet [n], [n - 1] non-zero octets,
    and, unless [n] is 255 or the block is the last one, an implied zero. *)

Fixpoint cobs_stuff (block : bytes) (l : bytes) : bytes :=
  match l with
  | [] => (zlen block + 1) :: block
  | b :: l' =>
      if b =? 0 then (zlen block + 1) :: block ++ cobs_stuff [] l'
      else if zlen block + 1 =? 254 then 255 :: block ++ b :: cobs_stuff [] l'
      else cobs_stuff (block ++ [b]) l'
  end.

Fixpoint cobs_unstuff (fuel : nat) (l : bytes) : option bytes :=
  match fuel, l with
  | _, [] => Some []
  | O, _ => None
  | S fuel', code :: l' =>
      let n := Z.to_nat (code - 1) in
      if (code =? 0) || (zlen l' <? code - 1) || existsb (Z.eqb 0) (take n l') then None
      else
        rest ← cobs_unstuff fuel' (drop n l');
        Some (take n l' ++ (if negb (code =? 255) && (0 <? zlen (drop n l')) then [0] else []) ++ rest)
  end.

Definition cobs_encoded (l : bytes) : bytes := cobs_stuff [] l.
Definition cobs_decoded (l : bytes) : option bytes := cobs_unstuff (length l) l.

(** ** Length of the reference *)

Lemma cobs_stuff_length_ge blk l : zlen blk + zlen l + 1 <= zlen (cobs_stuff blk l).
Proof.
  revert blk. induction l as [|b l IH]; intros blk; cbn [cobs_stuff]; [llia|].
  pose proof (IH []). pose proof (IH (blk ++ [b])). zbool; llia.
Qed.

Lemma cobs_stuff_length_le blk l :
  zlen blk < 254 ->
  zlen (cobs_stuff blk l) <= zlen blk + zlen l + 1 + (zlen blk + zlen l) / 254.
Proof.
  revert blk. induction l as [|b l IH]; intros blk Hb; cbn [cobs_stuff].
  { assert (0 <= (zlen blk + 0) / 254) by (apply Z.div_pos; lia). llia. }
  pose proof (IH [] ltac:(llia)) as H0. zbool.
  - assert (zlen l / 254 <= (zlen blk + zlen (b :: l)) / 254)
      by (apply Z.div_le_mono; llia). llia.
  - replace (zlen blk + zlen (b :: l)) with (zlen l + 1 * 254) by llia.
    rewrite Z.div_add by lia. llia.
  - replace (zlen blk + zlen (b :: l)) with (zlen (blk ++ [b]) + zlen l) by llia.
    apply IH. llia.
Qed.

(** ** The encoder implements the reference *)

Section encode_loop.
Implicit Types input done blk rest out : bytes.

(** What the loop returns when the encoding it is to complete is [e]. *)
Definition encode_result (out e : bytes) (r : option (pbns_status * bytes * Z)) : Prop :=
  if zlen e <=? zlen out then
    exists rest', r = Some (PBNS_OK, e ++ rest', zlen e) /\ length (e ++ rest') = length out
  else exists out', r = Some (PBNS_ERR_LIMIT, out', 0) /\ length out' = length out.

Lemma encode_result_full out out0 e :
  length out = length out0 -> zlen out < zlen e ->
  encode_result out0 e (Some (PBNS_ERR_LIMIT, out, 0)).
Proof. unfold encode_result. intros. zbool; [lia|]. by exists out. Qed.

Lemma encode_result_length out out' e r :
  length out = length out' -> encode_result out e r -> encode_result out' e r.
Proof. unfold encode_result. by intros ->. Qed.

(** The reserved code octet of a state, and the pending block before it. *)
Definition encode_state (out done : bytes) (y : Z) (blk rest : bytes) : Prop :=
  out = done ++ y :: blk ++ rest /\ zlen blk < 254.

Lemma encode_state_close out done y blk rest c :
  encode_state out done y blk rest ->
  wr out (zlen done) c = Some (done ++ c :: blk ++ rest).
Proof. intros [-> _]. by apply wr_app_head. Qed.

Lemma encode_state_put out done y blk z rest b :
  encode_state out done y blk (z :: rest) ->
  wr out (zlen done + 1 + zlen blk) b = Some (done ++ y :: (blk ++ [b]) ++ rest).
Proof.
  intros [-> _]. rewrite <- (app_assoc blk). simpl.
  replace (done ++ y :: blk ++ z :: rest) with ((done ++ y :: blk) ++ z :: rest)
    by (by rewrite <- app_assoc).
  rewrite wr_app_head by llia. by rewrite <- app_assoc.
Qed.

(** The loop from a state: [done] is final, [y] is the reserved code octet,
    [blk] the pending block and [rest] unused storage. *)
Definition encode_loop_ok (input : bytes) : Prop :=
  forall out done y blk rest,
  encode_state out done y blk rest ->
  encode_result out (done ++ cobs_stuff blk input)
    (cobs_encode_loop input out (zlen done + 1 + zlen blk) (zlen done) (zlen blk + 1)).

(** Reserving the code octet of the next block. *)
Lemma encode_next_block input out done rest wi :
  encode_loop_ok input -> out = done ++ rest -> wi = zlen done ->
  encode_result out (done ++ cobs_stuff [] input)
    (if zlen out <=? wi then Some (PBNS_ERR_LIMIT, out, 0)
     else cobs_encode_loop input out (wi + 1) wi 1).
Proof.
  intros IH -> ->. pose proof (cobs_stuff_length_ge [] input).
  destruct (Z.leb_spec (zlen (done ++ rest)) (zlen done)).
  - apply encode_result_full; llia.
  - destruct rest as [|z rest]; [llia|].
    specialize (IH (done ++ z :: rest) done z [] rest). simpl in IH.
    rewrite Z.add_0_r in IH. apply IH. split; [done|simpl; lia].
Qed.

Lemma cobs_encode_loop_spec input : encode_loop_ok input.
Proof.
  induction input as [|b input IH]; intros out done y blk rest Hst;
    cbn [cobs_encode_loop]; pose proof Hst as [Hout Hblk].
  { erewrite encode_state_close by done. simpl. unfold encode_result. subst out.
    zbool; [|llia]. exists rest. rewrite <- app_assoc. split; [|llia]. do 3 f_equal. llia. }
  pose proof (cobs_stuff_length_ge blk (b :: input)) as Hge. cbn [cobs_stuff] in *.
  destruct (Z.eqb_spec b 0).
  { erewrite encode_state_close by done. simpl.
    pose proof (encode_next_block input (done ++ (zlen blk + 1) :: blk ++ rest)
                  (done ++ (zlen blk + 1) :: blk) rest (zlen done + 1 + zlen blk) IH) as H.
    rewrite <- !app_assoc in H. simpl in H. subst out.
    eapply encode_result_length; [|apply H]; llia || done. }
  destruct (Z.leb_spec (zlen out) (zlen done + 1 + zlen blk)).
  { apply encode_result_full; llia. }
  destruct rest as [|z rest]; [subst out; llia|].
  erewrite encode_state_put by done. cbn [mbind option_bind].
  rewrite u8_small by (unfold is_byte; lia).
  assert (Hlen : length out = length (done ++ y :: (blk ++ [b]) ++ rest)) by (subst out; llia).
  apply (encode_result_length _ _ _ _ (eq_sym Hlen)). unfold UINT8_MAX.
  destruct (Z.eqb_spec (zlen blk + 1) 254).
  - replace (zlen blk + 1 + 1 =? 255) with true by (zbool; lia).
    rewrite wr_app_head by done. simpl.
    pose proof (encode_next_block input (done ++ (zlen blk + 1 + 1) :: (blk ++ [b]) ++ rest)
                  (done ++ 255 :: blk ++ [b]) rest (zlen done + 1 + zlen blk + 1) IH) as H'.
    replace (zlen blk + 1 + 1) with 255 in * by lia.
    rewrite <- !app_assoc in *. simpl in H'. rewrite <- !app_assoc in H'.
    eapply encode_result_length; [|apply H']; llia || done.
  - replace (zlen blk + 1 + 1 =? 255) with false by (zbool; lia).
    replace (zlen done + 1 + zlen blk + 1) with (zlen done + 1 + zlen (blk ++ [b])) by llia.
    replace (zlen blk + 1 + 1) with (zlen (blk ++ [b]) + 1) by llia.
    apply (IH _ done y _ rest). split; [done|llia].
Qed.
End encode_loop.

(** ** The encoding has no zero octet *)

Definition nonzero_octet (b : Z) : Prop := 0 < b < 256.

Lemma nonzero_octet_existsb l : Forall nonzero_octet l -> existsb (Z.eqb 0) l = false.
Proof.
  induction 1 as [|b l Hb Hl IH]; [done|]. cbn [existsb]. rewrite IH.
  unfold nonzero_octet in Hb. zbool; done || lia.
Qed.

Lemma cobs_stuff_nonzero blk l :
  zlen blk < 254 -> Forall nonzero_octet blk -> bytes_ok l ->
  Forall nonzero_octet (cobs_stuff blk l).
Proof.
  intros Hlen Hblk Hl. revert blk Hlen Hblk.
  induction Hl as [|b l Hb Hl IH]; intros blk Hlen Hblk; cbn [cobs_stuff].
  { constructor; [unfold nonzero_octet; lia|done]. }
  unfold is_byte in Hb.
  assert (b <> 0 -> nonzero_octet b) by (unfold nonzero_octet; lia).
  pose proof (IH [] ltac:(simpl; lia) (List.Forall_nil _)).
  zbool.
  - constructor; [unfold nonzero_octet; lia|]. by apply Forall_app.
  - constructor; [by unfold nonzero_octet|]. apply Forall_app. split; [done|]. constructor; auto.
  - apply IH; [llia|]. apply Forall_app. auto.
Qed.

Lemma cobs_encoded_nonzero l : bytes_ok l -> Forall nonzero_octet (cobs_encoded l).
Proof. intros. apply cobs_stuff_nonzero; [simpl; lia|constructor|done]. Qed.

Lemma cobs_encoded_ok l : bytes_ok l -> bytes_ok (cobs_encoded l).
Proof.
  intros H%cobs_encoded_nonzero. eapply Forall_impl; [|exact H].
  unfold nonzero_octet, is_byte. intros; lia.
Qed.

Lemma cobs_encoded_length l :
  zlen l + 1 <= zlen (cobs_encoded l) <= zlen l + (zlen l / 254 + 1).
Proof.
  pose proof (cobs_stuff_length_ge [] l). pose proof (cobs_stuff_length_le [] l).
  unfold cobs_encoded. llia.
Qed.

(** ** The reference decoder inverts the reference encoder *)

Lemma cobs_unstuff_block fuel code blk rest :
  code = zlen blk + 1 -> Forall nonzero_octet blk ->
  cobs_unstuff (S fuel) (code :: blk ++ rest) =
    (tail ← cobs_unstuff fuel rest;
     Some (blk ++ (if negb (code =? 255) && (0 <? zlen rest) then [0] else []) ++ tail)).
Proof.
  intros -> Hblk. cbn [cobs_unstuff].
  replace (Z.to_nat (zlen blk + 1 - 1)) with (length blk) by lia.
  rewrite take_app_length, drop_app_length, nonzero_octet_existsb by done.
  replace ((zlen blk + 1 =? 0) || (zlen (blk ++ rest) <? zlen blk + 1 - 1) || false) with false
    by (lens; zbool; simpl; lia || done).
  done.
Qed.

Lemma cobs_unstuff_stuff fuel blk l :
  zlen blk < 254 -> Forall nonzero_octet blk -> bytes_ok l ->
  (length (cobs_stuff blk l) <= fuel)%nat ->
  cobs_unstuff fuel (cobs_stuff blk l) = Some (blk ++ l).
Proof.
  intros Hlen Hblk Hl. revert fuel blk Hlen Hblk.
  induction Hl as [|b l Hb Hl IH]; intros fuel blk Hlen Hblk Hfuel; cbn [cobs_stuff] in *.
  { destruct fuel as [|fuel]; [llia|].
    pose proof (cobs_unstuff_block fuel (zlen blk + 1) blk [] eq_refl Hblk) as E.
    rewrite app_nil_r in E. rewrite E, andb_false_r. by destruct fuel. }
  unfold is_byte in Hb.
  pose proof (cobs_stuff_length_ge [] l).
  assert (Hnz : b <> 0 -> nonzero_octet b) by (unfold nonzero_octet; lia).
  destruct (Z.eqb_spec b 0); [|destruct (Z.eqb_spec (zlen blk + 1) 254)].
  - destruct fuel as [|fuel]; [llia|].
    rewrite cobs_unstuff_block by done.
    rewrite IH by (constructor || llia). cbn [mbind option_bind]. subst b.
    replace (negb (zlen blk + 1 =? 255) && (0 <? zlen (cobs_stuff [] l))) with true
      by (zbool; cbn [negb andb]; llia || done). done.
  - destruct fuel as [|fuel]; [llia|].
    replace (blk ++ b :: cobs_stuff [] l) with ((blk ++ [b]) ++ cobs_stuff [] l)
      by (by rewrite <- app_assoc).
    rewrite cobs_unstuff_block by (llia || (apply Forall_app; auto)).
    rewrite IH by (constructor || llia). simpl. by rewrite <- app_assoc.
  - rewrite IH by (llia || (apply Forall_app; auto)). by rewrite <- app_assoc.
Qed.

Lemma cobs_decoded_encoded l : bytes_ok l -> cobs_decoded (cobs_encoded l) = Some l.
Proof.
  intros. unfold cobs_decoded, cobs_encoded.
  by rewrite cobs_unstuff_stuff by (constructor || done || simpl; lia).
Qed.

Lemma cobs_unstuff_ok fuel l m : bytes_ok l -> cobs_unstuff fuel l = Some m -> bytes_ok m.
Proof.
  revert l m. induction fuel as [|fuel IH]; intros [|code l] m Hok E; simplify_eq/=; [done..|].
  apply bytes_ok_cons in Hok as [_ Hok]. destruct (_ || _); [done|].
  destruct (cobs_unstuff fuel _) as [rest|] eqn:Er; simplify_eq/=.
  apply IH in Er; [|auto with pbns]. destruct (_ && _); octets.
Qed.

(** ** The decoder implements the reference *)

Lemma cobs_copy_run_spec run pre suf d m rest ri wi off :
  length m = length run -> ri + off = zlen pre -> wi + off = zlen d ->
  if existsb (Z.eqb 0) run then
    exists out', cobs_copy_run (length run) (pre ++ run ++ suf) (d ++ m ++ rest) ri wi off
                 = Some (false, out') /\ length out' = length (d ++ m ++ rest)
  else cobs_copy_run (length run) (pre ++ run ++ suf) (d ++ m ++ rest) ri wi off
       = Some (true, d ++ run ++ rest).
Proof.
  revert pre d m off. induction run as [|b run IH]; intros pre d m off Em Er Ew.
  { by destruct m. }
  destruct m as [|z m]; [done|]. simpl in Em. cbn [existsb length cobs_copy_run app].
  rewrite rd_app_head by lia. cbn [mbind option_bind].
  rewrite (Z.eqb_sym b 0). destruct (Z.eqb_spec 0 b) as [E|Hne]; cbn [orb]; [by eauto|].
  simpl. rewrite wr_app_head by lia. cbn [mbind option_bind].
  specialize (IH (pre ++ [b]) (d ++ [b]) m (off + 1)).
  rewrite <- !app_assoc in IH. simpl in IH.
  replace (length (d ++ z :: m ++ rest)) with (length (d ++ b :: m ++ rest)) by llia.
  apply IH; llia.
Qed.

(** What the decoder returns when [m], if any, is the message that the rest of
    the record stands for and [d] has been stored. *)
Definition decode_result (out d : bytes) (m : option bytes)
    (r : option (pbns_status * bytes * Z)) : Prop :=
  match m with
  | Some m =>
      if zlen (d ++ m) <=? zlen out then
        r = Some (PBNS_OK, (d ++ m) ++ drop (length (d ++ m)) out, zlen (d ++ m))
      else exists out', r = Some (PBNS_ERR_LIMIT, out', 0) /\ length out' = length out
  | None =>
      exists status out', r = Some (status, out', 0) /\ length out' = length out
        /\ (status = PBNS_ERR_FORMAT \/ status = PBNS_ERR_LIMIT)
  end.

Lemma decode_result_error out out' d m status :
  length out' = length out ->
  match m with
  | Some m => status = PBNS_ERR_LIMIT /\ zlen out < zlen (d ++ m)
  | None => status = PBNS_ERR_FORMAT \/ status = PBNS_ERR_LIMIT
  end ->
  decode_result out d m (Some (status, out', 0)).
Proof.
  intros El H. unfold decode_result. destruct m; [|by eauto].
  destruct H as [-> H]. zbool; [lia|]. eauto.
Qed.

Lemma decode_result_tail rest out d d' m r :
  out = d ++ rest -> zlen d' <= zlen rest ->
  decode_result ((d ++ d') ++ drop (length d') rest) (d ++ d') m r ->
  decode_result out d (tail ← m; Some (d' ++ tail)) r.
Proof.
  unfold decode_result. intros -> Hfit.
  assert (E : length ((d ++ d') ++ drop (length d') rest) = length (d ++ rest)) by llia.
  rewrite E. destruct m as [m|]; cbn [mbind option_bind]; [|done].
  rewrite <- (app_assoc d d' m). zbool; [|done]. intros ->. do 3 f_equal.
  rewrite (app_assoc d d' m), (length_app (d ++ d') m), drop_app_add, drop_drop.
  rewrite <- (app_assoc d), length_app, <- Nat.add_assoc, drop_app_add. done.
Qed.

(** One round of the outer loop, on a code octet and the run it announces. *)
Lemma cobs_decode_round fuel pre code run tl d rest :
  code <> 0 -> code - 1 = zlen run ->
  let sep := if negb (code =? 255) && (0 <? zlen tl) then [0] else [] in
  let r := cobs_decode_loop (S fuel) (pre ++ code :: run ++ tl) (d ++ rest) (zlen pre) (zlen d) in
  if zlen rest <? zlen run then
    r = Some (PBNS_ERR_LIMIT, d ++ rest, 0)
  else if existsb (Z.eqb 0) run then
    exists out', r = Some (PBNS_ERR_FORMAT, out', 0) /\ length out' = length (d ++ rest)
  else if zlen rest <? zlen (run ++ sep) then
    exists out', r = Some (PBNS_ERR_LIMIT, out', 0) /\ length out' = length (d ++ rest)
  else
    r = cobs_decode_loop fuel ((pre ++ code :: run) ++ tl)
          ((d ++ run ++ sep) ++ drop (length (run ++ sep)) rest)
          (zlen (pre ++ code :: run)) (zlen (d ++ run ++ sep)).
Proof.
  intros Hcode Hrun sep r. subst r. cbn [cobs_decode_loop].
  destruct (Z.ltb_spec (zlen pre) (zlen (pre ++ code :: run ++ tl))); [|llia].
  rewrite rd_app_head by done. cbn [mbind option_bind].
  rewrite (proj2 (Z.eqb_neq code 0) Hcode).
  destruct (Z.ltb_spec (zlen (pre ++ code :: run ++ tl) - (zlen pre + 1)) (code - 1)); [llia|].
  replace (zlen (d ++ rest) - zlen d) with (zlen rest) by llia. rewrite Hrun.
  destruct (Z.ltb_spec (zlen rest) (zlen run)); [done|]. rewrite Nat2Z.id.
  set (m := take (length run) rest). set (rest1 := drop (length run) rest).
  assert (Em : length m = length run) by (subst m; llia).
  assert (Er : rest = m ++ rest1) by (subst m rest1; by rewrite take_drop).
  assert (E1 : zlen (run ++ tl) = zlen run + zlen tl) by llia.
  pose proof (cobs_copy_run_spec run (pre ++ [code]) tl d m rest1 (zlen pre + 1) (zlen d) 0
                Em ltac:(llia) ltac:(lia)) as Hcopy.
  clearbody m rest1. subst rest. rewrite <- app_assoc in Hcopy. simpl in Hcopy.
  destruct (existsb (Z.eqb 0) run).
  { destruct Hcopy as (out' & -> & El). simpl. eauto. }
  rewrite Hcopy. cbn [mbind option_bind negb].
  replace (zlen pre + 1 + zlen run <? zlen (pre ++ code :: run ++ tl)) with (0 <? zlen tl)
    by (lens; zbool; lia).
  subst sep. unfold UINT8_MAX. destruct (negb (code =? 255) && (0 <? zlen tl)).
  - destruct rest1 as [|z rest1].
    + replace (zlen (d ++ run ++ []) <=? zlen d + zlen run) with true by (lens; zbool; lia).
      destruct (Z.ltb_spec (zlen (m ++ [])) (zlen (run ++ [0]))); [|llia].
      eexists. split; [done|llia].
    + replace (zlen (d ++ run ++ z :: rest1) <=? zlen d + zlen run) with false by (lens; zbool; lia).
      destruct (Z.ltb_spec (zlen (m ++ z :: rest1)) (zlen (run ++ [0]))); [llia|].
      rewrite (app_assoc d), wr_app_head by llia. cbn [mbind option_bind].
      rewrite !length_app, <- Em. cbn [length]. rewrite <- drop_drop, drop_app_length.
      rewrite <- !app_assoc. simpl. f_equal; llia.
  - rewrite app_nil_r. destruct (Z.ltb_spec (zlen (m ++ rest1)) (zlen run)); [llia|].
    rewrite <- Em, drop_app_length. rewrite <- !app_assoc. simpl. f_equal; llia.
Qed.

(** A code octet that is zero or announces more octets than are left. *)
Lemma cobs_decode_bad_code fuel pre code suf d rest :
  code = 0 \/ zlen suf < code - 1 ->
  cobs_decode_loop (S fuel) (pre ++ code :: suf) (d ++ rest) (zlen pre) (zlen d)
  = Some (PBNS_ERR_FORMAT, d ++ rest, 0).
Proof.
  intros H. cbn [cobs_decode_loop].
  destruct (Z.ltb_spec (zlen pre) (zlen (pre ++ code :: suf))); [|llia].
  rewrite rd_app_head by done. cbn [mbind option_bind].
  destruct (Z.eqb_spec code 0); [done|].
  destruct (Z.ltb_spec (zlen (pre ++ code :: suf) - (zlen pre + 1)) (code - 1)); [done|llia].
Qed.

Lemma cobs_decode_done fuel pre d rest :
  decode_result (d ++ rest) d (Some [])
    (cobs_decode_loop (S fuel) (pre ++ []) (d ++ rest) (zlen pre) (zlen d)).
Proof.
  cbn [cobs_decode_loop]. rewrite app_nil_r, Z.ltb_irrefl. unfold decode_result.
  rewrite app_nil_r, drop_app_length. zbool; [done|llia].
Qed.

Lemma cobs_decode_loop_spec fuel pre suf d rest :
  bytes_ok suf -> (length suf <= fuel)%nat ->
  decode_result (d ++ rest) d (cobs_unstuff fuel suf)
    (cobs_decode_loop (S fuel) (pre ++ suf) (d ++ rest) (zlen pre) (zlen d)).
Proof.
  revert pre suf d rest. induction fuel as [|fuel IH]; intros pre suf d rest Hok Hfuel.
  all: destruct suf as [|code suf]; [apply cobs_decode_done|try llia].
  apply bytes_ok_cons in Hok as [Hcode Hok]. unfold is_byte in Hcode.
  cbn [cobs_unstuff].
  destruct (Z.eqb_spec code 0) as [E|Hne].
  { rewrite cobs_decode_bad_code by auto. cbn [orb]. apply decode_result_error; auto. }
  destruct (Z.ltb_spec (zlen suf) (code - 1)).
  { rewrite cobs_decode_bad_code by auto. cbn [orb]. apply decode_result_error; auto. }
  cbn [orb]. set (n := Z.to_nat (code - 1)).
  assert (Hrun : code - 1 = zlen (take n suf)) by (subst n; llia).
  pose proof (cobs_decode_round (S fuel) pre code (take n suf) (drop n suf) d rest Hne Hrun) as Hr.
  rewrite take_drop in Hr. cbv zeta in Hr.
  set (sep := if negb (code =? 255) && (0 <? zlen (drop n suf)) then [0] else []) in *.
  specialize (IH (pre ++ code :: take n suf) (drop n suf) (d ++ take n suf ++ sep)).
  set (run := take n suf) in *. set (tl := drop n suf) in *.
  destruct (existsb (Z.eqb 0) run).
  { destruct (zlen rest <? zlen run).
    - rewrite Hr. apply decode_result_error; auto.
    - destruct Hr as (out' & -> & E). apply decode_result_error; auto. }
  assert (Herr : forall out', length out' = length (d ++ rest) -> zlen rest < zlen (run ++ sep) ->
    decode_result (d ++ rest) d (rest0 ← cobs_unstuff fuel tl; Some (run ++ sep ++ rest0))
      (Some (PBNS_ERR_LIMIT, out', 0))).
  { intros out' El Hlt. apply decode_result_error; [done|].
    destruct (cobs_unstuff fuel tl); simpl; [|auto]. split; [done|llia]. }
  destruct (Z.ltb_spec (zlen rest) (zlen run)); [rewrite Hr; apply Herr; llia|].
  destruct (Z.ltb_spec (zlen rest) (zlen (run ++ sep))).
  { destruct Hr as (out' & -> & E). by apply Herr. }
  rewrite Hr.
  specialize (IH (drop (length (run ++ sep)) rest) ltac:(subst tl; auto with pbns) ltac:(subst tl; llia)).
  eapply (decode_result_tail rest (d ++ rest)) in IH; [|done..].
  destruct (cobs_unstuff fuel tl); simpl in *; [|done].
  by rewrite <- app_assoc in IH.
Qed.

(** ** The entry points *)

Lemma cobs_encode_loop_ok input : forall output wi ci code status data n,
  bytes_ok input -> bytes_ok output -> is_byte code ->
  cobs_encode_loop input output wi ci code = Some (status, data, n) -> bytes_ok data.
Proof.
  induction input as [|b input IH]; intros output wi ci code status data n Hi Ho Hc E; cbn [cobs_encode_loop] in E.
  { destruct (wr output ci code) as [out|] eqn:Ew; [|done]. injection E as <- <- <-. by eapply wr_ok. }
  apply bytes_ok_cons in Hi as [Hb Hi].
  repeat match type of E with
  | context [wr ?o ?i ?x] =>
      let H := fresh "Hok" in let Ew := fresh "Ew" in
      destruct (wr o i x) eqn:Ew; [|done]; cbn [mbind option_bind] in E;
      eapply wr_ok in Ew as H; [|by auto with pbns..]
  | context [if ?c then _ else _] => destruct c
  end; try (by simplify_eq); eapply IH; try exact E; auto with pbns; done.
Qed.

Lemma pbns_cobs_encode_ok input output w status data n :
  bytes_ok (v_data input) -> bytes_ok (b_data output) ->
  pbns_cobs_encode input output (Some w) = Some (status, data, n) -> bytes_ok data.
Proof.
  intros Hi Ho E. unfold pbns_cobs_encode in E.
  destruct (_ || _); [by simplify_eq|]. destruct (_ =? _); [by simplify_eq|].
  destruct (cobs_encode_loop _ _ _ _ _) as [[[s d] c]|] eqn:El; [|done]. cbn [mbind option_bind] in E.
  injection E as <- <- <-. eapply cobs_encode_loop_ok; [exact Hi|exact Ho| |exact El]; done.
Qed.

Lemma cobs_copy_run_ok count : forall input output ri wi off fine data,
  bytes_ok input -> bytes_ok output ->
  cobs_copy_run count input output ri wi off = Some (fine, data) -> bytes_ok data.
Proof.
  induction count as [|count IH]; intros input output ri wi off fine data Hi Ho E; cbn [cobs_copy_run] in E.
  { by simplify_eq. }
  destruct (rd input (ri + off)) as [v|] eqn:Er; [|done]. cbn [mbind option_bind] in E.
  destruct (v =? 0); [by simplify_eq|]. destruct (wr output (wi + off) v) as [o|] eqn:Ew; [|done].
  assert (is_byte v).
  { unfold rd in Er. destruct (_ && _); [|done]. eapply Forall_lookup_1; [exact Hi|exact Er]. }
  eapply IH; [exact Hi| |exact E]. eapply wr_ok; [exact Ho| |exact Ew]. done.
Qed.

Lemma cobs_decode_loop_ok fuel : forall input output ri wi status data n,
  bytes_ok input -> bytes_ok output ->
  cobs_decode_loop fuel input output ri wi = Some (status, data, n) -> bytes_ok data.
Proof.
  induction fuel as [|fuel IH]; intros input output ri wi status data n Hi Ho E; [done|].
  cbn [cobs_decode_loop] in E.
  repeat match type of E with
  | context [wr ?o ?i ?x] =>
      let H := fresh "Hok" in let Ew := fresh "Ew" in
      destruct (wr o i x) eqn:Ew; [|done]; cbn [mbind option_bind] in E;
      eapply wr_ok in Ew as H; [|by auto with pbns..]
  | context [rd ?l ?i] => destruct (rd l i); [|done]; cbn [mbind option_bind] in E
  | context [cobs_copy_run ?a ?b ?c ?d ?f ?g] =>
      let H := fresh "Hok" in let Ew := fresh "Ew" in
      destruct (cobs_copy_run a b c d f g) as [[? ?]|] eqn:Ew; [|done]; cbn [mbind option_bind] in E;
      eapply cobs_copy_run_ok in Ew as H; [|done..]
  | context [if ?c then _ else _] => destruct c
  end; try (by simplify_eq); eapply IH; try exact E; auto with pbns; done.
Qed.

Lemma pbns_cobs_decode_ok input output w status data n :
  bytes_ok (v_data input) -> bytes_ok (b_data output) ->
  pbns_cobs_decode input output (Some w) = Some (status, data, n) -> bytes_ok data.
Proof.
  intros Hi Ho E. unfold pbns_cobs_decode in E.
  destruct (_ || _); [by simplify_eq|]. destruct (_ =? _); [by simplify_eq|].
  destruct (cobs_decode_loop _ _ _ _ _) as [[[s d] c]|] eqn:El; [|done]. cbn [mbind option_bind] in E.
  injection E as <- <- <-. eapply cobs_decode_loop_ok; [| |exact El]; done.
Qed.

Lemma pbns_cobs_encode_spec input output w :
  view_is_valid input = true -> buffer_is_valid output = true -> 0 < b_cap output ->
  let e := cobs_encoded (v_data input) in
  if zlen e <=? b_cap output then
    exists rest, pbns_cobs_encode input output (Some w)
                 = Some (PBNS_OK, e ++ rest, Some (zlen e))
                 /\ zlen (e ++ rest) = b_cap output
  else
    exists data, pbns_cobs_encode input output (Some w) = Some (PBNS_ERR_LIMIT, data, Some 0)
                 /\ zlen data = b_cap output.
Proof.
  intros Hi Ho Hcap e. unfold pbns_cobs_encode. rewrite Hi, Ho. simpl.
  destruct (Z.eqb_spec (b_cap output) 0); [lia|]. unfold b_cap in *.
  destruct (b_data output) as [|y rest] eqn:Ed; [simpl in *; lia|].
  pose proof (cobs_encode_loop_spec (v_data input) (y :: rest) [] y [] rest) as H.
  change (zlen [] + 1 + zlen []) with 1 in H. change (zlen [] + 1) with 1 in H.
  change (zlen []) with 0 in H.
  change ([] ++ cobs_stuff [] (v_data input)) with e in H. unfold encode_result in H.
  specialize (H ltac:(by split)).
  destruct (zlen e <=? zlen (y :: rest)).
  - destruct H as (rest' & -> & El). exists rest'. split; [done|lia].
  - destruct H as (out' & -> & El). exists out'. split; [done|lia].
Qed.

Lemma pbns_cobs_decode_spec input output w :
  view_is_valid input = true -> buffer_is_valid output = true ->
  v_data input <> [] -> bytes_ok (v_data input) ->
  match cobs_decoded (v_data input) with
  | Some m =>
      if zlen m <=? b_cap output then
        pbns_cobs_decode input output (Some w)
        = Some (PBNS_OK, m ++ drop (length m) (b_data output), Some (zlen m))
      else
        exists data, pbns_cobs_decode input output (Some w) = Some (PBNS_ERR_LIMIT, data, Some 0)
                     /\ zlen data = b_cap output
  | None =>
      exists status data, pbns_cobs_decode input output (Some w) = Some (status, data, Some 0)
        /\ zlen data = b_cap output /\ (status = PBNS_ERR_FORMAT \/ status = PBNS_ERR_LIMIT)
  end.
Proof.
  intros Hi Ho Hne Hok. unfold pbns_cobs_decode. rewrite Hi, Ho. cbn [negb orb].
  replace (v_len input =? 0) with false
    by (unfold v_len; destruct (v_data input); [done|simpl; zbool; lia]).
  pose proof (cobs_decode_loop_spec (length (v_data input)) [] (v_data input) [] (b_data output)
                Hok (le_n _)) as H.
  change ([] ++ ?l) with l in H. change (zlen []) with 0 in H. unfold decode_result, b_cap in *.
  change (cobs_unstuff (length (v_data input)) (v_data input)) with (cobs_decoded (v_data input)) in H.
  remember (cobs_decode_loop _ _ _ _ _) as r eqn:Er. clear Er.
  destruct (cobs_decoded (v_data input)) as [m|].
  - change ([] ++ ?l) with l in H. destruct (zlen m <=? zlen (b_data output)).
    + by rewrite H.
    + destruct H as (out' & -> & El). exists out'. split; [done|lia].
  - destruct H as (st & out' & -> & El & Hst). exists st, out'. split; [done|]. split; [lia|done].
Qed.

(** ** Properties *)

(** The encoder never leaves its buffers, and on valid arguments it returns
    exactly the block-structured encoding of its input when that fits in the
    storage, and [PBNS_ERR_LIMIT] with [*written = 0] when it does not. *)
Theorem cobs_encode_refines (input : pbns_view) (output : pbns_buffer) (w : Z) :
  view_is_valid input = true -> buffer_is_valid output = true -> 0 < b_cap output ->
  exists status data n,
    pbns_cobs_encode input output (Some w) = Some (status, data, Some n)
    /\ zlen data = b_cap output
    /\ (zlen (cobs_encoded (v_data input)) <= b_cap output ->
        status = PBNS_OK /\ take (Z.to_nat n) data = cobs_encoded (v_data input))
    /\ (b_cap output < zlen (cobs_encoded (v_data input)) ->
        status = PBNS_ERR_LIMIT /\ n = 0).
Proof.
  intros Hi Ho Hcap. pose proof (pbns_cobs_encode_spec input output w Hi Ho Hcap) as H.
  cbv zeta in H. destruct (Z.leb_spec (zlen (cobs_encoded (v_data input))) (b_cap output)).
  - destruct H as (rest & -> & El). do 3 eexists. split; [done|]. split; [done|].
    split; [|lia]. intros _. split; [done|]. rewrite Nat2Z.id. apply take_app_length.
  - destruct H as (data & -> & El). do 3 eexists. split; [done|]. split; [done|]. split; [lia|done].
Qed.

Lemma cobs_encode_refines_witness :
  pbns_cobs_encode (mk_view 4096 [17; 0; 0; 34]) (mk_buffer 8192 0 [9; 9; 9; 9; 9; 9]) (Some 7)
  = Some (PBNS_OK, [2; 17; 1; 2; 34; 9], Some 5).
Proof.
  destruct (cobs_encode_refines (mk_view 4096 [17; 0; 0; 34])
              (mk_buffer 8192 0 [9; 9; 9; 9; 9; 9]) 7) as (st & d & n & E & _); try done.
Defined.

(** The decoder never leaves its buffers and always terminates; it accepts
    exactly the records that are well-formed sequences of blocks and whose
    message fits in the storage, and stores that message. *)
Theorem cobs_decode_refines (input : pbns_view) (output : pbns_buffer) (w : Z) :
  view_is_valid input = true -> buffer_is_valid output = true ->
  v_data input <> [] -> bytes_ok (v_data input) ->
  exists status data n,
    pbns_cobs_decode input output (Some w) = Some (status, data, Some n)
    /\ zlen data = b_cap output
    /\ (status = PBNS_OK <->
        exists m, cobs_decoded (v_data input) = Some m /\ zlen m <= b_cap output)
    /\ (status = PBNS_OK -> cobs_decoded (v_data input) = Some (take (Z.to_nat n) data))
    /\ (status <> PBNS_OK -> n = 0 /\ (status = PBNS_ERR_FORMAT \/ status = PBNS_ERR_LIMIT)).
Proof.
  intros Hi Ho Hne Hok. pose proof (pbns_cobs_decode_spec input output w Hi Ho Hne Hok) as H.
  destruct (cobs_decoded (v_data input)) as [m|].
  - destruct (Z.leb_spec (zlen m) (b_cap output)).
    + rewrite H. do 3 eexists. split; [done|]. split; [unfold b_cap in *; llia|].
      rewrite Nat2Z.id, take_app_length. naive_solver.
    + destruct H as (data & -> & El). do 3 eexists. split; [done|]. split; [done|].
      split; [|naive_solver]. split; [done|]. intros (? & [= <-] & ?). lia.
  - destruct H as (st & data & -> & El & Hst). do 3 eexists. split; [done|].
    destruct Hst as [-> | ->]; naive_solver.
Qed.

Lemma cobs_decode_refines_witness :
  pbns_cobs_decode (mk_view 4096 [2; 17; 1; 2; 34]) (mk_buffer 8192 0 [9; 9; 9; 9; 9]) (Some 7)
  = Some (PBNS_OK, [17; 0; 0; 34; 9], Some 4).
Proof.
  destruct (cobs_decode_refines (mk_view 4096 [2; 17; 1; 2; 34])
              (mk_buffer 8192 0 [9; 9; 9; 9; 9]) 7) as (st & d & n & E & _); try done.
  repeat constructor; done.
Defined.

(** C30: storage of the size that [pbns_cobs_max_encoded_size] returns always
    suffices to encode; the encoding has no zero octet; and decoding it into
    storage as long as the message gives the message back. *)
Theorem cobs_roundtrip `{Machine} (input : pbns_view) (output scratch : pbns_buffer) (w w' p bound : Z) :
  view_is_valid input = true -> buffer_is_valid output = true ->
  buffer_is_valid scratch = true -> p <> 0 -> bytes_ok (v_data input) ->
  pbns_cobs_max_encoded_size (v_len input) (Some w) = (PBNS_OK, Some bound) ->
  bound <= b_cap output -> v_len input <= b_cap scratch ->
  exists data n data',
    pbns_cobs_encode input output (Some w) = Some (PBNS_OK, data, Some n)
    /\ n <= bound
    /\ Forall nonzero_octet (take (Z.to_nat n) data)
    /\ pbns_cobs_decode (mk_view p (take (Z.to_nat n) data)) scratch (Some w')
       = Some (PBNS_OK, v_data input ++ data', Some (v_len input)).
Proof.
  intros Hi Ho Hs Hp Hok Hmax Hcap Hscr. unfold pbns_cobs_max_encoded_size in Hmax.
  pose proof (cobs_encoded_length (v_data input)) as Hlen. unfold v_len in *.
  destruct (SIZE_MAX - (zlen (v_data input) / 254 + 1) <? zlen (v_data input)); [done|].
  injection Hmax as Hbound.
  pose proof (pbns_cobs_encode_spec input output w Hi Ho ltac:(lia)) as He. cbv zeta in He.
  destruct (Z.leb_spec (zlen (cobs_encoded (v_data input))) (b_cap output)); [|lia].
  destruct He as (rest & -> & El).
  pose proof (pbns_cobs_decode_spec (mk_view p (cobs_encoded (v_data input))) scratch w') as Hd.
  simpl v_data in Hd. rewrite cobs_decoded_encoded in Hd by done.
  destruct (Z.leb_spec (zlen (v_data input)) (b_cap scratch)); [|lia].
  do 3 eexists. split; [done|]. rewrite Nat2Z.id, take_app_length.
  split; [lia|]. split; [by apply cobs_encoded_nonzero|]. rewrite Hd; try done.
  { apply view_is_valid_spec. auto. }
  { intros E. rewrite E in Hlen. simpl in Hlen. lia. }
  { by apply cobs_encoded_ok. }
Qed.

Lemma cobs_roundtrip_witness :
  exists data n data',
    pbns_cobs_encode (mk_view 4096 [17; 0; 34]) (mk_buffer 8192 0 [0; 0; 0; 0]) (Some 0)
      = Some (PBNS_OK, data, Some n)
    /\ n <= 4 /\ Forall nonzero_octet (take (Z.to_nat n) data)
    /\ pbns_cobs_decode (mk_view 4096 (take (Z.to_nat n) data)) (mk_buffer 8192 0 [0; 0; 0]) (Some 0)
       = Some (PBNS_OK, [17; 0; 34] ++ data', Some 3).
Proof.
  apply (@cobs_roundtrip x86_64 (mk_view 4096 [17; 0; 34]) (mk_buffer 8192 0 [0; 0; 0; 0])
           (mk_buffer 8192 0 [0; 0; 0]) 0 0 4096 4); try (vm_compute; done).
  repeat constructor; done.
Defined.
