(* ===== verification/Frame.v ===== *)
(** * Frames ([include/pbns/frame.h], [src/core/frame.c])

    A raw record is a 32-octet header, the CRC of the header, the payload and
    the CRC of everything before; on the wire it is COBS-encoded and closed by
    a zero octet. *)

From stdpp Require Import base list numbers.
From Stdlib Require Import ZArith Lia.
From S2P Require Import Prelude Endian Status Buffers Crc32c Cobs.

(** ** Constants of [frame.h] *)

Definition PBNS_FRAME_V1_PROTOCOL_VERSION : Z := 1.
Definition PBNS_FRAME_V1_HEADER_SIZE : Z := 36.
Definition PBNS_FRAME_V1_TRAILER_SIZE : Z := 4.
Definition PBNS_FRAME_V1_CONTROL_PAYLOAD_MAX : Z := 65536.
Definition PBNS_FRAME_V1_DATA_PAYLOAD_MAX : Z := 16384.
Definition PBNS_FRAME_V1_RAW_MAX : Z := 65576.
Definition PBNS_FRAME_V1_COBS_MAX : Z := 65835.
Definition PBNS_FRAME_V1_WIRE_MAX : Z := 65836.
Definition PBNS_REQUEST_ID_SIZE : Z := 16.
Definition PBNS_ACK_PAYLOAD_SIZE : Z := 8.

(** [pbns_service_id]: an integer, since the code casts and range-checks it. *)
Definition PBNS_SERVICE_INVALID : Z := 0.
Definition PBNS_SERVICE_TRUSTED_TIME : Z := 1.
Definition PBNS_SERVICE_RECOVERY_ARTIFACT : Z := 2.
Definition PBNS_SERVICE_PLATFORM_ATTESTATION : Z := 3.
Definition PBNS_SERVICE_ENROLLMENT : Z := 4.

(** [pbns_message_type] *)
Definition PBNS_MESSAGE_INVALID : Z := 0.
Definition PBNS_MESSAGE_REQUEST : Z := 1.
Definition PBNS_MESSAGE_RESPONSE : Z := 2.
Definition PBNS_MESSAGE_DATA : Z := 3.
Definition PBNS_MESSAGE_ACK : Z := 4.
Definition PBNS_MESSAGE_ERROR : Z := 5.
Definition PBNS_MESSAGE_CANCEL : Z := 6.
Definition PBNS_MESSAGE_COMPLETE : Z := 7.

Record pbns_frame := mk_frame {
  f_service : Z;
  f_type : Z;
  f_flags : Z;
  f_request_id : bytes;
  f_sequence : Z;
}.

#[export] Instance pbns_frame_eq_dec : EqDecision pbns_frame.
Proof. solve_decision. Defined.

(** [(pbns_request_id){0}] and [(pbns_frame){0}] *)
Definition zero_request_id : bytes := replicate 16 0.
Definition zero_frame : pbns_frame := mk_frame 0 0 0 zero_request_id 0.

Record pbns_frame_limits := mk_limits {
  control_payload_max : Z;
  data_payload_max : Z;
  encoded_record_max : Z;
}.

(** ** Validation *)

(** ['P', 'B', 'N', 'S'] *)
Definition frame_magic : bytes := [80; 66; 78; 83].

Definition service_is_valid (service : Z) : bool :=
  (PBNS_SERVICE_TRUSTED_TIME <=? service) && (service <=? PBNS_SERVICE_ENROLLMENT).

Definition message_type_is_valid (type : Z) : bool :=
  (PBNS_MESSAGE_REQUEST <=? type) && (type <=? PBNS_MESSAGE_COMPLETE).

Definition validate_payload_length (type payload_len control_limit data_limit : Z)
  : pbns_status :=
  if type =? PBNS_MESSAGE_DATA then
    if payload_len <=? data_limit then PBNS_OK else PBNS_ERR_LIMIT
  else if type =? PBNS_MESSAGE_ACK then
    if payload_len =? PBNS_ACK_PAYLOAD_SIZE then PBNS_OK else PBNS_ERR_FORMAT
  else if (type =? PBNS_MESSAGE_CANCEL) || (type =? PBNS_MESSAGE_COMPLETE) then
    if payload_len =? 0 then PBNS_OK else PBNS_ERR_FORMAT
  else if (type =? PBNS_MESSAGE_REQUEST) || (type =? PBNS_MESSAGE_RESPONSE)
          || (type =? PBNS_MESSAGE_ERROR) then
    if payload_len <=? control_limit then PBNS_OK else PBNS_ERR_LIMIT
  else PBNS_ERR_MESSAGE_TYPE.

Definition validate_ack_payload (type : Z) (payload : bytes) : option pbns_status :=
  if type =? PBNS_MESSAGE_ACK then
    next ← read_u32_be payload 0;
    if next =? 0 then Some PBNS_ERR_FORMAT
    else
      window ← read_u32_be payload 4;
      Some (if window =? 0 then PBNS_ERR_FORMAT else PBNS_OK)
  else Some PBNS_OK.

Definition limits_are_valid (limits : pbns_frame_limits) : bool :=
  (control_payload_max limits <=? PBNS_FRAME_V1_CONTROL_PAYLOAD_MAX)
  && (data_payload_max limits <=? PBNS_FRAME_V1_DATA_PAYLOAD_MAX)
  && (encoded_record_max limits <=? PBNS_FRAME_V1_WIRE_MAX).

(** ** Encoding *)

(** The stores into the raw scratch buffer at address [p]. *)
Definition frame_write_raw (frame : pbns_frame) (payload : bytes) (raw_size p : Z) (raw : bytes)
  : option bytes :=
  raw ← wr_list raw 0 frame_magic;
  raw ← wr raw 4 PBNS_FRAME_V1_PROTOCOL_VERSION;
  raw ← wr raw 5 (u8 (f_service frame));
  raw ← wr raw 6 (u8 (f_type frame));
  raw ← wr raw 7 (f_flags frame);
  raw ← wr_list raw 8 (f_request_id frame);
  raw ← write_u32_be raw 24 (f_sequence frame);
  raw ← write_u32_be raw 28 (u32 (zlen payload));
  header ← rd_slice raw 0 32;
  raw ← write_u32_be raw 32 (pbns_crc32c (mk_view p header));
  raw ← wr_list raw PBNS_FRAME_V1_HEADER_SIZE payload;
  record ← rd_slice raw 0 (raw_size - PBNS_FRAME_V1_TRAILER_SIZE);
  write_u32_be raw (raw_size - PBNS_FRAME_V1_TRAILER_SIZE) (pbns_crc32c (mk_view p record)).

(** The result is the status, the contents of both buffers and [*written]. *)
Definition pbns_frame_encode `{Machine} (frame : ptr pbns_frame) (payload : pbns_view)
    (raw_scratch output : pbns_buffer) (written : ptr Z)
  : option (pbns_status * bytes * bytes * ptr Z) :=
  match written with
  | None => Some (PBNS_ERR_ARGUMENT, b_data raw_scratch, b_data output, None)
  | Some _ =>
  let fail status := Some (status, b_data raw_scratch, b_data output, Some 0) in
  match frame with
  | None => fail PBNS_ERR_ARGUMENT
  | Some frame =>
  if negb (view_is_valid payload) || negb (buffer_is_valid raw_scratch)
     || negb (buffer_is_valid output) then fail PBNS_ERR_ARGUMENT
  else if negb (service_is_valid (f_service frame)) then fail PBNS_ERR_SERVICE
  else if negb (message_type_is_valid (f_type frame)) then fail PBNS_ERR_MESSAGE_TYPE
  else if negb (f_flags frame =? 0) then fail PBNS_ERR_FORMAT
  else
  let status := validate_payload_length (f_type frame) (v_len payload)
                  PBNS_FRAME_V1_CONTROL_PAYLOAD_MAX PBNS_FRAME_V1_DATA_PAYLOAD_MAX in
  if negb (is_ok status) then fail status
  else
  status ← validate_ack_payload (f_type frame) (v_data payload);
  if negb (is_ok status) then fail status
  else
  let raw_size := size_add (size_add PBNS_FRAME_V1_HEADER_SIZE (v_len payload))
                    PBNS_FRAME_V1_TRAILER_SIZE in
  let '(status, cobs_max) := pbns_cobs_max_encoded_size raw_size (Some 0) in
  let cobs_max := default 0 cobs_max in
  if negb (is_ok status) || (cobs_max =? SIZE_MAX) then fail PBNS_ERR_LIMIT
  else
  let wire_max := size_add cobs_max 1 in
  if (b_cap raw_scratch <? raw_size) || (b_cap output <? wire_max) then fail PBNS_ERR_LIMIT
  else if ranges_overlap (b_ptr raw_scratch) raw_size (b_ptr output) wire_max
          || ranges_overlap (v_ptr payload) (v_len payload) (b_ptr raw_scratch) raw_size
          || ranges_overlap (v_ptr payload) (v_len payload) (b_ptr output) wire_max then
    fail PBNS_ERR_ARGUMENT
  else
  raw ← frame_write_raw frame (v_data payload) raw_size (b_ptr raw_scratch) (b_data raw_scratch);
  raw_record ← rd_slice raw 0 raw_size;
  let last := Z.to_nat (b_cap output - 1) in
  encoded ← pbns_cobs_encode (mk_view (b_ptr raw_scratch) raw_record)
              (mk_buffer (b_ptr output) 0 (take last (b_data output))) (Some 0);
  let '(status, data, cobs_written) := encoded in
  let cobs_written := default 0 cobs_written in
  let out := data ++ drop last (b_data output) in
  if negb (is_ok status) then Some (status, raw, out, Some 0)
  else
  out ← wr out cobs_written 0;
  Some (PBNS_OK, raw, out, Some (cobs_written + 1))
  end
  end.

(** ** Decoding *)

(** The checks on the decoded octets [raw] (of the scratch buffer at address
    [p]), of which the first [raw_len] are the record. *)
Definition frame_parse_raw `{Machine} (limits : pbns_frame_limits) (p : Z) (raw : bytes) (raw_len : Z)
  : option (pbns_status * pbns_frame * pbns_view) :=
  let fail status := Some (status, zero_frame, null_view) in
  if raw_len <? PBNS_FRAME_V1_HEADER_SIZE + PBNS_FRAME_V1_TRAILER_SIZE then fail PBNS_ERR_FORMAT
  else
  magic ← rd_slice raw 0 4;
  if negb (bytes_eqb magic frame_magic) then fail PBNS_ERR_FORMAT
  else
  version ← rd raw 4;
  if negb (version =? PBNS_FRAME_V1_PROTOCOL_VERSION) then fail PBNS_ERR_VERSION
  else
  encoded_header_crc ← read_u32_be raw 32;
  header ← rd_slice raw 0 32;
  let calculated_header_crc := pbns_crc32c (mk_view p header) in
  if negb (encoded_header_crc =? calculated_header_crc) then fail PBNS_ERR_CRC
  else
  service ← rd raw 5;
  if (service <? PBNS_SERVICE_TRUSTED_TIME) || (PBNS_SERVICE_ENROLLMENT <? service) then
    fail PBNS_ERR_SERVICE
  else
  type ← rd raw 6;
  if (type <? PBNS_MESSAGE_REQUEST) || (PBNS_MESSAGE_COMPLETE <? type) then
    fail PBNS_ERR_MESSAGE_TYPE
  else
  flags ← rd raw 7;
  if negb (flags =? 0) then fail PBNS_ERR_FORMAT
  else
  payload_len ← read_u32_be raw 28;
  let status := validate_payload_length type payload_len
                  (control_payload_max limits) (data_payload_max limits) in
  if negb (is_ok status) then fail status
  else
  let expected_raw_len := size_add (size_add PBNS_FRAME_V1_HEADER_SIZE payload_len)
                            PBNS_FRAME_V1_TRAILER_SIZE in
  if negb (raw_len =? expected_raw_len) then fail PBNS_ERR_FORMAT
  else
  encoded_record_crc ← read_u32_be raw (raw_len - PBNS_FRAME_V1_TRAILER_SIZE);
  record ← rd_slice raw 0 (raw_len - PBNS_FRAME_V1_TRAILER_SIZE);
  let calculated_record_crc := pbns_crc32c (mk_view p record) in
  if negb (encoded_record_crc =? calculated_record_crc) then fail PBNS_ERR_CRC
  else
  decoded_payload ← rd_slice raw PBNS_FRAME_V1_HEADER_SIZE payload_len;
  status ← validate_ack_payload type decoded_payload;
  if negb (is_ok status) then fail status
  else
  request_id ← rd_slice raw 8 16;
  sequence ← read_u32_be raw 24;
  Some (PBNS_OK, mk_frame service type flags request_id sequence,
        mk_view (p + PBNS_FRAME_V1_HEADER_SIZE) decoded_payload).

(** The result is the status, the contents of the scratch buffer, [*frame] and
    [*payload]. *)
Definition pbns_frame_decode `{Machine} (cobs_record : pbns_view) (limits : pbns_frame_limits)
    (scratch : pbns_buffer) (frame : ptr pbns_frame) (payload : ptr pbns_view)
  : option (pbns_status * bytes * ptr pbns_frame * ptr pbns_view) :=
  match frame, payload with
  | Some _, Some _ =>
  if negb (view_is_valid cobs_record) || negb (buffer_is_valid scratch)
     || negb (limits_are_valid limits) then
    Some (PBNS_ERR_ARGUMENT, b_data scratch, frame, payload)
  else if (v_len cobs_record =? SIZE_MAX)
          || (encoded_record_max limits <? v_len cobs_record + 1) then
    Some (PBNS_ERR_LIMIT, b_data scratch, Some zero_frame, Some null_view)
  else
  decoded ← pbns_cobs_decode cobs_record scratch (Some 0);
  let '(status, raw, raw_len) := decoded in
  if negb (is_ok status) then Some (status, raw, Some zero_frame, Some null_view)
  else
  parsed ← frame_parse_raw limits (b_ptr scratch) raw (default 0 raw_len);
  let '(status, frame, payload) := parsed in
  Some (status, raw, Some frame, Some payload)
  | _, _ => Some (PBNS_ERR_ARGUMENT, b_data scratch, frame, payload)
  end.

(** ** The layout of a record *)

Definition frame_header (frame : pbns_frame) (payload_len : Z) : bytes :=
  frame_magic ++ [PBNS_FRAME_V1_PROTOCOL_VERSION; f_service frame; f_type frame; f_flags frame]
  ++ f_request_id frame ++ be_bytes 4 (f_sequence frame) ++ be_bytes 4 payload_len.

Definition with_crc (l : bytes) : bytes := l ++ be_bytes 4 (crc32c_bytes l).

Definition frame_raw (frame : pbns_frame) (payload : bytes) : bytes :=
  with_crc (with_crc (frame_header frame (zlen payload)) ++ payload).

(** The record on the wire. *)
Definition frame_wire (frame : pbns_frame) (payload : bytes) : bytes :=
  cobs_encoded (frame_raw frame payload) ++ [0].

(** What the types of the C structure promise. *)
Definition frame_typed (frame : pbns_frame) : Prop :=
  is_byte (f_flags frame) /\ bytes_ok (f_request_id frame)
  /\ length (f_request_id frame) = 16%nat /\ 0 <= f_sequence frame <= UINT32_MAX.

(** The records the protocol admits, under given payload limits. *)
Definition ack_payload_ok (type : Z) (payload : bytes) : Prop :=
  type = PBNS_MESSAGE_ACK ->
  be_value (slice payload 0 4) <> 0 /\ be_value (slice payload 4 4) <> 0.

Definition frame_valid (limits : pbns_frame_limits) (frame : pbns_frame) (payload : bytes) : Prop :=
  frame_typed frame /\ bytes_ok payload
  /\ service_is_valid (f_service frame) = true /\ message_type_is_valid (f_type frame) = true
  /\ f_flags frame = 0
  /\ validate_payload_length (f_type frame) (zlen payload)
       (control_payload_max limits) (data_payload_max limits) = PBNS_OK
  /\ ack_payload_ok (f_type frame) payload.

Definition v1_limits : pbns_frame_limits :=
  mk_limits PBNS_FRAME_V1_CONTROL_PAYLOAD_MAX PBNS_FRAME_V1_DATA_PAYLOAD_MAX PBNS_FRAME_V1_WIRE_MAX.

(** ** Lemmas on the layout *)

Lemma size_asserts :
  PBNS_FRAME_V1_RAW_MAX
    = PBNS_FRAME_V1_HEADER_SIZE + PBNS_FRAME_V1_CONTROL_PAYLOAD_MAX + PBNS_FRAME_V1_TRAILER_SIZE
  /\ PBNS_FRAME_V1_COBS_MAX = PBNS_FRAME_V1_RAW_MAX + PBNS_FRAME_V1_RAW_MAX / 254 + 1
  /\ PBNS_FRAME_V1_WIRE_MAX = PBNS_FRAME_V1_COBS_MAX + 1.
Proof. done. Qed.

Lemma with_crc_length l : zlen (with_crc l) = zlen l + 4.
Proof. unfold with_crc. lens. rewrite be_bytes_length. lia. Qed.

Lemma with_crc_ok l : bytes_ok l -> bytes_ok (with_crc l).
Proof. intros. apply bytes_ok_app. auto with pbns. Qed.

Lemma frame_header_length f n : frame_typed f -> zlen (frame_header f n) = 32.
Proof.
  intros (_ & _ & E & _). unfold frame_header. rewrite !length_app, !be_bytes_length, E. done.
Qed.

Lemma service_is_byte s : service_is_valid s = true -> is_byte s.
Proof. unfold service_is_valid, is_byte, PBNS_SERVICE_TRUSTED_TIME, PBNS_SERVICE_ENROLLMENT. intros. bools. lia. Qed.

Lemma type_is_byte t : message_type_is_valid t = true -> is_byte t.
Proof. unfold message_type_is_valid, is_byte, PBNS_MESSAGE_REQUEST, PBNS_MESSAGE_COMPLETE. intros. bools. lia. Qed.

Lemma frame_header_ok l f n pl : frame_valid l f pl -> bytes_ok (frame_header f n).
Proof.
  intros ((? & ? & _) & _ & ?%service_is_byte & ?%type_is_byte & _).
  unfold frame_header, frame_magic, PBNS_FRAME_V1_PROTOCOL_VERSION. octets.
Qed.

Lemma frame_raw_length f pl : frame_typed f -> zlen (frame_raw f pl) = 40 + zlen pl.
Proof.
  intros H. unfold frame_raw. rewrite with_crc_length. lens.
  pose proof (with_crc_length (frame_header f (zlen pl))).
  pose proof (frame_header_length f (zlen pl) H). lia.
Qed.

Lemma frame_raw_ok l f pl : frame_valid l f pl -> bytes_ok (frame_raw f pl).
Proof.
  intros H. apply with_crc_ok, bytes_ok_app. split; [|by apply H].
  eapply with_crc_ok, frame_header_ok, H.
Qed.

Lemma validate_payload_length_bound type n cl dl :
  0 <= n -> cl <= PBNS_FRAME_V1_CONTROL_PAYLOAD_MAX -> dl <= PBNS_FRAME_V1_DATA_PAYLOAD_MAX ->
  validate_payload_length type n cl dl = PBNS_OK -> n <= PBNS_FRAME_V1_CONTROL_PAYLOAD_MAX.
Proof.
  unfold validate_payload_length, PBNS_FRAME_V1_CONTROL_PAYLOAD_MAX, PBNS_FRAME_V1_DATA_PAYLOAD_MAX,
    PBNS_ACK_PAYLOAD_SIZE. intros Hn Hc Hd H.
  split_body H; bools; lia.
Qed.

Lemma limits_are_valid_spec l :
  limits_are_valid l = true ->
  control_payload_max l <= PBNS_FRAME_V1_CONTROL_PAYLOAD_MAX
  /\ data_payload_max l <= PBNS_FRAME_V1_DATA_PAYLOAD_MAX
  /\ encoded_record_max l <= PBNS_FRAME_V1_WIRE_MAX.
Proof. unfold limits_are_valid. intros. bools. done. Qed.

Lemma frame_valid_payload_bound l f pl :
  limits_are_valid l = true -> frame_valid l f pl -> zlen pl <= PBNS_FRAME_V1_CONTROL_PAYLOAD_MAX.
Proof.
  intros (Hc & Hd & _)%limits_are_valid_spec (_ & _ & _ & _ & _ & H & _).
  eapply validate_payload_length_bound; [| | |exact H]; lia || done.
Qed.

Lemma validate_ack_payload_spec type n pl cl dl :
  bytes_ok pl -> n = zlen pl -> validate_payload_length type n cl dl = PBNS_OK ->
  exists s, validate_ack_payload type pl = Some s /\ (s = PBNS_OK <-> ack_payload_ok type pl)
            /\ (s = PBNS_OK \/ s = PBNS_ERR_FORMAT).
Proof.
  intros Hok -> Hlen. unfold validate_ack_payload, ack_payload_ok.
  destruct (Z.eqb_spec type PBNS_MESSAGE_ACK) as [->|Hne].
  2: { exists PBNS_OK. split; [done|]. split; [|auto]. split; [intros _ ?; congruence|done]. }
  assert (zlen pl = 8).
  { unfold validate_payload_length in Hlen.
    change (PBNS_MESSAGE_ACK =? PBNS_MESSAGE_DATA) with false in Hlen.
    rewrite Z.eqb_refl in Hlen. by destruct (Z.eqb_spec (zlen pl) PBNS_ACK_PAYLOAD_SIZE). }
  rewrite !read_u32_be_value by (done || lia). cbn [mbind option_bind].
  destruct (Z.eqb_spec (be_value (slice pl 0 4)) 0).
  { exists PBNS_ERR_FORMAT. split; [done|]. split; [|auto]. split; [done|].
    intros H'. by destruct (H' eq_refl). }
  destruct (Z.eqb_spec (be_value (slice pl 4 4)) 0);
    [exists PBNS_ERR_FORMAT|exists PBNS_OK]; (split; [done|]; split; [|auto]; split; [done|]).
  - intros H'. by destruct (H' eq_refl).
  - done.
Qed.

(** ** The stores of the encoder *)

Lemma pbns_crc32c_bytes p l : p <> 0 -> pbns_crc32c (mk_view p l) = crc32c_bytes l.
Proof. intros H. unfold pbns_crc32c. simpl. by rewrite (proj2 (Z.eqb_neq p 0) H). Qed.

#[local] Opaque u32_octets be_bytes.

#[local] Ltac side Eid :=
  rewrite ?length_app, ?length_drop, ?u32_octets_length, ?Eid; cbn [length frame_magic]; lia.

Lemma frame_write_raw_spec l f pl p raw :
  frame_valid l f pl -> zlen pl <= PBNS_FRAME_V1_CONTROL_PAYLOAD_MAX -> p <> 0 ->
  40 + zlen pl <= zlen raw ->
  frame_write_raw f pl (40 + zlen pl) p raw
  = Some (frame_raw f pl ++ drop (length (frame_raw f pl)) raw).
Proof.
  intros Hv Hpl Hp Hfit. pose proof Hv as ((Hfl & Hid & Eid & Hseq) & Hok & Hs & Ht & _).
  unfold frame_write_raw, write_u32_be.
  rewrite (u8_small (f_service f)) by by apply service_is_byte.
  rewrite (u8_small (f_type f)) by by apply type_is_byte.
  rewrite (u32_small (zlen pl)) by (unfold PBNS_FRAME_V1_CONTROL_PAYLOAD_MAX, UINT32_MAX in *; lia).
  unfold PBNS_FRAME_V1_TRAILER_SIZE, PBNS_FRAME_V1_HEADER_SIZE. replace (40 + zlen pl - 4) with (36 + zlen pl) by lia.
  change raw with ([] ++ raw) at 1.
  rewrite wr_list_next by side Eid. cbn [mbind option_bind].
  do 4 (rewrite wr_next by side Eid; cbn [mbind option_bind]).
  do 3 (rewrite wr_list_next by side Eid; cbn [mbind option_bind]).
  rewrite rd_slice_prefix by side Eid. cbn [mbind option_bind].
  rewrite pbns_crc32c_bytes by done.
  do 2 (rewrite wr_list_next by side Eid; cbn [mbind option_bind]).
  rewrite rd_slice_prefix by side Eid. cbn [mbind option_bind].
  rewrite pbns_crc32c_bytes by done.
  rewrite wr_list_next by side Eid. f_equal. rewrite !drop_drop.
  repeat match goal with |- context [u32_octets ?v] => rewrite (u32_octets_be v) end.
  unfold frame_raw, with_crc, frame_header. rewrite <- !app_assoc. cbn [app].
  repeat f_equal. rewrite !length_app, !be_bytes_length, Eid. cbn [length frame_magic].
  rewrite !length_app, !be_bytes_length, Eid. cbn [length]. lia.
Qed.

(** ** Encoding *)

Section encode.
Context `{Machine}.
Implicit Types (f : pbns_frame) (payload : pbns_view) (raw_scratch output : pbns_buffer).

Definition frame_raw_size payload : Z := 40 + v_len payload.
Definition frame_wire_max payload : Z :=
  frame_raw_size payload + (frame_raw_size payload / 254 + 1) + 1.

(** The conditions on the buffers under which a frame can be encoded. *)
Definition frame_buffers_ok payload raw_scratch output : Prop :=
  view_is_valid payload = true /\ buffer_is_valid raw_scratch = true
  /\ buffer_is_valid output = true
  /\ frame_raw_size payload <= b_cap raw_scratch /\ frame_wire_max payload <= b_cap output
  /\ ranges_overlap (b_ptr raw_scratch) (frame_raw_size payload)
       (b_ptr output) (frame_wire_max payload) = false
  /\ ranges_overlap (v_ptr payload) (v_len payload)
       (b_ptr raw_scratch) (frame_raw_size payload) = false
  /\ ranges_overlap (v_ptr payload) (v_len payload)
       (b_ptr output) (frame_wire_max payload) = false.

(** The size computations of the encoder do not wrap. *)
Lemma frame_sizes payload :
  v_len payload <= PBNS_FRAME_V1_CONTROL_PAYLOAD_MAX ->
  size_add (size_add PBNS_FRAME_V1_HEADER_SIZE (v_len payload)) PBNS_FRAME_V1_TRAILER_SIZE
    = frame_raw_size payload
  /\ pbns_cobs_max_encoded_size (frame_raw_size payload) (Some 0)
     = (PBNS_OK, Some (frame_wire_max payload - 1))
  /\ frame_wire_max payload - 1 <> SIZE_MAX
  /\ size_add (frame_wire_max payload - 1) 1 = frame_wire_max payload
  /\ 40 <= frame_raw_size payload.
Proof.
  intros Hb. pose proof SIZE_MAX_at_least as Hs.
  unfold frame_wire_max, frame_raw_size, pbns_cobs_max_encoded_size in *.
  unfold PBNS_FRAME_V1_CONTROL_PAYLOAD_MAX, PBNS_FRAME_V1_HEADER_SIZE,
    PBNS_FRAME_V1_TRAILER_SIZE, UINT32_MAX in *.
  assert (0 <= v_len payload) by (unfold v_len; lia).
  assert (0 <= (40 + v_len payload) / 254 <= 1000)
    by (split; [apply Z.div_pos; lia|apply Z.div_le_upper_bound; lia]).
  rewrite !size_add_small by (rewrite ?size_add_small; lia).
  destruct (Z.ltb_spec (SIZE_MAX - ((40 + v_len payload) / 254 + 1)) (40 + v_len payload)); [lia|].
  repeat split; try lia. do 2 f_equal. lia.
Qed.

(** The stores, the stuffing and the delimiter. *)
Lemma frame_encode_body f payload raw_scratch output :
  frame_valid v1_limits f (v_data payload) -> frame_buffers_ok payload raw_scratch output ->
  v_len payload <= PBNS_FRAME_V1_CONTROL_PAYLOAD_MAX ->
  exists raw' rest,
    (raw ← frame_write_raw f (v_data payload) (frame_raw_size payload) (b_ptr raw_scratch)
             (b_data raw_scratch);
     raw_record ← rd_slice raw 0 (frame_raw_size payload);
     let last := Z.to_nat (b_cap output - 1) in
     encoded ← pbns_cobs_encode (mk_view (b_ptr raw_scratch) raw_record)
                 (mk_buffer (b_ptr output) 0 (take last (b_data output))) (Some 0);
     let '(status, data, cobs_written) := encoded in
     let cobs_written := default 0 cobs_written in
     let out := data ++ drop last (b_data output) in
     if negb (is_ok status) then Some (status, raw, out, Some 0)
     else
     out ← wr out cobs_written 0;
     Some (PBNS_OK, raw, out, Some (cobs_written + 1)))
    = Some (PBNS_OK, frame_raw f (v_data payload) ++ raw',
            frame_wire f (v_data payload) ++ rest, Some (zlen (frame_wire f (v_data payload))))
    /\ zlen (frame_raw f (v_data payload) ++ raw') = b_cap raw_scratch
    /\ zlen (frame_wire f (v_data payload) ++ rest) = b_cap output.
Proof.
  intros Hv (Hvp & Hvr & Hvo & Hcr & Hco & _) Hb.
  pose proof (frame_sizes payload Hb) as (_ & _ & _ & _ & H40).
  unfold frame_wire_max, frame_raw_size, v_len, b_cap in *.
  apply buffer_is_valid_spec in Hvr as [_ Hpr], Hvo as [_ Hpo].
  assert (b_ptr raw_scratch <> 0) by (destruct Hpr as [?| E]; [done|rewrite E in Hcr; simpl in Hcr; lia]).
  assert (b_ptr output <> 0).
  { destruct Hpo as [?| E]; [done|]. rewrite E in Hco. simpl in Hco.
    pose proof (Z.div_pos (40 + zlen (v_data payload)) 254). lia. }
  rewrite (frame_write_raw_spec v1_limits) by done. cbn [mbind option_bind].
  pose proof (frame_raw_length f (v_data payload) (proj1 Hv)) as Hlen.
  rewrite rd_slice_prefix by done. cbn [mbind option_bind].
  set (rawl := frame_raw f (v_data payload)) in *.
  pose proof (cobs_encoded_length rawl) as Hcl. rewrite Hlen in Hcl.
  set (last := Z.to_nat (zlen (b_data output) - 1)).
  pose proof (pbns_cobs_encode_spec (mk_view (b_ptr raw_scratch) rawl)
    (mk_buffer (b_ptr output) 0 (take last (b_data output))) 0) as He.
  cbv zeta in He. unfold b_cap in He. cbn [v_data b_data] in He.
  assert (Hlast : zlen (take last (b_data output)) = zlen (b_data output) - 1)
    by (subst last; llia).
  rewrite Hlast in He.
  destruct (Z.leb_spec (zlen (cobs_encoded rawl)) (zlen (b_data output) - 1)); [|lia].
  destruct He as (rest & -> & El).
  { apply view_is_valid_spec. by left. }
  { apply buffer_is_valid_spec. simpl. auto. }
  { lia. }
  cbn [mbind option_bind is_ok negb default id]. rewrite <- app_assoc.
  rewrite wr_next; [|done|subst last; llia]. cbn [mbind option_bind].
  change (cobs_encoded rawl ++ [0]) with (frame_wire f (v_data payload)).
  replace (zlen (cobs_encoded rawl) + 1) with (zlen (frame_wire f (v_data payload)))
    by (unfold frame_wire; subst rawl; llia).
  do 2 eexists. split; [reflexivity|].
  unfold frame_wire. fold rawl. subst last. split; llia.
Qed.

(** The buffers keep holding octets. *)
Lemma u32_octets_ok v : bytes_ok (u32_octets v).
Proof. rewrite u32_octets_be. apply be_bytes_ok. Qed.

Lemma frame_write_raw_ok f pl n p raw raw' :
  frame_typed f -> bytes_ok pl -> bytes_ok raw -> frame_write_raw f pl n p raw = Some raw' ->
  bytes_ok raw'.
Proof.
  intros (Hfl & Hid & _) Hpl Hraw E. unfold frame_write_raw, write_u32_be in E.
  assert (bytes_ok frame_magic) by (unfold frame_magic; octets).
  assert (is_byte PBNS_FRAME_V1_PROTOCOL_VERSION) by done.
  repeat match type of E with
  | context [wr_list ?o ?i ?x ≫= _] =>
      let H := fresh "Hok" in let Ew := fresh "Ew" in
      destruct (wr_list o i x) eqn:Ew; [|done]; cbn [mbind option_bind] in E;
      eapply wr_list_ok in Ew as H; [|by auto using u32_octets_ok with pbns..]
  | context [wr ?o ?i ?x ≫= _] =>
      let H := fresh "Hok" in let Ew := fresh "Ew" in
      destruct (wr o i x) eqn:Ew; [|done]; cbn [mbind option_bind] in E;
      eapply wr_ok in Ew as H; [|by auto with pbns..]
  | context [rd_slice ?o ?i ?x ≫= _] => destruct (rd_slice o i x); [|done]; cbn [mbind option_bind] in E
  end.
  eapply wr_list_ok; [| |exact E]; auto using u32_octets_ok.
Qed.

Lemma rd_slice_ok l i n r : bytes_ok l -> rd_slice l i n = Some r -> bytes_ok r.
Proof. intros Hl E. unfold rd_slice in E. destruct (_ && _); [|done]. injection E as <-. auto with pbns. Qed.

Lemma pbns_frame_encode_ok f payload raw_scratch output w status raw out n :
  frame_typed f -> bytes_ok (v_data payload) -> bytes_ok (b_data raw_scratch) -> bytes_ok (b_data output) ->
  pbns_frame_encode (Some f) payload raw_scratch output (Some w) = Some (status, raw, out, n) ->
  bytes_ok raw /\ bytes_ok out.
Proof.
  intros Hf Hpl Hr Ho E. unfold pbns_frame_encode in E.
  repeat match type of E with
  | (if ?c then _ else _) = _ => destruct c; [by simplify_eq|]
  | (let '_ := ?x in _) = _ => destruct x as [? ?]
  | (validate_ack_payload ?t ?p ≫= _) = _ => destruct (validate_ack_payload t p); [|done]; cbn [mbind option_bind] in E
  end.
  destruct (frame_write_raw _ _ _ _ _) as [raw1|] eqn:Ew; [|done]. cbn [mbind option_bind] in E.
  pose proof (frame_write_raw_ok _ _ _ _ _ _ Hf Hpl Hr Ew) as Hraw.
  destruct (rd_slice raw1 0 _) as [rec|] eqn:Er; [|done]. cbn [mbind option_bind] in E.
  destruct (pbns_cobs_encode _ _ _) as [[[st data] cnt]|] eqn:Ec; [|done]. cbn [mbind option_bind] in E.
  pose proof (rd_slice_ok _ _ _ _ Hraw Er) as Hrec.
  assert (Hdata : bytes_ok (data ++ drop (Z.to_nat (b_cap output - 1)) (b_data output))).
  { apply bytes_ok_app. split; [|auto with pbns]. eapply pbns_cobs_encode_ok; [| |exact Ec]; simpl; auto with pbns. }
  destruct (negb _); [by simplify_eq|].
  destruct (wr _ _ 0) as [out1|] eqn:Eo; [|done]. cbn [mbind option_bind] in E.
  injection E as <- <- <- <-. split; [done|]. eapply wr_ok; [exact Hdata| |exact Eo]. done.
Qed.

(** What the encoder returns. *)
Definition encode_outcome f payload raw_scratch output
    (r : option (pbns_status * bytes * bytes * ptr Z)) : Prop :=
  exists status raw' out' n,
    r = Some (status, raw', out', Some n)
    /\ zlen raw' = b_cap raw_scratch /\ zlen out' = b_cap output
    /\ (status = PBNS_OK <->
        frame_valid v1_limits f (v_data payload) /\ frame_buffers_ok payload raw_scratch output)
    /\ (status = PBNS_OK ->
        n = zlen (frame_wire f (v_data payload))
        /\ exists rest, out' = frame_wire f (v_data payload) ++ rest)
    /\ (status <> PBNS_OK -> n = 0).

Lemma encode_outcome_fail f payload raw_scratch output status :
  status <> PBNS_OK ->
  ~ (frame_valid v1_limits f (v_data payload) /\ frame_buffers_ok payload raw_scratch output) ->
  encode_outcome f payload raw_scratch output
    (Some (status, b_data raw_scratch, b_data output, Some 0)).
Proof. intros Hs Hn. do 4 eexists. split; [done|]. unfold b_cap. naive_solver. Qed.

Local Ltac refute :=
  let E := fresh in
  intros E; unfold frame_valid, frame_buffers_ok in E; destruct_and? E; subst;
  first [ congruence | tauto ].

Lemma pbns_frame_encode_outcome f payload raw_scratch output w :
  frame_typed f -> bytes_ok (v_data payload) ->
  encode_outcome f payload raw_scratch output
    (pbns_frame_encode (Some f) payload raw_scratch output (Some w)).
Proof.
  intros Hf Hok. unfold pbns_frame_encode.
  destruct (view_is_valid payload) eqn:Evp;
    [|apply encode_outcome_fail; [done|refute]].
  destruct (buffer_is_valid raw_scratch) eqn:Evr;
    [|apply encode_outcome_fail; [done|refute]].
  destruct (buffer_is_valid output) eqn:Evo;
    [|apply encode_outcome_fail; [done|refute]].
  cbn [negb orb].
  destruct (service_is_valid (f_service f)) eqn:Es;
    [|apply encode_outcome_fail; [done|refute]].
  destruct (message_type_is_valid (f_type f)) eqn:Et;
    [|apply encode_outcome_fail; [done|refute]].
  cbn [negb].
  destruct (Z.eqb_spec (f_flags f) 0) as [Efl|Hfl];
    [|apply encode_outcome_fail; [done|refute]].
  cbn [negb].
  destruct (is_ok (validate_payload_length _ _ _ _)) eqn:El;
    [|apply encode_outcome_fail; [by apply is_ok_false|]].
  2: { apply is_ok_false in El. refute. }
  apply is_ok_spec in El. cbn [negb].
  destruct (validate_ack_payload_spec _ _ _ _ _ Hok eq_refl El) as (s & -> & Hs & _).
  cbn [mbind option_bind].
  destruct (is_ok s) eqn:Eok; [|apply encode_outcome_fail; [by apply is_ok_false|]].
  2: { apply is_ok_false in Eok. refute. }
  apply is_ok_spec in Eok. apply Hs in Eok as Hack. cbn [negb].
  assert (Hv : frame_valid v1_limits f (v_data payload)) by (unfold frame_valid; split_and!; done).
  assert (Hb : v_len payload <= PBNS_FRAME_V1_CONTROL_PAYLOAD_MAX)
    by (eapply frame_valid_payload_bound; [|exact Hv]; done).
  destruct (frame_sizes payload Hb) as (-> & -> & Hmax & Ew & _).
  cbn [default id is_ok negb orb]. rewrite (proj2 (Z.eqb_neq _ _) Hmax), Ew. cbn [orb].
  destruct (_ || _) eqn:Ecap.
  { apply encode_outcome_fail; [done|]. intros (_ & _ & _ & _ & ? & ? & _).
    apply orb_true_iff in Ecap as [?%Z.ltb_lt|?%Z.ltb_lt]; lia. }
  destruct (_ || _) eqn:Eov in |- *.
  { apply encode_outcome_fail; [done|]. unfold frame_buffers_ok. intros (_ & Hbuf).
    destruct Hbuf as (_ & _ & _ & _ & _ & E1 & E2 & E3). by rewrite E1, E2, E3 in Eov. }
  bools.
  assert (Hbuf : frame_buffers_ok payload raw_scratch output)
    by (unfold frame_buffers_ok; split_and!; done).
  destruct (frame_encode_body f payload raw_scratch output Hv Hbuf Hb) as (raw' & rest & E & E1 & E2).
  refine (eq_ind_r (encode_outcome f payload raw_scratch output) _ E).
  do 4 eexists. split; [done|]. split; [done|]. split; [done|].
  split; [done|]. split; [by eauto|done].
Qed.

End encode.

(** ** Decoding *)

#[local] Ltac fld E Eid := rewrite E; rewrite <- ?app_assoc; cbn [app]; reflexivity.
#[local] Ltac len Eid := rewrite ?length_app, ?be_bytes_length, ?Eid; cbn [length frame_magic]; lia.

(** The fields of a record, where the decoder looks for them. *)
Lemma frame_raw_fields f pl junk raw n :
  frame_typed f -> raw = frame_raw f pl ++ junk -> n = zlen pl ->
  let header := frame_header f n in
  let record := with_crc header ++ pl in
  slice raw 0 4 = frame_magic /\ rd raw 4 = Some PBNS_FRAME_V1_PROTOCOL_VERSION
  /\ rd raw 5 = Some (f_service f) /\ rd raw 6 = Some (f_type f) /\ rd raw 7 = Some (f_flags f)
  /\ slice raw 8 16 = f_request_id f /\ slice raw 24 4 = be_bytes 4 (f_sequence f)
  /\ slice raw 28 4 = be_bytes 4 n /\ slice raw 0 32 = header
  /\ slice raw 32 4 = be_bytes 4 (crc32c_bytes header) /\ slice raw 36 n = pl
  /\ slice raw 0 (36 + n) = record /\ slice raw (36 + n) 4 = be_bytes 4 (crc32c_bytes record).
Proof.
  intros Hf -> -> header record. pose proof Hf as (_ & _ & Eid & _).
  pose proof (frame_header_length f (zlen pl) Hf) as Hh. fold header in Hh.
  pose proof (with_crc_length header) as Hw.
  assert (E : frame_raw f pl ++ junk = frame_magic ++
    [PBNS_FRAME_V1_PROTOCOL_VERSION; f_service f; f_type f; f_flags f] ++ f_request_id f ++
    be_bytes 4 (f_sequence f) ++ be_bytes 4 (zlen pl) ++ be_bytes 4 (crc32c_bytes header) ++
    pl ++ be_bytes 4 (crc32c_bytes record) ++ junk).
  { unfold frame_raw, with_crc, record, with_crc, header, frame_header. by rewrite <- !app_assoc. }
  split_and!.
  - eapply (slice_eq _ []); [fld E Eid|len Eid..].
  - eapply (rd_eq _ frame_magic); [fld E Eid|len Eid..].
  - eapply (rd_eq _ (frame_magic ++ [_])); [fld E Eid|len Eid..].
  - eapply (rd_eq _ (frame_magic ++ [_; _])); [fld E Eid|len Eid..].
  - eapply (rd_eq _ (frame_magic ++ [_; _; _])); [fld E Eid|len Eid..].
  - eapply (slice_eq _ (frame_magic ++ [_; _; _; _])); [fld E Eid|len Eid..].
  - eapply (slice_eq _ (frame_magic ++ [_; _; _; _] ++ f_request_id f)); [fld E Eid|len Eid..].
  - eapply (slice_eq _ (frame_magic ++ [_; _; _; _] ++ f_request_id f ++ be_bytes 4 (f_sequence f)));
      [fld E Eid|len Eid..].
  - eapply (slice_eq _ []); [unfold header, frame_header; fld E Eid|done|lia].
  - eapply (slice_eq _ header); [|lia|len Eid].
    unfold frame_raw. change (with_crc ?l) with (l ++ be_bytes 4 (crc32c_bytes l)).
    change (with_crc ?l) with (l ++ be_bytes 4 (crc32c_bytes l)) at 1.
    fold header. by rewrite <- !app_assoc.
  - eapply (slice_eq _ (with_crc header)); [|lia|done].
    unfold frame_raw. fold header. unfold with_crc at 1. by rewrite <- !app_assoc.
  - eapply (slice_eq _ []); [|done|unfold record; llia].
    unfold frame_raw. fold header. unfold with_crc at 1. by rewrite <- app_assoc.
  - eapply (slice_eq _ record); [|unfold record; llia|len Eid].
    unfold frame_raw. fold header. unfold with_crc at 1. by rewrite <- app_assoc.
Qed.

Section decode.
Context `{Machine}.
Implicit Types (limits : pbns_frame_limits) (f : pbns_frame) (raw : bytes).

(** Every well-formed record is accepted, with its fields. *)
Lemma frame_parse_complete limits f pl junk p :
  limits_are_valid limits = true -> frame_valid limits f pl -> p <> 0 -> bytes_ok junk ->
  frame_parse_raw limits p (frame_raw f pl ++ junk) (40 + zlen pl)
  = Some (PBNS_OK, f, mk_view (p + 36) pl).
Proof.
  intros Hl Hv Hp Hj. pose proof Hv as (Hf & Hpl & Hs & Ht & Hfl & Hlen & Hack).
  pose proof (frame_valid_payload_bound _ _ _ Hl Hv) as Hb.
  pose proof (frame_raw_length f pl Hf) as Hr.
  pose proof (frame_raw_ok _ _ _ Hv) as Hrok.
  pose proof SIZE_MAX_at_least. pose proof Hf as (_ & _ & _ & Hseq).
  destruct (frame_raw_fields f pl junk _ _ Hf eq_refl eq_refl)
    as (F1 & F2 & F3 & F4 & F5 & F6 & F7 & F8 & F9 & F10 & F11 & F12 & F13).
  assert (Hok : bytes_ok (frame_raw f pl ++ junk)) by octets.
  set (raw := frame_raw f pl ++ junk) in *.
  assert (Hlraw : 40 + zlen pl <= zlen raw) by (subst raw; llia).
  assert (Hn : be_value (slice raw 28 4) = zlen pl).
  { rewrite F8. apply be_value_bytes_u32.
    unfold PBNS_FRAME_V1_CONTROL_PAYLOAD_MAX, UINT32_MAX in *; lia. }
  unfold frame_parse_raw, PBNS_FRAME_V1_HEADER_SIZE, PBNS_FRAME_V1_TRAILER_SIZE.
  destruct (Z.ltb_spec (40 + zlen pl) (36 + 4)); [lia|].
  rewrite !rd_slice_inside, F1, F2 by lia. cbn [mbind option_bind].
  rewrite bytes_eqb_refl, Z.eqb_refl. cbn [negb].
  rewrite !read_u32_be_value, F9, F10 by (done || lia). cbn [mbind option_bind].
  rewrite pbns_crc32c_bytes, be_value_bytes_u32, Z.eqb_refl by (done ||
    (pose proof (crc32c_bytes_u32 _ (frame_header_ok _ _ (zlen pl) _ Hv)) as Hc;
     unfold is_u32, UINT32_MAX in *; lia)).
  rewrite F3, F4, F5, Hn, Hfl. cbn [mbind option_bind negb].
  replace (_ || _) with false
    by (unfold service_is_valid in Hs; bools; symmetry; apply orb_false_iff; split; zbool; lia).
  replace (_ || _) with false
    by (unfold message_type_is_valid in Ht; bools; symmetry; apply orb_false_iff; split; zbool; lia).
  rewrite Z.eqb_refl, Hlen. cbn [negb is_ok].
  unfold PBNS_FRAME_V1_CONTROL_PAYLOAD_MAX, UINT32_MAX in *.
  rewrite !size_add_small by (rewrite ?size_add_small; lia).
  replace (36 + zlen pl + 4) with (40 + zlen pl) by lia. rewrite Z.eqb_refl.
  replace (40 + zlen pl - 4) with (36 + zlen pl) by lia. rewrite F12, F13. cbn [negb].
  rewrite pbns_crc32c_bytes, be_value_bytes_u32, Z.eqb_refl by (done ||
    (assert (Hc : is_u32 (crc32c_bytes (with_crc (frame_header f (zlen pl)) ++ pl)))
       by (apply crc32c_bytes_u32, bytes_ok_app; split; [eapply with_crc_ok, frame_header_ok|]; done);
     unfold is_u32, UINT32_MAX in *; lia)).
  rewrite rd_slice_inside, F11 by lia. cbn [mbind option_bind negb].
  destruct (validate_ack_payload_spec _ _ _ _ _ Hpl eq_refl Hlen) as (s & -> & Hs' & _).
  apply Hs' in Hack as ->. cbn [mbind option_bind negb is_ok].
  rewrite F6, F7, be_value_bytes_u32 by done. rewrite <- Hfl. by destruct f.
Qed.

(** What the parser returns on a record [r] followed by unused storage. *)
Definition parse_outcome limits p (r : bytes) (res : option (pbns_status * pbns_frame * pbns_view)) : Prop :=
  exists status f v,
    res = Some (status, f, v)
    /\ (status = PBNS_OK -> frame_valid limits f (v_data v) /\ r = frame_raw f (v_data v)
                            /\ v_ptr v = p + 36)
    /\ (status <> PBNS_OK -> f = zero_frame /\ v = null_view).

Lemma parse_outcome_fail limits p r status :
  status <> PBNS_OK -> parse_outcome limits p r (Some (status, zero_frame, null_view)).
Proof. intros. do 3 eexists. split; [done|]. split; done. Qed.

Lemma slice_1 raw i x : 0 <= i -> rd raw i = Some x -> slice raw i 1 = [x].
Proof. intros Hi Hx. by rewrite (slice_cons _ _ _ x) by (done || lia). Qed.

Lemma be_bytes_slice raw i :
  bytes_ok raw -> 0 <= i -> i + 4 <= zlen raw -> be_bytes 4 (be_value (slice raw i 4)) = slice raw i 4.
Proof.
  intros Hok Hi Hl. pose proof (slice_length raw i 4 Hi ltac:(lia) Hl) as El.
  replace 4%nat with (length (slice raw i 4)) by lia. apply be_bytes_value. by apply bytes_ok_slice.
Qed.

(** The fields that pass the checks of the parser make up a valid frame. *)
Lemma frame_parse_rebuild limits raw service type n :
  let f := mk_frame service type 0 (slice raw 8 16) (be_value (slice raw 24 4)) in
  bytes_ok raw -> 40 + n <= zlen raw ->
  slice raw 0 4 = frame_magic -> rd raw 4 = Some PBNS_FRAME_V1_PROTOCOL_VERSION ->
  rd raw 5 = Some service -> rd raw 6 = Some type -> rd raw 7 = Some 0 ->
  be_value (slice raw 28 4) = n ->
  be_value (slice raw 32 4) = crc32c_bytes (slice raw 0 32) ->
  be_value (slice raw (36 + n) 4) = crc32c_bytes (slice raw 0 (36 + n)) ->
  slice raw 0 (40 + n) = frame_raw f (slice raw 36 n).
Proof.
  intros f Hok Hlen Hm Hv Hs Ht Hf Hn Hc1 Hc2.
  pose proof (be_value_bound _ (bytes_ok_slice raw 28 4 Hok)) as Hn0. rewrite Hn in Hn0.
  assert (Hpl : zlen (slice raw 36 n) = n) by (apply slice_length; lia).
  assert (Hh : slice raw 0 32 = frame_header f n).
  { unfold frame_header. rewrite <- Hm. unfold f. cbn [f_service f_type f_flags f_request_id f_sequence].
    rewrite <- Hn, !be_bytes_slice by (done || lia).
    change [PBNS_FRAME_V1_PROTOCOL_VERSION; service; type; 0]
      with ([PBNS_FRAME_V1_PROTOCOL_VERSION] ++ [service] ++ [type] ++ [0]).
    rewrite <- (slice_1 raw 4 _ ltac:(lia) Hv), <- (slice_1 raw 5 _ ltac:(lia) Hs),
      <- (slice_1 raw 6 _ ltac:(lia) Ht), <- (slice_1 raw 7 _ ltac:(lia) Hf).
    change 32 with (4 + (1 + (1 + (1 + (1 + (16 + (4 + 4))))))).
    rewrite !slice_split by lia. by rewrite <- !app_assoc. }
  assert (Hr : slice raw 0 (36 + n) = with_crc (frame_header f n) ++ slice raw 36 n).
  { rewrite slice_split by lia. f_equal. change 36 with (32 + 4). rewrite slice_split by lia.
    unfold with_crc. rewrite <- Hh, <- Hc1, be_bytes_slice by (done || lia). done. }
  unfold frame_raw. rewrite Hpl, <- Hr. unfold with_crc.
  rewrite <- Hc2, be_bytes_slice by (done || lia).
  replace (40 + n) with ((36 + n) + 4) by lia. rewrite slice_split by lia. done.
Qed.


(** The parser never reads outside the storage, and what it accepts is a
    well-formed record. *)
Lemma frame_parse_outcome limits p raw raw_len :
  limits_are_valid limits = true -> bytes_ok raw -> 0 <= raw_len <= zlen raw -> p <> 0 ->
  parse_outcome limits p (slice raw 0 raw_len) (frame_parse_raw limits p raw raw_len).
Proof.
  intros Hl Hok Hlen Hp. pose proof SIZE_MAX_at_least as HS.
  unfold frame_parse_raw, PBNS_FRAME_V1_HEADER_SIZE, PBNS_FRAME_V1_TRAILER_SIZE, UINT32_MAX in *.
  destruct (Z.ltb_spec raw_len (36 + 4)); [by apply parse_outcome_fail|].
  rewrite !(rd_slice_inside raw 0 4), !(rd_slice_inside raw 0 32), !(rd_slice_inside raw 8 16),
    !(read_u32_be_value raw 32), !(read_u32_be_value raw 28), !(read_u32_be_value raw 24)
    by (done || lia). cbn [mbind option_bind].
  destruct (bytes_eqb (slice raw 0 4) frame_magic) eqn:Em; [|by apply parse_outcome_fail].
  apply bytes_eqb_spec in Em. cbn [negb].
  destruct (rd_some raw 4) as [v Ev]; [lia|]. rewrite Ev. cbn [mbind option_bind].
  destruct (Z.eqb_spec v PBNS_FRAME_V1_PROTOCOL_VERSION) as [->|]; [|by apply parse_outcome_fail].
  cbn [negb]. rewrite pbns_crc32c_bytes by done.
  destruct (Z.eqb_spec (be_value (slice raw 32 4)) (crc32c_bytes (slice raw 0 32))) as [Hc1|];
    [|by apply parse_outcome_fail]. cbn [negb].
  destruct (rd_some raw 5) as [s Es]; [lia|]. rewrite Es. cbn [mbind option_bind].
  destruct (_ || _) eqn:Hs; [by apply parse_outcome_fail|].
  destruct (rd_some raw 6) as [t Et]; [lia|]. rewrite Et. cbn [mbind option_bind].
  destruct (_ || _) eqn:Ht in |- *; [by apply parse_outcome_fail|].
  destruct (rd_some raw 7) as [fl Efl]; [lia|]. rewrite Efl. cbn [mbind option_bind].
  destruct (Z.eqb_spec fl 0) as [->|]; [|by apply parse_outcome_fail]. cbn [negb].
  remember (be_value (slice raw 28 4)) as n eqn:En.
  assert (0 <= n) by (subst n; apply be_value_bound; by apply bytes_ok_slice).
  destruct (is_ok (validate_payload_length _ _ _ _)) eqn:Elen;
    [|apply parse_outcome_fail; by apply is_ok_false].
  apply is_ok_spec in Elen. cbn [negb].
  assert (Hb : n <= PBNS_FRAME_V1_CONTROL_PAYLOAD_MAX).
  { apply limits_are_valid_spec in Hl as (? & ? & _). by eapply validate_payload_length_bound. }
  unfold PBNS_FRAME_V1_CONTROL_PAYLOAD_MAX in Hb.
  rewrite !size_add_small by (rewrite ?size_add_small; lia).
  destruct (Z.eqb_spec raw_len (36 + n + 4)) as [->|]; [|by apply parse_outcome_fail]. cbn [negb].
  replace (36 + n + 4 - 4) with (36 + n) by lia.
  rewrite (read_u32_be_value raw (36 + n)), (rd_slice_inside raw 0) by (done || lia).
  cbn [mbind option_bind]. rewrite pbns_crc32c_bytes by done.
  destruct (Z.eqb_spec (be_value (slice raw (36 + n) 4)) (crc32c_bytes (slice raw 0 (36 + n))))
    as [Hc2|]; [|by apply parse_outcome_fail]. cbn [negb].
  rewrite rd_slice_inside by lia. cbn [mbind option_bind].
  assert (Hpl : zlen (slice raw 36 n) = n) by (apply slice_length; lia).
  destruct (validate_ack_payload_spec t n (slice raw 36 n) _ _ (bytes_ok_slice _ _ _ Hok) (eq_sym Hpl) Elen)
    as (st & -> & Hst & _). cbn [mbind option_bind].
  destruct (is_ok st) eqn:Eok; [|apply parse_outcome_fail; by apply is_ok_false]. cbn [negb].
  apply is_ok_spec, Hst in Eok. do 3 eexists. split; [done|]. split; [|done]. intros _.
  split; [|split; [|done]].
  - unfold frame_valid, frame_typed, service_is_valid, message_type_is_valid.
    cbn [f_service f_type f_flags f_request_id f_sequence v_data]. rewrite Hpl. bools.
    pose proof (be_value_bound _ (bytes_ok_slice raw 24 4 Hok)) as Hsq.
    rewrite slice_length in Hsq by lia.
    pose proof (slice_length raw 8 16 ltac:(lia) ltac:(lia) ltac:(lia)).
    split_and!; auto with pbns; try (unfold is_byte, UINT32_MAX; lia);
      apply andb_true_iff; split; apply Z.leb_le; lia.
  - cbn [v_data]. replace (36 + n + 4) with (40 + n) by lia. by apply frame_parse_rebuild; try lia.
Qed.


(** The parser looks at the octets of the record only. *)
Lemma frame_parse_prefix limits p m junk :
  limits_are_valid limits = true -> bytes_ok m ->
  frame_parse_raw limits p (m ++ junk) (zlen m) = frame_parse_raw limits p m (zlen m).
Proof.
  intros Hl Hok. pose proof SIZE_MAX_at_least as HS. unfold frame_parse_raw.
  unfold PBNS_FRAME_V1_HEADER_SIZE, PBNS_FRAME_V1_TRAILER_SIZE, UINT32_MAX in *.
  destruct (Z.ltb_spec (zlen m) (36 + 4)); [done|].
  rewrite !(rd_slice_app_l m junk 0), !(rd_slice_app_l m junk 8), !(rd_app_l m junk), !(read_u32_be_app_l m junk)
    by lia.
  do 6 (apply option_bind_ext_fun; intros ?; try (case_match; [done|])).
  apply option_bind_ext_fun. intros ?. case_match; [done|].
  rewrite !(read_u32_be_value m 28) by (done || lia). cbn [mbind option_bind].
  remember (be_value (slice m 28 4)) as n eqn:En.
  assert (0 <= n) by (subst n; apply be_value_bound; by apply bytes_ok_slice).
  destruct (is_ok (validate_payload_length _ _ _ _)) eqn:Elen; [|done]. cbn [negb].
  apply is_ok_spec in Elen.
  assert (Hb : n <= PBNS_FRAME_V1_CONTROL_PAYLOAD_MAX).
  { apply limits_are_valid_spec in Hl as (? & ? & _). by eapply validate_payload_length_bound. }
  unfold PBNS_FRAME_V1_CONTROL_PAYLOAD_MAX in Hb.
  rewrite !size_add_small by (rewrite ?size_add_small; lia).
  destruct (Z.eqb_spec (zlen m) (36 + n + 4)); [|done]. cbn [negb].
  by rewrite !(rd_slice_app_l m junk 36) by lia.
Qed.

(** The records that stand for a frame under the given limits. *)
Definition frame_record limits (r : bytes) f (pl : bytes) : Prop :=
  cobs_decoded r = Some (frame_raw f pl) /\ frame_valid limits f pl.

Definition decode_outcome (cobs_record : pbns_view) limits (scratch : pbns_buffer)
    (r : option (pbns_status * bytes * ptr pbns_frame * ptr pbns_view)) : Prop :=
  exists status raw f v,
    r = Some (status, raw, Some f, Some v) /\ zlen raw = b_cap scratch
    /\ (status = PBNS_OK ->
        frame_record limits (v_data cobs_record) f (v_data v) /\ v_ptr v = b_ptr scratch + 36
        /\ raw = frame_raw f (v_data v) ++ drop (length (frame_raw f (v_data v))) (b_data scratch))
    /\ (status <> PBNS_OK -> f = zero_frame /\ v = null_view)
    /\ (forall f' pl', frame_record limits (v_data cobs_record) f' pl' ->
        v_len cobs_record + 1 <= encoded_record_max limits -> 40 + zlen pl' <= b_cap scratch ->
        status = PBNS_OK /\ f = f' /\ v_data v = pl').

(** The part of the decoder after the stuffing is removed. *)
Lemma frame_decode_body cobs_record limits scratch m :
  bytes_ok (v_data cobs_record) -> buffer_is_valid scratch = true ->
  limits_are_valid limits = true -> cobs_decoded (v_data cobs_record) = Some m ->
  zlen m <= b_cap scratch ->
  let raw := m ++ drop (length m) (b_data scratch) in
  decode_outcome cobs_record limits scratch
    (parsed ← frame_parse_raw limits (b_ptr scratch) raw (zlen m);
     let '(status, frame, payload) := parsed in Some (status, raw, Some frame, Some payload)).
Proof.
  intros Hok Hb Hl Em Hfit raw. apply buffer_is_valid_spec in Hb as [_ Hb]. unfold b_cap in *.
  assert (Hmok : bytes_ok m) by (eapply cobs_unstuff_ok; [exact Hok|exact Em]).
  assert (Hraw : zlen raw = zlen (b_data scratch)) by (unfold raw; llia).
  destruct (decide (b_ptr scratch = 0)) as [E0|Hp].
  { destruct Hb as [?|E]; [done|]. unfold frame_parse_raw.
    destruct (Z.ltb_spec (zlen m) (PBNS_FRAME_V1_HEADER_SIZE + PBNS_FRAME_V1_TRAILER_SIZE)) as [_|Hge].
    2: { rewrite E in Hfit. unfold PBNS_FRAME_V1_HEADER_SIZE, PBNS_FRAME_V1_TRAILER_SIZE in Hge.
         simpl in Hfit. lia. }
    cbn. do 4 eexists. split; [done|]. split; [done|]. split; [done|]. split; [done|].
    intros f' pl' _ _ Hc. unfold b_cap in Hc. rewrite E in Hc. simpl in Hc. lia. }
  replace (frame_parse_raw limits (b_ptr scratch) raw (zlen m))
    with (frame_parse_raw limits (b_ptr scratch) m (zlen m)) by (symmetry; by apply frame_parse_prefix).
  destruct (frame_parse_outcome limits (b_ptr scratch) m (zlen m) Hl Hmok) as (st & f & v & E & Hsound & Hfail).
  { lia. } { done. }
  rewrite slice_all in Hsound by done. rewrite E. cbn [mbind option_bind].
  exists st, raw, f, v. split; [done|]. split; [done|]. split; [|split; [done|]].
  - intros Hst. destruct (Hsound Hst) as (Hv & Em' & Hptr). split; [|split; [done|by rewrite <- Em']].
    split; [by rewrite <- Em'|done].
  - intros f' pl' [Hd Hf'] _ _. assert (Hm : m = frame_raw f' pl') by congruence.
    pose proof (frame_parse_complete limits f' pl' [] (b_ptr scratch) Hl Hf' Hp bytes_ok_nil) as Hc.
    rewrite <- (frame_raw_length f' pl' (proj1 Hf')), app_nil_r, <- Hm in Hc.
    rewrite E in Hc. by simplify_eq.
Qed.

Lemma pbns_frame_decode_outcome cobs_record limits scratch f0 v0 :
  view_is_valid cobs_record = true -> bytes_ok (v_data cobs_record) ->
  buffer_is_valid scratch = true -> limits_are_valid limits = true ->
  decode_outcome cobs_record limits scratch
    (pbns_frame_decode cobs_record limits scratch (Some f0) (Some v0)).
Proof.
  intros Hv Hok Hb Hl. unfold pbns_frame_decode. rewrite Hv, Hb, Hl. cbn [negb orb].
  pose proof (limits_are_valid_spec _ Hl) as (_ & _ & Hmax). pose proof SIZE_MAX_at_least as HS.
  unfold PBNS_FRAME_V1_WIRE_MAX, UINT32_MAX in *.
  destruct (_ || _) eqn:Elim.
  { do 4 eexists. split; [done|]. split; [done|]. split; [done|]. split; [done|].
    intros f' pl' _ H1 _. apply orb_true_iff in Elim as [?%Z.eqb_eq|?%Z.ltb_lt]; lia. }
  destruct (decide (v_data cobs_record = [])) as [E|Hne].
  { unfold pbns_cobs_decode. rewrite Hv, Hb. unfold v_len. rewrite E. cbn.
    do 4 eexists. split; [done|]. split; [done|]. split; [done|]. split; [done|].
    intros f' pl' (Hd & Hf' & _). rewrite E in Hd. injection Hd as Hd.
    pose proof (frame_raw_length f' pl' Hf') as Hr. rewrite <- Hd in Hr. simpl in Hr. lia. }
  pose proof (pbns_cobs_decode_spec cobs_record scratch 0 Hv Hb Hne Hok) as Hd.
  assert (Hrec : forall f' pl', frame_record limits (v_data cobs_record) f' pl' ->
    40 + zlen pl' <= b_cap scratch ->
    exists m, cobs_decoded (v_data cobs_record) = Some m /\ zlen m <= b_cap scratch).
  { intros f' pl' [Hd' Hf'] Hc. eexists. split; [exact Hd'|].
    pose proof (frame_raw_length f' pl' (proj1 Hf')). lia. }
  destruct (cobs_decoded (v_data cobs_record)) as [m|] eqn:Em.
  2: { destruct Hd as (st & data & -> & El & Hst). cbn [mbind option_bind].
       destruct (is_ok st) eqn:Eok; [apply is_ok_spec in Eok as ->; naive_solver|].
       cbn [negb]. do 4 eexists. split; [done|]. split; [done|].
       split; [intros ->; naive_solver|]. split; [done|].
       intros f' pl' Hr _ Hc. destruct (Hrec f' pl' Hr Hc) as (? & ? & _). done. }
  destruct (Z.leb_spec (zlen m) (b_cap scratch)).
  2: { destruct Hd as (data & -> & El). cbn. do 4 eexists. split; [done|]. split; [done|].
       split; [done|]. split; [done|]. intros f' pl' Hr _ Hc.
       destruct (Hrec f' pl' Hr Hc) as (? & [= <-] & ?). lia. }
  rewrite Hd. by apply frame_decode_body.
Qed.

End decode.

(** ** A corrupted octet *)

Lemma with_crc_one_octet x y a b b' c :
  bytes_ok x -> bytes_ok y -> with_crc x = a ++ b :: c -> with_crc y = a ++ b' :: c -> b = b'.
Proof.
  intros Hx Hy Ex Ey. destruct (decide (b = b')) as [|Hne]; [done|]. exfalso.
  assert (El : length x = length y).
  { apply (f_equal length) in Ex, Ey. unfold with_crc in *. rewrite !length_app, be_bytes_length in *.
    simpl in *. lia. }
  assert (Tx : x = take (length x) (a ++ b :: c)) by (rewrite <- Ex; unfold with_crc; by rewrite take_app_length).
  assert (Ty : y = take (length x) (a ++ b' :: c)) by (rewrite <- Ey, El; unfold with_crc; by rewrite take_app_length).
  destruct (decide (length a < length x)%nat) as [Hlt|Hge].
  - rewrite take_app_ge in Tx, Ty by lia.
    replace (length x - length a)%nat with (S (length x - length a - 1)) in Tx, Ty by lia.
    simpl in Tx, Ty. set (c1 := take (length x - length a - 1) c) in *.
    assert (Dc : be_bytes 4 (crc32c_bytes x) = be_bytes 4 (crc32c_bytes y)).
    { apply (f_equal (drop (length x))) in Ex, Ey. unfold with_crc in Ex, Ey.
      rewrite drop_app_length in Ex. rewrite El, drop_app_length, <- El in Ey. rewrite Ex, Ey.
      rewrite !drop_app_ge by lia. replace (length x - length a)%nat with (S (length x - length a - 1)) by lia.
      done. }
    apply (f_equal be_value) in Dc.
    pose proof (crc32c_bytes_u32 x Hx). pose proof (crc32c_bytes_u32 y Hy). unfold is_u32 in *.
    rewrite !be_value_bytes_u32 in Dc by (unfold UINT32_MAX; lia).
    rewrite Tx, Ty in Dc. revert Dc. rewrite Tx in Hx. rewrite Ty in Hy.
    apply crc32c_bytes_one_octet; [done| |done].
    by apply bytes_ok_app in Hy as [_ [? _]%bytes_ok_cons].
  - rewrite take_app_le in Tx, Ty by lia. assert (x = y) as <- by congruence.
    rewrite Ex in Ey. by simplify_list_eq.
Qed.

(** ** Properties *)

Section properties.
Context `{Machine}.

(** Encoding never leaves the buffers, and succeeds exactly when the
    protocol admits the frame and the payload, the buffers are large enough and
    none of them overlap; the output then starts with the COBS encoding of the
    record (header, header CRC, payload, record CRC) and a zero octet, and
    [*written] is its length.  On every error [*written] is zero. *)
Theorem frame_encode_correct (f : pbns_frame) (payload : pbns_view)
    (raw_scratch output : pbns_buffer) (w : Z) :
  frame_typed f -> bytes_ok (v_data payload) ->
  exists status raw' out' n,
    pbns_frame_encode (Some f) payload raw_scratch output (Some w) = Some (status, raw', out', Some n)
    /\ zlen raw' = b_cap raw_scratch /\ zlen out' = b_cap output
    /\ (status = PBNS_OK <->
        frame_valid v1_limits f (v_data payload) /\ frame_buffers_ok payload raw_scratch output)
    /\ (status = PBNS_OK ->
        n = zlen (frame_wire f (v_data payload))
        /\ exists rest, out' = frame_wire f (v_data payload) ++ rest)
    /\ (status <> PBNS_OK -> n = 0).
Proof. intros Hf Hok. by apply pbns_frame_encode_outcome. Qed.

(** C10: decoding never leaves the buffers, and what it accepts is exactly what
    the protocol admits: an accepted record is the COBS encoding of the record
    of a valid frame within the limits, whose fields and payload are returned;
    conversely every such record that respects the size limits is accepted.  On
    every error the frame and the payload are cleared. *)
Theorem frame_decode_correct (cobs_record : pbns_view) (limits : pbns_frame_limits)
    (scratch : pbns_buffer) (f0 : pbns_frame) (v0 : pbns_view) :
  view_is_valid cobs_record = true -> bytes_ok (v_data cobs_record) ->
  buffer_is_valid scratch = true -> limits_are_valid limits = true ->
  exists status raw f v,
    pbns_frame_decode cobs_record limits scratch (Some f0) (Some v0)
      = Some (status, raw, Some f, Some v)
    /\ zlen raw = b_cap scratch
    /\ (status = PBNS_OK ->
        frame_record limits (v_data cobs_record) f (v_data v) /\ v_ptr v = b_ptr scratch + 36
        /\ raw = frame_raw f (v_data v) ++ drop (length (frame_raw f (v_data v))) (b_data scratch))
    /\ (status <> PBNS_OK -> f = zero_frame /\ v = null_view)
    /\ (forall f' pl', frame_record limits (v_data cobs_record) f' pl' ->
        v_len cobs_record + 1 <= encoded_record_max limits -> 40 + zlen pl' <= b_cap scratch ->
        status = PBNS_OK /\ f = f' /\ v_data v = pl').
Proof. intros. by apply pbns_frame_decode_outcome. Qed.

(** C9: what one peer encodes the other decodes: for a frame that the encoder
    accepts and that is within the decoder's limits, decoding the written
    octets without the delimiter gives the same frame and payload; the
    delimiter is the only zero octet on the wire. *)
Theorem frame_roundtrip (f f0 : pbns_frame) (payload v0 : pbns_view) (limits : pbns_frame_limits)
    (raw_scratch output scratch : pbns_buffer) (w n p : Z) (raw out : bytes) :
  frame_typed f -> bytes_ok (v_data payload) ->
  pbns_frame_encode (Some f) payload raw_scratch output (Some w) = Some (PBNS_OK, raw, out, Some n) ->
  limits_are_valid limits = true -> frame_valid limits f (v_data payload) ->
  n <= encoded_record_max limits -> p <> 0 ->
  buffer_is_valid scratch = true -> 40 + v_len payload <= b_cap scratch ->
  let record := take (Z.to_nat (n - 1)) out in
  Forall nonzero_octet record /\ rd out (n - 1) = Some 0 /\
  exists raw' q,
    pbns_frame_decode (mk_view p record) limits scratch (Some f0) (Some v0)
    = Some (PBNS_OK, raw', Some f, Some (mk_view q (v_data payload))).
Proof.
  intros Hf Hok He Hl Hv Hn Hp Hb Hcap record.
  destruct (pbns_frame_encode_outcome f payload raw_scratch output w Hf Hok)
    as (st & raw1 & out1 & n1 & E & _ & _ & _ & Hok1 & _).
  rewrite He in E. injection E as <- <- <- <-. destruct (Hok1 eq_refl) as [En (rest & Eout)].
  pose proof (frame_raw_ok _ _ _ Hv) as Hraw.
  assert (Erec : record = cobs_encoded (frame_raw f (v_data payload))).
  { unfold record. rewrite Eout, En. unfold frame_wire. rewrite length_app, <- app_assoc. simpl length.
    replace (Z.to_nat _) with (length (cobs_encoded (frame_raw f (v_data payload)))) by lia.
    apply take_app_length. }
  split; [rewrite Erec; by apply cobs_encoded_nonzero|]. split.
  { apply (rd_eq _ (cobs_encoded (frame_raw f (v_data payload))) _ rest).
    - rewrite Eout. unfold frame_wire. by rewrite <- app_assoc.
    - rewrite En. unfold frame_wire. llia. }
  destruct (pbns_frame_decode_outcome (mk_view p record) limits scratch f0 v0)
    as (st & raw' & f' & v & -> & _ & _ & _ & Hc); try done.
  { apply view_is_valid_spec. auto. }
  { simpl. rewrite Erec. by apply cobs_encoded_ok. }
  destruct (Hc f (v_data payload)) as (-> & -> & <-); [| |done|].
  { split; [|done]. simpl. rewrite Erec. by apply cobs_decoded_encoded. }
  { unfold v_len. simpl. rewrite Erec, En in *. unfold frame_wire in Hn. llia. }
  exists raw', (v_ptr v). by destruct v.
Qed.

(** A record in which one octet of the header, of the payload or of a CRC
    was changed after it was built from a valid frame is never accepted. *)
Theorem frame_corruption_rejected (f f0 : pbns_frame) (pl : bytes) (v0 : pbns_view)
    (cobs_record : pbns_view) (limits : pbns_frame_limits) (scratch : pbns_buffer)
    (a c : bytes) (b b' : Z) :
  frame_valid limits f pl -> frame_raw f pl = a ++ b :: c -> b <> b' ->
  cobs_decoded (v_data cobs_record) = Some (a ++ b' :: c) ->
  view_is_valid cobs_record = true -> bytes_ok (v_data cobs_record) ->
  buffer_is_valid scratch = true -> limits_are_valid limits = true ->
  exists status raw,
    pbns_frame_decode cobs_record limits scratch (Some f0) (Some v0)
    = Some (status, raw, Some zero_frame, Some null_view) /\ status <> PBNS_OK.
Proof.
  intros Hf Eraw Hne Edec Hv Hok Hb Hl.
  destruct (pbns_frame_decode_outcome cobs_record limits scratch f0 v0 Hv Hok Hb Hl)
    as (st & raw & f' & v & -> & _ & Hsound & Hfail & _).
  destruct (decide (st = PBNS_OK)) as [E|Hst].
  - destruct (Hsound E) as ((Ed & Hf') & _). exfalso. apply Hne.
    rewrite Edec in Ed. injection Ed as Ed. symmetry in Ed.
    eapply with_crc_one_octet; [| |exact Eraw|exact Ed];
      (apply bytes_ok_app; split; [eapply with_crc_ok, frame_header_ok|]); first [eassumption|apply Hf|apply Hf'].
  - destruct (Hfail Hst) as [-> ->]. eauto.
Qed.

End properties.

(** ** Witnesses *)

Definition ex_frame : pbns_frame :=
  mk_frame PBNS_SERVICE_TRUSTED_TIME PBNS_MESSAGE_REQUEST 0 [1; 2; 3; 4; 5; 6; 7; 8; 9; 10; 11; 12; 13; 14; 15; 16] 0.
Definition ex_payload : pbns_view := mk_view 4096 [1; 0; 2].
Definition ex_scratch : pbns_buffer := mk_buffer 8192 0 (replicate 64 170).
Definition ex_output : pbns_buffer := mk_buffer 12288 0 (replicate 64 170).

Lemma ex_frame_typed : frame_typed ex_frame.
Proof. unfold frame_typed. split_and!; try done. unfold ex_frame. simpl. octets. Qed.

Lemma ex_frame_valid : frame_valid v1_limits ex_frame (v_data ex_payload).
Proof.
  unfold frame_valid. split_and!; try done; [apply ex_frame_typed|].
  unfold ex_payload. simpl. octets.
Qed.

Lemma ex_buffers_ok : @frame_buffers_ok x86_64 ex_payload ex_scratch ex_output.
Proof. unfold frame_buffers_ok. split_and!; vm_compute; done. Qed.

Lemma replicate_ok n b : is_byte b -> bytes_ok (replicate n b).
Proof. intros. by apply Forall_replicate. Qed.

Lemma frame_encode_correct_witness :
  exists raw' rest,
    @pbns_frame_encode x86_64 (Some ex_frame) ex_payload ex_scratch ex_output (Some 0)
    = Some (PBNS_OK, raw', frame_wire ex_frame [1; 0; 2] ++ rest, Some (zlen (frame_wire ex_frame [1; 0; 2]))).
Proof.
  destruct (@frame_encode_correct x86_64 ex_frame ex_payload ex_scratch ex_output 0)
    as (st & raw' & out' & n & -> & _ & _ & Hiff & Hok & _).
  - apply ex_frame_typed.
  - apply ex_frame_valid.
  - destruct Hiff as [_ Hiff]. rewrite Hiff in Hok |- *
      by (split; [apply ex_frame_valid|apply ex_buffers_ok]).
    destruct (Hok eq_refl) as [-> (rest & ->)]. by exists raw', rest.
Defined.

Lemma frame_decode_correct_witness :
  exists raw q,
    @pbns_frame_decode x86_64 (mk_view 4096 (cobs_encoded (frame_raw ex_frame [1; 0; 2]))) v1_limits
      ex_scratch (Some zero_frame) (Some null_view)
    = Some (PBNS_OK, raw, Some ex_frame, Some (mk_view q [1; 0; 2])).
Proof.
  destruct (@frame_decode_correct x86_64 (mk_view 4096 (cobs_encoded (frame_raw ex_frame [1; 0; 2])))
              v1_limits ex_scratch zero_frame null_view)
    as (st & raw & f & v & -> & _ & _ & _ & Hc); try done.
  - apply cobs_encoded_ok. eapply frame_raw_ok, ex_frame_valid.
  - destruct (Hc ex_frame [1; 0; 2]) as (-> & -> & <-); [|vm_compute; done..|].
    + split; [|apply ex_frame_valid]. apply cobs_decoded_encoded. eapply frame_raw_ok, ex_frame_valid.
    + exists raw, (v_ptr v). by destruct v.
Defined.

Lemma frame_roundtrip_witness :
  exists raw out n raw' q,
    @pbns_frame_encode x86_64 (Some ex_frame) ex_payload ex_scratch ex_output (Some 0)
      = Some (PBNS_OK, raw, out, Some n)
    /\ @pbns_frame_decode x86_64 (mk_view 4096 (take (Z.to_nat (n - 1)) out)) v1_limits
         ex_scratch (Some zero_frame) (Some null_view)
       = Some (PBNS_OK, raw', Some ex_frame, Some (mk_view q [1; 0; 2])).
Proof.
  destruct (@pbns_frame_encode_outcome x86_64 ex_frame ex_payload ex_scratch ex_output 0
              ex_frame_typed (proj1 (proj2 ex_frame_valid)))
    as (st & raw & out & n & E & _ & _ & [_ Hst] & Hn & _).
  rewrite Hst in E, Hn by (split; [apply ex_frame_valid|apply ex_buffers_ok]).
  destruct (Hn eq_refl) as [En _].
  destruct (@frame_roundtrip x86_64 ex_frame zero_frame ex_payload null_view v1_limits ex_scratch
              ex_output ex_scratch 0 n 4096 raw out ex_frame_typed (proj1 (proj2 ex_frame_valid)) E
              eq_refl ex_frame_valid) as (_ & _ & raw' & q & Ed).
  - rewrite En. vm_compute. discriminate.
  - discriminate.
  - reflexivity.
  - vm_compute. discriminate.
  - exists raw, out, n, raw', q. split; [exact E|exact Ed].
Defined.

(** The last octet of the record CRC of [ex_frame] changed by one bit. *)
Definition ex_corrupt : bytes :=
  let r := frame_raw ex_frame [1; 0; 2] in <[42%nat := Z.lxor (r !!! 42%nat) 1]> r.

Lemma frame_corruption_rejected_witness :
  exists status raw,
    @pbns_frame_decode x86_64 (mk_view 4096 (cobs_encoded ex_corrupt)) v1_limits ex_scratch
      (Some zero_frame) (Some null_view)
    = Some (status, raw, Some zero_frame, Some null_view) /\ status <> PBNS_OK.
Proof.
  assert (Hok : bytes_ok ex_corrupt) by (apply Forall_forall; intros x Hx;
    apply byteb_spec; revert x Hx; apply forallb_forall; vm_compute; reflexivity).
  assert (Eraw : frame_raw ex_frame [1; 0; 2]
                 = take 42 ex_corrupt ++ (frame_raw ex_frame [1; 0; 2] !!! 42%nat) :: [])
    by (vm_compute; reflexivity).
  assert (Ecor : ex_corrupt = take 42 ex_corrupt ++ (ex_corrupt !!! 42%nat) :: [])
    by (vm_compute; reflexivity).
  refine (@frame_corruption_rejected x86_64 ex_frame zero_frame [1; 0; 2] null_view
            (mk_view 4096 (cobs_encoded ex_corrupt)) v1_limits ex_scratch
            (take 42 ex_corrupt) [] (frame_raw ex_frame [1; 0; 2] !!! 42%nat) (ex_corrupt !!! 42%nat)
            ex_frame_valid Eraw _ _ _ _ _ _).
  - vm_compute. discriminate.
  - rewrite <- Ecor. by apply cobs_decoded_encoded.
  - reflexivity.
  - by apply cobs_encoded_ok.
  - reflexivity.
  - reflexivity.
Defined.
