(* ===== verification/Stream.v ===== *)
(** * Stream state ([include/pbns/stream.h], [src/core/stream.c])

    The monitor of an exchange: it accepts a frame only when it belongs to the
    bound service and request, carries the next sequence number, is admissible
    for its type and stays within the byte budget; a terminal frame ends the
    exchange and any violation ends it for good. *)

From stdpp Require Import base list numbers.
From Stdlib Require Import ZArith Lia.
From S2P Require Import Prelude Endian Status Buffers Frame.

(** ** The code *)

Record pbns_stream_state := mk_stream {
  s_service : Z;
  s_request_id : bytes;
  s_byte_limit : Z;
  s_total_bytes : Z;
  s_next_sequence : Z;
  s_initialized : bool;
  s_complete : bool;
  s_failed : bool;
}.

(** [(pbns_stream_state){0}] *)
Definition zero_stream : pbns_stream_state :=
  mk_stream 0 zero_request_id 0 0 0 false false false.

(** The status and [*terminal]. *)
Definition validate_payload (type : Z) (payload : pbns_view) : option (pbns_status * bool) :=
  let within limit := if v_len payload <=? limit then PBNS_OK else PBNS_ERR_LIMIT in
  if (type =? PBNS_MESSAGE_REQUEST) || (type =? PBNS_MESSAGE_RESPONSE) then
    Some (within PBNS_FRAME_V1_CONTROL_PAYLOAD_MAX, false)
  else if type =? PBNS_MESSAGE_DATA then
    Some (within PBNS_FRAME_V1_DATA_PAYLOAD_MAX, false)
  else if type =? PBNS_MESSAGE_ACK then
    if negb (v_len payload =? PBNS_ACK_PAYLOAD_SIZE) then Some (PBNS_ERR_FORMAT, false)
    else
      next ← read_u32_be (v_data payload) 0;
      if next =? 0 then Some (PBNS_ERR_FORMAT, false)
      else
        window ← read_u32_be (v_data payload) 4;
        Some (if window =? 0 then PBNS_ERR_FORMAT else PBNS_OK, false)
  else if type =? PBNS_MESSAGE_ERROR then
    Some (within PBNS_FRAME_V1_CONTROL_PAYLOAD_MAX, true)
  else if (type =? PBNS_MESSAGE_CANCEL) || (type =? PBNS_MESSAGE_COMPLETE) then
    Some (if v_len payload =? 0 then PBNS_OK else PBNS_ERR_FORMAT, true)
  else Some (PBNS_ERR_MESSAGE_TYPE, false).

Definition fail_stream (state : pbns_stream_state) (status : pbns_status)
  : pbns_status * pbns_stream_state :=
  (status, mk_stream (s_service state) (s_request_id state) (s_byte_limit state)
             (s_total_bytes state) (s_next_sequence state) (s_initialized state)
             (s_complete state) true).

Definition pbns_stream_init (state : ptr pbns_stream_state) (service : Z) (request_id : bytes)
    (byte_limit : Z) : ptr pbns_stream_state :=
  match state with
  | None => None
  | Some _ =>
      if negb (service_is_valid service) then Some zero_stream
      else Some (mk_stream service request_id byte_limit 0 0 true false false)
  end.

Definition pbns_stream_reset (state : ptr pbns_stream_state) : ptr pbns_stream_state :=
  match state with
  | None => None
  | Some state =>
      if negb (s_initialized state) then Some state
      else Some (mk_stream (s_service state) (s_request_id state) (s_byte_limit state)
                   0 0 (s_initialized state) false false)
  end.

(** The body on non-[NULL] arguments and a valid view. *)
Definition stream_accept (state : pbns_stream_state) (frame : pbns_frame) (payload : pbns_view)
  : option (pbns_status * pbns_stream_state) :=
  if negb (s_initialized state) || s_failed state then Some (PBNS_ERR_STATE, state)
  else if s_complete state then Some (fail_stream state PBNS_ERR_STATE)
  else if negb (f_service frame =? s_service state) then Some (fail_stream state PBNS_ERR_SERVICE)
  else if negb (bytes_eqb (f_request_id frame) (s_request_id state)) then
    Some (fail_stream state PBNS_ERR_STATE)
  else if negb (f_flags frame =? 0) then Some (fail_stream state PBNS_ERR_FORMAT)
  else if negb (f_sequence frame =? s_next_sequence state)
          || (s_next_sequence state =? UINT32_MAX) then
    Some (fail_stream state PBNS_ERR_SEQUENCE)
  else
    validated ← validate_payload (f_type frame) payload;
    let '(payload_status, terminal) := validated in
    if negb (is_ok payload_status) then Some (fail_stream state payload_status)
    else
      let payload_bytes := v_len payload in
      if (s_byte_limit state <? s_total_bytes state)
         || (UINT64_MAX - s_total_bytes state <? payload_bytes)
         || (s_byte_limit state - s_total_bytes state <? payload_bytes) then
        Some (fail_stream state PBNS_ERR_LIMIT)
      else
        Some (PBNS_OK,
              mk_stream (s_service state) (s_request_id state) (s_byte_limit state)
                (u64 (s_total_bytes state + payload_bytes)) (u32 (s_next_sequence state + 1))
                (s_initialized state) terminal (s_failed state)).

Definition pbns_stream_accept (state : ptr pbns_stream_state) (frame : ptr pbns_frame)
    (payload : pbns_view) : option (pbns_status * ptr pbns_stream_state) :=
  match state, frame with
  | Some state, Some frame =>
      if negb (view_is_valid payload) then Some (PBNS_ERR_ARGUMENT, Some state)
      else
        accepted ← stream_accept state frame payload;
        let '(status, state) := accepted in Some (status, Some state)
  | _, _ => Some (PBNS_ERR_ARGUMENT, state)
  end.

(** ** The contract of an exchange *)

Definition terminal_type (type : Z) : bool :=
  (type =? PBNS_MESSAGE_ERROR) || (type =? PBNS_MESSAGE_CANCEL) || (type =? PBNS_MESSAGE_COMPLETE).

(** A payload that the protocol admits for a type. *)
Definition payload_admitted (type : Z) (payload : bytes) : Prop :=
  validate_payload_length type (zlen payload) PBNS_FRAME_V1_CONTROL_PAYLOAD_MAX
    PBNS_FRAME_V1_DATA_PAYLOAD_MAX = PBNS_OK
  /\ ack_payload_ok type payload.

(** A message of the exchange that starts with sequence number [seq] and may
    still carry [budget] octets. *)
Fixpoint exchange_ok (service : Z) (request_id : bytes) (seq budget : Z)
    (msgs : list (pbns_frame * pbns_view)) : Prop :=
  match msgs with
  | [] => True
  | (f, v) :: msgs' =>
      f_service f = service /\ f_request_id f = request_id /\ f_flags f = 0
      /\ f_sequence f = seq /\ seq < UINT32_MAX
      /\ payload_admitted (f_type f) (v_data v) /\ v_len v <= budget
      /\ (terminal_type (f_type f) = true -> msgs' = [])
      /\ exchange_ok service request_id (seq + 1) (budget - v_len v) msgs'
  end.

(** The monitor run on a sequence of frames that it all accepts. *)
Fixpoint stream_run (state : pbns_stream_state) (msgs : list (pbns_frame * pbns_view))
  : option pbns_stream_state :=
  match msgs with
  | [] => Some state
  | (f, v) :: msgs' =>
      match pbns_stream_accept (Some state) (Some f) v with
      | Some (PBNS_OK, Some state') => stream_run state' msgs'
      | _ => None
      end
  end.

Definition payload_total (msgs : list (pbns_frame * pbns_view)) : Z :=
  foldr (fun m acc => v_len (snd m) + acc) 0 msgs.

(** ** Lemmas *)

(** What the types and the counting promise of a state. *)
Definition stream_inv (state : pbns_stream_state) : Prop :=
  0 <= s_total_bytes state <= s_byte_limit state /\ s_byte_limit state <= UINT64_MAX
  /\ 0 <= s_next_sequence state <= UINT32_MAX.

(** The state after an accepted frame. *)
Definition advanced (state : pbns_stream_state) (n : Z) (terminal : bool) : pbns_stream_state :=
  mk_stream (s_service state) (s_request_id state) (s_byte_limit state)
    (s_total_bytes state + n) (s_next_sequence state + 1) (s_initialized state) terminal
    (s_failed state).

(** The conditions on one frame of the exchange. *)
Definition message_ok (state : pbns_stream_state) (f : pbns_frame) (v : pbns_view) : Prop :=
  f_service f = s_service state /\ f_request_id f = s_request_id state /\ f_flags f = 0
  /\ f_sequence f = s_next_sequence state /\ s_next_sequence state < UINT32_MAX
  /\ payload_admitted (f_type f) (v_data v) /\ v_len v <= s_byte_limit state - s_total_bytes state.

Lemma validate_payload_spec type v :
  bytes_ok (v_data v) ->
  exists st terminal, validate_payload type v = Some (st, terminal)
    /\ (st = PBNS_OK <-> payload_admitted type (v_data v))
    /\ (st = PBNS_OK -> terminal = terminal_type type).
Proof.
  intros Hok. unfold payload_admitted, ack_payload_ok, terminal_type.
  destruct (Z.eqb_spec type PBNS_MESSAGE_ACK) as [->|Hack].
  - unfold validate_payload, validate_payload_length, v_len. cbn -[Z.of_nat].
    destruct (Z.eqb_spec (zlen (v_data v)) PBNS_ACK_PAYLOAD_SIZE) as [E|E]; cbn [negb].
    2: { do 2 eexists. split; [reflexivity|]. split; [split; [done|by intros []]|done]. }
    unfold PBNS_ACK_PAYLOAD_SIZE in E.
    rewrite !read_u32_be_value by (done || lia). cbn [mbind option_bind].
    destruct (Z.eqb_spec (be_value (slice (v_data v) 0 4)) 0).
    { do 2 eexists. split; [reflexivity|]. split; [|done]. split; [done|]. intros [_ Hz]. by destruct (Hz eq_refl). }
    do 2 eexists. split; [reflexivity|]. zbool; (split; [|done]); (split; [done|]); [|done].
    intros [_ Hz]. by destruct (Hz eq_refl).
  - unfold validate_payload, validate_payload_length, v_len.
    unfold PBNS_MESSAGE_REQUEST, PBNS_MESSAGE_RESPONSE, PBNS_MESSAGE_DATA, PBNS_MESSAGE_ACK,
      PBNS_MESSAGE_ERROR, PBNS_MESSAGE_CANCEL, PBNS_MESSAGE_COMPLETE in *.
    zbool; subst; cbn [orb]; try lia; do 2 eexists; (split; [reflexivity|]);
      (split; [|done]); (split; [by intros|by intros []]).
Qed.

(** Every outcome of [pbns_stream_accept] on an open exchange. *)
Lemma stream_accept_outcome state f v :
  stream_inv state -> s_initialized state = true -> s_complete state = false ->
  s_failed state = false -> view_is_valid v = true -> bytes_ok (v_data v) ->
  (message_ok state f v /\
     pbns_stream_accept (Some state) (Some f) v
     = Some (PBNS_OK, Some (advanced state (v_len v) (terminal_type (f_type f)))))
  \/ (~ message_ok state f v /\ exists st,
     pbns_stream_accept (Some state) (Some f) v
     = Some (st, Some (snd (fail_stream state st))) /\ st <> PBNS_OK).
Proof.
  intros (Ht & Hb & Hs) Hi Hc Hf Hv Hok. unfold pbns_stream_accept, stream_accept, message_ok.
  rewrite Hv, Hi, Hc, Hf. cbn [negb orb].
  destruct (Z.eqb_spec (f_service f) (s_service state)); cbn [negb]; [|right; naive_solver].
  destruct (bytes_eqb (f_request_id f) (s_request_id state)) eqn:Eid; cbn [negb];
    [|right; apply bool_decide_eq_false in Eid; naive_solver].
  apply bytes_eqb_spec in Eid.
  destruct (Z.eqb_spec (f_flags f) 0); cbn [negb]; [|right; naive_solver].
  destruct (Z.eqb_spec (f_sequence f) (s_next_sequence state)); cbn [negb orb]; [|right; naive_solver].
  destruct (Z.eqb_spec (s_next_sequence state) UINT32_MAX); [right; split; [lia|naive_solver]|].
  destruct (validate_payload_spec (f_type f) v Hok) as (st & terminal & -> & Hiff & Hterm).
  cbn [mbind option_bind]. destruct (is_ok st) eqn:Eok; cbn [negb].
  2: { apply is_ok_false in Eok. right. naive_solver. }
  apply is_ok_spec in Eok as ->. specialize (Hterm eq_refl) as ->.
  assert (0 <= v_len v) by (unfold v_len; lia).
  destruct (Z.ltb_spec (s_byte_limit state) (s_total_bytes state)); [lia|].
  destruct (Z.ltb_spec (s_byte_limit state - s_total_bytes state) (v_len v)); cbn [orb].
  { rewrite orb_true_r. right. split; [lia|naive_solver]. }
  destruct (Z.ltb_spec (UINT64_MAX - s_total_bytes state) (v_len v)); [lia|]. cbn [orb].
  left. split; [naive_solver lia|]. unfold advanced.
  rewrite u64_small, u32_small by lia. by rewrite Hi, Hf.
Qed.

(** The monitor is total, and what it accepts belongs to the bound request. *)
Lemma stream_accept_total state f v :
  view_is_valid v = true -> bytes_ok (v_data v) ->
  exists st state', pbns_stream_accept (Some state) (Some f) v = Some (st, Some state')
  /\ (st = PBNS_OK ->
      f_service f = s_service state /\ f_request_id f = s_request_id state /\ f_flags f = 0
      /\ f_sequence f = s_next_sequence state /\ payload_admitted (f_type f) (v_data v)).
Proof.
  intros Hv Hok. unfold pbns_stream_accept, stream_accept. rewrite Hv. cbn [negb].
  destruct (negb (s_initialized state) || s_failed state); [by do 2 eexists|].
  destruct (s_complete state); [by do 2 eexists|].
  destruct (Z.eqb_spec (f_service f) (s_service state)); cbn [negb]; [|by do 2 eexists].
  destruct (bytes_eqb (f_request_id f) (s_request_id state)) eqn:Eid; cbn [negb]; [|by do 2 eexists].
  apply bytes_eqb_spec in Eid. destruct (Z.eqb_spec (f_flags f) 0); cbn [negb]; [|by do 2 eexists].
  destruct (Z.eqb_spec (f_sequence f) (s_next_sequence state)); cbn [negb orb]; [|by do 2 eexists].
  destruct (_ =? UINT32_MAX); [by do 2 eexists|].
  destruct (validate_payload_spec (f_type f) v Hok) as (st & terminal & -> & Hiff & _).
  cbn [mbind option_bind]. destruct (is_ok st) eqn:Eok; cbn [negb].
  2: { apply is_ok_false in Eok. do 2 eexists. split; [reflexivity|]. cbn. done. }
  apply is_ok_spec in Eok as ->. destruct (_ || _); [by do 2 eexists|].
  do 2 eexists. split; [reflexivity|]. intros _. split_and!; try done. by apply Hiff.
Qed.

Lemma advanced_inv state f v t :
  stream_inv state -> message_ok state f v -> stream_inv (advanced state (v_len v) t).
Proof.
  unfold stream_inv, message_ok, advanced, v_len. simpl. lia.
Qed.

Definition msgs_ok (msgs : list (pbns_frame * pbns_view)) : Prop :=
  Forall (fun m => view_is_valid (snd m) = true /\ bytes_ok (v_data (snd m))) msgs.

(** The run accepts exactly the exchanges, and counts them. *)
Lemma stream_run_spec msgs : forall state,
  stream_inv state -> s_initialized state = true -> s_complete state = false ->
  s_failed state = false -> msgs_ok msgs ->
  (exchange_ok (s_service state) (s_request_id state) (s_next_sequence state)
      (s_byte_limit state - s_total_bytes state) msgs
   <-> is_Some (stream_run state msgs))
  /\ (forall state', stream_run state msgs = Some state' ->
       s_total_bytes state' = s_total_bytes state + payload_total msgs
       /\ s_next_sequence state' = s_next_sequence state + zlen msgs
       /\ s_total_bytes state' <= s_byte_limit state
       /\ s_complete state' = existsb (fun m => terminal_type (f_type (fst m))) msgs
       /\ s_failed state' = false).
Proof.
  induction msgs as [|[f v] msgs IH]; intros state Hinv Hi Hc Hf Hm.
  { simpl. split; [naive_solver|]. intros ? [= <-]. unfold stream_inv in Hinv. split_and!; try done; lia. }
  apply Forall_cons_iff in Hm as [[Hv Hok] Hm]. simpl in Hv, Hok. cbn [stream_run exchange_ok].
  destruct (stream_accept_outcome state f v Hinv Hi Hc Hf Hv Hok) as [[Hmsg ->]|[Hmsg (st & -> & Hst)]].
  2: { destruct st; try done; (split; [split; [|by intros []]; intros; exfalso; apply Hmsg;
         unfold message_ok; naive_solver|done]). }
  pose proof (advanced_inv state f v (terminal_type (f_type f)) Hinv Hmsg) as Hinv'.
  unfold message_ok in Hmsg. destruct (terminal_type (f_type f)) eqn:Et.
  - assert (Hdone : forall m ms, stream_run (advanced state (v_len v) true) (m :: ms) = None).
    { intros [f' v'] ms. cbn [stream_run]. unfold pbns_stream_accept, stream_accept, advanced. simpl.
      rewrite Hi, Hf. destruct (view_is_valid v'); done. }
    destruct msgs as [|m msgs].
    + cbn [stream_run payload_total foldr existsb exchange_ok fst snd]. split.
      * split; [by eauto|]. intros _. split_and!; try tauto; lia.
      * intros ? [= <-]. rewrite Et. unfold advanced. cbn. split_and!; done || lia.
    + rewrite Hdone. split; [|done]. split; [naive_solver|by intros []].
  - specialize (IH (advanced state (v_len v) false) Hinv' Hi eq_refl Hf Hm) as [IH1 IH2].
    cbn [s_service s_request_id s_next_sequence s_byte_limit s_total_bytes advanced] in IH1, IH2.
    rewrite Z.sub_add_distr in IH1. split.
    + rewrite <- IH1. naive_solver.
    + intros state' E. destruct (IH2 state' E) as (-> & -> & Hle & -> & ->).
      cbn [payload_total foldr existsb fst snd]. rewrite Et. unfold payload_total in *.
      cbn [length]. split_and!; try done; lia.
Qed.

(** ** Properties *)

(** C28: a stream initialised for a service and a request accepts a sequence
    of frames exactly when it is an exchange of that request: every frame
    carries the bound service and request identifier, no flags, the sequence
    numbers count up from zero without wrapping, every payload is admissible
    for its type, the payloads stay within the byte limit in total, and nothing
    follows a terminal frame.  The counters then hold the totals, and the
    stream is complete exactly when the exchange ended in a terminal frame. *)
Theorem stream_accepts_exchanges (st0 : pbns_stream_state) (service byte_limit : Z)
    (request_id : bytes) (msgs : list (pbns_frame * pbns_view)) :
  service_is_valid service = true -> 0 <= byte_limit <= UINT64_MAX -> msgs_ok msgs ->
  exists state,
    pbns_stream_init (Some st0) service request_id byte_limit = Some state
    /\ (exchange_ok service request_id 0 byte_limit msgs <-> is_Some (stream_run state msgs))
    /\ (forall state', stream_run state msgs = Some state' ->
         s_total_bytes state' = payload_total msgs /\ s_next_sequence state' = zlen msgs
         /\ payload_total msgs <= byte_limit
         /\ s_complete state' = existsb (fun m => terminal_type (f_type (fst m))) msgs).
Proof.
  intros Hs Hb Hm. unfold pbns_stream_init. rewrite Hs. cbn [negb]. eexists. split; [done|].
  edestruct (stream_run_spec msgs (mk_stream service request_id byte_limit 0 0 true false false))
    as [H1 H2]; try done.
  { unfold stream_inv. simpl. unfold UINT32_MAX. lia. }
  simpl in H1. rewrite Z.sub_0_r in H1. split; [done|].
  intros state' E. destruct (H2 state' E) as (E1 & E2 & E3 & E4 & _). simpl in *.
  split_and!; try done; lia.
Qed.

(** A violation is final: once a frame was refused for any reason but an
    invalid argument, every later frame is refused with [PBNS_ERR_STATE] and
    leaves the stream as it is; [pbns_stream_reset] makes it the stream that
    [pbns_stream_init] gives for the same service, request and limit. *)
Theorem stream_failure_sticky (state state1 : pbns_stream_state) (f f' : pbns_frame)
    (v v' : pbns_view) (status : pbns_status) :
  s_initialized state = true -> service_is_valid (s_service state) = true ->
  view_is_valid v = true -> view_is_valid v' = true ->
  pbns_stream_accept (Some state) (Some f) v = Some (status, Some state1) -> status <> PBNS_OK ->
  pbns_stream_accept (Some state1) (Some f') v' = Some (PBNS_ERR_STATE, Some state1)
  /\ pbns_stream_reset (Some state1)
     = pbns_stream_init (Some state1) (s_service state) (s_request_id state) (s_byte_limit state).
Proof.
  intros Hi Hs Hv Hv' E Hst.
  assert (Hf : s_failed state1 = true /\ s_initialized state1 = true
    /\ s_service state1 = s_service state /\ s_request_id state1 = s_request_id state
    /\ s_byte_limit state1 = s_byte_limit state).
  { unfold pbns_stream_accept, stream_accept in E. rewrite Hv, Hi in E. cbn [negb orb] in E.
    destruct (s_failed state) eqn:Ef; [by simplify_eq/=|].
    repeat match type of E with context [if ?c then _ else _] => destruct c end;
      cbn [mbind option_bind fail_stream] in E;
      try (by simplify_eq/=);
      destruct (validate_payload (f_type f) v) as [[st t]|]; cbn [mbind option_bind] in E; try done;
      destruct (is_ok st); cbn [negb] in E;
      repeat match type of E with context [if ?c then _ else _] => destruct c end;
      cbn [mbind option_bind fail_stream] in E; by simplify_eq/=. }
  destruct Hf as (Hf & Hi1 & E1 & E2 & E3). split.
  - unfold pbns_stream_accept, stream_accept. by rewrite Hv', Hi1, Hf.
  - unfold pbns_stream_reset, pbns_stream_init. by rewrite Hi1, Hs, E1, E2, E3.
Qed.

(** ** Witnesses *)

Definition ex_msgs : list (pbns_frame * pbns_view) :=
  [(mk_frame PBNS_SERVICE_RECOVERY_ARTIFACT PBNS_MESSAGE_DATA 0 zero_request_id 0, mk_view 4096 [1; 2; 3]);
   (mk_frame PBNS_SERVICE_RECOVERY_ARTIFACT PBNS_MESSAGE_COMPLETE 0 zero_request_id 1, null_view)].

Lemma stream_accepts_exchanges_witness :
  exists state,
    pbns_stream_init (Some zero_stream) PBNS_SERVICE_RECOVERY_ARTIFACT zero_request_id 3 = Some state
    /\ exchange_ok PBNS_SERVICE_RECOVERY_ARTIFACT zero_request_id 0 3 ex_msgs.
Proof.
  destruct (stream_accepts_exchanges zero_stream PBNS_SERVICE_RECOVERY_ARTIFACT 3 zero_request_id ex_msgs)
    as (state & E & [_ H] & _).
  - reflexivity.
  - unfold UINT64_MAX. lia.
  - unfold msgs_ok, ex_msgs. repeat constructor; done.
  - exists state. split; [exact E|]. apply H. injection E as <-. eexists. vm_compute. reflexivity.
Defined.

Lemma stream_failure_sticky_witness :
  exists state1,
    pbns_stream_accept (Some (mk_stream PBNS_SERVICE_TRUSTED_TIME zero_request_id 10 0 0 true false false))
      (Some (mk_frame PBNS_SERVICE_TRUSTED_TIME PBNS_MESSAGE_RESPONSE 0 zero_request_id 7)) null_view
    = Some (PBNS_ERR_SEQUENCE, Some state1)
    /\ pbns_stream_accept (Some state1)
      (Some (mk_frame PBNS_SERVICE_TRUSTED_TIME PBNS_MESSAGE_RESPONSE 0 zero_request_id 0)) null_view
    = Some (PBNS_ERR_STATE, Some state1).
Proof.
  eexists. split; [vm_compute; reflexivity|].
  eapply (stream_failure_sticky
    (mk_stream PBNS_SERVICE_TRUSTED_TIME zero_request_id 10 0 0 true false false) _
    (mk_frame PBNS_SERVICE_TRUSTED_TIME PBNS_MESSAGE_RESPONSE 0 zero_request_id 7) _ null_view);
    [reflexivity..|vm_compute; reflexivity|discriminate].
Defined.
