(* ===== verification/RecordReader.v ===== *)
(** * Record reader ([include/pbns/record_reader.h], [src/core/record_reader.c])

    Splits the octets received from the transport, in chunks of any size, into
    the records between zero octets.

    The storage of the reader is memory that its owner may write too (in the
    broker it is the buffer the requests are encoded into), so its contents are
    an argument and a result of the operations, and the reader keeps the
    pointer, the capacity and the length only. *)

From stdpp Require Import base list numbers.
From Stdlib Require Import ZArith Lia.
From S2P Require Import Prelude Endian Status Buffers Crc32c Cobs Frame.

(** ** The code *)

Record pbns_record_reader := mk_reader {
  r_ptr : Z;
  r_cap : Z;
  r_len : Z;
  r_initialized : bool;
  r_discarding : bool;
  r_ready : bool;
  r_failed : bool;
}.

(** [(pbns_record_reader){0}] *)
Definition zero_reader : pbns_record_reader := mk_reader 0 0 0 false false false false.

Definition with_reader_len (r : pbns_record_reader) (len : Z) : pbns_record_reader :=
  mk_reader (r_ptr r) (r_cap r) len (r_initialized r) (r_discarding r) (r_ready r) (r_failed r).
Definition reader_discards (r : pbns_record_reader) : pbns_record_reader :=
  mk_reader (r_ptr r) (r_cap r) (r_len r) (r_initialized r) true (r_ready r) (r_failed r).
Definition reader_is_ready (r : pbns_record_reader) : pbns_record_reader :=
  mk_reader (r_ptr r) (r_cap r) (r_len r) (r_initialized r) (r_discarding r) true (r_failed r).
Definition reader_fails (r : pbns_record_reader) : pbns_record_reader :=
  mk_reader (r_ptr r) (r_cap r) (r_len r) (r_initialized r) (r_discarding r) (r_ready r) true.

Definition pbns_record_reader_init (reader : ptr pbns_record_reader) (storage : pbns_buffer)
  : ptr pbns_record_reader :=
  match reader with
  | None => None
  | Some _ =>
      if negb (buffer_is_valid storage) then Some zero_reader
      else Some (mk_reader (b_ptr storage) (b_cap storage) (b_len storage) true false false false)
  end.

Definition pbns_record_reader_reset (reader : ptr pbns_record_reader) : ptr pbns_record_reader :=
  match reader with
  | None => None
  | Some r =>
      if negb (r_initialized r) then Some r
      else Some (mk_reader (r_ptr r) (r_cap r) 0 (r_initialized r) false false false)
  end.

(** What a push returns: the status, the reader and its memory, [*consumed],
    [*record_ready] and [*cobs_record]. *)
Record push_result := mk_push {
  pu_status : pbns_status;
  pu_reader : pbns_record_reader;
  pu_mem : bytes;
  pu_consumed : Z;
  pu_ready : bool;
  pu_record : pbns_view;
}.

(** The [for] loop at [index], over the rest of the input. *)
Fixpoint reader_push_loop (r : pbns_record_reader) (mem : bytes) (input : bytes) (index : Z)
  : option push_result :=
  match input with
  | [] => Some (mk_push PBNS_ERR_WOULD_BLOCK r mem index false null_view)
  | octet :: input' =>
      let consumed := index + 1 in
      if r_discarding r then
        if octet =? 0 then
          Some (mk_push PBNS_ERR_LIMIT (reader_fails r) mem consumed false null_view)
        else reader_push_loop r mem input' (index + 1)
      else if octet =? 0 then
        if r_len r =? 0 then
          Some (mk_push PBNS_ERR_FORMAT (reader_fails r) mem consumed false null_view)
        else
          record ← rd_slice mem 0 (r_len r);
          Some (mk_push PBNS_OK (reader_is_ready r) mem consumed true (mk_view (r_ptr r) record))
      else if r_cap r <=? r_len r then
        reader_push_loop (reader_discards r) mem input' (index + 1)
      else
        mem ← wr mem (r_len r) octet;
        reader_push_loop (with_reader_len r (r_len r + 1)) mem input' (index + 1)
  end.

(** The body on non-[NULL] arguments. *)
Definition reader_push `{Machine} (r : pbns_record_reader) (mem : bytes) (input : pbns_view)
  : option push_result :=
  let fail status := Some (mk_push status r mem 0 false null_view) in
  if negb (view_is_valid input) then fail PBNS_ERR_ARGUMENT
  else if negb (r_initialized r) || r_ready r || r_failed r then fail PBNS_ERR_STATE
  else if ranges_overlap (v_ptr input) (v_len input) (r_ptr r) (r_cap r) then fail PBNS_ERR_ARGUMENT
  else reader_push_loop r mem (v_data input) 0.

(** The result: the status, the reader, its memory and the three outputs. *)
Definition pbns_record_reader_push `{Machine} (reader : ptr pbns_record_reader) (mem : bytes)
    (input : pbns_view) (consumed : ptr Z) (record_ready : ptr bool) (cobs_record : ptr pbns_view)
  : option (pbns_status * ptr pbns_record_reader * bytes * ptr Z * ptr bool * ptr pbns_view) :=
  match reader, consumed, record_ready, cobs_record with
  | Some r, Some _, Some _, Some _ =>
      p ← reader_push r mem input;
      Some (pu_status p, Some (pu_reader p), pu_mem p, Some (pu_consumed p), Some (pu_ready p),
            Some (pu_record p))
  | _, _, _, _ =>
      Some (PBNS_ERR_ARGUMENT, reader, mem, (fun _ => 0) <$> consumed, (fun _ => false) <$> record_ready,
            (fun _ => null_view) <$> cobs_record)
  end.

(** ** The records of an octet stream *)

(** The octets up to the first zero octet, and those after it. *)
Fixpoint cut_record (l : bytes) : option (bytes * bytes) :=
  match l with
  | [] => None
  | b :: l' =>
      if b =? 0 then Some ([], l')
      else '(record, rest) ← cut_record l'; Some (b :: record, rest)
  end.

(** How a reader of capacity [cap] closes a record. *)
Definition record_status (cap : Z) (record : bytes) : pbns_status :=
  if cap <? zlen record then PBNS_ERR_LIMIT
  else if zlen record =? 0 then PBNS_ERR_FORMAT else PBNS_OK.

(** A caller that pushes chunk after chunk until a record is closed: the last
    result and the octets that were not consumed. *)
Fixpoint push_chunks `{Machine} (r : pbns_record_reader) (mem : bytes) (chunks : list pbns_view)
  : option (push_result * bytes) :=
  match chunks with
  | [] => Some (mk_push PBNS_ERR_WOULD_BLOCK r mem 0 false null_view, [])
  | c :: chunks' =>
      p ← reader_push r mem c;
      match pu_status p with
      | PBNS_ERR_WOULD_BLOCK => push_chunks (pu_reader p) (pu_mem p) chunks'
      | _ => Some (p, drop (Z.to_nat (pu_consumed p)) (v_data c) ++ concat (v_data <$> chunks'))
      end
  end.

(** ** Lemmas *)

(** The reader at [base] has received the octets [seen] of a record that is not
    closed yet. *)
Definition reader_holds (r : pbns_record_reader) (mem seen : bytes) : Prop :=
  r_initialized r = true /\ r_ready r = false /\ r_failed r = false
  /\ r_cap r = zlen mem /\ r_len r = Z.min (zlen seen) (zlen mem)
  /\ r_discarding r = (zlen mem <? zlen seen)
  /\ take (length seen) mem = take (length mem) seen.

Definition nonzero (b : Z) : Prop := b <> 0.

Lemma cut_record_Some l record rest :
  cut_record l = Some (record, rest) <-> l = record ++ 0 :: rest /\ Forall nonzero record.
Proof.
  revert record. induction l as [|b l IH]; intros record; cbn [cut_record].
  { split; [done|]. intros [H _]. by destruct record. }
  destruct (Z.eqb_spec b 0) as [->|Hb].
  - split; [by intros [= <- <-]|]. intros [E Hr]. destruct record as [|x record]; [by simplify_eq/=|].
    simplify_eq/=. apply Forall_cons_iff in Hr as [[] _]. done.
  - destruct (cut_record l) as [[record' rest']|]; cbn [mbind option_bind].
    + split.
      * intros [= <- <-]. destruct (IH record') as [[-> H] _]; [done|]. split; [done|by constructor].
      * intros [E Hr]. destruct record as [|x record]; simplify_eq/=.
        apply Forall_cons_iff in Hr as [_ Hr]. destruct (IH record) as [_ H].
        injection (H (conj eq_refl Hr)) as <- <-. done.
    + split; [done|]. intros [E Hr]. destruct record as [|x record]; simplify_eq/=.
      apply Forall_cons_iff in Hr as [_ Hr]. destruct (IH record) as [_ H].
      by discriminate (H (conj eq_refl Hr)).
Qed.

Lemma cut_record_app l l' :
  cut_record (l ++ l')
  = match cut_record l with
    | Some (record, rest) => Some (record, rest ++ l')
    | None => '(record, rest) ← cut_record l'; Some (l ++ record, rest)
    end.
Proof.
  induction l as [|b l IH]; cbn [cut_record app].
  { by destruct (cut_record l') as [[]|]. }
  destruct (b =? 0); [done|]. rewrite IH.
  destruct (cut_record l) as [[]|]; [done|]. by destruct (cut_record l') as [[]|].
Qed.

(** One octet that does not close the record. *)
Lemma reader_holds_discard r mem seen b :
  reader_holds r mem seen -> r_discarding r = true -> reader_holds r mem (seen ++ [b]).
Proof.
  intros (? & ? & ? & ? & El & Ed & Et) Hd. rewrite Hd in Ed. symmetry in Ed. bools.
  unfold reader_holds. rewrite (take_app_le seen) by lia. rewrite !take_ge in Et |- * by llia.
  split_and!; try done.
  - lens. lia.
  - rewrite Hd. symmetry. apply Z.ltb_lt. llia.
Qed.

Lemma reader_holds_full r mem seen b :
  reader_holds r mem seen -> r_discarding r = false -> r_cap r <= r_len r ->
  reader_holds (reader_discards r) mem (seen ++ [b]).
Proof.
  intros (? & ? & ? & Ec & El & Ed & Et) Hd Hfull. rewrite Hd in Ed. symmetry in Ed. bools.
  unfold reader_holds. cbn. rewrite (take_app_le seen) by lia. rewrite !take_ge in Et |- * by llia.
  split_and!; try done.
  - lens. lia.
  - symmetry. apply Z.ltb_lt. llia.
Qed.

Lemma reader_holds_store r mem seen b :
  reader_holds r mem seen -> r_discarding r = false -> r_len r < r_cap r ->
  exists mem', wr mem (r_len r) b = Some mem' /\ length mem' = length mem
    /\ reader_holds (with_reader_len r (r_len r + 1)) mem' (seen ++ [b]).
Proof.
  intros (Hi & Hr & Hf & Ec & El & Ed & Et) Hd Hfit. rewrite Hd in Ed. symmetry in Ed. bools.
  assert (El' : r_len r = zlen seen) by lia.
  rewrite wr_inside by lia. eexists. split; [done|]. split; [apply length_insert|].
  unfold reader_holds. cbn. rewrite length_insert, (take_ge (seen ++ [b])) by llia.
  rewrite (take_ge seen) in Et by lia.
  split_and!; try done.
  - lens. lia.
  - rewrite Hd. symmetry. apply Z.ltb_ge. llia.
  - rewrite length_app, Nat.add_1_r, El', Nat2Z.id.
    erewrite take_S_r by (apply list_lookup_insert_eq; lia). by rewrite take_insert_ge, Et by lia.
Qed.

(** The outcome of pushing [input], whose first octet has index [index], to a
    reader that holds [seen]. *)
Definition push_outcome (r : pbns_record_reader) (mem seen input : bytes) (index : Z)
    (result : option push_result) : Prop :=
  exists r' mem', length mem' = length mem /\ r_ptr r' = r_ptr r /\
  match cut_record input with
  | None =>
      result = Some (mk_push PBNS_ERR_WOULD_BLOCK r' mem' (index + zlen input) false null_view)
      /\ reader_holds r' mem' (seen ++ input)
  | Some (record, _) =>
      let status := record_status (zlen mem) (seen ++ record) in
      result = Some (mk_push status r' mem' (index + zlen record + 1) (is_ok status)
                 (if is_ok status then mk_view (r_ptr r) (seen ++ record) else null_view))
      /\ r_initialized r' = true /\ r_cap r' = zlen mem' /\ r_ready r' || r_failed r' = true
      /\ 0 <= r_len r' <= zlen mem /\ (r_discarding r' = true -> r_len r' = zlen mem)
  end.

Lemma push_outcome_step r mem seen b input index r1 mem1 result :
  length mem1 = length mem -> r_ptr r1 = r_ptr r -> b <> 0 ->
  push_outcome r1 mem1 (seen ++ [b]) input (index + 1) result ->
  push_outcome r mem seen (b :: input) index result.
Proof.
  intros El Ep Hb (r' & mem' & El' & Ep' & H'). exists r', mem'. split; [congruence|].
  split; [congruence|]. cbn [cut_record].
  rewrite (proj2 (Z.eqb_neq b 0) Hb).
  destruct (cut_record input) as [[record rest]|]; cbn [mbind option_bind];
    rewrite <- app_assoc in H'; cbn [app length] in *.
  - rewrite El, Ep in H'.
    by replace (index + Z.of_nat (S (length record)) + 1) with (index + 1 + zlen record + 1) by lia.
  - by replace (index + Z.of_nat (S (length input))) with (index + 1 + zlen input) by lia.
Qed.

Lemma reader_push_loop_spec input : forall r mem seen index,
  reader_holds r mem seen -> push_outcome r mem seen input index (reader_push_loop r mem input index).
Proof.
  induction input as [|b input IH]; intros r mem seen index Hh.
  { exists r, mem. cbn [cut_record reader_push_loop]. rewrite app_nil_r. by rewrite Z.add_0_r. }
  pose proof Hh as (Hi & Hr & Hf & Ec & El & Ed & Et).
  cbn [reader_push_loop]. destruct (Z.eqb_spec b 0) as [->|Hb].
  - exists (if r_discarding r then reader_fails r else
              if r_len r =? 0 then reader_fails r else reader_is_ready r), mem.
    split; [done|]. split; [by destruct (r_discarding r), (r_len r =? 0)|].
    cbn [cut_record Z.eqb reader_push_loop length]. rewrite app_nil_r, Z.add_0_r. unfold record_status.
    rewrite <- Ed. destruct (r_discarding r) eqn:Edisc.
    { symmetry in Ed. bools. split; [done|]. cbn. rewrite orb_true_r, Ec, El. split_and!; done || lia. }
    symmetry in Ed. bools. rewrite El, Z.min_l by lia. destruct (zlen seen =? 0).
    { split; [done|]. cbn. rewrite orb_true_r, Edisc, Ec, El. split_and!; done || lia. }
    assert (Es : rd_slice mem 0 (zlen seen) = Some seen).
    { rewrite rd_slice_inside by lia. unfold slice. rewrite Nat2Z.id, drop_0.
      by rewrite Et, take_ge by lia. }
    rewrite Es. cbn. rewrite Hi, Ec, Edisc, El. split_and!; done || lia.
  - destruct (r_discarding r) eqn:Edisc;
      [by apply (push_outcome_step _ _ _ _ _ _ r mem); auto using reader_holds_discard|].
    destruct (Z.leb_spec (r_cap r) (r_len r)).
    + apply (push_outcome_step _ _ _ _ _ _ (reader_discards r) mem); auto using reader_holds_full.
    + destruct (reader_holds_store r mem seen b Hh Edisc) as (mem1 & Ew & El1 & Hh1); [done|].
      rewrite Ew. cbn [mbind option_bind]. apply (push_outcome_step _ _ _ _ _ _ (with_reader_len r (r_len r + 1)) mem1); auto.
Qed.

Lemma reader_holds_init storage :
  b_len storage = 0 ->
  reader_holds (mk_reader (b_ptr storage) (b_cap storage) (b_len storage) true false false false)
    (b_data storage) [].
Proof.
  intros E. unfold reader_holds, b_cap. cbn [r_initialized r_ready r_failed r_cap r_len r_discarding length].
  rewrite E, take_nil. split_and!; try done; [lia|]. symmetry. apply Z.ltb_ge. lia.
Qed.

Lemma reader_push_loop_ok input : forall r mem index p,
  bytes_ok mem -> bytes_ok input -> reader_push_loop r mem input index = Some p -> bytes_ok (pu_mem p).
Proof.
  induction input as [|b input IH]; intros r mem index p Hm Hi E; cbn [reader_push_loop] in E; [by simplify_eq|].
  apply bytes_ok_cons in Hi as [Hb Hi].
  destruct (r_discarding r).
  { destruct (b =? 0); [by simplify_eq|]. eapply IH; [| |exact E]; done. }
  destruct (b =? 0).
  { destruct (r_len r =? 0); [by simplify_eq|]. destruct (rd_slice _ _ _); [|done]. by simplify_eq/=. }
  destruct (_ <=? _); [eapply IH; [| |exact E]; done|]. destruct (wr mem (r_len r) b) eqn:Ew; [|done].
  eapply IH; [|exact Hi|exact E]. eapply wr_ok; [| |exact Ew]; done.
Qed.

Section chunks.
Context `{Machine}.

(** A chunk that may be pushed: a valid view outside the storage. *)
Definition chunk_ok (r : pbns_record_reader) (c : pbns_view) : Prop :=
  view_is_valid c = true /\ ranges_overlap (v_ptr c) (v_len c) (r_ptr r) (r_cap r) = false.

Lemma reader_push_spec r mem seen c :
  reader_holds r mem seen -> chunk_ok r c ->
  push_outcome r mem seen (v_data c) 0 (reader_push r mem c).
Proof.
  intros Hh (Hv & Ho). unfold reader_push. rewrite Hv, Ho. cbn [negb].
  pose proof Hh as (-> & -> & -> & _). by apply reader_push_loop_spec.
Qed.

Lemma push_chunks_spec chunks : forall r mem seen,
  reader_holds r mem seen -> Forall (chunk_ok r) chunks ->
  exists p rest, push_chunks r mem chunks = Some (p, rest)
  /\ length (pu_mem p) = length mem /\ r_ptr (pu_reader p) = r_ptr r
  /\ match cut_record (concat (v_data <$> chunks)) with
     | None => pu_status p = PBNS_ERR_WOULD_BLOCK
               /\ reader_holds (pu_reader p) (pu_mem p) (seen ++ concat (v_data <$> chunks))
     | Some (record, rest') =>
         pu_status p = record_status (zlen mem) (seen ++ record) /\ rest = rest'
         /\ pu_ready p = is_ok (pu_status p)
         /\ (pu_status p = PBNS_OK -> pu_record p = mk_view (r_ptr r) (seen ++ record))
         /\ pbns_record_reader_reset (Some (pu_reader p))
            = Some (mk_reader (r_ptr r) (zlen mem) 0 true false false false)
     end.
Proof.
  induction chunks as [|c chunks IH]; intros r mem seen Hh Hc.
  { do 2 eexists. split; [done|]. cbn. by rewrite app_nil_r. }
  apply Forall_cons_iff in Hc as [Hc0 Hc]. cbn [push_chunks].
  destruct (reader_push_spec r mem seen c Hh Hc0) as (r' & mem' & El & Ep & H').
  cbn [fmap list_fmap concat]. rewrite cut_record_app.
  destruct (cut_record (v_data c)) as [[record rest]|] eqn:Ecut.
  - destruct H' as (-> & Hi' & Hcap & Hdone & _). cbn [mbind option_bind pu_status].
    apply cut_record_Some in Ecut as [Ecut _].
    assert (Ex : forall x, drop (Z.to_nat (0 + zlen record + 1)) (v_data c) ++ x = rest ++ x).
    { intros x. rewrite Ecut. replace (Z.to_nat _) with (length (record ++ [0])) by llia.
      replace (record ++ 0 :: rest) with ((record ++ [0]) ++ rest) by by rewrite <- app_assoc.
      by rewrite drop_app_length. }
    set (st := record_status _ _) in *.
    assert (Est : st <> PBNS_ERR_WOULD_BLOCK).
    { unfold st, record_status. by destruct (zlen mem <? _), (zlen (seen ++ record) =? 0). }
    exists (mk_push st r' mem' (0 + zlen record + 1) (is_ok st)
              (if is_ok st then mk_view (r_ptr r) (seen ++ record) else null_view)),
      (rest ++ concat (v_data <$> chunks)).
    split; [rewrite <- Ex; by destruct st|]. cbn [pu_mem pu_reader pu_status pu_ready pu_record].
    do 5 (split; [done|]). split; [by intros ->|].
    cbn [pbns_record_reader_reset]. by rewrite Hi', Ep, Hcap, El.
  - destruct H' as [-> Hh']. cbn [mbind option_bind pu_status pu_reader pu_mem].
    destruct (IH r' mem' _ Hh') as (p & rest & E & El1 & Ep1 & Hres).
    { pose proof Hh as (_ & _ & _ & E1 & _). pose proof Hh' as (_ & _ & _ & E2 & _).
      eapply Forall_impl; [|exact Hc]. unfold chunk_ok. intros ?. rewrite Ep. by rewrite E1, E2, El. }
    exists p, rest. split; [done|]. split; [congruence|]. split; [congruence|].
    destruct (cut_record (concat _)) as [[record rest']|]; cbn [mbind option_bind].
    + rewrite app_assoc, <- El, <- Ep. done.
    + by rewrite app_assoc.
Qed.
End chunks.

(** ** Properties *)

Section properties.
Context `{Machine}.

(** C29: framing does not depend on how the transport cuts the octets: whatever
    the chunks are, a fresh reader closes the record at the first zero octet of
    their concatenation, hands out the octets before it when they fit the
    storage and are not empty, reports [PBNS_ERR_LIMIT] or [PBNS_ERR_FORMAT]
    otherwise, consumes exactly the record and its delimiter, and is as fresh
    as before after a reset.  Without a zero octet it asks for more, having
    stored nothing outside its storage. *)
Theorem reader_chunking (storage : pbns_buffer) (r0 r : pbns_record_reader) (chunks : list pbns_view) :
  buffer_is_valid storage = true ->
  pbns_record_reader_init (Some r0) storage = Some r ->
  Forall (chunk_ok r) chunks ->
  exists p rest, push_chunks r (b_data storage) chunks = Some (p, rest)
  /\ length (pu_mem p) = length (b_data storage)
  /\ match cut_record (concat (v_data <$> chunks)) with
     | None => pu_status p = PBNS_ERR_WOULD_BLOCK
     | Some (record, rest') =>
         pu_status p = record_status (b_cap storage) record /\ rest = rest'
         /\ pu_ready p = is_ok (pu_status p)
         /\ (pu_status p = PBNS_OK -> pu_record p = mk_view (b_ptr storage) record)
         /\ pbns_record_reader_reset (Some (pu_reader p)) = Some r
     end.
Proof.
  intros Hb E Hc. unfold pbns_record_reader_init in E. rewrite Hb in E. cbn [negb] in E.
  apply buffer_is_valid_spec in Hb as [E0 _]. injection E as <-.
  pose proof (reader_holds_init storage E0) as Hh.
  destruct (push_chunks_spec chunks _ _ _ Hh Hc) as (p & rest & Ep & El & _ & H').
  exists p, rest. split; [done|]. split; [done|].
  destruct (cut_record _) as [[record rest']|]; [|by destruct H'].
  cbn [app r_ptr] in H'. unfold b_cap. by rewrite E0.
Qed.

(** The receiving path as a whole: the octets of an encoded frame, in any
    chunks and followed by anything, are delivered by the record reader and
    decode to the frame and the payload that were encoded, and the octets after
    the frame are left for the next record. *)
Theorem reader_delivers_frame (storage scratch : pbns_buffer) (r0 r : pbns_record_reader)
    (f f0 : pbns_frame) (v0 : pbns_view) (pl after : bytes) (limits : pbns_frame_limits)
    (chunks : list pbns_view) :
  buffer_is_valid storage = true -> b_ptr storage <> 0 ->
  pbns_record_reader_init (Some r0) storage = Some r ->
  limits_are_valid limits = true -> frame_valid limits f pl ->
  zlen (frame_wire f pl) <= encoded_record_max limits -> zlen (frame_wire f pl) <= b_cap storage ->
  buffer_is_valid scratch = true -> 40 + zlen pl <= b_cap scratch ->
  Forall (chunk_ok r) chunks -> concat (v_data <$> chunks) = frame_wire f pl ++ after ->
  exists p raw q, push_chunks r (b_data storage) chunks = Some (p, after)
  /\ pu_status p = PBNS_OK
  /\ pbns_frame_decode (pu_record p) limits scratch (Some f0) (Some v0)
     = Some (PBNS_OK, raw, Some f, Some (mk_view q pl)).
Proof.
  intros Hb Hp E Hl Hf Hw Hcap Hs Hscap Hc Econcat.
  pose proof (frame_raw_ok _ _ _ Hf) as Hraw.
  unfold pbns_record_reader_init in E. rewrite Hb in E. cbn [negb] in E.
  apply buffer_is_valid_spec in Hb as [E0 _]. injection E as <-.
  pose proof (reader_holds_init storage E0) as Hh.
  destruct (push_chunks_spec chunks _ _ _ Hh Hc) as (p & rest & Ep & El & _ & H').
  set (rec := cobs_encoded (frame_raw f pl)) in *.
  assert (Ecut : cut_record (concat (v_data <$> chunks)) = Some (rec, after)).
  { rewrite Econcat. apply cut_record_Some. unfold frame_wire. rewrite <- app_assoc. split; [done|].
    eapply Forall_impl; [|by apply cobs_encoded_nonzero]. unfold nonzero_octet, nonzero. lia. }
  rewrite Ecut in H'. cbn [app r_ptr] in H'. destruct H' as (Est & -> & _ & Hrec & _).
  assert (Hlen : zlen (frame_wire f pl) = zlen rec + 1) by (unfold frame_wire; fold rec; llia).
  assert (Hrec0 : 0 < zlen rec).
  { unfold rec. pose proof (frame_raw_length f pl (proj1 Hf)).
    destruct (cobs_encoded (frame_raw f pl)) eqn:Ec; [|cbn [length]; lia].
    pose proof (cobs_decoded_encoded _ Hraw) as Hd. rewrite Ec in Hd. cbn in Hd.
    injection Hd as Hd. apply (f_equal length) in Hd. cbn [length] in Hd. lia. }
  assert (Est' : pu_status p = PBNS_OK).
  { rewrite Est. unfold record_status, b_cap in *. zbool; done || lia. }
  specialize (Hrec Est').
  destruct (pbns_frame_decode_outcome (pu_record p) limits scratch f0 v0)
    as (st & raw & f' & v & Ed & _ & _ & _ & Hcompl); try done.
  { rewrite Hrec. apply view_is_valid_spec. auto. }
  { rewrite Hrec. by apply cobs_encoded_ok. }
  destruct (Hcompl f pl) as (-> & -> & <-).
  - rewrite Hrec. split; [|done]. by apply cobs_decoded_encoded.
  - rewrite Hrec. unfold v_len. cbn [v_data]. lia.
  - done.
  - exists p, raw, (v_ptr v). split; [done|]. split; [done|]. rewrite Ed. by destruct v.
Qed.
End properties.

(** ** Witnesses *)

Definition ex_storage : pbns_buffer := mk_buffer 16384 0 (replicate 64 170).
Definition ex_chunks : list pbns_view :=
  let w := frame_wire ex_frame [1; 0; 2] ++ [7] in
  [mk_view 4096 (take 5 w); mk_view 4096 []; mk_view 4096 (drop 5 w)].
Definition ex_reader : pbns_record_reader := mk_reader 16384 64 0 true false false false.

Lemma reader_chunking_witness :
  exists p, @push_chunks x86_64 ex_reader (b_data ex_storage) ex_chunks = Some (p, [7])
  /\ pu_status p = PBNS_OK.
Proof.
  destruct (@reader_chunking x86_64 ex_storage zero_reader ex_reader ex_chunks)
    as (p & rest & E & _ & H').
  - reflexivity.
  - reflexivity.
  - unfold chunk_ok. repeat constructor; vm_compute; reflexivity.
  - revert H'. vm_compute (cut_record _). intros (Est & -> & _). exists p. split; [exact E|].
    rewrite Est. vm_compute. reflexivity.
Defined.

Lemma reader_delivers_frame_witness :
  exists p raw q, @push_chunks x86_64 ex_reader (b_data ex_storage) ex_chunks = Some (p, [7])
  /\ pu_status p = PBNS_OK
  /\ @pbns_frame_decode x86_64 (pu_record p) v1_limits ex_scratch (Some zero_frame) (Some null_view)
     = Some (PBNS_OK, raw, Some ex_frame, Some (mk_view q [1; 0; 2])).
Proof.
  refine (@reader_delivers_frame x86_64 ex_storage ex_scratch zero_reader ex_reader ex_frame zero_frame
            null_view [1; 0; 2] [7] v1_limits ex_chunks _ _ _ _ ex_frame_valid _ _ _ _ _ _).
  - reflexivity.
  - discriminate.
  - reflexivity.
  - reflexivity.
  - vm_compute. discriminate.
  - vm_compute. discriminate.
  - reflexivity.
  - vm_compute. discriminate.
  - unfold chunk_ok. repeat constructor; vm_compute; reflexivity.
  - vm_compute. reflexivity.
Defined.
