(* ===== verification/Cbor.v ===== *)
(** * The CBOR codec interface (QCBOR)

    The control bodies and the remote error reports are CBOR maps with integer
    labels.  The codec itself is the vendored QCBOR library: what the sources
    use of it is the class [QCBOR], a decoder of which nothing is assumed and an
    encoder that writes the preferred serialization of RFC 8949, [cbor_map].
    The file proves that this serialization can be parsed back, so that equal
    octets have equal fields, and gives an implementation of the interface. *)

From stdpp Require Import base list numbers.
From Stdlib Require Import ZArith Lia.
From S2P Require Import Prelude Endian.

(** ** Decoded items *)

Definition QCBOR_TYPE_NONE : Z := 0.
Definition QCBOR_TYPE_INT64 : Z := 2.
Definition QCBOR_TYPE_UINT64 : Z := 3.
Definition QCBOR_TYPE_MAP : Z := 5.
Definition QCBOR_TYPE_BYTE_STRING : Z := 6.
Definition QCBOR_TYPE_TEXT_STRING : Z := 7.

(** [QCBORItem], with each member of the unions [val] and [label] that the
    sources read; [it_string_ptr] is [NULL] only for an absent string. *)
Record QCBORItem := mk_item {
  uDataType : Z;
  uNestingLevel : Z;
  uLabelType : Z;
  label_int64 : Z;
  val_int64 : Z;
  val_uint64 : Z;
  val_uCount : Z;
  val_string : bytes;
  val_string_ptr : Z;
}.

(** ** Serialization *)

Inductive cbor_value :=
| CUInt (v : Z)
| CInt (v : Z)
| CText (text : bytes)
| CBytes (data : bytes).

#[export] Instance cbor_value_eq_dec : EqDecision cbor_value.
Proof. solve_decision. Defined.

(** The initial octet and the argument, in the shortest form. *)
Definition cbor_head (major arg : Z) : bytes :=
  if arg <? 24 then [32 * major + arg]
  else if arg <? 2 ^ 8 then [32 * major + 24; arg]
  else if arg <? 2 ^ 16 then (32 * major + 25) :: be_bytes 2 arg
  else if arg <? 2 ^ 32 then (32 * major + 26) :: be_bytes 4 arg
  else (32 * major + 27) :: be_bytes 8 arg.

Definition cbor_int (v : Z) : bytes := if v <? 0 then cbor_head 1 (-1 - v) else cbor_head 0 v.

Definition cbor_encode (v : cbor_value) : bytes :=
  match v with
  | CUInt v => cbor_head 0 v
  | CInt v => cbor_int v
  | CText text => cbor_head 3 (zlen text) ++ text
  | CBytes data => cbor_head 2 (zlen data) ++ data
  end.

Definition cbor_pair (p : Z * cbor_value) : bytes := cbor_int (fst p) ++ cbor_encode (snd p).

Definition cbor_map (fields : list (Z * cbor_value)) : bytes :=
  cbor_head 5 (zlen fields) ++ concat (cbor_pair <$> fields).

(** ** The interface *)

Inductive QCBORError := QCBOR_SUCCESS | QCBOR_ERR_BUFFER_TOO_SMALL | QCBOR_ERR_OTHER.

(** [QCBOREncode_map fields storage] is the sequence [QCBOREncode_Init],
    [QCBOREncode_OpenMap], one [QCBOREncode_Add...ToMapN] per field,
    [QCBOREncode_CloseMap] and [QCBOREncode_Finish]: the error, the encoded
    octets and the contents of the storage afterwards. *)
Class QCBOR := {
  QCBORDecodeContext : Type;
  QCBORDecode_Init : bytes -> QCBORDecodeContext;
  QCBORDecode_GetNext : QCBORDecodeContext -> option QCBORItem * QCBORDecodeContext;
  QCBORDecode_Finish : QCBORDecodeContext -> bool;
  QCBOREncode_map : list (Z * cbor_value) -> bytes -> QCBORError * bytes * bytes;
  QCBOREncode_map_spec : forall fields storage e out storage',
    QCBOREncode_map fields storage = (e, out, storage') ->
    length storage' = length storage
    /\ (e = QCBOR_SUCCESS ->
        out = cbor_map fields /\ zlen out <= zlen storage
        /\ storage' = out ++ drop (length out) storage)
    /\ (zlen storage < UINT32_MAX -> zlen (cbor_map fields) <= zlen storage -> e = QCBOR_SUCCESS)
    /\ (zlen storage < UINT32_MAX -> zlen storage < zlen (cbor_map fields) ->
        e = QCBOR_ERR_BUFFER_TOO_SMALL);
}.

(** [next_labeled_item] of the broker, [next_item] of trusted time: the next
    item, with its label checked. *)
Definition next_item `{QCBOR} (decoder : QCBORDecodeContext) (expected_label : Z)
  : option QCBORItem * QCBORDecodeContext :=
  let '(item, decoder) := QCBORDecode_GetNext decoder in
  match item with
  | Some item =>
      if negb (uNestingLevel item =? 1) || negb (uLabelType item =? QCBOR_TYPE_INT64)
         || negb (label_int64 item =? expected_label)
      then (None, decoder) else (Some item, decoder)
  | None => (None, decoder)
  end.

(** [item_to_uint64] of the broker, [item_to_u64] of trusted time. *)
Definition item_to_uint64 (item : QCBORItem) : option Z :=
  if (uDataType item =? QCBOR_TYPE_INT64) && (0 <=? val_int64 item) then Some (val_int64 item)
  else if uDataType item =? QCBOR_TYPE_UINT64 then Some (val_uint64 item)
  else None.

(** ** Parsing back *)

Definition parse_head (l : bytes) : option (Z * Z * bytes) :=
  match l with
  | [] => None
  | b :: l =>
      let major := b / 32 in
      let info := b mod 32 in
      let arg n := if zlen l <? Z.of_nat n then None
                   else Some (major, be_value (take n l), drop n l) in
      if info <? 24 then Some (major, info, l)
      else if info =? 24 then arg 1%nat
      else if info =? 25 then arg 2%nat
      else if info =? 26 then arg 4%nat
      else if info =? 27 then arg 8%nat
      else None
  end.

(** The value kinds share the major types, so a parsed integer is a [CInt] when
    it is negative and a [CUInt] otherwise. *)
Definition parse_value (l : bytes) : option (cbor_value * bytes) :=
  '(major, arg, l) ← parse_head l;
  if major =? 0 then Some (CUInt arg, l)
  else if major =? 1 then Some (CInt (-1 - arg), l)
  else if (major =? 2) || (major =? 3) then
    if zlen l <? arg then None
    else Some (if major =? 2 then CBytes (take (Z.to_nat arg) l) else CText (take (Z.to_nat arg) l),
               drop (Z.to_nat arg) l)
  else None.

Definition parse_label (l : bytes) : option (Z * bytes) :=
  '(v, l) ← parse_value l;
  match v with
  | CUInt v | CInt v => Some (v, l)
  | _ => None
  end.

Fixpoint parse_pairs (n : nat) (l : bytes) : option (list (Z * cbor_value) * bytes) :=
  match n with
  | O => Some ([], l)
  | S n =>
      '(label, l) ← parse_label l;
      '(v, l) ← parse_value l;
      '(fields, l) ← parse_pairs n l;
      Some ((label, v) :: fields, l)
  end.

Definition parse_map (l : bytes) : option (list (Z * cbor_value)) :=
  '(major, count, l) ← parse_head l;
  if negb (major =? 5) || (zlen l <? count) then None
  else
    '(fields, rest) ← parse_pairs (Z.to_nat count) l;
    match rest with [] => Some fields | _ => None end.

(** The ranges of the C types, and the kind that parsing gives back. *)
Definition cbor_value_ok (v : cbor_value) : Prop :=
  match v with
  | CUInt v => 0 <= v <= UINT64_MAX
  | CInt v => - 2 ^ 63 <= v <= INT64_MAX
  | CText l | CBytes l => zlen l <= UINT64_MAX
  end.

Definition cbor_norm (v : cbor_value) : cbor_value :=
  match v with CInt v => if v <? 0 then CInt v else CUInt v | v => v end.

Definition cbor_fields_ok (fields : list (Z * cbor_value)) : Prop :=
  Forall (fun p => - 2 ^ 63 <= fst p <= INT64_MAX /\ cbor_value_ok (snd p)) fields
  /\ zlen fields <= UINT64_MAX.

(** ** Lemmas *)

Lemma parse_head_head major arg rest :
  0 <= major < 8 -> 0 <= arg <= UINT64_MAX ->
  parse_head (cbor_head major arg ++ rest) = Some (major, arg, rest).
Proof.
  intros Hm Ha. unfold cbor_head, parse_head, UINT64_MAX in *.
  assert (Hdiv : forall k, 0 <= k < 32 -> (32 * major + k) / 32 = major).
  { intros k Hk. symmetry. apply (Z.div_unique _ 32 major k); lia. }
  assert (Hmod : forall k, 0 <= k < 32 -> (32 * major + k) mod 32 = k).
  { intros k Hk. symmetry. apply (Z.mod_unique _ 32 major k); lia. }
  assert (Hbe : forall n, 0 <= arg < 2 ^ (8 * Z.of_nat n) ->
    (if zlen (be_bytes n arg ++ rest) <? Z.of_nat n then None
     else Some (major, be_value (take n (be_bytes n arg ++ rest)), drop n (be_bytes n arg ++ rest)))
    = Some (major, arg, rest)).
  { intros n Hn. destruct (Z.ltb_spec (zlen (be_bytes n arg ++ rest)) (Z.of_nat n)) as [Hl|_].
    { rewrite length_app, be_bytes_length in Hl. lia. }
    rewrite take_app_length', drop_app_length' by (by rewrite be_bytes_length).
    rewrite be_value_bytes, Z.mod_small; [done|]. rewrite pow256 by lia. lia. }
  destruct (Z.ltb_spec arg 24).
  { cbn [app]. rewrite Hdiv, Hmod by lia. by rewrite (proj2 (Z.ltb_lt arg 24)) by lia. }
  destruct (Z.ltb_spec arg (2 ^ 8)).
  { cbn [app]. rewrite Hdiv, Hmod by lia. cbn [Z.ltb Z.eqb Z.compare Pos.compare Pos.compare_cont Pos.eqb].
    specialize (Hbe 1%nat ltac:(lia)). revert Hbe. cbn [be_bytes app].
    change (8 * Z.of_nat 0) with 0. rewrite Z.shiftr_0_r, u8_small by (unfold is_byte; lia). done. }
  destruct (Z.ltb_spec arg (2 ^ 16)); [|destruct (Z.ltb_spec arg (2 ^ 32))];
    cbn [app]; rewrite Hdiv, Hmod by lia;
    cbn [Z.ltb Z.eqb Z.compare Pos.compare Pos.compare_cont Pos.eqb]; apply Hbe; lia.
Qed.

Lemma zlen_ltb_false {A} (l : list A) n : n <= zlen l -> (zlen l <? n) = false.
Proof. intros. by apply Z.ltb_ge. Qed.

Lemma parse_value_encode v rest :
  cbor_value_ok v -> parse_value (cbor_encode v ++ rest) = Some (cbor_norm v, rest).
Proof.
  unfold UINT64_MAX, INT64_MAX. destruct v as [v|v|l|l]; cbn [cbor_value_ok cbor_norm cbor_encode];
    unfold parse_value, UINT64_MAX, INT64_MAX; intros Hv.
  - rewrite parse_head_head by (unfold UINT64_MAX; lia). done.
  - unfold cbor_int. destruct (Z.ltb_spec v 0); rewrite parse_head_head by (unfold UINT64_MAX; lia).
    + cbn. do 3 f_equal. lia.
    + done.
  - rewrite <- app_assoc, parse_head_head by (unfold UINT64_MAX; lia). cbn [mbind option_bind].
    rewrite zlen_ltb_false by llia. cbn [Z.eqb Pos.eqb orb].
    by rewrite Nat2Z.id, take_app_length, drop_app_length.
  - rewrite <- app_assoc, parse_head_head by (unfold UINT64_MAX; lia). cbn [mbind option_bind].
    rewrite zlen_ltb_false by llia. cbn [Z.eqb Pos.eqb orb].
    by rewrite Nat2Z.id, take_app_length, drop_app_length.
Qed.

Lemma parse_label_int label rest :
  - 2 ^ 63 <= label <= INT64_MAX -> parse_label (cbor_int label ++ rest) = Some (label, rest).
Proof.
  intros Hl. unfold parse_label.
  rewrite (parse_value_encode (CInt label)) by done. cbn [mbind option_bind cbor_norm].
  by destruct (label <? 0).
Qed.

Definition norm_fields (fields : list (Z * cbor_value)) : list (Z * cbor_value) :=
  (fun p => (fst p, cbor_norm (snd p))) <$> fields.

Lemma parse_pairs_encode fields rest :
  Forall (fun p => - 2 ^ 63 <= fst p <= INT64_MAX /\ cbor_value_ok (snd p)) fields ->
  parse_pairs (length fields) (concat (cbor_pair <$> fields) ++ rest) = Some (norm_fields fields, rest).
Proof.
  induction 1 as [|[label v] fields [Hl Hv] _ IH]; [done|].
  rewrite fmap_cons. cbn [length parse_pairs concat]. unfold cbor_pair at 1. cbn [fst snd] in *.
  rewrite <- !app_assoc, parse_label_int by done. cbn [mbind option_bind].
  rewrite parse_value_encode by done. cbn [mbind option_bind]. by rewrite IH.
Qed.

Lemma cbor_head_pos major arg : 1 <= zlen (cbor_head major arg).
Proof. unfold cbor_head. repeat case_match; cbn [length]; lia. Qed.

Lemma cbor_pairs_length fields : zlen fields <= zlen (concat (cbor_pair <$> fields)).
Proof.
  induction fields as [|[label v] fields IH]; [done|].
  rewrite fmap_cons. cbn [concat length]. unfold cbor_pair at 1. lens. cbn [fst snd].
  assert (1 <= zlen (cbor_int label)).
  { unfold cbor_int. destruct (label <? 0); apply cbor_head_pos. }
  lia.
Qed.

(** The serialization of a map determines its fields. *)
Lemma parse_map_map fields :
  cbor_fields_ok fields -> parse_map (cbor_map fields) = Some (norm_fields fields).
Proof.
  intros [Hf Hn]. unfold parse_map, cbor_map. rewrite parse_head_head by lia. cbn [mbind option_bind].
  rewrite zlen_ltb_false by apply cbor_pairs_length. cbn [Z.eqb Pos.eqb negb orb].
  rewrite Nat2Z.id, <- (app_nil_r (concat _)), parse_pairs_encode by done. done.
Qed.

Lemma cbor_map_inj f1 f2 :
  cbor_fields_ok f1 -> cbor_fields_ok f2 -> cbor_map f1 = cbor_map f2 ->
  norm_fields f1 = norm_fields f2.
Proof. intros H1 H2 E. pose proof (parse_map_map f1 H1). rewrite E, parse_map_map in *; congruence. Qed.

(** ** An implementation of the interface

    The decoder parses the whole input when it is initialised and hands out the
    items of the map; the encoder writes the serialization when it fits. *)

Definition field_item (p : Z * cbor_value) : QCBORItem :=
  let item type i u s := mk_item type 1 QCBOR_TYPE_INT64 (fst p) i u 0 s 4096 in
  match snd p with
  | CUInt v => if v <=? INT64_MAX then item QCBOR_TYPE_INT64 v 0 [] else item QCBOR_TYPE_UINT64 0 v []
  | CInt v => item QCBOR_TYPE_INT64 v 0 []
  | CText text => item QCBOR_TYPE_TEXT_STRING 0 0 text
  | CBytes data => item QCBOR_TYPE_BYTE_STRING 0 0 data
  end.

Definition map_items (l : bytes) : list QCBORItem :=
  match parse_map l with
  | Some fields => mk_item QCBOR_TYPE_MAP 0 QCBOR_TYPE_NONE 0 0 0 (zlen fields) [] 0 :: (field_item <$> fields)
  | None => []
  end.

#[refine] Definition reference_qcbor : QCBOR := {|
  QCBORDecodeContext := list QCBORItem;
  QCBORDecode_Init := map_items;
  QCBORDecode_GetNext items :=
    match items with [] => (None, []) | item :: items => (Some item, items) end;
  QCBORDecode_Finish items := match items with [] => true | _ => false end;
  QCBOREncode_map fields storage :=
    if zlen (cbor_map fields) <=? zlen storage
    then (QCBOR_SUCCESS, cbor_map fields, cbor_map fields ++ drop (length (cbor_map fields)) storage)
    else (QCBOR_ERR_BUFFER_TOO_SMALL, [], storage);
|}.
Proof.
  intros fields storage e out storage' E. destruct (Z.leb_spec (zlen (cbor_map fields)) (zlen storage));
    injection E as <- <- <-.
  - split; [rewrite length_app, length_drop; lia|]. split; [done|]. split; [done|]. lia.
  - split; [done|]. split; [done|]. split; [lia|done].
Defined.
