(* ===== verification/Utf8.v ===== *)
(** * UTF-8 validation ([utf8_is_valid] of [src/core/broker.c])

    The detail text of a remote error report is accepted only when it is
    well-formed UTF-8: the shortest encodings of Unicode scalar values. *)

From stdpp Require Import base list numbers.
From Stdlib Require Import ZArith Lia.
From S2P Require Import Prelude.

(** ** The code *)

Definition octet_between (low high b : Z) : bool := (low <=? b) && (b <=? high).

(** The [while] loop over the rest of the text. *)
Fixpoint utf8_is_valid (text : bytes) : bool :=
  match text with
  | [] => true
  | first :: rest =>
      if first <=? 0x7f then utf8_is_valid rest
      else if octet_between 0xc2 0xdf first then
        match rest with
        | second :: rest' => octet_between 0x80 0xbf second && utf8_is_valid rest'
        | _ => false
        end
      else if octet_between 0xe0 0xef first then
        match rest with
        | second :: third :: rest' =>
            let second_min := if first =? 0xe0 then 0xa0 else 0x80 in
            let second_max := if first =? 0xed then 0x9f else 0xbf in
            octet_between second_min second_max second && octet_between 0x80 0xbf third
            && utf8_is_valid rest'
        | _ => false
        end
      else if octet_between 0xf0 0xf4 first then
        match rest with
        | second :: third :: fourth :: rest' =>
            let second_min := if first =? 0xf0 then 0x90 else 0x80 in
            let second_max := if first =? 0xf4 then 0x8f else 0xbf in
            octet_between second_min second_max second && octet_between 0x80 0xbf third
            && octet_between 0x80 0xbf fourth && utf8_is_valid rest'
        | _ => false
        end
      else false
  end.

(** ** The encoding of Unicode scalar values *)

Definition scalar_value (c : Z) : Prop := 0 <= c < 0xd800 \/ 0xe000 <= c <= 0x10ffff.

Definition utf8_encode (c : Z) : bytes :=
  if c <? 0x80 then [c]
  else if c <? 0x800 then [0xc0 + c / 64; 0x80 + c mod 64]
  else if c <? 0x10000 then [0xe0 + c / 4096; 0x80 + c / 64 mod 64; 0x80 + c mod 64]
  else [0xf0 + c / 262144; 0x80 + c / 4096 mod 64; 0x80 + c / 64 mod 64; 0x80 + c mod 64].

(** ** Lemmas *)

#[local] Ltac Zify.zify_post_hook ::= Z.div_mod_to_equations.

Ltac octet_cases :=
  unfold octet_between in *;
  repeat (match goal with
          | |- context [?a =? ?b] => destruct (Z.eqb_spec a b)
          | |- context [?a <=? ?b] => destruct (Z.leb_spec a b)
          end; cbn [andb negb]; try lia); try reflexivity.

Lemma utf8_is_valid_encode c rest :
  scalar_value c -> utf8_is_valid (utf8_encode c ++ rest) = utf8_is_valid rest.
Proof.
  intros Hc. unfold scalar_value in Hc. unfold utf8_encode.
  destruct (Z.ltb_spec c 0x80); [|destruct (Z.ltb_spec c 0x800); [|destruct (Z.ltb_spec c 0x10000)]];
    cbn [app utf8_is_valid]; octet_cases.
Qed.

(** A well-formed text starts with the encoding of a scalar value. *)
Lemma utf8_is_valid_cut first rest :
  is_byte first -> utf8_is_valid (first :: rest) = true ->
  exists c rest', scalar_value c /\ first :: rest = utf8_encode c ++ rest'
    /\ utf8_is_valid rest' = true.
Proof.
  intros Hb. unfold is_byte in Hb. cbn [utf8_is_valid]. unfold scalar_value.
  destruct (Z.leb_spec first 0x7f).
  { intros Hr. exists first, rest. unfold utf8_encode. rewrite (proj2 (Z.ltb_lt first 0x80)) by lia.
    split; [lia|]. done. }
  destruct (octet_between 0xc2 0xdf first) eqn:E2.
  { destruct rest as [|second rest]; [done|]. unfold octet_between in *. intros. bools.
    exists ((first - 0xc0) * 64 + (second - 0x80)), rest. split; [lia|]. split; [|done].
    unfold utf8_encode. rewrite (proj2 (Z.ltb_ge _ 0x80)), (proj2 (Z.ltb_lt _ 0x800)) by lia.
    cbn [app]. repeat f_equal; lia. }
  destruct (octet_between 0xe0 0xef first) eqn:E3.
  { destruct rest as [|second [|third rest]]; [done..|]. unfold octet_between in *. intros. bools.
    exists ((first - 0xe0) * 4096 + (second - 0x80) * 64 + (third - 0x80)), rest.
    destruct (Z.eqb_spec first 0xe0), (Z.eqb_spec first 0xed); (split; [lia|]); (split; [|done]);
      unfold utf8_encode; rewrite (proj2 (Z.ltb_ge _ 0x80)), (proj2 (Z.ltb_ge _ 0x800)),
      (proj2 (Z.ltb_lt _ 0x10000)) by lia; cbn [app]; repeat f_equal; lia. }
  destruct (octet_between 0xf0 0xf4 first) eqn:E4; [|done].
  destruct rest as [|second [|third [|fourth rest]]]; [done..|]. unfold octet_between in *. intros. bools.
  exists ((first - 0xf0) * 262144 + (second - 0x80) * 4096 + (third - 0x80) * 64 + (fourth - 0x80)), rest.
  destruct (Z.eqb_spec first 0xf0), (Z.eqb_spec first 0xf4); (split; [lia|]); (split; [|done]);
    unfold utf8_encode; rewrite (proj2 (Z.ltb_ge _ 0x80)), (proj2 (Z.ltb_ge _ 0x800)),
    (proj2 (Z.ltb_ge _ 0x10000)) by lia; cbn [app]; repeat f_equal; lia.
Qed.

Lemma utf8_encode_nonempty c : utf8_encode c <> [].
Proof. unfold utf8_encode. by repeat case_match. Qed.

(** ** Properties *)

(** The validator accepts exactly the well-formed UTF-8 texts: the
    concatenations of the shortest encodings of Unicode scalar values, with no
    surrogates, no overlong forms and nothing above U+10FFFF. *)
Theorem utf8_is_valid_exact (text : bytes) :
  bytes_ok text ->
  utf8_is_valid text = true
  <-> exists cs, Forall scalar_value cs /\ text = concat (utf8_encode <$> cs).
Proof.
  intros Hl. split.
  - remember (length text) as n eqn:En. revert text Hl En.
    induction (lt_wf n) as [n _ IH]. intros text Hl -> Hv.
    destruct text as [|first rest]; [by exists []|].
    pose proof Hl as [Hb _]%bytes_ok_cons.
    destruct (utf8_is_valid_cut first rest Hb Hv) as (c & rest' & Hc & E & Hv').
    rewrite E in *. apply bytes_ok_app in Hl as [_ Hl].
    pose proof (utf8_encode_nonempty c).
    destruct (IH (length rest')) with (text := rest') as (cs & Hcs & ->); try done.
    { rewrite length_app. destruct (utf8_encode c); [done|]. simpl. lia. }
    exists (c :: cs). by split; [constructor|].
  - intros (cs & Hcs & ->). clear Hl. induction Hcs as [|c cs Hc _ IH]; [done|].
    rewrite fmap_cons. cbn [concat]. by rewrite utf8_is_valid_encode.
Qed.

(** ** Witnesses *)

Lemma utf8_is_valid_exact_witness :
  exists cs, Forall scalar_value cs /\ [0x70; 0xc3; 0xa3; 0xf0; 0x9f; 0x98; 0x80] = concat (utf8_encode <$> cs).
Proof.
  apply (utf8_is_valid_exact [0x70; 0xc3; 0xa3; 0xf0; 0x9f; 0x98; 0x80]).
  - octets.
  - vm_compute. reflexivity.
Defined.
