(* ===== verification/Broker.v ===== *)
(** * Broker ([include/pbns/broker.h], [src/core/broker.c])

    The broker drives one request, one bulk download or one upload at a time
    over a transport.  Its four buffers are one store: the record reader's
    storage is the buffer that outgoing frames are encoded into, and the
    response payload refers to the decode buffer.

    The transport and the platform are callbacks; the model threads their world
    [W] (the callback contexts) through every call.  A computation returns, or
    faults (a [NULL] callback or an access outside a buffer), or runs out of the
    fuel of the receive loop. *)

From stdpp Require Import base list numbers.
From Stdlib Require Import ZArith Lia.
From S2P Require Import Prelude Endian Status Buffers Crc32c Cobs Frame Stream RecordReader Cbor Utf8.

Definition PBNS_BROKER_CANCEL_TIMEOUT_MS : Z := 1000.
Definition PBNS_ERROR_FIELD_COUNT : Z := 3.
Definition PBNS_ERROR_DETAIL_MAX : Z := 256.
Definition PBNS_BROKER_BULK_WINDOW : Z := 8.

(** ** Callbacks ([include/pbns/transport.h], [include/pbns/broker.h]) *)

(** Each callback maps the world to its results and the next world; [receive]
    also maps the contents of the buffer, and [random] fills its buffer. *)
Record pbns_transport_ops (W : Type) := mk_transport_ops {
  op_open : ptr (W -> pbns_status * W);
  op_close : ptr (W -> pbns_status * W);
  op_send : ptr (W -> bytes -> Z -> pbns_status * W);
  op_receive : ptr (W -> bytes -> Z -> pbns_status * Z * bytes * W);
  op_cancel : ptr (W -> bytes -> pbns_status * W);
  op_limits : ptr (W -> pbns_status * pbns_frame_limits * W);
}.
Arguments mk_transport_ops {W}.
Arguments op_open {W}.
Arguments op_close {W}.
Arguments op_send {W}.
Arguments op_receive {W}.
Arguments op_cancel {W}.
Arguments op_limits {W}.

Record pbns_platform_ops (W : Type) := mk_platform_ops {
  op_random : ptr (W -> bytes -> pbns_status * bytes * W);
  op_monotonic_ms : ptr (W -> pbns_status * Z * W);
}.
Arguments mk_platform_ops {W}.
Arguments op_random {W}.
Arguments op_monotonic_ms {W}.

(** [pbns_transport] and [pbns_broker_platform]: the operations; the context
    is the world. *)
Notation pbns_transport W := (ptr (pbns_transport_ops W)).
Notation pbns_broker_platform W := (ptr (pbns_platform_ops W)).

Definition not_null {A} (p : ptr A) : bool := if p then true else false.

Definition transport_is_valid {W} (transport : pbns_transport W) : bool :=
  match transport with
  | None => false
  | Some ops =>
      not_null (op_open ops) && not_null (op_close ops) && not_null (op_send ops)
      && not_null (op_receive ops) && not_null (op_cancel ops) && not_null (op_limits ops)
  end.

Definition platform_is_valid {W} (platform : pbns_broker_platform W) : bool :=
  match platform with
  | None => false
  | Some ops => not_null (op_random ops) && not_null (op_monotonic_ms ops)
  end.

(** ** State *)

Record pbns_broker_storage := mk_storage {
  st_encoded : pbns_buffer;
  st_raw_scratch : pbns_buffer;
  st_receive : pbns_buffer;
  st_decoded : pbns_buffer;
}.

Record pbns_broker_response := mk_response {
  rs_frame : pbns_frame;
  rs_payload : pbns_view;
}.

Definition zero_response : pbns_broker_response := mk_response zero_frame null_view.
Definition zero_storage : pbns_broker_storage := mk_storage null_buffer null_buffer null_buffer null_buffer.
Definition zero_limits : pbns_frame_limits := mk_limits 0 0 0.

Record pbns_broker (W : Type) := mk_broker {
  k_transport : pbns_transport W;
  k_platform : pbns_broker_platform W;
  k_storage : pbns_broker_storage;
  k_reader : pbns_record_reader;
  k_stream : pbns_stream_state;
  k_limits : pbns_frame_limits;
  k_request_id : bytes;
  k_service : Z;
  k_deadline_ms : Z;
  k_receive_offset : Z;
  k_receive_length : Z;
  k_bulk_exact : Z;
  k_bulk_received : Z;
  k_bulk_next_ack : Z;
  k_upload_next : Z;
  k_initialized : bool;
  k_opened : bool;
  k_active : bool;
  k_deadline_active : bool;
  k_bulk_mode : bool;
  k_bulk_failed : bool;
  k_upload_mode : bool;
  k_upload_response : bool;
}.
Arguments mk_broker {W}.
Arguments k_transport {W}.
Arguments k_platform {W}.
Arguments k_storage {W}.
Arguments k_reader {W}.
Arguments k_stream {W}.
Arguments k_limits {W}.
Arguments k_request_id {W}.
Arguments k_service {W}.
Arguments k_deadline_ms {W}.
Arguments k_receive_offset {W}.
Arguments k_receive_length {W}.
Arguments k_bulk_exact {W}.
Arguments k_bulk_received {W}.
Arguments k_bulk_next_ack {W}.
Arguments k_upload_next {W}.
Arguments k_initialized {W}.
Arguments k_opened {W}.
Arguments k_active {W}.
Arguments k_deadline_active {W}.
Arguments k_bulk_mode {W}.
Arguments k_bulk_failed {W}.
Arguments k_upload_mode {W}.
Arguments k_upload_response {W}.

Definition set_storage {W} (x : pbns_broker_storage) (b : pbns_broker W) : pbns_broker W :=
  mk_broker
    (k_transport b) (k_platform b) x (k_reader b) (k_stream b) (k_limits b) (k_request_id b)
    (k_service b) (k_deadline_ms b) (k_receive_offset b) (k_receive_length b) (k_bulk_exact
    b) (k_bulk_received b) (k_bulk_next_ack b) (k_upload_next b) (k_initialized b) (k_opened
    b) (k_active b) (k_deadline_active b) (k_bulk_mode b) (k_bulk_failed b) (k_upload_mode
    b) (k_upload_response b).
Definition set_reader {W} (x : pbns_record_reader) (b : pbns_broker W) : pbns_broker W :=
  mk_broker
    (k_transport b) (k_platform b) (k_storage b) x (k_stream b) (k_limits b) (k_request_id
    b) (k_service b) (k_deadline_ms b) (k_receive_offset b) (k_receive_length b)
    (k_bulk_exact b) (k_bulk_received b) (k_bulk_next_ack b) (k_upload_next b)
    (k_initialized b) (k_opened b) (k_active b) (k_deadline_active b) (k_bulk_mode b)
    (k_bulk_failed b) (k_upload_mode b) (k_upload_response b).
Definition set_stream {W} (x : pbns_stream_state) (b : pbns_broker W) : pbns_broker W :=
  mk_broker
    (k_transport b) (k_platform b) (k_storage b) (k_reader b) x (k_limits b) (k_request_id
    b) (k_service b) (k_deadline_ms b) (k_receive_offset b) (k_receive_length b)
    (k_bulk_exact b) (k_bulk_received b) (k_bulk_next_ack b) (k_upload_next b)
    (k_initialized b) (k_opened b) (k_active b) (k_deadline_active b) (k_bulk_mode b)
    (k_bulk_failed b) (k_upload_mode b) (k_upload_response b).
Definition set_limits {W} (x : pbns_frame_limits) (b : pbns_broker W) : pbns_broker W :=
  mk_broker
    (k_transport b) (k_platform b) (k_storage b) (k_reader b) (k_stream b) x (k_request_id
    b) (k_service b) (k_deadline_ms b) (k_receive_offset b) (k_receive_length b)
    (k_bulk_exact b) (k_bulk_received b) (k_bulk_next_ack b) (k_upload_next b)
    (k_initialized b) (k_opened b) (k_active b) (k_deadline_active b) (k_bulk_mode b)
    (k_bulk_failed b) (k_upload_mode b) (k_upload_response b).
Definition set_request_id {W} (x : bytes) (b : pbns_broker W) : pbns_broker W :=
  mk_broker
    (k_transport b) (k_platform b) (k_storage b) (k_reader b) (k_stream b) (k_limits b) x
    (k_service b) (k_deadline_ms b) (k_receive_offset b) (k_receive_length b) (k_bulk_exact
    b) (k_bulk_received b) (k_bulk_next_ack b) (k_upload_next b) (k_initialized b) (k_opened
    b) (k_active b) (k_deadline_active b) (k_bulk_mode b) (k_bulk_failed b) (k_upload_mode
    b) (k_upload_response b).
Definition set_service {W} (x : Z) (b : pbns_broker W) : pbns_broker W :=
  mk_broker
    (k_transport b) (k_platform b) (k_storage b) (k_reader b) (k_stream b) (k_limits b)
    (k_request_id b) x (k_deadline_ms b) (k_receive_offset b) (k_receive_length b)
    (k_bulk_exact b) (k_bulk_received b) (k_bulk_next_ack b) (k_upload_next b)
    (k_initialized b) (k_opened b) (k_active b) (k_deadline_active b) (k_bulk_mode b)
    (k_bulk_failed b) (k_upload_mode b) (k_upload_response b).
Definition set_deadline_ms {W} (x : Z) (b : pbns_broker W) : pbns_broker W :=
  mk_broker
    (k_transport b) (k_platform b) (k_storage b) (k_reader b) (k_stream b) (k_limits b)
    (k_request_id b) (k_service b) x (k_receive_offset b) (k_receive_length b) (k_bulk_exact
    b) (k_bulk_received b) (k_bulk_next_ack b) (k_upload_next b) (k_initialized b) (k_opened
    b) (k_active b) (k_deadline_active b) (k_bulk_mode b) (k_bulk_failed b) (k_upload_mode
    b) (k_upload_response b).
Definition set_receive_offset {W} (x : Z) (b : pbns_broker W) : pbns_broker W :=
  mk_broker
    (k_transport b) (k_platform b) (k_storage b) (k_reader b) (k_stream b) (k_limits b)
    (k_request_id b) (k_service b) (k_deadline_ms b) x (k_receive_length b) (k_bulk_exact b)
    (k_bulk_received b) (k_bulk_next_ack b) (k_upload_next b) (k_initialized b) (k_opened b)
    (k_active b) (k_deadline_active b) (k_bulk_mode b) (k_bulk_failed b) (k_upload_mode b)
    (k_upload_response b).
Definition set_receive_length {W} (x : Z) (b : pbns_broker W) : pbns_broker W :=
  mk_broker
    (k_transport b) (k_platform b) (k_storage b) (k_reader b) (k_stream b) (k_limits b)
    (k_request_id b) (k_service b) (k_deadline_ms b) (k_receive_offset b) x (k_bulk_exact b)
    (k_bulk_received b) (k_bulk_next_ack b) (k_upload_next b) (k_initialized b) (k_opened b)
    (k_active b) (k_deadline_active b) (k_bulk_mode b) (k_bulk_failed b) (k_upload_mode b)
    (k_upload_response b).
Definition set_bulk_exact {W} (x : Z) (b : pbns_broker W) : pbns_broker W :=
  mk_broker
    (k_transport b) (k_platform b) (k_storage b) (k_reader b) (k_stream b) (k_limits b)
    (k_request_id b) (k_service b) (k_deadline_ms b) (k_receive_offset b) (k_receive_length
    b) x (k_bulk_received b) (k_bulk_next_ack b) (k_upload_next b) (k_initialized b)
    (k_opened b) (k_active b) (k_deadline_active b) (k_bulk_mode b) (k_bulk_failed b)
    (k_upload_mode b) (k_upload_response b).
Definition set_bulk_received {W} (x : Z) (b : pbns_broker W) : pbns_broker W :=
  mk_broker
    (k_transport b) (k_platform b) (k_storage b) (k_reader b) (k_stream b) (k_limits b)
    (k_request_id b) (k_service b) (k_deadline_ms b) (k_receive_offset b) (k_receive_length
    b) (k_bulk_exact b) x (k_bulk_next_ack b) (k_upload_next b) (k_initialized b) (k_opened
    b) (k_active b) (k_deadline_active b) (k_bulk_mode b) (k_bulk_failed b) (k_upload_mode
    b) (k_upload_response b).
Definition set_bulk_next_ack {W} (x : Z) (b : pbns_broker W) : pbns_broker W :=
  mk_broker
    (k_transport b) (k_platform b) (k_storage b) (k_reader b) (k_stream b) (k_limits b)
    (k_request_id b) (k_service b) (k_deadline_ms b) (k_receive_offset b) (k_receive_length
    b) (k_bulk_exact b) (k_bulk_received b) x (k_upload_next b) (k_initialized b) (k_opened
    b) (k_active b) (k_deadline_active b) (k_bulk_mode b) (k_bulk_failed b) (k_upload_mode
    b) (k_upload_response b).
Definition set_upload_next {W} (x : Z) (b : pbns_broker W) : pbns_broker W :=
  mk_broker
    (k_transport b) (k_platform b) (k_storage b) (k_reader b) (k_stream b) (k_limits b)
    (k_request_id b) (k_service b) (k_deadline_ms b) (k_receive_offset b) (k_receive_length
    b) (k_bulk_exact b) (k_bulk_received b) (k_bulk_next_ack b) x (k_initialized b)
    (k_opened b) (k_active b) (k_deadline_active b) (k_bulk_mode b) (k_bulk_failed b)
    (k_upload_mode b) (k_upload_response b).
Definition set_opened {W} (x : bool) (b : pbns_broker W) : pbns_broker W :=
  mk_broker
    (k_transport b) (k_platform b) (k_storage b) (k_reader b) (k_stream b) (k_limits b)
    (k_request_id b) (k_service b) (k_deadline_ms b) (k_receive_offset b) (k_receive_length
    b) (k_bulk_exact b) (k_bulk_received b) (k_bulk_next_ack b) (k_upload_next b)
    (k_initialized b) x (k_active b) (k_deadline_active b) (k_bulk_mode b) (k_bulk_failed b)
    (k_upload_mode b) (k_upload_response b).
Definition set_active {W} (x : bool) (b : pbns_broker W) : pbns_broker W :=
  mk_broker
    (k_transport b) (k_platform b) (k_storage b) (k_reader b) (k_stream b) (k_limits b)
    (k_request_id b) (k_service b) (k_deadline_ms b) (k_receive_offset b) (k_receive_length
    b) (k_bulk_exact b) (k_bulk_received b) (k_bulk_next_ack b) (k_upload_next b)
    (k_initialized b) (k_opened b) x (k_deadline_active b) (k_bulk_mode b) (k_bulk_failed b)
    (k_upload_mode b) (k_upload_response b).
Definition set_deadline_active {W} (x : bool) (b : pbns_broker W) : pbns_broker W :=
  mk_broker
    (k_transport b) (k_platform b) (k_storage b) (k_reader b) (k_stream b) (k_limits b)
    (k_request_id b) (k_service b) (k_deadline_ms b) (k_receive_offset b) (k_receive_length
    b) (k_bulk_exact b) (k_bulk_received b) (k_bulk_next_ack b) (k_upload_next b)
    (k_initialized b) (k_opened b) (k_active b) x (k_bulk_mode b) (k_bulk_failed b)
    (k_upload_mode b) (k_upload_response b).
Definition set_bulk_mode {W} (x : bool) (b : pbns_broker W) : pbns_broker W :=
  mk_broker
    (k_transport b) (k_platform b) (k_storage b) (k_reader b) (k_stream b) (k_limits b)
    (k_request_id b) (k_service b) (k_deadline_ms b) (k_receive_offset b) (k_receive_length
    b) (k_bulk_exact b) (k_bulk_received b) (k_bulk_next_ack b) (k_upload_next b)
    (k_initialized b) (k_opened b) (k_active b) (k_deadline_active b) x (k_bulk_failed b)
    (k_upload_mode b) (k_upload_response b).
Definition set_bulk_failed {W} (x : bool) (b : pbns_broker W) : pbns_broker W :=
  mk_broker
    (k_transport b) (k_platform b) (k_storage b) (k_reader b) (k_stream b) (k_limits b)
    (k_request_id b) (k_service b) (k_deadline_ms b) (k_receive_offset b) (k_receive_length
    b) (k_bulk_exact b) (k_bulk_received b) (k_bulk_next_ack b) (k_upload_next b)
    (k_initialized b) (k_opened b) (k_active b) (k_deadline_active b) (k_bulk_mode b) x
    (k_upload_mode b) (k_upload_response b).
Definition set_upload_mode {W} (x : bool) (b : pbns_broker W) : pbns_broker W :=
  mk_broker
    (k_transport b) (k_platform b) (k_storage b) (k_reader b) (k_stream b) (k_limits b)
    (k_request_id b) (k_service b) (k_deadline_ms b) (k_receive_offset b) (k_receive_length
    b) (k_bulk_exact b) (k_bulk_received b) (k_bulk_next_ack b) (k_upload_next b)
    (k_initialized b) (k_opened b) (k_active b) (k_deadline_active b) (k_bulk_mode b)
    (k_bulk_failed b) x (k_upload_response b).
Definition set_upload_response {W} (x : bool) (b : pbns_broker W) : pbns_broker W :=
  mk_broker
    (k_transport b) (k_platform b) (k_storage b) (k_reader b) (k_stream b) (k_limits b)
    (k_request_id b) (k_service b) (k_deadline_ms b) (k_receive_offset b) (k_receive_length
    b) (k_bulk_exact b) (k_bulk_received b) (k_bulk_next_ack b) (k_upload_next b)
    (k_initialized b) (k_opened b) (k_active b) (k_deadline_active b) (k_bulk_mode b)
    (k_bulk_failed b) (k_upload_mode b) x.

(** [(pbns_broker){0}] *)
Definition zero_broker {W} : pbns_broker W :=
  mk_broker None None zero_storage zero_reader zero_stream zero_limits zero_request_id 0 0 0 0 0 0 0 0
    false false false false false false false false.

Definition set_encoded {W} (x : pbns_buffer) (b : pbns_broker W) : pbns_broker W :=
  let s := k_storage b in
  set_storage (mk_storage x (st_raw_scratch s) (st_receive s) (st_decoded s)) b.
Definition set_raw_scratch {W} (x : pbns_buffer) (b : pbns_broker W) : pbns_broker W :=
  let s := k_storage b in
  set_storage (mk_storage (st_encoded s) x (st_receive s) (st_decoded s)) b.
Definition set_receive {W} (x : pbns_buffer) (b : pbns_broker W) : pbns_broker W :=
  let s := k_storage b in
  set_storage (mk_storage (st_encoded s) (st_raw_scratch s) x (st_decoded s)) b.
Definition set_decoded {W} (x : pbns_buffer) (b : pbns_broker W) : pbns_broker W :=
  let s := k_storage b in
  set_storage (mk_storage (st_encoded s) (st_raw_scratch s) (st_receive s) x) b.

(** ** Computations *)

Inductive res (A : Type) :=
| Ret (a : A)
| Fault
| OutOfFuel.
Arguments Ret {A}.
Arguments Fault {A}.
Arguments OutOfFuel {A}.

(** The broker and the world. *)
Definition cfg (W : Type) : Type := pbns_broker W * W.

Definition M (W A : Type) : Type := cfg W -> res (A * cfg W).

Definition retM {W A} (a : A) : M W A := fun c => Ret (a, c).
Definition bindM {W A B} (m : M W A) (k : A -> M W B) : M W B := fun c =>
  match m c with
  | Ret (a, c') => k a c'
  | Fault => Fault
  | OutOfFuel => OutOfFuel
  end.

Declare Scope broker_scope.
Delimit Scope broker_scope with broker.
Notation "x ← y ; z" := (bindM y (fun x => z))
  (at level 20, y at level 100, z at level 200, only parsing) : broker_scope.
Notation "' x ← y ; z" := (bindM y (fun x => z))
  (at level 20, x pattern, y at level 100, z at level 200, only parsing) : broker_scope.
Notation "x ;; z" := (bindM x (fun _ => z))
  (at level 100, z at level 200, only parsing, right associativity) : broker_scope.

#[local] Open Scope broker_scope.

Section broker.
Context {W : Type} `{Machine} `{QCBOR}.
Notation M := (M W).
Notation broker := (pbns_broker W).

Definition gets {A} (f : broker -> A) : M A := fun c => Ret (f (fst c), c).
Definition update (f : broker -> broker) : M unit := fun c => Ret (tt, (f (fst c), snd c)).
Definition lift {A} (o : option A) : M A := fun c =>
  match o with Some a => Ret (a, c) | None => Fault end.
Definition out_of_fuel {A} : M A := fun _ => OutOfFuel.

(** A call through a function pointer. *)
Definition call {A} (f : broker -> ptr (W -> A * W)) : M A := fun c =>
  match f (fst c) with
  | Some g => let '(a, w) := g (snd c) in Ret (a, (fst c, w))
  | None => Fault
  end.

Definition transport_op {A} (f : pbns_transport_ops W -> ptr A) (b : broker) : ptr A :=
  k_transport b ≫= f.
Definition platform_op {A} (f : pbns_platform_ops W -> ptr A) (b : broker) : ptr A :=
  k_platform b ≫= f.

Definition transport_open : M pbns_status := call (transport_op op_open).
Definition transport_close : M pbns_status := call (transport_op op_close).
Definition transport_send (data : bytes) (timeout_ms : Z) : M pbns_status :=
  call (fun b => (fun f w => f w data timeout_ms) <$> transport_op op_send b).
(** The callback writes into the storage of the receive buffer. *)
Definition transport_receive (timeout_ms : Z) : M (pbns_status * Z) :=
  buffer ← gets (fun b => st_receive (k_storage b));
  '(status, received, data) ←
    call (fun b => (fun f w => f w (b_data buffer) timeout_ms) <$> transport_op op_receive b);
  update (set_receive (with_data buffer data));;
  retM (status, received).
Definition transport_cancel (request_id : bytes) : M pbns_status :=
  call (fun b => (fun f w => f w request_id) <$> transport_op op_cancel b).
Definition transport_limits : M (pbns_status * pbns_frame_limits) := call (transport_op op_limits).
Definition platform_random (output : bytes) : M (pbns_status * bytes) :=
  call (fun b => (fun f w => f w output) <$> platform_op op_random b).
Definition platform_monotonic_ms : M (pbns_status * Z) := call (platform_op op_monotonic_ms).

(** ** Storage *)

Definition buffers_overlap (left right : pbns_buffer) : bool :=
  ranges_overlap (b_ptr left) (b_cap left) (b_ptr right) (b_cap right).

(** No two of the buffers overlap: the nested loops over [left < right]. *)
Fixpoint pairwise_disjoint (buffers : list pbns_buffer) : bool :=
  match buffers with
  | [] => true
  | buffer :: rest =>
      forallb (fun other => negb (buffers_overlap buffer other)) rest && pairwise_disjoint rest
  end.

Definition storage_is_valid (storage : pbns_broker_storage) : bool :=
  let minimum_raw := PBNS_FRAME_V1_HEADER_SIZE + PBNS_FRAME_V1_TRAILER_SIZE in
  let minimum_wire := minimum_raw + 2 in
  if negb (buffer_is_valid (st_encoded storage)) || negb (buffer_is_valid (st_raw_scratch storage))
     || negb (buffer_is_valid (st_receive storage)) || negb (buffer_is_valid (st_decoded storage))
     || (b_cap (st_encoded storage) <? minimum_wire) || (b_cap (st_raw_scratch storage) <? minimum_raw)
     || (b_cap (st_receive storage) =? 0) || (b_cap (st_decoded storage) =? 0)
  then false
  else pairwise_disjoint [st_encoded storage; st_raw_scratch storage; st_receive storage; st_decoded storage].

Definition wiped (buffer : pbns_buffer) : bytes := replicate (length (b_data buffer)) 0.

(** [wipe_buffer (buffer)] and [buffer.len = 0U]. *)
Definition wipe_buffer (buffer : pbns_buffer) : pbns_buffer := mk_buffer (b_ptr buffer) 0 (wiped buffer).

Definition wipe_storage (preserve_decoded : bool) (s : pbns_broker_storage) : pbns_broker_storage :=
  mk_storage (wipe_buffer (st_encoded s)) (wipe_buffer (st_raw_scratch s)) (wipe_buffer (st_receive s))
    (if preserve_decoded then st_decoded s else wipe_buffer (st_decoded s)).

Definition wipe_request_storage (preserve_decoded : bool) : M unit :=
  update (fun b => set_storage (wipe_storage preserve_decoded (k_storage b)) b).

Definition clear_response (response : ptr pbns_broker_response) : ptr pbns_broker_response :=
  (fun _ => zero_response) <$> response.

Definition reset_reader : M unit :=
  update (fun b => set_reader (default (k_reader b) (pbns_record_reader_reset (Some (k_reader b)))) b).

(** ** Limits and deadlines *)

Definition minimum_size (left right : Z) : Z := if left <? right then left else right.

Definition query_effective_limits : M pbns_status :=
  '(status, transport_limits) ← transport_limits;
  if negb (is_ok status) then retM status
  else if (PBNS_FRAME_V1_CONTROL_PAYLOAD_MAX <? control_payload_max transport_limits)
          || (PBNS_FRAME_V1_DATA_PAYLOAD_MAX <? data_payload_max transport_limits)
          || (PBNS_FRAME_V1_WIRE_MAX <? encoded_record_max transport_limits)
          || (encoded_record_max transport_limits <? 2) then retM PBNS_ERR_LIMIT
  else
    update (fun b =>
      let s := k_storage b in
      let payload_capacity :=
        b_cap (st_raw_scratch s) - PBNS_FRAME_V1_HEADER_SIZE - PBNS_FRAME_V1_TRAILER_SIZE in
      set_limits (mk_limits
        (minimum_size (control_payload_max transport_limits)
           (minimum_size payload_capacity (b_cap (st_decoded s))))
        (minimum_size (data_payload_max transport_limits)
           (minimum_size payload_capacity (b_cap (st_decoded s))))
        (minimum_size (encoded_record_max transport_limits) (b_cap (st_encoded s)))) b);;
    retM PBNS_OK.

Definition begin_deadline (timeout_ms : Z) : M pbns_status :=
  '(status, now_ms) ← platform_monotonic_ms;
  if negb (is_ok status) then retM status
  else
    let duration := timeout_ms in
    update (set_deadline_ms (if UINT64_MAX - now_ms <? duration then UINT64_MAX else now_ms + duration));;
    update (set_deadline_active true);;
    retM PBNS_OK.

(** The status and [*remaining_ms]. *)
Definition remaining_timeout : M (pbns_status * Z) :=
  deadline_active ← gets k_deadline_active;
  if negb deadline_active then retM (PBNS_ERR_STATE, 0)
  else
    '(status, now_ms) ← platform_monotonic_ms;
    if negb (is_ok status) then retM (status, 0)
    else
      deadline_ms ← gets k_deadline_ms;
      if deadline_ms <=? now_ms then retM (PBNS_ERR_TIMEOUT, 0)
      else
        let remaining := deadline_ms - now_ms in
        retM (PBNS_OK, if UINT32_MAX <? remaining then UINT32_MAX else u32 remaining).

(** [difference |= left[i] ^ right[i]] over the identifier. *)
Definition request_ids_match (left right : bytes) : bool :=
  fold_left (fun difference p => Z.lor difference (Z.lxor (fst p) (snd p))) (zip left right) 0 =? 0.

(** [combined |= byte] over the identifier. *)
Definition request_id_is_nonzero (request_id : bytes) : bool :=
  negb (fold_left Z.lor request_id 0 =? 0).

(** ** Remote errors *)

(** The checks on the decoded items: the code, the service and the detail. *)
Definition decode_error_items (payload : bytes) (expected_service : Z)
  : pbns_status * Z * Z * bytes :=
  let fail status := (status, 0, 0, []) in
  let decoder := QCBORDecode_Init payload in
  let '(item, decoder) := QCBORDecode_GetNext decoder in
  match item with
  | None => fail PBNS_ERR_FORMAT
  | Some item =>
  if negb (uDataType item =? QCBOR_TYPE_MAP) || negb (uLabelType item =? QCBOR_TYPE_NONE)
     || negb (val_uCount item =? PBNS_ERROR_FIELD_COUNT) then fail PBNS_ERR_FORMAT
  else
  let '(item, decoder) := next_item decoder 1 in
  match item ≫= item_to_uint64 with
  | None => fail PBNS_ERR_FORMAT
  | Some code =>
  if (code <? 1) || (22 <? code) then fail PBNS_ERR_FORMAT
  else
  let '(item, decoder) := next_item decoder 2 in
  match item ≫= item_to_uint64 with
  | None => fail PBNS_ERR_FORMAT
  | Some service =>
  if negb (service =? expected_service) then fail PBNS_ERR_SERVICE
  else
  let '(item, decoder) := next_item decoder 3 in
  match item with
  | None => fail PBNS_ERR_FORMAT
  | Some item =>
  if negb (uDataType item =? QCBOR_TYPE_TEXT_STRING) || (PBNS_ERROR_DETAIL_MAX <? zlen (val_string item))
  then fail PBNS_ERR_FORMAT
  else
  let detail := val_string item in
  if negb (utf8_is_valid detail) || negb (QCBORDecode_Finish decoder) then fail PBNS_ERR_FORMAT
  else (PBNS_OK, code, service, detail)
  end end end end.

(** The report is accepted when its canonical encoding, written to the decode
    buffer, is the payload. *)
Definition decode_remote_error (payload : bytes) (expected_service : Z) : M pbns_status :=
  let '(status, code, service, detail) := decode_error_items payload expected_service in
  if negb (is_ok status) then retM status
  else
  decoded ← gets (fun b => st_decoded (k_storage b));
  let '(error, canonical, data) :=
    QCBOREncode_map [(1, CUInt code); (2, CUInt service); (3, CText detail)] (b_data decoded) in
  update (set_decoded (with_data decoded data));;
  match error with
  | QCBOR_SUCCESS =>
      if negb (zlen canonical =? zlen payload) || negb (bytes_eqb canonical payload)
      then retM PBNS_ERR_FORMAT
      else lift (status_of_code (- code))
  | _ => retM PBNS_ERR_LIMIT
  end.

(** ** Sessions *)

Definition finish_session (preserve_decoded : bool) : M pbns_status :=
  opened ← gets k_opened;
  close_status ← (if opened then transport_close else retM PBNS_OK);
  update (set_opened false);;
  update (set_active false);;
  update (set_deadline_active false);;
  update (set_deadline_ms 0);;
  update (set_receive_offset 0);;
  update (set_receive_length 0);;
  update (set_bulk_exact 0);;
  update (set_bulk_received 0);;
  update (set_bulk_next_ack 0);;
  update (set_upload_next 0);;
  update (set_bulk_mode false);;
  update (set_bulk_failed false);;
  update (set_upload_mode false);;
  update (set_upload_response false);;
  update (set_service PBNS_SERVICE_INVALID);;
  update (set_request_id zero_request_id);;
  reset_reader;;
  update (set_stream zero_stream);;
  wipe_request_storage preserve_decoded;;
  retM close_status.

(** [pbns_frame_encode] with the broker's buffers: the status and [written]. *)
Definition broker_encode (frame : pbns_frame) (payload : pbns_view) : M (pbns_status * Z) :=
  storage ← gets k_storage;
  let raw := st_raw_scratch storage in
  let encoded := st_encoded storage in
  '(status, raw_data, encoded_data, written) ←
    lift (pbns_frame_encode (Some frame) payload
            (mk_buffer (b_ptr raw) 0 (b_data raw)) (mk_buffer (b_ptr encoded) 0 (b_data encoded)) (Some 0));
  update (set_raw_scratch (with_data raw raw_data));;
  update (set_encoded (with_data encoded encoded_data));;
  retM (status, default 0 written).

(** [send (encoded.ptr, written)] *)
Definition broker_send (written timeout_ms : Z) : M pbns_status :=
  encoded ← gets (fun b => st_encoded (k_storage b));
  data ← lift (rd_slice (b_data encoded) 0 written);
  transport_send data timeout_ms.

Definition emit_cancel : M pbns_status :=
  service ← gets k_service;
  request_id ← gets k_request_id;
  '(status, written) ← broker_encode (mk_frame service PBNS_MESSAGE_CANCEL 0 request_id 1) null_view;
  if negb (is_ok status) then retM status
  else broker_send written PBNS_BROKER_CANCEL_TIMEOUT_MS.

(** ** Receiving *)

(** The first part of a turn of the receive loops: when all received octets
    are consumed, take more from the transport.  [inl] is the status the caller
    returns, [inr false] is [continue]. *)
Definition fill_receive : M (pbns_status + bool) :=
  offset ← gets k_receive_offset;
  len ← gets k_receive_length;
  if negb (len <=? offset) then retM (inr true)
  else
  update (set_receive_offset 0);;
  update (set_receive_length 0);;
  '(status, remaining_ms) ← remaining_timeout;
  if negb (is_ok status) then retM (inl status)
  else
  '(status, received) ← transport_receive remaining_ms;
  cap ← gets (fun b => b_cap (st_receive (k_storage b)));
  match status with
  | PBNS_ERR_WOULD_BLOCK =>
      if negb (received =? 0) then retM (inl PBNS_ERR_TRANSPORT) else retM (inr false)
  | PBNS_OK =>
      if (received =? 0) || (cap <? received) then retM (inl PBNS_ERR_TRANSPORT)
      else update (set_receive_length received);; retM (inr true)
  | status => retM (inl status)
  end.

(** The second part: the rest of the received octets goes to the reader.
    [inr None] is [continue], [inr (Some record)] a complete record. *)
Definition push_received : M (pbns_status + option pbns_view) :=
  offset ← gets k_receive_offset;
  len ← gets k_receive_length;
  storage ← gets k_storage;
  reader ← gets k_reader;
  data ← lift (rd_slice (b_data (st_receive storage)) offset (len - offset));
  pushed ← lift (reader_push reader (b_data (st_encoded storage))
                   (mk_view (b_ptr (st_receive storage) + offset) data));
  update (set_reader (pu_reader pushed));;
  update (set_encoded (with_data (st_encoded storage) (pu_mem pushed)));;
  update (set_receive_offset (offset + pu_consumed pushed));;
  match pu_status pushed with
  | PBNS_ERR_WOULD_BLOCK => retM (inr None)
  | PBNS_OK => if pu_ready pushed then retM (inr (Some (pu_record pushed))) else retM (inl PBNS_ERR_STATE)
  | status => retM (inl status)
  end.

Definition receive_turn : M (pbns_status + option pbns_view) :=
  filled ← fill_receive;
  match filled with
  | inl status => retM (inl status)
  | inr false => retM (inr None)
  | inr true => push_received
  end.

(** [for (;;)]: turns until a status or a record. *)
Fixpoint receive_record (fuel : nat) : M (pbns_status + pbns_view) :=
  match fuel with
  | O => out_of_fuel
  | S fuel =>
      turn ← receive_turn;
      match turn with
      | inl status => retM (inl status)
      | inr (Some record) => retM (inr record)
      | inr None => receive_record fuel
      end
  end.

(** [pbns_frame_decode] of a record into the raw scratch buffer, and the reset
    of the reader. *)
Definition decode_record (record : pbns_view) : M (pbns_status * pbns_frame * pbns_view) :=
  storage ← gets k_storage;
  limits ← gets k_limits;
  let raw := st_raw_scratch storage in
  '(status, raw_data, frame, payload) ←
    lift (pbns_frame_decode record limits (mk_buffer (b_ptr raw) 0 (b_data raw))
            (Some zero_frame) (Some null_view));
  update (set_raw_scratch (with_data raw raw_data));;
  reset_reader;;
  retM (status, default zero_frame frame, default null_view payload).

(** The loop and the decoder together. *)
Definition next_frame (fuel : nat) : M (pbns_status * pbns_frame * pbns_view) :=
  record ← receive_record fuel;
  match record with
  | inl status => retM (status, zero_frame, null_view)
  | inr record => decode_record record
  end.

(** [pbns_stream_accept (&broker->stream, &frame, payload)] *)
Definition accept_frame (frame : pbns_frame) (payload : pbns_view) : M pbns_status :=
  stream ← gets k_stream;
  '(status, stream) ← lift (pbns_stream_accept (Some stream) (Some frame) payload);
  update (set_stream (default zero_stream stream));;
  retM status.

(** The payload copied to the decode buffer, which the response refers to. *)
Definition publish_payload (frame : pbns_frame) (payload : pbns_view)
  : M (pbns_status * pbns_broker_response) :=
  decoded ← gets (fun b => st_decoded (k_storage b));
  if b_cap decoded <? v_len payload then retM (PBNS_ERR_LIMIT, zero_response)
  else
    data ← lift (wr_list (b_data decoded) 0 (v_data payload));
    update (set_decoded (mk_buffer (b_ptr decoded) (v_len payload) data));;
    retM (PBNS_OK, mk_response frame (mk_view (b_ptr decoded) (v_data payload))).

(** [pbns_broker_receive] on a non-[NULL] response. *)
Definition broker_receive (fuel : nat) : M (pbns_status * pbns_broker_response) :=
  let fail status := retM (status, zero_response) in
  initialized ← gets k_initialized;
  active ← gets k_active;
  bulk_mode ← gets k_bulk_mode;
  if negb initialized || negb active || bulk_mode then fail PBNS_ERR_STATE
  else
  '(status, frame, payload) ← next_frame fuel;
  if negb (is_ok status) then fail status
  else
  status ← accept_frame frame payload;
  if negb (is_ok status) then fail status
  else
  request_id ← gets k_request_id;
  if negb (request_ids_match (f_request_id frame) request_id) then fail PBNS_ERR_STATE
  else if f_type frame =? PBNS_MESSAGE_ERROR then
    service ← gets k_service;
    status ← decode_remote_error (v_data payload) service;
    fail status
  else if negb (f_type frame =? PBNS_MESSAGE_RESPONSE) then fail PBNS_ERR_MESSAGE_TYPE
  else publish_payload frame payload.

(** ** Bulk downloads *)

Definition fail_bulk_session (status : pbns_status) : M pbns_status :=
  update (set_bulk_failed true);;
  update (fun b => set_stream (snd (fail_stream (k_stream b) status)) b);;
  retM status.

(** The part of a session that the three ways to begin one share: the storage
    is wiped, the deadline starts and the transport is opened.  [wipe] says
    whether a failure wipes the storage again. *)
Definition open_session (request_id : bytes) (timeout_ms : Z) (wipe : bool) : M pbns_status :=
  update (set_request_id request_id);;
  status ← begin_deadline timeout_ms;
  if negb (is_ok status) then
    update (set_request_id zero_request_id);;
    (if wipe then wipe_request_storage false else retM tt);;
    retM status
  else
  status ← transport_open;
  if negb (is_ok status) then
    update (set_deadline_active false);;
    update (set_request_id zero_request_id);;
    (if wipe then wipe_request_storage false else retM tt);;
    retM status
  else
  update (set_opened true);;
  retM PBNS_OK.

(** Encode a frame, take the remaining time and send. *)
Definition encode_and_send (frame : pbns_frame) (payload : pbns_view) : M pbns_status :=
  '(status, written) ← broker_encode frame payload;
  if negb (is_ok status) then retM status
  else
  '(status, remaining_ms) ← remaining_timeout;
  if negb (is_ok status) then retM status
  else broker_send written remaining_ms.

Definition init_stream (service : Z) (request_id : bytes) (byte_limit : Z) : M bool :=
  update (fun b => set_stream (default zero_stream
    (pbns_stream_init (Some (k_stream b)) service request_id byte_limit)) b);;
  stream ← gets k_stream;
  retM (s_initialized stream).

Definition broker_bulk_begin (service : Z) (request_id : bytes) (request_body : pbns_view)
    (exact_data_size timeout_ms : Z) : M pbns_status :=
  let close status := finish_session false;; retM status in
  if negb (view_is_valid request_body) || negb (request_id_is_nonzero request_id)
     || (exact_data_size =? 0) || (timeout_ms =? 0) then retM PBNS_ERR_ARGUMENT
  else
  b ← gets (fun b => b);
  if negb (k_initialized b) then retM PBNS_ERR_STATE
  else if negb (service_is_valid service) then retM PBNS_ERR_SERVICE
  else if k_active b || k_opened b then retM PBNS_ERR_BUSY
  else
  wipe_request_storage false;;
  reset_reader;;
  status ← open_session request_id timeout_ms true;
  if negb (is_ok status) then retM status
  else
  status ← query_effective_limits;
  limits ← gets k_limits;
  let status :=
    if is_ok status
       && ((control_payload_max limits <? v_len request_body) || (data_payload_max limits =? 0)
           || (u64 (data_payload_max limits * (UINT32_MAX - 1)) <? exact_data_size))
    then PBNS_ERR_LIMIT else status in
  if negb (is_ok status) then close status
  else
  status ← encode_and_send (mk_frame service PBNS_MESSAGE_REQUEST 0 request_id 0) request_body;
  if negb (is_ok status) then close status
  else
  update (set_service service);;
  update (set_active true);;
  update (set_bulk_mode true);;
  update (set_bulk_exact exact_data_size);;
  ready ← init_stream service request_id UINT64_MAX;
  if negb ready then close PBNS_ERR_STATE else retM PBNS_OK.

(** The checks on an accepted frame of the download. *)
Definition bulk_account (frame : pbns_frame) (payload : pbns_view) : M pbns_status :=
  received ← gets k_bulk_received;
  exact ← gets k_bulk_exact;
  if f_type frame =? PBNS_MESSAGE_DATA then
    if v_len payload =? 0 then retM PBNS_ERR_FORMAT
    else if (exact <? received) || (exact - received <? v_len payload) then retM PBNS_ERR_LIMIT
    else update (set_bulk_received (u64 (received + v_len payload)));; retM PBNS_OK
  else if negb (received =? exact) then retM PBNS_ERR_LIMIT
  else retM PBNS_OK.

Definition broker_bulk_receive (fuel : nat) : M (pbns_status * pbns_broker_response) :=
  let fail status := status ← fail_bulk_session status; retM (status, zero_response) in
  b ← gets (fun b => b);
  if negb (k_initialized b) || negb (k_active b) || negb (k_bulk_mode b) || k_bulk_failed b
     || s_complete (k_stream b) then retM (PBNS_ERR_STATE, zero_response)
  else
  '(status, frame, payload) ← next_frame fuel;
  if negb (is_ok status) then fail status
  else if negb (f_type frame =? PBNS_MESSAGE_DATA) && negb (f_type frame =? PBNS_MESSAGE_COMPLETE)
          && negb (f_type frame =? PBNS_MESSAGE_ERROR) then fail PBNS_ERR_MESSAGE_TYPE
  else
  status ← accept_frame frame payload;
  if negb (is_ok status) then fail status
  else if f_type frame =? PBNS_MESSAGE_ERROR then
    service ← gets k_service;
    status ← decode_remote_error (v_data payload) service;
    fail status
  else
  status ← bulk_account frame payload;
  if negb (is_ok status) then fail status
  else
  '(status, response) ← publish_payload frame payload;
  if negb (is_ok status) then fail status else retM (status, response).

(** [ack_ptr] is the address of the local array [payload]. *)
Definition broker_bulk_ack (ack_ptr next_data_sequence window : Z) : M pbns_status :=
  b ← gets (fun b => b);
  if negb (k_initialized b) || negb (k_active b) || negb (k_bulk_mode b) || k_bulk_failed b
     || s_complete (k_stream b) then retM PBNS_ERR_STATE
  else
  let expected_data_sequence := (k_bulk_next_ack b + 1) * PBNS_BROKER_BULK_WINDOW in
  if (next_data_sequence =? 0) || negb (next_data_sequence =? s_next_sequence (k_stream b))
     || negb (next_data_sequence =? expected_data_sequence)
     || negb (window =? PBNS_BROKER_BULK_WINDOW) || (k_bulk_next_ack b =? UINT32_MAX)
  then retM PBNS_ERR_ARGUMENT
  else
  '(status, remaining_ms) ← remaining_timeout;
  if negb (is_ok status) then fail_bulk_session status
  else
  payload ← lift (write_u32_be (replicate 8 0) 0 next_data_sequence);
  payload ← lift (write_u32_be payload 4 window);
  '(status, written) ←
    broker_encode (mk_frame (k_service b) PBNS_MESSAGE_ACK 0 (k_request_id b) (k_bulk_next_ack b))
      (mk_view ack_ptr payload);
  status ← (if is_ok status then broker_send written remaining_ms else retM status);
  if negb (is_ok status) then fail_bulk_session status
  else
  update (fun b => set_bulk_next_ack (u32 (k_bulk_next_ack b + 1)) b);;
  retM PBNS_OK.

Definition broker_bulk_finish : M pbns_status :=
  b ← gets (fun b => b);
  if negb (k_initialized b) || negb (k_active b) || negb (k_bulk_mode b) || k_bulk_failed b
     || negb (s_complete (k_stream b)) || negb (k_bulk_received b =? k_bulk_exact b)
  then retM PBNS_ERR_STATE
  else finish_session false.

(** ** Uploads *)

Definition abort_upload_session (primary : pbns_status) : M pbns_status :=
  active ← gets k_active;
  (if active then
     emit_cancel;;
     request_id ← gets k_request_id;
     transport_cancel request_id;;
     finish_session false;;
     retM tt
   else retM tt);;
  retM primary.

Definition broker_upload_begin (service : Z) (request_id : bytes) (request_body : pbns_view)
    (timeout_ms : Z) : M pbns_status :=
  let close status := finish_session false;; retM status in
  if negb (view_is_valid request_body) || negb (request_id_is_nonzero request_id) || (timeout_ms =? 0)
  then retM PBNS_ERR_ARGUMENT
  else
  b ← gets (fun b => b);
  if negb (k_initialized b) || k_active b || k_opened b then retM PBNS_ERR_STATE
  else if negb (service_is_valid service) then retM PBNS_ERR_SERVICE
  else
  wipe_request_storage false;;
  reset_reader;;
  status ← open_session request_id timeout_ms false;
  if negb (is_ok status) then retM status
  else
  status ← query_effective_limits;
  limits ← gets k_limits;
  let status :=
    if is_ok status && ((control_payload_max limits <? v_len request_body) || (data_payload_max limits =? 0))
    then PBNS_ERR_LIMIT else status in
  if negb (is_ok status) then close status
  else
  update (set_service service);;
  update (set_upload_mode true);;
  update (set_upload_next 0);;
  ready ← init_stream service request_id (control_payload_max limits);
  if negb ready then close PBNS_ERR_STATE
  else
  update (set_active true);;
  status ← encode_and_send (mk_frame service PBNS_MESSAGE_REQUEST 0 request_id 0) request_body;
  if negb (is_ok status) then abort_upload_session status else retM PBNS_OK.

Definition upload_emit (type : Z) (payload : pbns_view) (sequence : Z) : M pbns_status :=
  service ← gets k_service;
  request_id ← gets k_request_id;
  encode_and_send (mk_frame service type 0 request_id sequence) payload.

(** [pbns_broker_upload_send] up to the point where the response is awaited. *)
Definition upload_transmit (payload : pbns_view) (final_record : bool) : M pbns_status :=
  if negb (view_is_valid payload) || (v_len payload =? 0) then retM PBNS_ERR_ARGUMENT
  else
  b ← gets (fun b => b);
  if negb (k_initialized b) || negb (k_active b) || negb (k_upload_mode b) || k_bulk_mode b
  then retM PBNS_ERR_STATE
  else if (data_payload_max (k_limits b) <? v_len payload) || (k_upload_next b =? UINT32_MAX)
  then abort_upload_session PBNS_ERR_LIMIT
  else
  status ← upload_emit PBNS_MESSAGE_DATA payload (k_upload_next b);
  (if is_ok status then update (fun b => set_upload_next (u32 (k_upload_next b + 1)) b) else retM tt);;
  upload_next ← gets k_upload_next;
  status ← (if is_ok status && final_record then upload_emit PBNS_MESSAGE_COMPLETE null_view upload_next
            else retM status);
  if negb (is_ok status) then abort_upload_session status else retM PBNS_OK.

Definition broker_upload_send (fuel : nat) (payload : pbns_view) (final_record : bool)
  : M (pbns_status * pbns_broker_response) :=
  status ← upload_transmit payload final_record;
  if negb (is_ok status) || negb final_record then retM (status, zero_response)
  else
  update (set_upload_mode false);;
  '(status, response) ← broker_receive fuel;
  if negb (is_ok status) then
    status ← abort_upload_session status;
    retM (status, zero_response)
  else update (set_upload_response true);; retM (PBNS_OK, response).

Definition broker_upload_finish : M pbns_status :=
  b ← gets (fun b => b);
  if negb (k_initialized b) || negb (k_active b) || k_upload_mode b || negb (k_upload_response b)
  then retM PBNS_ERR_STATE
  else finish_session false.

(** ** Requests *)

Definition broker_cancel : M pbns_status :=
  b ← gets (fun b => b);
  if negb (k_initialized b) || negb (k_active b) then retM PBNS_ERR_STATE
  else
  status ← emit_cancel;
  request_id ← gets k_request_id;
  local_status ← transport_cancel request_id;
  let status :=
    if is_ok status && negb (is_ok local_status) && negb (status_eqb local_status PBNS_ERR_UNSUPPORTED)
    then local_status else status in
  close_status ← finish_session false;
  retM (if is_ok status && negb (is_ok close_status) then close_status else status).

(** The request identifier: the supplied one, or sixteen random octets. *)
Definition choose_request_id (supplied_request_id : ptr bytes) : M (pbns_status * bytes) :=
  match supplied_request_id with
  | Some request_id => retM (PBNS_OK, request_id)
  | None =>
      '(status, request_id) ← platform_random zero_request_id;
      if negb (is_ok status) then retM (status, zero_request_id)
      else if negb (request_id_is_nonzero request_id) then retM (PBNS_ERR_ENTROPY, zero_request_id)
      else retM (PBNS_OK, request_id)
  end.

(** The response part of [broker_request], after the request has been sent. *)
Definition request_response (fuel : nat) : M (pbns_status * pbns_broker_response) :=
  '(status, response) ← broker_receive fuel;
  if status_eqb status PBNS_ERR_TIMEOUT then
    broker_cancel;;
    retM (PBNS_ERR_TIMEOUT, zero_response)
  else
  let preserve_decoded := is_ok status in
  close_status ← finish_session preserve_decoded;
  if negb (is_ok close_status) then
    update (fun b => set_decoded (wipe_buffer (st_decoded (k_storage b))) b);;
    retM (if is_ok status then close_status else status, zero_response)
  else retM (status, response).

(** [broker_request] up to the point where the response is awaited; a session
    that cannot be established is closed again. *)
Definition request_begin (service : Z) (supplied_request_id : ptr bytes) (request_body : pbns_view)
    (timeout_ms : Z) : M pbns_status :=
  let close status := finish_session false;; retM status in
  if negb (view_is_valid request_body) || (timeout_ms =? 0)
     || match supplied_request_id with Some id => negb (request_id_is_nonzero id) | None => false end
  then retM PBNS_ERR_ARGUMENT
  else
  b ← gets (fun b => b);
  if negb (k_initialized b) then retM PBNS_ERR_STATE
  else if negb (service_is_valid service) then retM PBNS_ERR_SERVICE
  else if k_active b || k_opened b then retM PBNS_ERR_BUSY
  else
  wipe_request_storage false;;
  reset_reader;;
  update (set_request_id zero_request_id);;
  '(status, request_id) ← choose_request_id supplied_request_id;
  if negb (is_ok status) then retM status
  else
  status ← open_session request_id timeout_ms true;
  if negb (is_ok status) then retM status
  else
  status ← query_effective_limits;
  limits ← gets k_limits;
  let status :=
    if is_ok status && (control_payload_max limits <? v_len request_body) then PBNS_ERR_LIMIT else status in
  if negb (is_ok status) then close status
  else
  status ← encode_and_send (mk_frame service PBNS_MESSAGE_REQUEST 0 request_id 0) request_body;
  if negb (is_ok status) then close status
  else
  update (set_service service);;
  update (set_active true);;
  ready ← init_stream service request_id (control_payload_max limits);
  if negb ready then close PBNS_ERR_STATE
  else
  reset_reader;;
  retM PBNS_OK.

Definition broker_request (fuel : nat) (service : Z) (supplied_request_id : ptr bytes)
    (request_body : pbns_view) (timeout_ms : Z) : M (pbns_status * pbns_broker_response) :=
  status ← request_begin service supplied_request_id request_body timeout_ms;
  if negb (is_ok status) then retM (status, zero_response)
  else request_response fuel.

(** [pbns_broker_reset]; the closing status is discarded. *)
Definition broker_reset : M unit :=
  b ← gets (fun b => b);
  if negb (k_initialized b) then retM tt
  else
  (if k_active b then broker_cancel;; retM tt
   else if k_opened b then transport_close;; update (set_opened false)
   else retM tt);;
  wipe_request_storage false;;
  update (fun _ => zero_broker).

(** ** Entry points: the [NULL] checks *)

Definition run {A} (broker : ptr (pbns_broker W)) (w : W) (on_null : A) (m : M A) : res (A * ptr (pbns_broker W) * W) :=
  match broker with
  | None => Ret (on_null, None, w)
  | Some b => match m (b, w) with
              | Ret (a, (b, w)) => Ret (a, Some b, w)
              | Fault => Fault
              | OutOfFuel => OutOfFuel
              end
  end.

Definition with_response (response : ptr pbns_broker_response) (m : M (pbns_status * pbns_broker_response))
  : M (pbns_status * ptr pbns_broker_response) :=
  match response with
  | None => retM (PBNS_ERR_ARGUMENT, None)
  | Some _ => '(status, response) ← m; retM (status, Some response)
  end.

Definition pbns_broker_init (broker : ptr (pbns_broker W)) (transport : pbns_transport W)
    (platform : pbns_broker_platform W) (storage : pbns_broker_storage) : pbns_status * ptr (pbns_broker W) :=
  match broker with
  | None => (PBNS_ERR_ARGUMENT, None)
  | Some _ =>
      if negb (transport_is_valid transport) || negb (platform_is_valid platform)
         || negb (storage_is_valid storage) then (PBNS_ERR_ARGUMENT, Some zero_broker)
      else
        let reader := default zero_reader (pbns_record_reader_init (Some zero_reader) (st_encoded storage)) in
        if negb (r_initialized reader) then (PBNS_ERR_ARGUMENT, Some zero_broker)
        else (PBNS_OK, Some (mk_broker transport platform storage reader zero_stream zero_limits
                               zero_request_id 0 0 0 0 0 0 0 0 true false false false false false false false))
  end.

Definition pbns_broker_receive fuel broker response w :=
  run broker w (PBNS_ERR_ARGUMENT, clear_response response) (with_response response (broker_receive fuel)).

Definition pbns_broker_bulk_begin broker service (request_id : ptr bytes) request_body exact timeout w :=
  run broker w PBNS_ERR_ARGUMENT
    match request_id with
    | None => retM PBNS_ERR_ARGUMENT
    | Some request_id => broker_bulk_begin service request_id request_body exact timeout
    end.

Definition pbns_broker_bulk_receive fuel broker response w :=
  run broker w (PBNS_ERR_ARGUMENT, clear_response response) (with_response response (broker_bulk_receive fuel)).

Definition pbns_broker_bulk_ack broker ack_ptr next_data_sequence window w :=
  run broker w PBNS_ERR_ARGUMENT (broker_bulk_ack ack_ptr next_data_sequence window).

Definition pbns_broker_bulk_finish broker w := run broker w PBNS_ERR_ARGUMENT broker_bulk_finish.

Definition pbns_broker_upload_begin broker service (request_id : ptr bytes) request_body timeout w :=
  run broker w PBNS_ERR_ARGUMENT
    match request_id with
    | None => retM PBNS_ERR_ARGUMENT
    | Some request_id => broker_upload_begin service request_id request_body timeout
    end.

Definition pbns_broker_upload_send fuel broker payload final_record response w :=
  run broker w (PBNS_ERR_ARGUMENT, clear_response response)
    (with_response response (broker_upload_send fuel payload final_record)).

Definition pbns_broker_upload_finish broker w := run broker w PBNS_ERR_ARGUMENT broker_upload_finish.
Definition pbns_broker_cancel broker w := run broker w PBNS_ERR_ARGUMENT broker_cancel.

Definition pbns_broker_request_with_id fuel broker service (request_id : ptr bytes) request_body timeout
    response w :=
  match request_id with
  | None => Ret (PBNS_ERR_ARGUMENT, clear_response response, broker, w)
  | Some _ =>
      run broker w (PBNS_ERR_ARGUMENT, clear_response response)
        (with_response response (broker_request fuel service request_id request_body timeout))
  end.

Definition pbns_broker_request fuel broker service request_body timeout response w :=
  run broker w (PBNS_ERR_ARGUMENT, clear_response response)
    (with_response response (broker_request fuel service None request_body timeout)).

Definition pbns_broker_reset broker w := run broker w tt broker_reset.

End broker.
