(* ===== verification/BrokerLogic.v ===== *)
(** * Reasoning about the broker

    What a transport and a platform promise to the broker (the class
    [EndpointLaws]), the weakest preconditions of the broker's computations,
    the well-formedness of its state and the effect of each internal step.  The
    theorems on requests, downloads and uploads are proved against this
    interface. *)

From stdpp Require Import base list numbers.
From Stdlib Require Import ZArith Lia.
From S2P Require Import Prelude Endian Status Buffers Crc32c Cobs Frame Stream RecordReader Cbor Utf8 Broker.

(** ** The callbacks *)

(** Callbacks that are all present. *)
Record endpoint (W : Type) := mk_endpoint {
  e_open : W -> pbns_status * W;
  e_close : W -> pbns_status * W;
  e_send : W -> bytes -> Z -> pbns_status * W;
  e_receive : W -> bytes -> Z -> pbns_status * Z * bytes * W;
  e_cancel : W -> bytes -> pbns_status * W;
  e_limits : W -> pbns_status * pbns_frame_limits * W;
  e_random : W -> bytes -> pbns_status * bytes * W;
  e_monotonic_ms : W -> pbns_status * Z * W;
}.
Arguments mk_endpoint {W}.
Arguments e_open {W}.
Arguments e_close {W}.
Arguments e_send {W}.
Arguments e_receive {W}.
Arguments e_cancel {W}.
Arguments e_limits {W}.
Arguments e_random {W}.
Arguments e_monotonic_ms {W}.

Definition transport_of {W} (e : endpoint W) : pbns_transport W :=
  Some (mk_transport_ops (Some (e_open e)) (Some (e_close e)) (Some (e_send e)) (Some (e_receive e))
          (Some (e_cancel e)) (Some (e_limits e))).
Definition platform_of {W} (e : endpoint W) : pbns_broker_platform W :=
  Some (mk_platform_ops (Some (e_random e)) (Some (e_monotonic_ms e))).

(** What the callbacks promise.  Of the world the broker's contract needs three
    observations: whether the connection is open, the records sent and the
    octets delivered so far. *)
Class EndpointLaws {W} (e : endpoint W) := {
  link : W -> bool;
  sent : W -> list bytes;
  delivered : W -> bytes;
  open_law w st w' : e_open e w = (st, w') -> link w = false ->
    link w' = is_ok st /\ sent w' = sent w /\ delivered w' = delivered w;
  close_law w st w' : e_close e w = (st, w') ->
    link w' = false /\ sent w' = sent w /\ delivered w' = delivered w;
  send_law w data t st w' : e_send e w data t = (st, w') ->
    link w' = link w /\ delivered w' = delivered w /\ (st = PBNS_OK -> sent w' = sent w ++ [data]);
  receive_law w buf t st n buf' w' : e_receive e w buf t = (st, n, buf', w') ->
    link w' = link w /\ sent w' = sent w /\ length buf' = length buf /\ bytes_ok buf' /\ 0 <= n
    /\ (st = PBNS_OK -> n <= zlen buf -> delivered w' = delivered w ++ take (Z.to_nat n) buf')
    /\ (st <> PBNS_OK -> delivered w' = delivered w);
  cancel_law w id st w' : e_cancel e w id = (st, w') ->
    link w' = link w /\ sent w' = sent w /\ delivered w' = delivered w;
  limits_law w st l w' : e_limits e w = (st, l, w') ->
    (link w' = link w /\ sent w' = sent w /\ delivered w' = delivered w)
    /\ 0 <= control_payload_max l /\ 0 <= data_payload_max l;
  random_law w buf st buf' w' : e_random e w buf = (st, buf', w') ->
    (link w' = link w /\ sent w' = sent w /\ delivered w' = delivered w)
    /\ length buf' = length buf /\ bytes_ok buf';
  clock_law w st now w' : e_monotonic_ms e w = (st, now, w') ->
    (link w' = link w /\ sent w' = sent w /\ delivered w' = delivered w)
    /\ 0 <= now <= UINT64_MAX;
}.

(** ** Weakest preconditions

    Running out of fuel satisfies every postcondition; a fault satisfies none. *)

Definition wp {W A} (m : M W A) (Q : A -> cfg W -> Prop) (c : cfg W) : Prop :=
  match m c with
  | Ret (a, c') => Q a c'
  | Fault => False
  | OutOfFuel => True
  end.

Section rules.
Context {W : Type}.
Implicit Types (b : pbns_broker W) (w : W).

Lemma wp_bind {A B} (m : M W A) (k : A -> M W B) Q c :
  wp m (fun a c' => wp (k a) Q c') c -> wp (bindM m k) Q c.
Proof. unfold wp, bindM. by destruct (m c) as [[a c']| |]. Qed.

Lemma wp_mono {A} (m : M W A) (P Q : A -> cfg W -> Prop) c :
  (forall a c', P a c' -> Q a c') -> wp m P c -> wp m Q c.
Proof. unfold wp. destruct (m c) as [[a c']| |]; auto. Qed.

Lemma wp_ret {A} (a : A) (Q : A -> cfg W -> Prop) c : Q a c -> wp (retM a) Q c.
Proof. done. Qed.

Lemma wp_gets {A B} (f : pbns_broker W -> A) (k : A -> M W B) Q b w :
  wp (k (f b)) Q (b, w) -> wp (bindM (gets f) k) Q (b, w).
Proof. done. Qed.

Lemma wp_update {B} (f : pbns_broker W -> pbns_broker W) (k : unit -> M W B) Q b w :
  wp (k tt) Q (f b, w) -> wp (bindM (update f) k) Q (b, w).
Proof. done. Qed.

Lemma wp_lift {A} (o : option A) a (Q : A -> cfg W -> Prop) c : o = Some a -> Q a c -> wp (lift o) Q c.
Proof. intros -> HQ. exact HQ. Qed.

Lemma set_encoded_raw b x y :
  set_encoded x (set_raw_scratch y b)
  = set_storage (mk_storage x y (st_receive (k_storage b)) (st_decoded (k_storage b))) b.
Proof. by destruct b. Qed.

Lemma wp_if {A} (c : bool) (m1 m2 : M W A) Q s :
  (c = true -> wp m1 Q s) -> (c = false -> wp m2 Q s) -> wp (if c then m1 else m2) Q s.
Proof. destruct c; auto. Qed.
End rules.

(** ** Well-formed states *)

Definition same_geom (x y : pbns_buffer) : Prop :=
  b_ptr x = b_ptr y /\ length (b_data x) = length (b_data y).

Definition storage_ok `{Machine} (s : pbns_broker_storage) : Prop :=
  0 < b_ptr (st_encoded s) /\ 0 < b_ptr (st_raw_scratch s) /\ 0 < b_ptr (st_receive s)
  /\ 0 < b_ptr (st_decoded s)
  /\ 42 <= b_cap (st_encoded s) /\ 40 <= b_cap (st_raw_scratch s) /\ 1 <= b_cap (st_receive s)
  /\ 1 <= b_cap (st_decoded s) /\ buffers_overlap (st_encoded s) (st_receive s) = false
  /\ bytes_ok (b_data (st_encoded s)) /\ bytes_ok (b_data (st_raw_scratch s))
  /\ bytes_ok (b_data (st_receive s)).

Definition same_storage (s s' : pbns_broker_storage) : Prop :=
  same_geom (st_encoded s') (st_encoded s) /\ same_geom (st_raw_scratch s') (st_raw_scratch s)
  /\ same_geom (st_receive s') (st_receive s) /\ same_geom (st_decoded s') (st_decoded s).

Definition reader_ok (r : pbns_record_reader) (encoded : pbns_buffer) : Prop :=
  r_initialized r = true /\ r_ptr r = b_ptr encoded /\ r_cap r = b_cap encoded
  /\ 0 <= r_len r <= b_cap encoded /\ (r_discarding r = true -> r_len r = b_cap encoded).

Definition fresh_reader (encoded : pbns_buffer) : pbns_record_reader :=
  mk_reader (b_ptr encoded) (b_cap encoded) 0 true false false false.

(** The invariant of an initialised broker, on the fields it is about. *)
Definition wf_parts {W} `{Machine} (e : endpoint W) (transport : pbns_transport W)
    (platform : pbns_broker_platform W) (initialized : bool) (s : pbns_broker_storage)
    (r : pbns_record_reader) (offset len : Z) : Prop :=
  transport = transport_of e /\ platform = platform_of e /\ initialized = true
  /\ storage_ok s /\ reader_ok r (st_encoded s) /\ 0 <= offset <= len /\ len <= b_cap (st_receive s).

Definition wf {W} `{Machine} (e : endpoint W) (b : pbns_broker W) : Prop :=
  wf_parts e (k_transport b) (k_platform b) (k_initialized b) (k_storage b) (k_reader b)
    (k_receive_offset b) (k_receive_length b).

(** No session: nothing of a request is left but the limits of the last one. *)
Definition idle {W} (b : pbns_broker W) : Prop :=
  k_opened b = false /\ k_active b = false /\ k_deadline_active b = false
  /\ k_receive_offset b = 0 /\ k_receive_length b = 0 /\ k_bulk_exact b = 0 /\ k_bulk_received b = 0
  /\ k_bulk_next_ack b = 0 /\ k_upload_next b = 0 /\ k_bulk_mode b = false /\ k_bulk_failed b = false
  /\ k_upload_mode b = false /\ k_upload_response b = false /\ k_request_id b = zero_request_id
  /\ k_reader b = fresh_reader (st_encoded (k_storage b)) /\ k_stream b = zero_stream.

(** The state after [finish_session]. *)
Definition closed {W} (preserve_decoded : bool) (b : pbns_broker W) : pbns_broker W :=
  mk_broker (k_transport b) (k_platform b) (wipe_storage preserve_decoded (k_storage b))
    (default (k_reader b) (pbns_record_reader_reset (Some (k_reader b)))) zero_stream (k_limits b)
    zero_request_id PBNS_SERVICE_INVALID 0 0 0 0 0 0 0 (k_initialized b) false false false false false
    false false.

Definition is_wiped (buffer : pbns_buffer) : Prop := b_data buffer = replicate (length (b_data buffer)) 0.

Lemma zeros_ok n : bytes_ok (replicate n 0).
Proof. by apply Forall_replicate. Qed.
#[export] Hint Resolve zeros_ok : pbns.

Lemma wipe_buffer_geom b : same_geom (wipe_buffer b) b.
Proof. split; [done|]. unfold wipe_buffer, wiped. cbn [b_data]. by rewrite length_replicate. Qed.

Lemma wipe_buffer_wiped b : is_wiped (wipe_buffer b).
Proof. unfold is_wiped, wipe_buffer, wiped. cbn [b_data]. by rewrite length_replicate. Qed.

Lemma same_geom_refl b : same_geom b b.
Proof. done. Qed.
#[export] Hint Resolve same_geom_refl wipe_buffer_geom : pbns.

Lemma same_storage_refl s : same_storage s s.
Proof. unfold same_storage. auto with pbns. Qed.
#[export] Hint Resolve same_storage_refl : pbns.

Lemma same_storage_trans s1 s2 s3 : same_storage s1 s2 -> same_storage s2 s3 -> same_storage s1 s3.
Proof. unfold same_storage, same_geom. intuition congruence. Qed.

Section state.
Context {W : Type} `{Machine} `{QCBOR} (e : endpoint W).
Implicit Types (b : pbns_broker W) (s : pbns_broker_storage).

Lemma b_cap_geom x y : same_geom x y -> b_cap x = b_cap y.
Proof. intros [_ E]. unfold b_cap. by rewrite E. Qed.

Lemma storage_ok_geom s s' :
  storage_ok s -> same_storage s s' ->
  bytes_ok (b_data (st_encoded s')) -> bytes_ok (b_data (st_raw_scratch s')) ->
  bytes_ok (b_data (st_receive s')) -> storage_ok s'.
Proof.
  intros Hs (G1 & G2 & G3 & G4) B1 B2 B3. unfold storage_ok, buffers_overlap in *.
  rewrite (b_cap_geom _ _ G1), (b_cap_geom _ _ G2), (b_cap_geom _ _ G3), (b_cap_geom _ _ G4).
  destruct G1 as [-> _], G2 as [-> _], G3 as [-> _], G4 as [-> _]. tauto.
Qed.

Lemma reader_ok_geom r x y : reader_ok r x -> same_geom y x -> reader_ok r y.
Proof. unfold reader_ok. intros Hr G. rewrite (b_cap_geom _ _ G). destruct G as [-> _]. done. Qed.

Lemma reader_ok_fresh r enc :
  reader_ok r enc -> pbns_record_reader_reset (Some r) = Some (fresh_reader enc).
Proof.
  intros (Hi & Hp & Hc & _). unfold pbns_record_reader_reset, fresh_reader. by rewrite Hi, Hp, Hc.
Qed.

Lemma fresh_reader_ok enc : reader_ok (fresh_reader enc) enc.
Proof. unfold reader_ok, fresh_reader, b_cap. cbn. split_and!; try done; lia. Qed.

Lemma fresh_reader_geom x y : same_geom x y -> fresh_reader x = fresh_reader y.
Proof. intros G. unfold fresh_reader. rewrite (b_cap_geom _ _ G). by destruct G as [-> _]. Qed.

Lemma fresh_reader_holds enc : reader_holds (fresh_reader enc) (b_data enc) [].
Proof.
  pose proof (reader_holds_init (mk_buffer (b_ptr enc) 0 (b_data enc)) eq_refl) as Hh. exact Hh.
Qed.

(** Whatever the storage holds, an open reader holds some octets. *)
Lemma reader_ok_holds r enc :
  reader_ok r enc -> bytes_ok (b_data enc) -> r_ready r = false -> r_failed r = false ->
  exists seen, reader_holds r (b_data enc) seen /\ bytes_ok seen.
Proof.
  intros (Hi & Hp & Hc & Hl & Hd) Hok Hr Hf. unfold b_cap in *.
  destruct (r_discarding r) eqn:Ed.
  - exists (b_data enc ++ [0]). specialize (Hd eq_refl). split; [|octets].
    unfold reader_holds. rewrite take_ge by llia. rewrite take_app_length. lens.
    split_and!; try done; [lia|]. rewrite Ed. symmetry. apply Z.ltb_lt. lia.
  - exists (take (Z.to_nat (r_len r)) (b_data enc)). split; [|auto with pbns].
    unfold reader_holds. rewrite length_take, (take_ge (take _ _)) by (rewrite length_take; lia).
    split_and!; try done; [lia| |].
    + rewrite Ed. symmetry. apply Z.ltb_ge. lia.
    + f_equal. lia.
Qed.

Lemma reader_holds_ok r enc seen :
  r_ptr r = b_ptr enc -> reader_holds r (b_data enc) seen -> reader_ok r enc.
Proof.
  intros Hp (Hi & _ & _ & Hc & Hl & Hd & _). unfold reader_ok, b_cap. rewrite Hi, Hp, Hc, Hl, Hd.
  split_and!; try done; try lia.
Qed.

Lemma wipe_storage_geom p s : same_storage s (wipe_storage p s).
Proof.
  unfold same_storage, wipe_storage. cbn [st_encoded st_raw_scratch st_receive st_decoded].
  destruct p; auto with pbns.
Qed.

Lemma wipe_storage_ok p s : storage_ok s -> storage_ok (wipe_storage p s).
Proof.
  intros Hs. eapply storage_ok_geom; [exact Hs|apply wipe_storage_geom|..];
    unfold wipe_storage, wipe_buffer, wiped; cbn; auto with pbns.
Qed.

Lemma closed_wf p b : wf e b -> wf e (closed p b).
Proof.
  intros (Ht & Hp & Hi & Hs & Hr & Ho & Hl). unfold wf, wf_parts, closed.
  rewrite (reader_ok_fresh _ _ Hr).
  cbn [k_transport k_platform k_initialized k_storage k_reader k_receive_offset k_receive_length default].
  split_and!; try done; try (unfold b_cap; lia).
  - by apply wipe_storage_ok.
  - eapply reader_ok_geom; [apply fresh_reader_ok|]. apply (wipe_storage_geom p (k_storage b)).
Qed.

Lemma closed_idle p b : wf e b -> idle (closed p b).
Proof.
  intros (_ & _ & _ & _ & Hr & _). unfold idle. unfold closed. cbn [k_opened k_active k_deadline_active
    k_receive_offset k_receive_length k_bulk_exact k_bulk_received k_bulk_next_ack k_upload_next k_bulk_mode
    k_bulk_failed k_upload_mode k_upload_response k_request_id k_reader k_stream k_storage].
  split_and!; try done. rewrite (reader_ok_fresh _ _ Hr). cbn [default].
  symmetry. apply fresh_reader_geom, (wipe_storage_geom p (k_storage b)).
Qed.

(** [finish_session] closes the connection if it is open and clears the rest. *)
Lemma finish_session_eq p b w :
  wf e b ->
  finish_session p (b, w)
  = let '(st, w') := if k_opened b then e_close e w else (PBNS_OK, w) in Ret (st, (closed p b, w')).
Proof.
  intros (Ht & _). destruct b. cbn in *. subst. unfold finish_session, bindM, gets, transport_close, call,
    transport_op, transport_of. cbn.
  destruct k_opened; cbn; [|done]. by destruct (e_close e w).
Qed.
End state.

(** ** The steps *)

Section steps.
Context {W : Type} `{Machine} `{QCBOR} (e : endpoint W) `{!EndpointLaws e}.
Implicit Types (b : pbns_broker W) (s : pbns_broker_storage) (w : W).

(** A step that the contract does not observe. *)
Definition quiet w w' : Prop := link w' = link w /\ sent w' = sent w /\ delivered w' = delivered w.

Lemma quiet_refl w : quiet w w.
Proof. done. Qed.

Lemma quiet_trans w1 w2 w3 : quiet w1 w2 -> quiet w2 w3 -> quiet w1 w3.
Proof. unfold quiet. intuition congruence. Qed.

Lemma wp_call {A} (f : pbns_broker W -> ptr (W -> A * W)) g Q b w :
  f b = Some g -> (forall a w', g w = (a, w') -> Q a (b, w')) -> wp (call f) Q (b, w).
Proof. intros E HQ. unfold wp, call. cbn [fst snd]. rewrite E. destruct (g w). by apply HQ. Qed.

Lemma wf_transport {A} b (f : pbns_transport_ops W -> ptr A) :
  wf e b -> transport_op f b = transport_of e ≫= f.
Proof. intros (Ht & _). unfold transport_op. by rewrite Ht. Qed.

Lemma wf_platform {A} b (f : pbns_platform_ops W -> ptr A) :
  wf e b -> platform_op f b = platform_of e ≫= f.
Proof. intros (_ & Hp & _). unfold platform_op. by rewrite Hp. Qed.

Lemma wp_finish_session p b w Q :
  wf e b -> link w = k_opened b ->
  (forall st w', link w' = false -> sent w' = sent w -> delivered w' = delivered w ->
    Q st (closed p b, w')) ->
  wp (finish_session p) Q (b, w).
Proof.
  intros Hwf Hl HQ. unfold wp. rewrite (finish_session_eq e) by done.
  destruct (k_opened b); [|by apply HQ].
  destruct (e_close e w) as [st w'] eqn:E. apply close_law in E as (? & ? & ?). by apply HQ.
Qed.

Lemma wp_remaining_timeout b w Q :
  wf e b ->
  (forall st ms w', quiet w w' ->
    (st = PBNS_OK -> 0 < ms <= UINT32_MAX
       /\ exists now, e_monotonic_ms e w = (PBNS_OK, now, w') /\ now < k_deadline_ms b) ->
    Q (st, ms) (b, w')) ->
  wp remaining_timeout Q (b, w).
Proof.
  intros Hwf HQ. unfold remaining_timeout. apply wp_gets.
  destruct (k_deadline_active b); cbn [negb]; [|by apply HQ].
  apply wp_bind. eapply wp_call; [by rewrite wf_platform|]. intros [st now] w' E.
  pose proof (clock_law _ _ _ _ E) as [Hq Hnow]. destruct (is_ok st) eqn:Eok; cbn [negb].
  2: { apply is_ok_false in Eok. by apply HQ. }
  apply is_ok_spec in Eok as ->.
  apply wp_gets. destruct (Z.leb_spec (k_deadline_ms b) now); [by apply HQ|].
  apply HQ; [done|]. intros _. split; [|by exists now]. unfold UINT32_MAX, u32 in *.
  destruct (Z.ltb_spec 4294967295 (k_deadline_ms b - now)); [lia|].
  rewrite Z.mod_small; lia.
Qed.

Lemma wp_begin_deadline t b w Q :
  wf e b ->
  (forall st w', quiet w w' -> st <> PBNS_OK -> Q st (b, w')) ->
  (forall d w', quiet w w' -> Q PBNS_OK (set_deadline_active true (set_deadline_ms d b), w')) ->
  wp (begin_deadline t) Q (b, w).
Proof.
  intros Hwf Hfail Hok. unfold begin_deadline. apply wp_bind.
  eapply wp_call; [by rewrite wf_platform|]. intros [st now] w' E.
  apply clock_law in E as [Hq Hnow]. destruct (is_ok st) eqn:Eok; cbn [negb].
  - by apply Hok.
  - apply is_ok_false in Eok. by apply Hfail.
Qed.

(** The limits of a session respect the protocol and the storage. *)
Definition limits_ok s (l : pbns_frame_limits) : Prop :=
  limits_are_valid l = true /\ 0 <= control_payload_max l <= b_cap (st_decoded s)
  /\ 0 <= data_payload_max l <= b_cap (st_decoded s)
  /\ encoded_record_max l <= b_cap (st_encoded s).

Lemma minimum_size_min x y : minimum_size x y = Z.min x y.
Proof. unfold minimum_size. zbool; lia. Qed.

Lemma wp_query_limits b w Q :
  wf e b ->
  (forall st w', quiet w w' -> st <> PBNS_OK -> Q st (b, w')) ->
  (forall l w', quiet w w' -> limits_ok (k_storage b) l -> Q PBNS_OK (set_limits l b, w')) ->
  wp query_effective_limits Q (b, w).
Proof.
  intros Hwf Hfail Hok. pose proof Hwf as (_ & _ & _ & Hs & _). unfold query_effective_limits. apply wp_bind.
  eapply wp_call; [by rewrite wf_transport|]. intros [st l] w' E.
  apply limits_law in E as [Hq Hl]. destruct (is_ok st) eqn:Eok; cbn [negb].
  2: { apply is_ok_false in Eok. by apply Hfail. }
  destruct (_ || _) eqn:Eb; [by apply Hfail|]. bools. apply wp_update, wp_ret, Hok; [done|].
  rewrite !minimum_size_min. unfold limits_ok, limits_are_valid, storage_ok in *.
  cbn [control_payload_max data_payload_max encoded_record_max].
  unfold PBNS_FRAME_V1_CONTROL_PAYLOAD_MAX, PBNS_FRAME_V1_DATA_PAYLOAD_MAX, PBNS_FRAME_V1_WIRE_MAX,
    PBNS_FRAME_V1_HEADER_SIZE, PBNS_FRAME_V1_TRAILER_SIZE in *.
  split_and!; lia.
Qed.

Lemma wf_set_storage b s :
  wf e b -> same_storage (k_storage b) s -> storage_ok s -> wf e (set_storage s b).
Proof.
  intros (Ht & Hp & Hi & Hs & Hr & Ho & Hl) Hg Hok. unfold wf, wf_parts. cbn.
  split_and!; try done; try lia.
  - eapply reader_ok_geom; [exact Hr|]. apply Hg.
  - assert (G : same_geom (st_receive s) (st_receive (k_storage b))) by apply Hg.
    rewrite (b_cap_geom _ _ G). done.
Qed.

Lemma wp_broker_encode f pl b w Q :
  wf e b -> frame_typed f -> bytes_ok (v_data pl) ->
  (forall st n s, same_storage (k_storage b) s -> st_receive s = st_receive (k_storage b) ->
    st_decoded s = st_decoded (k_storage b) -> wf e (set_storage s b) ->
    0 <= n <= b_cap (st_encoded s) ->
    (st = PBNS_OK -> take (Z.to_nat n) (b_data (st_encoded s)) = frame_wire f (v_data pl)) ->
    Q (st, n) (set_storage s b, w)) ->
  wp (broker_encode f pl) Q (b, w).
Proof.
  intros Hwf Hf Hpl HQ. pose proof Hwf as (_ & _ & _ & Hs & _).
  unfold broker_encode. apply wp_gets. apply wp_bind.
  set (raw := mk_buffer _ 0 _). set (enc := mk_buffer _ 0 _).
  destruct (pbns_frame_encode_outcome f pl raw enc 0 Hf Hpl)
    as (st & raw' & enc' & n & E & El1 & El2 & _ & Hok & Hfail).
  destruct (pbns_frame_encode_ok f pl raw enc 0 _ _ _ _ Hf Hpl ltac:(apply Hs) ltac:(apply Hs) E) as [Hb1 Hb2].
  eapply wp_lift; [exact E|]. clear E. apply wp_update, wp_update, wp_ret. rewrite set_encoded_raw.
  set (s := mk_storage (with_data (st_encoded (k_storage b)) enc')
              (with_data (st_raw_scratch (k_storage b)) raw') (st_receive (k_storage b))
              (st_decoded (k_storage b))).
  assert (Hg : same_storage (k_storage b) s).
  { clear -El1 El2. unfold same_storage, s, same_geom, b_cap, raw, enc in *. cbn in *. split_and!; done || lia. }
  assert (Hwf' : wf e (set_storage s b)).
  { apply wf_set_storage; [done..|]. eapply storage_ok_geom; [exact Hs|exact Hg|..]; cbn; try done. apply Hs. }
  apply (HQ st n s); try done.
  - unfold s. cbn [st_encoded]. unfold b_cap, with_data, enc in *. cbn [b_data] in *.
    destruct (decide (st = PBNS_OK)) as [Eok|Hne].
    + destruct (Hok Eok) as [-> (rest & ->)]. llia.
    + rewrite (Hfail Hne). lia.
  - intros Eok. destruct (Hok Eok) as [-> (rest & ->)]. unfold s, with_data.
    cbn [st_encoded b_data]. by rewrite Nat2Z.id, take_app_length.
Qed.

Lemma wp_broker_send n t b w Q :
  wf e b -> 0 <= n <= b_cap (st_encoded (k_storage b)) ->
  (forall st w', link w' = link w -> delivered w' = delivered w ->
    (st = PBNS_OK -> sent w' = sent w ++ [take (Z.to_nat n) (b_data (st_encoded (k_storage b)))]) ->
    Q st (b, w')) ->
  wp (broker_send n t) Q (b, w).
Proof.
  intros Hwf Hn HQ. unfold broker_send. apply wp_gets, wp_bind.
  unfold b_cap in *. eapply wp_lift; [by rewrite rd_slice_inside by lia|].
  unfold slice. rewrite drop_0. eapply wp_call; [by rewrite wf_transport|]. intros st w' E.
  apply send_law in E as (? & ? & ?). by apply HQ.
Qed.

Lemma wp_encode_and_send f pl b w Q :
  wf e b -> frame_typed f -> bytes_ok (v_data pl) ->
  (forall st s w', same_storage (k_storage b) s -> st_receive s = st_receive (k_storage b) ->
    st_decoded s = st_decoded (k_storage b) -> wf e (set_storage s b) ->
    link w' = link w -> delivered w' = delivered w ->
    (st = PBNS_OK -> sent w' = sent w ++ [frame_wire f (v_data pl)]) ->
    Q st (set_storage s b, w')) ->
  wp (encode_and_send f pl) Q (b, w).
Proof.
  intros Hwf Hf Hpl HQ. unfold encode_and_send. apply wp_bind, wp_broker_encode; [done..|].
  intros st n s Hg Hr Hd Hwf' Hn Hw. destruct (is_ok st) eqn:Eok; cbn [negb].
  2: { apply is_ok_false in Eok. by apply HQ. }
  apply is_ok_spec in Eok. apply wp_bind, wp_remaining_timeout; [done|].
  intros st' ms w1 (? & ? & ?) _. destruct (is_ok st') eqn:Eok'; cbn [negb].
  2: { apply is_ok_false in Eok'. by apply HQ. }
  apply wp_broker_send; [done..|]. intros st'' w2 Hl2 Hd2 Hs2. apply HQ; try done; try congruence.
  intros Eok2. rewrite Hs2 by done. cbn [k_storage set_storage]. rewrite Hw by done. congruence.
Qed.
End steps.
