(* ===== verification/BrokerReceive.v ===== *)
(** * The broker's receiving path

    The octets delivered by the transport are consumed in order, and the first
    record of them is the one that is decoded. *)

From stdpp Require Import base list numbers.
From Stdlib Require Import ZArith Lia.
From S2P Require Import Prelude Endian Status Buffers Crc32c Cobs Frame Stream RecordReader Cbor Utf8 Broker BrokerLogic.

(** The octets received but not consumed. *)
Definition pending {W} (b : pbns_broker W) : bytes :=
  slice (b_data (st_receive (k_storage b))) (k_receive_offset b) (k_receive_length b - k_receive_offset b).

(** What the receiving path writes. *)
Definition touched {W} (b : pbns_broker W) (s : pbns_broker_storage) (r : pbns_record_reader) (o l : Z)
  : pbns_broker W :=
  set_receive_length l (set_receive_offset o (set_reader r (set_storage s b))).

Lemma touched_id {W} (b : pbns_broker W) :
  touched b (k_storage b) (k_reader b) (k_receive_offset b) (k_receive_length b) = b.
Proof. by destruct b. Qed.

Lemma touched_touched {W} (b : pbns_broker W) s r o l s' r' o' l' :
  touched (touched b s r o l) s' r' o' l' = touched b s' r' o' l'.
Proof. by destruct b. Qed.

Lemma ranges_overlap_sub `{Machine} q cap p len off n :
  ranges_overlap q cap p len = false -> 0 <= off -> 0 <= n -> off + n <= len ->
  ranges_overlap (p + off) n q cap = false.
Proof. unfold ranges_overlap. intros E Ho Hn Hl. zbool; cbn [orb andb] in *; try done; lia. Qed.

Section receive.
Context {W : Type} `{Machine} `{QCBOR} (e : endpoint W) `{!EndpointLaws e}.
Implicit Types (b : pbns_broker W) (s : pbns_broker_storage) (w : W).

(** From [(b, w)] to [(b', w')] the octets [consumed] were taken from those
    pending and those delivered meanwhile. *)
Definition consumes b w b' w' (consumed : bytes) : Prop :=
  exists new, delivered w' = delivered w ++ new /\ pending b ++ new = consumed ++ pending b'
              /\ bytes_ok consumed.

Lemma consumes_trans b1 w1 b2 w2 b3 w3 c1 c2 :
  consumes b1 w1 b2 w2 c1 -> consumes b2 w2 b3 w3 c2 -> consumes b1 w1 b3 w3 (c1 ++ c2).
Proof.
  intros (n1 & D1 & E1 & O1) (n2 & D2 & E2 & O2). exists (n1 ++ n2). split; [|split].
  - by rewrite D2, D1, app_assoc.
  - by rewrite app_assoc, E1, <- app_assoc, E2, app_assoc.
  - by apply bytes_ok_app.
Qed.

(** What a turn that goes on has done: it used octets received before, or the
    deadline was not over and it asked the transport for more. *)
Definition waited b w w' : Prop :=
  (k_receive_offset b < k_receive_length b /\ w' = w)
  \/ exists now w1 buf ms st n buf', e_monotonic_ms e w = (PBNS_OK, now, w1) /\ now < k_deadline_ms b
       /\ e_receive e w1 buf ms = (st, n, buf', w').

Lemma wp_transport_receive t b w Q :
  wf e b ->
  (forall st n s w', link w' = link w -> sent w' = sent w ->
    s = mk_storage (st_encoded (k_storage b)) (st_raw_scratch (k_storage b)) (st_receive s)
          (st_decoded (k_storage b)) ->
    same_storage (k_storage b) s -> storage_ok s -> 0 <= n ->
    (st = PBNS_OK -> n <= b_cap (st_receive s) ->
      delivered w' = delivered w ++ take (Z.to_nat n) (b_data (st_receive s))) ->
    (st <> PBNS_OK -> delivered w' = delivered w) ->
    (exists buf buf', e_receive e w buf t = (st, n, buf', w')) ->
    Q (st, n) (set_storage s b, w')) ->
  wp (transport_receive t) Q (b, w).
Proof.
  intros Hwf HQ. pose proof Hwf as (_ & _ & _ & Hs & _). unfold transport_receive. apply wp_gets, wp_bind.
  eapply wp_call; [by rewrite (wf_transport e)|]. intros [[st n] data] w' E.
  pose proof (receive_law _ _ _ _ _ _ _ E) as (? & ? & El & Hok & Hn & Hd1 & Hd2). apply wp_update, wp_ret.
  set (s := mk_storage (st_encoded (k_storage b)) (st_raw_scratch (k_storage b))
              (with_data (st_receive (k_storage b)) data) (st_decoded (k_storage b))).
  assert (Hg : same_storage (k_storage b) s).
  { unfold same_storage, s, same_geom. by cbn. }
  apply (HQ st n s); try done.
  - eapply storage_ok_geom; [exact Hs|exact Hg|..]; unfold s; cbn; try done; apply Hs.
  - intros Est Hle. apply Hd1; [done|]. by rewrite <- El.
  - by do 2 eexists.
Qed.

Lemma wp_fill b w Q :
  wf e b ->
  (forall res s o l w', same_storage (k_storage b) s ->
    s = mk_storage (st_encoded (k_storage b)) (st_raw_scratch (k_storage b)) (st_receive s)
          (st_decoded (k_storage b)) ->
    let b' := touched b s (k_reader b) o l in
    wf e b' -> link w' = link w -> sent w' = sent w ->
    match res with
    | inl st => st <> PBNS_OK
    | inr more => consumes b w b' w' [] /\ waited b w w' /\ (more = false -> o = l)
    end ->
    Q res (b', w')) ->
  wp fill_receive Q (b, w).
Proof.
  intros Hwf HQ. pose proof Hwf as (Ht & Hp & Hi & Hs & Hr & Ho & Hl). unfold fill_receive.
  apply wp_gets, wp_gets. destruct (Z.leb_spec (k_receive_length b) (k_receive_offset b)) as [Hle|Hlt]; cbn [negb].
  2: { specialize (HQ (inr true) (k_storage b) (k_receive_offset b) (k_receive_length b) w).
       cbv zeta in HQ. rewrite touched_id in HQ. apply wp_ret, HQ; auto with pbns.
       - by destruct (k_storage b).
       - split; [|by split; [left|]]. exists []. rewrite !app_nil_r. split; [done|]. by split; [|constructor]. }
  apply wp_update, wp_update.
  set (b1 := set_receive_length 0 (set_receive_offset 0 b)).
  assert (Hwf1 : wf e b1).
  { unfold wf, wf_parts, b1. cbn. split_and!; try done; unfold b_cap; lia. }
  assert (Hp0 : pending b = []).
  { unfold pending, slice. by replace (Z.to_nat _) with O by lia. }
  apply wp_bind, (wp_remaining_timeout e); [done|]. intros st ms w1 (Hl1 & Hs1 & Hd1) Hclock.
  assert (Hfin : forall res s l w', same_storage (k_storage b) s ->
    s = mk_storage (st_encoded (k_storage b)) (st_raw_scratch (k_storage b)) (st_receive s)
          (st_decoded (k_storage b)) -> storage_ok s -> 0 <= l <= b_cap (st_receive s) ->
    link w' = link w -> sent w' = sent w ->
    match res with
    | inl st => st <> PBNS_OK
    | inr more => delivered w' = delivered w ++ take (Z.to_nat l) (b_data (st_receive s))
                  /\ waited b w w' /\ (more = false -> l = 0)
    end -> Q res (touched b s (k_reader b) 0 l, w')).
  { intros res s l w' Hg Es Hok Hrange Hlink Hsent Hres. apply HQ; try done.
    - unfold wf, wf_parts. cbn. split_and!; try done; try lia.
      eapply reader_ok_geom; [exact Hr|]. apply Hg.
    - destruct res; [done|]. destruct Hres as (Hdel & Hwait & Hmore).
      split; [|split; [done|intros E; by rewrite Hmore]].
      exists (take (Z.to_nat l) (b_data (st_receive s))). split; [done|]. rewrite Hp0. split; [|constructor]. unfold pending, slice. cbn. by rewrite Z.sub_0_r, drop_0. }
  destruct (is_ok st) eqn:Eok; cbn [negb].
  2: { apply is_ok_false in Eok. apply wp_ret. unfold b1.
       replace (set_receive_length 0 (set_receive_offset 0 b))
         with (touched b (k_storage b) (k_reader b) 0 0) by (by destruct b).
       apply Hfin; auto with pbns; try congruence; [by destruct (k_storage b)|unfold b_cap; lia]. }
  apply wp_bind, wp_transport_receive; [done|].
  apply is_ok_spec in Eok. destruct (Hclock Eok) as (_ & now & Enow & Hnow).
  intros st2 n s w2 Hl2 Hs2 Es Hg Hok Hn Hd2 Hd3 (buf & buf' & Erecv). apply wp_gets.
  assert (Hwait : waited b w w2).
  { right. exists now, w1, buf, ms, st2, n, buf'. done. }
  replace (set_storage s b1) with (touched b s (k_reader b) 0 0) by (by destruct b).
  cbn [k_storage touched set_receive_length set_receive_offset set_reader set_storage].
  assert (Hcap : 0 <= b_cap (st_receive s)) by (unfold b_cap; lia).
  destruct st2; try (by apply wp_ret, Hfin; try done; try congruence; lia).
  - destruct (_ || _) eqn:Eb; [by apply wp_ret, Hfin; try done; try congruence; lia|]. bools.
    apply wp_update, wp_ret.
    replace (set_receive_length n (touched b s (k_reader b) 0 0)) with (touched b s (k_reader b) 0 n)
      by (by destruct b).
    apply Hfin; try done; try congruence; try lia. rewrite Hd2 by (done || lia). split; [congruence|done].
  - destruct (negb _); apply wp_ret, Hfin; try done; try congruence; try lia.
    rewrite Hd3 by done. cbn [Z.to_nat take]. rewrite app_nil_r. done.
Qed.

(** The outcome of a turn, for every way to read the octets that the reader
    holds already. *)
Definition turn_post b w (res : pbns_status + option pbns_view) b' w' : Prop :=
  match res with
  | inl st => st <> PBNS_OK
  | inr None => waited b w w' /\ k_receive_offset b' = k_receive_length b' /\
      exists consumed, consumes b w b' w' consumed
      /\ forall seen, reader_holds (k_reader b) (b_data (st_encoded (k_storage b))) seen ->
         reader_holds (k_reader b') (b_data (st_encoded (k_storage b'))) (seen ++ consumed)
  | inr (Some record) =>
      v_ptr record = b_ptr (st_encoded (k_storage b)) /\ bytes_ok (v_data record)
      /\ exists consumed, consumes b w b' w' consumed
         /\ forall seen, reader_holds (k_reader b) (b_data (st_encoded (k_storage b))) seen ->
            seen ++ consumed = v_data record ++ [0]
  end.

Lemma record_status_cases cap r :
  record_status cap r = PBNS_ERR_LIMIT \/ record_status cap r = PBNS_ERR_FORMAT
  \/ record_status cap r = PBNS_OK.
Proof. unfold record_status. destruct (cap <? _), (zlen r =? 0); auto. Qed.

Definition only_encoded s s' : Prop :=
  s' = mk_storage (st_encoded s') (st_raw_scratch s) (st_receive s) (st_decoded s).

(** The same for the reader's part of a turn. *)
Definition pushed_post b w (res : pbns_status + option pbns_view) b' : Prop :=
  match res with
  | inr None => k_receive_offset b' = k_receive_length b' /\
      exists consumed, consumes b w b' w consumed
      /\ forall seen, reader_holds (k_reader b) (b_data (st_encoded (k_storage b))) seen ->
         reader_holds (k_reader b') (b_data (st_encoded (k_storage b'))) (seen ++ consumed)
  | res => turn_post b w res b' w
  end.

(** What the reader makes of a chunk, for every way to read the octets that it
    holds already. *)
Definition push_post (r : pbns_record_reader) (enc : pbns_buffer) (data : bytes) (p : push_result) : Prop :=
  length (pu_mem p) = length (b_data enc) /\ bytes_ok (pu_mem p)
  /\ reader_ok (pu_reader p) (with_data enc (pu_mem p)) /\ 0 <= pu_consumed p <= zlen data
  /\ match pu_status p with
     | PBNS_ERR_WOULD_BLOCK =>
         pu_consumed p = zlen data
         /\ forall seen, reader_holds r (b_data enc) seen ->
            reader_holds (pu_reader p) (pu_mem p) (seen ++ data)
     | PBNS_OK =>
         pu_ready p = true /\ v_ptr (pu_record p) = b_ptr enc /\ bytes_ok (v_data (pu_record p))
         /\ forall seen, reader_holds r (b_data enc) seen ->
            seen ++ take (Z.to_nat (pu_consumed p)) data = v_data (pu_record p) ++ [0]
     | _ => True
     end.

Lemma reader_push_done r enc view :
  reader_ok r enc -> bytes_ok (b_data enc) -> view_is_valid view = true -> r_ready r || r_failed r = true ->
  exists p, reader_push r (b_data enc) view = Some p /\ push_post r enc (v_data view) p.
Proof.
  intros Hr Hok Hv Hdone. eexists. split.
  - unfold reader_push. rewrite Hv. cbn [negb]. rewrite <- orb_assoc, Hdone, orb_true_r. reflexivity.
  - unfold push_post. cbn. split_and!; try done; lia.
Qed.

Lemma reader_push_open r enc view :
  reader_ok r enc -> bytes_ok (b_data enc) -> bytes_ok (v_data view) -> chunk_ok r view ->
  r_ready r = false -> r_failed r = false ->
  exists p, reader_push r (b_data enc) view = Some p /\ push_post r enc (v_data view) p.
Proof.
  intros Hr Hok Hdok Hc Erd Efl. set (data := v_data view) in *.
  destruct (reader_ok_holds r enc Hr Hok Erd Efl) as (seen0 & Hh0 & Hok0).
  pose proof (fun seen Hh => reader_push_spec r (b_data enc) seen view Hh Hc) as Hspec. fold data in Hspec.
  assert (Hmem : forall p, reader_push r (b_data enc) view = Some p -> bytes_ok (pu_mem p)).
  { intros p. unfold reader_push. rewrite (proj1 Hc), (proj2 Hc). cbn [negb].
    destruct (_ || _); [intros [= <-]; done|]. intros E. by eapply reader_push_loop_ok; [| |exact E]. }
  destruct (Hspec seen0 Hh0) as (r' & mem' & Elen & Eptr & Hout). destruct Hr as (Hri & Hrp & Hrc & _).
  destruct (cut_record data) as [[rec rest]|] eqn:Ecut.
  - destruct Hout as (Ep & Hi' & Hcap & _ & Hlen' & Hdisc'). eexists. split; [exact Ep|].
    apply cut_record_Some in Ecut as [Edata Hnz]. rewrite Edata in Hdok.
    apply bytes_ok_app in Hdok as [Hrok _]. pose proof (Hmem _ Ep) as Hmok.
    assert (Hlen : zlen data = zlen rec + 1 + zlen rest) by (rewrite Edata; llia).
    unfold push_post. cbn [pu_mem pu_reader pu_consumed pu_status pu_ready pu_record] in *.
    split; [done|]. split; [done|]. split; [|split; [lia|]].
    { unfold reader_ok, with_data, b_cap. cbn. rewrite Hi', Hcap, !Elen, Eptr. split_and!; done || lia. }
    destruct (record_status_cases (zlen (b_data enc)) (seen0 ++ rec)) as [E|[E|E]]; rewrite E in *; try done.
    cbn [is_ok v_ptr v_data]. split_and!; try done; [octets|]. intros seen Hh.
    destruct (Hspec seen Hh) as (r2 & mem2 & _ & _ & Hout2).
    rewrite (proj2 (cut_record_Some _ _ _) (conj Edata Hnz)) in Hout2.
    destruct Hout2 as (Ep2 & _). rewrite Ep in Ep2. injection Ep2 as Est _ _ _ Ev.
    rewrite <- Est in Ev. cbn [is_ok] in Ev. injection Ev as Ev. rewrite Ev, Edata.
    replace (Z.to_nat _) with (length (rec ++ [0])) by llia.
    replace (rec ++ 0 :: rest) with ((rec ++ [0]) ++ rest) by by rewrite <- app_assoc.
    by rewrite take_app_length, app_assoc.
  - destruct Hout as (Ep & Hh'). eexists. split; [exact Ep|]. pose proof (Hmem _ Ep) as Hmok.
    unfold push_post. cbn [pu_mem pu_reader pu_consumed pu_status pu_ready pu_record] in *.
    split_and!; try done; try lia.
    + eapply reader_holds_ok; [|exact Hh']. cbn. congruence.
    + intros seen Hh. destruct (Hspec seen Hh) as (r2 & mem2 & _ & _ & Hout2). rewrite Ecut in Hout2.
      destruct Hout2 as (Ep2 & Hh2). rewrite Ep in Ep2. injection Ep2 as <- <-. exact Hh2.
Qed.

Lemma pending_drop b s r n :
  wf e b -> 0 <= n <= zlen (pending b) -> st_receive s = st_receive (k_storage b) ->
  pending (touched b s r (k_receive_offset b + n) (k_receive_length b)) = drop (Z.to_nat n) (pending b).
Proof.
  intros (_ & _ & _ & _ & _ & Ho & Hl) Hn Es. unfold pending, slice. cbn. rewrite Es.
  rewrite skipn_firstn_comm, drop_drop. f_equal; [lia|]. f_equal. lia.
Qed.

Lemma wf_push b p :
  wf e b -> push_post (k_reader b) (st_encoded (k_storage b)) (pending b) p ->
  zlen (pending b) = k_receive_length b - k_receive_offset b ->
  let s := mk_storage (with_data (st_encoded (k_storage b)) (pu_mem p)) (st_raw_scratch (k_storage b))
             (st_receive (k_storage b)) (st_decoded (k_storage b)) in
  same_storage (k_storage b) s
  /\ wf e (touched b s (pu_reader p) (k_receive_offset b + pu_consumed p) (k_receive_length b)).
Proof.
  intros (Ht & Hp & Hi & Hs & Hr & Ho & Hl) (Elen & Hmok & Hrok & Hcons & _) Hplen s.
  assert (Hg : same_storage (k_storage b) s).
  { unfold same_storage, s, same_geom, with_data. cbn. split_and!; done. }
  split; [done|]. unfold wf, wf_parts. cbn. unfold b_cap in *. split_and!; try done; try lia.
  eapply storage_ok_geom; [exact Hs|exact Hg|..]; unfold s; cbn; try done; apply Hs.
Qed.

Lemma wp_push b w Q :
  wf e b ->
  (forall res s r o, same_storage (k_storage b) s -> only_encoded (k_storage b) s ->
    let b' := touched b s r o (k_receive_length b) in
    wf e b' -> pushed_post b w res b' -> Q res (b', w)) ->
  wp push_received Q (b, w).
Proof.
  intros Hwf HQ. pose proof Hwf as (_ & _ & _ & Hs & Hr & Ho & Hl). unfold push_received.
  do 4 apply wp_gets. apply wp_bind. unfold b_cap in Hl.
  eapply wp_lift; [by apply rd_slice_inside; lia|]. apply wp_bind. fold (pending b).
  set (enc := st_encoded (k_storage b)) in *. set (view := mk_view _ (pending b)).
  assert (Hplen : zlen (pending b) = k_receive_length b - k_receive_offset b) by (apply slice_length; lia).
  assert (Hpok : bytes_ok (pending b)) by (apply bytes_ok_slice, Hs).
  assert (Hv : view_is_valid view = true).
  { apply view_is_valid_spec. left. unfold view. cbn. unfold storage_ok in Hs. lia. }
  assert (Hc : chunk_ok (k_reader b) view).
  { split; [done|]. destruct Hr as (_ & -> & -> & _). unfold view, v_len. cbn [v_ptr v_data].
    destruct Hs as (_ & _ & _ & _ & _ & _ & _ & _ & Hov & _). unfold buffers_overlap in Hov. fold enc in Hov.
    eapply ranges_overlap_sub; [exact Hov|lia..|unfold b_cap; lia]. }
  assert (exists p, reader_push (k_reader b) (b_data enc) view = Some p
            /\ push_post (k_reader b) enc (pending b) p) as (p & Ep & Hpost).
  { destruct (r_ready (k_reader b) || r_failed (k_reader b)) eqn:Edone.
    - by apply reader_push_done; try apply Hs.
    - apply orb_false_iff in Edone as [? ?]. apply reader_push_open; try done; apply Hs. }
  eapply wp_lift; [exact Ep|]. apply wp_update, wp_update, wp_update.
  destruct (wf_push b p Hwf Hpost Hplen) as [Hg Hwf'].
  set (s := mk_storage _ _ _ _) in Hg, Hwf'.
  match goal with |- wp _ _ (?st, _) =>
    replace st with (touched b s (pu_reader p) (k_receive_offset b + pu_consumed p) (k_receive_length b))
      by (by destruct b) end.
  destruct Hpost as (_ & _ & _ & Hcons & Hpost).
  assert (Hcs : consumes b w (touched b s (pu_reader p) (k_receive_offset b + pu_consumed p) (k_receive_length b))
                  w (take (Z.to_nat (pu_consumed p)) (pending b))).
  { exists []. rewrite !app_nil_r. split; [done|]. rewrite pending_drop by done.
    split; [by rewrite take_drop|auto with pbns]. }
  destruct (pu_status p); try (by apply wp_ret, HQ).
  - destruct Hpost as (-> & Hptr & Hrok & Hrec). apply wp_ret, HQ; try done. split; [done|]. split; [done|].
    by eexists.
  - destruct Hpost as (Ec & Hh). apply wp_ret, HQ; try done. split; [cbn; lia|]. eexists. split; [exact Hcs|].
    rewrite Ec, Nat2Z.id, firstn_all. exact Hh.
Qed.

Lemma consumes_nil_l b1 w1 b2 w2 b3 w3 c :
  consumes b1 w1 b2 w2 [] -> consumes b2 w2 b3 w3 c -> consumes b1 w1 b3 w3 c.
Proof. intros H1 H2. exact (consumes_trans _ _ _ _ _ _ _ _ H1 H2). Qed.

(** The storage that the receiving path leaves alone. *)
Definition keeps s s' : Prop :=
  same_storage s s' /\ st_raw_scratch s' = st_raw_scratch s /\ st_decoded s' = st_decoded s.

Lemma keeps_refl s : keeps s s.
Proof. split; auto with pbns. Qed.

Lemma keeps_trans s1 s2 s3 : keeps s1 s2 -> keeps s2 s3 -> keeps s1 s3.
Proof. intros (G1 & ? & ?) (G2 & ? & ?). split; [by eapply same_storage_trans|]. split; congruence. Qed.

Definition receive_frame b w b' w' : Prop :=
  keeps (k_storage b) (k_storage b') /\ wf e b' /\ link w' = link w /\ sent w' = sent w.

Lemma wp_turn b w Q :
  wf e b ->
  (forall res s r o l w', let b' := touched b s r o l in
    receive_frame b w b' w' -> turn_post b w res b' w' -> Q res (b', w')) ->
  wp receive_turn Q (b, w).
Proof.
  intros Hwf HQ. unfold receive_turn. apply wp_bind, wp_fill; [done|].
  intros res s o l w1 Hg Es b1 Hwf1 Hl1 Hs1 Hres.
  assert (Hk : receive_frame b w b1 w1).
  { split; [|done]. split; [done|]. unfold b1. cbn. rewrite Es. done. }
  assert (Ee : k_reader b1 = k_reader b /\ st_encoded (k_storage b1) = st_encoded (k_storage b)).
  { unfold b1. cbn. by rewrite Es. }
  destruct Ee as [Er Ee]. destruct res as [st|[|]].
  - by apply wp_ret, HQ.
  - apply wp_push; [done|]. intros res s2 r2 o2 Hg2 Eo2 b2 Hwf2 Hpost. unfold b2, b1.
    rewrite touched_touched. apply HQ.
    + split; [|done]. apply (keeps_trans _ (k_storage b1)); [apply Hk|]. split; [done|].
      cbn. rewrite Eo2. done.
    + unfold b2, b1 in Hpost. rewrite touched_touched in Hpost. fold b1 in Hpost.
      unfold pushed_post, turn_post in *. rewrite Er, Ee in Hpost. destruct Hres as (Hres & Hwait & _).
      destruct res as [|[record|]]; [done| |].
      * destruct Hpost as (? & ? & c & Hc & Hseen). split; [done|]. split; [done|]. exists c.
        split; [by eapply consumes_nil_l|done].
      * destruct Hpost as (Heq & c & Hc & Hseen). split; [done|]. split; [done|]. exists c.
        split; [by eapply consumes_nil_l|done].
  - destruct Hres as (Hres & Hwait & Hmore). apply wp_ret, HQ; [done|].
    split; [done|]. split; [by apply Hmore|]. exists []. split; [done|]. intros seen Hh. rewrite app_nil_r.
    change (reader_holds (k_reader b1) (b_data (st_encoded (k_storage b1))) seen). by rewrite Er, Ee.
Qed.

(** The loop hands out the first record of what was held, pending and
    delivered meanwhile. *)
Definition record_post b w (res : pbns_status + pbns_view) b' w' : Prop :=
  match res with
  | inl st => st <> PBNS_OK
  | inr record => turn_post b w (inr (Some record)) b' w'
  end.

Lemma wp_receive_record fuel : forall b w Q,
  wf e b ->
  (forall res s r o l w', let b' := touched b s r o l in
    receive_frame b w b' w' -> record_post b w res b' w' -> Q res (b', w')) ->
  wp (receive_record fuel) Q (b, w).
Proof.
  induction fuel as [|fuel IH]; intros b w Q Hwf HQ; [done|].
  cbn [receive_record]. apply wp_bind, wp_turn; [done|].
  intros res s r o l w1 b1 (Hk & Hwf1 & Hl1 & Hs1) Hpost. destruct res as [st|[record|]].
  - by apply wp_ret, HQ.
  - by apply wp_ret, HQ.
  - destruct Hpost as (_ & _ & c1 & Hc1 & Hseen1). apply IH; [done|].
    intros res s2 r2 o2 l2 w2 b2 (Hk2 & Hwf2 & Hl2 & Hs2) Hpost2. unfold b2, b1 in *.
    rewrite touched_touched in *. fold b1 in Hpost2, Hk, Hk2. apply HQ.
    + split; [by eapply keeps_trans|]. split; [done|]. split; congruence.
    + destruct res as [st|record]; [done|]. destruct Hpost2 as (Hptr & Hrok & c2 & Hc2 & Hseen2).
      split; [rewrite Hptr; apply Hk|]. split; [done|]. exists (c1 ++ c2).
      split; [by eapply consumes_trans|]. intros seen Hh. rewrite app_assoc. by apply Hseen2, Hseen1.
Qed.

(** ** From a record to a response *)

Lemma wp_reset_reader b w (Q : unit -> cfg W -> Prop) :
  wf e b -> Q tt (set_reader (fresh_reader (st_encoded (k_storage b))) b, w) -> wp reset_reader Q (b, w).
Proof.
  intros (_ & _ & _ & _ & Hr & _) HQ. unfold reset_reader, wp, update. cbn [fst snd].
  by rewrite (reader_ok_fresh _ _ Hr).
Qed.

Definition only_raw s s' : Prop :=
  s' = mk_storage (st_encoded s) (st_raw_scratch s') (st_receive s) (st_decoded s).

Lemma pbns_frame_decode_ok record limits scratch f v st raw f' v' :
  bytes_ok (v_data record) -> bytes_ok (b_data scratch) ->
  pbns_frame_decode record limits scratch f v = Some (st, raw, f', v') -> bytes_ok raw.
Proof.
  intros Hr Hs E. unfold pbns_frame_decode in E.
  destruct f; [|by simplify_eq]. destruct v; [|by simplify_eq].
  destruct (_ || _); [by simplify_eq|]. destruct (_ || _); [by simplify_eq|].
  destruct (pbns_cobs_decode _ _ _) as [[[s1 d] n]|] eqn:Ed; [|done]. cbn [mbind option_bind] in E.
  apply pbns_cobs_decode_ok in Ed; [|done..]. destruct (negb _); [by simplify_eq|].
  destruct (frame_parse_raw _ _ _ _) as [[[? ?] ?]|]; [|done]. cbn [mbind option_bind] in E. by simplify_eq.
Qed.

Lemma frame_decode_total record limits scratch :
  view_is_valid record = true -> bytes_ok (v_data record) -> buffer_is_valid scratch = true ->
  bytes_ok (b_data scratch) ->
  exists st raw f v,
    pbns_frame_decode record limits scratch (Some zero_frame) (Some null_view) = Some (st, raw, Some f, Some v)
    /\ length raw = length (b_data scratch) /\ bytes_ok raw
    /\ (st = PBNS_OK -> frame_record limits (v_data record) f (v_data v) /\ v_ptr v = b_ptr scratch + 36)
    /\ (st <> PBNS_OK -> f = zero_frame /\ v = null_view).
Proof.
  intros Hv Hok Hb Hbok. destruct (limits_are_valid limits) eqn:El.
  - destruct (pbns_frame_decode_outcome record limits scratch zero_frame null_view Hv Hok Hb El)
      as (st & raw & f & v & E & Hlen & Hs & Hf & _). exists st, raw, f, v.
    split; [done|]. split; [unfold b_cap in Hlen; lia|]. split; [by eapply pbns_frame_decode_ok; [| |exact E]|].
    split; [|done]. intros Est. by destruct (Hs Est) as (Hrec & Hptr & _).
  - unfold pbns_frame_decode. rewrite Hv, Hb, El. cbn [negb orb]. do 4 eexists. split; [reflexivity|].
    split; [done|]. split; [done|]. done.
Qed.

Lemma wp_decode_record record b w Q :
  wf e b -> v_ptr record <> 0 -> bytes_ok (v_data record) ->
  (forall st f v s, same_storage (k_storage b) s -> only_raw (k_storage b) s ->
    let b' := touched b s (fresh_reader (st_encoded s)) (k_receive_offset b) (k_receive_length b) in
    wf e b' -> bytes_ok (v_data v) -> view_is_valid v = true ->
    (st = PBNS_OK -> frame_record (k_limits b) (v_data record) f (v_data v)) ->
    Q (st, f, v) (b', w)) ->
  wp (decode_record record) Q (b, w).
Proof.
  intros Hwf Hp Hok HQ. pose proof Hwf as (Ht & Hpl & Hi & Hs & Hr & Ho & Hl). unfold decode_record.
  apply wp_gets, wp_gets, wp_bind. set (raw := st_raw_scratch (k_storage b)).
  destruct (frame_decode_total record (k_limits b) (mk_buffer (b_ptr raw) 0 (b_data raw)))
    as (st & data & f & v & E & Elen & Hdok & Hst & Hfail).
  { apply view_is_valid_spec. auto. } { done. }
  { apply buffer_is_valid_spec. cbn. unfold storage_ok in Hs. split; [done|]. left. subst raw. lia. }
  { apply Hs. }
  eapply wp_lift; [exact E|]. clear E. apply wp_update. cbn [default id].
  set (s := mk_storage (st_encoded (k_storage b)) (with_data raw data) (st_receive (k_storage b))
              (st_decoded (k_storage b))).
  assert (Hg : same_storage (k_storage b) s).
  { unfold same_storage, s, same_geom, with_data. cbn. split_and!; done. }
  assert (Hsok : storage_ok s).
  { eapply storage_ok_geom; [exact Hs|exact Hg|..]; unfold s; cbn; try done; apply Hs. }
  assert (Hwf1 : wf e (set_storage s b)) by (by apply wf_set_storage).
  change (set_raw_scratch (with_data raw data) b) with (set_storage s b).
  apply wp_bind, wp_reset_reader; [done|]. apply wp_ret.
  replace (set_reader _ _) with
    (touched b s (fresh_reader (st_encoded s)) (k_receive_offset b) (k_receive_length b)) by (by destruct b).
  assert (Hv : bytes_ok (v_data v) /\ view_is_valid v = true).
  { destruct (decide (st = PBNS_OK)) as [Est|Hne].
    - destruct (Hst Est) as ((_ & Hf) & Hptr). split; [apply Hf|]. apply view_is_valid_spec. left.
      rewrite Hptr. cbn. unfold storage_ok in Hs. subst raw. lia.
    - destruct (Hfail Hne) as [_ ->]. split; [constructor|done]. }
  apply HQ; try done; try apply Hv.
  - destruct Hwf1 as (? & ? & ? & ? & ? & ? & ?). unfold wf, wf_parts. cbn. split_and!; try done; try lia.
    apply fresh_reader_ok.
  - intros Est. apply Hst, Est.
Qed.

Lemma wp_accept_frame f v b w Q :
  view_is_valid v = true -> bytes_ok (v_data v) ->
  (forall st str, pbns_stream_accept (Some (k_stream b)) (Some f) v = Some (st, Some str) ->
    (st = PBNS_OK ->
      f_service f = s_service (k_stream b) /\ f_request_id f = s_request_id (k_stream b)
      /\ f_sequence f = s_next_sequence (k_stream b)) ->
    Q st (set_stream str b, w)) ->
  wp (accept_frame f v) Q (b, w).
Proof.
  intros Hv Hok HQ. unfold accept_frame. apply wp_gets, wp_bind.
  destruct (stream_accept_total (k_stream b) f v Hv Hok) as (st & str & E & Hst).
  eapply wp_lift; [exact E|]. apply wp_update, wp_ret, HQ; [done|]. intros Est.
  by destruct (Hst Est) as (? & ? & _ & ? & _).
Qed.

Definition only_decoded s s' : Prop :=
  s' = mk_storage (st_encoded s) (st_raw_scratch s) (st_receive s) (st_decoded s').

Lemma only_decoded_ok s s' :
  storage_ok s -> only_decoded s s' -> same_geom (st_decoded s') (st_decoded s) ->
  same_storage s s' /\ storage_ok s'.
Proof.
  intros Hs E Hg.
  assert (Hgeom : same_storage s s') by (unfold same_storage; rewrite E; cbn; auto with pbns).
  split; [done|]. eapply storage_ok_geom; [exact Hs|exact Hgeom|..]; rewrite E; cbn; apply Hs.
Qed.

(** A remote error is never taken for success, and a status other than a
    refusal of the report is the one that the canonical report carries. *)
Definition error_report (code service : Z) (detail : bytes) : bytes :=
  cbor_map [(1, CUInt code); (2, CUInt service); (3, CText detail)].

Definition error_post (payload : bytes) (service : Z) (st : pbns_status) : Prop :=
  st = PBNS_ERR_FORMAT \/ st = PBNS_ERR_SERVICE \/ st = PBNS_ERR_LIMIT
  \/ exists code detail, 1 <= code <= 22 /\ status_code st = - code /\ utf8_is_valid detail = true
       /\ zlen detail <= PBNS_ERROR_DETAIL_MAX /\ payload = error_report code service detail.

Lemma decode_error_items_spec payload service :
  let '(st, code, svc, detail) := decode_error_items payload service in
  (st = PBNS_ERR_FORMAT \/ st = PBNS_ERR_SERVICE)
  \/ st = PBNS_OK /\ 1 <= code <= 22 /\ svc = service /\ utf8_is_valid detail = true
     /\ zlen detail <= PBNS_ERROR_DETAIL_MAX.
Proof.
  unfold decode_error_items. repeat case_match; simplify_eq; auto. bools. right. split_and!; try done; lia.
Qed.

Lemma wp_decode_remote_error payload service b w Q :
  wf e b ->
  (forall st s, only_decoded (k_storage b) s -> same_geom (st_decoded s) (st_decoded (k_storage b)) ->
    error_post payload service st -> Q st (set_storage s b, w)) ->
  wp (decode_remote_error payload service) Q (b, w).
Proof.
  intros Hwf HQ. unfold decode_remote_error. pose proof (decode_error_items_spec payload service) as Hitems.
  assert (Hid : set_storage (k_storage b) b = b) by (by destruct b).
  destruct (decode_error_items payload service) as [[[st code] svc] detail].
  destruct Hitems as [Hst|(-> & Hcode & -> & Hutf & Hdet)].
  { replace (is_ok st) with false by (destruct Hst as [-> | ->]; done). cbn [negb]. apply wp_ret.
    rewrite <- Hid. apply HQ; auto with pbns; [by destruct (k_storage b)|]. unfold error_post. tauto. }
  cbn [is_ok negb]. apply wp_gets.
  destruct (QCBOREncode_map _ _) as [[err canonical] data] eqn:E.
  apply QCBOREncode_map_spec in E as (Elen & Hsucc & _). apply wp_update.
  set (s := mk_storage (st_encoded (k_storage b)) (st_raw_scratch (k_storage b)) (st_receive (k_storage b))
              (with_data (st_decoded (k_storage b)) data)).
  change (set_decoded _ b) with (set_storage s b).
  assert (Hfin : forall st, error_post payload service st -> Q st (set_storage s b, w)).
  { intros st Hpost. apply HQ; try done. }
  destruct err; [|apply wp_ret, Hfin; unfold error_post; tauto..].
  destruct (Hsucc eq_refl) as (-> & _). destruct (_ || _) eqn:Ecmp; [apply wp_ret, Hfin; unfold error_post; tauto|].
  apply orb_false_iff in Ecmp as [_ Ecmp]. apply negb_false_iff, bytes_eqb_spec in Ecmp.
  destruct (status_of_code (- code)) as [st|] eqn:Ec.
  2: { apply status_of_code_None in Ec. lia. }
  apply status_of_code_Some in Ec. eapply wp_lift; [reflexivity|]. apply Hfin.
  do 3 right. exists code, detail. split_and!; try lia; done.
Qed.

Lemma error_post_not_ok payload service st : error_post payload service st -> st <> PBNS_OK.
Proof.
  intros Hp ->. destruct Hp as [?|[?|[?|(code & detail & Hc & E & _)]]]; try done. cbn in E. lia.
Qed.

(** The response refers to the decode buffer, which holds the payload. *)
Definition response_live s (response : pbns_broker_response) : Prop :=
  v_ptr (rs_payload response) = b_ptr (st_decoded s)
  /\ v_len (rs_payload response) <= b_cap (st_decoded s)
  /\ take (length (v_data (rs_payload response))) (b_data (st_decoded s)) = v_data (rs_payload response).

Lemma wp_publish f v b w Q :
  wf e b ->
  (forall st resp s, only_decoded (k_storage b) s -> same_geom (st_decoded s) (st_decoded (k_storage b)) ->
    (st <> PBNS_OK -> resp = zero_response) ->
    (st = PBNS_OK -> rs_frame resp = f /\ v_data (rs_payload resp) = v_data v /\ response_live s resp) ->
    Q (st, resp) (set_storage s b, w)) ->
  wp (publish_payload f v) Q (b, w).
Proof.
  intros Hwf HQ. unfold publish_payload. apply wp_gets.
  assert (Hid : set_storage (k_storage b) b = b) by (by destruct b).
  set (dec := st_decoded (k_storage b)). destruct (Z.ltb_spec (b_cap dec) (v_len v)).
  { apply wp_ret. rewrite <- Hid. apply HQ; auto with pbns; try done. by destruct (k_storage b). }
  unfold b_cap, v_len in *. apply wp_bind. eapply wp_lift; [by apply wr_list_splice; lia|].
  apply wp_update, wp_ret.
  set (s := mk_storage (st_encoded (k_storage b)) (st_raw_scratch (k_storage b)) (st_receive (k_storage b))
              (mk_buffer (b_ptr dec) (zlen (v_data v)) (splice (b_data dec) 0 (v_data v)))).
  change (set_decoded _ b) with (set_storage s b). apply HQ; try done.
  - split; [done|]. unfold s, dec in *. cbn [st_decoded b_data]. apply splice_length; lia.
  - intros _. split; [done|]. split; [done|]. unfold response_live, s, b_cap, v_len, dec in *.
    cbn [rs_payload v_ptr v_data st_decoded b_ptr b_data]. rewrite splice_length by lia. split; [done|].
    split; [lia|]. unfold splice. cbn [Z.to_nat take]. rewrite app_nil_l. apply take_app_length.
Qed.

(** The state after the receiving path as a whole. *)
Definition received b s r str o l : pbns_broker W := set_stream str (touched b s r o l).

Lemma received_id b :
  received b (k_storage b) (k_reader b) (k_stream b) (k_receive_offset b) (k_receive_length b) = b.
Proof. by destruct b. Qed.

(** A record handed out by the loop, decoded: what a frame that leaves
    [decode_record] with success stands for. *)
Definition record_of b w b' w' (f : pbns_frame) (pl : bytes) : Prop :=
  exists record consumed, consumes b w b' w' consumed
  /\ (forall seen, reader_holds (k_reader b) (b_data (st_encoded (k_storage b))) seen ->
      seen ++ consumed = record ++ [0])
  /\ frame_record (k_limits b) record f pl.

Lemma consumes_pending b w b1 w1 b2 w2 c :
  consumes b w b1 w1 c -> pending b2 = pending b1 -> delivered w2 = delivered w1 -> consumes b w b2 w2 c.
Proof. unfold consumes. by intros (new & ? & ? & ?) -> ->; exists new. Qed.

Lemma record_of_pending b w b1 w1 b2 w2 f pl :
  record_of b w b1 w1 f pl -> pending b2 = pending b1 -> delivered w2 = delivered w1 ->
  record_of b w b2 w2 f pl.
Proof.
  intros (rec & c & Hc & Hr & Hf) Hp Hd. exists rec, c. split; [by eapply consumes_pending|done].
Qed.

Lemma wp_next_frame fuel b w Q :
  wf e b ->
  (forall st f v s r o l w', let b' := touched b s r o l in
    same_storage (k_storage b) s -> wf e b' -> link w' = link w -> sent w' = sent w ->
    bytes_ok (v_data v) -> view_is_valid v = true ->
    (st = PBNS_OK -> record_of b w b' w' f (v_data v) /\ k_reader b' = fresh_reader (st_encoded s)) ->
    Q (st, f, v) (b', w')) ->
  wp (next_frame fuel) Q (b, w).
Proof.
  intros Hwf HQ. apply wp_bind, wp_receive_record; [done|].
  intros res s r o l w1 b1 (Hk & Hwf1 & Hl1 & Hs1) Hpost. destruct res as [st|record].
  { apply wp_ret, HQ; try done; [apply Hk|constructor]. }
  destruct Hpost as (Hptr & Hrok & c & Hc & Hseen).
  assert (Hp0 : v_ptr record <> 0).
  { rewrite Hptr. destruct Hwf as (_ & _ & _ & Hs & _). unfold storage_ok in Hs. lia. }
  apply wp_decode_record; [done..|]. intros st f v s2 Hg Eo b2 Hwf2 Hv Hvalid Hst.
  unfold b2, b1 in *. rewrite touched_touched in *. apply HQ; try done.
  { eapply same_storage_trans; [apply Hk|done]. }
  intros Est. split; [|done]. exists (v_data record), c. split_and!; [|done|by apply Hst].
  eapply consumes_pending; [exact Hc| |done]. unfold pending. cbn. by rewrite Eo.
Qed.

(** What a successful [pbns_broker_receive] returns. *)
Definition response_post b w (resp : pbns_broker_response) b' w' : Prop :=
  record_of b w b' w' (rs_frame resp) (v_data (rs_payload resp))
  /\ f_type (rs_frame resp) = PBNS_MESSAGE_RESPONSE
  /\ f_service (rs_frame resp) = s_service (k_stream b)
  /\ f_request_id (rs_frame resp) = s_request_id (k_stream b)
  /\ f_sequence (rs_frame resp) = s_next_sequence (k_stream b)
  /\ response_live (k_storage b') resp.

Lemma wp_broker_receive fuel b w Q :
  wf e b ->
  (forall st resp s r str o l w', let b' := received b s r str o l in
    same_storage (k_storage b) s -> wf e b' -> link w' = link w -> sent w' = sent w ->
    (st <> PBNS_OK -> resp = zero_response) -> (st = PBNS_OK -> response_post b w resp b' w') ->
    Q (st, resp) (b', w')) ->
  wp (broker_receive fuel) Q (b, w).
Proof.
  intros Hwf HQ. unfold broker_receive. do 3 apply wp_gets.
  destruct (_ || _).
  { specialize (HQ PBNS_ERR_STATE zero_response (k_storage b) (k_reader b) (k_stream b) (k_receive_offset b)
                  (k_receive_length b) w). cbv zeta in HQ. rewrite received_id in HQ.
    apply wp_ret, HQ; auto with pbns; done. }
  apply wp_bind, wp_next_frame; [done|]. intros st f v s r o l w1 b1 Hg Hwf1 Hl1 Hs1 Hv Hvalid Hst.
  assert (Hfail : forall st str s', st <> PBNS_OK -> same_storage s s' -> wf e (set_storage s' b1) ->
    wp (retM (st, zero_response)) Q (received b s' r str o l, w1)).
  { intros st' str s' Hne Hg' Hwf'. apply wp_ret, HQ; try done. by eapply same_storage_trans. }
  destruct (is_ok st) eqn:Eok; cbn [negb].
  2: { apply is_ok_false in Eok. unfold b1 in *. apply wp_ret.
       replace (touched b s r o l) with (received b s r (k_stream b) o l) by (by destruct b).
       apply HQ; try done. }
  apply is_ok_spec in Eok as ->. destruct (Hst eq_refl) as [Hrec _].
  apply wp_bind, wp_accept_frame; [done..|]. intros st2 str _ Hacc.
  change (set_stream str b1) with (received b s r str o l).
  assert (Hwf2 : wf e (received b s r str o l)) by exact Hwf1.
  destruct (is_ok st2) eqn:Eok2; cbn [negb].
  2: { apply is_ok_false in Eok2. by apply Hfail; auto with pbns. }
  apply is_ok_spec in Eok2. specialize (Hacc Eok2) as (Hsv & Hidf & Hseq).
  apply wp_gets. destruct (request_ids_match _ _); cbn [negb].
  2: { by apply Hfail; auto with pbns. }
  destruct (f_type f =? PBNS_MESSAGE_ERROR).
  { apply wp_gets, wp_bind, wp_decode_remote_error; [done|]. intros st3 s3 Eo Hg3 Hpost.
    destruct (only_decoded_ok (k_storage b1) s3 ltac:(apply Hwf1) Eo Hg3) as [Hg3' Hok3].
    change (set_storage s3 (received b s r str o l)) with (received b s3 r str o l).
    apply Hfail; [by eapply error_post_not_ok|done|]. by apply wf_set_storage. }
  destruct (Z.eqb_spec (f_type f) PBNS_MESSAGE_RESPONSE) as [Ety|]; cbn [negb].
  2: { by apply Hfail; auto with pbns. }
  apply wp_publish; [done|]. intros st3 resp s3 Eo Hg3 Hne Heq.
  destruct (only_decoded_ok (k_storage b1) s3 ltac:(apply Hwf1) Eo Hg3) as [Hg3' Hok3].
  change (set_storage s3 (received b s r str o l)) with (received b s3 r str o l).
  apply HQ; try done.
  - by eapply same_storage_trans.
  - by apply (wf_set_storage e b1).
  - intros E3. destruct (Heq E3) as (Ef & Ev & Hlive). unfold response_post. rewrite Ef, Ev.
    split_and!; try done. eapply record_of_pending; [exact Hrec| |done].
    unfold pending. cbn. by rewrite Eo.
Qed.
End receive.
