(* ===== verification/BrokerRequest.v ===== *)
(** * Requests

    One call of the broker is one exchange: the request is sent, the response
    bound to it is returned, and whatever happens the session is over when the
    call returns. *)

From stdpp Require Import base list numbers.
From Stdlib Require Import ZArith Lia.
From S2P Require Import Prelude Endian Status Buffers Crc32c Cobs Frame Stream RecordReader Cbor Utf8 Broker BrokerLogic BrokerReceive.

Definition id_ok (id : bytes) : Prop := bytes_ok id /\ length id = 16%nat.

Lemma id_frame_typed service type id seq :
  id_ok id -> 0 <= seq <= UINT32_MAX -> frame_typed (mk_frame service type 0 id seq).
Proof. intros [? ?] ?. done. Qed.

(** The working buffers hold nothing of the session. *)
Definition scrubbed (s : pbns_broker_storage) : Prop :=
  is_wiped (st_encoded s) /\ is_wiped (st_raw_scratch s) /\ is_wiped (st_receive s).

Lemma wipe_storage_scrubbed p s : scrubbed (wipe_storage p s).
Proof. unfold scrubbed, wipe_storage. cbn. auto using wipe_buffer_wiped. Qed.

Section request.
Context {W : Type} `{Machine} `{QCBOR} (e : endpoint W) `{!EndpointLaws e}.
Implicit Types (b : pbns_broker W) (s : pbns_broker_storage) (w : W).

Lemma wipe_wf p b : wf e b -> wf e (set_storage (wipe_storage p (k_storage b)) b).
Proof. intros Hwf. apply wf_set_storage; [done|apply wipe_storage_geom|]. apply wipe_storage_ok, Hwf. Qed.

Lemma wipe_idle p b : idle b -> idle (set_storage (wipe_storage p (k_storage b)) b).
Proof.
  unfold idle. intros Hi. cbn [k_opened k_active k_deadline_active k_receive_offset k_receive_length k_bulk_exact
    k_bulk_received k_bulk_next_ack k_upload_next k_bulk_mode k_bulk_failed k_upload_mode k_upload_response
    k_request_id k_reader k_stream k_storage set_storage].
  rewrite (fresh_reader_geom (st_encoded (wipe_storage p (k_storage b))) (st_encoded (k_storage b)));
    [exact Hi|]. apply wipe_storage_geom.
Qed.

Lemma wf_fresh b : wf e b -> wf e (set_reader (fresh_reader (st_encoded (k_storage b))) b).
Proof.
  intros (? & ? & ? & ? & ? & ? & ?). unfold wf, wf_parts.
  cbn [k_transport k_platform k_initialized k_storage k_reader k_receive_offset k_receive_length set_reader].
  split_and!; try done; try lia. apply fresh_reader_ok.
Qed.

(** The end of a failed attempt to open a session. *)
Lemma wp_open_failed (wipe : bool) (st : pbns_status) b w Q :
  wf e b -> idle b ->
  (forall b', wf e b' -> idle b' ->
    k_storage b' = (if wipe then wipe_storage false (k_storage b) else k_storage b) -> Q st (b', w)) ->
  wp (bindM (if wipe then wipe_request_storage false else retM tt) (fun _ => retM st)) Q (b, w).
Proof.
  intros Hwf Hidle HQ. destruct wipe.
  - apply wp_update, wp_ret, HQ; [by apply wipe_wf|by apply wipe_idle|done].
  - apply wp_bind, wp_ret, wp_ret, HQ; done.
Qed.

Lemma wp_open_session id t (wipe : bool) b w Q :
  wf e b -> idle b -> link w = false ->
  (forall st b' w', st <> PBNS_OK -> wf e b' -> idle b' -> link w' = false -> sent w' = sent w ->
    delivered w' = delivered w ->
    k_storage b' = (if wipe then wipe_storage false (k_storage b) else k_storage b) -> Q st (b', w')) ->
  (forall d w', link w' = true -> sent w' = sent w -> delivered w' = delivered w ->
    Q PBNS_OK (set_opened true (set_deadline_active true (set_deadline_ms d (set_request_id id b))), w')) ->
  wp (open_session id t wipe) Q (b, w).
Proof.
  intros Hwf Hidle Hl Hfail Hok. unfold open_session. apply wp_update, wp_bind.
  apply (wp_begin_deadline e); [done| |].
  - intros st w1 (Hl1 & Hs1 & Hd1) Hne. rewrite (proj2 (is_ok_false st) Hne). cbn [negb].
    apply wp_update, wp_open_failed; [done| |].
    + unfold idle in *. cbn. tauto.
    + intros b' Hwf' Hidle' Hs'. apply Hfail; try done; congruence.
  - intros d w1 (Hl1 & Hs1 & Hd1). cbn [is_ok negb]. apply wp_bind.
    eapply wp_call; [by rewrite (wf_transport e)|]. intros st w2 E.
    apply open_law in E as (Hl2 & Hs2 & Hd2); [|congruence].
    destruct (is_ok st) eqn:Eok; cbn [negb].
    + apply wp_update, wp_ret. apply Hok; congruence.
    + apply is_ok_false in Eok. apply wp_update, wp_update, wp_open_failed; [done| |].
      * unfold idle in *. cbn. tauto.
      * intros b' Hwf' Hidle' Hs'. apply Hfail; try done; congruence.
Qed.

Lemma wp_emit_cancel b w Q :
  wf e b -> id_ok (k_request_id b) ->
  (forall st s w', same_storage (k_storage b) s -> wf e (set_storage s b) -> link w' = link w ->
    delivered w' = delivered w -> Q st (set_storage s b, w')) ->
  wp emit_cancel Q (b, w).
Proof.
  intros Hwf Hid HQ. unfold emit_cancel. apply wp_gets, wp_gets, wp_bind, (wp_broker_encode e); try done.
  { apply id_frame_typed; [done|]. unfold UINT32_MAX. lia. } { constructor. }
  intros st n s Hg _ _ Hwf' Hn _. destruct (is_ok st); cbn [negb]; [|by apply wp_ret, HQ].
  apply (wp_broker_send e); [done..|]. intros st' w' ? ? _. by apply HQ.
Qed.

(** The end of a session: nothing of it is left. *)
Definition session_over b b' w' : Prop :=
  wf e b' /\ idle b' /\ link w' = false /\ same_storage (k_storage b) (k_storage b')
  /\ scrubbed (k_storage b').

Lemma closed_over b p w' : wf e b -> link w' = false -> session_over b (closed p b) w'.
Proof.
  intros Hwf Hl. split; [by apply closed_wf|]. split; [by eapply closed_idle|]. split; [done|].
  split; [apply wipe_storage_geom|apply wipe_storage_scrubbed].
Qed.

Lemma session_over_same b1 b2 b' w' :
  same_storage (k_storage b1) (k_storage b2) -> session_over b2 b' w' -> session_over b1 b' w'.
Proof.
  intros Hg (? & ? & ? & ? & ?). unfold session_over. split_and!; try done. by eapply same_storage_trans.
Qed.

Lemma wp_close (p : bool) b w Q :
  wf e b -> link w = k_opened b ->
  (forall st b' w', session_over b b' w' -> sent w' = sent w -> delivered w' = delivered w ->
    st_decoded (k_storage b') = (if p then st_decoded (k_storage b) else wipe_buffer (st_decoded (k_storage b))) ->
    k_limits b' = k_limits b -> Q st (b', w')) ->
  wp (finish_session p) Q (b, w).
Proof.
  intros Hwf Hl HQ. apply (wp_finish_session e); [done..|]. intros st w' ? ? ?. apply HQ; try done.
  by apply closed_over.
Qed.

Lemma wp_broker_cancel b w Q :
  wf e b -> link w = k_opened b -> id_ok (k_request_id b) ->
  (k_active b = false -> Q PBNS_ERR_STATE (b, w)) ->
  (forall st b' w', k_active b = true -> session_over b b' w' -> delivered w' = delivered w ->
    is_wiped (st_decoded (k_storage b')) -> Q st (b', w')) ->
  wp broker_cancel Q (b, w).
Proof.
  intros Hwf Hl Hid Hno HQ. unfold broker_cancel. apply wp_gets.
  pose proof Hwf as (_ & _ & -> & _). cbn [negb orb].
  destruct (k_active b) eqn:Ea; cbn [negb]; [|by apply wp_ret, Hno].
  apply wp_bind, wp_emit_cancel; [done..|]. intros st s w1 Hg Hwf1 Hl1 Hd1. apply wp_gets, wp_bind.
  eapply wp_call; [by rewrite (wf_transport e)|]. intros st2 w2 E. apply cancel_law in E as (Hl2 & _ & Hd2).
  apply wp_bind, wp_close; [done|cbn; congruence|]. intros st3 b' w3 Hover _ Hd3 Hdec _.
  apply wp_ret, HQ; [done| |congruence|].
  - by eapply session_over_same; [|exact Hover].
  - rewrite Hdec. apply wipe_buffer_wiped.
Qed.

(** What the response is, for a session in state [b]: the frame of the first
    record delivered, bound to the stream of the session. *)
Definition response_of b w (resp : pbns_broker_response) b' w' : Prop :=
  exists b1 w1, record_of e b w b1 w1 (rs_frame resp) (v_data (rs_payload resp))
  /\ delivered w' = delivered w1
  /\ f_type (rs_frame resp) = PBNS_MESSAGE_RESPONSE
  /\ f_service (rs_frame resp) = s_service (k_stream b)
  /\ f_request_id (rs_frame resp) = s_request_id (k_stream b)
  /\ f_sequence (rs_frame resp) = s_next_sequence (k_stream b)
  /\ response_live (k_storage b') resp.

Lemma wipe_decoded_over b b' w' :
  session_over b b' w' ->
  session_over b (set_decoded (wipe_buffer (st_decoded (k_storage b'))) b') w'.
Proof.
  intros (Hwf & Hidle & Hl & Hg & Hscr).
  set (s := mk_storage (st_encoded (k_storage b')) (st_raw_scratch (k_storage b')) (st_receive (k_storage b'))
              (wipe_buffer (st_decoded (k_storage b')))).
  change (set_decoded _ b') with (set_storage s b').
  destruct (only_decoded_ok (k_storage b') s) as [Hg' Hok]; [apply Hwf|done|apply wipe_buffer_geom|].
  split; [by apply wf_set_storage|]. split; [exact Hidle|]. split; [done|].
  split; [by eapply same_storage_trans|exact Hscr].
Qed.

Lemma wp_request_response fuel b w Q :
  wf e b -> link w = k_opened b -> k_active b = true -> id_ok (k_request_id b) ->
  (forall st resp b' w', session_over b b' w' ->
    (st <> PBNS_OK -> resp = zero_response /\ is_wiped (st_decoded (k_storage b'))) ->
    (st = PBNS_OK -> response_of b w resp b' w' /\ sent w' = sent w /\ k_limits b' = k_limits b) ->
    Q (st, resp) (b', w')) ->
  wp (request_response fuel) Q (b, w).
Proof.
  intros Hwf Hl Hact Hid HQ. unfold request_response. apply wp_bind, (wp_broker_receive e); [done|].
  intros st resp s r str o l w1 b1 Hg Hwf1 Hl1 Hs1 Hne Heq.
  assert (Hg1 : same_storage (k_storage b) (k_storage b1)) by exact Hg.
  destruct (status_eqb st PBNS_ERR_TIMEOUT) eqn:Et.
  - apply wp_bind, wp_broker_cancel; [done|cbn; congruence|done|cbn; congruence|].
    intros st2 b2 w2 _ Hover _ Hwiped. apply wp_ret, HQ; try done. by eapply session_over_same.
  - apply wp_bind, wp_close; [done|cbn; congruence|].
    intros st2 b2 w2 Hover Hs2 Hd2 Hdec Hlim. destruct (is_ok st2) eqn:Eok2; cbn [negb].
    + apply wp_ret, HQ; [by eapply session_over_same| |].
      * intros Hst. split; [by apply Hne|]. rewrite (proj2 (is_ok_false st) Hst) in Hdec. rewrite Hdec.
        apply wipe_buffer_wiped.
      * intros ->. destruct (Heq eq_refl) as (Hrec & ? & ? & ? & ? & Hlive). cbn [is_ok] in Hdec.
        split; [|split; [congruence|done]]. exists b1, w1. split_and!; try done.
        unfold response_live in *. by rewrite Hdec.
    + apply is_ok_false in Eok2. apply wp_update, wp_ret, HQ.
      * eapply session_over_same; [exact Hg1|]. by apply wipe_decoded_over.
      * intros _. split; [done|]. cbn. apply wipe_buffer_wiped.
      * destruct st; done.
Qed.

(** A request that was answered: the frame sent, and the record that the
    response comes from. *)
Definition answered (service : Z) (supplied : ptr bytes) (body : bytes) w
    (resp : pbns_broker_response) b' w' : Prop :=
  exists id record rest,
    id_ok id /\ (forall id', supplied = Some id' -> id = id')
    /\ sent w' = sent w ++ [frame_wire (mk_frame service PBNS_MESSAGE_REQUEST 0 id 0) body]
    /\ delivered w' = delivered w ++ record ++ 0 :: rest
    /\ frame_record (k_limits b') record (rs_frame resp) (v_data (rs_payload resp))
    /\ rs_frame resp = mk_frame service PBNS_MESSAGE_RESPONSE 0 id 0
    /\ response_live (k_storage b') resp.

Lemma response_of_answered service supplied body id lim b w resp b' w' w0 :
  response_of b w resp b' w' -> k_limits b' = k_limits b -> id_ok id ->
  (forall id', supplied = Some id' -> id = id') ->
  sent w' = sent w0 ++ [frame_wire (mk_frame service PBNS_MESSAGE_REQUEST 0 id 0) body] ->
  delivered w = delivered w0 ->
  k_reader b = fresh_reader (st_encoded (k_storage b)) -> pending b = [] ->
  k_stream b = mk_stream service id lim 0 0 true false false ->
  answered service supplied body w0 resp b' w'.
Proof.
  intros (b1 & w1 & (record & c & (new & Hd1 & Hc & _) & Hseen & Hf) & Hd' & Hty & Hsv & Hrid & Hseq & Hlive)
    Hlim Hid Hsup Hsent Hd Hr Hp Hstr.
  rewrite Hstr in Hsv, Hrid, Hseq. cbn in Hsv, Hrid, Hseq.
  specialize (Hseen []). rewrite Hr in Hseen. specialize (Hseen (fresh_reader_holds _)). cbn [app] in Hseen.
  rewrite Hp in Hc. cbn [app] in Hc. exists id, record, (pending b1).
  split_and!; try done.
  - rewrite Hd', Hd1, Hd, Hc, Hseen. by rewrite <- app_assoc.
  - by rewrite Hlim.
  - destruct (rs_frame resp) as [sv ty fl rid sq]. cbn in *. subst.
    destruct Hf as (_ & _ & _ & _ & _ & Hfl & _). cbn in Hfl. by subst.
Qed.

(** What a call of the broker leaves behind. *)
Definition request_post service supplied body b w st resp b' w' : Prop :=
  (b' = b /\ w' = w /\ resp = zero_response /\ st <> PBNS_OK)
  \/ (session_over b b' w'
      /\ (st <> PBNS_OK -> resp = zero_response /\ is_wiped (st_decoded (k_storage b')))
      /\ (st = PBNS_OK -> answered service supplied body w resp b' w')).

Lemma request_failed service supplied body b w st b' w' :
  st <> PBNS_OK -> session_over b b' w' -> is_wiped (st_decoded (k_storage b')) ->
  request_post service supplied body b w st zero_response b' w'.
Proof. right. done. Qed.

(** The state in which a session is opened. *)
Definition prepared b : pbns_broker W :=
  set_reader (fresh_reader (st_encoded (wipe_storage false (k_storage b))))
    (set_storage (wipe_storage false (k_storage b)) b).

Lemma prepared_ok b : wf e b -> idle b -> wf e (prepared b) /\ idle (prepared b).
Proof.
  intros Hwf Hidle. split; [exact (wf_fresh _ (wipe_wf false b Hwf))|].
  unfold idle in *. cbn. tauto.
Qed.

Lemma wp_prepare {A} (k : M W A) b w Q :
  wf e b -> wp k Q (prepared b, w) ->
  wp (bindM (wipe_request_storage false) (fun _ => bindM reset_reader (fun _ => k))) Q (b, w).
Proof. intros Hwf Hk. apply wp_update, wp_bind, (wp_reset_reader e); [by apply wipe_wf|exact Hk]. Qed.

Lemma over_prepared b b' w' :
  wf e b' -> idle b' -> link w' = false -> k_storage b' = wipe_storage false (k_storage b) ->
  session_over b b' w' /\ is_wiped (st_decoded (k_storage b')).
Proof.
  intros ? ? ? Hs. unfold session_over. rewrite Hs. split_and!; try done.
  - apply wipe_storage_geom.
  - apply wipe_storage_scrubbed.
  - cbn. apply wipe_buffer_wiped.
Qed.

Lemma wp_choose_request_id supplied b w Q :
  wf e b -> (forall id, supplied = Some id -> id_ok id) ->
  (forall st w', st <> PBNS_OK -> quiet e w w' -> Q (st, zero_request_id) (b, w')) ->
  (forall id w', id_ok id -> (forall id', supplied = Some id' -> id = id') -> quiet e w w' ->
    Q (PBNS_OK, id) (b, w')) ->
  wp (choose_request_id supplied) Q (b, w).
Proof.
  intros Hwf Hsup Hfail Hok. unfold choose_request_id. destruct supplied as [id|].
  { apply wp_ret, Hok; [by apply Hsup| |done]. by intros id' [= ->]. }
  apply wp_bind. eapply wp_call; [by rewrite (wf_platform e)|]. intros [st id] w' E.
  apply random_law in E as (Hq & Elen & Hid). destruct (is_ok st) eqn:Eok; cbn [negb].
  2: { apply is_ok_false in Eok. by apply wp_ret, Hfail. }
  destruct (request_id_is_nonzero id); cbn [negb]; apply wp_ret; [|by apply Hfail].
  apply Hok; try done.
Qed.

Lemma init_stream_valid service id limit b :
  service_is_valid service = true ->
  default zero_stream (pbns_stream_init (Some (k_stream b)) service id limit)
  = mk_stream service id limit 0 0 true false false.
Proof. intros Hs. unfold pbns_stream_init. by rewrite Hs. Qed.

(** A session in which the request was sent and the response is awaited. *)
Definition awaiting (service : Z) (supplied : ptr bytes) (body : bytes) b0 w0 b w : Prop :=
  exists id lim, wf e b /\ link w = true /\ k_opened b = true /\ k_active b = true
  /\ k_request_id b = id /\ id_ok id /\ (forall id', supplied = Some id' -> id = id')
  /\ k_reader b = fresh_reader (st_encoded (k_storage b)) /\ pending b = []
  /\ k_stream b = mk_stream service id lim 0 0 true false false
  /\ limits_ok (k_storage b) (k_limits b)
  /\ sent w = sent w0 ++ [frame_wire (mk_frame service PBNS_MESSAGE_REQUEST 0 id 0) body]
  /\ delivered w = delivered w0 /\ same_storage (k_storage b0) (k_storage b).

(** An attempt that failed: nothing was done, or the session is over. *)
Definition begin_failed b w b' w' : Prop :=
  (b' = b /\ w' = w) \/ (session_over b b' w' /\ is_wiped (st_decoded (k_storage b'))).

(** From an open session to the request sent. *)
Lemma wp_request_send service supplied id body b w w0 b0 Q :
  let frame := mk_frame service PBNS_MESSAGE_REQUEST 0 id 0 in
  wf e b -> link w = true -> k_opened b = true -> k_request_id b = id -> id_ok id ->
  k_receive_offset b = 0 -> k_receive_length b = 0 ->
  (forall id', supplied = Some id' -> id = id') -> limits_ok (k_storage b) (k_limits b) ->
  service_is_valid service = true -> bytes_ok (v_data body) ->
  sent w = sent w0 -> delivered w = delivered w0 -> same_storage (k_storage b0) (k_storage b) ->
  (forall st b' w', st <> PBNS_OK -> begin_failed b0 w0 b' w' -> Q st (b', w')) ->
  (forall b' w', awaiting service supplied (v_data body) b0 w0 b' w' -> Q PBNS_OK (b', w')) ->
  wp (bindM (encode_and_send frame body) (fun status =>
      if negb (is_ok status) then bindM (finish_session false) (fun _ => retM status)
      else bindM (update (set_service service)) (fun _ =>
           bindM (update (set_active true)) (fun _ =>
           bindM (init_stream service id (control_payload_max (k_limits b))) (fun ready =>
           if negb ready
           then bindM (finish_session false) (fun _ => retM PBNS_ERR_STATE)
           else bindM reset_reader (fun _ => retM PBNS_OK)))))) Q (b, w).
Proof.
  intros frame Hwf Hlink Hop Hrid Hid Ho Hlen Hsup Hlim Hserv Hbody Hsent Hdel Hg0 Hfail Hok.
  apply wp_bind, (wp_encode_and_send e); [done|by apply id_frame_typed|done|].
  intros st s w1 Hg _ _ Hwf1 Hl1 Hd1 Hs1.
  assert (Hg1 : same_storage (k_storage b0) s) by (by eapply same_storage_trans).
  destruct (is_ok st) eqn:Eok; cbn [negb].
  2: { apply is_ok_false in Eok. apply wp_bind, wp_close; [done|cbn; congruence|].
       intros st2 b' w' Hover _ _ Hdec _. apply wp_ret, Hfail; [done|]. right. split.
       - by eapply session_over_same; [|exact Hover].
       - rewrite Hdec. apply wipe_buffer_wiped. }
  apply is_ok_spec in Eok. specialize (Hs1 Eok). apply wp_update, wp_update. unfold init_stream.
  apply wp_bind, wp_update, wp_gets, wp_ret. cbn [k_stream set_stream].
  rewrite init_stream_valid by done. cbn [s_initialized negb].
  apply wp_bind, (wp_reset_reader e); [exact Hwf1|]. apply wp_ret, Hok.
  exists id, (control_payload_max (k_limits b)). split_and!; try done; try congruence.
  - by apply (wf_fresh (set_storage s b)).
  - unfold pending, slice. cbn. by rewrite Ho, Hlen.
  - cbn. unfold limits_ok in *. destruct Hg as (G1 & _ & _ & G4).
    by rewrite (b_cap_geom _ _ G1), (b_cap_geom _ _ G4).
  - rewrite Hs1, Hsent. done.
Qed.

Lemma wp_request_begin service supplied body t b w Q :
  wf e b -> idle b -> link w = false ->
  (forall id, supplied = Some id -> id_ok id) -> bytes_ok (v_data body) ->
  (forall st b' w', st <> PBNS_OK -> begin_failed b w b' w' -> Q st (b', w')) ->
  (forall b' w', awaiting service supplied (v_data body) b w b' w' -> Q PBNS_OK (b', w')) ->
  wp (request_begin service supplied body t) Q (b, w).
Proof.
  intros Hwf Hidle Hl Hid Hbody Hfail Hok. unfold request_begin.
  destruct (_ || _); [by apply wp_ret, Hfail; [|left]|]. apply wp_gets.
  destruct (negb (k_initialized b)); [by apply wp_ret, Hfail; [|left]|].
  destruct (service_is_valid service) eqn:Hserv; cbn [negb]; [|by apply wp_ret, Hfail; [|left]].
  destruct (_ || _); [by apply wp_ret, Hfail; [|left]|].
  apply wp_prepare; [done|]. apply wp_update. destruct (prepared_ok b Hwf Hidle) as [Hwf1 Hidle1].
  replace (set_request_id zero_request_id (prepared b)) with (prepared b)
    by (destruct b; unfold idle in Hidle; cbn in *; by destruct_and? Hidle; subst).
  apply wp_bind, wp_choose_request_id; [done..| |].
  { intros st w1 Hne (Hl1 & Hs1 & Hd1). rewrite (proj2 (is_ok_false st) Hne). cbn [negb].
    apply wp_ret, Hfail; [done|]. right. apply over_prepared; try done; congruence. }
  intros id w1 Hidok Hsup (Hl1 & Hs1 & Hd1). cbn [is_ok negb]. apply wp_bind, wp_open_session; [done..|congruence| |].
  { intros st b' w' Hne Hwf' Hidle' Hl' _ _ Hst. rewrite (proj2 (is_ok_false st) Hne). cbn [negb].
    apply wp_ret, Hfail; [done|]. right. 
    destruct (over_prepared (prepared b) b' w') as [Hover Hw]; [done..|]. split; [|done].
    eapply session_over_same; [|exact Hover]. apply wipe_storage_geom. }
  intros d w2 Hl2 Hs2 Hd2. cbn [is_ok negb].
  set (b2 := set_opened _ _). assert (Hwf2 : wf e b2) by exact Hwf1.
  assert (Hclose : forall st w3, st <> PBNS_OK -> link w3 = true ->
    wp (bindM (finish_session false) (fun _ => retM st)) Q (b2, w3)).
  { intros st w3 Hne Hl3. apply wp_bind, wp_close; [done|done|]. intros st' b' w' Hover _ _ Hdec _.
    apply wp_ret, Hfail; [done|]. right. rewrite Hdec. split; [|apply wipe_buffer_wiped].
    eapply session_over_same; [|exact Hover]. apply (wipe_storage_geom false). }
  apply wp_bind, (wp_query_limits e); [done| |].
  { intros st w3 (Hl3 & _ & _) Hne. apply wp_gets. rewrite (proj2 (is_ok_false st) Hne). cbn [andb negb].
    rewrite (proj2 (is_ok_false st) Hne). apply Hclose; [done|congruence]. }
  intros l w3 (Hl3 & Hs3 & Hd3) Hlim. apply wp_gets. cbn [is_ok andb k_limits set_limits].
  destruct (_ <? _).
  { cbn [is_ok negb]. change (wp ?m Q (set_limits l b2, w3)) with (wp m Q (set_limits l b2, w3)).
    apply wp_bind, wp_close; [done|cbn; congruence|]. intros st' b' w' Hover _ _ Hdec _.
    apply wp_ret, Hfail; [done|]. right. rewrite Hdec. split; [|apply wipe_buffer_wiped].
    eapply session_over_same; [|exact Hover]. apply (wipe_storage_geom false). }
  cbn [is_ok negb].
  apply (wp_request_send service supplied id body (set_limits l b2) w3 w b); try done; try congruence.
  - unfold idle in Hidle1. cbn in *. tauto.
  - unfold idle in Hidle1. cbn in *. tauto.
  - apply (wipe_storage_geom false).
Qed.
End request.
