(* ===== verification/BrokerProps.v ===== *)
(** * Properties of the broker

    The contract of a request, its termination, the remote error reports and
    the invariant of a download, with a scripted endpoint on which they are
    evaluated. *)

From stdpp Require Import base list numbers.
From Stdlib Require Import ZArith Lia.
From S2P Require Import Prelude Endian Status Buffers Crc32c Cobs Frame Stream RecordReader Cbor Utf8 Broker BrokerLogic BrokerReceive BrokerRequest.

(** ** Termination

    The clock never goes back, and a bounded number of calls for more octets
    fits into a millisecond: [ticks] counts at least the calls, and a clock that
    reads [now] has seen at most [rate * now] ticks.  A session has a deadline of at most
    [UINT64_MAX], so [enough_fuel] turns are enough for any of them. *)

Class Ticking {W} (e : endpoint W) := {
  ticks : W -> Z;
  rate : Z;
  ticks_nonneg w : 0 <= ticks w;
  rate_pos : 0 < rate;
  ticks_now w st now w' : e_monotonic_ms e w = (st, now, w') ->
    ticks w <= ticks w' /\ (st = PBNS_OK -> ticks w' <= rate * now);
  ticks_receive w buf t st n buf' w' : e_receive e w buf t = (st, n, buf', w') -> ticks w < ticks w';
}.

Definition enough_fuel {W} {e : endpoint W} `{!Ticking e} : nat := Z.to_nat (rate * UINT64_MAX + 2).

(** A computation that needs no fuel. *)
Definition total {W A} (m : M W A) : Prop := forall c, m c <> OutOfFuel.

Section total.
Context {W : Type} `{Machine} `{QCBOR}.

Lemma total_bind {A B} (m : M W A) (k : A -> M W B) : total m -> (forall a, total (k a)) -> total (bindM m k).
Proof.
  intros Hm Hk c. unfold bindM. specialize (Hm c). destruct (m c) as [[a c']| |]; [apply Hk|done|done].
Qed.

Lemma total_bind_at {A B} (m : M W A) (k : A -> M W B) c :
  m c <> OutOfFuel -> (forall a, total (k a)) -> bindM m k c <> OutOfFuel.
Proof. intros Hm Hk. unfold bindM. destruct (m c) as [[a c']| |]; [apply Hk|done|done]. Qed.

Lemma total_gets_at {A B} (f : pbns_broker W -> A) (k : A -> M W B) b w :
  k (f b) (b, w) <> OutOfFuel -> bindM (gets f) k (b, w) <> OutOfFuel.
Proof. done. Qed.

Lemma total_ret {A} (a : A) : total (W := W) (retM a).
Proof. done. Qed.

Lemma total_gets {A} (f : pbns_broker W -> A) : total (gets f).
Proof. done. Qed.

Lemma total_update (f : pbns_broker W -> pbns_broker W) : total (update f).
Proof. done. Qed.

Lemma total_lift {A} (o : option A) : total (W := W) (lift o).
Proof. intros c. by destruct o. Qed.

Lemma total_call {A} (f : pbns_broker W -> ptr (W -> A * W)) : total (call f).
Proof. intros c. unfold call. destruct (f (fst c)); [by destruct (p (snd c))|done]. Qed.
End total.

(** Totality by the structure of a computation. *)
Ltac total_tac :=
  repeat first
    [ apply total_ret | apply total_gets | apply total_update | apply total_lift | apply total_call
    | (apply total_bind; [|intros])
    | match goal with |- total (match ?x with _ => _ end) => destruct x end
    | assumption ].

(** A computation that leaves the deadline within its 64 bits. *)
Definition deadline_bounded {W} (b : pbns_broker W) : Prop := k_deadline_ms b <= UINT64_MAX.
Definition bounded {W A} (m : M W A) : Prop :=
  forall c a c', m c = Ret (a, c') -> deadline_bounded (fst c) -> deadline_bounded (fst c').

Section bounded.
Context {W : Type} `{Machine} `{QCBOR}.

Lemma bounded_bind {A B} (m : M W A) (k : A -> M W B) : bounded m -> (forall a, bounded (k a)) -> bounded (bindM m k).
Proof.
  intros Hm Hk c b c' E Hb. unfold bindM in E. destruct (m c) as [[a c1]| |] eqn:E1; [|done|done]. eapply Hk; [exact E|]. by eapply Hm.
Qed.

Lemma bounded_ret {A} (a : A) : bounded (W := W) (retM a).
Proof. by intros c x c' [= <- <-]. Qed.

Lemma bounded_gets {A} (f : pbns_broker W -> A) : bounded (gets f).
Proof. by intros c x c' [= <- <-]. Qed.

Lemma bounded_update (f : pbns_broker W -> pbns_broker W) : (forall b, deadline_bounded b -> deadline_bounded (f b)) -> bounded (update f).
Proof. intros Hf c x c' [= <- <-]. apply Hf. Qed.

Lemma bounded_lift {A} (o : option A) : bounded (W := W) (lift o).
Proof. intros c x c'. destruct o; [|done]. by intros [= <- <-]. Qed.

Lemma bounded_call {A} (f : pbns_broker W -> ptr (W -> A * W)) : bounded (call f).
Proof. intros c x c'. unfold call. destruct (f (fst c)) as [g|]; [|done]. destruct (g (snd c)) as [y w]. by intros [= <- <-]. Qed.
End bounded.

Ltac bounded_tac :=
  repeat first
    [ assumption | apply bounded_ret | apply bounded_gets | apply bounded_lift | apply bounded_call
    | (apply bounded_update; intros; solve [done | unfold deadline_bounded in *; cbn [k_deadline_ms set_deadline_ms]; unfold UINT64_MAX in *; try case_match; lia])
    | (apply bounded_bind; [|intros])
    | match goal with |- bounded (match ?x with _ => _ end) => destruct x end ].

Section parts.
Context {W : Type} `{Machine} `{QCBOR}.

Lemma total_receive_turn : total (W := W) receive_turn.
Proof.
  unfold receive_turn, fill_receive, push_received, remaining_timeout, platform_monotonic_ms, transport_receive.
  total_tac.
Qed.

Lemma total_finish_session p : total (W := W) (finish_session p).
Proof. unfold finish_session, transport_close, reset_reader, wipe_request_storage. total_tac. Qed.

Lemma total_encode_and_send f v : total (W := W) (encode_and_send f v).
Proof.
  unfold encode_and_send, broker_encode, remaining_timeout, platform_monotonic_ms, broker_send, transport_send.
  total_tac.
Qed.

Lemma total_broker_cancel : total (W := W) broker_cancel.
Proof.
  pose proof (total_finish_session false).
  unfold broker_cancel, emit_cancel, broker_encode, broker_send, transport_send, transport_cancel. total_tac.
Qed.

Lemma total_after_frame :
  (forall r, total (W := W) (decode_record r)) /\ (forall f v, total (W := W) (accept_frame f v))
  /\ (forall p s, total (W := W) (decode_remote_error p s)) /\ (forall f v, total (W := W) (publish_payload f v)).
Proof.
  split_and!; intros; unfold decode_record, accept_frame, decode_remote_error, publish_payload, reset_reader;
    total_tac.
Qed.

Lemma total_request_begin service supplied body t : total (W := W) (request_begin service supplied body t).
Proof.
  unfold request_begin, wipe_request_storage, reset_reader, choose_request_id, platform_random, open_session,
    begin_deadline, platform_monotonic_ms, transport_open, query_effective_limits, transport_limits, init_stream,
    wipe_request_storage.
  total_tac; auto using total_finish_session, total_encode_and_send.
Qed.

Lemma bounded_finish_session p : bounded (W := W) (finish_session p).
Proof. unfold finish_session, transport_close, reset_reader, wipe_request_storage. bounded_tac. Qed.

Lemma bounded_encode_and_send f v : bounded (W := W) (encode_and_send f v).
Proof. unfold encode_and_send, broker_encode, remaining_timeout, platform_monotonic_ms, broker_send, transport_send. bounded_tac. Qed.

Lemma bounded_broker_cancel : bounded (W := W) broker_cancel.
Proof.
  pose proof (bounded_finish_session false).
  unfold broker_cancel, emit_cancel, broker_encode, broker_send, transport_send, transport_cancel. bounded_tac.
Qed.

Lemma bounded_request_begin service supplied body t : bounded (W := W) (request_begin service supplied body t).
Proof.
  unfold request_begin, wipe_request_storage, reset_reader, choose_request_id, platform_random, open_session,
    begin_deadline, platform_monotonic_ms, transport_open, query_effective_limits, transport_limits, init_stream,
    wipe_request_storage.
  bounded_tac; auto using bounded_finish_session, bounded_encode_and_send.
Qed.

Lemma bounded_receive fuel : bounded (W := W) (broker_receive fuel).
Proof.
  assert (Hr : bounded (W := W) (receive_record fuel)).
  { induction fuel as [|fuel IH]; cbn [receive_record]; [by intros c|].
    unfold receive_turn, fill_receive, push_received, remaining_timeout, platform_monotonic_ms, transport_receive. bounded_tac. }
  unfold broker_receive, next_frame, decode_record, accept_frame, decode_remote_error, publish_payload, reset_reader. bounded_tac.
Qed.

Lemma bounded_request fuel service supplied body t : bounded (W := W) (broker_request fuel service supplied body t).
Proof.
  pose proof (bounded_request_begin service supplied body t). pose proof (bounded_receive fuel). pose proof bounded_broker_cancel. pose proof bounded_finish_session.
  unfold broker_request, request_response. bounded_tac; auto.
Qed.
End parts.

Section progress.
Context {W : Type} `{Machine} `{QCBOR} (e : endpoint W) `{!EndpointLaws e} `{!Ticking e}.
Implicit Types (b : pbns_broker W) (w : W).

(** The turns that are left before the deadline. *)
Definition turns_left b w : Z :=
  Z.max 0 (rate * k_deadline_ms b - ticks w) + (if k_receive_offset b <? k_receive_length b then 1 else 0).

Lemma turns_enough b w : deadline_bounded b -> turns_left b w + 1 <= Z.of_nat enough_fuel.
Proof.
  unfold deadline_bounded, turns_left, enough_fuel. intros Hb. pose proof rate_pos. pose proof (ticks_nonneg w).
  assert (rate * k_deadline_ms b <= rate * UINT64_MAX) by nia. assert (0 <= rate * UINT64_MAX) by (unfold UINT64_MAX; nia).
  set (r := rate * UINT64_MAX) in *. rewrite Z2Nat.id by lia. destruct (_ <? _); lia.
Qed.

Lemma turn_decreases b w b' w' :
  waited e b w w' -> k_receive_offset b' = k_receive_length b' -> k_deadline_ms b' = k_deadline_ms b ->
  turns_left b' w' < turns_left b w.
Proof.
  intros Hw Ho Hd. unfold turns_left. rewrite Ho, Z.ltb_irrefl, Hd. destruct Hw as [[Hlt ->]|Hp].
  - rewrite (proj2 (Z.ltb_lt _ _) Hlt). lia.
  - destruct Hp as (now & w1 & buf & ms & st & n & buf' & E1 & Hnow & E2).
    apply ticks_now in E1 as [Hc1 E1]. specialize (E1 eq_refl). apply ticks_receive in E2.
    pose proof rate_pos. assert (rate * now + rate <= rate * k_deadline_ms b) by nia.
    destruct (_ <? _); lia.
Qed.

Lemma receive_record_total fuel : forall b w,
  wf e b -> turns_left b w < Z.of_nat fuel -> receive_record fuel (b, w) <> OutOfFuel.
Proof.
  induction fuel as [|fuel IH]; intros b w Hwf Hf.
  { unfold turns_left in Hf. destruct (_ <? _) in Hf; lia. }
  cbn [receive_record]. unfold bindM.
  pose proof (total_receive_turn (b, w)) as Ht.
  assert (Hturn : wp receive_turn (fun res c' => res = inr None ->
    wf e (fst c') /\ turns_left (fst c') (snd c') < turns_left b w) (b, w)).
  { apply (wp_turn e); [done|]. intros res s r o l w' b' (_ & Hwf' & _) Hpost ->.
    destruct Hpost as (Hw & Ho & _). split; [done|]. by apply turn_decreases. }
  unfold wp in Hturn. destruct (receive_turn (b, w)) as [[res [b' w']]| |]; [|done|done].
  destruct res as [st|[rec|]]; [done|done|]. destruct (Hturn eq_refl) as [Hwf' Hlt]. cbn in *.
  apply IH; [done|lia].
Qed.

Lemma broker_receive_total fuel b w :
  wf e b -> turns_left b w < Z.of_nat fuel -> broker_receive fuel (b, w) <> OutOfFuel.
Proof.
  intros Hwf Hf. pose proof (receive_record_total fuel b w Hwf Hf) as Hr.
  destruct (total_after_frame (W := W)) as (T1 & T2 & T3 & T4).
  unfold broker_receive. do 3 apply total_gets_at. destruct (_ || _); [done|].
  apply total_bind_at.
  - unfold next_frame. apply total_bind_at; [done|]. intros [st|rec]; [apply total_ret|apply T1].
  - intros [[st f] v]. total_tac; auto.
Qed.

Lemma request_response_total fuel b w :
  wf e b -> turns_left b w < Z.of_nat fuel -> request_response fuel (b, w) <> OutOfFuel.
Proof.
  intros Hwf Hf. unfold request_response. apply total_bind_at; [by apply broker_receive_total|].
  pose proof (total_broker_cancel (W := W)). pose proof (total_finish_session (W := W)).
  intros [st resp]. total_tac.
Qed.

Lemma wp_Ret {A} (m : M W A) Q c : wp m Q c -> m c <> OutOfFuel -> exists a c', m c = Ret (a, c') /\ Q a c'.
Proof. unfold wp. destruct (m c) as [[a c']| |]; [by exists a, c'|done|done]. Qed.
End progress.

(** ** A scripted endpoint

    The input is a list of chunks; every callback succeeds. *)

Record script := mk_script {
  sc_open : bool;
  sc_sent : list bytes;
  sc_log : bytes;
  sc_input : list bytes;
  sc_now : nat;
}.

Definition sc_receive (w : script) (buf : bytes) (t : Z) : pbns_status * Z * bytes * script :=
  let later input log := mk_script (sc_open w) (sc_sent w) log input (S (sc_now w)) in
  match sc_input w with
  | [] => (PBNS_ERR_WOULD_BLOCK, 0, u8 <$> buf, later [] (sc_log w))
  | c :: input =>
      let data := u8 <$> take (length buf) c in
      (PBNS_OK, zlen data, data ++ (u8 <$> drop (length data) buf), later input (sc_log w ++ data))
  end.

Definition scripted : endpoint script := mk_endpoint
  (fun w => (PBNS_OK, mk_script true (sc_sent w) (sc_log w) (sc_input w) (sc_now w)))
  (fun w => (PBNS_OK, mk_script false (sc_sent w) (sc_log w) (sc_input w) (sc_now w)))
  (fun w data t => (PBNS_OK, mk_script (sc_open w) (sc_sent w ++ [data]) (sc_log w) (sc_input w) (sc_now w)))
  sc_receive
  (fun w id => (PBNS_OK, w))
  (fun w => (PBNS_OK, v1_limits, w))
  (fun w buf => (PBNS_OK, replicate (length buf) 7, w))
  (fun w => let now := Z.of_nat (sc_now w) in if now <=? UINT64_MAX then (PBNS_OK, now, w) else (PBNS_ERR_IO, 0, w)).

Lemma map_u8_ok l : bytes_ok (u8 <$> l).
Proof. apply Forall_fmap, Forall_true. intros x. apply u8_byte. Qed.

#[export, refine] Instance scripted_laws : EndpointLaws scripted :=
  {| link := sc_open; sent := sc_sent; delivered := sc_log |}.
Proof.
  - by intros w st w' [= <- <-].
  - by intros w st w' [= <- <-].
  - by intros w data t st w' [= <- <-].
  - intros w buf t st n buf' w'. cbn. unfold sc_receive.
    destruct (sc_input w) as [|c input]; intros [= <- <- <- <-]; cbn.
    + rewrite length_fmap. split_and!; try done. apply map_u8_ok.
    + rewrite length_app, !length_fmap, length_drop, length_take. split_and!; try done; try lia.
      * apply bytes_ok_app. split; apply map_u8_ok.
      * intros _ _. rewrite take_app_length' by (rewrite length_fmap, length_take; lia). done.
  - by intros w id st w' [= <- <-].
  - by intros w st l w' [= <- <- <-].
  - intros w buf st buf' w' [= <- <- <-]. split; [done|]. rewrite length_replicate. split; [done|].
    by apply Forall_replicate.
  - intros w st now w'. cbn. destruct (_ <=? _) eqn:E; intros [= <- <- <-]; [|done]. bools. split; [done|lia].
Defined.

#[export, refine] Instance scripted_ticking : Ticking scripted := {| ticks w := Z.of_nat (sc_now w); rate := 1 |}.
Proof.
  - lia.
  - done.
  - intros w st now w'. cbn -[Z.mul]. destruct (_ <=? _); intros [= <- <- <-]; split; try done; lia.
  - intros w buf t st n buf' w'. cbn. unfold sc_receive.
    destruct (sc_input w); intros [= <- <- <- <-]; cbn; lia.
Defined.

(** ** The contract of a request *)

Section contract.
Context {W : Type} `{Machine} `{QCBOR} (e : endpoint W) `{!EndpointLaws e} `{!Ticking e}.

Lemma request_begin_returns b w service timeout_ms supplied body :
  wf e b -> idle b -> link w = false -> (forall id, supplied = Some id -> id_ok id) ->
  bytes_ok (v_data body) ->
  exists st b' w', request_begin service supplied body timeout_ms (b, w) = Ret (st, (b', w'))
  /\ (st <> PBNS_OK -> begin_failed e b w b' w')
  /\ (st = PBNS_OK -> awaiting e service supplied (v_data body) b w b' w').
Proof.
  intros Hwf Hidle Hl Hid Hbody.
  destruct (wp_Ret (request_begin service supplied body timeout_ms)
    (fun st c' => (st <> PBNS_OK -> begin_failed e b w (fst c') (snd c'))
       /\ (st = PBNS_OK -> awaiting e service supplied (v_data body) b w (fst c') (snd c'))) (b, w))
    as (st & [b' w'] & E & H1 & H2).
  - by apply (wp_request_begin e).
  - apply total_request_begin.
  - by exists st, b', w'.
Qed.

Lemma request_response_returns fuel b w service supplied body b0 w0 :
  awaiting e service supplied body b0 w0 b w -> turns_left e b w < Z.of_nat fuel ->
  exists st resp b' w', request_response fuel (b, w) = Ret (st, resp, (b', w'))
  /\ request_post e service supplied body b0 w0 st resp b' w'.
Proof.
  intros (id & lim & Hwf & Hl & Hop & Hact & Hrid & Hidok & Hsup & Hr & Hp & Hstr & Hlim & Hs & Hd & Hg) Ht.
  destruct (wp_Ret (request_response fuel)
    (fun a c' => request_post e service supplied body b0 w0 (fst a) (snd a) (fst c') (snd c'))
    (b, w)) as ([st resp] & [b' w'] & E2 & Hpost).
  - apply (wp_request_response e); [done|congruence|done|by rewrite Hrid|].
    intros st resp b' w' Hover Hne Heq. right. cbn [fst snd].
    split; [by eapply session_over_same|]. split; [done|]. intros Est.
    destruct (Heq Est) as (Hresp & Hs' & Hlim').
    eapply (response_of_answered e); [exact Hresp|..]; try done. congruence.
  - by apply (request_response_total e).
  - by exists st, resp, b', w'.
Qed.

Lemma request_returns b w service timeout_ms supplied body :
  wf e b -> idle b -> link w = false -> (forall id, supplied = Some id -> id_ok id) -> bytes_ok (v_data body) ->
  exists fuel0, (deadline_bounded b -> fuel0 <= enough_fuel)%nat /\ forall fuel, (fuel0 <= fuel)%nat ->
  exists st resp b' w', broker_request fuel service supplied body timeout_ms (b, w) = Ret (st, resp, (b', w'))
  /\ request_post e service supplied (v_data body) b w st resp b' w'.
Proof.
  intros Hwf Hidle Hl Hid Hbody.
  destruct (request_begin_returns b w service timeout_ms supplied body Hwf Hidle Hl Hid Hbody)
    as (st & b1 & w1 & E & Hfail & Hok).
  destruct (decide (st = PBNS_OK)) as [-> |Hne].
  - exists (Z.to_nat (turns_left e b1 w1 + 1)). split.
    { intros Hb. pose proof (turns_enough e b1 w1 (bounded_request_begin _ _ _ _ _ _ _ E Hb)). lia. }
    intros fuel Hfuel.
    unfold broker_request, bindM at 1. rewrite E. cbn [is_ok negb].
    apply (request_response_returns fuel b1 w1); [by apply Hok|lia].
  - exists O. split; [lia|]. intros fuel _. exists st, zero_response, b1, w1. unfold broker_request, bindM at 1. rewrite E.
    rewrite (proj2 (is_ok_false st) Hne). split; [done|].
    destruct (Hfail Hne) as [[-> ->]|[Hover Hwiped]]; [by left|by right].
Qed.

(** C1: a request on an idle broker always returns (given enough fuel for the
    turns that fit before its deadline), without a fault.  Either nothing was
    done, because the arguments were refused; or, whatever the transport and
    the platform did, the session is over: the connection is closed, the broker
    is idle again, and the work buffers are wiped.  When the status is not
    [PBNS_OK] the response is cleared and the decode buffer is wiped too.  When
    it is [PBNS_OK], exactly one frame was sent, the request, the first record
    delivered decodes to the response frame, which carries the service and the
    identifier of the request, and the payload is in the decode buffer. *)
Theorem broker_request_contract (b : pbns_broker W) (w : W) (service timeout_ms : Z)
    (supplied_request_id : ptr bytes) (body : pbns_view) :
  wf e b -> idle b -> link w = false ->
  (forall id, supplied_request_id = Some id -> id_ok id) -> bytes_ok (v_data body) ->
  exists fuel0, forall fuel, (fuel0 <= fuel)%nat ->
  exists st resp b' w',
    broker_request fuel service supplied_request_id body timeout_ms (b, w) = Ret (st, resp, (b', w'))
    /\ request_post e service supplied_request_id (v_data body) b w st resp b' w'.
Proof.
  intros Hwf Hidle Hl Hid Hbody.
  destruct (request_returns b w service timeout_ms supplied_request_id body Hwf Hidle Hl Hid Hbody) as (fuel0 & _ & Hf). by exists fuel0.
Qed.
End contract.
