(* ===== verification/BrokerBulk.v ===== *)
(** * Downloads and initialisation

    A download is a sequence of calls; its invariant relates the counters of the
    broker to the payloads handed out so far. *)

From stdpp Require Import base list numbers.
From Stdlib Require Import ZArith Lia.
From S2P Require Import Prelude Endian Status Buffers Crc32c Cobs Frame Stream RecordReader Cbor Utf8 Broker BrokerLogic BrokerReceive BrokerRequest BrokerProps.

Section bulk.
Context {W : Type} `{Machine} `{QCBOR} (e : endpoint W) `{!EndpointLaws e}.
Implicit Types (b : pbns_broker W) (s : pbns_broker_storage) (w : W).

(** A download that goes on: [got] are the payloads handed out. *)
Definition bulk_live (exact : Z) b (got : list bytes) : Prop :=
  wf e b /\ k_active b = true /\ k_bulk_mode b = true /\ k_bulk_failed b = false
  /\ k_bulk_exact b = exact /\ k_bulk_received b = zlen (concat got)
  /\ zlen (concat got) <= exact <= UINT64_MAX
  /\ k_reader b = fresh_reader (st_encoded (k_storage b))
  /\ stream_inv (k_stream b) /\ s_initialized (k_stream b) = true /\ s_failed (k_stream b) = false
  /\ s_byte_limit (k_stream b) = UINT64_MAX /\ s_total_bytes (k_stream b) = zlen (concat got)
  /\ s_next_sequence (k_stream b) = zlen got
  /\ (s_complete (k_stream b) = true -> zlen (concat got) = exact)
  /\ id_ok (k_request_id b).

(** A download that failed: no call but a cancellation changes it. *)
Definition bulk_dead b : Prop :=
  wf e b /\ k_active b = true /\ k_bulk_mode b = true /\ k_bulk_failed b = true.

Definition bulk_inv (exact : Z) b (got : list bytes) : Prop := bulk_live exact b got \/ bulk_dead b.

Lemma wp_fail_bulk {A} (k : pbns_status -> A) st b w Q :
  wf e b -> k_active b = true -> k_bulk_mode b = true ->
  (forall b', bulk_dead b' -> k_opened b' = k_opened b -> Q (k st) (b', w)) ->
  wp (bindM (fail_bulk_session st) (fun status => retM (k status))) Q (b, w).
Proof.
  intros Hwf Ha Hm HQ. unfold fail_bulk_session. apply wp_bind, wp_update, wp_update, wp_ret, wp_ret, HQ; done.
Qed.

(** A response of a download. *)
Definition bulk_response b w (resp : pbns_broker_response) b' w' : Prop :=
  record_of e b w b' w' (rs_frame resp) (v_data (rs_payload resp))
  /\ (f_type (rs_frame resp) = PBNS_MESSAGE_DATA \/ f_type (rs_frame resp) = PBNS_MESSAGE_COMPLETE)
  /\ f_service (rs_frame resp) = s_service (k_stream b)
  /\ f_request_id (rs_frame resp) = s_request_id (k_stream b)
  /\ f_sequence (rs_frame resp) = s_next_sequence (k_stream b)
  /\ response_live (k_storage b') resp.

Lemma advanced_fields str n t :
  s_initialized (advanced str n t) = s_initialized str /\ s_failed (advanced str n t) = s_failed str
  /\ s_byte_limit (advanced str n t) = s_byte_limit str
  /\ s_total_bytes (advanced str n t) = s_total_bytes str + n
  /\ s_next_sequence (advanced str n t) = s_next_sequence str + 1 /\ s_complete (advanced str n t) = t.
Proof. done. Qed.

Lemma concat_snoc_length (got : list bytes) x : zlen (concat (got ++ [x])) = zlen (concat got) + zlen x.
Proof. rewrite concat_app. cbn [concat]. rewrite app_nil_r. llia. Qed.

(** The payload of an accepted frame is handed out. *)
Lemma wp_bulk_publish exact b got s r o l f v w w1 Q :
  let b1 := touched b s r o l in
  let str := advanced (k_stream b) (v_len v) (terminal_type (f_type f)) in
  let total := zlen (concat got) + v_len v in
  bulk_live exact b got -> wf e b1 -> r = fresh_reader (st_encoded s) -> link w1 = link w -> sent w1 = sent w ->
  message_ok (k_stream b) f v -> record_of e b w b1 w1 f (v_data v) -> total <= exact ->
  (f_type f = PBNS_MESSAGE_DATA \/ f_type f = PBNS_MESSAGE_COMPLETE /\ total = exact) ->
  (forall st b' w', st <> PBNS_OK -> bulk_dead b' -> k_opened b' = k_opened b -> link w' = link w ->
    sent w' = sent w -> Q (st, zero_response) (b', w')) ->
  (forall resp b' w', bulk_live exact b' (got ++ [v_data (rs_payload resp)]) ->
    k_opened b' = k_opened b -> link w' = link w -> sent w' = sent w ->
    k_bulk_next_ack b' = k_bulk_next_ack b -> bulk_response b w resp b' w' ->
    Q (PBNS_OK, resp) (b', w')) ->
  wp (bindM (publish_payload f v) (fun x => let '(status, response) := x in
        if negb (is_ok status) then bindM (fail_bulk_session status) (fun st => retM (st, zero_response))
        else retM (status, response))) Q (set_bulk_received total (set_stream str b1), w1).
Proof.
  intros b1 str total Hlive Hwf1 Hfresh Hl1 Hs1 Hmsg Hrecord Hle2 Hty Hfail Hok.
  destruct Hlive as (_ & Hact & Hmode & Hnf & Hex & Hrec & Hle & _ & Hsi & Hini & Hsf & Hlim & Htot & Hnext & _ & Hid).
  apply wp_bind, (wp_publish e); [exact Hwf1|]. intros st4 resp s4 Eo Hg4 Hne4 Heq4.
  destruct (only_decoded_ok (k_storage b1) s4 ltac:(apply Hwf1) Eo Hg4) as [Hg4' Hok4].
  pose proof (wf_set_storage e b1 s4 Hwf1 Hg4' Hok4) as Hwf4.
  destruct (is_ok st4) eqn:Eok4; cbn [negb].
  2: { apply is_ok_false in Eok4. apply wp_fail_bulk; [exact Hwf4|done|done|]. intros b' Hd Hop. by apply Hfail. }
  apply is_ok_spec in Eok4 as ->. destruct (Heq4 eq_refl) as (Ef & Ev & Hresp). apply wp_ret, Hok; try done.
  - unfold bulk_live. rewrite concat_snoc_length, Ev. fold (v_len v). fold total.
    destruct (advanced_fields (k_stream b) (v_len v) (terminal_type (f_type f))) as (F1 & F2 & F3 & F4 & F5 & F6).
    change (k_stream (set_storage _ _)) with str. fold str in F1, F2, F3, F4, F5, F6.
    rewrite F1, F2, F3, F4, F5, F6. split_and!; try done; try (unfold total in *; lia).
    + change (r = fresh_reader (st_encoded s4)). rewrite Hfresh. symmetry. apply fresh_reader_geom, Hg4'.
    + by apply advanced_inv with f.
    + rewrite Hnext. llia.
    + destruct Hty as [-> |[_ Et]]; [done|]. intros _. unfold total in *. lia.
  - unfold bulk_response. rewrite Ef, Ev. destruct Hmsg as (? & ? & _ & ? & _).
    split_and!; try done; [|tauto].
    eapply record_of_pending; [exact Hrecord| |done]. unfold pending. cbn. by rewrite Eo.
Qed.

Lemma complete_is_empty str f v :
  message_ok str f v -> f_type f = PBNS_MESSAGE_COMPLETE -> v_len v = 0.
Proof.
  intros (_ & _ & _ & _ & _ & [Hlen _] & _) E. rewrite E in Hlen. unfold validate_payload_length in Hlen.
  cbn in Hlen. unfold v_len. destruct (Z.eqb_spec (zlen (v_data v)) 0); done.
Qed.

Lemma wp_bulk_receive fuel exact b w got Q :
  bulk_live exact b got -> s_complete (k_stream b) = false ->
  (forall st b' w', st <> PBNS_OK -> bulk_dead b' -> k_opened b' = k_opened b -> link w' = link w ->
    sent w' = sent w -> Q (st, zero_response) (b', w')) ->
  (forall resp b' w', bulk_live exact b' (got ++ [v_data (rs_payload resp)]) ->
    k_opened b' = k_opened b -> link w' = link w -> sent w' = sent w ->
    k_bulk_next_ack b' = k_bulk_next_ack b -> bulk_response b w resp b' w' ->
    Q (PBNS_OK, resp) (b', w')) ->
  wp (broker_bulk_receive fuel) Q (b, w).
Proof.
  intros Hlive Hcomp Hfail Hok.
  pose proof Hlive as (Hwf & Hact & Hmode & Hnf & Hex & Hrec & Hle & _ & Hsi & Hini & Hsf & _).
  unfold broker_bulk_receive. apply wp_gets. pose proof Hwf as (_ & _ & -> & _).
  rewrite Hact, Hmode, Hnf, Hcomp. cbn [negb orb].
  apply wp_bind, (wp_next_frame e); [done|]. intros st f v s r o l w1 b1 Hg Hwf1 Hl1 Hs1 Hv Hvalid Hst.
  (* every failure ends in a dead session *)
  assert (Hdead : forall st b2, st <> PBNS_OK -> wf e b2 -> k_active b2 = true -> k_bulk_mode b2 = true ->
    k_opened b2 = k_opened b ->
    wp (bindM (fail_bulk_session st) (fun st => retM (st, zero_response))) Q (b2, w1)).
  { intros st' b2 Hne Hwf2 Ha2 Hm2 Hop2. apply wp_fail_bulk; [done..|]. intros b' Hd Hop. apply Hfail; congruence || done. }
  destruct (is_ok st) eqn:Eok; cbn [negb]; [|by apply is_ok_false in Eok; apply Hdead].
  apply is_ok_spec in Eok as ->. destruct (Hst eq_refl) as [Hrecord Hfresh].
  destruct (_ && _) eqn:Ety; [by apply Hdead|].
  apply wp_bind, wp_accept_frame; [done..|]. intros st2 str Eacc _.
  destruct (is_ok st2) eqn:Eok2; cbn [negb]; [|by apply is_ok_false in Eok2; apply Hdead].
  apply is_ok_spec in Eok2 as ->.
  destruct (stream_accept_outcome (k_stream b) f v Hsi Hini Hcomp Hsf Hvalid Hv) as [[Hmsg E]|[_ (st & E & Hne)]];
    change (k_stream b1) with (k_stream b) in Eacc; rewrite E in Eacc; [injection Eacc as <-|by injection Eacc].
  destruct (Z.eqb_spec (f_type f) PBNS_MESSAGE_ERROR) as [E5|N5].
  { apply wp_gets, wp_bind, (wp_decode_remote_error e); [exact Hwf1|]. intros st3 s3 Eo Hg3 Hpost.
    destruct (only_decoded_ok (k_storage b1) s3 ltac:(apply Hwf1) Eo Hg3) as [Hg3' Hok3].
    apply Hdead; try done; [by eapply error_post_not_ok|]. exact (wf_set_storage e b1 s3 Hwf1 Hg3' Hok3). }
  unfold bulk_account. apply wp_bind, wp_gets, wp_gets. set (str := advanced _ _ _).
  change (k_bulk_received (set_stream str b1)) with (k_bulk_received b).
  change (k_bulk_exact (set_stream str b1)) with (k_bulk_exact b). rewrite Hex, Hrec.
  assert (Hvl : 0 <= v_len v) by (unfold v_len; lia).
  destruct (Z.eqb_spec (f_type f) PBNS_MESSAGE_DATA) as [E3|N3].
  - destruct (v_len v =? 0); [by apply wp_ret, Hdead|]. destruct (_ || _) eqn:Eb; [by apply wp_ret, Hdead|].
    bools. apply wp_update, wp_ret. cbn [is_ok negb]. rewrite u64_small by lia.
    eapply wp_bulk_publish; try done; [lia|by left].
  - destruct (Z.eqb_spec (zlen (concat got)) exact) as [Eex|]; cbn [negb]; [|by apply wp_ret, Hdead].
    apply wp_ret. cbn [is_ok negb].
    assert (E7 : f_type f = PBNS_MESSAGE_COMPLETE).
    { cbn [negb andb] in Ety. rewrite andb_true_r in Ety. by apply negb_false_iff, Z.eqb_eq in Ety. }
    pose proof (complete_is_empty _ _ _ Hmsg E7) as Ev.
    replace (set_stream str b1) with (set_bulk_received (zlen (concat got) + v_len v) (set_stream str b1))
      by (rewrite Ev, Z.add_0_r, <- Hrec; by destruct b).
    eapply wp_bulk_publish; try done; [lia|]. right. split; [done|lia].
Qed.

(** The payload of an acknowledgement. *)
Definition ack_payload (next window : Z) : bytes := be_bytes 4 next ++ be_bytes 4 window.

Lemma ack_payload_written next window :
  (write_u32_be (replicate 8 0) 0 next ≫= fun p => write_u32_be p 4 window) = Some (ack_payload next window).
Proof.
  unfold ack_payload, write_u32_be.
  rewrite (wr_list_splice (replicate 8 0)) by (rewrite ?u32_octets_length; cbn; lia).
  cbn [mbind option_bind]. rewrite wr_list_splice.
  - done.
  - lia.
  - rewrite splice_length by (rewrite ?u32_octets_length; cbn; lia). rewrite u32_octets_length. cbn. lia.
Qed.

Lemma ack_payload_ok n m : bytes_ok (ack_payload n m).
Proof. unfold ack_payload. apply bytes_ok_app. auto with pbns. Qed.

(** The acknowledgement of a window, from a live download. *)
Lemma wp_bulk_ack exact p next window b w got Q :
  bulk_live exact b got -> 0 <= k_bulk_next_ack b <= UINT32_MAX ->
  (forall st, st = PBNS_ERR_STATE \/ st = PBNS_ERR_ARGUMENT -> Q st (b, w)) ->
  (forall st b' w', st <> PBNS_OK -> bulk_dead b' -> k_opened b' = k_opened b -> link w' = link w ->
    Q st (b', w')) ->
  (forall b' w', bulk_live exact b' got -> k_opened b' = k_opened b -> link w' = link w ->
    delivered w' = delivered w -> window = 8 -> next = 8 * (k_bulk_next_ack b + 1) -> next = zlen got ->
    k_bulk_next_ack b' = k_bulk_next_ack b + 1 ->
    sent w' = sent w ++ [frame_wire (mk_frame (k_service b) PBNS_MESSAGE_ACK 0 (k_request_id b)
                                      (k_bulk_next_ack b)) (ack_payload next 8)] ->
    Q PBNS_OK (b', w')) ->
  wp (broker_bulk_ack p next window) Q (b, w).
Proof.
  intros Hlive Hack Hno Hfail Hok.
  pose proof Hlive as (Hwf & Hact & Hmode & Hnf & Hex & Hrec & Hle & Hrd & Hsi & Hini & Hsf & Hlim & Htot & Hnext & Hcomp & Hid).
  unfold broker_bulk_ack. apply wp_gets. destruct (_ || _); [by apply wp_ret, Hno; left|].
  destruct (_ || _) eqn:Eb; [by apply wp_ret, Hno; right|].
  rewrite !orb_false_iff, !negb_false_iff, !Z.eqb_eq, !Z.eqb_neq in Eb. unfold PBNS_BROKER_BULK_WINDOW in Eb.
  destruct Eb as ((((Hn0 & Hn1) & Hn2) & ->) & Hn3).
  assert (Hdead : forall st b2 w2, st <> PBNS_OK -> wf e b2 -> k_active b2 = true -> k_bulk_mode b2 = true ->
    k_opened b2 = k_opened b -> link w2 = link w -> wp (fail_bulk_session st) Q (b2, w2)).
  { intros st b2 w2 Hne Hwf2 Ha2 Hm2 Hop2 Hl2. unfold fail_bulk_session. apply wp_update, wp_update, wp_ret, Hfail; done. }
  apply wp_bind, (wp_remaining_timeout e); [done|]. intros st ms w1 (Hl1 & Hs1 & Hd1) _.
  destruct (is_ok st) eqn:Eok; cbn [negb]; [|by apply is_ok_false in Eok; apply Hdead].
  pose proof (ack_payload_written next 8) as Hpay.
  destruct (write_u32_be (replicate 8 0) 0 next) as [p1|] eqn:Ep1; [|done]. cbn [mbind option_bind] in Hpay.
  apply wp_bind. eapply wp_lift; [reflexivity|]. apply wp_bind. eapply wp_lift; [exact Hpay|].
  apply wp_bind, (wp_broker_encode e); [done|by apply id_frame_typed|apply ack_payload_ok|].
  intros st2 n s Hg _ _ Hwf2 Hn Hw. cbn [v_data] in Hw.
  apply wp_bind. destruct (is_ok st2) eqn:Eok2.
  2: { apply wp_ret. rewrite Eok2. cbn [negb]. apply is_ok_false in Eok2. by apply Hdead. }
  apply is_ok_spec in Eok2. apply (wp_broker_send e); [done..|]. intros st3 w3 Hl3 Hd3 Hs3.
  destruct (is_ok st3) eqn:Eok3; cbn [negb].
  2: { apply is_ok_false in Eok3. apply Hdead; try done. congruence. }
  apply is_ok_spec in Eok3. apply wp_update, wp_ret.
  assert (Hu : u32 (k_bulk_next_ack b + 1) = k_bulk_next_ack b + 1) by (apply u32_small; lia).
  apply Hok; try done; try congruence; try lia.
  - unfold bulk_live. split_and!; try done; try lia.
    change (k_reader b = fresh_reader (st_encoded s)). rewrite Hrd. symmetry. apply fresh_reader_geom, Hg.
  - rewrite Hs3 by done. rewrite Hs1. do 3 f_equal. by apply Hw.
Qed.

(** ** Beginning a session *)

(** The session is open and nothing was sent. *)
Definition opened_state (id : bytes) b w b2 w2 : Prop :=
  wf e b2 /\ k_opened b2 = true /\ k_active b2 = false /\ k_receive_offset b2 = 0 /\ k_receive_length b2 = 0
  /\ k_bulk_received b2 = 0 /\ k_bulk_next_ack b2 = 0 /\ k_bulk_failed b2 = false /\ k_bulk_mode b2 = false
  /\ k_reader b2 = fresh_reader (st_encoded (k_storage b2)) /\ k_request_id b2 = id
  /\ same_storage (k_storage b) (k_storage b2) /\ link w2 = true /\ sent w2 = sent w
  /\ delivered w2 = delivered w.

Lemma wp_open_query {A} id t (wipe : bool) (f : pbns_status -> A) (K : pbns_status -> pbns_frame_limits -> M W A)
    b w Q :
  wf e b -> idle b -> link w = false ->
  (forall st b' w', st <> PBNS_OK -> begin_failed e b w b' w' -> Q (f st) (b', w')) ->
  (forall st l b2 w2, st <> PBNS_OK -> opened_state id b w b2 w2 -> wp (K st l) Q (b2, w2)) ->
  (forall b2 w2, opened_state id b w b2 w2 -> limits_ok (k_storage b2) (k_limits b2) ->
    wp (K PBNS_OK (k_limits b2)) Q (b2, w2)) ->
  wp (bindM (open_session id t wipe) (fun st =>
      if negb (is_ok st) then retM (f st)
      else bindM query_effective_limits (fun st => bindM (gets k_limits) (K st)))) Q (prepared b, w).
Proof.
  intros Hwf Hidle Hl Hfail Hclose Hok. destruct (prepared_ok e b Hwf Hidle) as [Hwf1 Hidle1].
  apply wp_bind, (wp_open_session e); [done..| |].
  { intros st b' w' Hne Hwf' Hidle' Hl' _ _ Hst. rewrite (proj2 (is_ok_false st) Hne). cbn [negb].
    apply wp_ret, Hfail; [done|]. right.
    assert (Hs : same_storage (k_storage b) (k_storage b') /\ scrubbed (k_storage b')
                 /\ is_wiped (st_decoded (k_storage b'))).
    { rewrite Hst. pose proof (wipe_storage_geom false (k_storage b)) as G1.
      pose proof (wipe_storage_geom false (wipe_storage false (k_storage b))) as G2.
      destruct wipe; cbn [k_storage prepared set_reader set_storage];
        (split; [first [by eapply same_storage_trans|done]|split; [apply wipe_storage_scrubbed|apply wipe_buffer_wiped]]). }
    unfold session_over. tauto. }
  intros d w2 Hl2 Hs2 Hd2. cbn [is_ok negb]. set (b2 := set_opened _ _).
  assert (Hst : forall b3 w3, quiet e w2 w3 -> (b3 = b2 \/ exists l, b3 = set_limits l b2) ->
    opened_state id b w b3 w3).
  { intros b3 w3 (Q1 & Q2 & Q3) E. unfold idle in Hidle1. cbn in Hidle1.
    pose proof (wipe_storage_geom false (k_storage b)) as G.
    destruct E as [-> |[l ->]]; unfold opened_state; split_and!; try tauto; try congruence; exact Hwf1. }
  apply wp_bind, (wp_query_limits e); [exact Hwf1| |].
  - intros st w3 Hq Hne. apply wp_gets, Hclose; [done|]. apply Hst; auto.
  - intros l w3 Hq Hlim. apply wp_gets, Hok; [|done]. apply Hst; eauto.
Qed.

Lemma wp_bulk_begin service id body exact t b w Q :
  wf e b -> idle b -> link w = false -> id_ok id -> bytes_ok (v_data body) -> 0 <= exact <= UINT64_MAX ->
  (forall st b' w', st <> PBNS_OK -> begin_failed e b w b' w' -> Q st (b', w')) ->
  (forall b' w', bulk_live exact b' [] -> k_opened b' = true -> link w' = true -> k_bulk_next_ack b' = 0 ->
    s_complete (k_stream b') = false -> s_service (k_stream b') = service -> s_request_id (k_stream b') = id ->
    sent w' = sent w ++ [frame_wire (mk_frame service PBNS_MESSAGE_REQUEST 0 id 0) (v_data body)] ->
    delivered w' = delivered w -> pending b' = [] -> Q PBNS_OK (b', w')) ->
  wp (broker_bulk_begin service id body exact t) Q (b, w).
Proof.
  intros Hwf Hidle Hl Hid Hbody Hex Hfail Hok. unfold broker_bulk_begin.
  destruct (_ || _); [by apply wp_ret, Hfail; [|left]|]. apply wp_gets.
  destruct (negb (k_initialized b)); [by apply wp_ret, Hfail; [|left]|].
  destruct (service_is_valid service) eqn:Hserv; cbn [negb]; [|by apply wp_ret, Hfail; [|left]].
  destruct (_ || _); [by apply wp_ret, Hfail; [|left]|].
  apply (wp_prepare e); [done|].
  assert (Hclose : forall st b2 w2, st <> PBNS_OK -> wf e b2 -> link w2 = k_opened b2 ->
    same_storage (k_storage b) (k_storage b2) ->
    wp (bindM (finish_session false) (fun _ => retM st)) Q (b2, w2)).
  { intros st b2 w2 Hne Hwf2 Hl2 Hg2. apply wp_bind, (wp_close e); [done..|].
    intros st' b' w' Hover _ _ Hdec _. apply wp_ret, Hfail; [done|]. right. rewrite Hdec.
    split; [by eapply session_over_same|apply wipe_buffer_wiped]. }
  apply (wp_open_query id t true (fun st => st)); [done..| |].
  { intros st l b2 w2 Hne Ho. rewrite (proj2 (is_ok_false st) Hne). cbn [andb negb].
    rewrite (proj2 (is_ok_false st) Hne). destruct Ho as (? & ? & _ & _ & _ & _ & _ & _ & _ & _ & _ & ? & ? & _).
    apply Hclose; try done. congruence. }
  intros b2 w2 Ho Hlim.
  destruct Ho as (Hwf2 & Hop2 & _ & Ho2 & Hln2 & Hrec2 & Hack2 & Hbf2 & _ & Hrd2 & Hrid2 & Hg2 & Hl2 & Hs2 & Hd2).
  cbn [is_ok andb]. destruct (_ || _); cbn [is_ok negb]; [apply Hclose; try done; congruence|].
  apply wp_bind, (wp_encode_and_send e); [done|by apply id_frame_typed|done|].
  intros st s w3 Hg3 _ _ Hwf3 Hl3 Hd3 Hs3.
  assert (Hg : same_storage (k_storage b) s) by (by eapply same_storage_trans).
  destruct (is_ok st) eqn:Eok; cbn [negb].
  2: { apply is_ok_false in Eok. apply Hclose; try done. cbn. congruence. }
  apply is_ok_spec in Eok. specialize (Hs3 Eok).
  do 4 apply wp_update. unfold init_stream. apply wp_bind, wp_update, wp_gets, wp_ret. cbn [k_stream set_stream].
  rewrite init_stream_valid by done. cbn [s_initialized negb]. apply wp_ret, Hok; try done; try congruence.
  - unfold bulk_live. cbn [concat length]. split_and!; try done; try lia.
    + change (k_reader b2 = fresh_reader (st_encoded s)). rewrite Hrd2. symmetry. apply fresh_reader_geom, Hg3.
    + change (id_ok (k_request_id b2)). by rewrite Hrid2.
  - unfold pending, slice. cbn. by rewrite Ho2, Hln2.
Qed.

(** ** Runs of a download *)

(** The states reached from [c0] by calls of [pbns_broker_bulk_receive] and
    [pbns_broker_bulk_ack], in any order and with any arguments: [got] are the
    payloads returned with success, [acks] the sequence numbers acknowledged
    with success. *)
Inductive bulk_reach (c0 : cfg W) : cfg W -> list bytes -> list Z -> Prop :=
| reach_begin : bulk_reach c0 c0 [] []
| reach_receive fuel c c' got acks resp :
    bulk_reach c0 c got acks -> broker_bulk_receive fuel c = Ret (PBNS_OK, resp, c') ->
    bulk_reach c0 c' (got ++ [v_data (rs_payload resp)]) acks
| reach_receive_failed fuel c c' got acks st resp :
    bulk_reach c0 c got acks -> broker_bulk_receive fuel c = Ret (st, resp, c') -> st <> PBNS_OK ->
    bulk_reach c0 c' got acks
| reach_ack p next window c c' got acks :
    bulk_reach c0 c got acks -> broker_bulk_ack p next window c = Ret (PBNS_OK, c') ->
    bulk_reach c0 c' got (acks ++ [next])
| reach_ack_failed p next window c c' got acks st :
    bulk_reach c0 c got acks -> broker_bulk_ack p next window c = Ret (st, c') -> st <> PBNS_OK ->
    bulk_reach c0 c' got acks.

(** The acknowledged sequence numbers are the multiples of the window. *)
Definition windows (n : nat) : list Z := (fun i => 8 * (Z.of_nat i + 1)) <$> seq 0 n.

Lemma windows_S n : windows (S n) = windows n ++ [8 * (Z.of_nat n + 1)].
Proof. unfold windows. rewrite seq_S, fmap_app. done. Qed.

(** The invariant of the runs. *)
Definition bulk_state (exact : Z) (c : cfg W) (got : list bytes) (acks : list Z) : Prop :=
  zlen (concat got) <= exact /\ acks = windows (length acks) /\ 8 * zlen acks <= zlen got
  /\ link (snd c) = k_opened (fst c)
  /\ ((bulk_live exact (fst c) got /\ k_bulk_next_ack (fst c) = zlen acks) \/ bulk_dead (fst c)).

Lemma bulk_receive_closed fuel b w :
  k_initialized b = true -> k_active b = true -> k_bulk_mode b = true ->
  k_bulk_failed b || s_complete (k_stream b) = true ->
  broker_bulk_receive fuel (b, w) = Ret (PBNS_ERR_STATE, zero_response, (b, w)).
Proof.
  intros Hi Ha Hm Hc. unfold broker_bulk_receive, bindM, gets. cbn [fst snd]. rewrite Hi, Ha, Hm.
  cbn [negb orb]. by rewrite Hc.
Qed.

Lemma bulk_ack_closed p next window b w :
  k_initialized b = true -> k_active b = true -> k_bulk_mode b = true -> k_bulk_failed b = true ->
  broker_bulk_ack p next window (b, w) = Ret (PBNS_ERR_STATE, (b, w)).
Proof.
  intros Hi Ha Hm Hc. unfold broker_bulk_ack, bindM, gets. cbn [fst snd]. by rewrite Hi, Ha, Hm, Hc.
Qed.

Lemma wp_bulk_receive_state fuel exact c got acks :
  bulk_state exact c got acks ->
  wp (broker_bulk_receive fuel) (fun res c' =>
    bulk_state exact c' (if is_ok (fst res) then got ++ [v_data (rs_payload (snd res))] else got) acks) c.
Proof.
  intros (Hle & Hw & Hn & Hl & Hst). destruct c as [b w]. cbn [fst snd] in *.
  assert (Hclosed : k_initialized b = true -> k_active b = true -> k_bulk_mode b = true ->
    k_bulk_failed b || s_complete (k_stream b) = true ->
    wp (broker_bulk_receive fuel) (fun res c' =>
      bulk_state exact c' (if is_ok (fst res) then got ++ [v_data (rs_payload (snd res))] else got) acks) (b, w)).
  { intros. unfold wp. rewrite bulk_receive_closed by done. cbn [fst snd is_ok]. unfold bulk_state. cbn [fst snd]. tauto. }
  destruct Hst as [[Hlive Hack]|Hdead].
  - pose proof Hlive as (Hwf & Ha & Hm & Hnf & _). pose proof Hwf as (_ & _ & Hi & _).
    destruct (s_complete (k_stream b)) eqn:Ec; [apply Hclosed; try done; by rewrite orb_true_r|].
    eapply wp_bulk_receive; [exact Hlive|done| |].
    + intros st b' w' Hne Hdead Hop Hl' _. cbn [fst snd]. rewrite (proj2 (is_ok_false st) Hne).
      unfold bulk_state. cbn [fst snd]. split_and!; try done; try congruence. by right.
    + intros resp b' w' Hlive' Hop Hl' _ Hack' _. cbn [fst snd is_ok]. unfold bulk_state. cbn [fst snd].
      split_and!; [apply Hlive'|done|llia|congruence|]. left. split; [done|congruence].
  - destruct Hdead as (Hwf & Ha & Hm & Hbf). pose proof Hwf as (_ & _ & Hi & _). apply Hclosed; try done. by rewrite Hbf.
Qed.

Lemma wp_bulk_ack_state p next window exact c got acks :
  bulk_state exact c got acks ->
  wp (broker_bulk_ack p next window) (fun st c' =>
    bulk_state exact c' got (if is_ok st then acks ++ [next] else acks)) c.
Proof.
  intros (Hle & Hw & Hn & Hl & Hst). destruct c as [b w]. cbn [fst snd] in *.
  destruct Hst as [[Hlive Hack]|Hdead].
  - pose proof Hlive as (_ & _ & _ & _ & _ & _ & _ & _ & (_ & _ & Hseq) & _ & _ & _ & _ & Hnext & _).
    eapply wp_bulk_ack; [exact Hlive|rewrite Hack; lia| | |].
    + intros st Hs. assert (Eok : is_ok st = false) by (by destruct Hs as [-> | ->]).
      rewrite Eok. unfold bulk_state. cbn [fst snd]. tauto.
    + intros st b' w' Hne Hdead Hop Hl'. rewrite (proj2 (is_ok_false st) Hne).
      unfold bulk_state. cbn [fst snd]. split_and!; try done; try congruence. by right.
    + intros b' w' Hlive' Hop Hl' _ _ Hnx Hgot Hack' _. cbn [is_ok]. unfold bulk_state. cbn [fst snd].
      rewrite length_app, Nat.add_1_r, windows_S, <- Hw.
      split_and!; [done|by rewrite Hnx, Hack|lia|congruence|].
      left. split; [done|]. rewrite Hack'. lia.
  - destruct Hdead as (Hwf & Ha & Hm & Hbf). pose proof Hwf as (_ & _ & Hi & _).
    unfold wp. rewrite bulk_ack_closed by done. cbn [is_ok]. unfold bulk_state, bulk_dead. cbn [fst snd]. tauto.
Qed.

Lemma bulk_receive_total `{!Ticking e} exact c got acks :
  bulk_state exact c got acks ->
  exists fuel0, forall fuel, (fuel0 <= fuel)%nat -> broker_bulk_receive fuel c <> OutOfFuel.
Proof.
  intros (_ & _ & _ & _ & Hst). destruct c as [b w]. cbn [fst snd] in *.
  assert (Hwf : wf e b) by (destruct Hst as [[Hst _]|Hst]; apply Hst).
  exists (Z.to_nat (turns_left e b w + 1)). intros fuel Hf.
  assert (Hr : receive_record fuel (b, w) <> OutOfFuel) by (apply (receive_record_total e); [done|lia]).
  destruct (total_after_frame (W := W)) as (T1 & T2 & T3 & T4).
  unfold broker_bulk_receive. apply total_gets_at. destruct (_ || _); [done|].
  apply total_bind_at.
  - unfold next_frame. apply total_bind_at; [done|]. intros [st|rec]; [apply total_ret|apply T1].
  - intros [[st f] v]. unfold fail_bulk_session, bulk_account. total_tac; auto.
Qed.

Lemma bulk_reach_state exact c0 c got acks :
  bulk_state exact c0 [] [] -> bulk_reach c0 c got acks -> bulk_state exact c got acks.
Proof.
  intros Hbegin Hr. induction Hr as [|fuel c c' got acks resp _ IH E|fuel c c' got acks st resp _ IH E Hne
    |p next window c c' got acks _ IH E|p next window c c' got acks st _ IH E Hne].
  - done.
  - pose proof (wp_bulk_receive_state fuel exact c got acks IH) as Hwp. unfold wp in Hwp. by rewrite E in Hwp.
  - pose proof (wp_bulk_receive_state fuel exact c got acks IH) as Hwp. unfold wp in Hwp. rewrite E in Hwp.
    cbn [fst] in Hwp. by rewrite (proj2 (is_ok_false st) Hne) in Hwp.
  - pose proof (wp_bulk_ack_state p next window exact c got acks IH) as Hwp. unfold wp in Hwp. by rewrite E in Hwp.
  - pose proof (wp_bulk_ack_state p next window exact c got acks IH) as Hwp. unfold wp in Hwp. rewrite E in Hwp.
    by rewrite (proj2 (is_ok_false st) Hne) in Hwp.
Qed.

(** ** Properties *)

(** C2: a download never hands out more than the announced size, acknowledges
    exactly the multiples of the window, each after the payloads it covers were
    handed out, never faults and always returns, in whatever order the calls
    are made and whatever the peer sends; and it can be finished only when exactly the
    announced number of octets was handed out.  Finishing closes the connection
    and leaves the broker idle and wiped. *)
Theorem bulk_download_exact `{!Ticking e} (b : pbns_broker W) (w : W) (service exact timeout_ms : Z) (id : bytes)
    (body : pbns_view) (c0 c : cfg W) (got : list bytes) (acks : list Z) :
  wf e b -> idle b -> link w = false -> id_ok id -> bytes_ok (v_data body) -> 0 <= exact <= UINT64_MAX ->
  broker_bulk_begin service id body exact timeout_ms (b, w) = Ret (PBNS_OK, c0) ->
  bulk_reach c0 c got acks ->
  zlen (concat got) <= exact
  /\ acks = windows (length acks) /\ 8 * zlen acks <= zlen got
  /\ (forall fuel, broker_bulk_receive fuel c <> Fault)
  /\ (exists fuel0, forall fuel, (fuel0 <= fuel)%nat -> broker_bulk_receive fuel c <> OutOfFuel)
  /\ (forall p next window, broker_bulk_ack p next window c <> Fault)
  /\ exists st c', broker_bulk_finish c = Ret (st, c')
     /\ ((c' = c /\ st = PBNS_ERR_STATE)
         \/ (zlen (concat got) = exact /\ session_over e (fst c) (fst c') (snd c')
             /\ is_wiped (st_decoded (k_storage (fst c'))))).
Proof.
  intros Hwf Hidle Hl Hid Hbody Hex Ebegin Hreach.
  assert (H0' : bulk_state exact c0 [] []).
  { assert (Hwp : wp (broker_bulk_begin service id body exact timeout_ms)
                     (fun st c' => st = PBNS_OK -> bulk_state exact c' [] []) (b, w)).
    { apply wp_bulk_begin; try done.
      intros b' w' Hlive Hop Hl' Hack _ _ _ _ _ _ _. unfold bulk_state. cbn [fst snd concat length].
      split_and!; try done; try lia; [congruence|]. left. done. }
    unfold wp in Hwp. rewrite Ebegin in Hwp. by apply Hwp. }
  pose proof (bulk_reach_state _ _ _ _ _ H0' Hreach) as Hst.
  pose proof (fun fuel => wp_bulk_receive_state fuel exact c got acks Hst) as Hwr.
  pose proof (fun p next window => wp_bulk_ack_state p next window exact c got acks Hst) as Hwa.
  pose proof (bulk_receive_total exact c got acks Hst) as Hterm.
  destruct Hst as (Hle & Hw & Hn & Hlk & Hst). split_and!; try done.
  - intros fuel E. specialize (Hwr fuel). unfold wp in Hwr. by rewrite E in Hwr.
  - intros p next window E. specialize (Hwa p next window). unfold wp in Hwa. by rewrite E in Hwa.
  - destruct c as [b1 w1]. cbn [fst snd] in *. unfold broker_bulk_finish, bindM, gets. cbn [fst snd].
    destruct (_ || _) eqn:Eg; [by do 2 eexists; split; [done|left]|]. bools.
    destruct Hst as [[Hlive _]|Hdead]; [|by destruct Hdead as (_ & _ & _ & ?); congruence].
    pose proof Hlive as (Hwf1 & _ & _ & _ & Hexb & Hrec & _).
    rewrite (finish_session_eq e) by done.
    destruct (if k_opened b1 then e_close e w1 else (PBNS_OK, w1)) as [st w'] eqn:Ecl.
    exists st, (closed false b1, w'). split; [done|]. right. cbn [fst snd]. split; [congruence|]. split.
    + apply closed_over; [done|]. destruct (k_opened b1); [|by injection Ecl as _ <-].
      by apply close_law in Ecl as (? & _).
    + cbn. apply wipe_buffer_wiped.
Qed.
End bulk.
