(* ===== verification/BrokerUpload.v ===== *)
(** * Uploads

    The records of an upload are numbered from zero; any failure after the
    first attempt to send cancels the session. *)

From stdpp Require Import base list numbers.
From Stdlib Require Import ZArith Lia.
From S2P Require Import Prelude Endian Status Buffers Crc32c Cobs Frame Stream RecordReader Cbor Utf8 Broker BrokerLogic BrokerReceive BrokerRequest BrokerProps BrokerBulk.

Section upload.
Context {W : Type} `{Machine} `{QCBOR} (e : endpoint W) `{!EndpointLaws e}.
Implicit Types (b : pbns_broker W) (s : pbns_broker_storage) (w : W).

(** An upload in progress: [n] is the number of the next record. *)
Definition uploading (service : Z) (id : bytes) (n : Z) b : Prop :=
  wf e b /\ k_opened b = true /\ k_active b = true /\ k_upload_mode b = true /\ k_bulk_mode b = false
  /\ k_upload_next b = n /\ k_service b = service /\ k_request_id b = id /\ id_ok id
  /\ k_reader b = fresh_reader (st_encoded (k_storage b)) /\ pending b = []
  /\ exists lim, k_stream b = mk_stream service id lim 0 0 true false false.

Lemma uploading_storage service id n b s :
  uploading service id n b -> same_storage (k_storage b) s -> st_receive s = st_receive (k_storage b) ->
  wf e (set_storage s b) -> uploading service id n (set_storage s b).
Proof.
  intros (_ & ? & ? & ? & ? & ? & ? & ? & ? & Hr & Hp & Hs) Hg Hrcv Hwf. unfold uploading.
  split_and!; try done.
  - change (k_reader b = fresh_reader (st_encoded s)). rewrite Hr. symmetry. apply fresh_reader_geom, Hg.
  - unfold pending in *. cbn. by rewrite Hrcv.
Qed.

(** A failure after the first send. *)
Definition upload_failed b0 st b' w' : Prop :=
  st <> PBNS_OK /\ session_over e b0 b' w' /\ is_wiped (st_decoded (k_storage b')).

Lemma wp_abort_upload st b0 b w Q :
  st <> PBNS_OK -> wf e b -> link w = k_opened b -> k_active b = true -> id_ok (k_request_id b) ->
  same_storage (k_storage b0) (k_storage b) ->
  (forall b' w', upload_failed b0 st b' w' -> Q st (b', w')) ->
  wp (abort_upload_session st) Q (b, w).
Proof.
  intros Hne Hwf Hl Ha Hid Hg0 HQ. unfold abort_upload_session. apply wp_gets. rewrite Ha.
  apply wp_bind, wp_bind, (wp_emit_cancel e); [done..|]. intros st1 s w1 Hg Hwf1 Hl1 _. apply wp_gets, wp_bind.
  eapply wp_call; [by rewrite (wf_transport e)|]. intros st2 w2 E. apply cancel_law in E as (Hl2 & _ & _).
  apply wp_bind, (wp_close e); [done|cbn; congruence|]. intros st3 b' w3 Hover _ _ Hdec _.
  apply wp_ret, wp_ret, HQ. split; [done|]. rewrite Hdec. split; [|apply wipe_buffer_wiped].
  eapply session_over_same; [|exact Hover]. by eapply same_storage_trans.
Qed.

Lemma wp_upload_emit service id n type payload seq b w Q :
  uploading service id n b -> link w = true -> bytes_ok (v_data payload) -> 0 <= seq <= UINT32_MAX ->
  (forall st s w', same_storage (k_storage b) s -> uploading service id n (set_storage s b) -> link w' = true ->
    delivered w' = delivered w ->
    (st = PBNS_OK -> sent w' = sent w ++ [frame_wire (mk_frame service type 0 id seq) (v_data payload)]) ->
    Q st (set_storage s b, w')) ->
  wp (upload_emit type payload seq) Q (b, w).
Proof.
  intros Hup Hl Hok Hseq HQ. pose proof Hup as (Hwf & _ & _ & _ & _ & _ & Hsv & Hid & Hidok & _).
  unfold upload_emit. apply wp_gets, wp_gets. rewrite Hsv, Hid.
  apply (wp_encode_and_send e); [done|by apply id_frame_typed|done|].
  intros st s w' Hg Hrcv _ Hwf' Hl' Hd' Hs'. apply HQ; try done; [by apply uploading_storage|congruence].
Qed.

Lemma wp_update' (f : pbns_broker W -> pbns_broker W) Q b w :
  Q tt (f b, w) -> wp (update f) Q (b, w).
Proof. done. Qed.

Lemma wp_upload_transmit service id n payload (final : bool) b w Q :
  uploading service id n b -> link w = true -> bytes_ok (v_data payload) -> 0 <= n <= UINT32_MAX ->
  Q PBNS_ERR_ARGUMENT (b, w) ->
  (forall st b' w', upload_failed b st b' w' -> Q st (b', w')) ->
  (forall b' w', uploading service id (n + 1) b' -> link w' = true -> delivered w' = delivered w ->
    n < UINT32_MAX -> same_storage (k_storage b) (k_storage b') -> k_limits b' = k_limits b ->
    sent w' = sent w ++ [frame_wire (mk_frame service PBNS_MESSAGE_DATA 0 id n) (v_data payload)]
              ++ (if final then [frame_wire (mk_frame service PBNS_MESSAGE_COMPLETE 0 id (n + 1)) []] else []) ->
    Q PBNS_OK (b', w')) ->
  wp (upload_transmit payload final) Q (b, w).
Proof.
  intros Hup Hl Hok Hn Harg Hfail HQ.
  pose proof Hup as (Hwf & Hop & Ha & Hm & Hnb & Hnx & _ & Hid & Hidok & _). unfold upload_transmit.
  destruct (_ || _); [by apply wp_ret|]. apply wp_gets. pose proof Hwf as (_ & _ & -> & _).
  rewrite Ha, Hm, Hnb. cbn [negb orb]. rewrite Hnx.
  assert (Habort : forall st s m w1, st <> PBNS_OK -> same_storage (k_storage b) s -> link w1 = true ->
    uploading service id m (set_upload_next m (set_storage s b)) ->
    wp (abort_upload_session st) Q (set_upload_next m (set_storage s b), w1)).
  { intros st s m w1 Hne Hg Hl1 Hup1. apply (wp_abort_upload st b); try done.
    - apply Hup1.
    - cbn. congruence.
    - cbn. by rewrite Hid.
    - intros b' w' Hf. by apply Hfail. }
  assert (Hsame : forall s m, k_upload_next b = m -> set_upload_next m (set_storage s b) = set_storage s b).
  { intros s m <-. by destruct b. }
  destruct (_ || _) eqn:Elim.
  { apply (wp_abort_upload _ b); try done; [congruence|by rewrite Hid|].
    intros b' w' Hf. by apply Hfail. }
  apply orb_false_iff in Elim as [_ Emax%Z.eqb_neq].
  apply wp_bind, (wp_upload_emit service id n); [done..|]. intros st s w1 Hg Hup1 Hl1 Hd1 Hs1.
  apply wp_bind. destruct (is_ok st) eqn:Eok.
  2: { apply wp_ret, wp_gets. cbn [andb]. apply wp_bind, wp_ret. rewrite Eok. cbn [negb].
       apply is_ok_false in Eok. rewrite <- (Hsame s n Hnx) in Hup1 |- *. by apply Habort. }
  apply is_ok_spec in Eok. specialize (Hs1 Eok). apply wp_update'. apply wp_gets.
  set (b1 := set_upload_next _ _).
  assert (Eb1 : b1 = set_upload_next (n + 1) (set_storage s b)).
  { unfold b1. cbn [k_upload_next set_storage]. rewrite Hnx. unfold u32. rewrite Z.mod_small; [done|].
    unfold UINT32_MAX in *. lia. }
  rewrite Eb1. cbn [k_upload_next set_upload_next andb].
  assert (Hup2 : uploading service id (n + 1) (set_upload_next (n + 1) (set_storage s b))).
  { unfold uploading, wf, pending in *. cbn in *. tauto. }
  apply wp_bind. destruct final.
  - apply (wp_upload_emit service id (n + 1)); try done; [constructor|lia|].
    intros st' s' w2 Hg2 Hup3 Hl2 Hd2 Hs2. destruct (is_ok st') eqn:Eok'; cbn [negb].
    + apply is_ok_spec in Eok'. apply wp_ret, HQ; try done; [congruence|lia| |].
      * by eapply same_storage_trans.
      * rewrite (Hs2 Eok'), Hs1. by rewrite <- app_assoc.
    + apply is_ok_false in Eok'. 
      change (set_storage s' (set_upload_next (n + 1) (set_storage s b)))
        with (set_upload_next (n + 1) (set_storage s' b)) in *.
      apply Habort; try done. by eapply same_storage_trans.
  - subst st. apply wp_ret. cbn [is_ok negb]. apply wp_ret, HQ; try done. lia.
Qed.

(** The session is opened, the request is sent, and the records follow. *)
Lemma wp_upload_begin service id body t b w Q :
  wf e b -> idle b -> link w = false -> id_ok id -> bytes_ok (v_data body) ->
  (forall st b' w', st <> PBNS_OK -> begin_failed e b w b' w' -> Q st (b', w')) ->
  (forall b' w', uploading service id 0 b' -> link w' = true -> delivered w' = delivered w ->
    sent w' = sent w ++ [frame_wire (mk_frame service PBNS_MESSAGE_REQUEST 0 id 0) (v_data body)] ->
    Q PBNS_OK (b', w')) ->
  wp (broker_upload_begin service id body t) Q (b, w).
Proof.
  intros Hwf Hidle Hl Hid Hbody Hfail Hok. unfold broker_upload_begin.
  destruct (_ || _); [by apply wp_ret, Hfail; [|left]|]. apply wp_gets.
  destruct (_ || _); [by apply wp_ret, Hfail; [|left]|].
  destruct (service_is_valid service) eqn:Hserv; cbn [negb]; [|by apply wp_ret, Hfail; [|left]].
  apply (wp_prepare e); [done|].
  assert (Hclose : forall st b2 w2, st <> PBNS_OK -> wf e b2 -> link w2 = k_opened b2 ->
    same_storage (k_storage b) (k_storage b2) ->
    wp (bindM (finish_session false) (fun _ => retM st)) Q (b2, w2)).
  { intros st b2 w2 Hne Hwf2 Hl2 Hg2. apply wp_bind, (wp_close e); [done..|].
    intros st' b' w' Hover _ _ Hdec _. apply wp_ret, Hfail; [done|]. right. rewrite Hdec.
    split; [by eapply session_over_same|apply wipe_buffer_wiped]. }
  apply (wp_open_query e id t false (fun st => st)); [done..| |].
  { intros st l b2 w2 Hne Ho. rewrite (proj2 (is_ok_false st) Hne). cbn [andb negb].
    rewrite (proj2 (is_ok_false st) Hne). destruct Ho as (? & ? & _ & _ & _ & _ & _ & _ & _ & _ & _ & ? & ? & _).
    apply Hclose; try done. congruence. }
  intros b2 w2 Ho Hlim.
  destruct Ho as (Hwf2 & Hop2 & _ & Ho2 & Hln2 & _ & _ & _ & Hbm2 & Hrd2 & Hrid2 & Hg2 & Hl2 & Hs2 & Hd2).
  cbn [is_ok andb]. destruct (_ || _); cbn [is_ok negb]; [apply Hclose; try done; congruence|].
  do 3 apply wp_update. unfold init_stream. apply wp_bind, wp_update, wp_gets, wp_ret. cbn [k_stream set_stream].
  rewrite init_stream_valid by done. cbn [s_initialized negb]. apply wp_update.
  set (b3 := set_active true _). assert (Hup : uploading service id 0 b3).
  { unfold uploading, pending, slice. cbn. rewrite Ho2, Hln2. split_and!; try done; try (by subst); eauto. }
  apply wp_bind, (wp_encode_and_send e); [apply Hup|by apply id_frame_typed|done|].
  intros st s w3 Hg3 Hrcv _ Hwf3 Hl3 Hd3 Hs3. destruct (is_ok st) eqn:Eok; cbn [negb].
  - apply is_ok_spec in Eok. apply wp_ret, Hok; [by apply uploading_storage|congruence..|].
    rewrite (Hs3 Eok). congruence.
  - apply is_ok_false in Eok. apply (wp_abort_upload _ b); try done; [cbn; congruence|by cbn; rewrite Hrid2| |].
    + by eapply same_storage_trans.
    + intros b' w' (_ & Hover & Hw). apply Hfail; [done|]. by right.
Qed.

(** ** Sending a record *)

(** The response to an upload, bound to the session. *)
Definition upload_answered (service : Z) (id : bytes) w (resp : pbns_broker_response) b' w' : Prop :=
  exists record rest, delivered w' = delivered w ++ record ++ 0 :: rest
  /\ frame_record (k_limits b') record (rs_frame resp) (v_data (rs_payload resp))
  /\ rs_frame resp = mk_frame service PBNS_MESSAGE_RESPONSE 0 id 0
  /\ response_live (k_storage b') resp.

(** What [pbns_broker_upload_send] leaves behind. *)
Definition upload_post service id n (payload : bytes) (final : bool) b w st resp b' w' : Prop :=
  let data := frame_wire (mk_frame service PBNS_MESSAGE_DATA 0 id n) payload in
  let complete := frame_wire (mk_frame service PBNS_MESSAGE_COMPLETE 0 id (n + 1)) [] in
  (st = PBNS_ERR_ARGUMENT /\ resp = zero_response /\ b' = b /\ w' = w)
  \/ (upload_failed b st b' w' /\ resp = zero_response)
  \/ (st = PBNS_OK /\ final = false /\ resp = zero_response /\ uploading service id (n + 1) b' /\ link w' = true
      /\ n < UINT32_MAX /\ sent w' = sent w ++ [data] /\ delivered w' = delivered w)
  \/ (st = PBNS_OK /\ final = true /\ wf e b' /\ k_active b' = true /\ k_upload_mode b' = false
      /\ k_upload_response b' = true /\ k_request_id b' = id /\ link w' = k_opened b' /\ n < UINT32_MAX
      /\ sent w' = sent w ++ [data; complete] /\ upload_answered service id w resp b' w').

Lemma response_post_upload service id n b w resp b' w' :
  uploading service id n b -> k_limits b' = k_limits b ->
  response_post e (set_upload_mode false b) w resp b' w' -> upload_answered service id w resp b' w'.
Proof.
  intros (_ & _ & _ & _ & _ & _ & _ & _ & _ & Hr & Hp & lim & Hstr) Hlim
    ((record & c & (new & Hd1 & Hc & _) & Hseen & Hf) & Hty & Hsv & Hrid & Hseq & Hlive).
  cbn [k_stream set_upload_mode k_reader k_storage k_limits] in *.
  rewrite Hstr in Hsv, Hrid, Hseq. cbn in Hsv, Hrid, Hseq.
  specialize (Hseen []). rewrite Hr in Hseen. specialize (Hseen (fresh_reader_holds _)). cbn [app] in Hseen.
  change (pending (set_upload_mode false b)) with (pending b) in Hc. rewrite Hp in Hc. cbn [app] in Hc.
  exists record, (pending b'). split_and!; try done.
  - rewrite Hd1, Hc, Hseen. by rewrite <- app_assoc.
  - by rewrite Hlim.
  - destruct (rs_frame resp) as [sv ty fl rid sq]. cbn in *. subst.
    destruct Hf as (_ & _ & _ & _ & _ & Hfl & _). cbn in Hfl. by subst.
Qed.

Lemma total_abort_upload st : total (W := W) (abort_upload_session st).
Proof.
  pose proof (total_finish_session (W := W) false).
  unfold abort_upload_session, emit_cancel, broker_encode, broker_send, transport_send, transport_cancel. total_tac.
Qed.

Lemma total_upload_transmit payload final : total (W := W) (upload_transmit payload final).
Proof.
  unfold upload_transmit, upload_emit. total_tac; auto using total_abort_upload, total_encode_and_send.
Qed.

Lemma bounded_abort_upload st : bounded (W := W) (abort_upload_session st).
Proof.
  pose proof (bounded_finish_session (W := W) false).
  unfold abort_upload_session, emit_cancel, broker_encode, broker_send, transport_send, transport_cancel. bounded_tac.
Qed.

Lemma bounded_upload_transmit payload final : bounded (W := W) (upload_transmit payload final).
Proof. unfold upload_transmit, upload_emit. bounded_tac; auto using bounded_abort_upload, bounded_encode_and_send. Qed.

Lemma bounded_upload_send fuel payload final : bounded (W := W) (broker_upload_send fuel payload final).
Proof.
  pose proof (bounded_upload_transmit payload final). pose proof (bounded_receive (W := W) fuel). pose proof bounded_abort_upload.
  unfold broker_upload_send. bounded_tac; auto.
Qed.

(** Waiting for the response after the final record. *)
Lemma wp_upload_response fuel service id n b w Q :
  uploading service id n b -> link w = true ->
  (forall st b' w', upload_failed b st b' w' -> Q (st, zero_response) (b', w')) ->
  (forall resp b' w', wf e b' -> k_active b' = true -> k_upload_mode b' = false -> k_upload_response b' = true ->
    k_request_id b' = id -> link w' = k_opened b' -> sent w' = sent w -> upload_answered service id w resp b' w' ->
    Q (PBNS_OK, resp) (b', w')) ->
  wp (bindM (update (set_upload_mode false)) (fun _ => bindM (broker_receive fuel) (fun '(status, response) =>
      if negb (is_ok status)
      then bindM (abort_upload_session status) (fun status => retM (status, zero_response))
      else bindM (update (set_upload_response true)) (fun _ => retM (PBNS_OK, response))))) Q (b, w).
Proof.
  intros Hup Hl Hfail Hok. pose proof Hup as (Hwf & Hop & Ha & _ & _ & _ & _ & Hid & Hidok & _).
  apply wp_update, wp_bind, (wp_broker_receive e); [exact Hwf|].
  intros st resp s r str o l w1 b1 Hg Hwf1 Hl1 Hs1 _ Hpost. destruct (is_ok st) eqn:Eok; cbn [negb].
  - apply is_ok_spec in Eok. apply wp_update, wp_ret, Hok; try done; [cbn; congruence|].
    apply (response_post_upload service id n b); [done..|]. exact (Hpost Eok).
  - apply is_ok_false in Eok. apply wp_bind, (wp_abort_upload _ b); try done; [cbn; congruence|cbn; by rewrite Hid|].
    intros b' w' Hf. apply wp_ret. by apply Hfail.
Qed.

Lemma total_update_at {B} (f : pbns_broker W -> pbns_broker W) (k : unit -> M W B) b w :
  k tt (f b, w) <> OutOfFuel -> bindM (update f) k (b, w) <> OutOfFuel.
Proof. done. Qed.

Lemma upload_send_returns `{!Ticking e} service id n payload (final : bool) b w :
  uploading service id n b -> link w = true -> bytes_ok (v_data payload) -> 0 <= n <= UINT32_MAX ->
  exists fuel0, (deadline_bounded b -> fuel0 <= enough_fuel)%nat /\ forall fuel, (fuel0 <= fuel)%nat ->
  exists st resp b' w', broker_upload_send fuel payload final (b, w) = Ret (st, resp, (b', w'))
  /\ upload_post service id n (v_data payload) final b w st resp b' w'.
Proof.
  intros Hup Hl Hok Hn.
  destruct (wp_Ret (upload_transmit payload final) (fun st c' =>
    (st = PBNS_ERR_ARGUMENT /\ c' = (b, w)) \/ upload_failed b st (fst c') (snd c')
    \/ (st = PBNS_OK /\ uploading service id (n + 1) (fst c') /\ link (snd c') = true
        /\ delivered (snd c') = delivered w /\ n < UINT32_MAX
        /\ same_storage (k_storage b) (k_storage (fst c')) /\ sent (snd c') = sent w
        ++ [frame_wire (mk_frame service PBNS_MESSAGE_DATA 0 id n) (v_data payload)]
        ++ (if final then [frame_wire (mk_frame service PBNS_MESSAGE_COMPLETE 0 id (n + 1)) []] else [])))
    (b, w)) as (st & [b1 w1] & E & Hpost).
  { apply (wp_upload_transmit service id n); auto. intros b' w' ? ? ? ? ? ? ?. right. right. done. }
  { apply total_upload_transmit. }
  cbn [fst snd] in Hpost.
  destruct Hpost as [[-> [= -> ->]]|[Hf|(-> & Hup1 & Hl1 & Hd1 & Hlt & Hg & Hs1)]].
  - exists O. split; [lia|]. intros fuel _. unfold broker_upload_send, bindM at 1. rewrite E.
    do 4 eexists. split; [reflexivity|]. by left.
  - exists O. split; [lia|]. intros fuel _. unfold broker_upload_send, bindM at 1. rewrite E. pose proof Hf as [Hne _].
    rewrite (proj2 (is_ok_false st) Hne). do 4 eexists. split; [reflexivity|]. right. by left.
  - destruct final.
    2: { exists O. split; [lia|]. intros fuel _. unfold broker_upload_send, bindM at 1. rewrite E. do 4 eexists.
         split; [reflexivity|]. do 2 right. left. done. }
    set (b2 := set_upload_mode false b1). exists (Z.to_nat (turns_left e b2 w1 + 1)). split.
    { intros Hb. pose proof (turns_enough e b2 w1 (bounded_upload_transmit _ _ _ _ _ E Hb)). lia. }
    intros fuel Hfuel.
    unfold broker_upload_send, bindM at 1. rewrite E. cbn [is_ok negb orb].
    match goal with |- exists st resp b' w', ?m _ = _ /\ _ =>
      destruct (wp_Ret m (fun a c' => upload_post service id n (v_data payload) true b w (fst a) (snd a)
        (fst c') (snd c')) (b1, w1)) as ([st resp] & [b' w'] & E2 & Hpost) end.
    + apply (wp_upload_response fuel service id (n + 1)); [done..| |].
      * intros st b' w' (Hne & Hover & Hwp). right. left. split; [|done]. split; [done|]. split; [|done].
        by eapply session_over_same.
      * intros resp b' w' ? ? ? ? ? ? Hs2 (record & rest & Hd2 & Hrest). do 3 right. cbn [fst snd].
        split_and!; try done; [by rewrite Hs2, Hs1|]. exists record, rest. split; [congruence|done].
    + apply total_update_at, total_bind_at; [apply (broker_receive_total e); [apply Hup1|fold b2; lia]|].
      pose proof total_abort_upload. intros [st resp]. total_tac; auto.
    + exists st, resp, b', w'. done.
Qed.

(** ** Runs of an upload *)

(** The state reached from [c0] by sending the records [payloads], none of them
    final, with success. *)
Inductive upload_reach (c0 : cfg W) : cfg W -> list bytes -> Prop :=
| upload_reach_begin : upload_reach c0 c0 []
| upload_reach_send fuel c c' payload payloads resp :
    upload_reach c0 c payloads -> bytes_ok (v_data payload) ->
    broker_upload_send fuel payload false c = Ret (PBNS_OK, resp, c') ->
    upload_reach c0 c' (payloads ++ [v_data payload]).

(** The frames of the records, numbered from [n]. *)
Definition data_frames (service : Z) (id : bytes) (n : Z) (payloads : list bytes) : list bytes :=
  imap (fun i payload => frame_wire (mk_frame service PBNS_MESSAGE_DATA 0 id (n + Z.of_nat i)) payload) payloads.

Lemma data_frames_snoc service id n payloads payload :
  data_frames service id n (payloads ++ [payload])
  = data_frames service id n payloads
    ++ [frame_wire (mk_frame service PBNS_MESSAGE_DATA 0 id (n + zlen payloads)) payload].
Proof. unfold data_frames. rewrite imap_app. cbn [imap]. by rewrite Nat.add_0_r. Qed.

Lemma upload_reach_state service id w0 c0 c payloads :
  uploading service id 0 (fst c0) -> link (snd c0) = true -> upload_reach c0 c payloads ->
  w0 = snd c0 ->
  uploading service id (zlen payloads) (fst c) /\ link (snd c) = true /\ zlen payloads <= UINT32_MAX
  /\ sent (snd c) = sent w0 ++ data_frames service id 0 payloads /\ delivered (snd c) = delivered w0.
Proof.
  intros H0' Hl0 Hr Hw0. subst w0.
  induction Hr as [|fuel c c' payload payloads resp _ (Hup & Hl & Hn & Hs & Hd) Hok E].
  { split_and!; try done. by rewrite app_nil_r. }
  destruct c as [b w], c' as [b' w']. cbn [fst snd] in *.
  assert (Hwp : wp (upload_transmit payload false) (fun st c'' => st = PBNS_OK ->
     uploading service id (zlen payloads + 1) (fst c'') /\ link (snd c'') = true /\ zlen payloads < UINT32_MAX
     /\ delivered (snd c'') = delivered w /\ sent (snd c'') = sent w
       ++ [frame_wire (mk_frame service PBNS_MESSAGE_DATA 0 id (zlen payloads)) (v_data payload)]) (b, w)).
  { apply (wp_upload_transmit service id (zlen payloads)); try done; [lia|].
    by intros st b1 w1 (? & _). }
  unfold broker_upload_send, bindM in E. unfold wp in Hwp.
  destruct (upload_transmit payload false (b, w)) as [[st c1]| |]; [|done|done].
  rewrite orb_true_r in E. injection E as -> _ ->. cbn [fst snd] in Hwp.
  destruct (Hwp eq_refl) as (Hup' & Hl' & Hlt & Hd' & Hs'). rewrite data_frames_snoc, Hs', Hs, Hd', Hd.
  replace (zlen (payloads ++ [v_data payload])) with (zlen payloads + 1) by llia.
  split_and!; try done; [lia|by rewrite <- app_assoc].
Qed.

(** ** Properties *)

(** C3: an upload sends the request, then one DATA frame per record, numbered
    from zero in the order of the calls, and nothing else.  The next call
    always returns without a fault, and either refuses an empty record and
    changes nothing; or fails, cancels the session and leaves the broker idle
    and wiped; or sends exactly its record; or, for the final record, sends it
    and the COMPLETE frame that follows, and returns the response of the
    service to this session, decoded from the first record delivered since the
    upload began. *)
Theorem upload_in_order `{!Ticking e} (b : pbns_broker W) (w : W) (service timeout_ms : Z) (id : bytes)
    (body payload : pbns_view) (c0 c : cfg W) (payloads : list bytes) (final : bool) :
  wf e b -> idle b -> link w = false -> id_ok id -> bytes_ok (v_data body) -> bytes_ok (v_data payload) ->
  broker_upload_begin service id body timeout_ms (b, w) = Ret (PBNS_OK, c0) ->
  upload_reach c0 c payloads ->
  sent (snd c) = sent w ++ [frame_wire (mk_frame service PBNS_MESSAGE_REQUEST 0 id 0) (v_data body)]
                 ++ data_frames service id 0 payloads
  /\ delivered (snd c) = delivered w
  /\ exists fuel0, forall fuel, (fuel0 <= fuel)%nat ->
     exists st resp b' w', broker_upload_send fuel payload final c = Ret (st, resp, (b', w'))
     /\ upload_post service id (zlen payloads) (v_data payload) final (fst c) (snd c) st resp b' w'.
Proof.
  intros Hwf Hidle Hl Hid Hbody Hpl Ebegin Hreach.
  assert (Hwp : wp (broker_upload_begin service id body timeout_ms) (fun st c' => st = PBNS_OK ->
    uploading service id 0 (fst c') /\ link (snd c') = true /\ delivered (snd c') = delivered w
    /\ sent (snd c') = sent w ++ [frame_wire (mk_frame service PBNS_MESSAGE_REQUEST 0 id 0) (v_data body)]) (b, w)).
  { by apply wp_upload_begin. }
  unfold wp in Hwp. rewrite Ebegin in Hwp. destruct (Hwp eq_refl) as (Hup & Hl0 & Hd & Hs).
  destruct (upload_reach_state service id _ c0 c payloads Hup Hl0 Hreach eq_refl) as (Hup' & Hl' & Hn & Hs' & Hd').
  split_and!.
  - rewrite Hs', Hs. by rewrite <- app_assoc.
  - congruence.
  - destruct c as [b1 w1]. destruct (upload_send_returns service id (zlen payloads) payload final b1 w1) as (fuel0 & _ & Hf); try done; [lia|]. by exists fuel0.
Qed.
End upload.
