(* ===== verification/BrokerSetup.v ===== *)
(** * Initialisation, cancellation, error reports, and runs of the broker

    The functions at the two ends of a session, what a remote error report can
    say, and concrete runs on a scripted endpoint. *)

From stdpp Require Import base list numbers.
From Stdlib Require Import ZArith Lia.
From S2P Require Import Prelude Endian Status Buffers Crc32c Cobs Frame Stream RecordReader Cbor Utf8 Broker BrokerLogic BrokerReceive BrokerRequest BrokerProps BrokerBulk BrokerUpload.

(** ** Initialisation *)

Section init.
Context {W : Type} `{Machine} `{QCBOR}.

Lemma callbacks_present (transport : pbns_transport W) (platform : pbns_broker_platform W) :
  transport_is_valid transport = true -> platform_is_valid platform = true ->
  exists e, transport = transport_of e /\ platform = platform_of e.
Proof.
  intros Ht Hp. destruct transport as [[[o|] [c|] [s|] [r|] [k|] [l|]]|]; try done.
  destruct platform as [[[rd|] [m|]]|]; try done.
  by exists (mk_endpoint o c s r k l rd m).
Qed.

Lemma storage_is_valid_ok (s : pbns_broker_storage) :
  storage_is_valid s = true -> 0 <= b_ptr (st_encoded s) -> 0 <= b_ptr (st_raw_scratch s) ->
  0 <= b_ptr (st_receive s) -> 0 <= b_ptr (st_decoded s) ->
  bytes_ok (b_data (st_encoded s)) -> bytes_ok (b_data (st_raw_scratch s)) -> bytes_ok (b_data (st_receive s)) ->
  storage_ok s /\ b_len (st_encoded s) = 0.
Proof.
  unfold storage_is_valid. intros Hv P1 P2 P3 P4 B1 B2 B3. destruct (_ || _) eqn:E in Hv; [done|].
  cbn [pairwise_disjoint forallb] in Hv. bools.
  repeat match goal with
  | Hb : buffer_is_valid _ = true |- _ => apply buffer_is_valid_spec in Hb as [? [?|?]]
  end; unfold storage_ok, b_cap, PBNS_FRAME_V1_HEADER_SIZE, PBNS_FRAME_V1_TRAILER_SIZE in *;
  repeat match goal with Hd : b_data _ = [] |- _ => rewrite Hd in * end; cbn [length] in *; try lia.
  split_and!; try done; lia.
Qed.

End init.

(** ** The ends of a session *)

Section ends.
Context {W : Type} `{Machine} `{QCBOR} (e : endpoint W) `{!EndpointLaws e}.
Implicit Types (b : pbns_broker W) (w : W).

(** Cancelling an active session always returns, without a fault, and ends
    the session whatever the callbacks report: the connection is closed, the
    broker is idle and all of its buffers are wiped.  Without an active session
    it is refused and changes nothing. *)
Theorem broker_cancel_ends b w :
  wf e b -> link w = k_opened b -> id_ok (k_request_id b) ->
  exists st b' w', broker_cancel (b, w) = Ret (st, (b', w'))
  /\ (if k_active b
      then session_over e b b' w' /\ is_wiped (st_decoded (k_storage b')) /\ delivered w' = delivered w
      else st = PBNS_ERR_STATE /\ b' = b /\ w' = w).
Proof.
  intros Hwf Hl Hid.
  destruct (wp_Ret broker_cancel (fun st c' => if k_active b
      then session_over e b (fst c') (snd c') /\ is_wiped (st_decoded (k_storage (fst c')))
           /\ delivered (snd c') = delivered w
      else st = PBNS_ERR_STATE /\ fst c' = b /\ snd c' = w) (b, w)) as (st & [b' w'] & E & Hpost).
  - apply (wp_broker_cancel e); [done..| |].
    + intros ->. done.
    + intros st b' w' -> ? ? ?. done.
  - apply total_broker_cancel.
  - by exists st, b', w'.
Qed.
End ends.

(** ** Remote error reports *)

Section report.
Context {W : Type} `{Machine} `{QCBOR} (e : endpoint W) `{!EndpointLaws e}.
Implicit Types (b : pbns_broker W) (w : W).

(** The statuses that the broker gives on its own when it refuses a report. *)
Definition report_refused (st : pbns_status) : Prop :=
  st = PBNS_ERR_FORMAT \/ st = PBNS_ERR_SERVICE \/ st = PBNS_ERR_LIMIT.

Definition report_ok (code : Z) (detail : bytes) : Prop :=
  1 <= code <= 22 /\ utf8_is_valid detail = true /\ zlen detail <= PBNS_ERROR_DETAIL_MAX.

Lemma error_report_inj code1 code2 service detail1 detail2 :
  0 <= service <= UINT64_MAX -> report_ok code1 detail1 -> 0 <= code2 <= UINT64_MAX -> zlen detail2 <= UINT64_MAX ->
  error_report code1 service detail1 = error_report code2 service detail2 -> code1 = code2 /\ detail1 = detail2.
Proof.
  intros Hs (Hc & _ & Hd) Hc2 Hd2 E. unfold PBNS_ERROR_DETAIL_MAX in Hd.
  apply cbor_map_inj in E; [by injection E|..]; split; try done;
    repeat constructor; cbn; unfold INT64_MAX, UINT64_MAX in *; lia.
Qed.

(** Whatever the CBOR decoder makes of the payload, a remote error report
    never yields [PBNS_OK], never faults and changes only the decode buffer.  A
    status other than a refusal is the negated code of the canonical encoding
    that the payload is, of a known code, the service of the session and a
    short well-formed text; and that code is the only one the payload encodes. *)
Theorem remote_error_canonical b w (payload : bytes) (service : Z) :
  wf e b -> 0 <= service <= UINT64_MAX ->
  exists st s, decode_remote_error payload service (b, w) = Ret (st, (set_storage s b, w))
  /\ only_decoded (k_storage b) s /\ st <> PBNS_OK
  /\ (~ report_refused st ->
      exists code detail, report_ok code detail /\ status_code st = - code
      /\ payload = error_report code service detail
      /\ forall code' detail', 0 <= code' <= UINT64_MAX -> zlen detail' <= UINT64_MAX ->
         payload = error_report code' service detail' -> code' = code /\ detail' = detail).
Proof.
  intros Hwf Hserv.
  destruct (wp_Ret (decode_remote_error payload service) (fun st c' => exists s, c' = (set_storage s b, w)
    /\ only_decoded (k_storage b) s /\ error_post payload service st) (b, w)) as (st & c' & E & s & -> & Ho & Hp).
  { apply (wp_decode_remote_error e); [done|]. eauto. }
  { apply (total_after_frame (W := W)). }
  exists st, s. split_and!; try done; [by eapply error_post_not_ok|]. intros Hno.
  destruct Hp as [?|[?|[?|(code & detail & Hc & Hst & Hu & Hd & Hpl)]]]; try (exfalso; apply Hno; unfold report_refused; tauto).
  exists code, detail. assert (Hok : report_ok code detail) by done. split_and!; try done.
  intros code' detail' Hc' Hd' E'. rewrite Hpl in E'.
  destruct (error_report_inj code code' service detail detail') as [-> ->]; done.
Qed.
End report.

(** ** Concrete runs *)

Definition ex_storage : pbns_broker_storage :=
  mk_storage (mk_buffer 4096 0 (replicate 128 170)) (mk_buffer 8192 0 (replicate 128 170))
    (mk_buffer 12288 0 (replicate 64 170)) (mk_buffer 16384 0 (replicate 64 170)).

Definition ex_broker : pbns_broker script :=
  default zero_broker (snd (@pbns_broker_init script x86_64 (Some zero_broker) (transport_of scripted)
    (platform_of scripted) ex_storage)).

Definition ex_id : bytes := replicate 16 5.

(** A world in which the peer sends [input]. *)
Definition ex_world (input : list bytes) : script := mk_script false [] [] input 100%nat.

Lemma filled_ok n : bytes_ok (replicate n 170).
Proof. by apply Forall_replicate. Qed.


Lemma ex_broker_ready : @wf script x86_64 scripted ex_broker /\ idle ex_broker.
Proof.
  split; [|by vm_compute].
  unfold wf, wf_parts. split_and!; try reflexivity; try (by vm_compute).
  unfold storage_ok. split_and!; try reflexivity; try (by vm_compute);
    exact (filled_ok _).
Qed.

Lemma ex_id_ok : id_ok ex_id.
Proof. unfold id_ok. split_and!; try done. octets. Qed.

Definition ex_body : pbns_view := mk_view 20480 [1; 2; 3].

(** The records of a peer that answers the session [ex_id]. *)
Definition ex_record (type sequence : Z) (payload : bytes) : bytes :=
  frame_wire (mk_frame PBNS_SERVICE_RECOVERY_ARTIFACT type 0 ex_id sequence) payload.

Definition ex_run {A} (m : M script A) (c : cfg script) : option (A * cfg script) :=
  match m c with Ret r => Some r | _ => None end.

Definition ex_request (input : list bytes) :=
  ex_run (@broker_request script x86_64 reference_qcbor 20 PBNS_SERVICE_RECOVERY_ARTIFACT (Some ex_id) ex_body 1000)
    (ex_broker, ex_world input).

(** The response arrives in pieces. *)
Example ex_request_answered :
  let r := ex_record PBNS_MESSAGE_RESPONSE 0 [9; 0; 8] in
  (fun '((st, resp), (_, w)) => (st, v_data (rs_payload resp), sc_open w, sc_sent w))
    <$> ex_request [take 7 r; drop 7 r]
  = Some (PBNS_OK, [9; 0; 8], false, [ex_record PBNS_MESSAGE_REQUEST 0 [1; 2; 3]]).
Proof. vm_compute. reflexivity. Qed.

(** No response: the deadline passes and the session is cancelled. *)
Example ex_request_expired :
  (fun '((st, resp), (_, w)) => (st, sc_open w, length (sc_sent w)))
    <$> ex_run (@broker_request script x86_64 reference_qcbor 20 PBNS_SERVICE_RECOVERY_ARTIFACT (Some ex_id) ex_body 3)
          (ex_broker, ex_world [])
  = Some (PBNS_ERR_TIMEOUT, false, 2%nat).
Proof. vm_compute. reflexivity. Qed.

Lemma ex_body_ok : bytes_ok (v_data ex_body).
Proof. unfold ex_body. cbn [v_data]. octets. Qed.

Lemma broker_request_contract_witness :
  exists fuel0, forall fuel, (fuel0 <= fuel)%nat ->
  exists st resp b' w',
    @broker_request script x86_64 reference_qcbor fuel PBNS_SERVICE_RECOVERY_ARTIFACT (Some ex_id) ex_body 1000
      (ex_broker, ex_world [ex_record PBNS_MESSAGE_RESPONSE 0 [9; 0; 8]]) = Ret (st, resp, (b', w')).
Proof.
  destruct (@broker_request_contract script x86_64 reference_qcbor scripted scripted_laws scripted_ticking ex_broker
    (ex_world [ex_record PBNS_MESSAGE_RESPONSE 0 [9; 0; 8]]) PBNS_SERVICE_RECOVERY_ARTIFACT 1000 (Some ex_id) ex_body
    (proj1 ex_broker_ready) (proj2 ex_broker_ready) eq_refl
    ltac:(intros id' [= <-]; exact ex_id_ok) ex_body_ok) as (fuel0 & Hf).
  exists fuel0. intros fuel Hle. destruct (Hf fuel Hle) as (st & resp & b' & w' & E & _).
  exists st, resp, b', w'. exact E.
Defined.

(** A download of five octets in two records, with the end of the download. *)
Definition ex_download : list bytes :=
  [ex_record PBNS_MESSAGE_DATA 0 [1; 2; 3]; ex_record PBNS_MESSAGE_DATA 1 [4; 5];
   ex_record PBNS_MESSAGE_COMPLETE 2 []].

Definition ex_cfg {A} (r : res (A * cfg script)) : cfg script :=
  match r with Ret (_, c) => c | _ => (zero_broker, ex_world []) end.

Definition ex_bulk_begun : res (pbns_status * cfg script) :=
  @broker_bulk_begin script x86_64 PBNS_SERVICE_RECOVERY_ARTIFACT ex_id ex_body 5 1000
    (ex_broker, ex_world ex_download).
Definition ex_bulk_1 := @broker_bulk_receive script x86_64 reference_qcbor 20 (ex_cfg ex_bulk_begun).
Definition ex_bulk_2 := @broker_bulk_receive script x86_64 reference_qcbor 20 (ex_cfg ex_bulk_1).
Definition ex_bulk_3 := @broker_bulk_receive script x86_64 reference_qcbor 20 (ex_cfg ex_bulk_2).

Definition ex_status {A B} (r : res (pbns_status * A * B)) : option (pbns_status * A) :=
  match r with Ret (st, a, _) => Some (st, a) | _ => None end.

Example ex_bulk_run :
  ((fun '(st, resp) => (st, v_data (rs_payload resp))) <$> ex_status ex_bulk_1,
   (fun '(st, resp) => (st, v_data (rs_payload resp))) <$> ex_status ex_bulk_2,
   (fun '(st, resp) => (st, v_data (rs_payload resp))) <$> ex_status ex_bulk_3,
   fst <$> ex_run broker_bulk_finish (ex_cfg ex_bulk_2), fst <$> ex_run broker_bulk_finish (ex_cfg ex_bulk_3))
  = (Some (PBNS_OK, [1; 2; 3]), Some (PBNS_OK, [4; 5]), Some (PBNS_OK, []), Some PBNS_ERR_STATE, Some PBNS_OK).
Proof. vm_compute. reflexivity. Qed.

Definition ex_value {A} (r : res (A * cfg script)) : option A :=
  match r with Ret (a, _) => Some a | _ => None end.

Lemma ex_value_cfg {A} (r : res (A * cfg script)) a : ex_value r = Some a -> r = Ret (a, ex_cfg r).
Proof. destruct r as [[x c]| |]; [|done|done]. by intros [= ->]. Qed.

(** Two steps of a session, both successful. *)
Lemma ex_two_steps (m : res (pbns_status * cfg script))
    (k1 k2 : cfg script -> res (pbns_status * pbns_broker_response * cfg script)) d1 d2 :
  match m with
  | Ret (PBNS_OK, c0) =>
      match k1 c0 with
      | Ret (PBNS_OK, r1, c1) =>
          match k2 c1 with
          | Ret (PBNS_OK, r2, c2) =>
              bytes_eqb (v_data (rs_payload r1)) d1 && bytes_eqb (v_data (rs_payload r2)) d2
          | _ => false
          end
      | _ => false
      end
  | _ => false
  end = true ->
  exists c0 r1 c1 r2 c2, m = Ret (PBNS_OK, c0) /\ k1 c0 = Ret (PBNS_OK, r1, c1) /\ k2 c1 = Ret (PBNS_OK, r2, c2)
  /\ v_data (rs_payload r1) = d1 /\ v_data (rs_payload r2) = d2.
Proof.
  destruct m as [[[] c0]| |]; try done. destruct (k1 c0) as [[[[] r1] c1]| |] eqn:E1; try done.
  destruct (k2 c1) as [[[[] r2] c2]| |] eqn:E2; try done. intros Hd. apply andb_true_iff in Hd as [H1 H2].
  apply bytes_eqb_spec in H1, H2. by exists c0, r1, c1, r2, c2.
Qed.

Lemma bulk_download_exact_witness :
  exists c, zlen (concat [[1; 2; 3]; [4; 5]]) <= 5 /\ exists st c', @broker_bulk_finish script c = Ret (st, c').
Proof.
  destruct (ex_two_steps (@broker_bulk_begin script x86_64 PBNS_SERVICE_RECOVERY_ARTIFACT ex_id ex_body 5 1000
      (ex_broker, ex_world ex_download)) (@broker_bulk_receive script x86_64 reference_qcbor 20)
      (@broker_bulk_receive script x86_64 reference_qcbor 20) [1; 2; 3] [4; 5] ltac:(vm_compute; reflexivity))
    as (c0 & r1 & c1 & r2 & c2 & H0 & H1 & H2 & E1 & E2).
  pose proof (@reach_begin script x86_64 reference_qcbor c0) as R0.
  pose proof (reach_receive _ _ _ _ _ _ _ R0 H1) as R1. pose proof (reach_receive _ _ _ _ _ _ _ R1 H2) as Hreach.
  rewrite E1, E2 in Hreach.
  destruct (@bulk_download_exact script x86_64 reference_qcbor scripted scripted_laws scripted_ticking ex_broker
    (ex_world ex_download) PBNS_SERVICE_RECOVERY_ARTIFACT 5 1000 ex_id ex_body c0 _ _ _
    (proj1 ex_broker_ready) (proj2 ex_broker_ready) eq_refl ex_id_ok ex_body_ok ltac:(split; discriminate) H0 Hreach)
    as (Hle & _ & _ & _ & _ & _ & st & c' & E & _).
  exists c2. split; [exact Hle|]. exists st, c'. exact E.
Defined.

(** An upload of two records, answered. *)
Definition ex_upload_begun : res (pbns_status * cfg script) :=
  @broker_upload_begin script x86_64 PBNS_SERVICE_RECOVERY_ARTIFACT ex_id ex_body 1000
    (ex_broker, ex_world [ex_record PBNS_MESSAGE_RESPONSE 0 [7]]).
Definition ex_chunk : pbns_view := mk_view 24576 [4; 0; 4].
Definition ex_upload_1 := @broker_upload_send script x86_64 reference_qcbor 20 ex_chunk false (ex_cfg ex_upload_begun).
Definition ex_upload_2 := @broker_upload_send script x86_64 reference_qcbor 20 ex_chunk true (ex_cfg ex_upload_1).

Example ex_upload_run :
  (ex_value ex_upload_1, (fun '(st, resp) => (st, v_data (rs_payload resp))) <$> ex_value ex_upload_2,
   sc_sent (snd (ex_cfg ex_upload_2)), ex_value (@broker_upload_finish script (ex_cfg ex_upload_2)))
  = (Some (PBNS_OK, zero_response), Some (PBNS_OK, [7]),
     [ex_record PBNS_MESSAGE_REQUEST 0 [1; 2; 3]; ex_record PBNS_MESSAGE_DATA 0 [4; 0; 4];
      ex_record PBNS_MESSAGE_DATA 1 [4; 0; 4]; ex_record PBNS_MESSAGE_COMPLETE 2 []],
     Some PBNS_OK).
Proof. vm_compute. reflexivity. Qed.

Lemma ex_chunk_ok : bytes_ok (v_data ex_chunk).
Proof. unfold ex_chunk. cbn [v_data]. octets. Qed.

Lemma upload_in_order_witness :
  exists c : cfg script, sc_sent (snd c)
  = [frame_wire (mk_frame PBNS_SERVICE_RECOVERY_ARTIFACT PBNS_MESSAGE_REQUEST 0 ex_id 0) (v_data ex_body);
     frame_wire (mk_frame PBNS_SERVICE_RECOVERY_ARTIFACT PBNS_MESSAGE_DATA 0 ex_id 0) (v_data ex_chunk)].
Proof.
  destruct (ex_two_steps (@broker_upload_begin script x86_64 PBNS_SERVICE_RECOVERY_ARTIFACT ex_id ex_body 1000
      (ex_broker, ex_world [ex_record PBNS_MESSAGE_RESPONSE 0 [7]]))
      (@broker_upload_send script x86_64 reference_qcbor 20 ex_chunk false)
      (@broker_upload_send script x86_64 reference_qcbor 20 ex_chunk true) [] [7] ltac:(vm_compute; reflexivity))
    as (c0 & r1 & c1 & r2 & c2 & H0 & H1 & _ & _ & _).
  pose proof (@upload_reach_begin script x86_64 reference_qcbor c0) as R0.
  pose proof (upload_reach_send _ _ _ _ _ _ _ R0 ex_chunk_ok H1) as Hreach.
  destruct (@upload_in_order script x86_64 reference_qcbor scripted scripted_laws scripted_ticking ex_broker
    (ex_world [ex_record PBNS_MESSAGE_RESPONSE 0 [7]]) PBNS_SERVICE_RECOVERY_ARTIFACT 1000 ex_id ex_body ex_chunk
    c0 _ _ true
    (proj1 ex_broker_ready) (proj2 ex_broker_ready) eq_refl ex_id_ok ex_body_ok ex_chunk_ok H0 Hreach)
    as (Hs & _).
  exists c1. exact Hs.
Defined.

Definition ex_active : pbns_broker script := set_active true (set_opened true (set_request_id ex_id ex_broker)).

Lemma broker_cancel_ends_witness :
  exists st b' w', @broker_cancel script x86_64 (ex_active, mk_script true [] [] [] 100%nat) = Ret (st, (b', w'))
  /\ idle b' /\ sc_open w' = false.
Proof.
  destruct (@broker_cancel_ends script x86_64 scripted scripted_laws ex_active (mk_script true [] [] [] 100%nat)
    (proj1 ex_broker_ready) eq_refl ex_id_ok) as (st & b' & w' & E & (_ & Hidle & Hl & _) & _).
  exists st, b', w'. exact (conj E (conj Hidle Hl)).
Defined.

(** Cancelling the upload. *)
Example ex_cancel_run :
  (fun '(st, (b, w)) => (st, k_active b, sc_open w, length (sc_sent w)))
    <$> ex_run (@broker_cancel script x86_64) (ex_cfg ex_upload_begun)
  = Some (PBNS_OK, false, false, 2%nat).
Proof. vm_compute. reflexivity. Qed.

(** A report of the code 9, with a text. *)
Example ex_report_run :
  ex_value (@decode_remote_error script reference_qcbor (error_report 9 2 [0x68; 0x69]) 2 (ex_broker, ex_world []))
  = status_of_code (-9).
Proof. vm_compute. reflexivity. Qed.

Lemma remote_error_canonical_witness :
  exists st s, @decode_remote_error script reference_qcbor (error_report 9 2 [0x68; 0x69]) 2
      (ex_broker, ex_world []) = Ret (st, (set_storage s ex_broker, ex_world [])) /\ st <> PBNS_OK.
Proof.
  destruct (@remote_error_canonical script x86_64 reference_qcbor scripted ex_broker (ex_world [])
    (error_report 9 2 [0x68; 0x69]) 2 (proj1 ex_broker_ready) ltac:(split; discriminate))
    as (st & s & E & _ & Hne & _).
  exists st, s. split; [exact E|exact Hne].
Defined.
