(* ===== verification/ByteRing.v ===== *)
(** * The byte ring of the proxy ([pico/src/byte_ring.c])

    A fixed buffer used as a queue.  A client writes into the region that
    [pbns_byte_ring_writable] gives and then commits it; it reads the region
    that [pbns_byte_ring_readable] gives and then consumes it.  The theorems
    show that the ring is a bounded first-in first-out queue of octets. *)

From stdpp Require Import base list numbers.
From Stdlib Require Import ZArith Lia.
From S2P Require Import Prelude Status Buffers.

(** ** The code *)

(** [storage] holds the address and the octets of the buffer. *)
Record pbns_byte_ring := mk_ring {
  g_storage : pbns_buffer;
  g_head : Z;
  g_length : Z;
  g_initialized : bool;
}.

Definition zero_ring : pbns_byte_ring := mk_ring null_buffer 0 0 false.

Definition g_cap (ring : pbns_byte_ring) : Z := b_cap (g_storage ring).

Definition ring_storage_is_valid (storage : pbns_buffer) : bool :=
  negb (b_ptr storage =? 0) && (b_len storage =? 0) && (0 <? b_cap storage).

Definition ring_is_valid (ring : pbns_byte_ring) : bool :=
  g_initialized ring && ring_storage_is_valid (g_storage ring)
  && (g_head ring <? g_cap ring) && (g_length ring <=? g_cap ring).

Definition ring_tail (ring : pbns_byte_ring) : Z :=
  let distance_to_end := g_cap ring - g_head ring in
  if distance_to_end <=? g_length ring then g_length ring - distance_to_end
  else g_head ring + g_length ring.

Definition writable_length (ring : pbns_byte_ring) : Z :=
  if g_length ring =? g_cap ring then 0
  else
    let tail := ring_tail ring in
    if tail <? g_head ring then g_head ring - tail else g_cap ring - tail.

Definition pbns_byte_ring_init (ring : ptr pbns_byte_ring) (storage : pbns_buffer) : ptr pbns_byte_ring :=
  match ring with
  | None => None
  | Some _ =>
      if negb (ring_storage_is_valid storage) then Some zero_ring
      else Some (mk_ring storage 0 0 true)
  end.

Definition ring_reset (ring : pbns_byte_ring) : pbns_byte_ring :=
  if negb (ring_is_valid ring) then ring
  else mk_ring (g_storage ring) 0 0 (g_initialized ring).

Definition pbns_byte_ring_reset (ring : ptr pbns_byte_ring) : ptr pbns_byte_ring :=
  match ring with None => None | Some ring => Some (ring_reset ring) end.

Definition pbns_byte_ring_capacity (ring : ptr pbns_byte_ring) : Z :=
  match ring with None => 0 | Some ring => if ring_is_valid ring then g_cap ring else 0 end.

Definition pbns_byte_ring_size (ring : ptr pbns_byte_ring) : Z :=
  match ring with None => 0 | Some ring => if ring_is_valid ring then g_length ring else 0 end.

(** The region is the octets of the storage at its address. *)
Definition ring_writable (ring : pbns_byte_ring) : pbns_status * pbns_buffer :=
  if negb (ring_is_valid ring) then (PBNS_ERR_STATE, null_buffer)
  else
    let available := writable_length ring in
    if available =? 0 then (PBNS_OK, null_buffer)
    else
      let tail := ring_tail ring in
      (PBNS_OK, mk_buffer (b_ptr (g_storage ring) + tail) 0 (slice (b_data (g_storage ring)) tail available)).

Definition pbns_byte_ring_writable (ring : ptr pbns_byte_ring) (writable : ptr pbns_buffer)
  : pbns_status * ptr pbns_buffer :=
  match writable with
  | None => (PBNS_ERR_ARGUMENT, None)
  | Some _ =>
      match ring with
      | None => (PBNS_ERR_STATE, Some null_buffer)
      | Some ring => let '(status, region) := ring_writable ring in (status, Some region)
      end
  end.

Definition ring_commit (ring : pbns_byte_ring) (amount : Z) : pbns_status * pbns_byte_ring :=
  if negb (ring_is_valid ring) then (PBNS_ERR_STATE, ring)
  else if writable_length ring <? amount then (PBNS_ERR_LIMIT, ring)
  else (PBNS_OK, mk_ring (g_storage ring) (g_head ring) (g_length ring + amount) (g_initialized ring)).

Definition pbns_byte_ring_commit (ring : ptr pbns_byte_ring) (amount : Z) : pbns_status * ptr pbns_byte_ring :=
  match ring with
  | None => (PBNS_ERR_STATE, None)
  | Some ring => let '(status, ring) := ring_commit ring amount in (status, Some ring)
  end.

Definition contiguous_length (ring : pbns_byte_ring) : Z :=
  if g_length ring <? g_cap ring - g_head ring then g_length ring else g_cap ring - g_head ring.

Definition ring_readable (ring : pbns_byte_ring) : pbns_status * pbns_view :=
  if negb (ring_is_valid ring) then (PBNS_ERR_STATE, null_view)
  else if g_length ring =? 0 then (PBNS_OK, null_view)
  else (PBNS_OK, mk_view (b_ptr (g_storage ring) + g_head ring)
                   (slice (b_data (g_storage ring)) (g_head ring) (contiguous_length ring))).

Definition pbns_byte_ring_readable (ring : ptr pbns_byte_ring) (readable : ptr pbns_view)
  : pbns_status * ptr pbns_view :=
  match readable with
  | None => (PBNS_ERR_ARGUMENT, None)
  | Some _ =>
      match ring with
      | None => (PBNS_ERR_STATE, Some null_view)
      | Some ring => let '(status, view) := ring_readable ring in (status, Some view)
      end
  end.

Definition ring_consume (ring : pbns_byte_ring) (amount : Z) : pbns_status * pbns_byte_ring :=
  if negb (ring_is_valid ring) then (PBNS_ERR_STATE, ring)
  else if contiguous_length ring <? amount then (PBNS_ERR_LIMIT, ring)
  else if amount =? g_length ring then (PBNS_OK, mk_ring (g_storage ring) 0 0 (g_initialized ring))
  else
    let head := g_head ring + amount in
    let length := g_length ring - amount in
    let head := if head =? g_cap ring then 0 else head in
    (PBNS_OK, mk_ring (g_storage ring) head length (g_initialized ring)).

Definition pbns_byte_ring_consume (ring : ptr pbns_byte_ring) (amount : Z) : pbns_status * ptr pbns_byte_ring :=
  match ring with
  | None => (PBNS_ERR_STATE, None)
  | Some ring => let '(status, ring) := ring_consume ring amount in (status, Some ring)
  end.

(** A client that overwrites the region it was given with [region]. *)
Definition ring_fill (ring : pbns_byte_ring) (region : bytes) : pbns_byte_ring :=
  mk_ring (with_data (g_storage ring) (splice (b_data (g_storage ring)) (ring_tail ring) region))
    (g_head ring) (g_length ring) (g_initialized ring).

(** ** The queue that a ring stands for *)

Definition ring_contents (ring : pbns_byte_ring) : bytes :=
  let data := b_data (g_storage ring) in
  let h := Z.to_nat (g_head ring) in
  take (Z.to_nat (g_length ring)) (drop h data ++ take h data).

Definition ring_wf (ring : pbns_byte_ring) : Prop :=
  g_initialized ring = true /\ b_ptr (g_storage ring) <> 0 /\ b_len (g_storage ring) = 0
  /\ 0 <= g_head ring < g_cap ring /\ 0 <= g_length ring <= g_cap ring.

(** ** Lemmas *)

Lemma ring_wf_valid r : ring_wf r -> ring_is_valid r = true.
Proof.
  intros (Hi & Hp & Hl & Hh & Hn). unfold ring_is_valid, ring_storage_is_valid, g_cap in *. rewrite Hi, Hl.
  rewrite !andb_true_iff, negb_true_iff, Z.eqb_neq, !Z.ltb_lt, Z.leb_le. split_and!; try done; lia.
Qed.

Lemma ring_contents_length r : ring_wf r -> zlen (ring_contents r) = g_length r.
Proof. intros (_ & _ & _ & Hh & Hn). unfold ring_contents, g_cap, b_cap in *. lens. lia. Qed.

Lemma ring_tail_range r : ring_wf r -> 0 <= ring_tail r < g_cap r /\ 0 <= writable_length r
  /\ ring_tail r + writable_length r <= g_cap r.
Proof.
  intros (_ & _ & _ & Hh & Hn). unfold writable_length, ring_tail. cbv zeta. zbool; lia.
Qed.

(** The ring is full exactly when no octet can be written. *)
Lemma writable_length_0 r : ring_wf r -> writable_length r = 0 <-> g_length r = g_cap r.
Proof. intros (_ & _ & _ & Hh & Hn). unfold writable_length, ring_tail. cbv zeta. zbool; lia. Qed.

Lemma ring_init_contents storage :
  ring_storage_is_valid storage = true -> ring_wf (mk_ring storage 0 0 true)
  /\ ring_contents (mk_ring storage 0 0 true) = [].
Proof.
  unfold ring_storage_is_valid. intros Hv. bools. unfold ring_wf, g_cap. cbn. split_and!; try done; lia.
Qed.

Lemma ring_reset_wf r : ring_wf r -> ring_wf (ring_reset r) /\ ring_contents (ring_reset r) = []
  /\ g_storage (ring_reset r) = g_storage r.
Proof.
  intros Hw. unfold ring_reset. rewrite (ring_wf_valid r Hw). cbn [negb].
  destruct Hw as (Hi & Hp & Hl & Hh & Hn). unfold ring_wf, g_cap in *. cbn. split_and!; try done; lia.
Qed.

(** How the queue [c] lies in the storage: in one run that ends before the end
    of the storage, or in a run [a] up to the end and a run [b] at the start. *)
Definition ring_shape (D : bytes) (h n : Z) (c : bytes) : Prop :=
  n = zlen c /\
  ((exists P S, D = P ++ c ++ S /\ h = zlen P /\ S <> [])
   \/ exists a b M, c = a ++ b /\ D = b ++ M ++ a /\ h = zlen b + zlen M /\ a <> []).

Lemma ring_shape_contents D h n c :
  ring_shape D h n c -> take (Z.to_nat n) (drop (Z.to_nat h) D ++ take (Z.to_nat h) D) = c.
Proof.
  intros [-> [(P & S & -> & -> & _)|(a & b & M & -> & -> & -> & _)]].
  - rewrite !Nat2Z.id, drop_app_length, <- app_assoc, take_app_length. done.
  - rewrite app_assoc. replace (zlen b + zlen M) with (zlen (b ++ M)) by llia.
    rewrite !Nat2Z.id, drop_app_length, take_app_length, app_assoc, take_app_length. done.
Qed.

Lemma ring_wf_shape r :
  ring_wf r -> ring_shape (b_data (g_storage r)) (g_head r) (g_length r) (ring_contents r).
Proof.
  intros Hw. split; [by rewrite ring_contents_length|]. destruct Hw as (_ & _ & _ & Hh & Hn).
  unfold ring_contents, g_cap, b_cap in *. set (D := b_data (g_storage r)) in *. set (h := g_head r) in *.
  set (n := g_length r) in *. destruct (Z.leb_spec (zlen D - h) n).
  - right. exists (drop (Z.to_nat h) D), (take (Z.to_nat (n - (zlen D - h))) D),
      (slice D (n - (zlen D - h)) (zlen D - n)). unfold slice. split_and!.
    + rewrite take_app, length_drop, take_take. rewrite (take_ge (drop _ _)) by llia. do 2 f_equal. lia.
    + rewrite app_assoc, take_take_drop. rewrite <- (take_drop (Z.to_nat h) D) at 1. do 2 f_equal. lia.
    + lens. lia.
    + intros E%(f_equal length). lens. lia.
  - left. exists (take (Z.to_nat h) D), (drop (Z.to_nat (h + n)) D). split_and!.
    + rewrite take_app_le by llia. rewrite <- (take_drop (Z.to_nat h) D) at 1. f_equal.
      rewrite <- (take_drop (Z.to_nat n) (drop (Z.to_nat h) D)) at 1. rewrite drop_drop. do 2 f_equal. lia.
    + llia.
    + intros E%(f_equal length). lens. lia.
Qed.

(** The region that a client may write, in the two layouts. *)
Lemma ring_shape_tail r :
  ring_wf r ->
  (exists P S, b_data (g_storage r) = P ++ ring_contents r ++ S /\ g_head r = zlen P /\ S <> []
     /\ ring_tail r = zlen (P ++ ring_contents r) /\ writable_length r = zlen S)
  \/ exists a b M, ring_contents r = a ++ b /\ b_data (g_storage r) = b ++ M ++ a
     /\ g_head r = zlen b + zlen M /\ a <> [] /\ ring_tail r = zlen b /\ writable_length r = zlen M.
Proof.
  intros Hw. destruct (ring_wf_shape r Hw) as [Hn Hs]. unfold writable_length, ring_tail, g_cap, b_cap. cbv zeta.
  rewrite Hn. destruct Hs as [(P & S & E & Hh & HS)|(a & b & M & Ec & E & Hh & Ha)].
  - left. exists P, S. rewrite E, Hh. assert (0 < zlen S) by (destruct S; [done|cbn; lia]).
    split_and!; try done; lens; zbool; lia.
  - right. exists a, b, M. rewrite E, Hh, Ec. assert (0 < zlen a) by (destruct a; [done|cbn; lia]).
    split_and!; try done; lens; zbool; lia.
Qed.

Lemma splice_fill (l R m r : bytes) :
  (length R <= length m)%nat ->
  splice (l ++ m ++ r) (zlen l) R = l ++ (R ++ drop (length R) m) ++ r.
Proof.
  intros Hl. unfold splice. rewrite Nat2Z.id, take_app_length. f_equal. rewrite <- app_assoc. f_equal.
  rewrite drop_app, drop_ge by lia. cbn [app]. rewrite drop_app_le by lia. do 2 f_equal. lia.
Qed.

(** A ring of a given shape stands for that queue. *)
Lemma shape_ring_wf r D h n c :
  ring_wf r -> length D = length (b_data (g_storage r)) -> ring_shape D h n c ->
  let r' := mk_ring (with_data (g_storage r) D) h n (g_initialized r) in
  ring_wf r' /\ ring_contents r' = c.
Proof.
  intros (Hi & Hp & Hl & _ & _) HD Hs r'. split.
  - unfold ring_wf, g_cap, b_cap. cbn. destruct Hs as [-> [(P & S & -> & -> & HS)|(a & b & M & -> & -> & -> & Ha)]].
    + destruct S; [done|]. split_and!; try done; llia.
    + destruct a; [done|]. split_and!; try done; llia.
  - unfold ring_contents. cbn [r' g_storage g_head g_length with_data b_data]. by apply ring_shape_contents.
Qed.

(** Writing into the region leaves the queue alone; committing appends what was
    written to it. *)
Lemma ring_fill_commit r region amount :
  ring_wf r -> zlen region = writable_length r -> 0 <= amount <= zlen region ->
  let r' := mk_ring (g_storage (ring_fill r region)) (g_head r) (g_length r + amount) (g_initialized r) in
  ring_wf r' /\ ring_contents r' = ring_contents r ++ take (Z.to_nat amount) region.
Proof.
  intros Hw Hr Ha r'.
  assert (Hlen : length (splice (b_data (g_storage r)) (ring_tail r) region) = length (b_data (g_storage r))).
  { pose proof (ring_tail_range r Hw). apply splice_length; unfold g_cap, b_cap in *; lia. }
  apply shape_ring_wf; [done..|]. split; [rewrite <- ring_contents_length by done; llia|].
  destruct (ring_shape_tail r Hw) as [(P & S & E & Hh & HS & Ht & Hwl)|(a & b & M & Ec & E & Hh & Hna & Ht & Hwl)].
  - rewrite E, Ht. rewrite <- (app_nil_r S), app_assoc, splice_fill by lia. rewrite (drop_ge S) by lia.
    rewrite !app_nil_r. destruct (decide (amount = zlen region)) as [-> |Hne].
    + right. exists (ring_contents r ++ region), [], P. cbn [app length]. rewrite Nat2Z.id, firstn_all, !app_nil_r.
      split; [done|]. split; [by rewrite <- app_assoc|]. split; [lia|].
      intros E'%(f_equal length). destruct S; [done|]. cbn [length] in Hwl. llia.
    + left. exists P, (drop (Z.to_nat amount) region). rewrite <- !app_assoc, take_drop.
      split_and!; try done. intros E'%(f_equal length). lens. lia.
  - right. rewrite E, Ht, splice_fill by lia. rewrite (drop_ge M) by lia. rewrite app_nil_r.
    exists a, (b ++ take (Z.to_nat amount) region), (drop (Z.to_nat amount) region).
    split_and!; try done; [by rewrite Ec, <- app_assoc| |llia].
    rewrite <- (take_drop (Z.to_nat amount) region) at 1. by rewrite <- !app_assoc.
Qed.

Lemma ring_fill_wf r region :
  ring_wf r -> zlen region = writable_length r -> ring_wf (ring_fill r region)
  /\ ring_contents (ring_fill r region) = ring_contents r
  /\ writable_length (ring_fill r region) = writable_length r.
Proof.
  intros Hw Hr. pose proof (ring_fill_commit r region 0 Hw Hr ltac:(lia)) as Hf. cbv zeta in Hf.
  rewrite Z.add_0_r, app_nil_r in Hf. destruct Hf as [Hwf Hc]. split_and!; try done.
  assert (Hcap : g_cap (ring_fill r region) = g_cap r).
  { unfold g_cap, b_cap. cbn. pose proof (ring_tail_range r Hw).
    rewrite splice_length; unfold g_cap, b_cap in *; try lia. }
  unfold writable_length, ring_tail. rewrite Hcap. done.
Qed.

(** The readable region is the start of the queue. *)
Lemma ring_readable_prefix r :
  ring_wf r ->
  slice (b_data (g_storage r)) (g_head r) (contiguous_length r) = take (Z.to_nat (contiguous_length r)) (ring_contents r)
  /\ 0 <= contiguous_length r <= zlen (ring_contents r)
  /\ (contiguous_length r = 0 <-> ring_contents r = []).
Proof.
  intros Hw. pose proof (ring_contents_length r Hw) as Hl.
  assert (Hr : 0 <= contiguous_length r <= g_length r /\ contiguous_length r <= g_cap r - g_head r
    /\ (contiguous_length r = 0 <-> g_length r = 0)).
  { destruct Hw as (_ & _ & _ & Hh & Hn). unfold contiguous_length. zbool; lia. }
  rewrite Hl. split_and!; try lia.
  - unfold ring_contents, slice. rewrite take_take. rewrite Nat.min_l by lia.
    unfold g_cap, b_cap in Hr. destruct Hw as (_ & _ & _ & Hh & _). unfold g_cap, b_cap in Hh.
    rewrite take_app_le; [done|llia].
  - destruct (ring_contents r); cbn in Hl; split; intros; try done; lia.
Qed.

Lemma ring_consume_ok r amount :
  ring_wf r -> 0 <= amount <= contiguous_length r ->
  exists r', ring_consume r amount = (PBNS_OK, r') /\ ring_wf r' /\ g_storage r' = g_storage r
  /\ ring_contents r' = drop (Z.to_nat amount) (ring_contents r).
Proof.
  intros Hw Ha. pose proof (ring_readable_prefix r Hw) as (_ & Hc & _).
  pose proof (ring_contents_length r Hw) as Hl. unfold ring_consume. rewrite (ring_wf_valid r Hw). cbn [negb].
  destruct (Z.ltb_spec (contiguous_length r) amount); [lia|].
  pose proof Hw as (Hi & Hp & Hbl & Hh & Hn).
  assert (Hcl : contiguous_length r <= g_cap r - g_head r) by (unfold contiguous_length; zbool; lia).
  destruct (Z.eqb_spec amount (g_length r)) as [-> |Hne]; eexists; (split; [reflexivity|]).
  { rewrite drop_ge by lia. unfold ring_wf, g_cap in *. cbn. split_and!; try done; lia. }
  cbv zeta. split; [|split; [done|]].
  { unfold ring_wf, g_cap in *. cbn. destruct (Z.eqb_spec (g_head r + amount) (b_cap (g_storage r)));
      split_and!; try done; lia. }
  unfold ring_contents. cbn [g_storage g_head g_length].
  set (D := b_data (g_storage r)) in *. unfold g_cap, b_cap in *. fold D in Hcl, Hh, Hn |- *.
  rewrite skipn_firstn_comm. replace (Z.to_nat (g_length r) - Z.to_nat amount)%nat with (Z.to_nat (g_length r - amount)) by lia.
  rewrite drop_app_le by llia. rewrite drop_drop.
  destruct (Z.eqb_spec (g_head r + amount) (zlen D)) as [E|E].
  - cbn [Z.to_nat]. rewrite drop_0, take_0, app_nil_r. rewrite (drop_ge D (_ + _)) by lia. cbn [app].
    rewrite take_take. f_equal. lia.
  - replace (Z.to_nat (g_head r) + Z.to_nat amount)%nat with (Z.to_nat (g_head r + amount)) by lia.
    rewrite !take_app, !take_take. f_equal. f_equal. lens. lia.
Qed.

Lemma ring_commit_ok r amount :
  ring_wf r -> amount <= writable_length r ->
  ring_commit r amount
  = (PBNS_OK, mk_ring (g_storage r) (g_head r) (g_length r + amount) (g_initialized r)).
Proof.
  intros Hw Ha. unfold ring_commit. rewrite (ring_wf_valid r Hw). cbn [negb].
  destruct (Z.ltb_spec (writable_length r) amount); [lia|done].
Qed.

Lemma ring_writable_cap r :
  ring_wf r -> exists region, ring_writable r = (PBNS_OK, region) /\ b_cap region = writable_length r
  /\ (writable_length r <> 0 ->
      region = mk_buffer (b_ptr (g_storage r) + ring_tail r) 0
                 (slice (b_data (g_storage r)) (ring_tail r) (writable_length r))).
Proof.
  intros Hw. pose proof (ring_tail_range r Hw) as Ht. unfold ring_writable. rewrite (ring_wf_valid r Hw).
  cbn [negb]. cbv zeta. destruct (Z.eqb_spec (writable_length r) 0) as [E|E]; eexists; (split; [reflexivity|]).
  - rewrite E. done.
  - split; [|done]. unfold b_cap. cbn [b_data]. apply slice_length; unfold g_cap, b_cap in *; lia.
Qed.

Lemma ring_readable_view r :
  ring_wf r -> exists view, ring_readable r = (PBNS_OK, view)
  /\ v_data view = take (Z.to_nat (contiguous_length r)) (ring_contents r)
  /\ v_len view = contiguous_length r.
Proof.
  intros Hw. pose proof (ring_readable_prefix r Hw) as (Hs & Hc & _). pose proof (ring_contents_length r Hw) as Hl.
  unfold ring_readable. rewrite (ring_wf_valid r Hw). cbn [negb].
  destruct (Z.eqb_spec (g_length r) 0) as [E|E]; eexists; (split; [reflexivity|]); unfold v_len; cbn [v_data].
  - assert (E2 : contiguous_length r = 0) by lia. by rewrite E2.
  - rewrite Hs. split; [done|]. rewrite length_take. lia.
Qed.

(** ** Clients of the ring

    A client that writes the region it is given and commits some of it, or
    reads the region it is given and consumes some of it.  The result is the
    ring, what was put in and what was taken out. *)

Inductive ring_action := RingPut (region : bytes) (amount : Z) | RingGet (amount : Z).

Definition ring_act (r : pbns_byte_ring) (act : ring_action) : pbns_byte_ring * bytes * bytes :=
  match act with
  | RingPut region amount =>
      let '(status, writable) := ring_writable r in
      if negb (is_ok status) || negb (zlen region =? b_cap writable) then (r, [], [])
      else
        let r := ring_fill r region in
        let '(status, r) := ring_commit r amount in
        (r, if is_ok status then take (Z.to_nat amount) region else [], [])
  | RingGet amount =>
      let '(status, readable) := ring_readable r in
      let '(status, r) := ring_consume r amount in
      (r, [], if is_ok status then take (Z.to_nat amount) (v_data readable) else [])
  end.

Fixpoint ring_acts (r : pbns_byte_ring) (acts : list ring_action) : pbns_byte_ring * bytes * bytes :=
  match acts with
  | [] => (r, [], [])
  | act :: acts =>
      let '(r, put, got) := ring_act r act in
      let '(r, puts, gots) := ring_acts r acts in
      (r, put ++ puts, got ++ gots)
  end.

Definition amount_ok (act : ring_action) : Prop :=
  match act with RingPut _ amount | RingGet amount => 0 <= amount end.

Lemma ring_act_fifo r act :
  ring_wf r -> amount_ok act ->
  let '(r', put, got) := ring_act r act in
  ring_wf r' /\ g_cap r' = g_cap r /\ ring_contents r ++ put = got ++ ring_contents r'.
Proof.
  intros Hw Ha. destruct act as [region amount|amount]; cbn [amount_ok ring_act] in *.
  - destruct (ring_writable_cap r Hw) as (buf & -> & Hc & _). cbn [is_ok negb orb].
    destruct (Z.eqb_spec (zlen region) (b_cap buf)) as [E|]; cbn [negb]; [|by rewrite app_nil_r].
    rewrite Hc in E. destruct (ring_fill_wf r region Hw E) as (Hw1 & Hc1 & Hwl).
    assert (Hcap : g_cap (ring_fill r region) = g_cap r).
    { pose proof (ring_tail_range r Hw). unfold g_cap, b_cap in *. cbn. rewrite splice_length; lia. }
    unfold ring_commit. rewrite (ring_wf_valid _ Hw1). cbn [negb]. rewrite Hwl.
    destruct (Z.ltb_spec (writable_length r) amount); cbn [is_ok].
    + by rewrite app_nil_r, Hc1.
    + destruct (ring_fill_commit r region amount Hw E ltac:(lia)) as [Hw2 Hc2].
      split; [done|]. split; [exact Hcap|by rewrite <- Hc2].
  - destruct (ring_readable_view r Hw) as (view & -> & Hv & Hl).
    pose proof (ring_readable_prefix r Hw) as (_ & Hc & _).
    destruct (Z.ltb_spec (contiguous_length r) amount) as [Hlt|Hge].
    + unfold ring_consume. rewrite (ring_wf_valid r Hw). cbn [negb]. rewrite (proj2 (Z.ltb_lt _ _) Hlt).
      cbn [is_ok]. by rewrite app_nil_r.
    + destruct (ring_consume_ok r amount Hw ltac:(lia)) as (r' & -> & Hw' & Hst & Hc'). cbn [is_ok].
      split; [done|]. split; [unfold g_cap; by rewrite Hst|].
      rewrite Hv, take_take, Nat.min_l, Hc', take_drop, app_nil_r by lia. done.
Qed.

Lemma ring_acts_fifo acts : forall r, ring_wf r -> Forall amount_ok acts ->
  let '(r', puts, gots) := ring_acts r acts in
  ring_wf r' /\ g_cap r' = g_cap r /\ ring_contents r ++ puts = gots ++ ring_contents r'.
Proof.
  induction acts as [|act acts IH]; intros r Hw Ha; cbn [ring_acts]; [by rewrite app_nil_r|].
  apply Forall_cons_iff in Ha as [Ha Has]. pose proof (ring_act_fifo r act Hw Ha) as H1.
  destruct (ring_act r act) as [[r1 put] got]. destruct H1 as (Hw1 & Hc1 & E1). specialize (IH r1 Hw1 Has).
  destruct (ring_acts r1 acts) as [[r2 puts] gots]. destruct IH as (Hw2 & Hc2 & E2).
  split; [done|]. split; [congruence|]. rewrite app_assoc, E1, <- app_assoc, E2. by rewrite app_assoc.
Qed.

(** ** Properties *)


Definition ex_ring_storage : pbns_buffer := mk_buffer 4096 0 [0; 0; 0; 0].
Definition ex_ring_acts : list ring_action :=
  [RingPut [1; 2; 3; 4] 3; RingGet 2; RingPut [9] 1; RingPut [5; 6] 2; RingGet 2; RingGet 1].

Example ex_ring_run :
  let '(r, puts, gots) := ring_acts (mk_ring ex_ring_storage 0 0 true) ex_ring_acts in
  (puts, gots, ring_contents r) = ([1; 2; 3; 9; 5; 6], [1; 2; 3; 9; 5], [6]).
Proof. reflexivity. Qed.

