(* ===== verification/BytePump.v ===== *)
(** * The byte pump of the proxy ([pico/src/byte_pump.c])

    The pump moves octets between two endpoints, USB and TLS, through a ring per
    direction.  An endpoint is a pair of callbacks over the state of the world;
    a callback returns an integer status, which the pump checks before it
    trusts it.  The theorems show that what one side receives is what the other
    side sent, in order, without loss or duplication. *)

From stdpp Require Import base list numbers.
From Stdlib Require Import ZArith Lia.
From S2P Require Import Prelude Status Buffers ByteRing.

(** ** The code *)

Definition PBNS_BYTE_PUMP_BATCH_MAX_STEPS : Z := 8.

(** [read] may write the region it is given: it returns its new octets. *)
Record pbns_pump_endpoint (W : Type) := mk_pump_endpoint {
  ep_read : ptr (W -> bytes -> Z * Z * bytes * W);
  ep_write : ptr (W -> bytes -> Z * Z * W);
}.
Arguments mk_pump_endpoint {W}.
Arguments ep_read {W}.
Arguments ep_write {W}.

Record pbns_pump_session := mk_pump_session { ps_connected : bool; ps_initialized : bool }.

Record pbns_byte_pump_policy := mk_policy {
  usb_to_tls_minimum_write : Z;
  tls_to_usb_minimum_writable : Z;
  force_usb_to_tls_write : bool;
}.

Definition default_policy : pbns_byte_pump_policy := mk_policy 0 0 false.

Record pbns_byte_pump := mk_pump {
  p_usb_to_tls : pbns_byte_ring;
  p_tls_to_usb : pbns_byte_ring;
  p_usb_source_closed : bool;
  p_tls_source_closed : bool;
  p_usb_to_tls_read_generation : Z;
  p_usb_to_tls_write_generation : Z;
  p_initialized : bool;
  p_cancelled : bool;
  p_failed : bool;
}.

Definition zero_pump : pbns_byte_pump := mk_pump zero_ring zero_ring false false 0 0 false false false.

Section pump.
Context `{Machine} {W : Type}.

Definition pump_buffers_overlap (left right : pbns_buffer) : bool :=
  if (UINTPTR_MAX - b_ptr left <? b_cap left) || (UINTPTR_MAX - b_ptr right <? b_cap right) then true
  else (b_ptr left <? b_ptr right + b_cap right) && (b_ptr right <? b_ptr left + b_cap left).

Definition endpoint_is_valid (endpoint : pbns_pump_endpoint W) : bool :=
  match ep_read endpoint, ep_write endpoint with Some _, Some _ => true | _, _ => false end.

Definition status_is_typed (status : Z) : bool :=
  (status_code PBNS_ERR_BUSY <=? status) && (status <=? status_code PBNS_OK).

(** The pointers of a direction into the pump are the values of the fields; the
    step writes them back.  A counter that is not counted is [None]. *)
Record pump_direction := mk_direction {
  d_ring : pbns_byte_ring;
  d_source : pbns_pump_endpoint W;
  d_sink : pbns_pump_endpoint W;
  d_source_closed : bool;
  d_source_read_generation : ptr Z;
  d_sink_write_generation : ptr Z;
  d_minimum_write : Z;
  d_minimum_writable : Z;
  d_force_write : bool;
}.

Definition with_ring (d : pump_direction) (ring : pbns_byte_ring) : pump_direction :=
  mk_direction ring (d_source d) (d_sink d) (d_source_closed d) (d_source_read_generation d)
    (d_sink_write_generation d) (d_minimum_write d) (d_minimum_writable d) (d_force_write d).
Definition with_closed (d : pump_direction) : pump_direction :=
  mk_direction (d_ring d) (d_source d) (d_sink d) true (d_source_read_generation d)
    (d_sink_write_generation d) (d_minimum_write d) (d_minimum_writable d) (d_force_write d).
Definition count_read (d : pump_direction) : pump_direction :=
  mk_direction (d_ring d) (d_source d) (d_sink d) (d_source_closed d)
    ((fun g => size_add g 1) <$> d_source_read_generation d)
    (d_sink_write_generation d) (d_minimum_write d) (d_minimum_writable d) (d_force_write d).
Definition count_write (d : pump_direction) : pump_direction :=
  mk_direction (d_ring d) (d_source d) (d_sink d) (d_source_closed d) (d_source_read_generation d)
    ((fun g => size_add g 1) <$> d_sink_write_generation d)
    (d_minimum_write d) (d_minimum_writable d) (d_force_write d).

Definition should_hold_write (d : pump_direction) : bool :=
  let size := pbns_byte_ring_size (Some (d_ring d)) in
  negb (d_minimum_write d =? 0) && (size <? d_minimum_write d) && negb (d_force_write d)
  && negb (d_source_closed d) && (size <? pbns_byte_ring_capacity (Some (d_ring d))).

(** The status, the direction, whether there was progress, and the world. *)
Definition write_pending (d : pump_direction) (made_progress : bool) (w : W)
  : option (pbns_status * pump_direction * bool * W) :=
  let '(status, readable) := ring_readable (d_ring d) in
  if negb (is_ok status) || (v_len readable =? 0) || should_hold_write d then Some (status, d, made_progress, w)
  else
  write ← ep_write (d_sink d);
  let '(code, written, w) := write w (v_data readable) in
  if negb (status_is_typed code) then Some (PBNS_ERR_IO, d, made_progress, w)
  else
  status ← status_of_code code;
  if status_eqb status PBNS_ERR_WOULD_BLOCK
  then Some (if written =? 0 then PBNS_OK else PBNS_ERR_IO, d, made_progress, w)
  else if negb (is_ok status) then Some (status, d, made_progress, w)
  else if (written =? 0) || (v_len readable <? written) then Some (PBNS_ERR_IO, d, made_progress, w)
  else
  let '(status, ring) := ring_consume (d_ring d) written in
  let d := with_ring d ring in
  if is_ok status then Some (status, count_write d, true, w) else Some (status, d, made_progress, w).

Definition read_available (d : pump_direction) (made_progress : bool) (w : W)
  : option (pbns_status * pump_direction * bool * W) :=
  if d_source_closed d then Some (PBNS_OK, d, made_progress, w)
  else
  let '(status, writable) := ring_writable (d_ring d) in
  if negb (is_ok status) || (b_cap writable =? 0) then Some (status, d, made_progress, w)
  else if negb (d_minimum_writable d =? 0) && negb (pbns_byte_ring_size (Some (d_ring d)) =? 0)
          && (b_cap writable <? d_minimum_writable d) then Some (PBNS_OK, d, made_progress, w)
  else
  read ← ep_read (d_source d);
  let '(code, received, region, w) := read w (b_data writable) in
  let d := with_ring d (ring_fill (d_ring d) region) in
  if negb (status_is_typed code) then Some (PBNS_ERR_IO, d, made_progress, w)
  else
  status ← status_of_code code;
  if status_eqb status PBNS_ERR_WOULD_BLOCK
  then Some (if received =? 0 then PBNS_OK else PBNS_ERR_IO, d, made_progress, w)
  else if negb (is_ok status) then Some (status, d, made_progress, w)
  else if b_cap writable <? received then Some (PBNS_ERR_IO, d, made_progress, w)
  else if received =? 0 then Some (PBNS_OK, with_closed d, true, w)
  else
  let '(status, ring) := ring_commit (d_ring d) received in
  let d := with_ring d ring in
  if is_ok status then Some (status, count_read d, true, w) else Some (status, d, made_progress, w).

Definition process_direction (d : pump_direction) (made_progress : bool) (w : W)
  : option (pbns_status * pump_direction * bool * W) :=
  '(status, d, made_progress, w) ← write_pending d made_progress w;
  if negb (is_ok status) then Some (status, d, made_progress, w)
  else read_available d made_progress w.

Definition fail_pump (pump : pbns_byte_pump) : pbns_byte_pump :=
  mk_pump (p_usb_to_tls pump) (p_tls_to_usb pump) (p_usb_source_closed pump) (p_tls_source_closed pump)
    (p_usb_to_tls_read_generation pump) (p_usb_to_tls_write_generation pump) (p_initialized pump)
    (p_cancelled pump) true.

Definition pbns_byte_pump_init (pump : ptr pbns_byte_pump) (usb_to_tls_storage tls_to_usb_storage : pbns_buffer)
  : ptr pbns_byte_pump :=
  match pump with
  | None => None
  | Some _ =>
      let usb_to_tls := default zero_ring (pbns_byte_ring_init (Some zero_ring) usb_to_tls_storage) in
      let tls_to_usb := default zero_ring (pbns_byte_ring_init (Some zero_ring) tls_to_usb_storage) in
      if negb (g_initialized usb_to_tls) || negb (g_initialized tls_to_usb)
         || pump_buffers_overlap usb_to_tls_storage tls_to_usb_storage
      then Some zero_pump
      else Some (mk_pump usb_to_tls tls_to_usb false false 0 0 true false false)
  end.

Definition pump_reset (pump : pbns_byte_pump) : pbns_byte_pump :=
  if negb (p_initialized pump) then pump
  else mk_pump (ring_reset (p_usb_to_tls pump)) (ring_reset (p_tls_to_usb pump)) false false 0 0
         (p_initialized pump) false false.

Definition pbns_byte_pump_reset (pump : ptr pbns_byte_pump) : ptr pbns_byte_pump := pump_reset <$> pump.

Definition pump_cancel (pump : pbns_byte_pump) : pbns_byte_pump :=
  if negb (p_initialized pump) then pump
  else mk_pump (ring_reset (p_usb_to_tls pump)) (ring_reset (p_tls_to_usb pump)) (p_usb_source_closed pump)
         (p_tls_source_closed pump) (p_usb_to_tls_read_generation pump) (p_usb_to_tls_write_generation pump)
         (p_initialized pump) true (p_failed pump).

Definition pbns_byte_pump_cancel (pump : ptr pbns_byte_pump) : ptr pbns_byte_pump := pump_cancel <$> pump.

Definition pump_is_complete (pump : pbns_byte_pump) : bool :=
  p_initialized pump && negb (p_cancelled pump) && negb (p_failed pump)
  && p_usb_source_closed pump && p_tls_source_closed pump
  && (pbns_byte_ring_size (Some (p_usb_to_tls pump)) =? 0) && (pbns_byte_ring_size (Some (p_tls_to_usb pump)) =? 0).

Definition pbns_byte_pump_is_complete (pump : ptr pbns_byte_pump) : bool :=
  match pump with None => false | Some pump => pump_is_complete pump end.

Definition usb_to_tls_direction (pump : pbns_byte_pump) (usb tls : pbns_pump_endpoint W)
    (policy : pbns_byte_pump_policy) : pump_direction :=
  mk_direction (p_usb_to_tls pump) usb tls (p_usb_source_closed pump)
    (Some (p_usb_to_tls_read_generation pump)) (Some (p_usb_to_tls_write_generation pump))
    (usb_to_tls_minimum_write policy) 0 (force_usb_to_tls_write policy).

Definition tls_to_usb_direction (pump : pbns_byte_pump) (usb tls : pbns_pump_endpoint W)
    (policy : pbns_byte_pump_policy) : pump_direction :=
  mk_direction (p_tls_to_usb pump) tls usb (p_tls_source_closed pump) None None
    0 (tls_to_usb_minimum_writable policy) false.

(** The pump after its first, and after its second direction was processed. *)
Definition store_usb_to_tls (pump : pbns_byte_pump) (d : pump_direction) : pbns_byte_pump :=
  mk_pump (d_ring d) (p_tls_to_usb pump) (d_source_closed d) (p_tls_source_closed pump)
    (default 0 (d_source_read_generation d)) (default 0 (d_sink_write_generation d)) (p_initialized pump)
    (p_cancelled pump) (p_failed pump).
Definition store_tls_to_usb (pump : pbns_byte_pump) (d : pump_direction) : pbns_byte_pump :=
  mk_pump (p_usb_to_tls pump) (d_ring d) (p_usb_source_closed pump) (d_source_closed d)
    (p_usb_to_tls_read_generation pump) (p_usb_to_tls_write_generation pump) (p_initialized pump)
    (p_cancelled pump) (p_failed pump).

(** [pbns_byte_pump_step_with_policy] after the [NULL] checks. *)
Definition pump_step (usb tls : pbns_pump_endpoint W) (policy : pbns_byte_pump_policy) (pump : pbns_byte_pump)
    (w : W) : option (pbns_status * pbns_byte_pump * bool * W) :=
  if negb (endpoint_is_valid usb) || negb (endpoint_is_valid tls) then Some (PBNS_ERR_ARGUMENT, pump, false, w)
  else if negb (p_initialized pump) || p_cancelled pump || p_failed pump
  then Some (PBNS_ERR_STATE, pump, false, w)
  else if pump_is_complete pump then Some (PBNS_OK, pump, false, w)
  else
  '(status, d, made_progress, w) ← process_direction (usb_to_tls_direction pump usb tls policy) false w;
  let pump := store_usb_to_tls pump d in
  if negb (is_ok status) then Some (status, fail_pump pump, made_progress, w)
  else
  '(status, d, made_progress, w) ← process_direction (tls_to_usb_direction pump usb tls policy) made_progress w;
  let pump := store_tls_to_usb pump d in
  if is_ok status then Some (PBNS_OK, pump, made_progress, w)
  else Some (status, fail_pump pump, made_progress, w).

Definition pbns_byte_pump_step_with_policy (pump : ptr pbns_byte_pump) (usb tls : pbns_pump_endpoint W)
    (policy : ptr pbns_byte_pump_policy) (made_progress : ptr bool) (w : W)
  : option (pbns_status * ptr pbns_byte_pump * ptr bool * W) :=
  match made_progress with
  | None => Some (PBNS_ERR_ARGUMENT, pump, None, w)
  | Some _ =>
      match pump, policy with
      | Some pump, Some policy =>
          '(status, pump, progress, w) ← pump_step usb tls policy pump w;
          Some (status, Some pump, Some progress, w)
      | _, _ => Some (PBNS_ERR_ARGUMENT, pump, Some false, w)
      end
  end.

Definition pbns_byte_pump_step (pump : ptr pbns_byte_pump) (usb tls : pbns_pump_endpoint W)
    (made_progress : ptr bool) (w : W) :=
  pbns_byte_pump_step_with_policy pump usb tls (Some default_policy) made_progress w.

(** The loop of a batch: [remaining] steps are left, [steps] were made. *)
Fixpoint batch_loop (remaining : nat) (usb tls : pbns_pump_endpoint W) (policy : pbns_byte_pump_policy)
    (forced_write_generation : Z) (pump : pbns_byte_pump) (steps : Z) (made_progress : bool) (w : W)
  : option (pbns_status * pbns_byte_pump * Z * bool * W) :=
  match remaining with
  | O => Some (PBNS_OK, pump, steps, made_progress, w)
  | S remaining =>
      '(status, pump, step_progress, w) ← pump_step usb tls policy pump w;
      let steps := steps + 1 in
      let made_progress := made_progress || step_progress in
      if negb (is_ok status) then Some (status, pump, steps, made_progress, w)
      else
      let policy :=
        if force_usb_to_tls_write policy && negb (p_usb_to_tls_write_generation pump =? forced_write_generation)
        then mk_policy (usb_to_tls_minimum_write policy) (tls_to_usb_minimum_writable policy) false
        else policy in
      if negb step_progress || pump_is_complete pump then Some (PBNS_OK, pump, steps, made_progress, w)
      else batch_loop remaining usb tls policy forced_write_generation pump steps made_progress w
  end.

Definition pump_batch (usb tls : pbns_pump_endpoint W) (policy : pbns_byte_pump_policy) (pump : pbns_byte_pump)
    (w : W) : option (pbns_status * pbns_byte_pump * Z * bool * W) :=
  if negb (endpoint_is_valid usb) || negb (endpoint_is_valid tls) then Some (PBNS_ERR_ARGUMENT, pump, 0, false, w)
  else if negb (p_initialized pump) || p_cancelled pump || p_failed pump
  then Some (PBNS_ERR_STATE, pump, 0, false, w)
  else batch_loop (Z.to_nat PBNS_BYTE_PUMP_BATCH_MAX_STEPS) usb tls policy (p_usb_to_tls_write_generation pump)
         pump 0 false w.

Definition pbns_byte_pump_batch_with_policy (pump : ptr pbns_byte_pump) (usb tls : pbns_pump_endpoint W)
    (policy : ptr pbns_byte_pump_policy) (steps : ptr Z) (made_progress : ptr bool) (w : W)
  : option (pbns_status * ptr pbns_byte_pump * ptr Z * ptr bool * W) :=
  match pump, policy, steps, made_progress with
  | Some pump, Some policy, Some _, Some _ =>
      '(status, pump, steps, progress, w) ← pump_batch usb tls policy pump w;
      Some (status, Some pump, Some steps, Some progress, w)
  | _, _, _, _ =>
      Some (PBNS_ERR_ARGUMENT, pump, (fun _ => 0) <$> steps, (fun _ => false) <$> made_progress, w)
  end.

Definition pbns_byte_pump_batch (pump : ptr pbns_byte_pump) (usb tls : pbns_pump_endpoint W)
    (steps : ptr Z) (made_progress : ptr bool) (w : W) :=
  pbns_byte_pump_batch_with_policy pump usb tls (Some default_policy) steps made_progress w.
End pump.

Definition pbns_pump_session_init (session : ptr pbns_pump_session) : ptr pbns_pump_session :=
  match session with None => None | Some _ => Some (mk_pump_session false true) end.

Definition pbns_pump_session_observe (session : ptr pbns_pump_session) (connected : bool) (disconnected : ptr bool)
  : pbns_status * ptr pbns_pump_session * ptr bool :=
  match session, disconnected with
  | Some s, Some _ =>
      if negb (ps_initialized s) then (PBNS_ERR_ARGUMENT, session, Some false)
      else (PBNS_OK, Some (mk_pump_session connected (ps_initialized s)),
            Some (ps_connected s && negb connected))
  | _, _ => (PBNS_ERR_ARGUMENT, session, (fun _ => false) <$> disconnected)
  end.

(** ** What the callbacks promise *)

Record pump_io (W : Type) := mk_io {
  io_read : W -> bytes -> Z * Z * bytes * W;
  io_write : W -> bytes -> Z * Z * W;
}.
Arguments mk_io {W}.
Arguments io_read {W}.
Arguments io_write {W}.

Definition endpoint_of {W} (io : pump_io W) : pbns_pump_endpoint W :=
  mk_pump_endpoint (Some (io_read io)) (Some (io_write io)).

(** The octets that a call with result [code] and [n] has moved. *)
Definition moved (code n : Z) (data : bytes) : bytes :=
  if (code =? 0) && (n <=? zlen data) then take (Z.to_nat n) data else [].

(** [src] is what the reads have handed over so far, [dst] what the writes have
    accepted; a callback leaves the other observations alone. *)
Definition read_spec {W} (io : pump_io W) (src : W -> bytes) (others : list (W -> bytes)) : Prop :=
  forall w region code n region' w', io_read io w region = (code, n, region', w') ->
    length region' = length region /\ 0 <= n /\ src w' = src w ++ moved code n region'
    /\ Forall (fun f => f w' = f w) others.

Definition write_spec {W} (io : pump_io W) (dst : W -> bytes) (others : list (W -> bytes)) : Prop :=
  forall w data code n w', io_write io w data = (code, n, w') ->
    0 <= n /\ dst w' = dst w ++ moved code n data /\ Forall (fun f => f w' = f w) others.

Class PumpLaws {W} (usb tls : pump_io W) := {
  usb_in : W -> bytes;
  usb_out : W -> bytes;
  tls_in : W -> bytes;
  tls_out : W -> bytes;
  usb_read_law : read_spec usb usb_in [tls_out; tls_in; usb_out];
  usb_write_law : write_spec usb usb_out [tls_in; usb_in; tls_out];
  tls_read_law : read_spec tls tls_in [usb_out; usb_in; tls_out];
  tls_write_law : write_spec tls tls_out [usb_in; tls_in; usb_out];
}.

(** ** One direction *)

Section direction.
Context `{Machine} {W : Type}.
Variables (source sink : pump_io W) (src dst x y : W -> bytes).
Hypothesis source_ok : read_spec source src [dst; x; y].
Hypothesis sink_ok : write_spec sink dst [src; x; y].

(** Since the observations [s0] and [d0], the sink has accepted what the source
    has handed over, but for the octets in the ring. *)
Definition conveyed (s0 d0 : bytes) (r : pbns_byte_ring) (w : W) : Prop :=
  exists done, dst w = d0 ++ done /\ src w = s0 ++ done ++ ring_contents r.

Definition direction_ok (s0 d0 : bytes) (d : pump_direction (W := W)) (w : W) : Prop :=
  ring_wf (d_ring d) /\ conveyed s0 d0 (d_ring d) w
  /\ d_source d = endpoint_of source /\ d_sink d = endpoint_of sink.

Definition direction_post (s0 d0 : bytes) (w : W)
    (res : option (pbns_status * pump_direction (W := W) * bool * W)) : Prop :=
  exists st d' p w', res = Some (st, d', p, w') /\ direction_ok s0 d0 d' w' /\ x w' = x w /\ y w' = y w.

Lemma status_typed code : status_is_typed code = true -> exists st, status_of_code code = Some st.
Proof.
  unfold status_is_typed, status_of_code. cbn [status_code]. intros Ht. bools. apply rd_some. cbn. lia.
Qed.

Lemma status_of_code_ok code : status_of_code code = Some PBNS_OK -> code = 0.
Proof. intros E. apply status_of_code_Some in E. cbn in E. lia. Qed.

Lemma moved_refused code n data :
  (code <> 0 \/ zlen data < n \/ n = 0) -> moved code n data = [].
Proof. intros Hc. unfold moved. zbool; try done; cbn [andb]; try lia. by replace n with 0 by lia. Qed.

Lemma conveyed_same s0 d0 r w w' :
  conveyed s0 d0 r w -> dst w' = dst w -> src w' = src w -> conveyed s0 d0 r w'.
Proof. unfold conveyed. by intros ? -> ->. Qed.

Lemma write_pending_ok s0 d0 d p w : direction_ok s0 d0 d w -> direction_post s0 d0 w (write_pending d p w).
Proof.
  intros (Hw & Hconv & Hsrc & Hsnk). unfold write_pending.
  destruct (ring_readable_view _ Hw) as (view & -> & Hd & Hvl). cbn [is_ok negb orb].
  destruct (_ || _); [by exists PBNS_OK, d, p, w|]. rewrite Hsnk. cbn [ep_write endpoint_of mbind option_bind].
  destruct (io_write sink w (v_data view)) as [[code n] w1] eqn:E.
  apply sink_ok in E as (Hn & Hdst & Hoth).
  apply Forall_cons_iff in Hoth as [Hs1 Hoth]. apply Forall_cons_iff in Hoth as [Hx Hoth].
  apply Forall_cons_iff in Hoth as [Hy _].
  assert (Hsame : forall st p', moved code n (v_data view) = [] ->
    direction_post s0 d0 w (Some (st, d, p', w1))).
  { intros st p' Hm. exists st, d, p', w1. split; [done|]. rewrite Hm, app_nil_r in Hdst. split; [|done].
    split; [done|]. split; [by eapply conveyed_same|done]. }
  destruct (status_is_typed code) eqn:Et; cbn [negb].
  2: { apply Hsame, moved_refused. left. intros ->. done. }
  destruct (status_typed code Et) as (st & Est). rewrite Est. cbn [mbind option_bind].
  assert (Hcode : st <> PBNS_OK -> code <> 0) by (intros Hne ->; by injection Est as <-).
  destruct (status_eqb st PBNS_ERR_WOULD_BLOCK) eqn:Ewb.
  { apply bool_decide_eq_true in Ewb. apply Hsame, moved_refused. left. apply Hcode. by rewrite Ewb. }
  destruct (is_ok st) eqn:Eok; cbn [negb]; [apply is_ok_spec in Eok|apply is_ok_false in Eok; apply Hsame, moved_refused; auto].
  destruct ((n =? 0) || (v_len view <? n)) eqn:Erng.
  { apply Hsame, moved_refused. right. apply orb_true_iff in Erng as [?|?]; bools; auto. }
  bools. subst st. apply status_of_code_ok in Est.
  destruct (ring_consume_ok (d_ring d) n Hw ltac:(lia)) as (r' & -> & Hw' & _ & Hc'). cbn [is_ok].
  do 4 eexists. split; [reflexivity|]. split; [|done]. split; [done|]. split; [|done]. cbn [count_write with_ring d_ring].
  destruct Hconv as (dn & Ed & Es). exists (dn ++ take (Z.to_nat n) (ring_contents (d_ring d))).
  rewrite Hdst, Ed, Hs1, Es, Hc', <- !app_assoc, take_drop. split; [|done].
  unfold moved. rewrite (proj2 (Z.eqb_eq code 0)) by done. unfold v_len in *.
  destruct (Z.leb_spec n (zlen (v_data view))); [|lia]. cbn [andb]. rewrite Hd, take_take. do 3 f_equal. lia.
Qed.

Lemma read_available_ok s0 d0 d p w : direction_ok s0 d0 d w -> direction_post s0 d0 w (read_available d p w).
Proof.
  intros (Hw & Hconv & Hsrc & Hsnk). unfold read_available.
  destruct (d_source_closed d); [by exists PBNS_OK, d, p, w|].
  destruct (ring_writable_cap _ Hw) as (region & -> & Hcap & Hreg). cbn [is_ok negb orb].
  destruct (Z.eqb_spec (b_cap region) 0) as [|Hne]; [by exists PBNS_OK, d, p, w|].
  destruct (_ && _); [by exists PBNS_OK, d, p, w|]. rewrite Hsrc. cbn [ep_read endpoint_of mbind option_bind].
  destruct (io_read source w (b_data region)) as [[[code n] region'] w1] eqn:E.
  apply source_ok in E as (Hlen & Hn & Hs1 & Hoth).
  apply Forall_cons_iff in Hoth as [Hdst Hoth]. apply Forall_cons_iff in Hoth as [Hx Hoth].
  apply Forall_cons_iff in Hoth as [Hy _].
  assert (Hl : zlen region' = writable_length (d_ring d)) by (rewrite Hlen, <- Hcap; done).
  destruct (ring_fill_wf _ region' Hw Hl) as (Hw1 & Hc1 & Hwl).
  assert (Hsame : forall st d' p', moved code n region' = [] -> ring_wf (d_ring d') ->
    ring_contents (d_ring d') = ring_contents (d_ring d) -> d_source d' = d_source d -> d_sink d' = d_sink d ->
    direction_post s0 d0 w (Some (st, d', p', w1))).
  { intros st d' p' Hm Hw' Hc' Hs' Hk'. exists st, d', p', w1. split; [done|]. rewrite Hm, app_nil_r in Hs1.
    split; [|done]. split; [done|]. rewrite Hs', Hk'. split; [|done].
    unfold conveyed. rewrite Hc'. by eapply conveyed_same. }
  destruct (status_is_typed code) eqn:Et; cbn [negb].
  2: { apply Hsame; try done. apply moved_refused. left. intros ->. done. }
  destruct (status_typed code Et) as (st & Est). rewrite Est. cbn [mbind option_bind].
  assert (Hcode : st <> PBNS_OK -> code <> 0) by (intros Hnok ->; by injection Est as <-).
  destruct (status_eqb st PBNS_ERR_WOULD_BLOCK) eqn:Ewb.
  { apply bool_decide_eq_true in Ewb. apply Hsame; try done. apply moved_refused. left. apply Hcode. by rewrite Ewb. }
  destruct (is_ok st) eqn:Eok; cbn [negb];
    [apply is_ok_spec in Eok|apply is_ok_false in Eok; apply Hsame; try done; apply moved_refused; auto].
  destruct (Z.ltb_spec (b_cap region) n); [apply Hsame; try done; apply moved_refused; lia|].
  destruct (Z.eqb_spec n 0); [apply Hsame; try done; apply moved_refused; lia|].
  subst st. apply status_of_code_ok in Est.
  cbn [d_ring with_ring]. rewrite ring_commit_ok by (try done; lia). cbn [is_ok].
  destruct (ring_fill_commit _ region' n Hw Hl ltac:(lia)) as [Hw2 Hc2].
  do 4 eexists. split; [reflexivity|]. split; [|done]. split; [exact Hw2|]. split; [|done].
  cbn [count_read with_ring d_ring]. destruct Hconv as (dn & Ed & Es). exists dn. rewrite Hdst. split; [done|].
  rewrite Hs1, Es, <- !app_assoc. do 2 f_equal. etransitivity; [|symmetry; exact Hc2]. f_equal.
  unfold moved. rewrite (proj2 (Z.eqb_eq code 0)) by done. destruct (Z.leb_spec n (zlen region')); [done|lia].
Qed.

Lemma process_direction_ok s0 d0 d p w :
  direction_ok s0 d0 d w -> direction_post s0 d0 w (process_direction d p w).
Proof.
  intros Hd. unfold process_direction.
  destruct (write_pending_ok s0 d0 d p w Hd) as (st & d1 & p1 & w1 & -> & Hd1 & Hx & Hy).
  cbn [mbind option_bind]. destruct (negb (is_ok st)); [by exists st, d1, p1, w1|].
  destruct (read_available_ok s0 d0 d1 p1 w1 Hd1) as (st2 & d2 & p2 & w2 & -> & Hd2 & Hx2 & Hy2).
  exists st2, d2, p2, w2. split_and!; try done; congruence.
Qed.
End direction.

(** ** The pump *)

Section conveys.
Context `{Machine} {W : Type} (usb tls : pump_io W) `{!PumpLaws usb tls}.

Notation step := (pump_step (endpoint_of usb) (endpoint_of tls)).
Notation batch := (pump_batch (endpoint_of usb) (endpoint_of tls)).

(** What a direction has carried since the observations [s0] and [d0]: [rest] is
    what the source handed over and the sink has not accepted. *)
Definition carried (src dst : W -> bytes) (w0 w : W) (rest : bytes) : Prop :=
  exists done, dst w = dst w0 ++ done /\ src w = src w0 ++ done ++ rest.

Definition pump_inv (w0 : W) (pump : pbns_byte_pump) (w : W) : Prop :=
  ring_wf (p_usb_to_tls pump) /\ ring_wf (p_tls_to_usb pump)
  /\ exists rest1 rest2, carried usb_in tls_out w0 w rest1 /\ carried tls_in usb_out w0 w rest2
  /\ (p_cancelled pump = false ->
      rest1 = ring_contents (p_usb_to_tls pump) /\ rest2 = ring_contents (p_tls_to_usb pump)).

Lemma pump_step_ok w0 policy pump w :
  pump_inv w0 pump w -> exists st pump' p w', step policy pump w = Some (st, pump', p, w')
  /\ pump_inv w0 pump' w'
  /\ (p_cancelled pump || p_failed pump = true -> pump' = pump /\ w' = w /\ st = PBNS_ERR_STATE).
Proof.
  intros Hinv. unfold pump_step. cbn [endpoint_is_valid endpoint_of ep_read ep_write negb orb].
  destruct (negb (p_initialized pump) || p_cancelled pump || p_failed pump) eqn:Eg.
  { exists PBNS_ERR_STATE, pump, false, w. done. }
  assert (Hgo : p_cancelled pump || p_failed pump = false) by (bools; apply orb_false_iff; auto).
  rewrite Hgo. destruct (pump_is_complete pump); [by exists PBNS_OK, pump, false, w|].
  destruct Hinv as (Hw1 & Hw2 & r1 & r2 & Hc1 & Hc2 & Hr). apply orb_false_iff in Hgo as [Hcan _].
  destruct (Hr Hcan) as [-> ->].
  destruct (process_direction_ok usb tls usb_in tls_out tls_in usb_out usb_read_law tls_write_law
    (usb_in w0) (tls_out w0) (usb_to_tls_direction pump (endpoint_of usb) (endpoint_of tls) policy) false w)
    as (st1 & d1 & p1 & w1 & -> & (Hwd1 & Hcd1 & _ & _) & Hx1 & Hy1); [done|].
  cbn [mbind option_bind]. destruct (is_ok st1); cbn [negb].
  2: { do 4 eexists. split; [reflexivity|]. split; [|done]. split; [done|]. split; [done|].
       do 2 eexists. split; [exact Hcd1|]. split; [|done]. unfold carried. rewrite Hx1, Hy1. exact Hc2. }
  destruct (process_direction_ok tls usb tls_in usb_out usb_in tls_out tls_read_law usb_write_law
    (tls_in w0) (usb_out w0) (tls_to_usb_direction (store_usb_to_tls pump d1) (endpoint_of usb) (endpoint_of tls) policy)
    p1 w1) as (st2 & d2 & p2 & w2 & -> & (Hwd2 & Hcd2 & _ & _) & Hx2 & Hy2).
  { split; [done|]. split; [|done]. unfold conveyed. rewrite Hx1, Hy1. exact Hc2. }
  cbn [mbind option_bind].
  assert (Hpost : forall pump', p_usb_to_tls pump' = d_ring d1 -> p_tls_to_usb pump' = d_ring d2 -> pump_inv w0 pump' w2).
  { intros pump' E1 E2. unfold pump_inv. rewrite E1, E2. split; [done|]. split; [done|]. do 2 eexists.
    split; [|split; [exact Hcd2|done]]. unfold carried. rewrite Hx2, Hy2. exact Hcd1. }
  destruct (is_ok st2); do 4 eexists; (split; [reflexivity|]); split; try done; by apply Hpost.
Qed.

Lemma pump_cancel_ok w0 pump w : pump_inv w0 pump w -> p_initialized pump = true -> pump_inv w0 (pump_cancel pump) w.
Proof.
  intros (Hw1 & Hw2 & r1 & r2 & Hc1 & Hc2 & _) Hi. unfold pump_cancel. rewrite Hi. cbn [negb].
  unfold pump_inv. cbn. destruct (ring_reset_wf _ Hw1) as [? _]. destruct (ring_reset_wf _ Hw2) as [? _].
  split; [done|]. split; [done|]. by exists r1, r2.
Qed.

(** The steps of a batch. *)
Fixpoint pump_steps (policies : list pbns_byte_pump_policy) (pump : pbns_byte_pump) (w : W)
  : option (pbns_status * pbns_byte_pump * W) :=
  match policies with
  | [] => Some (PBNS_OK, pump, w)
  | policy :: policies =>
      '(st, pump, _, w) ← step policy pump w;
      if is_ok st then pump_steps policies pump w
      else match policies with [] => Some (st, pump, w) | _ => None end
  end.

Definition same_minimums (p q : pbns_byte_pump_policy) : Prop :=
  usb_to_tls_minimum_write q = usb_to_tls_minimum_write p
  /\ tls_to_usb_minimum_writable q = tls_to_usb_minimum_writable p.

Lemma batch_loop_ok w0 g left : forall policy pump n progress w,
  pump_inv w0 pump w ->
  exists policies st pump' progress' w',
  batch_loop left (endpoint_of usb) (endpoint_of tls) policy g pump n progress w
    = Some (st, pump', n + zlen policies, progress', w')
  /\ (length policies <= left)%nat /\ (left <> O -> policies <> [])
  /\ Forall (same_minimums policy) policies
  /\ pump_steps policies pump w = Some (st, pump', w') /\ pump_inv w0 pump' w'.
Proof.
  induction left as [|left IH]; intros policy pump n progress w Hinv; cbn [batch_loop].
  { exists [], PBNS_OK, pump, progress, w. cbn. rewrite Z.add_0_r. done. }
  destruct (pump_step_ok w0 policy pump w Hinv) as (st & pump1 & p1 & w1 & E & Hinv1 & _). rewrite E.
  cbn [mbind option_bind].
  assert (Hone : forall progress' : bool, exists policies st' pump' progress'' w',
    Some (st, pump1, n + 1, progress', w1) = Some (st', pump', n + zlen policies, progress'', w')
    /\ (length policies <= S left)%nat /\ (S left <> O -> policies <> []) /\ Forall (same_minimums policy) policies
    /\ pump_steps policies pump w = Some (st', pump', w') /\ pump_inv w0 pump' w').
  { intros progress'. exists [policy], st, pump1, progress', w1. cbn [pump_steps length]. rewrite E.
    cbn [mbind option_bind].
    split_and!; try done; [lia|by repeat constructor|by destruct (is_ok st) eqn:Eok; [apply is_ok_spec in Eok as ->|]]. }
  destruct (is_ok st) eqn:Eok; cbn [negb]; [|apply Hone]. apply is_ok_spec in Eok as ->.
  destruct (negb p1 || pump_is_complete pump1); [apply Hone|].
  match goal with |- context [batch_loop left _ _ ?q] => set (policy' := q) end. assert (Hsame : same_minimums policy policy').
  { unfold policy'. by destruct (_ && _). }
  destruct (IH policy' pump1 (n + 1) (progress || p1) w1 Hinv1)
    as (policies & st & pump' & progress' & w' & -> & Hl & _ & Hf & Hs & Hinv').
  exists (policy :: policies), st, pump', progress', w'. cbn [pump_steps length]. rewrite E. cbn [mbind option_bind is_ok].
  split_and!; try done; [do 4 f_equal; lia|lia|].
  constructor; [done|]. eapply Forall_impl; [|exact Hf]. unfold same_minimums in *. intros q [-> ->]. done.
Qed.

Lemma pump_batch_ok w0 policy pump w :
  pump_inv w0 pump w ->
  exists policies st pump' progress' w',
  batch policy pump w = Some (st, pump', zlen policies, progress', w')
  /\ zlen policies <= PBNS_BYTE_PUMP_BATCH_MAX_STEPS /\ Forall (same_minimums policy) policies
  /\ (policies = [] -> st = PBNS_ERR_STATE /\ pump' = pump /\ w' = w)
  /\ (policies <> [] -> pump_steps policies pump w = Some (st, pump', w')) /\ pump_inv w0 pump' w'.
Proof.
  intros Hinv. unfold pump_batch. cbn [endpoint_is_valid endpoint_of ep_read ep_write negb orb].
  destruct (_ || _).
  { exists [], PBNS_ERR_STATE, pump, false, w. done. }
  destruct (batch_loop_ok w0 (p_usb_to_tls_write_generation pump) (Z.to_nat PBNS_BYTE_PUMP_BATCH_MAX_STEPS)
    policy pump 0 false w Hinv) as (policies & st & pump' & progress' & w' & E & Hl & Hne & Hf & Hs & Hinv').
  exists policies, st, pump', progress', w'. split_and!; try done.
  - unfold PBNS_BYTE_PUMP_BATCH_MAX_STEPS in *. lia.
  - intros ->. by destruct (Hne ltac:(done)).
Qed.

(** The states of a pump: steps and batches with any policy, and cancellation. *)
Inductive pump_reach (pump0 : pbns_byte_pump) (w0 : W) : pbns_byte_pump -> W -> Prop :=
| pump_reach_begin : pump_reach pump0 w0 pump0 w0
| pump_reach_step policy pump w st pump' p w' :
    pump_reach pump0 w0 pump w -> step policy pump w = Some (st, pump', p, w') -> pump_reach pump0 w0 pump' w'
| pump_reach_batch policy pump w st pump' n p w' :
    pump_reach pump0 w0 pump w -> batch policy pump w = Some (st, pump', n, p, w') -> pump_reach pump0 w0 pump' w'
| pump_reach_cancel pump w :
    pump_reach pump0 w0 pump w -> pump_reach pump0 w0 (pump_cancel pump) w.

Lemma pump_init_inv b1 b2 pump0 w0 :
  pbns_byte_pump_init (Some zero_pump) b1 b2 = Some pump0 -> p_initialized pump0 = true -> pump_inv w0 pump0 w0.
Proof.
  unfold pbns_byte_pump_init, pbns_byte_ring_init. intros E Hi.
  destruct (ring_storage_is_valid b1) eqn:E1; [|cbn in E; by injection E as <-].
  destruct (ring_storage_is_valid b2) eqn:E2; [|cbn in E; by injection E as <-].
  cbn in E. destruct (pump_buffers_overlap b1 b2); injection E as <-; [done|].
  destruct (ring_init_contents b1 E1) as [? ?]. destruct (ring_init_contents b2 E2) as [? ?].
  split; [done|]. split; [done|]. exists [], []. split_and!; try done; exists []; by rewrite ?app_nil_r.
Qed.

Lemma pump_reach_inv pump0 w0 pump w :
  pump_inv w0 pump0 w0 -> pump_reach pump0 w0 pump w -> pump_inv w0 pump w.
Proof.
  intros Hinv Hr. induction Hr as [|policy pump w st pump' p w' _ IH E|policy pump w st pump' n p w' _ IH E|pump w _ IH].
  - done.
  - destruct (pump_step_ok w0 policy pump w IH) as (? & ? & ? & ? & E' & ? & _). rewrite E' in E. by simplify_eq.
  - destruct (pump_batch_ok w0 policy pump w IH) as (? & ? & ? & ? & ? & E' & _ & _ & _ & _ & ?).
    rewrite E' in E. by simplify_eq.
  - destruct (p_initialized pump) eqn:Ei; [by apply pump_cancel_ok|]. unfold pump_cancel. by rewrite Ei.
Qed.

(** ** Properties *)

(** C20: in every state that a pump can reach, by steps and batches with any
    policies and by cancellation, the octets accepted by one endpoint are a
    prefix of the octets handed over by the other, in both directions; what is
    missing is exactly what the ring holds, unless the pump was cancelled; and
    when the transfer is complete nothing is missing.  The next step never
    faults, and a cancelled or failed pump does nothing. *)
Theorem pump_conveys (b1 b2 : pbns_buffer) (pump0 pump : pbns_byte_pump) (w0 w : W) :
  pbns_byte_pump_init (Some zero_pump) b1 b2 = Some pump0 -> p_initialized pump0 = true ->
  pump_reach pump0 w0 pump w ->
  (exists rest1 rest2, carried usb_in tls_out w0 w rest1 /\ carried tls_in usb_out w0 w rest2
   /\ (p_cancelled pump = false ->
       rest1 = ring_contents (p_usb_to_tls pump) /\ rest2 = ring_contents (p_tls_to_usb pump))
   /\ (pump_is_complete pump = true -> rest1 = [] /\ rest2 = []))
  /\ forall policy, exists st pump' p w', step policy pump w = Some (st, pump', p, w')
     /\ (p_cancelled pump || p_failed pump = true -> pump' = pump /\ w' = w /\ st = PBNS_ERR_STATE).
Proof.
  intros E0 Hi Hr. pose proof (pump_reach_inv _ _ _ _ (pump_init_inv _ _ _ w0 E0 Hi) Hr) as Hinv. split.
  - destruct Hinv as (Hw1 & Hw2 & r1 & r2 & Hc1 & Hc2 & Hrest). exists r1, r2. split_and!; try done. intros Hcomp.
    unfold pump_is_complete, pbns_byte_ring_size in Hcomp. bools. destruct Hrest as [-> ->]; [done|].
    rewrite !ring_wf_valid in * by done.
    pose proof (ring_contents_length _ Hw1). pose proof (ring_contents_length _ Hw2).
    split; apply length_zero_iff_nil; lia.
  - intros policy. destruct (pump_step_ok w0 policy pump w Hinv) as (st & pump' & p & w' & E & _ & Hs).
    by exists st, pump', p, w'.
Qed.

End conveys.

(** ** A concrete pump

    Each side has a list of chunks to hand over and accepts everything. *)

Record pipes := mk_pipes {
  pp_usb : list bytes; pp_tls : list bytes;
  pp_usb_in : bytes; pp_usb_out : bytes; pp_tls_in : bytes; pp_tls_out : bytes;
}.

Definition chunk_read (chunks : list bytes) (region : bytes) : Z * Z * bytes * list bytes :=
  match chunks with
  | [] => (0, 0, region, [])
  | c :: rest => let data := take (length region) c in
                 (0, zlen data, data ++ drop (length data) region, rest)
  end.

Definition pipe_usb : pump_io pipes := mk_io
  (fun w region => let '(code, n, region', rest) := chunk_read (pp_usb w) region in
     (code, n, region', mk_pipes rest (pp_tls w) (pp_usb_in w ++ moved code n region') (pp_usb_out w)
                          (pp_tls_in w) (pp_tls_out w)))
  (fun w data => (0, zlen data, mk_pipes (pp_usb w) (pp_tls w) (pp_usb_in w) (pp_usb_out w ++ data)
                                  (pp_tls_in w) (pp_tls_out w))).

Definition pipe_tls : pump_io pipes := mk_io
  (fun w region => let '(code, n, region', rest) := chunk_read (pp_tls w) region in
     (code, n, region', mk_pipes (pp_usb w) rest (pp_usb_in w) (pp_usb_out w)
                          (pp_tls_in w ++ moved code n region') (pp_tls_out w)))
  (fun w data => (0, zlen data, mk_pipes (pp_usb w) (pp_tls w) (pp_usb_in w) (pp_usb_out w)
                                  (pp_tls_in w) (pp_tls_out w ++ data))).

Lemma chunk_read_length chunks region code n region' rest :
  chunk_read chunks region = (code, n, region', rest) -> length region' = length region /\ 0 <= n.
Proof.
  unfold chunk_read. destruct chunks as [|c chunks]; intros [= <- <- <- <-]; [done|]. lens. lia.
Qed.

Lemma moved_all data : moved 0 (zlen data) data = data.
Proof. unfold moved. rewrite Z.leb_refl, Nat2Z.id. cbn [Z.eqb andb]. by rewrite firstn_all. Qed.

#[export, refine] Instance pipes_laws : PumpLaws pipe_usb pipe_tls :=
  {| usb_in := pp_usb_in; usb_out := pp_usb_out; tls_in := pp_tls_in; tls_out := pp_tls_out |}.
Proof.
  - intros w region code n region' w'. cbn. destruct (chunk_read _ _) as [[[c m] r] rest] eqn:E.
    intros [= <- <- <- <-]. apply chunk_read_length in E as [? ?]. split_and!; try done. by repeat constructor.
  - intros w data code n w' [= <- <- <-]. split; [lia|]. rewrite moved_all. split; [done|]. by repeat constructor.
  - intros w region code n region' w'. cbn. destruct (chunk_read _ _) as [[[c m] r] rest] eqn:E.
    intros [= <- <- <- <-]. apply chunk_read_length in E as [? ?]. split_and!; try done. by repeat constructor.
  - intros w data code n w' [= <- <- <-]. split; [lia|]. rewrite moved_all. split; [done|]. by repeat constructor.
Defined.

Definition ex_pipes : pipes := mk_pipes [[1; 2; 3]; [4; 5]] [[9]] [] [] [] [].
Definition ex_pump : pbns_byte_pump :=
  mk_pump (mk_ring (mk_buffer 4096 0 [0; 0; 0; 0]) 0 0 true) (mk_ring (mk_buffer 8192 0 [0; 0]) 0 0 true)
    false false 0 0 true false false.

Definition ex_batched : option (pbns_status * pbns_byte_pump * Z * bool * pipes) :=
  @pump_batch x86_64 pipes (endpoint_of pipe_usb) (endpoint_of pipe_tls) default_policy ex_pump ex_pipes.

(** The transfer completes in one batch. *)
Example ex_batch_run :
  (fun '(st, pump, n, _, w) => (st, n, pump_is_complete pump, pp_tls_out w, pp_usb_out w)) <$> ex_batched
  = Some (PBNS_OK, 3, true, [1; 2; 3; 4; 5], [9]).
Proof. reflexivity. Qed.

Definition completes (r : option (pbns_status * pbns_byte_pump * Z * bool * pipes)) : bool :=
  match r with Some (_, pump, _, _, _) => pump_is_complete pump | None => false end.

Lemma completes_Some r :
  completes r = true -> exists st pump n p w, r = Some (st, pump, n, p, w) /\ pump_is_complete pump = true.
Proof. destruct r as [[[[[st pump] n] p] w]|]; [|done]. intros Hc. by exists st, pump, n, p, w. Qed.

Lemma pump_conveys_witness :
  exists pump w, pump_is_complete pump = true /\ carried usb_in tls_out ex_pipes w []
  /\ carried tls_in usb_out ex_pipes w [].
Proof.
  destruct (completes_Some (@pump_batch x86_64 pipes (endpoint_of pipe_usb) (endpoint_of pipe_tls) default_policy
    ex_pump ex_pipes) ltac:(vm_compute; reflexivity)) as (st & pump & n & p & w & E & Hc).
  destruct (@pump_conveys x86_64 pipes pipe_usb pipe_tls pipes_laws (mk_buffer 4096 0 [0; 0; 0; 0])
    (mk_buffer 8192 0 [0; 0]) ex_pump pump ex_pipes w eq_refl eq_refl
    (pump_reach_batch _ _ _ _ default_policy _ _ _ _ _ _ _ (pump_reach_begin _ _ _ _) E))
    as ((r1 & r2 & H1 & H2 & _ & Hz) & _).
  destruct (Hz Hc) as [-> ->]. exists pump, w. exact (conj Hc (conj H1 H2)).
Defined.

