(* ===== verification/Proxy.v ===== *)
(** * Control logic of the proxy firmware

    Three small state machines of the Pico firmware: the button that opens
    provisioning and the session that follows it ([pico/src/provision_gate.c]),
    the delay after which held octets are forced out
    ([pico/src/tail_deadline.c]), and the classification of a TCP write
    ([pico/src/tcp_write_outcome.c]). *)

From stdpp Require Import base list numbers.
From Stdlib Require Import ZArith Lia.
From S2P Require Import Prelude Status.

(** ** Provisioning gate *)

Definition PBNS_PROVISION_SAMPLE_INTERVAL_MS : Z := 50.
Definition PBNS_PROVISION_HOLD_MS : Z := 2000.

Inductive pbns_provision_gate_state :=
| PBNS_PROVISION_GATE_IDLE
| PBNS_PROVISION_GATE_PRESS_PENDING
| PBNS_PROVISION_GATE_LATCHED.

#[export] Instance pbns_provision_gate_state_eq_dec : EqDecision pbns_provision_gate_state.
Proof. solve_decision. Defined.

Record pbns_provision_gate := mk_gate {
  pg_state : pbns_provision_gate_state;
  press_started_ms : Z;
  last_sample_ms : Z;
  next_sample_ms : Z;
  has_sample : bool;
  pg_initialized : bool;
}.

Definition next_sample_deadline (now_ms : Z) : Z :=
  if UINT64_MAX - PBNS_PROVISION_SAMPLE_INTERVAL_MS <? now_ms then UINT64_MAX
  else now_ms + PBNS_PROVISION_SAMPLE_INTERVAL_MS.

Definition fresh_gate : pbns_provision_gate := mk_gate PBNS_PROVISION_GATE_IDLE 0 0 0 false true.

Definition pbns_provision_gate_init (gate : ptr pbns_provision_gate) : ptr pbns_provision_gate :=
  match gate with None => None | Some _ => Some fresh_gate end.

Definition gate_sample_due (gate : pbns_provision_gate) (now_ms : Z) : bool :=
  if negb (pg_initialized gate) || bool_decide (pg_state gate = PBNS_PROVISION_GATE_LATCHED) then false
  else if negb (has_sample gate) || (now_ms <? last_sample_ms gate) then true
  else negb (last_sample_ms gate =? UINT64_MAX) && (next_sample_ms gate <=? now_ms).

Definition pbns_provision_gate_sample_due (gate : ptr pbns_provision_gate) (now_ms : Z) : bool :=
  match gate with None => false | Some gate => gate_sample_due gate now_ms end.

(** The status, the gate and whether it was activated. *)
Definition gate_observe (gate : pbns_provision_gate) (now_ms : Z) (pressed : bool)
  : pbns_status * pbns_provision_gate * bool :=
  if negb (pg_initialized gate) then (PBNS_ERR_ARGUMENT, gate, false)
  else if bool_decide (pg_state gate = PBNS_PROVISION_GATE_LATCHED) then (PBNS_OK, gate, false)
  else if negb (gate_sample_due gate now_ms) then (PBNS_ERR_WOULD_BLOCK, gate, false)
  else
  let went_back := has_sample gate && (now_ms <? last_sample_ms gate) in
  let state := if went_back then PBNS_PROVISION_GATE_IDLE else pg_state gate in
  let started := if went_back then 0 else press_started_ms gate in
  let sampled state started := mk_gate state started now_ms (next_sample_deadline now_ms) true (pg_initialized gate) in
  if negb pressed then (PBNS_OK, sampled PBNS_PROVISION_GATE_IDLE 0, false)
  else
  match state with
  | PBNS_PROVISION_GATE_IDLE => (PBNS_OK, sampled PBNS_PROVISION_GATE_PRESS_PENDING now_ms, false)
  | PBNS_PROVISION_GATE_PRESS_PENDING =>
      if PBNS_PROVISION_HOLD_MS <=? u64 (now_ms - started)
      then (PBNS_OK, sampled PBNS_PROVISION_GATE_LATCHED started, true)
      else (PBNS_OK, sampled state started, false)
  | PBNS_PROVISION_GATE_LATCHED => (PBNS_ERR_STATE, sampled state started, false)
  end.

Definition pbns_provision_gate_observe (gate : ptr pbns_provision_gate) (now_ms : Z) (pressed : bool)
    (activated : ptr bool) : pbns_status * ptr pbns_provision_gate * ptr bool :=
  match gate, activated with
  | Some g, Some _ => let '(status, g, fired) := gate_observe g now_ms pressed in (status, Some g, Some fired)
  | _, _ => (PBNS_ERR_ARGUMENT, gate, (fun _ => false) <$> activated)
  end.

Definition gate_is_latched (gate : pbns_provision_gate) : bool :=
  pg_initialized gate && bool_decide (pg_state gate = PBNS_PROVISION_GATE_LATCHED).

Definition pbns_provision_gate_is_latched (gate : ptr pbns_provision_gate) : bool :=
  match gate with None => false | Some gate => gate_is_latched gate end.

(** ** Provisioning session *)

Inductive pbns_provision_session_state :=
| PBNS_PROVISION_SESSION_INACTIVE
| PBNS_PROVISION_SESSION_WAIT_DISCONNECT
| PBNS_PROVISION_SESSION_WAIT_CONNECT
| PBNS_PROVISION_SESSION_READY.

Record pbns_provision_session := mk_session { pn_state : pbns_provision_session_state; pn_initialized : bool }.

Definition pbns_provision_session_init (session : ptr pbns_provision_session) : ptr pbns_provision_session :=
  match session with None => None | Some _ => Some (mk_session PBNS_PROVISION_SESSION_INACTIVE true) end.

Definition session_activate (session : pbns_provision_session) (connected : bool)
  : pbns_status * pbns_provision_session :=
  if negb (pn_initialized session) then (PBNS_ERR_ARGUMENT, session)
  else (PBNS_OK, mk_session (if connected then PBNS_PROVISION_SESSION_WAIT_DISCONNECT
                             else PBNS_PROVISION_SESSION_WAIT_CONNECT) (pn_initialized session)).

Definition pbns_provision_session_activate (session : ptr pbns_provision_session) (connected : bool)
  : pbns_status * ptr pbns_provision_session :=
  match session with
  | None => (PBNS_ERR_ARGUMENT, None)
  | Some s => let '(status, s) := session_activate s connected in (status, Some s)
  end.

Definition session_observe (session : pbns_provision_session) (connected : bool)
  : pbns_status * pbns_provision_session * bool :=
  let go state := mk_session state (pn_initialized session) in
  if negb (pn_initialized session) then (PBNS_ERR_ARGUMENT, session, false)
  else
  match pn_state session with
  | PBNS_PROVISION_SESSION_INACTIVE => (PBNS_ERR_STATE, session, false)
  | PBNS_PROVISION_SESSION_WAIT_DISCONNECT =>
      (PBNS_OK, if negb connected then go PBNS_PROVISION_SESSION_WAIT_CONNECT else session, false)
  | PBNS_PROVISION_SESSION_WAIT_CONNECT =>
      if connected then (PBNS_OK, go PBNS_PROVISION_SESSION_READY, true) else (PBNS_OK, session, false)
  | PBNS_PROVISION_SESSION_READY =>
      (PBNS_OK, if negb connected then go PBNS_PROVISION_SESSION_WAIT_CONNECT else session, false)
  end.

Definition pbns_provision_session_observe (session : ptr pbns_provision_session) (connected : bool)
    (opened : ptr bool) : pbns_status * ptr pbns_provision_session * ptr bool :=
  match session, opened with
  | Some s, Some _ => let '(status, s, fired) := session_observe s connected in (status, Some s, Some fired)
  | _, _ => (PBNS_ERR_ARGUMENT, session, (fun _ => false) <$> opened)
  end.

Definition session_is_ready (session : pbns_provision_session) : bool :=
  pn_initialized session
  && match pn_state session with PBNS_PROVISION_SESSION_READY => true | _ => false end.

Definition pbns_provision_session_is_ready (session : ptr pbns_provision_session) : bool :=
  match session with None => false | Some s => session_is_ready s end.

(** ** Tail deadline *)

Record pbns_tail_deadline := mk_tail {
  last_input_us : Z;
  observed_input_generation : Z;
  td_pending : bool;
  td_initialized : bool;
}.

Definition pbns_tail_deadline_init (deadline : ptr pbns_tail_deadline) (input_generation : Z)
  : ptr pbns_tail_deadline :=
  match deadline with None => None | Some _ => Some (mk_tail 0 input_generation false true) end.

Definition pbns_tail_deadline_reset (deadline : ptr pbns_tail_deadline) (input_generation : Z)
  : ptr pbns_tail_deadline :=
  match deadline with None => None | Some _ => Some (mk_tail 0 input_generation false true) end.

Definition tail_observe_input (d : pbns_tail_deadline) (input_generation now_us : Z) : pbns_tail_deadline :=
  if negb (td_initialized d) then d
  else if negb (observed_input_generation d =? input_generation)
  then mk_tail now_us input_generation (td_pending d) (td_initialized d)
  else d.

Definition pbns_tail_deadline_observe_input (deadline : ptr pbns_tail_deadline) (input_generation now_us : Z)
  : ptr pbns_tail_deadline := (fun d => tail_observe_input d input_generation now_us) <$> deadline.

Definition tail_set_pending (d : pbns_tail_deadline) (pending : bool) : pbns_tail_deadline :=
  if negb (td_initialized d) then d
  else mk_tail (last_input_us d) (observed_input_generation d) pending (td_initialized d).

Definition pbns_tail_deadline_set_pending (deadline : ptr pbns_tail_deadline) (pending : bool)
  : ptr pbns_tail_deadline := (fun d => tail_set_pending d pending) <$> deadline.

Definition tail_should_force (d : pbns_tail_deadline) (now_us delay_us : Z) : bool :=
  td_initialized d && td_pending d && (delay_us <=? u64 (now_us - last_input_us d)).

Definition pbns_tail_deadline_should_force (deadline : ptr pbns_tail_deadline) (now_us delay_us : Z) : bool :=
  match deadline with None => false | Some d => tail_should_force d now_us delay_us end.

(** ** TCP writes *)

(** The values of [pbns_tcp_io_result]; any other integer is caught by the
    [default] of the [switch]. *)
Definition PBNS_TCP_IO_NOT_RUN : Z := 0.
Definition PBNS_TCP_IO_OK : Z := 1.
Definition PBNS_TCP_IO_RETRY : Z := 2.
Definition PBNS_TCP_IO_FAILED : Z := 3.

Definition pbns_tcp_write_outcome (write_result output_result queued_bytes : Z) (written : ptr Z)
  : pbns_status * ptr Z :=
  match written with
  | None => (PBNS_ERR_ARGUMENT, None)
  | Some _ =>
      if queued_bytes =? 0 then (PBNS_ERR_ARGUMENT, Some 0)
      else if write_result =? PBNS_TCP_IO_RETRY
      then (if output_result =? PBNS_TCP_IO_NOT_RUN then PBNS_ERR_WOULD_BLOCK else PBNS_ERR_ARGUMENT, Some 0)
      else if write_result =? PBNS_TCP_IO_FAILED
      then (if output_result =? PBNS_TCP_IO_NOT_RUN then PBNS_ERR_TRANSPORT else PBNS_ERR_ARGUMENT, Some 0)
      else if negb (write_result =? PBNS_TCP_IO_OK) then (PBNS_ERR_ARGUMENT, Some 0)
      else if output_result =? PBNS_TCP_IO_OK then (PBNS_OK, Some queued_bytes)
      else if (output_result =? PBNS_TCP_IO_RETRY) || (output_result =? PBNS_TCP_IO_FAILED)
      then (PBNS_ERR_TRANSPORT, Some 0)
      else (PBNS_ERR_ARGUMENT, Some 0)
  end.

(** ** Runs of the gate

    A run is a list of observations (the time, and whether the button is
    pressed).  Observations that come too early are refused; the log keeps the
    samples that were taken. *)

Record gate_trace := mk_trace { tr_gate : pbns_provision_gate; tr_log : list (Z * bool); tr_fired : Z }.

Definition gate_step (tr : gate_trace) (o : Z * bool) : gate_trace :=
  let due := gate_sample_due (tr_gate tr) (fst o) in
  let '(_, gate, activated) := gate_observe (tr_gate tr) (fst o) (snd o) in
  mk_trace gate (if due then tr_log tr ++ [o] else tr_log tr) (tr_fired tr + if activated then 1 else 0).

Definition gate_run (obs : list (Z * bool)) : gate_trace := foldl gate_step (mk_trace fresh_gate [] 0) obs.

(** The button is pressed in every one of the samples, from [t0] to [t1]. *)
Inductive held : Z -> Z -> list (Z * bool) -> Prop :=
| held_one t : held t t [(t, true)]
| held_more t0 t1 t l : held t0 t1 l -> t1 < t -> held t0 t (l ++ [(t, true)]).

Definition held_since (log : list (Z * bool)) (t0 t1 : Z) : Prop :=
  exists before during, log = before ++ during /\ held t0 t1 during.

Definition in_u64 (z : Z) : Prop := 0 <= z <= UINT64_MAX.

(** The invariant of a run. *)
Definition gate_inv (tr : gate_trace) : Prop :=
  let g := tr_gate tr in
  pg_initialized g = true /\ in_u64 (last_sample_ms g) /\ in_u64 (press_started_ms g)
  /\ (has_sample g = true ->
      last_sample_ms g = UINT64_MAX \/ last_sample_ms g < next_sample_ms g)
  /\ match pg_state g with
     | PBNS_PROVISION_GATE_IDLE => tr_fired tr = 0
     | PBNS_PROVISION_GATE_PRESS_PENDING =>
         tr_fired tr = 0 /\ has_sample g = true /\ held_since (tr_log tr) (press_started_ms g) (last_sample_ms g)
     | PBNS_PROVISION_GATE_LATCHED =>
         tr_fired tr = 1 /\ exists t0 t1, held_since (tr_log tr) t0 t1 /\ PBNS_PROVISION_HOLD_MS <= t1 - t0
     end.

Lemma held_le t0 t1 l : held t0 t1 l -> t0 <= t1.
Proof. induction 1; lia. Qed.

Lemma held_since_snoc log t0 t1 t : held_since log t0 t1 -> t1 < t -> held_since (log ++ [(t, true)]) t0 t.
Proof.
  intros (b & d & -> & Hh) Ht. exists b, (d ++ [(t, true)]). rewrite <- app_assoc. split; [done|]. by econstructor.
Qed.

Lemma held_since_one log t : held_since (log ++ [(t, true)]) t t.
Proof. exists log, [(t, true)]. split; [done|constructor]. Qed.

Lemma next_sample_later now : in_u64 now -> now = UINT64_MAX \/ now < next_sample_deadline now.
Proof. unfold in_u64, next_sample_deadline, PBNS_PROVISION_SAMPLE_INTERVAL_MS. intros. zbool; lia. Qed.

Lemma gate_step_inv tr o : gate_inv tr -> in_u64 (fst o) -> gate_inv (gate_step tr o).
Proof.
  destruct tr as [g log fired], o as [now pressed]. intros (Hi & Hl & Hp & Hn & Hst) Ho. unfold gate_step, gate_observe.
  cbn [tr_gate tr_log tr_fired fst snd] in *. rewrite Hi. cbn [negb].
  pose proof (next_sample_later now Ho) as Hnext.
  assert (H0 : in_u64 0) by (unfold in_u64, UINT64_MAX; lia).
  destruct (bool_decide_reflect (pg_state g = PBNS_PROVISION_GATE_LATCHED)) as [Elat|Elat].
  { assert (Hdue : gate_sample_due g now = false).
    { unfold gate_sample_due. rewrite Hi, Elat. done. }
    rewrite Hdue. unfold gate_inv. cbn [tr_gate tr_log tr_fired]. rewrite Z.add_0_r. done. }
  destruct (gate_sample_due g now) eqn:Hdue; cbn [negb].
  2: { unfold gate_inv. cbn [tr_gate tr_log tr_fired]. rewrite Z.add_0_r. done. }
  unfold gate_sample_due in Hdue. rewrite Hi, bool_decide_eq_false_2 in Hdue by done. cbn [negb orb] in Hdue.
  destruct pressed; cbn [negb].
  2: { unfold gate_inv. cbn. rewrite Z.add_0_r. split_and!; try done. by destruct (pg_state g) eqn:E; try (destruct Hst); auto. }
  destruct (has_sample g && (now <? last_sample_ms g)) eqn:Eback.
  { unfold gate_inv. cbn. rewrite Z.add_0_r. split_and!; try done.
    - by destruct (pg_state g) eqn:E; try (destruct Hst); auto.
    - apply held_since_one. }
  destruct (pg_state g) eqn:Est; [| |done].
  { unfold gate_inv. cbn. rewrite Z.add_0_r. split_and!; try done. apply held_since_one. }
  destruct Hst as (Hf & Hhas & Hheld). rewrite Hhas in Hdue, Eback. specialize (Hn Hhas). cbn [negb orb andb] in Hdue, Eback.
  rewrite Eback in Hdue. apply Z.ltb_ge in Eback. bools.
  assert (Hlt : last_sample_ms g < now) by lia.
  pose proof (held_since_snoc _ _ _ now Hheld Hlt) as Hheld'.
  assert (Hle : press_started_ms g <= now).
  { destruct Hheld as (? & ? & _ & Hh%held_le). lia. }
  unfold in_u64 in *. rewrite u64_small by lia.
  destruct (Z.leb_spec PBNS_PROVISION_HOLD_MS (now - press_started_ms g)) as [Hge|Hge];
    unfold gate_inv, in_u64; cbn; split_and!; try done; try lia.
  exists (press_started_ms g), now. split; [done|lia].
Qed.

Lemma gate_run_inv obs : Forall (fun o => in_u64 (fst o)) obs -> gate_inv (gate_run obs).
Proof.
  unfold gate_run. assert (Hg : gate_inv (mk_trace fresh_gate [] 0)).
  { unfold gate_inv, in_u64, UINT64_MAX. cbn. split_and!; try done. }
  revert Hg. generalize (mk_trace fresh_gate [] 0). intros tr Hg Hobs. revert tr Hg.
  induction Hobs as [|o obs Ho _ IH]; intros tr Hg; [done|]. cbn [foldl]. by apply IH, gate_step_inv.
Qed.

(** Provisioning is opened only by a deliberate press.  In every run from a
    fresh gate the gate is activated at most once, exactly when it becomes
    latched, and then its samples end with a run in which the button was
    pressed every time, strictly forward in time, for at least two seconds. *)
Theorem gate_latched_held (obs : list (Z * bool)) :
  Forall (fun o => in_u64 (fst o)) obs ->
  let tr := gate_run obs in
  tr_fired tr = (if gate_is_latched (tr_gate tr) then 1 else 0)
  /\ (gate_is_latched (tr_gate tr) = true ->
      exists t0 t1, held_since (tr_log tr) t0 t1 /\ PBNS_PROVISION_HOLD_MS <= t1 - t0).
Proof.
  intros Hobs tr. destruct (gate_run_inv obs Hobs) as (Hi & _ & _ & _ & Hst). fold tr in Hi, Hst.
  unfold gate_is_latched. rewrite Hi. cbn [andb].
  destruct (pg_state (tr_gate tr)); cbn [bool_decide]; [done|by destruct Hst|].
  destruct Hst as [-> Hh]. done.
Qed.

Lemma gate_latched_held_witness :
  tr_fired (gate_run [(10, true); (20, true); (1100, true); (2010, true); (2100, false)]) = 1.
Proof.
  destruct (gate_latched_held [(10, true); (20, true); (1100, true); (2010, true); (2100, false)]
    ltac:(repeat constructor; cbn; unfold in_u64, UINT64_MAX; lia)) as [E _].
  exact E.
Defined.

(** Samples of a pressed button, far enough apart. *)
Inductive spaced : Z -> Z -> list Z -> Prop :=
| spaced_one t : spaced t t [t]
| spaced_more t0 t1 t l : spaced t0 t1 l -> t1 + PBNS_PROVISION_SAMPLE_INTERVAL_MS <= t -> spaced t0 t (l ++ [t]).

Lemma spaced_le t0 t1 l : spaced t0 t1 l -> t0 <= t1.
Proof. induction 1; unfold PBNS_PROVISION_SAMPLE_INTERVAL_MS in *; lia. Qed.

Lemma gate_run_snoc obs o : gate_run (obs ++ [o]) = gate_step (gate_run obs) o.
Proof. unfold gate_run. by rewrite foldl_app. Qed.

Lemma gate_run_pressed t0 t1 l :
  spaced t0 t1 l -> 0 <= t0 -> t1 <= UINT64_MAX ->
  let g := tr_gate (gate_run ((fun t => (t, true)) <$> l)) in
  pg_initialized g = true
  /\ if PBNS_PROVISION_HOLD_MS <=? t1 - t0 then pg_state g = PBNS_PROVISION_GATE_LATCHED
     else pg_state g = PBNS_PROVISION_GATE_LATCHED
          \/ (pg_state g = PBNS_PROVISION_GATE_PRESS_PENDING /\ press_started_ms g = t0 /\ last_sample_ms g = t1
              /\ next_sample_ms g = next_sample_deadline t1 /\ has_sample g = true).
Proof.
  intros Hs H0. induction Hs as [t|t0 t1 t l Hs IH Ht]; intros Hmax.
  { cbn. rewrite Z.sub_diag. cbn. split; [done|]. right. split_and!; try done. }
  pose proof (spaced_le _ _ _ Hs) as Hle. unfold PBNS_PROVISION_SAMPLE_INTERVAL_MS in Ht.
  destruct (IH H0 ltac:(lia)) as [Hi Hst]. clear IH.
  rewrite fmap_app. cbn [fmap list_fmap]. rewrite gate_run_snoc. set (tr := gate_run _) in *.
  assert (Hlat : pg_state (tr_gate tr) = PBNS_PROVISION_GATE_LATCHED ->
    tr_gate (gate_step tr (t, true)) = tr_gate tr).
  { intros E. unfold gate_step, gate_observe. cbn [fst snd]. rewrite Hi, E. done. }
  assert (Hdone : pg_state (tr_gate tr) = PBNS_PROVISION_GATE_LATCHED ->
    pg_initialized (tr_gate (gate_step tr (t, true))) = true
    /\ if PBNS_PROVISION_HOLD_MS <=? t - t0
       then pg_state (tr_gate (gate_step tr (t, true))) = PBNS_PROVISION_GATE_LATCHED
       else pg_state (tr_gate (gate_step tr (t, true))) = PBNS_PROVISION_GATE_LATCHED \/ False).
  { intros E. rewrite (Hlat E), E. split; [done|]. destruct (PBNS_PROVISION_HOLD_MS <=? t - t0); auto. }
  destruct (PBNS_PROVISION_HOLD_MS <=? t1 - t0).
  { destruct (Hdone Hst) as [? Hd]. split; [done|]. destruct (_ <=? _); [done|]. left. by destruct Hd. }
  destruct Hst as [Hst|(Hpend & Hstart & Hlast & Hnext & Hhas)].
  { destruct (Hdone Hst) as [? Hd]. split; [done|]. destruct (_ <=? _); [done|]. left. by destruct Hd. }
  assert (Hdue : gate_sample_due (tr_gate tr) t = true).
  { unfold gate_sample_due. rewrite Hi, Hpend, Hhas, Hlast, Hnext. cbn.
    unfold next_sample_deadline, PBNS_PROVISION_SAMPLE_INTERVAL_MS. zbool; cbn; try done; lia. }
  unfold gate_step, gate_observe. cbn [fst snd]. rewrite Hi, Hpend, Hdue, Hhas, Hlast, Hstart. cbn [negb andb bool_decide].
  rewrite (proj2 (Z.ltb_ge t t1)) by lia.
  replace (bool_decide (PBNS_PROVISION_GATE_PRESS_PENDING = PBNS_PROVISION_GATE_LATCHED)) with false by done.
  rewrite u64_small by (unfold UINT64_MAX in *; lia).
  destruct (PBNS_PROVISION_HOLD_MS <=? t - t0); cbn; [done|]. split; [done|]. right. split_and!; try done.
Qed.

(** A button held for two seconds latches the gate: samples of a pressed
    button at least the sample interval apart, the last at least two seconds
    after the first, leave a fresh gate latched, activated exactly once. *)
Theorem gate_hold_latches (t0 t1 : Z) (ts : list Z) :
  spaced t0 t1 ts -> 0 <= t0 -> t1 <= UINT64_MAX -> PBNS_PROVISION_HOLD_MS <= t1 - t0 ->
  gate_is_latched (tr_gate (gate_run ((fun t => (t, true)) <$> ts))) = true.
Proof.
  intros Hs H0 Hmax Hhold. destruct (gate_run_pressed t0 t1 ts Hs H0 Hmax) as [Hi Hst].
  rewrite (proj2 (Z.leb_le _ _) Hhold) in Hst. unfold gate_is_latched. by rewrite Hi, Hst.
Qed.

Lemma gate_hold_latches_witness :
  gate_is_latched (tr_gate (gate_run ((fun t => (t, true)) <$> [5; 1000; 2005]))) = true.
Proof.
  refine (gate_hold_latches 5 2005 [5; 1000; 2005] _ _ _ _); try (vm_compute; discriminate).
  refine (spaced_more 5 1000 2005 [5; 1000] (spaced_more 5 5 1000 [5] (spaced_one 5) _) _); vm_compute; discriminate.
Defined.

(** ** Runs of the session *)

Fixpoint session_run (s : pbns_provision_session) (obs : list bool) : pbns_provision_session * list bool :=
  match obs with
  | [] => (s, [])
  | c :: obs => let '(_, s, opened) := session_observe s c in
                let '(s, fired) := session_run s obs in (s, opened :: fired)
  end.

(** The rising edges of a signal whose previous value is [prev]. *)
Fixpoint rising (prev : bool) (obs : list bool) : list bool :=
  match obs with [] => [] | c :: obs => (negb prev && c) :: rising c obs end.

Lemma last_default {A} (l : list A) d d' : l <> [] -> List.last l d = List.last l d'.
Proof. induction l as [|x [|y l] IH]; intros; [done|done|]. by apply IH. Qed.

Lemma session_run_edges obs : forall (prev : bool) (s : pbns_provision_session),
  pn_initialized s = true ->
  pn_state s = (if prev then PBNS_PROVISION_SESSION_WAIT_DISCONNECT else PBNS_PROVISION_SESSION_WAIT_CONNECT)
  \/ (prev = true /\ pn_state s = PBNS_PROVISION_SESSION_READY) ->
  let '(s', fired) := session_run s obs in
  fired = rising prev obs
  /\ session_is_ready s' = List.last obs prev && (session_is_ready s || negb (forallb (fun c : bool => c) (prev :: obs))).
Proof.
  induction obs as [|c obs IH]; intros prev [st i] Hi Hst; cbn [pn_initialized pn_state session_run rising] in *; subst i.
  { split; [done|]. cbn. destruct Hst as [-> |[-> ->]]; [|done]. by destruct prev. }
  set (s := mk_session st true).
  assert (Hnext : forall s1, pn_initialized s1 = true ->
    pn_state s1 = (if c then PBNS_PROVISION_SESSION_WAIT_DISCONNECT else PBNS_PROVISION_SESSION_WAIT_CONNECT)
    \/ (c = true /\ pn_state s1 = PBNS_PROVISION_SESSION_READY) ->
    session_is_ready s1 || negb (forallb (fun c : bool => c) (c :: obs))
      = session_is_ready s || negb (forallb (fun c : bool => c) (prev :: c :: obs)) ->
    let '(s', fired) := session_run s1 obs in
    (negb prev && c) :: fired = (negb prev && c) :: rising c obs
    /\ session_is_ready s' = List.last (c :: obs) prev
                             && (session_is_ready s || negb (forallb (fun c : bool => c) (prev :: c :: obs)))).
  { intros s1 Hi1 Hst1 Hr. specialize (IH c s1 Hi1 Hst1). destruct (session_run s1 obs) as [s' fired].
    destruct IH as [-> ->]. split; [done|]. rewrite Hr. f_equal. destruct obs; [done|].
    cbn [List.last]. apply (last_default (_ :: _)). done. }
  destruct Hst as [-> |[-> ->]]; [destruct prev|]; destruct c; cbn in Hnext |- *;
    match goal with |- context [session_run ?s1 obs] =>
      specialize (Hnext s1 eq_refl); cbn in Hnext; destruct (session_run s1 obs); apply Hnext; auto
    end.
Qed.

(** A provisioning session opens exactly when the cable is plugged in after
    the activation: at every change from disconnected to connected, so that a
    connection that was already there at the activation never counts; and it is
    ready exactly while such a connection lasts. *)
Theorem session_opens_on_edges (connected0 : bool) (obs : list bool) :
  let s0 := default (mk_session PBNS_PROVISION_SESSION_INACTIVE true)
              (snd (pbns_provision_session_activate
                      (pbns_provision_session_init (Some (mk_session PBNS_PROVISION_SESSION_INACTIVE false)))
                      connected0)) in
  let '(s, opened) := session_run s0 obs in
  opened = rising connected0 obs
  /\ session_is_ready s = List.last obs connected0 && negb (forallb (fun c : bool => c) (connected0 :: obs)).
Proof.
  cbn [pbns_provision_session_init pbns_provision_session_activate session_activate pn_initialized negb snd default].
  set (s0 := mk_session _ true). change (id s0) with s0.
  pose proof (session_run_edges obs connected0 s0 eq_refl (or_introl eq_refl)) as Hrun.
  destruct (session_run s0 obs) as [s opened]. destruct Hrun as [-> ->]. split; [done|].
  unfold session_is_ready, s0. by destruct connected0.
Qed.

(** ** Runs of the tail deadline *)

Inductive tail_event := InputSeen (generation now_us : Z) | PendingSet (pending : bool).

Definition tail_step (d : pbns_tail_deadline) (ev : tail_event) : pbns_tail_deadline :=
  match ev with
  | InputSeen generation now_us => tail_observe_input d generation now_us
  | PendingSet pending => tail_set_pending d pending
  end.

Definition between (t now : Z) (ev : tail_event) : Prop :=
  match ev with InputSeen _ u => t <= u <= now | PendingSet _ => True end.

Lemma tail_run_recent t now evs : Forall (between t now) evs -> forall d,
  td_initialized d = true -> t <= last_input_us d <= now ->
  td_initialized (foldl tail_step d evs) = true /\ t <= last_input_us (foldl tail_step d evs) <= now.
Proof.
  induction 1 as [|ev evs Hev _ IH]; intros d Hi Hd; [done|]. cbn [foldl].
  destruct ev as [g u|p]; cbn [tail_step between] in *.
  - unfold tail_observe_input. rewrite Hi. cbn [negb]. destruct (negb _); by apply IH.
  - unfold tail_set_pending. rewrite Hi. by apply IH.
Qed.

(** Octets are never forced out while input is arriving: after an input of a
    new generation seen at time [t], whatever is observed until [now], no write
    is forced before the delay has passed; and once it has passed with nothing
    else observed, a pending write is. *)
Theorem tail_never_early (d : pbns_tail_deadline) (generation t now delay : Z) (evs : list tail_event) :
  td_initialized d = true -> observed_input_generation d <> generation ->
  0 <= t -> t <= now <= UINT64_MAX -> Forall (between t now) evs ->
  let d1 := tail_observe_input d generation t in
  (now < t + delay -> tail_should_force (foldl tail_step d1 evs) now delay = false)
  /\ (t + delay <= now -> tail_should_force (tail_set_pending d1 true) now delay = true).
Proof.
  intros Hi Hg Ht Hnow Hevs d1.
  assert (E1 : d1 = mk_tail t generation (td_pending d) true).
  { unfold d1, tail_observe_input. rewrite Hi, (proj2 (Z.eqb_neq _ _) Hg). done. }
  split.
  - intros Hearly. destruct (tail_run_recent t now evs Hevs d1) as [_ Hl]; [by rewrite E1..|rewrite E1; cbn; lia|].
    unfold tail_should_force. rewrite u64_small by lia.
    destruct (Z.leb_spec delay (now - last_input_us (foldl tail_step d1 evs))); [lia|]. apply andb_false_r.
  - intros Hlate. unfold tail_should_force, tail_set_pending. rewrite E1. cbn [td_initialized negb td_pending last_input_us andb].
    rewrite u64_small by lia. apply Z.leb_le. lia.
Qed.

Lemma tail_never_early_witness :
  tail_should_force (foldl tail_step (tail_observe_input (mk_tail 0 3 true true) 4 1000) [PendingSet true]) 1200 500 = false.
Proof.
  refine (proj1 (tail_never_early (mk_tail 0 3 true true) 4 1000 1200 500 [PendingSet true] _ _ _ _ _) _);
    try reflexivity; try (vm_compute; try split; discriminate).
  repeat constructor.
Defined.

(** ** TCP writes *)

(** A write reports octets as written only when they were both queued and
    sent, and then all of them; it asks for a retry only when nothing was
    queued; in every other case nothing is reported as written. *)
Theorem tcp_write_exact (write_result output_result queued_bytes w0 : Z) :
  let '(status, written) := pbns_tcp_write_outcome write_result output_result queued_bytes (Some w0) in
  (status = PBNS_OK <-> write_result = PBNS_TCP_IO_OK /\ output_result = PBNS_TCP_IO_OK /\ queued_bytes <> 0)
  /\ (status = PBNS_OK -> written = Some queued_bytes) /\ (status <> PBNS_OK -> written = Some 0)
  /\ (status = PBNS_ERR_WOULD_BLOCK
      <-> write_result = PBNS_TCP_IO_RETRY /\ output_result = PBNS_TCP_IO_NOT_RUN /\ queued_bytes <> 0).
Proof.
  unfold pbns_tcp_write_outcome, PBNS_TCP_IO_OK, PBNS_TCP_IO_RETRY, PBNS_TCP_IO_FAILED, PBNS_TCP_IO_NOT_RUN.
  zbool; subst; cbn; split_and!; try done; try lia; split; intros; try done; try lia.
Qed.
