(* ===== verification/Network.v ===== *)
(** * Proxy connection state machine ([pico/include/pbns_proxy/network.h], [pico/src/network.c])

    The proxy brings up Wi-Fi, TCP and the session, one polled step at a time,
    and backs off after a failure.  The network stack is a set of callbacks over
    a world [W].  The theorems follow a run of steps at any times: connections
    are opened and closed in turn, the state says which, and a retry waits. *)

From stdpp Require Import base list numbers.
From Stdlib Require Import ZArith Lia.
From S2P Require Import Prelude Status.

(** ** The code *)

Definition PBNS_NETWORK_WIFI_TIMEOUT_MS : Z := 30000.
Definition PBNS_NETWORK_TCP_TIMEOUT_MS : Z := 10000.
Definition PBNS_NETWORK_SESSION_TIMEOUT_MS : Z := 15000.
Definition BACKOFF_INITIAL_MS : Z := 250.
Definition BACKOFF_MAX_MS : Z := 8000.
Definition BACKOFF_MAX_SHIFT : Z := 5.

Inductive pbns_network_state :=
| PBNS_NETWORK_DOWN
| PBNS_NETWORK_WIFI_CONNECTING
| PBNS_NETWORK_TCP_CONNECTING
| PBNS_NETWORK_SESSION_CONNECTING
| PBNS_NETWORK_READY
| PBNS_NETWORK_BACKOFF.

#[export] Instance pbns_network_state_eq_dec : EqDecision pbns_network_state.
Proof. solve_decision. Defined.

(** [random_u32] maps the value its pointer refers to. *)
Record pbns_network_ops (W : Type) := mk_network_ops {
  no_wifi_start : ptr (W -> pbns_status * W);
  no_wifi_poll : ptr (W -> pbns_status * W);
  no_tcp_poll : ptr (W -> pbns_status * W);
  no_session_poll : ptr (W -> pbns_status * W);
  no_close : ptr (W -> W);
  no_random_u32 : ptr (W -> Z -> pbns_status * Z * W);
}.
Arguments mk_network_ops {W}.
Arguments no_wifi_start {W}.
Arguments no_wifi_poll {W}.
Arguments no_tcp_poll {W}.
Arguments no_session_poll {W}.
Arguments no_close {W}.
Arguments no_random_u32 {W}.

Record pbns_network := mk_network {
  nw_state : pbns_network_state;
  nw_failure_count : Z;
  nw_retry_deadline_ms : Z;
  nw_state_entered_ms : Z;
  nw_failure : pbns_status;
  nw_initialized : bool;
  nw_connection_active : bool;
}.

Definition ops_are_valid {W} (ops : ptr (pbns_network_ops W)) : bool :=
  match ops with
  | Some (mk_network_ops (Some _) (Some _) (Some _) (Some _) (Some _) (Some _)) => true
  | _ => false
  end.

Definition state_timeout (state : pbns_network_state) : Z :=
  match state with
  | PBNS_NETWORK_WIFI_CONNECTING => PBNS_NETWORK_WIFI_TIMEOUT_MS
  | PBNS_NETWORK_TCP_CONNECTING => PBNS_NETWORK_TCP_TIMEOUT_MS
  | PBNS_NETWORK_SESSION_CONNECTING => PBNS_NETWORK_SESSION_TIMEOUT_MS
  | _ => 0
  end.

Definition nominal_backoff (failure_count : Z) : Z :=
  let shift := if failure_count <? BACKOFF_MAX_SHIFT then failure_count else BACKOFF_MAX_SHIFT in
  u64 (Z.shiftl BACKOFF_INITIAL_MS shift).

Definition pbns_network_init (network : ptr pbns_network) : ptr pbns_network :=
  (fun _ => mk_network PBNS_NETWORK_DOWN 0 0 0 PBNS_OK true false) <$> network.

Section code.
Context {W : Type}.
Variable ops : pbns_network_ops W.

(** The results: the status, [*made_progress], the network and the world. *)
Notation result := (option (pbns_status * bool * pbns_network * W)).

Definition set_active (n : pbns_network) (active : bool) : pbns_network :=
  mk_network (nw_state n) (nw_failure_count n) (nw_retry_deadline_ms n) (nw_state_entered_ms n) (nw_failure n)
    (nw_initialized n) active.

Definition close_active_connection (n : pbns_network) (w : W) : option (pbns_network * W) :=
  if nw_connection_active n then close ← no_close ops; Some (set_active n false, close w) else Some (n, w).

Definition schedule_backoff (n : pbns_network) (now_ms : Z) (cause : pbns_status) (w : W) : result :=
  '(n, w) ← close_active_connection n w;
  random_u32 ← no_random_u32 ops;
  let '(random_status, random_value, w) := random_u32 w 0 in
  if negb (is_ok random_status)
  then Some (random_status, true,
             mk_network PBNS_NETWORK_DOWN (nw_failure_count n) 0 now_ms random_status (nw_initialized n)
               (nw_connection_active n), w)
  else
  let nominal := nominal_backoff (nw_failure_count n) in
  let jitter_span := nominal / 4 + 1 in
  let jitter := random_value mod jitter_span in
  let delay := if u64 (BACKOFF_MAX_MS - nominal) <? jitter then BACKOFF_MAX_MS else nominal + jitter in
  let deadline := if UINT64_MAX - delay <? now_ms then UINT64_MAX else now_ms + delay in
  let failure_count := if nw_failure_count n <? UINT32_MAX then nw_failure_count n + 1 else nw_failure_count n in
  Some (cause, true,
        mk_network PBNS_NETWORK_BACKOFF failure_count deadline now_ms (nw_failure n) (nw_initialized n)
          (nw_connection_active n), w).

Definition poll_connecting_stage (n : pbns_network) (poll : ptr (W -> pbns_status * W))
    (next_state : pbns_network_state) (now_ms : Z) (w : W) : result :=
  poll ← poll;
  let '(status, w) := poll w in
  if status_eqb status PBNS_ERR_WOULD_BLOCK then Some (PBNS_OK, false, n, w)
  else if negb (is_ok status) then schedule_backoff n now_ms status w
  else
  let '(failure_count, deadline) :=
    match next_state with
    | PBNS_NETWORK_READY => (0, 0)
    | _ => (nw_failure_count n, nw_retry_deadline_ms n)
    end in
  Some (PBNS_OK, true,
        mk_network next_state failure_count deadline now_ms (nw_failure n) (nw_initialized n) (nw_connection_active n), w).

(** The states, once the USB side is connected and no stage has timed out. *)
Definition step_state (n : pbns_network) (now_ms : Z) (w : W) : result :=
  match nw_state n with
  | PBNS_NETWORK_DOWN =>
      let n := set_active n true in
      wifi_start ← no_wifi_start ops;
      let '(status, w) := wifi_start w in
      if negb (is_ok status) then schedule_backoff n now_ms status w
      else Some (PBNS_OK, true,
                 mk_network PBNS_NETWORK_WIFI_CONNECTING (nw_failure_count n) (nw_retry_deadline_ms n) now_ms
                   (nw_failure n) (nw_initialized n) (nw_connection_active n), w)
  | PBNS_NETWORK_WIFI_CONNECTING => poll_connecting_stage n (no_wifi_poll ops) PBNS_NETWORK_TCP_CONNECTING now_ms w
  | PBNS_NETWORK_TCP_CONNECTING => poll_connecting_stage n (no_tcp_poll ops) PBNS_NETWORK_SESSION_CONNECTING now_ms w
  | PBNS_NETWORK_SESSION_CONNECTING => poll_connecting_stage n (no_session_poll ops) PBNS_NETWORK_READY now_ms w
  | PBNS_NETWORK_READY =>
      session_poll ← no_session_poll ops;
      let '(status, w) := session_poll w in
      if is_ok status || status_eqb status PBNS_ERR_WOULD_BLOCK then Some (PBNS_OK, false, n, w)
      else schedule_backoff n now_ms status w
  | PBNS_NETWORK_BACKOFF =>
      if nw_retry_deadline_ms n <=? now_ms
      then Some (PBNS_OK, true,
                 mk_network PBNS_NETWORK_DOWN (nw_failure_count n) (nw_retry_deadline_ms n) now_ms (nw_failure n)
                   (nw_initialized n) (nw_connection_active n), w)
      else Some (PBNS_OK, false, n, w)
  end.

Definition network_step (n : pbns_network) (now_ms : Z) (usb_connected : bool) (w : W) : result :=
  if negb (is_ok (nw_failure n)) then Some (nw_failure n, false, n, w)
  else if negb usb_connected then
    match nw_state n with
    | PBNS_NETWORK_DOWN => Some (PBNS_OK, false, n, w)
    | _ =>
        '(n, w) ← close_active_connection n w;
        Some (PBNS_OK, true, mk_network PBNS_NETWORK_DOWN 0 0 0 (nw_failure n) (nw_initialized n) (nw_connection_active n), w)
    end
  else
  let timeout := state_timeout (nw_state n) in
  if (0 <? timeout) && (nw_state_entered_ms n <=? now_ms) && (timeout <=? now_ms - nw_state_entered_ms n)
  then schedule_backoff n now_ms PBNS_ERR_TIMEOUT w
  else step_state n now_ms w.
End code.

Definition pbns_network_step {W} (network : ptr pbns_network) (ops : ptr (pbns_network_ops W)) (now_ms : Z)
    (usb_connected : bool) (made_progress : ptr bool) (w : W)
  : option (pbns_status * ptr bool * ptr pbns_network * W) :=
  match network, ops, made_progress with
  | Some n, Some ops', Some _ =>
      if negb (nw_initialized n) || negb (ops_are_valid ops) then Some (PBNS_ERR_ARGUMENT, Some false, network, w)
      else '(status, progress, n, w) ← network_step ops' n now_ms usb_connected w; Some (status, Some progress, Some n, w)
  | _, _, _ => Some (PBNS_ERR_ARGUMENT, (fun _ => false) <$> made_progress, network, w)
  end.

(** ** Runs *)

Inductive net_call := NetStart | NetClose.

(** The callbacks, with the openings and closings of a connection logged. *)
Definition net_logged {W} (ops : pbns_network_ops W) : pbns_network_ops (W * list net_call) :=
  let quiet f := fun '(w, log) => let '(st, w) := f w in (st, (w, log)) : pbns_status * (W * list net_call) in
  mk_network_ops
    ((fun f '(w, log) => let '(st, w) := f w in (st, (w, log ++ [NetStart]))) <$> no_wifi_start ops)
    (quiet <$> no_wifi_poll ops) (quiet <$> no_tcp_poll ops) (quiet <$> no_session_poll ops)
    ((fun f '(w, log) => (f w, log ++ [NetClose])) <$> no_close ops)
    ((fun f '(w, log) v => let '(st, v, w) := f w v in (st, v, (w, log))) <$> no_random_u32 ops).

Fixpoint network_run {W} (ops : pbns_network_ops W) (n : pbns_network) (w : W) (steps : list (Z * bool))
  : option (pbns_network * W) :=
  match steps with
  | [] => Some (n, w)
  | (now_ms, usb_connected) :: steps =>
      '(status, progress, n, w) ← network_step ops n now_ms usb_connected w; network_run ops n w steps
  end.

Definition fresh_network : pbns_network := mk_network PBNS_NETWORK_DOWN 0 0 0 PBNS_OK true false.

(** Whether a connection is open after the calls; [None] when a connection was
    opened over another one, or one was closed that was not open. *)
Definition open_after (log : list net_call) : option bool :=
  foldl (fun o c => match o, c with
                    | Some false, NetStart => Some true
                    | Some true, NetClose => Some false
                    | _, _ => None
                    end) (Some false) log.

Definition carries_connection (s : pbns_network_state) : bool :=
  match s with PBNS_NETWORK_DOWN | PBNS_NETWORK_BACKOFF => false | _ => true end.

Definition net_ok (n : pbns_network) (log : list net_call) : Prop :=
  nw_initialized n = true /\ nw_connection_active n = carries_connection (nw_state n)
  /\ open_after log = Some (nw_connection_active n) /\ 0 <= nw_failure_count n <= UINT32_MAX
  /\ (nw_failure n <> PBNS_OK -> nw_state n = PBNS_NETWORK_DOWN).

Lemma open_after_snoc log c :
  open_after (log ++ [c]) = match open_after log, c with
                            | Some false, NetStart => Some true
                            | Some true, NetClose => Some false
                            | _, _ => None
                            end.
Proof. unfold open_after. by rewrite foldl_app. Qed.

Lemma nominal_backoff_value count :
  0 <= count -> nominal_backoff count = Z.min BACKOFF_MAX_MS (BACKOFF_INITIAL_MS * 2 ^ count).
Proof.
  intros Hc. unfold nominal_backoff, BACKOFF_MAX_SHIFT, BACKOFF_MAX_MS, BACKOFF_INITIAL_MS. cbv zeta.
  destruct (Z.ltb_spec count 5) as [Hlt|Hge].
  - assert (count = 0 \/ count = 1 \/ count = 2 \/ count = 3 \/ count = 4) as [-> | [-> | [-> | [-> | ->]]]] by lia; done.
  - assert (2 ^ 5 <= 2 ^ count) by (apply Z.pow_le_mono_r; lia). change (2 ^ 5) with 32 in *.
    change (u64 (Z.shiftl 250 5)) with 8000. lia.
Qed.

Section runs.
Context {W : Type}.
Variable ops : pbns_network_ops W.
Hypothesis Hops : ops_are_valid (Some ops) = true.

(** The connection the network had is closed, whatever happens to the retry. *)
Definition backed_off (n : pbns_network) (now : Z) (cause st : pbns_status) (n' : pbns_network) : Prop :=
  (st = cause /\ nw_state n' = PBNS_NETWORK_BACKOFF /\ nw_failure n' = nw_failure n
   /\ nw_failure_count n' = Z.min UINT32_MAX (nw_failure_count n + 1)
   /\ (exists delay, nominal_backoff (nw_failure_count n) <= delay <= BACKOFF_MAX_MS
       /\ delay <= nominal_backoff (nw_failure_count n) + nominal_backoff (nw_failure_count n) / 4
       /\ nw_retry_deadline_ms n' = Z.min UINT64_MAX (now + delay)))
  \/ (st = nw_failure n' /\ nw_failure n' <> PBNS_OK /\ nw_state n' = PBNS_NETWORK_DOWN).

Lemma close_spec n w log :
  open_after log = Some (nw_connection_active n) ->
  exists w1 log1, close_active_connection (net_logged ops) n (w, log) = Some (set_active n false, (w1, log1))
  /\ open_after log1 = Some false.
Proof.
  intros Hopen. unfold close_active_connection. destruct n as [s fc d e f i a]. cbn in *. destruct a.
  - destruct ops as [[ws|] [wp|] [tp|] [sp|] [cl|] [rn|]]; try done. cbn. eexists _, _. split; [done|].
    by rewrite open_after_snoc, Hopen.
  - eexists _, _. split; [done|]. done.
Qed.

Lemma schedule_backoff_spec n now cause w log :
  nw_initialized n = true -> 0 <= nw_failure_count n <= UINT32_MAX -> 0 <= now ->
  open_after log = Some (nw_connection_active n) -> nw_failure n = PBNS_OK ->
  exists st n' w' log', schedule_backoff (net_logged ops) n now cause (w, log) = Some (st, true, n', (w', log'))
  /\ net_ok n' log' /\ backed_off n now cause st n'.
Proof.
  intros Hi Hc Hnow Hopen Hfail.
  destruct (close_spec n w log Hopen) as (w1 & log1 & E1 & Hopen1). unfold schedule_backoff. rewrite E1. cbn [mbind option_bind].
  assert (exists rn, no_random_u32 ops = Some rn) as [rn Ern].
  { destruct ops as [[ws|] [wp|] [tp|] [sp|] [cl|] [rn|]]; try done. by exists rn. }
  cbn [net_logged no_random_u32]. rewrite Ern. cbn [fmap option_fmap option_map mbind option_bind].
  destruct (rn w1 0) as [[rst v] w2] eqn:Er. destruct (is_ok rst) eqn:Hrst; cbn [negb].
  2:{ eexists _, _, _, _. split; [done|]. split; [|right; cbn; by rewrite is_ok_false in Hrst]. unfold net_ok. cbn.
      split_and!; try done; lia. }
  cbv zeta. cbn [set_active nw_failure_count nw_failure nw_initialized nw_connection_active].
  pose proof (nominal_backoff_value (nw_failure_count n) ltac:(lia)) as Hnom.
  set (nominal := nominal_backoff (nw_failure_count n)) in *.
  assert (Hn : 250 <= nominal <= 8000).
  { assert (1 <= 2 ^ nw_failure_count n) by (apply (Z.pow_le_mono_r 2 0); lia).
    unfold BACKOFF_MAX_MS, BACKOFF_INITIAL_MS in *. lia. }
  unfold BACKOFF_MAX_MS in *. rewrite (u64_small (8000 - nominal)) by (unfold UINT64_MAX; lia).
  pose proof (Z.div_pos nominal 4 ltac:(lia) ltac:(lia)).
  pose proof (Z.mod_pos_bound v (nominal / 4 + 1) ltac:(lia)). set (jitter := v mod (nominal / 4 + 1)) in *.
  set (delay := if 8000 - nominal <? jitter then 8000 else nominal + jitter).
  assert (Hd : nominal <= delay <= 8000 /\ delay <= nominal + nominal / 4)
    by (unfold delay; destruct (Z.ltb_spec (8000 - nominal) jitter); lia).
  eexists _, _, _, _. split; [done|]. unfold net_ok, backed_off, UINT32_MAX in *. cbn. rewrite Hfail. split.
  - split_and!; try done; destruct (Z.ltb_spec (nw_failure_count n) 4294967295); lia.
  - left. split; [done|]. split; [done|]. split; [done|].
    split; [destruct (Z.ltb_spec (nw_failure_count n) 4294967295); lia|]. exists delay. fold nominal. unfold BACKOFF_MAX_MS.
    split; [lia|]. split; [lia|].
    destruct (Z.ltb_spec (UINT64_MAX - delay) now); lia.
Qed.

(** What one step does to a network that is in order. *)
Definition step_post (n : pbns_network) (now : Z) (usb : bool) (w : W) (log : list net_call)
    (st : pbns_status) (progress : bool) (n' : pbns_network) (w' : W) (log' : list net_call) : Prop :=
  net_ok n' log'
  /\ (nw_failure n <> PBNS_OK -> st = nw_failure n /\ progress = false /\ n' = n /\ w' = w /\ log' = log)
  /\ (nw_failure n = PBNS_OK -> usb = false -> st = PBNS_OK /\ nw_state n' = PBNS_NETWORK_DOWN)
  /\ (nw_failure n = PBNS_OK -> usb = true ->
      (nw_state n = PBNS_NETWORK_BACKOFF -> now < nw_retry_deadline_ms n ->
        st = PBNS_OK /\ progress = false /\ n' = n /\ w' = w /\ log' = log)
      /\ (nw_state n <> PBNS_NETWORK_BACKOFF -> nw_state n' = PBNS_NETWORK_BACKOFF -> backed_off n now st st n')
      /\ (0 < state_timeout (nw_state n) <= now - nw_state_entered_ms n ->
          backed_off n now PBNS_ERR_TIMEOUT st n' /\ nw_connection_active n' = false)).

Lemma backed_off_cause n now cause st n' :
  backed_off n now cause st n' -> nw_state n' = PBNS_NETWORK_BACKOFF -> backed_off n now st st n'.
Proof. intros [(-> & H)|(_ & _ & H)] E; [by left|congruence]. Qed.

Lemma backed_off_closed n now cause st n' log :
  backed_off n now cause st n' -> net_ok n' log -> nw_connection_active n' = false.
Proof. intros Hb (_ & -> & _). destruct Hb as [(_ & -> & _)|(_ & _ & ->)]; done. Qed.

Lemma poll_connecting_spec n poll next now w log :
  (exists f, poll = Some f) -> net_ok n log -> nw_failure n = PBNS_OK -> carries_connection (nw_state n) = true ->
  carries_connection next = true -> 0 <= now ->
  exists st progress n' w' log',
    poll_connecting_stage (net_logged ops) n
      ((fun f '(w, log) => let '(st, w) := f w in (st, (w, log))) <$> poll) next now (w, log)
    = Some (st, progress, n', (w', log'))
  /\ net_ok n' log' /\ (nw_state n' = PBNS_NETWORK_BACKOFF -> backed_off n now st st n').
Proof.
  intros [f ->] Hok Hf Hs Hnext Hnow. pose proof Hok as (Hi & Ha & Ho & Hc & _). unfold poll_connecting_stage.
  cbn [fmap option_fmap option_map mbind option_bind]. destruct (f w) as [st w1] eqn:E.
  destruct (status_eqb st PBNS_ERR_WOULD_BLOCK).
  { eexists _, _, _, _, _. split; [done|]. split; [done|]. intros Eb. by rewrite Eb in Hs. }
  destruct (is_ok st) eqn:Hst; cbn [negb].
  - assert (Hn : forall fc d, 0 <= fc <= UINT32_MAX ->
      net_ok (mk_network next fc d now (nw_failure n) (nw_initialized n) (nw_connection_active n)) log).
    { intros fc d Hfc. unfold net_ok. cbn. rewrite Hi, Hf, Ha, Hs, Hnext. rewrite Ho, Ha, Hs. split_and!; try done; lia. }
    destruct next; try done; (eexists _, _, _, _, _; split; [done|]; split; [apply Hn; unfold UINT32_MAX in *; lia|done]).
  - destruct (schedule_backoff_spec n now st w1 log) as (st' & n' & w' & log' & -> & Hok' & Hb); try done.
    eexists _, _, _, _, _. split; [done|]. split; [done|]. intros Eb. by eapply backed_off_cause.
Qed.

Lemma step_state_spec n now w log :
  net_ok n log -> nw_failure n = PBNS_OK -> 0 <= now ->
  exists st progress n' w' log', step_state (net_logged ops) n now (w, log) = Some (st, progress, n', (w', log'))
  /\ net_ok n' log'
  /\ (nw_state n = PBNS_NETWORK_BACKOFF -> now < nw_retry_deadline_ms n ->
      st = PBNS_OK /\ progress = false /\ n' = n /\ w' = w /\ log' = log)
  /\ (nw_state n <> PBNS_NETWORK_BACKOFF -> nw_state n' = PBNS_NETWORK_BACKOFF -> backed_off n now st st n').
Proof.
  intros Hok Hf Hnow. pose proof Hok as (Hi & Ha & Ho & Hc & _).
  assert (exists f1 f2 f3 f4, no_wifi_start ops = Some f1 /\ no_wifi_poll ops = Some f2 /\ no_tcp_poll ops = Some f3
    /\ no_session_poll ops = Some f4) as (f1 & f2 & f3 & f4 & E1 & E2 & E3 & E4).
  { destruct ops as [[ws|] [wp|] [tp|] [sp|] [cl|] [rn|]]; try done. by eexists _, _, _, _. }
  assert (Hpoll : forall poll next, (exists f, poll = Some f) -> carries_connection next = true ->
    carries_connection (nw_state n) = true ->
    exists st progress n' w' log',
      poll_connecting_stage (net_logged ops) n ((fun f '(w, log) => let '(st, w) := f w in (st, (w, log))) <$> poll) next now (w, log)
      = Some (st, progress, n', (w', log'))
    /\ net_ok n' log'
    /\ (nw_state n = PBNS_NETWORK_BACKOFF -> now < nw_retry_deadline_ms n ->
        st = PBNS_OK /\ progress = false /\ n' = n /\ w' = w /\ log' = log)
    /\ (nw_state n <> PBNS_NETWORK_BACKOFF -> nw_state n' = PBNS_NETWORK_BACKOFF -> backed_off n now st st n')).
  { intros poll next Hp Hnext Hs. destruct (poll_connecting_spec n poll next now w log) as (st & pr & n' & w' & log' & E & Hok' & Hb);
      try done. eexists _, _, _, _, _. split; [exact E|]. split; [done|]. split; [intros Eb; by rewrite Eb in Hs|done]. }
  unfold step_state. destruct (nw_state n) eqn:Es; cbn in Ha.
  - cbn [net_logged no_wifi_start]. rewrite E1. cbn [fmap option_fmap option_map mbind option_bind].
    destruct (f1 w) as [st w1] eqn:E.
    assert (Hopen : open_after (log ++ [NetStart]) = Some true) by (by rewrite open_after_snoc, Ho, Ha).
    destruct (is_ok st); cbn [negb].
    + eexists _, _, _, _, _. split; [done|]. split; [|done]. unfold net_ok. cbn. rewrite Hf. split_and!; try done; lia.
    + destruct (schedule_backoff_spec (set_active n true) now st w1 (log ++ [NetStart]))
        as (st' & n' & w' & log' & -> & Hok' & Hb); try done.
      eexists _, _, _, _, _. split; [done|]. split; [done|]. split; [done|]. intros _ Eb.
      exact (backed_off_cause _ _ _ _ _ Hb Eb).
  - apply (Hpoll (no_wifi_poll ops)); [by eexists|done..].
  - apply (Hpoll (no_tcp_poll ops)); [by eexists|done..].
  - apply (Hpoll (no_session_poll ops)); [by eexists|done..].
  - cbn [net_logged no_session_poll]. rewrite E4. cbn [fmap option_fmap option_map mbind option_bind].
    destruct (f4 w) as [st w1] eqn:E. destruct (_ || _).
    + eexists _, _, _, _, _. split; [done|]. split; [done|]. split; [done|]. intros _ Eb. by rewrite Eb in Es.
    + destruct (schedule_backoff_spec n now st w1 log) as (st' & n' & w' & log' & -> & Hok' & Hb); try done.
      eexists _, _, _, _, _. split; [done|]. split; [done|]. split; [done|]. intros _ Eb. exact (backed_off_cause _ _ _ _ _ Hb Eb).
  - destruct (Z.leb_spec (nw_retry_deadline_ms n) now).
    + eexists _, _, _, _, _. split; [done|]. split; [|split; [intros _ ?; lia|done]]. unfold net_ok. cbn.
      rewrite Hf, Ha, Ho, Ha. split_and!; try done; lia.
    + eexists _, _, _, _, _. split; [done|]. split; [done|]. split; [done|]. done.
Qed.

Lemma network_step_spec n now usb w log :
  net_ok n log -> 0 <= now ->
  exists st progress n' w' log', network_step (net_logged ops) n now usb (w, log) = Some (st, progress, n', (w', log'))
  /\ step_post n now usb w log st progress n' w' log'.
Proof.
  intros Hok Hnow. pose proof Hok as (Hi & Ha & Ho & Hc & Hfd). unfold network_step, step_post.
  destruct (is_ok (nw_failure n)) eqn:Hf; cbn [negb].
  2:{ apply is_ok_false in Hf. eexists _, _, _, _, _. split; [done|]. split; [done|]. split; [done|]. by split. }
  apply is_ok_spec in Hf. destruct usb; cbn [negb].
  - assert (Hto : 0 < state_timeout (nw_state n) -> nw_state n <> PBNS_NETWORK_BACKOFF) by (by intros ? Eb; rewrite Eb in *).
    destruct (_ && _ && _) eqn:Hb.
    + bools. destruct (schedule_backoff_spec n now PBNS_ERR_TIMEOUT w log) as (st & n' & w' & log' & -> & Hok' & Hback); try done.
      eexists _, _, _, _, _. split; [done|]. split; [done|]. split; [done|]. split; [done|]. intros _ _.
      split; [intros Eb; by apply Hto in Eb|]. split; [intros _ Eb; by eapply backed_off_cause|]. intros _.
      split; [done|]. by eapply backed_off_closed.
    + destruct (step_state_spec n now w log Hok Hf Hnow) as (st & pr & n' & w' & log' & -> & Hok' & H1 & H2).
      eexists _, _, _, _, _. split; [done|]. split; [done|]. split; [done|]. split; [done|]. intros _ _. split; [done|].
      split; [done|]. intros [Ht Hle]. exfalso. rewrite (proj2 (Z.ltb_lt 0 _) Ht) in Hb.
      rewrite (proj2 (Z.leb_le _ now)), (proj2 (Z.leb_le _ (now - _))) in Hb by lia. done.
  - destruct (nw_state n) eqn:Es; [eexists _, _, _, _, _; split; [done|]; split; [done|]; done|..];
      (assert (Hcl : exists w1 log1, close_active_connection (net_logged ops) n (w, log) = Some (set_active n false, (w1, log1))
        /\ open_after log1 = Some false) by (by apply close_spec)); destruct Hcl as (w1 & log1 & E1 & Ho1); rewrite E1;
      cbn [mbind option_bind]; (eexists _, _, _, _, _; split; [done|]; split; [|done]); unfold net_ok; cbn;
      rewrite Hf; split_and!; try done; unfold UINT32_MAX; lia.
Qed.
End runs.

Lemma network_run_ok {W} (ops : pbns_network_ops W) steps n w log :
  ops_are_valid (Some ops) = true -> Forall (fun s => 0 <= s.1) steps -> net_ok n log ->
  exists n' w' log', network_run (net_logged ops) n (w, log) steps = Some (n', (w', log')) /\ net_ok n' log'.
Proof.
  intros Hops Hs. revert n w log. induction Hs as [|[now usb] steps Hnow Hs IH]; intros n w log Hok.
  { by eexists _, _, _. }
  cbn [network_run]. destruct (network_step_spec ops Hops n now usb w log Hok Hnow) as (st & pr & n1 & w1 & log1 & -> & Hok1 & _).
  cbn [mbind option_bind]. by apply IH.
Qed.

Lemma fresh_network_ok : net_ok fresh_network [].
Proof. unfold net_ok. cbn. split_and!; try done; unfold UINT32_MAX; lia. Qed.

(** C36: a connection is opened only when none is open and closed exactly once.
    After any sequence of steps, at any times, with the USB side connected or
    not and the network stack answering anything, every call of [wifi_start] has
    been matched by one [close] before the next, the connection that is open, if
    any, is the one the state stands for, and a machine that has failed for good
    is down with nothing open. *)
Theorem network_connection_balanced {W} (ops : pbns_network_ops W) (w : W) (steps : list (Z * bool)) :
  ops_are_valid (Some ops) = true -> Forall (fun s => 0 <= s.1) steps ->
  exists n w' log, network_run (net_logged ops) fresh_network (w, []) steps = Some (n, (w', log))
  /\ open_after log = Some (nw_connection_active n) /\ nw_connection_active n = carries_connection (nw_state n)
  /\ (nw_failure n <> PBNS_OK -> nw_state n = PBNS_NETWORK_DOWN /\ open_after log = Some false).
Proof.
  intros Hops Hs. destruct (network_run_ok ops steps fresh_network w [] Hops Hs fresh_network_ok) as (n & w' & log & E & Hok).
  exists n, w', log. split; [done|]. destruct Hok as (_ & Ha & Ho & _ & Hf). split; [done|]. split; [done|].
  intros Hne. specialize (Hf Hne). split; [done|]. by rewrite Ho, Ha, Hf.
Qed.

(** A retry waits for its backoff.  After any run, a step that enters the
    backoff sets a deadline between the nominal delay and a quarter more, at
    most eight seconds ahead, where the nominal delay doubles with each failure
    from 250 ms; before the deadline a connected step touches neither the
    network stack nor the state; and a stage that has outlived its timeout is
    abandoned with its connection closed. *)
Theorem network_backoff_waits {W} (ops : pbns_network_ops W) (w : W) (steps : list (Z * bool)) (now : Z) :
  ops_are_valid (Some ops) = true -> Forall (fun s => 0 <= s.1) steps -> 0 <= now ->
  exists n w1 log1 st progress n' w2 log2,
    network_run (net_logged ops) fresh_network (w, []) steps = Some (n, (w1, log1))
  /\ network_step (net_logged ops) n now true (w1, log1) = Some (st, progress, n', (w2, log2))
  /\ (nw_failure n = PBNS_OK -> nw_state n <> PBNS_NETWORK_BACKOFF -> nw_state n' = PBNS_NETWORK_BACKOFF ->
      let nominal := Z.min BACKOFF_MAX_MS (BACKOFF_INITIAL_MS * 2 ^ nw_failure_count n) in
      nw_failure_count n' = Z.min UINT32_MAX (nw_failure_count n + 1)
      /\ exists delay, nominal <= delay <= Z.min BACKOFF_MAX_MS (nominal + nominal / 4)
         /\ nw_retry_deadline_ms n' = Z.min UINT64_MAX (now + delay))
  /\ (nw_failure n = PBNS_OK -> nw_state n = PBNS_NETWORK_BACKOFF -> now < nw_retry_deadline_ms n ->
      n' = n /\ w2 = w1 /\ log2 = log1 /\ progress = false)
  /\ (nw_failure n = PBNS_OK -> 0 < state_timeout (nw_state n) <= now - nw_state_entered_ms n ->
      st <> PBNS_OK /\ nw_connection_active n' = false
      /\ (nw_state n' = PBNS_NETWORK_BACKOFF \/ nw_state n' = PBNS_NETWORK_DOWN)).
Proof.
  intros Hops Hs Hnow. destruct (network_run_ok ops steps fresh_network w [] Hops Hs fresh_network_ok) as (n & w1 & log1 & E & Hok).
  destruct (network_step_spec ops Hops n now true w1 log1 Hok Hnow) as (st & pr & n' & w2 & log2 & E2 & Hok' & _ & _ & Hpost).
  exists n, w1, log1, st, pr, n', w2, log2. split; [done|]. split; [done|]. split_and!.
  - intros Hf Hne Hb nominal. destruct (Hpost Hf eq_refl) as (_ & Hback & _).
    destruct (Hback Hne Hb) as [(_ & _ & _ & Hcnt & delay & Hd1 & Hd2 & Hdl)|(_ & _ & Hdown)]; [|congruence].
    destruct Hok as (_ & _ & _ & Hc & _). rewrite nominal_backoff_value in Hd1, Hd2 by lia. split; [done|].
    exists delay. fold nominal in Hd1, Hd2. split; [lia|done].
  - intros Hf Hb Hlt. destruct (Hpost Hf eq_refl) as (Hwait & _). destruct (Hwait Hb Hlt) as (_ & -> & -> & -> & ->). done.
  - intros Hf Ht. destruct (Hpost Hf eq_refl) as (_ & _ & Hto). destruct (Hto Ht) as [Hb Hcl].
    destruct Hb as [(-> & Hst & _)|(-> & Hne & Hst)]; (split; [done|]); (split; [done|]); auto.
Qed.

(** ** Witnesses *)

(** A stack whose Wi-Fi never comes up. *)
Definition ex_network_ops : pbns_network_ops Z :=
  mk_network_ops (Some (fun w => (PBNS_OK, w + 1))) (Some (fun w => (PBNS_ERR_TRANSPORT, w))) (Some (fun w => (PBNS_OK, w)))
    (Some (fun w => (PBNS_OK, w))) (Some (fun w => w + 100)) (Some (fun w _ => (PBNS_OK, 7, w))).

Definition ex_steps : list (Z * bool) := [(0, true); (10, true); (100, true); (270, true); (280, true)].

Lemma network_connection_balanced_witness :
  exists n w' log, network_run (net_logged ex_network_ops) fresh_network (0, []) ex_steps = Some (n, (w', log))
  /\ open_after log = Some (nw_connection_active n).
Proof.
  destruct (network_connection_balanced ex_network_ops 0 ex_steps) as (n & w' & log & E & H & _).
  - reflexivity.
  - repeat constructor; discriminate.
  - exists n, w', log. split; [exact E|exact H].
Defined.

Lemma network_backoff_waits_witness :
  exists n w1 log1 st progress n' w2 log2,
    network_run (net_logged ex_network_ops) fresh_network (0, []) [(0, true); (10, true)] = Some (n, (w1, log1))
  /\ network_step (net_logged ex_network_ops) n 100 true (w1, log1) = Some (st, progress, n', (w2, log2))
  /\ (nw_failure n = PBNS_OK -> nw_state n = PBNS_NETWORK_BACKOFF -> 100 < nw_retry_deadline_ms n -> n' = n).
Proof.
  destruct (network_backoff_waits ex_network_ops 0 [(0, true); (10, true)] 100)
    as (n & w1 & log1 & st & pr & n' & w2 & log2 & E1 & E2 & _ & H & _).
  - reflexivity.
  - repeat constructor; discriminate.
  - discriminate.
  - exists n, w1, log1, st, pr, n', w2, log2. split; [exact E1|]. split; [exact E2|]. intros Hf Hb Hl. exact (proj1 (H Hf Hb Hl)).
Defined.

Example ex_network_run :
  option_map (fun r => (nw_state r.1, nw_retry_deadline_ms r.1, nw_failure_count r.1, r.2.2))
    (network_run (net_logged ex_network_ops) fresh_network (0, []) ex_steps)
  = Some (PBNS_NETWORK_WIFI_CONNECTING, 267, 1, [NetStart; NetClose; NetStart]).
Proof. reflexivity. Qed.
