(* ===== verification/AntiRollback.v ===== *)
(** * Anti-rollback ([src/core/anti_rollback.c])

    The version of the installed image may only grow.  It is kept in a TPM
    counter, or in two slots of non-volatile storage that are written in turn.
    The theorems show that the version never goes back, whatever happens to a
    write, and that a successful update is the one that was asked for. *)

From stdpp Require Import base list numbers.
From Stdlib Require Import ZArith Lia.
From S2P Require Import Prelude Endian Status Buffers Crc32c.

(** ** The code *)

Definition PBNS_ANTI_ROLLBACK_SLOT_COUNT : Z := 2.
Definition PBNS_ANTI_ROLLBACK_RECORD_SIZE : Z := 24.
Definition PBNS_ANTI_ROLLBACK_AUTHORIZATION_MAX_SIZE : Z := 4096.
Definition PBNS_ANTI_ROLLBACK_NO_SLOT `{Machine} : Z := SIZE_MAX.

Definition record_magic : bytes := [80; 66; 82; 49].

Inductive pbns_anti_rollback_assurance :=
| PBNS_ANTI_ROLLBACK_ASSURANCE_INVALID
| PBNS_ANTI_ROLLBACK_ASSURANCE_TPM
| PBNS_ANTI_ROLLBACK_ASSURANCE_NVRAM_REDUCED.

(** The callbacks act on the state of the world.  [slot_read] fills the record it
    is given and says whether the slot is present. *)
Record pbns_anti_rollback (W : Type) := mk_controller {
  ar_assurance : pbns_anti_rollback_assurance;
  ar_tpm_read : ptr (W -> pbns_status * Z * W);
  ar_tpm_advance : ptr (W -> Z -> Z -> bytes -> pbns_status * W);
  ar_slot_read : ptr (W -> Z -> bytes -> pbns_status * bytes * bool * W);
  ar_slot_write : ptr (W -> Z -> bytes -> pbns_status * W);
}.
Arguments mk_controller {W}.
Arguments ar_assurance {W}.
Arguments ar_tpm_read {W}.
Arguments ar_tpm_advance {W}.
Arguments ar_slot_read {W}.
Arguments ar_slot_write {W}.

Record pbns_anti_rollback_state := mk_ar_state {
  ar_version : Z;
  ar_generation : Z;
  ar_active_slot : Z;
  ar_state_assurance : pbns_anti_rollback_assurance;
}.

Definition zero_ar_state : pbns_anti_rollback_state :=
  mk_ar_state 0 0 0 PBNS_ANTI_ROLLBACK_ASSURANCE_INVALID.

Definition zero_record : bytes := replicate 24 0.

Definition encode_record (generation version : Z) (output : bytes) : option bytes :=
  output ← wr_list output 0 zero_record;
  output ← wr_list output 0 record_magic;
  output ← write_u64_be output 4 generation;
  output ← write_u64_be output 12 version;
  body ← rd_slice output 0 20;
  write_u32_be output 20 (crc32c_bytes body).

(** Whether the record is valid, its generation and its version. *)
Definition decode_record (record : bytes) : option (bool * Z * Z) :=
  magic ← rd_slice record 0 4;
  crc ← read_u32_be record 20;
  body ← rd_slice record 0 20;
  if negb (bytes_eqb magic record_magic) || negb (crc =? crc32c_bytes body) then Some (false, 0, 0)
  else
  generation ← read_u64_be record 4;
  version ← read_u64_be record 12;
  Some ((0 <? generation) && (0 <? version), generation, version).

Section controller.
Context `{Machine} {W : Type}.
Implicit Types (controller : pbns_anti_rollback W) (w : W).

Definition zero_controller : pbns_anti_rollback W :=
  mk_controller PBNS_ANTI_ROLLBACK_ASSURANCE_INVALID None None None None.

Definition pbns_anti_rollback_init_tpm (controller : ptr (pbns_anti_rollback W))
    (read : ptr (W -> pbns_status * Z * W)) (advance : ptr (W -> Z -> Z -> bytes -> pbns_status * W))
  : pbns_status * ptr (pbns_anti_rollback W) :=
  match controller, read, advance with
  | Some _, Some _, Some _ =>
      (PBNS_OK, Some (mk_controller PBNS_ANTI_ROLLBACK_ASSURANCE_TPM read advance None None))
  | _, _, _ => (PBNS_ERR_ARGUMENT, (fun _ => zero_controller) <$> controller)
  end.

Definition pbns_anti_rollback_init_nvram (controller : ptr (pbns_anti_rollback W))
    (read : ptr (W -> Z -> bytes -> pbns_status * bytes * bool * W)) (write : ptr (W -> Z -> bytes -> pbns_status * W))
  : pbns_status * ptr (pbns_anti_rollback W) :=
  match controller, read, write with
  | Some _, Some _, Some _ =>
      (PBNS_OK, Some (mk_controller PBNS_ANTI_ROLLBACK_ASSURANCE_NVRAM_REDUCED None None read write))
  | _, _, _ => (PBNS_ERR_ARGUMENT, (fun _ => zero_controller) <$> controller)
  end.

Definition controller_valid controller : bool :=
  match ar_assurance controller, ar_tpm_read controller, ar_tpm_advance controller,
        ar_slot_read controller, ar_slot_write controller with
  | PBNS_ANTI_ROLLBACK_ASSURANCE_TPM, Some _, Some _, None, None => true
  | PBNS_ANTI_ROLLBACK_ASSURANCE_NVRAM_REDUCED, None, None, Some _, Some _ => true
  | _, _, _, _, _ => false
  end.

(** One iteration of the loop of [read_nvram]: the slot's validity, generation
    and version, or the status of a failed read. *)
Definition read_slot (slot_read : W -> Z -> bytes -> pbns_status * bytes * bool * W) (slot : Z) w
  : option ((pbns_status + bool * Z * Z) * W) :=
  let '(status, record, present, w) := slot_read w slot zero_record in
  if negb (is_ok status) then Some (inl status, w)
  else if negb present then Some (inr (false, 0, 0), w)
  else r ← decode_record record; Some (inr r, w).

Definition select_slot (r0 r1 : bool * Z * Z) : pbns_status * pbns_anti_rollback_state :=
  let '(valid0, generation0, version0) := r0 in
  let '(valid1, generation1, version1) := r1 in
  let none := mk_ar_state 0 0 PBNS_ANTI_ROLLBACK_NO_SLOT PBNS_ANTI_ROLLBACK_ASSURANCE_NVRAM_REDUCED in
  let pick0 := mk_ar_state version0 generation0 0 PBNS_ANTI_ROLLBACK_ASSURANCE_NVRAM_REDUCED in
  let pick1 := mk_ar_state version1 generation1 1 PBNS_ANTI_ROLLBACK_ASSURANCE_NVRAM_REDUCED in
  if negb valid0 && negb valid1 then (PBNS_OK, none)
  else if valid0 && valid1 then
    if generation0 =? generation1 then (PBNS_ERR_AMBIGUOUS, none)
    else (PBNS_OK, if generation0 <? generation1 then pick1 else pick0)
  else (PBNS_OK, if valid0 then pick0 else pick1).

Definition read_nvram controller w : option (pbns_status * pbns_anti_rollback_state * W) :=
  slot_read ← ar_slot_read controller;
  '(r0, w) ← read_slot slot_read 0 w;
  match r0 with
  | inl status => Some (status, zero_ar_state, w)
  | inr r0 =>
      '(r1, w) ← read_slot slot_read 1 w;
      match r1 with
      | inl status => Some (status, zero_ar_state, w)
      | inr r1 => let '(status, state) := select_slot r0 r1 in Some (status, state, w)
      end
  end.

Definition anti_rollback_read controller w : option (pbns_status * pbns_anti_rollback_state * W) :=
  if negb (controller_valid controller) then Some (PBNS_ERR_ARGUMENT, zero_ar_state, w)
  else
  match ar_assurance controller with
  | PBNS_ANTI_ROLLBACK_ASSURANCE_TPM =>
      tpm_read ← ar_tpm_read controller;
      let '(status, version, w) := tpm_read w in
      if negb (is_ok status) then Some (status, zero_ar_state, w)
      else Some (PBNS_OK, mk_ar_state version 0 PBNS_ANTI_ROLLBACK_NO_SLOT PBNS_ANTI_ROLLBACK_ASSURANCE_TPM, w)
  | _ => read_nvram controller w
  end.

Definition pbns_anti_rollback_read (controller : ptr (pbns_anti_rollback W)) (state : ptr pbns_anti_rollback_state)
    w : option (pbns_status * ptr pbns_anti_rollback_state * W) :=
  match controller, state with
  | Some controller, Some _ =>
      '(status, state, w) ← anti_rollback_read controller w; Some (status, Some state, w)
  | _, _ => Some (PBNS_ERR_ARGUMENT, (fun _ => zero_ar_state) <$> state, w)
  end.

(** The step that moves the stored version from [current] to [target_version]. *)
Definition advance_store controller (current : pbns_anti_rollback_state) (target_version : Z)
    (authorization : pbns_view) w : option (pbns_status * W) :=
  match ar_assurance controller with
  | PBNS_ANTI_ROLLBACK_ASSURANCE_TPM =>
      if v_len authorization =? 0 then Some (PBNS_ERR_ARGUMENT, w)
      else
      tpm_advance ← ar_tpm_advance controller;
      Some (tpm_advance w (ar_version current) target_version (v_data authorization))
  | _ =>
      if negb (v_len authorization =? 0) || (ar_generation current =? UINT64_MAX)
      then Some (if negb (v_len authorization =? 0) then PBNS_ERR_ARGUMENT else PBNS_ERR_LIMIT, w)
      else
      let inactive :=
        if ar_active_slot current =? PBNS_ANTI_ROLLBACK_NO_SLOT then 0 else Z.lxor (ar_active_slot current) 1 in
      record ← encode_record (u64 (ar_generation current + 1)) target_version zero_record;
      slot_write ← ar_slot_write controller;
      Some (slot_write w inactive record)
  end.

Definition anti_rollback_advance controller (target_version : Z) (authorization : pbns_view) w
  : option (pbns_status * pbns_anti_rollback_state * W) :=
  if negb (controller_valid controller) || negb (view_is_valid authorization) || (target_version =? 0)
     || (PBNS_ANTI_ROLLBACK_AUTHORIZATION_MAX_SIZE <? v_len authorization)
  then Some (PBNS_ERR_ARGUMENT, zero_ar_state, w)
  else
  '(status, current, w) ← anti_rollback_read controller w;
  if negb (is_ok status) then Some (status, zero_ar_state, w)
  else if target_version <=? ar_version current then Some (PBNS_ERR_REPLAY, zero_ar_state, w)
  else
  '(status, w) ← advance_store controller current target_version authorization w;
  if negb (is_ok status) then Some (status, zero_ar_state, w)
  else
  '(status, verified, w) ← anti_rollback_read controller w;
  if negb (is_ok status) then Some (status, zero_ar_state, w)
  else if negb (ar_version verified =? target_version)
          || (match ar_assurance controller with PBNS_ANTI_ROLLBACK_ASSURANCE_NVRAM_REDUCED => true | _ => false end
              && negb (ar_generation verified =? u64 (ar_generation current + 1)))
  then Some (PBNS_ERR_STATE, zero_ar_state, w)
  else Some (PBNS_OK, verified, w).

Definition pbns_anti_rollback_advance (controller : ptr (pbns_anti_rollback W)) (target_version : Z)
    (authorization : pbns_view) (state : ptr pbns_anti_rollback_state) w
  : option (pbns_status * ptr pbns_anti_rollback_state * W) :=
  match controller, state with
  | Some controller, Some _ =>
      '(status, state, w) ← anti_rollback_advance controller target_version authorization w;
      Some (status, Some state, w)
  | _, _ => Some (PBNS_ERR_ARGUMENT, (fun _ => zero_ar_state) <$> state, w)
  end.
End controller.

(** ** Records *)

Definition record_body (generation version : Z) : bytes :=
  record_magic ++ be_bytes 8 generation ++ be_bytes 8 version.

(** The octets of a record. *)
Definition record_octets (generation version : Z) : bytes :=
  record_body generation version ++ be_bytes 4 (crc32c_bytes (record_body generation version)).

#[local] Opaque crc32c_bytes be_bytes.

Lemma record_body_length g v : length (record_body g v) = 20%nat.
Proof. unfold record_body. by rewrite !length_app, !be_bytes_length. Qed.

Lemma record_octets_length g v : length (record_octets g v) = 24%nat.
Proof. unfold record_octets. by rewrite length_app, record_body_length, be_bytes_length. Qed.

Lemma record_octets_ok g v : bytes_ok (record_octets g v).
Proof. unfold record_octets, record_body, record_magic. octets. Qed.

(** [encode_record] writes the record, whatever the output held. *)
Lemma encode_record_octets g v output :
  length output = 24%nat -> encode_record g v output = Some (record_octets g v).
Proof.
  intros Hl. unfold encode_record.
  rewrite wr_list_splice by (rewrite ?Hl; cbn; lia). cbn [mbind option_bind].
  assert (E0 : splice output 0 zero_record = zero_record).
  { unfold splice. cbn [take app Z.to_nat]. rewrite drop_ge; [by rewrite app_nil_r|]. rewrite Hl. cbn. lia. }
  rewrite E0. change zero_record with ([] ++ replicate 4 0 ++ replicate 20 0).
  rewrite (wr_list_app [] (replicate 4 0)) by done. cbn [mbind option_bind app].
  change (replicate 20 0) with (replicate 8 0 ++ replicate 12 0).
  rewrite (write_u64_be_app record_magic (replicate 8 0)) by done. cbn [mbind option_bind].
  change (replicate 12 0) with (replicate 8 0 ++ replicate 4 0).
  pose proof (write_u64_be_app (record_magic ++ be_bytes 8 g) (replicate 8 0) (replicate 4 0) v eq_refl) as E1.
  rewrite length_app, be_bytes_length in E1. cbn [length record_magic] in E1. rewrite <- app_assoc in E1.
  change (Z.of_nat (4 + 8)) with 12 in E1. rewrite E1. cbn [mbind option_bind]. clear E1.
  rewrite <- app_assoc. replace (record_magic ++ be_bytes 8 g ++ be_bytes 8 v ++ replicate 4 0)
    with (record_body g v ++ replicate 4 0) by (unfold record_body; by rewrite <- !app_assoc).
  rewrite rd_slice_prefix by (by rewrite record_body_length). cbn [mbind option_bind].
  pose proof (write_u32_be_app (record_body g v) (replicate 4 0) [] (crc32c_bytes (record_body g v)) eq_refl) as E2.
  rewrite record_body_length, !app_nil_r in E2. exact E2.
Qed.

(** What a record of the right size decodes to. *)
Lemma decode_record_total r : length r = 24%nat -> bytes_ok r -> exists x, decode_record r = Some x.
Proof.
  intros Hl Hok. unfold decode_record. rewrite !rd_slice_inside by lia. cbn [mbind option_bind].
  rewrite read_u32_be_value by (done || lia). cbn [mbind option_bind].
  destruct (_ || _); [by eexists|]. rewrite !read_u64_be_value by (done || lia). cbn [mbind option_bind]. by eexists.
Qed.

Lemma decode_record_valid r g v :
  length r = 24%nat -> bytes_ok r -> decode_record r = Some (true, g, v) ->
  r = record_octets g v /\ 0 < g <= UINT64_MAX /\ 0 < v <= UINT64_MAX.
Proof.
  intros Hl Hok. unfold decode_record. rewrite !rd_slice_inside by lia. cbn [mbind option_bind].
  rewrite read_u32_be_value by (done || lia). cbn [mbind option_bind].
  destruct (_ || _) eqn:E; [done|]. apply orb_false_iff in E as [Em Ec].
  apply negb_false_iff, bytes_eqb_spec in Em. apply negb_false_iff, Z.eqb_eq in Ec.
  rewrite !read_u64_be_value by (done || lia). cbn [mbind option_bind]. intros [= Hv Hg Hvv].
  assert (Hb : forall n i, 0 <= i -> 0 <= n -> i + n <= 24 -> 0 <= be_value (slice r i n) < 256 ^ n).
  { intros n i ? ? ?. pose proof (be_value_bound (slice r i n) ltac:(auto with pbns)) as Hb.
    rewrite slice_length in Hb by lia. done. }
  pose proof (Hb 8 4 ltac:(lia) ltac:(lia) ltac:(lia)) as B1. pose proof (Hb 8 12 ltac:(lia) ltac:(lia) ltac:(lia)) as B2.
  rewrite Hg in B1. rewrite Hvv in B2. change (256 ^ 8) with (UINT64_MAX + 1) in B1, B2.
  apply andb_true_iff in Hv as [H1 H2]. rewrite Hg, Hvv in *. apply Z.ltb_lt in H1, H2. split; [|lia].
  assert (Hs : forall n i, 0 <= i -> 0 <= n -> i + n <= 24 -> be_bytes (Z.to_nat n) (be_value (slice r i n)) = slice r i n).
  { intros n i ? ? ?. pose proof (slice_length r i n ltac:(lia) ltac:(lia) ltac:(lia)) as Hn.
    replace (Z.to_nat n) with (length (slice r i n)) by lia. apply be_bytes_value. auto with pbns. }
  assert (Hbody : record_body g v = slice r 0 20).
  { unfold record_body. rewrite <- Em, <- Hg, <- Hvv.
    pose proof (Hs 8 4 ltac:(lia) ltac:(lia) ltac:(lia)) as S1. pose proof (Hs 8 12 ltac:(lia) ltac:(lia) ltac:(lia)) as S2.
    change (Z.to_nat 8) with 8%nat in S1, S2. rewrite S1, S2. change 20 with (4 + (8 + 8)).
    by rewrite !slice_split by lia. }
  unfold record_octets. rewrite Hbody, <- Ec. pose proof (Hs 4 20 ltac:(lia) ltac:(lia) ltac:(lia)) as S3.
  change (Z.to_nat 4) with 4%nat in S3. rewrite S3.
  rewrite <- (slice_all r 24) at 1 by lia. change 24 with (20 + 4). by rewrite slice_split by lia.
Qed.

Lemma decode_record_octets g v :
  0 < g <= UINT64_MAX -> 0 < v <= UINT64_MAX -> decode_record (record_octets g v) = Some (true, g, v).
Proof.
  intros Hg Hv. unfold decode_record.
  assert (Hl : zlen (record_octets g v) = 24) by (rewrite record_octets_length; done).
  pose proof (record_octets_ok g v) as Hok.
  rewrite !rd_slice_inside by lia. rewrite read_u32_be_value by (done || lia). cbn [mbind option_bind].
  assert (S0 : slice (record_octets g v) 0 4 = record_magic) by (apply (slice_eq _ [] record_magic (be_bytes 8 g ++ be_bytes 8 v ++ be_bytes 4 (crc32c_bytes (record_body g v))));
      [unfold record_octets, record_body; by rewrite <- !app_assoc|done|done]).
  assert (S1 : slice (record_octets g v) 0 20 = record_body g v) by
    (apply (slice_eq _ [] (record_body g v) (be_bytes 4 (crc32c_bytes (record_body g v)))); [done|done|by rewrite record_body_length]).
  assert (S2 : slice (record_octets g v) 20 4 = be_bytes 4 (crc32c_bytes (record_body g v))) by
    (apply (slice_eq _ (record_body g v) _ []); [by rewrite app_nil_r|by rewrite record_body_length|by rewrite be_bytes_length]).
  assert (S3 : slice (record_octets g v) 4 8 = be_bytes 8 g) by
    (apply (slice_eq _ record_magic _ (be_bytes 8 v ++ be_bytes 4 (crc32c_bytes (record_body g v))));
       [unfold record_octets, record_body; by rewrite <- !app_assoc|done|by rewrite be_bytes_length]).
  assert (S4 : slice (record_octets g v) 12 8 = be_bytes 8 v) by
    (apply (slice_eq _ (record_magic ++ be_bytes 8 g) _ (be_bytes 4 (crc32c_bytes (record_body g v))));
       [unfold record_octets, record_body; by rewrite <- !app_assoc|by rewrite length_app, be_bytes_length|by rewrite be_bytes_length]).
  rewrite S0, S1, S2, bytes_eqb_refl. rewrite be_value_bytes_u32.
  2: { pose proof (crc32c_bytes_u32 (record_body g v)) as Hc. unfold is_u32, UINT32_MAX in *.
       assert (bytes_ok (record_body g v)) by (unfold record_body, record_magic; octets). specialize (Hc ltac:(done)). lia. }
  rewrite Z.eqb_refl. cbn [negb orb]. rewrite !read_u64_be_value by (done || lia). cbn [mbind option_bind].
  rewrite S3, S4, !be_value_bytes_u64 by lia. rewrite (proj2 (Z.ltb_lt 0 g)), (proj2 (Z.ltb_lt 0 v)) by lia. done.
Qed.

(** ** Two slots *)

Record nvram (W : Type) := mk_nvram {
  nv_read : W -> Z -> bytes -> pbns_status * bytes * bool * W;
  nv_write : W -> Z -> bytes -> pbns_status * W;
}.
Arguments mk_nvram {W}.
Arguments nv_read {W}.
Arguments nv_write {W}.

Definition nvram_controller {W} (nv : nvram W) : pbns_anti_rollback W :=
  mk_controller PBNS_ANTI_ROLLBACK_ASSURANCE_NVRAM_REDUCED None None (Some (nv_read nv)) (Some (nv_write nv)).

(** The generation and the version that a slot holds, if it is valid. *)
Definition slot_value (slot : option bytes) : option (Z * Z) :=
  match slot with
  | Some r => match decode_record r with Some (true, g, v) => Some (g, v) | _ => None end
  | None => None
  end.

(** What the storage promises.  A write that fails, or is cut short by a loss of
    power, leaves the slot as it was, complete, or with contents that are not a
    valid record; it never touches the other slot. *)
Class NvramLaws {W} (nv : nvram W) := {
  nv_slot : W -> Z -> option bytes;
  nv_slot_ok w s r : nv_slot w s = Some r -> length r = 24%nat /\ bytes_ok r;
  nv_read_law w s buf st r present w' : nv_read nv w s buf = (st, r, present, w') ->
    (forall i, nv_slot w' i = nv_slot w i)
    /\ (st = PBNS_OK -> match nv_slot w s with Some x => present = true /\ r = x | None => present = false end);
  nv_write_law w s data st w' : nv_write nv w s data = (st, w') ->
    (forall i, i <> s -> nv_slot w' i = nv_slot w i)
    /\ (st = PBNS_OK -> nv_slot w' s = Some data)
    /\ (st <> PBNS_OK -> nv_slot w' s = nv_slot w s \/ nv_slot w' s = Some data \/ slot_value (nv_slot w' s) = None);
}.

Section nvram.
Context `{Machine} {W : Type} (nv : nvram W) `{!NvramLaws nv}.
Implicit Types (w : W).

Definition value_at w (s : Z) : option (Z * Z) := slot_value (nv_slot w s).

(** The generations of two valid slots differ. *)
Definition nv_ok w : Prop :=
  forall g0 v0 g1 v1, value_at w 0 = Some (g0, v0) -> value_at w 1 = Some (g1, v1) -> g0 <> g1.

(** The newest valid record: its slot, generation and version. *)
Definition newest w : option (Z * Z * Z) :=
  match value_at w 0, value_at w 1 with
  | None, None => None
  | Some (g, v), None => Some (0, g, v)
  | None, Some (g, v) => Some (1, g, v)
  | Some (g0, v0), Some (g1, v1) => if g0 <? g1 then Some (1, g1, v1) else Some (0, g0, v0)
  end.

Definition stored_version w : Z := match newest w with Some (_, _, v) => v | None => 0 end.

Definition state_of w : pbns_anti_rollback_state :=
  match newest w with
  | Some (s, g, v) => mk_ar_state v g s PBNS_ANTI_ROLLBACK_ASSURANCE_NVRAM_REDUCED
  | None => mk_ar_state 0 0 PBNS_ANTI_ROLLBACK_NO_SLOT PBNS_ANTI_ROLLBACK_ASSURANCE_NVRAM_REDUCED
  end.

Definition same_slots w w' : Prop := forall i, nv_slot w' i = nv_slot w i.

Lemma value_at_range w s g v : value_at w s = Some (g, v) -> 0 < g <= UINT64_MAX /\ 0 < v <= UINT64_MAX.
Proof.
  unfold value_at, slot_value. destruct (nv_slot w s) as [r|] eqn:E; [|done]. apply nv_slot_ok in E as [Hl Hok].
  destruct (decode_record r) as [[[[] ?] ?]|] eqn:Ed; try done. intros [= -> ->].
  by apply decode_record_valid in Ed as [_ ?].
Qed.

Lemma same_slots_value w w' s : same_slots w w' -> value_at w' s = value_at w s.
Proof. unfold value_at. by intros ->. Qed.

Lemma same_slots_newest w w' : same_slots w w' -> newest w' = newest w.
Proof. intros Hs. unfold newest. by rewrite !(same_slots_value w w') by done. Qed.

Lemma same_slots_ok w w' : same_slots w w' -> nv_ok w -> nv_ok w'.
Proof. unfold nv_ok. intros Hs. by rewrite !(same_slots_value w w') by done. Qed.

Lemma newest_at w s g v : newest w = Some (s, g, v) -> (s = 0 \/ s = 1) /\ value_at w s = Some (g, v).
Proof.
  unfold newest. destruct (value_at w 0) as [[g0 v0]|] eqn:E0, (value_at w 1) as [[g1 v1]|] eqn:E1; try done;
    [destruct (g0 <? g1)| |]; intros [= <- <- <-]; auto.
Qed.

(** Reading a slot. *)
Lemma read_slot_ok s w :
  exists r w', read_slot (nv_read nv) s w = Some (r, w') /\ same_slots w w'
  /\ match r with
     | inl st => st <> PBNS_OK
     | inr (b, g, v) => if b then value_at w s = Some (g, v) else value_at w s = None
     end.
Proof.
  unfold read_slot. destruct (nv_read nv w s zero_record) as [[[st r] present] w'] eqn:E.
  apply nv_read_law in E as [Hs Hok]. destruct (is_ok st) eqn:Eok; cbn [negb].
  2: { apply is_ok_false in Eok. by exists (inl st), w'. }
  apply is_ok_spec in Eok. specialize (Hok Eok). unfold value_at, slot_value.
  destruct (nv_slot w s) as [x|] eqn:Ex.
  - destruct Hok as [-> ->]. cbn [negb]. apply nv_slot_ok in Ex as [Hl Hb].
    destruct (decode_record_total x Hl Hb) as [[[b g] v] Ed]. rewrite Ed. cbn [mbind option_bind].
    exists (inr (b, g, v)), w'. by destruct b.
  - rewrite Hok. cbn [negb]. by exists (inr (false, 0, 0)), w'.
Qed.

(** Reading returns the newest valid record. *)
Lemma nvram_read_ok w :
  nv_ok w -> exists st state w', anti_rollback_read (nvram_controller nv) w = Some (st, state, w')
  /\ same_slots w w' /\ (st = PBNS_OK -> state = state_of w).
Proof.
  intros Hok. unfold anti_rollback_read, read_nvram. cbn [controller_valid nvram_controller ar_assurance ar_tpm_read
    ar_tpm_advance ar_slot_read ar_slot_write negb mbind option_bind].
  destruct (read_slot_ok 0 w) as (r0 & w1 & -> & Hs1 & H0'). cbn [mbind option_bind].
  destruct r0 as [st|[[b0 g0] v0]]; [by exists st, zero_ar_state, w1|].
  destruct (read_slot_ok 1 w1) as (r1 & w2 & -> & Hs2 & H1'). cbn [mbind option_bind].
  assert (Hs : same_slots w w2) by (intros i; by rewrite Hs2, Hs1).
  destruct r1 as [st|[[b1 g1] v1]]; [by exists st, zero_ar_state, w2|].
  rewrite (same_slots_value w w1) in H1' by done.
  destruct (select_slot (b0, g0, v0) (b1, g1, v1)) as [st state] eqn:Esel. exists st, state, w2.
  split; [done|]. split; [done|]. intros ->. unfold state_of, newest, select_slot in *.
  destruct b0, b1; rewrite ?H0', ?H1'; cbn [negb andb] in Esel; try (by injection Esel as <-).
  specialize (Hok _ _ _ _ H0' H1'). rewrite (proj2 (Z.eqb_neq _ _) Hok) in Esel. injection Esel as <-.
  by destruct (g0 <? g1).
Qed.

(** Writing the next record to the slot that is not the newest. *)
Lemma next_record w w' (s target : Z) :
  nv_ok w -> 0 < target <= UINT64_MAX -> ar_generation (state_of w) <> UINT64_MAX ->
  s = (if ar_active_slot (state_of w) =? PBNS_ANTI_ROLLBACK_NO_SLOT then 0
       else Z.lxor (ar_active_slot (state_of w)) 1) ->
  (forall i, i <> s -> nv_slot w' i = nv_slot w i) ->
  value_at w' s = Some (u64 (ar_generation (state_of w) + 1), target) ->
  nv_ok w' /\ state_of w' = mk_ar_state target (u64 (ar_generation (state_of w) + 1)) s
                              PBNS_ANTI_ROLLBACK_ASSURANCE_NVRAM_REDUCED.
Proof.
  intros Hok Ht Hg Hs Hoth Hv. pose proof SIZE_MAX_at_least as Hsz. unfold UINT32_MAX in Hsz.
  unfold state_of in *. unfold PBNS_ANTI_ROLLBACK_NO_SLOT in *.
  assert (Hother : forall i, i <> s -> value_at w' i = value_at w i).
  { intros i Hi. unfold value_at. by rewrite Hoth. }
  destruct (newest w) as [[[a g] v]|] eqn:En; cbn [ar_generation ar_active_slot] in *.
  - destruct (newest_at w a g v En) as [Ha Hva]. pose proof (value_at_range w a g v Hva) as [Hgr _].
    rewrite u64_small in * by lia. rewrite (proj2 (Z.eqb_neq a SIZE_MAX)) in Hs by lia.
    unfold nv_ok, newest. destruct Ha as [-> | ->]; [change (Z.lxor 0 1) with 1 in Hs|change (Z.lxor 1 1) with 0 in Hs]; subst s.
    + rewrite (Hother 0), Hva, Hv by lia. split; [intros ? ? ? ? [= <- <-] [= <- <-]; lia|].
      by rewrite (proj2 (Z.ltb_lt g (g + 1))) by lia.
    + rewrite (Hother 1), Hva, Hv by lia. split; [intros ? ? ? ? [= <- <-] [= <- <-]; lia|].
      by rewrite (proj2 (Z.ltb_ge (g + 1) g)) by lia.
  - rewrite Z.eqb_refl in Hs. subst s.
    assert (H1' : value_at w' 1 = None).
    { rewrite Hother by lia. unfold newest in En. destruct (value_at w 0) as [[]|], (value_at w 1) as [[]|]; try done.
      by destruct (_ <? _) in En. }
    unfold nv_ok, newest. rewrite H1', Hv. done.
Qed.

(** A write that did not complete. *)
Lemma torn_record w w' s :
  nv_ok w -> s = (if ar_active_slot (state_of w) =? PBNS_ANTI_ROLLBACK_NO_SLOT then 0
       else Z.lxor (ar_active_slot (state_of w)) 1) ->
  (forall i, i <> s -> nv_slot w' i = nv_slot w i) ->
  nv_slot w' s = nv_slot w s \/ value_at w' s = None -> nv_ok w' /\ state_of w' = state_of w.
Proof.
  intros Hok Hs Hoth [Hsame|Hnone].
  { assert (Hs' : same_slots w w') by (intros i; destruct (decide (i = s)) as [-> |]; auto).
    split; [by eapply same_slots_ok|]. unfold state_of. by rewrite (same_slots_newest w w'). }
  pose proof SIZE_MAX_at_least as Hsz. unfold UINT32_MAX in Hsz.
  assert (Hother : forall i, i <> s -> value_at w' i = value_at w i) by (intros i Hi; unfold value_at; by rewrite Hoth).
  assert (Hlt : s = 0 \/ s = 1).
  { unfold state_of, PBNS_ANTI_ROLLBACK_NO_SLOT in Hs. destruct (newest w) as [[[a g] v]|] eqn:En; cbn in Hs.
    - destruct (newest_at w a g v En) as [[-> | ->] _]; [change (Z.lxor 0 1) with 1 in Hs|change (Z.lxor 1 1) with 0 in Hs];
        destruct (_ =? _) in Hs; auto.
    - rewrite Z.eqb_refl in Hs. auto. }
  split.
  { intros g0 v0 g1 v1 E0 E1. destruct Hlt as [-> | ->]; congruence. }
  unfold state_of in *. unfold PBNS_ANTI_ROLLBACK_NO_SLOT in *.
  destruct (newest w) as [[[a g] v]|] eqn:En; cbn [ar_active_slot] in Hs.
  - destruct (newest_at w a g v En) as [Ha Hva]. rewrite (proj2 (Z.eqb_neq a SIZE_MAX)) in Hs by lia.
    unfold newest. destruct Ha as [-> | ->]; [change (Z.lxor 0 1) with 1 in Hs|change (Z.lxor 1 1) with 0 in Hs]; subst s; rewrite Hnone, Hother, Hva by lia; done.
  - rewrite Z.eqb_refl in Hs. subst s. unfold newest in *. rewrite Hnone, (Hother 1) by lia.
    destruct (value_at w 0) as [[]|], (value_at w 1) as [[]|]; try done. by destruct (_ <? _) in En.
Qed.

Lemma stored_version_state w : stored_version w = ar_version (state_of w).
Proof. unfold stored_version, state_of. by destruct (newest w) as [[[]]|]. Qed.

(** What an update leaves behind. *)
Definition advance_post (w : W) (target : Z) (st : pbns_status) (state : pbns_anti_rollback_state) (w' : W) : Prop :=
  nv_ok w'
  /\ (stored_version w' = stored_version w \/ stored_version w < target /\ stored_version w' = target)
  /\ (st = PBNS_OK -> stored_version w < target /\ state = state_of w' /\ ar_version state = target
      /\ ar_generation state = ar_generation (state_of w) + 1)
  /\ (target <= stored_version w -> st <> PBNS_OK /\ same_slots w w').

Lemma advance_refused w target st state w' :
  nv_ok w -> st <> PBNS_OK -> same_slots w w' -> advance_post w target st state w'.
Proof.
  intros Hok Hne Hs. split; [by eapply same_slots_ok|]. split; [|done].
  left. unfold stored_version. by rewrite (same_slots_newest w w').
Qed.

Lemma next_generation w :
  ar_generation (state_of w) <> UINT64_MAX ->
  u64 (ar_generation (state_of w) + 1) = ar_generation (state_of w) + 1
  /\ 0 < ar_generation (state_of w) + 1 <= UINT64_MAX.
Proof.
  unfold state_of. destruct (newest w) as [[[a g] v]|] eqn:En; cbn; [|done]. intros Hg.
  destruct (newest_at w a g v En) as [_ Hva]. apply value_at_range in Hva as [? _]. rewrite u64_small; lia.
Qed.

(** The slot was written, or not. *)
Definition written w target w2 : Prop :=
  nv_ok w2 /\ exists s, state_of w2 = mk_ar_state target (ar_generation (state_of w) + 1) s
                                       PBNS_ANTI_ROLLBACK_ASSURANCE_NVRAM_REDUCED.

Lemma nvram_store_ok w w1 target authorization :
  nv_ok w -> same_slots w w1 -> 0 < target <= UINT64_MAX ->
  exists st w2, advance_store (nvram_controller nv) (state_of w) target authorization w1 = Some (st, w2)
  /\ (st = PBNS_OK -> written w target w2)
  /\ (st <> PBNS_OK -> written w target w2 \/ nv_ok w2 /\ state_of w2 = state_of w).
Proof.
  intros Hok Hs1 Ht. unfold advance_store. cbn [nvram_controller ar_assurance ar_slot_write].
  destruct (_ || _) eqn:Ea.
  { do 2 eexists. split; [reflexivity|]. split; [by destruct (negb _)|]. intros _. right.
    split; [by eapply same_slots_ok|]. unfold state_of. by rewrite (same_slots_newest w w1). }
  apply orb_false_iff in Ea as [_ Egen%Z.eqb_neq]. rewrite encode_record_octets by done. cbn [mbind option_bind].
  destruct (next_generation w Egen) as [Eg Hgr]. set (s := if _ =? _ then 0 else _).
  destruct (nv_write nv w1 s (record_octets (u64 (ar_generation (state_of w) + 1)) target)) as [st w2] eqn:E2.
  apply nv_write_law in E2 as (Hoth & Hdone & Htorn). exists st, w2. split; [done|].
  assert (Hoth' : forall i, i <> s -> nv_slot w2 i = nv_slot w i) by (intros i Hi; by rewrite Hoth, Hs1).
  assert (Hnew : nv_slot w2 s = Some (record_octets (u64 (ar_generation (state_of w) + 1)) target) -> written w target w2).
  { intros E. destruct (next_record w w2 s target Hok Ht Egen eq_refl Hoth') as [Hok2 Est].
    - unfold value_at. rewrite E. cbn [slot_value]. by rewrite decode_record_octets by lia.
    - split; [done|]. exists s. by rewrite Est, Eg. }
  split; [auto|]. intros Hne. specialize (Htorn Hne). rewrite Hs1 in Htorn. destruct Htorn as [Hsm|[Hn|Hv]].
  - right. apply (torn_record w w2 s); auto.
  - left. auto.
  - right. apply (torn_record w w2 s); auto.
Qed.

Lemma written_post w target w2 w3 st state :
  written w target w2 -> same_slots w2 w3 -> stored_version w < target -> (st = PBNS_OK -> state = state_of w2) ->
  advance_post w target st state w3.
Proof.
  intros (Hok2 & s & E2) Hs Hlt Hst.
  assert (E3 : state_of w3 = state_of w2) by (unfold state_of; by rewrite (same_slots_newest w2 w3)).
  split; [by eapply same_slots_ok|]. split; [right; split; [done|]; by rewrite stored_version_state, E3, E2|].
  split; [|lia]. intros Eok. rewrite (Hst Eok), E3, E2. done.
Qed.

(** An update, from the reads and the write it is made of. *)
Lemma advance_total (w : W) (target : Z) (authorization : pbns_view) :
  nv_ok w -> 0 <= target <= UINT64_MAX ->
  exists st state w', anti_rollback_advance (nvram_controller nv) target authorization w = Some (st, state, w')
  /\ advance_post w target st state w'.
Proof.
  intros Hok Ht. unfold anti_rollback_advance.
  cbn [controller_valid nvram_controller ar_assurance ar_tpm_read ar_tpm_advance ar_slot_read ar_slot_write negb orb].
  assert (Hsame : forall st w', st <> PBNS_OK -> same_slots w w' ->
    exists st' state' w'', Some (st, zero_ar_state, w') = Some (st', state', w'') /\ advance_post w target st' state' w'').
  { intros st w' Hne Hs. do 3 eexists. split; [reflexivity|]. by apply advance_refused. }
  destruct (_ || _) eqn:Eg; [by apply Hsame|]. apply orb_false_iff in Eg as [Eg _]. apply orb_false_iff in Eg as [_ Ez].
  apply Z.eqb_neq in Ez. fold (nvram_controller nv).
  destruct (nvram_read_ok w Hok) as (st1 & current & w1 & -> & Hs1 & Hcur). cbn [mbind option_bind].
  destruct (is_ok st1) eqn:Eok1; cbn [negb]; [|apply is_ok_false in Eok1; by apply Hsame].
  apply is_ok_spec in Eok1. rewrite (Hcur Eok1). clear Hcur Eok1 current.
  destruct (Z.leb_spec target (ar_version (state_of w))) as [|Hlt]; [by apply Hsame|].
  rewrite <- stored_version_state in Hlt.
  destruct (nvram_store_ok w w1 target authorization Hok Hs1 ltac:(lia)) as (st2 & w2 & -> & Hdone & Htorn).
  cbn [mbind option_bind]. destruct (is_ok st2) eqn:Eok2; cbn [negb].
  2: { apply is_ok_false in Eok2. do 3 eexists. split; [reflexivity|]. destruct (Htorn Eok2) as [Hw|[Hok2 E2]].
       - by eapply written_post.
       - split; [done|]. split; [left; by rewrite !stored_version_state, E2|]. split; [done|lia]. }
  apply is_ok_spec in Eok2. specialize (Hdone Eok2).
  destruct (nvram_read_ok w2 ltac:(apply Hdone)) as (st3 & verified & w3 & -> & Hs3 & Hver). cbn [mbind option_bind].
  destruct (is_ok st3) eqn:Eok3; cbn [negb];
    [|apply is_ok_false in Eok3; do 3 eexists; split; [reflexivity|]; by eapply written_post].
  apply is_ok_spec in Eok3. rewrite (Hver Eok3). clear Htorn.
  destruct (_ || _); do 3 eexists; (split; [reflexivity|]); by eapply written_post.
Qed.

(** ** Properties *)

(** C22: an update of the two-slot store always returns, without a fault, keeps
    the store readable, and never lets the version go back: afterwards the
    stored version is what it was, or the target, which is larger.  When the
    update succeeds it is the target, in a record of the next generation.  When
    it fails, also because the write was cut short, either nothing changed or
    the target is stored already.  A target that is not larger is refused and
    changes nothing. *)
Theorem anti_rollback_monotone (w : W) (target : Z) (authorization : pbns_view) :
  nv_ok w -> 0 <= target <= UINT64_MAX ->
  exists st state w', anti_rollback_advance (nvram_controller nv) target authorization w = Some (st, state, w')
  /\ advance_post w target st state w'.
Proof. apply advance_total. Qed.
End nvram.

(** ** Corrupted records *)

Lemma crc_octets_inj b1 b2 :
  bytes_ok b1 -> bytes_ok b2 -> be_bytes 4 (crc32c_bytes b1) = be_bytes 4 (crc32c_bytes b2) ->
  crc32c_bytes b1 = crc32c_bytes b2.
Proof.
  intros H1 H2 E. apply (f_equal be_value) in E. apply crc32c_bytes_u32 in H1, H2. unfold is_u32 in *.
  rewrite !be_value_bytes_u32 in E by (unfold UINT32_MAX; lia). done.
Qed.

(** A stored record with one corrupted octet, wherever it is, is never taken
    for a valid record. *)
Theorem record_corruption_rejected (g v b b' : Z) (l r : bytes) :
  record_octets g v = l ++ b :: r -> is_byte b' -> b <> b' ->
  exists g' v', decode_record (l ++ b' :: r) = Some (false, g', v').
Proof.
  intros E Hb' Hne. pose proof (record_octets_ok g v) as Hok. rewrite E in Hok.
  pose proof (record_octets_length g v) as Hl. rewrite E in Hl.
  assert (Hok' : bytes_ok (l ++ b' :: r)).
  { apply bytes_ok_app in Hok as [? Hr]. apply bytes_ok_cons in Hr as [_ ?]. octets. }
  assert (Hl' : length (l ++ b' :: r) = 24%nat) by (rewrite length_app in *; exact Hl).
  destruct (decode_record_total _ Hl' Hok') as [[[ok g'] v'] Ed]. destruct ok; [|by eexists _, _].
  exfalso. apply decode_record_valid in Ed as (E' & _ & _); [|done..].
  pose proof (record_body_length g v) as HL. pose proof (record_body_length g' v') as HL'.
  set (B := record_body g v) in *. set (B' := record_body g' v') in *.
  assert (HB : B = take 20 (l ++ b :: r) /\ be_bytes 4 (crc32c_bytes B) = drop 20 (l ++ b :: r)).
  { rewrite <- E. unfold record_octets. fold B. rewrite take_app_length', drop_app_length' by done. done. }
  assert (HB' : B' = take 20 (l ++ b' :: r) /\ be_bytes 4 (crc32c_bytes B') = drop 20 (l ++ b' :: r)).
  { rewrite E'. unfold record_octets. fold B'. rewrite take_app_length', drop_app_length' by done. done. }
  destruct HB as [EB EC], HB' as [EB' EC'].
  assert (HBok : bytes_ok B) by (rewrite EB; auto with pbns).
  assert (HBok' : bytes_ok B') by (rewrite EB'; auto with pbns).
  destruct (decide (length l < 20)%nat) as [Hlt|Hge].
  - assert (Ht : forall x, take 20 (l ++ x :: r) = l ++ x :: take (19 - length l) r).
    { intros x. rewrite take_app, take_ge by lia. f_equal. by replace (20 - length l)%nat with (S (19 - length l)) by lia. }
    assert (Hd : forall x, drop 20 (l ++ x :: r) = drop (19 - length l) r).
    { intros x. rewrite drop_app, drop_ge by lia. by replace (20 - length l)%nat with (S (19 - length l)) by lia. }
    rewrite Ht in EB, EB'. rewrite Hd in EC, EC'.
    apply (crc32c_bytes_one_octet l b b' (take (19 - length l) r)); [by rewrite <- EB|done..|].
    rewrite <- EB, <- EB'. apply crc_octets_inj; [done..|congruence].
  - assert (EBB : B = B') by (rewrite EB, EB', !take_app_le by lia; done).
    rewrite <- EBB, EC, !drop_app_le in EC' by lia. apply app_inv_head in EC'. by injection EC'.
Qed.

Lemma record_corruption_rejected_witness :
  exists g' v', decode_record (<[10%nat := 9]> (record_octets 7 3)) = Some (false, g', v').
Proof.
  refine (record_corruption_rejected 7 3 0 9 (take 10 (record_octets 7 3)) (drop 11 (record_octets 7 3)) _ _ _);
    [vm_compute; reflexivity|split; [discriminate|reflexivity]|discriminate].
Defined.

(** ** The TPM *)

(** An update of the TPM counter succeeds only when the counter was read, is
    smaller than the target, was advanced from that value to the target with
    the authorization, and reads back as the target. *)
Theorem tpm_advance_verified `{Machine} {W : Type} (c : pbns_anti_rollback W) (tpm_read : W -> pbns_status * Z * W)
    (tpm_advance : W -> Z -> Z -> bytes -> pbns_status * W) (target : Z) (authorization : pbns_view) (w w' : W)
    (state : pbns_anti_rollback_state) :
  pbns_anti_rollback_init_tpm (Some zero_controller) (Some tpm_read) (Some tpm_advance) = (PBNS_OK, Some c) ->
  anti_rollback_advance c target authorization w = Some (PBNS_OK, state, w') ->
  exists v w1 w2, tpm_read w = (PBNS_OK, v, w1) /\ v < target
  /\ tpm_advance w1 v target (v_data authorization) = (PBNS_OK, w2) /\ tpm_read w2 = (PBNS_OK, target, w')
  /\ ar_version state = target /\ 0 < v_len authorization <= PBNS_ANTI_ROLLBACK_AUTHORIZATION_MAX_SIZE.
Proof.
  intros [= <-]. unfold anti_rollback_advance. cbn [controller_valid ar_assurance ar_tpm_read ar_tpm_advance
    ar_slot_read ar_slot_write negb orb]. destruct (_ || _) eqn:Eg; [done|]. bools.
  unfold anti_rollback_read. cbn [controller_valid ar_assurance ar_tpm_read ar_tpm_advance ar_slot_read
    ar_slot_write negb mbind option_bind].
  destruct (tpm_read w) as [[st v] w1] eqn:E1. destruct st; try done. cbn [is_ok negb mbind option_bind ar_version].
  destruct (Z.leb_spec target v) as [|Hlt]; [done|]. unfold advance_store. cbn [ar_assurance ar_tpm_advance].
  destruct (Z.eqb_spec (v_len authorization) 0) as [|Hne]; [done|]. cbn [mbind option_bind ar_version].
  destruct (tpm_advance w1 v target (v_data authorization)) as [st w2] eqn:E2. destruct st; try done.
  cbn [is_ok negb]. destruct (tpm_read w2) as [[st v3] w3] eqn:E3. destruct st; try done.
  cbn [is_ok negb mbind option_bind ar_version andb orb].
  destruct (Z.eqb_spec v3 target) as [-> |]; [|done]. cbn [negb orb]. intros [= <- <-].
  exists v, w1, w2. split_and!; try done. unfold v_len in *. lia.
Qed.

(** ** Concrete stores *)

Lemma tpm_advance_verified_witness :
  exists v w1 w2, (fun w : Z => (PBNS_OK, w, w)) 4 = (PBNS_OK, v, w1) /\ v < 6
  /\ (fun (w _ target : Z) (_ : bytes) => (PBNS_OK, target)) w1 v 6 [1] = (PBNS_OK, w2).
Proof.
  destruct (@tpm_advance_verified x86_64 Z _ (fun w : Z => (PBNS_OK, w, w))
    (fun (w _ target : Z) (_ : bytes) => (PBNS_OK, target)) 6 (mk_view 4096 [1]) 4 6
    (mk_ar_state 6 0 (2 ^ 64 - 1) PBNS_ANTI_ROLLBACK_ASSURANCE_TPM) eq_refl eq_refl)
    as (v & w1 & w2 & E1 & Hlt & E2 & _).
  exists v, w1, w2. exact (conj E1 (conj Hlt E2)).
Defined.

(** Storage in which a write to slot [sl_torn], if any, is cut short. *)
Record slots := mk_slots { sl_0 : option bytes; sl_1 : option bytes; sl_torn : bool }.

Definition fit_record (r : bytes) : bytes := u8 <$> take 24 (r ++ replicate 24 0).

Definition slots_get (w : slots) (s : Z) : option bytes :=
  fit_record <$> (if s =? 0 then sl_0 w else if s =? 1 then sl_1 w else None).

Definition slots_put (w : slots) (s : Z) (r : option bytes) : slots :=
  if s =? 0 then mk_slots r (sl_1 w) (sl_torn w) else if s =? 1 then mk_slots (sl_0 w) r (sl_torn w) else w.

Definition slots_nv : nvram slots := mk_nvram
  (fun w s buf => match slots_get w s with
                  | Some r => (PBNS_OK, r, true, w)
                  | None => (PBNS_OK, buf, false, w)
                  end)
  (fun w s data =>
     if negb ((s =? 0) || (s =? 1)) || negb (bytes_eqb (fit_record data) data) then (PBNS_ERR_ARGUMENT, w)
     else if sl_torn w then (PBNS_ERR_IO, slots_put w s None) else (PBNS_OK, slots_put w s (Some data))).

Lemma fit_record_ok r : length (fit_record r) = 24%nat /\ bytes_ok (fit_record r).
Proof.
  unfold fit_record. split.
  - rewrite length_fmap, length_take, length_app, length_replicate. lia.
  - apply Forall_fmap, Forall_true. intros x. apply u8_byte.
Qed.

#[export, refine] Instance slots_laws : NvramLaws slots_nv := {| nv_slot := slots_get |}.
Proof.
  - intros w s r. unfold slots_get. destruct (if s =? 0 then _ else _); [|done]. intros [= <-]. apply fit_record_ok.
  - intros w s buf st r present w'. cbn. destruct (slots_get w s) eqn:E; intros [= <- <- <- <-]; done.
  - intros w s data st w'. cbn. destruct (_ || _) eqn:Eg; [intros [= <- <-]; split_and!; try done; auto|].
    apply orb_false_iff in Eg as [Es Ed]. apply negb_false_iff in Es, Ed. apply bytes_eqb_spec in Ed.
    assert (Hput : forall x, (forall i, i <> s -> slots_get (slots_put w s x) i = slots_get w i)
      /\ slots_get (slots_put w s x) s = fit_record <$> x).
    { intros x. unfold slots_get, slots_put. apply orb_true_iff in Es as [->%Z.eqb_eq| ->%Z.eqb_eq]; cbn; (split; [|done]);
        intros i Hi; zbool; done || lia. }
    destruct (sl_torn w); intros [= <- <-].
    + destruct (Hput None) as [H1 H2]. split_and!; try done. intros _. right. right. by rewrite H2.
    + destruct (Hput (Some data)) as [H1 H2]. split_and!; try done. intros _. rewrite H2. cbn. by rewrite Ed.
Defined.

Definition ex_slots : slots := mk_slots (Some (record_octets 4 9)) (Some (record_octets 5 11)) false.

Lemma ex_slots_ok : nv_ok slots_nv ex_slots.
Proof. intros g0 v0 g1 v1. vm_compute. intros [= <- <-] [= <- <-]. discriminate. Qed.

(** The update succeeds, or is torn and the old version is still there. *)
Example ex_slots_advance :
  ((fun '(st, state, _) => (st, ar_version state, ar_generation state))
     <$> @anti_rollback_advance x86_64 _ (nvram_controller slots_nv) 12 null_view ex_slots,
   (fun '(st, _, w) => (st, stored_version slots_nv w))
     <$> @anti_rollback_advance x86_64 _ (nvram_controller slots_nv) 12 null_view
           (mk_slots (sl_0 ex_slots) (sl_1 ex_slots) true))
  = (Some (PBNS_OK, 12, 6), Some (PBNS_ERR_IO, 11)).
Proof. vm_compute. reflexivity. Qed.

Lemma anti_rollback_monotone_witness :
  exists st state w', @anti_rollback_advance x86_64 _ (nvram_controller slots_nv) 12 null_view ex_slots
    = Some (st, state, w') /\ @advance_post x86_64 slots slots_nv slots_laws ex_slots 12 st state w'.
Proof.
  exact (@anti_rollback_monotone x86_64 slots slots_nv slots_laws ex_slots 12 null_view ex_slots_ok
    ltac:(split; discriminate)).
Defined.
