(* ===== verification/BootConfig.v ===== *)
(** * Boot configuration records ([src/core/boot_config.c])

    The launcher keeps two records in firmware variables: its configuration and
    the last boot failure.  Both have a sixteen-octet header with a checksum
    that is computed with its own field cleared.  The theorems show that the
    encoders write the wire form, and that the decoders accept exactly the wire
    forms and give back what was encoded. *)

From stdpp Require Import base list numbers.
From Stdlib Require Import ZArith Lia.
From S2P Require Import Prelude Endian Status Buffers Crc32c.

(** ** The code *)

Definition PBNS_BOOT_CONFIG_HEADER_SIZE : Z := 16.
Definition PBNS_BOOT_CONFIG_PATH_CAP : Z := 4096.
Definition PBNS_BOOT_CONFIG_ENCODED_CAP : Z := PBNS_BOOT_CONFIG_HEADER_SIZE + PBNS_BOOT_CONFIG_PATH_CAP.
Definition PBNS_BOOT_FAILURE_ENCODED_SIZE : Z := 24.
Definition PBNS_BOOT_CONFIG_VERSION : Z := 1.
Definition PBNS_BOOT_CONFIG_CRC_OFFSET : Z := 12.

Definition boot_config_magic : bytes := [80; 66; 67; 49].
Definition boot_failure_magic : bytes := [80; 66; 70; 49].

Record pbns_boot_config := mk_config { bc_normal_boot_option : Z; bc_recovery_device_path : pbns_view }.
Definition zero_config : pbns_boot_config := mk_config 0 null_view.

Record pbns_boot_failure := mk_failure { bf_stage : Z; bf_platform_status : Z }.
Definition zero_failure : pbns_boot_failure := mk_failure 0 0.

Definition copy_bytes (destination : bytes) (offset : Z) (source : bytes) : option bytes :=
  wr_list destination offset source.

Definition zero_bytes (destination : bytes) (offset length : Z) : option bytes :=
  wr_list destination offset (replicate (Z.to_nat length) 0).

Definition read_uint16 (input : bytes) (offset : Z) : option Z :=
  b0 ← rd input offset;
  b1 ← rd input (offset + 1);
  Some (u16 (Z.lor (Z.shiftl b0 8) b1)).

Definition write_uint16 (output : bytes) (offset value : Z) : option bytes :=
  wr_list output offset [u8 (Z.shiftr value 8); u8 value].

(** [output[index] = (uint8_t)(value >> ((sizeof(value) - 1U - index) * 8U))] *)
Fixpoint write_uint64_loop (count : nat) (output : bytes) (offset value : Z) : option bytes :=
  match count with
  | O => Some output
  | S k =>
      output ← wr output offset (u8 (Z.shiftr value (Z.of_nat k * 8)));
      write_uint64_loop k output (offset + 1) value
  end.

Definition write_uint64 (output : bytes) (offset value : Z) : option bytes := write_uint64_loop 8 output offset value.

(** The record is changed and restored: the result holds it too. *)
Definition encoded_crc (encoded : bytes) (encoded_size : Z) : option (Z * bytes) :=
  saved ← rd_slice encoded PBNS_BOOT_CONFIG_CRC_OFFSET 4;
  encoded ← zero_bytes encoded PBNS_BOOT_CONFIG_CRC_OFFSET 4;
  covered ← rd_slice encoded 0 encoded_size;
  let result := crc32c_bytes covered in
  encoded ← copy_bytes encoded PBNS_BOOT_CONFIG_CRC_OFFSET saved;
  Some (result, encoded).

(** The status, the octets of the output and [*written]. *)
Definition boot_config_encode (config : pbns_boot_config) (output : pbns_buffer) : option (pbns_status * bytes * Z) :=
  let path := bc_recovery_device_path config in
  let fail status := Some (status, b_data output, 0) in
  if (b_ptr output =? 0) || negb (b_len output =? 0) || (v_ptr path =? 0) || (v_len path =? 0)
  then fail PBNS_ERR_ARGUMENT
  else if PBNS_BOOT_CONFIG_PATH_CAP <? v_len path then fail PBNS_ERR_LIMIT
  else
  let encoded_size := PBNS_BOOT_CONFIG_HEADER_SIZE + v_len path in
  if b_cap output <? encoded_size then fail PBNS_ERR_LIMIT
  else
  out ← zero_bytes (b_data output) 0 encoded_size;
  out ← copy_bytes out 0 boot_config_magic;
  out ← wr out 4 PBNS_BOOT_CONFIG_VERSION;
  out ← write_uint16 out 6 (bc_normal_boot_option config);
  out ← write_u32_be out 8 (u32 (v_len path));
  out ← copy_bytes out PBNS_BOOT_CONFIG_HEADER_SIZE (v_data path);
  '(crc, out) ← encoded_crc out encoded_size;
  out ← write_u32_be out PBNS_BOOT_CONFIG_CRC_OFFSET crc;
  Some (PBNS_OK, out, encoded_size).

Definition pbns_boot_config_encode (config : ptr pbns_boot_config) (output : pbns_buffer) (written : ptr Z)
  : option (pbns_status * bytes * ptr Z) :=
  match written, config with
  | None, _ => Some (PBNS_ERR_ARGUMENT, b_data output, None)
  | Some _, None => Some (PBNS_ERR_ARGUMENT, b_data output, Some 0)
  | Some _, Some config =>
      '(status, out, written) ← boot_config_encode config output; Some (status, out, Some written)
  end.

(** The status, the octets of the path storage and the configuration. *)
Definition boot_config_decode (encoded : pbns_view) (path_storage : pbns_buffer)
  : option (pbns_status * bytes * pbns_boot_config) :=
  let input := v_data encoded in
  let fail status := Some (status, b_data path_storage, zero_config) in
  if (v_len encoded <? PBNS_BOOT_CONFIG_HEADER_SIZE) || (PBNS_BOOT_CONFIG_ENCODED_CAP <? v_len encoded)
  then fail PBNS_ERR_FORMAT
  else
  magic ← rd_slice input 0 4;
  if negb (bytes_eqb magic boot_config_magic) then fail PBNS_ERR_FORMAT
  else
  version ← rd input 4;
  if negb (version =? PBNS_BOOT_CONFIG_VERSION) then fail PBNS_ERR_VERSION
  else
  reserved ← rd input 5;
  if negb (reserved =? 0) then fail PBNS_ERR_FORMAT
  else
  path_size ← read_u32_be input 8;
  if (path_size =? 0) || (PBNS_BOOT_CONFIG_PATH_CAP <? path_size)
     || negb (path_size =? v_len encoded - PBNS_BOOT_CONFIG_HEADER_SIZE) then fail PBNS_ERR_FORMAT
  else if b_cap path_storage <? path_size then fail PBNS_ERR_LIMIT
  else
  scratch ← copy_bytes (replicate (Z.to_nat PBNS_BOOT_CONFIG_ENCODED_CAP) 0) 0 input;
  expected_crc ← read_u32_be input PBNS_BOOT_CONFIG_CRC_OFFSET;
  '(crc, _) ← encoded_crc scratch (v_len encoded);
  if negb (crc =? expected_crc) then fail PBNS_ERR_CRC
  else
  path ← rd_slice input PBNS_BOOT_CONFIG_HEADER_SIZE path_size;
  storage ← copy_bytes (b_data path_storage) 0 path;
  normal_boot_option ← read_uint16 input 6;
  stored ← rd_slice storage 0 path_size;
  Some (PBNS_OK, storage, mk_config normal_boot_option (mk_view (b_ptr path_storage) stored)).

Definition pbns_boot_config_decode (encoded : pbns_view) (path_storage : pbns_buffer)
    (config : ptr pbns_boot_config) : option (pbns_status * bytes * ptr pbns_boot_config) :=
  match config with
  | None => Some (PBNS_ERR_ARGUMENT, b_data path_storage, None)
  | Some _ =>
      if (v_ptr encoded =? 0) || (b_ptr path_storage =? 0) || negb (b_len path_storage =? 0)
      then Some (PBNS_ERR_ARGUMENT, b_data path_storage, config)
      else '(status, storage, config) ← boot_config_decode encoded path_storage; Some (status, storage, Some config)
  end.

Definition boot_failure_encode (failure : pbns_boot_failure) (output : pbns_buffer) : option (pbns_status * bytes * Z) :=
  let fail status := Some (status, b_data output, 0) in
  if (bf_stage failure =? 0) || (b_ptr output =? 0) || negb (b_len output =? 0) then fail PBNS_ERR_ARGUMENT
  else if b_cap output <? PBNS_BOOT_FAILURE_ENCODED_SIZE then fail PBNS_ERR_LIMIT
  else
  out ← zero_bytes (b_data output) 0 PBNS_BOOT_FAILURE_ENCODED_SIZE;
  out ← copy_bytes out 0 boot_failure_magic;
  out ← wr out 4 PBNS_BOOT_CONFIG_VERSION;
  out ← wr out 5 (bf_stage failure);
  out ← write_uint64 out 16 (bf_platform_status failure);
  '(crc, out) ← encoded_crc out PBNS_BOOT_FAILURE_ENCODED_SIZE;
  out ← write_u32_be out PBNS_BOOT_CONFIG_CRC_OFFSET crc;
  Some (PBNS_OK, out, PBNS_BOOT_FAILURE_ENCODED_SIZE).

Definition pbns_boot_failure_encode (failure : ptr pbns_boot_failure) (output : pbns_buffer) (written : ptr Z)
  : option (pbns_status * bytes * ptr Z) :=
  match written, failure with
  | None, _ => Some (PBNS_ERR_ARGUMENT, b_data output, None)
  | Some _, None => Some (PBNS_ERR_ARGUMENT, b_data output, Some 0)
  | Some _, Some failure =>
      '(status, out, written) ← boot_failure_encode failure output; Some (status, out, Some written)
  end.

Definition boot_failure_decode (encoded : pbns_view) : option (pbns_status * pbns_boot_failure) :=
  let input := v_data encoded in
  let fail status := Some (status, zero_failure) in
  if negb (v_len encoded =? PBNS_BOOT_FAILURE_ENCODED_SIZE) then fail PBNS_ERR_FORMAT
  else
  magic ← rd_slice input 0 4;
  if negb (bytes_eqb magic boot_failure_magic) then fail PBNS_ERR_FORMAT
  else
  version ← rd input 4;
  if negb (version =? PBNS_BOOT_CONFIG_VERSION) then fail PBNS_ERR_VERSION
  else
  stage ← rd input 5;
  if stage =? 0 then fail PBNS_ERR_FORMAT
  else
  reserved ← rd_slice input 6 6;
  if negb (forallb (fun b => b =? 0) reserved) then fail PBNS_ERR_FORMAT
  else
  scratch ← copy_bytes (replicate (Z.to_nat PBNS_BOOT_FAILURE_ENCODED_SIZE) 0) 0 input;
  expected_crc ← read_u32_be input PBNS_BOOT_CONFIG_CRC_OFFSET;
  '(crc, _) ← encoded_crc scratch (v_len encoded);
  if negb (crc =? expected_crc) then fail PBNS_ERR_CRC
  else
  platform_status ← read_u64_be input 16;
  Some (PBNS_OK, mk_failure stage platform_status).

Definition pbns_boot_failure_decode (encoded : pbns_view) (failure : ptr pbns_boot_failure)
  : option (pbns_status * ptr pbns_boot_failure) :=
  match failure with
  | None => Some (PBNS_ERR_ARGUMENT, None)
  | Some _ =>
      if v_ptr encoded =? 0 then Some (PBNS_ERR_ARGUMENT, failure)
      else '(status, failure) ← boot_failure_decode encoded; Some (status, Some failure)
  end.

(** ** Wire forms *)

(** A header [pre] of twelve octets and a [body], sealed by the checksum. *)
Definition seal (pre body : bytes) : bytes :=
  pre ++ be_bytes 4 (crc32c_bytes (pre ++ replicate 4 0 ++ body)) ++ body.

Definition config_header (option size : Z) : bytes :=
  boot_config_magic ++ [PBNS_BOOT_CONFIG_VERSION; 0] ++ be_bytes 2 option ++ be_bytes 4 size.

Definition config_wire (option : Z) (path : bytes) : bytes := seal (config_header option (zlen path)) path.

Definition failure_header (stage : Z) : bytes :=
  boot_failure_magic ++ [PBNS_BOOT_CONFIG_VERSION; stage] ++ replicate 6 0.

Definition failure_wire (stage platform_status : Z) : bytes :=
  seal (failure_header stage) (be_bytes 8 platform_status).

#[local] Opaque crc32c_bytes be_bytes.

Lemma config_header_length option size : length (config_header option size) = 12%nat.
Proof. unfold config_header. by rewrite !length_app, !be_bytes_length. Qed.

Lemma seal_length pre body : length pre = 12%nat -> length (seal pre body) = (16 + length body)%nat.
Proof. intros E. unfold seal. rewrite !length_app, be_bytes_length, E. lia. Qed.

(** The checksum does not depend on the field it is stored in. *)
Lemma encoded_crc_seal pre c body rest n :
  length pre = 12%nat -> length c = 4%nat -> n = 16 + zlen body ->
  encoded_crc (pre ++ c ++ body ++ rest) n
  = Some (crc32c_bytes (pre ++ replicate 4 0 ++ body), pre ++ c ++ body ++ rest).
Proof.
  intros Hp Hc ->. unfold encoded_crc, zero_bytes, copy_bytes.
  assert (E12 : PBNS_BOOT_CONFIG_CRC_OFFSET = zlen pre) by (rewrite Hp; done). rewrite !E12.
  rewrite rd_slice_app by (by rewrite Hc). cbn [mbind option_bind].
  rewrite wr_list_app by (by rewrite Hc, length_replicate). cbn [mbind option_bind].
  replace (pre ++ replicate (Z.to_nat 4) 0 ++ body ++ rest)
    with ((pre ++ replicate 4 0 ++ body) ++ rest) by (by rewrite <- !app_assoc).
  rewrite rd_slice_prefix by (rewrite !length_app, Hp, length_replicate; lia). cbn [mbind option_bind].
  rewrite <- !app_assoc. rewrite (wr_list_app pre (replicate 4 0)) by (by rewrite Hc, length_replicate). done.
Qed.

Lemma write_uint64_loop_app n l m r v :
  length m = n -> write_uint64_loop n (l ++ m ++ r) (zlen l) v = Some (l ++ be_bytes n v ++ r).
Proof.
  revert l m. induction n as [|n IH]; intros l m E; [by destruct m|]. destruct m as [|x m]; [done|].
  cbn [write_uint64_loop]. change ((x :: m) ++ r) with (x :: m ++ r). rewrite wr_app_head by done. cbn [mbind option_bind].
  replace (l ++ u8 (Z.shiftr v (Z.of_nat n * 8)) :: m ++ r) with ((l ++ [u8 (Z.shiftr v (Z.of_nat n * 8))]) ++ m ++ r)
    by (by rewrite <- app_assoc).
  replace (zlen l + 1) with (zlen (l ++ [u8 (Z.shiftr v (Z.of_nat n * 8))])) by llia.
  rewrite IH by (by injection E). rewrite <- app_assoc. do 2 f_equal. Transparent be_bytes. cbn [be_bytes app].
  Opaque be_bytes. do 3 f_equal. lia.
Qed.

(** A store of [src] at [off], in memory that is given as a concatenation. *)
Lemma store_at (mem l m r src : bytes) off :
  mem = l ++ m ++ r -> off = zlen l -> length m = length src -> wr_list mem off src = Some (l ++ src ++ r).
Proof. intros -> ->. apply wr_list_app. Qed.

Lemma store_one (mem l r : bytes) x y off :
  mem = l ++ x :: r -> off = zlen l -> wr mem off y = Some (l ++ y :: r).
Proof. intros -> ->. by apply wr_app_head. Qed.

Lemma u32_store (mem l m r : bytes) off v :
  mem = l ++ m ++ r -> off = zlen l -> length m = 4%nat -> write_u32_be mem off v = Some (l ++ be_bytes 4 v ++ r).
Proof. intros -> ->. apply write_u32_be_app. Qed.

Lemma u64_store (mem l m r : bytes) off v :
  mem = l ++ m ++ r -> off = zlen l -> length m = 8%nat -> write_uint64 mem off v = Some (l ++ be_bytes 8 v ++ r).
Proof. intros -> ->. apply write_uint64_loop_app. Qed.

Lemma zeroed (D : bytes) n : 0 <= n <= zlen D -> zero_bytes D 0 n = Some (replicate (Z.to_nat n) 0 ++ drop (Z.to_nat n) D).
Proof.
  intros Hn. unfold zero_bytes. rewrite (store_at _ [] (take (Z.to_nat n) D) (drop (Z.to_nat n) D));
    [done|by rewrite app_nil_l, take_drop|done|]. rewrite length_take, length_replicate. lia.
Qed.

Lemma u16_octets v : [u8 (Z.shiftr v 8); u8 v] = be_bytes 2 v.
Proof. Transparent be_bytes. cbn [be_bytes]. Opaque be_bytes. by rewrite Z.shiftr_0_r. Qed.

(** The header and the body are written, then the seal. *)
Lemma seal_written (pre body rest mem : bytes) (crc n : Z) :
  length pre = 12%nat -> mem = pre ++ replicate 4 0 ++ body ++ rest -> n = 16 + zlen body ->
  ('(c, out) ← encoded_crc mem n;
   out ← write_u32_be out PBNS_BOOT_CONFIG_CRC_OFFSET c;
   Some (PBNS_OK, out, crc)) = Some (PBNS_OK, seal pre body ++ rest, crc).
Proof.
  intros Hp -> Hn. rewrite encoded_crc_seal by (done || by rewrite length_replicate). cbn [mbind option_bind].
  assert (E12 : PBNS_BOOT_CONFIG_CRC_OFFSET = zlen pre) by (rewrite Hp; done). rewrite E12.
  rewrite write_u32_be_app by (by rewrite length_replicate). cbn [mbind option_bind]. unfold seal. by rewrite <- !app_assoc.
Qed.

Definition config_ok (config : pbns_boot_config) (output : pbns_buffer) : Prop :=
  b_ptr output <> 0 /\ b_len output = 0 /\ v_ptr (bc_recovery_device_path config) <> 0
  /\ 0 < v_len (bc_recovery_device_path config) <= PBNS_BOOT_CONFIG_PATH_CAP
  /\ PBNS_BOOT_CONFIG_HEADER_SIZE + v_len (bc_recovery_device_path config) <= b_cap output.

Lemma boot_config_encode_ok config output :
  config_ok config output ->
  let path := v_data (bc_recovery_device_path config) in
  boot_config_encode config output
  = Some (PBNS_OK, config_wire (bc_normal_boot_option config) path ++ drop (16 + length path) (b_data output),
          16 + zlen path).
Proof.
  intros (Hp & Hl & Hpp & Hpl & Hcap) path. unfold boot_config_encode.
  unfold PBNS_BOOT_CONFIG_HEADER_SIZE, PBNS_BOOT_CONFIG_PATH_CAP, v_len, b_cap in *. fold path in Hpl, Hcap |- *.
  rewrite (proj2 (Z.eqb_neq _ 0) Hp), Hl, (proj2 (Z.eqb_neq _ 0) Hpp), (proj2 (Z.eqb_neq (zlen path) 0)) by lia.
  cbn [Z.eqb negb orb]. rewrite (proj2 (Z.ltb_ge 4096 (zlen path))), (proj2 (Z.ltb_ge _ (16 + zlen path))) by lia.
  rewrite zeroed by lia. cbn [mbind option_bind]. set (R := drop _ (b_data output)). 
  replace (Z.to_nat (16 + zlen path)) with (4 + (1 + (1 + (2 + (4 + (4 + length path))))))%nat by lia.
  rewrite !replicate_add, <- !app_assoc. unfold copy_bytes.
  erewrite (store_at _ []); [|reflexivity|done|done]. cbn [mbind option_bind].
  erewrite (store_one _ boot_config_magic _ 0); [|reflexivity|done]. cbn [mbind option_bind].
  unfold write_uint16. rewrite u16_octets.
  erewrite (store_at _ (boot_config_magic ++ [PBNS_BOOT_CONFIG_VERSION; 0]) (replicate 2 0));
    [|reflexivity|done|by rewrite be_bytes_length]. cbn [mbind option_bind].
  rewrite u32_small by (unfold UINT32_MAX; lia).
  erewrite (u32_store _ (boot_config_magic ++ [PBNS_BOOT_CONFIG_VERSION; 0] ++ be_bytes 2 (bc_normal_boot_option config))
    (replicate 4 0)); [|by rewrite <- !app_assoc|by rewrite !length_app, be_bytes_length|done].
  cbn [mbind option_bind]. fold path.
  erewrite (store_at _ (config_header (bc_normal_boot_option config) (zlen path) ++ replicate 4 0)
    (replicate (length path) 0) R);
    [|unfold config_header; by rewrite <- !app_assoc|by rewrite length_app, config_header_length|by rewrite length_replicate].
  cbn [mbind option_bind]. rewrite (seal_written (config_header (bc_normal_boot_option config) (zlen path)) path R).
  - unfold config_wire, R. do 5 f_equal. lia.
  - apply config_header_length.
  - by rewrite <- !app_assoc.
  - done.
Qed.

Definition failure_ok (failure : pbns_boot_failure) (output : pbns_buffer) : Prop :=
  b_ptr output <> 0 /\ b_len output = 0 /\ bf_stage failure <> 0 /\ 24 <= b_cap output.

Lemma boot_failure_encode_ok failure output :
  failure_ok failure output ->
  boot_failure_encode failure output
  = Some (PBNS_OK, failure_wire (bf_stage failure) (bf_platform_status failure) ++ drop 24 (b_data output), 24).
Proof.
  intros (Hp & Hl & Hs & Hcap). unfold boot_failure_encode, PBNS_BOOT_FAILURE_ENCODED_SIZE, b_cap in *.
  rewrite (proj2 (Z.eqb_neq _ 0) Hp), Hl, (proj2 (Z.eqb_neq _ 0) Hs). cbn [Z.eqb negb orb].
  rewrite (proj2 (Z.ltb_ge _ 24)) by lia. rewrite zeroed by lia. cbn [mbind option_bind].
  set (R := drop _ (b_data output)). change (replicate (Z.to_nat 24) 0) with
    (replicate 4 0 ++ 0 :: 0 :: replicate 6 0 ++ replicate 4 0 ++ replicate 8 0). rewrite <- !app_assoc. unfold copy_bytes.
  erewrite (store_at _ []); [|reflexivity|done|done]. cbn [mbind option_bind app].
  erewrite (store_one _ boot_failure_magic _ 0); [|reflexivity|done]. cbn [mbind option_bind].
  erewrite (store_one _ (boot_failure_magic ++ [PBNS_BOOT_CONFIG_VERSION]) _ 0); [|reflexivity|done]. cbn [mbind option_bind].
  erewrite (u64_store _ (failure_header (bf_stage failure) ++ replicate 4 0) (replicate 8 0) R);
    [|unfold failure_header; by rewrite <- !app_assoc|done|done]. cbn [mbind option_bind].
  rewrite (seal_written (failure_header (bf_stage failure)) (be_bytes 8 (bf_platform_status failure)) R); done.
Qed.

(** ** Decoding *)

(** A sealed record is cut into its parts. *)
Lemma seal_parts (l : bytes) :
  16 <= zlen l -> l = slice l 0 12 ++ slice l 12 4 ++ slice l 16 (zlen l - 16).
Proof.
  intros Hl. rewrite <- (slice_all l (12 + (4 + (zlen l - 16)))) at 1 by lia. rewrite !slice_split by lia. done.
Qed.

Lemma be_bytes_of_slice (l : bytes) i n :
  bytes_ok l -> 0 <= i -> 0 <= n -> i + n <= zlen l -> be_bytes (Z.to_nat n) (be_value (slice l i n)) = slice l i n.
Proof.
  intros Hok ? ? ?. pose proof (slice_length l i n ltac:(lia) ltac:(lia) ltac:(lia)) as Hn.
  replace (Z.to_nat n) with (length (slice l i n)) by lia. apply be_bytes_value. auto with pbns.
Qed.

(** The checksum test, on a copy of the record in a larger scratch buffer. *)
Lemma seal_checked (l : bytes) (cap : nat) :
  bytes_ok l -> 16 <= zlen l <= Z.of_nat cap ->
  exists crc scratch, copy_bytes (replicate cap 0) 0 l = Some scratch
  /\ read_u32_be l PBNS_BOOT_CONFIG_CRC_OFFSET = Some (be_value (slice l 12 4))
  /\ (exists mem, encoded_crc scratch (zlen l) = Some (crc, mem))
  /\ (crc = be_value (slice l 12 4) <-> l = seal (slice l 0 12) (slice l 16 (zlen l - 16))).
Proof.
  intros Hok Hl. unfold copy_bytes.
  rewrite (store_at _ [] (take (length l) (replicate cap 0)) (drop (length l) (replicate cap 0)));
    [|by rewrite app_nil_l, take_drop|done|rewrite length_take, length_replicate; lia].
  set (P := slice l 0 12) in *. set (C := slice l 12 4). set (B := slice l 16 (zlen l - 16)).
  assert (HP : zlen P = 12) by (apply slice_length; lia). assert (HC : zlen C = 4) by (apply slice_length; lia).
  assert (HB : zlen B = zlen l - 16) by (apply slice_length; lia).
  assert (E : l = P ++ C ++ B) by (by apply seal_parts; lia).
  exists (crc32c_bytes (P ++ replicate 4 0 ++ B)), (l ++ drop (length l) (replicate cap 0)).
  split; [done|]. split; [apply read_u32_be_value; [done|unfold PBNS_BOOT_CONFIG_CRC_OFFSET; lia..]|]. split.
  - eexists. rewrite E at 1. rewrite <- !app_assoc. apply encoded_crc_seal; lia.
  - assert (Hc : 0 <= crc32c_bytes (P ++ replicate 4 0 ++ B) <= UINT32_MAX).
    { assert (Hok' : bytes_ok (P ++ replicate 4 0 ++ B)).
      { apply bytes_ok_app. split; [unfold P; auto with pbns|]. apply bytes_ok_app.
        split; [by apply Forall_replicate|unfold B; auto with pbns]. }
      apply crc32c_bytes_u32 in Hok'. unfold is_u32, UINT32_MAX in *. lia. }
    unfold seal. split; intros Heq.
    + rewrite Heq. pose proof (be_bytes_of_slice l 12 4 Hok ltac:(lia) ltac:(lia) ltac:(lia)) as HS.
      change (Z.to_nat 4) with 4%nat in HS. fold C in HS |- *. by rewrite HS.
    + rewrite E in Heq. apply app_inv_head in Heq. apply (f_equal (take 4)) in Heq.
      rewrite !take_app_length' in Heq by (rewrite ?be_bytes_length; lia). rewrite Heq.
      by rewrite be_value_bytes_u32.
Qed.

(** The checksum test, on a wire form. *)
Lemma sealed_passes (l pre body : bytes) (cap : nat) {B} (bad good : option B) :
  bytes_ok l -> l = seal pre body -> length pre = 12%nat -> zlen l <= Z.of_nat cap ->
  (scratch ← copy_bytes (replicate cap 0) 0 l;
   expected ← read_u32_be l PBNS_BOOT_CONFIG_CRC_OFFSET;
   '(crc, _) ← encoded_crc scratch (zlen l);
   if negb (crc =? expected) then bad else good) = good.
Proof.
  intros Hok El Hp Hcap. assert (Hl : zlen l = 16 + zlen body) by (rewrite El, seal_length by done; lia).
  destruct (seal_checked l cap Hok ltac:(lia)) as (crc & scratch & E1 & E2 & (mem & E3) & Hseal).
  rewrite E1. cbn [mbind option_bind]. rewrite E2. cbn [mbind option_bind]. rewrite E3. cbn [mbind option_bind].
  rewrite (proj2 (Z.eqb_eq crc _)); [done|]. apply Hseal. rewrite El at 1. unfold seal in El.
  rewrite (slice_eq l [] pre _ 0 12 El) by (by rewrite ?Hp).
  rewrite (slice_eq l (pre ++ be_bytes 4 (crc32c_bytes (pre ++ replicate 4 0 ++ body))) body [] 16); [done| |
    rewrite length_app, be_bytes_length, Hp; done|lia]. by rewrite app_nil_r, <- app_assoc.
Qed.

Lemma read_uint16_value (s : bytes) off :
  bytes_ok s -> 0 <= off -> off + 2 <= zlen s -> read_uint16 s off = Some (be_value (slice s off 2)).
Proof.
  intros Hok Hoff Hfit. unfold read_uint16.
  destruct (rd_some s off ltac:(lia)) as [b0 E0]. destruct (rd_some s (off + 1) ltac:(lia)) as [b1 E1].
  assert (Hs : slice s off 2 = [b0; b1]).
  { rewrite (slice_cons s off 2 b0) by (done || lia). change (2 - 1) with 1.
    rewrite (slice_cons s (off + 1) 1 b1) by (done || lia). done. }
  assert (Hb : bytes_ok [b0; b1]) by (rewrite <- Hs; auto with pbns).
  apply bytes_ok_cons in Hb as [Hb0 Hb]. apply bytes_ok_cons in Hb as [Hb1 _].
  rewrite E0, E1, Hs. cbn [mbind option_bind]. f_equal. rewrite lor_shiftl8 by done. unfold be_value. cbn [fold_left].
  unfold u16, is_byte in *. rewrite Z.mod_small; lia.
Qed.

Lemma rd_slice_1 (l : bytes) i x : rd l i = Some x -> slice l i 1 = [x].
Proof.
  intros E. assert (0 <= i) by (unfold rd in E; destruct (Z.leb_spec 0 i); [lia|done]).
  rewrite (slice_cons l i 1 x) by (done || lia). unfold slice. by rewrite take_0.
Qed.

(** A refused record: the storage and the result are as for a failure. *)
Ltac refuse := eexists _, _, _; split; [reflexivity|]; left; done.

Lemma boot_config_decode_cases (encoded : pbns_view) (storage : pbns_buffer) :
  bytes_ok (v_data encoded) ->
  exists st data config, boot_config_decode encoded storage = Some (st, data, config)
  /\ (st <> PBNS_OK /\ data = b_data storage /\ config = zero_config
      \/ st = PBNS_OK /\ exists option path, v_data encoded = config_wire option path
        /\ 0 <= option <= UINT16_MAX /\ 0 < zlen path <= PBNS_BOOT_CONFIG_PATH_CAP /\ zlen path <= b_cap storage
        /\ config = mk_config option (mk_view (b_ptr storage) path)
        /\ data = path ++ drop (length path) (b_data storage)).
Proof.
  intros Hok. unfold boot_config_decode, v_len, b_cap, PBNS_BOOT_CONFIG_HEADER_SIZE, PBNS_BOOT_CONFIG_ENCODED_CAP,
    PBNS_BOOT_CONFIG_HEADER_SIZE, PBNS_BOOT_CONFIG_PATH_CAP, PBNS_BOOT_CONFIG_VERSION.
  set (l := v_data encoded) in *.
  destruct (_ || _) eqn:Hlen; [refuse|]. bools. rewrite rd_slice_inside by lia. cbn [mbind option_bind].
  destruct (bytes_eqb _ _) eqn:Hm; [|refuse]. apply bytes_eqb_spec in Hm. cbn [negb].
  destruct (rd_some l 4 ltac:(lia)) as [ver Ever]. rewrite Ever. cbn [mbind option_bind].
  destruct (Z.eqb_spec ver 1) as [->|]; [|refuse]. cbn [negb].
  destruct (rd_some l 5 ltac:(lia)) as [res Eres]. rewrite Eres. cbn [mbind option_bind].
  destruct (Z.eqb_spec res 0) as [->|]; [|refuse]. cbn [negb].
  rewrite (read_u32_be_value l 8) by (done || lia). cbn [mbind option_bind]. set (size := be_value (slice l 8 4)).
  destruct (_ || _ || _) eqn:Hsize; [refuse|]. bools.
  destruct (Z.ltb_spec (zlen (b_data storage)) size); [refuse|].
  destruct (seal_checked l (Z.to_nat (16 + 4096)) Hok ltac:(lia)) as (crc & scratch & E1 & E2 & (mem & E3) & Hseal).
  rewrite E1. cbn [mbind option_bind]. rewrite E2. cbn [mbind option_bind]. rewrite E3. cbn [mbind option_bind].
  clear E1 E2 E3. destruct (Z.eqb_spec crc (be_value (slice l 12 4))) as [Hc|]; [|refuse]. cbn [negb].
  apply Hseal in Hc. clear Hseal. rewrite (rd_slice_inside l 16 size) by lia. cbn [mbind option_bind]. unfold copy_bytes.
  set (path := slice l 16 size). assert (Hp : zlen path = size) by (apply slice_length; lia).
  rewrite (store_at (b_data storage) [] (take (length path) (b_data storage)) (drop (length path) (b_data storage)));
    [|by rewrite app_nil_l, take_drop|done|rewrite length_take; lia]. cbn [mbind option_bind].
  rewrite app_nil_l, (read_uint16_value l 6) by (done || lia). cbn [mbind option_bind].
  rewrite rd_slice_prefix by done. cbn [mbind option_bind]. eexists _, _, _. split; [reflexivity|]. right. split; [done|].
  pose proof (be_value_bound _ (bytes_ok_slice l 6 2 Hok)) as Hb.
  rewrite slice_length in Hb by lia. change (256 ^ 2) with 65536 in Hb.
  exists (be_value (slice l 6 2)), path. split_and!; try done; unfold UINT16_MAX; try lia.
  - etransitivity; [exact Hc|]. unfold config_wire. replace (zlen l - 16) with size by lia. fold path. f_equal.
    change 12 with (4 + (1 + (1 + (2 + 4)))). rewrite !slice_split by lia. cbn [Z.add Pos.add Pos.succ].
    change (0 + 4) with 4. change (4 + 1) with 5. change (5 + 1) with 6. change (6 + 2) with 8.
    rewrite Hm, (rd_slice_1 l 4 1), (rd_slice_1 l 5 0) by done. unfold config_header. rewrite Hp. unfold size.
    pose proof (be_bytes_of_slice l 6 2 Hok ltac:(lia) ltac:(lia) ltac:(lia)) as E6. change (Z.to_nat 2) with 2%nat in E6.
    pose proof (be_bytes_of_slice l 8 4 Hok ltac:(lia) ltac:(lia) ltac:(lia)) as E8. change (Z.to_nat 4) with 4%nat in E8.
    by rewrite E6, E8.
Qed.

(** The decoder inverts the encoder. *)
Lemma boot_config_decode_wire (encoded : pbns_view) (storage : pbns_buffer) option (path : bytes) :
  bytes_ok (v_data encoded) -> v_data encoded = config_wire option path -> 0 <= option <= UINT16_MAX ->
  0 < zlen path <= PBNS_BOOT_CONFIG_PATH_CAP -> zlen path <= b_cap storage ->
  boot_config_decode encoded storage
  = Some (PBNS_OK, path ++ drop (length path) (b_data storage), mk_config option (mk_view (b_ptr storage) path)).
Proof.
  intros Hok El Ho Hp Hcap. unfold boot_config_decode, v_len, b_cap, PBNS_BOOT_CONFIG_HEADER_SIZE,
    PBNS_BOOT_CONFIG_ENCODED_CAP, PBNS_BOOT_CONFIG_HEADER_SIZE, PBNS_BOOT_CONFIG_PATH_CAP, PBNS_BOOT_CONFIG_VERSION in *.
  set (l := v_data encoded) in *.
  set (crc := crc32c_bytes (config_header option (zlen path) ++ replicate 4 0 ++ path)).
  assert (Es : l = boot_config_magic ++ [1] ++ [0] ++ be_bytes 2 option ++ be_bytes 4 (zlen path) ++ be_bytes 4 crc ++ path)
    by (rewrite El; unfold config_wire, seal, config_header at 1; by rewrite <- !app_assoc).
  assert (Hl : zlen l = 16 + zlen path).
  { rewrite El. unfold config_wire. rewrite seal_length by apply config_header_length. lia. }
  rewrite (proj2 (Z.ltb_ge _ _)), (proj2 (Z.ltb_ge _ _)) by lia. cbn [orb].
  rewrite rd_slice_inside by lia. rewrite (slice_eq l [] boot_config_magic _ 0 4 Es) by done.
  cbn [mbind option_bind]. rewrite bytes_eqb_refl. cbn [negb].
  rewrite (rd_eq l boot_config_magic 1 _ 4 Es) by done. cbn [mbind option_bind Z.eqb Pos.eqb negb].
  rewrite (rd_eq l (boot_config_magic ++ [1]) 0 (be_bytes 2 option ++ be_bytes 4 (zlen path) ++ be_bytes 4 crc ++ path) 5)
    by (done || by rewrite Es, <- app_assoc). cbn [mbind option_bind Z.eqb negb].
  rewrite (read_u32_be_value l 8) by (done || lia).
  rewrite (slice_eq l (boot_config_magic ++ [1; 0] ++ be_bytes 2 option) (be_bytes 4 (zlen path)) (be_bytes 4 crc ++ path))
    by (rewrite ?be_bytes_length, ?length_app, ?be_bytes_length; done || by rewrite Es, <- !app_assoc).
  rewrite be_value_bytes_u32 by (unfold UINT32_MAX; lia). cbn [mbind option_bind].
  rewrite (proj2 (Z.eqb_neq _ 0)), (proj2 (Z.ltb_ge 4096 _)), (proj2 (Z.eqb_eq (zlen path) (zlen l - 16))) by lia.
  cbn [orb negb]. rewrite (proj2 (Z.ltb_ge _ (zlen path))) by lia.
  rewrite sealed_passes with (pre := config_header option (zlen path)) (body := path);
    [|done|done|apply config_header_length|lia]. cbn [negb].
  assert (Ep : l = (boot_config_magic ++ [1; 0] ++ be_bytes 2 option ++ be_bytes 4 (zlen path) ++ be_bytes 4 crc) ++ path ++ [])
    by (rewrite app_nil_r, Es, <- !app_assoc; done).
  rewrite rd_slice_inside by lia. rewrite (slice_eq _ _ _ _ _ _ Ep)
    by (rewrite ?length_app, ?be_bytes_length; done). cbn [mbind option_bind]. unfold copy_bytes.
  rewrite (store_at (b_data storage) [] (take (length path) (b_data storage)) (drop (length path) (b_data storage)));
    [|by rewrite app_nil_l, take_drop|done|rewrite length_take; lia]. cbn [mbind option_bind].
  rewrite app_nil_l, read_uint16_value by (done || lia). cbn [mbind option_bind].
  rewrite rd_slice_prefix by done. cbn [mbind option_bind].
  rewrite (slice_eq l (boot_config_magic ++ [1; 0]) (be_bytes 2 option) (be_bytes 4 (zlen path) ++ be_bytes 4 crc ++ path))
    by (rewrite ?be_bytes_length; done || by rewrite Es, <- !app_assoc).
  rewrite be_value_bytes. change (256 ^ Z.of_nat 2) with 65536. unfold UINT16_MAX in Ho. by rewrite Z.mod_small by lia.
Qed.

Lemma forallb_zero (l : bytes) : forallb (fun b => b =? 0) l = true -> l = replicate (length l) 0.
Proof.
  induction l as [|b l IH]; [done|]. cbn [forallb]. intros [->%Z.eqb_eq H]%andb_true_iff. cbn [length replicate]. f_equal. auto.
Qed.

Lemma failure_header_length stage : length (failure_header stage) = 12%nat.
Proof. done. Qed.

Lemma boot_failure_decode_cases (encoded : pbns_view) :
  bytes_ok (v_data encoded) ->
  exists st failure, boot_failure_decode encoded = Some (st, failure)
  /\ (st <> PBNS_OK /\ failure = zero_failure
      \/ st = PBNS_OK /\ v_data encoded = failure_wire (bf_stage failure) (bf_platform_status failure)
        /\ bf_stage failure <> 0 /\ is_byte (bf_stage failure) /\ 0 <= bf_platform_status failure <= UINT64_MAX).
Proof.
  intros Hok. unfold boot_failure_decode, v_len, PBNS_BOOT_FAILURE_ENCODED_SIZE, PBNS_BOOT_CONFIG_VERSION.
  set (l := v_data encoded) in *.
  destruct (Z.eqb_spec (zlen l) 24) as [Hl|]; cbn [negb]; [|eexists _, _; split; [reflexivity|]; by left].
  rewrite (rd_slice_inside l 0 4) by lia. cbn [mbind option_bind].
  destruct (bytes_eqb _ _) eqn:Hm; cbn [negb]; [|eexists _, _; split; [reflexivity|]; by left].
  apply bytes_eqb_spec in Hm.
  destruct (rd_some l 4 ltac:(lia)) as [ver Ever]. rewrite Ever. cbn [mbind option_bind].
  destruct (Z.eqb_spec ver 1) as [->|]; cbn [negb]; [|eexists _, _; split; [reflexivity|]; by left].
  destruct (rd_some l 5 ltac:(lia)) as [stage Est]. rewrite Est. cbn [mbind option_bind].
  destruct (Z.eqb_spec stage 0); [eexists _, _; split; [reflexivity|]; by left|].
  rewrite rd_slice_inside by lia. cbn [mbind option_bind].
  destruct (forallb _ _) eqn:Hz; cbn [negb]; [|eexists _, _; split; [reflexivity|]; by left].
  apply forallb_zero in Hz. rewrite <- (Nat2Z.id (length (slice l 6 6))), slice_length in Hz by lia.
  destruct (seal_checked l (Z.to_nat 24) Hok ltac:(lia)) as (crc & scratch & E1 & E2 & (mem & E3) & Hseal).
  rewrite E1. cbn [mbind option_bind]. rewrite E2. cbn [mbind option_bind]. rewrite E3. cbn [mbind option_bind].
  clear E1 E2 E3. destruct (Z.eqb_spec crc (be_value (slice l 12 4))) as [Hc|]; cbn [negb];
    [|eexists _, _; split; [reflexivity|]; by left].
  apply Hseal in Hc. clear Hseal. rewrite read_u64_be_value by (done || lia). cbn [mbind option_bind].
  eexists _, _. split; [reflexivity|]. right. cbn [bf_stage bf_platform_status].
  pose proof (be_value_bound _ (bytes_ok_slice l 16 8 Hok)) as Hb. rewrite slice_length in Hb by lia.
  change (256 ^ 8) with (UINT64_MAX + 1) in Hb.
  assert (Hbyte : bytes_ok [stage]) by (rewrite <- (rd_slice_1 l 5 stage) by done; auto with pbns).
  apply bytes_ok_cons in Hbyte as [Hbyte _]. split; [done|]. split_and!; try done; try lia.
  etransitivity; [exact Hc|]. unfold failure_wire. replace (zlen l - 16) with 8 by lia.
  pose proof (be_bytes_of_slice l 16 8 Hok ltac:(lia) ltac:(lia) ltac:(lia)) as E16. change (Z.to_nat 8) with 8%nat in E16.
  rewrite E16. f_equal. change 12 with (4 + (1 + (1 + 6))). rewrite !slice_split by lia.
  change (0 + 4) with 4. change (4 + 1) with 5. change (5 + 1) with 6.
  rewrite Hm, (rd_slice_1 l 4 1), (rd_slice_1 l 5 stage), Hz by done. done.
Qed.

Lemma boot_failure_decode_wire (encoded : pbns_view) stage platform_status :
  bytes_ok (v_data encoded) -> v_data encoded = failure_wire stage platform_status -> stage <> 0 ->
  0 <= platform_status <= UINT64_MAX -> boot_failure_decode encoded = Some (PBNS_OK, mk_failure stage platform_status).
Proof.
  intros Hok El Hs Hp. unfold boot_failure_decode, v_len, PBNS_BOOT_FAILURE_ENCODED_SIZE, PBNS_BOOT_CONFIG_VERSION.
  set (l := v_data encoded) in *.
  assert (Hl : zlen l = 24) by (rewrite El; unfold failure_wire; by rewrite seal_length, be_bytes_length).
  rewrite (proj2 (Z.eqb_eq _ 24) Hl). cbn [negb].
  set (crc := crc32c_bytes (failure_header stage ++ replicate 4 0 ++ be_bytes 8 platform_status)).
  assert (Es : l = boot_failure_magic ++ [1] ++ [stage] ++ replicate 6 0 ++ be_bytes 4 crc ++ be_bytes 8 platform_status)
    by (rewrite El; unfold failure_wire, seal, failure_header at 1; by rewrite <- !app_assoc).
  rewrite (rd_slice_inside l 0 4) by lia. rewrite (slice_eq l [] boot_failure_magic _ 0 4 Es) by done.
  cbn [mbind option_bind]. rewrite bytes_eqb_refl. cbn [negb].
  rewrite (rd_eq l boot_failure_magic 1 _ 4 Es) by done. cbn [mbind option_bind Z.eqb Pos.eqb negb].
  rewrite (rd_eq l (boot_failure_magic ++ [1]) stage (replicate 6 0 ++ be_bytes 4 crc ++ be_bytes 8 platform_status) 5)
    by (done || by rewrite Es, <- app_assoc). cbn [mbind option_bind]. rewrite (proj2 (Z.eqb_neq _ 0) Hs).
  rewrite (rd_slice_inside l 6 6) by lia.
  rewrite (slice_eq l (boot_failure_magic ++ [1; stage]) (replicate 6 0) (be_bytes 4 crc ++ be_bytes 8 platform_status))
    by (done || by rewrite Es, <- app_assoc). cbn [mbind option_bind forallb replicate Z.eqb andb negb].
  rewrite sealed_passes with (pre := failure_header stage) (body := be_bytes 8 platform_status); [|done|done|done|lia].
  rewrite read_u64_be_value by (done || lia).
  rewrite (slice_eq l (failure_header stage ++ be_bytes 4 crc) (be_bytes 8 platform_status) [])
    by (rewrite ?length_app, ?be_bytes_length; done || by rewrite app_nil_r, <- app_assoc, El).
  cbn [mbind option_bind]. by rewrite be_value_bytes_u64.
Qed.

(** ** Correctness *)

Lemma seal_ok pre body : bytes_ok pre -> bytes_ok body -> bytes_ok (seal pre body).
Proof. intros. unfold seal. octets. Qed.

Lemma config_wire_ok option path : bytes_ok path -> bytes_ok (config_wire option path).
Proof. intros. apply seal_ok; [|done]. unfold config_header. octets; by repeat constructor. Qed.

Lemma failure_wire_ok stage platform_status : is_byte stage -> bytes_ok (failure_wire stage platform_status).
Proof.
  intros. apply seal_ok; [|apply be_bytes_ok]. unfold failure_header. apply bytes_ok_app. split; [by repeat constructor|].
  apply bytes_ok_cons. split; [done|]. apply bytes_ok_cons. split; [done|by repeat constructor].
Qed.


(** What the encoder of the configuration writes, the decoder gives back:
    for a path of between one and 4096 octets and an output with room for it,
    the encoder succeeds, reports the octets it wrote and leaves the rest of the
    output alone, and decoding those octets returns the option and the path. *)
Theorem boot_config_roundtrip (config : pbns_boot_config) (output storage : pbns_buffer) (address : Z) :
  let path := v_data (bc_recovery_device_path config) in
  config_ok config output -> bytes_ok path -> 0 <= bc_normal_boot_option config <= UINT16_MAX -> zlen path <= b_cap storage ->
  exists data written, boot_config_encode config output = Some (PBNS_OK, data, written)
  /\ written = PBNS_BOOT_CONFIG_HEADER_SIZE + zlen path /\ drop (Z.to_nat written) data = drop (Z.to_nat written) (b_data output)
  /\ boot_config_decode (mk_view address (take (Z.to_nat written) data)) storage
     = Some (PBNS_OK, path ++ drop (length path) (b_data storage),
             mk_config (bc_normal_boot_option config) (mk_view (b_ptr storage) path)).
Proof.
  intros path Hcfg Hok Ho Hcap. pose proof (boot_config_encode_ok config output Hcfg) as E. cbn zeta in E. fold path in E.
  destruct Hcfg as (_ & _ & _ & Hp & _). unfold v_len in Hp. fold path in Hp.
  eexists _, _. split; [exact E|]. split; [done|].
  set (w := config_wire _ _) in *.
  assert (Hw : length w = (16 + length path)%nat) by (apply seal_length, config_header_length).
  replace (Z.to_nat _) with (length w) by (unfold PBNS_BOOT_CONFIG_HEADER_SIZE; lia).
  rewrite drop_app_length, take_app_length. split; [by rewrite Hw|].
  apply boot_config_decode_wire; try done. by apply config_wire_ok.
Qed.

(** The failure record survives the round trip: a nonzero stage and a
    platform status are encoded into 24 octets that the decoder maps back to
    them, and the decoder refuses every other record, returning the empty
    failure. *)
Theorem boot_failure_roundtrip (failure : pbns_boot_failure) (output : pbns_buffer) (encoded : pbns_view) :
  failure_ok failure output -> is_byte (bf_stage failure) -> 0 <= bf_platform_status failure <= UINT64_MAX ->
  bytes_ok (v_data encoded) ->
  exists data, boot_failure_encode failure output = Some (PBNS_OK, data, PBNS_BOOT_FAILURE_ENCODED_SIZE)
  /\ (forall address, boot_failure_decode (mk_view address (take 24 data)) = Some (PBNS_OK, failure))
  /\ (v_data encoded <> take 24 data ->
      boot_failure_decode encoded <> Some (PBNS_OK, failure)
      /\ exists st other, boot_failure_decode encoded = Some (st, other) /\ (st <> PBNS_OK -> other = zero_failure)).
Proof.
  intros Hf Hb Hp Hok. rewrite boot_failure_encode_ok by done. eexists. split; [done|].
  set (w := failure_wire _ _). assert (Hw : length w = 24%nat) by (by unfold w, failure_wire; rewrite seal_length, be_bytes_length).
  rewrite <- Hw, take_app_length. destruct Hf as (_ & _ & Hs & _). split.
  - intros address. destruct failure as [stage status].
    apply (boot_failure_decode_wire (mk_view address w)); [by apply failure_wire_ok|done..].
  - intros Hne. destruct (boot_failure_decode_cases encoded Hok) as (st & other & E & Hcase). split; [|naive_solver].
    rewrite E. intros [= -> ->]. destruct Hcase as [[? _]|(_ & Hl & _)]; [done|]. by apply Hne.
Qed.

(** ** Witnesses *)

Definition ex_config : pbns_boot_config := mk_config 258 (mk_view 64 [4; 3; 2; 1]).
Definition ex_config_output : pbns_buffer := mk_buffer 128 0 (replicate 22 170).
Definition ex_config_storage : pbns_buffer := mk_buffer 256 0 (replicate 6 187).

Lemma boot_config_roundtrip_witness :
  exists data, boot_config_encode ex_config ex_config_output = Some (PBNS_OK, data, 20)
  /\ boot_config_decode (mk_view 128 (take 20 data)) ex_config_storage
     = Some (PBNS_OK, [4; 3; 2; 1; 187; 187], mk_config 258 (mk_view 256 [4; 3; 2; 1])).
Proof.
  destruct (boot_config_roundtrip ex_config ex_config_output ex_config_storage 128) as (data & w & E & -> & _ & D).
  - unfold config_ok. split_and!; done.
  - by repeat constructor.
  - done.
  - done.
  - exists data. split; [exact E|exact D].
Defined.


Lemma boot_failure_roundtrip_witness :
  exists data, boot_failure_encode (mk_failure 2 9) (mk_buffer 128 0 (replicate 24 0)) = Some (PBNS_OK, data, 24)
  /\ boot_failure_decode (mk_view 128 (take 24 data)) = Some (PBNS_OK, mk_failure 2 9).
Proof.
  destruct (boot_failure_roundtrip (mk_failure 2 9) (mk_buffer 128 0 (replicate 24 0)) null_view) as (data & E & D & _).
  - unfold failure_ok. split_and!; done.
  - done.
  - done.
  - constructor.
  - exists data. split; [exact E|apply D].
Defined.

Example ex_boot_config_wire :
  (option_map (fun r => take 20 (snd (fst r))) (boot_config_encode ex_config ex_config_output))
  = Some (config_wire 258 [4; 3; 2; 1]).
Proof. vm_compute. reflexivity. Qed.
