(* ===== verification/Launcher.v ===== *)
(** * Boot launcher ([include/pbns/launcher.h], [src/core/launcher.c])

    The launcher starts the normal boot option and, when that fails or comes
    back, records the failure and starts the recovery image.  The firmware is a
    set of callbacks over a world [W].  The theorems describe the calls the
    launcher makes: the callbacks are wrapped so that each call is logged, and
    the log is compared with the sequences a launch may have. *)

From stdpp Require Import base list numbers.
From Stdlib Require Import ZArith Lia.
From S2P Require Import Prelude Status Buffers.

(** ** The code *)

Definition PBNS_LAUNCHER_MAX_DEVICE_PATH_SIZE : Z := 4096.

Inductive pbns_launcher_target := PBNS_LAUNCHER_TARGET_NORMAL | PBNS_LAUNCHER_TARGET_RECOVERY.

Inductive pbns_launcher_stage :=
| PBNS_LAUNCHER_STAGE_NONE
| PBNS_LAUNCHER_STAGE_READ_CONFIG
| PBNS_LAUNCHER_STAGE_VALIDATE_CONFIG
| PBNS_LAUNCHER_STAGE_LOAD_NORMAL
| PBNS_LAUNCHER_STAGE_START_NORMAL
| PBNS_LAUNCHER_STAGE_LOAD_RECOVERY
| PBNS_LAUNCHER_STAGE_START_RECOVERY.

Inductive pbns_launcher_outcome :=
| PBNS_LAUNCHER_OUTCOME_FAILED
| PBNS_LAUNCHER_OUTCOME_NORMAL_TRANSFERRED
| PBNS_LAUNCHER_OUTCOME_RECOVERY_TRANSFERRED.

Record pbns_launcher_config := mk_launcher_config {
  lc_normal_boot_option : Z;
  lc_recovery_device_path : pbns_view;
  lc_self_reference : bool;
}.
Definition zero_launcher_config : pbns_launcher_config := mk_launcher_config 0 null_view false.

Record pbns_launcher_result := mk_launcher_result {
  lr_outcome : pbns_launcher_outcome;
  lr_stage : pbns_launcher_stage;
  lr_original_stage : pbns_launcher_stage;
  lr_original_platform_status : Z;
  lr_recovery_platform_status : Z;
}.

(** Images are addresses, with [0] for [NULL].  A callback gets the values its
    output parameters point to and returns the new ones. *)
Record pbns_launcher_ops (W : Type) := mk_launcher_ops {
  lo_read_config : ptr (W -> pbns_launcher_config -> Z -> pbns_status * pbns_launcher_config * Z * W);
  lo_load : ptr (W -> pbns_launcher_target -> pbns_launcher_config -> Z -> Z -> pbns_status * Z * Z * W);
  lo_start : ptr (W -> pbns_launcher_target -> Z -> bool -> Z -> pbns_status * bool * Z * W);
  lo_record_failure : ptr (W -> pbns_launcher_stage -> Z -> W);
  lo_unload : ptr (W -> pbns_launcher_target -> Z -> W);
}.
Arguments mk_launcher_ops {W}.
Arguments lo_read_config {W}.
Arguments lo_load {W}.
Arguments lo_start {W}.
Arguments lo_record_failure {W}.
Arguments lo_unload {W}.

Definition config_valid (config : pbns_launcher_config) : bool :=
  negb (lc_self_reference config
        || (v_ptr (lc_recovery_device_path config) =? 0)
        || (v_len (lc_recovery_device_path config) =? 0)
        || (PBNS_LAUNCHER_MAX_DEVICE_PATH_SIZE <? v_len (lc_recovery_device_path config))).

Definition ops_valid {W} (ops : ptr (pbns_launcher_ops W)) : bool :=
  match ops with
  | Some (mk_launcher_ops (Some _) (Some _) (Some _) (Some _) (Some _)) => true
  | _ => false
  end.

Section run.
Context {W : Type}.
Variables (ops : pbns_launcher_ops W) (unexpected_return_status : Z).

(** A call of a [NULL] callback has no result. *)
Definition load_image (target : pbns_launcher_target) (config : pbns_launcher_config) (image : Z) (w : W)
  : option (pbns_status * Z * Z * W) :=
  load ← lo_load ops;
  unload ← lo_unload ops;
  let '(status, image, platform_status, w) := load w target config image 0 in
  let '(status, platform_status) :=
    if is_ok status && (image =? 0) then (PBNS_ERR_STATE, unexpected_return_status) else (status, platform_status) in
  let '(image, w) :=
    if negb (is_ok status) && negb (image =? 0) then (0, unload w target image) else (image, w) in
  Some (status, image, platform_status, w).

(** The status and platform status of the start, whether control was
    transferred, and the image, which is unloaded when it was not. *)
Definition start_image (target : pbns_launcher_target) (image : Z) (w : W)
  : option (pbns_status * bool * Z * W) :=
  start ← lo_start ops;
  unload ← lo_unload ops;
  let '(status, returned, platform_status, w) := start w target image true 0 in
  if is_ok status && negb returned then Some (PBNS_OK, true, platform_status, w)
  else
  let w := unload w target image in
  if is_ok status then Some (PBNS_ERR_STATE, false, unexpected_return_status, w)
  else Some (status, false, platform_status, w).

Definition run_recovery (config : pbns_launcher_config) (original_status : pbns_status)
    (original_stage : pbns_launcher_stage) (original_platform_status : Z) (w : W)
  : option (pbns_status * pbns_launcher_result * W) :=
  record_failure ← lo_record_failure ops;
  let w := record_failure w original_stage original_platform_status in
  let result outcome stage recovery :=
    mk_launcher_result outcome stage original_stage original_platform_status recovery in
  '(status, image, platform_status, w) ← load_image PBNS_LAUNCHER_TARGET_RECOVERY config 0 w;
  if negb (is_ok status)
  then Some (original_status,
             result PBNS_LAUNCHER_OUTCOME_FAILED PBNS_LAUNCHER_STAGE_LOAD_RECOVERY platform_status, w)
  else
  '(_, transferred, platform_status, w) ← start_image PBNS_LAUNCHER_TARGET_RECOVERY image w;
  if (transferred : bool)
  then Some (PBNS_OK, result PBNS_LAUNCHER_OUTCOME_RECOVERY_TRANSFERRED PBNS_LAUNCHER_STAGE_NONE 0, w)
  else Some (original_status,
             result PBNS_LAUNCHER_OUTCOME_FAILED PBNS_LAUNCHER_STAGE_START_RECOVERY platform_status, w).

Definition launcher_run (w : W) : option (pbns_status * pbns_launcher_result * W) :=
  read_config ← lo_read_config ops;
  let failed stage original platform_status :=
    mk_launcher_result PBNS_LAUNCHER_OUTCOME_FAILED stage original platform_status 0 in
  let '(status, config, platform_status, w) := read_config w zero_launcher_config 0 in
  if negb (is_ok status)
  then Some (status, failed PBNS_LAUNCHER_STAGE_READ_CONFIG PBNS_LAUNCHER_STAGE_READ_CONFIG platform_status, w)
  else if negb (config_valid config)
  then Some (if lc_self_reference config then PBNS_ERR_STATE else PBNS_ERR_FORMAT,
             failed PBNS_LAUNCHER_STAGE_VALIDATE_CONFIG PBNS_LAUNCHER_STAGE_VALIDATE_CONFIG 0, w)
  else
  '(status, image, platform_status, w) ← load_image PBNS_LAUNCHER_TARGET_NORMAL config 0 w;
  if negb (is_ok status)
  then run_recovery config status PBNS_LAUNCHER_STAGE_LOAD_NORMAL platform_status w
  else
  '(status, transferred, platform_status, w) ← start_image PBNS_LAUNCHER_TARGET_NORMAL image w;
  if (transferred : bool)
  then Some (PBNS_OK, mk_launcher_result PBNS_LAUNCHER_OUTCOME_NORMAL_TRANSFERRED PBNS_LAUNCHER_STAGE_NONE
                        PBNS_LAUNCHER_STAGE_NONE 0 0, w)
  else run_recovery config status PBNS_LAUNCHER_STAGE_START_NORMAL platform_status w.
End run.

Definition pbns_launcher_run {W} (ops : ptr (pbns_launcher_ops W)) (context : ptr W) (unexpected_return_status : Z)
    (result : ptr pbns_launcher_result) : option (pbns_status * ptr pbns_launcher_result * ptr W) :=
  match ops, context, result with
  | Some ops', Some w, Some _ =>
      if negb (ops_valid ops) then Some (PBNS_ERR_ARGUMENT, result, context)
      else '(status, result, w) ← launcher_run ops' unexpected_return_status w; Some (status, Some result, Some w)
  | _, _, _ => Some (PBNS_ERR_ARGUMENT, result, context)
  end.

(** ** The calls of a launch *)

Inductive call :=
| ReadConfig (config : pbns_launcher_config) (status : pbns_status) (platform_status : Z)
| Load (target : pbns_launcher_target) (config : pbns_launcher_config) (image : Z) (status : pbns_status)
    (platform_status : Z)
| Start (target : pbns_launcher_target) (image : Z) (returned : bool) (status : pbns_status) (platform_status : Z)
| RecordFailure (stage : pbns_launcher_stage) (platform_status : Z)
| Unload (target : pbns_launcher_target) (image : Z).

(** The callbacks, with every call and its results appended to a log. *)
Definition logged {W} (ops : pbns_launcher_ops W) : pbns_launcher_ops (W * list call) :=
  mk_launcher_ops
    ((fun f '(w, log) config ps =>
        let '(st, config, ps, w) := f w config ps in (st, config, ps, (w, log ++ [ReadConfig config st ps])))
     <$> lo_read_config ops)
    ((fun f '(w, log) t config im ps =>
        let '(st, im, ps, w) := f w t config im ps in (st, im, ps, (w, log ++ [Load t config im st ps])))
     <$> lo_load ops)
    ((fun f '(w, log) t im ret ps =>
        let '(st, ret, ps, w) := f w t im ret ps in (st, ret, ps, (w, log ++ [Start t im ret st ps])))
     <$> lo_start ops)
    ((fun f '(w, log) stage ps => (f w stage ps, log ++ [RecordFailure stage ps])) <$> lo_record_failure ops)
    ((fun f '(w, log) t im => (f w t im, log ++ [Unload t im])) <$> lo_unload ops).

(** How the attempt to run one target may go.  [Refused started status ps]
    ends it, before or after the image was started. *)
Inductive attempt_end := Transferred | Refused (started : bool) (status : pbns_status) (platform_status : Z).

Inductive attempt (unexpected : Z) (t : pbns_launcher_target) (config : pbns_launcher_config)
  : list call -> attempt_end -> Prop :=
| attempt_not_loaded st ps :
    st <> PBNS_OK -> attempt unexpected t config [Load t config 0 st ps] (Refused false st ps)
| attempt_load_failed im st ps :
    st <> PBNS_OK -> im <> 0 ->
    attempt unexpected t config [Load t config im st ps; Unload t im] (Refused false st ps)
| attempt_no_image ps :
    attempt unexpected t config [Load t config 0 PBNS_OK ps] (Refused false PBNS_ERR_STATE unexpected)
| attempt_transferred im ps ps' :
    im <> 0 ->
    attempt unexpected t config [Load t config im PBNS_OK ps; Start t im false PBNS_OK ps'] Transferred
| attempt_returned im ps ps' :
    im <> 0 ->
    attempt unexpected t config [Load t config im PBNS_OK ps; Start t im true PBNS_OK ps'; Unload t im]
      (Refused true PBNS_ERR_STATE unexpected)
| attempt_start_failed im ps ret st ps' :
    im <> 0 -> st <> PBNS_OK ->
    attempt unexpected t config [Load t config im PBNS_OK ps; Start t im ret st ps'; Unload t im]
      (Refused true st ps').

Section calls.
Context {W : Type}.
Variables (ops : pbns_launcher_ops W) (unexpected : Z).
Hypothesis Hops : ops_valid (Some ops) = true.

(** One attempt, as the code makes it: load, then start. *)
Lemma load_image_calls t config w log :
  exists st im ps w' l, load_image (logged ops) unexpected t config 0 (w, log) = Some (st, im, ps, (w', log ++ l))
  /\ (is_ok st = true /\ im <> 0 /\ (exists ps', l = [Load t config im PBNS_OK ps'])
      \/ is_ok st = false /\ attempt unexpected t config l (Refused false st ps)).
Proof.
  destruct ops as [[rc|] [ld|] [sr|] [rf|] [ul|]]; try done. unfold load_image. cbn.
  destruct (ld w t config 0 0) as [[[st im] ps] w'] eqn:E.
  destruct (is_ok st) eqn:Hst; cbn; destruct (Z.eqb_spec im 0) as [->|Him]; cbn; rewrite ?Hst; cbn.
  - apply is_ok_spec in Hst as ->. eexists _, _, _, _, _. split; [done|]. right. split; [done|]. apply attempt_no_image.
  - apply is_ok_spec in Hst as ->. eexists _, _, _, _, _. split; [done|]. left. eauto.
  - eexists _, _, _, _, _. split; [done|]. right. split; [done|]. by apply attempt_not_loaded, is_ok_false.
  - rewrite <- app_assoc. eexists _, _, _, _, _. split; [done|]. right. split; [done|].
    by apply attempt_load_failed; [apply is_ok_false|].
Qed.

Lemma start_image_calls t config im ps0 w log :
  im <> 0 ->
  exists st (tr : bool) ps w' l, start_image (logged ops) unexpected t im (w, log) = Some (st, tr, ps, (w', log ++ l))
  /\ attempt unexpected t config (Load t config im PBNS_OK ps0 :: l) (if tr then Transferred else Refused true st ps)
  /\ (tr = true -> st = PBNS_OK).
Proof.
  intros Him. destruct ops as [[rc|] [ld|] [sr|] [rf|] [ul|]]; try done. unfold start_image. cbn.
  destruct (sr w t im true 0) as [[[st ret] ps] w'] eqn:E.
  destruct (is_ok st) eqn:Hst; cbn; [apply is_ok_spec in Hst as ->; destruct ret; cbn|].
  - rewrite <- app_assoc. eexists _, false, _, _, _. split; [done|]. split; [|done]. by apply attempt_returned.
  - eexists _, true, _, _, _. split; [done|]. split; [|done]. by apply attempt_transferred.
  - rewrite ?Hst, <- app_assoc. eexists _, false, _, _, _. split; [done|]. split; [|done].
    by apply attempt_start_failed; [|apply is_ok_false].
Qed.

(** The recovery half: the failure is recorded, then recovery is attempted. *)
Definition recovery_post (config : pbns_launcher_config) (orig : pbns_status) (stage : pbns_launcher_stage) (ps : Z)
    (st : pbns_status) (r : pbns_launcher_result) (l : list call) : Prop :=
  lr_original_stage r = stage /\ lr_original_platform_status r = ps
  /\ exists l' fin, l = RecordFailure stage ps :: l' /\ attempt unexpected PBNS_LAUNCHER_TARGET_RECOVERY config l' fin
  /\ match fin with
     | Transferred => st = PBNS_OK /\ lr_outcome r = PBNS_LAUNCHER_OUTCOME_RECOVERY_TRANSFERRED
         /\ lr_stage r = PBNS_LAUNCHER_STAGE_NONE
     | Refused started _ ps' => st = orig /\ lr_outcome r = PBNS_LAUNCHER_OUTCOME_FAILED
         /\ lr_stage r = (if started then PBNS_LAUNCHER_STAGE_START_RECOVERY else PBNS_LAUNCHER_STAGE_LOAD_RECOVERY)
         /\ lr_recovery_platform_status r = ps'
     end.

Lemma run_recovery_calls config orig stage ps w log :
  exists st r w' l, run_recovery (logged ops) unexpected config orig stage ps (w, log) = Some (st, r, (w', log ++ l))
  /\ recovery_post config orig stage ps st r l.
Proof.
  unfold run_recovery. assert (exists rf, lo_record_failure ops = Some rf) as [rf Erf].
  { destruct ops as [[rc|] [ld|] [sr|] [rf|] [ul|]]; try done. by exists rf. }
  change (lo_record_failure (logged ops)) with
    ((fun f '(w, log) stage ps => (f w stage ps, log ++ [RecordFailure stage ps])) <$> lo_record_failure ops).
  rewrite Erf. cbn [fmap option_fmap option_map mbind option_bind].
  destruct (load_image_calls PBNS_LAUNCHER_TARGET_RECOVERY config (rf w stage ps) (log ++ [RecordFailure stage ps]))
    as (st1 & im & ps1 & w1 & l1 & E1 & [(Hok & Him & ps' & ->)|(Hok & Ha)]); rewrite E1; cbn [mbind option_bind]; rewrite Hok; cbn [negb].
  - destruct (start_image_calls PBNS_LAUNCHER_TARGET_RECOVERY config im ps' w1
      ((log ++ [RecordFailure stage ps]) ++ [Load PBNS_LAUNCHER_TARGET_RECOVERY config im PBNS_OK ps']) Him)
      as (st2 & tr & ps2 & w2 & l2 & E2 & Ha & _). rewrite E2. cbn [mbind option_bind].
    destruct tr; rewrite <- !app_assoc; eexists _, _, _, _; (split; [done|]); (split; [done|]); (split; [done|]);
      eexists _, _; (split; [done|]); (split; [exact Ha|]); done.
  - rewrite <- app_assoc. eexists _, _, _, _. split; [done|]. split; [done|]. split; [done|].
    eexists _, _. split; [done|]. split; [exact Ha|]. done.
Qed.
End calls.

(** What a launch does after it has read the configuration. *)
Definition launch_post (unexpected : Z) (config : pbns_launcher_config) (st0 : pbns_status) (ps0 : Z)
    (status : pbns_status) (result : pbns_launcher_result) (log : list call) : Prop :=
  (st0 <> PBNS_OK /\ status = st0 /\ log = [] /\ lr_outcome result = PBNS_LAUNCHER_OUTCOME_FAILED
     /\ lr_stage result = PBNS_LAUNCHER_STAGE_READ_CONFIG /\ lr_original_platform_status result = ps0)
  \/ (st0 = PBNS_OK /\ config_valid config = false /\ status <> PBNS_OK /\ log = []
     /\ lr_outcome result = PBNS_LAUNCHER_OUTCOME_FAILED /\ lr_stage result = PBNS_LAUNCHER_STAGE_VALIDATE_CONFIG)
  \/ (st0 = PBNS_OK /\ config_valid config = true /\ status = PBNS_OK
     /\ attempt unexpected PBNS_LAUNCHER_TARGET_NORMAL config log Transferred
     /\ lr_outcome result = PBNS_LAUNCHER_OUTCOME_NORMAL_TRANSFERRED /\ lr_stage result = PBNS_LAUNCHER_STAGE_NONE)
  \/ (st0 = PBNS_OK /\ config_valid config = true /\ exists started orig ps l1 l2, log = l1 ++ l2
     /\ attempt unexpected PBNS_LAUNCHER_TARGET_NORMAL config l1 (Refused started orig ps)
     /\ recovery_post unexpected config orig
          (if started then PBNS_LAUNCHER_STAGE_START_NORMAL else PBNS_LAUNCHER_STAGE_LOAD_NORMAL) ps status result l2).

Lemma launcher_run_calls {W} (ops : pbns_launcher_ops W) (unexpected : Z) (w : W) :
  ops_valid (Some ops) = true ->
  exists status result w' config st0 ps0 log,
    launcher_run (logged ops) unexpected (w, []) = Some (status, result, (w', ReadConfig config st0 ps0 :: log))
  /\ launch_post unexpected config st0 ps0 status result log.
Proof.
  intros Hops. assert (exists rc, lo_read_config ops = Some rc) as [rc Erc].
  { destruct ops as [[rc|] [ld|] [sr|] [rf|] [ul|]]; try done. by exists rc. }
  unfold launcher_run. change (lo_read_config (logged ops)) with
    ((fun f '(w, log) config ps =>
        let '(st, config, ps, w) := f w config ps in (st, config, ps, (w, log ++ [ReadConfig config st ps])))
     <$> lo_read_config ops).
  rewrite Erc. cbn [fmap option_fmap option_map mbind option_bind app].
  destruct (rc w zero_launcher_config 0) as [[[st0 config] ps0] w0] eqn:E0.
  destruct (is_ok st0) eqn:Hst0; cbn [negb].
  2:{ eexists _, _, _, _, _, _, _. split; [done|]. left. split_and!; try done. by apply is_ok_false. }
  apply is_ok_spec in Hst0 as ->. destruct (config_valid config) eqn:Hcfg; cbn [negb].
  2:{ eexists _, _, _, _, _, _, _. split; [done|]. right. left. split_and!; try done. by destruct (lc_self_reference config). }
  destruct (load_image_calls ops unexpected Hops PBNS_LAUNCHER_TARGET_NORMAL config w0 [ReadConfig config PBNS_OK ps0])
    as (st1 & im & ps1 & w1 & l1 & E1 & [(Hok & Him & ps' & ->)|(Hok & Ha)]); rewrite E1; cbn [mbind option_bind];
    rewrite Hok; cbn [negb].
  - destruct (start_image_calls ops unexpected Hops PBNS_LAUNCHER_TARGET_NORMAL config im ps' w1
      ([ReadConfig config PBNS_OK ps0] ++ [Load PBNS_LAUNCHER_TARGET_NORMAL config im PBNS_OK ps']) Him)
      as (st2 & tr & ps2 & w2 & l2 & E2 & Ha & _). rewrite E2. cbn [mbind option_bind].
    destruct tr; [eexists _, _, _, _, _, _, _; split; [done|]; right; right; left; done|].
    destruct (run_recovery_calls ops unexpected Hops config st2 PBNS_LAUNCHER_STAGE_START_NORMAL ps2 w2
      (([ReadConfig config PBNS_OK ps0] ++ [Load PBNS_LAUNCHER_TARGET_NORMAL config im PBNS_OK ps']) ++ l2))
      as (st3 & r & w3 & l3 & E3 & Hr). rewrite E3. rewrite <- !app_assoc.
    eexists _, _, _, _, _, _, _. split; [done|]. right. right. right. split; [done|]. split; [done|].
    exists true, st2, ps2, (Load PBNS_LAUNCHER_TARGET_NORMAL config im PBNS_OK ps' :: l2), l3. done.
  - destruct (run_recovery_calls ops unexpected Hops config st1 PBNS_LAUNCHER_STAGE_LOAD_NORMAL ps1 w1
      ([ReadConfig config PBNS_OK ps0] ++ l1)) as (st3 & r & w3 & l3 & E3 & Hr). rewrite E3. rewrite <- !app_assoc.
    eexists _, _, _, _, _, _, _. split; [done|]. right. right. right. split; [done|]. split; [done|].
    exists false, st1, ps1, l1, l3. done.
Qed.

(** C24: a launch, whatever the firmware callbacks answer, returns, and its calls
    are exactly these.  The configuration is read once and checked; without a
    valid one nothing is loaded.  The normal image is attempted.  Only when it
    did not take control is the failure recorded, once, with its stage and
    platform status, and recovery attempted.  The result names what happened,
    and when both fail the status is that of the normal image. *)
Theorem launcher_run_contract {W} (ops : pbns_launcher_ops W) (unexpected : Z) (w : W) :
  ops_valid (Some ops) = true ->
  exists status result w' config st0 ps0 log,
    launcher_run (logged ops) unexpected (w, []) = Some (status, result, (w', ReadConfig config st0 ps0 :: log))
  /\ launch_post unexpected config st0 ps0 status result log.
Proof. apply launcher_run_calls. Qed.

(** The images that are loaded after a sequence of calls. *)
Definition image_eqb (a b : pbns_launcher_target * Z) : bool :=
  match a.1, b.1 with
  | PBNS_LAUNCHER_TARGET_NORMAL, PBNS_LAUNCHER_TARGET_NORMAL
  | PBNS_LAUNCHER_TARGET_RECOVERY, PBNS_LAUNCHER_TARGET_RECOVERY => a.2 =? b.2
  | _, _ => false
  end.

Fixpoint drop_image (x : pbns_launcher_target * Z) (images : list (pbns_launcher_target * Z))
  : list (pbns_launcher_target * Z) :=
  match images with
  | [] => []
  | y :: images => if image_eqb x y then images else y :: drop_image x images
  end.

Definition after_call (images : list (pbns_launcher_target * Z)) (c : call) : list (pbns_launcher_target * Z) :=
  match c with
  | Load t _ im _ _ => if im =? 0 then images else (t, im) :: images
  | Unload t im => drop_image (t, im) images
  | _ => images
  end.

Definition images_after (log : list call) : list (pbns_launcher_target * Z) := foldl after_call [] log.

Lemma image_eqb_refl x : image_eqb x x = true.
Proof. destruct x as [[] im]; apply Z.eqb_refl. Qed.

(** An attempt leaves no image behind, or the one that runs. *)
Lemma attempt_images unexpected t config l fin images :
  attempt unexpected t config l fin ->
  match fin with
  | Transferred => exists im ps, im <> 0 /\ foldl after_call images l = (t, im) :: images
      /\ exists l', l = l' ++ [Start t im false PBNS_OK ps]
  | Refused _ st _ => st <> PBNS_OK /\ foldl after_call images l = images
  end.
Proof.
  intros Ha. destruct Ha; cbn [foldl after_call Z.eqb]; try done;
    rewrite ?(proj2 (Z.eqb_neq im 0)) by done; cbn [drop_image]; rewrite ?image_eqb_refl; try done.
  eexists _, _. split; [done|]. split; [done|]. by eexists [_].
Qed.

(** A launch leaks no image.  When it does not succeed every image that was
    loaded has been unloaded; when it succeeds exactly one image is loaded, the
    one whose start, as the last call of all, transferred control. *)
Theorem launcher_images_balanced {W} (ops : pbns_launcher_ops W) (unexpected : Z) (w : W) :
  ops_valid (Some ops) = true ->
  exists status result w' log, launcher_run (logged ops) unexpected (w, []) = Some (status, result, (w', log))
  /\ (status <> PBNS_OK -> images_after log = [] /\ lr_outcome result = PBNS_LAUNCHER_OUTCOME_FAILED)
  /\ (status = PBNS_OK -> exists t im ps, im <> 0 /\ images_after log = [(t, im)]
        /\ (exists l', log = l' ++ [Start t im false PBNS_OK ps])
        /\ lr_outcome result = match t with
             | PBNS_LAUNCHER_TARGET_NORMAL => PBNS_LAUNCHER_OUTCOME_NORMAL_TRANSFERRED
             | PBNS_LAUNCHER_TARGET_RECOVERY => PBNS_LAUNCHER_OUTCOME_RECOVERY_TRANSFERRED
             end).
Proof.
  intros Hops. destruct (launcher_run_calls ops unexpected w Hops) as (st & r & w' & config & st0 & ps0 & log & E & Hp).
  exists st, r, w', (ReadConfig config st0 ps0 :: log). split; [done|]. unfold images_after. cbn [foldl after_call].
  destruct Hp as [(? & -> & -> & ? & _)|[(_ & _ & ? & -> & ? & _)|[(_ & _ & -> & Ha & Ho & _)|Hrec]]].
  - done.
  - done.
  - split; [done|]. intros _. destruct (attempt_images _ _ _ _ _ [] Ha) as (im & ps & Him & Ei & l' & ->).
    exists PBNS_LAUNCHER_TARGET_NORMAL, im, ps. split_and!; try done. by eexists (_ :: _).
  - destruct Hrec as (_ & _ & started & orig & ps & l1 & l2 & -> & Ha & _ & _ & l' & fin & -> & Hb & Hfin).
    destruct (attempt_images _ _ _ _ _ [] Ha) as [Horig E1]. rewrite foldl_app, E1. cbn [foldl after_call].
    pose proof (attempt_images _ _ _ _ _ [] Hb) as Hi. destruct fin as [|started' st' ps'].
    + destruct Hfin as (-> & Ho & _), Hi as (im & ps' & Him & Ei & l2 & ->). split; [done|]. intros _.
      exists PBNS_LAUNCHER_TARGET_RECOVERY, im, ps'. split_and!; try done.
      eexists (_ :: l1 ++ _ :: l2). cbn [app]. by rewrite <- app_assoc.
    + destruct Hfin as (-> & Ho & _), Hi as [_ Ei]. split; done.
Qed.

(** ** Witnesses *)

(** A firmware whose normal image comes back and whose recovery image runs. *)
Definition ex_launcher_ops : pbns_launcher_ops unit :=
  mk_launcher_ops
    (Some (fun w _ _ => (PBNS_OK, mk_launcher_config 3 (mk_view 64 [1; 2]) false, 0, w)))
    (Some (fun w t _ _ _ => (PBNS_OK, match t with PBNS_LAUNCHER_TARGET_NORMAL => 16 | _ => 32 end, 0, w)))
    (Some (fun w t _ _ _ => (PBNS_OK, match t with PBNS_LAUNCHER_TARGET_NORMAL => true | _ => false end, 0, w)))
    (Some (fun w _ _ => w)) (Some (fun w _ _ => w)).

Lemma launcher_run_contract_witness :
  exists status result w' config st0 ps0 log,
    launcher_run (logged ex_launcher_ops) 77 (tt, []) = Some (status, result, (w', ReadConfig config st0 ps0 :: log))
  /\ launch_post 77 config st0 ps0 status result log.
Proof. apply (launcher_run_contract ex_launcher_ops 77 tt). reflexivity. Defined.

Lemma launcher_images_balanced_witness :
  exists status result w' log, launcher_run (logged ex_launcher_ops) 77 (tt, []) = Some (status, result, (w', log))
  /\ (status <> PBNS_OK -> images_after log = []).
Proof.
  destruct (launcher_images_balanced ex_launcher_ops 77 tt eq_refl) as (st & r & w' & log & E & H & _).
  exists st, r, w', log. split; [exact E|]. intros Hne. exact (proj1 (H Hne)).
Defined.

Example ex_launch :
  option_map (fun r => (r.1.1, lr_outcome r.1.2, length r.2.2, images_after r.2.2))
    (launcher_run (logged ex_launcher_ops) 77 (tt, []))
  = Some (PBNS_OK, PBNS_LAUNCHER_OUTCOME_RECOVERY_TRANSFERRED, 7%nat, [(PBNS_LAUNCHER_TARGET_RECOVERY, 32)]).
Proof. reflexivity. Qed.
