(* ===== verification/Compare.v ===== *)
(** * Comparisons that take the same time for every input

    Identifiers, digests and nonces are compared by accumulating differences
    over all their octets.  The loops appear in several sources under several
    names; they are modelled once here, with the propositions they decide. *)

From stdpp Require Import base list numbers.
From Stdlib Require Import ZArith Lia.
From S2P Require Import Prelude.

(** [difference |= left[index] ^ right[index]], then [difference == 0U] *)
Definition ct_equal (left right : bytes) : bool :=
  fold_left (fun difference p => Z.lor difference (Z.lxor (fst p) (snd p))) (zip left right) 0 =? 0.

(** [combined |= octets[index]], then [combined != 0U] *)
Definition ct_nonzero (octets : bytes) : bool := negb (fold_left Z.lor octets 0 =? 0).

Lemma fold_lor_zero (f : Z * Z -> Z) l acc :
  fold_left (fun d p => Z.lor d (f p)) l acc = 0 <-> acc = 0 /\ Forall (fun p => f p = 0) l.
Proof.
  revert acc. induction l as [|p l IH]; intros acc; cbn [fold_left].
  - split; [by split|naive_solver].
  - rewrite IH, Z.lor_eq_0_iff, Forall_cons_iff. tauto.
Qed.

Lemma fold_lor_octets l acc : fold_left Z.lor l acc = 0 <-> acc = 0 /\ Forall (fun b => b = 0) l.
Proof.
  revert acc. induction l as [|p l IH]; intros acc; cbn [fold_left].
  - split; [by split|naive_solver].
  - rewrite IH, Z.lor_eq_0_iff, Forall_cons_iff. tauto.
Qed.

(** On runs of one length the comparison is equality. *)
Lemma ct_equal_spec (left right : bytes) :
  length left = length right -> ct_equal left right = true <-> left = right.
Proof.
  unfold ct_equal. rewrite Z.eqb_eq, (fold_lor_zero (fun p => Z.lxor (fst p) (snd p))). revert right.
  induction left as [|a left IH]; intros [|b right] E; try done.
  cbn [zip zip_with]. rewrite Forall_cons_iff, Z.lxor_eq_0_iff. cbn [fst snd]. injection E as E. split.
  - intros (_ & -> & H). f_equal. by apply IH.
  - intros [= -> ->]. split; [done|]. split; [done|]. by apply IH.
Qed.

Lemma ct_nonzero_spec (octets : bytes) : ct_nonzero octets = true <-> ~ Forall (fun b => b = 0) octets.
Proof. unfold ct_nonzero. rewrite negb_true_iff, Z.eqb_neq, fold_lor_octets. tauto. Qed.
