(* ===== verification/RecoveryStream.v ===== *)
(** * Recovery image stream ([include/pbns/recovery_stream.h], [src/core/recovery_stream.c])

    A recovery image arrives in records of 16384 octets, the last one shorter,
    and is written straight into the pages it will be started from.  A digest
    runs along.  The hash is a set of callbacks over a world [W]; the theorems
    use it through the interface [HashLaws], which says that the digest is a
    function of the octets absorbed.

    The model keeps the octets of the pages beside the pointer to them. *)

From stdpp Require Import base list numbers.
From Stdlib Require Import ZArith Lia.
From S2P Require Import Prelude Status Buffers Frame Compare.

(** ** The code *)

Definition PBNS_RECOVERY_MANIFEST_DIGEST_SIZE : Z := 32.
Definition PBNS_RECOVERY_MANIFEST_CHUNK_SIZE : Z := 16384.
Definition PBNS_RECOVERY_MANIFEST_IMAGE_MAX : Z := 268435456.
Definition PBNS_RECOVERY_ACK_WINDOW : Z := 8.

(** Callbacks; [finish] also maps the contents of the digest. *)
Record pbns_recovery_hash_ops (W : Type) := mk_hash_ops {
  ho_begin : ptr (W -> pbns_status * W);
  ho_update : ptr (W -> bytes -> pbns_status * W);
  ho_finish : ptr (W -> bytes -> pbns_status * bytes * W);
  ho_clear : ptr (W -> W);
}.
Arguments mk_hash_ops {W}.
Arguments ho_begin {W}.
Arguments ho_update {W}.
Arguments ho_finish {W}.
Arguments ho_clear {W}.

Record pbns_recovery_ack := mk_recovery_ack { ra_required : bool; ra_next_sequence : Z; ra_window : Z }.
Definition zero_recovery_ack : pbns_recovery_ack := mk_recovery_ack false 0 0.

Record pbns_recovery_stream (W : Type) := mk_recovery_stream {
  rc_request_id : bytes;
  rc_pages : Z;
  rc_page_data : bytes;
  rc_image_size : Z;
  rc_offset : Z;
  rc_expected_digest : bytes;
  rc_next_sequence : Z;
  rc_records_since_ack : Z;
  rc_hash_ops : ptr (pbns_recovery_hash_ops W);
  rc_hash_active : bool;
  rc_initialized : bool;
  rc_complete : bool;
  rc_failed : bool;
}.
Arguments mk_recovery_stream {W}.
Arguments rc_request_id {W}.
Arguments rc_pages {W}.
Arguments rc_page_data {W}.
Arguments rc_image_size {W}.
Arguments rc_offset {W}.
Arguments rc_expected_digest {W}.
Arguments rc_next_sequence {W}.
Arguments rc_records_since_ack {W}.
Arguments rc_hash_ops {W}.
Arguments rc_hash_active {W}.
Arguments rc_initialized {W}.
Arguments rc_complete {W}.
Arguments rc_failed {W}.

Definition request_equal (left right : bytes) : bool := ct_equal left right.
Definition digest_equal (left right : bytes) : bool := ct_equal left right.
Definition digest_nonzero (digest : bytes) : bool := ct_nonzero digest.

Section code.
Context {W : Type}.
Notation stream_t := (pbns_recovery_stream W).

Definition zero_recovery_stream : stream_t :=
  mk_recovery_stream zero_request_id 0 [] 0 0 (replicate 32 0) 0 0 None false false false false.

Definition set_failed (s : stream_t) (hash_active : bool) : stream_t :=
  mk_recovery_stream (rc_request_id s) (rc_pages s) (rc_page_data s) (rc_image_size s) (rc_offset s)
    (rc_expected_digest s) (rc_next_sequence s) (rc_records_since_ack s) (rc_hash_ops s) hash_active
    (rc_initialized s) (rc_complete s) true.

(** The clear callback of an active hash, when there is one. *)
Definition active_clear (s : stream_t) : ptr (W -> W) :=
  if rc_hash_active s then ops ← rc_hash_ops s; ho_clear ops else None.

Definition fail_recovery (s : stream_t) (w : W) : stream_t * W :=
  match active_clear s with
  | Some clear => (set_failed s false, clear w)
  | None => (set_failed s (rc_hash_active s), w)
  end.

Definition validate_frame (s : stream_t) (frame : pbns_frame) : pbns_status :=
  if negb (f_service frame =? PBNS_SERVICE_RECOVERY_ARTIFACT) then PBNS_ERR_SERVICE
  else if negb (request_equal (f_request_id frame) (rc_request_id s)) then PBNS_ERR_STATE
  else if negb (f_flags frame =? 0) then PBNS_ERR_FORMAT
  else if negb (f_sequence frame =? rc_next_sequence s) || (rc_next_sequence s =? UINT32_MAX) then PBNS_ERR_SEQUENCE
  else PBNS_OK.

Definition recovery_stream_init (request_id : bytes) (exact_pages : pbns_buffer) (expected_digest : ptr bytes)
    (hash_ops : ptr (pbns_recovery_hash_ops W)) (w : W) : pbns_status * stream_t * W :=
  match expected_digest, hash_ops with
  | Some expected_digest, Some (mk_hash_ops (Some begin_) (Some _) (Some _) (Some clear)) =>
      if (b_ptr exact_pages =? 0) || negb (b_len exact_pages =? 0) || (b_cap exact_pages =? 0)
         || (PBNS_RECOVERY_MANIFEST_IMAGE_MAX <? b_cap exact_pages) || negb (digest_nonzero expected_digest)
      then (PBNS_ERR_ARGUMENT, zero_recovery_stream, w)
      else
      let '(status, w) := begin_ w in
      if negb (is_ok status) then (status, zero_recovery_stream, clear w)
      else (PBNS_OK, mk_recovery_stream request_id (b_ptr exact_pages) (b_data exact_pages) (b_cap exact_pages) 0
              expected_digest 0 0 hash_ops true true false false, w)
  | _, _ => (PBNS_ERR_ARGUMENT, zero_recovery_stream, w)
  end.

Definition pbns_recovery_stream_init (stream : ptr stream_t) (request_id : bytes) (exact_pages : pbns_buffer)
    (expected_digest : ptr bytes) (hash_ops : ptr (pbns_recovery_hash_ops W)) (w : W)
  : pbns_status * ptr stream_t * W :=
  match stream with
  | None => (PBNS_ERR_ARGUMENT, None, w)
  | Some _ =>
      let '(status, stream, w) := recovery_stream_init request_id exact_pages expected_digest hash_ops w in
      (status, Some stream, w)
  end.

(** The frame and the length of the payload, as they must be for the next record. *)
Definition check_record (s : stream_t) (frame : pbns_frame) (payload : pbns_view) : pbns_status :=
  let status := validate_frame s frame in
  if negb (is_ok status) then status
  else if (f_type frame =? PBNS_MESSAGE_CANCEL) || (f_type frame =? PBNS_MESSAGE_ERROR) then PBNS_ERR_TRANSPORT
  else if negb (f_type frame =? PBNS_MESSAGE_DATA) then PBNS_ERR_MESSAGE_TYPE
  else if (v_len payload =? 0) || (PBNS_RECOVERY_MANIFEST_CHUNK_SIZE <? v_len payload)
          || (rc_image_size s <? rc_offset s) then PBNS_ERR_FORMAT
  else
  let remaining := rc_image_size s - rc_offset s in
  let expected :=
    if PBNS_RECOVERY_MANIFEST_CHUNK_SIZE <? remaining then PBNS_RECOVERY_MANIFEST_CHUNK_SIZE else remaining in
  if (expected =? 0) || negb (v_len payload =? expected) then PBNS_ERR_FORMAT else PBNS_OK.

(** A record is stored and counted; every eighth asks for an acknowledgement. *)
Definition store_record (s : stream_t) (payload : bytes) : option (stream_t * pbns_recovery_ack) :=
  pages ← wr_list (rc_page_data s) (rc_offset s) payload;
  let next_sequence := u32 (rc_next_sequence s + 1) in
  let records_since_ack := u32 (rc_records_since_ack s + 1) in
  let due := records_since_ack =? PBNS_RECOVERY_ACK_WINDOW in
  Some (mk_recovery_stream (rc_request_id s) (rc_pages s) pages (rc_image_size s) (rc_offset s + zlen payload)
          (rc_expected_digest s) next_sequence (if due then 0 else records_since_ack) (rc_hash_ops s)
          (rc_hash_active s) (rc_initialized s) (rc_complete s) (rc_failed s),
        if due then mk_recovery_ack true next_sequence PBNS_RECOVERY_ACK_WINDOW else zero_recovery_ack).

Definition recovery_accept (s : stream_t) (frame : pbns_frame) (payload : pbns_view) (w : W)
  : option (pbns_status * stream_t * pbns_recovery_ack * W) :=
  if negb (view_is_valid payload) then Some (PBNS_ERR_ARGUMENT, s, zero_recovery_ack, w)
  else if negb (rc_initialized s) || rc_complete s || rc_failed s then Some (PBNS_ERR_STATE, s, zero_recovery_ack, w)
  else
  let status := check_record s frame payload in
  if negb (is_ok status) then let '(s, w) := fail_recovery s w in Some (status, s, zero_recovery_ack, w)
  else
  ops ← rc_hash_ops s;
  update ← ho_update ops;
  let '(status, w) := update w (v_data payload) in
  if negb (is_ok status) then let '(s, w) := fail_recovery s w in Some (status, s, zero_recovery_ack, w)
  else '(s, ack) ← store_record s (v_data payload); Some (PBNS_OK, s, ack, w).

Definition pbns_recovery_stream_accept (stream : ptr stream_t) (frame : ptr pbns_frame) (payload : pbns_view)
    (ack : ptr pbns_recovery_ack) (w : W) : option (pbns_status * ptr stream_t * ptr pbns_recovery_ack * W) :=
  match stream, frame, ack with
  | Some stream, Some frame, Some _ =>
      '(status, stream, ack, w) ← recovery_accept stream frame payload w; Some (status, Some stream, Some ack, w)
  | _, _, _ => Some (PBNS_ERR_ARGUMENT, stream, (fun _ => zero_recovery_ack) <$> ack, w)
  end.

Definition recovery_complete (s : stream_t) (frame : pbns_frame) (payload : pbns_view) (w : W)
  : option (pbns_status * stream_t * W) :=
  let failed status w := let '(s, w) := fail_recovery s w in Some (status, s, w) in
  if negb (view_is_valid payload) then Some (PBNS_ERR_ARGUMENT, s, w)
  else if negb (rc_initialized s) || rc_complete s || rc_failed s then Some (PBNS_ERR_STATE, s, w)
  else
  let status := validate_frame s frame in
  if negb (is_ok status) then failed status w
  else if negb (f_type frame =? PBNS_MESSAGE_COMPLETE) || negb (v_len payload =? 0)
  then failed PBNS_ERR_MESSAGE_TYPE w
  else if negb (rc_offset s =? rc_image_size s) then failed PBNS_ERR_STATE w
  else
  ops ← rc_hash_ops s;
  finish ← ho_finish ops;
  clear ← ho_clear ops;
  let '(status, digest, w) := finish w (replicate 32 0) in
  if negb (is_ok status) then failed status w
  else if negb (digest_equal digest (rc_expected_digest s)) then failed PBNS_ERR_AUTHENTICATION w
  else Some (PBNS_OK,
             mk_recovery_stream (rc_request_id s) (rc_pages s) (rc_page_data s) (rc_image_size s) (rc_offset s)
               (rc_expected_digest s) (u32 (rc_next_sequence s + 1)) (rc_records_since_ack s) (rc_hash_ops s) false
               (rc_initialized s) true (rc_failed s), clear w).

Definition pbns_recovery_stream_complete (stream : ptr stream_t) (frame : ptr pbns_frame) (payload : pbns_view) (w : W)
  : option (pbns_status * ptr stream_t * W) :=
  match stream, frame with
  | Some stream, Some frame =>
      '(status, stream, w) ← recovery_complete stream frame payload w; Some (status, Some stream, w)
  | _, _ => Some (PBNS_ERR_ARGUMENT, stream, w)
  end.

(** The stream, the octets of the pages it let go of, and the world. *)
Definition recovery_reset (s : stream_t) (w : W) : option (stream_t * bytes * W) :=
  pages ←
    (if negb (rc_pages s =? 0) && (0 <? rc_image_size s)
     then wr_list (rc_page_data s) 0 (replicate (Z.to_nat (rc_image_size s)) 0)
     else Some (rc_page_data s));
  let w := match active_clear s with Some clear => clear w | None => w end in
  Some (zero_recovery_stream, pages, w).

Definition pbns_recovery_stream_reset (stream : ptr stream_t) (w : W) : option (ptr stream_t * bytes * W) :=
  match stream with
  | None => Some (None, [], w)
  | Some stream => '(stream, pages, w) ← recovery_reset stream w; Some (Some stream, pages, w)
  end.
End code.

(** *** Assurance ([src/core/recovery_assurance.c]) *)

Definition PBNS_RECOVERY_ASSURANCE_T : Z := 1.
Definition PBNS_RECOVERY_ASSURANCE_S : Z := 2.

Record pbns_recovery_assurance_ops (W : Type) := mk_assurance_ops {
  ao_open_tpm_pair : ptr (W -> pbns_status * W);
  ao_open_software_nvram_pair : ptr (W -> pbns_status * W);
}.
Arguments mk_assurance_ops {W}.
Arguments ao_open_tpm_pair {W}.
Arguments ao_open_software_nvram_pair {W}.

Definition pbns_recovery_assurance_select {W} (mode : Z) (ops : ptr (pbns_recovery_assurance_ops W)) (w : W)
  : pbns_status * W :=
  match ops with
  | None => (PBNS_ERR_ARGUMENT, w)
  | Some ops =>
      if mode =? PBNS_RECOVERY_ASSURANCE_T then
        match ao_open_tpm_pair ops with None => (PBNS_ERR_ARGUMENT, w) | Some open => open w end
      else if mode =? PBNS_RECOVERY_ASSURANCE_S then
        match ao_open_software_nvram_pair ops with None => (PBNS_ERR_ARGUMENT, w) | Some open => open w end
      else (PBNS_ERR_ARGUMENT, w)
  end.

(** ** The hash, as the stream relies on it *)

Record hash (W : Type) := mk_hash {
  h_begin : W -> pbns_status * W;
  h_update : W -> bytes -> pbns_status * W;
  h_finish : W -> bytes -> pbns_status * bytes * W;
  h_clear : W -> W;
  h_absorbed : W -> bytes;
}.
Arguments mk_hash {W}.
Arguments h_begin {W}.
Arguments h_update {W}.
Arguments h_finish {W}.
Arguments h_clear {W}.
Arguments h_absorbed {W}.

Definition ops_of {W} (h : hash W) : pbns_recovery_hash_ops W :=
  mk_hash_ops (Some (h_begin h)) (Some (h_update h)) (Some (h_finish h)) (Some (h_clear h)).

(** A callback that succeeds did its work; it may fail at any time. *)
Class HashLaws {W} (h : hash W) (digest_of : bytes -> bytes) := {
  begin_empty w w' : h_begin h w = (PBNS_OK, w') -> h_absorbed h w' = [];
  update_absorbs w data w' : h_update h w data = (PBNS_OK, w') -> h_absorbed h w' = h_absorbed h w ++ data;
  finish_digest w out digest w' : h_finish h w out = (PBNS_OK, digest, w') -> digest = digest_of (h_absorbed h w);
  digest_size data : length (digest_of data) = 32%nat;
}.

(** A hash that never refuses. *)
Class HashLive {W} (h : hash W) := {
  begin_ok w : (h_begin h w).1 = PBNS_OK;
  update_ok w data : (h_update h w data).1 = PBNS_OK;
  finish_ok w out : (h_finish h w out).1.1 = PBNS_OK;
}.

(** The acknowledgement after the [k]th record. *)
Definition ack_after (k : nat) : pbns_recovery_ack :=
  if Z.of_nat k mod 8 =? 0 then mk_recovery_ack true (Z.of_nat k) 8 else zero_recovery_ack.

Section stream.
Context {W : Type} (h : hash W) {digest_of : bytes -> bytes} `{!HashLaws h digest_of}.
Notation stream_t := (pbns_recovery_stream W).

(** Records handed to the stream one after the other: the payloads it took and
    the acknowledgements they called for. *)
Fixpoint recovery_run (s : stream_t) (w : W) (records : list (pbns_frame * pbns_view))
  : option (list bytes * list pbns_recovery_ack * stream_t * W) :=
  match records with
  | [] => Some ([], [], s, w)
  | (frame, payload) :: records =>
      '(status, s, ack, w) ← recovery_accept s frame payload w;
      '(taken, acks, s, w) ← recovery_run s w records;
      Some (if is_ok status then (v_data payload :: taken, ack :: acks, s, w) else (taken, acks, s, w))
  end.

(** What the stream was set up for. *)
Record setup := mk_setup { su_id : bytes; su_pages : pbns_buffer; su_digest : bytes }.

Definition setup_ok (u : setup) : Prop :=
  0 < b_cap (su_pages u) <= PBNS_RECOVERY_MANIFEST_IMAGE_MAX /\ length (su_digest u) = 32%nat.

(** The stream after it took [acc]. *)
Definition stored (u : setup) (s : stream_t) (acc : list bytes) : Prop :=
  rc_initialized s = true /\ rc_complete s = false /\ rc_request_id s = su_id u /\ rc_hash_ops s = Some (ops_of h)
  /\ rc_expected_digest s = su_digest u /\ rc_pages s = b_ptr (su_pages u) /\ rc_image_size s = b_cap (su_pages u)
  /\ rc_offset s = zlen (concat acc) /\ rc_next_sequence s = zlen acc
  /\ zlen (concat acc) = Z.min (PBNS_RECOVERY_MANIFEST_CHUNK_SIZE * zlen acc) (b_cap (su_pages u))
  /\ rc_page_data s = concat acc ++ drop (length (concat acc)) (b_data (su_pages u))
  /\ PBNS_RECOVERY_MANIFEST_CHUNK_SIZE * (zlen acc - 1) < b_cap (su_pages u).

Definition live (u : setup) (s : stream_t) (w : W) (acc : list bytes) : Prop :=
  stored u s acc /\ rc_failed s = false /\ rc_hash_active s = true /\ rc_records_since_ack s = zlen acc mod 8
  /\ h_absorbed h w = concat acc.

Definition dead (u : setup) (s : stream_t) (acc : list bytes) : Prop := stored u s acc /\ rc_failed s = true.

Lemma init_live u w s w' :
  setup_ok u -> recovery_stream_init (su_id u) (su_pages u) (Some (su_digest u)) (Some (ops_of h)) w = (PBNS_OK, s, w') ->
  live u s w' [].
Proof.
  intros [Hcap Hd]. unfold recovery_stream_init, ops_of. destruct (_ || _); [done|].
  destruct (h_begin h w) as [st w1] eqn:E. destruct st; try done. cbn [is_ok negb]. intros [= <- <-].
  apply begin_empty in E. unfold live, stored, PBNS_RECOVERY_MANIFEST_CHUNK_SIZE. cbn. rewrite drop_0. split_and!; try done; lia.
Qed.

Lemma fail_dead u s w acc s' w' : stored u s acc -> fail_recovery s w = (s', w') -> dead u s' acc.
Proof.
  intros Hs. unfold fail_recovery. destruct (active_clear s); intros [= <- <-]; unfold dead, stored, set_failed in *; cbn; tauto.
Qed.

Lemma next_mod8 k : 0 <= k -> (k + 1) mod 8 = if k mod 8 + 1 =? 8 then 0 else k mod 8 + 1.
Proof.
  intros Hk. pose proof (Z.mod_pos_bound k 8 ltac:(lia)). pose proof (Z.div_mod k 8 ltac:(lia)).
  destruct (Z.eqb_spec (k mod 8 + 1) 8) as [E|E].
  - symmetry. apply (Z.mod_unique _ _ (k / 8 + 1)); lia.
  - symmetry. apply (Z.mod_unique _ _ (k / 8)); lia.
Qed.

(** A record that passes the checks has the length the image calls for. *)
Lemma check_record_length (s : stream_t) frame payload :
  check_record s frame payload = PBNS_OK ->
  0 < v_len payload /\ v_len payload = Z.min PBNS_RECOVERY_MANIFEST_CHUNK_SIZE (rc_image_size s - rc_offset s).
Proof.
  unfold check_record. destruct (validate_frame s frame); try done. cbn [is_ok negb].
  destruct (_ || _); [done|]. destruct (negb _); [done|]. destruct (_ || _ || _) eqn:E1; [done|].
  bools. pose proof (Zle_0_nat (length (v_data payload))). unfold PBNS_RECOVERY_MANIFEST_CHUNK_SIZE, v_len in *.
  set (remaining := rc_image_size s - rc_offset s) in *. destruct (Z.ltb_spec 16384 remaining).
  - destruct (Z.eqb_spec (zlen (v_data payload)) 16384); [lia|done].
  - destruct (Z.eqb_spec remaining 0); [done|]. destruct (Z.eqb_spec (zlen (v_data payload)) remaining); [lia|done].
Qed.

Lemma store_record_live u s w w' acc payload :
  setup_ok u -> live u s w acc -> 0 < zlen payload ->
  zlen payload = Z.min PBNS_RECOVERY_MANIFEST_CHUNK_SIZE (rc_image_size s - rc_offset s) ->
  h_update h w payload = (PBNS_OK, w') ->
  exists s' ack, store_record s payload = Some (s', ack) /\ live u s' w' (acc ++ [payload])
  /\ ack = ack_after (S (length acc)).
Proof.
  intros [Hcap Hd] ((Hi & Hc & Hid & Hops & Hdg & Hpg & Hsz & Hoff & Hseq & Hmin & Hdata & Hlast) & Hf & Ha & Hr & Habs) Hpos Hlen Hup.
  apply update_absorbs in Hup. unfold store_record, b_cap, PBNS_RECOVERY_MANIFEST_CHUNK_SIZE, PBNS_RECOVERY_MANIFEST_IMAGE_MAX,
    PBNS_RECOVERY_ACK_WINDOW in *. rewrite Hdata, Hoff, Hseq, Hr, Hsz in *.
  rewrite wr_list_next by (rewrite ?length_drop; lia). cbn [mbind option_bind].
  rewrite (u32_small (zlen acc + 1)) by (unfold UINT32_MAX; lia).
  pose proof (Z.mod_pos_bound (zlen acc) 8 ltac:(lia)). rewrite (u32_small (_ mod 8 + 1)) by (unfold UINT32_MAX; lia).
  pose proof (next_mod8 (zlen acc) ltac:(lia)) as Hm. unfold ack_after.
  replace (Z.of_nat (S (length acc))) with (zlen acc + 1) by lia. rewrite Hm.
  eexists _, _. split; [done|]. split.
  - unfold live, stored, b_cap, PBNS_RECOVERY_MANIFEST_CHUNK_SIZE. cbn. rewrite concat_app, !length_app. cbn [concat length].
    rewrite app_nil_r. rewrite <- drop_drop, Hup, Habs. replace (Z.of_nat (length acc + 1)) with (zlen acc + 1) by lia.
    rewrite Hm. split_and!; try done; lia.
  - destruct (Z.eqb_spec (zlen acc mod 8 + 1) 8) as [E|E]; [done|].
    destruct (Z.eqb_spec (zlen acc mod 8 + 1) 0); [lia|done].
Qed.

(** Every call returns, and the stream goes on, stays, or is failed for good. *)
Lemma accept_live u s w acc frame payload :
  setup_ok u -> live u s w acc ->
  exists st s' ack w', recovery_accept s frame payload w = Some (st, s', ack, w')
  /\ (st = PBNS_OK /\ live u s' w' (acc ++ [v_data payload]) /\ ack = ack_after (S (length acc))
        /\ view_is_valid payload = true
      \/ st <> PBNS_OK /\ (if view_is_valid payload then dead u s' acc else live u s' w' acc)).
Proof.
  intros Hu Hl. unfold recovery_accept. destruct (view_is_valid payload) eqn:Hv; cbn [negb].
  2:{ eexists _, _, _, _. split; [done|]. by right. }
  pose proof Hl as ((Hi & Hc & _ & Hops & _) & Hf & _). rewrite Hi, Hc, Hf. cbn [negb orb].
  destruct (is_ok (check_record s frame payload)) eqn:Hck; cbn [negb].
  2:{ destruct (fail_recovery s w) as [s1 w1] eqn:E1. eexists _, _, _, _. split; [done|]. right.
      split; [by destruct (check_record s frame payload)|]. eapply fail_dead; [exact (proj1 Hl)|exact E1]. }
  assert (Eck : check_record s frame payload = PBNS_OK) by (by destruct (check_record s frame payload)).
  apply check_record_length in Eck as [Hpos Hlen]. rewrite Hops. cbn [mbind option_bind ops_of ho_update].
  destruct (h_update h w (v_data payload)) as [st w1] eqn:Eup. destruct (is_ok st) eqn:Hst; cbn [negb].
  2:{ destruct (fail_recovery s w1) as [s1 w2] eqn:E1. eexists _, _, _, _. split; [done|]. right.
      split; [by destruct st|]. eapply fail_dead; [exact (proj1 Hl)|exact E1]. }
  assert (st = PBNS_OK) as -> by (by destruct st).
  destruct (store_record_live u s w w1 acc (v_data payload) Hu Hl Hpos Hlen Eup) as (s' & ack & -> & Hl' & Hack).
  cbn [mbind option_bind]. eexists _, _, _, _. split; [done|]. by left.
Qed.

Lemma accept_dead u s acc frame payload w :
  dead u s acc -> exists st, recovery_accept s frame payload w = Some (st, s, zero_recovery_ack, w) /\ st <> PBNS_OK.
Proof.
  intros [Hs Hf]. unfold recovery_accept. destruct (negb (view_is_valid payload)); [by eexists|].
  rewrite Hf, !orb_true_r. by eexists.
Qed.

Lemma run_dead u s acc records w :
  dead u s acc -> recovery_run s w records = Some ([], [], s, w).
Proof.
  intros Hd. induction records as [|[frame payload] records IH]; [done|]. cbn [recovery_run].
  destruct (accept_dead u s acc frame payload w Hd) as (st & -> & Hst). cbn [mbind option_bind]. rewrite IH.
  cbn [mbind option_bind]. by destruct st.
Qed.

(** The payloads of the records whose views are valid. *)
Definition offered (records : list (pbns_frame * pbns_view)) : list bytes :=
  (fun r => v_data r.2) <$> base.filter (fun r => view_is_valid r.2 = true) records.

Lemma run_live u records : setup_ok u -> forall s w acc, live u s w acc ->
  exists taken acks s' w', recovery_run s w records = Some (taken, acks, s', w')
  /\ acks = ack_after <$> seq (S (length acc)) (length taken)
  /\ (live u s' w' (acc ++ taken) /\ taken = offered records
      \/ dead u s' (acc ++ taken) /\ exists x rest, offered records = taken ++ x :: rest).
Proof.
  intros Hu. induction records as [|[frame payload] records IH]; intros s w acc Hl.
  { eexists [], [], s, w. cbn. rewrite app_nil_r. split; [done|]. split; [done|]. by left. }
  cbn [recovery_run]. destruct (accept_live u s w acc frame payload Hu Hl) as (st & s1 & ack & w1 & -> & Hcase).
  cbn [mbind option_bind]. unfold offered. rewrite filter_cons. cbn [snd].
  destruct Hcase as [(-> & Hl1 & -> & Hv)|[Hst Hcase]].
  - destruct (IH s1 w1 _ Hl1) as (taken & acks & s2 & w2 & -> & Hacks & Hend). cbn [mbind option_bind is_ok].
    rewrite decide_True by done. eexists _, _, _, _. split; [done|]. rewrite length_app in Hacks. cbn [length] in Hacks.
    split; [rewrite Hacks; cbn [length seq fmap list_fmap]; by rewrite Nat.add_1_r|].
    rewrite <- !app_assoc in Hend. cbn [app] in Hend. cbn [fmap list_fmap snd].
    destruct Hend as [[Hl2 ->]|(Hd & x & rest & E)]; [by left|]. right. split; [done|]. exists x, rest.
    unfold offered in E. by rewrite E.
  - destruct (view_is_valid payload) eqn:Hv.
    + rewrite decide_True by done. rewrite (run_dead u s1 acc) by done. cbn [mbind option_bind].
      eexists [], [], _, _. split; [by destruct st|]. split; [done|]. right. rewrite app_nil_r. split; [done|].
      by eexists _, _.
    + rewrite decide_False by done. destruct (IH s1 w1 _ Hcase) as (taken & acks & s2 & w2 & -> & Hacks & Hend).
      cbn [mbind option_bind]. assert (is_ok st = false) as -> by (by destruct st). eexists _, _, _, _. split; [done|]. done.
Qed.

Lemma complete_result u s w acc frame payload :
  setup_ok u -> live u s w acc \/ dead u s acc ->
  exists st s' w', recovery_complete s frame payload w = Some (st, s', w') /\ rc_page_data s' = rc_page_data s
  /\ (st = PBNS_OK -> rc_complete s' = true /\ rc_page_data s = concat acc
        /\ zlen (concat acc) = b_cap (su_pages u) /\ digest_of (concat acc) = su_digest u).
Proof.
  intros [Hcap Hd] Hs. unfold recovery_complete. destruct (negb (view_is_valid payload)); [by eexists _, _, _|].
  destruct Hs as [Hl|[_ Hf]]; [|rewrite Hf, !orb_true_r; by eexists _, _, _].
  pose proof Hl as ((Hi & Hc & _ & Hops & Hdg & _ & Hsz & Hoff & _ & _ & Hdata & _) & Hf & _ & _ & Habs).
  assert (Hfail : forall st w0, st <> PBNS_OK ->
    exists st' s' w', (let '(s1, w1) := fail_recovery s w0 in Some (st, s1, w1)) = Some (st', s', w')
    /\ rc_page_data s' = rc_page_data s
    /\ (st' = PBNS_OK -> rc_complete s' = true /\ rc_page_data s = concat acc
        /\ zlen (concat acc) = b_cap (su_pages u) /\ digest_of (concat acc) = su_digest u)).
  { intros st w0 Hst. unfold fail_recovery. destruct (active_clear s); eexists _, _, _; (split; [done|]); done. }
  rewrite Hi, Hc, Hf. cbn [negb orb]. destruct (is_ok (validate_frame s frame)) eqn:Hvf; cbn [negb].
  2:{ apply Hfail. by destruct (validate_frame s frame). }
  destruct (_ || _); [by apply Hfail|]. destruct (Z.eqb_spec (rc_offset s) (rc_image_size s)) as [Hfull|]; cbn [negb]; [|by apply Hfail].
  rewrite Hops. cbn [mbind option_bind ops_of ho_finish ho_clear].
  destruct (h_finish h w (replicate 32 0)) as [[st digest] w1] eqn:Efin. destruct (is_ok st) eqn:Hst; cbn [negb].
  2:{ apply Hfail. by destruct st. }
  assert (st = PBNS_OK) as -> by (by destruct st). apply finish_digest in Efin. rewrite Habs in Efin. subst digest.
  destruct (digest_equal _ _) eqn:Hde; cbn [negb]; [|by apply Hfail].
  apply ct_equal_spec in Hde; [|by rewrite Hdg, digest_size, Hd]. rewrite Hdg in Hde.
  eexists _, _, _. split; [done|]. cbn. split; [done|]. intros _. split; [done|].
  rewrite Hdata, drop_ge by (unfold b_cap in *; lia). rewrite app_nil_r. split; [done|]. split; [lia|done].
Qed.

(** *** Delivery of an image cut into records *)

Definition record_frame (id : bytes) (type sequence : Z) : pbns_frame :=
  mk_frame PBNS_SERVICE_RECOVERY_ARTIFACT type 0 id sequence.

(** The image in records; [fuel] bounds their number. *)
Fixpoint cut (fuel : nat) (image : bytes) : list bytes :=
  match fuel, image with
  | S fuel, _ :: _ =>
      take (Z.to_nat PBNS_RECOVERY_MANIFEST_CHUNK_SIZE) image
      :: cut fuel (drop (Z.to_nat PBNS_RECOVERY_MANIFEST_CHUNK_SIZE) image)
  | _, _ => []
  end.

Fixpoint numbered (id : bytes) (address sequence : Z) (payloads : list bytes) : list (pbns_frame * pbns_view) :=
  match payloads with
  | [] => []
  | payload :: payloads =>
      (record_frame id PBNS_MESSAGE_DATA sequence, mk_view address payload) :: numbered id address (sequence + 1) payloads
  end.

Lemma cut_concat fuel image : (length image <= fuel)%nat -> concat (cut fuel image) = image.
Proof.
  revert image. induction fuel as [|fuel IH]; intros image Hf; [destruct image; [done|cbn in Hf; lia]|].
  destruct image as [|x image]; [done|]. cbn [cut concat]. rewrite IH, take_drop; [done|].
  rewrite length_drop. unfold PBNS_RECOVERY_MANIFEST_CHUNK_SIZE. cbn [length] in *. lia.
Qed.

Lemma validate_expected u s w acc type :
  setup_ok u -> live u s w acc -> validate_frame s (record_frame (su_id u) type (zlen acc)) = PBNS_OK.
Proof.
  intros [Hcap _] ((_ & _ & Hid & _ & _ & _ & _ & _ & Hseq & _ & _ & Hlast) & _).
  unfold validate_frame, record_frame, PBNS_RECOVERY_MANIFEST_CHUNK_SIZE, PBNS_RECOVERY_MANIFEST_IMAGE_MAX, request_equal in *.
  cbn [f_service f_request_id f_flags f_sequence]. change (PBNS_SERVICE_RECOVERY_ARTIFACT =? PBNS_SERVICE_RECOVERY_ARTIFACT) with true.
  rewrite Hid, (proj2 (ct_equal_spec (su_id u) (su_id u) eq_refl) eq_refl), Hseq, !Z.eqb_refl. cbn [negb orb].
  rewrite (proj2 (Z.eqb_neq _ UINT32_MAX)); [done|]. unfold UINT32_MAX. lia.
Qed.

Context `{!HashLive h}.

Lemma accept_expected u s w acc address payload :
  setup_ok u -> live u s w acc -> address <> 0 -> 0 < zlen payload ->
  zlen payload = Z.min PBNS_RECOVERY_MANIFEST_CHUNK_SIZE (b_cap (su_pages u) - zlen (concat acc)) ->
  exists s' w', recovery_accept s (record_frame (su_id u) PBNS_MESSAGE_DATA (zlen acc)) (mk_view address payload) w
    = Some (PBNS_OK, s', ack_after (S (length acc)), w') /\ live u s' w' (acc ++ [payload]).
Proof.
  intros Hu Hl Ha Hpos Hlen.
  pose proof Hl as ((Hi & Hc & _ & Hops & _ & _ & Hsz & Hoff & _) & Hf & _).
  unfold recovery_accept. rewrite (proj2 (view_is_valid_spec (mk_view address payload)) (or_introl Ha)), Hi, Hc, Hf.
  cbn [negb orb]. assert (Eck : check_record s (record_frame (su_id u) PBNS_MESSAGE_DATA (zlen acc)) (mk_view address payload)
    = PBNS_OK).
  { unfold check_record. rewrite (validate_expected u s w acc) by done. cbn [is_ok negb record_frame f_type].
    unfold v_len, PBNS_RECOVERY_MANIFEST_CHUNK_SIZE in *. cbn [v_data]. rewrite Hsz, Hoff. cbn [PBNS_MESSAGE_DATA Z.eqb].
    change (_ || (PBNS_MESSAGE_DATA =? PBNS_MESSAGE_ERROR)) with false. cbn [negb Pos.eqb].
    rewrite (proj2 (Z.eqb_neq (zlen payload) 0)), (proj2 (Z.ltb_ge 16384 _)), (proj2 (Z.ltb_ge (b_cap (su_pages u)) _)) by lia.
    cbn [orb]. set (remaining := b_cap (su_pages u) - zlen (concat acc)) in *.
    destruct (Z.ltb_spec 16384 remaining).
    - rewrite (proj2 (Z.eqb_eq (zlen payload) 16384)) by lia. done.
    - rewrite (proj2 (Z.eqb_neq remaining 0)), (proj2 (Z.eqb_eq (zlen payload) remaining)) by lia. done. }
  rewrite Eck. cbn [is_ok negb]. rewrite Hops. cbn [mbind option_bind ops_of ho_update v_data].
  pose proof (update_ok w payload) as Hst. destruct (h_update h w payload) as [st w1] eqn:Eup. cbn in Hst. subst st.
  cbn [is_ok negb]. destruct (store_record_live u s w w1 acc payload Hu Hl Hpos) as (s' & ack & -> & Hl' & ->);
    [by rewrite Hsz, Hoff|done|]. cbn [mbind option_bind]. by eexists _, _.
Qed.

Lemma run_delivers u address fuel rest : setup_ok u -> address <> 0 -> forall s w acc,
  live u s w acc -> (length rest <= fuel)%nat -> zlen (concat acc) + zlen rest = b_cap (su_pages u) ->
  exists s' w', recovery_run s w (numbered (su_id u) address (zlen acc) (cut fuel rest))
    = Some (cut fuel rest, ack_after <$> seq (S (length acc)) (length (cut fuel rest)), s', w')
  /\ live u s' w' (acc ++ cut fuel rest).
Proof.
  intros Hu Ha. revert rest. induction fuel as [|fuel IH]; intros rest s w acc Hl Hf Hfit.
  { exists s, w. cbn. by rewrite app_nil_r. }
  destruct rest as [|x rest]; [exists s, w; cbn; by rewrite app_nil_r|].
  remember (x :: rest) as image eqn:Ei. assert (Hpos : (0 < length image)%nat) by (subst; cbn; lia).
  assert (Ecut : cut (S fuel) image = take (Z.to_nat PBNS_RECOVERY_MANIFEST_CHUNK_SIZE) image
    :: cut fuel (drop (Z.to_nat PBNS_RECOVERY_MANIFEST_CHUNK_SIZE) image)) by (by subst). rewrite Ecut. clear Ei Ecut.
  set (p := take _ image). set (image' := drop _ image).
  assert (Hp : zlen p = Z.min PBNS_RECOVERY_MANIFEST_CHUNK_SIZE (zlen image))
    by (unfold p, PBNS_RECOVERY_MANIFEST_CHUNK_SIZE; rewrite length_take; lia).
  assert (Hi' : zlen image' = zlen image - zlen p) by (unfold p, image'; rewrite length_take, length_drop; lia).
  assert (Hp0 : 0 < zlen p) by (unfold PBNS_RECOVERY_MANIFEST_CHUNK_SIZE in Hp; lia).
  destruct (accept_expected u s w acc address p Hu Hl Ha Hp0 ltac:(lia)) as (s1 & w1 & E1 & Hl1).
  cbn [numbered recovery_run]. rewrite E1. cbn [mbind option_bind is_ok v_data].
  destruct (IH image' s1 w1 (acc ++ [p]) Hl1 ltac:(lia)) as (s2 & w2 & E2 & Hl2).
  { rewrite concat_app, length_app. cbn [concat]. rewrite app_nil_r. lia. }
  rewrite length_app in E2. cbn [length] in E2. replace (Z.of_nat (length acc + 1)) with (zlen acc + 1) in E2 by lia.
  rewrite E2. cbn [mbind option_bind]. rewrite <- app_assoc in Hl2. exists s2, w2. split; [|exact Hl2].
  cbn [length seq fmap list_fmap]. by rewrite Nat.add_1_r.
Qed.
End stream.

(** C26: the pages hold exactly the payloads the stream took.  After any records,
    in any order and with any failures of the hash, the payloads taken are those
    of the first records offered, each of the full record size up to the end of
    the image; the pages start with them and are otherwise untouched; every
    eighth one was acknowledged.  Once a record is refused none is taken.
    Completion succeeds only when the whole image was taken and its digest is
    the expected one, and a reset zeroes every page. *)
Theorem recovery_stream_exact {W} (h : hash W) (digest_of : bytes -> bytes) `{!HashLaws h digest_of}
    (u : setup) (w : W) (s0 : pbns_recovery_stream W) (w0 : W) (records : list (pbns_frame * pbns_view)) :
  setup_ok u ->
  recovery_stream_init (su_id u) (su_pages u) (Some (su_digest u)) (Some (ops_of h)) w = (PBNS_OK, s0, w0) ->
  exists taken acks s w1, recovery_run s0 w0 records = Some (taken, acks, s, w1)
  /\ taken `prefix_of` offered records /\ (taken <> offered records -> rc_failed s = true)
  /\ acks = ack_after <$> seq 1 (length taken)
  /\ zlen (concat taken) = Z.min (PBNS_RECOVERY_MANIFEST_CHUNK_SIZE * zlen taken) (b_cap (su_pages u))
  /\ rc_page_data s = concat taken ++ drop (length (concat taken)) (b_data (su_pages u))
  /\ (forall frame payload, exists st s' w', recovery_complete s frame payload w1 = Some (st, s', w')
      /\ rc_page_data s' = rc_page_data s
      /\ (st = PBNS_OK -> rc_complete s' = true /\ rc_page_data s = concat taken
          /\ zlen (concat taken) = b_cap (su_pages u) /\ digest_of (concat taken) = su_digest u))
  /\ (b_ptr (su_pages u) <> 0 -> exists w', recovery_reset s w1
      = Some (zero_recovery_stream, replicate (Z.to_nat (b_cap (su_pages u))) 0, w')).
Proof.
  intros Hu Hinit. apply (init_live h u w s0 w0 Hu) in Hinit. destruct (run_live h u records Hu s0 w0 [] Hinit)
    as (taken & acks & s & w1 & E & Hacks & Hend). exists taken, acks, s, w1. split; [done|]. cbn [app] in Hend.
  assert (Hst : live h u s w1 taken \/ dead h u s taken) by tauto.
  assert (Hs : stored h u s taken) by (destruct Hst as [[? _]|[? _]]; done).
  pose proof Hs as (_ & _ & _ & _ & _ & Hpg & Hsz & _ & _ & Hmin & Hdata & _). split_and!; try done.
  - destruct Hend as [[_ ->]|(_ & x & rest & ->)]; [done|by eexists].
  - destruct Hend as [[_ ->]|[[_ Hf] _]]; done.
  - intros frame payload. by apply (complete_result h).
  - intros Hptr. unfold recovery_reset. destruct Hu as [Hcap _].
    rewrite Hpg, Hsz, (proj2 (Z.eqb_neq _ 0) Hptr), (proj2 (Z.ltb_lt 0 _)) by lia. cbn [negb andb].
    assert (Hlen : length (rc_page_data s) = length (b_data (su_pages u)))
      by (rewrite Hdata, length_app, length_drop; unfold b_cap in *; lia).
    rewrite wr_list_splice by (rewrite ?length_replicate, ?Hlen; unfold b_cap in *; lia). cbn [mbind option_bind].
    eexists. repeat f_equal. unfold splice. rewrite length_replicate, drop_ge, app_nil_r by (rewrite Hlen; unfold b_cap; lia).
    done.
Qed.

(** C27: an image gets through.  With a hash that does not fail, an image of up
    to 256 MiB whose digest is the expected one, sent in order in full records
    with the sequence numbers of its session, is taken record by record; the
    completion succeeds and the pages are the image. *)
Theorem recovery_stream_delivers {W} (h : hash W) (digest_of : bytes -> bytes) `{!HashLaws h digest_of} `{!HashLive h}
    (u : setup) (image : bytes) (address : Z) (w : W) :
  setup_ok u -> b_ptr (su_pages u) <> 0 -> b_len (su_pages u) = 0 -> digest_nonzero (su_digest u) = true ->
  zlen image = b_cap (su_pages u) -> digest_of image = su_digest u -> address <> 0 ->
  let payloads := cut (length image) image in
  exists s0 w0 acks s w1 s' w',
    recovery_stream_init (su_id u) (su_pages u) (Some (su_digest u)) (Some (ops_of h)) w = (PBNS_OK, s0, w0)
  /\ recovery_run s0 w0 (numbered (su_id u) address 0 payloads) = Some (payloads, acks, s, w1)
  /\ recovery_complete s (record_frame (su_id u) PBNS_MESSAGE_COMPLETE (zlen payloads)) null_view w1 = Some (PBNS_OK, s', w')
  /\ rc_complete s' = true /\ rc_page_data s' = image.
Proof.
  intros Hu Hptr Hlen Hnz Hsize Hdig Ha payloads.
  assert (Hinit : exists s0 w0, recovery_stream_init (su_id u) (su_pages u) (Some (su_digest u)) (Some (ops_of h)) w = (PBNS_OK, s0, w0)).
  { unfold recovery_stream_init, ops_of. destruct Hu as [Hcap _].
    rewrite (proj2 (Z.eqb_neq _ 0) Hptr), Hlen, Hnz, (proj2 (Z.eqb_neq (b_cap _) 0)), (proj2 (Z.ltb_ge _ (b_cap _))) by lia.
    cbn. pose proof (begin_ok w) as Hb. destruct (h_begin h w) as [st w0]. cbn in Hb. subst st. by eexists _, _. }
  destruct Hinit as (s0 & w0 & Einit). pose proof (init_live h u w s0 w0 Hu Einit) as Hl.
  destruct (run_delivers h u address (length image) image Hu Ha s0 w0 [] Hl ltac:(lia) ltac:(cbn; lia))
    as (s & w1 & Erun & Hl1). cbn [app] in Hl1. fold payloads in Erun, Hl1.
  assert (Hcat : concat payloads = image) by (by apply cut_concat).
  pose proof Hl1 as ((Hi & Hc & _ & Hops & Hdg & _ & Hsz & Hoff & _ & _ & Hdata & _) & Hf & _ & _ & Habs).
  rewrite Hcat in *. destruct (h_finish h w1 (replicate 32 0)) as [[st digest] w2] eqn:Efin.
  pose proof (finish_ok w1 (replicate 32 0)) as Hst. rewrite Efin in Hst. cbn in Hst. subst st.
  apply finish_digest in Efin as Hd. rewrite Habs, Hdig in Hd. subst digest.
  eexists s0, w0, _, s, w1, _, _. split; [done|]. split; [exact Erun|].
  unfold recovery_complete. rewrite Hi, Hc, Hf, (validate_expected h u s w1 payloads _ Hu Hl1), Hoff, Hsz, Hsize, Z.eqb_refl, Hops.
  cbn [view_is_valid null_view v_ptr v_len v_data length Z.of_nat Z.eqb negb orb is_ok record_frame f_type].
  change (PBNS_MESSAGE_COMPLETE =? PBNS_MESSAGE_COMPLETE) with true. cbn [negb orb mbind option_bind ops_of ho_finish ho_clear].
  rewrite Efin. cbn [is_ok negb]. rewrite Hdg. unfold digest_equal.
  rewrite (proj2 (ct_equal_spec (su_digest u) (su_digest u) eq_refl) eq_refl). cbn [negb].
  change (v_len null_view =? 0) with true. rewrite Z.eqb_refl. cbn [negb].
  split; [done|]. cbn. split; [done|]. rewrite Hdata, drop_ge, app_nil_r; [done|]. unfold b_cap in Hsize. lia.
Qed.

(** ** Witnesses *)

(** A hash that keeps what it absorbed, with a digest that is easy to compute. *)
Definition ex_digest (data : bytes) : bytes := take 32 (u8 (zlen data) :: data ++ replicate 32 7).

Definition ex_hash : hash bytes :=
  mk_hash (fun _ => (PBNS_OK, [])) (fun w data => (PBNS_OK, w ++ data)) (fun w _ => (PBNS_OK, ex_digest w, w))
    (fun _ => []) (fun w => w).

#[export] Instance ex_hash_laws : HashLaws ex_hash ex_digest.
Proof.
  split.
  - by intros w w' [= <-].
  - by intros w data w' [= <-].
  - by intros w out digest w' [= <- <-].
  - intros data. unfold ex_digest. rewrite length_take. cbn [length]. rewrite length_app, length_replicate. lia.
Qed.

#[export] Instance ex_hash_live : HashLive ex_hash.
Proof. by split. Qed.

Definition ex_image : bytes := [10; 20; 30; 40; 50].
Definition ex_setup : setup := mk_setup (replicate 16 9) (mk_buffer 4096 0 (replicate 5 255)) (ex_digest ex_image).

Lemma recovery_stream_delivers_witness :
  exists s0 w0 acks s w1 s' w',
    recovery_stream_init (su_id ex_setup) (su_pages ex_setup) (Some (su_digest ex_setup)) (Some (ops_of ex_hash)) []
      = (PBNS_OK, s0, w0)
  /\ recovery_run s0 w0 (numbered (su_id ex_setup) 64 0 (cut 5 ex_image)) = Some (cut 5 ex_image, acks, s, w1)
  /\ recovery_complete s (record_frame (su_id ex_setup) PBNS_MESSAGE_COMPLETE (zlen (cut 5 ex_image))) null_view w1
     = Some (PBNS_OK, s', w')
  /\ rc_complete s' = true /\ rc_page_data s' = ex_image.
Proof.
  apply (@recovery_stream_delivers bytes ex_hash ex_digest ex_hash_laws ex_hash_live ex_setup ex_image 64 []).
  - split; [split; vm_compute; [reflexivity|discriminate]|reflexivity].
  - discriminate.
  - reflexivity.
  - vm_compute. reflexivity.
  - reflexivity.
  - reflexivity.
  - discriminate.
Defined.

Lemma recovery_stream_exact_witness :
  exists s0 w0 taken acks s w1,
    recovery_stream_init (su_id ex_setup) (su_pages ex_setup) (Some (su_digest ex_setup)) (Some (ops_of ex_hash)) []
      = (PBNS_OK, s0, w0)
  /\ recovery_run s0 w0 [(record_frame (replicate 16 9) PBNS_MESSAGE_DATA 1, mk_view 64 ex_image)] = Some (taken, acks, s, w1)
  /\ rc_page_data s = concat taken ++ drop (length (concat taken)) (replicate 5 255).
Proof.
  eexists _, _.
  destruct (@recovery_stream_exact bytes ex_hash ex_digest ex_hash_laws ex_setup [] _ _
    [(record_frame (replicate 16 9) PBNS_MESSAGE_DATA 1, mk_view 64 ex_image)]
    ltac:(split; [split; vm_compute; [reflexivity|discriminate]|reflexivity]) ltac:(vm_compute; reflexivity))
    as (taken & acks & s & w1 & E & _ & _ & _ & _ & Hd & _).
  exists taken, acks, s, w1. split; [vm_compute; reflexivity|]. split; [exact E|exact Hd].
Defined.

(** Mode T opens only the TPM pair and mode S only the software pair. *)
Example ex_assurance :
  let ops := mk_assurance_ops (Some (fun w : Z => (PBNS_OK, w + 1))) (Some (fun w => (PBNS_ERR_IO, w + 2))) in
  pbns_recovery_assurance_select 1 (Some ops) 0 = (PBNS_OK, 1)
  /\ pbns_recovery_assurance_select 2 (Some ops) 0 = (PBNS_ERR_IO, 2)
  /\ pbns_recovery_assurance_select 3 (Some ops) 0 = (PBNS_ERR_ARGUMENT, 0).
Proof. done. Qed.
