(* ===== verification/CborReader.v ===== *)
(** * Reading CBOR maps back

    What the sources rely on when they decode: the QCBOR decoder hands out the
    head of a map and then its fields, in order, with their labels.  The class
    [QCBORReads] states this for the serialization that the encoder writes; the
    reference implementation satisfies it. *)

From stdpp Require Import base list numbers.
From Stdlib Require Import ZArith Lia.
From S2P Require Import Prelude Endian Cbor.

(** An item that stands for a field of the map. *)
Definition item_matches (p : Z * cbor_value) (item : QCBORItem) : Prop :=
  uNestingLevel item = 1 /\ uLabelType item = QCBOR_TYPE_INT64 /\ label_int64 item = fst p
  /\ match snd p with
     | CUInt v =>
         if v <=? INT64_MAX then uDataType item = QCBOR_TYPE_INT64 /\ val_int64 item = v
         else uDataType item = QCBOR_TYPE_UINT64 /\ val_uint64 item = v
     | CInt v => uDataType item = QCBOR_TYPE_INT64 /\ val_int64 item = v
     | CText text => uDataType item = QCBOR_TYPE_TEXT_STRING /\ val_string item = text /\ val_string_ptr item <> 0
     | CBytes data => uDataType item = QCBOR_TYPE_BYTE_STRING /\ val_string item = data /\ val_string_ptr item <> 0
     end.

Definition head_matches (count : Z) (item : QCBORItem) : Prop :=
  uDataType item = QCBOR_TYPE_MAP /\ uLabelType item = QCBOR_TYPE_NONE /\ val_uCount item = count.

(** [pending] is what the decoder has still to hand out.  The number of fields
    that the decoder can count has 16 bits, as the bound on the octets ensures. *)
Class QCBORReads `{QCBOR} := {
  pending : QCBORDecodeContext -> list QCBORItem;
  reads_next : forall decoder item rest, pending decoder = item :: rest ->
    exists decoder', QCBORDecode_GetNext decoder = (Some item, decoder') /\ pending decoder' = rest;
  reads_map : forall fields, cbor_fields_ok fields -> zlen (cbor_map fields) <= UINT16_MAX ->
    exists head items, pending (QCBORDecode_Init (cbor_map fields)) = head :: items
    /\ head_matches (zlen fields) head /\ Forall2 item_matches fields items;
  reads_finish : forall decoder, pending decoder = [] -> QCBORDecode_Finish decoder = true;
}.

Section reading.
Context `{Q : QCBOR} `{!QCBORReads}.

Lemma next_item_matches (decoder : QCBORDecodeContext) p fields items :
  pending decoder = items -> Forall2 item_matches (p :: fields) items ->
  exists item rest decoder', next_item decoder (fst p) = (Some item, decoder') /\ pending decoder' = rest
  /\ item_matches p item /\ Forall2 item_matches fields rest.
Proof.
  intros Hp HF. destruct items as [|item rest]; [inversion HF|]. inversion_clear HF as [|? ? ? ? Hm Hrest].
  destruct (reads_next _ _ _ Hp) as (d' & E & Hp').
  exists item, rest, d'. unfold next_item. rewrite E. destruct Hm as (Hn & Ht & Hl & Hv). rewrite Hn, Ht, Hl, !Z.eqb_refl.
  cbn [negb orb]. split; [done|]. split; [done|]. done.
Qed.

Lemma item_matches_u64 label v item :
  0 <= v <= UINT64_MAX -> item_matches (label, CUInt v) item -> item_to_uint64 item = Some v.
Proof.
  intros Hv (_ & _ & _ & Hm). cbn in Hm. unfold item_to_uint64. destruct (v <=? INT64_MAX); destruct Hm as [-> ->].
  - by rewrite Z.eqb_refl, (proj2 (Z.leb_le 0 v)) by lia.
  - done.
Qed.
End reading.

#[export] Instance reference_reads : @QCBORReads reference_qcbor.
Proof.
  refine (@Build_QCBORReads reference_qcbor (fun items : @QCBORDecodeContext reference_qcbor => (items : list QCBORItem)) _ _ _).
  - intros decoder item rest ->. by eexists.
  - intros fields Hok _. cbn. unfold map_items. rewrite parse_map_map by done. eexists _, _. split; [done|].
    split; [unfold head_matches, norm_fields; cbn; by rewrite length_fmap|]. destruct Hok as [Hok _].
    induction Hok as [|[label v] fields [Hl Hv] _ IH]; [constructor|]. cbn. constructor; [|exact IH].
    cbn [snd cbor_value_ok] in Hv. destruct v as [v|v|l|l]; cbn.
    + unfold field_item, item_matches. cbn. by destruct (v <=? INT64_MAX).
    + unfold field_item, item_matches. destruct (Z.ltb_spec v 0); cbn; [done|].
      cbn [cbor_value_ok] in Hv. unfold INT64_MAX in *. rewrite (proj2 (Z.leb_le v 9223372036854775807)) by lia. done.
    + done.
    + done.
  - by intros decoder ->.
Qed.
