(* ===== verification/TrustedTime.v ===== *)
(** * Trusted time ([include/pbns/trusted_time.h], [src/core/trusted_time.c])

    The client asks the gateway for the time and gets a signed assertion back.
    The assertion is bound to the request by an identifier, a nonce and the
    host, must be the canonical encoding of its fields, and gives an interval
    that covers the uncertainty of the gateway and the round trip.

    Random numbers, signatures, the exchange and the clock are callbacks over a
    world [W]; the CBOR codec is the interface [QCBOR]. *)

From stdpp Require Import base list numbers.
From Stdlib Require Import ZArith Lia.
From S2P Require Import Prelude Endian Status Step Buffers Cbor Compare.

(** ** Constants *)

Definition PBNS_TIME_DOMAIN : bytes := [80; 66; 78; 83; 45; 84; 73; 77; 69; 45; 118; 49].
Definition PBNS_TIME_REQUEST_AAD : bytes :=
  [80; 66; 78; 83; 45; 84; 73; 77; 69; 45; 82; 69; 81; 85; 69; 83; 84; 45; 118; 49].
Definition PBNS_TIME_ASSERTION_AAD : bytes :=
  [80; 66; 78; 83; 45; 84; 73; 77; 69; 45; 65; 83; 83; 69; 82; 84; 73; 79; 78; 45; 118; 49].
Definition PBNS_TIME_VERSION : Z := 1.
Definition PBNS_TIME_SERVICE : Z := 1.
Definition PBNS_TIME_REQUEST_ID_SIZE : Z := 16.
Definition PBNS_TIME_FINGERPRINT_SIZE : Z := 32.
Definition PBNS_TIME_NONCE_SIZE : Z := 32.
Definition PBNS_TIME_QUALITY_MAX_SIZE : Z := 64.
Definition PBNS_TIME_KEY_ID_MAX_SIZE : Z := 64.
Definition PBNS_TIME_MAX_AGE_MS : Z := 60000.
Definition PBNS_TIME_ENCODED_MAX_SIZE : Z := 512.
Definition PBNS_TIME_SIGNED_MAX_SIZE : Z := 65536.
Definition PBNS_TIME_AAD_MAX_SIZE : Z := 192.
Definition PBNS_NANOSECONDS_PER_SECOND : Z := 1000000000.
Definition PBNS_NANOSECONDS_PER_MILLISECOND : Z := 1000000.

(** ** Data *)

Record pbns_trusted_time_request := mk_time_request {
  tr_request_id : bytes;
  tr_host_fingerprint : bytes;
  tr_nonce : bytes;
  tr_max_age_ms : Z;
}.

Record pbns_trusted_time_assertion := mk_assertion {
  ta_domain : pbns_view;
  ta_version : Z;
  ta_service : Z;
  ta_request_id : bytes;
  ta_host_fingerprint : bytes;
  ta_nonce : bytes;
  ta_unix_seconds : Z;
  ta_nanoseconds : Z;
  ta_uncertainty_ns : Z;
  ta_quality : pbns_view;
  ta_key_id : pbns_view;
  ta_max_age_ms : Z;
}.

Definition zero_assertion : pbns_trusted_time_assertion :=
  mk_assertion null_view 0 0 (replicate 16 0) (replicate 32 0) (replicate 32 0) 0 0 0 null_view null_view 0.

Record pbns_time_interval := mk_interval { ti_earliest_ns : Z; ti_latest_ns : Z }.
Definition zero_interval : pbns_time_interval := mk_interval 0 0.

(** ** Checks *)

Definition bytes_equal (left right : bytes) : bool := ct_equal left right.
Definition nonzero (value : bytes) : bool := ct_nonzero value.

Definition domain_is_valid (domain : pbns_view) : bool :=
  negb (v_ptr domain =? 0) && (v_len domain =? zlen PBNS_TIME_DOMAIN) && bytes_eqb (v_data domain) PBNS_TIME_DOMAIN.

Definition output_is_valid (output : pbns_buffer) : bool :=
  (b_len output =? 0) && (negb (b_ptr output =? 0) || (b_cap output =? 0)).

Definition request_is_valid (request : pbns_trusted_time_request) : bool :=
  nonzero (tr_request_id request) && nonzero (tr_host_fingerprint request) && nonzero (tr_nonce request)
  && (0 <? tr_max_age_ms request) && (tr_max_age_ms request <=? PBNS_TIME_MAX_AGE_MS).

Definition assertion_shape_is_valid (a : pbns_trusted_time_assertion) : bool :=
  view_is_valid (ta_domain a) && (0 <=? ta_unix_seconds a)
  && (ta_nanoseconds a <? PBNS_NANOSECONDS_PER_SECOND)
  && view_is_valid (ta_quality a) && (0 <? v_len (ta_quality a))
  && (v_len (ta_quality a) <=? PBNS_TIME_QUALITY_MAX_SIZE)
  && view_is_valid (ta_key_id a) && (0 <? v_len (ta_key_id a))
  && (v_len (ta_key_id a) <=? PBNS_TIME_KEY_ID_MAX_SIZE)
  && nonzero (ta_request_id a) && nonzero (ta_host_fingerprint a) && nonzero (ta_nonce a)
  && (0 <? ta_max_age_ms a) && (ta_max_age_ms a <=? PBNS_TIME_MAX_AGE_MS).

(** ** Encoding *)

(** The status and [*written], from the result of [QCBOREncode_Finish]. *)
Definition finish_encoding (error : QCBORError) (encoded : bytes) : pbns_status * Z :=
  match error with
  | QCBOR_ERR_BUFFER_TOO_SMALL => (PBNS_ERR_LIMIT, 0)
  | QCBOR_SUCCESS =>
      if (zlen encoded =? 0) || (PBNS_TIME_ENCODED_MAX_SIZE <? zlen encoded) then (PBNS_ERR_FORMAT, 0)
      else (PBNS_OK, zlen encoded)
  | QCBOR_ERR_OTHER => (PBNS_ERR_FORMAT, 0)
  end.

Section encoding.
Context `{QCBOR}.

(** The map of the fields is written into the first [limit] octets. *)
Definition encode_fields (fields : list (Z * cbor_value)) (limit : Z) (storage : bytes) : pbns_status * bytes * Z :=
  let '(error, encoded, data) := QCBOREncode_map fields (take (Z.to_nat limit) storage) in
  let '(status, written) := finish_encoding error encoded in
  (status, data ++ drop (Z.to_nat limit) storage, written).

Definition request_fields (request : pbns_trusted_time_request) : list (Z * cbor_value) :=
  [(1, CText PBNS_TIME_DOMAIN); (2, CUInt PBNS_TIME_VERSION); (3, CUInt PBNS_TIME_SERVICE);
   (4, CBytes (tr_request_id request)); (5, CBytes (tr_host_fingerprint request));
   (6, CBytes (tr_nonce request)); (7, CUInt (tr_max_age_ms request))].

(** [if (output.cap > PBNS_TIME_ENCODED_MAX_SIZE) output.cap = ...] *)
Definition clamp_capacity (output : pbns_buffer) : Z :=
  if PBNS_TIME_ENCODED_MAX_SIZE <? b_cap output then PBNS_TIME_ENCODED_MAX_SIZE else b_cap output.

(** The status, the octets of the output and [*written]. *)
Definition request_encode (request : pbns_trusted_time_request) (output : pbns_buffer) : pbns_status * bytes * Z :=
  if negb (output_is_valid output) then (PBNS_ERR_ARGUMENT, b_data output, 0)
  else if negb (request_is_valid request) then (PBNS_ERR_FORMAT, b_data output, 0)
  else encode_fields (request_fields request) (clamp_capacity output) (b_data output).

Definition pbns_trusted_time_request_encode (request : ptr pbns_trusted_time_request) (output : pbns_buffer)
    (written : ptr Z) : pbns_status * bytes * ptr Z :=
  match request, written with
  | Some request, Some _ => let '(status, data, written) := request_encode request output in (status, data, Some written)
  | _, _ => (PBNS_ERR_ARGUMENT, b_data output, (fun _ => 0) <$> written)
  end.

Definition assertion_fields (a : pbns_trusted_time_assertion) : list (Z * cbor_value) :=
  [(1, CText (v_data (ta_domain a))); (2, CUInt (ta_version a)); (3, CUInt (ta_service a));
   (4, CBytes (ta_request_id a)); (5, CBytes (ta_host_fingerprint a)); (6, CBytes (ta_nonce a));
   (7, CInt (ta_unix_seconds a)); (8, CUInt (ta_nanoseconds a)); (9, CUInt (ta_uncertainty_ns a));
   (10, CText (v_data (ta_quality a))); (11, CBytes (v_data (ta_key_id a))); (12, CUInt (ta_max_age_ms a))].

Definition assertion_encode_unchecked (a : pbns_trusted_time_assertion) (limit : Z) (storage : bytes)
  : pbns_status * bytes * Z := encode_fields (assertion_fields a) limit storage.

Definition assertion_encode (a : pbns_trusted_time_assertion) (output : pbns_buffer) : pbns_status * bytes * Z :=
  if negb (output_is_valid output) then (PBNS_ERR_ARGUMENT, b_data output, 0)
  else if negb (assertion_shape_is_valid a) || negb (domain_is_valid (ta_domain a))
          || negb (ta_version a =? PBNS_TIME_VERSION) || negb (ta_service a =? PBNS_TIME_SERVICE)
  then (PBNS_ERR_FORMAT, b_data output, 0)
  else assertion_encode_unchecked a (clamp_capacity output) (b_data output).

Definition pbns_trusted_time_assertion_encode (assertion : ptr pbns_trusted_time_assertion) (output : pbns_buffer)
    (written : ptr Z) : pbns_status * bytes * ptr Z :=
  match assertion, written with
  | Some a, Some _ => let '(status, data, written) := assertion_encode a output in (status, data, Some written)
  | _, _ => (PBNS_ERR_ARGUMENT, b_data output, (fun _ => 0) <$> written)
  end.

(** ** Decoding *)

(** A field of the map; [None] is a missing or ill-typed field. *)
Definition decode_u64 (decoder : QCBORDecodeContext) (label : Z) : option (Z * QCBORDecodeContext) :=
  let '(item, decoder) := next_item decoder label in
  value ← item ≫= item_to_uint64; Some (value, decoder).

Definition decode_string (type : Z) (decoder : QCBORDecodeContext) (label : Z)
  : option (pbns_view * QCBORDecodeContext) :=
  let '(item, decoder) := next_item decoder label in
  item ← item;
  if negb (uDataType item =? type) then None
  else Some (mk_view (val_string_ptr item) (val_string item), decoder).

Definition decode_bytes (decoder : QCBORDecodeContext) (label expected_size : Z)
  : option (bytes * QCBORDecodeContext) :=
  '(view, decoder) ← decode_string QCBOR_TYPE_BYTE_STRING decoder label;
  if negb (v_len view =? expected_size) then None else Some (v_data view, decoder).

Definition decode_seconds (decoder : QCBORDecodeContext) (label : Z) : option (Z * QCBORDecodeContext) :=
  let '(item, decoder) := next_item decoder label in
  item ← item;
  if negb (uDataType item =? QCBOR_TYPE_INT64) || (val_int64 item <? 0) then None
  else Some (val_int64 item, decoder).

Definition decode_u32 (decoder : QCBORDecodeContext) (label : Z) : option (Z * QCBORDecodeContext) :=
  '(value, decoder) ← decode_u64 decoder label;
  if UINT32_MAX <? value then None else Some (u32 value, decoder).

Definition decode_map_head (decoder : QCBORDecodeContext) (count : Z) : option QCBORDecodeContext :=
  let '(item, decoder) := QCBORDecode_GetNext decoder in
  item ← item;
  if negb (uDataType item =? QCBOR_TYPE_MAP) || negb (uLabelType item =? QCBOR_TYPE_NONE)
     || negb (val_uCount item =? count) then None
  else Some decoder.

(** [None] is [PBNS_ERR_FORMAT]. *)
Definition decode_assertion (encoded : bytes) : option pbns_trusted_time_assertion :=
  decoder ← decode_map_head (QCBORDecode_Init encoded) 12;
  '(domain, decoder) ← decode_string QCBOR_TYPE_TEXT_STRING decoder 1;
  '(version, decoder) ← decode_u64 decoder 2;
  '(service, decoder) ← decode_u64 decoder 3;
  '(request_id, decoder) ← decode_bytes decoder 4 PBNS_TIME_REQUEST_ID_SIZE;
  '(host_fingerprint, decoder) ← decode_bytes decoder 5 PBNS_TIME_FINGERPRINT_SIZE;
  '(nonce, decoder) ← decode_bytes decoder 6 PBNS_TIME_NONCE_SIZE;
  '(unix_seconds, decoder) ← decode_seconds decoder 7;
  '(nanoseconds, decoder) ← decode_u32 decoder 8;
  '(uncertainty_ns, decoder) ← decode_u64 decoder 9;
  '(quality, decoder) ← decode_string QCBOR_TYPE_TEXT_STRING decoder 10;
  '(key_id, decoder) ← decode_string QCBOR_TYPE_BYTE_STRING decoder 11;
  '(max_age_ms, decoder) ← decode_u32 decoder 12;
  let assertion := mk_assertion domain version service request_id host_fingerprint nonce unix_seconds
                     nanoseconds uncertainty_ns quality key_id max_age_ms in
  if negb (QCBORDecode_Finish decoder) || negb (assertion_shape_is_valid assertion) then None else Some assertion.

Context `{Machine}.

Definition time_buffers_overlap (input : pbns_view) (output : pbns_buffer) : bool :=
  ranges_overlap (v_ptr input) (v_len input) (b_ptr output) (b_cap output).

(** The status, the octets of the scratch buffer and the assertion. *)
Definition decode_verified_assertion (verified_payload expected_key_id : pbns_view) (canonical_scratch : pbns_buffer)
  : pbns_status * bytes * pbns_trusted_time_assertion :=
  let fail status data := (status, data, zero_assertion) in
  if negb (view_is_valid verified_payload) || (v_len verified_payload =? 0)
     || (PBNS_TIME_ENCODED_MAX_SIZE <? v_len verified_payload)
     || negb (view_is_valid expected_key_id) || (v_len expected_key_id =? 0)
     || (PBNS_TIME_KEY_ID_MAX_SIZE <? v_len expected_key_id) || negb (output_is_valid canonical_scratch)
  then fail PBNS_ERR_ARGUMENT (b_data canonical_scratch)
  else if b_cap canonical_scratch <? v_len verified_payload then fail PBNS_ERR_LIMIT (b_data canonical_scratch)
  else if time_buffers_overlap verified_payload canonical_scratch
  then fail PBNS_ERR_ARGUMENT (b_data canonical_scratch)
  else
  match decode_assertion (v_data verified_payload) with
  | None => fail PBNS_ERR_FORMAT (b_data canonical_scratch)
  | Some decoded =>
      let '(status, scratch, canonical_size) :=
        assertion_encode_unchecked decoded (b_cap canonical_scratch) (b_data canonical_scratch) in
      if negb (is_ok status) || negb (canonical_size =? v_len verified_payload)
         || negb (bytes_eqb (take (Z.to_nat canonical_size) scratch) (v_data verified_payload))
      then fail PBNS_ERR_FORMAT scratch
      else if negb (domain_is_valid (ta_domain decoded)) then fail PBNS_ERR_AUTHENTICATION scratch
      else if negb (v_len (ta_key_id decoded) =? v_len expected_key_id)
              || negb (bytes_equal (v_data (ta_key_id decoded)) (v_data expected_key_id))
      then fail PBNS_ERR_AUTHENTICATION scratch
      else if negb (ta_version decoded =? PBNS_TIME_VERSION) then fail PBNS_ERR_VERSION scratch
      else if negb (ta_service decoded =? PBNS_TIME_SERVICE) then fail PBNS_ERR_SERVICE scratch
      else (PBNS_OK, scratch, decoded)
  end.

Definition pbns_trusted_time_decode_verified_assertion (verified_payload expected_key_id : pbns_view)
    (canonical_scratch : pbns_buffer) (assertion : ptr pbns_trusted_time_assertion)
  : pbns_status * bytes * ptr pbns_trusted_time_assertion :=
  match assertion with
  | None => (PBNS_ERR_ARGUMENT, b_data canonical_scratch, None)
  | Some _ =>
      let '(status, scratch, a) := decode_verified_assertion verified_payload expected_key_id canonical_scratch in
      (status, scratch, Some a)
  end.
End encoding.

(** ** Additional authenticated data *)

(** The status, the octets of the output and [*written]. *)
Definition assertion_aad (request_id host_fingerprint nonce : bytes) (key_id : pbns_view) (output : pbns_buffer)
  : option (pbns_status * bytes * Z) :=
  if negb (view_is_valid key_id) || (v_len key_id =? 0) || (PBNS_TIME_KEY_ID_MAX_SIZE <? v_len key_id)
     || negb (output_is_valid output)
  then Some (PBNS_ERR_ARGUMENT, b_data output, 0)
  else
  let required := zlen PBNS_TIME_ASSERTION_AAD + PBNS_TIME_REQUEST_ID_SIZE + PBNS_TIME_FINGERPRINT_SIZE
                  + PBNS_TIME_NONCE_SIZE + v_len key_id in
  if b_cap output <? required then Some (PBNS_ERR_LIMIT, b_data output, 0)
  else
  let offset := 0 in
  out ← wr_list (b_data output) offset PBNS_TIME_ASSERTION_AAD;
  let offset := offset + zlen PBNS_TIME_ASSERTION_AAD in
  out ← wr_list out offset request_id;
  let offset := offset + PBNS_TIME_REQUEST_ID_SIZE in
  out ← wr_list out offset host_fingerprint;
  let offset := offset + PBNS_TIME_FINGERPRINT_SIZE in
  out ← wr_list out offset nonce;
  let offset := offset + PBNS_TIME_NONCE_SIZE in
  out ← wr_list out offset (v_data key_id);
  Some (PBNS_OK, out, required).

Definition pbns_trusted_time_assertion_aad (request_id host_fingerprint nonce : ptr bytes) (key_id : pbns_view)
    (output : pbns_buffer) (written : ptr Z) : option (pbns_status * bytes * ptr Z) :=
  match request_id, host_fingerprint, nonce, written with
  | Some request_id, Some host_fingerprint, Some nonce, Some _ =>
      '(status, out, written) ← assertion_aad request_id host_fingerprint nonce key_id output;
      Some (status, out, Some written)
  | _, _, _, _ => Some (PBNS_ERR_ARGUMENT, b_data output, (fun _ => 0) <$> written)
  end.

(** ** Intervals *)

(** A result of signed arithmetic; outside the type the behaviour is undefined. *)
Definition int64 (z : Z) : option Z := if (- 2 ^ 63 <=? z) && (z <=? INT64_MAX) then Some z else None.

Definition interval_from_assertion (a : pbns_trusted_time_assertion) (round_trip_ns : Z)
  : option (pbns_status * pbns_time_interval) :=
  if (ta_unix_seconds a <? 0) || (PBNS_NANOSECONDS_PER_SECOND <=? ta_nanoseconds a)
  then Some (PBNS_ERR_FORMAT, zero_interval)
  else
  room ← int64 (INT64_MAX - ta_nanoseconds a);
  if Z.quot room PBNS_NANOSECONDS_PER_SECOND <? ta_unix_seconds a then Some (PBNS_ERR_LIMIT, zero_interval)
  else
  seconds_ns ← int64 (ta_unix_seconds a * PBNS_NANOSECONDS_PER_SECOND);
  asserted_ns ← int64 (seconds_ns + ta_nanoseconds a);
  if (INT64_MAX <? ta_uncertainty_ns a) || (u64 asserted_ns <? ta_uncertainty_ns a)
  then Some (PBNS_ERR_LIMIT, zero_interval)
  else
  room ← int64 (INT64_MAX - asserted_ns);
  if (INT64_MAX <? round_trip_ns) || (u64 room <? round_trip_ns) then Some (PBNS_ERR_LIMIT, zero_interval)
  else
  latest_without_uncertainty ← int64 (asserted_ns + round_trip_ns);
  room ← int64 (INT64_MAX - latest_without_uncertainty);
  if u64 room <? ta_uncertainty_ns a then Some (PBNS_ERR_LIMIT, zero_interval)
  else
  earliest_ns ← int64 (asserted_ns - ta_uncertainty_ns a);
  latest_ns ← int64 (latest_without_uncertainty + ta_uncertainty_ns a);
  Some (PBNS_OK, mk_interval earliest_ns latest_ns).

Definition pbns_time_interval_from_assertion (assertion : ptr pbns_trusted_time_assertion) (round_trip_ns : Z)
    (interval : ptr pbns_time_interval) : option (pbns_status * ptr pbns_time_interval) :=
  match assertion, interval with
  | Some a, Some _ => '(status, interval) ← interval_from_assertion a round_trip_ns; Some (status, Some interval)
  | _, _ => Some (PBNS_ERR_ARGUMENT, interval)
  end.

Definition pbns_time_interval_within (interval : ptr pbns_time_interval) (not_before_ns not_after_ns : Z) : bool :=
  match interval with
  | None => false
  | Some i =>
      (ti_earliest_ns i <=? ti_latest_ns i) && (not_before_ns <=? not_after_ns)
      && (not_before_ns <=? ti_earliest_ns i) && (ti_latest_ns i <=? not_after_ns)
  end.

Definition accept_verified_assertion (a : pbns_trusted_time_assertion)
    (expected_request_id expected_host_fingerprint expected_nonce : bytes) (round_trip_ms maximum_round_trip_ms : Z)
    (previous_interval : ptr pbns_time_interval) : option (pbns_status * pbns_time_interval) :=
  let fail status := Some (status, zero_interval) in
  if negb (ta_version a =? PBNS_TIME_VERSION) || negb (ta_service a =? PBNS_TIME_SERVICE)
     || negb (view_is_valid (ta_quality a)) || (v_len (ta_quality a) =? 0)
     || (PBNS_TIME_QUALITY_MAX_SIZE <? v_len (ta_quality a))
     || negb (view_is_valid (ta_key_id a)) || (v_len (ta_key_id a) =? 0)
     || (PBNS_TIME_KEY_ID_MAX_SIZE <? v_len (ta_key_id a))
     || (ta_max_age_ms a =? 0) || (PBNS_TIME_MAX_AGE_MS <? ta_max_age_ms a)
  then fail PBNS_ERR_FORMAT
  else if match previous_interval with Some p => ti_latest_ns p <? ti_earliest_ns p | None => false end
  then fail PBNS_ERR_ARGUMENT
  else if negb (domain_is_valid (ta_domain a)) || negb (bytes_equal (ta_request_id a) expected_request_id)
          || negb (bytes_equal (ta_host_fingerprint a) expected_host_fingerprint)
          || negb (bytes_equal (ta_nonce a) expected_nonce)
  then fail PBNS_ERR_AUTHENTICATION
  else if (maximum_round_trip_ms <? round_trip_ms) || (ta_max_age_ms a <? round_trip_ms) then fail PBNS_ERR_TIMEOUT
  else if UINT64_MAX / PBNS_NANOSECONDS_PER_MILLISECOND <? round_trip_ms then fail PBNS_ERR_LIMIT
  else
  let round_trip_ns := u64 (round_trip_ms * PBNS_NANOSECONDS_PER_MILLISECOND) in
  '(status, interval) ← interval_from_assertion a round_trip_ns;
  if negb (is_ok status) then Some (status, interval)
  else if match previous_interval with Some p => ti_earliest_ns interval <=? ti_earliest_ns p | None => false end
  then fail PBNS_ERR_REPLAY
  else Some (PBNS_OK, interval).

Definition pbns_trusted_time_accept_verified_assertion (assertion : ptr pbns_trusted_time_assertion)
    (expected_request_id expected_host_fingerprint expected_nonce : ptr bytes)
    (round_trip_ms maximum_round_trip_ms : Z) (previous_interval interval : ptr pbns_time_interval)
  : option (pbns_status * ptr pbns_time_interval) :=
  match assertion, expected_request_id, expected_host_fingerprint, expected_nonce, interval with
  | Some a, Some id, Some fingerprint, Some nonce, Some _ =>
      '(status, interval) ← accept_verified_assertion a id fingerprint nonce round_trip_ms maximum_round_trip_ms previous_interval;
      Some (status, Some interval)
  | _, _, _, _, _ => Some (PBNS_ERR_ARGUMENT, interval)
  end.

(** ** The query *)

(** Callbacks: the contents of an output buffer and [*written] are results. *)
Record pbns_trusted_time_client (W : Type) := mk_time_client {
  tc_random_fill : ptr (W -> bytes -> pbns_status * bytes * W);
  tc_sign_request : ptr (W -> bytes -> bytes -> bytes -> pbns_status * bytes * Z * W);
  tc_exchange : ptr (W -> bytes -> bytes -> pbns_status * bytes * Z * W);
  tc_verify_assertion : ptr (W -> bytes -> bytes -> pbns_status * pbns_view * W);
  tc_monotonic_ms : ptr (W -> pbns_status * Z * W);
  tc_time_key_id : pbns_view;
  tc_maximum_round_trip_ms : Z;
}.
Arguments mk_time_client {W}.
Arguments tc_random_fill {W}.
Arguments tc_sign_request {W}.
Arguments tc_exchange {W}.
Arguments tc_verify_assertion {W}.
Arguments tc_monotonic_ms {W}.
Arguments tc_time_key_id {W}.
Arguments tc_maximum_round_trip_ms {W}.

Record pbns_trusted_time_workspace := mk_time_workspace {
  tw_request_payload : pbns_buffer;
  tw_signed_request : pbns_buffer;
  tw_signed_response : pbns_buffer;
  tw_canonical_scratch : pbns_buffer;
  tw_aad : pbns_buffer;
}.

Definition workspace_buffers (ws : pbns_trusted_time_workspace) : list pbns_buffer :=
  [tw_request_payload ws; tw_signed_request ws; tw_signed_response ws; tw_canonical_scratch ws; tw_aad ws].

(** Every buffer against every later one. *)
Fixpoint buffers_disjoint `{Machine} (buffers : list pbns_buffer) : bool :=
  match buffers with
  | [] => true
  | first :: rest =>
      forallb (fun right => negb (time_buffers_overlap (mk_view (b_ptr first) (b_data first)) right)) rest
      && buffers_disjoint rest
  end.

Definition workspace_is_valid `{Machine} (ws : pbns_trusted_time_workspace) : bool :=
  forallb output_is_valid (workspace_buffers ws)
  && (b_cap (tw_request_payload ws) =? PBNS_TIME_ENCODED_MAX_SIZE)
  && negb (b_cap (tw_signed_request ws) =? 0) && (b_cap (tw_signed_request ws) <=? PBNS_TIME_SIGNED_MAX_SIZE)
  && negb (b_cap (tw_signed_response ws) =? 0) && (b_cap (tw_signed_response ws) <=? PBNS_TIME_SIGNED_MAX_SIZE)
  && (b_cap (tw_canonical_scratch ws) =? PBNS_TIME_ENCODED_MAX_SIZE)
  && (b_cap (tw_aad ws) <=? PBNS_TIME_AAD_MAX_SIZE)
  && (zlen PBNS_TIME_ASSERTION_AAD + PBNS_TIME_REQUEST_ID_SIZE + PBNS_TIME_FINGERPRINT_SIZE + PBNS_TIME_NONCE_SIZE
      + PBNS_TIME_KEY_ID_MAX_SIZE <=? b_cap (tw_aad ws))
  && buffers_disjoint (workspace_buffers ws).

Definition client_is_valid {W} (client : pbns_trusted_time_client W) : bool :=
  match client with
  | mk_time_client (Some _) (Some _) (Some _) (Some _) (Some _) key_id maximum =>
      view_is_valid key_id && (0 <? v_len key_id) && (v_len key_id <=? PBNS_TIME_KEY_ID_MAX_SIZE)
      && (0 <? maximum) && (maximum <=? PBNS_TIME_MAX_AGE_MS)
  | _ => false
  end.

(** The steps of a query change the workspace and the world. *)
Definition query_step (W A : Type) : Type := step pbns_trusted_time_workspace W A.

Section query.
Context {W : Type} `{QCBOR} `{Machine}.
Variables (client : pbns_trusted_time_client W) (host_fingerprint : bytes) (previous_interval : ptr pbns_time_interval).

Definition fill_random : query_step W bytes := fun ws w =>
  random_fill ← tc_random_fill client;
  let '(status, random, w) := random_fill w (replicate 48 0) in
  if negb (is_ok status) then end_step status ws w else ret_step random ws w.

(** The request, from the random octets. *)
Definition make_request (random : bytes) : query_step W pbns_trusted_time_request := fun ws w =>
  request_id ← rd_slice random 0 PBNS_TIME_REQUEST_ID_SIZE;
  nonce ← rd_slice random PBNS_TIME_REQUEST_ID_SIZE PBNS_TIME_NONCE_SIZE;
  ret_step (mk_time_request request_id host_fingerprint nonce (u32 (tc_maximum_round_trip_ms client))) ws w.

Definition encode_request (request : pbns_trusted_time_request) : query_step W Z := fun ws w =>
  let '(status, data, size) := request_encode request (tw_request_payload ws) in
  let ws := mk_time_workspace (with_data (tw_request_payload ws) data) (tw_signed_request ws) (tw_signed_response ws)
              (tw_canonical_scratch ws) (tw_aad ws) in
  if negb (is_ok status) then end_step status ws w else ret_step size ws w.

Definition sign_request (request_payload_size : Z) : query_step W Z := fun ws w =>
  sign ← tc_sign_request client;
  payload ← rd_slice (b_data (tw_request_payload ws)) 0 request_payload_size;
  let '(status, data, size, w) := sign w payload PBNS_TIME_REQUEST_AAD (b_data (tw_signed_request ws)) in
  let ws := mk_time_workspace (tw_request_payload ws) (with_data (tw_signed_request ws) data) (tw_signed_response ws)
              (tw_canonical_scratch ws) (tw_aad ws) in
  if negb (is_ok status) || (size =? 0) || (b_cap (tw_signed_request ws) <? size)
  then end_step (if is_ok status then PBNS_ERR_IO else status) ws w
  else ret_step size ws w.

Definition read_clock : query_step W Z := fun ws w =>
  monotonic_ms ← tc_monotonic_ms client;
  let '(status, ms, w) := monotonic_ms w in
  if negb (is_ok status) then end_step status ws w else ret_step ms ws w.

(** The status of the exchange is looked at after the clock. *)
Definition run_exchange (signed_request_size : Z) : query_step W (pbns_status * Z) := fun ws w =>
  exchange ← tc_exchange client;
  message ← rd_slice (b_data (tw_signed_request ws)) 0 signed_request_size;
  let '(status, data, size, w) := exchange w message (b_data (tw_signed_response ws)) in
  let ws := mk_time_workspace (tw_request_payload ws) (tw_signed_request ws) (with_data (tw_signed_response ws) data)
              (tw_canonical_scratch ws) (tw_aad ws) in
  ret_step (status, size) ws w.

Definition check_exchange (exchange_status : pbns_status) (signed_response_size started_ms finished_ms : Z)
  : query_step W Z := fun ws w =>
  if negb (is_ok exchange_status) then end_step exchange_status ws w
  else if (signed_response_size =? 0) || (b_cap (tw_signed_response ws) <? signed_response_size)
  then end_step PBNS_ERR_IO ws w
  else if finished_ms <? started_ms then end_step PBNS_ERR_STATE ws w
  else
  let round_trip_ms := finished_ms - started_ms in
  if tc_maximum_round_trip_ms client <? round_trip_ms then end_step PBNS_ERR_TIMEOUT ws w
  else ret_step round_trip_ms ws w.

Definition make_aad (request : pbns_trusted_time_request) : query_step W Z := fun ws w =>
  '(status, data, size) ← assertion_aad (tr_request_id request) (tr_host_fingerprint request) (tr_nonce request)
                            (tc_time_key_id client) (tw_aad ws);
  let ws := mk_time_workspace (tw_request_payload ws) (tw_signed_request ws) (tw_signed_response ws)
              (tw_canonical_scratch ws) (with_data (tw_aad ws) data) in
  if negb (is_ok status) then end_step status ws w else ret_step size ws w.

Definition verify_response (signed_response_size aad_size : Z) : query_step W pbns_view := fun ws w =>
  verify ← tc_verify_assertion client;
  message ← rd_slice (b_data (tw_signed_response ws)) 0 signed_response_size;
  aad ← rd_slice (b_data (tw_aad ws)) 0 aad_size;
  let '(status, verified_payload, w) := verify w message aad in
  if negb (is_ok status) then end_step status ws w else ret_step verified_payload ws w.

Definition decode_response (request : pbns_trusted_time_request) (verified_payload : pbns_view)
  : query_step W pbns_trusted_time_assertion := fun ws w =>
  let '(status, data, assertion) :=
    decode_verified_assertion verified_payload (tc_time_key_id client) (tw_canonical_scratch ws) in
  let ws := mk_time_workspace (tw_request_payload ws) (tw_signed_request ws) (tw_signed_response ws)
              (with_data (tw_canonical_scratch ws) data) (tw_aad ws) in
  if negb (is_ok status) then end_step status ws w
  else if negb (ta_max_age_ms assertion =? tr_max_age_ms request) then end_step PBNS_ERR_AUTHENTICATION ws w
  else ret_step assertion ws w.

Definition accept_response (request : pbns_trusted_time_request) (round_trip_ms : Z)
    (assertion : pbns_trusted_time_assertion) : query_step W pbns_time_interval := fun ws w =>
  '(status, interval) ← accept_verified_assertion assertion (tr_request_id request) (tr_host_fingerprint request)
                          (tr_nonce request) round_trip_ms (tc_maximum_round_trip_ms client) previous_interval;
  if negb (is_ok status) then end_step status ws w else ret_step interval ws w.

Definition query_body : query_step W pbns_time_interval :=
  let* random := fill_random in
  let* request := make_request random in
  let* request_payload_size := encode_request request in
  let* signed_request_size := sign_request request_payload_size in
  let* started_ms := read_clock in
  let* (exchange_status, signed_response_size) := run_exchange signed_request_size in
  let* finished_ms := read_clock in
  let* round_trip_ms := check_exchange exchange_status signed_response_size started_ms finished_ms in
  let* aad_size := make_aad request in
  let* verified_payload := verify_response signed_response_size aad_size in
  let* assertion := decode_response request verified_payload in
  accept_response request round_trip_ms assertion.

Definition secure_zero (buffer : pbns_buffer) : pbns_buffer := with_data buffer (replicate (length (b_data buffer)) 0).

Definition query_finish (ws : pbns_trusted_time_workspace) : pbns_trusted_time_workspace :=
  mk_time_workspace (secure_zero (tw_request_payload ws)) (secure_zero (tw_signed_request ws))
    (secure_zero (tw_signed_response ws)) (secure_zero (tw_canonical_scratch ws)) (secure_zero (tw_aad ws)).

Definition time_query (ws : pbns_trusted_time_workspace) (w : W)
  : option (pbns_status * pbns_time_interval * pbns_trusted_time_workspace * W) :=
  if negb (client_is_valid client) || negb (nonzero host_fingerprint) || negb (workspace_is_valid ws)
  then Some (PBNS_ERR_ARGUMENT, zero_interval, ws, w)
  else
  match query_body ws w with
  | None => None
  | Some (inl status, ws, w) => Some (status, zero_interval, query_finish ws, w)
  | Some (inr interval, ws, w) => Some (PBNS_OK, interval, query_finish ws, w)
  end.
End query.

Definition pbns_trusted_time_query {W} `{QCBOR} `{Machine} (client : ptr (pbns_trusted_time_client W))
    (host_fingerprint : ptr bytes) (previous_interval : ptr pbns_time_interval)
    (workspace : ptr pbns_trusted_time_workspace) (interval : ptr pbns_time_interval) (w : W)
  : option (pbns_status * ptr pbns_time_interval * ptr pbns_trusted_time_workspace * W) :=
  match client, host_fingerprint, workspace, interval with
  | Some client, Some host_fingerprint, Some ws, Some _ =>
      '(status, interval, ws, w) ← time_query client host_fingerprint previous_interval ws w;
      Some (status, Some interval, Some ws, w)
  | _, _, _, _ => Some (PBNS_ERR_ARGUMENT, (fun _ => zero_interval) <$> interval, workspace, w)
  end.
