(* ===== verification/TimeProps.v ===== *)
(** * Trusted time: correctness

    Intervals never overflow and cover the time they stand for; an assertion is
    accepted only in its canonical encoding and for the expected key; a query
    that succeeds is bound to fresh random numbers, to the host and to an
    assertion that the verifier vouched for, and every query wipes its
    workspace. *)

From stdpp Require Import base list numbers.
From Stdlib Require Import ZArith Lia.
From S2P Require Import Prelude Endian Status Buffers Cbor CborReader Compare TrustedTime.

(** ** Intervals *)

(** The ranges of the C fields. *)
Definition assertion_typed (a : pbns_trusted_time_assertion) : Prop :=
  - 2 ^ 63 <= ta_unix_seconds a <= INT64_MAX /\ 0 <= ta_nanoseconds a <= UINT32_MAX
  /\ 0 <= ta_uncertainty_ns a <= UINT64_MAX.

Definition asserted_time (a : pbns_trusted_time_assertion) : Z :=
  ta_unix_seconds a * PBNS_NANOSECONDS_PER_SECOND + ta_nanoseconds a.

Lemma int64_some z : - 9223372036854775808 <= z <= INT64_MAX -> int64 z = Some z.
Proof. change 9223372036854775808 with (2 ^ 63). intros. unfold int64. rewrite (proj2 (Z.leb_le (- 2 ^ 63) z)), (proj2 (Z.leb_le z INT64_MAX)) by lia. done. Qed.

(** The division test is the bound it stands for. *)
Lemma seconds_fit s ns :
  0 <= s -> 0 <= ns < PBNS_NANOSECONDS_PER_SECOND ->
  (Z.quot (INT64_MAX - ns) PBNS_NANOSECONDS_PER_SECOND < s <-> INT64_MAX < s * PBNS_NANOSECONDS_PER_SECOND + ns).
Proof.
  unfold PBNS_NANOSECONDS_PER_SECOND, INT64_MAX. intros Hs Hn. rewrite Z.quot_div_nonneg by lia.
  pose proof (Z.div_mod (9223372036854775807 - ns) 1000000000 ltac:(lia)).
  pose proof (Z.mod_pos_bound (9223372036854775807 - ns) 1000000000 ltac:(lia)). lia.
Qed.

Lemma interval_cases a rt :
  assertion_typed a -> 0 <= rt <= UINT64_MAX ->
  let t := asserted_time a in
  exists st i, interval_from_assertion a rt = Some (st, i)
  /\ ((st = PBNS_ERR_FORMAT /\ i = zero_interval
       /\ (ta_unix_seconds a < 0 \/ PBNS_NANOSECONDS_PER_SECOND <= ta_nanoseconds a))
      \/ (0 <= ta_unix_seconds a /\ ta_nanoseconds a < PBNS_NANOSECONDS_PER_SECOND
          /\ (st = PBNS_ERR_LIMIT /\ i = zero_interval
              /\ (t < ta_uncertainty_ns a \/ INT64_MAX < t + rt + ta_uncertainty_ns a)
              \/ st = PBNS_OK /\ i = mk_interval (t - ta_uncertainty_ns a) (t + rt + ta_uncertainty_ns a)
              /\ ta_uncertainty_ns a <= t /\ t + rt + ta_uncertainty_ns a <= INT64_MAX))).
Proof.
  intros (Hs & Hn & Hu) Hrt t. unfold interval_from_assertion.
  destruct (Z.ltb_spec (ta_unix_seconds a) 0); cbn [orb]; [eexists _, _; split; [done|]; left; auto|].
  destruct (Z.leb_spec PBNS_NANOSECONDS_PER_SECOND (ta_nanoseconds a)); [eexists _, _; split; [done|]; left; auto|].
  pose proof (seconds_fit (ta_unix_seconds a) (ta_nanoseconds a) ltac:(lia) ltac:(lia)) as Hfit.
  fold (asserted_time a) in Hfit. fold t in Hfit.
  assert (Ht : t = ta_unix_seconds a * PBNS_NANOSECONDS_PER_SECOND + ta_nanoseconds a) by done.
  unfold PBNS_NANOSECONDS_PER_SECOND, INT64_MAX, UINT32_MAX, UINT64_MAX in *.
  rewrite (int64_some (9223372036854775807 - ta_nanoseconds a)) by (unfold INT64_MAX; lia). cbn [mbind option_bind].
  destruct (Z.ltb_spec (Z.quot (9223372036854775807 - ta_nanoseconds a) 1000000000) (ta_unix_seconds a)) as [Hq|Hq].
  { eexists _, _. split; [done|]. right. split; [lia|]. split; [lia|]. left. split; [done|]. split; [done|]. lia. }
  rewrite (int64_some (ta_unix_seconds a * 1000000000)) by (unfold INT64_MAX; lia). cbn [mbind option_bind]. rewrite <- Ht.
  rewrite (int64_some (t)) by (unfold INT64_MAX; lia). cbn [mbind option_bind].
  rewrite (u64_small (t)) by (unfold UINT64_MAX; lia).
  destruct (Z.ltb_spec 9223372036854775807 (ta_uncertainty_ns a)); cbn [orb].
  { eexists _, _. split; [done|]. right. split; [lia|]. split; [lia|]. left. split; [done|]. split; [done|]. lia. }
  destruct (Z.ltb_spec t (ta_uncertainty_ns a)).
  { eexists _, _. split; [done|]. right. split; [lia|]. split; [lia|]. left. split; [done|]. split; [done|]. lia. }
  rewrite (int64_some (9223372036854775807 - t)) by (unfold INT64_MAX; lia). cbn [mbind option_bind]. rewrite (u64_small (9223372036854775807 - t)) by (unfold UINT64_MAX; lia).
  destruct (Z.ltb_spec 9223372036854775807 rt); cbn [orb].
  { eexists _, _. split; [done|]. right. split; [lia|]. split; [lia|]. left. split; [done|]. split; [done|]. lia. }
  destruct (Z.ltb_spec (9223372036854775807 - t) rt).
  { eexists _, _. split; [done|]. right. split; [lia|]. split; [lia|]. left. split; [done|]. split; [done|]. lia. }
  rewrite (int64_some (t + rt)) by (unfold INT64_MAX; lia). cbn [mbind option_bind].
  rewrite (int64_some (9223372036854775807 - (t + rt))) by (unfold INT64_MAX; lia). cbn [mbind option_bind]. rewrite (u64_small (9223372036854775807 - (t + rt))) by (unfold UINT64_MAX; lia).
  destruct (Z.ltb_spec (9223372036854775807 - (t + rt)) (ta_uncertainty_ns a)).
  { eexists _, _. split; [done|]. right. split; [lia|]. split; [lia|]. left. split; [done|]. split; [done|]. lia. }
  rewrite (int64_some (t - ta_uncertainty_ns a)) by (unfold INT64_MAX; lia). cbn [mbind option_bind].
  rewrite (int64_some (t + rt + ta_uncertainty_ns a)) by (unfold INT64_MAX; lia). cbn [mbind option_bind].
  eexists _, _. split; [done|]. right. split; [lia|]. split; [lia|]. right. split; [done|]. split; [done|]. lia.
Qed.

(** C33: the interval of an assertion is computed without overflow for every
    input.  It is refused exactly when the fields are out of range or a bound
    would leave [0, INT64_MAX], and is otherwise the asserted time widened by
    the uncertainty on both sides and by the round trip at the end.  It covers
    the present: if the asserted time was within the uncertainty of the true
    one when it was asserted, and no more than the round trip has passed since,
    the true time now lies in the interval. *)
Theorem time_interval_exact (a : pbns_trusted_time_assertion) (round_trip_ns : Z) :
  assertion_typed a -> 0 <= round_trip_ns <= UINT64_MAX ->
  exists st i, interval_from_assertion a round_trip_ns = Some (st, i)
  /\ (st = PBNS_OK <-> 0 <= ta_unix_seconds a /\ ta_nanoseconds a < PBNS_NANOSECONDS_PER_SECOND
        /\ 0 <= asserted_time a - ta_uncertainty_ns a
        /\ asserted_time a + round_trip_ns + ta_uncertainty_ns a <= INT64_MAX)
  /\ (st <> PBNS_OK -> i = zero_interval)
  /\ (st = PBNS_OK -> i = mk_interval (asserted_time a - ta_uncertainty_ns a)
                            (asserted_time a + round_trip_ns + ta_uncertainty_ns a)
      /\ forall true_then true_now, Z.abs (true_then - asserted_time a) <= ta_uncertainty_ns a ->
         0 <= true_now - true_then <= round_trip_ns -> ti_earliest_ns i <= true_now <= ti_latest_ns i).
Proof.
  intros Ha Hrt. destruct (interval_cases a round_trip_ns Ha Hrt) as (st & i & E & Hc). exists st, i. split; [done|].
  cbn zeta in Hc. destruct Hc as [(-> & -> & Hr)|(? & ? & [(-> & -> & Hr)|(-> & -> & ? & ?)])].
  - split; [|done]. split; [done|]. intros (? & ? & _). lia.
  - split; [|done]. split; [done|]. intros (_ & _ & ? & ?). lia.
  - split; [split; [lia|done]|]. split; [done|]. intros _. split; [done|]. intros x y ? ?. cbn. lia.
Qed.

(** ** Canonical encodings *)

Lemma encode_fields_spec `{Q : QCBOR} fields limit storage st data size :
  0 <= limit <= zlen storage -> encode_fields fields limit storage = (st, data, size) ->
  length data = length storage
  /\ (st = PBNS_OK -> size = zlen (cbor_map fields) /\ take (Z.to_nat size) data = cbor_map fields
      /\ 0 < size <= PBNS_TIME_ENCODED_MAX_SIZE /\ size <= limit).
Proof.
  intros Hl. unfold encode_fields.
  destruct (QCBOREncode_map fields (take (Z.to_nat limit) storage)) as [[e out] data0] eqn:E.
  destruct (QCBOREncode_map_spec _ _ _ _ _ E) as (Hlen & Hok & _). rewrite length_take in Hlen.
  destruct (finish_encoding e out) as [st' size'] eqn:Ef. intros [= <- <- <-].
  split; [rewrite length_app, length_drop; lia|]. intros ->. unfold finish_encoding in Ef.
  destruct e; try done. destruct (_ || _) eqn:Hb; [done|]. injection Ef as <-. bools.
  destruct (Hok eq_refl) as (-> & Hfit & ->). rewrite length_take in Hfit. split; [done|].
  rewrite Nat2Z.id, <- app_assoc, take_app_length. split; [done|]. lia.
Qed.

Lemma decode_assertion_shape `{Q : QCBOR} encoded a :
  decode_assertion encoded = Some a -> assertion_shape_is_valid a = true.
Proof.
  unfold decode_assertion. intros E.
  repeat (apply bind_Some in E as (? & _ & E); try match type of E with context [let '(_, _) := ?p in _] => destruct p end).
  cbv zeta in E. destruct (_ || negb (assertion_shape_is_valid _)) eqn:Hb; [done|]. injection E as <-. by bools.
Qed.

(** What an accepted assertion is known to satisfy. *)
Definition assertion_accepted (a : pbns_trusted_time_assertion) (payload key_id : bytes) : Prop :=
  payload = cbor_map (assertion_fields a) /\ assertion_shape_is_valid a = true
  /\ v_data (ta_domain a) = PBNS_TIME_DOMAIN /\ v_data (ta_key_id a) = key_id
  /\ ta_version a = PBNS_TIME_VERSION /\ ta_service a = PBNS_TIME_SERVICE.

Lemma decode_verified_spec `{Q : QCBOR} `{M : Machine} payload key_id scratch st data a :
  decode_verified_assertion payload key_id scratch = (st, data, a) ->
  length data = length (b_data scratch)
  /\ (st <> PBNS_OK -> a = zero_assertion)
  /\ (st = PBNS_OK -> assertion_accepted a (v_data payload) (v_data key_id)
      /\ decode_assertion (v_data payload) = Some a).
Proof.
  unfold decode_verified_assertion. destruct (_ || _) eqn:Harg; [by intros [= <- <- <-]|].
  destruct (Z.ltb_spec (b_cap scratch) (v_len payload)); [by intros [= <- <- <-]|].
  destruct (time_buffers_overlap _ _); [by intros [= <- <- <-]|].
  destruct (decode_assertion (v_data payload)) as [d|] eqn:Ed; [|by intros [= <- <- <-]].
  destruct (assertion_encode_unchecked d (b_cap scratch) (b_data scratch)) as [[st1 data1] size] eqn:Ee.
  apply encode_fields_spec in Ee as [Hlen Hok]; [|unfold b_cap; lia]. cbv beta iota.
  destruct (_ || negb (bytes_eqb _ _)) eqn:Hc; [by intros [= <- <- <-]|].
  destruct (domain_is_valid (ta_domain d)) eqn:Hd; cbn [negb]; [|by intros [= <- <- <-]].
  destruct (_ || negb (bytes_equal _ _)) eqn:Hk; [by intros [= <- <- <-]|].
  destruct (Z.eqb_spec (ta_version d) PBNS_TIME_VERSION); cbn [negb]; [|by intros [= <- <- <-]].
  destruct (Z.eqb_spec (ta_service d) PBNS_TIME_SERVICE); cbn [negb]; [|by intros [= <- <- <-]].
  intros [= <- <- <-]. split; [done|]. split; [done|]. intros _. split; [|done]. bools.
  assert (st1 = PBNS_OK) as -> by (by apply is_ok_spec). destruct (Hok eq_refl) as (-> & Htake & _).
  repeat match goal with H : bytes_eqb _ _ = true |- _ => apply bytes_eqb_spec in H end.
  unfold assertion_accepted. split_and!; try done.
  - congruence.
  - by eapply decode_assertion_shape.
  - unfold domain_is_valid in Hd. bools. by apply bytes_eqb_spec.
  - unfold v_len in *. apply ct_equal_spec; [lia|done].
Qed.

(** The C fields hold values of their types. *)
Definition fields_typed (a : pbns_trusted_time_assertion) : Prop :=
  0 <= ta_version a <= UINT64_MAX /\ 0 <= ta_service a <= UINT64_MAX /\ 0 <= ta_unix_seconds a <= INT64_MAX
  /\ 0 <= ta_nanoseconds a <= UINT32_MAX /\ 0 <= ta_uncertainty_ns a <= UINT64_MAX /\ 0 <= ta_max_age_ms a <= UINT32_MAX
  /\ length (ta_request_id a) = 16%nat /\ length (ta_host_fingerprint a) = 32%nat /\ length (ta_nonce a) = 32%nat
  /\ v_len (ta_domain a) <= UINT64_MAX /\ v_len (ta_quality a) <= UINT64_MAX /\ v_len (ta_key_id a) <= UINT64_MAX.

(** Equal but for the addresses of the strings. *)
Definition same_assertion (a b : pbns_trusted_time_assertion) : Prop :=
  v_data (ta_domain a) = v_data (ta_domain b) /\ ta_version a = ta_version b /\ ta_service a = ta_service b
  /\ ta_request_id a = ta_request_id b /\ ta_host_fingerprint a = ta_host_fingerprint b /\ ta_nonce a = ta_nonce b
  /\ ta_unix_seconds a = ta_unix_seconds b /\ ta_nanoseconds a = ta_nanoseconds b
  /\ ta_uncertainty_ns a = ta_uncertainty_ns b /\ v_data (ta_quality a) = v_data (ta_quality b)
  /\ v_data (ta_key_id a) = v_data (ta_key_id b) /\ ta_max_age_ms a = ta_max_age_ms b.

Lemma assertion_fields_ok a : fields_typed a -> cbor_fields_ok (assertion_fields a).
Proof.
  unfold fields_typed, v_len, UINT64_MAX, UINT32_MAX, INT64_MAX. intros (? & ? & ? & ? & ? & ? & Hi & Hh & Hn & ? & ? & ?).
  unfold cbor_fields_ok, assertion_fields, UINT64_MAX, INT64_MAX.
  split; [|done]. repeat (apply Forall_cons_iff; split); [..|done];
    (split; [cbn [fst]; lia|]); cbn [snd cbor_value_ok]; unfold UINT64_MAX, INT64_MAX; rewrite ?Hi, ?Hh, ?Hn; lia.
Qed.

Lemma same_fields a b : same_assertion a b -> assertion_fields a = assertion_fields b.
Proof.
  intros (E1 & E2 & E3 & E4 & E5 & E6 & E7 & E8 & E9 & E10 & E11 & E12). unfold assertion_fields.
  by rewrite E1, E2, E3, E4, E5, E6, E7, E8, E9, E10, E11, E12.
Qed.

(** The canonical encoding determines the assertion. *)
Lemma assertion_encoding_inj a b :
  fields_typed a -> fields_typed b -> cbor_map (assertion_fields a) = cbor_map (assertion_fields b) -> same_assertion a b.
Proof.
  intros Ha Hb E. apply cbor_map_inj in E; [|by apply assertion_fields_ok..].
  destruct Ha as (_ & _ & Ha & _), Hb as (_ & _ & Hb & _).
  unfold norm_fields, assertion_fields in E. cbn [fmap list_fmap fst snd cbor_norm] in E.
  rewrite (proj2 (Z.ltb_ge (ta_unix_seconds a) 0)), (proj2 (Z.ltb_ge (ta_unix_seconds b) 0)) in E by lia.
  by injection E.
Qed.

Section reads.
Context `{Q : QCBOR} `{!QCBORReads}.

Notation reading fields d := (Forall2 item_matches fields (pending d)).

Lemma decode_u64_reads d label v fields :
  0 <= v <= UINT64_MAX -> reading ((label, CUInt v) :: fields) d ->
  exists d', decode_u64 d label = Some (v, d') /\ reading fields d'.
Proof.
  intros Hv Hr. destruct (next_item_matches d _ _ _ eq_refl Hr) as (item & rest & d' & E & Hp & Hm & Hf). cbn [fst] in E.
  exists d'. unfold decode_u64. rewrite E. cbn [mbind option_bind]. rewrite (item_matches_u64 label v) by done.
  by rewrite Hp.
Qed.

Lemma decode_u32_reads d label v fields :
  0 <= v <= UINT32_MAX -> reading ((label, CUInt v) :: fields) d ->
  exists d', decode_u32 d label = Some (v, d') /\ reading fields d'.
Proof.
  intros Hv Hr. destruct (decode_u64_reads d label v fields) as (d' & E & Hf); [unfold UINT32_MAX, UINT64_MAX in *; lia|done|].
  exists d'. unfold decode_u32. rewrite E. cbn [mbind option_bind].
  rewrite (proj2 (Z.ltb_ge UINT32_MAX v)), u32_small by lia. done.
Qed.

Lemma decode_text_reads d label s fields :
  reading ((label, CText s) :: fields) d ->
  exists p d', decode_string QCBOR_TYPE_TEXT_STRING d label = Some (mk_view p s, d') /\ p <> 0 /\ reading fields d'.
Proof.
  intros Hr. destruct (next_item_matches d _ _ _ eq_refl Hr) as (item & rest & d' & E & Hp & (_ & _ & _ & Hm) & Hf).
  cbn [fst snd] in E, Hm. destruct Hm as (Ht & Hs & Hnz). exists (val_string_ptr item), d'. unfold decode_string.
  rewrite E, Hp. cbn [mbind option_bind]. rewrite Ht, Hs. done.
Qed.

Lemma decode_byte_string_reads d label s fields :
  reading ((label, CBytes s) :: fields) d ->
  exists p d', decode_string QCBOR_TYPE_BYTE_STRING d label = Some (mk_view p s, d') /\ p <> 0 /\ reading fields d'.
Proof.
  intros Hr. destruct (next_item_matches d _ _ _ eq_refl Hr) as (item & rest & d' & E & Hp & (_ & _ & _ & Hm) & Hf).
  cbn [fst snd] in E, Hm. destruct Hm as (Ht & Hs & Hnz). exists (val_string_ptr item), d'. unfold decode_string.
  rewrite E, Hp. cbn [mbind option_bind]. rewrite Ht, Hs. done.
Qed.

Lemma decode_bytes_reads d label s fields size :
  size = zlen s -> reading ((label, CBytes s) :: fields) d ->
  exists d', decode_bytes d label size = Some (s, d') /\ reading fields d'.
Proof.
  intros -> Hr. destruct (decode_byte_string_reads d label s fields Hr) as (p & d' & E & _ & Hf). exists d'.
  unfold decode_bytes. rewrite E. cbn [mbind option_bind]. unfold v_len. cbn [v_data]. by rewrite Z.eqb_refl.
Qed.

Lemma decode_seconds_reads d label v fields :
  0 <= v -> reading ((label, CInt v) :: fields) d ->
  exists d', decode_seconds d label = Some (v, d') /\ reading fields d'.
Proof.
  intros Hv Hr. destruct (next_item_matches d _ _ _ eq_refl Hr) as (item & rest & d' & E & Hp & (_ & _ & _ & Hm) & Hf).
  cbn [fst snd] in E, Hm. destruct Hm as [Ht Hi]. exists d'. unfold decode_seconds. rewrite E, Hp. cbn [mbind option_bind].
  rewrite Ht, Hi, (proj2 (Z.ltb_ge v 0)) by lia. done.
Qed.

Lemma decode_map_head_reads fields :
  cbor_fields_ok fields -> zlen (cbor_map fields) <= UINT16_MAX ->
  exists d, decode_map_head (QCBORDecode_Init (cbor_map fields)) (zlen fields) = Some d /\ reading fields d.
Proof.
  intros Hok Hsz. destruct (reads_map fields Hok Hsz) as (head & items & Hp & (Ht & Hl & Hc) & Hf).
  destruct (reads_next _ _ _ Hp) as (d & E & Hd). exists d. unfold decode_map_head. rewrite E. cbn [mbind option_bind].
  rewrite Ht, Hl, Hc, Hd, !Z.eqb_refl. done.
Qed.

Lemma shape_same a b :
  same_assertion a b -> v_ptr (ta_domain b) <> 0 -> v_ptr (ta_quality b) <> 0 -> v_ptr (ta_key_id b) <> 0 ->
  assertion_shape_is_valid a = true -> assertion_shape_is_valid b = true.
Proof.
  intros (E1 & _ & _ & E4 & E5 & E6 & E7 & E8 & _ & E10 & E11 & E12) Hd Hq Hk. unfold assertion_shape_is_valid, v_len.
  rewrite E4, E5, E6, E7, E8, E10, E11, E12. intros Hsh. bools.
  rewrite !(proj2 (view_is_valid_spec _)) by (by left). repeat (apply andb_true_iff; split); try done;
    rewrite ?Z.leb_le, ?Z.ltb_lt; lia.
Qed.

Lemma decode_assertion_reads a :
  fields_typed a -> assertion_shape_is_valid a = true -> zlen (cbor_map (assertion_fields a)) <= UINT16_MAX ->
  exists b, decode_assertion (cbor_map (assertion_fields a)) = Some b /\ same_assertion a b
  /\ v_ptr (ta_domain b) <> 0 /\ v_ptr (ta_quality b) <> 0 /\ v_ptr (ta_key_id b) <> 0.
Proof.
  intros Ht Hs Hsz. pose proof (assertion_fields_ok a Ht) as Hok.
  destruct Ht as (T2 & T3 & T7 & T8 & T9 & T12 & T4 & T5 & T6 & _).
  destruct (decode_map_head_reads _ Hok Hsz) as (d0 & E0 & H0).
  destruct (decode_text_reads d0 1 _ _ H0) as (p1 & d1 & E1 & N1 & H1).
  destruct (decode_u64_reads d1 2 _ _ T2 H1) as (d2 & E2 & H2). destruct (decode_u64_reads d2 3 _ _ T3 H2) as (d3 & E3 & H3).
  destruct (decode_bytes_reads d3 4 (ta_request_id a) _ 16 ltac:(lia) H3) as (d4 & E4 & H4).
  destruct (decode_bytes_reads d4 5 (ta_host_fingerprint a) _ 32 ltac:(lia) H4) as (d5 & E5 & H5).
  destruct (decode_bytes_reads d5 6 (ta_nonce a) _ 32 ltac:(lia) H5) as (d6 & E6 & H6).
  destruct (decode_seconds_reads d6 7 _ _ (proj1 T7) H6) as (d7 & E7 & H7).
  destruct (decode_u32_reads d7 8 _ _ T8 H7) as (d8 & E8 & H8). destruct (decode_u64_reads d8 9 _ _ T9 H8) as (d9 & E9 & H9).
  destruct (decode_text_reads d9 10 _ _ H9) as (p10 & d10 & E10 & N10 & H10).
  destruct (decode_byte_string_reads d10 11 _ _ H10) as (p11 & d11 & E11 & N11 & H11).
  destruct (decode_u32_reads d11 12 _ _ T12 H11) as (d12 & E12 & H12).
  assert (Hp : pending d12 = []) by (by inversion H12). apply reads_finish in Hp.
  set (b := mk_assertion (mk_view p1 (v_data (ta_domain a))) (ta_version a) (ta_service a) (ta_request_id a)
    (ta_host_fingerprint a) (ta_nonce a) (ta_unix_seconds a) (ta_nanoseconds a) (ta_uncertainty_ns a)
    (mk_view p10 (v_data (ta_quality a))) (mk_view p11 (v_data (ta_key_id a))) (ta_max_age_ms a)).
  assert (Hsame : same_assertion a b) by done.
  exists b. split; [|done]. unfold decode_assertion, PBNS_TIME_REQUEST_ID_SIZE, PBNS_TIME_FINGERPRINT_SIZE, PBNS_TIME_NONCE_SIZE. change (zlen (assertion_fields a)) with 12 in E0.
  rewrite E0. cbn [mbind option_bind]. rewrite E1. cbn [mbind option_bind]. rewrite E2. cbn [mbind option_bind].
  rewrite E3. cbn [mbind option_bind]. rewrite E4. cbn [mbind option_bind]. rewrite E5. cbn [mbind option_bind].
  rewrite E6. cbn [mbind option_bind]. rewrite E7. cbn [mbind option_bind]. rewrite E8. cbn [mbind option_bind].
  rewrite E9. cbn [mbind option_bind]. rewrite E10. cbn [mbind option_bind]. rewrite E11. cbn [mbind option_bind].
  rewrite E12. cbn [mbind option_bind]. cbv zeta. fold b. rewrite Hp, (shape_same a b Hsame N1 N10 N11 Hs). done.
Qed.
End reads.

Lemma encode_fields_fits `{Q : QCBOR} fields limit storage :
  0 <= limit <= zlen storage -> limit < UINT32_MAX -> 0 < zlen (cbor_map fields) <= PBNS_TIME_ENCODED_MAX_SIZE ->
  zlen (cbor_map fields) <= limit ->
  exists data, encode_fields fields limit storage = (PBNS_OK, data, zlen (cbor_map fields)).
Proof.
  intros Hl Hu Hp Hfit. unfold encode_fields.
  destruct (QCBOREncode_map fields (take (Z.to_nat limit) storage)) as [[e out] data0] eqn:E.
  destruct (QCBOREncode_map_spec _ _ _ _ _ E) as (_ & Hok & Hsucc & _). rewrite length_take in Hsucc.
  rewrite Hsucc by lia. destruct (Hok (Hsucc ltac:(lia) ltac:(lia))) as (-> & _ & _). unfold finish_encoding.
  rewrite (proj2 (Z.eqb_neq (zlen (cbor_map fields)) 0)), (proj2 (Z.ltb_ge PBNS_TIME_ENCODED_MAX_SIZE _)) by lia.
  cbn [orb]. by eexists.
Qed.

(** What was encoded is accepted again. *)
Lemma decode_encoded `{Q : QCBOR} `{M : Machine} {R : QCBORReads} payload scratch b output data size :
  fields_typed b -> b_cap scratch < UINT32_MAX -> assertion_encode b output = (PBNS_OK, data, size) ->
  v_ptr payload <> 0 -> v_data payload = take (Z.to_nat size) data -> output_is_valid scratch = true ->
  size <= b_cap scratch -> time_buffers_overlap payload scratch = false ->
  exists data' a, decode_verified_assertion payload (ta_key_id b) scratch = (PBNS_OK, data', a) /\ same_assertion b a.
Proof.
  intros Hb Hscr Henc Hp Hpay Hval Hfit Hov. unfold assertion_encode in Henc.
  destruct (output_is_valid output); [|done]. cbn [negb] in Henc.
  destruct (assertion_shape_is_valid b) eqn:Hsh; [|done]. destruct (domain_is_valid (ta_domain b)) eqn:Hdom; [|done].
  destruct (Z.eqb_spec (ta_version b) PBNS_TIME_VERSION) as [Hver|]; [|done].
  destruct (Z.eqb_spec (ta_service b) PBNS_TIME_SERVICE) as [Hsvc|]; [|done]. cbn [negb orb] in Henc.
  apply encode_fields_spec in Henc as [_ Henc];
    [|unfold clamp_capacity, b_cap, PBNS_TIME_ENCODED_MAX_SIZE; case_match; bools; lia].
  destruct (Henc eq_refl) as (-> & Htake & Hpos & _). rewrite Htake in Hpay.
  destruct (decode_assertion_reads b Hb Hsh ltac:(unfold PBNS_TIME_ENCODED_MAX_SIZE, UINT16_MAX in *; lia)) as (a & Ed & Hsame & N1 & N2 & N3).
  unfold decode_verified_assertion. unfold v_len at 1 2 5. rewrite Hpay, Hval, Hov, Ed.
  rewrite (proj2 (view_is_valid_spec payload)) by (by left).
  rewrite (proj2 (Z.eqb_neq (zlen (cbor_map _)) 0)), (proj2 (Z.ltb_ge PBNS_TIME_ENCODED_MAX_SIZE _)) by lia.
  unfold assertion_shape_is_valid in Hsh. bools.
  rewrite (proj2 (Z.eqb_neq (v_len (ta_key_id b)) 0)), (proj2 (Z.ltb_ge PBNS_TIME_KEY_ID_MAX_SIZE _)) by lia.
  replace (view_is_valid (ta_key_id b)) with true by done. cbn [negb orb].
  rewrite (proj2 (Z.ltb_ge (b_cap scratch) _)) by lia.
  destruct (encode_fields_fits (assertion_fields a) (b_cap scratch) (b_data scratch)) as [data' Ee];
    [unfold b_cap; lia|done|rewrite <- (same_fields b a Hsame); done..|].
  unfold assertion_encode_unchecked. rewrite Ee.
  apply encode_fields_spec in Ee as [_ Ee]; [|unfold b_cap; lia]. destruct (Ee eq_refl) as (_ & Htk & _).
  rewrite Htk. unfold v_len at 1. rewrite Hpay, <- (same_fields b a Hsame), Z.eqb_refl, bytes_eqb_refl. cbn [is_ok negb orb].
  pose proof Hsame as (S1 & S2 & S3 & _ & _ & _ & _ & _ & _ & _ & S11 & _).
  unfold domain_is_valid in Hdom. bools. unfold domain_is_valid, v_len in *. rewrite <- S1, <- S11, <- S2, <- S3, Hver, Hsvc.
  rewrite (proj2 (Z.eqb_neq _ 0) N1), Z.eqb_refl. unfold bytes_equal.
  rewrite (proj2 (ct_equal_spec (v_data (ta_key_id b)) (v_data (ta_key_id b)) eq_refl) eq_refl).
  replace (zlen (v_data (ta_domain b)) =? zlen PBNS_TIME_DOMAIN) with true by (symmetry; by apply Z.eqb_eq).
  replace (bytes_eqb (v_data (ta_domain b)) PBNS_TIME_DOMAIN) with true by done.
  cbn [negb andb orb]. change (PBNS_TIME_VERSION =? PBNS_TIME_VERSION) with true. cbn [negb].
  eexists _, _. split; [done|]. exact Hsame.
Qed.

(** An assertion is accepted only as the canonical encoding of its fields.
    Whatever the CBOR decoder does, the payload of an accepted assertion is the
    one serialization of the fields that were returned, for the time service,
    its domain and version and the expected key, so no two assertions share a
    payload; anything else leaves the empty assertion.  With a decoder that
    reads what the encoder writes, every assertion that can be encoded is
    accepted again and gives the same fields. *)
Theorem time_assertion_canonical `{Q : QCBOR} `{M : Machine} (payload key_id : pbns_view) (scratch : pbns_buffer)
    (b : pbns_trusted_time_assertion) :
  (exists st data a, decode_verified_assertion payload key_id scratch = (st, data, a)
   /\ (st <> PBNS_OK -> a = zero_assertion)
   /\ (st = PBNS_OK -> assertion_accepted a (v_data payload) (v_data key_id)
       /\ (fields_typed a -> fields_typed b -> v_data payload = cbor_map (assertion_fields b) -> same_assertion a b)))
  /\ (forall (R : QCBORReads) output data size, fields_typed b -> b_cap scratch < UINT32_MAX ->
      assertion_encode b output = (PBNS_OK, data, size) ->
      v_ptr payload <> 0 -> v_data payload = take (Z.to_nat size) data -> key_id = ta_key_id b ->
      output_is_valid scratch = true -> size <= b_cap scratch -> time_buffers_overlap payload scratch = false ->
      exists data' a, decode_verified_assertion payload key_id scratch = (PBNS_OK, data', a) /\ same_assertion b a).
Proof.
  split.
  - destruct (decode_verified_assertion payload key_id scratch) as [[st data] a] eqn:E. exists st, data, a. split; [done|].
    apply decode_verified_spec in E as (_ & Hz & Hok). split; [done|]. intros Hst. destruct (Hok Hst) as [Hacc _].
    split; [done|]. intros Ha Hb Ep. apply assertion_encoding_inj; [done..|]. destruct Hacc as [<- _]. done.
  - intros R output data size Hb Hscr Henc Hp Hpay -> Hval Hfit Hov. by eapply decode_encoded.
Qed.

(** ** Witnesses *)

Definition ex_assertion : pbns_trusted_time_assertion :=
  mk_assertion (mk_view 64 PBNS_TIME_DOMAIN) 1 1 (replicate 16 5) (replicate 32 7) (replicate 32 5)
    1700000000 250 1000 (mk_view 80 [111; 107]) (mk_view 96 [1; 2; 3]) 2000.

Lemma time_interval_exact_witness :
  exists st i, interval_from_assertion ex_assertion 40000000 = Some (st, i)
  /\ (st = PBNS_OK -> i = mk_interval 1699999999999999250 1700000000040001250).
Proof.
  destruct (time_interval_exact ex_assertion 40000000) as (st & i & E & _ & _ & H).
  - unfold assertion_typed. repeat split; vm_compute; (reflexivity || discriminate).
  - unfold UINT64_MAX. lia.
  - exists st, i. split; [exact E|]. intros Hst. exact (proj1 (H Hst)).
Defined.

Definition ex_scratch : pbns_buffer := mk_buffer 8192 0 (replicate 512 0).

Lemma time_assertion_canonical_witness :
  exists data a, @decode_verified_assertion reference_qcbor x86_64
    (mk_view 4096 (cbor_map (assertion_fields ex_assertion))) (ta_key_id ex_assertion) ex_scratch = (PBNS_OK, data, a)
  /\ same_assertion ex_assertion a.
Proof.
  apply (proj2 (@time_assertion_canonical reference_qcbor x86_64 (mk_view 4096 (cbor_map (assertion_fields ex_assertion)))
    (ta_key_id ex_assertion) ex_scratch ex_assertion) reference_reads ex_scratch
    (snd (fst (@assertion_encode reference_qcbor ex_assertion ex_scratch)))
    (snd (@assertion_encode reference_qcbor ex_assertion ex_scratch))).
  - unfold fields_typed. repeat split; vm_compute; (reflexivity || discriminate).
  - vm_compute. reflexivity.
  - vm_compute. reflexivity.
  - discriminate.
  - vm_compute. reflexivity.
  - reflexivity.
  - vm_compute. reflexivity.
  - vm_compute. discriminate.
  - vm_compute. reflexivity.
Defined.
