(* ===== verification/TimeQuery.v ===== *)
(** * Trusted time: the query

    A query composes the callbacks of the client.  They are used through the
    interface [TimeServiceLaws]; each step of the query is described by a
    weakest-precondition lemma, and the theorem puts the steps together. *)

From stdpp Require Import base list numbers.
From Stdlib Require Import ZArith Lia.
From S2P Require Import Prelude Endian Status Step Buffers Cbor CborReader Compare TrustedTime TimeProps.

(** ** The services, as the query relies on them *)

Record time_services (W : Type) := mk_time_services {
  sv_random : W -> bytes -> pbns_status * bytes * W;
  sv_sign : W -> bytes -> bytes -> bytes -> pbns_status * bytes * Z * W;
  sv_exchange : W -> bytes -> bytes -> pbns_status * bytes * Z * W;
  sv_verify : W -> bytes -> bytes -> pbns_status * pbns_view * W;
  sv_clock : W -> pbns_status * Z * W;
}.
Arguments mk_time_services {W}.
Arguments sv_random {W}.
Arguments sv_sign {W}.
Arguments sv_exchange {W}.
Arguments sv_verify {W}.
Arguments sv_clock {W}.

Definition client_of {W} (sv : time_services W) (key_id : pbns_view) (maximum : Z) : pbns_trusted_time_client W :=
  mk_time_client (Some (sv_random sv)) (Some (sv_sign sv)) (Some (sv_exchange sv)) (Some (sv_verify sv))
    (Some (sv_clock sv)) key_id maximum.

(** Buffers keep their size, and unsigned results are not negative. *)
Class TimeServiceLaws {W} (sv : time_services W) := {
  random_keeps w buf st out w' : sv_random sv w buf = (st, out, w') -> length out = length buf;
  sign_keeps w payload aad buf st out n w' : sv_sign sv w payload aad buf = (st, out, n, w') -> length out = length buf /\ 0 <= n;
  exchange_keeps w message buf st out n w' : sv_exchange sv w message buf = (st, out, n, w') -> length out = length buf /\ 0 <= n;
  clock_typed w st ms w' : sv_clock sv w = (st, ms, w') -> 0 <= ms <= UINT64_MAX;
}.

(** The numbers of a decoded item are values of their C types. *)
Class QCBORTyped `{QCBOR} := {
  item_typed : forall decoder item decoder', QCBORDecode_GetNext decoder = (Some item, decoder') ->
    - 2 ^ 63 <= val_int64 item <= INT64_MAX /\ 0 <= val_uint64 item <= UINT64_MAX;
}.

Section typed.
Context `{Q : QCBOR} `{!QCBORTyped}.

Lemma next_item_typed (d : QCBORDecodeContext) label item d' :
  next_item d label = (Some item, d') ->
  - 2 ^ 63 <= val_int64 item <= INT64_MAX /\ 0 <= val_uint64 item <= UINT64_MAX.
Proof.
  unfold next_item. destruct (QCBORDecode_GetNext d) as [[x|] d1] eqn:E; [|done].
  destruct (_ || _); [done|]. intros [= <- <-]. by eapply item_typed.
Qed.

Lemma decode_u64_typed (d : QCBORDecodeContext) label v d' : decode_u64 d label = Some (v, d') -> 0 <= v <= UINT64_MAX.
Proof.
  unfold decode_u64. destruct (next_item d label) as [[item|] d1] eqn:E; [|by intros [=]]. apply next_item_typed in E as [Hi Hu].
  cbn [mbind option_bind]. unfold item_to_uint64, INT64_MAX, UINT64_MAX in *.
  destruct (_ && _) eqn:Hb; cbn; [intros [= <- <-]; bools; lia|]. destruct (uDataType item =? QCBOR_TYPE_UINT64); cbn [mbind option_bind]; intros [=]; by subst.
Qed.

Lemma decode_u32_typed (d : QCBORDecodeContext) label v d' : decode_u32 d label = Some (v, d') -> 0 <= v <= UINT32_MAX.
Proof.
  unfold decode_u32. intros E. apply bind_Some in E as ([x d1] & _ & E). destruct (_ <? _); [done|].
  injection E as <- <-. unfold u32, UINT32_MAX. pose proof (Z.mod_pos_bound x (2 ^ 32)). lia.
Qed.

Lemma decode_seconds_typed (d : QCBORDecodeContext) label v d' :
  decode_seconds d label = Some (v, d') -> - 2 ^ 63 <= v <= INT64_MAX.
Proof.
  unfold decode_seconds. destruct (next_item d label) as [[item|] d1] eqn:E; [|by intros [=]]. apply next_item_typed in E as [Hi _].
  cbn [mbind option_bind]. destruct (_ || _); [done|]. by intros [= <- <-].
Qed.

Lemma decode_assertion_typed encoded a : decode_assertion encoded = Some a -> assertion_typed a.
Proof.
  unfold decode_assertion. intros E.
  repeat (apply bind_Some in E as (? & ? & E); try match type of E with context [let '(_, _) := ?p in _] => destruct p end).
  cbv zeta in E. destruct (_ || _); [done|]. injection E as <-. unfold assertion_typed. cbn.
  split; [|split]; eauto using decode_seconds_typed, decode_u32_typed, decode_u64_typed.
Qed.
End typed.

(** ** The workspace *)

Definition same_buffer (b b' : pbns_buffer) : Prop :=
  b_ptr b' = b_ptr b /\ b_len b' = b_len b /\ length (b_data b') = length (b_data b).

Definition same_workspace (ws ws' : pbns_trusted_time_workspace) : Prop :=
  same_buffer (tw_request_payload ws) (tw_request_payload ws') /\ same_buffer (tw_signed_request ws) (tw_signed_request ws')
  /\ same_buffer (tw_signed_response ws) (tw_signed_response ws')
  /\ same_buffer (tw_canonical_scratch ws) (tw_canonical_scratch ws') /\ same_buffer (tw_aad ws) (tw_aad ws').

Lemma same_buffer_refl b : same_buffer b b.
Proof. done. Qed.

#[export] Instance same_buffer_preorder : PreOrder same_buffer.
Proof. split; [done|]. unfold same_buffer. intros a b c (? & ? & ?) (? & ? & ?). split_and!; congruence. Qed.

#[export] Instance same_workspace_preorder : PreOrder same_workspace.
Proof.
  split; [done|]. unfold same_workspace. intros a b c (? & ? & ? & ? & ?) (? & ? & ? & ? & ?).
  split_and!; etransitivity; eassumption.
Qed.

Lemma with_data_same b data : length data = length (b_data b) -> same_buffer b (with_data b data).
Proof. done. Qed.

(** ** Steps *)

Notation wpQ := (wp_step same_workspace).

Lemma not_ok_neq st : is_ok st = false -> st <> PBNS_OK.
Proof. by destruct st. Qed.

Section steps.
Context {W : Type} `{Q : QCBOR} `{M : Machine} (sv : time_services W) `{!TimeServiceLaws sv}.
Variables (key_id : pbns_view) (maximum : Z) (fingerprint : bytes) (previous : ptr pbns_time_interval).
Notation client := (client_of sv key_id maximum).

Lemma wp_fill_random ws w :
  wpQ (fill_random client) ws w (fun random ws' w' =>
    ws' = ws /\ length random = 48%nat /\ sv_random sv w (replicate 48 0) = (PBNS_OK, random, w')).
Proof.
  destruct (sv_random sv w (replicate 48 0)) as [[st random] w'] eqn:E. pose proof (random_keeps _ _ _ _ _ E) as Hlen.
  destruct (is_ok st) eqn:Hst.
  - apply is_ok_spec in Hst as ->. eapply wps_ret; [unfold fill_random; cbn [client_of tc_random_fill mbind option_bind];
      rewrite E; reflexivity|done|done].
  - eapply wps_end; [unfold fill_random; cbn [client_of tc_random_fill mbind option_bind]; rewrite E, Hst; reflexivity
      |by apply not_ok_neq|done].
Qed.

Definition request_of (random : bytes) : pbns_trusted_time_request :=
  mk_time_request (take 16 random) fingerprint (drop 16 random) maximum.

Lemma wp_make_request random ws w :
  length random = 48%nat -> 0 <= maximum <= UINT32_MAX ->
  wpQ (make_request client fingerprint random) ws w (fun request ws' w' => request = request_of random /\ ws' = ws /\ w' = w).
Proof.
  intros Hlen Hmax. eapply wps_ret; [unfold make_request; rewrite !rd_slice_inside
    by (unfold PBNS_TIME_REQUEST_ID_SIZE, PBNS_TIME_NONCE_SIZE; lia); cbn [mbind option_bind]; reflexivity|done|].
  split; [|done]. unfold request_of, slice, client_of. cbn [tc_maximum_round_trip_ms].
  rewrite u32_small, drop_0 by lia. f_equal. apply take_ge. rewrite length_drop, Hlen. done.
Qed.

Lemma wp_encode_request request ws w :
  wp_step (W := W) same_workspace (encode_request request) ws w (fun size ws' w' =>
    w' = w /\ 0 <= size /\ size <= b_cap (tw_request_payload ws')
    /\ take (Z.to_nat size) (b_data (tw_request_payload ws')) = cbor_map (request_fields request)).
Proof.
  unfold wp_step, encode_request.
  destruct (request_encode request (tw_request_payload ws)) as [[st data] size] eqn:E.
  assert (Hfacts : length data = length (b_data (tw_request_payload ws))
    /\ (st = PBNS_OK -> 0 <= size <= zlen data /\ take (Z.to_nat size) data = cbor_map (request_fields request))).
  { unfold request_encode in E. destruct (negb (output_is_valid _)); [by injection E as <- <- <-|].
    destruct (negb (request_is_valid _)); [by injection E as <- <- <-|].
    assert (Hc : 0 <= clamp_capacity (tw_request_payload ws) <= zlen (b_data (tw_request_payload ws)))
      by (unfold clamp_capacity, b_cap, PBNS_TIME_ENCODED_MAX_SIZE; case_match; bools; lia).
    apply encode_fields_spec in E as [Hl Hok]; [|done]. split; [done|]. intros Hst.
    destruct (Hok Hst) as (-> & Ht & Hp & Hlim). split; [lia|done]. }
  destruct Hfacts as [Hl Hok]. destruct (is_ok st) eqn:Hst; cbn [negb].
  - apply is_ok_spec in Hst as ->. destruct (Hok eq_refl) as [Hsz Ht]. eexists _, _, _. split; [reflexivity|].
    split; [by repeat split; auto|]. unfold b_cap. cbn. split; [done|]. split; [lia|]. split; [lia|done].
  - eexists _, _, _. split; [reflexivity|]. split; [by repeat split; auto|]. by apply not_ok_neq.
Qed.

Lemma wp_sign_request size message ws w :
  0 <= size -> size <= b_cap (tw_request_payload ws) -> take (Z.to_nat size) (b_data (tw_request_payload ws)) = message ->
  wpQ (sign_request client size) ws w (fun n ws' w' =>
    0 <= n <= b_cap (tw_signed_request ws')
    /\ sv_sign sv w message PBNS_TIME_REQUEST_AAD (b_data (tw_signed_request ws)) = (PBNS_OK, b_data (tw_signed_request ws'), n, w')).
Proof.
  intros H0 Hcap <-. unfold b_cap in Hcap. unfold wp_step, sign_request. cbn [client_of tc_sign_request mbind option_bind].
  rewrite rd_slice_inside by lia. cbn [mbind option_bind]. unfold slice. rewrite drop_0.
  destruct (sv_sign sv w _ _ _) as [[[st out] n] w'] eqn:E. destruct (sign_keeps _ _ _ _ _ _ _ _ E) as [Hl Hn].
  destruct (_ || _) eqn:Hb; (eexists _, _, _; split; [reflexivity|]; split; [by repeat split; auto|]).
  - by destruct st.
  - cbn in Hb |- *. bools. assert (st = PBNS_OK) as -> by (by apply is_ok_spec). split; [|done]. lia.
Qed.

Lemma wp_read_clock ws w :
  wpQ (read_clock client) ws w (fun ms ws' w' => ws' = ws /\ 0 <= ms <= UINT64_MAX /\ sv_clock sv w = (PBNS_OK, ms, w')).
Proof.
  unfold wp_step, read_clock. cbn [client_of tc_monotonic_ms mbind option_bind].
  destruct (sv_clock sv w) as [[st ms] w'] eqn:E. pose proof (clock_typed _ _ _ _ E). destruct (is_ok st) eqn:Hst; cbn [negb].
  - apply is_ok_spec in Hst as ->. by eexists _, _, _.
  - eexists _, _, _. split; [reflexivity|]. split; [done|by apply not_ok_neq].
Qed.

Lemma wp_run_exchange n ws w :
  0 <= n <= b_cap (tw_signed_request ws) ->
  wpQ (run_exchange client n) ws w (fun '(st, size) ws' w' =>
    0 <= size /\ sv_exchange sv w (take (Z.to_nat n) (b_data (tw_signed_request ws))) (b_data (tw_signed_response ws))
      = (st, b_data (tw_signed_response ws'), size, w')).
Proof.
  intros Hn. unfold b_cap in Hn. unfold wp_step, run_exchange. cbn [client_of tc_exchange mbind option_bind].
  rewrite rd_slice_inside by lia. cbn [mbind option_bind]. unfold slice. rewrite drop_0.
  destruct (sv_exchange sv w _ _) as [[[st out] size] w'] eqn:E. destruct (exchange_keeps _ _ _ _ _ _ _ E) as [Hl Hsz].
  eexists _, _, _. split; [reflexivity|]. split; [by repeat split; auto|done].
Qed.

Lemma wp_check_exchange st size started finished ws w :
  wpQ (check_exchange client st size started finished) ws w (fun rt ws' w' =>
    ws' = ws /\ w' = w /\ st = PBNS_OK /\ rt = finished - started /\ 0 <= rt <= maximum
    /\ size <= b_cap (tw_signed_response ws)).
Proof.
  unfold wp_step, check_exchange. cbn [client_of tc_maximum_round_trip_ms].
  destruct (is_ok st) eqn:Hst; cbn [negb]; [|eexists _, _, _; split; [reflexivity|]; split; [done|by apply not_ok_neq]].
  destruct (_ || _) eqn:Hb; [by eexists _, _, _|]. destruct (Z.ltb_spec finished started); [by eexists _, _, _|].
  destruct (Z.ltb_spec maximum (finished - started)); [by eexists _, _, _|].
  eexists _, _, _. split; [reflexivity|]. split; [done|]. bools. apply is_ok_spec in Hst. split_and!; done || lia.
Qed.

(** *** The response *)

Definition time_aad (request : pbns_trusted_time_request) (key : bytes) : bytes :=
  PBNS_TIME_ASSERTION_AAD ++ tr_request_id request ++ tr_host_fingerprint request ++ tr_nonce request ++ key.

Definition request_sized (request : pbns_trusted_time_request) : Prop :=
  length (tr_request_id request) = 16%nat /\ length (tr_host_fingerprint request) = 32%nat /\ length (tr_nonce request) = 32%nat.

Lemma assertion_aad_spec request key output :
  request_sized request ->
  exists st data size, assertion_aad (tr_request_id request) (tr_host_fingerprint request) (tr_nonce request) key output
    = Some (st, data, size)
  /\ length data = length (b_data output)
  /\ (st = PBNS_OK -> 0 <= size <= zlen data /\ take (Z.to_nat size) data = time_aad request (v_data key)).
Proof.
  intros (Hi & Hf & Hn). unfold assertion_aad. destruct (_ || _); [by eexists _, _, _|].
  destruct (Z.ltb_spec (b_cap output) (zlen PBNS_TIME_ASSERTION_AAD + PBNS_TIME_REQUEST_ID_SIZE + PBNS_TIME_FINGERPRINT_SIZE
                  + PBNS_TIME_NONCE_SIZE + v_len key)) as [|Hcap]; [by eexists _, _, _|].
  unfold b_cap, v_len, PBNS_TIME_REQUEST_ID_SIZE, PBNS_TIME_FINGERPRINT_SIZE, PBNS_TIME_NONCE_SIZE in *.
  unfold time_aad. assert (HP : zlen PBNS_TIME_ASSERTION_AAD = 22) by done. set (D := b_data output) in *.
  set (P := PBNS_TIME_ASSERTION_AAD) in *. clearbody P.
  rewrite HP in *. change D with ([] ++ D) at 1. rewrite wr_list_next by (done || lia). cbn [mbind option_bind app].
  rewrite wr_list_next by (rewrite ?length_drop; lia). cbn [mbind option_bind].
  rewrite wr_list_next by (rewrite ?length_app, ?length_drop; lia). cbn [mbind option_bind].
  rewrite wr_list_next by (rewrite ?length_app, ?length_drop; lia). cbn [mbind option_bind].
  rewrite wr_list_next by (rewrite ?length_app, ?length_drop; lia). cbn [mbind option_bind].
  eexists _, _, _. split; [done|]. split; [rewrite !length_app, !length_drop; lia|]. intros _.
  split; [rewrite !length_app; lia|]. rewrite <- !app_assoc.
  rewrite !app_assoc. rewrite take_app_length'; [done|]. rewrite !length_app. lia.
Qed.

Lemma wp_make_aad request ws w :
  request_sized request ->
  wpQ (make_aad client request) ws w (fun size ws' w' =>
    w' = w /\ tw_signed_response ws' = tw_signed_response ws /\ 0 <= size <= b_cap (tw_aad ws')
    /\ take (Z.to_nat size) (b_data (tw_aad ws')) = time_aad request (v_data key_id)).
Proof.
  intros Hr. unfold wp_step, make_aad. cbn [client_of tc_time_key_id].
  destruct (assertion_aad_spec request key_id (tw_aad ws) Hr) as (st & data & size & -> & Hl & Hok). cbn [mbind option_bind].
  destruct (is_ok st) eqn:Hst; cbn [negb].
  - apply is_ok_spec in Hst as ->. destruct (Hok eq_refl) as [Hsz Ht]. eexists _, _, _. split; [reflexivity|].
    split; [by repeat split; auto|]. done.
  - eexists _, _, _. split; [reflexivity|]. split; [by repeat split; auto|]. by apply not_ok_neq.
Qed.

Lemma wp_verify_response size aad_size ws w :
  0 <= size <= b_cap (tw_signed_response ws) -> 0 <= aad_size <= b_cap (tw_aad ws) ->
  wpQ (verify_response client size aad_size) ws w (fun payload ws' w' =>
    ws' = ws /\ sv_verify sv w (take (Z.to_nat size) (b_data (tw_signed_response ws)))
      (take (Z.to_nat aad_size) (b_data (tw_aad ws))) = (PBNS_OK, payload, w')).
Proof.
  unfold b_cap. intros Hs Ha. unfold wp_step, verify_response. cbn [client_of tc_verify_assertion mbind option_bind].
  rewrite !rd_slice_inside by lia. cbn [mbind option_bind]. unfold slice. rewrite !drop_0.
  destruct (sv_verify sv w _ _) as [[st payload] w'] eqn:E. destruct (is_ok st) eqn:Hst; cbn [negb].
  - apply is_ok_spec in Hst as ->. by eexists _, _, _.
  - eexists _, _, _. split; [reflexivity|]. split; [done|by apply not_ok_neq].
Qed.

Lemma wp_decode_response request payload ws w :
  wpQ (decode_response client request payload) ws w (fun a ws' w' =>
    w' = w /\ ta_max_age_ms a = tr_max_age_ms request /\ assertion_accepted a (v_data payload) (v_data key_id)
    /\ decode_assertion (v_data payload) = Some a).
Proof.
  unfold wp_step, decode_response. cbn [client_of tc_time_key_id].
  destruct (decode_verified_assertion payload key_id (tw_canonical_scratch ws)) as [[st data] a] eqn:E.
  apply decode_verified_spec in E as (Hl & _ & Hok). destruct (is_ok st) eqn:Hst; cbn [negb].
  - apply is_ok_spec in Hst as ->. destruct (Hok eq_refl) as [Hacc Hdec].
    destruct (Z.eqb_spec (ta_max_age_ms a) (tr_max_age_ms request)); cbn [negb];
      (eexists _, _, _; split; [reflexivity|]; split; [by repeat split; auto|done]).
  - eexists _, _, _. split; [reflexivity|]. split; [by repeat split; auto|]. by apply not_ok_neq.
Qed.

(** What a successful acceptance says. *)
Definition interval_accepted (a : pbns_trusted_time_assertion) (request : pbns_trusted_time_request) (round_trip_ms : Z)
    (i : pbns_time_interval) : Prop :=
  ta_request_id a = tr_request_id request /\ ta_host_fingerprint a = tr_host_fingerprint request
  /\ ta_nonce a = tr_nonce request
  /\ i = mk_interval (asserted_time a - ta_uncertainty_ns a)
           (asserted_time a + round_trip_ms * PBNS_NANOSECONDS_PER_MILLISECOND + ta_uncertainty_ns a)
  /\ 0 <= ti_earliest_ns i <= ti_latest_ns i /\ ti_latest_ns i <= INT64_MAX
  /\ match previous with Some p => ti_earliest_ns p < ti_earliest_ns i | None => True end.

Lemma accept_spec a request rt :
  assertion_typed a -> length (ta_request_id a) = length (tr_request_id request) ->
  length (ta_host_fingerprint a) = length (tr_host_fingerprint request) ->
  length (ta_nonce a) = length (tr_nonce request) -> 0 <= rt ->
  exists st i, accept_verified_assertion a (tr_request_id request) (tr_host_fingerprint request) (tr_nonce request)
    rt maximum previous = Some (st, i) /\ (st = PBNS_OK -> interval_accepted a request rt i).
Proof.
  intros Ha L1 L2 L3 Hrt. unfold accept_verified_assertion. destruct (_ || _); [by eexists _, _|].
  destruct (match previous with Some _ => _ | None => _ end); [by eexists _, _|].
  destruct (_ || negb (bytes_equal (ta_nonce a) _)) eqn:Hbind; [by eexists _, _|].
  destruct ((maximum <? rt) || _); [by eexists _, _|].
  destruct (Z.ltb_spec (UINT64_MAX / PBNS_NANOSECONDS_PER_MILLISECOND) rt) as [|Hfit]; [by eexists _, _|].
  assert (Hns : 0 <= rt * PBNS_NANOSECONDS_PER_MILLISECOND <= UINT64_MAX).
  { unfold UINT64_MAX, PBNS_NANOSECONDS_PER_MILLISECOND in *. change (18446744073709551615 / 1000000) with 18446744073709 in Hfit.
    lia. }
  rewrite u64_small by done. cbv zeta.
  destruct (interval_cases a (rt * PBNS_NANOSECONDS_PER_MILLISECOND) Ha Hns) as (st & i & -> & Hc). cbn [mbind option_bind].
  destruct (is_ok st) eqn:Hst; cbn [negb]; [|eexists _, _; split; [done|]; by intros ->].
  apply is_ok_spec in Hst as ->. destruct Hc as [[? _]|(_ & _ & [[? _]|(_ & -> & Hlo & Hhi)])]; [done..|].
  destruct (match previous with Some _ => _ | None => _ end) eqn:Hprev; [by eexists _, _|].
  eexists _, _. split; [done|]. intros _. unfold interval_accepted. bools. destruct Ha as (_ & _ & Hu).
  split_and!; try (by apply ct_equal_spec); try done; cbn; try lia.
  destruct previous as [p|]; [|done]. bools. cbn in Hprev. lia.
Qed.

Lemma decode_assertion_sized payload a :
  decode_assertion payload = Some a ->
  length (ta_request_id a) = 16%nat /\ length (ta_host_fingerprint a) = 32%nat /\ length (ta_nonce a) = 32%nat.
Proof.
  assert (Hd : forall d label n v d', decode_bytes d label (Z.of_nat n) = Some (v, d') -> length v = n).
  { intros d label n v d' E. unfold decode_bytes in E. apply bind_Some in E as ([x d1] & _ & E).
    destruct (Z.eqb_spec (v_len x) (Z.of_nat n)) as [Hx|]; [|done]. injection E as <- <-. unfold v_len in Hx. lia. }
  unfold decode_assertion. intros E.
  repeat (apply bind_Some in E as (? & ? & E); try match type of E with context [let '(_, _) := ?p in _] => destruct p end).
  cbv zeta in E. destruct (_ || _); [done|]. injection E as <-. cbn.
  split_and!; [eapply (Hd _ _ 16%nat)|eapply (Hd _ _ 32%nat)|eapply (Hd _ _ 32%nat)]; eassumption.
Qed.
End steps.

Lemma query_finish_same ws ws' : same_workspace ws ws' -> query_finish ws' = query_finish ws.
Proof.
  intros (H1 & H2 & H3 & H4 & H5). unfold query_finish, secure_zero, with_data, same_buffer in *.
  destruct H1 as (-> & -> & ->), H2 as (-> & -> & ->), H3 as (-> & -> & ->), H4 as (-> & -> & ->), H5 as (-> & -> & ->).
  done.
Qed.

(** The calls of a query that succeeds, in their order, and what they carry. *)
Definition query_bound {W} `{QCBOR} (sv : time_services W) (key_id : pbns_view) (maximum : Z) (fingerprint : bytes)
    (previous : ptr pbns_time_interval) (w : W) (interval : pbns_time_interval) : Prop :=
  exists random w1, sv_random sv w (replicate 48 0) = (PBNS_OK, random, w1) /\ length random = 48%nat
  /\ let request := request_of maximum fingerprint random in
  exists signed n w2 buf1, sv_sign sv w1 (cbor_map (request_fields request)) PBNS_TIME_REQUEST_AAD buf1 = (PBNS_OK, signed, n, w2)
  /\ exists started w3, sv_clock sv w2 = (PBNS_OK, started, w3)
  /\ exists response size w4 buf2, sv_exchange sv w3 (take (Z.to_nat n) signed) buf2 = (PBNS_OK, response, size, w4)
  /\ exists finished w5, sv_clock sv w4 = (PBNS_OK, finished, w5) /\ 0 <= finished - started <= maximum
  /\ exists payload w6, sv_verify sv w5 (take (Z.to_nat size) response) (time_aad request (v_data key_id)) = (PBNS_OK, payload, w6)
  /\ exists a, assertion_accepted a (v_data payload) (v_data key_id) /\ ta_max_age_ms a = maximum
  /\ interval_accepted previous a request (finished - started) interval.

Lemma wp_query_body {W} `{Q : QCBOR} `{!QCBORTyped} `{M : Machine} (sv : time_services W) `{!TimeServiceLaws sv}
    key_id maximum fingerprint previous ws w :
  length fingerprint = 32%nat -> 0 <= maximum <= UINT32_MAX ->
  wpQ (query_body (client_of sv key_id maximum) fingerprint previous) ws w
    (fun interval _ _ => query_bound sv key_id maximum fingerprint previous w interval).
Proof.
  intros Hf Hmax. unfold query_body.
  eapply (wps_bind same_workspace); [by apply wp_fill_random|]. intros random ws1 w1 _ (-> & Hrl & Hrand).
  eapply (wps_bind same_workspace); [by apply wp_make_request|]. intros request ws2 w2 _ (-> & -> & ->).
  set (request := request_of maximum fingerprint random).
  assert (Hsized : request_sized request).
  { unfold request_sized, request, request_of. cbn. rewrite length_take, length_drop, Hrl. done. }
  eapply (wps_bind same_workspace); [apply wp_encode_request|]. intros psize ws3 w3 _ (-> & Hp0 & Hp1 & Hp).
  eapply (wps_bind same_workspace); [by apply (wp_sign_request sv _ _ psize)|]. intros n ws4 w4 _ (Hn & Hsign).
  eapply (wps_bind same_workspace); [by apply wp_read_clock|]. intros started ws5 w5 _ (-> & Hst & Hclock1).
  eapply (wps_bind same_workspace); [by apply wp_run_exchange|]. intros [est size] ws6 w6 _ (Hsize & Hex).
  eapply (wps_bind same_workspace); [by apply wp_read_clock|]. intros finished ws7 w7 _ (-> & Hfin & Hclock2).
  eapply (wps_bind same_workspace); [by apply wp_check_exchange|]. intros rt ws8 w8 _ (-> & -> & -> & -> & Hrt & Hcap).
  eapply (wps_bind same_workspace); [by apply wp_make_aad|]. intros asize ws9 w9 _ (-> & Hresp & Has & Haad).
  eapply (wps_bind same_workspace); [apply wp_verify_response; [rewrite Hresp; lia|done]|]. intros payload ws10 w10 _ (-> & Hver).
  eapply (wps_bind same_workspace); [apply wp_decode_response|]. intros a ws11 w11 _ (-> & Hage & Hacc & Hdec).
  rewrite Hresp, Haad in Hver.
  pose proof (decode_assertion_typed _ _ Hdec) as Htyped.
  destruct (decode_assertion_sized _ _ Hdec) as (L1 & L2 & L3). pose proof Hsized as (K1 & K2 & K3).
  destruct (accept_spec maximum previous a request (finished - started)) as (st & i & E & Hok);
    [done|congruence|congruence|congruence|lia|].
  unfold wp_step, accept_response. cbn [client_of tc_maximum_round_trip_ms]. rewrite E. cbn [mbind option_bind].
  destruct (is_ok st) eqn:Hs; cbn [negb];
    [|eexists _, _, _; split; [reflexivity|]; split; [done|by apply not_ok_neq]].
  apply is_ok_spec in Hs as ->. eexists _, _, _. split; [reflexivity|]. split; [done|]. specialize (Hok eq_refl).
  exists random, w1. split; [done|]. split; [done|]. fold request.
  eexists _, n, w4, _. split; [exact Hsign|]. exists started, w5. split; [done|]. eexists _, size, w6, _. split; [exact Hex|].
  exists finished, w7. split; [done|]. split; [done|]. exists payload, w10. split; [exact Hver|]. exists a.
  split; [done|]. split; [done|]. done.
Qed.

(** C25: a query for the time always returns and always wipes its workspace.  A
    result other than success gives no interval.  On success the calls were, in
    this order: fresh random numbers, a signature over the canonical request
    that carries them, the clock, one exchange, the clock again, and a
    verification of the response under data that names the identifier, the
    host, the nonce and the key; the payload the verifier returned is the
    canonical encoding of an assertion for exactly this request and key; the
    exchange took no longer than allowed; and the interval is the one of that
    assertion, later than the previous one. *)
Theorem time_query_contract {W} `{Q : QCBOR} `{!QCBORTyped} `{M : Machine} (sv : time_services W) `{!TimeServiceLaws sv}
    (key_id : pbns_view) (maximum : Z) (fingerprint : bytes) (previous : ptr pbns_time_interval)
    (ws : pbns_trusted_time_workspace) (w : W) :
  length fingerprint = 32%nat -> nonzero fingerprint = true ->
  client_is_valid (client_of sv key_id maximum) = true -> workspace_is_valid ws = true ->
  exists st interval w', time_query (client_of sv key_id maximum) fingerprint previous ws w
    = Some (st, interval, query_finish ws, w')
  /\ Forall (fun b => b_data b = replicate (length (b_data b)) 0) (workspace_buffers (query_finish ws))
  /\ (st <> PBNS_OK -> interval = zero_interval)
  /\ (st = PBNS_OK -> query_bound sv key_id maximum fingerprint previous w interval).
Proof.
  intros Hf Hnz Hcl Hws. unfold time_query. rewrite Hcl, Hnz, Hws. cbn [negb orb].
  assert (Hmax : 0 <= maximum <= UINT32_MAX).
  { unfold client_of, client_is_valid, PBNS_TIME_MAX_AGE_MS, UINT32_MAX in *. bools. lia. }
  assert (Hwiped : Forall (fun b => b_data b = replicate (length (b_data b)) 0) (workspace_buffers (query_finish ws))).
  { unfold workspace_buffers, query_finish, secure_zero, with_data. cbn [tw_request_payload tw_signed_request tw_signed_response
      tw_canonical_scratch tw_aad]. repeat (apply Forall_cons_iff; split); [..|done]; cbn; by rewrite length_replicate. }
  destruct (wp_query_body sv key_id maximum fingerprint previous ws w Hf Hmax) as (r & ws' & w' & E & Hs & Hr). rewrite E.
  rewrite (query_finish_same ws ws') by done. destruct r as [st|i]; eexists _, _, _; (split; [done|]); done.
Qed.

(** ** Witnesses *)

Definition item_typedb (item : QCBORItem) : bool :=
  (- 2 ^ 63 <=? val_int64 item) && (val_int64 item <=? INT64_MAX) && (0 <=? val_uint64 item) && (val_uint64 item <=? UINT64_MAX).

(** The reference codec, which stops at a number that does not fit its type. *)
Definition checked_qcbor : QCBOR :=
  @Build_QCBOR (list QCBORItem) map_items
    (fun items => match items with
                  | [] => (None, [])
                  | item :: items => if item_typedb item then (Some item, items) else (None, [])
                  end)
    (fun items => match items with [] => true | _ => false end)
    (@QCBOREncode_map reference_qcbor) (@QCBOREncode_map_spec reference_qcbor).

#[export] Instance checked_typed : @QCBORTyped checked_qcbor.
Proof.
  split. cbn. intros [|x items] item d' E; [done|]. destruct (item_typedb x) eqn:Hx; [|done]. injection E as <- <-.
  unfold item_typedb in Hx. bools. done.
Qed.

(** A gateway that answers with the assertion of [TimeProps], on a clock that
    advances by ten milliseconds. *)
Definition ex_fill (buf data : bytes) : bytes := take (length buf) (data ++ buf).
Definition ex_response : bytes := cbor_map (assertion_fields ex_assertion).

Definition ex_services : time_services Z := mk_time_services
  (fun w buf => (PBNS_OK, replicate (length buf) 5, w))
  (fun w payload _ buf => (PBNS_OK, ex_fill buf payload, zlen payload, w))
  (fun w _ buf => (PBNS_OK, ex_fill buf ex_response, zlen ex_response, w))
  (fun w message _ => (PBNS_OK, mk_view 4096 message, w))
  (fun w => (PBNS_OK, w mod 2 ^ 32, w + 10)).

#[export] Instance ex_services_laws : TimeServiceLaws ex_services.
Proof.
  assert (Hfill : forall buf data, length (ex_fill buf data) = length buf)
    by (intros; unfold ex_fill; rewrite length_take, length_app; lia).
  split.
  - intros w buf st out w' [= <- <- <-]. apply length_replicate.
  - intros w payload aad buf st out n w' [= <- <- <- <-]. split; [apply Hfill|lia].
  - intros w message buf st out n w' [= <- <- <- <-]. split; [apply Hfill|lia].
  - intros w st ms w' [= <- <- <-]. pose proof (Z.mod_pos_bound w (2 ^ 32)). unfold UINT64_MAX. lia.
Qed.

Definition ex_workspace : pbns_trusted_time_workspace :=
  mk_time_workspace (mk_buffer 8192 0 (replicate 512 1)) (mk_buffer 16384 0 (replicate 600 1))
    (mk_buffer 24576 0 (replicate 600 1)) (mk_buffer 32768 0 (replicate 512 1)) (mk_buffer 40960 0 (replicate 192 1)).

Lemma time_query_contract_witness :
  exists st interval w', @time_query Z checked_qcbor x86_64 (client_of ex_services (mk_view 96 [1; 2; 3]) 2000)
    (replicate 32 7) None ex_workspace 0 = Some (st, interval, query_finish ex_workspace, w')
  /\ (st = PBNS_OK -> @query_bound Z checked_qcbor ex_services (mk_view 96 [1; 2; 3]) 2000 (replicate 32 7) None 0 interval).
Proof.
  destruct (@time_query_contract Z checked_qcbor checked_typed x86_64 ex_services ex_services_laws (mk_view 96 [1; 2; 3]) 2000
    (replicate 32 7) None ex_workspace 0) as (st & i & w' & E & _ & _ & H).
  - reflexivity.
  - vm_compute. reflexivity.
  - vm_compute. reflexivity.
  - vm_compute. reflexivity.
  - exists st, i, w'. split; [exact E|exact H].
Defined.

Example ex_time_query :
  option_map (fun r => fst (fst r)) (@time_query Z checked_qcbor x86_64 (client_of ex_services (mk_view 96 [1; 2; 3]) 2000)
    (replicate 32 7) None ex_workspace 0)
  = Some (PBNS_OK, mk_interval 1699999999999999250 1700000000010001250).
Proof. vm_compute. reflexivity. Qed.
