(* ===== verification/Credentials.v ===== *)
(** * Credential store of the proxy ([pico/include/pbns_proxy/credentials.h], [pico/src/credentials.c])

    The Wi-Fi and gateway credentials are a canonical CBOR map kept in one of two
    flash sectors.  A new version is written to the sector that is not current:
    erase, data pages, verification, commit page.  The flash is a set of
    callbacks over a world [W].  The scratch workspace of the code, which is
    zeroed on every path, is local and not part of the state. *)

From stdpp Require Import base list numbers.
From Stdlib Require Import ZArith Lia.
From S2P Require Import Prelude Endian Status Buffers Crc32c Cbor Utf8.

Definition PBNS_CREDENTIALS_VERSION : Z := 1.
Definition PBNS_CREDENTIALS_SSID_MAX : Z := 32.
Definition PBNS_CREDENTIALS_PSK_MAX : Z := 63.
Definition PBNS_CREDENTIALS_HOSTNAME_MAX : Z := 253.
Definition PBNS_CREDENTIALS_SPKI_SIZE : Z := 32.
Definition PBNS_CREDENTIALS_CBOR_MAX : Z := 448.
Definition PBNS_CREDENTIALS_PAGE_SIZE : Z := 256.
Definition PBNS_CREDENTIALS_SECTOR_SIZE : Z := 4096.
Definition SLOT_DATA_SIZE : Z := PBNS_CREDENTIALS_PAGE_SIZE * 2.
Definition SLOT_COMMIT_OFFSET : Z := SLOT_DATA_SIZE.
Definition RECORD_PAYLOAD_OFFSET : Z := 20.
Definition RECORD_CRC_OFFSET : Z := SLOT_DATA_SIZE - 4.
Definition COMMIT_SIZE : Z := PBNS_CREDENTIALS_PAGE_SIZE.
Definition COMMIT_CRC_OFFSET : Z := COMMIT_SIZE - 4.
Definition RECORD_FORMAT_VERSION : Z := 1.
Definition RECORD_FLAG_TOMBSTONE : Z := 1.

Definition cred_record_magic : bytes := [80; 66; 78; 67].
Definition commit_magic : bytes := [80; 66; 79; 75].

(** ** Credentials *)

(** The arrays, each with the length in use. *)
Record pbns_credentials := mk_credentials {
  cr_ssid : bytes;
  cr_ssid_len : Z;
  cr_psk : bytes;
  cr_psk_len : Z;
  cr_hostname : bytes;
  cr_hostname_len : Z;
  cr_port : Z;
  cr_spki_sha256 : bytes;
}.

Definition zero_credentials : pbns_credentials :=
  mk_credentials (replicate 32 0) 0 (replicate 63 0) 0 (replicate 254 0) 0 0 (replicate 32 0).

(** The octets in use. *)
Definition ssid_of (c : pbns_credentials) : bytes := take (Z.to_nat (cr_ssid_len c)) (cr_ssid c).
Definition psk_of (c : pbns_credentials) : bytes := take (Z.to_nat (cr_psk_len c)) (cr_psk c).
Definition hostname_of (c : pbns_credentials) : bytes := take (Z.to_nat (cr_hostname_len c)) (cr_hostname c).

(** The validator of this file, written with the second octet case by case. *)
Fixpoint cred_utf8_is_valid (text : bytes) : bool :=
  match text with
  | [] => true
  | first :: rest =>
      if first <=? 0x7f then cred_utf8_is_valid rest
      else if octet_between 0xc2 0xdf first then
        match rest with
        | second :: rest' => octet_between 0x80 0xbf second && cred_utf8_is_valid rest'
        | _ => false
        end
      else if octet_between 0xe0 0xef first then
        match rest with
        | second :: third :: rest' =>
            let second_valid :=
              ((first =? 0xe0) && octet_between 0xa0 0xbf second)
              || ((first =? 0xed) && octet_between 0x80 0x9f second)
              || ((octet_between 0xe1 0xec first || octet_between 0xee 0xef first) && octet_between 0x80 0xbf second) in
            second_valid && octet_between 0x80 0xbf third && cred_utf8_is_valid rest'
        | _ => false
        end
      else if octet_between 0xf0 0xf4 first then
        match rest with
        | second :: third :: fourth :: rest' =>
            let second_valid :=
              ((first =? 0xf0) && octet_between 0x90 0xbf second)
              || ((first =? 0xf4) && octet_between 0x80 0x8f second)
              || (octet_between 0xf1 0xf3 first && octet_between 0x80 0xbf second) in
            second_valid && octet_between 0x80 0xbf third && octet_between 0x80 0xbf fourth && cred_utf8_is_valid rest'
        | _ => false
        end
      else false
  end.

Definition contains_zero (text : bytes) : bool := existsb (fun b => b =? 0) text.

Definition validate_credentials (c : pbns_credentials) : pbns_status :=
  if (PBNS_CREDENTIALS_SSID_MAX <? cr_ssid_len c) || (PBNS_CREDENTIALS_PSK_MAX <? cr_psk_len c)
     || (PBNS_CREDENTIALS_HOSTNAME_MAX <? cr_hostname_len c) then PBNS_ERR_LIMIT
  else if (cr_ssid_len c =? 0) || (cr_psk_len c =? 0) || (cr_hostname_len c =? 0) || (cr_port c =? 0)
  then PBNS_ERR_FORMAT
  else if negb (cred_utf8_is_valid (ssid_of c)) || contains_zero (ssid_of c) || contains_zero (psk_of c)
          || negb (cred_utf8_is_valid (hostname_of c)) || contains_zero (hostname_of c)
  then PBNS_ERR_FORMAT
  else PBNS_OK.

(** ** CBOR *)

Section cbor.
Context `{QCBOR}.

Definition credential_fields (c : pbns_credentials) : list (Z * cbor_value) :=
  [(1, CUInt PBNS_CREDENTIALS_VERSION); (2, CBytes (ssid_of c)); (3, CBytes (psk_of c)); (4, CText (hostname_of c));
   (5, CUInt (cr_port c)); (6, CBytes (cr_spki_sha256 c))].

(** The status, the octets of the output and [*written]. *)
Definition encode_canonical (c : pbns_credentials) (output : bytes) : pbns_status * bytes * Z :=
  let '(error, encoded, data) := QCBOREncode_map (credential_fields c) output in
  match error with
  | QCBOR_ERR_BUFFER_TOO_SMALL => (PBNS_ERR_LIMIT, data, 0)
  | QCBOR_SUCCESS => (PBNS_OK, data, zlen encoded)
  | QCBOR_ERR_OTHER => (PBNS_ERR_FORMAT, data, 0)
  end.

Definition credentials_encode_cbor (c : pbns_credentials) (output : pbns_buffer) : pbns_status * bytes * Z :=
  if negb (buffer_is_valid output) then (PBNS_ERR_ARGUMENT, b_data output, 0)
  else
  let status := validate_credentials c in
  if negb (is_ok status) then (status, b_data output, 0) else encode_canonical c (b_data output).

Definition pbns_credentials_encode_cbor (credentials : ptr pbns_credentials) (output : pbns_buffer) (written : ptr Z)
  : pbns_status * bytes * ptr Z :=
  match written, credentials with
  | None, _ => (PBNS_ERR_ARGUMENT, b_data output, None)
  | Some _, None => (PBNS_ERR_ARGUMENT, b_data output, Some 0)
  | Some _, Some c =>
      let '(status, data, written) := credentials_encode_cbor c output in (status, data, Some written)
  end.

(** A field of the map: [inl] is the status that ends the decoding. *)
Definition cred_string (type max : Z) (decoder : QCBORDecodeContext) (label : Z)
  : pbns_status + bytes * QCBORDecodeContext :=
  let '(item, decoder) := next_item decoder label in
  match item with
  | Some item =>
      if negb (uDataType item =? type) then inl PBNS_ERR_FORMAT
      else if max <? zlen (val_string item) then inl PBNS_ERR_LIMIT
      else inr (val_string item, decoder)
  | None => inl PBNS_ERR_FORMAT
  end.

Definition cred_port (decoder : QCBORDecodeContext) (label : Z) : pbns_status + Z * QCBORDecodeContext :=
  let '(item, decoder) := next_item decoder label in
  match item ≫= item_to_uint64 with
  | Some port => if UINT16_MAX <? port then inl PBNS_ERR_FORMAT else inr (u16 port, decoder)
  | None => inl PBNS_ERR_FORMAT
  end.

Definition cred_spki (decoder : QCBORDecodeContext) (label : Z) : pbns_status + bytes * QCBORDecodeContext :=
  let '(item, decoder) := next_item decoder label in
  match item with
  | Some item =>
      if negb (uDataType item =? QCBOR_TYPE_BYTE_STRING)
         || negb (zlen (val_string item) =? PBNS_CREDENTIALS_SPKI_SIZE) then inl PBNS_ERR_FORMAT
      else inr (val_string item, decoder)
  | None => inl PBNS_ERR_FORMAT
  end.

(** An array that was zeroed and copied into. *)
Definition filled (capacity : nat) (data : bytes) : bytes := data ++ replicate (capacity - length data) 0.

(** The map head and the version. *)
Definition decode_version (encoded : bytes) : pbns_status + QCBORDecodeContext :=
  let '(item, decoder) := QCBORDecode_GetNext (QCBORDecode_Init encoded) in
  match item with
  | None => inl PBNS_ERR_FORMAT
  | Some item =>
      if negb (uDataType item =? QCBOR_TYPE_MAP) || negb (uLabelType item =? QCBOR_TYPE_NONE)
         || negb (val_uCount item =? 6) then inl PBNS_ERR_FORMAT
      else
      let '(item, decoder) := next_item decoder 1 in
      match item ≫= item_to_uint64 with
      | None => inl PBNS_ERR_FORMAT
      | Some version =>
          if negb (version =? PBNS_CREDENTIALS_VERSION) then inl PBNS_ERR_VERSION else inr decoder
      end
  end.

Definition parse_credentials (encoded : bytes) : pbns_status + pbns_credentials :=
  match decode_version encoded with
  | inl status => inl status
  | inr decoder =>
  match cred_string QCBOR_TYPE_BYTE_STRING PBNS_CREDENTIALS_SSID_MAX decoder 2 with
  | inl status => inl status
  | inr (ssid, decoder) =>
  match cred_string QCBOR_TYPE_BYTE_STRING PBNS_CREDENTIALS_PSK_MAX decoder 3 with
  | inl status => inl status
  | inr (psk, decoder) =>
  match cred_string QCBOR_TYPE_TEXT_STRING PBNS_CREDENTIALS_HOSTNAME_MAX decoder 4 with
  | inl status => inl status
  | inr (hostname, decoder) =>
  match cred_port decoder 5 with
  | inl status => inl status
  | inr (port, decoder) =>
  match cred_spki decoder 6 with
  | inl status => inl status
  | inr (spki, decoder) =>
      if negb (QCBORDecode_Finish decoder) then inl PBNS_ERR_FORMAT
      else inr (mk_credentials (filled 32 ssid) (zlen ssid) (filled 63 psk) (zlen psk)
                  (filled 254 hostname) (zlen hostname) port spki)
  end end end end end end.

Definition credentials_decode_cbor (encoded : pbns_view) : pbns_status * pbns_credentials :=
  let fail status := (status, zero_credentials) in
  if negb (view_is_valid encoded) then fail PBNS_ERR_ARGUMENT
  else if v_len encoded =? 0 then fail PBNS_ERR_FORMAT
  else if PBNS_CREDENTIALS_CBOR_MAX <? v_len encoded then fail PBNS_ERR_LIMIT
  else
  match parse_credentials (v_data encoded) with
  | inl status => fail status
  | inr parsed =>
      let status := validate_credentials parsed in
      if negb (is_ok status) then fail status
      else
      let '(status, canonical, canonical_len) :=
        encode_canonical parsed (replicate (Z.to_nat PBNS_CREDENTIALS_CBOR_MAX) 0) in
      if negb (is_ok status) then fail status
      else if negb (canonical_len =? v_len encoded)
              || negb (bytes_eqb (take (Z.to_nat (v_len encoded)) canonical) (v_data encoded))
      then fail PBNS_ERR_FORMAT
      else (PBNS_OK, parsed)
  end.

Definition pbns_credentials_decode_cbor (encoded : pbns_view) (credentials : ptr pbns_credentials)
  : pbns_status * ptr pbns_credentials :=
  match credentials with
  | None => (PBNS_ERR_ARGUMENT, None)
  | Some _ => let '(status, c) := credentials_decode_cbor encoded in (status, Some c)
  end.
End cbor.

(** ** Slots *)

Record slot_info := mk_slot_info {
  si_valid : bool;
  si_tombstone : bool;
  si_generation : Z;
  si_credentials : pbns_credentials;
}.

Definition zero_slot_info : slot_info := mk_slot_info false false 0 zero_credentials.

(** The flash callbacks: [read] fills the destination it is given. *)
Record pbns_credentials_storage_ops (W : Type) := mk_storage_ops {
  ops_read : ptr (W -> Z -> bytes -> pbns_status * bytes * W);
  ops_erase : ptr (W -> Z -> Z -> pbns_status * W);
  ops_program : ptr (W -> Z -> bytes -> pbns_status * W);
}.
Arguments mk_storage_ops {W}.
Arguments ops_read {W}.
Arguments ops_erase {W}.
Arguments ops_program {W}.

Record pbns_credentials_storage (W : Type) := mk_storage {
  st_ops : ptr (pbns_credentials_storage_ops W);
  st_first : Z;
  st_second : Z;
}.
Arguments mk_storage {W}.
Arguments st_ops {W}.
Arguments st_first {W}.
Arguments st_second {W}.

(** [storage->slot_offsets[slot]] *)
Definition slot_offset {W} (storage : pbns_credentials_storage W) (slot : Z) : option Z :=
  rd [st_first storage; st_second storage] slot.

Definition storage_is_valid `{Machine} {W} (storage : ptr (pbns_credentials_storage W)) : bool :=
  match storage with
  | Some (mk_storage (Some (mk_storage_ops (Some _) (Some _) (Some _))) first second) =>
      if negb (first mod PBNS_CREDENTIALS_SECTOR_SIZE =? 0) || negb (second mod PBNS_CREDENTIALS_SECTOR_SIZE =? 0)
         || (SIZE_MAX - PBNS_CREDENTIALS_SECTOR_SIZE <? first) || (SIZE_MAX - PBNS_CREDENTIALS_SECTOR_SIZE <? second)
      then false
      else
      let first_end := size_add first PBNS_CREDENTIALS_SECTOR_SIZE in
      let second_end := size_add second PBNS_CREDENTIALS_SECTOR_SIZE in
      if (first <? second_end) && (second <? first_end) then false else true
  | _ => false
  end.

(** ** Records *)

(** The result and [*info]. *)
Definition data_record_is_valid `{QCBOR} (data : bytes) (info : slot_info) : option (bool * slot_info) :=
  magic ← rd_slice data 0 4;
  b4 ← rd data 4;
  b5 ← rd data 5;
  b6 ← rd data 6;
  b7 ← rd data 7;
  if negb (bytes_eqb magic cred_record_magic) || negb (b4 =? RECORD_FORMAT_VERSION)
     || (negb (b5 =? 0) && negb (b5 =? RECORD_FLAG_TOMBSTONE)) || negb (b6 =? 0) || negb (b7 =? 0)
  then Some (false, info)
  else
  generation ← read_u64_be data 8;
  payload_len ← read_u32_be data 16;
  let tombstone := b5 =? RECORD_FLAG_TOMBSTONE in
  if (generation =? 0) || (PBNS_CREDENTIALS_CBOR_MAX <? payload_len)
     || (tombstone && negb (payload_len =? 0)) || (negb tombstone && (payload_len =? 0))
  then Some (false, info)
  else
  expected_crc ← read_u32_be data RECORD_CRC_OFFSET;
  checked ← rd_slice data 0 (RECORD_PAYLOAD_OFFSET + payload_len);
  if negb (expected_crc =? crc32c_bytes checked) then Some (false, info)
  else if tombstone then Some (true, mk_slot_info (si_valid info) true generation (si_credentials info))
  else
  payload ← rd_slice data RECORD_PAYLOAD_OFFSET payload_len;
  let '(status, credentials) := credentials_decode_cbor (mk_view 1 payload) in
  if negb (is_ok status) then Some (false, mk_slot_info (si_valid info) false generation zero_credentials)
  else Some (true, mk_slot_info (si_valid info) false generation credentials).

Definition commit_record_is_valid (commit : bytes) (generation : Z) : option bool :=
  magic ← rd_slice commit 0 4;
  if negb (bytes_eqb magic commit_magic) then Some false
  else
  committed ← read_u64_be commit 4;
  if negb (committed =? generation) then Some false
  else
  crc ← read_u32_be commit COMMIT_CRC_OFFSET;
  checked ← rd_slice commit 0 COMMIT_CRC_OFFSET;
  Some (crc =? crc32c_bytes checked).

Definition build_data_record (generation : Z) (tombstone : bool) (payload : bytes) : option bytes :=
  data ← wr_list (replicate (Z.to_nat SLOT_DATA_SIZE) 255) 0 cred_record_magic;
  data ← wr data 4 RECORD_FORMAT_VERSION;
  data ← wr data 5 (if tombstone then RECORD_FLAG_TOMBSTONE else 0);
  data ← wr data 6 0;
  data ← wr data 7 0;
  data ← write_u64_be data 8 generation;
  data ← write_u32_be data 16 (u32 (zlen payload));
  data ← wr_list data RECORD_PAYLOAD_OFFSET payload;
  checked ← rd_slice data 0 (RECORD_PAYLOAD_OFFSET + zlen payload);
  write_u32_be data RECORD_CRC_OFFSET (crc32c_bytes checked).

Definition build_commit_record (generation : Z) : option bytes :=
  commit ← wr_list (replicate (Z.to_nat COMMIT_SIZE) 255) 0 commit_magic;
  commit ← write_u64_be commit 4 generation;
  checked ← rd_slice commit 0 COMMIT_CRC_OFFSET;
  write_u32_be commit COMMIT_CRC_OFFSET (crc32c_bytes checked).

Definition latest_slot (slot0 slot1 : slot_info) : Z :=
  if negb (si_valid slot0) && negb (si_valid slot1) then -1
  else if si_valid slot0 && negb (si_valid slot1) then 0
  else if negb (si_valid slot0) && si_valid slot1 then 1
  else if si_generation slot0 =? si_generation slot1 then -2
  else if si_generation slot1 <? si_generation slot0 then 0 else 1.

(** [memcmp] over the length of [left], which is that of [right]. *)
Definition credentials_equal (left right : pbns_credentials) : bool :=
  (cr_ssid_len left =? cr_ssid_len right)
  && bytes_eqb (ssid_of left) (take (Z.to_nat (cr_ssid_len left)) (cr_ssid right))
  && (cr_psk_len left =? cr_psk_len right)
  && bytes_eqb (psk_of left) (take (Z.to_nat (cr_psk_len left)) (cr_psk right))
  && (cr_hostname_len left =? cr_hostname_len right)
  && bytes_eqb (hostname_of left) (take (Z.to_nat (cr_hostname_len left)) (cr_hostname right))
  && (cr_port left =? cr_port right) && bytes_eqb (cr_spki_sha256 left) (cr_spki_sha256 right).

(** ** Operations *)

Section operations.
Context `{Machine, QCBOR} {W : Type}.
Implicit Types (storage : pbns_credentials_storage W) (w : W).

(** The status, [*info] and the world; the scratch areas are zeroed. *)
Definition read_slot storage (slot : Z) (data commit : bytes) w : option (pbns_status * slot_info * W) :=
  ops ← st_ops storage;
  read ← ops_read ops;
  offset ← slot_offset storage slot;
  let '(status, data, w) := read w offset data in
  if negb (is_ok status) then Some (status, zero_slot_info, w)
  else
  let '(status, commit, w) := read w (size_add offset SLOT_COMMIT_OFFSET) commit in
  if negb (is_ok status) then Some (status, zero_slot_info, w)
  else
  '(data_valid, info) ← data_record_is_valid data zero_slot_info;
  if negb data_valid then Some (PBNS_OK, zero_slot_info, w)
  else
  commit_valid ← commit_record_is_valid commit (si_generation info);
  if commit_valid : bool
  then Some (PBNS_OK, mk_slot_info true (si_tombstone info) (si_generation info) (si_credentials info), w)
  else Some (PBNS_OK, zero_slot_info, w).

Definition zero_data : bytes := replicate (Z.to_nat SLOT_DATA_SIZE) 0.
Definition zero_commit : bytes := replicate (Z.to_nat COMMIT_SIZE) 0.

(** The two calls of [read_slot] at the start of both operations. *)
Definition read_slots storage w : option ((pbns_status + slot_info * slot_info) * W) :=
  '(status, slot0, w) ← read_slot storage 0 zero_data zero_commit w;
  if negb (is_ok status) then Some (inl status, w)
  else
  '(status, slot1, w) ← read_slot storage 1 zero_data zero_commit w;
  if negb (is_ok status) then Some (inl status, w) else Some (inr (slot0, slot1), w).

(** The generation to write and the slot it goes to, or why nothing is written. *)
Definition next_generation (slot0 slot1 : slot_info) : pbns_status + Z * Z :=
  let current := latest_slot slot0 slot1 in
  if current =? -2 then inl PBNS_ERR_AMBIGUOUS
  else if 0 <=? current then
    let generation := si_generation (if current =? 0 then slot0 else slot1) in
    if generation =? UINT64_MAX then inl PBNS_ERR_LIMIT
    else inr (u64 (generation + 1), if current =? 0 then 1 else 0)
  else inr (1, 0).

(** The last test of the transaction. *)
Definition verified_matches (verified : slot_info) (generation : Z) (credentials : ptr pbns_credentials)
    (tombstone : bool) : option bool :=
  if negb (si_valid verified) || negb (si_generation verified =? generation)
     || negb (Bool.eqb (si_tombstone verified) tombstone) then Some false
  else if tombstone then Some true
  else expected ← credentials; Some (credentials_equal (si_credentials verified) expected).

(** Erase, program, verify, commit, verify. *)
Definition write_slot storage (target generation : Z) (credentials : ptr pbns_credentials) (tombstone : bool)
    (payload : bytes) w : option (pbns_status * W) :=
  ops ← st_ops storage;
  read ← ops_read ops;
  erase ← ops_erase ops;
  program ← ops_program ops;
  offset ← slot_offset storage target;
  data ← build_data_record generation tombstone payload;
  commit ← build_commit_record generation;
  let '(status, w) := erase w offset PBNS_CREDENTIALS_SECTOR_SIZE in
  if negb (is_ok status) then Some (status, w)
  else
  let '(status, w) := program w offset data in
  if negb (is_ok status) then Some (status, w)
  else
  let '(status, readback, w) := read w offset zero_data in
  if negb (is_ok status) then Some (status, w)
  else if negb (bytes_eqb data readback) then Some (PBNS_ERR_IO, w)
  else
  '(data_valid, uncommitted) ← data_record_is_valid readback zero_slot_info;
  if negb data_valid || negb (si_generation uncommitted =? generation)
     || negb (Bool.eqb (si_tombstone uncommitted) tombstone) then Some (PBNS_ERR_IO, w)
  else
  let '(status, w) := program w (size_add offset SLOT_COMMIT_OFFSET) commit in
  if negb (is_ok status) then Some (status, w)
  else
  '(status, verified, w) ← read_slot storage target readback commit w;
  if negb (is_ok status) then Some (status, w)
  else
  matches ← verified_matches verified generation credentials tombstone;
  Some (if matches : bool then PBNS_OK else PBNS_ERR_IO, w).

Definition write_transaction (storage : ptr (pbns_credentials_storage W)) (credentials : ptr pbns_credentials)
    (tombstone : bool) w : option (pbns_status * W) :=
  if negb (storage_is_valid storage) then Some (PBNS_ERR_ARGUMENT, w)
  else
  storage ← storage;
  let '(encode_status, encoded, encoded_len) :=
    if tombstone then (PBNS_OK, replicate (Z.to_nat PBNS_CREDENTIALS_CBOR_MAX) 0, Some 0)
    else pbns_credentials_encode_cbor credentials (mk_buffer 1 0 (replicate (Z.to_nat PBNS_CREDENTIALS_CBOR_MAX) 0))
           (Some 0) in
  if negb (is_ok encode_status) then Some (encode_status, w)
  else
  '(slots, w) ← read_slots storage w;
  match slots with
  | inl status => Some (status, w)
  | inr (slot0, slot1) =>
  match next_generation slot0 slot1 with
  | inl status => Some (status, w)
  | inr (generation, target) =>
      encoded_len ← encoded_len;
      payload ← rd_slice encoded 0 encoded_len;
      write_slot storage target generation credentials tombstone payload w
  end end.

Definition credentials_load storage w : option (pbns_status * pbns_credentials * W) :=
  '(slots, w) ← read_slots storage w;
  match slots with
  | inl status => Some (status, zero_credentials, w)
  | inr (slot0, slot1) =>
      let current := latest_slot slot0 slot1 in
      let slot := if current =? 0 then slot0 else slot1 in
      if current =? -2 then Some (PBNS_ERR_AMBIGUOUS, zero_credentials, w)
      else if (current <? 0) || si_tombstone slot then Some (PBNS_ERR_STATE, zero_credentials, w)
      else Some (PBNS_OK, si_credentials slot, w)
  end.

Definition pbns_credentials_load (storage : ptr (pbns_credentials_storage W)) (credentials : ptr pbns_credentials) w
  : option (pbns_status * ptr pbns_credentials * W) :=
  let zeroed := (fun _ => zero_credentials) <$> credentials in
  if negb (storage_is_valid storage) then Some (PBNS_ERR_ARGUMENT, zeroed, w)
  else
  match credentials with
  | None => Some (PBNS_ERR_ARGUMENT, zeroed, w)
  | Some _ =>
      storage ← storage;
      '(status, credentials, w) ← credentials_load storage w;
      Some (status, Some credentials, w)
  end.

Definition pbns_credentials_store (storage : ptr (pbns_credentials_storage W)) (credentials : ptr pbns_credentials) w
  : option (pbns_status * W) := write_transaction storage credentials false w.

Definition pbns_credentials_clear (storage : ptr (pbns_credentials_storage W)) w : option (pbns_status * W) :=
  write_transaction storage None true w.
End operations.
