(* ===== verification/CredentialStore.v ===== *)
(** * The credential store is atomic

    Theorems about Credentials: the CBOR form determines the credentials, the
    records determine their contents, and a transaction that is cut short at any
    callback leaves either the old or the new credentials. *)

From stdpp Require Import base list numbers.
From Stdlib Require Import ZArith Lia.
From S2P Require Import Prelude Endian Status Buffers Crc32c Cbor CborReader Utf8 Credentials.

(** ** Text *)

(** The validator is the one of the broker, written case by case. *)
Lemma cred_utf8_equiv (text : bytes) : cred_utf8_is_valid text = utf8_is_valid text.
Proof.
  remember (length text) as n eqn:En. revert text En. induction (lt_wf n) as [n _ IH]. intros text ->.
  destruct text as [|first rest]; [done|]. cbn [cred_utf8_is_valid utf8_is_valid].
  destruct (first <=? 0x7f); [apply (IH (length rest)); cbn; lia|].
  destruct (octet_between 0xc2 0xdf first); [destruct rest as [|second rest]; [done|]|].
  { rewrite (IH (length rest)) by (done || (cbn; lia)). done. }
  destruct (octet_between 0xe0 0xef first) eqn:E3; [destruct rest as [|second [|third rest]]; [done..|]|].
  { rewrite (IH (length rest)) by (done || (cbn; lia)). f_equal. f_equal. unfold octet_between in *.
    destruct (Z.eqb_spec first 0xe0), (Z.eqb_spec first 0xed); lia. }
  destruct (octet_between 0xf0 0xf4 first) eqn:E4; [destruct rest as [|second [|third [|fourth rest]]]; [done..|]|done].
  rewrite (IH (length rest)) by (done || (cbn; lia)). do 3 f_equal. unfold octet_between in *.
  destruct (Z.eqb_spec first 0xf0), (Z.eqb_spec first 0xf4); lia.
Qed.

(** ** Credentials *)

(** The types of the C fields. *)
Definition credentials_typed (c : pbns_credentials) : Prop :=
  (length (cr_ssid c) = 32%nat /\ bytes_ok (cr_ssid c) /\ 0 <= cr_ssid_len c)
  /\ (length (cr_psk c) = 63%nat /\ bytes_ok (cr_psk c) /\ 0 <= cr_psk_len c)
  /\ (length (cr_hostname c) = 254%nat /\ bytes_ok (cr_hostname c) /\ 0 <= cr_hostname_len c)
  /\ 0 <= cr_port c <= UINT16_MAX
  /\ (length (cr_spki_sha256 c) = 32%nat /\ bytes_ok (cr_spki_sha256 c)).

(** What the credentials say, without the unused parts of the arrays. *)
Definition credential_value (c : pbns_credentials) : bytes * bytes * bytes * Z * bytes :=
  (ssid_of c, psk_of c, hostname_of c, cr_port c, cr_spki_sha256 c).

Definition cred_form (c : pbns_credentials) : bytes := cbor_map (credential_fields c).

(** The bounds that make the serialization determine the value. *)
Definition fields_bounded (c : pbns_credentials) : Prop :=
  zlen (ssid_of c) <= 32 /\ zlen (psk_of c) <= 63 /\ zlen (hostname_of c) <= 253
  /\ 0 <= cr_port c <= UINT16_MAX /\ zlen (cr_spki_sha256 c) = 32.

Lemma validate_lengths c : validate_credentials c = PBNS_OK ->
  cr_ssid_len c <= 32 /\ cr_psk_len c <= 63 /\ cr_hostname_len c <= 253
  /\ cr_ssid_len c <> 0 /\ cr_psk_len c <> 0 /\ cr_hostname_len c <> 0 /\ cr_port c <> 0.
Proof.
  unfold validate_credentials, PBNS_CREDENTIALS_SSID_MAX, PBNS_CREDENTIALS_PSK_MAX, PBNS_CREDENTIALS_HOSTNAME_MAX.
  destruct (_ || (253 <? _)) eqn:E1; [done|]. destruct (_ || (cr_port c =? 0)) eqn:E2; [done|]. intros _. bools. lia.
Qed.

Lemma typed_bounded c : credentials_typed c -> validate_credentials c = PBNS_OK -> fields_bounded c.
Proof.
  intros (Hs & Hp & Hh & Hport & Hk) Hv%validate_lengths. unfold fields_bounded, ssid_of, psk_of, hostname_of.
  rewrite !length_take. lia.
Qed.

Lemma bounded_fields_ok c : fields_bounded c -> cbor_fields_ok (credential_fields c).
Proof.
  intros (Hs & Hp & Hh & Hport & Hk). unfold cbor_fields_ok, credential_fields, UINT16_MAX, UINT64_MAX, INT64_MAX, PBNS_CREDENTIALS_VERSION in *.
  split; [|cbn; lia]. repeat constructor; cbn [fst snd cbor_value_ok]; unfold UINT64_MAX; lia.
Qed.

Lemma cred_form_inj c c' :
  fields_bounded c -> fields_bounded c' -> cred_form c = cred_form c' -> credential_value c = credential_value c'.
Proof.
  intros H1 H2 E. apply cbor_map_inj in E; [|by apply bounded_fields_ok..].
  unfold norm_fields, credential_fields in E. cbn in E. unfold credential_value. congruence.
Qed.

Lemma cbor_head_small major arg : 0 <= arg < 2 ^ 16 -> zlen (cbor_head major arg) <= 3.
Proof. intros H. unfold cbor_head. zbool; cbn; lia. Qed.

Lemma cbor_head_octets major arg : 0 <= major < 8 -> 0 <= arg -> bytes_ok (cbor_head major arg).
Proof. intros. unfold cbor_head. zbool; octets. Qed.

Lemma cred_form_length c : fields_bounded c -> 0 < zlen (cred_form c) <= 448.
Proof.
  intros (Hs & Hp & Hh & Hport & Hk). unfold UINT16_MAX in *. unfold cred_form, cbor_map.
  pose proof (cbor_head_pos 5 (zlen (credential_fields c))). unfold credential_fields in *. cbn [length fmap list_fmap concat] in *.
  unfold cbor_pair. cbn [fst snd cbor_encode]. unfold PBNS_CREDENTIALS_VERSION.
  pose proof (cbor_head_small 2 (zlen (ssid_of c))). pose proof (cbor_head_small 2 (zlen (psk_of c))).
  pose proof (cbor_head_small 3 (zlen (hostname_of c))). pose proof (cbor_head_small 0 (cr_port c)).
  pose proof (cbor_head_small 2 (zlen (cr_spki_sha256 c))).
  rewrite !length_app. change (length (cbor_head 5 (Z.of_nat 6))) with 1%nat. change (length (cbor_head 0 1)) with 1%nat.
  repeat match goal with |- context [length (cbor_int ?k)] => change (length (cbor_int k)) with 1%nat end.
  cbn [length]. lia.
Qed.

Lemma cred_form_octets c : credentials_typed c -> bytes_ok (cred_form c).
Proof.
  intros ((_ & Hs & _) & (_ & Hp & _) & (_ & Hh & _) & Hport & (_ & Hk)).
  unfold cred_form, cbor_map, credential_fields, cbor_pair. cbn [fmap list_fmap concat fst snd cbor_encode].
  unfold ssid_of, psk_of, hostname_of, PBNS_CREDENTIALS_VERSION.
  assert (Hi : forall k, 0 <= k -> bytes_ok (cbor_int k)).
  { intros k Hk'. unfold cbor_int. rewrite (proj2 (Z.ltb_ge k 0)) by lia. apply cbor_head_octets; lia. }
  repeat first [apply bytes_ok_app; split]; auto with pbns; (apply Hi || apply cbor_head_octets); lia.
Qed.

Section cbor.
Context `{QCBOR}.

Lemma encode_canonical_ok c storage data n :
  encode_canonical c storage = (PBNS_OK, data, n) ->
  n = zlen (cred_form c) /\ n <= zlen storage /\ length data = length storage /\ take (Z.to_nat n) data = cred_form c.
Proof.
  unfold encode_canonical. destruct (QCBOREncode_map _ _) as [[e out] data'] eqn:E.
  apply QCBOREncode_map_spec in E as (Hl & Hok & _). destruct e; try done. intros [= <- <-].
  destruct (Hok eq_refl) as (-> & Hn & ->). fold (cred_form c). split; [done|]. split; [done|]. split; [done|].
  by rewrite Nat2Z.id, take_app_length.
Qed.

Lemma encode_canonical_fits c storage :
  zlen storage < UINT32_MAX -> zlen (cred_form c) <= zlen storage ->
  exists data, encode_canonical c storage = (PBNS_OK, data, zlen (cred_form c)).
Proof.
  intros H1 H2. unfold encode_canonical. destruct (QCBOREncode_map _ _) as [[e out] data'] eqn:E.
  apply QCBOREncode_map_spec in E as (Hl & Hok & Hs & _). rewrite (Hs H1 H2) in *. destruct (Hok eq_refl) as (-> & _).
  by eexists.
Qed.

(** Where a parsed field comes from. *)
Lemma parse_spki_length encoded c : parse_credentials encoded = inr c -> zlen (cr_spki_sha256 c) = 32 /\ 0 <= cr_port c <= UINT16_MAX.
Proof.
  unfold parse_credentials. intros E. destruct (decode_version encoded) as [|d]; [done|].
  destruct (cred_string _ _ d 2) as [|[ssid d2]]; [done|]. destruct (cred_string _ _ d2 3) as [|[psk d3]]; [done|].
  destruct (cred_string _ _ d3 4) as [|[host d4]]; [done|]. destruct (cred_port d4 5) as [|[port d5]] eqn:Ep; [done|].
  destruct (cred_spki d5 6) as [|[spki d6]] eqn:Ek; [done|]. destruct (negb _); [done|]. injection E as <-. cbn.
  split.
  - unfold cred_spki in Ek. destruct (next_item d5 6) as [[item|] d']; [|done]. destruct (_ || _) eqn:Eb; [done|].
    injection Ek as <- <-. by bools.
  - unfold cred_port in Ep. destruct (next_item d4 5) as [item d']. destruct (item ≫= _) as [p|]; [|done].
    destruct (_ <? _); [done|]. injection Ep as <- <-. unfold u16, UINT16_MAX. pose proof (Z.mod_pos_bound p (2 ^ 16) ltac:(lia)). lia.
Qed.

Lemma parse_fails encoded status : parse_credentials encoded = inl status -> status <> PBNS_OK.
Proof.
  unfold parse_credentials, decode_version, cred_string, cred_port, cred_spki. intros E ->.
  repeat match type of E with context [match ?x with _ => _ end] =>
    match x with context [match _ with _ => _ end] => fail 1 | _ => destruct x; try done end end.
Qed.

(** Accepted octets are the serialization of the credentials. *)
Lemma decode_cbor_ok encoded c :
  credentials_decode_cbor encoded = (PBNS_OK, c) ->
  v_data encoded = cred_form c /\ validate_credentials c = PBNS_OK /\ fields_bounded c.
Proof.
  unfold credentials_decode_cbor. destruct (negb _); [done|]. destruct (v_len encoded =? 0); [done|].
  destruct (_ <? v_len encoded); [done|]. destruct (parse_credentials _) as [|parsed] eqn:Ep; [by intros [= -> ?]; destruct (parse_fails _ _ Ep)|].
  destruct (is_ok (validate_credentials parsed)) eqn:Ev; cbn [negb]; [|by intros [= Ev' ?]; rewrite Ev' in Ev].
  apply is_ok_spec in Ev. destruct (encode_canonical _ _) as [[st canonical] n] eqn:Ee.
  destruct (is_ok st) eqn:Es; cbn [negb]; [|by intros [= -> ?]]. apply is_ok_spec in Es as ->.
  apply encode_canonical_ok in Ee as (-> & _ & _ & Ht).
  destruct (_ || _) eqn:Eq; [done|]. intros [= <-]. bools. apply bytes_eqb_spec in H1.
  split; [|split; [done|]].
  - rewrite <- H1, <- Ht. by rewrite H0.
  - pose proof (validate_lengths _ Ev). destruct (parse_spki_length _ _ Ep) as [Hk Hp]. unfold fields_bounded.
    unfold ssid_of, psk_of, hostname_of. rewrite !length_take. lia.
Qed.

End cbor.

(** ** Records *)

Definition data_head (generation : Z) (tombstone : bool) (payload : bytes) : bytes :=
  cred_record_magic ++ [1; if tombstone then 1 else 0; 0; 0] ++ be_bytes 8 generation ++ be_bytes 4 (zlen payload).

(** The octets of a data record. *)
Definition data_octets (generation : Z) (tombstone : bool) (payload : bytes) : bytes :=
  (data_head generation tombstone payload ++ payload) ++ replicate (488 - length payload) 255
  ++ be_bytes 4 (crc32c_bytes (data_head generation tombstone payload ++ payload)).

Definition commit_body (generation : Z) : bytes := commit_magic ++ be_bytes 8 generation ++ replicate 240 255.

(** The octets of a commit page. *)
Definition commit_octets (generation : Z) : bytes := commit_body generation ++ be_bytes 4 (crc32c_bytes (commit_body generation)).

#[local] Opaque crc32c_bytes be_bytes replicate.

(** Stores into an area that was filled with ones, from its start. *)
Section fresh.
Implicit Types (d src : bytes) (i v : Z) (k : nat).

Lemma wr_list_fresh d k i src : i = zlen d -> (length src <= k)%nat ->
  wr_list (d ++ replicate k 255) i src = Some ((d ++ src) ++ replicate (k - length src) 255).
Proof. intros -> Hk. rewrite wr_list_next by (rewrite ?length_replicate; lia). by rewrite drop_replicate. Qed.

Lemma wr_fresh d k i v : i = zlen d -> (1 <= k)%nat ->
  wr (d ++ replicate k 255) i v = Some ((d ++ [v]) ++ replicate (k - 1) 255).
Proof. intros -> Hk. rewrite wr_next by (rewrite ?length_replicate; lia). by rewrite drop_replicate. Qed.

Lemma write_u64_fresh d k i v : i = zlen d -> (8 <= k)%nat ->
  write_u64_be (d ++ replicate k 255) i v = Some ((d ++ be_bytes 8 v) ++ replicate (k - 8) 255).
Proof.
  intros -> Hk. replace (replicate k 255) with (replicate 8 255 ++ replicate (k - 8) 255)
    by (rewrite <- replicate_add; f_equal; lia).
  rewrite write_u64_be_app by done. by rewrite <- app_assoc.
Qed.

Lemma write_u32_last d k i v : i = zlen d + Z.of_nat k -> 
  write_u32_be (d ++ replicate (k + 4) 255) i v = Some (d ++ replicate k 255 ++ be_bytes 4 v).
Proof.
  intros ->. rewrite replicate_add, app_assoc. replace (zlen d + Z.of_nat k) with (zlen (d ++ replicate k 255)) by (rewrite length_app, length_replicate; lia).
  rewrite <- (app_nil_r (replicate 4 255)), write_u32_be_app by done. by rewrite app_nil_r, <- app_assoc.
Qed.

Lemma write_u32_fresh d k i v : i = zlen d -> (4 <= k)%nat ->
  write_u32_be (d ++ replicate k 255) i v = Some ((d ++ be_bytes 4 v) ++ replicate (k - 4) 255).
Proof.
  intros -> Hk. replace (replicate k 255) with (replicate 4 255 ++ replicate (k - 4) 255)
    by (rewrite <- replicate_add; f_equal; lia).
  rewrite write_u32_be_app by done. by rewrite <- app_assoc.
Qed.
End fresh.

Lemma data_head_length g t p : length (data_head g t p) = 20%nat.
Proof. unfold data_head. by rewrite !length_app, !be_bytes_length. Qed.

Lemma data_octets_length g t p : (length p <= 448)%nat -> length (data_octets g t p) = 512%nat.
Proof. intros. unfold data_octets. rewrite !length_app, data_head_length, be_bytes_length, length_replicate. lia. Qed.

Lemma data_head_ok g t p : bytes_ok (data_head g t p).
Proof. unfold data_head, cred_record_magic. octets. destruct t; unfold is_byte; lia. Qed.

Lemma ones_ok n : bytes_ok (replicate n 255).
Proof. apply Forall_replicate. unfold is_byte. lia. Qed.

Lemma data_octets_ok g t p : bytes_ok p -> bytes_ok (data_octets g t p).
Proof. intros. unfold data_octets. pose proof (data_head_ok g t p). pose proof (ones_ok (488 - length p)). octets. Qed.

Lemma commit_body_length g : length (commit_body g) = 252%nat.
Proof. unfold commit_body. by rewrite !length_app, be_bytes_length, length_replicate. Qed.

Lemma commit_body_ok g : bytes_ok (commit_body g).
Proof. unfold commit_body, commit_magic. pose proof (ones_ok 240). octets. Qed.

Lemma commit_octets_length g : length (commit_octets g) = 256%nat.
Proof. unfold commit_octets. by rewrite length_app, commit_body_length, be_bytes_length. Qed.

Lemma commit_octets_ok g : bytes_ok (commit_octets g).
Proof. unfold commit_octets. pose proof (commit_body_ok g). octets. Qed.

Lemma build_data_record_octets g t p :
  (length p <= 448)%nat -> build_data_record g t p = Some (data_octets g t p).
Proof.
  intros Hp. unfold build_data_record, RECORD_FORMAT_VERSION, RECORD_FLAG_TOMBSTONE, RECORD_PAYLOAD_OFFSET.
  change (Z.to_nat SLOT_DATA_SIZE) with 512%nat. rewrite <- (app_nil_l (replicate 512 255)).
  rewrite wr_list_fresh by (cbn; lia). cbn [mbind option_bind].
  do 4 (rewrite wr_fresh by (rewrite ?length_app; cbn; lia); cbn [mbind option_bind]).
  rewrite write_u64_fresh by (rewrite ?length_app; cbn; lia). cbn [mbind option_bind].
  rewrite write_u32_fresh by (rewrite ?length_app, ?be_bytes_length; cbn; lia). cbn [mbind option_bind].
  rewrite u32_small by (unfold UINT32_MAX; lia).
  match goal with |- context [wr_list (?d ++ _)] => assert (E : d = data_head g t p) end.
  { unfold data_head. by rewrite <- !app_assoc. }
  rewrite E. clear E. rewrite wr_list_fresh by (rewrite ?data_head_length; cbn; lia). cbn [mbind option_bind].
  rewrite rd_slice_prefix by (rewrite length_app, data_head_length; lia). cbn [mbind option_bind].
  match goal with |- context [replicate ?k 255] => replace k with ((488 - length p) + 4)%nat by (cbn; lia) end.
  apply write_u32_last. rewrite length_app, data_head_length. change RECORD_CRC_OFFSET with 508. lia.
Qed.

Lemma build_commit_record_octets g : build_commit_record g = Some (commit_octets g).
Proof.
  unfold build_commit_record. change (Z.to_nat COMMIT_SIZE) with 256%nat. rewrite <- (app_nil_l (replicate 256 255)).
  rewrite wr_list_fresh by (cbn; lia). cbn [mbind option_bind].
  rewrite write_u64_fresh by (rewrite ?length_app; cbn; lia). cbn [mbind option_bind].
  replace ((([] ++ commit_magic) ++ be_bytes 8 g) ++ replicate (256 - length commit_magic - 8) 255)
    with (commit_body g ++ replicate (0 + 4) 255).
  2: { unfold commit_body. change (256 - length commit_magic - 8)%nat with (240 + 4)%nat. rewrite (replicate_add 240 4).
       by rewrite <- !app_assoc. }
  rewrite rd_slice_prefix by (by rewrite commit_body_length). cbn [mbind option_bind].
  rewrite write_u32_last by (by rewrite commit_body_length). done.
Qed.

Section records.
Context `{QCBOR}.

(** What a well-formed data record is taken for. *)
Definition data_outcome (g : Z) (t : bool) (p : bytes) (info : slot_info) : bool * slot_info :=
  if t then (true, mk_slot_info (si_valid info) true g (si_credentials info))
  else
  let '(status, credentials) := credentials_decode_cbor (mk_view 1 p) in
  if negb (is_ok status) then (false, mk_slot_info (si_valid info) false g zero_credentials)
  else (true, mk_slot_info (si_valid info) false g credentials).

Lemma data_record_octets (g : Z) (t : bool) (p : bytes) (info : slot_info) :
  0 < g <= UINT64_MAX -> (length p <= 448)%nat -> bytes_ok p -> (if t then p = [] else p <> []) ->
  data_record_is_valid (data_octets g t p) info = Some (data_outcome g t p info).
Proof.
  intros Hg Hl Hok Ht. unfold data_record_is_valid, RECORD_FORMAT_VERSION, RECORD_FLAG_TOMBSTONE, PBNS_CREDENTIALS_CBOR_MAX, RECORD_PAYLOAD_OFFSET.
  pose proof (data_octets_length g t p Hl) as Hlen. pose proof (data_octets_ok g t p Hok) as Hb.
  pose proof (crc32c_bytes_u32 (data_head g t p ++ p) ltac:(apply bytes_ok_app; split; [apply data_head_ok|done])) as Hc.
  set (crc := crc32c_bytes (data_head g t p ++ p)) in *. set (tail := replicate (488 - length p) 255 ++ be_bytes 4 crc).
  assert (E : data_octets g t p = cred_record_magic ++ [1; if t then 1 else 0; 0; 0] ++ be_bytes 8 g ++ be_bytes 4 (zlen p) ++ p ++ tail).
  { unfold data_octets, data_head. by rewrite <- !app_assoc. }
  rewrite !rd_slice_inside by lia. cbn [mbind option_bind].
  rewrite (rd_eq _ cred_record_magic 1 ([if t then 1 else 0; 0; 0] ++ be_bytes 8 g ++ be_bytes 4 (zlen p) ++ p ++ tail) 4 E eq_refl).
  rewrite (rd_eq _ (cred_record_magic ++ [1]) (if t then 1 else 0) ([0; 0] ++ be_bytes 8 g ++ be_bytes 4 (zlen p) ++ p ++ tail) 5 E eq_refl).
  rewrite (rd_eq _ (cred_record_magic ++ [1; if t then 1 else 0]) 0 ([0] ++ be_bytes 8 g ++ be_bytes 4 (zlen p) ++ p ++ tail) 6 E eq_refl).
  rewrite (rd_eq _ (cred_record_magic ++ [1; if t then 1 else 0; 0]) 0 (be_bytes 8 g ++ be_bytes 4 (zlen p) ++ p ++ tail) 7 E eq_refl).
  rewrite (slice_eq _ [] cred_record_magic _ 0 4 E) by done. cbn [mbind option_bind]. rewrite bytes_eqb_refl.
  replace (negb ((if t then 1 else 0) =? 0) && negb ((if t then 1 else 0) =? 1)) with false by (by destruct t).
  cbn [negb orb Z.eqb Pos.eqb]. rewrite read_u64_be_value by (done || lia). rewrite !read_u32_be_value by (done || (change RECORD_CRC_OFFSET with 508; lia)).
  cbn [mbind option_bind].
  rewrite (slice_eq _ (cred_record_magic ++ [1; if t then 1 else 0; 0; 0]) (be_bytes 8 g) (be_bytes 4 (zlen p) ++ p ++ tail) 8 8 E)
    by (done || by rewrite be_bytes_length).
  rewrite (slice_eq _ (cred_record_magic ++ [1; if t then 1 else 0; 0; 0] ++ be_bytes 8 g) (be_bytes 4 (zlen p)) (p ++ tail))
    by (first [by rewrite E, <- !app_assoc | by rewrite !length_app, !be_bytes_length | by rewrite be_bytes_length]).
  rewrite be_value_bytes_u64, be_value_bytes_u32 by (unfold UINT32_MAX; lia).
  rewrite (proj2 (Z.eqb_neq g 0)), (proj2 (Z.ltb_ge 448 (zlen p))) by lia.
  assert (Et : ((if t then 1 else 0) =? 1) = t) by (by destruct t). rewrite Et.
  assert (Ep : (t && negb (zlen p =? 0)) || (negb t && (zlen p =? 0)) = false).
  { clear - Ht. destruct t; [by rewrite Ht|]. by destruct p. }
  cbn [orb]. rewrite Ep.
  rewrite (slice_eq _ ((data_head g t p ++ p) ++ replicate (488 - length p) 255) (be_bytes 4 crc) [])
    by (first [by rewrite app_nil_r; unfold data_octets; rewrite <- !app_assoc
              | rewrite !length_app, data_head_length, length_replicate; change RECORD_CRC_OFFSET with 508; lia | by rewrite be_bytes_length]).
  rewrite be_value_bytes_u32 by (unfold is_u32, UINT32_MAX in *; lia).
  assert (Ec : rd_slice (data_octets g t p) 0 (20 + zlen p) = Some (data_head g t p ++ p))
    by (apply rd_slice_prefix; rewrite length_app, data_head_length; lia).
  rewrite Ec. cbn [mbind option_bind]. fold crc.
  rewrite Z.eqb_refl. cbn [negb]. unfold data_outcome. destruct t; [done|].
  rewrite rd_slice_inside by lia. cbn [mbind option_bind].
  rewrite (slice_eq _ (data_head g false p) p tail) by (first [by unfold data_octets; rewrite <- !app_assoc | by rewrite data_head_length | done]).
  destruct (credentials_decode_cbor _) as [st c]. by destruct (is_ok st).
Qed.

(** The checks read only inside the record, whatever it holds. *)
Lemma data_record_total data info :
  length data = 512%nat -> bytes_ok data ->
  exists b info', data_record_is_valid data info = Some (b, info')
  /\ (b = true -> 0 < si_generation info' <= UINT64_MAX).
Proof.
  intros Hl Hok. unfold data_record_is_valid, RECORD_PAYLOAD_OFFSET. rewrite !rd_slice_inside by lia.
  destruct (rd_some data 4 ltac:(lia)) as [b4 ->], (rd_some data 5 ltac:(lia)) as [b5 ->],
    (rd_some data 6 ltac:(lia)) as [b6 ->], (rd_some data 7 ltac:(lia)) as [b7 ->]. cbn [mbind option_bind].
  destruct (_ || negb (b7 =? 0)); [by eexists _, _|].
  rewrite read_u64_be_value by (done || lia). rewrite !read_u32_be_value by (done || (change RECORD_CRC_OFFSET with 508; lia)).
  cbn [mbind option_bind].
  pose proof (be_value_bound (slice data 8 8) ltac:(auto with pbns)) as Bg. rewrite slice_length in Bg by lia.
  change (256 ^ 8) with (UINT64_MAX + 1) in Bg.
  pose proof (be_value_bound (slice data 16 4) ltac:(auto with pbns)) as Bp.
  set (g := be_value (slice data 8 8)) in *. set (n := be_value (slice data 16 4)) in *.
  destruct (_ || (negb _ && _)) eqn:E; [by eexists _, _|].
  assert (Hg : 0 < g <= UINT64_MAX /\ n <= 448).
  { apply orb_false_iff in E as [E _]. apply orb_false_iff in E as [E _]. unfold PBNS_CREDENTIALS_CBOR_MAX in E. bools. lia. }
  rewrite !rd_slice_inside by lia. cbn [mbind option_bind].
  destruct (negb (_ =? crc32c_bytes _)); [by eexists _, _|]. destruct (b5 =? _); [|destruct (credentials_decode_cbor _) as [st c]; destruct (is_ok st); cbn [negb]];
    (eexists _, _; split; [reflexivity|]; intros _; cbn; lia).
Qed.

End records.

Lemma commit_record_total commit g :
  length commit = 256%nat -> bytes_ok commit -> exists b, commit_record_is_valid commit g = Some b.
Proof.
  intros Hl Hok. unfold commit_record_is_valid. change COMMIT_CRC_OFFSET with 252. rewrite !rd_slice_inside by lia. cbn [mbind option_bind].
  destruct (negb _); [by eexists|]. rewrite read_u64_be_value by (done || lia). cbn [mbind option_bind].
  destruct (negb _); [by eexists|]. rewrite read_u32_be_value by (done || lia). cbn [mbind option_bind]. by eexists.
Qed.

Lemma commit_record_octets g : 0 <= g <= UINT64_MAX -> commit_record_is_valid (commit_octets g) g = Some true.
Proof.
  intros Hg. unfold commit_record_is_valid. change COMMIT_CRC_OFFSET with 252.
  pose proof (commit_octets_length g) as Hl. pose proof (commit_octets_ok g) as Hok. pose proof (commit_body_length g) as Hb.
  pose proof (crc32c_bytes_u32 (commit_body g) (commit_body_ok g)) as Hc. set (crc := crc32c_bytes (commit_body g)) in *.
  rewrite !rd_slice_inside by lia. cbn [mbind option_bind].
  assert (E : commit_octets g = commit_magic ++ be_bytes 8 g ++ replicate 240 255 ++ be_bytes 4 crc).
  { unfold commit_octets, commit_body. by rewrite <- !app_assoc. }
  rewrite (slice_eq _ [] commit_magic _ 0 4 E) by done. rewrite bytes_eqb_refl. cbn [negb].
  rewrite read_u64_be_value by (done || lia). cbn [mbind option_bind].
  rewrite (slice_eq _ commit_magic (be_bytes 8 g) _ 4 8 E) by (done || by rewrite be_bytes_length).
  rewrite be_value_bytes_u64, Z.eqb_refl by lia. cbn [negb].
  rewrite read_u32_be_value by (done || lia). cbn [mbind option_bind].
  rewrite (slice_eq _ (commit_body g) (be_bytes 4 crc) []) by (first [by rewrite app_nil_r | by rewrite Hb | by rewrite be_bytes_length]).
  rewrite (slice_eq _ [] (commit_body g) (be_bytes 4 crc)) by (first [done | by rewrite Hb]).
  rewrite be_value_bytes_u32 by (unfold is_u32, UINT32_MAX in *; lia). fold crc. by rewrite Z.eqb_refl.
Qed.

Lemma commit_record_erased g : commit_record_is_valid (replicate 256 255) g = Some false.
Proof. reflexivity. Qed.

(** ** The flash *)

(** The octets of memory from an offset. *)
Definition range (mem : Z -> Z) (offset : Z) (n : nat) : bytes := (fun i => mem (offset + i)) <$> seqZ 0 (Z.of_nat n).

Lemma range_length mem off n : length (range mem off n) = n.
Proof. unfold range. rewrite length_fmap, length_seqZ. lia. Qed.

Lemma range_lookup mem off n i : (i < n)%nat -> range mem off n !! i = Some (mem (off + Z.of_nat i)).
Proof. intros Hi. unfold range. rewrite list_lookup_fmap, lookup_seqZ_lt by lia. cbn. by rewrite Z.add_0_l. Qed.

Lemma range_ext mem mem' off n :
  (forall a, off <= a < off + Z.of_nat n -> mem a = mem' a) -> range mem off n = range mem' off n.
Proof.
  intros Hm. apply list_eq_same_length with n; [by rewrite range_length..|]. intros i x y Hi.
  rewrite !range_lookup by done. intros [= <-] [= <-]. apply Hm. lia.
Qed.

Lemma range_const mem off n v : (forall a, off <= a < off + Z.of_nat n -> mem a = v) -> range mem off n = replicate n v.
Proof.
  intros Hm. apply list_eq_same_length with n; [by rewrite ?range_length, ?length_replicate..|]. intros i x y Hi.
  rewrite range_lookup, lookup_replicate_2 by done. intros [= <-] [= <-]. apply Hm. lia.
Qed.

Section slots.
Context `{QCBOR}.

(** The generation and the contents of a slot, if it holds a committed record:
    credentials, or [None] for a tombstone. *)
Definition slot_record (data commit : bytes) : option (Z * option pbns_credentials) :=
  match data_record_is_valid data zero_slot_info with
  | Some (true, info) =>
      match commit_record_is_valid commit (si_generation info) with
      | Some true => Some (si_generation info, if si_tombstone info then None else Some (si_credentials info))
      | _ => None
      end
  | _ => None
  end.

Definition record_in (mem : Z -> Z) (offset : Z) : option (Z * option pbns_credentials) :=
  slot_record (range mem offset 512) (range mem (offset + 512) 256).

Lemma record_in_ext mem mem' off :
  (forall a, off <= a < off + 4096 -> mem' a = mem a) -> record_in mem' off = record_in mem off.
Proof. intros Hm. unfold record_in. by rewrite !(range_ext mem' mem) by (intros; apply Hm; lia). Qed.

End slots.

Record flash (W : Type) := mk_flash {
  fl_read : W -> Z -> bytes -> pbns_status * bytes * W;
  fl_erase : W -> Z -> Z -> pbns_status * W;
  fl_program : W -> Z -> bytes -> pbns_status * W;
}.
Arguments mk_flash {W}.
Arguments fl_read {W}.
Arguments fl_erase {W}.
Arguments fl_program {W}.

(** What the flash promises, for whole sectors and aligned pages.  Nothing is
    said of a page whose programming failed.  A sector whose erasure failed holds
    its old record or none: the checksums detect damage. *)
Class FlashLaws `{QCBOR} {W} (fl : flash W) := {
  fl_mem : W -> Z -> Z;
  fl_mem_byte w a : is_byte (fl_mem w a);
  fl_read_law w off buf st data w' : fl_read fl w off buf = (st, data, w') ->
    (forall a, fl_mem w' a = fl_mem w a) /\ (st = PBNS_OK -> data = range (fl_mem w) off (length buf));
  fl_erase_law w off st w' : off mod 4096 = 0 -> fl_erase fl w off 4096 = (st, w') ->
    (forall a, ~ off <= a < off + 4096 -> fl_mem w' a = fl_mem w a)
    /\ (st = PBNS_OK -> forall a, off <= a < off + 4096 -> fl_mem w' a = 255)
    /\ (st <> PBNS_OK -> record_in (fl_mem w') off = record_in (fl_mem w) off \/ record_in (fl_mem w') off = None);
  fl_program_law w off src st w' : off mod 256 = 0 -> zlen src mod 256 = 0 -> bytes_ok src ->
    fl_program fl w off src = (st, w') ->
    (forall a, ~ off <= a < off + zlen src -> fl_mem w' a = fl_mem w a)
    /\ (st = PBNS_OK -> (forall a, off <= a < off + zlen src -> fl_mem w a = 255) ->
        range (fl_mem w') off (length src) = src);
}.

Definition flash_storage {W} (fl : flash W) (first second : Z) : pbns_credentials_storage W :=
  mk_storage (Some (mk_storage_ops (Some (fl_read fl)) (Some (fl_erase fl)) (Some (fl_program fl)))) first second.

#[local] Opaque range data_octets commit_octets data_record_is_valid commit_record_is_valid.

(** Two sectors of the address space that do not overlap. *)
Definition layout_ok `{Machine} (first second : Z) : Prop :=
  0 <= first /\ 0 <= second /\ first mod 4096 = 0 /\ second mod 4096 = 0
  /\ first <= SIZE_MAX - 4096 /\ second <= SIZE_MAX - 4096 /\ (first + 4096 <= second \/ second + 4096 <= first).

Lemma storage_valid `{Machine} {W} (fl : flash W) first second :
  0 <= first -> 0 <= second ->
  storage_is_valid (Some (flash_storage fl first second)) = true <-> layout_ok first second.
Proof.
  intros H1 H2. unfold storage_is_valid, flash_storage, layout_ok, PBNS_CREDENTIALS_SECTOR_SIZE.
  destruct (_ || _) eqn:E.
  - split; [done|]. intros Hl. lia.
  - bools. rewrite !size_add_small by lia. destruct (_ && _) eqn:Eo; [split; [done|]|split; [|done]]; intros; bools; lia.
Qed.

(** ** Two slots *)

Section pair.
Context {A : Type}.
Implicit Types (r : option (Z * A)).

Definition differ_of r0 r1 : Prop :=
  match r0, r1 with Some (g0, _), Some (g1, _) => g0 <> g1 | _, _ => True end.

Definition newest_of r0 r1 : option (Z * Z * A) :=
  match r0, r1 with
  | None, None => None
  | Some (g, c), None => Some (0, g, c)
  | None, Some (g, c) => Some (1, g, c)
  | Some (g0, c0), Some (g1, c1) => if g1 <? g0 then Some (0, g0, c0) else Some (1, g1, c1)
  end.

(** Losing the older record changes nothing. *)
Lemma newest_kept0 r0 r1 :
  (newest_of r0 r1 = None \/ exists g c, newest_of r0 r1 = Some (1, g, c)) -> newest_of None r1 = newest_of r0 r1.
Proof. destruct r0 as [[g0 c0]|], r1 as [[g1 c1]|]; cbn; try done; [destruct (g1 <? g0)|]; naive_solver. Qed.

Lemma newest_kept1 r0 r1 :
  (newest_of r0 r1 = None \/ exists g c, newest_of r0 r1 = Some (0, g, c)) -> newest_of r0 None = newest_of r0 r1.
Proof. destruct r0 as [[g0 c0]|], r1 as [[g1 c1]|]; cbn; try done; [destruct (g1 <? g0)|]; naive_solver. Qed.

Lemma newest_replaced0 r0 r1 g c :
  (newest_of r0 r1 = None \/ exists g1 c1, newest_of r0 r1 = Some (1, g1, c1) /\ g1 < g) ->
  differ_of (Some (g, c)) r1 /\ newest_of (Some (g, c)) r1 = Some (0, g, c).
Proof.
  intros Hn. destruct r1 as [[g1 c1]|]; [|done]. assert (g1 < g).
  { destruct r0 as [[g0 c0]|]; cbn in Hn; [destruct (g1 <? g0)|]; naive_solver. }
  cbn. rewrite (proj2 (Z.ltb_lt g1 g)) by done. split; [lia|done].
Qed.

Lemma newest_replaced1 r0 r1 g c :
  (newest_of r0 r1 = None \/ exists g0 c0, newest_of r0 r1 = Some (0, g0, c0) /\ g0 < g) ->
  differ_of r0 (Some (g, c)) /\ newest_of r0 (Some (g, c)) = Some (1, g, c).
Proof.
  intros Hn. destruct r0 as [[g0 c0]|]; [|done]. assert (g0 < g).
  { destruct r1 as [[g1 c1]|]; cbn in Hn; [destruct (g1 <? g0)|]; naive_solver. }
  cbn. rewrite (proj2 (Z.ltb_ge g g0)) by lia. split; [lia|done].
Qed.
End pair.

Section store.
Context `{M : Machine} `{Q : QCBOR} {W : Type} (fl : flash W) `{!FlashLaws fl}.
Context (first second : Z) (Hlayout : layout_ok first second).
Implicit Types (w : W).

#[local] Notation storage := (flash_storage fl first second).

Definition offset_of (slot : Z) : Z := if slot =? 0 then first else second.

(** The record of a slot. *)
Definition record_at w (slot : Z) : option (Z * option pbns_credentials) := record_in (fl_mem w) (offset_of slot).

Definition generations_differ w : Prop := differ_of (record_at w 0) (record_at w 1).

(** The newest record: its slot, generation and contents. *)
Definition newest w : option (Z * Z * option pbns_credentials) := newest_of (record_at w 0) (record_at w 1).

(** The credentials that the store holds. *)
Definition stored w : option (bytes * bytes * bytes * Z * bytes) :=
  match newest w with Some (_, _, Some c) => Some (credential_value c) | _ => None end.

Definition same_memory w w' : Prop := forall a, fl_mem w' a = fl_mem w a.

Lemma same_record w w' s : same_memory w w' -> record_at w' s = record_at w s.
Proof. intros Hs. apply record_in_ext. intros. apply Hs. Qed.

Lemma same_newest w w' : same_memory w w' -> newest w' = newest w.
Proof. intros Hs. unfold newest. by rewrite !(same_record w w'). Qed.

Lemma same_stored w w' : same_memory w w' -> stored w' = stored w.
Proof. intros Hs. unfold stored. by rewrite (same_newest w w'). Qed.

Lemma same_differ w w' : same_memory w w' -> generations_differ w -> generations_differ w'.
Proof. intros Hs. unfold generations_differ. by rewrite !(same_record w w'). Qed.

Lemma mem_range_ok w off n : bytes_ok (range (fl_mem w) off n).
Proof.
  apply Forall_lookup. intros i x Hx. assert (Hi : (i < n)%nat).
  { rewrite <- (range_length (fl_mem w) off n). by eapply lookup_lt_Some. }
  rewrite range_lookup in Hx by done. injection Hx as <-. apply fl_mem_byte.
Qed.

Lemma record_at_range w s g c : record_at w s = Some (g, c) -> 0 < g <= UINT64_MAX.
Proof.
  unfold record_at, record_in, slot_record.
  destruct (data_record_total (range (fl_mem w) (offset_of s) 512) zero_slot_info) as (b & info & -> & Hg);
    [apply range_length|apply mem_range_ok|]. destruct b; [|done].
  destruct (commit_record_is_valid _ _) as [[]|]; try done. intros [= <- _]. auto.
Qed.

Lemma slot_offset_of s : s = 0 \/ s = 1 -> slot_offset storage s = Some (offset_of s).
Proof. by intros [->| ->]. Qed.

Lemma offset_bounds s : 0 <= offset_of s <= SIZE_MAX - 4096 /\ offset_of s mod 4096 = 0.
Proof. unfold offset_of. destruct Hlayout as (? & ? & ? & ? & ? & ? & _). destruct (s =? 0); lia. Qed.

Lemma commit_offset s : size_add (offset_of s) SLOT_COMMIT_OFFSET = offset_of s + 512.
Proof. pose proof (offset_bounds s). apply size_add_small. change SLOT_COMMIT_OFFSET with 512. lia. Qed.

(** What [read_slot] reports of a slot. *)
Definition info_record (info : slot_info) : option (Z * option pbns_credentials) :=
  if si_valid info then Some (si_generation info, if si_tombstone info then None else Some (si_credentials info))
  else None.

Lemma read_slot_spec s data commit w :
  s = 0 \/ s = 1 -> length data = 512%nat -> length commit = 256%nat ->
  exists st info w', read_slot storage s data commit w = Some (st, info, w') /\ same_memory w w'
  /\ (st = PBNS_OK -> info_record info = record_at w s).
Proof.
  intros Hs Hd Hc. unfold read_slot, flash_storage. cbn [st_ops mbind option_bind ops_read].
  fold storage. rewrite slot_offset_of by done. cbn [mbind option_bind].
  destruct (fl_read fl w (offset_of s) data) as [[st1 data'] w1] eqn:E1. apply fl_read_law in E1 as [Hm1 Hr1].
  destruct (is_ok st1) eqn:Ek1; cbn [negb]; [|by eexists _, _, _; split; [done|]; split; [done|]; intros ->].
  apply is_ok_spec in Ek1. specialize (Hr1 Ek1). rewrite commit_offset.
  destruct (fl_read fl w1 (offset_of s + 512) commit) as [[st2 commit'] w2] eqn:E2. apply fl_read_law in E2 as [Hm2 Hr2].
  assert (Hm : same_memory w w2) by (intros a; by rewrite Hm2, Hm1).
  destruct (is_ok st2) eqn:Ek2; cbn [negb]; [|by eexists _, _, _; split; [done|]; split; [done|]; intros ->].
  apply is_ok_spec in Ek2. specialize (Hr2 Ek2). rewrite Hd in Hr1. rewrite Hc in Hr2.
  rewrite (range_ext (fl_mem w1) (fl_mem w)) in Hr2 by (intros; apply Hm1). subst data' commit'.
  unfold record_at, record_in, slot_record.
  destruct (data_record_total (range (fl_mem w) (offset_of s) 512) zero_slot_info) as (b & info & E & _);
    [apply range_length|apply mem_range_ok|]. rewrite E. cbn [mbind option_bind].
  destruct b; cbn [negb]; [|by eexists _, _, _].
  destruct (commit_record_total (range (fl_mem w) (offset_of s + 512) 256) (si_generation info)) as [b Ec];
    [apply range_length|apply mem_range_ok|]. rewrite Ec. cbn [mbind option_bind].
  destruct b; by eexists _, _, _.
Qed.

Lemma read_slots_spec w :
  exists r w', read_slots storage w = Some (r, w') /\ same_memory w w'
  /\ match r with
     | inl st => st <> PBNS_OK
     | inr (s0, s1) => info_record s0 = record_at w 0 /\ info_record s1 = record_at w 1
     end.
Proof.
  unfold read_slots.
  destruct (read_slot_spec 0 zero_data zero_commit w) as (st0 & i0 & w0 & -> & H0 & R0); [auto|done..|]. cbn [mbind option_bind].
  destruct (is_ok st0) eqn:E0; cbn [negb]; [apply is_ok_spec in E0|apply is_ok_false in E0; by eexists _, _].
  destruct (read_slot_spec 1 zero_data zero_commit w0) as (st1 & i1 & w1 & -> & H1 & R1); [auto|done..|]. cbn [mbind option_bind].
  assert (Hs : same_memory w w1) by (intros a; by rewrite H1, H0).
  destruct (is_ok st1) eqn:E1; cbn [negb]; [apply is_ok_spec in E1|apply is_ok_false in E1; by eexists _, _].
  eexists _, _. split; [done|]. split; [done|]. rewrite R0, R1 by done. by rewrite (same_record w w0).
Qed.

(** [latest_slot] picks the newest record. *)
Lemma latest_slot_newest s0 s1 w :
  info_record s0 = record_at w 0 -> info_record s1 = record_at w 1 ->
  match newest w with
  | None => latest_slot s0 s1 = -1
  | Some (s, g, c) =>
      latest_slot s0 s1 = -2 /\ ~ generations_differ w
      \/ latest_slot s0 s1 = s /\ (s = 0 \/ s = 1) /\ record_at w s = Some (g, c)
         /\ info_record (if s =? 0 then s0 else s1) = Some (g, c)
  end.
Proof.
  intros H0 H1. unfold newest, latest_slot, generations_differ, newest_of, differ_of. rewrite <- H0, <- H1. unfold info_record.
  destruct (si_valid s0) eqn:V0, (si_valid s1) eqn:V1; cbn [negb andb]; try done.
  - set (c0 := if si_tombstone s0 then None else Some (si_credentials s0)).
    set (c1 := if si_tombstone s1 then None else Some (si_credentials s1)).
    destruct (Z.eqb_spec (si_generation s0) (si_generation s1)) as [Eg|Ng].
    + rewrite Eg, Z.ltb_irrefl. cbn. left. split; [done|]. auto.
    + destruct (Z.ltb_spec (si_generation s1) (si_generation s0)); right; rewrite <- ?H0, <- ?H1; unfold info_record;
        cbn; rewrite ?V0, ?V1; auto.
  - right. rewrite <- H0. unfold info_record. cbn. rewrite V0. auto.
  - right. rewrite <- H1. unfold info_record. cbn. rewrite V1. auto.
Qed.

(** *** One transaction *)

(** The other slot is out of reach of what is written to the target. *)
Lemma other_record w w' s s' :
  s = 0 \/ s = 1 -> s' = 0 \/ s' = 1 -> s <> s' ->
  (forall a, ~ offset_of s <= a < offset_of s + 4096 -> fl_mem w' a = fl_mem w a) -> record_at w' s' = record_at w s'.
Proof.
  intros Hs Hs' Hne Hm. apply record_in_ext. intros a Ha. apply Hm. unfold offset_of in *.
  destruct Hlayout as (_ & _ & _ & _ & _ & _ & Ho). destruct Hs as [->| ->], Hs' as [->| ->]; cbn in *; lia || done.
Qed.

(** A slot with an erased commit page holds no record. *)
Lemma record_erased w s :
  (forall a, offset_of s + 512 <= a < offset_of s + 768 -> fl_mem w a = 255) -> record_at w s = None.
Proof.
  intros Hm. unfold record_at, record_in, slot_record. rewrite (range_const _ _ 256 255) by (intros; apply Hm; lia).
  destruct (data_record_is_valid _ _) as [[[] info]|]; [|done..]. by rewrite commit_record_erased.
Qed.

(** A slot whose data pages hold a verified record: the commit page decides. *)
Lemma record_decided w s g t p info :
  range (fl_mem w) (offset_of s) 512 = data_octets g t p ->
  data_record_is_valid (data_octets g t p) zero_slot_info = Some (true, info) -> si_generation info = g ->
  si_tombstone info = t ->
  record_at w s = None \/ record_at w s = Some (g, if t then None else Some (si_credentials info)).
Proof.
  intros Hr Hv Hg Ht. unfold record_at, record_in, slot_record. rewrite Hr, Hv, Hg, Ht.
  destruct (commit_record_is_valid _ _) as [[]|]; auto.
Qed.

#[local] Opaque record_in.

(** The contents that a payload stands for. *)
Definition payload_contents (t : bool) (p : bytes) : option pbns_credentials :=
  if t then None else Some (snd (credentials_decode_cbor (mk_view 1 p))).

Definition payload_accepted (t : bool) (p : bytes) : Prop :=
  t = true \/ fst (credentials_decode_cbor (mk_view 1 p)) = PBNS_OK.

Lemma data_outcome_true g t p info :
  data_outcome g t p zero_slot_info = (true, info) ->
  si_generation info = g /\ si_tombstone info = t /\ payload_accepted t p
  /\ (if t then None else Some (si_credentials info)) = payload_contents t p.
Proof.
  unfold data_outcome, payload_accepted, payload_contents. destruct t; [intros [= <-]; cbn; auto|].
  destruct (credentials_decode_cbor _) as [st c]. destruct (is_ok st) eqn:E; cbn [negb]; [|done].
  apply is_ok_spec in E. intros [= <-]. cbn. auto.
Qed.

(** What a transaction may do to the target slot. *)
Definition slot_written w w' s (g : Z) (t : bool) (p : bytes) (st : pbns_status) : Prop :=
  (forall a, ~ offset_of s <= a < offset_of s + 4096 -> fl_mem w' a = fl_mem w a)
  /\ (record_at w' s = record_at w s \/ record_at w' s = None
      \/ payload_accepted t p /\ record_at w' s = Some (g, payload_contents t p))
  /\ (st = PBNS_OK -> payload_accepted t p /\ record_at w' s = Some (g, payload_contents t p)).

Lemma verified_matches_total verified g c (t : bool) :
  (t = false -> exists x, c = Some x) -> exists b, verified_matches verified g c t = Some b.
Proof.
  intros Hc. unfold verified_matches. destruct (_ || _); [by eexists|]. destruct t; [by eexists|].
  destruct (Hc eq_refl) as [x ->]. by eexists.
Qed.

(** Verified data pages, whatever became of the commit page and of the last check. *)
Lemma write_slot_commit w s g c (t : bool) p info data commit st w1 w2 :
  s = 0 \/ s = 1 -> (t = false -> exists x, c = Some x) -> length data = 512%nat -> length commit = 256%nat ->
  (forall a, ~ offset_of s <= a < offset_of s + 4096 -> fl_mem w1 a = fl_mem w a) ->
  range (fl_mem w1) (offset_of s) 512 = data_octets g t p ->
  data_record_is_valid (data_octets g t p) zero_slot_info = Some (true, info) ->
  data_outcome g t p zero_slot_info = (true, info) ->
  (forall a, ~ offset_of s + 512 <= a < offset_of s + 768 -> fl_mem w2 a = fl_mem w1 a) ->
  exists st' w3, (if negb (is_ok st) then Some (st, w2)
   else
   '(status, verified, w) ← read_slot storage s data commit w2;
   if negb (is_ok status) then Some (status, w)
   else
   matches ← verified_matches verified g c t;
   Some (if matches : bool then PBNS_OK else PBNS_ERR_IO, w)) = Some (st', w3)
  /\ slot_written w w3 s g t p st'.
Proof.
  intros Hs Hc Hd Hk Hout1 Hr Hv Ho Hout2.
  apply data_outcome_true in Ho as (Hg & Ht & Ha & Hcont).
  assert (Hr2 : range (fl_mem w2) (offset_of s) 512 = data_octets g t p)
    by (rewrite <- Hr; apply range_ext; intros; apply Hout2; lia).
  assert (Hdec : record_at w2 s = None \/ record_at w2 s = Some (g, payload_contents t p))
    by (rewrite <- Hcont; by eapply record_decided).
  assert (Hout : forall a, ~ offset_of s <= a < offset_of s + 4096 -> fl_mem w2 a = fl_mem w a)
    by (intros a Ha'; rewrite Hout2, Hout1; [done|lia..]).
  destruct (is_ok st) eqn:Eok; cbn [negb].
  2: { eexists _, _. split; [done|]. split; [done|]. split; [destruct Hdec; auto|]. intros ->. done. }
  destruct (read_slot_spec s data commit w2) as (st2 & verified & w2' & -> & Hsame & Hrec); [done..|]. cbn [mbind option_bind].
  assert (Hout' : forall a, ~ offset_of s <= a < offset_of s + 4096 -> fl_mem w2' a = fl_mem w a)
    by (intros a Ha'; rewrite Hsame; auto).
  rewrite <- (same_record w2 w2') in Hdec by done.
  destruct (is_ok st2) eqn:Eok2; cbn [negb].
  2: { eexists _, _. split; [done|]. split; [done|]. split; [destruct Hdec; auto|]. intros ->. done. }
  apply is_ok_spec in Eok2. specialize (Hrec Eok2). rewrite <- (same_record w2 w2') in Hrec by done.
  destruct (verified_matches_total verified g c t Hc) as [m Em]. rewrite Em. cbn [mbind option_bind].
  eexists _, _. split; [done|]. split; [done|]. split; [destruct Hdec; auto|]. destruct m; [|done]. intros _. split; [done|].
  destruct Hdec as [Hn|]; [|done]. rewrite Hn in Hrec. unfold info_record in Hrec. unfold verified_matches in Em.
  by destruct (si_valid verified).
Qed.

Lemma write_slot_spec w s g c (t : bool) p :
  s = 0 \/ s = 1 -> (t = false -> exists x, c = Some x) -> 0 < g <= UINT64_MAX -> (length p <= 448)%nat ->
  bytes_ok p -> (if t then p = [] else p <> []) ->
  exists st w', write_slot storage s g c t p w = Some (st, w') /\ slot_written w w' s g t p st.
Proof.
  intros Hs Hc Hg Hl Hok Ht. unfold write_slot. cbn [flash_storage st_ops mbind option_bind ops_read ops_erase ops_program].
  fold storage. rewrite slot_offset_of, build_data_record_octets, build_commit_record_octets by done. cbn [mbind option_bind].
  pose proof (offset_bounds s) as [Hb Ha]. pose proof (data_octets_length g t p Hl) as Hdl. pose proof (commit_octets_length g) as Hcl.
  change PBNS_CREDENTIALS_SECTOR_SIZE with 4096.
  destruct (fl_erase fl w (offset_of s) 4096) as [st1 w1] eqn:E1. apply fl_erase_law in E1 as (Ho1 & He1 & Hf1); [|done].
  destruct (is_ok st1) eqn:K1; cbn [negb].
  2: { apply is_ok_false in K1. eexists _, _. split; [done|]. split; [done|]. split; [|done].
       destruct (Hf1 K1) as [Hf|Hf]; [left; exact Hf|right; left; exact Hf]. }
  apply is_ok_spec in K1. specialize (He1 K1).
  destruct (fl_program fl w1 (offset_of s) (data_octets g t p)) as [st2 w2] eqn:E2.
  apply fl_program_law in E2 as [Ho2 Hp2]; [|clear - Ha; Z.div_mod_to_equations; lia|by rewrite Hdl|by apply data_octets_ok]. rewrite Hdl in Ho2, Hp2.
  assert (Hout2 : forall a, ~ offset_of s <= a < offset_of s + 4096 -> fl_mem w2 a = fl_mem w a)
    by (intros a ?; rewrite Ho2, Ho1; [done|lia..]).
  assert (Her2 : record_at w2 s = None) by (apply record_erased; intros a ?; rewrite Ho2, He1; [done|lia..]).
  assert (Hstop : forall st w', same_memory w2 w' -> st <> PBNS_OK -> slot_written w w' s g t p st).
  { intros st w' Hsame Hst. split; [intros a ?; rewrite Hsame; auto|]. split; [|done]. right; left. by rewrite (same_record w2 w'). }
  destruct (is_ok st2) eqn:K2; cbn [negb]; [|apply is_ok_false in K2; eexists _, _; split; [done|by apply Hstop]].
  apply is_ok_spec in K2. specialize (Hp2 K2 ltac:(intros; apply He1; lia)).
  destruct (fl_read fl w2 (offset_of s) zero_data) as [[st3 readback] w3] eqn:E3. apply fl_read_law in E3 as [Hs3 Hr3].
  destruct (is_ok st3) eqn:K3; cbn [negb]; [|apply is_ok_false in K3; eexists _, _; split; [done|by apply Hstop]].
  apply is_ok_spec in K3. specialize (Hr3 K3). change (length zero_data) with 512%nat in Hr3. rewrite Hp2 in Hr3. subst readback.
  rewrite bytes_eqb_refl. cbn [negb]. rewrite data_record_octets by done. cbn [mbind option_bind].
  destruct (data_outcome g t p zero_slot_info) as [b info] eqn:Eo.
  destruct (_ || _) eqn:Eb; [eexists _, _; split; [done|by apply Hstop]|].
  assert (b = true) as -> by (destruct b; done). rewrite commit_offset.
  destruct (fl_program fl w3 (offset_of s + 512) (commit_octets g)) as [st4 w4] eqn:E4.
  apply fl_program_law in E4 as [Ho4 _]; [|clear - Ha; Z.div_mod_to_equations; lia|by rewrite Hcl|by apply commit_octets_ok]. rewrite Hcl in Ho4.
  apply (write_slot_commit w s g c t p info _ _ st4 w3 w4); try done.
  - intros a ?. rewrite Hs3. auto.
  - rewrite <- Hp2. apply range_ext. intros. apply Hs3.
  - rewrite data_record_octets by done. by rewrite Eo.
  - intros a ?. apply Ho4. lia.
Qed.

(** *** The newest record after a transaction *)

Lemma newest_kept w w' s s' g :
  (s = 0 /\ s' = 1 \/ s = 1 /\ s' = 0) -> record_at w' s' = record_at w s' ->
  (newest w = None \/ exists g0 c0, newest w = Some (s', g0, c0) /\ g0 < g) -> generations_differ w ->
  record_at w' s = record_at w s \/ record_at w' s = None -> generations_differ w' /\ newest w' = newest w.
Proof.
  intros Hs Ho Hn Hd Hr. unfold generations_differ, newest in *.
  destruct Hs as [[-> ->]|[-> ->]]; rewrite Ho; destruct Hr as [-> | ->]; try (split; [exact Hd|reflexivity]).
  - split; [exact I|]. apply newest_kept0. destruct Hn as [|(? & ? & ? & _)]; eauto.
  - split; [by destruct (record_at w 0) as [[]|]|]. apply newest_kept1. destruct Hn as [|(? & ? & ? & _)]; eauto.
Qed.

Lemma newest_replaced w w' s s' g c :
  (s = 0 /\ s' = 1 \/ s = 1 /\ s' = 0) -> record_at w' s' = record_at w s' ->
  (newest w = None \/ exists g0 c0, newest w = Some (s', g0, c0) /\ g0 < g) ->
  record_at w' s = Some (g, c) -> generations_differ w' /\ newest w' = Some (s, g, c).
Proof.
  intros Hs Ho Hn Hr. unfold generations_differ, newest in *.
  destruct Hs as [[-> ->]|[-> ->]]; rewrite Ho, Hr; [by apply (newest_replaced0 (record_at w 0))|].
  by apply (newest_replaced1 _ (record_at w 1)).
Qed.

(** *** What an operation leaves behind *)

Definition new_value (t : bool) (c : ptr pbns_credentials) : option (bytes * bytes * bytes * Z * bytes) :=
  if t then None else credential_value <$> c.

Lemma payload_value (t : bool) c p :
  (if t then True else exists x, c = Some x /\ fields_bounded x /\ p = cred_form x) -> payload_accepted t p ->
  match payload_contents t p with Some y => Some (credential_value y) | None => None end = new_value t c.
Proof.
  unfold payload_accepted, payload_contents, new_value. destruct t; [done|]. intros (x & -> & Hb & ->) [|Ha]; [done|].
  destruct (credentials_decode_cbor (mk_view 1 (cred_form x))) as [st y] eqn:E. cbn in Ha |- *. subst st.
  apply decode_cbor_ok in E as (E & _ & Hy). cbn in E. f_equal. symmetry. by apply cred_form_inj.
Qed.

(** The generation and the slot that are chosen. *)
Lemma next_generation_spec w s0 s1 :
  generations_differ w -> info_record s0 = record_at w 0 -> info_record s1 = record_at w 1 ->
  match next_generation s0 s1 with
  | inl st => st = PBNS_ERR_LIMIT /\ exists s c, newest w = Some (s, UINT64_MAX, c)
  | inr (g, s) => 0 < g <= UINT64_MAX /\ exists s', (s = 0 /\ s' = 1 \/ s = 1 /\ s' = 0)
      /\ (newest w = None \/ exists g0 c0, newest w = Some (s', g0, c0) /\ g0 < g)
  end.
Proof.
  intros Hd H0 H1. pose proof (latest_slot_newest s0 s1 w H0 H1) as Hl. unfold next_generation.
  destruct (newest w) as [[[s g] c]|] eqn:En.
  - destruct Hl as [[_ []]|(-> & Hs & Hr & Hi)]; [done|]. pose proof (record_at_range _ _ _ _ Hr) as Hg.
    rewrite (proj2 (Z.eqb_neq s (-2))), (proj2 (Z.leb_le 0 s)) by lia.
    assert (Eg : si_generation (if s =? 0 then s0 else s1) = g).
    { unfold info_record in Hi. destruct (si_valid _); [|done]. congruence. }
    rewrite Eg. destruct (Z.eqb_spec g UINT64_MAX) as [->|Hne]; [eauto|].
    rewrite u64_small by lia. split; [lia|]. exists s. split; [destruct Hs as [->| ->]; auto|]. right. exists g, c. split; [done|lia].
  - rewrite Hl. cbn. split; [unfold UINT64_MAX; lia|]. exists 1. auto.
Qed.

(** The record and the status of a transaction that got as far as the flash. *)
Lemma transaction_outcome w w' s s' g (t : bool) c p st :
  (s = 0 /\ s' = 1 \/ s = 1 /\ s' = 0) ->
  (newest w = None \/ exists g0 c0, newest w = Some (s', g0, c0) /\ g0 < g) -> generations_differ w ->
  (if t then True else exists x, c = Some x /\ fields_bounded x /\ p = cred_form x) ->
  slot_written w w' s g t p st ->
  generations_differ w' /\ (stored w' = stored w \/ stored w' = new_value t c)
  /\ (st = PBNS_OK -> stored w' = new_value t c).
Proof.
  intros Hs Hn Hd Hp (Hm & Hr & Hok).
  assert (Ho : record_at w' s' = record_at w s') by (eapply (other_record w w' s s'); [lia..|done]).
  assert (Hnew : payload_accepted t p -> record_at w' s = Some (g, payload_contents t p) ->
    generations_differ w' /\ stored w' = new_value t c).
  { intros Ha Hrec. destruct (newest_replaced w w' s s' g _ Hs Ho Hn Hrec) as [Hd' Hn']. split; [done|].
    unfold stored. rewrite Hn'. rewrite <- (payload_value t c p) by done. by destruct (payload_contents t p). }
  assert (Hold : record_at w' s = record_at w s \/ record_at w' s = None -> generations_differ w' /\ stored w' = stored w).
  { intros Hrec. destruct (newest_kept w w' s s' g Hs Ho Hn Hd Hrec) as [Hd' Hn']. split; [done|]. unfold stored. by rewrite Hn'. }
  destruct (decide (st = PBNS_OK)) as [E|E].
  - destruct (Hok E) as [Ha Hrec]. destruct (Hnew Ha Hrec) as [H1 H2]. split; [exact H1|]. split; [right; exact H2|intros _; exact H2].
  - destruct Hr as [Hr|[Hr|[Ha Hr]]].
    + destruct (Hold (or_introl Hr)) as [H1 H2]. split; [exact H1|]. split; [left; exact H2|contradiction].
    + destruct (Hold (or_intror Hr)) as [H1 H2]. split; [exact H1|]. split; [left; exact H2|contradiction].
    + destruct (Hnew Ha Hr) as [H1 H2]. split; [exact H1|]. split; [right; exact H2|contradiction].
Qed.

Lemma storage_ok : storage_is_valid (Some storage) = true.
Proof. pose proof Hlayout as (H1 & H2 & _). by apply storage_valid. Qed.

(** The payload of a transaction. *)
Lemma encode_payload x st data n :
  credentials_typed x ->
  pbns_credentials_encode_cbor (Some x) (mk_buffer 1 0 (replicate (Z.to_nat PBNS_CREDENTIALS_CBOR_MAX) 0)) (Some 0) = (st, data, n) ->
  st <> PBNS_OK
  \/ validate_credentials x = PBNS_OK /\ st = PBNS_OK /\ exists m, n = Some m /\ rd_slice data 0 m = Some (cred_form x).
Proof.
  intros Hx. unfold pbns_credentials_encode_cbor, credentials_encode_cbor. cbn [buffer_is_valid b_len b_data negb Z.eqb b_ptr orb andb].
  destruct (is_ok (validate_credentials x)) eqn:Ev; cbn [negb].
  2: { intros [= <- _ _]. left. by apply is_ok_false. }
  apply is_ok_spec in Ev. destruct (encode_canonical _ _) as [[st' d] m] eqn:E. intros [= <- <- <-].
  destruct (decide (st' = PBNS_OK)) as [->|]; [right|by left]. split; [done|]. split; [done|].
  apply encode_canonical_ok in E as (-> & Hn & Hl & Ht). exists (zlen (cred_form x)). split; [done|].
  rewrite rd_slice_inside by lia. f_equal. unfold slice. by rewrite drop_0.
Qed.

(** What a transaction guarantees, in whatever way it ends. *)
Definition atomic_outcome w w' (t : bool) c (st : pbns_status) : Prop :=
  generations_differ w' /\ (stored w' = stored w \/ stored w' = new_value t c)
  /\ (st = PBNS_OK -> stored w' = new_value t c).

Lemma transaction_same w w' t c st :
  generations_differ w -> same_memory w w' -> st <> PBNS_OK -> atomic_outcome w w' t c st.
Proof.
  intros Hd Hs Hst. split; [by eapply same_differ|]. split; [left; by apply same_stored|done].
Qed.

Lemma transaction_written w w1 (t : bool) c p s0 s1 :
  generations_differ w -> same_memory w w1 -> info_record s0 = record_at w 0 -> info_record s1 = record_at w 1 ->
  (length p <= 448)%nat -> bytes_ok p -> (if t then p = [] else p <> []) ->
  (if t then True else exists x, c = Some x /\ fields_bounded x /\ p = cred_form x) ->
  exists st w', match next_generation s0 s1 with
    | inl status => Some (status, w1)
    | inr (generation, target) => write_slot storage target generation c t p w1
    end = Some (st, w') /\ atomic_outcome w w' t c st.
Proof.
  intros Hd Hsame R0 R1 Hl Hok Ht Hp. pose proof (next_generation_spec w s0 s1 Hd R0 R1) as Hng.
  destruct (next_generation s0 s1) as [st|[g s]].
  { destruct Hng as [-> _]. eexists _, _. split; [reflexivity|]. by apply transaction_same. }
  destruct Hng as [Hg (s' & Hs & Hn)].
  destruct (write_slot_spec w1 s g c t p) as (st & w' & -> & Hw); try done.
  { destruct Hs as [[-> _]|[-> _]]; auto. }
  { intros ->. destruct Hp as (x & -> & _). eauto. }
  eexists _, _. split; [reflexivity|].
  rewrite <- (same_newest w w1) in Hn by done.
  destruct (transaction_outcome w1 w' s s' g t c p st Hs Hn (same_differ w w1 Hsame Hd) Hp Hw) as (H1 & H2 & H3).
  split; [done|]. rewrite <- (same_stored w w1) by done. done.
Qed.

Lemma write_transaction_atomic w c (t : bool) :
  generations_differ w -> (if t then True else exists x, c = Some x /\ credentials_typed x) ->
  exists st w', write_transaction (Some storage) c t w = Some (st, w') /\ atomic_outcome w w' t c st.
Proof.
  intros Hd Hc. unfold write_transaction. rewrite storage_ok. cbn [negb mbind option_bind].
  destruct (read_slots_spec w) as (r & w1 & Er & Hsame & Hr).
  destruct t.
  - cbn [is_ok negb]. rewrite Er. cbn [mbind option_bind].
    destruct r as [st|[s0 s1]]; [eexists _, _; split; [reflexivity|]; by apply transaction_same|]. destruct Hr as [R0 R1].
    destruct (transaction_written w w1 true c [] s0 s1 Hd Hsame R0 R1 ltac:(cbn; lia) bytes_ok_nil eq_refl I)
      as (st & w' & E & Ho).
    exists st, w'. split; [|exact Ho]. rewrite <- E. destruct (next_generation s0 s1) as [|[g s]]; [done|].
    by rewrite rd_slice_inside by (cbn; lia).
  - destruct Hc as (x & -> & Hx).
    destruct (pbns_credentials_encode_cbor _ _ _) as [[st data] n] eqn:Ee.
    apply encode_payload in Ee as [Hst|(Hv & -> & m & -> & Hm)]; [|cbn [is_ok negb]|done].
    { apply is_ok_false in Hst as Hst'. rewrite Hst'. cbn [negb]. eexists _, _. split; [reflexivity|]. by apply transaction_same. }
    rewrite Er. cbn [mbind option_bind].
    destruct r as [st|[s0 s1]]; [eexists _, _; split; [reflexivity|]; by apply transaction_same|]. destruct Hr as [R0 R1].
    pose proof (typed_bounded x Hx Hv) as Hb. pose proof (cred_form_length x Hb) as Hlen.
    assert (Hne : cred_form x <> []) by (intros E; rewrite E in Hlen; cbn in Hlen; lia).
    destruct (transaction_written w w1 false (Some x) (cred_form x) s0 s1 Hd Hsame R0 R1 ltac:(lia)
      (cred_form_octets x Hx) Hne (ex_intro _ x (conj eq_refl (conj Hb eq_refl)))) as (st & w' & E & Ho).
    exists st, w'. split; [|exact Ho]. rewrite <- E. destruct (next_generation s0 s1) as [|[g s]]; [done|].
    rewrite Hm. done.
Qed.

End store.
