(* ===== verification/CredentialProps.v ===== *)
(** * Properties of the credential store

    Loading reports what is stored, transactions are atomic over any failure of
    the flash, and on a flash that works a store succeeds and is read back. *)

From stdpp Require Import base list numbers.
From Stdlib Require Import ZArith Lia.
From S2P Require Import Prelude Endian Status Buffers Crc32c Cbor CborReader Utf8 Credentials CredentialStore.

#[local] Opaque crc32c_bytes be_bytes replicate range data_octets commit_octets.

(** ** Decoding what was encoded *)

(** The credentials with zeroed unused octets. *)
Definition canonical_credentials (c : pbns_credentials) : pbns_credentials :=
  mk_credentials (filled 32 (ssid_of c)) (zlen (ssid_of c)) (filled 63 (psk_of c)) (zlen (psk_of c))
    (filled 254 (hostname_of c)) (zlen (hostname_of c)) (cr_port c) (cr_spki_sha256 c).

Lemma take_filled capacity data : take (Z.to_nat (zlen data)) (filled capacity data) = data.
Proof. unfold filled. by rewrite Nat2Z.id, take_app_length. Qed.

Lemma canonical_value c : credential_value (canonical_credentials c) = credential_value c.
Proof. unfold credential_value, canonical_credentials, ssid_of, psk_of, hostname_of. cbn. by rewrite !take_filled. Qed.

Lemma canonical_fields c : credential_fields (canonical_credentials c) = credential_fields c.
Proof.
  pose proof (canonical_value c) as E. unfold credential_value in E. injection E as E1 E2 E3.
  unfold credential_fields. rewrite E1, E2, E3. done.
Qed.

Lemma used_length (data : bytes) len : 0 <= len <= zlen data -> zlen (take (Z.to_nat len) data) = len.
Proof. intros. rewrite length_take. lia. Qed.

Lemma typed_lengths c : credentials_typed c -> validate_credentials c = PBNS_OK ->
  zlen (ssid_of c) = cr_ssid_len c /\ zlen (psk_of c) = cr_psk_len c /\ zlen (hostname_of c) = cr_hostname_len c.
Proof.
  intros (Hs & Hp & Hh & _) Hv%validate_lengths. unfold ssid_of, psk_of, hostname_of. rewrite !used_length; lia.
Qed.

Lemma canonical_valid c :
  credentials_typed c -> validate_credentials c = PBNS_OK -> validate_credentials (canonical_credentials c) = PBNS_OK.
Proof.
  intros Hc Hv. destruct (typed_lengths c Hc Hv) as (E1 & E2 & E3). rewrite <- Hv. pose proof (canonical_value c) as E.
  unfold credential_value in E. injection E as V1 V2 V3. unfold validate_credentials. rewrite V1, V2, V3.
  unfold canonical_credentials. cbn [cr_ssid_len cr_psk_len cr_hostname_len cr_port]. by rewrite E1, E2, E3.
Qed.

(** The octets of a string field. *)
Definition val_of (v : cbor_value) : bytes := match v with CText l | CBytes l => l | _ => [] end.

Section decoding.
Context `{Q : QCBOR} `{!QCBORReads}.

Lemma cred_string_reads type max d label v fields :
  (v = CBytes (val_of v) /\ type = QCBOR_TYPE_BYTE_STRING \/ v = CText (val_of v) /\ type = QCBOR_TYPE_TEXT_STRING) ->
  zlen (val_of v) <= max -> Forall2 item_matches ((label, v) :: fields) (pending d) ->
  exists d', cred_string type max d label = inr (val_of v, d') /\ Forall2 item_matches fields (pending d').
Proof.
  intros Hv Hm HF. destruct (next_item_matches d (label, v) fields _ eq_refl HF) as (item & rest & d' & E & Hp & Hi & Hr).
  unfold cred_string. cbn [fst] in E. rewrite E. destruct Hi as (_ & _ & _ & Hi). cbn [snd] in Hi.
  exists d'. rewrite Hp. split; [|done].
  destruct Hv as [[Ev ->]|[Ev ->]]; rewrite Ev in Hi; destruct Hi as (-> & -> & _); rewrite Z.eqb_refl; cbn [negb];
    by rewrite (proj2 (Z.ltb_ge max _)) by done.
Qed.

Lemma decode_version_reads fields :
  cbor_fields_ok ((1, CUInt PBNS_CREDENTIALS_VERSION) :: fields) -> zlen fields = 5 ->
  zlen (cbor_map ((1, CUInt PBNS_CREDENTIALS_VERSION) :: fields)) <= UINT16_MAX ->
  exists d, decode_version (cbor_map ((1, CUInt PBNS_CREDENTIALS_VERSION) :: fields)) = inr d
  /\ Forall2 item_matches fields (pending d).
Proof.
  intros Hok Hn Hsz. destruct (reads_map _ Hok Hsz) as (head & items & Hp & (Ht & Hl & Hc) & HF).
  destruct (reads_next _ _ _ Hp) as (d & E & Hd). unfold decode_version. rewrite E, Ht, Hl, Hc. cbn [length].
  rewrite (proj2 (Z.eqb_eq _ 6)) by lia. cbn [Z.eqb Pos.eqb QCBOR_TYPE_MAP QCBOR_TYPE_NONE negb orb].
  rewrite <- Hd in HF. destruct (next_item_matches d _ _ _ eq_refl HF) as (item & rest & d' & E' & Hp' & Hi & Hr).
  cbn [fst] in E'. rewrite E'. cbn [mbind option_bind].
  rewrite (item_matches_u64 1 PBNS_CREDENTIALS_VERSION item) by (done || (unfold PBNS_CREDENTIALS_VERSION, UINT64_MAX; lia)).
  rewrite Z.eqb_refl. cbn [negb]. exists d'. by rewrite Hp'.
Qed.

Lemma parse_reads c :
  fields_bounded c -> parse_credentials (cred_form c) = inr (canonical_credentials c).
Proof.
  intros Hb. pose proof (bounded_fields_ok c Hb) as Hok.
  assert (Hsz : zlen (cred_form c) <= UINT16_MAX) by (pose proof (cred_form_length c Hb); unfold UINT16_MAX; lia). destruct Hb as (Hs & Hp & Hh & Hport & Hk).
  unfold parse_credentials, cred_form, credential_fields in *.
  destruct (decode_version_reads _ Hok eq_refl Hsz) as (d1 & -> & F1).
  destruct (cred_string_reads QCBOR_TYPE_BYTE_STRING PBNS_CREDENTIALS_SSID_MAX _ _ (CBytes (ssid_of c)) _ ltac:(left; done) Hs F1) as (d2 & -> & F2).
  destruct (cred_string_reads QCBOR_TYPE_BYTE_STRING PBNS_CREDENTIALS_PSK_MAX _ _ (CBytes (psk_of c)) _ ltac:(left; done) Hp F2) as (d3 & -> & F3).
  destruct (cred_string_reads QCBOR_TYPE_TEXT_STRING PBNS_CREDENTIALS_HOSTNAME_MAX _ _ (CText (hostname_of c)) _ ltac:(right; done) Hh F3) as (d4 & -> & F4).
  destruct (next_item_matches d4 _ _ _ eq_refl F4) as (item & rest & d5 & E5 & P5 & I5 & F5).
  unfold cred_port. cbn [fst] in E5. rewrite E5. cbn [mbind option_bind].
  rewrite (item_matches_u64 5 (cr_port c) item) by (done || (unfold UINT16_MAX, UINT64_MAX in *; lia)).
  rewrite (proj2 (Z.ltb_ge UINT16_MAX _)) by lia.
  rewrite <- P5 in F5. destruct (next_item_matches d5 _ _ _ eq_refl F5) as (item6 & rest6 & d6 & E6 & P6 & I6 & F6).
  unfold cred_spki. cbn [fst] in E6. rewrite E6. destruct I6 as (_ & _ & _ & -> & -> & _). unfold PBNS_CREDENTIALS_SPKI_SIZE.
  rewrite Hk. cbn [Z.eqb Pos.eqb QCBOR_TYPE_BYTE_STRING negb orb].
  rewrite reads_finish by (rewrite P6; by inversion F6). cbn [negb].
  unfold canonical_credentials. cbn [val_of]. repeat f_equal. unfold u16, UINT16_MAX in *. apply Z.mod_small. lia.
Qed.

(** The decoder takes back what the encoder wrote. *)
Lemma decode_cbor_complete c :
  credentials_typed c -> validate_credentials c = PBNS_OK ->
  credentials_decode_cbor (mk_view 1 (cred_form c)) = (PBNS_OK, canonical_credentials c).
Proof.
  intros Hc Hv. pose proof (typed_bounded c Hc Hv) as Hb. pose proof (cred_form_length c Hb) as Hl.
  unfold credentials_decode_cbor, v_len. cbn [view_is_valid v_ptr v_data Z.eqb negb orb].
  rewrite (proj2 (Z.eqb_neq (zlen (cred_form c)) 0)), (proj2 (Z.ltb_ge PBNS_CREDENTIALS_CBOR_MAX _)) by (unfold PBNS_CREDENTIALS_CBOR_MAX; lia).
  rewrite (parse_reads c Hb), (canonical_valid c Hc Hv). cbn [is_ok negb].
  assert (Hz : zlen (replicate (Z.to_nat PBNS_CREDENTIALS_CBOR_MAX) 0) = 448) by (by rewrite length_replicate).
  assert (Ef : cred_form (canonical_credentials c) = cred_form c) by (unfold cred_form; by rewrite canonical_fields).
  destruct (encode_canonical_fits (canonical_credentials c) (replicate (Z.to_nat PBNS_CREDENTIALS_CBOR_MAX) 0)) as [data E].
  { rewrite Hz. unfold UINT32_MAX. lia. } { rewrite Hz, Ef. lia. }
  rewrite E. cbn [is_ok negb]. apply encode_canonical_ok in E as (_ & _ & _ & Ht). rewrite Ef in Ht |- *.
  rewrite Z.eqb_refl, Ht, bytes_eqb_refl. done.
Qed.
End decoding.

(** ** Loading *)

(** Credentials of an accepted record passed the checks. *)
Lemma data_record_credentials `{QCBOR} data info info' :
  data_record_is_valid data info = Some (true, info') -> si_tombstone info' = false ->
  validate_credentials (si_credentials info') = PBNS_OK.
Proof.
  unfold data_record_is_valid. intros E Ht.
  repeat match type of E with
  | mbind _ ?x = _ => destruct x as [?|]; [|discriminate E]; cbn [mbind option_bind] in E
  | (if ?b then _ else _) = _ => destruct b; [try discriminate E|]
  end; [by injection E as <-|].
  destruct (credentials_decode_cbor _) as [st c] eqn:Ed. destruct (is_ok st) eqn:Es; cbn [negb] in E; [|discriminate E].
  apply is_ok_spec in Es as ->. injection E as <-. by apply decode_cbor_ok in Ed as (_ & ? & _).
Qed.

(** A flash whose calls do not fail. *)
Class FlashReliable {W} (fl : flash W) := {
  reliable_read w off buf : exists data w', fl_read fl w off buf = (PBNS_OK, data, w');
  reliable_erase w off n : exists w', fl_erase fl w off n = (PBNS_OK, w');
  reliable_program w off src : exists w', fl_program fl w off src = (PBNS_OK, w');
}.

Section loading.
Context `{M : Machine} `{Q : QCBOR} {W : Type} (fl : flash W) `{!FlashLaws fl}.
Context (first second : Z) (Hlayout : layout_ok first second).
Implicit Types (w : W).

#[local] Notation storage := (flash_storage fl first second).
#[local] Notation record_at := (record_at fl first second).
#[local] Notation newest := (newest fl first second).
#[local] Notation stored := (stored fl first second).
#[local] Notation generations_differ := (generations_differ fl first second).
#[local] Notation same_memory := (same_memory fl).

Lemma record_credentials w s g c : record_at w s = Some (g, Some c) -> validate_credentials c = PBNS_OK.
Proof.
  unfold CredentialStore.record_at, record_in, slot_record.
  destruct (data_record_is_valid _ _) as [[[] info]|] eqn:Ed; [|discriminate..].
  destruct (commit_record_is_valid _ _) as [[]|]; [|discriminate..].
  destruct (si_tombstone info) eqn:Et; [discriminate|]. intros [= _ <-]. by eapply data_record_credentials.
Qed.

Lemma read_slot_reliable s data commit w st info w' :
  s = 0 \/ s = 1 -> FlashReliable fl -> read_slot storage s data commit w = Some (st, info, w') -> st = PBNS_OK.
Proof.
  intros Hs Hf. unfold read_slot. cbn [flash_storage st_ops mbind option_bind ops_read]. fold storage.
  rewrite slot_offset_of by done. cbn [mbind option_bind].
  destruct (reliable_read w (offset_of first second s) data) as (d & w1 & ->). cbn [is_ok negb].
  destruct (reliable_read w1 (size_add (offset_of first second s) SLOT_COMMIT_OFFSET) commit) as (k & w2 & ->). cbn [is_ok negb].
  intros ([[] x] & _ & E)%bind_Some; cbn [negb] in E; [|congruence].
  apply bind_Some in E as ([] & _ & E); congruence.
Qed.

Lemma read_slots_reliable w r w' : FlashReliable fl -> read_slots storage w = Some (r, w') -> exists s, r = inr s.
Proof.
  intros Hf. unfold read_slots. intros ([[st s0] w1] & E0 & E)%bind_Some.
  apply read_slot_reliable in E0 as ->; [|auto..]. cbn [is_ok negb] in E.
  apply bind_Some in E as ([[st s1] w2] & E1 & E). apply read_slot_reliable in E1 as ->; [|auto..]. cbn [is_ok negb] in E.
  injection E as <- _. by eexists.
Qed.

(** The outcome of a load: the credentials that are stored, or none. *)
Lemma load_spec w c0 :
  exists st c w', pbns_credentials_load (Some storage) (Some c0) w = Some (st, Some c, w') /\ same_memory w w'
  /\ (st = PBNS_OK -> stored w = Some (credential_value c) /\ validate_credentials c = PBNS_OK)
  /\ (st <> PBNS_OK -> c = zero_credentials)
  /\ (FlashReliable fl -> generations_differ w -> st = if stored w then PBNS_OK else PBNS_ERR_STATE).
Proof.
  unfold pbns_credentials_load. rewrite storage_ok by done. cbn [negb mbind option_bind]. unfold credentials_load.
  destruct (read_slots_spec fl first second Hlayout w) as (r & w' & Er & Hsame & Hr). rewrite Er. cbn [mbind option_bind].
  destruct r as [st|[s0 s1]].
  { eexists _, _, _. split; [reflexivity|]. split; [exact Hsame|]. split; [done|]. split; [done|].
    intros Hf. by destruct (read_slots_reliable _ _ _ Hf Er). }
  destruct Hr as [R0 R1]. pose proof (latest_slot_newest fl first second s0 s1 w R0 R1) as Hl. unfold CredentialStore.stored.
  destruct (newest w) as [[[s g] c]|] eqn:En.
  2: { rewrite Hl. cbn. eexists _, _, _. split; [reflexivity|]. done. }
  destruct Hl as [[-> Hnd]|(-> & Hs & Hrec & Hi)].
  { cbn. eexists _, _, _. split; [reflexivity|]. split; [exact Hsame|]. split; [done|]. split; [done|]. done. }
  rewrite (proj2 (Z.eqb_neq s (-2))), (proj2 (Z.ltb_ge s 0)) by lia. cbn [orb].
  unfold info_record in Hi. destruct (si_valid _); [|discriminate]. destruct (si_tombstone _); injection Hi as _ <-.
  { eexists _, _, _. split; [reflexivity|]. done. }
  eexists _, _, _. split; [reflexivity|]. split; [exact Hsame|]. split; [|done]. intros _. split; [reflexivity|].
  by eapply record_credentials.
Qed.
(** ** Storing on a flash that works *)

Lemma credentials_equal_canonical c :
  credentials_typed c -> validate_credentials c = PBNS_OK -> credentials_equal (canonical_credentials c) c = true.
Proof.
  intros Hc Hv. destruct (typed_lengths c Hc Hv) as (E1 & E2 & E3). pose proof (canonical_value c) as E.
  unfold credential_value in E. injection E as V1 V2 V3. unfold credentials_equal. rewrite V1, V2, V3.
  unfold canonical_credentials. cbn [cr_ssid_len cr_psk_len cr_hostname_len cr_port cr_spki_sha256].
  rewrite E1, E2, E3, !Z.eqb_refl. unfold ssid_of, psk_of, hostname_of. by rewrite !bytes_eqb_refl.
Qed.

Lemma verified_matches_record verified g c x :
  credentials_typed x -> validate_credentials x = PBNS_OK -> c = Some x ->
  info_record verified = Some (g, Some (canonical_credentials x)) -> verified_matches verified g c false = Some true.
Proof.
  intros Hx Hv -> Hi. unfold info_record in Hi. unfold verified_matches.
  destruct (si_valid verified); [|discriminate]. destruct (si_tombstone verified); [discriminate|]. injection Hi as -> ->.
  rewrite Z.eqb_refl. cbn [negb orb Bool.eqb mbind option_bind]. by rewrite credentials_equal_canonical.
Qed.

Context `{!QCBORReads} `{!FlashReliable fl}.

Lemma write_slot_succeeds w s g x :
  s = 0 \/ s = 1 -> credentials_typed x -> validate_credentials x = PBNS_OK -> 0 < g <= UINT64_MAX ->
  exists w', write_slot storage s g (Some x) false (cred_form x) w = Some (PBNS_OK, w').
Proof.
  intros Hs Hx Hv Hg. pose proof (typed_bounded x Hx Hv) as Hb. pose proof (cred_form_length x Hb) as Hlen.
  assert (Hne : cred_form x <> []) by (intros E; rewrite E in Hlen; cbn in Hlen; lia).
  assert (Hl : (length (cred_form x) <= 448)%nat) by lia. pose proof (cred_form_octets x Hx) as Hok.
  unfold write_slot. cbn [flash_storage st_ops mbind option_bind ops_read ops_erase ops_program].
  fold storage. rewrite slot_offset_of, build_data_record_octets, build_commit_record_octets by done. cbn [mbind option_bind].
  destruct (offset_bounds first second Hlayout s) as [Hbnd Ha].
  pose proof (data_octets_length g false (cred_form x) Hl) as Hdl. pose proof (commit_octets_length g) as Hcl.
  change PBNS_CREDENTIALS_SECTOR_SIZE with 4096. set (off := offset_of first second s) in *.
  destruct (reliable_erase w off 4096) as [w1 E1]. rewrite E1. apply fl_erase_law in E1 as (_ & He1 & _); [|done]. specialize (He1 eq_refl).
  cbn [is_ok negb]. destruct (reliable_program w1 off (data_octets g false (cred_form x))) as [w2 E2]. rewrite E2.
  apply fl_program_law in E2 as [Ho2 Hp2]; [|clear - Ha; Z.div_mod_to_equations; lia|by rewrite Hdl|by apply data_octets_ok].
  rewrite Hdl in Ho2, Hp2. specialize (Hp2 eq_refl ltac:(intros; apply He1; lia)). cbn [is_ok negb].
  destruct (reliable_read w2 off zero_data) as (rb & w3 & E3). rewrite E3. apply fl_read_law in E3 as [Hs3 Hr3]. specialize (Hr3 eq_refl).
  change (length zero_data) with 512%nat in Hr3. rewrite Hp2 in Hr3. subst rb. cbn [is_ok negb].
  rewrite bytes_eqb_refl. cbn [negb]. rewrite data_record_octets by done. cbn [mbind option_bind].
  assert (Eo : data_outcome g false (cred_form x) zero_slot_info = (true, mk_slot_info false false g (canonical_credentials x))).
  { unfold data_outcome. by rewrite decode_cbor_complete. }
  rewrite Eo. cbn [negb si_generation si_tombstone]. rewrite Z.eqb_refl. cbn [negb orb Bool.eqb].
  unfold off. rewrite commit_offset by done. fold off.
  destruct (reliable_program w3 (off + 512) (commit_octets g)) as [w4 E4]. rewrite E4.
  apply fl_program_law in E4 as [Ho4 Hp4]; [|clear - Ha; Z.div_mod_to_equations; lia|by rewrite Hcl|by apply commit_octets_ok].
  rewrite Hcl in Ho4, Hp4. specialize (Hp4 eq_refl ltac:(intros; rewrite Hs3, Ho2, He1; [done|lia..])). cbn [is_ok negb].
  destruct (read_slot_spec fl first second Hlayout s (data_octets g false (cred_form x)) (commit_octets g) w4) as (st & info & w5 & E5 & _ & Hi); [done..|].
  rewrite E5. cbn [mbind option_bind]. apply read_slot_reliable in E5 as ->; [|done..]. cbn [is_ok negb]. specialize (Hi eq_refl).
  rewrite (verified_matches_record info g (Some x) x); [by eexists|done..|].
  rewrite Hi. unfold CredentialStore.record_at, record_in, slot_record. fold off. rewrite Hp4.
  replace (range (fl_mem w4) off 512) with (data_octets g false (cred_form x)).
  2: { rewrite <- Hp2. apply range_ext. intros a Ha'. by rewrite Ho4, Hs3 by lia. }
  rewrite data_record_octets by done. rewrite Eo. cbn [si_generation]. by rewrite commit_record_octets by lia.
Qed.

(** A store goes through unless the generations are used up. *)
Lemma store_succeeds w x :
  generations_differ w -> credentials_typed x -> validate_credentials x = PBNS_OK ->
  (forall s c, newest w <> Some (s, UINT64_MAX, c)) ->
  exists w', pbns_credentials_store (Some storage) (Some x) w = Some (PBNS_OK, w').
Proof.
  intros Hd Hx Hv Hmax. unfold pbns_credentials_store, write_transaction. rewrite storage_ok by done. cbn [negb mbind option_bind].
  pose proof (typed_bounded x Hx Hv) as Hb. pose proof (cred_form_length x Hb) as Hlen.
  destruct (pbns_credentials_encode_cbor _ _ _) as [[st data] n] eqn:Ee.
  pose proof Ee as Ee'. apply encode_payload in Ee' as [Hst|(_ & -> & m & -> & Hm)]; [exfalso|cbn [is_ok negb]|done].
  { apply Hst. revert Ee. unfold pbns_credentials_encode_cbor, credentials_encode_cbor.
    cbn [buffer_is_valid b_len b_data negb Z.eqb b_ptr orb andb]. rewrite Hv. cbn [is_ok negb].
    assert (Hz : zlen (replicate (Z.to_nat PBNS_CREDENTIALS_CBOR_MAX) 0) = 448) by (by rewrite length_replicate).
    destruct (encode_canonical_fits x (replicate (Z.to_nat PBNS_CREDENTIALS_CBOR_MAX) 0)) as [d ->];
      [rewrite Hz; unfold UINT32_MAX; lia|lia|]. congruence. }
  destruct (read_slots_spec fl first second Hlayout w) as (r & w1 & Er & Hsame & Hr). rewrite Er. cbn [mbind option_bind].
  destruct (read_slots_reliable _ _ _ _ Er) as [[s0 s1] ->]. destruct Hr as [R0 R1].
  pose proof (next_generation_spec fl first second w s0 s1 Hd R0 R1) as Hng.
  destruct (next_generation s0 s1) as [st|[g s]]; [destruct Hng as (_ & s & c & E); by destruct (Hmax s c)|].
  destruct Hng as [Hg (s' & Hs & _)]. rewrite Hm. cbn [mbind option_bind]. apply write_slot_succeeds; try done.
  destruct Hs as [[-> _]|[-> _]]; auto.
Qed.
End loading.

(** ** Two flashes *)

Definition in_range (off n a : Z) : bool := (off <=? a) && (a <? off + n).

(** A flash that always works. *)
Definition steady_flash : flash (Z -> Z) := mk_flash
  (fun m off buf => (PBNS_OK, range (fun a => u8 (m a)) off (length buf), m))
  (fun m off n => (PBNS_OK, fun a => if in_range off n a then 255 else m a))
  (fun m off src => (PBNS_OK, fun a => if in_range off (zlen src) a then src !!! Z.to_nat (a - off) else m a)).

(** A flash that loses power after some calls. *)
Definition failing_flash {W} (fl : flash W) : flash (W * nat) := mk_flash
  (fun wn off buf => match wn with
     | (w, S n) => let '(st, data, w) := fl_read fl w off buf in (st, data, (w, n))
     | _ => (PBNS_ERR_IO, buf, wn) end)
  (fun wn off len => match wn with
     | (w, S n) => let '(st, w) := fl_erase fl w off len in (st, (w, n))
     | _ => (PBNS_ERR_IO, wn) end)
  (fun wn off src => match wn with
     | (w, S n) => let '(st, w) := fl_program fl w off src in (st, (w, n))
     | _ => (PBNS_ERR_IO, wn) end).

#[export] Instance steady_reliable : FlashReliable steady_flash.
Proof. constructor; intros; by repeat eexists. Qed.

#[export, refine] Instance steady_laws `{QCBOR} : FlashLaws steady_flash := {| fl_mem m a := u8 (m a) |}.
Proof.
  - intros. apply u8_byte.
  - intros w off buf st data w' [= <- <- <-]. done.
  - intros w off st w' _ [= <- <-]. unfold in_range. split; [|split; [|done]].
    + intros a Ha. zbool; cbn [andb]; lia || done.
    + intros _ a Ha. zbool; cbn [andb]; lia || done.
  - intros w off src st w' _ _ Hsrc [= <- <-]. unfold in_range. split.
    + intros a Ha. zbool; cbn [andb]; lia || done.
    + intros _ _. apply list_eq_same_length with (length src); [by rewrite ?range_length..|]. intros i x y Hi.
      rewrite range_lookup by done. intros [= <-] Hy.
      rewrite (proj2 (Z.leb_le off _)), (proj2 (Z.ltb_lt (off + Z.of_nat i) _)) by lia. cbn [andb].
      replace (Z.to_nat (off + Z.of_nat i - off)) with i by lia. rewrite (list_lookup_total_correct _ _ _ Hy).
      apply u8_small. by eapply Forall_lookup_1 in Hsrc.
Defined.

#[export, refine] Instance failing_laws `{QCBOR} {W} (fl : flash W) `{!FlashLaws fl} : FlashLaws (failing_flash fl) :=
  {| fl_mem wn a := fl_mem (fst wn) a |}.
Proof.
  - intros [w n] a. apply fl_mem_byte.
  - intros [w [|n]] off buf st data w'; cbn; [by intros [= <- <- <-]|].
    destruct (fl_read fl w off buf) as [[st1 d1] w1] eqn:E. intros [= <- <- <-]. by apply fl_read_law in E.
  - intros [w [|n]] off st w' Ha; cbn; [intros [= <- <-]; split; [done|]; split; [done|by left]|].
    destruct (fl_erase fl w off 4096) as [st1 w1] eqn:E. intros [= <- <-]. by apply fl_erase_law in E.
  - intros [w [|n]] off src st w' Ha Hn Hs; cbn; [by intros [= <- <-]|].
    destruct (fl_program fl w off src) as [st1 w1] eqn:E. intros [= <- <-]. by apply fl_program_law in E.
Defined.

(** ** Properties *)

Section properties.
Context `{M : Machine} `{Q : QCBOR} {W : Type} (fl : flash W) `{!FlashLaws fl} (first second : Z).

(** C23: storing and clearing credentials are atomic.  Whichever callback fails
    (so also when power is lost there), the store then holds either exactly what it
    held before or the new credentials, never anything else; a success means the
    new ones; and two valid slots never carry the same generation. *)
Theorem credentials_store_atomic (w : W) (c : pbns_credentials) :
  layout_ok first second -> generations_differ fl first second w -> credentials_typed c ->
  (exists st w', pbns_credentials_store (Some (flash_storage fl first second)) (Some c) w = Some (st, w')
    /\ generations_differ fl first second w'
    /\ (stored fl first second w' = stored fl first second w \/ stored fl first second w' = Some (credential_value c))
    /\ (st = PBNS_OK -> stored fl first second w' = Some (credential_value c)))
  /\ (exists st w', pbns_credentials_clear (Some (flash_storage fl first second)) w = Some (st, w')
    /\ generations_differ fl first second w'
    /\ (stored fl first second w' = stored fl first second w \/ stored fl first second w' = None)
    /\ (st = PBNS_OK -> stored fl first second w' = None)).
Proof.
  intros Hl Hd Hc. split.
  - destruct (write_transaction_atomic fl first second Hl w (Some c) false Hd) as (st & w' & E & H1 & H2 & H3).
    { by exists c. } exists st, w'. auto.
  - destruct (write_transaction_atomic fl first second Hl w None true Hd I) as (st & w' & E & H1 & H2 & H3).
    exists st, w'. auto.
Qed.

(** Loading reports what is stored.  It never writes; a success yields valid
    credentials, the stored ones; every failure leaves the result zeroed; and on a
    flash that works it succeeds exactly when credentials are stored. *)
Theorem credentials_load_exact (w : W) (c0 : pbns_credentials) :
  layout_ok first second ->
  exists st c w', pbns_credentials_load (Some (flash_storage fl first second)) (Some c0) w = Some (st, Some c, w')
  /\ (forall a, fl_mem w' a = fl_mem w a)
  /\ (st = PBNS_OK -> stored fl first second w = Some (credential_value c) /\ validate_credentials c = PBNS_OK)
  /\ (st <> PBNS_OK -> c = zero_credentials)
  /\ (FlashReliable fl -> generations_differ fl first second w ->
      st = if stored fl first second w then PBNS_OK else PBNS_ERR_STATE).
Proof. intros Hl. by apply load_spec. Qed.

(** On a flash and a codec that work, valid credentials are stored and read
    back: the store succeeds, unless the generations are used up, and the load
    after it returns the same credentials. *)
Theorem credentials_store_loads `{!QCBORReads} `{!FlashReliable fl} (w : W) (c c0 : pbns_credentials) :
  layout_ok first second -> generations_differ fl first second w ->
  credentials_typed c -> validate_credentials c = PBNS_OK ->
  (forall s x, newest fl first second w <> Some (s, UINT64_MAX, x)) ->
  exists w' c' w'', pbns_credentials_store (Some (flash_storage fl first second)) (Some c) w = Some (PBNS_OK, w')
  /\ pbns_credentials_load (Some (flash_storage fl first second)) (Some c0) w' = Some (PBNS_OK, Some c', w'')
  /\ credential_value c' = credential_value c.
Proof.
  intros Hl Hd Hc Hv Hm. destruct (store_succeeds fl first second Hl w c Hd Hc Hv Hm) as [w' E].
  destruct (write_transaction_atomic fl first second Hl w (Some c) false Hd) as (st & w1 & E1 & Hd' & _ & Hs); [by exists c|].
  unfold pbns_credentials_store in *. rewrite E in E1. injection E1 as <- <-. specialize (Hs eq_refl).
  destruct (load_spec fl first second Hl w' c0) as (st & c' & w'' & E2 & _ & H1 & _ & H2).
  specialize (H2 _ Hd'). rewrite Hs in H2. cbn in H2. subst st. destruct (H1 eq_refl) as [Hv' _]. rewrite Hs in Hv'. cbn in Hv'.
  exists w', c', w''. split; [exact E|]. split; [exact E2|]. congruence.
Qed.
End properties.

(** ** Witnesses *)

Definition ex_credentials : pbns_credentials :=
  mk_credentials (filled 32 [112; 98; 110; 115]) 4 (filled 63 [115; 101; 99; 114; 101; 116]) 6
    (filled 254 [103; 119]) 2 4433 (replicate 32 7).

Lemma filled_octets n data : bytes_ok data -> (length data <= n)%nat -> length (filled n data) = n /\ bytes_ok (filled n data).
Proof.
  intros Hd Hn. unfold filled. rewrite length_app, length_replicate. split; [lia|]. apply bytes_ok_app. split; [done|].
  apply Forall_replicate. unfold is_byte. lia.
Qed.

Lemma ex_credentials_typed : credentials_typed ex_credentials.
Proof.
  unfold credentials_typed, ex_credentials. cbn [cr_ssid cr_ssid_len cr_psk cr_psk_len cr_hostname cr_hostname_len cr_port cr_spki_sha256].
  destruct (filled_octets 32 [112; 98; 110; 115]); [octets|cbn; lia|].
  destruct (filled_octets 63 [115; 101; 99; 114; 101; 116]); [octets|cbn; lia|].
  destruct (filled_octets 254 [103; 119]); [octets|cbn; lia|].
  repeat split; try done; try (unfold UINT16_MAX; lia). apply Forall_replicate. unfold is_byte. lia.
Qed.

Lemma ex_layout : @layout_ok rp2040 2088960 2093056.
Proof. unfold layout_ok. repeat split; try (vm_compute; done || discriminate). left. vm_compute. discriminate. Qed.

(** An erased flash holds no records. *)
Lemma ex_erased : forall off, @record_in reference_qcbor (fun _ => 255) off = None.
Proof. intros off. unfold record_in. rewrite !(range_const _ _ _ 255) by done. vm_compute. reflexivity. Qed.

Lemma credentials_store_atomic_witness :
  exists st w', @pbns_credentials_store rp2040 reference_qcbor _ (Some (flash_storage (failing_flash steady_flash) 2088960 2093056))
    (Some ex_credentials) ((fun _ => 255), 6%nat) = Some (st, w')
  /\ (st = PBNS_OK -> @stored reference_qcbor _ (failing_flash steady_flash) _ 2088960 2093056 w' = Some (credential_value ex_credentials)).
Proof.
  destruct (@credentials_store_atomic rp2040 reference_qcbor _ (failing_flash steady_flash) _ 2088960 2093056
    ((fun _ => 255), 6%nat) ex_credentials) as [(st & w' & E & _ & _ & H) _].
  - exact ex_layout.
  - unfold generations_differ, CredentialStore.record_at, differ_of. cbn [fl_mem failing_laws steady_laws fst].
    rewrite ex_erased. exact I.
  - exact ex_credentials_typed.
  - exists st, w'. split; [exact E|exact H].
Defined.

Lemma credentials_load_exact_witness :
  exists st c w', @pbns_credentials_load rp2040 reference_qcbor _ (Some (flash_storage steady_flash 2088960 2093056))
    (Some ex_credentials) (fun _ => 255) = Some (st, Some c, w')
  /\ (st <> PBNS_OK -> c = zero_credentials).
Proof.
  destruct (@credentials_load_exact rp2040 reference_qcbor _ steady_flash _ 2088960 2093056 (fun _ => 255) ex_credentials
    ex_layout) as (st & c & w' & E & _ & _ & H & _).
  exists st, c, w'. split; [exact E|exact H].
Defined.

Lemma credentials_store_loads_witness :
  exists w' c' w'', @pbns_credentials_store rp2040 reference_qcbor _ (Some (flash_storage steady_flash 2088960 2093056))
    (Some ex_credentials) (fun _ => 255) = Some (PBNS_OK, w')
  /\ @pbns_credentials_load rp2040 reference_qcbor _ (Some (flash_storage steady_flash 2088960 2093056))
       (Some zero_credentials) w' = Some (PBNS_OK, Some c', w'')
  /\ credential_value c' = credential_value ex_credentials.
Proof.
  apply (@credentials_store_loads rp2040 reference_qcbor _ steady_flash _ 2088960 2093056 _ _ (fun _ => 255) ex_credentials zero_credentials).
  - exact ex_layout.
  - unfold generations_differ, CredentialStore.record_at, differ_of. cbn [fl_mem steady_laws].
    change (fun a : Z => u8 255) with (fun _ : Z => 255). rewrite ex_erased. exact I.
  - exact ex_credentials_typed.
  - vm_compute. reflexivity.
  - intros s x. unfold newest, CredentialStore.record_at. cbn [fl_mem steady_laws].
    change (fun a : Z => u8 255) with (fun _ : Z => 255). rewrite !ex_erased. discriminate.
Defined.
