(* ===== verification/MeasuredBoot.v ===== *)
(** * Measured boot ([include/pbns/measured_boot.h], [src/core/measured_boot.c])

    The firmware leaves a TCG event log in memory.  The code validates it,
    locates its end, joins it with the final events and captures it together with
    a stable reading of the platform registers.  The log is parsed with a cursor;
    the parser is a small state and error monad here, in which a rejected input and
    an access outside an object are different outcomes. *)

From stdpp Require Import base list numbers.
From Stdlib Require Import ZArith Lia.
From S2P Require Import Prelude Status Buffers.

Definition PBNS_MEASURED_BOOT_EVENT_LOG_MAX_SIZE : Z := 4 * 1024 * 1024.
Definition PBNS_MEASURED_BOOT_ALGORITHM_MAX_COUNT : Z := 16.
Definition PBNS_MEASURED_BOOT_SELECTION_MAX_COUNT : Z := 24.
Definition PBNS_MEASURED_BOOT_DIGEST_SIZE : Z := 32.
Definition PBNS_MEASURED_BOOT_CANONICAL_ITEM_SIZE : Z := 3.
Definition PBNS_TPM_ALG_SHA256 : Z := 0x000b.
Definition PBNS_TCG_LEGACY_HEADER_SIZE : Z := 32.
Definition PBNS_TCG_SPEC_FIXED_SIZE : Z := 29.
Definition PBNS_TCG_EVENT2_FIXED_SIZE : Z := 12.
Definition PBNS_TCG_DIGEST_SIZE_MAX : Z := 64.
Definition PBNS_TCG_EV_NO_ACTION : Z := 3.
Definition PBNS_TCG_FINAL_EVENTS_HEADER_SIZE : Z := 16.
Definition PBNS_TCG_FINAL_EVENTS_VERSION : Z := 1.
Definition PBNS_BASELINE_PCR_SNAPSHOT_SIZE : Z := 4 * 32.

(** ** The cursor *)

Record pbns_log_cursor := mk_cursor { lc_input : bytes; lc_offset : Z }.

(** A parser takes octets from the cursor, rejects them, or faults. *)
Inductive presult (A : Type) :=
| Parsed (x : A) (cursor : pbns_log_cursor)
| Rejected
| Fault.
Arguments Parsed {A}.
Arguments Rejected {A}.
Arguments Fault {A}.

Definition parser (A : Type) : Type := pbns_log_cursor -> presult A.

#[export] Instance parser_ret : MRet parser := fun A x cursor => Parsed x cursor.
#[export] Instance parser_bind : MBind parser := fun A B f p cursor =>
  match p cursor with Parsed x cursor => f x cursor | Rejected => Rejected | Fault => Fault end.

Definition reject {A} : parser A := fun _ => Rejected.
(** [if (!b) return false;] *)
Definition require (b : bool) : parser unit := fun cursor => if b then Parsed tt cursor else Rejected.
(** A value read from memory. *)
Definition load {A} (x : option A) : parser A :=
  fun cursor => match x with Some x => Parsed x cursor | None => Fault end.

(** [take]: the next [length] octets. *)
Definition log_take (length : Z) : parser bytes := fun cursor =>
  let input := lc_input cursor in
  if (zlen input <? length) || (zlen input - length <? lc_offset cursor) then Rejected
  else Parsed (slice input (lc_offset cursor) length) (mk_cursor input (lc_offset cursor + length)).

Definition load_u16 (input : bytes) (offset : Z) : option Z :=
  b0 ← rd input offset;
  b1 ← rd input (offset + 1);
  Some (u16 (Z.lor b0 (Z.shiftl b1 8))).

Definition load_u32 (input : bytes) (offset : Z) : option Z :=
  b0 ← rd input offset;
  b1 ← rd input (offset + 1);
  b2 ← rd input (offset + 2);
  b3 ← rd input (offset + 3);
  Some (Z.lor (Z.lor (Z.lor b0 (Z.shiftl b1 8)) (Z.shiftl b2 16)) (Z.shiftl b3 24)).

Definition load_u64 (input : bytes) (offset : Z) : option Z :=
  low ← load_u32 input offset;
  high ← load_u32 input (offset + 4);
  Some (Z.lor low (u64 (Z.shiftl high 32))).

Definition read_u16 : parser Z := encoded ← log_take 2; load (load_u16 encoded 0).
Definition read_u32 : parser Z := encoded ← log_take 4; load (load_u32 encoded 0).

(** ** Algorithms *)

Record pbns_log_algorithm := mk_algorithm { la_identifier : Z; la_digest_size : Z }.

Definition identifier_seen (identifiers : list Z) (identifier : Z) : bool :=
  existsb (fun seen => seen =? identifier) identifiers.

(** The size of the first algorithm with the identifier. *)
Fixpoint algorithm_size (algorithms : list pbns_log_algorithm) (identifier : Z) : option Z :=
  match algorithms with
  | [] => None
  | algorithm :: rest =>
      if la_identifier algorithm =? identifier then Some (la_digest_size algorithm) else algorithm_size rest identifier
  end.

Definition size_known (identifier digest_size : Z) : bool :=
  negb ((identifier =? 0x0004) && negb (digest_size =? 20))
  && negb ((identifier =? PBNS_TPM_ALG_SHA256) && negb (digest_size =? 32))
  && negb ((identifier =? 0x000c) && negb (digest_size =? 48))
  && negb ((identifier =? 0x000d) && negb (digest_size =? 64)).

Definition is_sha256 (identifier digest_size : Z) : bool :=
  (identifier =? PBNS_TPM_ALG_SHA256) && (digest_size =? 32).

(** The loop of [parse_spec_id]: [algorithms] holds the entries written so far. *)
Fixpoint spec_algorithms (count : nat) (algorithms : list pbns_log_algorithm) (found_sha256 : bool)
  : parser (list pbns_log_algorithm * bool) :=
  match count with
  | O => mret (algorithms, found_sha256)
  | S count =>
      identifier ← read_u16;
      digest_size ← read_u16;
      _ ← require (negb (digest_size =? 0) && (digest_size <=? PBNS_TCG_DIGEST_SIZE_MAX)
                   && size_known identifier digest_size
                   && match algorithm_size algorithms identifier with Some _ => false | None => true end);
      spec_algorithms count (algorithms ++ [mk_algorithm identifier digest_size])
        (found_sha256 || is_sha256 identifier digest_size)
  end.

(** ["Spec ID Event03"] with its final zero. *)
Definition spec_signature : bytes := [83; 112; 101; 99; 32; 73; 68; 32; 69; 118; 101; 110; 116; 48; 51; 0].

Definition spec_body : parser (list pbns_log_algorithm * bool) :=
  fixed ← log_take 8;
  major ← load (rd fixed 5);
  uintn ← load (rd fixed 7);
  _ ← require ((major =? 2) && ((uintn =? 1) || (uintn =? 2)));
  count ← read_u32;
  _ ← require (negb (count =? 0) && (count <=? PBNS_MEASURED_BOOT_ALGORITHM_MAX_COUNT));
  parsed ← spec_algorithms (Z.to_nat count) [] false;
  vendor_size ← log_take 1;
  vendor ← load (rd vendor_size 0);
  _ ← log_take vendor;
  mret parsed.

(** The outer option is [None] for a fault, the inner one for a rejected event. *)
Definition parse_spec_id (event : bytes) : option (option (list pbns_log_algorithm * bool)) :=
  if zlen event <? PBNS_TCG_SPEC_FIXED_SIZE then Some None
  else
  signature ← rd_slice event 0 16;
  if negb (bytes_eqb signature spec_signature) then Some None
  else
  match spec_body (mk_cursor event 16) with
  | Parsed parsed cursor => Some (if lc_offset cursor =? zlen event then Some parsed else None)
  | Rejected => Some None
  | Fault => None
  end.

(** ** Events *)

(** The loop of [parse_event2] over the digests. *)
Fixpoint event_digests (algorithms : list pbns_log_algorithm) (count : nat) (seen : list Z) (found_sha256 : bool)
  : parser bool :=
  match count with
  | O => mret found_sha256
  | S count =>
      identifier ← read_u16;
      _ ← require (negb (identifier_seen seen identifier));
      match algorithm_size algorithms identifier with
      | None => reject
      | Some digest_size =>
          _ ← log_take digest_size;
          event_digests algorithms count (seen ++ [identifier]) (found_sha256 || is_sha256 identifier digest_size)
      end
  end.

Definition parse_event2 (algorithms : list pbns_log_algorithm) : parser unit :=
  event_header ← log_take PBNS_TCG_EVENT2_FIXED_SIZE;
  digest_count ← load (load_u32 event_header 8);
  pcr_index ← load (load_u32 event_header 0);
  _ ← require ((pcr_index <? 24) && negb (digest_count =? 0) && (digest_count <=? PBNS_MEASURED_BOOT_ALGORITHM_MAX_COUNT));
  found_sha256 ← event_digests algorithms (Z.to_nat digest_count) [] false;
  _ ← require found_sha256;
  event_size ← read_u32;
  _ ← log_take event_size;
  mret tt.

(** ** Logs *)

Record pbns_parsed_log := mk_parsed_log {
  pl_algorithms : list pbns_log_algorithm;
  pl_event_count : Z;
  pl_last_entry_offset : Z;
  pl_sha256_bank : bool;
}.

(** [parse_header]: [inl] is a status other than [PBNS_OK]. *)
Definition parse_header (event_log : bytes) : option (pbns_status + list pbns_log_algorithm * pbns_log_cursor) :=
  match (legacy ← log_take PBNS_TCG_LEGACY_HEADER_SIZE;
         pcr ← load (load_u32 legacy 0);
         type ← load (load_u32 legacy 4);
         _ ← require ((pcr =? 0) && (type =? PBNS_TCG_EV_NO_ACTION));
         spec_size ← load (load_u32 legacy 28);
         log_take spec_size) (mk_cursor event_log 0) with
  | Fault => None
  | Rejected => Some (inl PBNS_ERR_FORMAT)
  | Parsed spec cursor =>
      parsed ← parse_spec_id spec;
      match parsed with
      | None => Some (inl PBNS_ERR_FORMAT)
      | Some (algorithms, sha256_bank) =>
          if zlen event_log <? lc_offset cursor then Some (inl PBNS_ERR_FORMAT)
          else Some (if sha256_bank : bool then inr (algorithms, cursor) else inl PBNS_ERR_UNSUPPORTED)
      end
  end.

(** The loop of [parse_log]: the number of events and the offset of the last.
    Every event takes octets, so the length of the log bounds the iterations. *)
Fixpoint log_events (fuel : nat) (algorithms : list pbns_log_algorithm) (event_count last_entry_offset : Z)
  (cursor : pbns_log_cursor) : presult (Z * Z) :=
  if lc_offset cursor <? zlen (lc_input cursor) then
    match fuel with
    | O => Fault
    | S fuel =>
        match parse_event2 algorithms cursor with
        | Parsed _ cursor' => log_events fuel algorithms (event_count + 1) (lc_offset cursor) cursor'
        | Rejected => Rejected
        | Fault => Fault
        end
    end
  else Parsed (event_count, last_entry_offset) cursor.

Definition parse_log (event_log : pbns_view) : option (pbns_status + pbns_parsed_log) :=
  if (v_ptr event_log =? 0) || (v_len event_log =? 0) then Some (inl PBNS_ERR_ARGUMENT)
  else if PBNS_MEASURED_BOOT_EVENT_LOG_MAX_SIZE <? v_len event_log then Some (inl PBNS_ERR_LIMIT)
  else
  header ← parse_header (v_data event_log);
  match header with
  | inl status => Some (inl status)
  | inr (algorithms, cursor) =>
      match log_events (length (v_data event_log)) algorithms 1 0 cursor with
      | Fault => None
      | Rejected => Some (inl PBNS_ERR_FORMAT)
      | Parsed (event_count, last_entry_offset) _ =>
          Some (if event_count <? 2 then inl PBNS_ERR_FORMAT
                else inr (mk_parsed_log algorithms event_count last_entry_offset true))
      end
  end.

Record pbns_measured_boot_summary := mk_summary {
  ms_event_count : Z;
  ms_last_entry_offset : Z;
  ms_sha256_bank : bool;
}.

Definition zero_summary : pbns_measured_boot_summary := mk_summary 0 0 false.

Definition validate_event_log (event_log : pbns_view) : option (pbns_status * pbns_measured_boot_summary) :=
  parsed ← parse_log event_log;
  match parsed with
  | inl status => Some (status, zero_summary)
  | inr parsed => Some (PBNS_OK, mk_summary (pl_event_count parsed) (pl_last_entry_offset parsed) (pl_sha256_bank parsed))
  end.

Definition pbns_measured_boot_validate_event_log (event_log : pbns_view) (summary : ptr pbns_measured_boot_summary)
  : option (pbns_status * ptr pbns_measured_boot_summary) :=
  match summary with
  | None => Some (PBNS_ERR_ARGUMENT, None)
  | Some _ => '(status, summary) ← validate_event_log event_log; Some (status, Some summary)
  end.

Definition pbns_measured_boot_check_pcr_stability (first : pbns_view) (first_update_counter : Z)
    (second : pbns_view) (second_update_counter : Z) : pbns_status :=
  if (v_ptr first =? 0) || (v_ptr second =? 0) || negb (v_len first =? PBNS_BASELINE_PCR_SNAPSHOT_SIZE)
     || negb (v_len second =? PBNS_BASELINE_PCR_SNAPSHOT_SIZE) then PBNS_ERR_ARGUMENT
  else if (first_update_counter =? second_update_counter) && bytes_eqb (v_data first) (v_data second) then PBNS_OK
  else PBNS_ERR_BUSY.

(** The loop of [locate_event_log_end]: the offset after the entry. *)
Fixpoint events_until (fuel : nat) (algorithms : list pbns_log_algorithm) (last_entry_offset : Z)
  (cursor : pbns_log_cursor) : presult Z :=
  if lc_offset cursor <=? last_entry_offset then
    match fuel with
    | O => Fault
    | S fuel =>
        match parse_event2 algorithms cursor with
        | Parsed _ cursor' =>
            if lc_offset cursor =? last_entry_offset then Parsed (lc_offset cursor') cursor'
            else if last_entry_offset <? lc_offset cursor then Rejected
            else events_until fuel algorithms last_entry_offset cursor'
        | Rejected => Rejected
        | Fault => Fault
        end
    end
  else Rejected.

(** The status and [*event_log_size]. *)
Definition locate_event_log_end (bounded_log : bytes) (last_entry_offset : Z) : option (pbns_status * Z) :=
  header ← parse_header bounded_log;
  match header with
  | inl status => Some (if status_eqb status PBNS_ERR_UNSUPPORTED then status else PBNS_ERR_FORMAT, 0)
  | inr (algorithms, cursor) =>
      if last_entry_offset <? lc_offset cursor then Some (PBNS_ERR_FORMAT, 0)
      else
      match events_until (length bounded_log + 1) algorithms last_entry_offset cursor with
      | Parsed size _ => Some (PBNS_OK, size)
      | Rejected => Some (PBNS_ERR_FORMAT, 0)
      | Fault => None
      end
  end.

Definition pbns_measured_boot_locate_event_log_end (bounded_log : pbns_view) (last_entry_offset : Z)
    (event_log_size : ptr Z) : option (pbns_status * ptr Z) :=
  if (v_ptr bounded_log =? 0) || (v_len bounded_log =? 0)
     || (PBNS_MEASURED_BOOT_EVENT_LOG_MAX_SIZE <? v_len bounded_log)
  then Some (PBNS_ERR_ARGUMENT, event_log_size)
  else
  match event_log_size with
  | None => Some (PBNS_ERR_ARGUMENT, None)
  | Some _ => '(status, size) ← locate_event_log_end (v_data bounded_log) last_entry_offset; Some (status, Some size)
  end.

(** ** Selections *)

Record pbns_measured_boot_selection_item := mk_selection_item { sel_hash_algorithm : Z; sel_pcr_index : Z }.

(** [items] has [count] entries. *)
Record pbns_measured_boot_selection := mk_selection {
  sel_items : ptr (list pbns_measured_boot_selection_item);
  sel_count : Z;
}.

#[export] Instance selection_item_eq_dec : EqDecision pbns_measured_boot_selection_item.
Proof. solve_decision. Defined.

Definition item_out_of_order (previous item : pbns_measured_boot_selection_item) : bool :=
  (sel_hash_algorithm item <? sel_hash_algorithm previous)
  || ((sel_hash_algorithm previous =? sel_hash_algorithm item) && (sel_pcr_index item <=? sel_pcr_index previous)).

(** The loop of [selection_structure]; [previous] is the entry before, if any. *)
Fixpoint selection_items_status (previous : option pbns_measured_boot_selection_item)
    (items : list pbns_measured_boot_selection_item) : pbns_status :=
  match items with
  | [] => PBNS_OK
  | item :: rest =>
      if negb (sel_hash_algorithm item =? PBNS_TPM_ALG_SHA256) then PBNS_ERR_UNSUPPORTED
      else if 24 <=? sel_pcr_index item then PBNS_ERR_ARGUMENT
      else if match previous with Some previous => item_out_of_order previous item | None => false end
      then PBNS_ERR_FORMAT
      else selection_items_status (Some item) rest
  end.

Definition selection_structure (selection : pbns_measured_boot_selection) : option pbns_status :=
  match sel_items selection with
  | None => Some PBNS_ERR_ARGUMENT
  | Some items =>
      if (sel_count selection =? 0) || (PBNS_MEASURED_BOOT_SELECTION_MAX_COUNT <? sel_count selection)
      then Some PBNS_ERR_ARGUMENT
      else items ← rd_slice items 0 (sel_count selection); Some (selection_items_status None items)
  end.

Definition pbns_measured_boot_validate_selection {W} (selection : pbns_measured_boot_selection)
    (policy_allows : ptr (W -> pbns_measured_boot_selection -> bool * W)) (w : W) : option (pbns_status * W) :=
  match policy_allows with
  | None => Some (PBNS_ERR_ARGUMENT, w)
  | Some policy_allows =>
      status ← selection_structure selection;
      if negb (is_ok status) then Some (status, w)
      else
      let '(allowed, w) := policy_allows w selection in
      Some (if allowed : bool then PBNS_OK else PBNS_ERR_AUTHENTICATION, w)
  end.

(** One iteration of the encoding loop. *)
Definition write_item (output : bytes) (offset : Z) (item : pbns_measured_boot_selection_item) : option bytes :=
  output ← wr output offset (u8 (Z.shiftr (sel_hash_algorithm item) 8));
  output ← wr output (offset + 1) (u8 (sel_hash_algorithm item));
  wr output (offset + 2) (sel_pcr_index item).

Fixpoint write_items (output : bytes) (index : Z) (items : list pbns_measured_boot_selection_item) : option bytes :=
  match items with
  | [] => Some output
  | item :: rest =>
      output ← write_item output (index * PBNS_MEASURED_BOOT_CANONICAL_ITEM_SIZE) item;
      write_items output (index + 1) rest
  end.

(** The status, the output and [*written]. *)
Definition encode_canonical_selection (selection : pbns_measured_boot_selection) (output : bytes)
  : option (pbns_status * bytes * Z) :=
  status ← selection_structure selection;
  if negb (is_ok status) then Some (status, output, 0)
  else
  let required := sel_count selection * PBNS_MEASURED_BOOT_CANONICAL_ITEM_SIZE in
  if zlen output <? required then Some (PBNS_ERR_LIMIT, output, 0)
  else
  items ← sel_items selection;
  items ← rd_slice items 0 (sel_count selection);
  output ← write_items output 0 items;
  Some (PBNS_OK, output, required).

Definition pbns_measured_boot_encode_canonical_selection (selection : pbns_measured_boot_selection)
    (output : pbns_buffer) (written : ptr Z) : option (pbns_status * bytes * ptr Z) :=
  match written with
  | None => Some (PBNS_ERR_ARGUMENT, b_data output, None)
  | Some _ =>
      if (b_ptr output =? 0) || negb (b_len output =? 0) then Some (PBNS_ERR_ARGUMENT, b_data output, written)
      else
      '(status, data, n) ← encode_canonical_selection selection (b_data output);
      Some (status, data, Some n)
  end.

(** ** Final events *)

Fixpoint final_events_loop (count : nat) (algorithms : list pbns_log_algorithm) : parser unit :=
  match count with
  | O => mret tt
  | S count => _ ← parse_event2 algorithms; final_events_loop count algorithms
  end.

(** The events as a view, their number and the size of the table. *)
Definition parse_final_events_bounded (table : pbns_view) (base : pbns_parsed_log) (require_exact : bool)
  : option (pbns_status + pbns_view * Z * Z) :=
  if v_len table =? 0 then
    Some (if v_ptr table =? 0 then inr (null_view, 0, 0) else inl PBNS_ERR_ARGUMENT)
  else if (v_ptr table =? 0) || (v_len table <? PBNS_TCG_FINAL_EVENTS_HEADER_SIZE)
          || (PBNS_MEASURED_BOOT_EVENT_LOG_MAX_SIZE + PBNS_TCG_FINAL_EVENTS_HEADER_SIZE <? v_len table)
  then Some (inl PBNS_ERR_FORMAT)
  else
  version ← load_u64 (v_data table) 0;
  if negb (version =? PBNS_TCG_FINAL_EVENTS_VERSION) then Some (inl PBNS_ERR_FORMAT)
  else
  count ← load_u64 (v_data table) 8;
  if PBNS_MEASURED_BOOT_EVENT_LOG_MAX_SIZE <? count then Some (inl PBNS_ERR_LIMIT)
  else
  let input := drop (Z.to_nat PBNS_TCG_FINAL_EVENTS_HEADER_SIZE) (v_data table) in
  match final_events_loop (Z.to_nat count) (pl_algorithms base) (mk_cursor input 0) with
  | Fault => None
  | Rejected => Some (inl PBNS_ERR_FORMAT)
  | Parsed _ cursor =>
      if require_exact && negb (lc_offset cursor =? zlen input) then Some (inl PBNS_ERR_FORMAT)
      else
      Some (inr (mk_view (v_ptr table + PBNS_TCG_FINAL_EVENTS_HEADER_SIZE) (slice input 0 (lc_offset cursor)), count,
                 PBNS_TCG_FINAL_EVENTS_HEADER_SIZE + lc_offset cursor))
  end.

(** The loop of [final_events_exact_suffix]: [Some b] is the value of
    [*exact_suffix], [None] the early return that leaves it false. *)
Fixpoint suffix_loop (fuel : nat) (algorithms : list pbns_log_algorithm) (suffix_start : Z) (boundary_seen : bool)
  (suffix_count : Z) (cursor : pbns_log_cursor) : presult (option (bool * Z)) :=
  if lc_offset cursor <? zlen (lc_input cursor) then
    match fuel with
    | O => Fault
    | S fuel =>
        let seen := boundary_seen || (lc_offset cursor =? suffix_start) in
        if negb seen && (suffix_start <? lc_offset cursor) then Parsed None cursor
        else
        match parse_event2 algorithms cursor with
        | Parsed _ cursor' =>
            suffix_loop fuel algorithms suffix_start seen (if seen then suffix_count + 1 else suffix_count) cursor'
        | Rejected => Rejected
        | Fault => Fault
        end
    end
  else Parsed (Some (boundary_seen, suffix_count)) cursor.

(** The status and [*exact_suffix]. *)
Definition final_events_exact_suffix `{Machine} (base_log final_events_table : pbns_view) : option (pbns_status * bool) :=
  base ← parse_log base_log;
  match base with
  | inl status => Some (status, false)
  | inr base =>
  final ← parse_final_events_bounded final_events_table base true;
  match final with
  | inl status => Some (status, false)
  | inr (final_events, final_count, _) =>
      if (final_count =? 0) || (v_len base_log <? v_len final_events) then Some (PBNS_OK, false)
      else if (UINTPTR_MAX - v_ptr base_log <? v_len base_log) || (UINTPTR_MAX - v_ptr final_events <? v_len final_events)
              || negb (v_ptr final_events =? v_ptr base_log + v_len base_log - v_len final_events)
      then Some (PBNS_OK, false)
      else
      header ← parse_header (v_data base_log);
      match header with
      | inl status => Some (status, false)
      | inr (algorithms, cursor) =>
          match suffix_loop (length (v_data base_log)) algorithms (v_len base_log - v_len final_events) false 0 cursor with
          | Fault => None
          | Rejected => Some (PBNS_ERR_FORMAT, false)
          | Parsed None _ => Some (PBNS_OK, false)
          | Parsed (Some (boundary_seen, suffix_count)) _ =>
              Some (PBNS_OK, boundary_seen && (suffix_count =? final_count))
          end
      end
  end end.

Definition pbns_measured_boot_final_events_exact_suffix `{Machine} (base_log final_events_table : pbns_view)
    (exact_suffix : ptr bool) : option (pbns_status * ptr bool) :=
  match exact_suffix with
  | None => Some (PBNS_ERR_ARGUMENT, None)
  | Some _ => '(status, exact) ← final_events_exact_suffix base_log final_events_table; Some (status, Some exact)
  end.

Definition pbns_measured_boot_locate_final_events_end (base_log bounded_final_events_table : pbns_view)
    (final_events_table_size : ptr Z) : option (pbns_status * ptr Z) :=
  match final_events_table_size with
  | None => Some (PBNS_ERR_ARGUMENT, None)
  | Some _ =>
      base ← parse_log base_log;
      match base with
      | inl status => Some (status, Some 0)
      | inr base =>
          final ← parse_final_events_bounded bounded_final_events_table base false;
          match final with
          | inl status => Some (status, Some 0)
          | inr (_, _, size) => Some (PBNS_OK, Some size)
          end
      end
  end.

(** ** Snapshots of the platform registers *)

Record pbns_measured_boot_pcr_value := mk_pcr_value {
  pv_selection : pbns_measured_boot_selection_item;
  pv_digest : bytes;
  pv_digest_size : Z;
}.

(** The array of values has 24 entries. *)
Record pbns_measured_boot_pcr_snapshot := mk_snapshot {
  ps_values : list pbns_measured_boot_pcr_value;
  ps_count : Z;
  ps_update_counter : Z;
}.

Definition zero_pcr_value : pbns_measured_boot_pcr_value := mk_pcr_value (mk_selection_item 0 0) (replicate 32 0) 0.
Definition zero_snapshot : pbns_measured_boot_pcr_snapshot := mk_snapshot (replicate 24 zero_pcr_value) 0 0.

Definition same_selection (left right : pbns_measured_boot_selection_item) : bool :=
  (sel_hash_algorithm left =? sel_hash_algorithm right) && (sel_pcr_index left =? sel_pcr_index right).

Fixpoint snapshot_matches (values : list pbns_measured_boot_pcr_value) (items : list pbns_measured_boot_selection_item)
  : option bool :=
  match items, values with
  | [], _ => Some true
  | _ :: _, [] => None
  | item :: items, value :: values =>
      if negb (same_selection (pv_selection value) item)
         || negb (pv_digest_size value =? PBNS_MEASURED_BOOT_DIGEST_SIZE) then Some false
      else snapshot_matches values items
  end.

Definition validate_snapshot (snapshot : pbns_measured_boot_pcr_snapshot) (selection : pbns_measured_boot_selection)
  : option pbns_status :=
  if negb (ps_count snapshot =? sel_count selection) then Some PBNS_ERR_FORMAT
  else
  items ← sel_items selection;
  items ← rd_slice items 0 (sel_count selection);
  matches ← snapshot_matches (ps_values snapshot) items;
  Some (if matches : bool then PBNS_OK else PBNS_ERR_FORMAT).

Definition pcr_values_equal (left right : pbns_measured_boot_pcr_value) : bool :=
  same_selection (pv_selection left) (pv_selection right) && (pv_digest_size left =? pv_digest_size right)
  && bytes_eqb (pv_digest left) (pv_digest right).

Fixpoint values_equal (count : nat) (ls rs : list pbns_measured_boot_pcr_value) : option bool :=
  match count with
  | O => Some true
  | S count =>
      match ls, rs with
      | l :: ls, r :: rs => if pcr_values_equal l r then values_equal count ls rs else Some false
      | _, _ => None
      end
  end.

Definition snapshots_equal (left right : pbns_measured_boot_pcr_snapshot) : option bool :=
  if negb (ps_count left =? ps_count right) || negb (ps_update_counter left =? ps_update_counter right) then Some false
  else values_equal (Z.to_nat (ps_count left)) (ps_values left) (ps_values right).

(** ** Capture *)

Inductive pbns_measured_boot_final_disposition :=
| PBNS_MEASURED_BOOT_FINAL_NONE
| PBNS_MEASURED_BOOT_FINAL_APPEND
| PBNS_MEASURED_BOOT_FINAL_ALREADY_INCLUDED_EXACT
| final_disposition_other (value : Z).

Record pbns_measured_boot_event_source := mk_event_source {
  es_base_log : pbns_view;
  es_final_events_table : pbns_view;
  es_final_disposition : pbns_measured_boot_final_disposition;
  es_truncated : bool;
}.

Record pbns_measured_boot_capture_input (W : Type) := mk_capture_input {
  mi_selection : pbns_measured_boot_selection;
  mi_event_log_read : ptr (W -> pbns_status * pbns_measured_boot_event_source * W);
  mi_pcr_read : ptr (W -> pbns_measured_boot_selection -> pbns_measured_boot_pcr_snapshot
                     -> pbns_status * pbns_measured_boot_pcr_snapshot * W);
  mi_sha256 : ptr (W -> bytes -> bytes -> pbns_status * bytes * W);
  mi_policy_allows : ptr (W -> pbns_measured_boot_selection -> bool * W);
}.
Arguments mk_capture_input {W}.
Arguments mi_selection {W}.
Arguments mi_event_log_read {W}.
Arguments mi_pcr_read {W}.
Arguments mi_sha256 {W}.
Arguments mi_policy_allows {W}.

Record pbns_measured_boot_evidence := mk_evidence {
  me_event_log : pbns_view;
  me_event_log_digest : bytes;
  me_selection_digest : bytes;
  me_pcrs : list pbns_measured_boot_pcr_value;
  me_pcr_count : Z;
  me_event_count : Z;
  me_pcr_update_counter : Z;
  me_event_log_capture_ms : Z;
  me_pcr_read_ms : Z;
}.

Definition zero_digest : bytes := replicate 32 0.
Definition zero_evidence : pbns_measured_boot_evidence :=
  mk_evidence null_view zero_digest zero_digest (replicate 24 zero_pcr_value) 0 0 0 0 0.

(** The two loops of [move_bytes], by the order of the addresses. *)
Fixpoint copy_backward (destination : bytes) (offset : Z) (source : bytes) (length : nat) : option bytes :=
  match length with
  | O => Some destination
  | S length =>
      b ← rd source (Z.of_nat length);
      destination ← wr destination (offset + Z.of_nat length) b;
      copy_backward destination offset source length
  end.

Definition move_bytes (destination_address : Z) (destination : bytes) (offset source_address : Z) (source : bytes)
  : option bytes :=
  if (source_address <? destination_address) && (destination_address - source_address <? zlen source)
  then copy_backward destination offset source (length source)
  else wr_list destination offset source.

Definition uptr_add `{Machine} (a b : Z) : Z := (a + b) mod (UINTPTR_MAX + 1).

Definition range_valid `{Machine} (pointer length : Z) : bool :=
  negb (pointer =? 0) && (length <=? UINTPTR_MAX - pointer).

Definition mb_ranges_overlap `{Machine} (left left_length right right_length : Z) : bool :=
  if (left_length =? 0) || (right_length =? 0) then false
  else (left <? uptr_add right right_length) && (right <? uptr_add left left_length).

Definition disposition_has_final (d : pbns_measured_boot_final_disposition) : bool :=
  match d with
  | PBNS_MEASURED_BOOT_FINAL_APPEND | PBNS_MEASURED_BOOT_FINAL_ALREADY_INCLUDED_EXACT => true
  | _ => false
  end.

(** The tests of the event source. *)
Definition source_accepted `{Machine} (arena : pbns_buffer) (source : pbns_measured_boot_event_source) : bool :=
  let table := es_final_events_table source in
  let base := es_base_log source in
  let no_final := match es_final_disposition source with PBNS_MEASURED_BOOT_FINAL_NONE => true | _ => false end in
  let has_final := disposition_has_final (es_final_disposition source) in
  negb ((negb no_final && negb has_final)
        || (no_final && (negb (v_ptr table =? 0) || negb (v_len table =? 0)))
        || (has_final && ((v_ptr table =? 0) || (v_len table =? 0)))
        || negb (range_valid (v_ptr base) (v_len base))
        || (has_final && negb (range_valid (v_ptr table) (v_len table)))
        || mb_ranges_overlap (b_ptr arena) (b_cap arena) (v_ptr base) (v_len base)
        || (has_final && mb_ranges_overlap (b_ptr arena) (b_cap arena) (v_ptr table) (v_len table))).

(** [secure_zero(arena.ptr, copied)] *)
Definition zero_prefix (arena : bytes) (copied : Z) : bytes :=
  replicate (Z.to_nat copied) 0 ++ drop (Z.to_nat copied) arena.

Section capture.
Context `{Machine} {W : Type}.
Implicit Types (input : pbns_measured_boot_capture_input W) (w : W).

(** The log that is captured: [inl] is the status and how much of the arena is zeroed. *)
Definition assemble_log (source : pbns_measured_boot_event_source) (arena : pbns_buffer)
  : option (pbns_status * Z * bytes + bytes * bytes * Z) :=
  let base_log := es_base_log source in
  let all status := Some (inl (status, b_cap arena, b_data arena)) in
  base ← parse_log base_log;
  match base with
  | inl status => all status
  | inr base =>
  final ← (if disposition_has_final (es_final_disposition source)
           then parse_final_events_bounded (es_final_events_table source) base true
           else Some (inr (null_view, 0, 0)));
  match final with
  | inl status => all status
  | inr (final_events, _, _) =>
      let append_size := match es_final_disposition source with
                         | PBNS_MEASURED_BOOT_FINAL_APPEND => v_len final_events | _ => 0 end in
      if (PBNS_MEASURED_BOOT_EVENT_LOG_MAX_SIZE - v_len base_log <? append_size)
         || (b_cap arena <? v_len base_log + append_size) then all PBNS_ERR_LIMIT
      else
      data ← move_bytes (b_ptr arena) (b_data arena) 0 (v_ptr base_log) (v_data base_log);
      data ← (if negb (append_size =? 0)
              then move_bytes (b_ptr arena + v_len base_log) data (v_len base_log) (v_ptr final_events) (v_data final_events)
              else Some data);
      let complete_size := v_len base_log + append_size in
      complete ← rd_slice data 0 complete_size;
      '(status, summary) ← validate_event_log (mk_view (b_ptr arena) complete);
      if negb (is_ok status) then Some (inl (status, complete_size, data))
      else Some (inr (data, complete, ms_event_count summary))
  end end.

(** The digests of the log and of the selection. *)
Definition capture_digests input (complete : bytes) w : option (pbns_status * bytes * bytes * W) :=
  '(status, canonical, canonical_size) ← encode_canonical_selection (mi_selection input) (replicate 72 0);
  if negb (is_ok status) then Some (status, zero_digest, zero_digest, w)
  else
  sha256 ← mi_sha256 input;
  let '(status, log_digest, w) := sha256 w complete zero_digest in
  if negb (is_ok status) then Some (status, log_digest, zero_digest, w)
  else
  canonical ← rd_slice canonical 0 canonical_size;
  let '(status, selection_digest, w) := sha256 w canonical zero_digest in
  Some (status, log_digest, selection_digest, w).

Definition read_snapshot input (retry_used : bool) w
  : option (pbns_status * pbns_measured_boot_pcr_snapshot * bool * W) :=
  pcr_read ← mi_pcr_read input;
  let '(status, snapshot, w) := pcr_read w (mi_selection input) zero_snapshot in
  let '(status, snapshot, retry_used, w) :=
    if status_eqb status PBNS_ERR_BUSY && negb retry_used
    then let '(status, snapshot, w) := pcr_read w (mi_selection input) zero_snapshot in (status, snapshot, true, w)
    else (status, snapshot, retry_used, w) in
  if negb (is_ok status) then Some (status, zero_snapshot, retry_used, w)
  else status ← validate_snapshot snapshot (mi_selection input); Some (status, snapshot, retry_used, w).

(** Two readings in a row that agree; the second pair is the last. *)
Definition stable_snapshot input w : option (pbns_status * pbns_measured_boot_pcr_snapshot * W) :=
  '(status, first, retry_used, w) ← read_snapshot input false w;
  if negb (is_ok status) then Some (status, zero_snapshot, w)
  else
  '(status, second, retry_used, w) ← read_snapshot input retry_used w;
  if negb (is_ok status) then Some (status, zero_snapshot, w)
  else
  equal ← snapshots_equal first second;
  if equal : bool then Some (PBNS_OK, second, w)
  else
  '(status, third, _, w) ← read_snapshot input retry_used w;
  if negb (is_ok status) then Some (status, zero_snapshot, w)
  else
  equal ← snapshots_equal second third;
  if equal : bool then Some (PBNS_OK, third, w) else Some (PBNS_ERR_BUSY, zero_snapshot, w).

(** The status, the arena, [*evidence] and the world. *)
Definition capture_evidence input (arena : pbns_buffer) w
  : option (pbns_status * bytes * pbns_measured_boot_evidence * W) :=
  let fail status copied data w := Some (status, zero_prefix data copied, zero_evidence, w) in
  '(status, w) ← pbns_measured_boot_validate_selection (mi_selection input) (mi_policy_allows input) w;
  if negb (is_ok status) then fail status (b_cap arena) (b_data arena) w
  else
  event_log_read ← mi_event_log_read input;
  let '(status, source, w) := event_log_read w in
  if negb (is_ok status) then fail status (b_cap arena) (b_data arena) w
  else if es_truncated source then fail PBNS_ERR_LIMIT (b_cap arena) (b_data arena) w
  else if negb (source_accepted arena source) then fail PBNS_ERR_FORMAT (b_cap arena) (b_data arena) w
  else
  assembled ← assemble_log source arena;
  match assembled with
  | inl (status, copied, data) => fail status copied data w
  | inr (data, complete, event_count) =>
      '(status, log_digest, selection_digest, w) ← capture_digests input complete w;
      if negb (is_ok status) then fail status (zlen complete) data w
      else
      '(status, snapshot, w) ← stable_snapshot input w;
      if negb (is_ok status) then fail status (zlen complete) data w
      else
      pcrs ← rd_slice (ps_values snapshot) 0 (ps_count snapshot);
      Some (PBNS_OK, data,
            mk_evidence (mk_view (b_ptr arena) complete) log_digest selection_digest
              (splice (replicate 24 zero_pcr_value) 0 pcrs) (ps_count snapshot) event_count
              (ps_update_counter snapshot) 0 0, w)
  end.

Definition pbns_measured_boot_capture_evidence (input : ptr (pbns_measured_boot_capture_input W)) (arena : pbns_buffer)
    (evidence : ptr pbns_measured_boot_evidence) w
  : option (pbns_status * bytes * ptr pbns_measured_boot_evidence * W) :=
  let zeroed := (fun _ => zero_evidence) <$> evidence in
  match input, evidence with
  | Some input, Some _ =>
      if (b_ptr arena =? 0) || negb (b_len arena =? 0) || (b_cap arena =? 0) || negb (range_valid (b_ptr arena) (b_cap arena))
         || match mi_event_log_read input, mi_pcr_read input, mi_sha256 input, mi_policy_allows input with
            | Some _, Some _, Some _, Some _ => false | _, _, _, _ => true end
      then Some (PBNS_ERR_ARGUMENT, b_data arena, zeroed, w)
      else
      '(status, data, evidence, w) ← capture_evidence input arena w;
      Some (status, data, Some evidence, w)
  | _, _ => Some (PBNS_ERR_ARGUMENT, b_data arena, zeroed, w)
  end.
End capture.
