(* ===== verification/MeasuredLog.v ===== *)
(** * The grammar of event logs

    The event log as an abstract structure with its serialization, a small logic
    for the cursor parser, and the proof that the parser accepts exactly the
    serializations of well-formed logs. *)

From stdpp Require Import base list numbers.
From Stdlib Require Import ZArith Lia.
From S2P Require Import Prelude Endian Status Buffers MeasuredBoot.

(** ** Little-endian integers *)

Fixpoint le_bytes (n : nat) (v : Z) : bytes :=
  match n with
  | O => []
  | S n => u8 v :: le_bytes n (Z.shiftr v 8)
  end.

Definition le_value (l : bytes) : Z := foldr (fun b v => b + 256 * v) 0 l.

Lemma le_bytes_length n v : length (le_bytes n v) = n.
Proof. revert v. induction n; intros v; cbn; congruence. Qed.

Lemma le_bytes_ok n v : bytes_ok (le_bytes n v).
Proof. revert v. induction n as [|n IH]; intros v; constructor; [apply u8_byte|apply IH]. Qed.

#[export] Hint Resolve le_bytes_ok : pbns.

Lemma le_value_cons b l : le_value (b :: l) = b + 256 * le_value l.
Proof. done. Qed.

Lemma le_value_bound l : bytes_ok l -> 0 <= le_value l < 256 ^ zlen l.
Proof.
  induction 1 as [|b l Hb _ IH]; [done|]. rewrite le_value_cons. cbn [length]. unfold is_byte in Hb.
  rewrite Nat2Z.inj_succ, Z.pow_succ_r by lia. lia.
Qed.

Lemma le_value_bytes n v : 0 <= v < 256 ^ Z.of_nat n -> le_value (le_bytes n v) = v.
Proof.
  revert v. induction n as [|n IH]; intros v Hv; [cbn in *; lia|]. cbn [le_bytes]. rewrite le_value_cons.
  rewrite Nat2Z.inj_succ, Z.pow_succ_r in Hv by lia. rewrite Z.shiftr_div_pow2 by lia. change (2 ^ 8) with 256.
  rewrite IH by (split; [apply Z.div_pos; lia|apply Z.div_lt_upper_bound; lia]).
  unfold u8. change (2 ^ 8) with 256. pose proof (Z.div_mod v 256 ltac:(lia)). lia.
Qed.

Lemma le_bytes_value l : bytes_ok l -> le_bytes (length l) (le_value l) = l.
Proof.
  induction 1 as [|b l Hb _ IH]; [done|]. cbn [length le_bytes]. rewrite le_value_cons. unfold is_byte in Hb. f_equal.
  - unfold u8. change (2 ^ 8) with 256. rewrite Z.mul_comm, Z.mod_add by lia. apply Z.mod_small. lia.
  - rewrite Z.shiftr_div_pow2 by lia. change (2 ^ 8) with 256. rewrite Z.mul_comm, Z.div_add by lia.
    rewrite Z.div_small by lia. done.
Qed.

(** Disjoint bits are added. *)
Lemma lor_high low high k : 0 <= k -> 0 <= low < 2 ^ k -> Z.lor low (Z.shiftl high k) = low + 2 ^ k * high.
Proof.
  intros Hk Hl. rewrite <- Z.lxor_lor, <- Z.add_nocarry_lxor.
  - rewrite Z.shiftl_mul_pow2 by lia. lia.
  - apply Z.bits_inj'. intros n Hn. rewrite Z.land_spec, Z.bits_0, Z.shiftl_spec by lia. destruct (Z.ltb_spec n k).
    + rewrite (Z.testbit_neg_r high) by lia. apply andb_false_r.
    + replace low with (low mod 2 ^ k) by (apply Z.mod_small; lia). by rewrite Z.mod_pow2_bits_high by lia.
  - apply Z.bits_inj'. intros n Hn. rewrite Z.land_spec, Z.bits_0, Z.shiftl_spec by lia. destruct (Z.ltb_spec n k).
    + rewrite (Z.testbit_neg_r high) by lia. apply andb_false_r.
    + replace low with (low mod 2 ^ k) by (apply Z.mod_small; lia). by rewrite Z.mod_pow2_bits_high by lia.
Qed.

Lemma load_u16_value l off :
  bytes_ok l -> 0 <= off -> off + 2 <= zlen l -> load_u16 l off = Some (le_value (slice l off 2)).
Proof.
  intros Hl Hoff Hfit. unfold load_u16.
  destruct (rd_some l off) as [b0 E0]; [lia|]. destruct (rd_some l (off + 1)) as [b1 E1]; [lia|].
  assert (E : slice l off 2 = [b0; b1]).
  { rewrite (slice_cons _ _ _ b0) by (done || lia). by rewrite (slice_cons _ _ _ b1) by (done || lia). }
  rewrite E0, E1. cbn [mbind option_bind]. rewrite E.
  assert (Hok : bytes_ok [b0; b1]) by (rewrite <- E; auto with pbns). apply bytes_ok_cons in Hok as [H0 Hok].
  apply bytes_ok_cons in Hok as [H1 _]. unfold is_byte in *. rewrite lor_high by lia.
  unfold u16. rewrite Z.mod_small by lia. f_equal. cbn. lia.
Qed.

Lemma load_u32_value l off :
  bytes_ok l -> 0 <= off -> off + 4 <= zlen l -> load_u32 l off = Some (le_value (slice l off 4)).
Proof.
  intros Hl Hoff Hfit. unfold load_u32.
  destruct (rd_some l off) as [b0 E0]; [lia|]. destruct (rd_some l (off + 1)) as [b1 E1]; [lia|].
  destruct (rd_some l (off + 2)) as [b2 E2]; [lia|]. destruct (rd_some l (off + 3)) as [b3 E3]; [lia|].
  assert (E : slice l off 4 = [b0; b1; b2; b3]).
  { rewrite (slice_cons _ _ _ b0) by (done || lia). rewrite (slice_cons _ _ _ b1) by (done || lia).
    rewrite (slice_cons _ _ _ b2) by (rewrite <- ?E2; f_equal; lia).
    by rewrite (slice_cons _ _ _ b3) by (rewrite <- ?E3; f_equal; lia). }
  rewrite E0, E1, E2, E3. cbn [mbind option_bind]. rewrite E.
  assert (Hok : bytes_ok [b0; b1; b2; b3]) by (rewrite <- E; auto with pbns). unfold bytes_ok in Hok.
  apply Forall_cons_iff in Hok as [H0 Hok]. apply Forall_cons_iff in Hok as [H1 Hok]. apply Forall_cons_iff in Hok as [H2 Hok].
  apply Forall_cons_iff in Hok as [H3 _]. unfold is_byte in *. rewrite (lor_high b0 b1 8) by lia. rewrite (lor_high _ b2 16), (lor_high _ b3 24) by lia. f_equal. cbn. lia.
Qed.

Lemma load_u64_value l off :
  bytes_ok l -> 0 <= off -> off + 8 <= zlen l -> load_u64 l off = Some (le_value (slice l off 8)).
Proof.
  intros Hl Hoff Hfit. unfold load_u64. rewrite !load_u32_value by (done || lia). cbn [mbind option_bind].
  pose proof (le_value_bound (slice l off 4) ltac:(auto with pbns)) as B0.
  pose proof (le_value_bound (slice l (off + 4) 4) ltac:(auto with pbns)) as B1.
  rewrite slice_length in B0, B1 by lia. change (256 ^ 4) with (2 ^ 32) in *.
  rewrite u64_small by (rewrite Z.shiftl_mul_pow2 by lia; unfold UINT64_MAX; lia). rewrite lor_high by lia. f_equal.
  change 8 with (4 + 4). rewrite slice_split by lia.
  assert (Happ : forall a b, le_value (a ++ b) = le_value a + 256 ^ zlen a * le_value b).
  { intros a b. induction a as [|x a IH]; [change (le_value b = 0 + 256 ^ 0 * le_value b); lia|].
    cbn [app length]. rewrite !le_value_cons, IH.
    rewrite Nat2Z.inj_succ, Z.pow_succ_r by lia. lia. }
  rewrite Happ, slice_length by lia. change (256 ^ 4) with (2 ^ 32). lia.
Qed.

(** ** A logic for the parser *)

(** A cursor between the octets that were taken and those that were not. *)
Definition cursor_at (pre post : bytes) : pbns_log_cursor := mk_cursor (pre ++ post) (zlen pre).

(** [parses p R]: the parser takes a run [m] with result [x] exactly when [R x m],
    whatever comes before and after, and never faults. *)
Record parses {A} (p : parser A) (R : A -> bytes -> Prop) : Prop := {
  parses_sound pre post x c : bytes_ok post -> p (cursor_at pre post) = Parsed x c ->
    exists m post', post = m ++ post' /\ c = cursor_at (pre ++ m) post' /\ R x m;
  parses_complete pre m post x : bytes_ok (m ++ post) -> R x m ->
    p (cursor_at pre (m ++ post)) = Parsed x (cursor_at (pre ++ m) post);
  parses_total pre post : bytes_ok post -> p (cursor_at pre post) <> Fault;
}.

Section logic.
Context {A B : Type}.
Implicit Types (p : parser A) (f : A -> parser B).

Lemma parses_weaken p R R' : (forall x m, bytes_ok m -> R x m <-> R' x m) -> parses p R -> parses p R'.
Proof.
  intros HR [Hs Hc Ht]. constructor; [|intros pre m post x Hok Hx|done].
  - intros pre post x c Hok E. destruct (Hs _ _ _ _ Hok E) as (m & post' & -> & -> & Hm). exists m, post'.
    apply bytes_ok_app in Hok as [Hok _]. split; [done|]. split; [done|]. by apply HR.
  - apply Hc; [done|]. apply HR; [by apply bytes_ok_app in Hok as [? _]|done].
Qed.

Lemma parses_ret (x : A) : parses (mret x) (fun y m => y = x /\ m = []).
Proof.
  constructor; [|intros pre m post y _ [-> ->]|by intros].
  - intros pre post y c Hok [= <- <-]. exists [], post. rewrite app_nil_r. done.
  - by rewrite app_nil_r.
Qed.

Lemma parses_reject : parses (@reject A) (fun _ _ => False).
Proof. by constructor. Qed.

Lemma parses_load (o : option A) x : o = Some x -> parses (load o) (fun y m => y = x /\ m = []).
Proof. intros ->. apply parses_ret. Qed.

Lemma parses_bind p f R S :
  parses p R -> (forall x m, R x m -> bytes_ok m -> parses (f x) (S x)) ->
  parses (x ← p; f x) (fun y m => exists x m1 m2, m = m1 ++ m2 /\ R x m1 /\ S x y m2).
Proof.
  intros [Hs Hc Ht] Hf. constructor.
  - intros pre post y c Hok E. unfold mbind, parser_bind in E. destruct (p (cursor_at pre post)) as [x c1| |] eqn:Ep; try done.
    destruct (Hs _ _ _ _ Hok Ep) as (m1 & post1 & -> & -> & Hm1). apply bytes_ok_app in Hok as [Hok1 Hok2].
    destruct (parses_sound _ _ (Hf x m1 Hm1 Hok1) _ _ _ _ Hok2 E) as (m2 & post2 & -> & -> & Hm2).
    exists (m1 ++ m2), post2. rewrite <- !app_assoc. split; [done|]. split; [done|]. by exists x, m1, m2.
  - intros pre m post y Hok (x & m1 & m2 & -> & Hm1 & Hm2). unfold mbind, parser_bind. rewrite <- app_assoc in Hok |- *.
    rewrite (Hc _ _ _ x Hok Hm1). apply bytes_ok_app in Hok as [Hok1 Hok2].
    rewrite (parses_complete _ _ (Hf x m1 Hm1 Hok1) _ _ _ y Hok2 Hm2). by rewrite <- !app_assoc.
  - intros pre post Hok. unfold mbind, parser_bind. destruct (p (cursor_at pre post)) as [x c1| |] eqn:Ep; [|done|by destruct (Ht pre post)].
    destruct (Hs _ _ _ _ Hok Ep) as (m1 & post1 & -> & -> & Hm1). apply bytes_ok_app in Hok as [Hok1 Hok2].
    by apply (parses_total _ _ (Hf x m1 Hm1 Hok1)).
Qed.
End logic.

Lemma parses_require b : parses (require b) (fun _ m => b = true /\ m = []).
Proof.
  destruct b; [|by constructor; [..|intros]; naive_solver]. eapply parses_weaken; [|apply (parses_ret tt)].
  intros [] m _. naive_solver.
Qed.

Lemma parses_take n : 0 <= n -> parses (log_take n) (fun x m => x = m /\ zlen m = n).
Proof.
  intros Hn. constructor.
  - intros pre post x c _ E. unfold log_take, cursor_at in E. cbn [lc_input lc_offset] in E.
    destruct (_ || _) eqn:Eb; [done|]. injection E as <- <-. bools. lens.
    assert (Hf : n <= zlen post) by lia. exists (take (Z.to_nat n) post), (drop (Z.to_nat n) post).
    split; [by rewrite take_drop|]. unfold cursor_at. rewrite <- app_assoc, take_drop. split; [f_equal; lens; lia|].
    split; [|rewrite length_take; lia]. unfold slice. by rewrite Nat2Z.id, drop_app_length.
  - intros pre m post x _ [-> Hm]. unfold log_take, cursor_at. cbn [lc_input lc_offset].
    rewrite (proj2 (Z.ltb_ge _ _)), (proj2 (Z.ltb_ge _ _)) by llia. cbn [orb]. rewrite slice_app by done.
    f_equal. rewrite <- app_assoc. f_equal. llia.
  - intros pre post _. unfold log_take. by destruct (_ || _).
Qed.

Lemma parses_u16 : parses read_u16 (fun v m => 0 <= v < 2 ^ 16 /\ m = le_bytes 2 v).
Proof.
  eapply parses_weaken; [|apply parses_bind; [apply parses_take; lia|]].
  2: { intros x m [-> Hm] Hok. apply parses_load. rewrite load_u16_value by (done || lia). by rewrite slice_all by lia. }
  intros v m Hok. split.
  - intros (x & m1 & m2 & -> & [-> Hm] & [-> ->]). rewrite app_nil_r in *. pose proof (le_value_bound m1 Hok) as Hb.
    rewrite Hm in Hb. change (256 ^ 2) with (2 ^ 16) in Hb. split; [done|]. replace 2%nat with (length m1) by lia.
    by rewrite le_bytes_value.
  - intros [Hv ->]. exists (le_bytes 2 v), (le_bytes 2 v), []. rewrite app_nil_r. rewrite le_bytes_length.
    rewrite le_value_bytes by (cbn; lia). done.
Qed.

Lemma parses_u32 : parses read_u32 (fun v m => 0 <= v < 2 ^ 32 /\ m = le_bytes 4 v).
Proof.
  eapply parses_weaken; [|apply parses_bind; [apply parses_take; lia|]].
  2: { intros x m [-> Hm] Hok. apply parses_load. rewrite load_u32_value by (done || lia). by rewrite slice_all by lia. }
  intros v m Hok. split.
  - intros (x & m1 & m2 & -> & [-> Hm] & [-> ->]). rewrite app_nil_r in *. pose proof (le_value_bound m1 Hok) as Hb.
    rewrite Hm in Hb. change (256 ^ 4) with (2 ^ 32) in Hb. split; [done|]. replace 4%nat with (length m1) by lia.
    by rewrite le_bytes_value.
  - intros [Hv ->]. exists (le_bytes 4 v), (le_bytes 4 v), []. rewrite app_nil_r. rewrite le_bytes_length.
    rewrite le_value_bytes by (cbn; lia). done.
Qed.

(** ** Events *)

(** An event: the register, the type, a digest per algorithm and the data. *)
Record log_event := mk_event {
  ev_pcr : Z;
  ev_type : Z;
  ev_digests : list (Z * bytes);
  ev_data : bytes;
}.

Definition digest_octets (d : Z * bytes) : bytes := le_bytes 2 (fst d) ++ snd d.

Definition event_octets (e : log_event) : bytes :=
  (le_bytes 4 (ev_pcr e) ++ le_bytes 4 (ev_type e) ++ le_bytes 4 (zlen (ev_digests e)))
  ++ concat (digest_octets <$> ev_digests e) ++ le_bytes 4 (zlen (ev_data e)) ++ ev_data e.

Definition digest_ok (algorithms : list pbns_log_algorithm) (d : Z * bytes) : Prop :=
  0 <= fst d < 2 ^ 16 /\ algorithm_size algorithms (fst d) = Some (zlen (snd d)).

Definition has_sha256 (ds : list (Z * bytes)) : bool := existsb (fun d => is_sha256 (fst d) (zlen (snd d))) ds.

(** Well-formed events: a register of the platform, one digest for each of some of
    the announced algorithms, SHA-256 among them. *)
Definition event_ok (algorithms : list pbns_log_algorithm) (e : log_event) : Prop :=
  0 <= ev_pcr e < 24 /\ 0 <= ev_type e < 2 ^ 32 /\ 1 <= zlen (ev_digests e) <= 16
  /\ Forall (digest_ok algorithms) (ev_digests e) /\ NoDup (fst <$> ev_digests e)
  /\ has_sha256 (ev_digests e) = true /\ zlen (ev_data e) < 2 ^ 32.

Definition sizes_ok (algorithms : list pbns_log_algorithm) : Prop := Forall (fun a => 0 < la_digest_size a) algorithms.

Lemma algorithm_size_pos algorithms identifier n :
  sizes_ok algorithms -> algorithm_size algorithms identifier = Some n -> 0 < n.
Proof.
  induction 1 as [|a algorithms Ha _ IH]; cbn; [done|]. destruct (_ =? _); [by intros [= <-]|auto].
Qed.

Lemma identifier_seen_spec seen identifier : identifier_seen seen identifier = true <-> identifier ∈ seen.
Proof.
  unfold identifier_seen. rewrite existsb_exists. setoid_rewrite Z.eqb_eq. setoid_rewrite <- list_elem_of_In. naive_solver.
Qed.

(** The run of [n] digests, after those of [seen]. *)
Definition digests_run (algorithms : list pbns_log_algorithm) (n : nat) (seen : list Z) (found b : bool) (m : bytes) : Prop :=
  exists ds, length ds = n /\ m = concat (digest_octets <$> ds) /\ Forall (digest_ok algorithms) ds /\ NoDup (fst <$> ds)
  /\ Forall (fun d => fst d ∉ seen) ds /\ b = found || has_sha256 ds.

Lemma digests_run_cons algorithms n seen found b m :
  digests_run algorithms (S n) seen found b m
  <-> exists id d ms, m = le_bytes 2 id ++ d ++ ms /\ 0 <= id < 2 ^ 16 /\ id ∉ seen
      /\ algorithm_size algorithms id = Some (zlen d)
      /\ digests_run algorithms n (seen ++ [id]) (found || is_sha256 id (zlen d)) b ms.
Proof.
  unfold digests_run. split.
  - intros ([|[id d] ds] & Hl & -> & Hok & Hnd & Hs & ->); [done|]. cbn in Hl, Hnd.
    apply Forall_cons_iff in Hok as [[Hid Hsz] Hok]. pose proof (NoDup_cons_1_1 _ _ Hnd) as Hn. apply NoDup_cons_1_2 in Hnd.
    apply Forall_cons_iff in Hs as [Hs1 Hs]. cbn [fst snd] in *.
    exists id, d, (concat (digest_octets <$> ds)).
    split; [rewrite fmap_cons; cbn [concat]; unfold digest_octets at 1; cbn [fst snd]; by rewrite <- app_assoc|].
    split; [done|]. split; [done|]. split; [done|]. exists ds. split; [lia|]. split; [done|]. split; [done|]. split; [done|].
    split; [|apply orb_assoc]. apply Forall_forall. intros x Hx. rewrite elem_of_app, list_elem_of_singleton.
    rewrite Forall_forall in Hs. intros [Hin|Heq]; [exact (Hs x Hx Hin)|].
    apply Hn. rewrite <- Heq. by apply list_elem_of_fmap_2, list_elem_of_In.
  - intros (id & d & ms & -> & Hid & Hn & Hsz & ds & Hl & -> & Hok & Hnd & Hs & ->).
    exists ((id, d) :: ds). split; [cbn; lia|]. 
    split; [rewrite fmap_cons; cbn [concat]; unfold digest_octets at 2; cbn [fst snd]; by rewrite <- app_assoc|].
    split; [by constructor|]. split; [|split; [|symmetry; apply orb_assoc]].
    + cbn. apply NoDup_cons_2; [|done]. intros (x & Hx1 & Hx2)%list_elem_of_fmap. rewrite Forall_forall in Hs.
      apply list_elem_of_In in Hx2. apply (Hs x Hx2). rewrite <- Hx1. apply elem_of_app. right. by apply list_elem_of_singleton.
    + constructor; [done|]. eapply Forall_impl; [|exact Hs]. intros x Hx Hin. apply Hx. apply elem_of_app. by left.
Qed.

Lemma parses_digests algorithms n seen found :
  sizes_ok algorithms -> parses (event_digests algorithms n seen found) (digests_run algorithms n seen found).
Proof.
  intros Ha. revert seen found. induction n as [|n IH]; intros seen found; cbn [event_digests].
  { eapply parses_weaken; [|apply parses_ret]. intros b m _. split.
    - intros [-> ->]. exists []. rewrite orb_false_r. repeat split; constructor.
    - intros (ds & Hl & -> & _ & _ & _ & ->). destruct ds; [|done]. by rewrite orb_false_r. }
  eapply parses_weaken; [|apply parses_bind; [apply parses_u16|]; intros id m0 _ _].
  2: { apply parses_bind; [apply parses_require|]. intros q mq _ _.
       assert (Hr : parses (match algorithm_size algorithms id with
         | None => reject
         | Some digest_size => _ ← log_take digest_size;
             event_digests algorithms n (seen ++ [id]) (found || is_sha256 id digest_size)
         end) (fun b m => exists d ms, m = d ++ ms /\ algorithm_size algorithms id = Some (zlen d)
             /\ digests_run algorithms n (seen ++ [id]) (found || is_sha256 id (zlen d)) b ms)); [|exact Hr].
       destruct (algorithm_size algorithms id) as [sz|] eqn:Esz; [|eapply parses_weaken; [|apply parses_reject]; naive_solver].
       eapply parses_weaken; [|apply parses_bind; [apply parses_take; pose proof (algorithm_size_pos _ _ _ Ha Esz); lia|]].
       2: { intros x m _ _. apply IH. }
       intros b m _. split.
       + intros (x & m1 & m2 & -> & [_ <-] & Hm). by exists m1, m2.
       + intros (d & ms & -> & [= ->] & Hm). by exists d, d, ms. }
  intros b m _. rewrite digests_run_cons. split.
  - intros (id & m1 & m2 & -> & [Hid ->] & [] & mq & mr & -> & [Hn ->] & d & ms & -> & Hsz & Hr).
    exists id, d, ms. split; [done|]. split; [done|]. split; [|done].
    intros Hin%identifier_seen_spec. by rewrite Hin in Hn.
  - intros (id & d & ms & -> & Hid & Hn & Hsz & Hr). exists id, (le_bytes 2 id), (d ++ ms). split; [done|]. split; [done|].
    exists tt, [], (d ++ ms). split; [done|]. split; [|by exists d, ms]. split; [|done].
    destruct (identifier_seen seen id) eqn:E; [|done]. by apply identifier_seen_spec in E.
Qed.

(** Three little-endian words, as they are found in the fixed part of an event. *)
Lemma three_words (m : bytes) :
  bytes_ok m -> zlen m = 12 ->
  m = le_bytes 4 (le_value (slice m 0 4)) ++ le_bytes 4 (le_value (slice m 4 4)) ++ le_bytes 4 (le_value (slice m 8 4))
  /\ (forall i, 0 <= i -> i + 4 <= 12 -> 0 <= le_value (slice m i 4) < 2 ^ 32).
Proof.
  intros Hok Hm. assert (Hw : forall i, 0 <= i -> i + 4 <= 12 -> le_bytes 4 (le_value (slice m i 4)) = slice m i 4).
  { intros i Hi Hi'. pose proof (slice_length m i 4 Hi ltac:(lia) ltac:(lia)) as Hl.
    replace 4%nat with (length (slice m i 4)) by lia. apply le_bytes_value. auto with pbns. }
  split.
  - rewrite !Hw by lia. rewrite <- (slice_all m 12) at 1 by lia. change 12 with (4 + (4 + 4)). by rewrite !slice_split by lia.
  - intros i Hi Hi'. pose proof (le_value_bound (slice m i 4) ltac:(auto with pbns)) as Hb.
    rewrite slice_length in Hb by lia. exact Hb.
Qed.

Lemma words_slices a b c :
  0 <= a < 2 ^ 32 -> 0 <= b < 2 ^ 32 -> 0 <= c < 2 ^ 32 ->
  let m := le_bytes 4 a ++ le_bytes 4 b ++ le_bytes 4 c in
  le_value (slice m 0 4) = a /\ le_value (slice m 4 4) = b /\ le_value (slice m 8 4) = c.
Proof.
  intros Ha Hb Hc m. rewrite (slice_eq m [] (le_bytes 4 a) (le_bytes 4 b ++ le_bytes 4 c)) by done.
  rewrite (slice_eq m (le_bytes 4 a) (le_bytes 4 b) (le_bytes 4 c)) by done.
  rewrite (slice_eq m (le_bytes 4 a ++ le_bytes 4 b) (le_bytes 4 c) []) by (done || by rewrite app_nil_r, <- app_assoc).
  rewrite !le_value_bytes by (cbn; lia). done.
Qed.

(** The parser takes exactly the serializations of well-formed events. *)
Lemma parses_event2 algorithms :
  sizes_ok algorithms ->
  parses (parse_event2 algorithms) (fun _ m => exists e, event_ok algorithms e /\ m = event_octets e).
Proof.
  intros Ha. unfold parse_event2, PBNS_TCG_EVENT2_FIXED_SIZE, PBNS_MEASURED_BOOT_ALGORITHM_MAX_COUNT.
  eapply parses_weaken; [|apply parses_bind; [apply parses_take; lia|]; intros h m0 [-> Hm0] Hok0].
  2: { apply parses_bind; [apply parses_load; apply load_u32_value; (done || lia)|]. intros dc m1 _ _.
       apply parses_bind; [apply parses_load; apply load_u32_value; (done || lia)|]. intros pcr m2 _ _.
       apply parses_bind; [apply parses_require|]. intros q3 m3 _ _.
       apply parses_bind; [by apply parses_digests|]. intros fs m4 _ _.
       apply parses_bind; [apply parses_require|]. intros q5 m5 _ _.
       apply parses_bind; [apply parses_u32|]. intros sz m6 [Hsz _] _.
       apply parses_bind; [apply parses_take; lia|]. intros q7 m7 _ _. apply parses_ret. }
  intros [] m Hok. split.
  - intros (h & mh & mr & -> & [-> Hmh] & dc & ? & mr1 & -> & [-> ->] & pcr & ? & mr2 & -> & [-> ->]
      & ? & ? & mr3 & -> & [Hreq ->] & fs & md & mr4 & -> & Hd & ? & ? & mr5 & -> & [-> ->]
      & sz & msz & mr6 & -> & [Hsz ->] & ? & data & ? & -> & [-> Hdata] & _ & ->).
    cbn [app] in *. rewrite app_nil_r in *. apply bytes_ok_app in Hok as [Hokh _].
    destruct (three_words mh Hokh Hmh) as [Emh Hbd]. pose proof (Hbd 0 ltac:(lia) ltac:(lia)). pose proof (Hbd 4 ltac:(lia) ltac:(lia)).
    pose proof (Hbd 8 ltac:(lia) ltac:(lia)). bools. destruct Hd as (ds & Hl & -> & Hds & Hnd & _ & Hsha). cbn [orb] in Hsha.
    exists (mk_event (le_value (slice mh 0 4)) (le_value (slice mh 4 4)) ds data). unfold event_ok, event_octets. cbn [ev_pcr ev_type ev_digests ev_data].
    assert (El : zlen ds = le_value (slice mh 8 4)) by lia. rewrite El.
    split; [repeat split; try done; lia|]. rewrite Emh at 1. rewrite Hdata. by rewrite <- !app_assoc.
  - intros ([pcr type ds data] & (Hp & Ht & Hn & Hds & Hnd & Hsha & Hdata) & ->). unfold event_octets. cbn [ev_pcr ev_type ev_digests ev_data] in *.
    destruct (words_slices pcr type (zlen ds)) as (W0 & W1 & W2); [lia..|].
    set (h := le_bytes 4 pcr ++ le_bytes 4 type ++ le_bytes 4 (zlen ds)) in *.
    assert (Hh : zlen h = 12) by (unfold h; by rewrite !length_app, !le_bytes_length).
    set (rest := concat (digest_octets <$> ds) ++ le_bytes 4 (zlen data) ++ data).
    exists h, h, rest. split; [done|]. split; [done|]. rewrite W0, W2.
    exists (zlen ds), [], rest. split; [done|]. split; [done|]. exists pcr, [], rest. split; [done|]. split; [done|].
    exists tt, [], rest. split; [done|]. split.
    { split; [|done]. rewrite (proj2 (Z.ltb_lt pcr 24)), (proj2 (Z.eqb_neq (zlen ds) 0)), (proj2 (Z.leb_le (zlen ds) 16)) by lia. done. }
    exists true, (concat (digest_octets <$> ds)), (le_bytes 4 (zlen data) ++ data). split; [done|]. split.
    { exists ds. split; [lia|]. split; [done|]. split; [done|]. split; [done|]. split; [|done].
      apply Forall_forall. intros x _. apply not_elem_of_nil. }
    exists tt, [], (le_bytes 4 (zlen data) ++ data). split; [done|]. split; [done|].
    exists (zlen data), (le_bytes 4 (zlen data)), data. split; [done|]. split; [split; [lia|done]|].
    exists data, data, []. split; [by rewrite app_nil_r|]. done.
Qed.

(** ** Headers *)

Definition algorithm_octets (a : pbns_log_algorithm) : bytes := le_bytes 2 (la_identifier a) ++ le_bytes 2 (la_digest_size a).

Definition algorithm_ok (a : pbns_log_algorithm) : Prop :=
  0 <= la_identifier a < 2 ^ 16 /\ 0 < la_digest_size a <= 64 /\ size_known (la_identifier a) (la_digest_size a) = true.

Definition bank_sha256 (algorithms : list pbns_log_algorithm) : bool :=
  existsb (fun a => is_sha256 (la_identifier a) (la_digest_size a)) algorithms.

Lemma algorithm_size_None algorithms identifier :
  algorithm_size algorithms identifier = None <-> identifier ∉ (la_identifier <$> algorithms).
Proof.
  induction algorithms as [|a algorithms IH]; cbn; [split; [intros _; apply not_elem_of_nil|done]|].
  rewrite not_elem_of_cons. destruct (Z.eqb_spec (la_identifier a) identifier) as [->|Hne]; [naive_solver|].
  change (list_fmap _ _ la_identifier algorithms) with (la_identifier <$> algorithms). rewrite <- IH. naive_solver.
Qed.

(** A run of [n] algorithms, after those of [before]. *)
Definition algorithms_run (n : nat) (before : list pbns_log_algorithm) (found : bool)
    (r : list pbns_log_algorithm * bool) (m : bytes) : Prop :=
  exists new, length new = n /\ m = concat (algorithm_octets <$> new) /\ Forall algorithm_ok new
  /\ NoDup (la_identifier <$> new) /\ Forall (fun a => la_identifier a ∉ (la_identifier <$> before)) new
  /\ r = (before ++ new, found || bank_sha256 new).

Lemma algorithms_run_cons n before found r m :
  algorithms_run (S n) before found r m
  <-> exists a ms, m = le_bytes 2 (la_identifier a) ++ le_bytes 2 (la_digest_size a) ++ ms /\ algorithm_ok a
      /\ la_identifier a ∉ (la_identifier <$> before)
      /\ algorithms_run n (before ++ [a]) (found || is_sha256 (la_identifier a) (la_digest_size a)) r ms.
Proof.
  unfold algorithms_run. split.
  - intros ([|a new] & Hl & -> & Hok & Hnd & Hb & ->); [done|]. cbn in Hl. rewrite fmap_cons in Hnd.
    apply Forall_cons_iff in Hok as [Ha Hok]. pose proof (NoDup_cons_1_1 _ _ Hnd) as Hn. apply NoDup_cons_1_2 in Hnd.
    apply Forall_cons_iff in Hb as [Hb1 Hb]. exists a, (concat (algorithm_octets <$> new)).
    split; [rewrite fmap_cons; cbn [concat]; unfold algorithm_octets at 1; by rewrite <- app_assoc|].
    split; [done|]. split; [done|]. exists new. split; [lia|]. split; [done|]. split; [done|]. split; [done|].
    split; [|rewrite <- app_assoc; f_equal; apply orb_assoc]. apply Forall_forall. intros x Hx.
    rewrite fmap_app, elem_of_app. rewrite Forall_forall in Hb. intros [Hin|Heq]; [exact (Hb x Hx Hin)|].
    apply list_elem_of_singleton in Heq. apply Hn. rewrite <- Heq. by apply list_elem_of_fmap_2, list_elem_of_In.
  - intros (a & ms & -> & Ha & Hb1 & new & Hl & -> & Hok & Hnd & Hb & ->). exists (a :: new).
    split; [cbn; lia|]. split; [rewrite fmap_cons; cbn [concat]; unfold algorithm_octets at 2; by rewrite <- app_assoc|].
    split; [by constructor|]. split; [|split; [|rewrite <- app_assoc; f_equal; symmetry; apply orb_assoc]].
    + rewrite fmap_cons. apply NoDup_cons_2; [|done]. intros (x & Hx1 & Hx2)%list_elem_of_fmap. rewrite Forall_forall in Hb.
      apply list_elem_of_In in Hx2. apply (Hb x Hx2). rewrite <- Hx1, fmap_app. apply elem_of_app. right. by apply list_elem_of_singleton.
    + constructor; [done|]. eapply Forall_impl; [|exact Hb]. intros x Hx Hin. apply Hx. rewrite fmap_app. apply elem_of_app. by left.
Qed.

Lemma parses_algorithms n before found : parses (spec_algorithms n before found) (algorithms_run n before found).
Proof.
  revert before found. induction n as [|n IH]; intros before found; cbn [spec_algorithms].
  { eapply parses_weaken; [|apply parses_ret]. intros r m _. split.
    - intros [-> ->]. exists []. rewrite app_nil_r, orb_false_r. repeat split; constructor.
    - intros (ds & Hl & -> & _ & _ & _ & ->). destruct ds; [|done]. by rewrite app_nil_r, orb_false_r. }
  eapply parses_weaken; [|apply parses_bind; [apply parses_u16|]; intros id m0 _ _].
  2: { apply parses_bind; [apply parses_u16|]. intros sz m1 _ _. apply parses_bind; [apply parses_require|]. intros q mq _ _. apply IH. }
  intros r m _. rewrite algorithms_run_cons. unfold PBNS_TCG_DIGEST_SIZE_MAX. split.
  - intros (id & ? & m2 & -> & [Hid ->] & sz & ? & m3 & -> & [Hsz ->] & ? & ? & ms & -> & [Hreq ->] & Hr).
    bools. exists (mk_algorithm id sz), ms. split; [done|]. split; [unfold algorithm_ok; cbn; repeat split; try done; lia|].
    split; [|done]. cbn. apply algorithm_size_None. by destruct (algorithm_size before id).
  - intros ([id sz] & ms & -> & (Hid & Hsz & Hk) & Hb & Hr). cbn [la_identifier la_digest_size] in *.
    exists id, (le_bytes 2 id), (le_bytes 2 sz ++ ms). split; [done|]. split; [done|].
    exists sz, (le_bytes 2 sz), ms. split; [done|]. split; [split; [lia|done]|]. exists tt, [], ms. split; [done|]. split; [|done].
    split; [|done]. apply algorithm_size_None in Hb. rewrite Hb, Hk.
    by rewrite (proj2 (Z.eqb_neq sz 0)), (proj2 (Z.leb_le sz 64)) by lia.
Qed.

(** The first entry of a log. *)
Record log_header := mk_header {
  lh_digest : bytes;
  lh_fixed : bytes;
  lh_algorithms : list pbns_log_algorithm;
  lh_vendor : bytes;
}.

Definition spec_rest (h : log_header) : bytes :=
  lh_fixed h ++ le_bytes 4 (zlen (lh_algorithms h)) ++ concat (algorithm_octets <$> lh_algorithms h)
  ++ [zlen (lh_vendor h)] ++ lh_vendor h.

Definition spec_octets (h : log_header) : bytes := spec_signature ++ spec_rest h.

Definition header_octets (h : log_header) : bytes :=
  (le_bytes 4 0 ++ le_bytes 4 3 ++ lh_digest h ++ le_bytes 4 (zlen (spec_octets h))) ++ spec_octets h.

Definition spec_ok (h : log_header) : Prop :=
  zlen (lh_fixed h) = 8 /\ rd (lh_fixed h) 5 = Some 2 /\ (rd (lh_fixed h) 7 = Some 1 \/ rd (lh_fixed h) 7 = Some 2)
  /\ 1 <= zlen (lh_algorithms h) <= 16 /\ Forall algorithm_ok (lh_algorithms h)
  /\ NoDup (la_identifier <$> lh_algorithms h) /\ zlen (lh_vendor h) < 256.

(** Well-formed headers: version 2 of the specification and between one and
    sixteen distinct algorithms of known sizes. *)
Definition header_ok (h : log_header) : Prop := zlen (lh_digest h) = 20 /\ spec_ok h.

Definition spec_after (fixed : bytes) : parser (list pbns_log_algorithm * bool) :=
  major ← load (rd fixed 5);
  uintn ← load (rd fixed 7);
  _ ← require ((major =? 2) && ((uintn =? 1) || (uintn =? 2)));
  count ← read_u32;
  _ ← require (negb (count =? 0) && (count <=? PBNS_MEASURED_BOOT_ALGORITHM_MAX_COUNT));
  parsed ← spec_algorithms (Z.to_nat count) [] false;
  vendor_size ← log_take 1;
  vendor ← load (rd vendor_size 0);
  _ ← log_take vendor;
  mret parsed.

Definition after_run (fixed : bytes) (r : list pbns_log_algorithm * bool) (m : bytes) : Prop :=
  exists algorithms vendor,
  rd fixed 5 = Some 2 /\ (rd fixed 7 = Some 1 \/ rd fixed 7 = Some 2) /\ 1 <= zlen algorithms <= 16
  /\ Forall algorithm_ok algorithms /\ NoDup (la_identifier <$> algorithms) /\ zlen vendor < 256
  /\ m = le_bytes 4 (zlen algorithms) ++ concat (algorithm_octets <$> algorithms) ++ [zlen vendor] ++ vendor
  /\ r = (algorithms, bank_sha256 algorithms).

(** One octet that counts the octets after it. *)
Lemma parses_counted {A} (x : A) :
  parses (vendor_size ← log_take 1; vendor ← load (rd vendor_size 0); _ ← log_take vendor; mret x)
    (fun y m => y = x /\ exists vendor, zlen vendor < 256 /\ m = [zlen vendor] ++ vendor).
Proof.
  eapply parses_weaken; [|apply parses_bind; [apply parses_take; lia|]; intros vs m0 [-> Hm0] Hok0].
  2: { destruct (rd_some m0 0 ltac:(lia)) as [n En]. assert (Hn : is_byte n).
       { destruct m0 as [|b m0]; [done|]. cbn in En. injection En as <-. by apply bytes_ok_cons in Hok0 as [? _]. }
       assert (Hp : parses (vendor ← load (rd m0 0); _ ← log_take vendor; mret x)
         (fun y m => y = x /\ rd m0 0 = Some (zlen m))); [|exact Hp].
       eapply parses_weaken; [|apply parses_bind; [apply parses_load; exact En|]; intros v mv [Ev _] _].
       2: { apply parses_bind; [apply parses_take; rewrite Ev; unfold is_byte in Hn; lia|]. intros d md _ _. apply parses_ret. }
       intros y m _. rewrite En. split.
       - intros (? & ? & ? & -> & [-> ->] & ? & d & ? & -> & [-> Hd] & -> & ->). cbn [app]. rewrite app_nil_r, Hd. done.
       - intros [-> [= ->]]. exists (zlen m), [], m. split; [done|]. split; [done|]. exists m, m, []. by rewrite app_nil_r. }
  intros y m Hok. split.
  - intros (vs & m0 & mr & -> & [-> Hm0] & -> & Hr). split; [done|]. exists mr. destruct m0 as [|b [|b' m0]]; [done| |cbn [length] in Hm0; lia].
    cbn in Hr. injection Hr as ->. apply bytes_ok_cons in Hok as [Hb _]. unfold is_byte in Hb. split; [lia|done].
  - intros [-> (vendor & Hv & ->)]. exists [zlen vendor], [zlen vendor], vendor. done.
Qed.

Lemma parses_spec_after fixed : zlen fixed = 8 -> parses (spec_after fixed) (after_run fixed).
Proof.
  intros Hf. unfold spec_after, PBNS_MEASURED_BOOT_ALGORITHM_MAX_COUNT.
  destruct (rd_some fixed 5 ltac:(lia)) as [major Emj]. destruct (rd_some fixed 7 ltac:(lia)) as [uintn Eun].
  eapply parses_weaken; [|apply parses_bind; [apply parses_load; exact Emj|]; intros q0 m0 _ _].
  2: { apply parses_bind; [apply parses_load; exact Eun|]. intros q1 m1 _ _.
       apply parses_bind; [apply parses_require|]. intros q2 m2 _ _. apply parses_bind; [apply parses_u32|]. intros count m3 _ _.
       apply parses_bind; [apply parses_require|]. intros q4 m4 _ _. apply parses_bind; [apply parses_algorithms|]. intros r m5 _ _.
       apply parses_counted. }
  intros r m _. unfold after_run. rewrite Emj, Eun. split.
  - intros (? & ? & ? & -> & [-> ->] & ? & ? & ? & -> & [-> ->] & ? & ? & ? & -> & [Hreq ->] & count & ? & ? & -> & [Hc ->]
      & ? & ? & ? & -> & [Hreq2 ->] & rr & ? & ? & -> & (algs & Hl & -> & Hok & Hnd & _ & ->) & -> & vendor & Hv & ->).
    apply andb_true_iff in Hreq as [Hmj%Z.eqb_eq [Hun%Z.eqb_eq|Hun%Z.eqb_eq]%orb_true_iff]; bools; exists algs, vendor; cbn [app orb];
    (split; [congruence|]); (split; [first [left; congruence|right; congruence]|]);
    (split; [lia|]); (split; [done|]); (split; [done|]); (split; [done|]); replace (zlen algs) with count by lia; done.
  - intros (algs & vendor & [= ->] & Hu & Hn & Hok & Hnd & Hv & -> & ->).
    exists 2, [], (le_bytes 4 (zlen algs) ++ concat (algorithm_octets <$> algs) ++ [zlen vendor] ++ vendor).
    split; [done|]. split; [done|]. eexists uintn, [], _. split; [reflexivity|]. split; [done|]. eexists tt, [], _. split; [reflexivity|]. split.
    { split; [|done]. by destruct Hu as [[= ->]|[= ->]]. }
    eexists (zlen algs), (le_bytes 4 (zlen algs)), _. split; [reflexivity|]. split; [split; [lia|done]|].
    eexists tt, [], _. split; [reflexivity|]. split.
    { split; [|done]. by rewrite (proj2 (Z.eqb_neq (zlen algs) 0)), (proj2 (Z.leb_le (zlen algs) 16)) by lia. }
    eexists (algs, bank_sha256 algs), (concat (algorithm_octets <$> algs)), _. split; [reflexivity|]. split; [|by split; [|exists vendor]].
    exists algs. split; [lia|]. split; [done|]. split; [done|]. split; [done|]. split; [|done].
    apply Forall_forall. intros x _. apply not_elem_of_nil.
Qed.

Lemma parses_spec_body :
  parses spec_body (fun r m => exists h, spec_ok h /\ m = spec_rest h /\ r = (lh_algorithms h, bank_sha256 (lh_algorithms h))).
Proof.
  change spec_body with (fixed ← log_take 8; spec_after fixed).
  eapply parses_weaken; [|apply parses_bind; [apply parses_take; lia|]; intros fx m0 [-> Hm0] Hok0].
  2: { by apply parses_spec_after. }
  intros r m _. split.
  - intros (fx & m0 & mr & -> & [-> Hm0] & algs & vendor & H5 & H7 & Hn & Hok & Hnd & Hv & -> & ->).
    exists (mk_header [] m0 algs vendor). done.
  - intros (h & (Hf & H5 & H7 & Hn & Hok & Hnd & Hv) & -> & ->). eexists (lh_fixed h), (lh_fixed h), _. split; [reflexivity|].
    split; [done|]. exists (lh_algorithms h), (lh_vendor h). done.
Qed.

(** What a parser does at a cursor, when its relation is decided there. *)
Lemma parses_cases {A} (p : parser A) R pre post :
  parses p R -> bytes_ok post ->
  (exists x m post', post = m ++ post' /\ R x m /\ p (cursor_at pre post) = Parsed x (cursor_at (pre ++ m) post'))
  \/ (p (cursor_at pre post) = Rejected /\ forall x m post', post = m ++ post' -> ~ R x m).
Proof.
  intros [Hs Hc Ht] Hok. destruct (p (cursor_at pre post)) as [x c| |] eqn:E; [left|right|by destruct (Ht pre post)].
  - destruct (Hs _ _ _ _ Hok E) as (m & post' & -> & -> & Hm). by exists x, m, post'.
  - split; [done|]. intros x m post' -> Hm. by rewrite (Hc pre m post' x Hok Hm) in E.
Qed.

Lemma parsed_offset {A} (x x' : A) c c' : Parsed x c = Parsed x' c' -> lc_offset c = lc_offset c'.
Proof. congruence. Qed.

Lemma spec_octets_length h : spec_ok h -> 33 <= zlen (spec_octets h) < 2 ^ 16.
Proof.
  intros (Hf & _ & _ & Hn & _ & _ & Hv). unfold spec_octets, spec_rest. rewrite !length_app, le_bytes_length.
  assert (Ha : zlen (concat (algorithm_octets <$> lh_algorithms h)) = 4 * zlen (lh_algorithms h)).
  { clear. induction (lh_algorithms h) as [|a l IH]; [done|]. rewrite fmap_cons. cbn [concat length]. unfold algorithm_octets at 1.
    rewrite !length_app, !le_bytes_length. lia. }
  change (length spec_signature) with 16%nat. cbn [length]. lia.
Qed.

Lemma parse_spec_id_cases event :
  bytes_ok event ->
  (exists h, spec_ok h /\ event = spec_octets h
    /\ parse_spec_id event = Some (Some (lh_algorithms h, bank_sha256 (lh_algorithms h))))
  \/ (parse_spec_id event = Some None /\ forall h, spec_ok h -> event <> spec_octets h).
Proof.
  intros Hok. unfold parse_spec_id, PBNS_TCG_SPEC_FIXED_SIZE. destruct (Z.ltb_spec (zlen event) 29) as [Hlt|Hge].
  { right. split; [done|]. intros h Hh ->. pose proof (spec_octets_length h Hh). lia. }
  rewrite rd_slice_inside by lia. cbn [mbind option_bind].
  destruct (bytes_eqb (slice event 0 16) spec_signature) eqn:Es; cbn [negb].
  2: { right. split; [done|]. intros h Hh ->. unfold spec_octets in Es.
       rewrite (slice_eq _ [] spec_signature (spec_rest h)) in Es by done. by rewrite bytes_eqb_refl in Es. }
  apply bytes_eqb_spec in Es. unfold slice in Es. rewrite drop_0 in Es. change (Z.to_nat 16) with 16%nat in Es.
  rewrite <- (take_drop 16 event), Es in Hok |- *. set (post := drop 16 event) in *.
  change (mk_cursor (spec_signature ++ post) 16) with (cursor_at spec_signature post).
  apply bytes_ok_app in Hok as [_ Hok].
  destruct (parses_cases _ _ spec_signature post parses_spec_body Hok) as [(r & m & post' & -> & (h & Hh & -> & ->) & E)|[E Hno]].
  - rewrite E. cbn [cursor_at lc_offset]. rewrite !length_app. destruct post' as [|b post'].
    + left. exists h. rewrite app_nil_r. split; [done|]. split; [done|]. by rewrite (proj2 (Z.eqb_eq _ _)) by (cbn [length]; lia).
    + right. rewrite (proj2 (Z.eqb_neq _ _)) by (cbn [length]; lia). split; [done|]. intros h' Hh' E'.
      unfold spec_octets in E'. apply app_inv_head in E'.
      pose proof (parses_complete _ _ parses_spec_body spec_signature (spec_rest h') [] _ ltac:(rewrite app_nil_r, <- E'; done)
        (ex_intro _ h' (conj Hh' (conj eq_refl eq_refl)))) as Hc.
      rewrite app_nil_r, <- E', E in Hc. apply parsed_offset in Hc. cbn [cursor_at lc_offset] in Hc. apply (f_equal length) in E'.
      rewrite !length_app in *. cbn [length] in *. lia.
  - rewrite E. right. split; [done|]. intros h Hh E'. unfold spec_octets in E'. apply app_inv_head in E'.
    apply (Hno (lh_algorithms h, bank_sha256 (lh_algorithms h)) (spec_rest h) []); [by rewrite app_nil_r|]. by exists h.
Qed.

(** The parser of the first entry, up to the specification event. *)
Definition header_parser : parser bytes :=
  legacy ← log_take PBNS_TCG_LEGACY_HEADER_SIZE;
  pcr ← load (load_u32 legacy 0);
  type ← load (load_u32 legacy 4);
  _ ← require ((pcr =? 0) && (type =? PBNS_TCG_EV_NO_ACTION));
  spec_size ← load (load_u32 legacy 28);
  log_take spec_size.

Definition legacy_octets (digest : bytes) (n : Z) : bytes := le_bytes 4 0 ++ le_bytes 4 3 ++ digest ++ le_bytes 4 n.

Lemma parses_header :
  parses header_parser (fun spec m => exists digest, zlen digest = 20 /\ zlen spec < 2 ^ 32
    /\ m = legacy_octets digest (zlen spec) ++ spec).
Proof.
  unfold header_parser, PBNS_TCG_LEGACY_HEADER_SIZE, PBNS_TCG_EV_NO_ACTION.
  assert (Hw : forall m i, bytes_ok m -> zlen m = 32 -> 0 <= i -> i + 4 <= 32 ->
    le_bytes 4 (le_value (slice m i 4)) = slice m i 4 /\ 0 <= le_value (slice m i 4) < 2 ^ 32).
  { intros m i Hok Hm Hi Hi'. pose proof (slice_length m i 4 Hi ltac:(lia) ltac:(lia)) as Hl.
    pose proof (le_value_bound (slice m i 4) ltac:(auto with pbns)) as Hb. rewrite Hl in Hb. split; [|exact Hb].
    replace 4%nat with (length (slice m i 4)) by lia. apply le_bytes_value. auto with pbns. }
  eapply parses_weaken; [|apply parses_bind; [apply parses_take; lia|]; intros lg m0 [-> Hm0] Hok0].
  2: { apply parses_bind; [apply parses_load, load_u32_value; (done || lia)|]. intros q1 m1 _ _.
       apply parses_bind; [apply parses_load, load_u32_value; (done || lia)|]. intros q2 m2 _ _.
       apply parses_bind; [apply parses_require|]. intros q3 m3 _ _.
       apply parses_bind; [apply parses_load, load_u32_value; (done || lia)|]. intros n m4 [En _] _.
       apply parses_take. rewrite En. apply (Hw m0 28); (done || lia). }
  intros spec m Hok. split.
  - intros (lg & m0 & ? & -> & [-> Hm0] & ? & ? & ? & -> & [-> ->] & ? & ? & ? & -> & [-> ->] & ? & ? & ? & -> & [Hreq ->]
      & ? & ? & sp & -> & [-> ->] & -> & Hn). cbn [app] in *. apply bytes_ok_app in Hok as [Hok0 _].
    apply andb_true_iff in Hreq as [H0%Z.eqb_eq H3%Z.eqb_eq].
    destruct (Hw m0 0 Hok0 Hm0) as [E0 _]; [lia..|]. destruct (Hw m0 4 Hok0 Hm0) as [E4 _]; [lia..|].
    destruct (Hw m0 28 Hok0 Hm0) as [E28 B28]; [lia..|]. exists (slice m0 8 20). split; [by rewrite slice_length by lia|]. split; [lia|].
    f_equal. unfold legacy_octets. rewrite Hn, E28. rewrite <- H0, <- H3 at 1. rewrite E0, E4.
    rewrite <- (slice_all m0 32) at 1 by lia. change 32 with (4 + (4 + (20 + 4))). by rewrite !slice_split by lia.
  - intros (digest & Hd & Hs & ->). set (lg := legacy_octets digest (zlen spec)).
    assert (Hl : zlen lg = 32) by (unfold lg, legacy_octets; rewrite !length_app, !le_bytes_length; lia).
    assert (S0 : le_value (slice lg 0 4) = 0)
      by (rewrite (slice_eq lg [] (le_bytes 4 0) (le_bytes 4 3 ++ digest ++ le_bytes 4 (zlen spec))) by done; done).
    assert (S4 : le_value (slice lg 4 4) = 3)
      by (rewrite (slice_eq lg (le_bytes 4 0) (le_bytes 4 3) (digest ++ le_bytes 4 (zlen spec))) by done; done).
    assert (S28 : le_value (slice lg 28 4) = zlen spec).
    { rewrite (slice_eq lg (le_bytes 4 0 ++ le_bytes 4 3 ++ digest) (le_bytes 4 (zlen spec)) [])
        by (first [by unfold lg, legacy_octets; rewrite app_nil_r, <- !app_assoc | rewrite !length_app, !le_bytes_length; lia | done]).
      rewrite le_value_bytes by (cbn; lia). done. }
    exists lg, lg, spec. split; [done|]. split; [done|]. rewrite S0, S4, S28.
    exists 0, [], spec. split; [done|]. split; [done|]. exists 3, [], spec. split; [done|]. split; [done|].
    exists tt, [], spec. split; [done|]. split; [done|]. exists (zlen spec), [], spec. done.
Qed.

(** The header of a log, found or not. *)
Lemma parse_header_cases log :
  bytes_ok log ->
  (exists h rest, header_ok h /\ log = header_octets h ++ rest
    /\ parse_header log = Some (if bank_sha256 (lh_algorithms h)
         then inr (lh_algorithms h, cursor_at (header_octets h) rest) else inl PBNS_ERR_UNSUPPORTED))
  \/ (parse_header log = Some (inl PBNS_ERR_FORMAT) /\ forall h rest, header_ok h -> log <> header_octets h ++ rest).
Proof.
  intros Hok. unfold parse_header. change (mk_cursor log 0) with (cursor_at [] log).
  match goal with |- context [match ?p (cursor_at [] log) with _ => _ end] => change p with header_parser end.
  destruct (parses_cases _ _ [] log parses_header Hok) as [(spec & m & rest & -> & (digest & Hd & Hs & ->) & E)|[E Hno]].
  2: { rewrite E. right. split; [done|]. intros h rest [Hd Hh] ->. pose proof (spec_octets_length h Hh).
       apply (Hno (spec_octets h) (header_octets h) rest eq_refl). exists (lh_digest h). split; [done|]. split; [lia|done]. }
  rewrite E. pose proof Hok as [[_ Hspec]%bytes_ok_app _]%bytes_ok_app.
  assert (Hdet : forall h rest', header_ok h -> (legacy_octets digest (zlen spec) ++ spec) ++ rest = header_octets h ++ rest' -> spec = spec_octets h).
  { intros h rest' [Hd' Hh] Eq. pose proof (spec_octets_length h Hh) as Hl. assert (Hlt : zlen (spec_octets h) < 2 ^ 32) by lia.
    pose proof Hok as Hok'. rewrite Eq in Hok'.
    pose proof (parses_complete _ _ parses_header [] (header_octets h) rest' (spec_octets h) Hok'
      (ex_intro _ (lh_digest h) (conj Hd' (conj Hlt eq_refl)))) as Hc. rewrite <- Eq, E in Hc. congruence. }
  destruct (parse_spec_id_cases spec Hspec) as [(h & Hh & -> & ->)|[-> Hnone]]; cbn [mbind option_bind].
  - left. set (h' := mk_header digest (lh_fixed h) (lh_algorithms h) (lh_vendor h)).
    assert (Ho : header_octets h' = legacy_octets digest (zlen (spec_octets h)) ++ spec_octets h) by done.
    exists h', rest. split; [done|]. split; [by rewrite Ho|]. rewrite Ho. cbn [lc_offset cursor_at app lh_algorithms h'].
    rewrite (proj2 (Z.ltb_ge _ _)) by llia. done.
  - right. split; [done|]. intros h rest' Hh Eq. destruct (Hnone h); [apply Hh|]. by eapply Hdet.
Qed.

Lemma cursor_at_inj pre m m' post post' :
  cursor_at (pre ++ m) post = cursor_at (pre ++ m') post' -> m = m' /\ post = post'.
Proof.
  unfold cursor_at. intros [= Hin Hoff]. rewrite <- !app_assoc in Hin. apply app_inv_head in Hin.
  rewrite !length_app in Hoff. apply app_inj_1 in Hin; [done|lia].
Qed.

(** Two runs of one parser at the same place are the same run. *)
Lemma parses_unique {A} (p : parser A) R x x' m m' r r' :
  parses p R -> bytes_ok (m ++ r) -> R x m -> R x' m' -> m ++ r = m' ++ r' -> x = x' /\ m = m' /\ r = r'.
Proof.
  intros Hp Hok Hm Hm' E. pose proof (parses_complete _ _ Hp [] m r x Hok Hm) as E1.
  rewrite E in Hok, E1. rewrite (parses_complete _ _ Hp [] m' r' x' Hok Hm') in E1.
  assert (Ex : x' = x /\ cursor_at ([] ++ m') r' = cursor_at ([] ++ m) r) by (split; congruence).
  destruct Ex as [-> Ec]. apply cursor_at_inj in Ec as [-> ->]. done.
Qed.

Lemma header_unique h h' r r' :
  header_ok h -> header_ok h' -> bytes_ok (header_octets h ++ r) -> header_octets h ++ r = header_octets h' ++ r' ->
  lh_algorithms h = lh_algorithms h' /\ header_octets h = header_octets h' /\ r = r'.
Proof.
  intros [Hd Hs] [Hd' Hs'] Hok E. pose proof (spec_octets_length h Hs) as L. pose proof (spec_octets_length h' Hs') as L'.
  assert (Hlt : zlen (spec_octets h) < 2 ^ 32 /\ zlen (spec_octets h') < 2 ^ 32) by lia.
  destruct (parses_unique _ _ (spec_octets h) (spec_octets h') _ _ _ _ parses_header Hok
    (ex_intro _ (lh_digest h) (conj Hd (conj (proj1 Hlt) eq_refl))) (ex_intro _ (lh_digest h') (conj Hd' (conj (proj2 Hlt) eq_refl))) E)
    as (Es & Eh & Er). split; [|done].
  unfold spec_octets in Es. apply app_inv_head in Es. pose proof Hok as [[_ [_ Hok']%bytes_ok_app]%bytes_ok_app _]%bytes_ok_app.
  destruct (parses_unique _ _ (lh_algorithms h, bank_sha256 (lh_algorithms h)) (lh_algorithms h', bank_sha256 (lh_algorithms h'))
    (spec_rest h) (spec_rest h') [] [] parses_spec_body) as ([= Ea _] & _); [by rewrite app_nil_r|by exists h|by exists h'|by rewrite !app_nil_r|done].
Qed.

(** ** Logs *)

Definition events_octets (es : list log_event) : bytes := concat (event_octets <$> es).

Lemma event_octets_length e : 12 <= zlen (event_octets e).
Proof. unfold event_octets. rewrite !length_app, !le_bytes_length. lia. Qed.

(** Where the last event starts, when the first one starts at [offset]. *)
Fixpoint last_start (last offset : Z) (es : list log_event) : Z :=
  match es with
  | [] => last
  | e :: es => last_start offset (offset + zlen (event_octets e)) es
  end.

Lemma log_events_cases algorithms fuel count last pre post :
  sizes_ok algorithms -> bytes_ok post -> (length post <= fuel)%nat ->
  (exists es, Forall (event_ok algorithms) es /\ post = events_octets es
    /\ log_events fuel algorithms count last (cursor_at pre post)
       = Parsed (count + zlen es, last_start last (zlen pre) es) (cursor_at (pre ++ post) []))
  \/ (log_events fuel algorithms count last (cursor_at pre post) = Rejected
      /\ forall es, Forall (event_ok algorithms) es -> post <> events_octets es).
Proof.
  intros Ha. revert count last pre post. induction fuel as [|fuel IH]; intros count last pre post Hok Hf.
  { destruct post; [|cbn in Hf; lia]. left. exists []. cbn [log_events cursor_at lc_offset lc_input app]. rewrite app_nil_r, Z.ltb_irrefl.
    split; [constructor|]. split; [done|]. cbn. unfold cursor_at. by rewrite app_nil_r, Z.add_0_r. }
  cbn [log_events cursor_at lc_offset lc_input]. rewrite length_app. destruct (Z.ltb_spec (zlen pre) (Z.of_nat (length pre + length post))) as [Hlt|Hge].
  2: { destruct post; [|cbn [length] in *; lia]. left. exists []. split; [constructor|]. split; [done|]. cbn. unfold cursor_at. by rewrite !app_nil_r, Z.add_0_r. }
  change (mk_cursor (pre ++ post) (zlen pre)) with (cursor_at pre post).
  destruct (parses_cases _ _ pre post (parses_event2 algorithms Ha) Hok) as [([] & m & post' & -> & (e & He & ->) & E)|[E Hno]]; rewrite E.
  - apply bytes_ok_app in Hok as [Hoke Hok]. pose proof (event_octets_length e) as Hl. rewrite length_app in Hf.
    destruct (IH (count + 1) (zlen pre) (pre ++ event_octets e) post' Hok ltac:(lia)) as [(es & Hes & -> & E')|[E' Hno]]; [left|right].
    + exists (e :: es). split; [by constructor|]. split; [done|]. rewrite E'. cbn [last_start length]. rewrite <- app_assoc. f_equal.
      rewrite length_app. f_equal; [lia|]. f_equal. lia.
    + split; [done|]. intros [|e' es] Hes Eq; [apply (f_equal length) in Eq; rewrite length_app in Eq; change (length (events_octets [])) with 0%nat in Eq; lia|].
      apply Forall_cons_iff in Hes as [He' Hes]. unfold events_octets in Eq. rewrite fmap_cons in Eq. cbn [concat] in Eq.
      destruct (parses_unique _ _ tt tt _ _ _ _ (parses_event2 algorithms Ha) ltac:(apply bytes_ok_app; split; [exact Hoke|exact Hok])
        (ex_intro _ e (conj He eq_refl)) (ex_intro _ e' (conj He' eq_refl)) Eq) as (_ & _ & Er). by apply (Hno es).
  - right. split; [done|]. intros [|e es] Hes Eq; [unfold events_octets in Eq; cbn in Eq; subst post; cbn [length] in Hlt; lia|].
    apply Forall_cons_iff in Hes as [He Hes]. apply (Hno tt (event_octets e) (events_octets es) Eq). by exists e.
Qed.

(** A well-formed log: a header with a SHA-256 bank and at least one event. *)
Definition log_ok (h : log_header) (es : list log_event) : Prop :=
  header_ok h /\ bank_sha256 (lh_algorithms h) = true /\ Forall (event_ok (lh_algorithms h)) es /\ es <> [].

Definition log_octets (h : log_header) (es : list log_event) : bytes := header_octets h ++ events_octets es.

Definition parsed_of (h : log_header) (es : list log_event) : pbns_parsed_log :=
  mk_parsed_log (lh_algorithms h) (1 + zlen es) (last_start 0 (zlen (header_octets h)) es) true.

Lemma header_sizes h : header_ok h -> sizes_ok (lh_algorithms h).
Proof. intros [_ (_ & _ & _ & _ & Ha & _)]. eapply Forall_impl; [|exact Ha]. intros a (_ & Hs & _). lia. Qed.

Lemma parse_log_cases p log :
  p <> 0 -> bytes_ok log -> 0 < zlen log <= PBNS_MEASURED_BOOT_EVENT_LOG_MAX_SIZE ->
  (exists h es, log_ok h es /\ log = log_octets h es /\ parse_log (mk_view p log) = Some (inr (parsed_of h es)))
  \/ (exists st, (st = PBNS_ERR_FORMAT \/ st = PBNS_ERR_UNSUPPORTED) /\ parse_log (mk_view p log) = Some (inl st)
      /\ forall h es, log_ok h es -> log <> log_octets h es).
Proof.
  intros Hp Hok Hl. unfold parse_log, v_len. cbn [v_ptr v_data].
  rewrite (proj2 (Z.eqb_neq p 0)), (proj2 (Z.eqb_neq (zlen log) 0)), (proj2 (Z.ltb_ge _ _)) by lia. cbn [orb].
  destruct (parse_header_cases log Hok) as [(h & rest & Hh & -> & ->)|[-> Hno]]; cbn [mbind option_bind].
  2: { right. eexists. split; [by left|]. split; [done|]. intros h es (Hh & _) ->. by apply (Hno h (events_octets es)). }
  assert (Hu : forall h' es, log_ok h' es -> header_octets h ++ rest = log_octets h' es ->
    lh_algorithms h = lh_algorithms h' /\ rest = events_octets es).
  { intros h' es (Hh' & _) Eq. destruct (header_unique h h' rest (events_octets es) Hh Hh' Hok Eq) as (Ha & _ & Hr). done. }
  destruct (bank_sha256 (lh_algorithms h)) eqn:Eb.
  2: { right. eexists. split; [by right|]. split; [done|]. intros h' es Hlog Eq. destruct (Hu h' es Hlog Eq) as [Ha _].
       destruct Hlog as (_ & Hb & _). congruence. }
  apply bytes_ok_app in Hok as [_ Hokr].
  destruct (log_events_cases (lh_algorithms h) (length (header_octets h ++ rest)) 1 0 (header_octets h) rest)
    as [(es & Hes & -> & ->)|[-> Hno]]; [by apply header_sizes|done|rewrite length_app; lia| |].
  - destruct es as [|e es].
    + right. eexists. split; [by left|]. split; [done|]. intros h' [|e' es'] Hlog Eq; [by destruct Hlog as (_ & _ & _ & [])|].
      destruct (Hu h' _ Hlog Eq) as [_ Er]. unfold events_octets in Er at 2. rewrite fmap_cons in Er. cbn [concat] in Er.
      apply (f_equal length) in Er. rewrite length_app in Er. pose proof (event_octets_length e').
      change (length (events_octets [])) with 0%nat in Er. lia.
    + left. exists h, (e :: es). split; [done|]. split; [done|]. rewrite (proj2 (Z.ltb_ge _ 2)) by (cbn [length]; lia). done.
  - right. eexists. split; [by left|]. split; [done|]. intros h' es Hlog Eq. destruct (Hu h' es Hlog Eq) as [Ha ->].
    destruct Hlog as (_ & _ & Hes & _). apply (Hno es); [by rewrite Ha|done].
Qed.
