(* ===== verification/MeasuredProps.v ===== *)
(** * Properties of measured boot

    The event log is validated against its grammar, its end is found, the
    selection of registers has one canonical encoding, and captured evidence is a
    well-formed log with its digest and a register reading that held still. *)

From stdpp Require Import base list numbers.
From Stdlib Require Import ZArith Lia.
From S2P Require Import Prelude Endian Status Buffers MeasuredBoot MeasuredLog.

(** ** The end of a log *)

Lemma last_start_bound es last offset : es <> [] -> offset <= last_start last offset es.
Proof.
  revert last offset. induction es as [|e es IH]; intros last offset Hne; [done|]. cbn [last_start].
  destruct es as [|e' es]; [cbn; lia|]. specialize (IH offset (offset + zlen (event_octets e)) ltac:(done)).
  pose proof (event_octets_length e). lia.
Qed.

Lemma last_start_default es x y offset : es <> [] -> last_start x offset es = last_start y offset es.
Proof. by destruct es. Qed.

Lemma events_until_found algorithms es last pre junk fuel :
  sizes_ok algorithms -> es <> [] -> Forall (event_ok algorithms) es -> bytes_ok (events_octets es ++ junk) ->
  last = last_start 0 (zlen pre) es -> (length es <= fuel)%nat ->
  events_until fuel algorithms last (cursor_at pre (events_octets es ++ junk))
  = Parsed (zlen pre + zlen (events_octets es)) (cursor_at (pre ++ events_octets es) junk).
Proof.
  intros Ha. revert pre fuel. induction es as [|e es IH]; intros pre fuel Hne Hes Hok Hlast Hf; [done|].
  destruct fuel as [|fuel]; [cbn in Hf; lia|]. apply Forall_cons_iff in Hes as [He Hes].
  pose proof (last_start_bound (e :: es) 0 (zlen pre) Hne) as Hb. rewrite <- Hlast in Hb.
  cbn [events_until cursor_at lc_offset]. rewrite (proj2 (Z.leb_le _ _)) by lia.
  unfold events_octets in *. rewrite fmap_cons in *. cbn [concat] in *. rewrite <- app_assoc in Hok |- *.
  change (mk_cursor (pre ++ event_octets e ++ concat (event_octets <$> es) ++ junk) (zlen pre))
    with (cursor_at pre (event_octets e ++ concat (event_octets <$> es) ++ junk)).
  rewrite (parses_complete _ _ (parses_event2 algorithms Ha) pre (event_octets e) _ tt Hok (ex_intro _ e (conj He eq_refl))).
  apply bytes_ok_app in Hok as [_ Hok]. pose proof (event_octets_length e) as Hl. destruct es as [|e' es].
  - cbn in Hlast. rewrite Hlast, Z.eqb_refl. cbn [fmap list_fmap concat app cursor_at lc_offset].
    f_equal; [rewrite !length_app; cbn; lia|]. by rewrite app_nil_r.
  - pose proof (last_start_bound (e' :: es) (zlen pre) (zlen pre + zlen (event_octets e)) ltac:(done)) as Hb'.
    assert (Hl2 : last = last_start (zlen pre) (zlen pre + zlen (event_octets e)) (e' :: es)) by exact Hlast.
    rewrite <- Hl2 in Hb'. rewrite (proj2 (Z.eqb_neq _ _)), (proj2 (Z.ltb_ge _ _)) by lia.
    rewrite (IH (pre ++ event_octets e) fuel); [|done|done|done| |cbn in *; lia].
    + rewrite !length_app, <- !app_assoc. f_equal. lia.
    + rewrite Hl2. rewrite length_app, Nat2Z.inj_add. by apply last_start_default.
Qed.

Lemma events_until_sound algorithms last fuel pre post size c :
  sizes_ok algorithms -> bytes_ok post ->
  events_until fuel algorithms last (cursor_at pre post) = Parsed size c ->
  exists es junk, es <> [] /\ Forall (event_ok algorithms) es /\ post = events_octets es ++ junk
  /\ last = last_start 0 (zlen pre) es /\ size = zlen pre + zlen (events_octets es).
Proof.
  intros Ha. revert pre post. induction fuel as [|fuel IH]; intros pre post Hok E; cbn [events_until cursor_at lc_offset] in E.
  { by destruct (_ <=? _). }
  destruct (Z.leb_spec (zlen pre) last) as [Hle|]; [|done].
  change (mk_cursor (pre ++ post) (zlen pre)) with (cursor_at pre post) in E.
  destruct (parses_cases _ _ pre post (parses_event2 algorithms Ha) Hok) as [([] & m & post' & -> & (e & He & ->) & Ep)|[Ep _]];
    rewrite Ep in E; [|done]. apply bytes_ok_app in Hok as [_ Hok]. destruct (Z.eqb_spec (zlen pre) last) as [<-|Hne].
  - injection E as <- _. exists [e], post'. split; [done|]. split; [by constructor|]. unfold events_octets. cbn [fmap list_fmap concat].
    rewrite app_nil_r. split; [done|]. split; [done|]. cbn [cursor_at lc_offset]. rewrite length_app. lia.
  - rewrite (proj2 (Z.ltb_ge _ _)) in E by lia. apply IH in E as (es & junk & Hn & Hes & -> & -> & ->); [|done].
    exists (e :: es), junk. split; [done|]. split; [by constructor|]. split.
    { unfold events_octets. rewrite fmap_cons. cbn [concat]. by rewrite <- app_assoc. }
    rewrite length_app, Nat2Z.inj_add. cbn [last_start]. split; [by apply last_start_default|].
    unfold events_octets. rewrite fmap_cons. cbn [concat]. rewrite length_app. lia.
Qed.

Lemma events_until_total algorithms last fuel pre post :
  sizes_ok algorithms -> bytes_ok post -> (length post < fuel)%nat ->
  events_until fuel algorithms last (cursor_at pre post) <> Fault.
Proof.
  intros Ha. revert pre post. induction fuel as [|fuel IH]; intros pre post Hok Hf; [lia|]. cbn [events_until cursor_at lc_offset].
  destruct (_ <=? _); [|done]. change (mk_cursor (pre ++ post) (zlen pre)) with (cursor_at pre post).
  destruct (parses_cases _ _ pre post (parses_event2 algorithms Ha) Hok) as [([] & m & post' & -> & (e & He & ->) & Ep)|[Ep _]];
    rewrite Ep; [|done]. apply bytes_ok_app in Hok as [_ Hok]. destruct (_ =? _); [done|]. destruct (_ <? _); [done|].
  apply IH; [done|]. pose proof (event_octets_length e). rewrite length_app in Hf. lia.
Qed.

Lemma events_count algorithms es : Forall (event_ok algorithms) es -> (length es <= length (events_octets es))%nat.
Proof.
  induction 1 as [|e es _ _ IH]; [done|]. unfold events_octets in *. rewrite fmap_cons. cbn [concat length]. rewrite length_app.
  pose proof (event_octets_length e). lia.
Qed.

(** The end is found exactly behind the entry that starts at the given offset. *)
Lemma locate_cases bounded last :
  bytes_ok bounded ->
  exists st size, locate_event_log_end bounded last = Some (st, size)
  /\ (st = PBNS_OK \/ size = 0)
  /\ (st = PBNS_OK <-> exists h es junk, log_ok h es /\ bounded = log_octets h es ++ junk
      /\ last = last_start 0 (zlen (header_octets h)) es)
  /\ (forall h es junk, log_ok h es -> bounded = log_octets h es ++ junk ->
      last = last_start 0 (zlen (header_octets h)) es -> size = zlen (log_octets h es)).
Proof.
  intros Hok. unfold locate_event_log_end.
  destruct (parse_header_cases bounded Hok) as [(h & rest & Hh & -> & ->)|[-> Hno]]; cbn [mbind option_bind].
  2: { cbn. eexists _, _. split; [done|]. split; [by right|]. split; [split; [done|]|]; [intros (h & es & junk & (Hh & _) & Eq & _)|intros h es junk (Hh & _) Eq _];
         (unfold log_octets in Eq; rewrite <- app_assoc in Eq; by apply Hno in Eq). }
  assert (Hu : forall h' es junk, log_ok h' es -> header_octets h ++ rest = log_octets h' es ++ junk ->
    lh_algorithms h = lh_algorithms h' /\ header_octets h = header_octets h' /\ rest = events_octets es ++ junk).
  { intros h' es junk (Hh' & _) Eq. unfold log_octets in Eq. rewrite <- app_assoc in Eq. by apply header_unique. }
  destruct (bank_sha256 (lh_algorithms h)) eqn:Eb.
  2: { cbn. eexists _, _. split; [done|]. split; [by right|].
       split; [split; [done|]|]; [intros (h' & es & junk & Hl & Eq & _)|intros h' es junk Hl Eq _];
         destruct (Hu h' es junk Hl Eq) as (Ha & _); destruct Hl as (_ & Hb & _); congruence. }
  assert (Hokr : bytes_ok rest) by (by apply bytes_ok_app in Hok as [_ ?]). pose proof (header_sizes h Hh) as Hs.
  assert (Hfind : forall h' es junk, log_ok h' es -> header_octets h ++ rest = log_octets h' es ++ junk ->
    last = last_start 0 (zlen (header_octets h')) es ->
    zlen (header_octets h) <= last /\ events_until (length (header_octets h ++ rest) + 1) (lh_algorithms h) last (cursor_at (header_octets h) rest)
      = Parsed (zlen (log_octets h' es)) (cursor_at (header_octets h ++ events_octets es) junk)).
  { intros h' es junk Hl Eq El. destruct (Hu h' es junk Hl Eq) as (Ha & Eh & ->). destruct Hl as (_ & _ & Hes & Hne).
    rewrite <- Eh in El. split; [rewrite El; by apply last_start_bound|]. rewrite <- Ha in Hes. pose proof (events_count _ _ Hes).
    rewrite events_until_found; try done; [|rewrite !length_app; lia]. unfold log_octets. rewrite <- Eh, length_app. f_equal. lia. }
  destruct (Z.ltb_spec last (lc_offset (cursor_at (header_octets h) rest))) as [Hlt|Hge]; cbn [cursor_at lc_offset] in *.
  { eexists _, _. split; [done|]. split; [by right|].
    split; [split; [done|]|]; [intros (h' & es & junk & Hl & Eq & El)|intros h' es junk Hl Eq El]; destruct (Hfind h' es junk Hl Eq El); lia. }
  change (mk_cursor (header_octets h ++ rest) (zlen (header_octets h))) with (cursor_at (header_octets h) rest).
  destruct (events_until _ _ _ _) as [size c| |] eqn:Eu.
  - eexists _, _. split; [done|]. split; [by left|]. pose proof Eu as Eu'.
    apply events_until_sound in Eu' as (es & junk & Hne & Hes & -> & -> & ->); [|done..]. split.
    + split; [|done]. intros _. exists h, es, junk. split; [done|]. split; [by unfold log_octets; rewrite <- app_assoc|done].
    + intros h' es' junk' Hl Eq El. destruct (Hfind h' es' junk' Hl Eq El) as [_ E']. congruence.
  - eexists _, _. split; [done|]. split; [by right|].
    split; [split; [done|]|]; [intros (h' & es & junk & Hl & Eq & El)|intros h' es junk Hl Eq El]; destruct (Hfind h' es junk Hl Eq El); congruence.
  - destruct (events_until_total (lh_algorithms h) last (length (header_octets h ++ rest) + 1) (header_octets h) rest); try done.
    rewrite length_app. lia.
Qed.

(** ** Final events *)

Lemma parses_final_events algorithms n :
  sizes_ok algorithms ->
  parses (final_events_loop n algorithms) (fun _ m => exists es, length es = n /\ Forall (event_ok algorithms) es /\ m = events_octets es).
Proof.
  intros Ha. induction n as [|n IH]; cbn [final_events_loop].
  { eapply parses_weaken; [|apply (parses_ret tt)]. intros [] m _. split.
    - intros [_ ->]. by exists [].
    - intros (es & Hl & _ & ->). by destruct es. }
  eapply parses_weaken; [|apply parses_bind; [by apply parses_event2|]; intros q m0 _ _; exact IH].
  intros [] m _. split.
  - intros (? & m1 & m2 & -> & (e & He & ->) & es & Hl & Hes & ->). exists (e :: es). cbn. split; [lia|]. split; [by constructor|done].
  - intros (es & Hl & Hes & ->). destruct es as [|e es]; [done|]. apply Forall_cons_iff in Hes as [He Hes].
    exists tt, (event_octets e), (events_octets es). split; [done|]. split; [by exists e|]. exists es. cbn in Hl. split; [lia|done].
Qed.

(** A table of final events: version, count, events. *)
Definition table_octets (es : list log_event) : bytes := le_bytes 8 1 ++ le_bytes 8 (zlen es) ++ events_octets es.

Lemma table_split table :
  bytes_ok table -> 16 <= zlen table -> le_value (slice table 0 8) = 1 ->
  table = le_bytes 8 1 ++ le_bytes 8 (le_value (slice table 8 8)) ++ drop 16 table.
Proof.
  intros Hok Hl E. assert (Hw : forall i, 0 <= i -> i + 8 <= 16 -> le_bytes 8 (le_value (slice table i 8)) = slice table i 8).
  { intros i Hi Hi'. pose proof (slice_length table i 8 Hi ltac:(lia) ltac:(lia)) as Hs.
    replace 8%nat with (length (slice table i 8)) by lia. apply le_bytes_value. auto with pbns. }
  rewrite <- E, !Hw, app_assoc by lia. rewrite <- slice_split by lia. unfold slice. rewrite drop_0. symmetry. apply take_drop.
Qed.

(** What is taken of a table that must be exact. *)
Lemma final_events_cases (table : pbns_view) (base : pbns_parsed_log) :
  sizes_ok (pl_algorithms base) -> bytes_ok (v_data table) -> v_len table <> 0 ->
  exists r, parse_final_events_bounded table base true = Some r
  /\ match r with
     | inl st => st <> PBNS_OK
     | inr (events, count, size) => exists es, Forall (event_ok (pl_algorithms base)) es /\ v_data table = table_octets es
         /\ v_data events = events_octets es /\ v_ptr events = v_ptr table + 16 /\ count = zlen es /\ size = v_len table
     end.
Proof.
  intros Ha Hok Hne. unfold parse_final_events_bounded, PBNS_TCG_FINAL_EVENTS_HEADER_SIZE, PBNS_TCG_FINAL_EVENTS_VERSION.
  rewrite (proj2 (Z.eqb_neq (v_len table) 0)) by done. destruct (_ || _) eqn:Eb; [by eexists|]. bools. unfold v_len in *.
  rewrite !load_u64_value by (done || lia). cbn [mbind option_bind].
  destruct (Z.eqb_spec (le_value (slice (v_data table) 0 8)) 1) as [Ev|]; cbn [negb]; [|by eexists].
  destruct (_ <? le_value _) eqn:El; [by eexists|]. change (Z.to_nat 16) with 16%nat.
  pose proof (table_split (v_data table) Hok ltac:(lia) Ev) as Et. set (count := le_value (slice (v_data table) 8 8)) in *.
  assert (Hc : 0 <= count) by (apply le_value_bound; auto with pbns).
  set (input := drop 16 (v_data table)) in *. assert (Hoki : bytes_ok input) by (unfold input; auto with pbns).
  change (mk_cursor input 0) with (cursor_at [] input).
  destruct (parses_cases _ _ [] input (parses_final_events (pl_algorithms base) (Z.to_nat count) Ha) Hoki)
    as [([] & m & post' & Ei & (es & Hl & Hes & ->) & ->)|[-> _]]; [|by eexists].
  cbn [cursor_at lc_offset app]. destruct (Z.eqb_spec (zlen (events_octets es)) (zlen input)) as [Ee|]; cbn [negb andb]; [|by eexists].
  assert (post' = []) as ->. { apply nil_length_inv. apply (f_equal length) in Ei. rewrite length_app in Ei. lia. }
  rewrite app_nil_r in Ei. eexists. split; [done|]. exists es. cbn [v_data v_ptr]. split; [done|]. rewrite Ee, slice_all by done.
  replace (zlen es) with count by lia. unfold table_octets. split; [rewrite Et at 1; rewrite Ei; by replace (zlen es) with count by lia|].
  split; [done|]. split; [done|]. split; [done|]. apply (f_equal length) in Et. rewrite !length_app, !le_bytes_length in Et.
  unfold v_len. rewrite Et, !Nat2Z.inj_add. lia.
Qed.

(** A table that fits is taken whole. *)
Lemma final_events_complete tp fs base :
  sizes_ok (pl_algorithms base) -> tp <> 0 -> Forall (event_ok (pl_algorithms base)) fs -> bytes_ok (table_octets fs) ->
  zlen (table_octets fs) <= PBNS_MEASURED_BOOT_EVENT_LOG_MAX_SIZE ->
  parse_final_events_bounded (mk_view tp (table_octets fs)) base true
  = Some (inr (mk_view (tp + 16) (events_octets fs), zlen fs, 16 + zlen (events_octets fs))).
Proof.
  intros Ha Htp Hfs Hok Hmax. pose proof (events_count _ _ Hfs) as Hc.
  assert (Htl : zlen (table_octets fs) = 16 + zlen (events_octets fs)) by (unfold table_octets; rewrite !length_app, !le_bytes_length; lia).
  unfold parse_final_events_bounded, PBNS_TCG_FINAL_EVENTS_HEADER_SIZE, PBNS_TCG_FINAL_EVENTS_VERSION, v_len, PBNS_MEASURED_BOOT_EVENT_LOG_MAX_SIZE in *. cbn [v_ptr v_data].
  rewrite (proj2 (Z.eqb_neq (zlen (table_octets fs)) 0)), (proj2 (Z.eqb_neq tp 0)), (proj2 (Z.ltb_ge (zlen (table_octets fs)) 16)),
    (proj2 (Z.ltb_ge _ (zlen (table_octets fs)))) by lia. cbn [orb]. rewrite !load_u64_value by (done || lia). cbn [mbind option_bind].
  rewrite (slice_eq _ [] (le_bytes 8 1) (le_bytes 8 (zlen fs) ++ events_octets fs) 0 8) by done.
  rewrite (slice_eq _ (le_bytes 8 1) (le_bytes 8 (zlen fs)) (events_octets fs) 8 8) by done.
  rewrite !le_value_bytes by (change (256 ^ Z.of_nat 8) with (2 ^ 64); lia). cbn [Z.eqb Pos.eqb negb].
  rewrite (proj2 (Z.ltb_ge _ (zlen fs))) by lia. rewrite Nat2Z.id.
  assert (Hd : drop (Z.to_nat 16) (table_octets fs) = events_octets fs).
  { unfold table_octets. rewrite app_assoc. by rewrite drop_app_length' by (by rewrite length_app, !le_bytes_length). }
  rewrite Hd. change (mk_cursor (events_octets fs) 0) with (cursor_at [] (events_octets fs)).
  assert (Hoke : bytes_ok (events_octets fs ++ [])).
  { rewrite app_nil_r. unfold table_octets in Hok. by apply bytes_ok_app in Hok as [_ [_ ?]%bytes_ok_app]. }
  pose proof (parses_complete _ _ (parses_final_events (pl_algorithms base) (length fs) Ha) [] (events_octets fs) [] tt Hoke
    (ex_intro _ fs (conj eq_refl (conj Hfs eq_refl)))) as Hp. rewrite app_nil_r in Hp. rewrite Hp.
  cbn [app cursor_at lc_offset]. rewrite Z.eqb_refl. cbn [negb andb]. by rewrite slice_all by done.
Qed.

(** ** Selections *)

Definition selection_typed (selection : pbns_measured_boot_selection) : Prop :=
  match sel_items selection with
  | Some items => zlen items = sel_count selection
      /\ Forall (fun i => 0 <= sel_hash_algorithm i < 2 ^ 16 /\ is_byte (sel_pcr_index i)) items
  | None => True
  end.

Definition item_octets (item : pbns_measured_boot_selection_item) : bytes :=
  [u8 (Z.shiftr (sel_hash_algorithm item) 8); u8 (sel_hash_algorithm item); sel_pcr_index item].

Definition items_octets (items : list pbns_measured_boot_selection_item) : bytes := concat (item_octets <$> items).

Lemma items_octets_length items : zlen (items_octets items) = 3 * zlen items.
Proof. unfold items_octets. induction items as [|i items IH]; [done|]. rewrite fmap_cons. cbn [concat length app item_octets]. lia. Qed.

Lemma write_items_next d rest idx items :
  zlen d = 3 * idx -> 3 * zlen items <= zlen rest ->
  write_items (d ++ rest) idx items = Some ((d ++ items_octets items) ++ drop (length (items_octets items)) rest).
Proof.
  revert d rest idx. induction items as [|i items IH]; intros d rest idx Hd Hr.
  { cbn. by rewrite app_nil_r. }
  cbn [write_items length] in *. unfold write_item, PBNS_MEASURED_BOOT_CANONICAL_ITEM_SIZE.
  rewrite wr_next by lia. cbn [mbind option_bind]. rewrite wr_next by llia. cbn [mbind option_bind]. rewrite wr_next by llia. cbn [mbind option_bind].
  rewrite !drop_drop. rewrite IH by llia. unfold items_octets. rewrite fmap_cons. cbn [concat]. f_equal.
  rewrite drop_drop. rewrite length_app. cbn [item_octets length]. rewrite <- !app_assoc. done.
Qed.

(** The structure test leaves between one and twenty-four registers in order. *)
Lemma selection_structure_total selection :
  selection_typed selection ->
  exists st, selection_structure selection = Some st
  /\ (st = PBNS_OK -> exists items, sel_items selection = Some items /\ 1 <= zlen items <= 24 /\ zlen items = sel_count selection).
Proof.
  unfold selection_typed, selection_structure, PBNS_MEASURED_BOOT_SELECTION_MAX_COUNT.
  destruct (sel_items selection) as [items|]; [|by eexists]. intros [Hl _]. destruct (_ || _) eqn:E; [by eexists|].
  rewrite rd_slice_inside by lia. cbn [mbind option_bind]. eexists. split; [done|]. intros _. exists items. bools. split; [done|lia].
Qed.

Lemma encode_selection_spec selection output :
  selection_typed selection -> 72 <= zlen output ->
  exists st data n, encode_canonical_selection selection output = Some (st, data, n)
  /\ selection_structure selection = Some st
  /\ (st = PBNS_OK -> exists items, sel_items selection = Some items /\ n = zlen (items_octets items)
      /\ rd_slice data 0 n = Some (items_octets items)).
Proof.
  intros Ht Ho. destruct (selection_structure_total selection Ht) as (st & Es & Hok). unfold encode_canonical_selection. rewrite Es.
  cbn [mbind option_bind]. destruct (is_ok st) eqn:Ek; cbn [negb].
  2: { eexists _, _, _. split; [done|]. split; [done|]. apply is_ok_false in Ek. done. }
  apply is_ok_spec in Ek as ->. destruct (Hok eq_refl) as (items & Ei & Hn & Hc). unfold PBNS_MEASURED_BOOT_CANONICAL_ITEM_SIZE.
  rewrite (proj2 (Z.ltb_ge _ _)) by lia. rewrite Ei. cbn [mbind option_bind]. rewrite rd_slice_inside, slice_all by lia. cbn [mbind option_bind].
  pose proof (write_items_next [] output 0 items eq_refl ltac:(lia)) as Hw. cbn [app] in Hw. rewrite Hw. cbn [mbind option_bind].
  eexists _, _, _. split; [done|]. split; [done|]. intros _. exists items. pose proof (items_octets_length items) as Hl.
  split; [done|]. split; [lia|]. apply rd_slice_prefix. lia.
Qed.

(** ** Copies *)

Lemma splice_step (dest : bytes) (off : Z) src n b :
  0 <= off -> off + Z.of_nat (S n) <= zlen dest -> src !! n = Some b ->
  splice (<[Z.to_nat (off + Z.of_nat n) := b]> dest) off (take n src) = splice dest off (take (S n) src).
Proof.
  intros Hoff Hfit Hb. pose proof (lookup_lt_Some _ _ _ Hb) as Hlt. unfold splice.
  rewrite (take_S_r _ _ _ Hb), !length_app, length_take. cbn [length]. rewrite <- app_assoc.
  replace (Nat.min n (length src)) with n by lia. replace (Z.to_nat (off + Z.of_nat n)) with (Z.to_nat off + n)%nat by lia.
  rewrite take_insert_ge by lia. do 2 f_equal.
  assert (Hl : (Z.to_nat off + n < length dest)%nat) by lia.
  rewrite (drop_S _ b) by (by apply list_lookup_insert_eq). rewrite drop_insert_lt by lia. cbn [app]. do 2 f_equal. lia.
Qed.

Lemma copy_backward_splice dest off src n :
  0 <= off -> off + zlen src <= zlen dest -> (n <= length src)%nat ->
  copy_backward dest off src n = Some (splice dest off (take n src)).
Proof.
  revert dest. induction n as [|n IH]; intros dest Hoff Hfit Hn; cbn [copy_backward].
  { unfold splice. rewrite take_0. cbn [app length]. by rewrite Nat.add_0_r, take_drop. }
  destruct (lookup_lt_is_Some_2 src n ltac:(lia)) as [b Hb].
  rewrite rd_inside by lia. rewrite Nat2Z.id, Hb. cbn [mbind option_bind]. rewrite wr_inside by lia. cbn [mbind option_bind].
  rewrite IH by (rewrite ?length_insert; lia). f_equal. apply splice_step; [lia|lia|done].
Qed.

Lemma move_bytes_splice da dest off sa src :
  0 <= off -> off + zlen src <= zlen dest -> move_bytes da dest off sa src = Some (splice dest off src).
Proof.
  intros Hoff Hfit. unfold move_bytes. destruct (_ && _).
  - rewrite copy_backward_splice by (done || lia). by rewrite take_ge by lia.
  - by apply wr_list_splice.
Qed.

Lemma splice_0 {A} (dest src : list A) : splice dest 0 src = src ++ drop (length src) dest.
Proof. done. Qed.

Lemma splice_next (a b dest : bytes) :
  zlen a + zlen b <= zlen dest ->
  splice (a ++ drop (length a) dest) (zlen a) b = (a ++ b) ++ drop (length (a ++ b)) dest.
Proof.
  intros Hfit. unfold splice. rewrite Nat2Z.id, take_app_length, <- drop_drop, drop_app_length, drop_drop, length_app.
  by rewrite app_assoc.
Qed.

Lemma zero_prefix_assembled (complete dest : bytes) :
  zlen complete <= zlen dest ->
  zero_prefix (complete ++ drop (length complete) dest) (zlen complete) = zero_prefix dest (zlen complete).
Proof. intros H. unfold zero_prefix. by rewrite Nat2Z.id, drop_app_length. Qed.

(** ** Assembling the log *)

(** The octets that follow the base log. *)
Definition appended (source : pbns_measured_boot_event_source) : bytes :=
  match es_final_disposition source with
  | PBNS_MEASURED_BOOT_FINAL_APPEND => drop 16 (v_data (es_final_events_table source))
  | _ => []
  end.

Lemma validate_cases p log :
  p <> 0 -> bytes_ok log -> 0 < zlen log <= PBNS_MEASURED_BOOT_EVENT_LOG_MAX_SIZE ->
  exists st summary, validate_event_log (mk_view p log) = Some (st, summary)
  /\ (st = PBNS_OK -> exists h es, log_ok h es /\ log = log_octets h es /\ ms_event_count summary = 1 + zlen es).
Proof.
  intros Hp Hok Hl. unfold validate_event_log.
  destruct (parse_log_cases p log Hp Hok Hl) as [(h & es & Hlog & -> & ->)|(st & Hst & -> & _)]; cbn [mbind option_bind].
  - eexists _, _. split; [done|]. intros _. by exists h, es.
  - eexists _, _. split; [done|]. by destruct Hst as [->| ->].
Qed.

Lemma parse_log_total view :
  bytes_ok (v_data view) ->
  exists r, parse_log view = Some r /\ match r with
    | inl st => st <> PBNS_OK
    | inr parsed => v_ptr view <> 0 /\ 0 < v_len view <= PBNS_MEASURED_BOOT_EVENT_LOG_MAX_SIZE /\ sizes_ok (pl_algorithms parsed)
    end.
Proof.
  intros Hok. destruct view as [p log]. unfold v_len. cbn [v_data v_ptr] in *. destruct (decide (p = 0 \/ log = [])) as [Hz|Hnz].
  { unfold parse_log, v_len. cbn [v_ptr v_data].
    assert (E : (p =? 0) || (zlen log =? 0) = true) by (destruct Hz as [->| ->]; [done|apply orb_true_r]). rewrite E. by eexists. }
  assert (Hp : p <> 0) by tauto. assert (Hl : 0 < zlen log) by (destruct log; [tauto|cbn; lia]).
  destruct (decide (zlen log <= PBNS_MEASURED_BOOT_EVENT_LOG_MAX_SIZE)) as [Hm|Hm].
  2: { unfold parse_log, v_len. cbn [v_ptr v_data]. rewrite (proj2 (Z.eqb_neq p 0)), (proj2 (Z.eqb_neq (zlen log) 0)), (proj2 (Z.ltb_lt _ _)) by lia.
       by eexists. }
  destruct (parse_log_cases p log Hp Hok ltac:(lia)) as [(h & es & Hlog & -> & ->)|(st & Hst & -> & _)].
  - eexists. split; [done|]. split; [done|]. split; [lia|]. apply header_sizes, Hlog.
  - eexists. split; [done|]. by destruct Hst as [->| ->].
Qed.

Section capture.
Context `{M : Machine} {W : Type}.

Lemma assemble_log_cases source arena :
  bytes_ok (v_data (es_base_log source)) -> bytes_ok (v_data (es_final_events_table source)) ->
  b_ptr arena <> 0 -> source_accepted arena source = true ->
  exists r, assemble_log source arena = Some r /\ match r with
    | inl (st, copied, data) => st <> PBNS_OK /\ 0 <= copied <= b_cap arena
        /\ zero_prefix data copied = zero_prefix (b_data arena) copied
    | inr (data, complete, count) => exists h es, log_ok h es /\ complete = log_octets h es /\ count = 1 + zlen es
        /\ complete = v_data (es_base_log source) ++ appended source
        /\ data = complete ++ drop (length complete) (b_data arena) /\ zlen complete <= b_cap arena
    end.
Proof.
  intros Hokb Hokf Hap Hacc. unfold assemble_log, b_cap, v_len in *.
  destruct (parse_log_total (es_base_log source) Hokb) as (rb & -> & Hrb). cbn [mbind option_bind].
  destruct rb as [st|base]; [eexists; split; [done|]; split; [done|]; split; [lia|done]|]. destruct Hrb as (_ & Hbl & Hsz). unfold v_len in Hbl.
  assert (Hfin : exists rf, (if disposition_has_final (es_final_disposition source)
      then parse_final_events_bounded (es_final_events_table source) base true else Some (inr (null_view, 0, 0))) = Some rf
    /\ match rf with inl st => st <> PBNS_OK | inr (events, _, _) =>
         match es_final_disposition source with PBNS_MEASURED_BOOT_FINAL_APPEND => v_data events | _ => [] end = appended source
         /\ bytes_ok (v_data events) end).
  { unfold appended. destruct (disposition_has_final (es_final_disposition source)) eqn:Ed.
    - assert (Hne : v_len (es_final_events_table source) <> 0).
      { intros E0. unfold source_accepted in Hacc. cbv zeta in Hacc. rewrite Ed, E0, Z.eqb_refl, orb_true_r in Hacc. cbn [andb] in Hacc.
        by rewrite orb_true_r in Hacc. }
      destruct (final_events_cases (es_final_events_table source) base Hsz Hokf Hne) as (rf & E & Hr). exists rf. split; [done|].
      destruct rf as [st|[[events c] sz]]; [done|]. destruct Hr as (es & _ & Et & Ee & _). rewrite Ee, Et. unfold table_octets.
      rewrite app_assoc, drop_app_length' by (by rewrite length_app, !le_bytes_length).
      split; [by destruct (es_final_disposition source)|]. rewrite Et in Hokf. unfold table_octets in Hokf.
      apply bytes_ok_app in Hokf as [_ [_ ?]%bytes_ok_app]. done.
    - eexists. split; [done|]. split; [by destruct (es_final_disposition source)|auto with pbns]. }
  destruct Hfin as (rf & -> & Hrf). cbn [mbind option_bind].
  destruct rf as [st|[[events c] sz]]; [eexists; split; [done|]; split; [done|]; split; [lia|done]|]. destruct Hrf as [Happ Hoke].
  set (n := match es_final_disposition source with PBNS_MEASURED_BOOT_FINAL_APPEND => zlen (v_data events) | _ => 0 end).
  assert (Hn : n = zlen (appended source)) by (rewrite <- Happ; unfold n; by destruct (es_final_disposition source)).
  destruct (_ || _) eqn:Eb; [eexists; split; [done|]; split; [done|]; split; [lia|done]|]. bools.
  rewrite move_bytes_splice, splice_0 by lia. cbn [mbind option_bind].
  set (base_log := v_data (es_base_log source)) in *. set (complete := base_log ++ appended source).
  assert (Hd : (if negb (n =? 0) then move_bytes (b_ptr arena + zlen base_log) (base_log ++ drop (length base_log) (b_data arena)) (zlen base_log) (v_ptr events) (v_data events)
     else Some (base_log ++ drop (length base_log) (b_data arena))) = Some (complete ++ drop (length complete) (b_data arena))).
  { destruct (Z.eqb_spec n 0) as [E0|Hne]; cbn [negb].
    - assert (Ea : appended source = []) by (apply nil_length_inv; lia). unfold complete. by rewrite Ea, app_nil_r.
    - assert (Ev : v_data events = appended source) by (revert Hne; rewrite <- Happ; unfold n; by destruct (es_final_disposition source)).
      rewrite Ev, move_bytes_splice by (rewrite ?length_app, ?length_drop; lia). by rewrite splice_next by lia. }
  rewrite Hd. cbn [mbind option_bind]. assert (Hcl : zlen complete = zlen base_log + n) by (unfold complete; rewrite length_app; lia).
  rewrite <- Hcl, rd_slice_prefix by done. cbn [mbind option_bind].
  assert (Hokc : bytes_ok complete). { unfold complete. apply bytes_ok_app. split; [done|]. unfold appended. destruct (es_final_disposition source); auto with pbns. }
  destruct (validate_cases (b_ptr arena) complete Hap Hokc ltac:(lia)) as (st & summary & -> & Hv). cbn [mbind option_bind].
  destruct (is_ok st) eqn:Es; cbn [negb]; eexists; (split; [done|]).
  - apply is_ok_spec in Es. destruct (Hv Es) as (h & es & Hlog & E & Hc). exists h, es. split; [done|]. split; [done|]. split; [done|]. split; [done|].
    split; [done|]. lia.
  - split; [by apply is_ok_false|]. split; [lia|]. apply zero_prefix_assembled. lia.
Qed.
(** *** Register readings *)

(** What the callbacks of a capture promise: octets, arrays of the declared size
    and, for a successful digest, the hash of the input. *)
Class CaptureLaws (input : pbns_measured_boot_capture_input W) (hash : bytes -> bytes) := {
  law_event_log read w st source w' : mi_event_log_read input = Some read -> read w = (st, source, w') ->
    bytes_ok (v_data (es_base_log source)) /\ bytes_ok (v_data (es_final_events_table source));
  law_pcr_read read w s0 st s w' : mi_pcr_read input = Some read -> read w (mi_selection input) s0 = (st, s, w') ->
    length (ps_values s) = 24%nat;
  law_sha256 sha256 w data digest st x w' : mi_sha256 input = Some sha256 -> sha256 w data digest = (st, x, w') ->
    st = PBNS_OK -> x = hash data;
}.

Lemma snapshot_matches_total values items :
  (length items <= length values)%nat -> exists b, snapshot_matches values items = Some b.
Proof.
  revert values. induction items as [|i items IH]; intros [|v values] H; cbn in *; try (by eexists); try lia.
  destruct (_ || _); [by eexists|]. apply IH. lia.
Qed.

Lemma values_equal_spec n ls rs :
  (n <= length ls)%nat -> (n <= length rs)%nat ->
  exists b, values_equal n ls rs = Some b /\ (b = true -> take n ls = take n rs).
Proof.
  revert ls rs. induction n as [|n IH]; intros [|l ls] [|r rs] Hl Hr; cbn in *; try (by eexists); try lia.
  destruct (pcr_values_equal l r) eqn:E; [|by eexists].
  destruct (IH ls rs ltac:(lia) ltac:(lia)) as (b & -> & Hb). eexists. split; [done|]. intros Eb. rewrite (Hb Eb). f_equal.
  unfold pcr_values_equal, same_selection in E. bools.
  repeat match goal with H : bytes_eqb _ _ = true |- _ => apply bytes_eqb_spec in H end.
  destruct l as [[] ? ?], r as [[] ? ?]; cbn in *. congruence.
Qed.

Context (input : pbns_measured_boot_capture_input W) (hash : bytes -> bytes) `{!CaptureLaws input hash}.
Implicit Types (w : W).

Definition callbacks_present : Prop :=
  is_Some (mi_event_log_read input) /\ is_Some (mi_pcr_read input) /\ is_Some (mi_sha256 input) /\ is_Some (mi_policy_allows input).

(** A reading that was accepted: it names the selected registers, in order. *)
Definition snapshot_ok (s : pbns_measured_boot_pcr_snapshot) : Prop :=
  length (ps_values s) = 24%nat /\ ps_count s = sel_count (mi_selection input)
  /\ validate_snapshot s (mi_selection input) = Some PBNS_OK.

(** One call that succeeded, possibly after one that found the device busy. *)
Definition reading w (s : pbns_measured_boot_pcr_snapshot) w' : Prop :=
  snapshot_ok s /\ exists read, mi_pcr_read input = Some read
  /\ (read w (mi_selection input) zero_snapshot = (PBNS_OK, s, w')
      \/ exists s0 w1, read w (mi_selection input) zero_snapshot = (PBNS_ERR_BUSY, s0, w1)
         /\ read w1 (mi_selection input) zero_snapshot = (PBNS_OK, s, w')).

Lemma read_snapshot_spec items retry w :
  callbacks_present -> sel_items (mi_selection input) = Some items -> zlen items = sel_count (mi_selection input) -> zlen items <= 24 ->
  exists st s retry' w', read_snapshot input retry w = Some (st, s, retry', w') /\ (st = PBNS_OK -> reading w s w').
Proof.
  intros (_ & [read Er] & _) Ei Hc Hn. unfold read_snapshot. rewrite Er. cbn [mbind option_bind].
  assert (Hval : forall s, length (ps_values s) = 24%nat -> exists st, validate_snapshot s (mi_selection input) = Some st
    /\ (st = PBNS_OK -> ps_count s = sel_count (mi_selection input))).
  { intros s Hs. unfold validate_snapshot. destruct (Z.eqb_spec (ps_count s) (sel_count (mi_selection input))); cbn [negb]; [|by eexists].
    rewrite Ei. cbn [mbind option_bind]. rewrite rd_slice_inside, slice_all by lia. cbn [mbind option_bind].
    destruct (snapshot_matches_total (ps_values s) items ltac:(lia)) as [b ->]. cbn [mbind option_bind]. by eexists. }
  destruct (read w (mi_selection input) zero_snapshot) as [[st1 s1] w1] eqn:E1.
  pose proof (law_pcr_read _ _ _ _ _ _ Er E1) as L1. destruct (status_eqb st1 PBNS_ERR_BUSY && negb retry) eqn:Eb.
  - apply andb_true_iff in Eb as [->%status_eqb_spec _].
    destruct (read w1 (mi_selection input) zero_snapshot) as [[st2 s2] w2] eqn:E2. pose proof (law_pcr_read _ _ _ _ _ _ Er E2) as L2.
    destruct (is_ok st2) eqn:Es; cbn [negb]; [|apply is_ok_false in Es; by eexists _, _, _, _].
    apply is_ok_spec in Es as ->. destruct (Hval s2 L2) as (st & Ev & Hcnt). rewrite Ev. cbn [mbind option_bind]. eexists _, _, _, _. split; [done|].
    intros ->. split; [by split; [|split; [apply Hcnt|]]|]. exists read. split; [done|]. right. by eexists _, _.
  - destruct (is_ok st1) eqn:Es; cbn [negb]; [|apply is_ok_false in Es; by eexists _, _, _, _].
    apply is_ok_spec in Es as ->. destruct (Hval s1 L1) as (st & Ev & Hcnt). rewrite Ev. cbn [mbind option_bind]. eexists _, _, _, _. split; [done|].
    intros ->. split; [by split; [|split; [apply Hcnt|]]|]. exists read. split; [done|]. by left.
Qed.

(** Two readings in a row that agree on the counter and on every register. *)
Definition steady w (s : pbns_measured_boot_pcr_snapshot) w' : Prop :=
  exists w0 s0 w1, reading w0 s0 w1 /\ reading w1 s w' /\ ps_update_counter s0 = ps_update_counter s
  /\ take (Z.to_nat (ps_count s)) (ps_values s0) = take (Z.to_nat (ps_count s)) (ps_values s).

Lemma snapshots_equal_spec a b :
  snapshot_ok a -> snapshot_ok b -> sel_count (mi_selection input) <= 24 ->
  exists e, snapshots_equal a b = Some e /\ (e = true -> ps_update_counter a = ps_update_counter b
    /\ take (Z.to_nat (ps_count b)) (ps_values a) = take (Z.to_nat (ps_count b)) (ps_values b)).
Proof.
  intros (La & Ca & _) (Lb & Cb & _) Hn. unfold snapshots_equal. destruct (_ || _) eqn:E; [by eexists|]. bools.
  destruct (values_equal_spec (Z.to_nat (ps_count a)) (ps_values a) (ps_values b)) as (e & -> & He); [lia..|].
  eexists. split; [done|]. intros Ee. split; [done|]. replace (ps_count b) with (ps_count a) by lia. auto.
Qed.

Lemma stable_snapshot_spec items w :
  callbacks_present -> sel_items (mi_selection input) = Some items -> zlen items = sel_count (mi_selection input) -> zlen items <= 24 ->
  exists st s w', stable_snapshot input w = Some (st, s, w') /\ (st = PBNS_OK -> snapshot_ok s /\ steady w s w').
Proof.
  intros Hp Ei Hc Hn. unfold stable_snapshot.
  destruct (read_snapshot_spec items false w Hp Ei Hc Hn) as (st1 & s1 & r1 & w1 & -> & H1). cbn [mbind option_bind].
  destruct (is_ok st1) eqn:K1; cbn [negb]; [apply is_ok_spec in K1|apply is_ok_false in K1; by eexists _, _, _]. specialize (H1 K1).
  destruct (read_snapshot_spec items r1 w1 Hp Ei Hc Hn) as (st2 & s2 & r2 & w2 & -> & H2). cbn [mbind option_bind].
  destruct (is_ok st2) eqn:K2; cbn [negb]; [apply is_ok_spec in K2|apply is_ok_false in K2; by eexists _, _, _]. specialize (H2 K2).
  destruct (snapshots_equal_spec s1 s2 (proj1 H1) (proj1 H2) ltac:(lia)) as (e & -> & He). cbn [mbind option_bind]. destruct e.
  { eexists _, _, _. split; [done|]. intros _. split; [apply H2|]. destruct (He eq_refl). by exists w, s1, w1. }
  destruct (read_snapshot_spec items r2 w2 Hp Ei Hc Hn) as (st3 & s3 & r3 & w3 & -> & H3). cbn [mbind option_bind].
  destruct (is_ok st3) eqn:K3; cbn [negb]; [apply is_ok_spec in K3|apply is_ok_false in K3; by eexists _, _, _]. specialize (H3 K3).
  destruct (snapshots_equal_spec s2 s3 (proj1 H2) (proj1 H3) ltac:(lia)) as (e & -> & He'). cbn [mbind option_bind]. destruct e; [|by eexists _, _, _].
  eexists _, _, _. split; [done|]. intros _. split; [apply H3|]. destruct (He' eq_refl). by exists w1, s2, w2.
Qed.

Lemma capture_digests_spec complete w :
  callbacks_present -> selection_typed (mi_selection input) ->
  exists st d1 d2 w', capture_digests input complete w = Some (st, d1, d2, w')
  /\ (st = PBNS_OK -> exists items, sel_items (mi_selection input) = Some items /\ d1 = hash complete /\ d2 = hash (items_octets items)).
Proof.
  intros (_ & _ & [sha Esha] & _) Ht. unfold capture_digests.
  destruct (encode_selection_spec (mi_selection input) (replicate 72 0) Ht) as (st & data & n & -> & _ & Hok); [done|]. cbn [mbind option_bind].
  destruct (is_ok st) eqn:K; cbn [negb]; [apply is_ok_spec in K|apply is_ok_false in K; by eexists _, _, _, _].
  destruct (Hok K) as (items & Ei & _ & Hd). rewrite Esha. cbn [mbind option_bind].
  destruct (sha w complete zero_digest) as [[st1 d1] w1] eqn:E1. destruct (is_ok st1) eqn:K1; cbn [negb]; [apply is_ok_spec in K1|apply is_ok_false in K1; by eexists _, _, _, _].
  rewrite Hd. cbn [mbind option_bind]. destruct (sha w1 (items_octets items) zero_digest) as [[st2 d2] w2] eqn:E2.
  eexists _, _, _, _. split; [done|]. intros K2. exists items. split; [done|].
  split; [by apply (law_sha256 _ _ _ _ _ _ _ Esha E1)|by apply (law_sha256 _ _ _ _ _ _ _ Esha E2)].
Qed.
End capture.

(** ** The exact suffix *)

Lemma events_octets_app es1 es2 : events_octets (es1 ++ es2) = events_octets es1 ++ events_octets es2.
Proof. unfold events_octets. by rewrite fmap_app, concat_app. Qed.

Lemma events_octets_cons e es : events_octets (e :: es) = event_octets e ++ events_octets es.
Proof. done. Qed.

(** One turn of the loop, on a cursor in front of an event. *)
Lemma suffix_loop_event algorithms e es start seen count pre fuel :
  sizes_ok algorithms -> event_ok algorithms e -> bytes_ok (events_octets (e :: es)) ->
  suffix_loop (S fuel) algorithms start seen count (cursor_at pre (events_octets (e :: es)))
  = let seen' := seen || (zlen pre =? start) in
    if negb seen' && (start <? zlen pre) then Parsed None (cursor_at pre (events_octets (e :: es)))
    else suffix_loop fuel algorithms start seen' (if seen' then count + 1 else count) (cursor_at (pre ++ event_octets e) (events_octets es)).
Proof.
  intros Ha He Hok. cbn [suffix_loop cursor_at lc_offset lc_input]. pose proof (event_octets_length e) as Hl.
  rewrite (proj2 (Z.ltb_lt _ _)) by (rewrite events_octets_cons, !length_app; lia).
  destruct (_ && _); [done|]. rewrite events_octets_cons in *.
  change (mk_cursor (pre ++ event_octets e ++ events_octets es) (zlen pre)) with (cursor_at pre (event_octets e ++ events_octets es)).
  by rewrite (parses_complete _ _ (parses_event2 algorithms Ha) pre (event_octets e) _ tt Hok (ex_intro _ e (conj He eq_refl))).
Qed.

Lemma suffix_loop_end algorithms start seen count pre fuel :
  suffix_loop fuel algorithms start seen count (cursor_at pre []) = Parsed (Some (seen, count)) (cursor_at pre []).
Proof. destruct fuel; cbn [suffix_loop cursor_at lc_offset lc_input]; by rewrite app_nil_r, Z.ltb_irrefl. Qed.

Lemma suffix_loop_seen algorithms es start count pre fuel :
  sizes_ok algorithms -> Forall (event_ok algorithms) es -> bytes_ok (events_octets es) -> (length es <= fuel)%nat ->
  exists c, suffix_loop fuel algorithms start true count (cursor_at pre (events_octets es)) = Parsed (Some (true, count + zlen es)) c.
Proof.
  intros Ha Hes. revert count pre fuel. induction Hes as [|e es He Hes IH]; intros count pre fuel Hok Hf.
  { rewrite Z.add_0_r. eexists. apply suffix_loop_end. }
  destruct fuel as [|fuel]; [cbn in Hf; lia|]. rewrite suffix_loop_event by done. cbn [orb negb andb].
  rewrite events_octets_cons in Hok. apply bytes_ok_app in Hok as [_ Hok].
  destruct (IH (count + 1) (pre ++ event_octets e) fuel Hok ltac:(cbn in Hf; lia)) as [c ->]. exists c. f_equal. f_equal. f_equal. cbn [length]. lia.
Qed.

Lemma suffix_loop_spec algorithms es start pre fuel :
  sizes_ok algorithms -> Forall (event_ok algorithms) es -> bytes_ok (events_octets es) -> (length es <= fuel)%nat ->
  exists r c, suffix_loop fuel algorithms start false 0 (cursor_at pre (events_octets es)) = Parsed r c
  /\ forall n, r = Some (true, n) <-> exists es1 es2, es = es1 ++ es2 /\ es2 <> [] /\ start = zlen pre + zlen (events_octets es1) /\ n = zlen es2.
Proof.
  intros Ha Hes. revert pre fuel. induction Hes as [|e es He Hes IH]; intros pre fuel Hok Hf.
  { eexists _, _. split; [apply suffix_loop_end|]. intros n. split; [done|]. intros (es1 & es2 & E & Hne & _).
    symmetry in E. apply app_eq_nil in E as [_ ->]. done. }
  destruct fuel as [|fuel]; [cbn in Hf; lia|]. rewrite suffix_loop_event by done. cbn [orb]. pose proof (event_octets_length e) as Hl.
  rewrite events_octets_cons in Hok. apply bytes_ok_app in Hok as [_ Hok].
  destruct (Z.eqb_spec (zlen pre) start) as [Es|Hs]; cbn [negb andb].
  { destruct (suffix_loop_seen algorithms es start (0 + 1) (pre ++ event_octets e) fuel Ha Hes Hok ltac:(cbn in Hf; lia)) as [c ->].
    eexists _, _. split; [done|]. intros n. split.
    - intros [= <-]. exists [], (e :: es). split; [done|]. split; [done|]. cbn [length]. change (zlen (events_octets [])) with 0. lia.
    - intros (es1 & es2 & E & Hne & Hst & ->). destruct es1 as [|e1 es1].
      + cbn in E. rewrite <- E. cbn [length]. do 2 f_equal. lia.
      + rewrite events_octets_cons, length_app in Hst. pose proof (event_octets_length e1). lia. }
  destruct (Z.ltb_spec start (zlen pre)).
  { eexists _, _. split; [done|]. intros n. split; [done|]. intros (es1 & es2 & _ & _ & Hst & _). lia. }
  destruct (IH (pre ++ event_octets e) fuel Hok ltac:(cbn in Hf; lia)) as (r & c & -> & Hr). eexists _, _. split; [done|].
  intros n. rewrite Hr. split.
  - intros (es1 & es2 & -> & Hne & Hst & ->). exists (e :: es1), es2. split; [done|]. split; [done|]. rewrite events_octets_cons, length_app in *. lia.
  - intros (es1 & es2 & E & Hne & Hst & ->). destruct es1 as [|e1 es1]; [change (zlen (events_octets [])) with 0 in Hst; lia|].
    injection E as <- ->. exists es1, es2. split; [done|]. split; [done|]. rewrite events_octets_cons, length_app in *. lia.
Qed.

(** ** Properties *)

Lemma events_unique algorithms es es' :
  sizes_ok algorithms -> Forall (event_ok algorithms) es -> Forall (event_ok algorithms) es' ->
  bytes_ok (events_octets es) -> events_octets es = events_octets es' -> event_octets <$> es = event_octets <$> es'.
Proof.
  intros Ha Hes. revert es'. induction Hes as [|e es He Hes IH]; intros [|e' es'] Hes' Hok E; try done.
  apply Forall_cons_iff in Hes' as [He' Hes']. unfold events_octets in E, Hok. rewrite (fmap_cons _ e), (fmap_cons _ e') in E. rewrite fmap_cons in Hok. rewrite (fmap_cons _ e), (fmap_cons _ e').
  cbn [concat] in E, Hok.
    destruct (parses_unique _ _ tt tt _ _ _ _ (parses_event2 algorithms Ha) Hok (ex_intro _ e (conj He eq_refl))
      (ex_intro _ e' (conj He' eq_refl)) E) as (_ & -> & Er). f_equal. apply IH; [done| |done]. by apply bytes_ok_app in Hok as [_ ?].
Qed.

Lemma last_start_octets x off es es' : event_octets <$> es = event_octets <$> es' -> last_start x off es = last_start x off es'.
Proof.
  revert x off es'. induction es as [|e es IH]; intros x off [|e' es'] E; try done. rewrite !fmap_cons in E.
  pose proof (f_equal (hd []) E) as E1. pose proof (f_equal (@tl _) E) as E2. cbn [hd tl] in E1, E2.
  cbn [last_start]. rewrite E1. by apply IH.
Qed.

Lemma parsed_unique h es h' es' :
  log_ok h es -> log_ok h' es' -> bytes_ok (log_octets h es) -> log_octets h es = log_octets h' es' -> parsed_of h es = parsed_of h' es'.
Proof.
  intros (Hh & Hb & Hes & _) (Hh' & _ & Hes' & _) Hok E. destruct (header_unique h h' _ _ Hh Hh' Hok E) as (Ha & Eh & Er).
  apply bytes_ok_app in Hok as [_ Hok]. rewrite <- Ha in Hes'.
  pose proof (events_unique _ es es' (header_sizes h Hh) Hes Hes' Hok Er) as Ee. unfold parsed_of. rewrite <- Ha, <- Eh.
  rewrite (last_start_octets _ _ es es' Ee). apply (f_equal length) in Ee. rewrite !length_fmap in Ee. by rewrite Ee.
Qed.

(** C14: the validator accepts exactly the well-formed event logs: a header of the
    specification with distinct algorithms of known sizes and a SHA-256 bank, and at
    least one event, each with a platform register, one digest per named algorithm
    and SHA-256 among them, with nothing behind the last.  The summary counts the
    events and gives the start of the last; a rejected log leaves it zeroed; no
    input makes the parser read outside the log. *)
Theorem event_log_exact (p : Z) (log : bytes) (s0 : pbns_measured_boot_summary) :
  p <> 0 -> bytes_ok log -> 0 < zlen log <= PBNS_MEASURED_BOOT_EVENT_LOG_MAX_SIZE ->
  exists st summary, pbns_measured_boot_validate_event_log (mk_view p log) (Some s0) = Some (st, Some summary)
  /\ (st = PBNS_OK <-> exists h es, log_ok h es /\ log = log_octets h es)
  /\ (forall h es, log_ok h es -> log = log_octets h es ->
      summary = mk_summary (1 + zlen es) (last_start 0 (zlen (header_octets h)) es) true)
  /\ (st <> PBNS_OK -> summary = zero_summary).
Proof.
  intros Hp Hok Hl. unfold pbns_measured_boot_validate_event_log, validate_event_log.
  destruct (parse_log_cases p log Hp Hok Hl) as [(h & es & Hlog & -> & ->)|(st & Hst & -> & Hno)]; cbn [mbind option_bind].
  - eexists _, _. split; [done|]. split; [split; [intros _; by exists h, es|done]|]. split; [|done].
    intros h' es' Hlog' E. pose proof (parsed_unique h es h' es' Hlog Hlog' Hok E) as Eu. by rewrite Eu.
  - eexists _, _. split; [done|]. split; [split; [by destruct Hst as [->| ->]|intros (h & es & Hlog & E); by destruct (Hno h es)]|].
    split; [|done]. intros h es Hlog E. by destruct (Hno h es).
Qed.

(** The end of a log inside a larger area is found exactly: the search succeeds
    if and only if the area starts with a well-formed log whose last event starts at
    the given offset, and then gives the length of that log. *)
Theorem event_log_end_located (p : Z) (area : bytes) (last size0 : Z) :
  p <> 0 -> bytes_ok area -> 0 < zlen area <= PBNS_MEASURED_BOOT_EVENT_LOG_MAX_SIZE ->
  exists st size, pbns_measured_boot_locate_event_log_end (mk_view p area) last (Some size0) = Some (st, Some size)
  /\ (st = PBNS_OK \/ size = 0)
  /\ (st = PBNS_OK <-> exists h es junk, log_ok h es /\ area = log_octets h es ++ junk
      /\ last = last_start 0 (zlen (header_octets h)) es)
  /\ (forall h es junk, log_ok h es -> area = log_octets h es ++ junk ->
      last = last_start 0 (zlen (header_octets h)) es -> size = zlen (log_octets h es)).
Proof.
  intros Hp Hok Hl. unfold pbns_measured_boot_locate_event_log_end, v_len. cbn [v_ptr v_data].
  rewrite (proj2 (Z.eqb_neq p 0)), (proj2 (Z.eqb_neq (zlen area) 0)), (proj2 (Z.ltb_ge _ _)) by lia. cbn [orb].
  destruct (locate_cases area last Hok) as (st & size & -> & H1 & H2 & H3). by exists st, size.
Qed.

(** The final events are recognised as the tail of the log exactly when their
    octets lie in memory at the end of the log, on an event boundary, and the log
    has as many events there as the table. *)
Theorem final_events_suffix_exact `{M : Machine} (base table : pbns_view) (h : log_header) (es fs : list log_event) (b0 : bool) :
  v_ptr base <> 0 -> v_ptr table <> 0 -> log_ok h es -> v_data base = log_octets h es -> bytes_ok (v_data base) ->
  v_len base <= PBNS_MEASURED_BOOT_EVENT_LOG_MAX_SIZE ->
  Forall (event_ok (lh_algorithms h)) fs -> fs <> [] -> v_data table = table_octets fs -> bytes_ok (v_data table) ->
  v_len table <= PBNS_MEASURED_BOOT_EVENT_LOG_MAX_SIZE ->
  v_ptr base + v_len base <= UINTPTR_MAX -> v_ptr table + v_len table <= UINTPTR_MAX ->
  exists b, pbns_measured_boot_final_events_exact_suffix base table (Some b0) = Some (PBNS_OK, Some b)
  /\ (b = true <-> v_ptr table + v_len table = v_ptr base + v_len base
      /\ exists es1 es2, es = es1 ++ es2 /\ length es2 = length fs /\ zlen (events_octets es2) = zlen (events_octets fs)).
Proof.
  intros Hbp Htp Hlog Hb Hokb Hbm Hfs Hfne Ht Hokt Htm Hba Hta. destruct base as [bp log], table as [tp tab]. unfold v_len in *. cbn [v_ptr v_data] in *. subst log tab.
  unfold pbns_measured_boot_final_events_exact_suffix, final_events_exact_suffix.
  assert (Hbl : 0 < zlen (log_octets h es)).
  { unfold log_octets, header_octets. rewrite !length_app, !le_bytes_length. lia. }
  destruct (parse_log_cases bp (log_octets h es) Hbp Hokb ltac:(lia)) as [(h' & es' & Hlog' & E & ->)|(st & _ & _ & Hno)]; [|by destruct (Hno h es)].
  pose proof (parsed_unique h es h' es' Hlog Hlog' Hokb E) as Eu. rewrite <- Eu. cbn [mbind option_bind]. clear Eu E Hlog' h' es'.
  assert (Htl : zlen (table_octets fs) = 16 + zlen (events_octets fs)) by (unfold table_octets; rewrite !length_app, !le_bytes_length; lia).
  pose proof Hlog as (Hh & Hbank & Hes & Hne). pose proof (header_sizes h Hh) as Hsz.
  rewrite (final_events_complete tp fs (parsed_of h es)) by done. unfold v_len. cbn [mbind option_bind v_ptr v_data].
  assert (Hll : zlen (log_octets h es) = zlen (header_octets h) + zlen (events_octets es)) by (unfold log_octets; rewrite length_app; lia).
  assert (Hsub : forall es1 es2, es = es1 ++ es2 -> zlen (events_octets es) = zlen (events_octets es1) + zlen (events_octets es2)).
  { intros es1 es2 ->. rewrite events_octets_app, length_app. lia. }
  assert (Hfc : zlen fs <> 0) by (destruct fs; [done|cbn; lia]).
  rewrite (proj2 (Z.eqb_neq (zlen fs) 0)) by done. cbn [orb].
  destruct (Z.ltb_spec (zlen (log_octets h es)) (zlen (events_octets fs))).
  { exists false. split; [done|]. split; [done|]. intros (_ & es1 & es2 & E & _ & El). specialize (Hsub es1 es2 E). lia. }
  rewrite (proj2 (Z.ltb_ge (UINTPTR_MAX - bp) _)), (proj2 (Z.ltb_ge (UINTPTR_MAX - (tp + 16)) _)) by lia. cbn [orb].
  destruct (Z.eqb_spec (tp + 16) (bp + zlen (log_octets h es) - zlen (events_octets fs))) as [Ea|Ha]; cbn [negb].
  2: { exists false. split; [done|]. split; [done|]. intros (Ea & _). lia. }
  destruct (parse_header_cases (log_octets h es) Hokb) as [(h' & rest & Hh' & E & ->)|[_ Hno]]; [|by destruct (Hno h (events_octets es))].
  destruct (header_unique h h' _ _ Hh Hh' Hokb E) as (Eal & Eoc & <-). rewrite <- Eal, <- Eoc, Hbank. cbn [mbind option_bind].
  assert (Hoke : bytes_ok (events_octets es)) by (by apply bytes_ok_app in Hokb as [_ ?]). pose proof (events_count _ _ Hes).
  destruct (suffix_loop_spec (lh_algorithms h) es (zlen (log_octets h es) - zlen (events_octets fs)) (header_octets h)
    (length (log_octets h es)) Hsz Hes Hoke ltac:(lia)) as (r & c & -> & Hr).
  assert (Hiff : (exists n, r = Some (true, n) /\ n = zlen fs) <-> exists es1 es2, es = es1 ++ es2 /\ length es2 = length fs /\ zlen (events_octets es2) = zlen (events_octets fs)).
  { split.
    - intros (n & En & ->). apply Hr in En as (es1 & es2 & Es & _ & Hst & Hn). exists es1, es2. specialize (Hsub es1 es2 Es). split; [done|]. lia.
    - intros (es1 & es2 & Es & Hn & Hle). exists (zlen es2). split; [|lia]. apply Hr. exists es1, es2. specialize (Hsub es1 es2 Es).
      split; [done|]. split; [by destruct es2; [destruct fs|]|]. lia. }
  destruct r as [[seen n]|].
  - exists (seen && (n =? zlen fs)). split; [done|]. rewrite andb_true_iff, Z.eqb_eq. split.
    + intros [-> ->]. split; [lia|]. apply Hiff. eauto.
    + intros [_ Hx]. apply Hiff in Hx as (n' & [= -> ->] & ->). done.
  - exists false. split; [done|]. split; [done|]. intros [_ Hx]. apply Hiff in Hx as (? & ? & _). done.
Qed.

Section contract.
Context `{M : Machine} {W : Type} (input : pbns_measured_boot_capture_input W) (hash : bytes -> bytes) `{!CaptureLaws input hash}.
Implicit Types (w : W) (arena : pbns_buffer).

(** The policy allowed the selection and the firmware gave the log. *)
Definition source_of w (source : pbns_measured_boot_event_source) w' : Prop :=
  exists policy read w0, mi_policy_allows input = Some policy /\ policy w (mi_selection input) = (true, w0)
  /\ mi_event_log_read input = Some read /\ read w0 = (PBNS_OK, source, w') /\ es_truncated source = false.

(** What successful evidence consists of. *)
Definition captured arena w (data : bytes) (ev : pbns_measured_boot_evidence) w' : Prop :=
  exists source items h es s w1 w2, source_of w source w1
  /\ log_ok h es /\ log_octets h es = v_data (es_base_log source) ++ appended source
  /\ data = log_octets h es ++ drop (length (log_octets h es)) (b_data arena)
  /\ me_event_log ev = mk_view (b_ptr arena) (log_octets h es) /\ me_event_count ev = 1 + zlen es
  /\ sel_items (mi_selection input) = Some items
  /\ me_event_log_digest ev = hash (log_octets h es) /\ me_selection_digest ev = hash (items_octets items)
  /\ steady input w2 s w' /\ me_pcr_count ev = ps_count s /\ me_pcr_update_counter ev = ps_update_counter s
  /\ take (Z.to_nat (me_pcr_count ev)) (me_pcrs ev) = take (Z.to_nat (ps_count s)) (ps_values s).

Definition capture_outcome arena w (st : pbns_status) (data : bytes) (ev : pbns_measured_boot_evidence) w' : Prop :=
  (st <> PBNS_OK -> ev = zero_evidence /\ exists n, 0 <= n <= b_cap arena /\ data = zero_prefix (b_data arena) n)
  /\ (st = PBNS_OK -> captured arena w data ev w').

Lemma capture_failed arena w w' st n data :
  st <> PBNS_OK -> 0 <= n <= b_cap arena -> zero_prefix data n = zero_prefix (b_data arena) n ->
  exists st' data' ev w'', Some (st, zero_prefix data n, zero_evidence, w') = Some (st', data', ev, w'')
  /\ capture_outcome arena w st' data' ev w''.
Proof.
  intros Hst Hn E. eexists _, _, _, _. split; [reflexivity|]. split; [|done]. intros _. split; [done|]. by exists n.
Qed.

(** The registers as they are copied into the evidence. *)
Lemma copied_pcrs s :
  snapshot_ok input s -> 0 <= sel_count (mi_selection input) <= 24 ->
  exists pcrs, rd_slice (ps_values s) 0 (ps_count s) = Some pcrs
  /\ take (Z.to_nat (ps_count s)) (splice (replicate 24 zero_pcr_value) 0 pcrs) = take (Z.to_nat (ps_count s)) (ps_values s).
Proof.
  intros (Hl & Hc & _) Hn. eexists. split; [apply rd_slice_inside; lia|]. rewrite splice_0. unfold slice.
  rewrite drop_0. rewrite take_app_le by (rewrite length_take; lia). by rewrite take_take, Nat.min_id.
Qed.

Lemma capture_evidence_spec arena w :
  callbacks_present input -> selection_typed (mi_selection input) -> b_ptr arena <> 0 ->
  exists st data ev w', capture_evidence input arena w = Some (st, data, ev, w') /\ capture_outcome arena w st data ev w'.
Proof.
  intros Hp Ht Hap. pose proof Hp as ([read Er] & _ & _ & [policy Epol]).
  assert (Hcap : 0 <= b_cap arena <= b_cap arena) by (unfold b_cap; lia).
  unfold capture_evidence, pbns_measured_boot_validate_selection. rewrite Epol.
  destruct (selection_structure_total (mi_selection input) Ht) as (st0 & Es & Hsel). rewrite Es. cbn [mbind option_bind].
  destruct (is_ok st0) eqn:K0; cbn [negb mbind option_bind].
  2: { rewrite K0. cbn [negb]. apply capture_failed; [by apply is_ok_false|done|done]. }
  apply is_ok_spec in K0. destruct (Hsel K0) as (items & Ei & Hn & Hc).
  destruct (policy w (mi_selection input)) as [allowed w0] eqn:Ep. cbn [mbind option_bind].
  destruct allowed; cbn [is_ok negb]; [|by apply capture_failed].
  rewrite Er. cbn [mbind option_bind]. destruct (read w0) as [[st1 source] w1] eqn:Erd.
  destruct (law_event_log _ _ _ _ _ Er Erd) as [Hokb Hokf]. destruct (is_ok st1) eqn:K1; cbn [negb].
  2: { apply capture_failed; [by apply is_ok_false|done|done]. }
  apply is_ok_spec in K1 as ->. destruct (es_truncated source) eqn:Etr; [by apply capture_failed|].
  destruct (source_accepted arena source) eqn:Eacc; cbn [negb]; [|by apply capture_failed].
  destruct (assemble_log_cases source arena Hokb Hokf Hap Eacc) as (r & -> & Hr). cbn [mbind option_bind].
  destruct r as [[[st2 copied] data]|[[data complete] count]]; [destruct Hr as (? & ? & ?); by apply capture_failed|].
  destruct Hr as (h & es & Hlog & -> & -> & Hcomp & -> & Hfit).
  assert (Hz : 0 <= zlen (log_octets h es) <= b_cap arena) by lia.
  pose proof (zero_prefix_assembled (log_octets h es) (b_data arena) ltac:(unfold b_cap in Hfit; lia)) as Hzp.
  destruct (capture_digests_spec input hash (log_octets h es) w1 Hp Ht) as (st3 & d1 & d2 & w3 & -> & Hd). cbn [mbind option_bind].
  destruct (is_ok st3) eqn:K3; cbn [negb]; [|apply capture_failed; [by apply is_ok_false|done|done]].
  apply is_ok_spec in K3. destruct (Hd K3) as (items' & Ei' & -> & ->).
  destruct (stable_snapshot_spec input hash items w3 Hp Ei Hc ltac:(lia)) as (st4 & s & w4 & -> & Hs). cbn [mbind option_bind].
  destruct (is_ok st4) eqn:K4; cbn [negb]; [|apply capture_failed; [by apply is_ok_false|done|done]].
  apply is_ok_spec in K4. destruct (Hs K4) as [Hsok Hst]. destruct (copied_pcrs s Hsok ltac:(lia)) as (pcrs & -> & Hpcrs). cbn [mbind option_bind].
  eexists _, _, _, _. split; [reflexivity|]. split; [done|]. intros _. exists source, items', h, es, s, w1, w3.
  split; [by exists policy, read, w0|]. done.
Qed.

(** C21: captured evidence is what it claims to be.  A capture always returns; a
    failure leaves the evidence zeroed and nothing of the log in the arena.  On
    success the policy allowed the selection, the log in the arena is the base log
    followed by the final events when they are to be appended, it is well-formed and
    counted, the digests are those of the log and of the canonical selection, and the
    register values come from a reading that agreed with the one just before it. *)
Theorem capture_contract (arena : pbns_buffer) (e0 : pbns_measured_boot_evidence) (w : W) :
  callbacks_present input -> selection_typed (mi_selection input) ->
  b_ptr arena <> 0 -> b_len arena = 0 -> 0 < b_cap arena <= UINTPTR_MAX - b_ptr arena ->
  exists st data ev w', pbns_measured_boot_capture_evidence (Some input) arena (Some e0) w = Some (st, data, Some ev, w')
  /\ (st <> PBNS_OK -> ev = zero_evidence /\ exists n, 0 <= n <= b_cap arena /\ data = zero_prefix (b_data arena) n)
  /\ (st = PBNS_OK -> captured arena w data ev w').
Proof.
  intros Hp Ht Hap Hal Hcap. unfold pbns_measured_boot_capture_evidence, range_valid. rewrite Hal.
  rewrite (proj2 (Z.eqb_neq (b_ptr arena) 0)), (proj2 (Z.eqb_neq (b_cap arena) 0)), (proj2 (Z.leb_le _ _)) by lia. cbn [negb orb andb Z.eqb].
  pose proof Hp as ([read ->] & [pcr ->] & [sha ->] & [policy ->]).
  destruct (capture_evidence_spec arena w Hp Ht Hap) as (st & data & ev & w' & -> & Ho). cbn [mbind option_bind].
  exists st, data, ev, w'. split; [reflexivity|]. exact Ho.
Qed.
End contract.

(** ** Witnesses *)

Definition ex_header : log_header :=
  mk_header (replicate 20 0) [0; 0; 0; 0; 0; 2; 0; 2] [mk_algorithm 0x0b 32] [].
Definition ex_event : log_event := mk_event 7 1 [(0x0b, replicate 32 9)] [1; 2; 3].
Definition ex_log : bytes := log_octets ex_header [ex_event; ex_event].

Lemma ex_event_ok : event_ok (lh_algorithms ex_header) ex_event.
Proof.
  unfold event_ok. cbn [ev_pcr ev_type ev_digests ev_data ex_event lh_algorithms ex_header].
  split; [lia|]. split; [lia|]. split; [cbn; lia|]. split; [repeat constructor; cbn; lia|].
  split; [apply NoDup_singleton|]. split; [reflexivity|]. cbn. lia.
Qed.

Lemma ex_log_ok : log_ok ex_header [ex_event; ex_event].
Proof.
  split; [|split; [reflexivity|split; [|done]]].
  - split; [reflexivity|]. unfold spec_ok. cbn [lh_fixed lh_algorithms lh_vendor ex_header].
    split; [done|]. split; [done|]. split; [by right|]. split; [cbn; lia|]. split; [repeat constructor; cbn; lia|].
    split; [apply NoDup_singleton|]. cbn. lia.
  - pose proof ex_event_ok. constructor; [done|]. constructor; [done|constructor].
Qed.

Lemma ex_log_octets : forallb byteb ex_log = true.
Proof. vm_compute. reflexivity. Qed.

Lemma ex_log_bytes : bytes_ok ex_log.
Proof.
  apply Forall_forall. intros b Hb. apply byteb_spec. pose proof ex_log_octets as H. rewrite forallb_forall in H. by apply H.
Qed.

Lemma event_log_exact_witness :
  exists summary, pbns_measured_boot_validate_event_log (mk_view 4096 ex_log) (Some zero_summary) = Some (PBNS_OK, Some summary)
  /\ ms_event_count summary = 3.
Proof.
  destruct (event_log_exact 4096 ex_log zero_summary) as (st & summary & E & [_ H1] & H2 & _).
  - discriminate.
  - exact ex_log_bytes.
  - vm_compute. split; [reflexivity|discriminate].
  - rewrite (H1 (ex_intro _ ex_header (ex_intro _ _ (conj ex_log_ok eq_refl)))) in E. exists summary. split; [exact E|].
    rewrite (H2 _ _ ex_log_ok eq_refl). reflexivity.
Defined.

Lemma event_log_end_located_witness :
  exists size, pbns_measured_boot_locate_event_log_end (mk_view 4096 (ex_log ++ [255; 255]))
      (last_start 0 (zlen (header_octets ex_header)) [ex_event; ex_event]) (Some 0) = Some (PBNS_OK, Some size)
  /\ size = zlen ex_log.
Proof.
  destruct (event_log_end_located 4096 (ex_log ++ [255; 255]) (last_start 0 (zlen (header_octets ex_header)) [ex_event; ex_event]) 0)
    as (st & size & E & _ & [_ H1] & H2).
  - discriminate.
  - apply bytes_ok_app. split; [exact ex_log_bytes|octets].
  - vm_compute. split; [reflexivity|discriminate].
  - rewrite (H1 (ex_intro _ ex_header (ex_intro _ _ (ex_intro _ [255; 255] (conj ex_log_ok (conj eq_refl eq_refl)))))) in E.
    exists size. split; [exact E|]. exact (H2 _ _ [255; 255] ex_log_ok eq_refl eq_refl).
Defined.

Lemma ex_table_octets : forallb byteb (table_octets [ex_event]) = true.
Proof. vm_compute. reflexivity. Qed.

(** A table whose event is the last event of the log in memory. *)
Lemma final_events_suffix_exact_witness :
  exists b, @pbns_measured_boot_final_events_exact_suffix x86_64 (mk_view 65536 ex_log) (mk_view (65536 + zlen ex_log - zlen (table_octets [ex_event])) (table_octets [ex_event])) (Some true)
    = Some (PBNS_OK, Some b) /\ b = true.
Proof.
  destruct (@final_events_suffix_exact x86_64 (mk_view 65536 ex_log) (mk_view (65536 + zlen ex_log - zlen (table_octets [ex_event])) (table_octets [ex_event])) ex_header
    [ex_event; ex_event] [ex_event] true) as (b & E & H).
  - discriminate.
  - vm_compute. discriminate.
  - exact ex_log_ok.
  - reflexivity.
  - exact ex_log_bytes.
  - vm_compute. discriminate.
  - constructor; [exact ex_event_ok|constructor].
  - discriminate.
  - reflexivity.
  - apply Forall_forall. intros b Hb. apply byteb_spec. pose proof ex_table_octets as H. rewrite forallb_forall in H. by apply H.
  - vm_compute. discriminate.
  - vm_compute. discriminate.
  - vm_compute. discriminate.
  - exists b. split; [exact E|]. apply H. split; [vm_compute; reflexivity|]. exists [ex_event], [ex_event]. repeat split.
Defined.

Definition ex_selection : pbns_measured_boot_selection := mk_selection (Some [mk_selection_item 0x0b 7]) 1.
Definition ex_snapshot : pbns_measured_boot_pcr_snapshot :=
  mk_snapshot (mk_pcr_value (mk_selection_item 0x0b 7) (replicate 32 5) 32 :: replicate 23 zero_pcr_value) 1 4.
Definition ex_source : pbns_measured_boot_event_source :=
  mk_event_source (mk_view 65536 ex_log) null_view PBNS_MEASURED_BOOT_FINAL_NONE false.

(** A hash that only depends on the length, for the example. *)
Definition ex_hash (data : bytes) : bytes := replicate 32 (u8 (zlen data)).

Definition ex_input : pbns_measured_boot_capture_input unit :=
  mk_capture_input ex_selection (Some (fun w => (PBNS_OK, ex_source, w))) (Some (fun w _ _ => (PBNS_OK, ex_snapshot, w)))
    (Some (fun w data _ => (PBNS_OK, ex_hash data, w))) (Some (fun w _ => (true, w))).

#[export] Instance ex_input_laws : CaptureLaws ex_input ex_hash.
Proof.
  constructor.
  - intros read w st source w' [= <-] [= <- <- <-]. split; [exact ex_log_bytes|apply bytes_ok_nil].
  - intros read w s0 st s w' [= <-] [= <- <- <-]. reflexivity.
  - intros sha w data digest st x w' [= <-] [= <- <- <-]. done.
Qed.

Lemma capture_contract_witness :
  exists data ev w', @pbns_measured_boot_capture_evidence x86_64 _ (Some ex_input) (mk_buffer 4096 0 (replicate 400 170)) (Some zero_evidence) tt
    = Some (PBNS_OK, data, Some ev, w')
  /\ captured ex_input ex_hash (mk_buffer 4096 0 (replicate 400 170)) tt data ev w'.
Proof.
  destruct (@capture_contract x86_64 unit ex_input ex_hash _ (mk_buffer 4096 0 (replicate 400 170)) zero_evidence tt)
    as (st & data & ev & w' & E & _ & H).
  - repeat split; eexists; reflexivity.
  - unfold selection_typed. cbn. split; [reflexivity|]. repeat constructor; cbn; lia.
  - discriminate.
  - reflexivity.
  - vm_compute. split; [reflexivity|discriminate].
  - assert (st = PBNS_OK) as ->.
    { assert (Hc : exists d e w1, @pbns_measured_boot_capture_evidence x86_64 _ (Some ex_input) (mk_buffer 4096 0 (replicate 400 170)) (Some zero_evidence) tt
        = Some (PBNS_OK, d, Some e, w1)) by (eexists _, _, _; vm_compute; reflexivity).
      destruct Hc as (d & e & w1 & Hc). rewrite Hc in E. congruence. }
    exists data, ev, w'. split; [exact E|exact (H eq_refl)].
Defined.
