(* ===== verification/CborTree.v ===== *)
(** * Nested CBOR (QCBOR)

    The manifests and the COSE messages nest maps, arrays and tags.  The file
    gives the preferred serialization of such trees, proves that it can be
    parsed back, and extends the interface to QCBOR with an encoder for trees
    and the decoder that looks fields up by label ("spiffy decode"). *)

From stdpp Require Import base list numbers.
From Stdlib Require Import ZArith Lia.
From S2P Require Import Prelude Endian Buffers Cbor.

Definition QCBOR_TYPE_ARRAY : Z := 4.
Definition CBOR_TAG_INVALID64 : Z := UINT64_MAX.

(** ** Serialization *)

Inductive cbor_tree :=
| TValue (v : cbor_value)
| TBool (b : bool)
| TArray (items : list cbor_tree)
| TMap (fields : list (Z * cbor_tree))
| TTag (tag : Z) (content : cbor_tree).

Fixpoint tree_encode (t : cbor_tree) : bytes :=
  match t with
  | TValue v => cbor_encode v
  | TBool b => [if b then 0xf5 else 0xf4]
  | TArray items => cbor_head 4 (zlen items) ++ concat (map tree_encode items)
  | TMap fields => cbor_head 5 (zlen fields) ++ concat (map (fun p => cbor_int (fst p) ++ tree_encode (snd p)) fields)
  | TTag tag content => cbor_head 6 tag ++ tree_encode content
  end.

(** The fields of a flat map, as a tree. *)
Definition leaf (p : Z * cbor_value) : Z * cbor_tree := (fst p, TValue (snd p)).

Fixpoint tree_depth (t : cbor_tree) : nat :=
  match t with
  | TValue _ | TBool _ => 1
  | TArray items => S (list_max (map tree_depth items))
  | TMap fields => S (list_max (map (fun p => tree_depth (snd p)) fields))
  | TTag _ content => S (tree_depth content)
  end.

Definition all_of {A} (P : A -> Prop) (l : list A) : Prop := fold_right (fun x Q => P x /\ Q) True l.

Definition label_ok (label : Z) : Prop := - 2 ^ 63 <= label <= INT64_MAX.

(** The ranges of the C types. *)
Fixpoint tree_ok (t : cbor_tree) : Prop :=
  match t with
  | TValue v => cbor_value_ok v
  | TBool _ => True
  | TArray items => zlen items <= UINT64_MAX /\ fold_right (fun x Q => tree_ok x /\ Q) True items
  | TMap fields =>
      zlen fields <= UINT64_MAX /\ fold_right (fun p Q => (label_ok (fst p) /\ tree_ok (snd p)) /\ Q) True fields
  | TTag tag content => 0 <= tag <= UINT64_MAX /\ tree_ok content
  end.

(** What parsing gives back: a non-negative integer has one kind. *)
Fixpoint tree_norm (t : cbor_tree) : cbor_tree :=
  match t with
  | TValue v => TValue (cbor_norm v)
  | TBool b => TBool b
  | TArray items => TArray (map tree_norm items)
  | TMap fields => TMap (map (fun p => (fst p, tree_norm (snd p))) fields)
  | TTag tag content => TTag tag (tree_norm content)
  end.

(** ** Parsing back *)

Fixpoint parse_many {A} (parse : bytes -> option (A * bytes)) (n : nat) (l : bytes) : option (list A * bytes) :=
  match n with
  | O => Some ([], l)
  | S n => '(x, l) ← parse l; '(xs, l) ← parse_many parse n l; Some (x :: xs, l)
  end.

Definition parse_field (parse : bytes -> option (cbor_tree * bytes)) (l : bytes) : option ((Z * cbor_tree) * bytes) :=
  '(label, l) ← parse_label l; '(t, l) ← parse l; Some ((label, t), l).

Fixpoint parse_tree (depth : nat) (l : bytes) : option (cbor_tree * bytes) :=
  match depth with
  | O => None
  | S depth =>
      '(major, arg, r) ← parse_head l;
      if (major =? 4) || (major =? 5) then
        if zlen r <? arg then None
        else if major =? 4
        then '(items, r) ← parse_many (parse_tree depth) (Z.to_nat arg) r; Some (TArray items, r)
        else '(fields, r) ← parse_many (parse_field (parse_tree depth)) (Z.to_nat arg) r; Some (TMap fields, r)
      else if major =? 6 then '(content, r) ← parse_tree depth r; Some (TTag arg content, r)
      else if major =? 7 then
        if arg =? 20 then Some (TBool false, r) else if arg =? 21 then Some (TBool true, r) else None
      else '(v, r) ← parse_value l; Some (TValue v, r)
  end.

Lemma tree_encode_pos t : 1 <= zlen (tree_encode t).
Proof.
  destruct t as [v| | | |]; cbn [tree_encode length]; [|done|..];
    rewrite ?length_app; try match goal with |- context [cbor_head ?m ?a] => pose proof (cbor_head_pos m a); lia end.
  destruct v; cbn [cbor_encode]; unfold cbor_int; try case_match; rewrite ?length_app;
    match goal with |- context [cbor_head ?m ?a] => pose proof (cbor_head_pos m a); lia end.
Qed.

Lemma concat_map_length {A} (f : A -> bytes) (l : list A) :
  (forall x, 1 <= zlen (f x)) -> zlen l <= zlen (concat (map f l)).
Proof.
  intros Hf. induction l as [|x l IH]; [done|]. cbn [map concat length]. rewrite length_app. specialize (Hf x). lia.
Qed.

Lemma field_encode_pos (p : Z * cbor_tree) : 1 <= zlen (cbor_int (fst p) ++ tree_encode (snd p)).
Proof. rewrite length_app. pose proof (tree_encode_pos (snd p)). lia. Qed.

Lemma parse_many_encode {A} (parse : bytes -> option (A * bytes)) (enc : A -> bytes) (norm : A -> A) (l : list A) rest :
  (forall x r, In x l -> parse (enc x ++ r) = Some (norm x, r)) ->
  parse_many parse (length l) (concat (map enc l) ++ rest) = Some (map norm l, rest).
Proof.
  induction l as [|x l IH]; intros Hp; [done|]. cbn [length parse_many map concat].
  rewrite <- app_assoc, Hp by (by left). cbn [mbind option_bind].
  rewrite IH by (intros; apply Hp; by right). done.
Qed.

Lemma all_of_in {A} (P : A -> Prop) l x : all_of P l -> In x l -> P x.
Proof. induction l as [|y l IH]; [done|]. intros [Hy Hl] [-> |Hin]; auto. Qed.

Lemma in_list_max {A} (f : A -> nat) l x n : In x l -> (list_max (map f l) <= n)%nat -> (f x <= n)%nat.
Proof.
  induction l as [|y l IH]; [done|]. cbn [map]. cbn [list_max fold_right]. fold (list_max (map f l)).
  intros [-> |Hin] Hle; [lia|]. apply IH; [done|]. lia.
Qed.

Lemma map_ok_fields fields :
  fold_right (fun p Q => (label_ok (fst p) /\ tree_ok (snd p)) /\ Q) True fields ->
  all_of (fun p : Z * cbor_tree => label_ok (fst p) /\ tree_ok (snd p)) fields.
Proof. done. Qed.

(** The serialization of a tree is read back, whatever follows it. *)
Lemma parse_tree_encode depth t rest :
  (tree_depth t <= depth)%nat -> tree_ok t -> parse_tree depth (tree_encode t ++ rest) = Some (tree_norm t, rest).
Proof.
  revert t rest. induction depth as [|depth IH]; intros t rest Hd Hok; [destruct t; cbn in Hd; lia|].
  destruct t as [v|b|items|fields|tag content]; cbn [tree_ok tree_depth tree_encode tree_norm] in *.
  - assert (E : exists major arg r, parse_head (cbor_encode v ++ rest) = Some (major, arg, r) /\ 0 <= major <= 3).
    { unfold INT64_MAX, UINT64_MAX in *. destruct v as [v|v|s|s]; cbn [cbor_encode cbor_value_ok] in *;
        unfold cbor_int, INT64_MAX, UINT64_MAX in *; try case_match; bools;
        rewrite <- ?app_assoc, parse_head_head by (unfold UINT64_MAX; lia); do 3 eexists; (split; [reflexivity|lia]). }
    destruct E as (major & arg & r & E & Hm). cbn [parse_tree]. rewrite E. cbn [mbind option_bind].
    rewrite (proj2 (Z.eqb_neq major 4)), (proj2 (Z.eqb_neq major 5)), (proj2 (Z.eqb_neq major 6)),
      (proj2 (Z.eqb_neq major 7)) by lia. cbn [orb]. by rewrite parse_value_encode.
  - by destruct b.
  - destruct Hok as [Hl Hall]. cbn [parse_tree]. rewrite <- app_assoc, parse_head_head by lia. cbn [mbind option_bind].
    cbn [Z.eqb Pos.eqb orb]. pose proof (concat_map_length tree_encode items tree_encode_pos).
    rewrite zlen_ltb_false by llia. rewrite Nat2Z.id, (parse_many_encode _ tree_encode tree_norm); [done|].
    intros x r Hx. apply IH; [|by apply (all_of_in tree_ok items x)].
    apply (in_list_max tree_depth items x); [done|lia].
  - destruct Hok as [Hl Hall]. cbn [parse_tree]. rewrite <- app_assoc, parse_head_head by lia. cbn [mbind option_bind].
    cbn [Z.eqb Pos.eqb orb]. pose proof (concat_map_length _ fields field_encode_pos).
    rewrite zlen_ltb_false by llia.
    rewrite Nat2Z.id, (parse_many_encode _ _ (fun p : Z * cbor_tree => (fst p, tree_norm (snd p)))); [done|].
    intros [label x] r Hx. apply map_ok_fields in Hall. destruct (all_of_in _ _ _ Hall Hx) as [Hlab Hx'].
    cbn [fst snd] in *. unfold parse_field. rewrite <- app_assoc, parse_label_int by done. cbn [mbind option_bind].
    rewrite IH; [done| |done]. apply (in_list_max (fun p : Z * cbor_tree => tree_depth (snd p)) fields (label, x)); [done|lia].
  - destruct Hok as [Ht Hc]. cbn [parse_tree]. rewrite <- app_assoc, parse_head_head by lia. cbn [mbind option_bind].
    cbn [Z.eqb Pos.eqb orb]. by rewrite IH by (done || lia).
Qed.

(** Equal octets have equal trees. *)
Lemma tree_encode_inj t1 t2 : tree_ok t1 -> tree_ok t2 -> tree_encode t1 = tree_encode t2 -> tree_norm t1 = tree_norm t2.
Proof.
  intros H1 H2 E. set (d := Nat.max (tree_depth t1) (tree_depth t2)).
  pose proof (parse_tree_encode d t1 [] ltac:(lia) H1) as E1. pose proof (parse_tree_encode d t2 [] ltac:(lia) H2) as E2.
  rewrite E in E1. congruence.
Qed.

(** ** The interface

    [QCBOREncode_tree t storage] is the sequence of encoder calls that writes
    [t].  A [Get...InMapN] gives the value it stores, [None] when the decoder is
    in its error state or the field is not there, and the variable keeps what it
    held. *)
Class QCBORSpiffy `{Q : QCBOR} := {
  QCBOREncode_tree : cbor_tree -> bytes -> QCBORError * bytes * bytes;
  QCBORDecode_EnterMap : QCBORDecodeContext -> QCBORDecodeContext;
  QCBORDecode_EnterMapFromMapN : QCBORDecodeContext -> Z -> QCBORDecodeContext;
  QCBORDecode_ExitMap : QCBORDecodeContext -> QCBORDecodeContext;
  QCBORDecode_GetUInt64InMapN : QCBORDecodeContext -> Z -> option Z * QCBORDecodeContext;
  QCBORDecode_GetInt64InMapN : QCBORDecodeContext -> Z -> option Z * QCBORDecodeContext;
  QCBORDecode_GetByteStringInMapN : QCBORDecodeContext -> Z -> option pbns_view * QCBORDecodeContext;
  QCBORDecode_GetTextStringInMapN : QCBORDecodeContext -> Z -> option pbns_view * QCBORDecodeContext;
  QCBORDecode_GetNthTag : QCBORDecodeContext -> QCBORItem -> Z -> Z;
  QCBOREncode_tree_spec : forall t storage e out storage',
    QCBOREncode_tree t storage = (e, out, storage') ->
    length storage' = length storage
    /\ (e = QCBOR_SUCCESS ->
        out = tree_encode t /\ zlen out <= zlen storage /\ storage' = out ++ drop (length out) storage)
    /\ (zlen storage < UINT32_MAX -> zlen (tree_encode t) <= zlen storage -> e = QCBOR_SUCCESS)
    /\ (zlen storage < UINT32_MAX -> zlen storage < zlen (tree_encode t) -> e = QCBOR_ERR_BUFFER_TOO_SMALL);
  get_uint64_range : forall d label v d', QCBORDecode_GetUInt64InMapN d label = (Some v, d') -> 0 <= v <= UINT64_MAX;
  get_int64_range : forall d label v d', QCBORDecode_GetInt64InMapN d label = (Some v, d') -> - 2 ^ 63 <= v <= INT64_MAX;
}.

(** A field of a map. *)
Fixpoint field (label : Z) (fields : list (Z * cbor_tree)) : option cbor_tree :=
  match fields with
  | [] => None
  | (l, t) :: fields => if l =? label then Some t else field label fields
  end.

(** No label twice, in any map. *)
Fixpoint labels_distinct (t : cbor_tree) : bool :=
  match t with
  | TValue _ | TBool _ => true
  | TArray items => forallb labels_distinct items
  | TMap fields => bool_decide (NoDup (map fst fields)) && forallb (fun p => labels_distinct (snd p)) fields
  | TTag _ content => labels_distinct content
  end.

(** The trees within the limits of the decoder: 15 levels, and no more octets
    than keep the number of items of a map in 16 bits. *)
Definition tree_readable (t : cbor_tree) : Prop :=
  tree_ok t /\ labels_distinct t = true /\ (tree_depth t <= 15)%nat /\ zlen (tree_encode t) <= UINT16_MAX.

Definition norm_map (fields : list (Z * cbor_tree)) : list (Z * cbor_tree) :=
  map (fun p => (fst p, tree_norm (snd p))) fields.

(** [open_maps] is the fields of the maps that were entered, innermost first,
    with the integers in the form that parsing gives them. *)
Class SpiffyReads `{S : QCBORSpiffy} := {
  open_maps : QCBORDecodeContext -> option (list (list (Z * cbor_tree)));
  reads_enter : forall fields, tree_readable (TMap fields) ->
    open_maps (QCBORDecode_EnterMap (QCBORDecode_Init (tree_encode (TMap fields)))) = Some [norm_map fields];
  reads_nested : forall d fields rest label inner, open_maps d = Some (fields :: rest) ->
    field label fields = Some (TMap inner) ->
    open_maps (QCBORDecode_EnterMapFromMapN d label) = Some (inner :: fields :: rest);
  reads_exit : forall d fields rest, open_maps d = Some (fields :: rest) -> open_maps (QCBORDecode_ExitMap d) = Some rest;
  reads_end : forall d, open_maps d = Some [] -> QCBORDecode_Finish d = true;
  reads_uint : forall d fields rest label v, open_maps d = Some (fields :: rest) ->
    field label fields = Some (TValue (CUInt v)) -> 0 <= v <= UINT64_MAX ->
    exists d', QCBORDecode_GetUInt64InMapN d label = (Some v, d') /\ open_maps d' = open_maps d;
  reads_int : forall d fields rest label v, open_maps d = Some (fields :: rest) ->
    field label fields = Some (TValue (cbor_norm (CInt v))) -> - 2 ^ 63 <= v <= INT64_MAX ->
    exists d', QCBORDecode_GetInt64InMapN d label = (Some v, d') /\ open_maps d' = open_maps d;
  reads_bytes : forall d fields rest label s, open_maps d = Some (fields :: rest) ->
    field label fields = Some (TValue (CBytes s)) ->
    exists p d', QCBORDecode_GetByteStringInMapN d label = (Some (mk_view p s), d') /\ p <> 0 /\ open_maps d' = open_maps d;
  reads_text : forall d fields rest label s, open_maps d = Some (fields :: rest) ->
    field label fields = Some (TValue (CText s)) ->
    exists p d', QCBORDecode_GetTextStringInMapN d label = (Some (mk_view p s), d') /\ p <> 0 /\ open_maps d' = open_maps d;
}.

(** ** An implementation of the interface

    The decoder parses the whole input when it is initialised.  Its context is
    the items to hand out with their tags, the tags of the last one, and the
    tree with the maps that were entered. *)

Fixpoint tree_items (level labeltype label : Z) (tags : list Z) (t : cbor_tree) : list (QCBORItem * list Z) :=
  let item type i u count s := (mk_item type level labeltype label i u count s 4096, tags) in
  match t with
  | TValue (CUInt v) => [if v <=? INT64_MAX then item QCBOR_TYPE_INT64 v 0 0 [] else item QCBOR_TYPE_UINT64 0 v 0 []]
  | TValue (CInt v) => [item QCBOR_TYPE_INT64 v 0 0 []]
  | TValue (CText s) => [item QCBOR_TYPE_TEXT_STRING 0 0 0 s]
  | TValue (CBytes s) => [item QCBOR_TYPE_BYTE_STRING 0 0 0 s]
  | TBool b => [item (if b then 21 else 20) 0 0 0 []]
  | TArray items =>
      item QCBOR_TYPE_ARRAY 0 0 (zlen items) [] :: concat (map (tree_items (level + 1) QCBOR_TYPE_NONE 0 []) items)
  | TMap fields =>
      item QCBOR_TYPE_MAP 0 0 (zlen fields) []
      :: concat (map (fun p => tree_items (level + 1) QCBOR_TYPE_INT64 (fst p) [] (snd p)) fields)
  | TTag tag content => tree_items level labeltype label (tag :: tags) content
  end.

Record tree_decoder := mk_tree_decoder {
  td_items : list (QCBORItem * list Z);
  td_tags : list Z;
  td_tree : option cbor_tree;
  td_maps : option (list (list (Z * cbor_tree)));
}.

Definition failed_decoder : tree_decoder := mk_tree_decoder [] [] None None.

Definition tree_init (l : bytes) : tree_decoder :=
  match parse_tree 16 l with
  | Some (t, []) => mk_tree_decoder (tree_items 0 QCBOR_TYPE_NONE 0 [] t) [] (Some t) (Some [])
  | _ => failed_decoder
  end.

#[refine] Definition tree_qcbor : QCBOR := {|
  QCBORDecodeContext := tree_decoder;
  QCBORDecode_Init := tree_init;
  QCBORDecode_GetNext d :=
    match td_items d with
    | [] => (None, failed_decoder)
    | (item, tags) :: items => (Some item, mk_tree_decoder items tags (td_tree d) (td_maps d))
    end;
  QCBORDecode_Finish d := match td_items d, td_maps d with [], Some [] => true | _, _ => false end;
  QCBOREncode_map fields storage :=
    if zlen (cbor_map fields) <=? zlen storage
    then (QCBOR_SUCCESS, cbor_map fields, cbor_map fields ++ drop (length (cbor_map fields)) storage)
    else (QCBOR_ERR_BUFFER_TOO_SMALL, [], storage);
|}.
Proof.
  intros fields storage e out storage' E. destruct (Z.leb_spec (zlen (cbor_map fields)) (zlen storage));
    injection E as <- <- <-.
  - split; [rewrite length_app, length_drop; lia|]. split; [done|]. split; [done|]. lia.
  - split; [done|]. split; [done|]. split; [lia|done].
Defined.

(** The value of the field in the innermost map; a failed look-up ends the decoding. *)
Definition tree_get {A} (pick : cbor_tree -> option A) (d : tree_decoder) (label : Z) : option A * tree_decoder :=
  match td_maps d with
  | Some (fields :: _) =>
      match field label fields ≫= pick with Some x => (Some x, d) | None => (None, failed_decoder) end
  | _ => (None, failed_decoder)
  end.

Definition pick_uint (t : cbor_tree) : option Z :=
  match t with
  | TValue (CUInt v) | TValue (CInt v) => if (0 <=? v) && (v <=? UINT64_MAX) then Some v else None
  | _ => None
  end.

Definition pick_int (t : cbor_tree) : option Z :=
  match t with
  | TValue (CUInt v) | TValue (CInt v) => if (- 2 ^ 63 <=? v) && (v <=? INT64_MAX) then Some v else None
  | _ => None
  end.

Definition pick_bytes (t : cbor_tree) : option pbns_view :=
  match t with TValue (CBytes s) => Some (mk_view 4096 s) | _ => None end.

Definition pick_text (t : cbor_tree) : option pbns_view :=
  match t with TValue (CText s) => Some (mk_view 4096 s) | _ => None end.

Lemma tree_get_some {A} (pick : cbor_tree -> option A) d label x d' :
  tree_get pick d label = (Some x, d') -> exists t, pick t = Some x.
Proof.
  unfold tree_get. destruct (td_maps d) as [[|fields rest]|]; try done. destruct (field label fields) as [t|]; [|done].
  cbn [mbind option_bind]. destruct (pick t) eqn:E; [|done]. intros [= <- _]. by exists t.
Qed.

#[refine, export] Instance tree_spiffy : @QCBORSpiffy tree_qcbor := {|
  QCBOREncode_tree t storage :=
    if zlen (tree_encode t) <=? zlen storage
    then (QCBOR_SUCCESS, tree_encode t, tree_encode t ++ drop (length (tree_encode t)) storage)
    else (QCBOR_ERR_BUFFER_TOO_SMALL, [], storage);
  QCBORDecode_EnterMap (d : @QCBORDecodeContext tree_qcbor) :=
    match td_tree d with Some (TMap fields) => mk_tree_decoder [] [] None (Some [fields]) | _ => failed_decoder end;
  QCBORDecode_EnterMapFromMapN (d : @QCBORDecodeContext tree_qcbor) label :=
    match td_maps d with
    | Some (fields :: rest) =>
        match field label fields with
        | Some (TMap inner) => mk_tree_decoder [] [] None (Some (inner :: fields :: rest))
        | _ => failed_decoder
        end
    | _ => failed_decoder
    end;
  QCBORDecode_ExitMap (d : @QCBORDecodeContext tree_qcbor) :=
    match td_maps d with Some (_ :: rest) => mk_tree_decoder [] [] None (Some rest) | _ => failed_decoder end;
  QCBORDecode_GetUInt64InMapN := tree_get pick_uint;
  QCBORDecode_GetInt64InMapN := tree_get pick_int;
  QCBORDecode_GetByteStringInMapN := tree_get pick_bytes;
  QCBORDecode_GetTextStringInMapN := tree_get pick_text;
  QCBORDecode_GetNthTag (d : @QCBORDecodeContext tree_qcbor) _ n := default CBOR_TAG_INVALID64 (td_tags d !! Z.to_nat n);
|}.
Proof.
  - intros t storage e out storage' E. destruct (Z.leb_spec (zlen (tree_encode t)) (zlen storage)); injection E as <- <- <-.
    + split; [rewrite length_app, length_drop; lia|]. split; [done|]. split; [done|]. lia.
    + split; [done|]. split; [done|]. split; [lia|done].
  - intros d label v d' E. apply tree_get_some in E as [t E]. unfold pick_uint in E.
    destruct t as [[]| | | |]; try done; case_match; bools; try done; injection E as <-; lia.
  - intros d label v d' E. apply tree_get_some in E as [t E]. unfold pick_int in E.
    destruct t as [[]| | | |]; try done; case_match; bools; try done; injection E as <-; lia.
Defined.

#[export] Instance tree_reads : @SpiffyReads tree_qcbor tree_spiffy.
Proof.
  refine (@Build_SpiffyReads tree_qcbor tree_spiffy (fun d : @QCBORDecodeContext tree_qcbor =>
    match td_items d with [] => td_maps d | _ => None end) _ _ _ _ _ _ _ _).
  - intros fields (Hok & _ & Hd & _). cbn [QCBORDecode_EnterMap QCBORDecode_Init tree_spiffy tree_qcbor].
    unfold tree_init. rewrite <- (app_nil_r (tree_encode _)), parse_tree_encode by (done || lia). done.
  - intros d fields rest label inner. destruct d as [[] tags t maps]; [|done]. cbn. intros -> ->. done.
  - intros d fields rest. destruct d as [[] tags t maps]; [|done]. cbn. intros ->. done.
  - intros d. destruct d as [[] tags t maps]; [|done]. cbn. intros ->. done.
  - intros d fields rest label v. destruct d as [[] tags t maps]; [|done]. cbn. intros -> Hf Hv. exists (mk_tree_decoder [] tags t (Some (fields :: rest))).
    unfold tree_get. cbn [td_maps]. rewrite Hf. cbn [mbind option_bind pick_uint].
    rewrite (proj2 (Z.leb_le 0 v)), (proj2 (Z.leb_le v UINT64_MAX)) by lia. done.
  - intros d fields rest label v. destruct d as [[] tags t maps]; [|done]. cbn. intros -> Hf Hv. exists (mk_tree_decoder [] tags t (Some (fields :: rest))).
    unfold tree_get. cbn [td_maps]. rewrite Hf. cbn [mbind option_bind cbor_norm]. unfold pick_int.
    destruct (v <? 0); rewrite (proj2 (Z.leb_le (- 2 ^ 63) v)), (proj2 (Z.leb_le v INT64_MAX)) by lia; done.
  - intros d fields rest label s. destruct d as [[] tags t maps]; [|done]. cbn. intros -> Hf.
    exists 4096, (mk_tree_decoder [] tags t (Some (fields :: rest))).
    unfold tree_get. cbn [td_maps]. rewrite Hf. done.
  - intros d fields rest label s. destruct d as [[] tags t maps]; [|done]. cbn. intros -> Hf.
    exists 4096, (mk_tree_decoder [] tags t (Some (fields :: rest))).
    unfold tree_get. cbn [td_maps]. rewrite Hf. done.
Qed.

Lemma field_norm label fields : field label (norm_map fields) = tree_norm <$> field label fields.
Proof. induction fields as [|[l t] fields IH]; [done|]. cbn. by destruct (l =? label). Qed.

(** The two outcomes of encoding a tree into an array of less than 4 GiB. *)
Lemma tree_encode_cases `{S : QCBORSpiffy} t storage : zlen storage < UINT32_MAX ->
  exists e out data, QCBOREncode_tree t storage = (e, out, data) /\ length data = length storage
  /\ if zlen storage <? zlen (tree_encode t) then e = QCBOR_ERR_BUFFER_TOO_SMALL
     else e = QCBOR_SUCCESS /\ out = tree_encode t /\ data = tree_encode t ++ drop (length (tree_encode t)) storage.
Proof.
  intros Hcap. destruct (QCBOREncode_tree t storage) as [[e out] data] eqn:E. exists e, out, data. split; [done|].
  destruct (QCBOREncode_tree_spec _ _ _ _ _ E) as (Hlen & Hok & Hfit & Hsmall). split; [done|].
  destruct (Z.ltb_spec (zlen storage) (zlen (tree_encode t))); [by apply Hsmall|]. specialize (Hfit Hcap H).
  destruct (Hok Hfit) as (-> & _ & ->). done.
Qed.

(** A variable that is initialised with zero has its type after a look-up. *)
Lemma uint_default_range `{S : QCBORSpiffy} d label o d' :
  QCBORDecode_GetUInt64InMapN d label = (o, d') -> 0 <= default 0 o <= UINT64_MAX.
Proof. destruct o as [v|]; intros E; [by apply get_uint64_range in E|]. cbn. unfold UINT64_MAX. lia. Qed.

Lemma int_default_range `{S : QCBORSpiffy} d label o d' :
  QCBORDecode_GetInt64InMapN d label = (o, d') -> - 2 ^ 63 <= default 0 o <= INT64_MAX.
Proof. destruct o as [v|]; [apply get_int64_range|]. intros _. unfold INT64_MAX. cbn. lia. Qed.
