(* ===== verification/Crypto.v ===== *)
(** * Cryptographic providers ([include/pbns/crypto.h], [include/pbns/encrypt.h], [include/pbns/random.h])

    Signatures, encryption and random numbers come from providers, tables of
    callbacks over a world [W].  [crypto.c], [encrypt.c] and [random.c] check the
    arguments before a provider sees them and the results before a caller does.
    The context pointer of a provider is an address: the code only compares it
    with [NULL]. *)

From stdpp Require Import base list numbers.
From Stdlib Require Import ZArith Lia.
From S2P Require Import Prelude Status Buffers.

(** ** The code *)

Definition PBNS_ENCRYPT_MAX_RECIPIENT_KID : Z := 64.
Definition PBNS_ENCRYPT_MAX_EXTERNAL_AAD : Z := 256.
Definition PBNS_ENCRYPT_MAX_MESSAGE : Z := 64 * 1024.

(** A producer is given the output buffer and returns its contents and
    [*written]; a verifier returns the payload view. *)
Record pbns_crypto_ops (W : Type) := mk_crypto_ops {
  co_sign1_sign : ptr (W -> pbns_view -> pbns_view -> pbns_buffer -> pbns_status * bytes * Z * W);
  co_sign1_sign_profile : ptr (W -> pbns_view -> pbns_view -> pbns_view -> pbns_buffer -> pbns_status * bytes * Z * W);
  co_sign1_verify : ptr (W -> pbns_view -> pbns_view -> pbns_status * pbns_view * W);
  co_sign1_verify_profile : ptr (W -> pbns_view -> pbns_view -> pbns_view -> pbns_status * pbns_view * W);
  co_encrypt_for_recipient : ptr (W -> pbns_view -> pbns_view -> pbns_view -> pbns_buffer -> pbns_status * bytes * Z * W);
  co_decrypt_for_recipient : ptr (W -> pbns_view -> pbns_view -> pbns_view -> pbns_buffer -> pbns_status * bytes * Z * W);
}.
Arguments mk_crypto_ops {W}.
Arguments co_sign1_sign {W}.
Arguments co_sign1_sign_profile {W}.
Arguments co_sign1_verify {W}.
Arguments co_sign1_verify_profile {W}.
Arguments co_encrypt_for_recipient {W}.
Arguments co_decrypt_for_recipient {W}.

Record pbns_crypto (W : Type) := mk_crypto { cy_ops : ptr (pbns_crypto_ops W); cy_context : Z }.
Arguments mk_crypto {W}.
Arguments cy_ops {W}.
Arguments cy_context {W}.

Record pbns_random (W : Type) := mk_random {
  rn_fill : ptr (ptr (W -> pbns_buffer -> pbns_status * bytes * W));
  rn_context : Z;
}.
Arguments mk_random {W}.
Arguments rn_fill {W}.
Arguments rn_context {W}.

Section code.
Context {W : Type} `{Machine}.
Implicit Types (w : W) (crypto : ptr (pbns_crypto W)).

(** [ranges_overlap] of [crypto.c]: a [NULL] pointer with a length overlaps. *)
Definition crypto_ranges_overlap (input : pbns_view) (output : pbns_buffer) : bool :=
  if (v_len input =? 0) || (b_cap output =? 0) then false
  else if (v_ptr input =? 0) || (b_ptr output =? 0) then true
  else ranges_overlap (v_ptr input) (v_len input) (b_ptr output) (b_cap output).

(** The status, the octets of the output and [*written]. *)
Definition require_bounded_output (status : pbns_status) (output : pbns_buffer) (data : bytes) (written : Z)
  : pbns_status * bytes * Z :=
  if is_ok status && ((written =? 0) || (b_cap output <? written))
  then (PBNS_ERR_LIMIT, replicate (length (b_data output)) 0, 0)
  else (status, data, written).

Definition pbns_crypto_reset crypto : ptr (pbns_crypto W) := (fun _ => mk_crypto None 0) <$> crypto.

(** The callback that [select] names, when [crypto], its table and its context are there. *)
Definition provider {F : Type} crypto (select : pbns_crypto_ops W -> ptr F) : ptr F :=
  c ← crypto; ops ← cy_ops c; f ← select ops; if cy_context c =? 0 then None else Some f.

Definition pbns_sign1_sign crypto (payload external_aad : pbns_view) (output : pbns_buffer) (written : ptr Z) w
  : pbns_status * bytes * ptr Z * W :=
  match written with
  | None => (PBNS_ERR_ARGUMENT, b_data output, None, w)
  | Some _ =>
      match provider crypto co_sign1_sign with
      | None => (PBNS_ERR_ARGUMENT, b_data output, Some 0, w)
      | Some sign1_sign =>
          if negb (view_is_valid payload) || negb (view_is_valid external_aad) || negb (buffer_is_valid output)
             || crypto_ranges_overlap payload output || crypto_ranges_overlap external_aad output
          then (PBNS_ERR_ARGUMENT, b_data output, Some 0, w)
          else
          let '(status, data, written, w) := sign1_sign w payload external_aad output in
          let '(status, data, written) := require_bounded_output status output data written in
          (status, data, Some written, w)
      end
  end.

Definition pbns_sign1_sign_profile crypto (payload external_aad kid : pbns_view) (output : pbns_buffer)
    (written : ptr Z) w : pbns_status * bytes * ptr Z * W :=
  match written with
  | None => (PBNS_ERR_ARGUMENT, b_data output, None, w)
  | Some _ =>
      match provider crypto co_sign1_sign_profile with
      | None => (PBNS_ERR_ARGUMENT, b_data output, Some 0, w)
      | Some sign1_sign_profile =>
          if negb (view_is_valid payload) || negb (view_is_valid external_aad) || negb (view_is_valid kid)
             || (v_len kid =? 0) || negb (buffer_is_valid output) || crypto_ranges_overlap payload output
             || crypto_ranges_overlap external_aad output || crypto_ranges_overlap kid output
          then (PBNS_ERR_ARGUMENT, b_data output, Some 0, w)
          else
          let '(status, data, written, w) := sign1_sign_profile w payload external_aad kid output in
          let '(status, data, written) := require_bounded_output status output data written in
          (status, data, Some written, w)
      end
  end.

Definition pbns_sign1_verify crypto (cose external_aad : pbns_view) (payload : ptr pbns_view) w
  : pbns_status * ptr pbns_view * W :=
  match payload with
  | None => (PBNS_ERR_ARGUMENT, None, w)
  | Some _ =>
      match provider crypto co_sign1_verify with
      | None => (PBNS_ERR_ARGUMENT, Some null_view, w)
      | Some sign1_verify =>
          if negb (view_is_valid cose) || negb (view_is_valid external_aad)
          then (PBNS_ERR_ARGUMENT, Some null_view, w)
          else let '(status, payload, w) := sign1_verify w cose external_aad in (status, Some payload, w)
      end
  end.

Definition pbns_sign1_verify_profile crypto (cose external_aad expected_kid : pbns_view) (payload : ptr pbns_view) w
  : pbns_status * ptr pbns_view * W :=
  match payload with
  | None => (PBNS_ERR_ARGUMENT, None, w)
  | Some _ =>
      match provider crypto co_sign1_verify_profile with
      | None => (PBNS_ERR_ARGUMENT, Some null_view, w)
      | Some sign1_verify_profile =>
          if negb (view_is_valid cose) || negb (view_is_valid external_aad) || negb (view_is_valid expected_kid)
             || (v_len expected_kid =? 0)
          then (PBNS_ERR_ARGUMENT, Some null_view, w)
          else
          let '(status, payload, w) := sign1_verify_profile w cose external_aad expected_kid in (status, Some payload, w)
      end
  end.

(** *** Encryption ([src/core/encrypt.c]) *)

Definition view_overlaps (input : pbns_view) (output : pbns_buffer) : bool :=
  ranges_overlap (v_ptr input) (v_len input) (b_ptr output) (b_cap output).

(** The checks on the arguments, those on [crypto] apart ([provider]). *)
Definition common_arguments_are_valid (recipient_kid external_aad : pbns_view) (output : pbns_buffer) : bool :=
  view_is_valid recipient_kid && (0 <? v_len recipient_kid) && (v_len recipient_kid <=? PBNS_ENCRYPT_MAX_RECIPIENT_KID)
  && view_is_valid external_aad && (v_len external_aad <=? PBNS_ENCRYPT_MAX_EXTERNAL_AAD)
  && buffer_is_valid output && (b_cap output <=? PBNS_ENCRYPT_MAX_MESSAGE).

Definition pbns_encrypt_for_recipient crypto (recipient_kid plaintext external_aad : pbns_view) (output : pbns_buffer)
    (written : ptr Z) w : pbns_status * bytes * ptr Z * W :=
  match written with
  | None => (PBNS_ERR_ARGUMENT, b_data output, None, w)
  | Some _ =>
      match provider crypto co_encrypt_for_recipient with
      | None => (PBNS_ERR_ARGUMENT, b_data output, Some 0, w)
      | Some encrypt =>
          if negb (common_arguments_are_valid recipient_kid external_aad output) || negb (view_is_valid plaintext)
             || (PBNS_ENCRYPT_MAX_MESSAGE <? v_len plaintext)
          then (PBNS_ERR_ARGUMENT, b_data output, Some 0, w)
          else if view_overlaps recipient_kid output || view_overlaps plaintext output || view_overlaps external_aad output
          then (PBNS_ERR_ARGUMENT, b_data output, Some 0, w)
          else
          let '(status, data, written, w) := encrypt w recipient_kid plaintext external_aad output in
          (status, data, Some written, w)
      end
  end.

Definition pbns_decrypt_for_recipient crypto (expected_recipient_kid message external_aad : pbns_view)
    (plaintext : pbns_buffer) (written : ptr Z) w : pbns_status * bytes * ptr Z * W :=
  match written with
  | None => (PBNS_ERR_ARGUMENT, b_data plaintext, None, w)
  | Some _ =>
      match provider crypto co_decrypt_for_recipient with
      | None => (PBNS_ERR_ARGUMENT, b_data plaintext, Some 0, w)
      | Some decrypt =>
          if negb (common_arguments_are_valid expected_recipient_kid external_aad plaintext) || negb (view_is_valid message)
             || (v_len message =? 0) || (PBNS_ENCRYPT_MAX_MESSAGE <? v_len message)
          then (PBNS_ERR_ARGUMENT, b_data plaintext, Some 0, w)
          else if view_overlaps expected_recipient_kid plaintext || view_overlaps message plaintext
                  || view_overlaps external_aad plaintext
          then (PBNS_ERR_ARGUMENT, b_data plaintext, Some 0, w)
          else
          let '(status, data, written, w) := decrypt w expected_recipient_kid message external_aad plaintext in
          (status, data, Some written, w)
      end
  end.

(** *** Random numbers ([src/core/random.c]) *)

(** The status and the octets of the output, zeroed when the provider failed. *)
Definition pbns_random_fill (random : ptr (pbns_random W)) (output : pbns_buffer) w : pbns_status * bytes * W :=
  match (r ← random; ops ← rn_fill r; fill ← ops; if rn_context r =? 0 then None else Some fill) with
  | None => (PBNS_ERR_ARGUMENT, b_data output, w)
  | Some fill =>
      if (b_ptr output =? 0) || negb (b_len output =? 0) || (b_cap output =? 0)
      then (PBNS_ERR_ARGUMENT, b_data output, w)
      else
      let '(status, data, w) := fill w output in
      if negb (is_ok status) then (status, replicate (length (b_data output)) 0, w) else (status, data, w)
  end.
End code.

(** ** Lemmas *)

(** The overlap test finds every shared address. *)
Lemma crypto_overlap_sound `{Machine} input output :
  crypto_ranges_overlap input output = false ->
  forall a, ~ (v_ptr input <= a < v_ptr input + v_len input /\ b_ptr output <= a < b_ptr output + b_cap output).
Proof.
  unfold crypto_ranges_overlap, v_len, b_cap.
  destruct (Z.eqb_spec (zlen (v_data input)) 0), (Z.eqb_spec (zlen (b_data output)) 0); cbn [orb]; try (intros _ a; lia).
  destruct (_ || _); [done|]. apply ranges_overlap_sound; lia.
Qed.

(** A signature is handed out only when it is not empty and lies in the output;
    a provider that claims otherwise leaves nothing behind. *)
Lemma bounded_output status output data written st out n :
  0 <= written -> require_bounded_output status output data written = (st, out, n) ->
  (st = PBNS_OK -> status = PBNS_OK /\ out = data /\ n = written /\ 0 < n <= b_cap output)
  /\ (status = PBNS_OK -> st <> PBNS_OK -> st = PBNS_ERR_LIMIT /\ n = 0 /\ Forall (fun b => b = 0) out).
Proof.
  intros Hn. unfold require_bounded_output. destruct (is_ok status && _) eqn:E; intros [= <- <- <-].
  - split; [done|]. intros _ _. split; [done|]. split; [done|]. by apply Forall_replicate.
  - split; [|congruence]. intros ->. cbn in E. bools. split_and!; try done; lia.
Qed.

Lemma verify_calls_provider {W} `{Machine} (crypto : ptr (pbns_crypto W)) cose aad w st payload w' :
  pbns_sign1_verify crypto cose aad (Some null_view) w = (st, payload, w') -> st = PBNS_OK ->
  exists verify p, provider crypto co_sign1_verify = Some verify /\ payload = Some p /\ verify w cose aad = (PBNS_OK, p, w').
Proof.
  unfold pbns_sign1_verify. destruct (provider crypto co_sign1_verify) as [verify|]; [|by intros [= <- <- <-]].
  destruct (_ || _); [by intros [= <- <- <-]|]. destruct (verify w cose aad) as [[st1 p] w1] eqn:E.
  intros [= <- <- <-] ->. by exists verify, p.
Qed.
