(* ===== verification/RecoveryRequest.v ===== *)
(** * Recovery requests ([include/pbns/recovery_request.h], [src/core/recovery_request.c])

    A request for a recovery manifest or for a recovery image is a canonical
    CBOR map of eight fields.  The encoding has one size; decoding accepts the
    canonical encodings of valid requests and nothing else. *)

From stdpp Require Import base list numbers.
From Stdlib Require Import ZArith Lia.
From S2P Require Import Prelude Endian Status Buffers Cbor CborReader Compare TrustedTime TimeProps.

(** ** The code *)

(** "PBNS-RECOVERY-REQUEST-v1" and "PBNS-RECOVERY-REQUEST-AAD-v1" *)
Definition PBNS_RECOVERY_REQUEST_DOMAIN : bytes :=
  [80; 66; 78; 83; 45; 82; 69; 67; 79; 86; 69; 82; 89; 45; 82; 69; 81; 85; 69; 83; 84; 45; 118; 49].
Definition PBNS_RECOVERY_REQUEST_AAD : bytes :=
  [80; 66; 78; 83; 45; 82; 69; 67; 79; 86; 69; 82; 89; 45; 82; 69; 81; 85; 69; 83; 84; 45; 65; 65; 68; 45; 118; 49].
Definition PBNS_RECOVERY_REQUEST_VERSION : Z := 1.
Definition PBNS_RECOVERY_REQUEST_SERVICE : Z := 2.
Definition PBNS_RECOVERY_REQUEST_ID_SIZE : Z := 16.
Definition PBNS_RECOVERY_REQUEST_FINGERPRINT_SIZE : Z := 32.
Definition PBNS_RECOVERY_REQUEST_NONCE_SIZE : Z := 32.
Definition PBNS_RECOVERY_REQUEST_DIGEST_SIZE : Z := 32.
Definition PBNS_RECOVERY_REQUEST_ENCODED_MAX_SIZE : Z := 256.
Definition PBNS_RECOVERY_REQUEST_FIELD_COUNT : Z := 8.

(** The enumeration, as the unsigned integer it is: a decoded value is cast. *)
Definition PBNS_RECOVERY_OPERATION_INVALID : Z := 0.
Definition PBNS_RECOVERY_OPERATION_MANIFEST : Z := 1.
Definition PBNS_RECOVERY_OPERATION_ARTIFACT : Z := 2.

Record pbns_recovery_request := mk_recovery_request {
  rr_operation : Z;
  rr_request_id : bytes;
  rr_host_fingerprint : bytes;
  rr_nonce : bytes;
  rr_artifact_digest : bytes;
}.

Definition zero_recovery_request : pbns_recovery_request :=
  mk_recovery_request PBNS_RECOVERY_OPERATION_INVALID (replicate 16 0) (replicate 32 0) (replicate 32 0) (replicate 32 0).

Definition any_nonzero (value : bytes) : bool := ct_nonzero value.

Definition request_valid (request : pbns_recovery_request) : bool :=
  if negb (any_nonzero (rr_request_id request)) || negb (any_nonzero (rr_host_fingerprint request))
     || negb (any_nonzero (rr_nonce request))
  then false
  else
  let digest_nonzero := any_nonzero (rr_artifact_digest request) in
  ((rr_operation request =? PBNS_RECOVERY_OPERATION_MANIFEST) && negb digest_nonzero)
  || ((rr_operation request =? PBNS_RECOVERY_OPERATION_ARTIFACT) && digest_nonzero).

Definition recovery_request_fields (request : pbns_recovery_request) : list (Z * cbor_value) :=
  [(1, CText PBNS_RECOVERY_REQUEST_DOMAIN); (2, CUInt PBNS_RECOVERY_REQUEST_VERSION);
   (3, CUInt PBNS_RECOVERY_REQUEST_SERVICE); (4, CUInt (rr_operation request));
   (5, CBytes (rr_request_id request)); (6, CBytes (rr_host_fingerprint request));
   (7, CBytes (rr_nonce request)); (8, CBytes (rr_artifact_digest request))].

Section code.
Context `{QCBOR}.

(** The status, the octets of the storage and [*written]. *)
Definition request_encode_unchecked (request : pbns_recovery_request) (storage : bytes) : pbns_status * bytes * Z :=
  let '(error, encoded, data) := QCBOREncode_map (recovery_request_fields request) storage in
  match error with
  | QCBOR_ERR_BUFFER_TOO_SMALL => (PBNS_ERR_LIMIT, data, 0)
  | QCBOR_SUCCESS =>
      if (zlen encoded =? 0) || (PBNS_RECOVERY_REQUEST_ENCODED_MAX_SIZE <? zlen encoded)
      then (PBNS_ERR_FORMAT, data, 0)
      else (PBNS_OK, data, zlen encoded)
  | QCBOR_ERR_OTHER => (PBNS_ERR_FORMAT, data, 0)
  end.

(** The capacity is cut to the maximum before encoding. *)
Definition recovery_request_encode (request : pbns_recovery_request) (output : pbns_buffer) : pbns_status * bytes * Z :=
  if negb (buffer_is_valid output) then (PBNS_ERR_ARGUMENT, b_data output, 0)
  else if negb (request_valid request) then (PBNS_ERR_ARGUMENT, b_data output, 0)
  else
  let cap := if PBNS_RECOVERY_REQUEST_ENCODED_MAX_SIZE <? b_cap output
             then PBNS_RECOVERY_REQUEST_ENCODED_MAX_SIZE else b_cap output in
  let '(status, data, written) := request_encode_unchecked request (take (Z.to_nat cap) (b_data output)) in
  (status, data ++ drop (Z.to_nat cap) (b_data output), written).

Definition pbns_recovery_request_encode (request : ptr pbns_recovery_request) (output : pbns_buffer) (written : ptr Z)
  : pbns_status * bytes * ptr Z :=
  match request, written with
  | Some request, Some _ =>
      let '(status, data, written) := recovery_request_encode request output in (status, data, Some written)
  | _, _ => (PBNS_ERR_ARGUMENT, b_data output, (fun _ => 0) <$> written)
  end.

Definition item_uint64 (item : QCBORItem) : option Z :=
  if uDataType item =? QCBOR_TYPE_UINT64 then Some (val_uint64 item)
  else if (uDataType item =? QCBOR_TYPE_INT64) && (0 <=? val_int64 item) then Some (val_int64 item)
  else None.

Definition item_bytes (item : QCBORItem) (expected_size : Z) : option bytes :=
  if negb (uDataType item =? QCBOR_TYPE_BYTE_STRING) || negb (zlen (val_string item) =? expected_size) then None
  else Some (val_string item).

(** A field and the rest; [None] is [PBNS_ERR_FORMAT]. *)
Definition request_uint64 (decoder : QCBORDecodeContext) (label : Z) : option (Z * QCBORDecodeContext) :=
  let '(item, decoder) := next_item decoder label in
  value ← item ≫= item_uint64; Some (value, decoder).

Definition request_bytes (decoder : QCBORDecodeContext) (label expected_size : Z)
  : option (bytes * QCBORDecodeContext) :=
  let '(item, decoder) := next_item decoder label in
  item ← item; value ← item_bytes item expected_size; Some (value, decoder).

Definition request_domain (decoder : QCBORDecodeContext) : option QCBORDecodeContext :=
  let '(item, decoder) := next_item decoder 1 in
  item ← item;
  if negb (uDataType item =? QCBOR_TYPE_TEXT_STRING)
     || negb (zlen (val_string item) =? zlen PBNS_RECOVERY_REQUEST_DOMAIN)
     || negb (bytes_eqb (val_string item) PBNS_RECOVERY_REQUEST_DOMAIN) then None
  else Some decoder.

Definition request_decode_unchecked (encoded : bytes) : option pbns_recovery_request :=
  let '(item, decoder) := QCBORDecode_GetNext (QCBORDecode_Init encoded) in
  item ← item;
  if negb (uDataType item =? QCBOR_TYPE_MAP) || negb (uLabelType item =? QCBOR_TYPE_NONE)
     || negb (val_uCount item =? PBNS_RECOVERY_REQUEST_FIELD_COUNT) then None
  else
  decoder ← request_domain decoder;
  '(version, decoder) ← request_uint64 decoder 2;
  if negb (version =? PBNS_RECOVERY_REQUEST_VERSION) then None else
  '(service, decoder) ← request_uint64 decoder 3;
  if negb (service =? PBNS_RECOVERY_REQUEST_SERVICE) then None else
  '(operation, decoder) ← request_uint64 decoder 4;
  if UINT32_MAX <? operation then None else
  '(request_id, decoder) ← request_bytes decoder 5 PBNS_RECOVERY_REQUEST_ID_SIZE;
  '(host_fingerprint, decoder) ← request_bytes decoder 6 PBNS_RECOVERY_REQUEST_FINGERPRINT_SIZE;
  '(nonce, decoder) ← request_bytes decoder 7 PBNS_RECOVERY_REQUEST_NONCE_SIZE;
  '(artifact_digest, decoder) ← request_bytes decoder 8 PBNS_RECOVERY_REQUEST_DIGEST_SIZE;
  let request := mk_recovery_request (u32 operation) request_id host_fingerprint nonce artifact_digest in
  if negb (QCBORDecode_Finish decoder) || negb (request_valid request) then None else Some request.

Context `{Machine}.

(** The status, the octets of the scratch buffer and the request. *)
Definition recovery_request_decode (encoded : pbns_view) (canonical_scratch : pbns_buffer)
  : pbns_status * bytes * pbns_recovery_request :=
  let fail status data := (status, data, zero_recovery_request) in
  if negb (view_is_valid encoded) || (v_len encoded =? 0)
     || (PBNS_RECOVERY_REQUEST_ENCODED_MAX_SIZE <? v_len encoded) || negb (buffer_is_valid canonical_scratch)
  then fail PBNS_ERR_ARGUMENT (b_data canonical_scratch)
  else if b_cap canonical_scratch <? v_len encoded then fail PBNS_ERR_LIMIT (b_data canonical_scratch)
  else if ranges_overlap (v_ptr encoded) (v_len encoded) (b_ptr canonical_scratch) (b_cap canonical_scratch)
  then fail PBNS_ERR_ARGUMENT (b_data canonical_scratch)
  else
  match request_decode_unchecked (v_data encoded) with
  | None => fail PBNS_ERR_FORMAT (b_data canonical_scratch)
  | Some decoded =>
      let '(status, scratch, canonical_size) := request_encode_unchecked decoded (b_data canonical_scratch) in
      if negb (is_ok status) then fail status scratch
      else if negb (canonical_size =? v_len encoded)
              || negb (bytes_eqb (take (Z.to_nat (v_len encoded)) scratch) (v_data encoded))
      then fail PBNS_ERR_FORMAT scratch
      else (PBNS_OK, scratch, decoded)
  end.

Definition pbns_recovery_request_decode (encoded : pbns_view) (canonical_scratch : pbns_buffer)
    (request : ptr pbns_recovery_request) : pbns_status * bytes * ptr pbns_recovery_request :=
  match request with
  | None => (PBNS_ERR_ARGUMENT, b_data canonical_scratch, None)
  | Some _ =>
      let '(status, scratch, r) := recovery_request_decode encoded canonical_scratch in (status, scratch, Some r)
  end.
End code.

(** ** Encoding *)

(** The arrays have their sizes. *)
Definition request_sized (r : pbns_recovery_request) : Prop :=
  length (rr_request_id r) = 16%nat /\ length (rr_host_fingerprint r) = 32%nat /\ length (rr_nonce r) = 32%nat
  /\ length (rr_artifact_digest r) = 32%nat.

Definition request_encoded (r : pbns_recovery_request) : bytes := cbor_map (recovery_request_fields r).

(** Every encoding has this size. *)
Definition request_encoded_size : Z := 157.

Lemma request_valid_operation r :
  request_valid r = true -> rr_operation r = 1 \/ rr_operation r = 2.
Proof.
  unfold request_valid, PBNS_RECOVERY_OPERATION_MANIFEST, PBNS_RECOVERY_OPERATION_ARTIFACT.
  destruct (_ || _); [done|]. cbv zeta. intros E. apply orb_true_iff in E as [E|E]; bools; auto.
Qed.

Lemma request_encoded_length r :
  request_sized r -> request_valid r = true -> zlen (request_encoded r) = request_encoded_size.
Proof.
  intros (H1 & H2 & H3 & H4) Hv. unfold request_encoded, cbor_map, recovery_request_fields, cbor_pair.
  cbn [fmap list_fmap concat fst snd cbor_encode]. rewrite H1, H2, H3, H4.
  destruct (request_valid_operation r Hv) as [-> | ->]; lens; rewrite ?H1, ?H2, ?H3, ?H4; reflexivity.
Qed.

Lemma request_fields_ok r :
  request_sized r -> request_valid r = true -> cbor_fields_ok (recovery_request_fields r).
Proof.
  intros (H1 & H2 & H3 & H4) Hv. pose proof (request_valid_operation r Hv) as Hop.
  unfold cbor_fields_ok, recovery_request_fields, UINT64_MAX, INT64_MAX. split; [|done].
  repeat (apply Forall_cons_iff; split); [..|done];
    (split; [cbn [fst]; lia|]); cbn [snd cbor_value_ok]; unfold UINT64_MAX; rewrite ?H1, ?H2, ?H3, ?H4; first [lia|vm_compute; intuition discriminate].
Qed.

Lemma request_encoding_inj r1 r2 :
  request_sized r1 -> request_sized r2 -> request_valid r1 = true -> request_valid r2 = true ->
  request_encoded r1 = request_encoded r2 -> r1 = r2.
Proof.
  intros S1 S2 V1 V2 E. apply cbor_map_inj in E; [|by apply request_fields_ok..].
  unfold norm_fields, recovery_request_fields in E. cbn [fmap list_fmap fst snd cbor_norm] in E.
  destruct r1, r2; cbn in E. by injection E as -> -> -> -> ->.
Qed.

Lemma request_encode_spec `{Q : QCBOR} r storage st data size :
  request_encode_unchecked r storage = (st, data, size) ->
  length data = length storage
  /\ (st = PBNS_OK -> size = zlen (request_encoded r) /\ take (Z.to_nat size) data = request_encoded r)
  /\ (st <> PBNS_OK -> size = 0)
  /\ (zlen storage < UINT32_MAX -> request_sized r -> request_valid r = true ->
      st = if zlen storage <? request_encoded_size then PBNS_ERR_LIMIT else PBNS_OK).
Proof.
  unfold request_encode_unchecked.
  destruct (QCBOREncode_map (recovery_request_fields r) storage) as [[e out] data0] eqn:E.
  destruct (QCBOREncode_map_spec _ _ _ _ _ E) as (Hlen & Hok & Hfit & Hsmall). fold (request_encoded r) in *. intros Er.
  assert (Hd : data = data0) by (destruct e; [case_match|..]; by injection Er as _ <- _). subst data0. split; [done|].
  assert (Hst : st = PBNS_OK -> e = QCBOR_SUCCESS /\ size = zlen out) by (intros ->; destruct e; [case_match|..]; by injection Er).
  split; [|split].
  - intros ->. destruct (Hst eq_refl) as [-> ->]. destruct (Hok eq_refl) as (-> & _ & ->).
    by rewrite Nat2Z.id, take_app_length.
  - intros Hne. destruct e; [case_match|..]; injection Er; congruence.
  - intros Hu Hs Hv. pose proof (request_encoded_length r Hs Hv) as Hl.
    destruct (Z.ltb_spec (zlen storage) request_encoded_size).
    + rewrite Hsmall in Er by lia. by injection Er.
    + rewrite Hfit in Er, Hok by lia. destruct (Hok eq_refl) as (-> & _). rewrite Hl in Er. by injection Er.
Qed.

(** ** Decoding *)

Lemma request_bytes_length `{Q : QCBOR} d label n data d' :
  request_bytes d label n = Some (data, d') -> zlen data = n.
Proof.
  unfold request_bytes. destruct (next_item d label) as [[item|] d1]; [|done]. cbn [mbind option_bind]. unfold item_bytes.
  destruct (_ || _) eqn:E; [done|]. cbn [mbind option_bind]. intros [= <- <-]. by bools.
Qed.

Lemma request_decoded_ok `{Q : QCBOR} encoded r :
  request_decode_unchecked encoded = Some r -> request_sized r /\ request_valid r = true.
Proof.
  unfold request_decode_unchecked. destruct (QCBORDecode_GetNext _) as [item d0]. intros E.
  apply bind_Some in E as (i & _ & E). destruct (_ || _); [done|]. apply bind_Some in E as (d1 & _ & E).
  apply bind_Some in E as ([version d2] & _ & E). destruct (negb _); [done|].
  apply bind_Some in E as ([service d3] & _ & E). destruct (negb _); [done|].
  apply bind_Some in E as ([operation d4] & _ & E). destruct (_ <? _); [done|].
  apply bind_Some in E as ([id d5] & E5 & E). apply bind_Some in E as ([host d6] & E6 & E).
  apply bind_Some in E as ([nonce d7] & E7 & E). apply bind_Some in E as ([digest d8] & E8 & E).
  apply request_bytes_length in E5, E6, E7, E8. cbv zeta in E.
  destruct (_ || negb (request_valid _)) eqn:Hb in E; [done|]. injection E as <-. bools. split; [|done].
  unfold request_sized, PBNS_RECOVERY_REQUEST_ID_SIZE, PBNS_RECOVERY_REQUEST_FINGERPRINT_SIZE,
    PBNS_RECOVERY_REQUEST_NONCE_SIZE, PBNS_RECOVERY_REQUEST_DIGEST_SIZE in *. cbn. lia.
Qed.

Section reads.
Context `{Q : QCBOR} `{!QCBORReads}.

Notation reading fields d := (Forall2 item_matches fields (pending d)).

Lemma item_uint64_same item : item_uint64 item = item_to_uint64 item.
Proof.
  unfold item_uint64, item_to_uint64, QCBOR_TYPE_INT64, QCBOR_TYPE_UINT64.
  destruct (Z.eqb_spec (uDataType item) 3) as [-> |]; done.
Qed.

Lemma request_uint64_reads d label v fields :
  0 <= v <= UINT64_MAX -> reading ((label, CUInt v) :: fields) d ->
  exists d', request_uint64 d label = Some (v, d') /\ reading fields d'.
Proof.
  intros Hv Hr. destruct (next_item_matches d _ _ _ eq_refl Hr) as (item & rest & d' & E & Hp & Hm & Hf). cbn [fst] in E.
  exists d'. unfold request_uint64. rewrite E. cbn [mbind option_bind].
  rewrite item_uint64_same, (item_matches_u64 label v) by done. by rewrite Hp.
Qed.

Lemma request_bytes_reads d label s fields n :
  zlen s = n -> reading ((label, CBytes s) :: fields) d ->
  exists d', request_bytes d label n = Some (s, d') /\ reading fields d'.
Proof.
  intros Hn Hr. destruct (next_item_matches d _ _ _ eq_refl Hr) as (item & rest & d' & E & Hp & (_ & _ & _ & Hm) & Hf).
  cbn [fst snd] in E, Hm. destruct Hm as (Ht & Hs & _). exists d'. unfold request_bytes, item_bytes.
  rewrite E. cbn [mbind option_bind]. rewrite Ht, Hs, Hn, !Z.eqb_refl. cbn [negb orb mbind option_bind]. by rewrite Hp.
Qed.

Lemma request_domain_reads d fields :
  reading ((1, CText PBNS_RECOVERY_REQUEST_DOMAIN) :: fields) d ->
  exists d', request_domain d = Some d' /\ reading fields d'.
Proof.
  intros Hr. destruct (next_item_matches d _ _ _ eq_refl Hr) as (item & rest & d' & E & Hp & (_ & _ & _ & Hm) & Hf).
  cbn [fst snd] in E, Hm. destruct Hm as (Ht & Hs & _). exists d'. unfold request_domain.
  rewrite E. cbn [mbind option_bind]. rewrite Ht, Hs, !Z.eqb_refl, bytes_eqb_refl. cbn [negb orb]. by rewrite Hp.
Qed.

(** What was encoded is read back. *)
Lemma request_decode_reads r :
  request_sized r -> request_valid r = true -> request_decode_unchecked (request_encoded r) = Some r.
Proof.
  intros Hs Hv. pose proof (request_fields_ok r Hs Hv) as Hok. pose proof (request_valid_operation r Hv) as Hop.
  pose proof (request_encoded_length r Hs Hv) as Hsz. destruct Hs as (S5 & S6 & S7 & S8).
  destruct (reads_map _ Hok) as (head & items & Hp & (Ht & Hl & Hc) & HF);
    [unfold request_encoded, request_encoded_size, UINT16_MAX in *; lia|]. fold (request_encoded r) in Hp.
  destruct (reads_next _ _ _ Hp) as (d0 & E0 & Hp0). rewrite <- Hp0 in HF.
  destruct (request_domain_reads d0 _ HF) as (d1 & E1 & H1).
  destruct (request_uint64_reads d1 2 1 _ ltac:(unfold UINT64_MAX; lia) H1) as (d2 & E2 & H2).
  destruct (request_uint64_reads d2 3 2 _ ltac:(unfold UINT64_MAX; lia) H2) as (d3 & E3 & H3).
  destruct (request_uint64_reads d3 4 (rr_operation r) _ ltac:(unfold UINT64_MAX; lia) H3) as (d4 & E4 & H4).
  destruct (request_bytes_reads d4 5 (rr_request_id r) _ 16 ltac:(lia) H4) as (d5 & E5 & H5).
  destruct (request_bytes_reads d5 6 (rr_host_fingerprint r) _ 32 ltac:(lia) H5) as (d6 & E6 & H6).
  destruct (request_bytes_reads d6 7 (rr_nonce r) _ 32 ltac:(lia) H6) as (d7 & E7 & H7).
  destruct (request_bytes_reads d7 8 (rr_artifact_digest r) _ 32 ltac:(lia) H7) as (d8 & E8 & H8).
  assert (Hend : pending d8 = []) by (by inversion H8). apply reads_finish in Hend.
  unfold request_decode_unchecked, PBNS_RECOVERY_REQUEST_ID_SIZE, PBNS_RECOVERY_REQUEST_FINGERPRINT_SIZE,
    PBNS_RECOVERY_REQUEST_NONCE_SIZE, PBNS_RECOVERY_REQUEST_DIGEST_SIZE. rewrite E0. cbn [mbind option_bind].
  rewrite Ht, Hl, Hc. change (zlen (recovery_request_fields r)) with 8. cbn [negb orb Z.eqb Pos.eqb
    QCBOR_TYPE_MAP QCBOR_TYPE_NONE PBNS_RECOVERY_REQUEST_FIELD_COUNT].
  rewrite E1. cbn [mbind option_bind]. rewrite E2. cbn [mbind option_bind].
  change (1 =? PBNS_RECOVERY_REQUEST_VERSION) with true. cbn [negb].
  rewrite E3. cbn [mbind option_bind].
  change (2 =? PBNS_RECOVERY_REQUEST_SERVICE) with true. cbn [negb].
  rewrite E4. cbn [mbind option_bind]. rewrite (proj2 (Z.ltb_ge UINT32_MAX _)) by (unfold UINT32_MAX; lia).
  rewrite E5. cbn [mbind option_bind]. rewrite E6. cbn [mbind option_bind]. rewrite E7. cbn [mbind option_bind].
  rewrite E8. cbn [mbind option_bind]. rewrite u32_small by (unfold UINT32_MAX; lia). destruct r. cbv zeta.
  cbn [rr_operation rr_request_id rr_host_fingerprint rr_nonce rr_artifact_digest].
  by rewrite Hend, Hv.
Qed.
End reads.

Lemma recovery_decode_spec `{Q : QCBOR} `{M : Machine} encoded scratch st data r :
  recovery_request_decode encoded scratch = (st, data, r) ->
  length data = length (b_data scratch) /\ (st <> PBNS_OK -> r = zero_recovery_request)
  /\ (st = PBNS_OK -> v_data encoded = request_encoded r /\ request_sized r /\ request_valid r = true).
Proof.
  unfold recovery_request_decode. destruct (_ || _) eqn:Harg; [by intros [= <- <- <-]|].
  destruct (Z.ltb_spec (b_cap scratch) (v_len encoded)); [by intros [= <- <- <-]|].
  destruct (ranges_overlap _ _ _ _); [by intros [= <- <- <-]|].
  destruct (request_decode_unchecked (v_data encoded)) as [d|] eqn:Ed; [|by intros [= <- <- <-]].
  destruct (request_encode_unchecked d (b_data scratch)) as [[st1 data1] size] eqn:Ee.
  apply request_encode_spec in Ee as (Hlen & Hok & _). destruct (is_ok st1) eqn:Eok; cbn [negb];
    [|apply is_ok_false in Eok; by intros [= <- <- <-]].
  apply is_ok_spec in Eok. destruct (Hok Eok) as [Hsz Htk].
  destruct (_ || negb (bytes_eqb _ _)) eqn:Hc; [by intros [= <- <- <-]|]. intros [= <- <- <-]. split; [done|]. split; [done|]. intros _.
  bools. apply request_decoded_ok in Ed. split; [|done].
  match goal with H : bytes_eqb _ _ = true |- _ => apply bytes_eqb_spec in H; rewrite <- H end. congruence.
Qed.

Lemma recovery_decode_encoded `{Q : QCBOR} `{!QCBORReads} `{M : Machine} r encoded scratch :
  request_sized r -> request_valid r = true -> v_data encoded = request_encoded r -> v_ptr encoded <> 0 ->
  buffer_is_valid scratch = true -> request_encoded_size <= b_cap scratch < UINT32_MAX ->
  ranges_overlap (v_ptr encoded) (v_len encoded) (b_ptr scratch) (b_cap scratch) = false ->
  exists data, recovery_request_decode encoded scratch = (PBNS_OK, data, r).
Proof.
  intros Hs Hv Hd Hp Hb [Hlo Hhi] Hov. pose proof (request_encoded_length r Hs Hv) as Hlen.
  assert (Hvl : v_len encoded = request_encoded_size) by (unfold v_len; by rewrite Hd).
  unfold recovery_request_decode. rewrite Hov, Hb, (proj2 (view_is_valid_spec encoded)) by (by left).
  rewrite Hvl, (proj2 (Z.ltb_ge (b_cap scratch) _)) by lia. change (request_encoded_size =? 0) with false.
  change (PBNS_RECOVERY_REQUEST_ENCODED_MAX_SIZE <? request_encoded_size) with false. cbn [negb orb].
  rewrite Hd, request_decode_reads by done.
  destruct (request_encode_unchecked r (b_data scratch)) as [[st1 data1] size] eqn:Ee.
  apply request_encode_spec in Ee as (_ & Hok & _ & Hst). unfold b_cap in *. rewrite (Hst Hhi Hs Hv) in *.
  rewrite (proj2 (Z.ltb_ge (zlen (b_data scratch)) _)) in * by lia. destruct (Hok eq_refl) as [-> Htk]. cbn [is_ok negb].
  rewrite Hlen in *. rewrite Htk, bytes_eqb_refl. change (request_encoded_size =? request_encoded_size) with true.
  by eexists.
Qed.

(** ** Properties *)

(** Recovery requests have one encoding.  Whatever the CBOR decoder does, an
    accepted payload is the canonical encoding of the request that was returned,
    which is valid: no zero identifier, host or nonce, and a digest exactly when
    an image is asked for; no other request shares the payload, and a refusal
    leaves the zeroed request.  Encoding answers exactly: an invalid request is
    refused, a buffer of fewer than 157 octets is too small, and everything else
    gives the 157 canonical octets, which a decoder that reads what was written
    turns back into the request. *)
Theorem recovery_request_roundtrip `{Q : QCBOR} `{M : Machine} (encoded : pbns_view) (scratch output : pbns_buffer)
    (r : pbns_recovery_request) :
  request_sized r -> buffer_is_valid output = true ->
  (exists st data d, recovery_request_decode encoded scratch = (st, data, d)
   /\ (st <> PBNS_OK -> d = zero_recovery_request)
   /\ (st = PBNS_OK -> request_valid d = true /\ v_data encoded = request_encoded d
       /\ (request_valid r = true -> v_data encoded = request_encoded r -> d = r)))
  /\ exists st data size, recovery_request_encode r output = (st, data, size) /\ length data = length (b_data output)
  /\ st = (if negb (request_valid r) then PBNS_ERR_ARGUMENT
           else if b_cap output <? request_encoded_size then PBNS_ERR_LIMIT else PBNS_OK)
  /\ (st <> PBNS_OK -> size = 0)
  /\ (st = PBNS_OK -> size = request_encoded_size /\ take (Z.to_nat size) data = request_encoded r
      /\ forall (R : QCBORReads) copy, v_data copy = take (Z.to_nat size) data -> v_ptr copy <> 0 ->
         buffer_is_valid scratch = true -> request_encoded_size <= b_cap scratch < UINT32_MAX ->
         ranges_overlap (v_ptr copy) (v_len copy) (b_ptr scratch) (b_cap scratch) = false ->
         exists scratch', recovery_request_decode copy scratch = (PBNS_OK, scratch', r)).
Proof.
  intros Hs Hb. split.
  - destruct (recovery_request_decode encoded scratch) as [[st data] d] eqn:E. exists st, data, d. split; [done|].
    apply recovery_decode_spec in E as (_ & Hz & Hok). split; [done|]. intros Hst.
    destruct (Hok Hst) as (Ep & Hsd & Hvd). split; [done|]. split; [done|]. intros Hv Er.
    apply request_encoding_inj; [done..|]. by rewrite <- Ep, <- Er.
  - unfold recovery_request_encode. rewrite Hb. cbn [negb]. destruct (request_valid r) eqn:Hv; cbn [negb].
    2: { do 3 eexists. split; [reflexivity|]. done. }
    set (cap := if _ <? _ then _ else _).
    assert (Hcap : cap = Z.min 256 (b_cap output))
      by (unfold cap, PBNS_RECOVERY_REQUEST_ENCODED_MAX_SIZE; case_match; bools; lia).
    destruct (request_encode_unchecked r (take (Z.to_nat cap) (b_data output))) as [[st data] size] eqn:E.
    apply request_encode_spec in E as (Hlen & Hok & Hz & Hst). unfold b_cap in *. rewrite length_take in Hlen, Hst.
    exists st, (data ++ drop (Z.to_nat cap) (b_data output)), size. split; [done|].
    split; [rewrite length_app, length_drop; lia|].
    assert (Est : st = if zlen (b_data output) <? request_encoded_size then PBNS_ERR_LIMIT else PBNS_OK).
    { rewrite Hst by (unfold UINT32_MAX; done || lia). unfold request_encoded_size.
      destruct (Z.ltb_spec (zlen (b_data output)) 157); [rewrite (proj2 (Z.ltb_lt _ 157)) by lia|rewrite (proj2 (Z.ltb_ge _ 157)) by lia]; done. }
    split; [done|]. split; [done|]. intros Hst'. destruct (Hok Hst') as [-> Htk].
    rewrite (request_encoded_length r Hs Hv) in *. split; [done|].
    assert (Hdl : (Z.to_nat request_encoded_size <= length data)%nat).
    { rewrite <- Htk in *. pose proof (request_encoded_length r Hs Hv) as Hl. rewrite <- Htk, length_take in Hl.
      unfold request_encoded_size in *. lia. }
    rewrite take_app_le, Htk by lia. split; [done|]. intros R copy Hd Hp Hbs Hcs Hov. by apply recovery_decode_encoded.
Qed.

Definition ex_request : pbns_recovery_request :=
  mk_recovery_request PBNS_RECOVERY_OPERATION_ARTIFACT (replicate 16 9) (replicate 32 7) (replicate 32 5) (replicate 32 3).

Definition ex_request_output : pbns_buffer := mk_buffer 8192 0 (replicate 256 0).

Lemma recovery_request_roundtrip_witness :
  exists data scratch', @recovery_request_encode reference_qcbor ex_request ex_request_output = (PBNS_OK, data, 157)
  /\ @recovery_request_decode reference_qcbor x86_64 (mk_view 4096 (take 157 data)) ex_request_output
     = (PBNS_OK, scratch', ex_request).
Proof.
  destruct (@recovery_request_roundtrip reference_qcbor x86_64 (mk_view 4096 []) ex_request_output ex_request_output ex_request)
    as (_ & st & data & size & E & _ & Hst & _ & Hok).
  - repeat split.
  - vm_compute. reflexivity.
  - assert (Hs : st = PBNS_OK) by (rewrite Hst; vm_compute; reflexivity). clear Hst. rewrite Hs in *.
    destruct (Hok eq_refl) as (-> & Htk & Hd).
    destruct (Hd reference_reads (mk_view 4096 (take 157 data))) as [scratch' E'].
    + reflexivity.
    + discriminate.
    + vm_compute. reflexivity.
    + vm_compute. intuition discriminate.
    + unfold v_len. change (v_data _) with (take 157 data).
      change (take 157 data) with (take (Z.to_nat request_encoded_size) data). rewrite Htk. vm_compute. reflexivity.
    + exists data, scratch'. split; [exact E|exact E'].
Defined.
