(* ===== verification/RecoveryManifest.v ===== *)
(** * Recovery manifests ([include/pbns/recovery_manifest.h], [src/core/recovery_manifest.c])

    A manifest names a recovery image: its digest, version and size, the time it
    is valid and the policy that authorizes it.  It is the canonical encoding of
    two nested CBOR maps, signed by the recovery key over data that binds it to
    one request of one host. *)

From stdpp Require Import base list numbers.
From Stdlib Require Import ZArith Lia.
From S2P Require Import Prelude Endian Status Buffers Cbor CborTree Compare Crypto TrustedTime RecoveryStream.

(** ** Constants: "PBNS-RECOVERY-MANIFEST-v1", "PBNS-RECOVERY-MANIFEST-AAD-v1", "x86_64", "uki-pe-coff" *)

Definition PBNS_RECOVERY_MANIFEST_DOMAIN : bytes :=
  [80; 66; 78; 83; 45; 82; 69; 67; 79; 86; 69; 82; 89; 45; 77; 65; 78; 73; 70; 69; 83; 84; 45; 118; 49].
Definition PBNS_RECOVERY_MANIFEST_AAD : bytes :=
  [80; 66; 78; 83; 45; 82; 69; 67; 79; 86; 69; 82; 89; 45; 77; 65; 78; 73; 70; 69; 83; 84; 45; 65; 65; 68;
   45; 118; 49].
Definition PBNS_RECOVERY_ARCHITECTURE : bytes := [120; 56; 54; 95; 54; 52].
Definition PBNS_RECOVERY_FORMAT : bytes := [117; 107; 105; 45; 112; 101; 45; 99; 111; 102; 102].
Definition PBNS_RECOVERY_MANIFEST_VERSION : Z := 1.
Definition PBNS_RECOVERY_MANIFEST_SERVICE : Z := 2.
Definition PBNS_RECOVERY_MANIFEST_HOST_SIZE : Z := 32.
Definition PBNS_RECOVERY_MANIFEST_NONCE_SIZE : Z := 32.
Definition PBNS_RECOVERY_MANIFEST_REQUEST_ID_SIZE : Z := 16.
Definition PBNS_RECOVERY_MANIFEST_POLICY_MAX_SIZE : Z := 4096.
Definition PBNS_RECOVERY_MANIFEST_KEY_ID_MAX_SIZE : Z := 64.
Definition PBNS_RECOVERY_MANIFEST_ENCODED_MAX_SIZE : Z := 8192.
Definition PBNS_RECOVERY_MANIFEST_SIGNED_MAX_SIZE : Z := 65536.
Definition PBNS_RECOVERY_MANIFEST_AAD_MAX_SIZE : Z := 192.

(** ** Data *)

Record pbns_recovery_manifest := mk_manifest {
  rm_request_id : bytes;
  rm_host_binding : bytes;
  rm_nonce : bytes;
  rm_artifact_digest : bytes;
  rm_artifact_version : Z;
  rm_image_size : Z;
  rm_chunk_size : Z;
  rm_minimum_version : Z;
  rm_not_before_ns : Z;
  rm_not_after_ns : Z;
  rm_policy_authorization : pbns_view;
  rm_policy_key_id : pbns_view;
}.

Definition zero_manifest : pbns_recovery_manifest :=
  mk_manifest (replicate 16 0) (replicate 32 0) (replicate 32 0) (replicate 32 0) 0 0 0 0 0 0 null_view null_view.

Record pbns_recovery_manifest_expectation := mk_expectation {
  re_request_id : bytes;
  re_host_binding : bytes;
  re_nonce : bytes;
  re_recovery_signing_key_id : pbns_view;
  re_expected_policy_key_id : pbns_view;
  re_current_version : Z;
  re_trusted_time : pbns_time_interval;
}.

(** ** Checks *)

Definition views_equal (left right : pbns_view) : bool :=
  (v_len left =? v_len right) && ((v_len left =? 0) || ct_equal (v_data left) (v_data right)).

Definition manifest_valid (m : pbns_recovery_manifest) : bool :=
  ct_nonzero (rm_request_id m) && ct_nonzero (rm_host_binding m) && ct_nonzero (rm_nonce m)
  && ct_nonzero (rm_artifact_digest m)
  && (0 <? rm_artifact_version m) && (rm_minimum_version m <=? rm_artifact_version m)
  && (0 <? rm_image_size m) && (rm_image_size m <=? PBNS_RECOVERY_MANIFEST_IMAGE_MAX)
  && (rm_chunk_size m =? PBNS_RECOVERY_MANIFEST_CHUNK_SIZE)
  && (0 <=? rm_not_before_ns m) && (rm_not_before_ns m <? rm_not_after_ns m)
  && view_is_valid (rm_policy_authorization m) && (0 <? v_len (rm_policy_authorization m))
  && (v_len (rm_policy_authorization m) <=? PBNS_RECOVERY_MANIFEST_POLICY_MAX_SIZE)
  && view_is_valid (rm_policy_key_id m) && (0 <? v_len (rm_policy_key_id m))
  && (v_len (rm_policy_key_id m) <=? PBNS_RECOVERY_MANIFEST_KEY_ID_MAX_SIZE).

Definition expectation_valid (e : pbns_recovery_manifest_expectation) : bool :=
  ct_nonzero (re_request_id e) && ct_nonzero (re_host_binding e) && ct_nonzero (re_nonce e)
  && view_is_valid (re_recovery_signing_key_id e) && (0 <? v_len (re_recovery_signing_key_id e))
  && (v_len (re_recovery_signing_key_id e) <=? PBNS_RECOVERY_MANIFEST_KEY_ID_MAX_SIZE)
  && view_is_valid (re_expected_policy_key_id e) && (0 <? v_len (re_expected_policy_key_id e))
  && (v_len (re_expected_policy_key_id e) <=? PBNS_RECOVERY_MANIFEST_KEY_ID_MAX_SIZE)
  && (0 <=? ti_earliest_ns (re_trusted_time e))
  && (ti_earliest_ns (re_trusted_time e) <=? ti_latest_ns (re_trusted_time e)).

(** ** Encoding *)

(** [encode_context] *)
Definition context_fields (m : pbns_recovery_manifest) : list (Z * cbor_value) :=
  [(1, CText PBNS_RECOVERY_MANIFEST_DOMAIN); (2, CUInt PBNS_RECOVERY_MANIFEST_VERSION);
   (3, CUInt PBNS_RECOVERY_MANIFEST_SERVICE); (4, CBytes (rm_request_id m)); (5, CBytes (rm_host_binding m));
   (6, CBytes (rm_nonce m)); (7, CInt (rm_not_before_ns m)); (8, CInt (rm_not_after_ns m)); (9, CBytes [])].

Definition body_fields (m : pbns_recovery_manifest) : list (Z * cbor_value) :=
  [(10, CBytes (rm_artifact_digest m)); (11, CUInt (rm_artifact_version m)); (12, CText PBNS_RECOVERY_ARCHITECTURE);
   (13, CText PBNS_RECOVERY_FORMAT); (14, CUInt (rm_image_size m)); (15, CUInt (rm_chunk_size m));
   (16, CUInt (rm_minimum_version m)); (17, CInt (rm_not_before_ns m)); (18, CInt (rm_not_after_ns m));
   (19, CBytes (v_data (rm_policy_authorization m))); (20, CBytes (v_data (rm_policy_key_id m)))].

Definition manifest_fields (m : pbns_recovery_manifest) : list (Z * cbor_tree) :=
  (1, TMap (leaf <$> context_fields m)) :: (leaf <$> body_fields m).

Definition manifest_tree (m : pbns_recovery_manifest) : cbor_tree := TMap (manifest_fields m).

Section encoding.
Context `{S : QCBORSpiffy}.

(** The status, the octets of the storage and [*written]. *)
Definition manifest_encode_unchecked (m : pbns_recovery_manifest) (storage : bytes) : pbns_status * bytes * Z :=
  let '(error, encoded, data) := QCBOREncode_tree (manifest_tree m) storage in
  match error with
  | QCBOR_ERR_BUFFER_TOO_SMALL => (PBNS_ERR_LIMIT, data, 0)
  | QCBOR_SUCCESS =>
      if (zlen encoded =? 0) || (PBNS_RECOVERY_MANIFEST_ENCODED_MAX_SIZE <? zlen encoded)
      then (PBNS_ERR_FORMAT, data, 0)
      else (PBNS_OK, data, zlen encoded)
  | QCBOR_ERR_OTHER => (PBNS_ERR_FORMAT, data, 0)
  end.

Definition manifest_encode (m : pbns_recovery_manifest) (output : pbns_buffer) : pbns_status * bytes * Z :=
  if negb (buffer_is_valid output) then (PBNS_ERR_ARGUMENT, b_data output, 0)
  else if negb (manifest_valid m) then (PBNS_ERR_FORMAT, b_data output, 0)
  else
  let cap := if PBNS_RECOVERY_MANIFEST_ENCODED_MAX_SIZE <? b_cap output
             then PBNS_RECOVERY_MANIFEST_ENCODED_MAX_SIZE else b_cap output in
  let '(status, data, written) := manifest_encode_unchecked m (take (Z.to_nat cap) (b_data output)) in
  (status, data ++ drop (Z.to_nat cap) (b_data output), written).

Definition pbns_recovery_manifest_encode (manifest : ptr pbns_recovery_manifest) (output : pbns_buffer) (written : ptr Z)
  : pbns_status * bytes * ptr Z :=
  match manifest, written with
  | Some m, Some _ => let '(status, data, written) := manifest_encode m output in (status, data, Some written)
  | _, _ => (PBNS_ERR_ARGUMENT, b_data output, (fun _ => 0) <$> written)
  end.

(** ** Decoding *)

(** The status, the manifest and the decoder. *)
Definition decode_context (decoder : QCBORDecodeContext) (m : pbns_recovery_manifest)
  : pbns_status * pbns_recovery_manifest * QCBORDecodeContext :=
  let decoder := QCBORDecode_EnterMapFromMapN decoder 1 in
  let '(domain, decoder) := QCBORDecode_GetTextStringInMapN decoder 1 in
  let '(version, decoder) := QCBORDecode_GetUInt64InMapN decoder 2 in
  let '(service, decoder) := QCBORDecode_GetUInt64InMapN decoder 3 in
  let '(request_id, decoder) := QCBORDecode_GetByteStringInMapN decoder 4 in
  let '(host_binding, decoder) := QCBORDecode_GetByteStringInMapN decoder 5 in
  let '(nonce, decoder) := QCBORDecode_GetByteStringInMapN decoder 6 in
  let '(issued_at, decoder) := QCBORDecode_GetInt64InMapN decoder 7 in
  let '(expires_at, decoder) := QCBORDecode_GetInt64InMapN decoder 8 in
  let '(body, decoder) := QCBORDecode_GetByteStringInMapN decoder 9 in
  let decoder := QCBORDecode_ExitMap decoder in
  let domain := default null_view domain in
  let version := default 0 version in
  let service := default 0 service in
  let request_id := default null_view request_id in
  let host_binding := default null_view host_binding in
  let nonce := default null_view nonce in
  let issued_at := default 0 issued_at in
  let expires_at := default 0 expires_at in
  let body := default null_view body in
  if negb (v_len domain =? zlen PBNS_RECOVERY_MANIFEST_DOMAIN)
     || negb (bytes_eqb (v_data domain) PBNS_RECOVERY_MANIFEST_DOMAIN)
     || negb (version =? PBNS_RECOVERY_MANIFEST_VERSION) || negb (service =? PBNS_RECOVERY_MANIFEST_SERVICE)
     || negb (v_len request_id =? PBNS_RECOVERY_MANIFEST_REQUEST_ID_SIZE)
     || negb (v_len host_binding =? PBNS_RECOVERY_MANIFEST_HOST_SIZE)
     || negb (v_len nonce =? PBNS_RECOVERY_MANIFEST_NONCE_SIZE) || negb (v_len body =? 0) || (issued_at <? 0)
     || (expires_at <=? issued_at)
  then (PBNS_ERR_FORMAT, m, decoder)
  else
  (PBNS_OK,
   mk_manifest (v_data request_id) (v_data host_binding) (v_data nonce) (rm_artifact_digest m) (rm_artifact_version m)
     (rm_image_size m) (rm_chunk_size m) (rm_minimum_version m) issued_at expires_at (rm_policy_authorization m)
     (rm_policy_key_id m), decoder).

(** [None] is [PBNS_ERR_FORMAT]; the manifest is zeroed before. *)
Definition decode_manifest (encoded : bytes) : option pbns_recovery_manifest :=
  let decoder := QCBORDecode_EnterMap (QCBORDecode_Init encoded) in
  let '(status, m, decoder) := decode_context decoder zero_manifest in
  let '(digest, decoder) := QCBORDecode_GetByteStringInMapN decoder 10 in
  let '(artifact_version, decoder) := QCBORDecode_GetUInt64InMapN decoder 11 in
  let '(architecture, decoder) := QCBORDecode_GetTextStringInMapN decoder 12 in
  let '(format, decoder) := QCBORDecode_GetTextStringInMapN decoder 13 in
  let '(image_size, decoder) := QCBORDecode_GetUInt64InMapN decoder 14 in
  let '(chunk_size, decoder) := QCBORDecode_GetUInt64InMapN decoder 15 in
  let '(minimum_version, decoder) := QCBORDecode_GetUInt64InMapN decoder 16 in
  let '(not_before_ns, decoder) := QCBORDecode_GetInt64InMapN decoder 17 in
  let '(not_after_ns, decoder) := QCBORDecode_GetInt64InMapN decoder 18 in
  let '(policy_authorization, decoder) := QCBORDecode_GetByteStringInMapN decoder 19 in
  let '(policy_key_id, decoder) := QCBORDecode_GetByteStringInMapN decoder 20 in
  let decoder := QCBORDecode_ExitMap decoder in
  let digest := default null_view digest in
  let architecture := default null_view architecture in
  let format := default null_view format in
  let chunk_size := default 0 chunk_size in
  if negb (QCBORDecode_Finish decoder) || negb (is_ok status)
     || negb (v_len digest =? PBNS_RECOVERY_MANIFEST_DIGEST_SIZE)
     || negb (v_len architecture =? zlen PBNS_RECOVERY_ARCHITECTURE)
     || negb (bytes_eqb (v_data architecture) PBNS_RECOVERY_ARCHITECTURE)
     || negb (v_len format =? zlen PBNS_RECOVERY_FORMAT) || negb (bytes_eqb (v_data format) PBNS_RECOVERY_FORMAT)
     || (UINT32_MAX <? chunk_size) || negb (default 0 not_before_ns =? rm_not_before_ns m)
     || negb (default 0 not_after_ns =? rm_not_after_ns m)
  then None
  else
  let m := mk_manifest (rm_request_id m) (rm_host_binding m) (rm_nonce m) (v_data digest)
             (default (rm_artifact_version m) artifact_version) (default (rm_image_size m) image_size) (u32 chunk_size)
             (default (rm_minimum_version m) minimum_version) (rm_not_before_ns m) (rm_not_after_ns m)
             (default null_view policy_authorization) (default null_view policy_key_id) in
  if manifest_valid m then Some m else None.

Context `{Machine}.

(** The status, the octets of the scratch buffer and the manifest. *)
Definition manifest_decode_verified (verified_payload : pbns_view) (e : pbns_recovery_manifest_expectation)
    (canonical_scratch : pbns_buffer) : pbns_status * bytes * pbns_recovery_manifest :=
  let fail status data := (status, data, zero_manifest) in
  if negb (view_is_valid verified_payload) || (v_len verified_payload =? 0)
     || (PBNS_RECOVERY_MANIFEST_ENCODED_MAX_SIZE <? v_len verified_payload) || negb (expectation_valid e)
     || negb (buffer_is_valid canonical_scratch) || (b_cap canonical_scratch <? v_len verified_payload)
  then fail PBNS_ERR_ARGUMENT (b_data canonical_scratch)
  else if view_overlaps verified_payload canonical_scratch
  then fail PBNS_ERR_ARGUMENT (b_data canonical_scratch)
  else
  match decode_manifest (v_data verified_payload) with
  | None => fail PBNS_ERR_FORMAT (b_data canonical_scratch)
  | Some decoded =>
      let '(status, scratch, canonical_size) := manifest_encode_unchecked decoded (b_data canonical_scratch) in
      if negb (is_ok status) || negb (canonical_size =? v_len verified_payload)
         || negb (bytes_eqb (take (Z.to_nat canonical_size) scratch) (v_data verified_payload))
      then fail PBNS_ERR_FORMAT scratch
      else if negb (ct_equal (rm_request_id decoded) (re_request_id e))
              || negb (ct_equal (rm_host_binding decoded) (re_host_binding e))
              || negb (ct_equal (rm_nonce decoded) (re_nonce e))
              || negb (views_equal (rm_policy_key_id decoded) (re_expected_policy_key_id e))
      then fail PBNS_ERR_AUTHENTICATION scratch
      else if (rm_artifact_version decoded <? re_current_version e)
              || negb (pbns_time_interval_within (Some (re_trusted_time e)) (rm_not_before_ns decoded)
                         (rm_not_after_ns decoded))
      then fail PBNS_ERR_REPLAY scratch
      else (PBNS_OK, scratch, decoded)
  end.

Definition pbns_recovery_manifest_decode_verified (verified_payload : pbns_view)
    (expectation : ptr pbns_recovery_manifest_expectation) (canonical_scratch : pbns_buffer)
    (manifest : ptr pbns_recovery_manifest) : pbns_status * bytes * ptr pbns_recovery_manifest :=
  match manifest, expectation with
  | Some _, Some e =>
      let '(status, scratch, m) := manifest_decode_verified verified_payload e canonical_scratch in
      (status, scratch, Some m)
  | _, _ => (PBNS_ERR_ARGUMENT, b_data canonical_scratch, (fun _ => zero_manifest) <$> manifest)
  end.
End encoding.

(** ** Additional authenticated data *)

(** The status, the octets of the output and [*written]. *)
Definition manifest_aad (e : pbns_recovery_manifest_expectation) (output : pbns_buffer)
  : option (pbns_status * bytes * Z) :=
  if negb (expectation_valid e) || negb (buffer_is_valid output) then Some (PBNS_ERR_ARGUMENT, b_data output, 0)
  else
  let required := zlen PBNS_RECOVERY_MANIFEST_AAD + PBNS_RECOVERY_MANIFEST_REQUEST_ID_SIZE
                  + PBNS_RECOVERY_MANIFEST_HOST_SIZE + PBNS_RECOVERY_MANIFEST_NONCE_SIZE
                  + v_len (re_recovery_signing_key_id e) in
  if (PBNS_RECOVERY_MANIFEST_AAD_MAX_SIZE <? required) || (b_cap output <? required)
  then Some (PBNS_ERR_LIMIT, b_data output, 0)
  else
  let offset := 0 in
  out ← wr_list (b_data output) offset PBNS_RECOVERY_MANIFEST_AAD;
  let offset := offset + zlen PBNS_RECOVERY_MANIFEST_AAD in
  out ← wr_list out offset (re_request_id e);
  let offset := offset + PBNS_RECOVERY_MANIFEST_REQUEST_ID_SIZE in
  out ← wr_list out offset (re_host_binding e);
  let offset := offset + PBNS_RECOVERY_MANIFEST_HOST_SIZE in
  out ← wr_list out offset (re_nonce e);
  let offset := offset + PBNS_RECOVERY_MANIFEST_NONCE_SIZE in
  out ← wr_list out offset (v_data (re_recovery_signing_key_id e));
  Some (PBNS_OK, out, required).

Definition pbns_recovery_manifest_aad (expectation : ptr pbns_recovery_manifest_expectation) (output : pbns_buffer)
    (written : ptr Z) : option (pbns_status * bytes * ptr Z) :=
  match expectation, written with
  | Some e, Some _ => '(status, out, written) ← manifest_aad e output; Some (status, out, Some written)
  | _, _ => Some (PBNS_ERR_ARGUMENT, b_data output, (fun _ => 0) <$> written)
  end.

(** ** The COSE profile *)

Section profile.
Context `{S : QCBORSpiffy}.

(** The next item, when it passes the test. *)
Definition expect_item (decoder : QCBORDecodeContext) (test : QCBORItem -> bool)
  : option (QCBORItem * QCBORDecodeContext) :=
  let '(item, decoder) := QCBORDecode_GetNext decoder in
  item ← item; if test item then Some (item, decoder) else None.

(** An element of the outer array. *)
Definition element (type : Z) (item : QCBORItem) : bool :=
  (uNestingLevel item =? 1) && (uLabelType item =? QCBOR_TYPE_NONE) && (uDataType item =? type).

(** The protected headers of a COSE_Sign1 message with its one tag, empty
    unprotected headers, a payload and a signature of 64 octets. *)
Definition protected_headers_of (signed_manifest : bytes) : option bytes :=
  '(item, outer) ← expect_item (QCBORDecode_Init signed_manifest) (fun item =>
    (uDataType item =? QCBOR_TYPE_ARRAY) && (uLabelType item =? QCBOR_TYPE_NONE) && (val_uCount item =? 4));
  if negb (QCBORDecode_GetNthTag outer item 0 =? 18) || negb (QCBORDecode_GetNthTag outer item 1 =? CBOR_TAG_INVALID64)
  then None
  else
  '(protected_item, outer) ← expect_item outer (element QCBOR_TYPE_BYTE_STRING);
  '(_, outer) ← expect_item outer (fun item => element QCBOR_TYPE_MAP item && (val_uCount item =? 0));
  '(_, outer) ← expect_item outer (fun item =>
    element QCBOR_TYPE_BYTE_STRING item && negb (zlen (val_string item) =? 0));
  '(_, outer) ← expect_item outer (fun item =>
    element QCBOR_TYPE_BYTE_STRING item && (zlen (val_string item) =? 64));
  if QCBORDecode_Finish outer then Some (val_string protected_item) else None.

(** A header: its label is checked. *)
Definition header (label type : Z) (item : QCBORItem) : bool :=
  (uNestingLevel item =? 1) && (uLabelType item =? QCBOR_TYPE_INT64) && (label_int64 item =? label)
  && (uDataType item =? type).

Definition headers_accepted (protected_headers : bytes) (expected_key_id : pbns_view) : bool :=
  match
    '(_, headers) ← expect_item (QCBORDecode_Init protected_headers) (fun item =>
      (uDataType item =? QCBOR_TYPE_MAP) && (uLabelType item =? QCBOR_TYPE_NONE) && (val_uCount item =? 2));
    '(_, headers) ← expect_item headers (fun item => header 1 QCBOR_TYPE_INT64 item && (val_int64 item =? -7));
    '(_, headers) ← expect_item headers (fun item =>
      header 4 QCBOR_TYPE_BYTE_STRING item && (zlen (val_string item) =? v_len expected_key_id)
      && ct_equal (val_string item) (v_data expected_key_id));
    Some (QCBORDecode_Finish headers)
  with
  | Some true => true
  | _ => false
  end.

(** The algorithm ES256 and the key identifier. *)
Definition profile_fields (key_id : pbns_view) : list (Z * cbor_value) := [(1, CInt (-7)); (4, CBytes (v_data key_id))].

Definition cose_profile_valid (signed_manifest : bytes) (expected_key_id : pbns_view) : bool :=
  match protected_headers_of signed_manifest with
  | None => false
  | Some protected_headers =>
      if negb (headers_accepted protected_headers expected_key_id) then false
      else
      let '(error, encoded, _) := QCBOREncode_map (profile_fields expected_key_id) (replicate 96 0) in
      match error with
      | QCBOR_SUCCESS => (zlen encoded =? zlen protected_headers) && bytes_eqb encoded protected_headers
      | _ => false
      end
  end.

Context {W : Type} `{Machine}.

(** The status, the octets of both scratch buffers, the manifest and the world. *)
Definition manifest_verify_signed (verifier : pbns_crypto W) (signed_manifest : pbns_view)
    (e : pbns_recovery_manifest_expectation) (canonical_scratch aad_scratch : pbns_buffer) (w : W)
  : option (pbns_status * bytes * bytes * pbns_recovery_manifest * W) :=
  let canonical := b_data canonical_scratch in
  let aad := b_data aad_scratch in
  if negb (view_is_valid signed_manifest) || (v_len signed_manifest =? 0)
     || (PBNS_RECOVERY_MANIFEST_SIGNED_MAX_SIZE <? v_len signed_manifest) || negb (expectation_valid e)
     || negb (buffer_is_valid canonical_scratch) || negb (buffer_is_valid aad_scratch)
  then Some (PBNS_ERR_ARGUMENT, canonical, aad, zero_manifest, w)
  else if negb (cose_profile_valid (v_data signed_manifest) (re_recovery_signing_key_id e))
  then Some (PBNS_ERR_AUTHENTICATION, canonical, aad, zero_manifest, w)
  else
  '(status, aad, aad_size) ← manifest_aad e aad_scratch;
  if negb (is_ok status) then Some (status, canonical, aad, zero_manifest, w)
  else
  external_aad ← rd_slice aad 0 aad_size;
  let '(status, verified_payload, w) :=
    pbns_sign1_verify (Some verifier) signed_manifest (mk_view (b_ptr aad_scratch) external_aad) (Some null_view) w in
  if negb (is_ok status) then Some (status, canonical, aad, zero_manifest, w)
  else
  let '(status, canonical, m) :=
    manifest_decode_verified (default null_view verified_payload) e canonical_scratch in
  Some (status, canonical, aad, m, w).

Definition pbns_recovery_manifest_verify_signed (verifier : ptr (pbns_crypto W)) (signed_manifest : pbns_view)
    (expectation : ptr pbns_recovery_manifest_expectation) (canonical_scratch aad_scratch : pbns_buffer)
    (manifest : ptr pbns_recovery_manifest) (w : W)
  : option (pbns_status * bytes * bytes * ptr pbns_recovery_manifest * W) :=
  match verifier, expectation, manifest with
  | Some verifier, Some e, Some _ =>
      '(status, canonical, aad, m, w) ← manifest_verify_signed verifier signed_manifest e canonical_scratch aad_scratch w;
      Some (status, canonical, aad, Some m, w)
  | _, _, _ =>
      Some (PBNS_ERR_ARGUMENT, b_data canonical_scratch, b_data aad_scratch, (fun _ => zero_manifest) <$> manifest, w)
  end.
End profile.
