(* ===== verification/ManifestProps.v ===== *)
(** * Recovery manifests: correctness

    An accepted manifest is the one canonical encoding of its fields, answers the
    request of this host, and is valid for the trusted time and the installed
    version; a manifest that was encoded is accepted exactly when it matches the
    expectation; a signed manifest is accepted only through the verifier, over
    data that determines the request. *)

From stdpp Require Import base list numbers.
From Stdlib Require Import ZArith Lia.
From S2P Require Import Prelude Endian Status Buffers Cbor CborTree Compare Crypto TrustedTime RecoveryStream RecoveryManifest.

(** ** The fields have the sizes and ranges of their C types *)

Definition manifest_sized (m : pbns_recovery_manifest) : Prop :=
  length (rm_request_id m) = 16%nat /\ length (rm_host_binding m) = 32%nat /\ length (rm_nonce m) = 32%nat
  /\ length (rm_artifact_digest m) = 32%nat.

Definition manifest_ranged (m : pbns_recovery_manifest) : Prop :=
  0 <= rm_artifact_version m <= UINT64_MAX /\ 0 <= rm_image_size m <= UINT64_MAX
  /\ 0 <= rm_chunk_size m <= UINT32_MAX /\ 0 <= rm_minimum_version m <= UINT64_MAX
  /\ - 2 ^ 63 <= rm_not_before_ns m <= INT64_MAX /\ - 2 ^ 63 <= rm_not_after_ns m <= INT64_MAX.

Definition manifest_typed (m : pbns_recovery_manifest) : Prop := manifest_sized m /\ manifest_ranged m.

Definition expectation_sized (e : pbns_recovery_manifest_expectation) : Prop :=
  length (re_request_id e) = 16%nat /\ length (re_host_binding e) = 32%nat /\ length (re_nonce e) = 32%nat.

(** Equal but for the addresses of the strings. *)
Definition same_manifest (a b : pbns_recovery_manifest) : Prop :=
  rm_request_id a = rm_request_id b /\ rm_host_binding a = rm_host_binding b /\ rm_nonce a = rm_nonce b
  /\ rm_artifact_digest a = rm_artifact_digest b /\ rm_artifact_version a = rm_artifact_version b
  /\ rm_image_size a = rm_image_size b /\ rm_chunk_size a = rm_chunk_size b
  /\ rm_minimum_version a = rm_minimum_version b /\ rm_not_before_ns a = rm_not_before_ns b
  /\ rm_not_after_ns a = rm_not_after_ns b /\ v_data (rm_policy_authorization a) = v_data (rm_policy_authorization b)
  /\ v_data (rm_policy_key_id a) = v_data (rm_policy_key_id b).

Definition manifest_octets (m : pbns_recovery_manifest) : bytes := tree_encode (manifest_tree m).

Lemma same_octets a b : same_manifest a b -> manifest_octets a = manifest_octets b.
Proof.
  intros (E1 & E2 & E3 & E4 & E5 & E6 & E7 & E8 & E9 & E10 & E11 & E12).
  unfold manifest_octets, manifest_tree, manifest_fields, context_fields, body_fields.
  by rewrite E1, E2, E3, E4, E5, E6, E7, E8, E9, E10, E11, E12.
Qed.

(** The facts of a valid manifest, one by one. *)
Record valid_facts (m : pbns_recovery_manifest) : Prop := mk_valid_facts {
  vf_id : ct_nonzero (rm_request_id m) = true;
  vf_host : ct_nonzero (rm_host_binding m) = true;
  vf_nonce : ct_nonzero (rm_nonce m) = true;
  vf_digest : ct_nonzero (rm_artifact_digest m) = true;
  vf_version : 0 < rm_artifact_version m /\ rm_minimum_version m <= rm_artifact_version m;
  vf_size : 0 < rm_image_size m <= PBNS_RECOVERY_MANIFEST_IMAGE_MAX;
  vf_chunk : rm_chunk_size m = PBNS_RECOVERY_MANIFEST_CHUNK_SIZE;
  vf_time : 0 <= rm_not_before_ns m < rm_not_after_ns m;
  vf_policy : view_is_valid (rm_policy_authorization m) = true /\ 0 < v_len (rm_policy_authorization m) <= 4096;
  vf_key : view_is_valid (rm_policy_key_id m) = true /\ 0 < v_len (rm_policy_key_id m) <= 64;
}.

Lemma manifest_valid_facts m : manifest_valid m = true <-> valid_facts m.
Proof.
  unfold manifest_valid. rewrite !andb_true_iff, !Z.ltb_lt, !Z.leb_le, Z.eqb_eq. split.
  - intros H. decompose [and] H. by constructor.
  - intros [? ? ? ? [] [] ? [] [? []] [? []]]. repeat split; done.
Qed.

(** ** Sizes of encodings *)

Lemma cbor_head_at_most major arg : zlen (cbor_head major arg) <= 9.
Proof. unfold cbor_head. repeat case_match; cbn [length]; rewrite ?be_bytes_length; lia. Qed.

Lemma cbor_int_at_most v : zlen (cbor_int v) <= 9.
Proof. unfold cbor_int. case_match; apply cbor_head_at_most. Qed.

(** An upper bound: nine octets for every head and label. *)
Definition leaf_bound (p : Z * cbor_value) : Z :=
  18 + match snd p with CText s | CBytes s => zlen s | _ => 0 end.

Lemma leaf_length p : zlen (cbor_int (fst p) ++ tree_encode (snd (leaf p))) <= leaf_bound p.
Proof.
  destruct p as [label v]. unfold leaf_bound, leaf. cbn [fst snd tree_encode]. rewrite length_app.
  pose proof (cbor_int_at_most label).
  destruct v; cbn [cbor_encode]; rewrite ?length_app; [pose proof (cbor_head_at_most 0 v)|pose proof (cbor_int_at_most v)|
    pose proof (cbor_head_at_most 3 (zlen text))|pose proof (cbor_head_at_most 2 (zlen data))]; lia.
Qed.

Lemma leaves_length fields :
  zlen (concat (map (fun p => cbor_int (fst p) ++ tree_encode (snd p)) (leaf <$> fields)))
  <= foldr (fun p n => leaf_bound p + n) 0 fields.
Proof.
  induction fields as [|p fields IH]; [done|]. rewrite fmap_cons. cbn [map concat foldr].
  rewrite length_app. pose proof (leaf_length p). change (fst (leaf p)) with (fst p). lia.
Qed.

Lemma manifest_octets_length m : manifest_sized m -> manifest_valid m = true -> 0 < zlen (manifest_octets m) <= 4900.
Proof.
  intros (H1 & H2 & H3 & H4) [_ _ _ _ _ _ _ _ [_ Hp] [_ Hk]]%manifest_valid_facts. unfold v_len in *.
  split; [pose proof (tree_encode_pos (manifest_tree m)); unfold manifest_octets; lia|].
  unfold manifest_octets, manifest_tree, manifest_fields. cbn [tree_encode map concat fst snd]. rewrite !length_app.
  pose proof (leaves_length (context_fields m)) as B1. pose proof (leaves_length (body_fields m)) as B2.
  unfold context_fields, body_fields, leaf_bound in B1, B2. cbn [foldr snd fst] in B1, B2.
  rewrite ?H1, ?H2, ?H3, ?H4 in *.
  change (zlen PBNS_RECOVERY_MANIFEST_DOMAIN) with 25 in *. change (zlen (@nil Z)) with 0 in *.
  change (zlen PBNS_RECOVERY_ARCHITECTURE) with 6 in *. change (zlen PBNS_RECOVERY_FORMAT) with 11 in *.
  match goal with |- context [cbor_head ?a ?b] => pose proof (cbor_head_at_most a b) end.
  pose proof (cbor_int_at_most 1). pose proof (cbor_head_at_most 5 (zlen (leaf <$> context_fields m))).
  unfold context_fields, body_fields in *. lia.
Qed.

(** ** The encoding determines the manifest *)

Lemma leaves_ok fields :
  Forall (fun p => label_ok (fst p) /\ cbor_value_ok (snd p)) fields ->
  fold_right (fun p Q => (label_ok (fst p) /\ tree_ok (snd p)) /\ Q) True (leaf <$> fields).
Proof. induction 1 as [|p fields [Hl Hv] _ IH]; [done|]. rewrite fmap_cons. cbn [fold_right]. done. Qed.

Lemma manifest_tree_ok m : manifest_typed m -> manifest_valid m = true -> tree_ok (manifest_tree m).
Proof.
  intros [(H1 & H2 & H3 & H4) (R1 & R2 & R3 & R4 & R5 & R6)] [_ _ _ _ _ _ _ _ [_ Hp] [_ Hk]]%manifest_valid_facts.
  unfold v_len, UINT32_MAX in *.
  assert (L : forall label, 0 <= label <= 20 -> label_ok label) by (intros; unfold label_ok, INT64_MAX; lia).
  unfold manifest_tree, manifest_fields. cbn [tree_ok fold_right fst snd]. split; [vm_compute; discriminate|].
  split; [split; [apply L; lia|split; [vm_compute; discriminate|]]|]; apply leaves_ok;
    repeat (apply Forall_cons_iff; split); try solve [constructor];
    (split; [apply L; cbn [fst]; lia|]); cbn [snd cbor_value_ok]; unfold UINT64_MAX, INT64_MAX in *;
    rewrite ?H1, ?H2, ?H3, ?H4; first [lia|vm_compute; intuition discriminate].
Qed.

Lemma manifest_readable m : manifest_typed m -> manifest_valid m = true -> tree_readable (manifest_tree m).
Proof.
  intros Ht Hv. split; [by apply manifest_tree_ok|]. split; [done|]. split; [cbn; lia|].
  pose proof (manifest_octets_length m (proj1 Ht) Hv). unfold manifest_octets, UINT16_MAX in *. lia.
Qed.

Lemma manifest_octets_inj a b :
  manifest_typed a -> manifest_typed b -> manifest_valid a = true -> manifest_valid b = true ->
  manifest_octets a = manifest_octets b -> same_manifest a b.
Proof.
  intros Ta Tb Va Vb E. apply tree_encode_inj in E; [|by apply manifest_tree_ok..].
  apply manifest_valid_facts in Va as [_ _ _ _ _ _ _ Na _ _], Vb as [_ _ _ _ _ _ _ Nb _ _].
  unfold manifest_tree, manifest_fields, context_fields, body_fields in E.
  cbn [tree_norm map fmap list_fmap fst snd leaf cbor_norm] in E.
  rewrite (proj2 (Z.ltb_ge (rm_not_before_ns a) 0)), (proj2 (Z.ltb_ge (rm_not_before_ns b) 0)),
    (proj2 (Z.ltb_ge (rm_not_after_ns a) 0)), (proj2 (Z.ltb_ge (rm_not_after_ns b) 0)) in E by lia.
  injection E. intros. unfold same_manifest. split_and!; congruence.
Qed.

(** ** Encoding *)

Lemma manifest_encode_spec `{S : QCBORSpiffy} m storage st data size :
  manifest_encode_unchecked m storage = (st, data, size) ->
  length data = length storage
  /\ (st = PBNS_OK -> size = zlen (manifest_octets m) /\ take (Z.to_nat size) data = manifest_octets m)
  /\ (st <> PBNS_OK -> size = 0)
  /\ (zlen storage < UINT32_MAX -> manifest_sized m -> manifest_valid m = true ->
      st = if zlen storage <? zlen (manifest_octets m) then PBNS_ERR_LIMIT else PBNS_OK).
Proof.
  unfold manifest_encode_unchecked.
  destruct (QCBOREncode_tree (manifest_tree m) storage) as [[e out] data0] eqn:E.
  destruct (QCBOREncode_tree_spec _ _ _ _ _ E) as (Hlen & Hok & Hfit & Hsmall). fold (manifest_octets m) in *. intros Er.
  assert (Hd : data = data0) by (destruct e; [case_match|..]; by injection Er as _ <- _). subst data0. split; [done|].
  assert (Hst : st = PBNS_OK -> e = QCBOR_SUCCESS /\ size = zlen out) by (intros ->; destruct e; [case_match|..]; by injection Er).
  split; [|split].
  - intros ->. destruct (Hst eq_refl) as [-> ->]. destruct (Hok eq_refl) as (-> & _ & ->).
    by rewrite Nat2Z.id, take_app_length.
  - intros Hne. destruct e; [case_match|..]; injection Er; congruence.
  - intros Hu Hs Hv. pose proof (manifest_octets_length m Hs Hv) as Hl.
    destruct (Z.ltb_spec (zlen storage) (zlen (manifest_octets m))).
    + rewrite Hsmall in Er by lia. by injection Er.
    + rewrite Hfit in Er, Hok by lia. destruct (Hok eq_refl) as (-> & _).
      rewrite (proj2 (Z.eqb_neq (zlen (manifest_octets m)) 0)), (proj2 (Z.ltb_ge PBNS_RECOVERY_MANIFEST_ENCODED_MAX_SIZE _)) in Er
        by (unfold PBNS_RECOVERY_MANIFEST_ENCODED_MAX_SIZE; lia). by injection Er.
Qed.

(** ** Decoding *)

Lemma decode_context_ok `{S : QCBORSpiffy} d m m' d' :
  decode_context d m = (PBNS_OK, m', d') ->
  length (rm_request_id m') = 16%nat /\ length (rm_host_binding m') = 32%nat /\ length (rm_nonce m') = 32%nat
  /\ - 2 ^ 63 <= rm_not_before_ns m' <= INT64_MAX /\ - 2 ^ 63 <= rm_not_after_ns m' <= INT64_MAX
  /\ rm_artifact_version m' = rm_artifact_version m /\ rm_image_size m' = rm_image_size m
  /\ rm_minimum_version m' = rm_minimum_version m.
Proof.
  unfold decode_context.
  destruct (QCBORDecode_GetTextStringInMapN _ 1) as [domain d1], (QCBORDecode_GetUInt64InMapN _ 2) as [version d2],
    (QCBORDecode_GetUInt64InMapN _ 3) as [service d3], (QCBORDecode_GetByteStringInMapN _ 4) as [id d4],
    (QCBORDecode_GetByteStringInMapN _ 5) as [host d5], (QCBORDecode_GetByteStringInMapN _ 6) as [nonce d6],
    (QCBORDecode_GetInt64InMapN _ 7) as [issued d7] eqn:E7, (QCBORDecode_GetInt64InMapN _ 8) as [expires d8] eqn:E8,
    (QCBORDecode_GetByteStringInMapN _ 9) as [body d9].
  apply int_default_range in E7, E8. cbv zeta. destruct (_ || (default 0 expires <=? default 0 issued)) eqn:E; [done|].
  intros [= <- _]. bools. cbn. unfold v_len, PBNS_RECOVERY_MANIFEST_REQUEST_ID_SIZE, PBNS_RECOVERY_MANIFEST_HOST_SIZE,
    PBNS_RECOVERY_MANIFEST_NONCE_SIZE in *. split_and!; try done; lia.
Qed.

Lemma decode_manifest_ok `{S : QCBORSpiffy} encoded m :
  decode_manifest encoded = Some m -> manifest_typed m /\ manifest_valid m = true.
Proof.
  unfold decode_manifest. destruct (decode_context _ zero_manifest) as [[st c] d0] eqn:Ec.
  destruct (QCBORDecode_GetByteStringInMapN _ 10) as [digest d1], (QCBORDecode_GetUInt64InMapN _ 11) as [version d2] eqn:E2,
    (QCBORDecode_GetTextStringInMapN _ 12) as [architecture d3], (QCBORDecode_GetTextStringInMapN _ 13) as [format d4],
    (QCBORDecode_GetUInt64InMapN _ 14) as [size d5] eqn:E5, (QCBORDecode_GetUInt64InMapN _ 15) as [chunk d6] eqn:E6,
    (QCBORDecode_GetUInt64InMapN _ 16) as [minimum d7] eqn:E7, (QCBORDecode_GetInt64InMapN _ 17) as [nb d8],
    (QCBORDecode_GetInt64InMapN _ 18) as [na d9], (QCBORDecode_GetByteStringInMapN _ 19) as [policy d10],
    (QCBORDecode_GetByteStringInMapN _ 20) as [key d11].
  apply uint_default_range in E2, E5, E6, E7. cbv zeta.
  destruct (_ || negb (default 0 na =? _)) eqn:E; [done|].
  destruct (manifest_valid _) eqn:Hv; [|done]. intros [= <-]. split; [|done]. bools.
  assert (st = PBNS_OK) as -> by (by apply is_ok_spec).
  apply decode_context_ok in Ec as (L1 & L2 & L3 & R1 & R2 & Z1 & Z2 & Z3).
  unfold manifest_typed, manifest_sized, manifest_ranged. cbn. rewrite Z1, Z2, Z3. cbn [zero_manifest rm_artifact_version
    rm_image_size rm_minimum_version]. unfold v_len, PBNS_RECOVERY_MANIFEST_DIGEST_SIZE in *.
  split; [split_and!; try done; lia|]. rewrite u32_small by lia. split_and!; try done; lia.
Qed.

Section reads.
Context `{S : QCBORSpiffy} `{!SpiffyReads}.

(** The context of an encoded manifest, as it is read. *)
Lemma decode_context_reads d m m0 :
  manifest_typed m -> manifest_valid m = true -> open_maps d = Some [norm_map (manifest_fields m)] ->
  exists d', open_maps d' = open_maps d
  /\ decode_context d m0 =
     (PBNS_OK, mk_manifest (rm_request_id m) (rm_host_binding m) (rm_nonce m) (rm_artifact_digest m0)
        (rm_artifact_version m0) (rm_image_size m0) (rm_chunk_size m0) (rm_minimum_version m0) (rm_not_before_ns m)
        (rm_not_after_ns m) (rm_policy_authorization m0) (rm_policy_key_id m0), d').
Proof.
  intros [(L1 & L2 & L3 & _) (_ & _ & _ & _ & R5 & R6)] [_ _ _ _ _ _ _ Hn _ _]%manifest_valid_facts Ho.
  set (outer := norm_map (manifest_fields m)) in *. set (inner := norm_map (leaf <$> context_fields m)).
  pose proof (reads_nested d outer [] 1 inner Ho eq_refl) as O0.
  destruct (reads_text _ inner [outer] 1 PBNS_RECOVERY_MANIFEST_DOMAIN O0 eq_refl) as (p1 & d1 & E1 & _ & O1). rewrite O0 in O1.
  destruct (reads_uint _ inner [outer] 2 1 O1 eq_refl ltac:(unfold UINT64_MAX; lia)) as (d2 & E2 & O2). rewrite O1 in O2.
  destruct (reads_uint _ inner [outer] 3 2 O2 eq_refl ltac:(unfold UINT64_MAX; lia)) as (d3 & E3 & O3). rewrite O2 in O3.
  destruct (reads_bytes _ inner [outer] 4 (rm_request_id m) O3 eq_refl) as (p4 & d4 & E4 & _ & O4). rewrite O3 in O4.
  destruct (reads_bytes _ inner [outer] 5 (rm_host_binding m) O4 eq_refl) as (p5 & d5 & E5 & _ & O5). rewrite O4 in O5.
  destruct (reads_bytes _ inner [outer] 6 (rm_nonce m) O5 eq_refl) as (p6 & d6 & E6 & _ & O6). rewrite O5 in O6.
  destruct (reads_int _ inner [outer] 7 (rm_not_before_ns m) O6 eq_refl R5) as (d7 & E7 & O7). rewrite O6 in O7.
  destruct (reads_int _ inner [outer] 8 (rm_not_after_ns m) O7 eq_refl R6) as (d8 & E8 & O8). rewrite O7 in O8.
  destruct (reads_bytes _ inner [outer] 9 [] O8 eq_refl) as (p9 & d9 & E9 & _ & O9). rewrite O8 in O9.
  exists (QCBORDecode_ExitMap d9). split; [rewrite Ho; by apply (reads_exit d9 inner)|].
  unfold decode_context. rewrite E1, E2, E3, E4, E5, E6, E7, E8, E9. cbn [default from_option id]. unfold v_len. cbn [v_data].
  rewrite L1, L2, L3, bytes_eqb_refl. rewrite (proj2 (Z.ltb_ge (rm_not_before_ns m) 0)),
    (proj2 (Z.leb_gt (rm_not_after_ns m) (rm_not_before_ns m))) by lia. done.
Qed.

(** What was encoded is read back, but for the addresses of the strings. *)
Lemma decode_manifest_reads m :
  manifest_typed m -> manifest_valid m = true ->
  exists m', decode_manifest (manifest_octets m) = Some m' /\ same_manifest m m'.
Proof.
  intros Ht Hv. pose proof (manifest_readable m Ht Hv) as Hr. set (outer := norm_map (manifest_fields m)).
  pose proof (reads_enter _ Hr : open_maps (QCBORDecode_EnterMap (QCBORDecode_Init (manifest_octets m))) = Some [outer]) as O0.
  destruct (decode_context_reads _ m zero_manifest Ht Hv O0) as (d0 & Od & Ec). rewrite O0 in Od. clear O0. rename Od into O0.
  pose proof Ht as [(_ & _ & _ & L4) (R1 & R2 & R3 & R4 & R5 & R6)].
  destruct (reads_bytes _ outer [] 10 (rm_artifact_digest m) O0 eq_refl) as (p1 & d1 & E1 & _ & O1). rewrite O0 in O1.
  destruct (reads_uint _ outer [] 11 (rm_artifact_version m) O1 eq_refl R1) as (d2 & E2 & O2). rewrite O1 in O2.
  destruct (reads_text _ outer [] 12 PBNS_RECOVERY_ARCHITECTURE O2 eq_refl) as (p3 & d3 & E3 & _ & O3). rewrite O2 in O3.
  destruct (reads_text _ outer [] 13 PBNS_RECOVERY_FORMAT O3 eq_refl) as (p4 & d4 & E4 & _ & O4). rewrite O3 in O4.
  destruct (reads_uint _ outer [] 14 (rm_image_size m) O4 eq_refl R2) as (d5 & E5 & O5). rewrite O4 in O5.
  destruct (reads_uint _ outer [] 15 (rm_chunk_size m) O5 eq_refl ltac:(unfold UINT32_MAX, UINT64_MAX in *; lia)) as (d6 & E6 & O6).
  rewrite O5 in O6. destruct (reads_uint _ outer [] 16 (rm_minimum_version m) O6 eq_refl R4) as (d7 & E7 & O7). rewrite O6 in O7.
  destruct (reads_int _ outer [] 17 (rm_not_before_ns m) O7 eq_refl R5) as (d8 & E8 & O8). rewrite O7 in O8.
  destruct (reads_int _ outer [] 18 (rm_not_after_ns m) O8 eq_refl R6) as (d9 & E9 & O9). rewrite O8 in O9.
  destruct (reads_bytes _ outer [] 19 (v_data (rm_policy_authorization m)) O9 eq_refl) as (p10 & d10 & E10 & N10 & O10). rewrite O9 in O10.
  destruct (reads_bytes _ outer [] 20 (v_data (rm_policy_key_id m)) O10 eq_refl) as (p11 & d11 & E11 & N11 & O11). rewrite O10 in O11.
  pose proof (reads_end _ (reads_exit _ _ _ O11)) as Hend.
  set (m' := mk_manifest (rm_request_id m) (rm_host_binding m) (rm_nonce m) (rm_artifact_digest m) (rm_artifact_version m)
    (rm_image_size m) (rm_chunk_size m) (rm_minimum_version m) (rm_not_before_ns m) (rm_not_after_ns m)
    (mk_view p10 (v_data (rm_policy_authorization m))) (mk_view p11 (v_data (rm_policy_key_id m)))).
  exists m'. split; [|done].
  assert (Hv' : manifest_valid m' = true).
  { apply manifest_valid_facts. apply manifest_valid_facts in Hv as [? ? ? ? ? ? ? ? [_ ?] [_ ?]].
    constructor; try done; (split; [apply view_is_valid_spec; by left|done]). }
  unfold decode_manifest. rewrite Ec, E1, E2, E3, E4, E5, E6, E7, E8, E9, E10, E11. cbn [default from_option id]. unfold v_len.
  cbn [v_data rm_request_id rm_host_binding rm_nonce rm_not_before_ns rm_not_after_ns].
  rewrite L4, Hend, !bytes_eqb_refl, !Z.eqb_refl, (proj2 (Z.ltb_ge UINT32_MAX (rm_chunk_size m))), u32_small by lia.
  fold m'. rewrite Hv'. done.
Qed.
End reads.

(** ** Acceptance *)

(** The manifest answers the expectation. *)
Definition manifest_bound (m : pbns_recovery_manifest) (e : pbns_recovery_manifest_expectation) : Prop :=
  rm_request_id m = re_request_id e /\ rm_host_binding m = re_host_binding e /\ rm_nonce m = re_nonce e
  /\ v_data (rm_policy_key_id m) = v_data (re_expected_policy_key_id e).

Definition manifest_current (m : pbns_recovery_manifest) (e : pbns_recovery_manifest_expectation) : Prop :=
  re_current_version e <= rm_artifact_version m
  /\ rm_not_before_ns m <= ti_earliest_ns (re_trusted_time e)
  /\ ti_latest_ns (re_trusted_time e) <= rm_not_after_ns m.

Lemma views_equal_spec (l r : pbns_view) : views_equal l r = true <-> v_data l = v_data r.
Proof.
  unfold views_equal, v_len. rewrite andb_true_iff, orb_true_iff, !Z.eqb_eq. split.
  - intros [Hl [H0|He]]; [|apply ct_equal_spec; [lia|done]].
    destruct (v_data l); [|done]. by destruct (v_data r).
  - intros E. rewrite E. split; [done|]. right. by apply ct_equal_spec.
Qed.

Definition binding_checks (m : pbns_recovery_manifest) (e : pbns_recovery_manifest_expectation) : bool :=
  negb (ct_equal (rm_request_id m) (re_request_id e)) || negb (ct_equal (rm_host_binding m) (re_host_binding e))
  || negb (ct_equal (rm_nonce m) (re_nonce e)) || negb (views_equal (rm_policy_key_id m) (re_expected_policy_key_id e)).

Lemma binding_checks_spec m e :
  manifest_sized m -> expectation_sized e -> binding_checks m e = false <-> manifest_bound m e.
Proof.
  intros (L1 & L2 & L3 & _) (M1 & M2 & M3). unfold binding_checks, manifest_bound.
  rewrite !orb_false_iff, !negb_false_iff, views_equal_spec, !ct_equal_spec by congruence. tauto.
Qed.

Definition currency_checks (m : pbns_recovery_manifest) (e : pbns_recovery_manifest_expectation) : bool :=
  (rm_artifact_version m <? re_current_version e)
  || negb (pbns_time_interval_within (Some (re_trusted_time e)) (rm_not_before_ns m) (rm_not_after_ns m)).

Lemma currency_checks_spec m e :
  manifest_valid m = true -> expectation_valid e = true -> currency_checks m e = false <-> manifest_current m e.
Proof.
  intros [_ _ _ _ _ _ _ Ht _ _]%manifest_valid_facts He. unfold expectation_valid in He. bools.
  unfold currency_checks, manifest_current, pbns_time_interval_within.
  rewrite orb_false_iff, negb_false_iff, !andb_true_iff, Z.ltb_ge, !Z.leb_le. intuition lia.
Qed.

(** What an accepted manifest is known to satisfy. *)
Definition manifest_accepted (m : pbns_recovery_manifest) (payload : bytes) (e : pbns_recovery_manifest_expectation)
  : Prop :=
  payload = manifest_octets m /\ manifest_typed m /\ manifest_valid m = true /\ manifest_bound m e /\ manifest_current m e.

Lemma decode_verified_result `{S : QCBORSpiffy} `{M : Machine} payload e scratch st data m :
  expectation_sized e -> manifest_decode_verified payload e scratch = (st, data, m) ->
  length data = length (b_data scratch)
  /\ (st <> PBNS_OK -> m = zero_manifest) /\ (st = PBNS_OK -> manifest_accepted m (v_data payload) e).
Proof.
  intros He. unfold manifest_decode_verified. destruct (_ || (b_cap scratch <? _)) eqn:Harg; [by intros [= <- <- <-]|].
  destruct (view_overlaps _ _); [by intros [= <- <- <-]|].
  destruct (decode_manifest (v_data payload)) as [d|] eqn:Ed; [|by intros [= <- <- <-]].
  apply decode_manifest_ok in Ed as [Ht Hv].
  destruct (manifest_encode_unchecked d (b_data scratch)) as [[st1 data1] size] eqn:Ee.
  apply manifest_encode_spec in Ee as (Hlen & Hok & _).
  destruct (_ || negb (bytes_eqb _ _)) eqn:Hc; [by intros [= <- <- <-]|]. fold (binding_checks d e) (currency_checks d e).
  destruct (binding_checks d e) eqn:Hb; [by intros [= <- <- <-]|].
  destruct (currency_checks d e) eqn:Hcur; [by intros [= <- <- <-]|]. intros [= <- <- <-]. split; [done|]. split; [done|].
  intros _. bools. assert (st1 = PBNS_OK) as -> by (by apply is_ok_spec). destruct (Hok eq_refl) as [_ Htk].
  repeat match goal with H : bytes_eqb _ _ = true |- _ => apply bytes_eqb_spec in H end.
  unfold manifest_accepted. split; [congruence|]. split; [done|]. split; [done|]. split.
  - apply binding_checks_spec; [apply Ht|done|done].
  - apply currency_checks_spec; [done| |done]. done.
Qed.

(** The status of a canonical payload, exactly. *)
Lemma decode_canonical_exact `{S : QCBORSpiffy} `{!SpiffyReads} `{M : Machine} m payload e scratch :
  manifest_typed m -> manifest_valid m = true -> v_data payload = manifest_octets m -> v_ptr payload <> 0 ->
  expectation_valid e = true -> buffer_is_valid scratch = true -> v_len payload <= b_cap scratch < UINT32_MAX ->
  view_overlaps payload scratch = false ->
  exists data m', same_manifest m m'
  /\ manifest_decode_verified payload e scratch =
     (if binding_checks m e then (PBNS_ERR_AUTHENTICATION, data, zero_manifest)
      else if currency_checks m e then (PBNS_ERR_REPLAY, data, zero_manifest) else (PBNS_OK, data, m')).
Proof.
  intros Ht Hv Hd Hp He Hb [Hlo Hhi] Hov. pose proof (manifest_octets_length m (proj1 Ht) Hv) as Hlen.
  assert (Hvl : v_len payload = zlen (manifest_octets m)) by (unfold v_len; by rewrite Hd).
  destruct (decode_manifest_reads m Ht Hv) as (m' & Ed & Hsame).
  destruct (manifest_encode_unchecked m' (b_data scratch)) as [[st1 data1] size] eqn:Ee. exists data1, m'. split; [done|].
  pose proof (decode_manifest_ok _ _ Ed) as [Ht' Hv'].
  destruct (manifest_encode_spec _ _ _ _ _ Ee) as (_ & Hok & _ & Hst). unfold b_cap in *.
  specialize (Hst Hhi (proj1 Ht') Hv'). rewrite <- (same_octets m m' Hsame) in *.
  rewrite (proj2 (Z.ltb_ge (zlen (b_data scratch)) _)) in Hst by lia. subst st1. destruct (Hok eq_refl) as [-> Htk].
  assert (Ebind : binding_checks m' e = binding_checks m e).
  { destruct Hsame as (E1 & E2 & E3 & _ & _ & _ & _ & _ & _ & _ & _ & E12).
    unfold binding_checks, views_equal, v_len. by rewrite E1, E2, E3, E12. }
  assert (Ecur : currency_checks m' e = currency_checks m e).
  { destruct Hsame as (_ & _ & _ & _ & E5 & _ & _ & _ & E9 & E10 & _ & _). unfold currency_checks. by rewrite E5, E9, E10. }
  unfold manifest_decode_verified. rewrite Hov, Hb, He, (proj2 (view_is_valid_spec payload)) by (by left).
  unfold b_cap. rewrite Hvl, (proj2 (Z.eqb_neq (zlen (manifest_octets m)) 0)),
    (proj2 (Z.ltb_ge PBNS_RECOVERY_MANIFEST_ENCODED_MAX_SIZE _)), (proj2 (Z.ltb_ge (zlen (b_data scratch)) _))
    by (unfold PBNS_RECOVERY_MANIFEST_ENCODED_MAX_SIZE; lia). cbn [negb orb].
  rewrite Hd, Ed, Ee, Htk, bytes_eqb_refl, Z.eqb_refl. cbn [is_ok negb orb].
  fold (binding_checks m' e) (currency_checks m' e). by rewrite Ebind, Ecur.
Qed.

(** ** Properties *)

(** A manifest is accepted only when it is what was asked for.  Whatever the
    CBOR decoder does, the payload of an accepted manifest is the one canonical
    encoding of the fields that were returned, so no other manifest has it; the
    fields are valid, repeat the request identifier, the host and the nonce of
    the expectation and the policy key, name a version that is not older than
    the installed one, and the whole interval of trusted time lies within the
    validity.  A refusal leaves the zeroed manifest. *)
Theorem manifest_accepted_only_bound `{S : QCBORSpiffy} `{M : Machine} (payload : pbns_view)
    (e : pbns_recovery_manifest_expectation) (scratch : pbns_buffer) :
  expectation_sized e ->
  exists st data m, manifest_decode_verified payload e scratch = (st, data, m)
  /\ length data = length (b_data scratch)
  /\ (st <> PBNS_OK -> m = zero_manifest)
  /\ (st = PBNS_OK -> manifest_accepted m (v_data payload) e
      /\ forall other, manifest_typed other -> manifest_valid other = true -> v_data payload = manifest_octets other ->
         same_manifest m other).
Proof.
  intros He. destruct (manifest_decode_verified payload e scratch) as [[st data] m] eqn:E. exists st, data, m.
  split; [done|]. apply decode_verified_result in E as (Hl & Hz & Hok); [|done]. split; [done|]. split; [done|].
  intros Hst. destruct (Hok Hst) as (Ep & Ht & Hv & Hb). split; [done|]. intros other To Vo Eo.
  apply manifest_octets_inj; congruence.
Qed.

(** Encoding and decoding agree.  With a decoder that reads what the encoder
    writes, a valid manifest is encoded whenever the output has room, in at most
    4900 octets, and decoding those octets gives the manifest back exactly when
    it matches the expectation: a manifest for another request, host or policy
    key fails authentication, and one that is too old or outside the trusted
    time is a replay. *)
Theorem manifest_roundtrip `{S : QCBORSpiffy} `{R : !SpiffyReads} `{M : Machine} (m : pbns_recovery_manifest)
    (e : pbns_recovery_manifest_expectation) (output scratch : pbns_buffer) (address : Z) :
  manifest_typed m -> manifest_valid m = true -> expectation_sized e -> expectation_valid e = true ->
  buffer_is_valid output = true -> buffer_is_valid scratch = true -> address <> 0 ->
  4900 <= b_cap output -> 4900 <= b_cap scratch < UINT32_MAX ->
  ranges_overlap address (zlen (manifest_octets m)) (b_ptr scratch) (b_cap scratch) = false ->
  exists data size st data' m', manifest_encode m output = (PBNS_OK, data, size) /\ 0 < size <= 4900
  /\ manifest_decode_verified (mk_view address (take (Z.to_nat size) data)) e scratch = (st, data', m')
  /\ (st = PBNS_OK <-> manifest_bound m e /\ manifest_current m e)
  /\ (st = PBNS_OK -> same_manifest m m')
  /\ (~ manifest_bound m e -> st = PBNS_ERR_AUTHENTICATION)
  /\ (manifest_bound m e -> ~ manifest_current m e -> st = PBNS_ERR_REPLAY).
Proof.
  intros Ht Hv Hes Hev Hbo Hbs Ha Ho Hs Hov. pose proof (manifest_octets_length m (proj1 Ht) Hv) as Hlen.
  unfold manifest_encode. rewrite Hbo, Hv. cbn [negb]. set (cap := if _ <? _ then _ else _).
  assert (Hcap : cap = Z.min 8192 (b_cap output))
    by (unfold cap, PBNS_RECOVERY_MANIFEST_ENCODED_MAX_SIZE; case_match; bools; lia).
  destruct (manifest_encode_unchecked m (take (Z.to_nat cap) (b_data output))) as [[st0 data] size] eqn:E.
  destruct (manifest_encode_spec _ _ _ _ _ E) as (Hl & Hok & _ & Hst). unfold b_cap in *. rewrite length_take in Hl, Hst.
  specialize (Hst ltac:(unfold UINT32_MAX; lia) (proj1 Ht) Hv). rewrite (proj2 (Z.ltb_ge _ _)) in Hst by lia. subst st0.
  destruct (Hok eq_refl) as [-> Htk].
  destruct (decode_canonical_exact m (mk_view address (manifest_octets m)) e scratch) as (data' & m' & Hsame & Edec);
    [done..|unfold v_len, b_cap; cbn [v_data]; lia|done|].
  pose proof (binding_checks_spec m e (proj1 Ht) Hes) as Hbind. pose proof (currency_checks_spec m e Hv Hev) as Hcur.
  exists (data ++ drop (Z.to_nat cap) (b_data output)), (zlen (manifest_octets m)).
  rewrite take_app_le by (rewrite Hl; lia). rewrite Htk, Edec.
  destruct (binding_checks m e), (currency_checks m e); do 3 eexists; (split; [done|]); (split; [lia|]); (split; [done|]); intuition congruence.
Qed.

(** ** Signed manifests *)

(** The data that the signature covers beside the payload. *)
Definition manifest_aad_octets (e : pbns_recovery_manifest_expectation) : bytes :=
  PBNS_RECOVERY_MANIFEST_AAD ++ re_request_id e ++ re_host_binding e ++ re_nonce e
  ++ v_data (re_recovery_signing_key_id e).

Lemma manifest_aad_spec e output :
  expectation_sized e ->
  exists st data size, manifest_aad e output = Some (st, data, size) /\ length data = length (b_data output)
  /\ (st = PBNS_OK -> 0 <= size <= zlen data /\ take (Z.to_nat size) data = manifest_aad_octets e)
  /\ (expectation_valid e = true -> buffer_is_valid output = true -> 173 <= b_cap output -> st = PBNS_OK).
Proof.
  intros (Hi & Hf & Hn). unfold manifest_aad.
  destruct (expectation_valid e) eqn:Hv; cbn [negb orb]; [|by eexists _, _, _].
  destruct (buffer_is_valid output); cbn [negb]; [|by eexists _, _, _].
  unfold expectation_valid in Hv. bools. unfold PBNS_RECOVERY_MANIFEST_KEY_ID_MAX_SIZE, PBNS_RECOVERY_MANIFEST_AAD_MAX_SIZE in *.
  assert (HP : zlen PBNS_RECOVERY_MANIFEST_AAD = 29) by done. cbv zeta. rewrite HP.
  unfold PBNS_RECOVERY_MANIFEST_REQUEST_ID_SIZE, PBNS_RECOVERY_MANIFEST_HOST_SIZE, PBNS_RECOVERY_MANIFEST_NONCE_SIZE in *.
  rewrite (proj2 (Z.ltb_ge 192 _)) by lia. cbn [orb].
  destruct (Z.ltb_spec (b_cap output) (29 + 16 + 32 + 32 + v_len (re_recovery_signing_key_id e))) as [|Hcap].
  { eexists _, _, _. split; [done|]. split; [done|]. split; [done|]. intros _ _ ?. lia. }
  unfold b_cap, v_len, manifest_aad_octets in *. set (D := b_data output) in *.
  set (P := PBNS_RECOVERY_MANIFEST_AAD) in *. clearbody P.
  change D with ([] ++ D) at 1. rewrite wr_list_next by (done || lia). cbn [mbind option_bind app].
  rewrite wr_list_next by (rewrite ?length_drop; lia). cbn [mbind option_bind].
  rewrite wr_list_next by (rewrite ?length_app, ?length_drop; lia). cbn [mbind option_bind].
  rewrite wr_list_next by (rewrite ?length_app, ?length_drop; lia). cbn [mbind option_bind].
  rewrite wr_list_next by (rewrite ?length_app, ?length_drop; lia). cbn [mbind option_bind].
  eexists _, _, _. split; [done|]. split; [rewrite !length_app, !length_drop; lia|]. split; [|done]. intros _.
  split; [rewrite !length_app; lia|]. rewrite <- !app_assoc.
  rewrite !app_assoc. rewrite take_app_length'; [done|]. rewrite !length_app. lia.
Qed.

(** The data determines the request and the key. *)
Lemma manifest_aad_inj e1 e2 :
  expectation_sized e1 -> expectation_sized e2 -> manifest_aad_octets e1 = manifest_aad_octets e2 ->
  re_request_id e1 = re_request_id e2 /\ re_host_binding e1 = re_host_binding e2 /\ re_nonce e1 = re_nonce e2
  /\ v_data (re_recovery_signing_key_id e1) = v_data (re_recovery_signing_key_id e2).
Proof.
  intros (A1 & A2 & A3) (B1 & B2 & B3) E. unfold manifest_aad_octets in E. apply app_inv_head in E.
  apply app_inj_1 in E as [-> E]; [|congruence]. apply app_inj_1 in E as [-> E]; [|congruence].
  by apply app_inj_1 in E as [-> ->]; [|congruence].
Qed.

Lemma profile_headers `{S : QCBORSpiffy} signed key_id :
  cose_profile_valid signed key_id = true -> protected_headers_of signed = Some (cbor_map (profile_fields key_id)).
Proof.
  unfold cose_profile_valid. destruct (protected_headers_of signed) as [headers|]; [|done].
  destruct (headers_accepted _ _); [|done]. cbn [negb].
  destruct (QCBOREncode_map (profile_fields key_id) (replicate 96 0)) as [[e out] data] eqn:E.
  destruct (QCBOREncode_map_spec _ _ _ _ _ E) as (_ & Hok & _). destruct e; try done.
  destruct (Hok eq_refl) as (-> & _). intros [_ Hb]%andb_true_iff. apply bytes_eqb_spec in Hb. by rewrite Hb.
Qed.

(** C11: a signed manifest is accepted only through the verifier.  The check always
    returns; acceptance means that the message has the one profile (ES256 and
    the pinned recovery key, in canonical protected headers), that the verifier
    vouched for the payload over data made of the request identifier, the host,
    the nonce and the key, data that no other request shares, and that the
    payload is a manifest bound to the expectation.  A message with another
    profile never reaches the verifier, and a refusal leaves the zeroed
    manifest. *)
Theorem signed_manifest_verified `{S : QCBORSpiffy} `{M : Machine} {W : Type} (verifier : pbns_crypto W)
    (signed : pbns_view) (e : pbns_recovery_manifest_expectation) (scratch aad_scratch : pbns_buffer) (w : W) :
  expectation_sized e ->
  exists st canonical aad m w',
    manifest_verify_signed verifier signed e scratch aad_scratch w = Some (st, canonical, aad, m, w')
  /\ (st <> PBNS_OK -> m = zero_manifest)
  /\ (cose_profile_valid (v_data signed) (re_recovery_signing_key_id e) = false -> st <> PBNS_OK /\ w' = w)
  /\ (st = PBNS_OK ->
      protected_headers_of (v_data signed) = Some (cbor_map (profile_fields (re_recovery_signing_key_id e)))
      /\ (exists verify payload, provider (Some verifier) co_sign1_verify = Some verify
          /\ verify w signed (mk_view (b_ptr aad_scratch) (manifest_aad_octets e)) = (PBNS_OK, payload, w')
          /\ manifest_accepted m (v_data payload) e)
      /\ forall other, expectation_sized other -> manifest_aad_octets other = manifest_aad_octets e ->
         re_request_id other = re_request_id e /\ re_host_binding other = re_host_binding e
         /\ re_nonce other = re_nonce e
         /\ v_data (re_recovery_signing_key_id other) = v_data (re_recovery_signing_key_id e)).
Proof.
  intros He. unfold manifest_verify_signed.
  destruct (_ || negb (buffer_is_valid aad_scratch)); [by do 5 eexists|].
  destruct (cose_profile_valid _ _) eqn:Hp; cbn [negb]; [|by do 5 eexists].
  destruct (manifest_aad_spec e aad_scratch He) as (st1 & aad & size & -> & _ & Haad & _). cbn [mbind option_bind].
  destruct (is_ok st1) eqn:Ok1; cbn [negb]; [|apply is_ok_false in Ok1; by do 5 eexists].
  apply is_ok_spec in Ok1. destruct (Haad Ok1) as [Hs Htk].
  rewrite rd_slice_inside by lia. unfold slice. rewrite drop_0, Htk. cbn [mbind option_bind].
  destruct (pbns_sign1_verify (Some verifier) signed _ (Some null_view) w) as [[st2 p] w'] eqn:Ev.
  destruct (is_ok st2) eqn:Ok2; cbn [negb]; [|apply is_ok_false in Ok2; by do 5 eexists]. apply is_ok_spec in Ok2.
  destruct (verify_calls_provider _ _ _ _ _ _ _ Ev Ok2) as (verify & payload & Hprov & -> & Hcall). cbn [default from_option id].
  destruct (manifest_decode_verified payload e scratch) as [[st3 data] m] eqn:Ed. do 5 eexists. split; [done|].
  apply decode_verified_result in Ed as (_ & Hz & Hok); [|done]. split; [done|]. split; [done|]. intros Hst.
  split; [by apply profile_headers|]. split; [by exists verify, payload; auto|]. intros other Ho Eo. by apply manifest_aad_inj.
Qed.

(** ** Witnesses *)

Definition ex_manifest : pbns_recovery_manifest :=
  mk_manifest (replicate 16 9) (replicate 32 7) (replicate 32 5) (replicate 32 3) 8 40000 16384 2 1000 9000
    (mk_view 64 [1; 2; 3]) (mk_view 96 [4; 5]).

Definition ex_expectation : pbns_recovery_manifest_expectation :=
  mk_expectation (replicate 16 9) (replicate 32 7) (replicate 32 5) (mk_view 128 [6; 6]) (mk_view 160 [4; 5]) 7
    (mk_interval 2000 3000).

Definition ex_manifest_buffer : pbns_buffer := mk_buffer 65536 0 (replicate 4900 0).

Lemma ex_manifest_typed : manifest_typed ex_manifest.
Proof. unfold manifest_typed, manifest_sized, manifest_ranged. repeat split; vm_compute; (reflexivity || discriminate). Qed.

Lemma ex_expectation_sized : expectation_sized ex_expectation.
Proof. repeat split. Qed.

Lemma manifest_accepted_only_bound_witness :
  exists st data m,
    @manifest_decode_verified tree_qcbor tree_spiffy x86_64 (mk_view 4096 (manifest_octets ex_manifest)) ex_expectation
      ex_manifest_buffer = (st, data, m)
  /\ st = PBNS_OK /\ manifest_accepted m (manifest_octets ex_manifest) ex_expectation.
Proof.
  destruct (@manifest_accepted_only_bound tree_qcbor tree_spiffy x86_64 (mk_view 4096 (manifest_octets ex_manifest)) ex_expectation
    ex_manifest_buffer ex_expectation_sized) as (st & data & m & E & _ & _ & H).
  exists st, data, m. split; [exact E|].
  assert (Hst : st = PBNS_OK).
  { transitivity (fst (fst (st, data, m))); [reflexivity|]. rewrite <- E. vm_compute. reflexivity. }
  split; [exact Hst|]. exact (proj1 (H Hst)).
Defined.

Lemma manifest_roundtrip_witness :
  exists data size st data' m', @manifest_encode tree_qcbor tree_spiffy ex_manifest ex_manifest_buffer = (PBNS_OK, data, size)
  /\ 0 < size <= 4900
  /\ @manifest_decode_verified tree_qcbor tree_spiffy x86_64 (mk_view 4096 (take (Z.to_nat size) data)) ex_expectation
       ex_manifest_buffer = (st, data', m')
  /\ (st = PBNS_OK -> same_manifest ex_manifest m').
Proof.
  destruct (@manifest_roundtrip tree_qcbor tree_spiffy tree_reads x86_64 ex_manifest ex_expectation ex_manifest_buffer
    ex_manifest_buffer 4096) as (data & size & st & data' & m' & E1 & Hs & E2 & _ & H & _).
  - exact ex_manifest_typed.
  - vm_compute. reflexivity.
  - exact ex_expectation_sized.
  - vm_compute. reflexivity.
  - vm_compute. reflexivity.
  - vm_compute. reflexivity.
  - discriminate.
  - vm_compute. discriminate.
  - vm_compute. split; [discriminate|reflexivity].
  - vm_compute. reflexivity.
  - exists data, size, st, data', m'. split; [exact E1|]. split; [exact Hs|]. split; [exact E2|exact H].
Defined.

(** A message in the profile, and a verifier that takes the payload out of it. *)
Definition ex_signed : bytes :=
  tree_encode (TTag 18 (TArray [TValue (CBytes (cbor_map (profile_fields (mk_view 128 [6; 6])))); TMap [];
    TValue (CBytes (manifest_octets ex_manifest)); TValue (CBytes (replicate 64 1))])).

Definition ex_verifier : pbns_crypto nat :=
  mk_crypto (Some (mk_crypto_ops None None
    (Some (fun w _ _ => (PBNS_OK, mk_view 4096 (manifest_octets ex_manifest), S w))) None None None)) 1.

Lemma signed_manifest_verified_witness :
  exists st canonical aad m w',
    @manifest_verify_signed tree_qcbor tree_spiffy nat x86_64 ex_verifier (mk_view 512 ex_signed) ex_expectation
      ex_manifest_buffer (mk_buffer 256 0 (replicate 192 0)) 0%nat = Some (st, canonical, aad, m, w')
  /\ st = PBNS_OK /\ w' = 1%nat.
Proof.
  destruct (@signed_manifest_verified tree_qcbor tree_spiffy x86_64 nat ex_verifier (mk_view 512 ex_signed) ex_expectation
    ex_manifest_buffer (mk_buffer 256 0 (replicate 192 0)) 0%nat ex_expectation_sized) as (st & canonical & aad & m & w' & E & _).
  exists st, canonical, aad, m, w'. split; [exact E|].
  assert (H : (st, w') = (PBNS_OK, 1%nat)).
  { pose (result := fun o : option (pbns_status * bytes * bytes * pbns_recovery_manifest * nat) =>
      match o with Some (st, _, _, _, w) => (st, w) | None => (PBNS_OK, 0%nat) end).
    transitivity (result (Some (st, canonical, aad, m, w'))); [reflexivity|].
    transitivity (result (@manifest_verify_signed tree_qcbor tree_spiffy nat x86_64 ex_verifier (mk_view 512 ex_signed)
      ex_expectation ex_manifest_buffer (mk_buffer 256 0 (replicate 192 0)) 0%nat)); [exact (f_equal result (eq_sym E))|].
    vm_compute. reflexivity. }
  split; [exact (f_equal fst H)|exact (f_equal snd H)].
Defined.
