(* ===== verification/RecoveryLive.v ===== *)
(** * The recovery exchange ([include/pbns/recovery_live.h], [src/core/recovery_live.c])

    The client asks the gateway for a manifest and then for the image it names.
    Every request carries fresh random numbers and is signed; the manifest is
    verified and bound to its request; the image goes through the recovery
    stream into the pages it will be started from.  Signatures, the exchange,
    the bulk transfer and the hash are callbacks over a world [W]. *)

From stdpp Require Import base list numbers.
From Stdlib Require Import ZArith Lia.
From S2P Require Import Prelude Endian Status Step Buffers Frame Cbor CborTree Compare TrustedTime RecoveryStream RecoveryRequest RecoveryManifest.

Definition PBNS_RECOVERY_LIVE_SIGNED_REQUEST_MAX_SIZE : Z := 65536.

(** Producers map the contents of the output buffer and return [*written];
    [bulk_receive] fills the frame and the payload it is given. *)
Record pbns_recovery_live_client (W : Type) := mk_live_client {
  lc_random_fill : ptr (W -> bytes -> pbns_status * bytes * W);
  lc_sign_request : ptr (W -> bytes -> bytes -> bytes -> pbns_status * bytes * Z * W);
  lc_manifest_exchange : ptr (W -> bytes -> bytes -> bytes -> pbns_status * bytes * Z * W);
  lc_verify_manifest : ptr (W -> pbns_view -> bytes -> pbns_status * pbns_view * W);
  lc_bulk_begin : ptr (W -> bytes -> bytes -> Z -> pbns_status * W);
  lc_bulk_receive : ptr (W -> pbns_frame -> pbns_view -> pbns_status * pbns_frame * pbns_view * W);
  lc_bulk_ack : ptr (W -> Z -> Z -> pbns_status * W);
  lc_bulk_finish : ptr (W -> pbns_status * W);
  lc_bulk_cancel : ptr (W -> pbns_status * W);
  lc_hash_ops : ptr (pbns_recovery_hash_ops W);
  lc_manifest_key_id : pbns_view;
  lc_policy_key_id : pbns_view;
}.
Arguments mk_live_client {W}.
Arguments lc_random_fill {W}.
Arguments lc_sign_request {W}.
Arguments lc_manifest_exchange {W}.
Arguments lc_verify_manifest {W}.
Arguments lc_bulk_begin {W}.
Arguments lc_bulk_receive {W}.
Arguments lc_bulk_ack {W}.
Arguments lc_bulk_finish {W}.
Arguments lc_bulk_cancel {W}.
Arguments lc_hash_ops {W}.
Arguments lc_manifest_key_id {W}.
Arguments lc_policy_key_id {W}.

(** The arrays of the workspace, with their addresses. *)
Record pbns_recovery_live_workspace := mk_live_workspace {
  lw_request_payload : pbns_buffer;
  lw_signed_request : pbns_buffer;
  lw_signed_manifest : pbns_buffer;
  lw_signed_manifest_size : Z;
  lw_canonical_scratch : pbns_buffer;
  lw_aad_scratch : pbns_buffer;
  lw_frame : pbns_frame;
  lw_payload : pbns_view;
}.

(** *** Updates of one member *)

Definition with_request_payload (ws : pbns_recovery_live_workspace) (data : bytes) : pbns_recovery_live_workspace :=
  mk_live_workspace (with_data (lw_request_payload ws) data) (lw_signed_request ws) (lw_signed_manifest ws)
    (lw_signed_manifest_size ws) (lw_canonical_scratch ws) (lw_aad_scratch ws) (lw_frame ws) (lw_payload ws).
Definition with_signed_request (ws : pbns_recovery_live_workspace) (data : bytes) : pbns_recovery_live_workspace :=
  mk_live_workspace (lw_request_payload ws) (with_data (lw_signed_request ws) data) (lw_signed_manifest ws)
    (lw_signed_manifest_size ws) (lw_canonical_scratch ws) (lw_aad_scratch ws) (lw_frame ws) (lw_payload ws).
Definition with_signed_manifest (ws : pbns_recovery_live_workspace) (data : bytes) (size : Z)
  : pbns_recovery_live_workspace :=
  mk_live_workspace (lw_request_payload ws) (lw_signed_request ws) (with_data (lw_signed_manifest ws) data)
    size (lw_canonical_scratch ws) (lw_aad_scratch ws) (lw_frame ws) (lw_payload ws).
Definition with_canonical (ws : pbns_recovery_live_workspace) (data : bytes) : pbns_recovery_live_workspace :=
  mk_live_workspace (lw_request_payload ws) (lw_signed_request ws) (lw_signed_manifest ws)
    (lw_signed_manifest_size ws) (with_data (lw_canonical_scratch ws) data) (lw_aad_scratch ws) (lw_frame ws) (lw_payload ws).
Definition with_aad (ws : pbns_recovery_live_workspace) (data : bytes) : pbns_recovery_live_workspace :=
  mk_live_workspace (lw_request_payload ws) (lw_signed_request ws) (lw_signed_manifest ws)
    (lw_signed_manifest_size ws) (lw_canonical_scratch ws) (with_data (lw_aad_scratch ws) data) (lw_frame ws) (lw_payload ws).
Definition with_record (ws : pbns_recovery_live_workspace) (frame : pbns_frame) (payload : pbns_view)
  : pbns_recovery_live_workspace :=
  mk_live_workspace (lw_request_payload ws) (lw_signed_request ws) (lw_signed_manifest ws)
    (lw_signed_manifest_size ws) (lw_canonical_scratch ws) (lw_aad_scratch ws) frame payload.

(** ** Checks *)

Definition key_id_valid (key_id : pbns_view) : bool :=
  view_is_valid key_id && (0 <? v_len key_id) && (v_len key_id <=? PBNS_RECOVERY_MANIFEST_KEY_ID_MAX_SIZE).

Definition hash_ops_valid {W} (hash_ops : ptr (pbns_recovery_hash_ops W)) : bool :=
  match hash_ops with
  | Some (mk_hash_ops (Some _) (Some _) (Some _) (Some _)) => true
  | _ => false
  end.

Definition live_client_valid {W} (client : pbns_recovery_live_client W) : bool :=
  match client with
  | mk_live_client (Some _) (Some _) (Some _) (Some _) (Some _) (Some _) (Some _) (Some _) (Some _) hash_ops
      manifest_key_id policy_key_id =>
      hash_ops_valid hash_ops && key_id_valid manifest_key_id && key_id_valid policy_key_id
  | _ => false
  end.

Definition trusted_time_valid (trusted_time : pbns_time_interval) : bool :=
  (0 <=? ti_earliest_ns trusted_time) && (ti_earliest_ns trusted_time <=? ti_latest_ns trusted_time).

Definition pages_valid `{Machine} (pages : pbns_buffer) (expected_size : Z) : bool :=
  buffer_is_valid pages && negb (b_ptr pages =? 0) && (0 <? expected_size)
  && (expected_size <=? PBNS_RECOVERY_MANIFEST_IMAGE_MAX) && (expected_size <=? SIZE_MAX)
  && (b_cap pages =? expected_size).

Definition manifest_valid_for_artifact (m : pbns_recovery_manifest) : bool :=
  ct_nonzero (rm_request_id m) && ct_nonzero (rm_host_binding m) && ct_nonzero (rm_nonce m)
  && ct_nonzero (rm_artifact_digest m)
  && (0 <? rm_artifact_version m) && (rm_minimum_version m <=? rm_artifact_version m)
  && (0 <? rm_image_size m) && (rm_image_size m <=? PBNS_RECOVERY_MANIFEST_IMAGE_MAX)
  && (rm_chunk_size m =? PBNS_RECOVERY_MANIFEST_CHUNK_SIZE)
  && (0 <=? rm_not_before_ns m) && (rm_not_before_ns m <? rm_not_after_ns m)
  && view_is_valid (rm_policy_authorization m) && (0 <? v_len (rm_policy_authorization m))
  && (v_len (rm_policy_authorization m) <=? PBNS_RECOVERY_MANIFEST_POLICY_MAX_SIZE)
  && key_id_valid (rm_policy_key_id m).

Definition zeroed (buffer : pbns_buffer) : pbns_buffer := with_data buffer (replicate (length (b_data buffer)) 0).

Definition clear_transient (ws : pbns_recovery_live_workspace) : pbns_recovery_live_workspace :=
  mk_live_workspace (zeroed (lw_request_payload ws)) (zeroed (lw_signed_request ws)) (lw_signed_manifest ws)
    (lw_signed_manifest_size ws) (zeroed (lw_canonical_scratch ws)) (zeroed (lw_aad_scratch ws)) zero_frame null_view.

Definition clear_manifest (ws : pbns_recovery_live_workspace) : pbns_recovery_live_workspace :=
  mk_live_workspace (lw_request_payload ws) (lw_signed_request ws) (zeroed (lw_signed_manifest ws)) 0
    (lw_canonical_scratch ws) (lw_aad_scratch ws) (lw_frame ws) (lw_payload ws).

Definition view_in_manifest `{Machine} (ws : pbns_recovery_live_workspace) (view : pbns_view) : bool :=
  if negb (view_is_valid view) || (v_ptr view =? 0) || (v_len view =? 0) || (lw_signed_manifest_size ws =? 0) then false
  else
  let start := b_ptr (lw_signed_manifest ws) in
  let end_ := (start + lw_signed_manifest_size ws) mod (UINTPTR_MAX + 1) in
  let view_start := v_ptr view in
  if (end_ <? start) || (view_start <? start) || (end_ <? view_start) then false
  else v_len view <=? end_ - view_start.

(** ** The steps of an exchange *)

Definition live_step (W A : Type) : Type := step pbns_recovery_live_workspace W A.

Section live.
Context {W : Type} `{S : QCBORSpiffy} `{Machine}.
Variable client : pbns_recovery_live_client W.

Definition fill_nonzero (size : Z) : live_step W bytes := fun ws w =>
  random_fill ← lc_random_fill client;
  let '(status, output, w) := random_fill w (replicate (Z.to_nat size) 0) in
  if negb (is_ok status) then end_step status ws w
  else if ct_nonzero output then ret_step output ws w else end_step PBNS_ERR_ENTROPY ws w.

Definition encode_live_request (request : pbns_recovery_request) : live_step W Z := fun ws w =>
  let '(status, data, request_size) := recovery_request_encode request (lw_request_payload ws) in
  let ws := with_request_payload ws data in
  if negb (is_ok status) || (request_size =? 0) || (b_cap (lw_request_payload ws) <? request_size)
  then end_step (if is_ok status then PBNS_ERR_LIMIT else status) ws w
  else ret_step request_size ws w.

Definition sign_live_request (request_size : Z) : live_step W Z := fun ws w =>
  sign ← lc_sign_request client;
  payload ← rd_slice (b_data (lw_request_payload ws)) 0 request_size;
  let '(status, data, signed_size, w) := sign w payload PBNS_RECOVERY_REQUEST_AAD (b_data (lw_signed_request ws)) in
  let ws := with_signed_request ws data in
  if negb (is_ok status) then end_step status ws w
  else if (signed_size =? 0) || (b_cap (lw_signed_request ws) <? signed_size) then end_step PBNS_ERR_LIMIT ws w
  else ret_step signed_size ws w.

(** The request identifier, the nonce and the size of the signed request. *)
Definition build_signed_request (host_fingerprint : bytes) (operation : Z) (artifact_digest : ptr bytes)
  : live_step W (bytes * bytes * Z) :=
  let* request_id := fill_nonzero PBNS_RECOVERY_REQUEST_ID_SIZE in
  let* nonce := fill_nonzero PBNS_RECOVERY_REQUEST_NONCE_SIZE in
  let request := mk_recovery_request operation request_id host_fingerprint nonce
                   (default (replicate 32 0) artifact_digest) in
  let* request_size := encode_live_request request in
  let* signed_size := sign_live_request request_size in
  ret_step (request_id, nonce, signed_size).

(** ** The manifest *)

Definition exchange_manifest (request_id : bytes) (signed_request_size : Z) : live_step W unit := fun ws w =>
  exchange ← lc_manifest_exchange client;
  signed_request ← rd_slice (b_data (lw_signed_request ws)) 0 signed_request_size;
  let '(status, data, size, w) := exchange w request_id signed_request (b_data (lw_signed_manifest ws)) in
  let received := with_signed_manifest ws data (lw_signed_manifest_size ws) in
  if negb (is_ok status) then end_step status received w
  else if (size =? 0) || (b_cap (lw_signed_manifest received) <? size) then end_step PBNS_ERR_LIMIT received w
  else ret_step tt (with_signed_manifest ws data size) w.

Definition live_expectation (request_id host_fingerprint nonce : bytes) (trusted_time : pbns_time_interval)
  : pbns_recovery_manifest_expectation :=
  mk_expectation request_id host_fingerprint nonce (lc_manifest_key_id client) (lc_policy_key_id client) 0 trusted_time.

Definition make_manifest_aad (e : pbns_recovery_manifest_expectation) : live_step W Z := fun ws w =>
  '(status, data, aad_size) ← manifest_aad e (lw_aad_scratch ws);
  let ws := with_aad ws data in
  if negb (is_ok status) || (aad_size =? 0) || (b_cap (lw_aad_scratch ws) <? aad_size)
  then end_step (if is_ok status then PBNS_ERR_LIMIT else status) ws w
  else ret_step aad_size ws w.

Definition verify_manifest (aad_size : Z) : live_step W pbns_view := fun ws w =>
  verify ← lc_verify_manifest client;
  message ← rd_slice (b_data (lw_signed_manifest ws)) 0 (lw_signed_manifest_size ws);
  aad ← rd_slice (b_data (lw_aad_scratch ws)) 0 aad_size;
  let '(status, verified_payload, w) := verify w (mk_view (b_ptr (lw_signed_manifest ws)) message) aad in
  if negb (is_ok status) then end_step status ws w
  else if negb (view_in_manifest ws verified_payload) then end_step PBNS_ERR_AUTHENTICATION ws w
  else ret_step verified_payload ws w.

Definition decode_live_manifest (e : pbns_recovery_manifest_expectation) (verified_payload : pbns_view)
  : live_step W pbns_recovery_manifest := fun ws w =>
  let '(status, data, m) := manifest_decode_verified verified_payload e (lw_canonical_scratch ws) in
  let ws := with_canonical ws data in
  if negb (is_ok status) then end_step status ws w else ret_step m ws w.

Definition live_manifest_body (host_fingerprint : bytes) (trusted_time : pbns_time_interval)
  : live_step W pbns_recovery_manifest :=
  let* (request_id, nonce, signed_request_size) :=
    build_signed_request host_fingerprint PBNS_RECOVERY_OPERATION_MANIFEST None in
  let* _ := exchange_manifest request_id signed_request_size in
  let expectation := live_expectation request_id host_fingerprint nonce trusted_time in
  let* aad_size := make_manifest_aad expectation in
  let* verified_payload := verify_manifest aad_size in
  decode_live_manifest expectation verified_payload.

Definition live_manifest (host_fingerprint : bytes) (trusted_time : pbns_time_interval)
    (ws : pbns_recovery_live_workspace) (w : W)
  : option (pbns_status * pbns_recovery_manifest * pbns_recovery_live_workspace * W) :=
  if negb (live_client_valid client) || negb (ct_nonzero host_fingerprint) || negb (trusted_time_valid trusted_time)
  then Some (PBNS_ERR_ARGUMENT, zero_manifest, ws, w)
  else
  match live_manifest_body host_fingerprint trusted_time (clear_manifest (clear_transient ws)) w with
  | None => None
  | Some (inl status, ws, w) => Some (status, zero_manifest, clear_manifest (clear_transient ws), w)
  | Some (inr m, ws, w) => Some (PBNS_OK, m, clear_transient ws, w)
  end.

(** ** The image *)

(** The loop that receives records: the status, the stream, whether the transfer
    is still active, the workspace and the world.  [fuel] bounds the number of
    records. *)
Fixpoint receive_records (fuel : nat) (stream : pbns_recovery_stream W) (ws : pbns_recovery_live_workspace) (w : W)
  : option (pbns_status * pbns_recovery_stream W * bool * pbns_recovery_live_workspace * W) :=
  match fuel with
  | O => None
  | Datatypes.S fuel =>
      bulk_receive ← lc_bulk_receive client;
      let '(status, frame, payload, w) := bulk_receive w zero_frame null_view in
      let ws := with_record ws frame payload in
      if negb (is_ok status) || negb (view_is_valid payload)
      then Some (if is_ok status then PBNS_ERR_FORMAT else status, stream, true, ws, w)
      else if f_type frame =? PBNS_MESSAGE_COMPLETE then
        '(status, stream, w) ← recovery_complete stream frame payload w;
        if negb (is_ok status) then Some (status, stream, true, ws, w)
        else
        bulk_finish ← lc_bulk_finish client;
        let '(status, w) := bulk_finish w in
        Some (status, stream, false, ws, w)
      else
        '(status, stream, ack, w) ← recovery_accept stream frame payload w;
        if negb (is_ok status) then Some (status, stream, true, ws, w)
        else if ra_required ack then
          bulk_ack ← lc_bulk_ack client;
          let '(status, w) := bulk_ack w (ra_next_sequence ack) (ra_window ack) in
          if negb (is_ok status) then Some (status, stream, true, ws, w) else receive_records fuel stream ws w
        else receive_records fuel stream ws w
  end.

(** The transfer, from [bulk_begin]. *)
Definition receive_image (m : pbns_recovery_manifest) (request_id : bytes) (signed_request_size : Z)
    (stream : pbns_recovery_stream W) (ws : pbns_recovery_live_workspace) (w : W)
  : option (pbns_status * pbns_recovery_stream W * bool * pbns_recovery_live_workspace * W) :=
  bulk_begin ← lc_bulk_begin client;
  signed_request ← rd_slice (b_data (lw_signed_request ws)) 0 signed_request_size;
  let '(status, w) := bulk_begin w request_id signed_request (rm_image_size m) in
  if negb (is_ok status) then Some (status, stream, false, ws, w)
  else receive_records (Z.to_nat (rm_image_size m / PBNS_RECOVERY_MANIFEST_CHUNK_SIZE) + 2) stream ws w.

(** The cleanup after the stream was set up: the octets of the pages and the world. *)
Definition finish_stream (status : pbns_status) (stream : pbns_recovery_stream W) (bulk_active : bool) (w : W)
  : option (bytes * W) :=
  if negb (is_ok status) then
    '(_, pages, w) ← recovery_reset stream w;
    if bulk_active then bulk_cancel ← lc_bulk_cancel client; let '(_, w) := bulk_cancel w in Some (pages, w)
    else Some (pages, w)
  else Some (rc_page_data stream, w).

(** The status, the octets of the pages, the workspace and the world. *)
Definition live_artifact (m : pbns_recovery_manifest) (exact_pages : pbns_buffer) (ws : pbns_recovery_live_workspace) (w : W)
  : option (pbns_status * bytes * pbns_recovery_live_workspace * W) :=
  if negb (live_client_valid client) || negb (manifest_valid_for_artifact m)
     || negb (pages_valid exact_pages (rm_image_size m))
  then Some (PBNS_ERR_ARGUMENT, b_data exact_pages, ws, w)
  else
  let wiped := replicate (length (b_data exact_pages)) 0 in
  match build_signed_request (rm_host_binding m) PBNS_RECOVERY_OPERATION_ARTIFACT (Some (rm_artifact_digest m))
          (clear_transient ws) w with
  | None => None
  | Some (inl status, ws, w) => Some (status, wiped, clear_transient ws, w)
  | Some (inr (request_id, _, signed_request_size), ws, w) =>
      let '(status, stream, w) :=
        recovery_stream_init request_id exact_pages (Some (rm_artifact_digest m)) (lc_hash_ops client) w in
      if negb (is_ok status) then Some (status, wiped, clear_transient ws, w)
      else
      '(status, stream, bulk_active, ws, w) ← receive_image m request_id signed_request_size stream ws w;
      '(pages, w) ← finish_stream status stream bulk_active w;
      Some (status, pages, clear_transient ws, w)
  end.
End live.

(** ** The entry points *)

Definition pbns_recovery_live_manifest {W} `{S : QCBORSpiffy} `{Machine} (client : ptr (pbns_recovery_live_client W))
    (host_fingerprint : ptr bytes) (trusted_time : ptr pbns_time_interval) (workspace : ptr pbns_recovery_live_workspace)
    (manifest : ptr pbns_recovery_manifest) (w : W)
  : option (pbns_status * ptr pbns_recovery_manifest * ptr pbns_recovery_live_workspace * W) :=
  match client, host_fingerprint, trusted_time, workspace, manifest with
  | Some client, Some host_fingerprint, Some trusted_time, Some ws, Some _ =>
      '(status, m, ws, w) ← live_manifest client host_fingerprint trusted_time ws w; Some (status, Some m, Some ws, w)
  | _, _, _, _, _ => Some (PBNS_ERR_ARGUMENT, (fun _ => zero_manifest) <$> manifest, workspace, w)
  end.

Definition pbns_recovery_live_artifact {W} `{Q : QCBOR} `{Machine} (client : ptr (pbns_recovery_live_client W))
    (manifest : ptr pbns_recovery_manifest) (exact_pages : pbns_buffer) (workspace : ptr pbns_recovery_live_workspace) (w : W)
  : option (pbns_status * bytes * ptr pbns_recovery_live_workspace * W) :=
  match client, manifest, workspace with
  | Some client, Some m, Some ws =>
      '(status, pages, ws, w) ← live_artifact client m exact_pages ws w; Some (status, pages, Some ws, w)
  | _, _, _ => Some (PBNS_ERR_ARGUMENT, b_data exact_pages, workspace, w)
  end.
