(* ===== verification/LiveProps.v ===== *)
(** * The recovery exchange: correctness

    The callbacks are used through the interface [LiveLaws].  An exchange always
    returns; a manifest is handed out only when the gateway's answer to a fresh,
    signed request was verified and bound to it; an image stays in the pages only
    when its digest is the one of the manifest, and every other end zeroes the
    pages and the workspace. *)

From stdpp Require Import base list numbers.
From Stdlib Require Import ZArith Lia.
From S2P Require Import Prelude Endian Status Step Buffers Frame Cbor CborTree Compare TrustedTime TimeQuery RecoveryStream RecoveryRequest RecoveryManifest ManifestProps RecoveryLive.

(** ** The services, as the exchange relies on them *)

Record live_services (W : Type) := mk_live_services {
  ls_random : W -> bytes -> pbns_status * bytes * W;
  ls_sign : W -> bytes -> bytes -> bytes -> pbns_status * bytes * Z * W;
  ls_exchange : W -> bytes -> bytes -> bytes -> pbns_status * bytes * Z * W;
  ls_verify : W -> pbns_view -> bytes -> pbns_status * pbns_view * W;
  ls_begin : W -> bytes -> bytes -> Z -> pbns_status * W;
  ls_receive : W -> pbns_frame -> pbns_view -> pbns_status * pbns_frame * pbns_view * W;
  ls_ack : W -> Z -> Z -> pbns_status * W;
  ls_finish : W -> pbns_status * W;
  ls_cancel : W -> pbns_status * W;
  ls_hash : hash W;
}.
Arguments mk_live_services {W}.
Arguments ls_random {W}.
Arguments ls_sign {W}.
Arguments ls_exchange {W}.
Arguments ls_verify {W}.
Arguments ls_begin {W}.
Arguments ls_receive {W}.
Arguments ls_ack {W}.
Arguments ls_finish {W}.
Arguments ls_cancel {W}.
Arguments ls_hash {W}.

Definition live_client_of {W} (sv : live_services W) (manifest_key policy_key : pbns_view) : pbns_recovery_live_client W :=
  mk_live_client (Some (ls_random sv)) (Some (ls_sign sv)) (Some (ls_exchange sv)) (Some (ls_verify sv))
    (Some (ls_begin sv)) (Some (ls_receive sv)) (Some (ls_ack sv)) (Some (ls_finish sv)) (Some (ls_cancel sv))
    (Some (ops_of (ls_hash sv))) manifest_key policy_key.

(** Buffers keep their size, unsigned results are not negative, and the transfer
    does not feed the hash: the client does. *)
Class LiveLaws {W} (sv : live_services W) (digest_of : bytes -> bytes) := {
  live_random_keeps w buf st out w' : ls_random sv w buf = (st, out, w') -> length out = length buf;
  live_sign_keeps w payload aad buf st out n w' :
    ls_sign sv w payload aad buf = (st, out, n, w') -> length out = length buf /\ 0 <= n;
  live_exchange_keeps w id message buf st out n w' :
    ls_exchange sv w id message buf = (st, out, n, w') -> length out = length buf /\ 0 <= n;
  live_begin_hash w id message size w' :
    ls_begin sv w id message size = (PBNS_OK, w') -> h_absorbed (ls_hash sv) w' = h_absorbed (ls_hash sv) w;
  live_receive_hash w frame payload frame' payload' w' :
    ls_receive sv w frame payload = (PBNS_OK, frame', payload', w') -> h_absorbed (ls_hash sv) w' = h_absorbed (ls_hash sv) w;
  live_ack_hash w next window w' :
    ls_ack sv w next window = (PBNS_OK, w') -> h_absorbed (ls_hash sv) w' = h_absorbed (ls_hash sv) w;
  live_hash :: HashLaws (ls_hash sv) digest_of;
}.

(** ** The workspace *)

Definition live_same (ws ws' : pbns_recovery_live_workspace) : Prop :=
  same_buffer (lw_request_payload ws) (lw_request_payload ws') /\ same_buffer (lw_signed_request ws) (lw_signed_request ws')
  /\ same_buffer (lw_signed_manifest ws) (lw_signed_manifest ws')
  /\ same_buffer (lw_canonical_scratch ws) (lw_canonical_scratch ws') /\ same_buffer (lw_aad_scratch ws) (lw_aad_scratch ws').

#[export] Instance live_same_preorder : PreOrder live_same.
Proof.
  split; [done|]. unfold live_same. intros a b c (? & ? & ? & ? & ?) (? & ? & ? & ? & ?).
  split_and!; etransitivity; eassumption.
Qed.

(** An array of the workspace: it has an address and a size. *)
Definition array_ok (b : pbns_buffer) (size : Z) : Prop := b_ptr b <> 0 /\ b_len b = 0 /\ b_cap b = size.

Definition live_workspace_ok (ws : pbns_recovery_live_workspace) : Prop :=
  array_ok (lw_request_payload ws) PBNS_RECOVERY_REQUEST_ENCODED_MAX_SIZE
  /\ array_ok (lw_signed_request ws) PBNS_RECOVERY_LIVE_SIGNED_REQUEST_MAX_SIZE
  /\ array_ok (lw_signed_manifest ws) PBNS_RECOVERY_MANIFEST_SIGNED_MAX_SIZE
  /\ array_ok (lw_canonical_scratch ws) PBNS_RECOVERY_MANIFEST_ENCODED_MAX_SIZE
  /\ array_ok (lw_aad_scratch ws) PBNS_RECOVERY_MANIFEST_AAD_MAX_SIZE.

Lemma array_same b b' size : same_buffer b b' -> array_ok b size -> array_ok b' size.
Proof. unfold same_buffer, array_ok, b_cap. intros (-> & -> & ->). done. Qed.

Lemma live_same_ok ws ws' : live_same ws ws' -> live_workspace_ok ws -> live_workspace_ok ws'.
Proof.
  intros (S1 & S2 & S3 & S4 & S5) (H1 & H2 & H3 & H4 & H5). unfold live_workspace_ok.
  split_and!; by eapply array_same.
Qed.

Definition all_zero (b : pbns_buffer) : Prop := Forall (fun x => x = 0) (b_data b).

(** Nothing but the signed manifest is left. *)
Definition transient_clear (ws : pbns_recovery_live_workspace) : Prop :=
  all_zero (lw_request_payload ws) /\ all_zero (lw_signed_request ws) /\ all_zero (lw_canonical_scratch ws)
  /\ all_zero (lw_aad_scratch ws) /\ lw_frame ws = zero_frame /\ lw_payload ws = null_view.

Definition manifest_clear (ws : pbns_recovery_live_workspace) : Prop :=
  all_zero (lw_signed_manifest ws) /\ lw_signed_manifest_size ws = 0.

Lemma zeroed_clear b : all_zero (zeroed b).
Proof. unfold all_zero, zeroed. cbn. by apply Forall_replicate. Qed.

Lemma zeroed_same b : same_buffer b (zeroed b).
Proof. unfold same_buffer, zeroed. cbn. by rewrite length_replicate. Qed.

Lemma clear_transient_spec ws : transient_clear (clear_transient ws) /\ live_same ws (clear_transient ws)
  /\ lw_signed_manifest (clear_transient ws) = lw_signed_manifest ws
  /\ lw_signed_manifest_size (clear_transient ws) = lw_signed_manifest_size ws.
Proof.
  unfold transient_clear, live_same, clear_transient. cbn. split_and!; try done; auto using zeroed_clear, zeroed_same.
Qed.

Lemma clear_manifest_spec ws : transient_clear ws -> transient_clear (clear_manifest ws) /\ manifest_clear (clear_manifest ws)
  /\ live_same ws (clear_manifest ws).
Proof.
  intros (H1 & H2 & H3 & H4 & H5 & H6). unfold transient_clear, manifest_clear, live_same, clear_manifest. cbn.
  split_and!; try done; auto using zeroed_clear, zeroed_same.
Qed.

(** ** The steps *)

(** A signed request: fresh random numbers, the canonical encoding, and the
    octets that the signer gave for it. *)
Definition requested {W} (sv : live_services W) (w : W) (operation : Z) (host digest id nonce signed : bytes) (w' : W) : Prop :=
  exists w1 w2 buf out n,
    ls_random sv w (replicate 16 0) = (PBNS_OK, id, w1) /\ ls_random sv w1 (replicate 32 0) = (PBNS_OK, nonce, w2)
    /\ length id = 16%nat /\ length nonce = 32%nat
    /\ request_valid (mk_recovery_request operation id host nonce digest) = true
    /\ ls_sign sv w2 (request_encoded (mk_recovery_request operation id host nonce digest)) PBNS_RECOVERY_REQUEST_AAD buf
       = (PBNS_OK, out, n, w')
    /\ 0 < n <= zlen out /\ signed = take (Z.to_nat n) out.

Notation wpL := (wp_step live_same).

Section steps.
Context {W : Type} `{Sp : QCBORSpiffy} `{M : Machine} (sv : live_services W) {digest_of : bytes -> bytes}
  `{!LiveLaws sv digest_of}.
Variables (key policy : pbns_view).
Notation client := (live_client_of sv key policy).

Lemma wp_fill_nonzero size ws w :
  wpL (fill_nonzero client size) ws w (fun output ws' w' =>
    ws' = ws /\ length output = Z.to_nat size /\ ct_nonzero output = true
    /\ ls_random sv w (replicate (Z.to_nat size) 0) = (PBNS_OK, output, w')).
Proof.
  unfold wp_step, fill_nonzero. cbn [live_client_of lc_random_fill mbind option_bind].
  destruct (ls_random sv w (replicate (Z.to_nat size) 0)) as [[st out] w1] eqn:E.
  pose proof (live_random_keeps _ _ _ _ _ E) as Hl. rewrite length_replicate in Hl.
  destruct (is_ok st) eqn:Hst; cbn [negb]; [|exists (inl st), ws, w1; split; [done|]; split; [done|by apply not_ok_neq]].
  apply is_ok_spec in Hst as ->. destruct (ct_nonzero out) eqn:Hn.
  - exists (inr out), ws, w1. done.
  - exists (inl PBNS_ERR_ENTROPY), ws, w1. done.
Qed.

Lemma wp_encode_live_request r ws w :
  live_workspace_ok ws -> request_sized r ->
  wp_step (W := W) live_same (encode_live_request r) ws w (fun size ws' w' =>
    w' = w /\ request_valid r = true /\ 0 < size <= b_cap (lw_request_payload ws')
    /\ take (Z.to_nat size) (b_data (lw_request_payload ws')) = request_encoded r).
Proof.
  intros ((Hp & Hl & Hc) & _) Hr. unfold wp_step, encode_live_request.
  destruct (recovery_request_encode r (lw_request_payload ws)) as [[st data] size] eqn:E.
  assert (Hfacts : length data = length (b_data (lw_request_payload ws))
    /\ (st = PBNS_OK -> request_valid r = true /\ take (Z.to_nat size) data = request_encoded r)).
  { unfold recovery_request_encode in E. destruct (negb (buffer_is_valid _)); [by injection E as <- <- <-|].
    destruct (request_valid r) eqn:Hv; cbn [negb] in E; [|by injection E as <- <- <-]. rewrite Hc in E.
    change (PBNS_RECOVERY_REQUEST_ENCODED_MAX_SIZE <? PBNS_RECOVERY_REQUEST_ENCODED_MAX_SIZE) with false in E.
    destruct (request_encode_unchecked r _) as [[st1 data1] size1] eqn:E1. injection E as <- <- <-.
    apply request_encode_spec in E1 as (Hl1 & Hok & _). unfold b_cap in Hc. rewrite length_take in Hl1.
    split; [rewrite length_app, length_drop; lia|]. intros Hst. destruct (Hok Hst) as [-> Htk]. split; [done|].
    rewrite take_app_le; [done|]. rewrite <- Htk at 1. rewrite length_take. lia. }
  destruct Hfacts as [Hlen Hok]. set (ws1 := with_request_payload ws data).
  assert (Hsame : live_same ws ws1) by (unfold live_same, ws1; cbn; split_and!; done).
  cbn zeta. fold ws1. destruct (is_ok st) eqn:Hst; cbn [negb orb].
  2:{ exists (inl st), ws1, w. split; [done|]. split; [done|by apply not_ok_neq]. }
  apply is_ok_spec in Hst. destruct (Hok Hst) as [Hv Htk].
  destruct (Z.eqb_spec size 0); cbn [orb]; [by exists (inl PBNS_ERR_LIMIT), ws1, w|].
  destruct (Z.ltb_spec (b_cap (lw_request_payload ws1)) size); [by exists (inl PBNS_ERR_LIMIT), ws1, w|].
  exists (inr size), ws1, w. split; [done|]. split; [done|]. split; [done|]. split; [done|]. split; [|done].
  pose proof (request_encoded_length r Hr Hv) as Hel. rewrite <- Htk, length_take in Hel. unfold request_encoded_size in Hel. lia.
Qed.

Lemma wp_sign_live_request size ws w :
  0 <= size <= b_cap (lw_request_payload ws) ->
  wpL (sign_live_request client size) ws w (fun n ws' w' =>
    ls_sign sv w (take (Z.to_nat size) (b_data (lw_request_payload ws))) PBNS_RECOVERY_REQUEST_AAD
      (b_data (lw_signed_request ws)) = (PBNS_OK, b_data (lw_signed_request ws'), n, w')
    /\ 0 < n <= b_cap (lw_signed_request ws')).
Proof.
  intros Hs. unfold wp_step, sign_live_request. cbn [live_client_of lc_sign_request mbind option_bind].
  unfold b_cap in Hs. rewrite rd_slice_inside by lia. cbn [mbind option_bind]. unfold slice. rewrite drop_0.
  destruct (ls_sign sv w _ _ _) as [[[st data] n] w1] eqn:E.
  destruct (live_sign_keeps _ _ _ _ _ _ _ _ E) as [Hl Hn]. set (ws1 := with_signed_request ws data).
  assert (Hsame : live_same ws ws1) by (unfold live_same, ws1; cbn; split_and!; done).
  cbn zeta. fold ws1. destruct (is_ok st) eqn:Hst; cbn [negb];
    [|exists (inl st), ws1, w1; split; [done|]; split; [done|by apply not_ok_neq]].
  apply is_ok_spec in Hst as ->. destruct (Z.eqb_spec n 0); cbn [orb]; [by exists (inl PBNS_ERR_LIMIT), ws1, w1|].
  destruct (Z.ltb_spec (b_cap (lw_signed_request ws1)) n); [by exists (inl PBNS_ERR_LIMIT), ws1, w1|].
  exists (inr n), ws1, w1. split; [done|]. split; [done|]. split; [done|]. lia.
Qed.

Lemma wp_build_signed_request host op digest ws w :
  live_workspace_ok ws -> length host = 32%nat -> length (default (replicate 32 0) digest) = 32%nat ->
  wpL (build_signed_request client host op digest) ws w (fun '(id, nonce, n) ws' w' =>
    0 < n <= b_cap (lw_signed_request ws')
    /\ requested sv w op host (default (replicate 32 0) digest) id nonce
         (take (Z.to_nat n) (b_data (lw_signed_request ws'))) w').
Proof.
  intros Hok Hh Hd. unfold build_signed_request.
  eapply (wps_bind live_same); [apply wp_fill_nonzero|]. intros id ws1 w1 _ (-> & L1 & N1 & R1).
  eapply (wps_bind live_same); [apply wp_fill_nonzero|]. intros nonce ws2 w2 _ (-> & L2 & N2 & R2).
  cbn zeta. set (r := mk_recovery_request op id host nonce _).
  eapply (wps_bind live_same); [apply wp_encode_live_request; [done|by unfold request_sized, r]|].
  intros size ws3 w3 _ (-> & Hv & Hs & Htk).
  eapply (wps_bind live_same); [apply wp_sign_live_request; lia|]. intros n ws4 w4 _ (Hsign & Hn). rewrite Htk in Hsign.
  eapply (wps_ret live_same); [reflexivity|done|]. split; [done|].
  exists w1, w2, (b_data (lw_signed_request ws3)), (b_data (lw_signed_request ws4)), n. split_and!; try done; unfold b_cap in Hn; lia.
Qed.

(** *** The manifest *)

Lemma wp_exchange_manifest id n ws w :
  0 <= n <= b_cap (lw_signed_request ws) ->
  wpL (exchange_manifest client id n) ws w (fun _ ws' w' =>
    ls_exchange sv w id (take (Z.to_nat n) (b_data (lw_signed_request ws))) (b_data (lw_signed_manifest ws))
      = (PBNS_OK, b_data (lw_signed_manifest ws'), lw_signed_manifest_size ws', w')
    /\ 0 < lw_signed_manifest_size ws' <= b_cap (lw_signed_manifest ws')).
Proof.
  intros Hs. unfold wp_step, exchange_manifest. cbn [live_client_of lc_manifest_exchange mbind option_bind].
  unfold b_cap in Hs. rewrite rd_slice_inside by lia. cbn [mbind option_bind]. unfold slice. rewrite drop_0.
  destruct (ls_exchange sv w id _ _) as [[[st data] size] w1] eqn:E.
  destruct (live_exchange_keeps _ _ _ _ _ _ _ _ E) as [Hl Hn].
  assert (Hsame : forall k, live_same ws (with_signed_manifest ws data k)) by (intros k; unfold live_same; cbn; split_and!; done).
  cbn zeta. destruct (is_ok st) eqn:Hst; cbn [negb];
    [|eexists (inl st), _, w1; split; [done|]; split; [apply Hsame|by apply not_ok_neq]].
  apply is_ok_spec in Hst as ->. destruct (Z.eqb_spec size 0); cbn [orb]; [eexists (inl PBNS_ERR_LIMIT), _, w1; by split_and!|].
  destruct (Z.ltb_spec (b_cap (lw_signed_manifest (with_signed_manifest ws data (lw_signed_manifest_size ws)))) size);
    [eexists (inl PBNS_ERR_LIMIT), _, w1; by split_and!|].
  eexists (inr tt), _, w1. split; [done|]. split; [apply Hsame|]. cbn. split; [done|].
  unfold b_cap in *. cbn in *. lia.
Qed.

Lemma wp_make_manifest_aad e ws w :
  expectation_sized e ->
  wp_step (W := W) live_same (make_manifest_aad e) ws w (fun size ws' w' =>
    w' = w /\ lw_signed_manifest ws' = lw_signed_manifest ws /\ lw_signed_manifest_size ws' = lw_signed_manifest_size ws
    /\ 0 < size <= b_cap (lw_aad_scratch ws')
    /\ take (Z.to_nat size) (b_data (lw_aad_scratch ws')) = manifest_aad_octets e).
Proof.
  intros He. unfold wp_step, make_manifest_aad.
  destruct (manifest_aad_spec e (lw_aad_scratch ws) He) as (st & data & size & -> & Hl & Hok & _). cbn [mbind option_bind].
  set (ws1 := with_aad ws data). assert (Hsame : live_same ws ws1) by (unfold live_same, ws1; cbn; split_and!; done).
  cbn zeta. fold ws1. destruct (is_ok st) eqn:Hst; cbn [negb orb];
    [|exists (inl st), ws1, w; split; [done|]; split; [done|by apply not_ok_neq]].
  apply is_ok_spec in Hst. destruct (Hok Hst) as [Hs Htk].
  destruct (Z.eqb_spec size 0); cbn [orb]; [by exists (inl PBNS_ERR_LIMIT), ws1, w|].
  destruct (Z.ltb_spec (b_cap (lw_aad_scratch ws1)) size); [by exists (inl PBNS_ERR_LIMIT), ws1, w|].
  exists (inr size), ws1, w. split; [done|]. split; [done|]. split_and!; try done. lia.
Qed.

(** The octets the gateway answered with. *)
Definition received (ws : pbns_recovery_live_workspace) : pbns_view :=
  mk_view (b_ptr (lw_signed_manifest ws))
    (take (Z.to_nat (lw_signed_manifest_size ws)) (b_data (lw_signed_manifest ws))).

Lemma wp_verify_manifest size ws w :
  0 < lw_signed_manifest_size ws <= b_cap (lw_signed_manifest ws) -> 0 <= size <= b_cap (lw_aad_scratch ws) ->
  wpL (verify_manifest client size) ws w (fun payload ws' w' =>
    ws' = ws /\ view_in_manifest ws payload = true
    /\ ls_verify sv w (received ws) (take (Z.to_nat size) (b_data (lw_aad_scratch ws))) = (PBNS_OK, payload, w')).
Proof.
  intros Hm Hs. unfold wp_step, verify_manifest, b_cap in *. cbn [live_client_of lc_verify_manifest mbind option_bind].
  rewrite !rd_slice_inside by lia. cbn [mbind option_bind]. unfold slice. rewrite !drop_0. fold (received ws).
  destruct (ls_verify sv w (received ws) _) as [[st payload] w1] eqn:E.
  destruct (is_ok st) eqn:Hst; cbn [negb]; [|exists (inl st), ws, w1; split; [done|]; split; [done|by apply not_ok_neq]].
  apply is_ok_spec in Hst as ->.
  destruct (view_in_manifest ws payload) eqn:Hin; cbn [negb]; [by exists (inr payload), ws, w1|].
  by exists (inl PBNS_ERR_AUTHENTICATION), ws, w1.
Qed.

Lemma wp_decode_live_manifest e payload ws w :
  expectation_sized e ->
  wp_step (W := W) live_same (decode_live_manifest e payload) ws w (fun m ws' w' =>
    w' = w /\ lw_signed_manifest ws' = lw_signed_manifest ws /\ lw_signed_manifest_size ws' = lw_signed_manifest_size ws
    /\ manifest_accepted m (v_data payload) e).
Proof.
  intros He. unfold wp_step, decode_live_manifest.
  destruct (manifest_decode_verified payload e (lw_canonical_scratch ws)) as [[st data] m] eqn:E.
  apply decode_verified_result in E as (Hl & _ & Hok); [|done]. set (ws1 := with_canonical ws data).
  assert (Hsame : live_same ws ws1) by (unfold live_same, ws1; cbn; split_and!; done).
  cbn zeta. fold ws1. destruct (is_ok st) eqn:Hst; cbn [negb];
    [|exists (inl st), ws1, w; split; [done|]; split; [done|by apply not_ok_neq]].
  apply is_ok_spec in Hst. exists (inr m), ws1, w. split; [done|]. split; [done|]. split_and!; try done. auto.
Qed.

(** What stands behind a manifest that was handed out. *)
Definition manifest_obtained (host : bytes) (time : pbns_time_interval) (w : W) (m : pbns_recovery_manifest)
    (ws : pbns_recovery_live_workspace) (w' : W) : Prop :=
  exists id nonce signed w1 w2 buf payload,
    let e := live_expectation client id host nonce time in
    requested sv w PBNS_RECOVERY_OPERATION_MANIFEST host (replicate 32 0) id nonce signed w1
    /\ ls_exchange sv w1 id signed buf = (PBNS_OK, b_data (lw_signed_manifest ws), lw_signed_manifest_size ws, w2)
    /\ 0 < lw_signed_manifest_size ws <= b_cap (lw_signed_manifest ws)
    /\ ls_verify sv w2 (received ws) (manifest_aad_octets e) = (PBNS_OK, payload, w')
    /\ view_in_manifest ws payload = true /\ manifest_accepted m (v_data payload) e.

Lemma wp_live_manifest_body host time ws w :
  live_workspace_ok ws -> length host = 32%nat ->
  wpL (live_manifest_body client host time) ws w (manifest_obtained host time w).
Proof.
  intros Hok Hh. unfold live_manifest_body.
  eapply (wps_bind live_same); [apply wp_build_signed_request; [done|done|done]|].
  intros [[id nonce] n] ws1 w1 Hs1 (Hn & Hreq).
  assert (Hid : length id = 16%nat /\ length nonce = 32%nat) by (destruct Hreq as (? & ? & ? & ? & ? & _ & _ & ? & ? & _); done).
  eapply (wps_bind live_same); [apply wp_exchange_manifest; lia|]. intros _ ws2 w2 Hs2 (Hex & Hsz). cbn zeta.
  set (e := live_expectation client id host nonce time).
  assert (He : expectation_sized e) by (unfold expectation_sized, e; cbn; tauto).
  eapply (wps_bind live_same); [by apply wp_make_manifest_aad|]. intros asize ws3 w3 Hs3 (-> & Em & Es & Ha & Haad).
  eapply (wps_bind live_same); [apply wp_verify_manifest; [by rewrite Em, Es|lia]|]. intros payload ws4 w4 _ (-> & Hin & Hver).
  eapply (wps_mono live_same); [by apply wp_decode_live_manifest|]. intros m ws5 w5 _ (-> & Em' & Es' & Hacc).
  rewrite Haad in Hver. unfold received in Hver. unfold view_in_manifest in Hin. rewrite Em, Es in Hin, Hver.
  exists id, nonce, (take (Z.to_nat n) (b_data (lw_signed_request ws1))), w1, w2, (b_data (lw_signed_manifest ws1)), payload.
  cbn zeta. fold e. unfold received, view_in_manifest. rewrite Em', Es', Em, Es. split_and!; try done; lia.
Qed.
End steps.

(** C8: a recovery manifest is obtained through one verified exchange, or not at
    all.  The operation always returns.  Arguments that are refused change
    nothing.  Otherwise the workspace keeps no request, scratch or record data,
    and a failure also zeroes the answer of the gateway and the manifest.
    Success means: a request for a manifest, made of fresh random numbers that
    are not zero, was encoded and signed; the gateway answered it; the verifier
    vouched for a payload that lies inside the answer, over data that binds the
    request, the host and the pinned key; and the manifest is the one encoded
    there, valid for the trusted time.  The answer stays in the workspace. *)
Theorem live_manifest_contract {W : Type} `{Sp : QCBORSpiffy} `{M : Machine} (sv : live_services W)
    (digest_of : bytes -> bytes) `{L : !LiveLaws sv digest_of} (key policy : pbns_view) (host : bytes)
    (time : pbns_time_interval) (ws : pbns_recovery_live_workspace) (w : W) :
  live_workspace_ok ws -> length host = 32%nat ->
  exists st m ws' w', live_manifest (live_client_of sv key policy) host time ws w = Some (st, m, ws', w')
  /\ live_same ws ws'
  /\ (st <> PBNS_OK -> m = zero_manifest /\ (ws' = ws /\ w' = w \/ transient_clear ws' /\ manifest_clear ws'))
  /\ (st = PBNS_OK -> transient_clear ws' /\ manifest_obtained sv key policy host time w m ws' w').
Proof.
  intros Hok Hh. unfold live_manifest.
  destruct (_ || negb (trusted_time_valid time)).
  { eexists _, _, ws, w. split; [done|]. split; [done|]. split; [|done]. intros _. split; [done|]. by left. }
  destruct (clear_transient_spec ws) as (T0 & S0 & _). destruct (clear_manifest_spec _ T0) as (_ & _ & S1).
  set (ws0 := clear_manifest (clear_transient ws)) in *.
  assert (Hs0 : live_same ws ws0) by (by etransitivity).
  destruct (wp_live_manifest_body sv key policy host time ws0 w (live_same_ok _ _ Hs0 Hok) Hh) as (r & ws1 & w1 & -> & Hs1 & Hr).
  destruct (clear_transient_spec ws1) as (T2 & S2 & E2 & E3). destruct r as [st|m].
  - destruct (clear_manifest_spec _ T2) as (T3 & C3 & S3). eexists _, _, _, _. split; [done|].
    split; [do 3 (etransitivity; [eassumption|]); done|]. split; [|done]. intros _. split; [done|]. by right.
  - eexists _, _, _, _. split; [done|]. split; [do 2 (etransitivity; [eassumption|]); done|]. split; [done|]. intros _.
    split; [done|]. unfold manifest_obtained, received, view_in_manifest in *. rewrite E2, E3. exact Hr.
Qed.

(** ** The image *)

Section image.
Context {W : Type} `{Sp : QCBORSpiffy} `{M : Machine} (sv : live_services W) {digest_of : bytes -> bytes}
  `{!LiveLaws sv digest_of}.
Variables (key policy : pbns_view).
Notation client := (live_client_of sv key policy).
Notation h := (ls_hash sv).

(** What the cleanup needs of a stream. *)
Definition resettable (u : setup) (s : pbns_recovery_stream W) : Prop :=
  rc_pages s = b_ptr (su_pages u) /\ rc_image_size s = b_cap (su_pages u)
  /\ length (rc_page_data s) = length (b_data (su_pages u)).

Lemma stored_resettable u s acc : stored h u s acc -> resettable u s.
Proof.
  intros (_ & _ & _ & _ & _ & Hp & Hs & _ & _ & Hmin & Hd & _). split; [done|]. split; [done|].
  rewrite Hd, length_app, length_drop. unfold b_cap in *. lia.
Qed.

Lemma fail_recovery_keeps (s s' : pbns_recovery_stream W) w w' :
  fail_recovery s w = (s', w') ->
  rc_pages s' = rc_pages s /\ rc_image_size s' = rc_image_size s /\ rc_page_data s' = rc_page_data s.
Proof. unfold fail_recovery. destruct (active_clear s); by intros [= <- <-]. Qed.

Lemma complete_keeps (s : pbns_recovery_stream W) frame payload w st s' w' :
  recovery_complete s frame payload w = Some (st, s', w') ->
  rc_pages s' = rc_pages s /\ rc_image_size s' = rc_image_size s /\ rc_page_data s' = rc_page_data s.
Proof.
  unfold recovery_complete. intros E.
  assert (Hf : forall st0 w0, (let '(s1, w1) := fail_recovery s w0 in Some (st0, s1, w1)) = Some (st, s', w') ->
    rc_pages s' = rc_pages s /\ rc_image_size s' = rc_image_size s /\ rc_page_data s' = rc_page_data s).
  { intros st0 w0. destruct (fail_recovery s w0) as [s1 w1] eqn:E1. intros [= _ <- _]. by eapply fail_recovery_keeps. }
  destruct (negb (view_is_valid payload)); [by injection E as _ <- _|].
  destruct (negb (rc_initialized s) || rc_complete s || rc_failed s); [by injection E as _ <- _|].
  destruct (negb (is_ok (validate_frame s frame))); [by eapply Hf|]. destruct (_ || _); [by eapply Hf|].
  destruct (negb (rc_offset s =? rc_image_size s)); [by eapply Hf|].
  apply bind_Some in E as (ops & _ & E). apply bind_Some in E as (finish & _ & E). apply bind_Some in E as (clear & _ & E).
  destruct (finish w (replicate 32 0)) as [[st1 digest] w1]. destruct (negb (is_ok st1)); [by eapply Hf|].
  destruct (negb (digest_equal _ _)); [by eapply Hf|]. by injection E as _ <- _.
Qed.

Lemma live_other_world u s w w' acc : live h u s w acc -> h_absorbed h w' = h_absorbed h w -> live h u s w' acc.
Proof. intros (H1 & H2 & H3 & H4 & H5) E. unfold live. by rewrite E. Qed.

Lemma with_record_same ws frame payload : live_same ws (with_record ws frame payload).
Proof. unfold live_same. cbn. split_and!; done. Qed.

(** The loop ends within its fuel: every record that is taken but the last is a
    full one. *)
Lemma receive_records_spec u fuel : setup_ok u -> forall s ws w acc,
  live h u s w acc -> b_cap (su_pages u) / PBNS_RECOVERY_MANIFEST_CHUNK_SIZE + 2 <= Z.of_nat fuel + zlen acc ->
  exists st s' active ws' w', receive_records client fuel s ws w = Some (st, s', active, ws', w')
  /\ live_same ws ws' /\ resettable u s'
  /\ (st = PBNS_OK -> zlen (rc_page_data s') = b_cap (su_pages u) /\ digest_of (rc_page_data s') = su_digest u).
Proof.
  intros Hu. induction fuel as [|fuel IH]; intros s ws w acc Hl Hfuel.
  { destruct Hl as ((_ & _ & _ & _ & _ & _ & _ & _ & _ & _ & _ & Hlast) & _). exfalso.
    unfold PBNS_RECOVERY_MANIFEST_CHUNK_SIZE in *. pose proof (Z.div_mod (b_cap (su_pages u)) 16384 ltac:(lia)).
    pose proof (Z.mod_pos_bound (b_cap (su_pages u)) 16384 ltac:(lia)). lia. }
  cbn [receive_records live_client_of lc_bulk_receive lc_bulk_finish lc_bulk_ack mbind option_bind].
  fold (live_client_of sv key policy).
  destruct (ls_receive sv w zero_frame null_view) as [[[st1 frame] payload] w1] eqn:Er.
  pose proof (with_record_same ws frame payload) as Hws. set (ws1 := with_record ws frame payload) in *.
  pose proof (stored_resettable u s acc (proj1 Hl)) as Hres.
  destruct (is_ok st1) eqn:Ok1; cbn [negb orb].
  2:{ exists st1, s, true, ws1, w1. split; [done|]. split; [done|]. split; [done|]. intros ->. done. }
  destruct (view_is_valid payload) eqn:Hv; cbn [negb]; [|by exists PBNS_ERR_FORMAT, s, true, ws1, w1].
  apply is_ok_spec in Ok1 as ->. apply live_receive_hash in Er. apply (live_other_world _ _ _ w1) in Hl; [|done].
  destruct (f_type frame =? PBNS_MESSAGE_COMPLETE).
  - destruct (complete_result h u s w1 acc frame payload Hu (or_introl Hl)) as (st2 & s2 & w2 & E2 & Hd2 & Hok2). rewrite E2.
    cbn [mbind option_bind]. apply complete_keeps in E2 as (K1 & K2 & K3).
    assert (Hres2 : resettable u s2) by (unfold resettable in *; by rewrite K1, K2, K3).
    destruct (is_ok st2) eqn:Ok2; cbn [negb].
    2:{ exists st2, s2, true, ws1, w2. split; [done|]. split; [done|]. split; [done|]. intros ->. done. }
    apply is_ok_spec in Ok2. destruct (Hok2 Ok2) as (_ & Hcat & Hlen & Hdig).
    destruct (ls_finish sv w2) as [st3 w3]. exists st3, s2, false, ws1, w3. split; [done|]. split; [done|]. split; [done|].
    intros _. rewrite K3, Hcat. done.
  - destruct (accept_live h u s w1 acc frame payload Hu Hl) as (st2 & s2 & ack & w2 & E2 & Hcase). rewrite E2.
    cbn [mbind option_bind]. destruct Hcase as [(-> & Hl2 & -> & _)|[Hne Hd]].
    2:{ rewrite Hv in Hd. assert (is_ok st2 = false) as -> by (by destruct st2). cbn [negb].
        exists st2, s2, true, ws1, w2. split; [done|]. split; [done|]. split; [by apply (stored_resettable u s2 acc), Hd|done]. }
    cbn [is_ok negb]. assert (Hnext : forall w3, h_absorbed h w3 = h_absorbed h w2 ->
      exists st s' active ws' w', receive_records client fuel s2 ws1 w3 = Some (st, s', active, ws', w')
      /\ live_same ws ws' /\ resettable u s'
      /\ (st = PBNS_OK -> zlen (rc_page_data s') = b_cap (su_pages u) /\ digest_of (rc_page_data s') = su_digest u)).
    { intros w3 Hw3. destruct (IH s2 ws1 w3 (acc ++ [v_data payload])) as (st & s' & active & ws' & w' & E & Hs & Hr & Hok).
      - by apply (live_other_world _ _ w2).
      - rewrite length_app. cbn [length]. lia.
      - exists st, s', active, ws', w'. split; [done|]. split; [by etransitivity|]. done. }
    destruct (ra_required _); [|by apply Hnext].
    destruct (ls_ack sv w2 _ _) as [st3 w3] eqn:Ea. destruct (is_ok st3) eqn:Ok3; cbn [negb].
    + apply is_ok_spec in Ok3 as ->. apply Hnext. by eapply live_ack_hash.
    + exists st3, s2, true, ws1, w3. split; [done|]. split; [done|].
      split; [by apply (stored_resettable u s2 (acc ++ [v_data payload])), Hl2|]. intros ->. done.
Qed.

Lemma reset_wipes u s w :
  setup_ok u -> b_ptr (su_pages u) <> 0 -> resettable u s ->
  exists w', recovery_reset s w = Some (zero_recovery_stream, replicate (length (b_data (su_pages u))) 0, w').
Proof.
  intros [Hcap _] Hptr (Hp & Hs & Hl). unfold recovery_reset.
  rewrite Hp, Hs, (proj2 (Z.eqb_neq _ 0) Hptr), (proj2 (Z.ltb_lt 0 _)) by lia. cbn [negb andb].
  unfold b_cap. rewrite Nat2Z.id.
  rewrite wr_list_splice by (rewrite ?length_replicate, ?Hl; lia). cbn [mbind option_bind].
  eexists. repeat f_equal. unfold splice. by rewrite length_replicate, drop_ge, app_nil_r by (rewrite Hl; lia).
Qed.

(** From the end of the transfer to the end of the operation. *)
Lemma finish_stream_spec u st s active w :
  setup_ok u -> b_ptr (su_pages u) <> 0 -> resettable u s ->
  exists pages w', finish_stream client st s active w = Some (pages, w')
  /\ (st <> PBNS_OK -> pages = replicate (length (b_data (su_pages u))) 0) /\ (st = PBNS_OK -> pages = rc_page_data s).
Proof.
  intros Hu Hp Hr. unfold finish_stream. destruct (is_ok st) eqn:Hst; cbn [negb].
  - apply is_ok_spec in Hst. by eexists _, _.
  - destruct (reset_wipes u s w Hu Hp Hr) as [w1 ->]. cbn [mbind option_bind live_client_of lc_bulk_cancel].
    apply is_ok_false in Hst. destruct active; [destruct (ls_cancel sv w1) as [? w2]|]; by eexists _, _.
Qed.

Lemma receive_image_spec u m id n s ws w :
  setup_ok u -> live h u s w [] -> rm_image_size m = b_cap (su_pages u) -> 0 <= n <= b_cap (lw_signed_request ws) ->
  exists st s' active ws' w', receive_image client m id n s ws w = Some (st, s', active, ws', w')
  /\ live_same ws ws' /\ resettable u s'
  /\ (st = PBNS_OK -> zlen (rc_page_data s') = b_cap (su_pages u) /\ digest_of (rc_page_data s') = su_digest u
      /\ exists w1, ls_begin sv w id (take (Z.to_nat n) (b_data (lw_signed_request ws))) (rm_image_size m) = (PBNS_OK, w1)).
Proof.
  intros Hu Hl Hsz Hn. unfold receive_image. cbn [live_client_of lc_bulk_begin mbind option_bind].
  unfold b_cap in Hn. rewrite rd_slice_inside by lia. cbn [mbind option_bind]. unfold slice. rewrite drop_0.
  fold (live_client_of sv key policy). destruct (ls_begin sv w id _ _) as [st1 w1] eqn:Eb.
  pose proof (stored_resettable u s [] (proj1 Hl)) as Hres. destruct (is_ok st1) eqn:Ok1; cbn [negb].
  2:{ exists st1, s, false, ws, w1. split; [done|]. split; [done|]. split; [done|]. intros ->. done. }
  apply is_ok_spec in Ok1 as ->. pose proof (live_begin_hash _ _ _ _ _ Eb) as Hw1. rewrite Hsz.
  destruct (receive_records_spec u (Z.to_nat (b_cap (su_pages u) / PBNS_RECOVERY_MANIFEST_CHUNK_SIZE) + 2) Hu s ws w1 [])
    as (st & s' & active & ws' & w' & E & Hs & Hr & Hok).
  - by apply (live_other_world _ _ w).
  - cbn [length]. destruct Hu as [Hcap _]. unfold PBNS_RECOVERY_MANIFEST_CHUNK_SIZE.
    pose proof (Z.div_pos (b_cap (su_pages u)) 16384). lia.
  - exists st, s', active, ws', w'. split; [done|]. split; [done|]. split; [done|]. intros Hst.
    destruct (Hok Hst) as [? ?]. split; [done|]. split; [done|]. by exists w1.
Qed.

(** The arguments that [live_artifact] takes. *)
Definition artifact_arguments (m : pbns_recovery_manifest) (pages : pbns_buffer) : bool :=
  live_client_valid client && manifest_valid_for_artifact m && pages_valid pages (rm_image_size m).

(** The pages and the workspace at the end of a transfer that was started. *)
Definition image_outcome (m : pbns_recovery_manifest) (pages : pbns_buffer) (w : W) (st : pbns_status) (data : bytes)
    (ws' : pbns_recovery_live_workspace) : Prop :=
  transient_clear ws' /\ (st <> PBNS_OK -> data = replicate (length (b_data pages)) 0)
  /\ (st = PBNS_OK -> zlen data = rm_image_size m /\ digest_of data = rm_artifact_digest m
      /\ exists id nonce signed w1 w2 w3,
           requested sv w PBNS_RECOVERY_OPERATION_ARTIFACT (rm_host_binding m) (rm_artifact_digest m) id nonce signed w1
           /\ h_begin h w1 = (PBNS_OK, w2)
           /\ ls_begin sv w2 id signed (rm_image_size m) = (PBNS_OK, w3)).

Lemma live_artifact_run m pages ws w :
  live_workspace_ok ws -> length (rm_host_binding m) = 32%nat -> length (rm_artifact_digest m) = 32%nat ->
  artifact_arguments m pages = true ->
  exists st data ws' w', live_artifact client m pages ws w = Some (st, data, ws', w')
  /\ live_same ws ws' /\ image_outcome m pages w st data ws'.
Proof.
  intros Hok Hh Hd Hargs. unfold live_artifact. unfold artifact_arguments in Hargs.
  apply andb_true_iff in Hargs as [Hargs Hpv]. apply andb_true_iff in Hargs as [Hcv Hmv]. rewrite Hcv, Hmv, Hpv. cbn [negb orb].
  destruct (clear_transient_spec ws) as (_ & S0 & _).
  destruct (wp_build_signed_request sv key policy (rm_host_binding m) PBNS_RECOVERY_OPERATION_ARTIFACT
    (Some (rm_artifact_digest m)) (clear_transient ws) w (live_same_ok _ _ S0 Hok) Hh Hd) as (r & ws1 & w1 & -> & S1 & Hr).
  assert (Hend : forall st ws2 (w' : W), st <> PBNS_OK -> live_same ws ws2 ->
    exists st' data ws' w'', Some (st, replicate (length (b_data pages)) 0, clear_transient ws2, w') = Some (st', data, ws', w'')
    /\ live_same ws ws' /\ image_outcome m pages w st' data ws').
  { intros st ws2 w' Hst Hs2. destruct (clear_transient_spec ws2) as (T & S2 & _). do 4 eexists. split; [reflexivity|].
    split; [by etransitivity|]. by split_and!. }
  destruct r as [st|[[rid nonce] n]]; [apply Hend; [done|by etransitivity]|]. destruct Hr as [Hn Hreq]. cbn [default from_option id] in Hreq.
  unfold pages_valid in Hpv. bools. set (u := mk_setup rid pages (rm_artifact_digest m)).
  assert (Hu : setup_ok u) by (unfold setup_ok, u; cbn; split; [lia|done]).
  cbn [live_client_of lc_hash_ops]. fold (live_client_of sv key policy).
  destruct (recovery_stream_init rid pages (Some (rm_artifact_digest m)) (Some (ops_of h)) w1) as [[st1 s] w2] eqn:Ei.
  destruct (is_ok st1) eqn:Ok1; cbn [negb]; [|apply Hend; [by apply not_ok_neq|by etransitivity]].
  apply is_ok_spec in Ok1 as ->.
  assert (Hbegin : h_begin h w1 = (PBNS_OK, w2)).
  { unfold recovery_stream_init, ops_of in Ei. destruct (_ || _) in Ei; [done|].
    destruct (h_begin h w1) as [st w0]. destruct st; try done. by injection Ei as _ ->. }
  pose proof (init_live h u w1 s w2 Hu Ei) as Hl.
  destruct (receive_image_spec u m rid n s ws1 w2 Hu Hl) as (st2 & s2 & active & ws2 & w3 & -> & S2 & Hres & Hok2); [cbn; lia|lia|].
  cbn [mbind option_bind].
  destruct (finish_stream_spec u st2 s2 active w3 Hu) as (data & w4 & -> & Hbad & Hgood); [cbn; congruence|done|].
  cbn [mbind option_bind]. destruct (clear_transient_spec ws2) as (T & S3 & _). do 4 eexists. split; [reflexivity|].
  split; [do 3 (etransitivity; [eassumption|]); done|]. split; [done|]. split; [exact Hbad|]. intros Hst.
  rewrite (Hgood Hst). destruct (Hok2 Hst) as (Hz & Hdg & w5 & Hb). cbn in Hz, Hdg. split; [lia|]. split; [done|].
  exists rid, nonce, (take (Z.to_nat n) (b_data (lw_signed_request ws1))), w1, w2, w5. done.
Qed.

Lemma live_artifact_refused m pages ws w :
  artifact_arguments m pages = false -> live_artifact client m pages ws w = Some (PBNS_ERR_ARGUMENT, b_data pages, ws, w).
Proof. unfold live_artifact, artifact_arguments. intros E. by rewrite <- !negb_andb, E. Qed.
End image.

(** C7: an image is received whole or not at all.  The operation always returns:
    the loop over the records ends within the number of records of the image.
    Refused arguments change nothing.  Otherwise the workspace keeps no request
    or record data, and either the pages hold an image of exactly the size and
    the digest of the manifest, asked for with a fresh signed request that names
    that digest, or every octet of the pages is zero. *)
Theorem live_artifact_contract {W : Type} `{Q : QCBOR} `{M : Machine} (sv : live_services W)
    (digest_of : bytes -> bytes) `{L : !LiveLaws sv digest_of} (key policy : pbns_view) (m : pbns_recovery_manifest)
    (pages : pbns_buffer) (ws : pbns_recovery_live_workspace) (w : W) :
  live_workspace_ok ws -> length (rm_host_binding m) = 32%nat -> length (rm_artifact_digest m) = 32%nat ->
  exists st data ws' w', live_artifact (live_client_of sv key policy) m pages ws w = Some (st, data, ws', w')
  /\ live_same ws ws'
  /\ (if artifact_arguments sv key policy m pages then image_outcome sv (digest_of := digest_of) m pages w st data ws'
      else st = PBNS_ERR_ARGUMENT /\ data = b_data pages /\ ws' = ws /\ w' = w).
Proof.
  intros Hok Hh Hd. destruct (artifact_arguments sv key policy m pages) eqn:E; [by apply (live_artifact_run sv key policy)|].
  exists PBNS_ERR_ARGUMENT, (b_data pages), ws, w. by rewrite live_artifact_refused.
Qed.

(** ** Witnesses *)

(** A gateway that answers with a manifest and sends an image of three octets;
    the world counts the records and holds what the hash absorbed. *)
Definition ex_live_manifest : pbns_recovery_manifest :=
  mk_manifest (replicate 16 5) (replicate 32 7) (replicate 32 5) (replicate 32 4) 8 3 16384 2 1000 9000
    (mk_view 64 [1; 2; 3]) (mk_view 96 [4; 5]).

Definition ex_digest (data : bytes) : bytes := replicate 32 (1 + zlen data mod 200).

Definition ex_live_hash : hash (nat * bytes) := mk_hash
  (fun w => (PBNS_OK, (fst w, []))) (fun w data => (PBNS_OK, (fst w, snd w ++ data)))
  (fun w _ => (PBNS_OK, ex_digest (snd w), w)) (fun w => w) snd.

Definition ex_receive (w : nat * bytes) (frame : pbns_frame) (payload : pbns_view)
  : pbns_status * pbns_frame * pbns_view * (nat * bytes) :=
  let frame type := mk_frame PBNS_SERVICE_RECOVERY_ARTIFACT type 0 (replicate 16 5) (Z.of_nat (fst w)) in
  match fst w with
  | O => (PBNS_OK, frame PBNS_MESSAGE_DATA, mk_view 64 [10; 20; 30], (1%nat, snd w))
  | n => (PBNS_OK, frame PBNS_MESSAGE_COMPLETE, null_view, (Datatypes.S n, snd w))
  end.

Definition ex_live_services : live_services (nat * bytes) := mk_live_services
  (fun w buf => (PBNS_OK, replicate (length buf) 5, w))
  (fun w payload _ buf => (PBNS_OK, ex_fill buf payload, zlen payload, w))
  (fun w _ _ buf => (PBNS_OK, ex_fill buf (manifest_octets ex_live_manifest), zlen (manifest_octets ex_live_manifest), w))
  (fun w message _ => (PBNS_OK, message, w))
  (fun w _ _ _ => (PBNS_OK, w)) ex_receive (fun w _ _ => (PBNS_OK, w)) (fun w => (PBNS_OK, w)) (fun w => (PBNS_OK, w))
  ex_live_hash.

#[export] Instance ex_live_hash_laws : HashLaws ex_live_hash ex_digest.
Proof.
  split.
  - by intros w w' [= <-].
  - by intros w data w' [= <-].
  - by intros w out digest w' [= <- <-].
  - intros data. apply length_replicate.
Qed.

#[export] Instance ex_live_laws : LiveLaws ex_live_services ex_digest.
Proof.
  assert (Hfill : forall buf data, length (ex_fill buf data) = length buf)
    by (intros; unfold ex_fill; rewrite length_take, length_app; lia).
  split; try exact ex_live_hash_laws.
  - intros w buf st out w' [= <- <- <-]. apply length_replicate.
  - intros w payload aad buf st out n w' [= <- <- <- <-]. split; [apply Hfill|lia].
  - intros w id message buf st out n w' E. unfold ex_live_services in E. cbn [ls_exchange] in E.
    injection E as <- <- <- <-. split; [apply Hfill|lia].
  - by intros w id message size w' [= <-].
  - intros [n l] frame payload frame' payload' w'. destruct n; intros [= <- <- <-]; done.
  - by intros w next window w' [= <-].
Qed.

Definition ex_live_workspace : pbns_recovery_live_workspace :=
  mk_live_workspace (mk_buffer 1048576 0 (replicate 256 1)) (mk_buffer 2097152 0 (replicate (Z.to_nat 65536) 1))
    (mk_buffer 3145728 0 (replicate (Z.to_nat 65536) 1)) 0 (mk_buffer 4194304 0 (replicate (Z.to_nat 8192) 1))
    (mk_buffer 5242880 0 (replicate 192 1)) zero_frame null_view.

Definition ex_live_client : pbns_recovery_live_client (nat * bytes) :=
  live_client_of ex_live_services (mk_view 128 [6; 6]) (mk_view 160 [4; 5]).

Lemma ex_live_workspace_ok : live_workspace_ok ex_live_workspace.
Proof. unfold live_workspace_ok, array_ok. repeat split; (discriminate || (vm_compute; reflexivity)). Qed.

Lemma live_manifest_contract_witness :
  exists st m ws' w',
    @live_manifest (nat * bytes) tree_qcbor tree_spiffy x86_64 ex_live_client (replicate 32 7) (mk_interval 2000 3000)
      ex_live_workspace (0%nat, []) = Some (st, m, ws', w')
  /\ live_same ex_live_workspace ws' /\ (st <> PBNS_OK -> m = zero_manifest).
Proof.
  destruct (@live_manifest_contract (nat * bytes) tree_qcbor tree_spiffy x86_64 ex_live_services ex_digest ex_live_laws
    (mk_view 128 [6; 6]) (mk_view 160 [4; 5]) (replicate 32 7) (mk_interval 2000 3000) ex_live_workspace (0%nat, [])
    ex_live_workspace_ok eq_refl) as (st & m & ws' & w' & E & Hs & Hz & _).
  exists st, m, ws', w'. split; [exact E|]. split; [exact Hs|]. intros Hst. exact (proj1 (Hz Hst)).
Defined.

Lemma live_artifact_contract_witness :
  exists st data ws' w',
    @live_artifact (nat * bytes) tree_qcbor x86_64 ex_live_client ex_live_manifest (mk_buffer 8388608 0 [1; 1; 1])
      ex_live_workspace (0%nat, []) = Some (st, data, ws', w')
  /\ image_outcome ex_live_services (digest_of := ex_digest) ex_live_manifest (mk_buffer 8388608 0 [1; 1; 1]) (0%nat, []) st data ws'.
Proof.
  destruct (@live_artifact_contract (nat * bytes) tree_qcbor x86_64 ex_live_services ex_digest ex_live_laws
    (mk_view 128 [6; 6]) (mk_view 160 [4; 5]) ex_live_manifest (mk_buffer 8388608 0 [1; 1; 1]) ex_live_workspace (0%nat, [])
    ex_live_workspace_ok eq_refl eq_refl) as (st & data & ws' & w' & E & _ & H).
  exists st, data, ws', w'. split; [exact E|].
  assert (Ha : artifact_arguments (M := x86_64) ex_live_services (mk_view 128 [6; 6]) (mk_view 160 [4; 5]) ex_live_manifest
    (mk_buffer 8388608 0 [1; 1; 1]) = true) by (vm_compute; reflexivity).
  rewrite Ha in H. exact H.
Defined.

(** The exchange of the example succeeds, and its image stays in the pages. *)
Example ex_live_run :
  option_map (fun r => fst (fst (fst r))) (@live_manifest (nat * bytes) tree_qcbor tree_spiffy x86_64 ex_live_client
    (replicate 32 7) (mk_interval 2000 3000) ex_live_workspace (0%nat, [])) = Some PBNS_OK
  /\ option_map (fun r => fst (fst r)) (@live_artifact (nat * bytes) tree_qcbor x86_64 ex_live_client ex_live_manifest
    (mk_buffer 8388608 0 [1; 1; 1]) ex_live_workspace (0%nat, [])) = Some (PBNS_OK, [10; 20; 30]).
Proof. split; vm_compute; reflexivity. Qed.
