(* ===== verification/RecoveryService.v ===== *)
(** * The recovery service ([src/core/recovery_service_adapter.h], [src/core/recovery_service_adapter.c])

    The service keeps the manifest that was accepted last and the version that
    the anti-rollback store held when it was read last.  The stored version is
    raised only from the version that was read and only to the version of the
    manifest; a failed transfer forgets the manifest. *)

From stdpp Require Import base list numbers relations.
From Stdlib Require Import ZArith Lia.
From S2P Require Import Prelude Status Step Buffers Frame Cbor CborTree Compare AntiRollback TrustedTime TimeQuery RecoveryStream RecoveryRequest RecoveryManifest ManifestProps RecoveryLive LiveProps.

(** ** The code *)

Record pbns_recovery_service_manifest_state := mk_manifest_state { ms_manifest : pbns_recovery_manifest; ms_ready : bool }.

Record pbns_recovery_service_rollback (W : Type) := mk_rollback {
  sr_mode : Z;
  sr_controller : ptr (pbns_anti_rollback W);
  sr_retained : pbns_anti_rollback_state;
  sr_retained_valid : bool;
}.
Arguments mk_rollback {W}.
Arguments sr_mode {W}.
Arguments sr_controller {W}.
Arguments sr_retained {W}.
Arguments sr_retained_valid {W}.

Definition controller_matches_mode {W} (mode : Z) (controller : ptr (pbns_anti_rollback W)) : bool :=
  match controller with
  | None => false
  | Some controller =>
      match ar_assurance controller with
      | PBNS_ANTI_ROLLBACK_ASSURANCE_TPM => mode =? PBNS_RECOVERY_ASSURANCE_T
      | PBNS_ANTI_ROLLBACK_ASSURANCE_NVRAM_REDUCED => mode =? PBNS_RECOVERY_ASSURANCE_S
      | PBNS_ANTI_ROLLBACK_ASSURANCE_INVALID => false
      end
  end.

Definition pbns_recovery_service_manifest_invalidate (state : ptr pbns_recovery_service_manifest_state)
    (workspace : ptr pbns_recovery_live_workspace)
  : ptr pbns_recovery_service_manifest_state * ptr pbns_recovery_live_workspace :=
  ((fun _ => mk_manifest_state zero_manifest false) <$> state,
   (fun ws => clear_manifest (clear_transient ws)) <$> workspace).

Definition pbns_recovery_service_manifest_set (state : ptr pbns_recovery_service_manifest_state)
    (manifest : ptr pbns_recovery_manifest) : pbns_status * ptr pbns_recovery_service_manifest_state :=
  match state, manifest with
  | Some _, Some m => (PBNS_OK, Some (mk_manifest_state m true))
  | _, _ => (PBNS_ERR_ARGUMENT, state)
  end.

Definition pbns_recovery_service_manifest_target_matches (state : ptr pbns_recovery_service_manifest_state) (target : Z)
  : bool :=
  match state with
  | None => false
  | Some state => ms_ready state && (0 <? target) && (target =? rm_artifact_version (ms_manifest state))
  end.

Section code.
Context {W : Type} `{QCBOR} `{Machine}.

(** The status, the state, the octets of the pages, the workspace and the world. *)
Definition pbns_recovery_service_stream (client : ptr (pbns_recovery_live_client W))
    (state : ptr pbns_recovery_service_manifest_state) (exact_pages : pbns_buffer)
    (workspace : ptr pbns_recovery_live_workspace) (w : W)
  : option (pbns_status * ptr pbns_recovery_service_manifest_state * bytes * ptr pbns_recovery_live_workspace * W) :=
  match state with
  | None => Some (PBNS_ERR_ARGUMENT, None, b_data exact_pages, workspace, w)
  | Some s =>
      if negb (ms_ready s) || (b_ptr exact_pages =? 0) || negb (b_len exact_pages =? 0)
         || negb (b_cap exact_pages =? rm_image_size (ms_manifest s))
      then
        let '(state, workspace) := pbns_recovery_service_manifest_invalidate state workspace in
        Some (PBNS_ERR_ARGUMENT, state, b_data exact_pages, workspace, w)
      else
      '(status, pages, workspace, w) ← pbns_recovery_live_artifact client (Some (ms_manifest s)) exact_pages workspace w;
      if negb (is_ok status) then
        let '(state, workspace) := pbns_recovery_service_manifest_invalidate state workspace in
        Some (status, state, pages, workspace, w)
      else Some (status, state, pages, workspace, w)
  end.

Definition forget (r : pbns_recovery_service_rollback W) : pbns_recovery_service_rollback W :=
  mk_rollback (sr_mode r) (sr_controller r) (sr_retained r) false.

Definition retain (r : pbns_recovery_service_rollback W) (state : pbns_anti_rollback_state) : pbns_recovery_service_rollback W :=
  mk_rollback (sr_mode r) (sr_controller r) state true.

(** The status, the service state, the version when it is stored, and the world. *)
Definition rollback_read (r : pbns_recovery_service_rollback W) (w : W)
  : option (pbns_status * pbns_recovery_service_rollback W * option Z * W) :=
  if negb (controller_matches_mode (sr_mode r) (sr_controller r)) then Some (PBNS_ERR_ARGUMENT, r, None, w)
  else
  controller ← sr_controller r;
  '(status, state, w) ← anti_rollback_read controller w;
  if negb (is_ok status) then Some (status, forget r, None, w)
  else Some (PBNS_OK, retain r state, Some (ar_version state), w).

Definition pbns_recovery_service_rollback_read (rollback : ptr (pbns_recovery_service_rollback W)) (version : ptr Z) (w : W)
  : option (pbns_status * ptr (pbns_recovery_service_rollback W) * ptr Z * W) :=
  match rollback, version with
  | Some r, Some version =>
      '(status, r, v, w) ← rollback_read r w; Some (status, Some r, Some (default version v), w)
  | _, _ => Some (PBNS_ERR_ARGUMENT, rollback, version, w)
  end.

Definition rollback_advance (r : pbns_recovery_service_rollback W)
    (manifest_state : ptr pbns_recovery_service_manifest_state) (current target : Z) (manifest_authorization : pbns_view) (w : W)
  : option (pbns_status * pbns_recovery_service_rollback W * W) :=
  if negb (controller_matches_mode (sr_mode r) (sr_controller r)) then Some (PBNS_ERR_ARGUMENT, r, w)
  else if negb (sr_retained_valid r) || negb (current =? ar_version (sr_retained r)) || (target <=? current)
  then Some (PBNS_ERR_REPLAY, r, w)
  else if negb (pbns_recovery_service_manifest_target_matches manifest_state target)
  then Some (PBNS_ERR_AUTHENTICATION, r, w)
  else
  controller ← sr_controller r;
  '(status, reread, w) ← anti_rollback_read controller w;
  if negb (is_ok status) || negb (ar_version reread =? current)
  then Some (if is_ok status then PBNS_ERR_REPLAY else status, forget r, w)
  else
  let authorization := if sr_mode r =? PBNS_RECOVERY_ASSURANCE_T then manifest_authorization else null_view in
  '(status, _, w) ← anti_rollback_advance controller target authorization w;
  if negb (is_ok status) then Some (status, forget r, w)
  else
  '(status, reread, w) ← anti_rollback_read controller w;
  if negb (is_ok status) || negb (ar_version reread =? target)
  then Some (if is_ok status then PBNS_ERR_STATE else status, forget r, w)
  else Some (PBNS_OK, retain r reread, w).

Definition pbns_recovery_service_rollback_advance (rollback : ptr (pbns_recovery_service_rollback W))
    (manifest_state : ptr pbns_recovery_service_manifest_state) (current target : Z) (manifest_authorization : pbns_view) (w : W)
  : option (pbns_status * ptr (pbns_recovery_service_rollback W) * W) :=
  match rollback with
  | None => Some (PBNS_ERR_ARGUMENT, None, w)
  | Some r =>
      '(status, r, w) ← rollback_advance r manifest_state current target manifest_authorization w; Some (status, Some r, w)
  end.
End code.

(** ** Sequences of operations *)

Record service (W : Type) := mk_service {
  sv_rollback : pbns_recovery_service_rollback W;
  sv_manifest : pbns_recovery_service_manifest_state;
  sv_world : W;
}.
Arguments mk_service {W}.
Arguments sv_rollback {W}.
Arguments sv_manifest {W}.
Arguments sv_world {W}.

(** What a caller can do: read, raise, take a manifest over, or forget it. *)
Inductive service_op :=
| OpRead
| OpAdvance (current target : Z) (authorization : pbns_view)
| OpSet (m : pbns_recovery_manifest)
| OpInvalidate.

Definition op_typed (op : service_op) : Prop :=
  match op with OpAdvance _ target _ => 0 <= target <= UINT64_MAX | _ => True end.

Definition service_do {W} `{Machine} (op : service_op) (s : service W) : option (pbns_status * service W) :=
  match op with
  | OpRead =>
      '(st, r, _, w) ← rollback_read (sv_rollback s) (sv_world s); Some (st, mk_service r (sv_manifest s) w)
  | OpAdvance current target authorization =>
      '(st, r, w) ← rollback_advance (sv_rollback s) (Some (sv_manifest s)) current target authorization (sv_world s);
      Some (st, mk_service r (sv_manifest s) w)
  | OpSet m =>
      let '(st, ms) := pbns_recovery_service_manifest_set (Some (sv_manifest s)) (Some m) in
      Some (st, mk_service (sv_rollback s) (default (sv_manifest s) ms) (sv_world s))
  | OpInvalidate =>
      let '(ms, _) := pbns_recovery_service_manifest_invalidate (Some (sv_manifest s)) None in
      Some (PBNS_OK, mk_service (sv_rollback s) (default (sv_manifest s) ms) (sv_world s))
  end.

Inductive service_step {W} `{Machine} : service W -> service W -> Prop :=
| service_step_do op st s s' : op_typed op -> service_do op s = Some (st, s') -> service_step s s'.

(** ** The store in non-volatile memory *)

Section nvram.
Context `{Machine} {W : Type} (nv : nvram W) `{!NvramLaws nv}.

(** The service works on the two-slot store, in its mode. *)
Definition service_ok (s : service W) : Prop :=
  nv_ok nv (sv_world s) /\ sr_mode (sv_rollback s) = PBNS_RECOVERY_ASSURANCE_S
  /\ sr_controller (sv_rollback s) = Some (nvram_controller nv).

Definition version_of (s : service W) : Z := stored_version nv (sv_world s).

(** The stored version did not change, or was raised to that of the manifest. *)
Definition raised_by_manifest (op : service_op) (s s' : service W) : Prop :=
  exists current target authorization, op = OpAdvance current target authorization
  /\ ms_ready (sv_manifest s) = true /\ target = rm_artifact_version (ms_manifest (sv_manifest s))
  /\ current = version_of s /\ version_of s < target /\ version_of s' = target.

Definition op_outcome (op : service_op) (st : pbns_status) (s s' : service W) : Prop :=
  service_ok s' /\ (version_of s' = version_of s \/ raised_by_manifest op s s')
  /\ match op with
     | OpAdvance current target _ =>
         st = PBNS_OK -> version_of s' = target /\ raised_by_manifest op s s'
           /\ sr_retained (sv_rollback s') = state_of nv (sv_world s') /\ sr_retained_valid (sv_rollback s') = true
     | OpRead => st = PBNS_OK -> sr_retained (sv_rollback s') = state_of nv (sv_world s')
           /\ sr_retained_valid (sv_rollback s') = true
     | _ => st = PBNS_OK
     end.

Lemma same_slots_version w w' : same_slots nv w w' -> stored_version nv w' = stored_version nv w.
Proof. intros Hs. unfold stored_version. by rewrite (same_slots_newest nv w w'). Qed.

Lemma same_slots_state w w' : same_slots nv w w' -> state_of nv w' = state_of nv w.
Proof. intros Hs. unfold state_of. by rewrite (same_slots_newest nv w w'). Qed.

Lemma same_slots_trans w w1 w2 : same_slots nv w w1 -> same_slots nv w1 w2 -> same_slots nv w w2.
Proof. intros H1 H2 i. by rewrite H2, H1. Qed.

Lemma rollback_read_spec (s : service W) :
  service_ok s -> exists st s', service_do OpRead s = Some (st, s') /\ op_outcome OpRead st s s'.
Proof.
  intros (Hnv & Hm & Hc). destruct s as [r ms w]. cbn [sv_rollback sv_world] in *.
  unfold service_do, rollback_read, controller_matches_mode. cbn [sv_rollback sv_world sv_manifest]. rewrite Hc, Hm.
  cbn [nvram_controller ar_assurance]. change (PBNS_RECOVERY_ASSURANCE_S =? PBNS_RECOVERY_ASSURANCE_S) with true. cbn [negb mbind option_bind].
  fold (nvram_controller nv).
  destruct (nvram_read_ok nv w Hnv) as (st & state & w' & -> & Hs & Hst). cbn [mbind option_bind].
  assert (Hok' : nv_ok nv w') by (by eapply same_slots_ok). destruct (is_ok st) eqn:Eok; cbn [negb mbind option_bind].
  - apply is_ok_spec in Eok. do 2 eexists. split; [reflexivity|]. unfold op_outcome, service_ok, version_of. cbn.
    split; [by rewrite Hc|]. split; [left; by apply same_slots_version|]. intros _. split; [|done].
    rewrite (Hst Eok). by rewrite (same_slots_state w w').
  - apply is_ok_false in Eok. do 2 eexists. split; [reflexivity|]. unfold op_outcome, service_ok, version_of. cbn.
    split; [by rewrite Hc|]. split; [left; by apply same_slots_version|]. done.
Qed.

(** An end of an update that leaves the store in [w'] after it was read as [current]. *)
Lemma advance_outcome r r' ms w w' current target authorization st :
  let s := mk_service r ms w in
  let s' := mk_service r' ms w' in
  let op := OpAdvance current target authorization in
  service_ok s' -> st <> PBNS_OK ->
  stored_version nv w' = stored_version nv w
  \/ raised_by_manifest op s s' ->
  op_outcome op st s s'.
Proof. intros s s' op Hok Hne Hv. split; [done|]. split; [exact Hv|]. done. Qed.

Lemma rollback_advance_spec (s : service W) current target authorization :
  service_ok s -> 0 <= target <= UINT64_MAX ->
  exists st s', service_do (OpAdvance current target authorization) s = Some (st, s')
  /\ op_outcome (OpAdvance current target authorization) st s s'.
Proof.
  intros (Hnv & Hm & Hc) Ht. destruct s as [r ms w]. cbn [sv_rollback sv_world] in *.
  unfold service_do, rollback_advance, controller_matches_mode. cbn [sv_rollback sv_world sv_manifest]. rewrite Hc, Hm.
  cbn [nvram_controller ar_assurance]. change (PBNS_RECOVERY_ASSURANCE_S =? PBNS_RECOVERY_ASSURANCE_S) with true. cbn [negb].
  assert (Hsk : forall r' w', sr_mode r' = PBNS_RECOVERY_ASSURANCE_S -> sr_controller r' = Some (nvram_controller nv) ->
    nv_ok nv w' -> service_ok (mk_service r' ms w')) by (intros; by split_and!).
  assert (Hrefused : forall st, st <> PBNS_OK -> exists st' s',
    ('(st0, r0, w0) ← Some (st, r, w); Some (st0, mk_service r0 ms w0)) = Some (st', s')
    /\ op_outcome (OpAdvance current target authorization) st' (mk_service r ms w) s').
  { intros st Hst. cbn [mbind option_bind]. do 2 eexists. split; [reflexivity|]. apply advance_outcome; auto. }
  destruct (_ || (target <=? current)) eqn:E1; [by apply Hrefused|].
  destruct (pbns_recovery_service_manifest_target_matches (Some ms) target) eqn:E2; cbn [negb]; [|by apply Hrefused].
  clear Hrefused. bools. cbn in E2. bools. cbn [mbind option_bind]. fold (nvram_controller nv).
  destruct (nvram_read_ok nv w Hnv) as (st1 & reread & w1 & -> & Hs1 & Hst1). cbn [mbind option_bind].
  assert (Hnv1 : nv_ok nv w1) by (by eapply same_slots_ok).
  destruct (is_ok st1) eqn:Eok1; cbn [negb orb].
  2:{ apply is_ok_false in Eok1. cbn [mbind option_bind]. do 2 eexists. split; [reflexivity|].
      apply advance_outcome; [by apply Hsk|done|left; by apply same_slots_version]. }
  apply is_ok_spec in Eok1. rewrite (Hst1 Eok1). clear Hst1 reread.
  destruct (Z.eqb_spec (ar_version (state_of nv w)) current) as [Hcur|]; cbn [negb].
  2:{ cbn [mbind option_bind]. do 2 eexists. split; [reflexivity|].
      apply advance_outcome; [by apply Hsk|done|left; by apply same_slots_version]. }
  rewrite <- stored_version_state in Hcur.
  change (PBNS_RECOVERY_ASSURANCE_S =? PBNS_RECOVERY_ASSURANCE_T) with false. cbv iota zeta.
  destruct (advance_total nv w1 target null_view Hnv1 Ht) as (st2 & state & w2 & -> & Hnv2 & Hv2 & Hok2 & _).
  cbn [mbind option_bind]. rewrite (same_slots_version w w1 Hs1) in Hv2, Hok2.
  assert (Hraise : forall r' w', stored_version nv w' = target ->
    raised_by_manifest (OpAdvance current target authorization) (mk_service r ms w) (mk_service r' ms w')).
  { intros r' w' E. exists current, target, authorization. unfold version_of. cbn. split_and!; try done; lia. }
  destruct (is_ok st2) eqn:Eok2; cbn [negb].
  2:{ apply is_ok_false in Eok2. cbn [mbind option_bind]. do 2 eexists. split; [reflexivity|].
      apply advance_outcome; [by apply Hsk|done|]. destruct Hv2 as [?|[_ ?]]; [by left|right; by apply Hraise]. }
  apply is_ok_spec in Eok2. destruct (Hok2 Eok2) as (Hlt & Hstate & Hver & _).
  assert (Hv : stored_version nv w2 = target) by (rewrite stored_version_state, <- Hstate; done).
  destruct (nvram_read_ok nv w2 Hnv2) as (st3 & reread & w3 & -> & Hs3 & Hst3). cbn [mbind option_bind].
  assert (Hnv3 : nv_ok nv w3) by (by eapply same_slots_ok).
  assert (Hv3 : stored_version nv w3 = target) by (by rewrite (same_slots_version w2 w3 Hs3)).
  destruct (is_ok st3) eqn:Eok3; cbn [negb orb].
  2:{ apply is_ok_false in Eok3. cbn [mbind option_bind]. do 2 eexists. split; [reflexivity|].
      apply advance_outcome; [by apply Hsk|done|right; by apply Hraise]. }
  apply is_ok_spec in Eok3. rewrite (Hst3 Eok3), <- stored_version_state, Hv, Z.eqb_refl. cbn [negb mbind option_bind].
  do 2 eexists. split; [reflexivity|]. split; [by apply Hsk|]. split; [right; by apply Hraise|]. intros _.
  split; [done|]. split; [by apply Hraise|]. cbn. split; [|done]. by rewrite (same_slots_state w2 w3 Hs3).
Qed.

(** Every operation returns, and does what its outcome says. *)
Lemma service_do_total (s : service W) op :
  service_ok s -> op_typed op -> exists st s', service_do op s = Some (st, s') /\ op_outcome op st s s'.
Proof.
  intros Hok Ht. destruct op as [|current target authorization|m|].
  - by apply rollback_read_spec.
  - by apply rollback_advance_spec.
  - destruct Hok as (? & ? & ?). do 2 eexists. split; [reflexivity|]. split; [by split_and!|]. split; [by left|done].
  - destruct Hok as (? & ? & ?). do 2 eexists. split; [reflexivity|]. split; [by split_and!|]. split; [by left|done].
Qed.

Lemma service_step_ok (s s' : service W) : service_ok s -> service_step s s' -> service_ok s' /\ version_of s <= version_of s'.
Proof.
  intros Hok Hs. inversion Hs as [op st a b Ht E Ea Eb]; subst. destruct (service_do_total s op Hok Ht) as (st' & s2 & E' & Ho & Hv & _).
  rewrite E in E'. injection E' as -> ->. split; [done|]. destruct Hv as [->|(? & ? & ? & _ & _ & _ & _ & ? & ->)]; lia.
Qed.

Lemma service_steps_ok (s s' : service W) :
  rtc service_step s s' -> service_ok s -> service_ok s' /\ version_of s <= version_of s'.
Proof.
  induction 1 as [|s s1 s' Hs _ IH]; intros Hok; [split; [done|lia]|].
  destruct (service_step_ok s s1 Hok Hs) as [Hok1 ?]. destruct (IH Hok1). split; [done|]. lia.
Qed.

(** C5: the recovery service never lets the version go back, and raises it only
    to that of the manifest it holds.  From any state that a sequence of reads,
    updates, accepted manifests and invalidations reaches, every operation
    returns, whatever happens to the writes underneath; the stored version is
    never smaller than before; when an operation changes it, that operation is
    an update whose current version was read from the store, and the new version
    is the one of the manifest that is ready.  An update that reports success
    did store its target and retains what was read back. *)
Theorem service_version_monotone (s s' : service W) (op : service_op) :
  service_ok s -> rtc service_step s s' -> op_typed op ->
  version_of s <= version_of s'
  /\ exists st s'', service_do op s' = Some (st, s'') /\ op_outcome op st s' s''.
Proof.
  intros Hok Hs Ht. destruct (service_steps_ok s s' Hs Hok) as [Hok' Hle]. split; [done|]. by apply service_do_total.
Qed.
End nvram.

(** ** Transfers *)

Lemma not_ready_refuses {W} `{Machine} (r : pbns_recovery_service_rollback W) m current target authorization w :
  exists st, st <> PBNS_OK
  /\ rollback_advance r (Some (mk_manifest_state m false)) current target authorization w = Some (st, r, w).
Proof.
  unfold rollback_advance. destruct (negb (controller_matches_mode _ _)); [by exists PBNS_ERR_ARGUMENT|].
  destruct (_ || _); [by exists PBNS_ERR_REPLAY|]. by exists PBNS_ERR_AUTHENTICATION.
Qed.

(** A transfer that fails closes the service.  Streaming always returns.
    Success means that the pages hold an image of the size and the digest of the
    manifest, which was ready and stays.  After a failure the manifest and the
    whole workspace are zeroed, the pages are zeroed as soon as a callback may
    have run, and every update of the stored version is refused without touching
    the store until a manifest is set again. *)
Theorem service_stream_closes {W : Type} `{Q : QCBOR} `{M : Machine} (sv : live_services W) (digest_of : bytes -> bytes)
    `{L : !LiveLaws sv digest_of} (key policy : pbns_view) (s : pbns_recovery_service_manifest_state) (pages : pbns_buffer)
    (ws : pbns_recovery_live_workspace) (w : W) :
  live_workspace_ok ws -> length (rm_host_binding (ms_manifest s)) = 32%nat ->
  length (rm_artifact_digest (ms_manifest s)) = 32%nat ->
  exists st s' data ws' w',
    pbns_recovery_service_stream (Some (live_client_of sv key policy)) (Some s) pages (Some ws) w
      = Some (st, Some s', data, Some ws', w')
  /\ (st = PBNS_OK -> s' = s /\ ms_ready s = true /\ zlen data = rm_image_size (ms_manifest s)
      /\ digest_of data = rm_artifact_digest (ms_manifest s))
  /\ (st <> PBNS_OK -> s' = mk_manifest_state zero_manifest false /\ transient_clear ws' /\ manifest_clear ws'
      /\ (data = replicate (length (b_data pages)) 0 \/ data = b_data pages /\ w' = w)
      /\ forall (W2 : Type) (r : pbns_recovery_service_rollback W2) current target authorization (w2 : W2),
         exists st2, st2 <> PBNS_OK /\ rollback_advance r (Some s') current target authorization w2 = Some (st2, r, w2)).
Proof.
  intros Hok Hh Hd. unfold pbns_recovery_service_stream, pbns_recovery_service_manifest_invalidate.
  assert (Hclosed : forall st data ws0 w', st <> PBNS_OK ->
    data = replicate (length (b_data pages)) 0 \/ data = b_data pages /\ w' = w ->
    exists st' s' data' ws' w'', Some (st, Some (mk_manifest_state zero_manifest false), data,
      Some (clear_manifest (clear_transient ws0)), w') = Some (st', Some s', data', Some ws', w'')
    /\ (st' = PBNS_OK -> s' = s /\ ms_ready s = true /\ zlen data' = rm_image_size (ms_manifest s)
        /\ digest_of data' = rm_artifact_digest (ms_manifest s))
    /\ (st' <> PBNS_OK -> s' = mk_manifest_state zero_manifest false /\ transient_clear ws' /\ manifest_clear ws'
      /\ (data' = replicate (length (b_data pages)) 0 \/ data' = b_data pages /\ w'' = w)
      /\ forall (W2 : Type) (r : pbns_recovery_service_rollback W2) current target authorization (w2 : W2),
         exists st2, st2 <> PBNS_OK /\ rollback_advance r (Some s') current target authorization w2 = Some (st2, r, w2))).
  { intros st data ws0 w' Hst Hdata. destruct (clear_transient_spec ws0) as (T & _). destruct (clear_manifest_spec _ T) as (T' & C & _).
    do 5 eexists. split; [reflexivity|]. split; [done|]. intros _. split_and!; try done. intros. apply not_ready_refuses. }
  cbn [fmap option_fmap option_map]. destruct (_ || _) eqn:Hg; [apply Hclosed; auto|]. bools.
  unfold pbns_recovery_live_artifact. destruct (artifact_arguments sv key policy (ms_manifest s) pages) eqn:Ha.
  - destruct (live_artifact_run sv key policy (ms_manifest s) pages ws w Hok Hh Hd Ha) as (st & data & ws' & w' & -> & _ & T & Hbad & Hgood).
    cbn [mbind option_bind]. destruct (is_ok st) eqn:Hst; cbn [negb fmap option_fmap option_map].
    + apply is_ok_spec in Hst. destruct (Hgood Hst) as (? & ? & _). do 5 eexists. split; [reflexivity|]. done.
    + apply is_ok_false in Hst. apply Hclosed; [done|]. left. auto.
  - rewrite (live_artifact_refused sv key policy) by done. cbn [mbind option_bind is_ok negb fmap option_fmap option_map].
    apply Hclosed; auto.
Qed.

(** ** Witnesses *)

Definition ex_service : service slots :=
  mk_service (mk_rollback PBNS_RECOVERY_ASSURANCE_S (Some (nvram_controller slots_nv)) zero_ar_state false)
    (mk_manifest_state zero_manifest false) ex_slots.

Definition ex_version_12 : pbns_recovery_manifest :=
  mk_manifest (replicate 16 9) (replicate 32 7) (replicate 32 5) (replicate 32 3) 12 40000 16384 2 1000 9000
    (mk_view 64 [1; 2; 3]) (mk_view 96 [4; 5]).

(** The service after the store was read, and after the manifest was set. *)
Definition ex_service_read : service slots :=
  mk_service (mk_rollback PBNS_RECOVERY_ASSURANCE_S (Some (nvram_controller slots_nv))
    (mk_ar_state 11 5 1 PBNS_ANTI_ROLLBACK_ASSURANCE_NVRAM_REDUCED) true) (mk_manifest_state zero_manifest false) ex_slots.

Definition ex_service_set : service slots :=
  mk_service (sv_rollback ex_service_read) (mk_manifest_state ex_version_12 true) ex_slots.

Lemma ex_service_ok : service_ok slots_nv ex_service.
Proof. split; [exact ex_slots_ok|]. done. Qed.

Lemma ex_service_steps : rtc (@service_step slots x86_64) ex_service ex_service_set.
Proof.
  apply (rtc_l _ _ ex_service_read); [apply (service_step_do OpRead PBNS_OK); [done|vm_compute; reflexivity]|].
  apply rtc_once, (service_step_do (OpSet ex_version_12) PBNS_OK); [done|reflexivity].
Qed.

Lemma service_version_monotone_witness :
  exists st s'', service_do (H := x86_64) (OpAdvance 11 12 null_view) ex_service_set = Some (st, s'')
  /\ (st = PBNS_OK -> version_of slots_nv s'' = 12).
Proof.
  destruct (@service_version_monotone x86_64 slots slots_nv slots_laws ex_service ex_service_set (OpAdvance 11 12 null_view)
    ex_service_ok ex_service_steps) as (_ & st & s'' & E & _ & _ & H); [split; discriminate|].
  exists st, s''. split; [exact E|]. intros Hst. exact (proj1 (H Hst)).
Defined.

(** The update of the example succeeds; without a manifest it is refused. *)
Example ex_service_advance :
  (fun '(st, s) => (st, version_of slots_nv s)) <$> service_do (H := x86_64) (OpAdvance 11 12 null_view) ex_service_set
    = Some (PBNS_OK, 12)
  /\ fst <$> service_do (H := x86_64) (OpAdvance 11 12 null_view) ex_service_read = Some PBNS_ERR_AUTHENTICATION.
Proof. split; vm_compute; reflexivity. Qed.

Lemma service_stream_closes_witness :
  exists st s' data ws' w',
    @pbns_recovery_service_stream (nat * bytes) tree_qcbor x86_64 (Some ex_live_client)
      (Some (mk_manifest_state ex_live_manifest true)) (mk_buffer 8388608 0 [1; 1; 1]) (Some ex_live_workspace) (0%nat, [])
      = Some (st, Some s', data, Some ws', w')
  /\ (st = PBNS_OK -> ex_digest data = rm_artifact_digest ex_live_manifest).
Proof.
  destruct (@service_stream_closes (nat * bytes) tree_qcbor x86_64 ex_live_services ex_digest ex_live_laws
    (mk_view 128 [6; 6]) (mk_view 160 [4; 5]) (mk_manifest_state ex_live_manifest true) (mk_buffer 8388608 0 [1; 1; 1])
    ex_live_workspace (0%nat, []) ex_live_workspace_ok eq_refl eq_refl) as (st & s' & data & ws' & w' & E & H & _).
  exists st, s', data, ws', w'. split; [exact E|]. intros Hst. exact (proj2 (proj2 (proj2 (H Hst)))).
Defined.
