(* ===== verification/FlatMap.v ===== *)
(** * Canonical maps of one level

    Several decoders read the fields of a CBOR map, encode what they read into a
    scratch buffer and compare: only the canonical encoding passes.  This file
    holds the encoder call they share, the comparison, and what both imply. *)

From stdpp Require Import base list numbers.
From Stdlib Require Import ZArith Lia.
From S2P Require Import Prelude Status Buffers Cbor.

Section encoding.
Context `{Q : QCBOR}.

(** The map is written, then [QCBOREncode_Finish]: the status, the storage and
    [*written], which is stored on success only. *)
Definition encode_flat (fields : list (Z * cbor_value)) (storage : bytes) : pbns_status * bytes * Z :=
  let '(error, encoded, data) := QCBOREncode_map fields storage in
  match error with
  | QCBOR_SUCCESS => (PBNS_OK, data, zlen encoded)
  | QCBOR_ERR_BUFFER_TOO_SMALL => (PBNS_ERR_LIMIT, data, 0)
  | QCBOR_ERR_OTHER => (PBNS_ERR_FORMAT, data, 0)
  end.

(** The octets that were written are the ones that were received. *)
Definition same_encoding (size : Z) (data encoded : bytes) : bool :=
  (size =? zlen encoded) && bytes_eqb (take (Z.to_nat size) data) encoded.

Lemma encode_flat_spec fields storage st data size :
  encode_flat fields storage = (st, data, size) ->
  length data = length storage
  /\ (st = PBNS_OK -> size = zlen (cbor_map fields) /\ take (Z.to_nat size) data = cbor_map fields)
  /\ (st <> PBNS_OK -> size = 0)
  /\ (zlen storage < UINT32_MAX -> st = if zlen storage <? zlen (cbor_map fields) then PBNS_ERR_LIMIT else PBNS_OK).
Proof.
  unfold encode_flat. destruct (QCBOREncode_map fields storage) as [[e out] data0] eqn:E.
  destruct (QCBOREncode_map_spec _ _ _ _ _ E) as (Hlen & Hok & Hfit & Hsmall). intros Er.
  assert (Hd : data = data0) by (destruct e; by injection Er as _ <- _). subst data0. split; [done|]. split; [|split].
  - intros ->. destruct e; try done. injection Er as <-. destruct (Hok eq_refl) as (-> & _ & ->).
    by rewrite Nat2Z.id, take_app_length.
  - intros Hne. destruct e; injection Er; congruence.
  - intros Hu. destruct (Z.ltb_spec (zlen storage) (zlen (cbor_map fields))).
    + rewrite Hsmall in Er by lia. by injection Er.
    + rewrite Hfit in Er by lia. by injection Er.
Qed.

(** A payload that passes the comparison is the canonical encoding. *)
Lemma same_encoding_sound fields storage data size encoded :
  encode_flat fields storage = (PBNS_OK, data, size) -> same_encoding size data encoded = true -> encoded = cbor_map fields.
Proof.
  intros E Hs. apply encode_flat_spec in E as (_ & Hok & _). destruct (Hok eq_refl) as [_ Htk].
  unfold same_encoding in Hs. bools. match goal with H : bytes_eqb _ _ = true |- _ => apply bytes_eqb_spec in H end. congruence.
Qed.

(** The canonical encoding passes it in any storage that can hold it. *)
Lemma same_encoding_complete fields storage :
  zlen (cbor_map fields) <= zlen storage < UINT32_MAX ->
  exists data, encode_flat fields storage = (PBNS_OK, data, zlen (cbor_map fields)) /\ length data = length storage
  /\ take (Z.to_nat (zlen (cbor_map fields))) data = cbor_map fields
  /\ same_encoding (zlen (cbor_map fields)) data (cbor_map fields) = true.
Proof.
  intros Hfit. destruct (encode_flat fields storage) as [[st data] size] eqn:E.
  apply encode_flat_spec in E as (Hlen & Hok & _ & Hst). specialize (Hst ltac:(lia)).
  rewrite (proj2 (Z.ltb_ge (zlen storage) _)) in Hst by lia. subst st. destruct (Hok eq_refl) as [-> Htk]. exists data.
  split; [done|]. split; [done|]. split; [done|]. unfold same_encoding. by rewrite Z.eqb_refl, Htk, bytes_eqb_refl.
Qed.
End encoding.
