(* ===== verification/Object.v ===== *)
(** * Signed objects ([include/pbns/object.h], [src/core/object.c])

    The fields that every signed object of the protocol has: a domain, a version,
    a service, the request, the host, a nonce, two times and a body.  An object
    is accepted only in its canonical encoding and only for the domain, service,
    request and nonce that the caller expects. *)

From stdpp Require Import base list numbers.
From Stdlib Require Import ZArith Lia.
From S2P Require Import Prelude Status Buffers Frame Cbor CborReader FlatMap TrustedTime TimeProps.

(** ** The code *)

Definition PBNS_OBJECT_VERSION : Z := 1.
Definition PBNS_OBJECT_FIELD_COUNT : Z := 9.
Definition PBNS_OBJECT_NONCE_SIZE : Z := 32.
Definition PBNS_OBJECT_HOST_BINDING_SIZE : Z := 32.

Record pbns_object_context := mk_object {
  ob_domain : pbns_view;
  ob_object_version : Z;
  ob_service : Z;
  ob_request_id : bytes;
  ob_host_binding : pbns_view;
  ob_nonce : pbns_view;
  ob_issued_at : Z;
  ob_expiry_or_max_age : Z;
  ob_body : pbns_view;
}.

Definition zero_object : pbns_object_context :=
  mk_object null_view 0 PBNS_SERVICE_INVALID zero_request_id null_view null_view 0 0 null_view.

Definition service_is_valid (service : Z) : bool :=
  (PBNS_SERVICE_TRUSTED_TIME <=? service) && (service <=? PBNS_SERVICE_ENROLLMENT).

Definition views_match (left right : pbns_view) : bool :=
  if negb (v_len left =? v_len right) then false else bytes_eqb (v_data left) (v_data right).

Definition request_ids_match (left right : bytes) : bool := bytes_eqb left right.

Definition object_fields (o : pbns_object_context) : list (Z * cbor_value) :=
  [(1, CText (v_data (ob_domain o))); (2, CUInt (ob_object_version o)); (3, CUInt (ob_service o));
   (4, CBytes (ob_request_id o)); (5, CBytes (v_data (ob_host_binding o))); (6, CBytes (v_data (ob_nonce o)));
   (7, CUInt (ob_issued_at o)); (8, CUInt (ob_expiry_or_max_age o)); (9, CBytes (v_data (ob_body o)))].

Section code.
Context `{QCBOR}.

Definition object_encode_canonical (o : pbns_object_context) (storage : bytes) : pbns_status * bytes * Z :=
  encode_flat (object_fields o) storage.

(** Host binding, nonce, times and body, after the service was accepted. *)
Definition decode_object_rest (domain : pbns_view) (object_version service : Z) (decoder : QCBORDecodeContext)
  : option pbns_object_context :=
  '(request_id, decoder) ← decode_bytes decoder 4 PBNS_REQUEST_ID_SIZE;
  '(host_binding, decoder) ← decode_string QCBOR_TYPE_BYTE_STRING decoder 5;
  if negb (v_len host_binding =? 0) && negb (v_len host_binding =? PBNS_OBJECT_HOST_BINDING_SIZE) then None else
  '(nonce, decoder) ← decode_string QCBOR_TYPE_BYTE_STRING decoder 6;
  if negb (v_len nonce =? PBNS_OBJECT_NONCE_SIZE) then None else
  '(issued_at, decoder) ← decode_u64 decoder 7;
  '(expiry_or_max_age, decoder) ← decode_u64 decoder 8;
  '(body, decoder) ← decode_string QCBOR_TYPE_BYTE_STRING decoder 9;
  if QCBORDecode_Finish decoder
  then Some (mk_object domain object_version service request_id host_binding nonce issued_at expiry_or_max_age body) else None.

Definition decode_common (encoded : bytes) : pbns_status + pbns_object_context :=
  let head :=
    decoder ← decode_map_head (QCBORDecode_Init encoded) PBNS_OBJECT_FIELD_COUNT;
    '(domain, decoder) ← decode_string QCBOR_TYPE_TEXT_STRING decoder 1;
    '(object_version, decoder) ← decode_u64 decoder 2;
    '(service, decoder) ← decode_u64 decoder 3;
    Some (domain, object_version, service, decoder) in
  match head with
  | None => inl PBNS_ERR_FORMAT
  | Some (domain, object_version, service, decoder) =>
      if (service <? PBNS_SERVICE_TRUSTED_TIME) || (PBNS_SERVICE_ENROLLMENT <? service) then inl PBNS_ERR_SERVICE
      else match decode_object_rest domain object_version service decoder with
           | None => inl PBNS_ERR_FORMAT
           | Some o => inr o
           end
  end.

Context `{Machine}.

(** The status, the octets of the scratch buffer and the result.  The expected
    domain is a string constant: its octets and its length. *)
Definition object_validate_common (encoded : pbns_view) (expected_domain : bytes) (expected_service : Z)
    (expected_request : bytes) (expected_nonce : pbns_view) (canonical_scratch : pbns_buffer)
  : pbns_status * bytes * pbns_object_context :=
  let fail status data := (status, data, zero_object) in
  if negb (view_is_valid encoded) || negb (service_is_valid expected_service) || negb (view_is_valid expected_nonce)
     || negb (v_len expected_nonce =? PBNS_OBJECT_NONCE_SIZE) || negb (buffer_is_valid canonical_scratch)
  then fail PBNS_ERR_ARGUMENT (b_data canonical_scratch)
  else if (PBNS_FRAME_V1_CONTROL_PAYLOAD_MAX <? v_len encoded) || (b_cap canonical_scratch <? v_len encoded)
  then fail PBNS_ERR_LIMIT (b_data canonical_scratch)
  else if ranges_overlap (v_ptr encoded) (v_len encoded) (b_ptr canonical_scratch) (b_cap canonical_scratch)
  then fail PBNS_ERR_ARGUMENT (b_data canonical_scratch)
  else
  match decode_common (v_data encoded) with
  | inl status => fail status (b_data canonical_scratch)
  | inr parsed =>
      let '(status, scratch, canonical_len) := object_encode_canonical parsed (b_data canonical_scratch) in
      if negb (is_ok status) then fail status scratch
      else if negb (same_encoding canonical_len scratch (v_data encoded)) then fail PBNS_ERR_FORMAT scratch
      else if negb (ob_object_version parsed =? PBNS_OBJECT_VERSION) then fail PBNS_ERR_VERSION scratch
      else if negb (ob_service parsed =? expected_service) then fail PBNS_ERR_SERVICE scratch
      else if negb (views_match (ob_domain parsed) (mk_view 1 expected_domain))
              || negb (request_ids_match (ob_request_id parsed) expected_request)
              || negb (views_match (ob_nonce parsed) expected_nonce)
      then fail PBNS_ERR_AUTHENTICATION scratch
      else (PBNS_OK, scratch, parsed)
  end.

Definition pbns_object_validate_common (encoded : pbns_view) (expected_domain : ptr bytes) (expected_service : Z)
    (expected_request : ptr bytes) (expected_nonce : pbns_view) (canonical_scratch : pbns_buffer) (result : ptr pbns_object_context)
  : pbns_status * bytes * ptr pbns_object_context :=
  match expected_domain, expected_request, result with
  | Some domain, Some request, Some _ =>
      let '(status, scratch, o) :=
        object_validate_common encoded domain expected_service request expected_nonce canonical_scratch in
      (status, scratch, Some o)
  | _, _, _ => (PBNS_ERR_ARGUMENT, b_data canonical_scratch, (fun _ => zero_object) <$> result)
  end.
End code.

(** ** What is accepted *)

(** What the caller expects of an object. *)
Record object_expectation := mk_expectation { oe_domain : bytes; oe_service : Z; oe_request : bytes; oe_nonce : bytes }.

Definition object_matches (o : pbns_object_context) (e : object_expectation) : Prop :=
  v_data (ob_domain o) = oe_domain e /\ ob_object_version o = PBNS_OBJECT_VERSION /\ ob_service o = oe_service e
  /\ ob_request_id o = oe_request e /\ v_data (ob_nonce o) = oe_nonce e
  /\ (v_len (ob_host_binding o) = 0 \/ v_len (ob_host_binding o) = 32).

(** Equal but for the addresses of the strings. *)
Definition same_object (a b : pbns_object_context) : Prop :=
  v_data (ob_domain a) = v_data (ob_domain b) /\ ob_object_version a = ob_object_version b /\ ob_service a = ob_service b
  /\ ob_request_id a = ob_request_id b /\ v_data (ob_host_binding a) = v_data (ob_host_binding b)
  /\ v_data (ob_nonce a) = v_data (ob_nonce b) /\ ob_issued_at a = ob_issued_at b
  /\ ob_expiry_or_max_age a = ob_expiry_or_max_age b /\ v_data (ob_body a) = v_data (ob_body b).

(** The ranges of the C fields. *)
Definition object_typed (o : pbns_object_context) : Prop :=
  0 <= ob_object_version o <= UINT64_MAX /\ 0 <= ob_service o <= UINT64_MAX /\ 0 <= ob_issued_at o <= UINT64_MAX
  /\ 0 <= ob_expiry_or_max_age o <= UINT64_MAX /\ v_len (ob_domain o) <= UINT64_MAX /\ zlen (ob_request_id o) <= UINT64_MAX
  /\ v_len (ob_host_binding o) <= UINT64_MAX /\ v_len (ob_nonce o) <= UINT64_MAX /\ v_len (ob_body o) <= UINT64_MAX.

Lemma object_fields_ok o : object_typed o -> cbor_fields_ok (object_fields o).
Proof.
  unfold object_typed, v_len, UINT64_MAX. intros (? & ? & ? & ? & ? & ? & ? & ? & ?).
  unfold cbor_fields_ok, object_fields, UINT64_MAX, INT64_MAX. split; [|done].
  repeat (apply Forall_cons_iff; split); [..|done]; (split; [cbn [fst]; lia|]); cbn [snd cbor_value_ok]; unfold UINT64_MAX; lia.
Qed.

Lemma object_encoding_inj a b :
  object_typed a -> object_typed b -> cbor_map (object_fields a) = cbor_map (object_fields b) -> same_object a b.
Proof.
  intros Ha Hb E. apply cbor_map_inj in E; [|by apply object_fields_ok..].
  unfold norm_fields, object_fields in E. cbn [fmap list_fmap fst snd cbor_norm] in E. by injection E.
Qed.

Lemma views_match_spec a b : views_match a b = true <-> v_data a = v_data b.
Proof.
  unfold views_match, v_len. destruct (Z.eqb_spec (zlen (v_data a)) (zlen (v_data b))) as [E|E]; cbn [negb].
  - apply bytes_eqb_spec.
  - split; [done|]. intros E'. by rewrite E' in E.
Qed.

Lemma decode_rest_shape `{Q : QCBOR} domain version service d o :
  decode_object_rest domain version service d = Some o ->
  ob_domain o = domain /\ ob_object_version o = version /\ ob_service o = service /\ v_len (ob_nonce o) = 32
  /\ (v_len (ob_host_binding o) = 0 \/ v_len (ob_host_binding o) = 32).
Proof.
  unfold decode_object_rest. intros E. apply bind_Some in E as ([id d1] & _ & E). apply bind_Some in E as ([host d2] & _ & E).
  destruct (_ && _) eqn:Hh in E; [done|]. apply bind_Some in E as ([nonce d3] & _ & E). destruct (negb _) eqn:Hn in E; [done|].
  apply bind_Some in E as ([issued d4] & _ & E). apply bind_Some in E as ([expiry d5] & _ & E).
  apply bind_Some in E as ([body d6] & _ & E). destruct (QCBORDecode_Finish d6); [|done]. injection E as <-. cbn.
  unfold PBNS_OBJECT_NONCE_SIZE, PBNS_OBJECT_HOST_BINDING_SIZE in *. split_and!; try done; lia.
Qed.

Lemma object_validate_spec `{Q : QCBOR} `{M : Machine} encoded domain service request nonce scratch st data o :
  object_validate_common encoded domain service request nonce scratch = (st, data, o) ->
  length data = length (b_data scratch) /\ (st <> PBNS_OK -> o = zero_object)
  /\ (st = PBNS_OK -> v_data encoded = cbor_map (object_fields o)
      /\ object_matches o (mk_expectation domain service request (v_data nonce))).
Proof.
  unfold object_validate_common. destruct (_ || _) eqn:Harg; [by intros [= <- <- <-]|].
  destruct (_ || (b_cap scratch <? _)); [by intros [= <- <- <-]|]. destruct (ranges_overlap _ _ _ _); [by intros [= <- <- <-]|].
  destruct (decode_common (v_data encoded)) as [st0|parsed] eqn:Ed.
  { assert (st0 <> PBNS_OK) by (unfold decode_common in Ed; repeat case_match; congruence). by intros [= <- <- <-]. }
  assert (Hh : v_len (ob_host_binding parsed) = 0 \/ v_len (ob_host_binding parsed) = 32).
  { unfold decode_common in Ed. destruct (mbind _ _) as [[[[? ?] ?] ?]|] in Ed; [|done]. destruct (_ || _) in Ed; [done|].
    destruct (decode_object_rest _ _ _ _) eqn:Er in Ed; [|done]. injection Ed as <-. by apply decode_rest_shape in Er as (_ & _ & _ & _ & Er). }
  destruct (object_encode_canonical parsed (b_data scratch)) as [[st1 data1] size] eqn:Ee. unfold object_encode_canonical in Ee.
  pose proof (encode_flat_spec _ _ _ _ _ Ee) as (Hlen & _).
  destruct (is_ok st1) eqn:Eok; cbn [negb]; [|apply is_ok_false in Eok; by intros [= <- <- <-]]. apply is_ok_spec in Eok as ->.
  destruct (same_encoding _ _ _) eqn:Hs; cbn [negb]; [|by intros [= <- <- <-]].
  destruct (Z.eqb_spec (ob_object_version parsed) PBNS_OBJECT_VERSION); cbn [negb]; [|by intros [= <- <- <-]].
  destruct (Z.eqb_spec (ob_service parsed) service); cbn [negb]; [|by intros [= <- <- <-]].
  destruct (_ || negb (views_match _ nonce)) eqn:Hm; [by intros [= <- <- <-]|]. intros [= <- <- <-]. split; [done|]. split; [done|].
  intros _. split; [by eapply same_encoding_sound|]. bools.
  repeat match goal with H : views_match _ _ = true |- _ => apply views_match_spec in H; cbn [v_data] in H end.
  unfold request_ids_match in *. match goal with H : bytes_eqb _ _ = true |- _ => apply bytes_eqb_spec in H end. done.
Qed.

(** ** Reading back *)

(** An object that the caller expects, and that can be encoded. *)
Definition object_proper (o : pbns_object_context) (e : object_expectation) : Prop :=
  object_typed o /\ object_matches o e /\ zlen (ob_request_id o) = 16 /\ v_len (ob_nonce o) = 32
  /\ PBNS_SERVICE_TRUSTED_TIME <= ob_service o <= PBNS_SERVICE_ENROLLMENT.

Section reads.
Context `{Q : QCBOR} `{!QCBORReads}.

Notation reading fields d := (Forall2 item_matches fields (pending d)).

Lemma decode_rest_reads o d domain :
  object_typed o -> zlen (ob_request_id o) = 16 -> v_len (ob_nonce o) = 32 ->
  (v_len (ob_host_binding o) = 0 \/ v_len (ob_host_binding o) = 32) -> reading (drop 3 (object_fields o)) d ->
  v_data domain = v_data (ob_domain o) ->
  exists o', decode_object_rest domain (ob_object_version o) (ob_service o) d = Some o' /\ same_object o o'.
Proof.
  intros (_ & _ & T7 & T8 & _) S4 S6 S5 H3 Hd. cbn [drop object_fields] in H3.
  destruct (decode_bytes_reads d 4 (ob_request_id o) _ 16 ltac:(lia) H3) as (d4 & E4 & H4).
  destruct (decode_byte_string_reads d4 5 _ _ H4) as (p5 & d5 & E5 & _ & H5).
  destruct (decode_byte_string_reads d5 6 _ _ H5) as (p6 & d6 & E6 & _ & H6).
  destruct (decode_u64_reads d6 7 _ _ T7 H6) as (d7 & E7 & H7). destruct (decode_u64_reads d7 8 _ _ T8 H7) as (d8 & E8 & H8).
  destruct (decode_byte_string_reads d8 9 _ _ H8) as (p9 & d9 & E9 & _ & H9).
  assert (Hp : pending d9 = []) by (by inversion H9). apply reads_finish in Hp.
  unfold decode_object_rest, PBNS_REQUEST_ID_SIZE. rewrite E4. cbn [mbind option_bind]. rewrite E5. cbn [mbind option_bind].
  unfold v_len in *. cbn [v_data].
  replace (negb _ && negb _) with false by (unfold PBNS_OBJECT_HOST_BINDING_SIZE; lia).
  rewrite E6. cbn [mbind option_bind v_data]. rewrite S6. change (negb (32 =? PBNS_OBJECT_NONCE_SIZE)) with false. cbv iota.
  rewrite E7. cbn [mbind option_bind]. rewrite E8. cbn [mbind option_bind]. rewrite E9. cbn [mbind option_bind]. rewrite Hp.
  eexists. split; [reflexivity|]. by unfold same_object.
Qed.

Lemma decode_common_reads o e :
  object_proper o e -> zlen (cbor_map (object_fields o)) <= UINT16_MAX ->
  exists o', decode_common (cbor_map (object_fields o)) = inr o' /\ same_object o o'.
Proof.
  intros (Ht & Hm & S4 & S6 & Hsvc) Hsz. destruct (decode_map_head_reads _ (object_fields_ok o Ht) Hsz) as (d0 & E0 & H0).
  destruct (decode_text_reads d0 1 _ _ H0) as (p1 & d1 & E1 & N1 & H1).
  destruct (decode_u64_reads d1 2 _ _ (proj1 Ht) H1) as (d2 & E2 & H2).
  destruct (decode_u64_reads d2 3 _ _ (proj1 (proj2 Ht)) H2) as (d3 & E3 & H3).
  unfold decode_common, PBNS_OBJECT_FIELD_COUNT. change (zlen (object_fields o)) with 9 in E0. rewrite E0. cbn [mbind option_bind]. rewrite E1. cbn [mbind option_bind].
  rewrite E2. cbn [mbind option_bind]. rewrite E3. cbn [mbind option_bind].
  replace ((_ <? _) || (_ <? _)) with false by lia.
  destruct (decode_rest_reads o d3 (mk_view p1 (v_data (ob_domain o))) Ht S4 S6) as (o' & -> & Hs);
    [by destruct Hm as (_ & _ & _ & _ & _ & ?)|exact H3|done|]. by exists o'.
Qed.
End reads.

Lemma object_validate_reads `{Q : QCBOR} `{!QCBORReads} `{M : Machine} o e encoded nonce scratch :
  object_proper o e -> v_data encoded = cbor_map (object_fields o) -> v_ptr encoded <> 0 ->
  v_data nonce = oe_nonce e -> v_ptr nonce <> 0 -> buffer_is_valid scratch = true -> v_len encoded <= UINT16_MAX ->
  v_len encoded <= b_cap scratch < UINT32_MAX ->
  ranges_overlap (v_ptr encoded) (v_len encoded) (b_ptr scratch) (b_cap scratch) = false ->
  exists data o', object_validate_common encoded (oe_domain e) (oe_service e) (oe_request e) nonce scratch = (PBNS_OK, data, o')
  /\ same_object o o'.
Proof.
  intros Ho Henc Hp Hn Hnp Hb Hsz Hcap Hov. pose proof Ho as (Ht & (M1 & M2 & M3 & M4 & M5 & M6) & S4 & S6 & Hsvc).
  unfold v_len in Hsz, Hcap. rewrite Henc in Hsz, Hcap. destruct (decode_common_reads o e Ho Hsz) as (o' & Ed & Hs).
  destruct Hs as (Q1 & Q2 & Q3 & Q4 & Q5 & Q6 & Q7 & Q8 & Q9).
  assert (Hf : object_fields o' = object_fields o) by (unfold object_fields; congruence).
  destruct (same_encoding_complete (object_fields o) (b_data scratch)) as (data & Ee & _ & _ & Hse); [unfold b_cap in Hcap; lia|].
  unfold object_validate_common, object_encode_canonical. rewrite Hov, Hb, !(proj2 (view_is_valid_spec _)) by (by left).
  replace (negb (service_is_valid (oe_service e))) with false by (unfold service_is_valid; lia).
  unfold v_len. rewrite Hn, <- M5, Henc. unfold v_len in S6. rewrite S6. change (negb (32 =? PBNS_OBJECT_NONCE_SIZE)) with false.
  cbn [negb orb]. unfold PBNS_FRAME_V1_CONTROL_PAYLOAD_MAX, UINT16_MAX in *.
  rewrite (proj2 (Z.ltb_ge 65536 _)), (proj2 (Z.ltb_ge (b_cap scratch) _)) by lia. cbn [orb]. rewrite Ed, Hf, Ee. cbn [is_ok negb].
  rewrite Hse, <- Q2, M2, <- Q3, M3, <- Q4, M4, !Z.eqb_refl. cbn [negb].
  rewrite (proj2 (views_match_spec (ob_domain o') _)) by (cbn [v_data]; congruence).
  rewrite (proj2 (views_match_spec (ob_nonce o') nonce)) by congruence. unfold request_ids_match. rewrite bytes_eqb_refl. cbn [negb orb].
  eexists _, _. split; [reflexivity|]. by unfold same_object.
Qed.

(** ** Properties *)

(** C12: a signed object is accepted only in its one encoding and only for what the
    caller expects.  Whatever the CBOR decoder does: an accepted payload is the
    canonical encoding of the result, whose version is current and whose domain,
    service, request and nonce are the expected ones, with no host or a whole
    fingerprint; a refusal leaves a zeroed result; and no two objects share a
    payload.  With a decoder that reads what was written, the canonical encoding
    of every expected object is accepted and gives that object. *)
Theorem object_accepted_only_expected `{Q : QCBOR} `{M : Machine} (encoded nonce : pbns_view) (e : object_expectation)
    (scratch : pbns_buffer) :
  v_data nonce = oe_nonce e ->
  exists st data o, object_validate_common encoded (oe_domain e) (oe_service e) (oe_request e) nonce scratch = (st, data, o)
  /\ length data = length (b_data scratch) /\ (st <> PBNS_OK -> o = zero_object)
  /\ (st = PBNS_OK -> object_matches o e /\ v_data encoded = cbor_map (object_fields o)
      /\ forall o', object_typed o -> object_typed o' -> v_data encoded = cbor_map (object_fields o') -> same_object o o')
  /\ forall (R : QCBORReads) o', object_proper o' e -> v_data encoded = cbor_map (object_fields o') -> v_ptr encoded <> 0 ->
     v_ptr nonce <> 0 -> buffer_is_valid scratch = true -> v_len encoded <= UINT16_MAX -> v_len encoded <= b_cap scratch < UINT32_MAX ->
     ranges_overlap (v_ptr encoded) (v_len encoded) (b_ptr scratch) (b_cap scratch) = false ->
     st = PBNS_OK /\ same_object o' o.
Proof.
  intros Hn. destruct (object_validate_common _ _ _ _ _ _) as [[st data] o] eqn:E. exists st, data, o. split; [done|].
  pose proof (object_validate_spec _ _ _ _ _ _ _ _ _ E) as (Hlen & Hz & Hok). split; [done|]. split; [done|]. split.
  - intros Hst. destruct (Hok Hst) as [Henc Hm]. rewrite Hn in Hm. split; [by destruct e|]. split; [done|].
    intros o' T T' E'. apply object_encoding_inj; [done..|]. by rewrite <- Henc.
  - intros R o' Ho Henc Hp Hnp Hb Hsz Hcap Hov.
    destruct (object_validate_reads o' e encoded nonce scratch Ho Henc Hp Hn Hnp Hb Hsz Hcap Hov) as (data' & o2 & E2 & Hs).
    rewrite E in E2. by injection E2 as -> _ ->.
Qed.

Definition ex_object : pbns_object_context :=
  mk_object (mk_view 16 [80; 66]) 1 PBNS_SERVICE_ENROLLMENT (replicate 16 1) null_view (mk_view 64 (replicate 32 2)) 100 200
    (mk_view 128 [1; 2; 3]).

Definition ex_expectation : object_expectation := mk_expectation [80; 66] PBNS_SERVICE_ENROLLMENT (replicate 16 1) (replicate 32 2).

Definition ex_object_scratch : pbns_buffer := mk_buffer 8192 0 (replicate 256 0).

Lemma ex_object_proper : object_proper ex_object ex_expectation.
Proof. unfold object_proper, object_typed, object_matches. vm_compute. intuition (discriminate || auto). Qed.

Lemma object_accepted_only_expected_witness :
  exists data o, @object_validate_common reference_qcbor x86_64 (mk_view 4096 (cbor_map (object_fields ex_object))) [80; 66]
    PBNS_SERVICE_ENROLLMENT (replicate 16 1) (mk_view 64 (replicate 32 2)) ex_object_scratch = (PBNS_OK, data, o)
  /\ same_object ex_object o.
Proof.
  destruct (@object_accepted_only_expected reference_qcbor x86_64 (mk_view 4096 (cbor_map (object_fields ex_object)))
    (mk_view 64 (replicate 32 2)) ex_expectation ex_object_scratch) as (st & data & o & E & _ & _ & _ & Hr); [reflexivity|].
  destruct (Hr reference_reads ex_object) as [-> Hs].
  - exact ex_object_proper.
  - reflexivity.
  - discriminate.
  - discriminate.
  - reflexivity.
  - vm_compute. discriminate.
  - vm_compute. intuition discriminate.
  - vm_compute. reflexivity.
  - exists data, o. split; [exact E|exact Hs].
Defined.
