(* ===== verification/AttestationWire.v ===== *)
(** * Attestation messages ([include/pbns/attestation_wire.h], [src/core/attestation_wire.c])

    The host asks for a challenge, then submits evidence for it; the verifier
    answers each with a canonical map of seven fields.  Which fields must be
    empty depends on the operation, and an answer to a submission must name the
    challenge. *)

From stdpp Require Import base list numbers.
From Stdlib Require Import ZArith Lia.
From S2P Require Import Prelude Status Buffers Frame Cbor CborReader FlatMap Compare TrustedTime TimeProps.

(** ** The code *)

Definition PBNS_ATTESTATION_WIRE_ISSUE : Z := 1.
Definition PBNS_ATTESTATION_WIRE_SUBMIT : Z := 2.
Definition PBNS_ATTESTATION_WIRE_MAX_SIZE : Z := 16384.
Definition PBNS_ATTESTATION_WIRE_RESPONSE_FIELDS : Z := 7.

Record pbns_attestation_wire_response := mk_wire_response {
  wr_operation : Z;
  wr_challenge_request_id : bytes;
  wr_verifier_nonce : bytes;
  wr_recipient_kid : pbns_view;
  wr_object : pbns_view;
  wr_evidence_digest : bytes;
  wr_baseline_id : bytes;
}.

Definition zero_wire_response : pbns_attestation_wire_response :=
  mk_wire_response 0 (replicate 16 0) (replicate 32 0) null_view null_view (replicate 32 0) (replicate 32 0).

Definition wire_buffer_valid (buffer : pbns_buffer) : bool :=
  negb (b_ptr buffer =? 0) && (b_len buffer =? 0) && (0 <? b_cap buffer) && (b_cap buffer <=? PBNS_ATTESTATION_WIRE_MAX_SIZE).

Definition wire_request_fields (operation : Z) (host challenge_request_id : bytes) : list (Z * cbor_value) :=
  [(1, CUInt operation); (2, CBytes host); (3, CBytes challenge_request_id)].

Definition wire_response_fields (r : pbns_attestation_wire_response) : list (Z * cbor_value) :=
  [(1, CUInt (wr_operation r)); (2, CBytes (wr_challenge_request_id r)); (3, CBytes (wr_verifier_nonce r));
   (4, CBytes (v_data (wr_recipient_kid r))); (5, CBytes (v_data (wr_object r))); (6, CBytes (wr_evidence_digest r));
   (7, CBytes (wr_baseline_id r))].

Section code.
Context `{QCBOR}.

(** The status, the octets of the output and [*written]. *)
Definition wire_encode_request (operation : Z) (host challenge_request_id : pbns_view) (output : pbns_buffer)
  : pbns_status * bytes * Z :=
  if negb (wire_buffer_valid output) || negb (view_is_valid host) || negb (view_is_valid challenge_request_id)
     || negb (v_len host =? 32) || negb (v_len challenge_request_id =? 16)
  then (PBNS_ERR_ARGUMENT, b_data output, 0)
  else encode_flat (wire_request_fields operation (v_data host) (v_data challenge_request_id)) (b_data output).

(** The empty arrays have static storage; [static_ptr] is its address. *)
Definition wire_encode_issue_request (static_ptr : Z) (host_fingerprint : pbns_view) (output : pbns_buffer)
  : pbns_status * bytes * Z :=
  if (v_ptr host_fingerprint =? 0) || negb (ct_nonzero (v_data host_fingerprint)) then (PBNS_ERR_ARGUMENT, b_data output, 0)
  else wire_encode_request PBNS_ATTESTATION_WIRE_ISSUE host_fingerprint (mk_view static_ptr (replicate 16 0)) output.

Definition pbns_attestation_wire_encode_issue_request (static_ptr : Z) (host_fingerprint : pbns_view) (output : pbns_buffer)
    (written : ptr Z) : pbns_status * bytes * ptr Z :=
  match written with
  | None => (PBNS_ERR_ARGUMENT, b_data output, None)
  | Some _ => let '(status, data, size) := wire_encode_issue_request static_ptr host_fingerprint output in (status, data, Some size)
  end.

Definition wire_encode_submit_request (static_ptr : Z) (challenge_request_id : pbns_view) (output : pbns_buffer)
  : pbns_status * bytes * Z :=
  if negb (view_is_valid challenge_request_id) || negb (v_len challenge_request_id =? 16)
     || negb (ct_nonzero (v_data challenge_request_id))
  then (PBNS_ERR_ARGUMENT, b_data output, 0)
  else wire_encode_request PBNS_ATTESTATION_WIRE_SUBMIT (mk_view static_ptr (replicate 32 0)) challenge_request_id output.

Definition pbns_attestation_wire_encode_submit_request (static_ptr : Z) (challenge_request_id : pbns_view) (output : pbns_buffer)
    (written : ptr Z) : pbns_status * bytes * ptr Z :=
  match written with
  | None => (PBNS_ERR_ARGUMENT, b_data output, None)
  | Some _ => let '(status, data, size) := wire_encode_submit_request static_ptr challenge_request_id output in (status, data, Some size)
  end.

Definition wire_encode_response (r : pbns_attestation_wire_response) (storage : bytes) : pbns_status * bytes * Z :=
  encode_flat (wire_response_fields r) storage.

(** The fields in order; [None] is the failed condition. *)
Definition wire_read_response (encoded : bytes) (operation : Z) : option pbns_attestation_wire_response :=
  decoder ← decode_map_head (QCBORDecode_Init encoded) PBNS_ATTESTATION_WIRE_RESPONSE_FIELDS;
  '(op, decoder) ← decode_u64 decoder 1;
  if negb (op =? operation) then None else
  '(challenge_request_id, decoder) ← decode_bytes decoder 2 16;
  '(verifier_nonce, decoder) ← decode_bytes decoder 3 32;
  '(recipient_kid, decoder) ← decode_string QCBOR_TYPE_BYTE_STRING decoder 4;
  '(object, decoder) ← decode_string QCBOR_TYPE_BYTE_STRING decoder 5;
  '(evidence_digest, decoder) ← decode_bytes decoder 6 32;
  '(baseline_id, decoder) ← decode_bytes decoder 7 32;
  if negb (QCBORDecode_Finish decoder) then None
  else Some (mk_wire_response op challenge_request_id verifier_nonce recipient_kid object evidence_digest baseline_id).

(** The status, the octets of the canonical buffer and [*response]. *)
Definition wire_decode_response (encoded : pbns_view) (operation : Z) (canonical : pbns_buffer)
    (response : pbns_attestation_wire_response) : pbns_status * bytes * pbns_attestation_wire_response :=
  if negb (view_is_valid encoded) || (v_len encoded =? 0) || (PBNS_ATTESTATION_WIRE_MAX_SIZE <? v_len encoded)
     || negb (wire_buffer_valid canonical) || (b_cap canonical <? v_len encoded)
  then (PBNS_ERR_ARGUMENT, b_data canonical, response)
  else
  match wire_read_response (v_data encoded) operation with
  | None => (PBNS_ERR_FORMAT, b_data canonical, zero_wire_response)
  | Some r =>
      let '(status, data, canonical_size) := wire_encode_response r (b_data canonical) in
      if negb (is_ok status) then (status, data, zero_wire_response)
      else if negb (same_encoding canonical_size data (v_data encoded)) then (PBNS_ERR_FORMAT, data, zero_wire_response)
      else (PBNS_OK, data, r)
  end.

Definition wire_decode_issue_response (encoded : pbns_view) (canonical : pbns_buffer) (response : pbns_attestation_wire_response)
  : pbns_status * bytes * pbns_attestation_wire_response :=
  let '(status, data, r) := wire_decode_response encoded PBNS_ATTESTATION_WIRE_ISSUE canonical response in
  if negb (is_ok status) then (status, data, r)
  else if negb (ct_nonzero (wr_challenge_request_id r)) || negb (ct_nonzero (wr_verifier_nonce r))
          || (v_len (wr_recipient_kid r) =? 0) || (64 <? v_len (wr_recipient_kid r)) || (v_len (wr_object r) =? 0)
          || ct_nonzero (wr_evidence_digest r) || ct_nonzero (wr_baseline_id r)
  then (PBNS_ERR_FORMAT, data, zero_wire_response)
  else (PBNS_OK, data, r).

Definition pbns_attestation_wire_decode_issue_response (encoded : pbns_view) (canonical : pbns_buffer)
    (response : ptr pbns_attestation_wire_response) : pbns_status * bytes * ptr pbns_attestation_wire_response :=
  match response with
  | None => (PBNS_ERR_ARGUMENT, b_data canonical, None)
  | Some response =>
      let '(status, data, r) := wire_decode_issue_response encoded canonical response in (status, data, Some r)
  end.

Definition wire_decode_submit_response (encoded expected_challenge_request_id : pbns_view) (canonical : pbns_buffer)
    (response : pbns_attestation_wire_response) : pbns_status * bytes * pbns_attestation_wire_response :=
  if negb (view_is_valid expected_challenge_request_id) || negb (v_len expected_challenge_request_id =? 16)
     || negb (ct_nonzero (v_data expected_challenge_request_id))
  then (PBNS_ERR_ARGUMENT, b_data canonical, response)
  else
  let '(status, data, r) := wire_decode_response encoded PBNS_ATTESTATION_WIRE_SUBMIT canonical response in
  if negb (is_ok status) then (status, data, r)
  else if negb (bytes_eqb (wr_challenge_request_id r) (v_data expected_challenge_request_id))
  then (PBNS_ERR_AUTHENTICATION, data, zero_wire_response)
  else if ct_nonzero (wr_verifier_nonce r) || negb (v_len (wr_recipient_kid r) =? 0) || (v_len (wr_object r) =? 0)
          || negb (ct_nonzero (wr_evidence_digest r)) || negb (ct_nonzero (wr_baseline_id r))
  then (PBNS_ERR_FORMAT, data, zero_wire_response)
  else (PBNS_OK, data, r).

Definition pbns_attestation_wire_decode_submit_response (encoded expected_challenge_request_id : pbns_view)
    (canonical : pbns_buffer) (response : ptr pbns_attestation_wire_response)
  : pbns_status * bytes * ptr pbns_attestation_wire_response :=
  match response with
  | None => (PBNS_ERR_ARGUMENT, b_data canonical, None)
  | Some response =>
      let '(status, data, r) := wire_decode_submit_response encoded expected_challenge_request_id canonical response in
      (status, data, Some r)
  end.
End code.

(** ** What the messages are *)

(** A sized response, and what each operation requires of it. *)
Definition wire_sized (r : pbns_attestation_wire_response) : Prop :=
  length (wr_challenge_request_id r) = 16%nat /\ length (wr_verifier_nonce r) = 32%nat
  /\ length (wr_evidence_digest r) = 32%nat /\ length (wr_baseline_id r) = 32%nat.

Definition issue_ok (r : pbns_attestation_wire_response) : Prop :=
  wr_operation r = PBNS_ATTESTATION_WIRE_ISSUE /\ ct_nonzero (wr_challenge_request_id r) = true
  /\ ct_nonzero (wr_verifier_nonce r) = true /\ 0 < v_len (wr_recipient_kid r) <= 64 /\ 0 < v_len (wr_object r)
  /\ ct_nonzero (wr_evidence_digest r) = false /\ ct_nonzero (wr_baseline_id r) = false.

Definition submit_ok (r : pbns_attestation_wire_response) (challenge : bytes) : Prop :=
  wr_operation r = PBNS_ATTESTATION_WIRE_SUBMIT /\ wr_challenge_request_id r = challenge
  /\ ct_nonzero (wr_verifier_nonce r) = false /\ v_len (wr_recipient_kid r) = 0 /\ 0 < v_len (wr_object r)
  /\ ct_nonzero (wr_evidence_digest r) = true /\ ct_nonzero (wr_baseline_id r) = true.

Definition wire_encoded (r : pbns_attestation_wire_response) : bytes := cbor_map (wire_response_fields r).

(** Equal but for the addresses of the strings. *)
Definition same_response (a b : pbns_attestation_wire_response) : Prop :=
  wr_operation a = wr_operation b /\ wr_challenge_request_id a = wr_challenge_request_id b
  /\ wr_verifier_nonce a = wr_verifier_nonce b /\ v_data (wr_recipient_kid a) = v_data (wr_recipient_kid b)
  /\ v_data (wr_object a) = v_data (wr_object b) /\ wr_evidence_digest a = wr_evidence_digest b
  /\ wr_baseline_id a = wr_baseline_id b.

Definition wire_typed (r : pbns_attestation_wire_response) : Prop :=
  wire_sized r /\ 0 <= wr_operation r <= UINT64_MAX /\ v_len (wr_recipient_kid r) <= UINT64_MAX /\ v_len (wr_object r) <= UINT64_MAX.

Lemma wire_fields_ok r : wire_typed r -> cbor_fields_ok (wire_response_fields r).
Proof.
  unfold wire_typed, wire_sized, v_len, UINT64_MAX. intros ((S1 & S2 & S3 & S4) & ? & ? & ?).
  unfold cbor_fields_ok, wire_response_fields, UINT64_MAX, INT64_MAX. split; [|done].
  repeat (apply Forall_cons_iff; split); [..|done]; (split; [cbn [fst]; lia|]); cbn [snd cbor_value_ok]; unfold UINT64_MAX; lia.
Qed.

(** The operation is the third octet. *)
Lemma operations_differ a b :
  wr_operation a = PBNS_ATTESTATION_WIRE_ISSUE -> wr_operation b = PBNS_ATTESTATION_WIRE_SUBMIT -> wire_encoded a <> wire_encoded b.
Proof.
  intros Ha Hb E. unfold wire_encoded, cbor_map, wire_response_fields in E. cbn [fmap list_fmap concat cbor_pair fst snd cbor_encode] in E.
  rewrite Ha, Hb in E. apply (f_equal (fun l => l !! 2%nat)) in E. discriminate E.
Qed.

Lemma decode_bytes_length `{Q : QCBOR} d label n data d' : decode_bytes d label n = Some (data, d') -> zlen data = n.
Proof.
  unfold decode_bytes. intros E. apply bind_Some in E as ([view d1] & _ & E). unfold v_len in E.
  destruct (Z.eqb_spec (zlen (v_data view)) n); [|done]. by injection E as <- <-.
Qed.

Lemma wire_read_shape `{Q : QCBOR} encoded operation r :
  wire_read_response encoded operation = Some r -> wire_sized r /\ wr_operation r = operation.
Proof.
  unfold wire_read_response. intros E. apply bind_Some in E as (d0 & _ & E). apply bind_Some in E as ([op d1] & _ & E).
  destruct (Z.eqb_spec op operation); cbn [negb] in E; [|done].
  apply bind_Some in E as ([id d2] & E2 & E). apply bind_Some in E as ([nonce d3] & E3 & E).
  apply bind_Some in E as ([kid d4] & _ & E). apply bind_Some in E as ([object d5] & _ & E).
  apply bind_Some in E as ([digest d6] & E6 & E). apply bind_Some in E as ([baseline d7] & E7 & E).
  apply decode_bytes_length in E2, E3, E6, E7. destruct (negb _) in E; [done|]. injection E as <-.
  unfold wire_sized. cbn. split; [lia|done].
Qed.

Lemma wire_decode_spec `{Q : QCBOR} encoded operation canonical response st data r :
  wire_decode_response encoded operation canonical response = (st, data, r) ->
  length data = length (b_data canonical)
  /\ (st <> PBNS_OK -> r = zero_wire_response \/ st = PBNS_ERR_ARGUMENT /\ r = response)
  /\ (st = PBNS_OK -> v_data encoded = wire_encoded r /\ wire_sized r /\ wr_operation r = operation).
Proof.
  unfold wire_decode_response. destruct (_ || _); [intros [= <- <- <-]; split; [done|]; split; [by right|done]|].
  destruct (wire_read_response (v_data encoded) operation) as [d|] eqn:Ed; [|intros [= <- <- <-]; split; [done|]; split; [by left|done]].
  destruct (wire_encode_response d (b_data canonical)) as [[st1 data1] size] eqn:Ee. unfold wire_encode_response in Ee.
  pose proof (encode_flat_spec _ _ _ _ _ Ee) as (Hlen & _).
  destruct (is_ok st1) eqn:Eok; cbn [negb];
    [|apply is_ok_false in Eok; intros [= <- <- <-]; split; [done|]; split; [by left|done]]. apply is_ok_spec in Eok as ->.
  destruct (same_encoding _ _ _) eqn:Hs; cbn [negb]; [|intros [= <- <- <-]; split; [done|]; split; [by left|done]].
  intros [= <- <- <-]. split; [done|]. split; [done|]. intros _. split; [by eapply same_encoding_sound|]. by eapply wire_read_shape.
Qed.

(** ** Reading back *)

Section reads.
Context `{Q : QCBOR} `{!QCBORReads}.

Lemma wire_read_reads r :
  wire_typed r -> zlen (wire_encoded r) <= UINT16_MAX ->
  exists r', wire_read_response (wire_encoded r) (wr_operation r) = Some r' /\ same_response r r'.
Proof.
  intros Ht Hsz. destruct (decode_map_head_reads _ (wire_fields_ok r Ht) Hsz) as (d0 & E0 & H0).
  destruct Ht as ((S2 & S3 & S6 & S7) & T1 & _).
  destruct (decode_u64_reads d0 1 _ _ T1 H0) as (d1 & E1 & H1).
  destruct (decode_bytes_reads d1 2 (wr_challenge_request_id r) _ 16 ltac:(lia) H1) as (d2 & E2 & H2).
  destruct (decode_bytes_reads d2 3 (wr_verifier_nonce r) _ 32 ltac:(lia) H2) as (d3 & E3 & H3).
  destruct (decode_byte_string_reads d3 4 _ _ H3) as (p4 & d4 & E4 & _ & H4).
  destruct (decode_byte_string_reads d4 5 _ _ H4) as (p5 & d5 & E5 & _ & H5).
  destruct (decode_bytes_reads d5 6 (wr_evidence_digest r) _ 32 ltac:(lia) H5) as (d6 & E6 & H6).
  destruct (decode_bytes_reads d6 7 (wr_baseline_id r) _ 32 ltac:(lia) H6) as (d7 & E7 & H7).
  assert (Hp : pending d7 = []) by (by inversion H7). apply reads_finish in Hp.
  unfold wire_read_response, wire_encoded, PBNS_ATTESTATION_WIRE_RESPONSE_FIELDS.
  change (zlen (wire_response_fields r)) with 7 in E0. rewrite E0. cbn [mbind option_bind]. rewrite E1. cbn [mbind option_bind].
  rewrite Z.eqb_refl. cbn [negb]. rewrite E2. cbn [mbind option_bind]. rewrite E3. cbn [mbind option_bind].
  rewrite E4. cbn [mbind option_bind]. rewrite E5. cbn [mbind option_bind]. rewrite E6. cbn [mbind option_bind].
  rewrite E7. cbn [mbind option_bind]. rewrite Hp. cbn [negb]. eexists. split; [reflexivity|]. done.
Qed.

(** The payload and the scratch buffer that a response is decoded from. *)
Definition wire_readable (r : pbns_attestation_wire_response) (encoded : pbns_view) (canonical : pbns_buffer) : Prop :=
  wire_typed r /\ v_data encoded = wire_encoded r /\ v_ptr encoded <> 0 /\ wire_buffer_valid canonical = true
  /\ zlen (wire_encoded r) <= b_cap canonical.

Lemma wire_decode_reads r encoded canonical response :
  wire_readable r encoded canonical ->
  exists data r', wire_decode_response encoded (wr_operation r) canonical response = (PBNS_OK, data, r') /\ same_response r r'.
Proof.
  intros (Ht & Henc & Hp & Hb & Hfit). pose proof Hb as Hb'. unfold wire_buffer_valid, PBNS_ATTESTATION_WIRE_MAX_SIZE in Hb'. bools.
  destruct (wire_read_reads r Ht) as (r' & Er & Hs); [unfold UINT16_MAX; lia|]. pose proof Hs as (Q1 & Q2 & Q3 & Q4 & Q5 & Q6 & Q7).
  assert (Hf : wire_response_fields r' = wire_response_fields r) by (unfold wire_response_fields; congruence).
  destruct (same_encoding_complete (wire_response_fields r) (b_data canonical)) as (data & Ee & _ & _ & Hse);
    [unfold b_cap, wire_encoded, UINT32_MAX in *; lia|]. fold (wire_encoded r) in Ee, Hse.
  assert (Hpos : 0 < zlen (wire_encoded r)).
  { unfold wire_encoded, cbor_map. rewrite length_app. pose proof (cbor_head_pos 5 (zlen (wire_response_fields r))). lia. }
  unfold wire_decode_response. rewrite Hb, (proj2 (view_is_valid_spec _)) by (by left). unfold v_len. rewrite Henc.
  rewrite (proj2 (Z.eqb_neq (zlen (wire_encoded r)) 0)), (proj2 (Z.ltb_ge PBNS_ATTESTATION_WIRE_MAX_SIZE _)),
    (proj2 (Z.ltb_ge (b_cap canonical) _)) by (unfold PBNS_ATTESTATION_WIRE_MAX_SIZE; lia). cbn [negb orb].
  rewrite Er. unfold wire_encode_response. rewrite Hf, Ee. cbn [is_ok negb]. rewrite Hse. cbn [negb]. by eexists _, _.
Qed.

Lemma issue_reads r encoded canonical response :
  wire_readable r encoded canonical -> issue_ok r ->
  exists data r', wire_decode_issue_response encoded canonical response = (PBNS_OK, data, r') /\ same_response r r'.
Proof.
  intros Hr (Hop & Hc & Hn & Hk & Ho & He & Hb). destruct (wire_decode_reads r encoded canonical response Hr) as (data & r' & E & Hs).
  unfold wire_decode_issue_response. rewrite Hop in E. rewrite E. cbn [is_ok negb]. pose proof Hs as (_ & <- & <- & Q4 & Q5 & <- & <-).
  unfold v_len in *. rewrite <- Q4, <- Q5, Hc, Hn, He, Hb. cbn [negb orb].
  rewrite (proj2 (Z.eqb_neq (zlen (v_data (wr_recipient_kid r))) 0)), (proj2 (Z.ltb_ge 64 _)),
    (proj2 (Z.eqb_neq (zlen (v_data (wr_object r))) 0)) by lia. cbn [orb]. by eexists _, _.
Qed.

Lemma submit_reads r encoded challenge canonical response :
  wire_readable r encoded canonical -> submit_ok r (v_data challenge) -> v_ptr challenge <> 0 ->
  ct_nonzero (v_data challenge) = true ->
  exists data r', wire_decode_submit_response encoded challenge canonical response = (PBNS_OK, data, r') /\ same_response r r'.
Proof.
  intros Hr (Hop & Hc & Hn & Hk & Ho & He & Hb) Hp Hz.
  destruct (wire_decode_reads r encoded canonical response Hr) as (data & r' & E & Hs).
  destruct Hr as (((Hid & _) & _) & _). unfold wire_decode_submit_response. rewrite (proj2 (view_is_valid_spec _)), Hz by (by left).
  unfold v_len in *. rewrite <- Hc, Hid. change (Z.of_nat 16 =? 16) with true. cbn [negb orb]. rewrite Hop in E. rewrite E. cbn [is_ok negb].
  pose proof Hs as (_ & <- & <- & Q4 & Q5 & <- & <-). rewrite bytes_eqb_refl, <- Q4, <- Q5, Hn, He, Hb, Hk. cbn [negb orb].
  rewrite (proj2 (Z.eqb_neq (zlen (v_data (wr_object r))) 0)) by lia. by eexists _, _.
Qed.
End reads.

Lemma issue_decode_spec `{Q : QCBOR} encoded canonical response st data r :
  wire_decode_issue_response encoded canonical response = (st, data, r) ->
  (st <> PBNS_OK -> r = zero_wire_response \/ st = PBNS_ERR_ARGUMENT /\ r = response)
  /\ (st = PBNS_OK -> v_data encoded = wire_encoded r /\ wire_sized r /\ issue_ok r).
Proof.
  unfold wire_decode_issue_response. destruct (wire_decode_response _ _ _ _) as [[st0 data0] r0] eqn:E.
  apply wire_decode_spec in E as (_ & Hbad & Hok). destruct (is_ok st0) eqn:Eok; cbn [negb];
    [|apply is_ok_false in Eok; intros [= <- <- <-]; split; [by apply Hbad|done]]. apply is_ok_spec in Eok.
  destruct (Hok Eok) as (Henc & Hs & Hop). destruct (_ || ct_nonzero (wr_baseline_id _)) eqn:Hg; [intros [= <- <- <-]; split; [by left|done]|].
  intros [= <- <- <-]. split; [done|]. intros _. bools. split; [done|]. split; [done|]. unfold issue_ok. unfold v_len in *. split_and!; try done; lia.
Qed.

Lemma submit_decode_spec `{Q : QCBOR} encoded challenge canonical response st data r :
  wire_decode_submit_response encoded challenge canonical response = (st, data, r) ->
  (st <> PBNS_OK -> r = zero_wire_response \/ st = PBNS_ERR_ARGUMENT /\ r = response)
  /\ (st = PBNS_OK -> v_data encoded = wire_encoded r /\ wire_sized r /\ submit_ok r (v_data challenge)
      /\ ct_nonzero (v_data challenge) = true).
Proof.
  unfold wire_decode_submit_response. destruct (_ || negb (ct_nonzero _)) eqn:Harg; [intros [= <- <- <-]; split; [by right|done]|].
  destruct (wire_decode_response _ _ _ _) as [[st0 data0] r0] eqn:E.
  apply wire_decode_spec in E as (_ & Hbad & Hok). destruct (is_ok st0) eqn:Eok; cbn [negb];
    [|apply is_ok_false in Eok; intros [= <- <- <-]; split; [by apply Hbad|done]]. apply is_ok_spec in Eok.
  destruct (Hok Eok) as (Henc & Hs & Hop). destruct (bytes_eqb _ _) eqn:Hid; cbn [negb]; [|intros [= <- <- <-]; split; [by left|done]].
  apply bytes_eqb_spec in Hid. destruct (_ || negb (ct_nonzero (wr_baseline_id _))) eqn:Hg; [intros [= <- <- <-]; split; [by left|done]|].
  intros [= <- <- <-]. split; [done|]. intros _. bools. split; [done|]. split; [done|]. split; [|done].
  unfold submit_ok. unfold v_len in *. split_and!; try done; lia.
Qed.

(** ** Requests *)

Lemma wire_request_length operation host challenge :
  operation = 1 \/ operation = 2 -> length host = 32%nat -> length challenge = 16%nat ->
  zlen (cbor_map (wire_request_fields operation host challenge)) = 56.
Proof.
  intros Hop Hh Hc. unfold cbor_map, wire_request_fields, cbor_pair. cbn [fmap list_fmap concat fst snd cbor_encode]. rewrite Hh, Hc.
  destruct Hop as [-> | ->]; lens; rewrite ?Hh, ?Hc; reflexivity.
Qed.

(** A request is refused, too long for the output, or written in full. *)
Definition request_written (ok : bool) (fields : list (Z * cbor_value)) (output : pbns_buffer) (result : pbns_status * bytes * Z) : Prop :=
  let '(st, data, size) := result in
  length data = length (b_data output)
  /\ st = (if negb ok then PBNS_ERR_ARGUMENT else if b_cap output <? 56 then PBNS_ERR_LIMIT else PBNS_OK)
  /\ (st <> PBNS_OK -> size = 0) /\ (st = PBNS_OK -> size = 56 /\ take 56 data = cbor_map fields).

Lemma wire_encode_written `{Q : QCBOR} operation host challenge output :
  operation = 1 \/ operation = 2 -> length (v_data host) = 32%nat -> length (v_data challenge) = 16%nat ->
  v_ptr host <> 0 -> v_ptr challenge <> 0 ->
  request_written (wire_buffer_valid output) (wire_request_fields operation (v_data host) (v_data challenge)) output
    (wire_encode_request operation host challenge output).
Proof.
  intros Hop Hh Hc Ph Pc. pose proof (wire_request_length operation _ _ Hop Hh Hc) as Hl.
  unfold wire_encode_request, v_len. rewrite !(proj2 (view_is_valid_spec _)), Hh, Hc by (by left).
  change (Z.of_nat 32 =? 32) with true. change (Z.of_nat 16 =? 16) with true. cbn [negb]. rewrite !orb_false_r.
  destruct (wire_buffer_valid output) eqn:Hb; cbn [negb]; [|by unfold request_written].
  unfold wire_buffer_valid, PBNS_ATTESTATION_WIRE_MAX_SIZE in Hb. bools.
  destruct (encode_flat _ (b_data output)) as [[st data] size] eqn:E. apply encode_flat_spec in E as (Hlen & Hok & Hz & Hst).
  unfold request_written, b_cap in *. rewrite Hl in Hok, Hst. rewrite Hst by (unfold UINT32_MAX; lia).
  split; [done|]. split; [done|]. split; [intros; apply Hz; rewrite Hst by (unfold UINT32_MAX; lia); done|].
  intros Hs. rewrite <- Hst in Hs by (unfold UINT32_MAX; lia). by destruct (Hok Hs) as [-> ?].
Qed.

(** The requests of an attestation are written exactly.  A request for a
    challenge names a nonzero host and no challenge; a submission names a nonzero
    challenge and no host; every other argument and every unusable output is
    refused, an output of fewer than 56 octets is too small, and everything else
    gives the 56 canonical octets.  No two requests have the same octets. *)
Theorem attestation_requests_exact `{Q : QCBOR} (static : Z) (host challenge : pbns_view) (output : pbns_buffer) :
  static <> 0 -> length (v_data host) = 32%nat -> length (v_data challenge) = 16%nat -> v_ptr challenge <> 0 ->
  request_written (negb (v_ptr host =? 0) && ct_nonzero (v_data host) && wire_buffer_valid output)
    (wire_request_fields PBNS_ATTESTATION_WIRE_ISSUE (v_data host) (replicate 16 0)) output
    (wire_encode_issue_request static host output)
  /\ request_written (ct_nonzero (v_data challenge) && wire_buffer_valid output)
    (wire_request_fields PBNS_ATTESTATION_WIRE_SUBMIT (replicate 32 0) (v_data challenge)) output
    (wire_encode_submit_request static challenge output)
  /\ forall op1 op2 h1 h2 c1 c2, (op1 = 1 \/ op1 = 2) -> (op2 = 1 \/ op2 = 2) -> zlen h1 <= 32 -> zlen h2 <= 32 -> zlen c1 <= 16 -> zlen c2 <= 16 ->
     cbor_map (wire_request_fields op1 h1 c1) = cbor_map (wire_request_fields op2 h2 c2) -> op1 = op2 /\ h1 = h2 /\ c1 = c2.
Proof.
  intros Hs Hh Hc Pc. split; [|split].
  - unfold wire_encode_issue_request. destruct (Z.eqb_spec (v_ptr host) 0) as [|Ph]; cbn [negb andb orb]; [by unfold request_written|].
    destruct (ct_nonzero (v_data host)); cbn [negb andb]; [|by unfold request_written]. by apply (wire_encode_written _ host (mk_view static _)); [left|..].
  - unfold wire_encode_submit_request, v_len. rewrite (proj2 (view_is_valid_spec challenge)), Hc by (by left).
    change (Z.of_nat 16 =? 16) with true. cbn [negb orb]. destruct (ct_nonzero (v_data challenge)); cbn [negb andb]; [|by unfold request_written].
    by apply (wire_encode_written _ (mk_view static _) challenge); [right|..].
  - intros op1 op2 h1 h2 c1 c2 Ho1 Ho2 L1 L2 L3 L4 E.
    assert (Hok : forall op h c, (op = 1 \/ op = 2) -> zlen h <= 32 -> zlen c <= 16 -> cbor_fields_ok (wire_request_fields op h c)).
    { intros op h c ? ? ?. unfold cbor_fields_ok, wire_request_fields, UINT64_MAX, INT64_MAX. split; [|done].
      repeat (apply Forall_cons_iff; split); [..|done]; (split; [cbn [fst]; lia|]); cbn [snd cbor_value_ok]; unfold UINT64_MAX; lia. }
    apply cbor_map_inj in E; [|by apply Hok..]. by injection E.
Qed.

(** ** Properties *)

(** Answers of the verifier are accepted only canonical, for the operation that
    was asked and, for a submission, for the challenge it names.  Whatever the
    CBOR decoder does: an accepted answer is the canonical encoding of the
    response; a challenge has a nonzero identifier and nonce, a recipient and an
    object and no result, a result has the expected challenge, an object, a digest
    and a baseline and no nonce; every refusal after the arguments were accepted
    zeroes the response; an answer to one operation is never accepted for the
    other.  With a decoder that reads what was written every such answer is
    accepted and read back. *)
Theorem attestation_answers_bound `{Q : QCBOR} (encoded challenge : pbns_view) (canonical : pbns_buffer)
    (response : pbns_attestation_wire_response) :
  exists st1 data1 r1 st2 data2 r2,
    wire_decode_issue_response encoded canonical response = (st1, data1, r1)
  /\ wire_decode_submit_response encoded challenge canonical response = (st2, data2, r2)
  /\ (st1 <> PBNS_OK -> r1 = zero_wire_response \/ st1 = PBNS_ERR_ARGUMENT /\ r1 = response)
  /\ (st2 <> PBNS_OK -> r2 = zero_wire_response \/ st2 = PBNS_ERR_ARGUMENT /\ r2 = response)
  /\ (st1 = PBNS_OK -> v_data encoded = wire_encoded r1 /\ wire_sized r1 /\ issue_ok r1)
  /\ (st2 = PBNS_OK -> v_data encoded = wire_encoded r2 /\ wire_sized r2 /\ submit_ok r2 (v_data challenge)
      /\ ct_nonzero (v_data challenge) = true)
  /\ ~ (st1 = PBNS_OK /\ st2 = PBNS_OK)
  /\ forall (R : QCBORReads) r, wire_readable r encoded canonical ->
     (issue_ok r -> st1 = PBNS_OK /\ same_response r r1)
     /\ (submit_ok r (v_data challenge) -> v_ptr challenge <> 0 -> ct_nonzero (v_data challenge) = true ->
         st2 = PBNS_OK /\ same_response r r2).
Proof.
  destruct (wire_decode_issue_response encoded canonical response) as [[st1 data1] r1] eqn:E1.
  destruct (wire_decode_submit_response encoded challenge canonical response) as [[st2 data2] r2] eqn:E2.
  exists st1, data1, r1, st2, data2, r2. split; [done|]. split; [done|].
  destruct (issue_decode_spec _ _ _ _ _ _ E1) as [B1 G1]. destruct (submit_decode_spec _ _ _ _ _ _ _ E2) as [B2 G2].
  split; [done|]. split; [done|]. split; [done|]. split; [done|]. split.
  - intros [H1 H2]. destruct (G1 H1) as (P1 & _ & O1 & _). destruct (G2 H2) as (P2 & _ & (O2 & _) & _).
    rewrite P1 in P2. by apply (operations_differ r1 r2).
  - intros R r Hr. split.
    + intros Hi. destruct (issue_reads r encoded canonical response Hr Hi) as (d & r' & E & Hs). rewrite E1 in E. by injection E as -> _ ->.
    + intros Hi Hp Hz. destruct (submit_reads r encoded challenge canonical response Hr Hi Hp Hz) as (d & r' & E & Hs).
      rewrite E2 in E. by injection E as -> _ ->.
Qed.

(** ** Witnesses *)

Definition ex_issue : pbns_attestation_wire_response :=
  mk_wire_response PBNS_ATTESTATION_WIRE_ISSUE (replicate 16 1) (replicate 32 2) (mk_view 16 [7; 8]) (mk_view 32 [1; 2; 3])
    (replicate 32 0) (replicate 32 0).

Definition ex_wire_buffer : pbns_buffer := mk_buffer 8192 0 (replicate 256 0).

Lemma ex_issue_readable :
  @wire_readable ex_issue (mk_view 4096 (wire_encoded ex_issue)) ex_wire_buffer /\ issue_ok ex_issue.
Proof. unfold wire_readable, wire_typed, wire_sized, issue_ok. vm_compute. intuition discriminate. Qed.

Lemma attestation_requests_exact_witness :
  exists data, @wire_encode_submit_request reference_qcbor 64 (mk_view 128 (replicate 16 5)) ex_wire_buffer = (PBNS_OK, data, 56).
Proof.
  destruct (@attestation_requests_exact reference_qcbor 64 (mk_view 32 (replicate 32 4)) (mk_view 128 (replicate 16 5)) ex_wire_buffer)
    as (_ & H & _); [discriminate|reflexivity|reflexivity|discriminate|].
  destruct (@wire_encode_submit_request reference_qcbor 64 (mk_view 128 (replicate 16 5)) ex_wire_buffer) as [[st data] size] eqn:E.
  destruct H as (_ & Hst & _ & Hok). assert (Hs : st = PBNS_OK) by (rewrite Hst; vm_compute; reflexivity).
  exists data. destruct (Hok Hs) as [-> _]. by rewrite Hs.
Defined.

Lemma attestation_answers_bound_witness :
  exists data r, @wire_decode_issue_response reference_qcbor (mk_view 4096 (wire_encoded ex_issue)) ex_wire_buffer zero_wire_response
    = (PBNS_OK, data, r) /\ same_response ex_issue r.
Proof.
  destruct (@attestation_answers_bound reference_qcbor (mk_view 4096 (wire_encoded ex_issue)) (mk_view 128 (replicate 16 5))
    ex_wire_buffer zero_wire_response) as (st1 & data1 & r1 & st2 & data2 & r2 & E1 & _ & _ & _ & _ & _ & _ & Hr).
  destruct ex_issue_readable as [Hread Hok]. destruct (Hr reference_reads ex_issue Hread) as [Hi _].
  destruct (Hi Hok) as [Hst Hs]. exists data1, r1. rewrite <- Hst. split; [exact E1|exact Hs].
Defined.
