(* ===== verification/AttestationUpload.v ===== *)
(** * Uploading evidence ([include/pbns/attestation_upload.h], [src/core/attestation_upload.c])

    The adapter between the writer of evidence records and the broker.  It opens
    the upload with the first record, checks the numbering of the records, and
    cancels the session of the broker on any failure.  The proofs build on what
    the broker promises of uploads and cancellation. *)

From stdpp Require Import base list numbers.
From Stdlib Require Import ZArith Lia.
From S2P Require Import Prelude Endian Status Buffers Crc32c Cobs Frame Stream RecordReader Cbor Utf8 Broker BrokerLogic BrokerReceive BrokerRequest BrokerProps BrokerBulk BrokerUpload BrokerSetup.

#[local] Open Scope broker_scope.

(** ** The code *)

(** The broker that the upload points to is part of the configuration. *)
Record pbns_attestation_upload := mk_upload {
  au_request_id : bytes;
  au_encoded_request : pbns_view;
  au_response_payload : pbns_view;
  au_timeout_ms : Z;
  au_next_sequence : Z;
  au_started : bool;
  au_response_received : bool;
  au_finished : bool;
  au_cancelled : bool;
}.

Definition set_payload (x : pbns_view) (u : pbns_attestation_upload) : pbns_attestation_upload :=
  mk_upload (au_request_id u) (au_encoded_request u) x (au_timeout_ms u) (au_next_sequence u) (au_started u)
    (au_response_received u) (au_finished u) (au_cancelled u).
Definition set_next (x : Z) (u : pbns_attestation_upload) : pbns_attestation_upload :=
  mk_upload (au_request_id u) (au_encoded_request u) (au_response_payload u) (au_timeout_ms u) x (au_started u)
    (au_response_received u) (au_finished u) (au_cancelled u).
Definition set_flags (started received finished cancelled : bool) (u : pbns_attestation_upload) : pbns_attestation_upload :=
  mk_upload (au_request_id u) (au_encoded_request u) (au_response_payload u) (au_timeout_ms u) (au_next_sequence u) started
    received finished cancelled.

Definition zero_upload : pbns_attestation_upload :=
  mk_upload zero_request_id null_view null_view 0 0 false false false false.

Definition same_request (left right : bytes) : bool := bytes_eqb left right.

Section code.
Context {W : Type} `{Machine} `{QCBOR}.
Notation M := (M W).

Definition abort_upload (u : pbns_attestation_upload) (primary : pbns_status) : M (pbns_status * pbns_attestation_upload) :=
  if au_started u && negb (au_finished u) && negb (au_cancelled u) then
    broker_cancel;;
    retM (primary, set_payload null_view (set_flags true (au_response_received u) false true u))
  else retM (primary, u).

(** The record is sent once the session is open. *)
Definition upload_record (fuel : nat) (u : pbns_attestation_upload) (request_id : bytes) (payload : pbns_view) (final_record : bool)
  : M (pbns_status * pbns_attestation_upload) :=
  '(status, response) ← broker_upload_send fuel payload final_record;
  if negb (is_ok status) then abort_upload u status
  else if negb final_record then retM (PBNS_OK, set_next (u32 (au_next_sequence u + 1)) u)
  else if negb (f_service (rs_frame response) =? PBNS_SERVICE_PLATFORM_ATTESTATION)
          || negb (f_type (rs_frame response) =? PBNS_MESSAGE_RESPONSE) || negb (f_sequence (rs_frame response) =? 0)
          || negb (same_request (f_request_id (rs_frame response)) request_id) || (v_len (rs_payload response) =? 0)
  then abort_upload u PBNS_ERR_FORMAT
  else retM (PBNS_OK, set_payload (rs_payload response) (set_flags (au_started u) true (au_finished u) (au_cancelled u) u)).

Definition attestation_upload_send (fuel : nat) (u : pbns_attestation_upload) (request_id : bytes) (sequence : Z)
    (payload : pbns_view) (final_record : bool) : M (pbns_status * pbns_attestation_upload) :=
  if au_finished u || au_cancelled u || au_response_received u || negb (sequence =? au_next_sequence u)
     || negb (same_request request_id (au_request_id u))
  then abort_upload u PBNS_ERR_STATE
  else if au_next_sequence u =? UINT32_MAX then abort_upload u PBNS_ERR_LIMIT
  else if negb (au_started u) then
    begin ← broker_upload_begin PBNS_SERVICE_PLATFORM_ATTESTATION request_id (au_encoded_request u) (au_timeout_ms u);
    if negb (is_ok begin) then retM (begin, u)
    else upload_record fuel (set_flags true (au_response_received u) (au_finished u) (au_cancelled u) u) request_id payload final_record
  else upload_record fuel u request_id payload final_record.

Definition attestation_upload_finish (u : pbns_attestation_upload) : M (pbns_status * pbns_attestation_upload) :=
  if negb (au_started u) || negb (au_response_received u) || au_finished u || au_cancelled u then retM (PBNS_ERR_STATE, u)
  else
  status ← broker_upload_finish;
  retM (status, set_payload null_view (set_flags (au_started u) (au_response_received u) true (au_cancelled u) u)).

Definition attestation_upload_cancel (u : pbns_attestation_upload) : M (pbns_status * pbns_attestation_upload) :=
  if negb (au_started u) || au_finished u || au_cancelled u then retM (PBNS_OK, u)
  else
  status ← broker_cancel;
  retM (status, set_flags (au_started u) (au_response_received u) (au_finished u) true u).

(** The entry points: the upload and its broker may be missing. *)
Definition run_upload {A} (upload : ptr pbns_attestation_upload) (broker : ptr (pbns_broker W)) (w : W) (on_null : A)
    (m : pbns_attestation_upload -> M (A * pbns_attestation_upload))
  : res (A * ptr pbns_attestation_upload * ptr (pbns_broker W) * W) :=
  match upload, broker with
  | Some u, Some b => match m u (b, w) with
                      | Ret (a, u, (b, w)) => Ret (a, Some u, Some b, w)
                      | Fault => Fault
                      | OutOfFuel => OutOfFuel
                      end
  | _, _ => Ret (on_null, upload, broker, w)
  end.

Definition pbns_attestation_upload_send fuel upload broker (request_id : ptr bytes) sequence payload final_record w :=
  match request_id with
  | None => Ret (PBNS_ERR_ARGUMENT, upload, broker, w)
  | Some request_id =>
      run_upload upload broker w PBNS_ERR_ARGUMENT
        (fun u => attestation_upload_send fuel u request_id sequence payload final_record)
  end.

Definition pbns_attestation_upload_finish upload broker w :=
  run_upload upload broker w PBNS_ERR_ARGUMENT attestation_upload_finish.

(** Only a started upload needs its broker. *)
Definition pbns_attestation_upload_cancel (upload : ptr pbns_attestation_upload) (broker : ptr (pbns_broker W)) (w : W) :=
  match upload with
  | None => Ret (PBNS_ERR_ARGUMENT, None, broker, w)
  | Some u =>
      if negb (au_started u) || au_finished u || au_cancelled u then Ret (PBNS_OK, Some u, broker, w)
      else match pbns_broker_cancel broker w with
           | Ret (status, broker, w) =>
               Ret (status, Some (set_flags (au_started u) (au_response_received u) (au_finished u) true u), broker, w)
           | Fault => Fault
           | OutOfFuel => OutOfFuel
           end
  end.

Definition pbns_attestation_upload_reset (upload : ptr pbns_attestation_upload) : ptr pbns_attestation_upload :=
  (fun _ => zero_upload) <$> upload.
End code.

(** ** The phases of an upload *)

Section phases.
Context {W : Type} `{Machine} `{QCBOR} (e : endpoint W) `{!EndpointLaws e} `{!Ticking e}.
Implicit Types (b : pbns_broker W) (w : W) (u : pbns_attestation_upload).

Notation PBNS_ATTEST := PBNS_SERVICE_PLATFORM_ATTESTATION.

(** What does not change, and was given by the caller. *)
Definition upload_given (u : pbns_attestation_upload) : Prop := id_ok (au_request_id u) /\ bytes_ok (v_data (au_encoded_request u)).

Definition flags_are (u : pbns_attestation_upload) (started received finished cancelled : bool) : Prop :=
  au_started u = started /\ au_response_received u = received /\ au_finished u = finished /\ au_cancelled u = cancelled.

Definition request_wire u : bytes := frame_wire (mk_frame PBNS_ATTEST PBNS_MESSAGE_REQUEST 0 (au_request_id u) 0) (v_data (au_encoded_request u)).
Definition data_wire u (n : Z) (payload : bytes) : bytes := frame_wire (mk_frame PBNS_ATTEST PBNS_MESSAGE_DATA 0 (au_request_id u) n) payload.
Definition complete_wire u (n : Z) : bytes := frame_wire (mk_frame PBNS_ATTEST PBNS_MESSAGE_COMPLETE 0 (au_request_id u) n) [].
Definition records_wire u (payloads : list bytes) : list bytes := data_frames PBNS_ATTEST (au_request_id u) 0 payloads.

Definition no_session b w : Prop := wf e b /\ idle b /\ link w = false.

(** Before the first record; while records are sent; with an answer; and at the
    end.  [prefix] is what was sent before the upload. *)
Inductive upload_phase u b w : list bytes -> Prop :=
| phase_ready : flags_are u false false false false -> au_next_sequence u = 0 -> no_session b w -> upload_phase u b w []
| phase_sending payloads prefix :
    flags_are u true false false false -> au_next_sequence u = zlen payloads -> zlen payloads <= UINT32_MAX ->
    uploading e PBNS_ATTEST (au_request_id u) (zlen payloads) b -> link w = true ->
    sent w = prefix ++ [request_wire u] ++ records_wire u payloads -> upload_phase u b w payloads
| phase_answered payloads prefix w0 resp :
    flags_are u true true false false -> wf e b -> k_active b = true -> k_upload_mode b = false -> k_upload_response b = true ->
    k_request_id b = au_request_id u -> link w = k_opened b ->
    sent w = prefix ++ [request_wire u] ++ records_wire u payloads ++ [complete_wire u (zlen payloads)] ->
    upload_answered e PBNS_ATTEST (au_request_id u) w0 resp b w -> au_response_payload u = rs_payload resp ->
    v_len (au_response_payload u) <> 0 -> upload_phase u b w payloads
| phase_over payloads :
    au_started u = true -> (au_finished u = true \/ au_cancelled u = true) -> no_session b w -> upload_phase u b w payloads.

Definition over u b w : Prop := au_started u = true /\ (au_finished u = true \/ au_cancelled u = true) /\ no_session b w.

(** ** The broker underneath *)

Lemma total_upload_begin service id body t : total (W := W) (broker_upload_begin service id body t).
Proof.
  pose proof (total_finish_session (W := W) false). pose proof (total_abort_upload (W := W)).
  pose proof (total_encode_and_send (W := W)).
  unfold broker_upload_begin, wipe_request_storage, reset_reader, open_session, begin_deadline, query_effective_limits, init_stream,
    transport_open, transport_limits, platform_monotonic_ms. total_tac; auto.
Qed.

Lemma bounded_upload_begin service id body t : bounded (W := W) (broker_upload_begin service id body t).
Proof.
  pose proof (bounded_finish_session (W := W) false). pose proof (bounded_abort_upload (W := W)).
  pose proof (bounded_encode_and_send (W := W)).
  unfold broker_upload_begin, wipe_request_storage, reset_reader, open_session, begin_deadline, query_effective_limits, init_stream,
    transport_open, transport_limits, platform_monotonic_ms. bounded_tac; auto.
Qed.

Lemma begin_returns id body t b w :
  no_session b w -> id_ok id -> bytes_ok (v_data body) ->
  exists st b' w', broker_upload_begin PBNS_ATTEST id body t (b, w) = Ret (st, (b', w'))
  /\ (st <> PBNS_OK -> no_session b' w')
  /\ (st = PBNS_OK -> uploading e PBNS_ATTEST id 0 b' /\ link w' = true
      /\ sent w' = sent w ++ [frame_wire (mk_frame PBNS_ATTEST PBNS_MESSAGE_REQUEST 0 id 0) (v_data body)]).
Proof.
  intros (Hwf & Hidle & Hl) Hid Hbody.
  destruct (wp_Ret (broker_upload_begin PBNS_ATTEST id body t) (fun st c' => (st <> PBNS_OK -> no_session (fst c') (snd c'))
    /\ (st = PBNS_OK -> uploading e PBNS_ATTEST id 0 (fst c') /\ link (snd c') = true
      /\ sent (snd c') = sent w ++ [frame_wire (mk_frame PBNS_ATTEST PBNS_MESSAGE_REQUEST 0 id 0) (v_data body)])) (b, w))
    as (st & [b' w'] & E & Hp).
  - apply (wp_upload_begin e); try done.
    intros st b' w' Hne [[-> ->]|[(? & ? & ? & _) _]]; by split.
  - apply total_upload_begin.
  - by exists st, b', w'.
Qed.

(** Ending a session that is active, or that the broker ended itself. *)
Lemma cancel_returns b w :
  wf e b -> link w = k_opened b -> id_ok (k_request_id b) -> (k_active b = false -> no_session b w) ->
  exists st b' w', broker_cancel (b, w) = Ret (st, (b', w')) /\ no_session b' w'.
Proof.
  intros Hwf Hl Hid Hno. destruct (broker_cancel_ends e b w Hwf Hl Hid) as (st & b' & w' & E & Hp).
  exists st, b', w'. split; [done|]. destruct (k_active b).
  - destruct Hp as [(? & ? & ? & _) _]. done.
  - destruct Hp as (_ & -> & ->). by apply Hno.
Qed.

Lemma no_session_cancel b w :
  no_session b w -> exists st b' w', broker_cancel (b, w) = Ret (st, (b', w')) /\ no_session b' w'.
Proof.
  intros Hn. pose proof Hn as (Hwf & Hidle & Hl). pose proof Hidle as (Ho & _ & _ & _ & _ & _ & _ & _ & _ & _ & _ & _ & _ & Hid & _).
  apply cancel_returns; [done|congruence| |done]. rewrite Hid. split; [|done]. apply Forall_replicate. unfold is_byte. lia.
Qed.

(** ** The calls *)

Definition same_given u u' : Prop :=
  au_request_id u' = au_request_id u /\ au_encoded_request u' = au_encoded_request u /\ au_timeout_ms u' = au_timeout_ms u.

Lemma abort_ends u st b w :
  flags_are u true (au_response_received u) false false ->
  (exists st0 b' w', broker_cancel (b, w) = Ret (st0, (b', w')) /\ no_session b' w') ->
  exists u' b' w', abort_upload u st (b, w) = Ret (st, u', (b', w')) /\ same_given u u' /\ over u' b' w'.
Proof.
  intros (Hs & _ & Hf & Hc) (st0 & b' & w' & E & Hn). unfold abort_upload. rewrite Hs, Hf, Hc. cbn [negb andb].
  unfold bindM. rewrite E. do 3 eexists. split; [reflexivity|]. split; [done|]. split; [done|]. split; [by right|done].
Qed.

Lemma uploading_cancel service id n b w :
  uploading e service id n b -> link w = true -> exists st b' w', broker_cancel (b, w) = Ret (st, (b', w')) /\ no_session b' w'.
Proof.
  intros (Hwf & Ho & Ha & _ & _ & _ & _ & Hid & Hok & _) Hl. apply cancel_returns; [done|congruence|by rewrite Hid|congruence].
Qed.

(** What a record that was taken adds to the wire. *)
Definition record_wire u (n : Z) (payload : bytes) (final : bool) : list bytes :=
  data_wire u n payload :: (if final then [complete_wire u (n + 1)] else []).

Definition record_post u b w payloads (payload : bytes) (final : bool) st u' b' w' : Prop :=
  same_given u u'
  /\ (st = PBNS_OK -> sent w' = sent w ++ record_wire u (zlen payloads) payload final
      /\ upload_phase u' b' w' (payloads ++ [payload]) /\ au_response_received u' = final /\ flags_are u' true final false false)
  /\ (st <> PBNS_OK -> over u' b' w').

Lemma record_wire_phase u payloads payload prefix w w' (final : bool) :
  sent w = prefix ++ [request_wire u] ++ records_wire u payloads -> sent w' = sent w ++ record_wire u (zlen payloads) payload final ->
  sent w' = prefix ++ [request_wire u] ++ records_wire u (payloads ++ [payload])
            ++ (if final then [complete_wire u (zlen (payloads ++ [payload]))] else []).
Proof.
  intros Hs ->. rewrite Hs. unfold record_wire, records_wire. rewrite data_frames_snoc, <- !app_assoc.
  replace (zlen (payloads ++ [payload])) with (zlen payloads + 1) by llia. done.
Qed.

Lemma record_returns u b w payloads prefix payload (final : bool) :
  upload_given u -> flags_are u true false false false -> au_next_sequence u = zlen payloads -> zlen payloads < UINT32_MAX ->
  uploading e PBNS_ATTEST (au_request_id u) (zlen payloads) b -> link w = true ->
  sent w = prefix ++ [request_wire u] ++ records_wire u payloads -> bytes_ok (v_data payload) ->
  exists fuel0, (deadline_bounded b -> fuel0 <= enough_fuel)%nat /\ forall fuel, (fuel0 <= fuel)%nat ->
  exists st u' b' w', upload_record fuel u (au_request_id u) payload final (b, w) = Ret (st, u', (b', w'))
  /\ record_post u b w payloads (v_data payload) final st u' b' w'.
Proof.
  intros Hg Hfl Hn Hmax Hup Hl Hs Hok. pose proof Hfl as (F1 & F2 & F3 & F4).
  destruct (upload_send_returns e PBNS_ATTEST (au_request_id u) (zlen payloads) payload final b w Hup Hl Hok ltac:(lia)) as (fuel0 & Hfb & Hret).
  exists fuel0. split; [done|]. intros fuel Hfuel. destruct (Hret fuel Hfuel) as (st & resp & b1 & w1 & E & Hpost). unfold upload_record, bindM at 1. rewrite E.
  assert (Habort : forall st0 b2 w2, st0 <> PBNS_OK ->
    (exists st1 b' w', broker_cancel (b2, w2) = Ret (st1, (b', w')) /\ no_session b' w') ->
    exists st' u' b' w', abort_upload u st0 (b2, w2) = Ret (st', u', (b', w')) /\ record_post u b w payloads (v_data payload) final st' u' b' w').
  { intros st0 b2 w2 Hne Hc. destruct (abort_ends u st0 b2 w2) as (u' & b' & w' & E' & Hsg & Ho); [by rewrite F2|done|].
    exists st0, u', b', w'. split; [done|]. by split_and!. }
  destruct Hpost as [(-> & -> & -> & ->)|[[(Hne & Hover & _) ->]|[(-> & -> & -> & Hup' & Hl' & _ & Hs' & _)|Hlast]]].
  - apply Habort; [done|]. by eapply uploading_cancel.
  - rewrite (proj2 (is_ok_false st) Hne). apply Habort; [done|]. apply no_session_cancel. by destruct Hover as (? & ? & ? & _).
  - cbn [is_ok negb]. do 4 eexists. split; [reflexivity|]. split; [done|]. split; [|done]. intros _.
    change (sent w1 = sent w ++ record_wire u (zlen payloads) (v_data payload) false) in Hs'. split; [done|].
    assert (Hu : u32 (zlen payloads + 1) = zlen (payloads ++ [v_data payload])).
    { rewrite u32_small by (unfold UINT32_MAX in *; lia). llia. }
    split; [|done]. apply (phase_sending _ _ _ _ prefix); try done.
    + cbn. by rewrite Hn.
    + rewrite <- Hu, u32_small by (unfold UINT32_MAX in *; lia). lia.
    + cbn. by replace (zlen (payloads ++ [v_data payload])) with (zlen payloads + 1) by llia.
    + rewrite (record_wire_phase u payloads (v_data payload) prefix w w1 false Hs Hs'). by rewrite app_nil_r.
  - destruct Hlast as (-> & -> & Hwf & Ha & Hm & Hr & Hid & Hl' & _ & Hs' & Hans). cbn [is_ok negb].
    change (sent w1 = sent w ++ record_wire u (zlen payloads) (v_data payload) true) in Hs'.
    pose proof Hans as (record & rest & _ & _ & Hf & _). rewrite Hf. cbn [f_service f_type f_sequence f_request_id].
    unfold same_request. rewrite bytes_eqb_refl. cbn [Z.eqb negb orb PBNS_SERVICE_PLATFORM_ATTESTATION PBNS_MESSAGE_RESPONSE Pos.eqb].
    destruct (Z.eqb_spec (v_len (rs_payload resp)) 0) as [|Hlen].
    { apply Habort; [done|]. apply cancel_returns; [done..|rewrite Hid; apply Hg|congruence]. }
    do 4 eexists. split; [reflexivity|]. split; [done|]. split; [|done]. intros _. split; [done|].
    rewrite F1, F3, F4. split; [|done].
    apply (phase_answered _ _ _ _ prefix w resp); try done.
    exact (record_wire_phase u payloads (v_data payload) prefix w w1 true Hs Hs').
Qed.

(** What a caller can do. *)
Inductive upload_call :=
| USend (request_id : bytes) (sequence : Z) (payload : pbns_view) (final_record : bool)
| UFinish
| UCancel.

Definition call_typed (call : upload_call) : Prop := match call with USend _ _ payload _ => bytes_ok (v_data payload) | _ => True end.

Definition upload_do (fuel : nat) (call : upload_call) u : M W (pbns_status * pbns_attestation_upload) :=
  match call with
  | USend request_id sequence payload final => attestation_upload_send fuel u request_id sequence payload final
  | UFinish => attestation_upload_finish u
  | UCancel => attestation_upload_cancel u
  end.

(** The records that were taken. *)
Definition taken (call : upload_call) (st : pbns_status) (payloads : list bytes) : list bytes :=
  match call, st with USend _ _ payload _, PBNS_OK => payloads ++ [v_data payload] | _, _ => payloads end.

Definition send_result u w (payloads : list bytes) request_id sequence (payload : bytes) (final : bool) st u' b' w' : Prop :=
  (st = PBNS_OK -> request_id = au_request_id u /\ sequence = zlen payloads /\ flags_are u' true final false false
      /\ sent w' = sent w ++ (if au_started u then [] else [request_wire u]) ++ record_wire u sequence payload final)
  /\ (st <> PBNS_OK -> over u' b' w' \/ u' = u /\ no_session b' w').

Definition call_result (call : upload_call) u b w payloads st u' b' w' : Prop :=
  same_given u u' /\ upload_phase u' b' w' (taken call st payloads)
  /\ match call with
     | USend request_id sequence payload final => send_result u w payloads request_id sequence (v_data payload) final st u' b' w'
     | UFinish => (au_finished u' = true /\ no_session b' w') \/ (st = PBNS_ERR_STATE /\ u' = u /\ b' = b /\ w' = w)
     | UCancel => no_session b' w'
     end
  /\ (over u b w -> (u', b', w') = (u, b, w) /\ st = match call with UCancel => PBNS_OK | _ => PBNS_ERR_STATE end).

Lemma over_not_ok (call : upload_call) st payloads : st <> PBNS_OK -> taken call st payloads = payloads.
Proof. intros Hne. by destruct call, st. Qed.

Lemma send_refused u w payloads request_id sequence payload final st u' b' w' :
  st <> PBNS_OK -> over u' b' w' \/ u' = u /\ no_session b' w' ->
  send_result u w payloads request_id sequence payload final st u' b' w'.
Proof. by split. Qed.

(** A refusal in any phase. *)
Lemma refuse_returns u b w payloads request_id sequence payload final st :
  upload_given u -> upload_phase u b w payloads -> st <> PBNS_OK -> (over u b w -> st = PBNS_ERR_STATE) ->
  exists u' b' w', abort_upload u st (b, w) = Ret (st, u', (b', w'))
  /\ call_result (USend request_id sequence payload final) u b w payloads st u' b' w'.
Proof.
  intros Hg Hp Hne Hst.
  assert (Hfin : flags_are u true (au_response_received u) false false ->
    (exists st0 b' w', broker_cancel (b, w) = Ret (st0, (b', w')) /\ no_session b' w') ->
    exists u' b' w', abort_upload u st (b, w) = Ret (st, u', (b', w'))
    /\ call_result (USend request_id sequence payload final) u b w payloads st u' b' w').
  { intros Hfl Hc. destruct (abort_ends u st b w Hfl Hc) as (u' & b' & w' & E & Hsg & Ho). exists u', b', w'. split; [done|].
    split; [done|]. rewrite over_not_ok by done. pose proof Ho as (? & ? & ?). split; [by apply phase_over|].
    split; [apply send_refused; [done|by left]|]. intros (_ & Hend & _). destruct Hfl as (_ & _ & F3 & F4). rewrite F3, F4 in Hend. by destruct Hend. }
  destruct Hp as [Hfl Hn Hno|payloads prefix Hfl Hn Hmax Hup Hl Hs|payloads prefix w0 resp Hfl Hwf Ha Hm Hr Hid Hl Hs Hans Hpl Hlen
    |payloads Hs He Hno].
  - destruct Hfl as (F1 & F2 & F3 & F4). unfold abort_upload. rewrite F1. cbn [andb]. do 3 eexists. split; [reflexivity|].
    split; [done|]. rewrite over_not_ok by done. split; [by apply phase_ready|]. split; [apply send_refused; [done|by right]|].
    intros (Hs & _). congruence.
  - apply Hfin; [unfold flags_are in *; tauto|]. by eapply uploading_cancel.
  - apply Hfin; [unfold flags_are in *; tauto|]. apply cancel_returns; [done..|rewrite Hid; apply Hg|congruence].
  - unfold abort_upload. rewrite Hs. replace (true && _ && _) with false by (destruct He as [-> | ->]; by rewrite ?andb_false_r).
    do 3 eexists. split; [reflexivity|]. split; [done|]. rewrite over_not_ok by done. split; [by apply phase_over|].
    split; [apply send_refused; [done|by left]|]. intros Ho. by rewrite (Hst Ho).
Qed.

Lemma send_returns u b w payloads request_id sequence payload final :
  upload_given u -> upload_phase u b w payloads -> bytes_ok (v_data payload) ->
  exists fuel0, (deadline_bounded b -> fuel0 <= enough_fuel)%nat /\ forall fuel, (fuel0 <= fuel)%nat ->
  exists st u' b' w', attestation_upload_send fuel u request_id sequence payload final (b, w) = Ret (st, u', (b', w'))
  /\ call_result (USend request_id sequence payload final) u b w payloads st u' b' w'.
Proof.
  intros Hg Hp Hok. pose proof Hg as [Hgid Hgbody]. unfold attestation_upload_send.
  destruct (_ || negb (same_request _ _)) eqn:Hguard.
  { exists O. split; [lia|]. intros fuel _. eexists. apply refuse_returns; done. }
  assert (Hact : au_finished u = false /\ au_cancelled u = false /\ au_response_received u = false
    /\ sequence = au_next_sequence u /\ request_id = au_request_id u).
  { bools. split_and!; try done. by apply bytes_eqb_spec. }
  destruct Hact as (A1 & A2 & A3 & Hseq & ->).
  assert (Hnover : ~ over u b w) by (intros (_ & [Hx|Hx] & _); congruence).
  destruct (au_next_sequence u =? UINT32_MAX) eqn:Emax.
  { exists O. split; [lia|]. intros fuel _. eexists. apply refuse_returns; done. }
  apply Z.eqb_neq in Emax.
  destruct Hp as [Hfl Hn Hno|payloads prefix Hfl Hn Hmax Hup Hl Hs|payloads prefix w0 resp Hfl|payloads Hs He Hno].
  - destruct Hfl as (F1 & F2 & F3 & F4). rewrite F1. cbn [negb].
    destruct (begin_returns (au_request_id u) (au_encoded_request u) (au_timeout_ms u) b w Hno Hgid Hgbody) as (st & b1 & w1 & E & Hbad & Hgood).
    destruct (is_ok st) eqn:Est.
    + apply is_ok_spec in Est as ->. destruct (Hgood eq_refl) as (Hup & Hl & Hs). rewrite F2, F3, F4.
      set (u1 := set_flags true false false false u).
      destruct (record_returns u1 b1 w1 [] (sent w) payload final) as (fuel0 & Hfb & Hret); try done.
      exists fuel0. split; [intros Hb; apply Hfb; exact (bounded_upload_begin _ _ _ _ _ _ _ E Hb)|]. intros fuel Hfuel. destruct (Hret fuel Hfuel) as (st & u' & b' & w' & E2 & Hsg & Hok' & Hover).
      unfold bindM at 1. rewrite E. cbn [is_ok negb]. exists st, u', b', w'. split; [exact E2|]. split; [done|].
      split; [|split; [split|done]].
      * destruct (is_ok st) eqn:Est; [apply is_ok_spec in Est as ->; by apply Hok'|]. apply is_ok_false in Est.
        rewrite over_not_ok by done. destruct (Hover Est) as (? & ? & ?). by apply phase_over.
      * intros ->. destruct (Hok' eq_refl) as (Hw & _ & _ & Hf). rewrite Hseq, Hn, F1. split; [done|]. split; [done|]. split; [done|].
        rewrite Hw, Hs. by rewrite <- app_assoc.
      * intros Hne. left. by apply Hover.
    + exists O. split; [lia|]. intros fuel _. unfold bindM. rewrite E. cbn [negb]. rewrite Est. apply is_ok_false in Est. do 4 eexists. split; [reflexivity|].
      split; [done|]. rewrite over_not_ok by done. specialize (Hbad Est). split; [by apply phase_ready|]. split; [|done].
      split; [done|]. intros _. by right.
  - pose proof Hfl as (F1 & F2 & F3 & F4). rewrite F1. cbn [negb].
    destruct (record_returns u b w payloads prefix payload final) as (fuel0 & Hfb & Hret); try done; [lia|].
    exists fuel0. split; [done|]. intros fuel Hfuel. destruct (Hret fuel Hfuel) as (st & u' & b' & w' & E2 & Hsg & Hok' & Hover).
    exists st, u', b', w'. split; [exact E2|]. split; [done|]. split; [|split; [split|done]].
    + destruct (is_ok st) eqn:Est; [apply is_ok_spec in Est as ->; by apply Hok'|]. apply is_ok_false in Est.
      rewrite over_not_ok by done. destruct (Hover Est) as (? & ? & ?). by apply phase_over.
    + intros ->. destruct (Hok' eq_refl) as (Hw & _ & _ & Hf). rewrite F1, Hseq, Hn. split; [done|]. split; [done|]. split; [done|].
      by rewrite Hw.
    + intros Hne. left. by apply Hover.
  - destruct Hfl as (_ & ? & _). congruence.
  - destruct He; congruence.
Qed.

Lemma finish_returns u b w payloads :
  upload_given u -> upload_phase u b w payloads ->
  exists st u' b' w', attestation_upload_finish u (b, w) = Ret (st, u', (b', w')) /\ call_result UFinish u b w payloads st u' b' w'.
Proof.
  intros Hg Hp. unfold attestation_upload_finish.
  assert (Hsame : call_result UFinish u b w payloads PBNS_ERR_STATE u b w) by (split; [done|]; split; [done|]; split; [by right|done]).
  destruct (_ || au_cancelled u) eqn:Hguard; [by eexists _, _, _, _|]. bools.
  destruct Hp as [Hfl|? ? Hfl|payloads prefix w0 resp Hfl Hwf Ha Hm Hr Hid Hl Hs Hans Hpl Hlen|? Hs He Hno];
    [destruct Hfl; congruence|destruct Hfl as (? & ? & _); congruence| |destruct He; congruence].
  destruct (wp_Ret broker_upload_finish (fun st c' => no_session (fst c') (snd c')) (b, w)) as (st & [b' w'] & E & Hn).
  - unfold broker_upload_finish. apply wp_gets. pose proof Hwf as (_ & _ & Hi & _). cbn in Hi. rewrite Hi, Ha, Hm, Hr. cbn [negb orb].
    apply (wp_close e); [done..|]. by intros st b' w' (? & ? & ? & _).
  - pose proof (total_finish_session (W := W) false) as Ht. unfold broker_upload_finish, bindM, gets. cbn [fst]. case_match; [done|apply Ht].
  - unfold bindM. rewrite E. do 4 eexists. split; [reflexivity|]. split; [done|]. split; [apply phase_over; [done|by left|done]|].
    split; [by left|]. intros (_ & [Hx|Hx] & _); congruence.
Qed.

Lemma cancel_call_returns u b w payloads :
  upload_given u -> upload_phase u b w payloads ->
  exists st u' b' w', attestation_upload_cancel u (b, w) = Ret (st, u', (b', w')) /\ call_result UCancel u b w payloads st u' b' w'.
Proof.
  intros Hg Hp. unfold attestation_upload_cancel. destruct (_ || au_cancelled u) eqn:Hguard.
  { do 4 eexists. split; [reflexivity|]. split; [done|]. split; [done|]. split; [|done].
    destruct Hp as [Hfl Hn Hno|? ? Hfl|? ? ? ? Hfl|? Hs He Hno]; [done| | |done];
      destruct Hfl as (F1 & _ & F3 & F4); by rewrite F1, F3, F4 in Hguard. }
  bools. assert (Hc : exists st b' w', broker_cancel (b, w) = Ret (st, (b', w')) /\ no_session b' w').
  { destruct Hp as [Hfl|payloads prefix Hfl Hn Hmax Hup Hl Hs|payloads prefix w0 resp Hfl Hwf Ha Hm Hr Hid Hl Hs Hans Hpl Hlen|? Hs He Hno].
    - destruct Hfl; congruence.
    - by eapply uploading_cancel.
    - apply cancel_returns; [done..|rewrite Hid; apply Hg|congruence].
    - destruct He; congruence. }
  destruct Hc as (st & b' & w' & E & Hn). unfold bindM. rewrite E. do 4 eexists. split; [reflexivity|]. split; [done|].
  split; [apply phase_over; [done|by right|done]|]. split; [done|]. intros (_ & [Hx|Hx] & _); congruence.
Qed.

(** ** Sequences of calls *)

(** A call returns when it does so with all the fuel that is needed. *)
Definition returns (call : upload_call) u b w st u' b' w' : Prop :=
  exists fuel0, forall fuel, (fuel0 <= fuel)%nat -> upload_do fuel call u (b, w) = Ret (st, u', (b', w')).

Inductive upload_steps u0 b0 w0 : pbns_attestation_upload -> pbns_broker W -> W -> list bytes -> Prop :=
| upload_steps_start : upload_steps u0 b0 w0 u0 b0 w0 []
| upload_steps_call call u b w payloads st u' b' w' :
    upload_steps u0 b0 w0 u b w payloads -> call_typed call -> returns call u b w st u' b' w' ->
    upload_steps u0 b0 w0 u' b' w' (taken call st payloads).

Lemma call_returns call u b w payloads :
  upload_given u -> upload_phase u b w payloads -> call_typed call ->
  exists fuel0, forall fuel, (fuel0 <= fuel)%nat ->
  exists st u' b' w', upload_do fuel call u (b, w) = Ret (st, u', (b', w')) /\ call_result call u b w payloads st u' b' w'.
Proof.
  intros Hg Hp Ht. destruct call as [request_id sequence payload final| |].
  - destruct (send_returns u b w payloads request_id sequence payload final Hg Hp Ht) as (fuel0 & _ & Hf). by exists fuel0.
  - exists O. intros fuel _. by apply finish_returns.
  - exists O. intros fuel _. by apply cancel_call_returns.
Qed.

Lemma same_given_ok u u' : same_given u u' -> upload_given u -> upload_given u'.
Proof. unfold upload_given. by intros (-> & -> & _). Qed.

Lemma steps_phase u0 b0 w0 u b w payloads :
  upload_steps u0 b0 w0 u b w payloads -> upload_given u0 -> upload_phase u0 b0 w0 [] ->
  upload_given u /\ upload_phase u b w payloads.
Proof.
  intros Hs Hg0 Hp0. induction Hs as [|call u b w payloads st u' b' w' _ [Hg Hp] Ht (f1 & Hret)]; [done|].
  destruct (call_returns call u b w payloads Hg Hp Ht) as (f2 & Hres).
  destruct (Hres (Nat.max f1 f2) ltac:(lia)) as (st2 & u2 & b2 & w2 & E & Hsg & Hph & _).
  rewrite (Hret (Nat.max f1 f2) ltac:(lia)) in E. injection E as <- <- <- <-. split; [by eapply same_given_ok|done].
Qed.

(** C4: the upload adapter and the broker together send each record exactly once
    and in order, and never leave a session behind.  After any sequence of calls
    on a fresh upload over an idle broker, the upload is in one of four phases:
    nothing sent; the request and exactly the records taken so far, numbered from
    zero, are the last frames on the wire; these and the COMPLETE frame, with a
    non-empty answer of the service to this request; or ended, with the broker
    idle and the connection closed.  Every call returns; a record is taken only
    with the right request and number and adds exactly its frames; every other
    outcome of a send ends the upload, or leaves it unstarted; and an ended upload
    stays so and touches neither the broker nor the connection. *)
Theorem upload_adapter_contract u0 b0 w0 u b w payloads (call : upload_call) :
  upload_given u0 -> flags_are u0 false false false false -> au_next_sequence u0 = 0 -> no_session b0 w0 ->
  upload_steps u0 b0 w0 u b w payloads -> call_typed call ->
  upload_phase u b w payloads
  /\ exists fuel0, forall fuel, (fuel0 <= fuel)%nat ->
     exists st u' b' w', upload_do fuel call u (b, w) = Ret (st, u', (b', w')) /\ call_result call u b w payloads st u' b' w'.
Proof.
  intros Hg Hfl Hn Hno Hs Ht. destruct (steps_phase u0 b0 w0 u b w payloads Hs Hg) as [Hg' Hp]; [by apply phase_ready|].
  split; [done|]. by apply call_returns.
Qed.
End phases.

(** ** Witnesses *)

Definition ex_upload : pbns_attestation_upload := mk_upload ex_id ex_body null_view 1000 0 false false false false.

Definition ex_answer : bytes :=
  frame_wire (mk_frame PBNS_SERVICE_PLATFORM_ATTESTATION PBNS_MESSAGE_RESPONSE 0 ex_id 0) [7].

(** Two records, the answer, the end; then nothing more is accepted. *)
Definition ex_upload_all : M script (list pbns_status * pbns_attestation_upload) :=
  '(s1, u) ← @attestation_upload_send script x86_64 reference_qcbor 20 ex_upload ex_id 0 ex_chunk false;
  '(s2, u) ← @attestation_upload_send script x86_64 reference_qcbor 20 u ex_id 1 ex_chunk true;
  '(s3, u) ← @attestation_upload_finish script u;
  '(s4, u) ← @attestation_upload_send script x86_64 reference_qcbor 20 u ex_id 2 ex_chunk true;
  retM ([s1; s2; s3; s4], u).

Example ex_upload_all_run :
  (fst <$> ex_value (ex_upload_all (ex_broker, ex_world [ex_answer])),
   length (sc_sent (snd (ex_cfg (ex_upload_all (ex_broker, ex_world [ex_answer]))))))
  = (Some [PBNS_OK; PBNS_OK; PBNS_OK; PBNS_ERR_STATE], 4%nat).
Proof. vm_compute. reflexivity. Qed.

Lemma upload_adapter_contract_witness :
  exists fuel st u' b' w',
    @upload_do script x86_64 reference_qcbor fuel (USend ex_id 0 ex_chunk false) ex_upload (ex_broker, ex_world [ex_answer])
    = Ret (st, u', (b', w'))
  /\ (st = PBNS_OK -> sc_sent w' = [request_wire ex_upload; data_wire ex_upload 0 (v_data ex_chunk)]).
Proof.
  destruct (@upload_adapter_contract script x86_64 reference_qcbor scripted scripted_laws scripted_ticking ex_upload ex_broker
    (ex_world [ex_answer]) ex_upload ex_broker (ex_world [ex_answer]) [] (USend ex_id 0 ex_chunk false)) as (_ & fuel0 & Hf).
  - split; [exact ex_id_ok|exact ex_body_ok].
  - repeat split.
  - reflexivity.
  - split; [exact (proj1 ex_broker_ready)|]. split; [exact (proj2 ex_broker_ready)|reflexivity].
  - apply upload_steps_start.
  - exact ex_chunk_ok.
  - destruct (Hf fuel0 (le_n fuel0)) as (st & u' & b' & w' & E & _ & _ & [Hs _] & _).
    exists fuel0, st, u', b', w'. split; [exact E|]. intros Hst. destruct (Hs Hst) as (_ & _ & _ & Hw). exact Hw.
Defined.
