(* ===== verification/Identity.v ===== *)
(** * Host identities ([include/pbns/identity.h], [src/core/identity.c])

    The key of a host lives in a TPM or in software, behind a table of callbacks.
    An identity is opened once and closed once; its operations check what the
    provider reports and never leave half a signature behind. *)

From stdpp Require Import base list numbers.
From Stdlib Require Import ZArith Lia.
From S2P Require Import Prelude Status Buffers.

(** ** The code *)

Definition PBNS_IDENTITY_FINGERPRINT_SIZE : Z := 32.
Definition PBNS_IDENTITY_ES256_SIGNATURE_SIZE : Z := 64.
Definition PBNS_IDENTITY_SHA256_DIGEST_SIZE : Z := 32.

Definition PBNS_IDENTITY_INVALID : Z := 0.
Definition PBNS_IDENTITY_TPM_VERIFIED : Z := 1.
Definition PBNS_IDENTITY_TPM_UNVERIFIED_EK : Z := 2.
Definition PBNS_IDENTITY_SOFTWARE : Z := 3.

(** A producer is given the output buffer and returns its contents. *)
Record pbns_identity_ops (W : Type) := mk_identity_ops {
  io_public_cose_key : ptr (W -> pbns_buffer -> pbns_status * bytes * Z * W);
  io_fingerprint : ptr (W -> pbns_buffer -> pbns_status * bytes * W);
  io_sign_digest : ptr (W -> pbns_view -> pbns_buffer -> pbns_status * bytes * Z * W);
  io_random : ptr (W -> pbns_buffer -> pbns_status * bytes * W);
  io_close : ptr (W -> W);
}.
Arguments mk_identity_ops {W}.
Arguments io_public_cose_key {W}.
Arguments io_fingerprint {W}.
Arguments io_sign_digest {W}.
Arguments io_random {W}.
Arguments io_close {W}.

(** The context is an address, which the code compares with [NULL]. *)
Record pbns_identity (W : Type) := mk_identity { id_ops : ptr (pbns_identity_ops W); id_context : Z; id_assurance : Z }.
Arguments mk_identity {W}.
Arguments id_ops {W}.
Arguments id_context {W}.
Arguments id_assurance {W}.

Section code.
Context {W : Type}.
Implicit Types (w : W) (identity : ptr (pbns_identity W)).

Definition zero_identity : pbns_identity W := mk_identity None 0 PBNS_IDENTITY_INVALID.

Definition assurance_is_valid (assurance : Z) : bool :=
  (PBNS_IDENTITY_TPM_VERIFIED <=? assurance) && (assurance <=? PBNS_IDENTITY_SOFTWARE).

Definition present {A} (p : ptr A) : bool := match p with Some _ => true | None => false end.

Definition ops_are_complete (ops : ptr (pbns_identity_ops W)) : bool :=
  match ops with
  | None => false
  | Some o => present (io_public_cose_key o) && present (io_fingerprint o) && present (io_sign_digest o)
              && present (io_random o) && present (io_close o)
  end.

Definition identity_is_open identity : bool :=
  match identity with
  | None => false
  | Some i => ops_are_complete (id_ops i) && negb (id_context i =? 0) && assurance_is_valid (id_assurance i)
  end.

Definition identity_buffer_valid (buffer : pbns_buffer) (minimum_capacity : Z) : bool :=
  negb (b_ptr buffer =? 0) && (b_len buffer =? 0) && (minimum_capacity <=? b_cap buffer).

(** The callback that [select] names. *)
Definition identity_op {F : Type} identity (select : pbns_identity_ops W -> ptr F) : option F :=
  i ← identity; ops ← id_ops i; select ops.

Definition pbns_identity_open identity (ops : ptr (pbns_identity_ops W)) (context assurance : Z) : pbns_status * ptr (pbns_identity W) :=
  match identity with
  | None => (PBNS_ERR_ARGUMENT, None)
  | Some i =>
      if negb (ops_are_complete ops) || (context =? 0) || negb (assurance_is_valid assurance) then (PBNS_ERR_ARGUMENT, identity)
      else if present (id_ops i) || negb (id_context i =? 0) || negb (id_assurance i =? PBNS_IDENTITY_INVALID)
      then (PBNS_ERR_STATE, identity)
      else (PBNS_OK, Some (mk_identity ops context assurance))
  end.

Definition pbns_identity_close identity w : option (ptr (pbns_identity W) * W) :=
  match identity with
  | None => Some (None, w)
  | Some _ =>
      w ← (if identity_is_open identity then close ← identity_op identity io_close; Some (close w) else Some w);
      Some (Some zero_identity, w)
  end.

(** The status, the octets of the output, [*written] and the world. *)
Definition pbns_identity_public_cose_key identity (output : pbns_buffer) (written : ptr Z) w
  : option (pbns_status * bytes * ptr Z * W) :=
  let zero := (fun _ => 0) <$> written in
  if negb (identity_is_open identity) then Some (PBNS_ERR_STATE, b_data output, zero, w)
  else if negb (identity_buffer_valid output 1) || negb (present written) then Some (PBNS_ERR_ARGUMENT, b_data output, zero, w)
  else
  public_cose_key ← identity_op identity io_public_cose_key;
  let '(status, data, size, w) := public_cose_key w output in
  if negb (is_ok status) then Some (status, data, Some 0, w)
  else if (size =? 0) || (b_cap output <? size) then Some (PBNS_ERR_IO, data, Some 0, w)
  else Some (PBNS_OK, data, Some size, w).

(** The first [n] octets of the output are a buffer of their own. *)
Definition bounded (output : pbns_buffer) (n : Z) : pbns_buffer := mk_buffer (b_ptr output) 0 (replicate (Z.to_nat n) 0).
Definition wiped_head (output : pbns_buffer) (n : Z) : bytes := replicate (Z.to_nat n) 0 ++ drop (Z.to_nat n) (b_data output).

Definition refused_buffer (buffer : pbns_buffer) : pbns_status :=
  if negb (b_ptr buffer =? 0) && (b_len buffer =? 0) then PBNS_ERR_LIMIT else PBNS_ERR_ARGUMENT.

Definition pbns_identity_fingerprint identity (output : pbns_buffer) w : option (pbns_status * bytes * W) :=
  if negb (identity_is_open identity) then Some (PBNS_ERR_STATE, b_data output, w)
  else if negb (identity_buffer_valid output PBNS_IDENTITY_FINGERPRINT_SIZE)
  then Some (refused_buffer output, b_data output, w)
  else
  fingerprint ← identity_op identity io_fingerprint;
  let '(status, data, w) := fingerprint w (bounded output PBNS_IDENTITY_FINGERPRINT_SIZE) in
  if negb (is_ok status) then Some (status, wiped_head output PBNS_IDENTITY_FINGERPRINT_SIZE, w)
  else Some (status, data ++ drop (Z.to_nat PBNS_IDENTITY_FINGERPRINT_SIZE) (b_data output), w).

Definition pbns_identity_sign identity (digest : pbns_view) (signature : pbns_buffer) (written : ptr Z) w
  : option (pbns_status * bytes * ptr Z * W) :=
  let zero := (fun _ => 0) <$> written in
  if negb (identity_is_open identity) then Some (PBNS_ERR_STATE, b_data signature, zero, w)
  else if (v_ptr digest =? 0) || negb (v_len digest =? PBNS_IDENTITY_SHA256_DIGEST_SIZE) || negb (present written)
  then Some (PBNS_ERR_ARGUMENT, b_data signature, zero, w)
  else if negb (identity_buffer_valid signature PBNS_IDENTITY_ES256_SIGNATURE_SIZE)
  then Some (refused_buffer signature, b_data signature, zero, w)
  else
  sign_digest ← identity_op identity io_sign_digest;
  let '(status, data, size, w) := sign_digest w digest (bounded signature PBNS_IDENTITY_ES256_SIGNATURE_SIZE) in
  if negb (is_ok status) then Some (status, wiped_head signature PBNS_IDENTITY_ES256_SIGNATURE_SIZE, Some 0, w)
  else if negb (size =? PBNS_IDENTITY_ES256_SIGNATURE_SIZE)
  then Some (PBNS_ERR_IO, wiped_head signature PBNS_IDENTITY_ES256_SIGNATURE_SIZE, Some 0, w)
  else Some (PBNS_OK, data ++ drop (Z.to_nat PBNS_IDENTITY_ES256_SIGNATURE_SIZE) (b_data signature), Some size, w).

Definition pbns_identity_random identity (output : pbns_buffer) w : option (pbns_status * bytes * W) :=
  if negb (identity_is_open identity) then Some (PBNS_ERR_STATE, b_data output, w)
  else if negb (identity_buffer_valid output 1) then Some (PBNS_ERR_ARGUMENT, b_data output, w)
  else
  random ← identity_op identity io_random;
  let '(status, data, w) := random w output in
  if negb (is_ok status) then Some (status, replicate (length (b_data output)) 0, w) else Some (status, data, w).

Definition pbns_identity_assurance_level identity : Z :=
  match identity with
  | Some i => if identity_is_open identity then id_assurance i else PBNS_IDENTITY_INVALID
  | None => PBNS_IDENTITY_INVALID
  end.
End code.

(** ** What callers rely on *)

Section guards.
Context {W : Type}.
Implicit Types (w : W) (i : pbns_identity W).

(** The callbacks fill the buffer that they are given, and nothing else. *)
Class IdentityLaws (ops : pbns_identity_ops W) : Prop := {
  key_length : forall f w out st data size w', io_public_cose_key ops = Some f -> f w out = (st, data, size, w') -> length data = length (b_data out);
  fingerprint_length : forall f w out st data w', io_fingerprint ops = Some f -> f w out = (st, data, w') -> length data = length (b_data out);
  sign_length : forall f w d out st data size w', io_sign_digest ops = Some f -> f w d out = (st, data, size, w') -> length data = length (b_data out);
  random_length : forall f w out st data w', io_random ops = Some f -> f w out = (st, data, w') -> length data = length (b_data out);
}.

Lemma open_ops i : identity_is_open (Some i) = true ->
  exists ops key fingerprint sign random close, id_ops i = Some ops /\ io_public_cose_key ops = Some key
  /\ io_fingerprint ops = Some fingerprint /\ io_sign_digest ops = Some sign /\ io_random ops = Some random /\ io_close ops = Some close.
Proof.
  cbn. unfold ops_are_complete. destruct (id_ops i) as [[key fingerprint sign random close]|]; [|done]. cbn. intros Ho. bools.
  destruct key, fingerprint, sign, random, close; try done. by repeat eexists.
Qed.

Lemma wiped_length out n : 0 <= n <= b_cap out -> length (wiped_head out n) = length (b_data out).
Proof. unfold wiped_head, b_cap. lens. lia. Qed.

(** The ends of a call that may have reached the provider with [n] octets. *)
Definition sign_outcome (out : pbns_buffer) w st (data : bytes) (size : Z) w' : Prop :=
  length data = length (b_data out)
  /\ (st = PBNS_OK -> size = 64 /\ drop 64 data = drop 64 (b_data out))
  /\ (st <> PBNS_OK -> size = 0 /\ ((data = b_data out /\ w' = w) \/ data = wiped_head out 64)).

(** A call that did not produce a signature. *)
Lemma sign_stops (P : bytes -> W -> Prop) out w st data w' :
  st <> PBNS_OK -> length data = length (b_data out) -> (data = b_data out /\ w' = w) \/ data = wiped_head out 64 ->
  exists st' data' size w'', Some (st, data, Some 0, w') = Some (st', data', Some size, w'')
  /\ sign_outcome out w st' data' size w'' /\ (st' = PBNS_OK -> P data' w'').
Proof. intros Hne Hlen Hd. do 4 eexists. split; [reflexivity|]. split; [|done]. by split_and!. Qed.

Lemma sign_returns (ops : pbns_identity_ops W) `{!IdentityLaws ops} i (digest : pbns_view) (out : pbns_buffer) (size0 : Z) w :
  id_ops i = Some ops ->
  exists st data size w', pbns_identity_sign (Some i) digest out (Some size0) w = Some (st, data, Some size, w')
  /\ sign_outcome out w st data size w'
  /\ (st = PBNS_OK -> identity_is_open (Some i) = true /\ v_len digest = 32
      /\ exists f d, io_sign_digest ops = Some f /\ f w digest (bounded out 64) = (PBNS_OK, d, 64, w') /\ take 64 data = d).
Proof.
  intros Hops.
  unfold pbns_identity_sign. cbn [fmap option_fmap option_map present]. destruct (identity_is_open (Some i)) eqn:Ho; cbn [negb].
  2:{ apply sign_stops; [done..|by left]. }
  destruct (_ || _) eqn:Hd.
  { apply sign_stops; [done..|by left]. }
  rewrite orb_false_r in Hd. bools. unfold PBNS_IDENTITY_SHA256_DIGEST_SIZE in *.
  destruct (identity_buffer_valid out PBNS_IDENTITY_ES256_SIGNATURE_SIZE) eqn:Hb; cbn [negb].
  2:{ assert (Hne : refused_buffer out <> PBNS_OK) by (unfold refused_buffer; case_match; done).
      apply sign_stops; [done..|by left]. }
  unfold identity_buffer_valid, PBNS_IDENTITY_ES256_SIGNATURE_SIZE in Hb. bools.
  destruct (open_ops i Ho) as (ops' & key & fp & f & rnd & cl & Eops & _ & _ & Ef & _). rewrite Hops in Eops. injection Eops as <-.
  unfold identity_op. cbn [mbind option_bind]. rewrite Hops. cbn [mbind option_bind]. rewrite Ef. cbn [mbind option_bind].
  unfold PBNS_IDENTITY_ES256_SIGNATURE_SIZE. destruct (f w digest (bounded out 64)) as [[[st data] size] w'] eqn:E.
  pose proof (sign_length _ _ _ _ _ _ _ _ Ef E) as Hlen. cbn [bounded b_data] in Hlen. rewrite length_replicate in Hlen.
  assert (Hw : length (wiped_head out 64) = length (b_data out)) by (apply wiped_length; lia).
  destruct (is_ok st) eqn:Est; cbn [negb].
  2:{ apply is_ok_false in Est. apply sign_stops; [done..|by right]. }
  apply is_ok_spec in Est as ->. destruct (Z.eqb_spec size 64) as [-> |]; cbn [negb].
  2:{ apply sign_stops; [done..|by right]. }
  unfold b_cap in *. change (Z.to_nat 64) with 64%nat in *.
  do 4 eexists. split; [reflexivity|]. split.
  - split; [lens; lia|]. split; [|done]. intros _. split; [done|]. by rewrite drop_app_length' by lia.
  - intros _. split; [done|]. split; [done|]. exists f, data. split; [done|]. split; [done|]. by rewrite take_app_length' by lia.
Qed.

Lemma close_returns i (digest : pbns_view) (out : pbns_buffer) (size0 : Z) w :
  exists w', pbns_identity_close (Some i) w = Some (Some zero_identity, w') /\ (identity_is_open (Some i) = false -> w' = w)
  /\ pbns_identity_sign (Some zero_identity) digest out (Some size0) w' = Some (PBNS_ERR_STATE, b_data out, Some 0, w').
Proof.
  unfold pbns_identity_close. destruct (identity_is_open (Some i)) eqn:Ho.
  - destruct (open_ops i Ho) as (ops' & key & fp & f & rnd & cl & Eops & _ & _ & _ & _ & Ec).
    unfold identity_op. cbn [mbind option_bind]. rewrite Eops. cbn [mbind option_bind]. rewrite Ec. cbn [mbind option_bind].
    eexists. split; [reflexivity|]. split; [done|]. reflexivity.
  - cbn [mbind option_bind]. eexists. split; [reflexivity|]. split; [done|]. reflexivity.
Qed.

Lemma open_succeeds i ops context assurance i' :
  pbns_identity_open (Some i) ops context assurance = (PBNS_OK, Some i') ->
  i = zero_identity /\ i' = mk_identity ops context assurance /\ identity_is_open (Some i') = true.
Proof.
  unfold pbns_identity_open. destruct (_ || _) eqn:Ha; [done|]. destruct (_ || negb (id_assurance i =? _)) eqn:Hz; [done|]. intros [= <-].
  bools. destruct i as [[o|] c a]; [done|]. unfold PBNS_IDENTITY_INVALID in *. cbn in *. subst. split; [done|]. split; [done|].
  apply andb_true_iff. split; [|done]. apply andb_true_iff. split; [done|]. apply negb_true_iff. lia.
Qed.

(** A signature is whole or absent.  Signing always returns and never reaches
    past the first 64 octets of the buffer.  Success means that the identity is
    open, that the provider was given the 32 octets of the digest and reported
    exactly 64 octets; every other outcome reports no octets, and either nothing
    was called and nothing changed, or the 64 octets are zero.  An identity opens
    only from its zeroed state and only with all callbacks, a context and a known
    assurance, and closing it zeroes it, after which every operation is refused. *)
Theorem identity_signature_whole (ops : pbns_identity_ops W) `{!IdentityLaws ops} i (digest : pbns_view) (out : pbns_buffer) (size0 : Z) w :
  id_ops i = Some ops ->
  (exists st data size w', pbns_identity_sign (Some i) digest out (Some size0) w = Some (st, data, Some size, w')
   /\ sign_outcome out w st data size w'
   /\ (st = PBNS_OK -> identity_is_open (Some i) = true /\ v_len digest = 32
       /\ exists f d, io_sign_digest ops = Some f /\ f w digest (bounded out 64) = (PBNS_OK, d, 64, w') /\ take 64 data = d))
  /\ (exists w', pbns_identity_close (Some i) w = Some (Some zero_identity, w') /\ (identity_is_open (Some i) = false -> w' = w)
      /\ pbns_identity_sign (Some zero_identity) digest out (Some size0) w' = Some (PBNS_ERR_STATE, b_data out, Some 0, w'))
  /\ forall i0 ops' context assurance i', pbns_identity_open (Some i0) ops' context assurance = (PBNS_OK, Some i') ->
     i0 = zero_identity /\ i' = mk_identity ops' context assurance /\ identity_is_open (Some i') = true.
Proof.
  intros Hops. split; [by apply sign_returns|]. split; [apply close_returns|]. intros i0 ops' context assurance i' E.
  by apply (open_succeeds i0 ops' context assurance).
Qed.
End guards.

(** ** Witness *)

(** A software key that signs with its own octet and counts its calls. *)
Definition ex_identity_ops : pbns_identity_ops Z :=
  mk_identity_ops
    (Some (fun w out => (PBNS_OK, replicate (length (b_data out)) 7, 1, w + 1)))
    (Some (fun w out => (PBNS_OK, replicate (length (b_data out)) 8, w + 1)))
    (Some (fun w digest out => (PBNS_OK, replicate (length (b_data out)) 9, zlen (b_data out), w + 1)))
    (Some (fun w out => (PBNS_OK, replicate (length (b_data out)) 3, w + 1)))
    (Some (fun w => w + 1)).

#[export] Instance ex_identity_laws : IdentityLaws ex_identity_ops.
Proof. split; cbn; intros; simplify_eq; by rewrite length_replicate. Qed.

Definition ex_identity : pbns_identity Z := mk_identity (Some ex_identity_ops) 4096 PBNS_IDENTITY_SOFTWARE.

Lemma identity_signature_whole_witness :
  exists st data size w', pbns_identity_sign (Some ex_identity) (mk_view 64 (replicate 32 1)) (mk_buffer 8192 0 (replicate 80 0)) (Some 5) 0
    = Some (st, data, Some size, w') /\ sign_outcome (mk_buffer 8192 0 (replicate 80 0)) 0 st data size w'.
Proof.
  destruct (identity_signature_whole ex_identity_ops ex_identity (mk_view 64 (replicate 32 1)) (mk_buffer 8192 0 (replicate 80 0)) 5 0 eq_refl)
    as ((st & data & size & w' & E & Ho & _) & _). exists st, data, size, w'. split; [exact E|exact Ho].
Defined.
