(* ===== verification/Enrollment.v ===== *)
(** * Enrollment ([include/pbns/enrollment.h], [src/core/enrollment.c])

    The order of an enrollment: a verified challenge, a proof bound to it, and a
    receipt bound to both.  A check that fails ends the enrollment for good.
    Every sequence of calls is considered: an enrollment is complete exactly when
    the calls that succeeded since it was started are the three steps in order,
    with the values it was started with.  The token that authorises an enrollment
    is typed at a console, one key at a time. *)

From stdpp Require Import base list numbers.
From Stdlib Require Import ZArith Lia.
From S2P Require Import Prelude Status Compare.

(** ** The code *)

Definition PBNS_ENROLLMENT_REQUEST_ID_SIZE : Z := 16.
Definition PBNS_ENROLLMENT_NONCE_SIZE : Z := 32.
Definition PBNS_ENROLLMENT_DIGEST_SIZE : Z := 32.
Definition PBNS_ENROLLMENT_TOKEN_TEXT_SIZE : Z := 43.

Inductive pbns_enrollment_token_input_action := PBNS_ENROLLMENT_TOKEN_CONTINUE | PBNS_ENROLLMENT_TOKEN_SUBMIT.

Record pbns_enrollment_token_input := mk_token_input { ti_text : bytes; ti_length : Z }.

Inductive pbns_enrollment_state :=
| PBNS_ENROLLMENT_INIT
| PBNS_ENROLLMENT_CHALLENGE_VERIFIED
| PBNS_ENROLLMENT_PROOF_READY
| PBNS_ENROLLMENT_COMPLETE
| PBNS_ENROLLMENT_FAILED.

#[export] Instance pbns_enrollment_state_eq_dec : EqDecision pbns_enrollment_state.
Proof. solve_decision. Defined.

Inductive pbns_enrollment_assurance :=
| PBNS_ENROLLMENT_ASSURANCE_INVALID
| PBNS_ENROLLMENT_ASSURANCE_SOFTWARE
| PBNS_ENROLLMENT_ASSURANCE_TPM.

#[export] Instance pbns_enrollment_assurance_eq_dec : EqDecision pbns_enrollment_assurance.
Proof. solve_decision. Defined.

Record pbns_enrollment := mk_enrollment {
  en_state : pbns_enrollment_state;
  en_assurance : pbns_enrollment_assurance;
  en_request_id : bytes;
  en_host_nonce : bytes;
  en_server_nonce : bytes;
  en_init_digest : bytes;
  en_baseline_digest : bytes;
}.

Definition zero_enrollment : pbns_enrollment :=
  mk_enrollment PBNS_ENROLLMENT_INIT PBNS_ENROLLMENT_ASSURANCE_INVALID (replicate 16 0) (replicate 32 0) (replicate 32 0)
    (replicate 32 0) (replicate 32 0).

Definition with_state (state : pbns_enrollment_state) (c : pbns_enrollment) : pbns_enrollment :=
  mk_enrollment state (en_assurance c) (en_request_id c) (en_host_nonce c) (en_server_nonce c) (en_init_digest c)
    (en_baseline_digest c).

(** Arrays are read over the length that is passed. *)
Definition all_zero (value : ptr bytes) (length : Z) : option bool :=
  match value with
  | None => Some true
  | Some value => octets ← rd_slice value 0 length; Some (negb (ct_nonzero octets))
  end.

Definition equal (left : bytes) (right : ptr bytes) (length : Z) : option bool :=
  match right with
  | None => Some false
  | Some octets => l ← rd_slice left 0 length; r ← rd_slice octets 0 length; Some (ct_equal l r)
  end.

(** [a || b] and [a && b] over tests that read memory. *)
Definition or_else (a b : option bool) : option bool := a ← a; if (a : bool) then Some true else b.
Definition and_then (a b : option bool) : option bool := a ← a; if (a : bool) then b else Some false.

Definition fail_authentication (context : pbns_enrollment) : pbns_status * pbns_enrollment :=
  (PBNS_ERR_AUTHENTICATION, with_state PBNS_ENROLLMENT_FAILED context).

Definition token_character_valid (character : Z) : bool :=
  ((65 <=? character) && (character <=? 90)) || ((97 <=? character) && (character <=? 122))
  || ((48 <=? character) && (character <=? 57)) || (character =? 45) || (character =? 95).

(** The status, the input and the action. *)
Definition token_input_key (input : pbns_enrollment_token_input) (unicode_character : Z)
  : option (pbns_status * pbns_enrollment_token_input * pbns_enrollment_token_input_action) :=
  let continue status input := Some (status, input, PBNS_ENROLLMENT_TOKEN_CONTINUE) in
  if unicode_character =? 0 then continue PBNS_OK input
  else if unicode_character =? 13 then
    if negb (ti_length input =? PBNS_ENROLLMENT_TOKEN_TEXT_SIZE) then continue PBNS_ERR_FORMAT input
    else Some (PBNS_OK, input, PBNS_ENROLLMENT_TOKEN_SUBMIT)
  else if unicode_character =? 8 then
    if 0 <? ti_length input then
      let length := ti_length input - 1 in
      text ← wr (ti_text input) length 0; continue PBNS_OK (mk_token_input text length)
    else continue PBNS_OK input
  else if negb (token_character_valid unicode_character) || (PBNS_ENROLLMENT_TOKEN_TEXT_SIZE <=? ti_length input)
  then continue PBNS_ERR_FORMAT input
  else
  text ← wr (ti_text input) (ti_length input) (u8 unicode_character);
  continue PBNS_OK (mk_token_input text (ti_length input + 1)).

Definition pbns_enrollment_token_input_key (input : ptr pbns_enrollment_token_input) (unicode_character : Z)
    (action : ptr pbns_enrollment_token_input_action)
  : option (pbns_status * ptr pbns_enrollment_token_input * ptr pbns_enrollment_token_input_action) :=
  match input, action with
  | Some i, Some _ =>
      if PBNS_ENROLLMENT_TOKEN_TEXT_SIZE <? ti_length i then Some (PBNS_ERR_ARGUMENT, input, action)
      else '(status, i, a) ← token_input_key i unicode_character; Some (status, Some i, Some a)
  | _, _ => Some (PBNS_ERR_ARGUMENT, input, action)
  end.

(** Copies of arrays, which must hold the octets that are copied. *)
Definition memcpy_of (source : ptr bytes) (size : Z) : option bytes := source ← source; rd_slice source 0 size.

Definition enrollment_init (context : pbns_enrollment) (assurance : pbns_enrollment_assurance)
    (request_id host_nonce init_digest baseline_digest : ptr bytes) : option (pbns_status * pbns_enrollment) :=
  refused ← or_else (Some (negb (bool_decide (assurance = PBNS_ENROLLMENT_ASSURANCE_SOFTWARE))
                           && negb (bool_decide (assurance = PBNS_ENROLLMENT_ASSURANCE_TPM))))
            (or_else (all_zero request_id PBNS_ENROLLMENT_REQUEST_ID_SIZE)
            (or_else (all_zero host_nonce PBNS_ENROLLMENT_NONCE_SIZE)
            (or_else (all_zero init_digest PBNS_ENROLLMENT_DIGEST_SIZE)
                     (all_zero baseline_digest PBNS_ENROLLMENT_DIGEST_SIZE))));
  if (refused : bool) then Some (PBNS_ERR_ARGUMENT, context)
  else
  request_id ← memcpy_of request_id PBNS_ENROLLMENT_REQUEST_ID_SIZE;
  host_nonce ← memcpy_of host_nonce PBNS_ENROLLMENT_NONCE_SIZE;
  init_digest ← memcpy_of init_digest PBNS_ENROLLMENT_DIGEST_SIZE;
  baseline_digest ← memcpy_of baseline_digest PBNS_ENROLLMENT_DIGEST_SIZE;
  Some (PBNS_OK, mk_enrollment PBNS_ENROLLMENT_INIT assurance request_id host_nonce (en_server_nonce zero_enrollment)
                   init_digest baseline_digest).

Definition pbns_enrollment_init (context : ptr pbns_enrollment) (assurance : pbns_enrollment_assurance)
    (request_id host_nonce init_digest baseline_digest : ptr bytes) : option (pbns_status * ptr pbns_enrollment) :=
  match context with
  | None => Some (PBNS_ERR_ARGUMENT, None)
  | Some context =>
      '(status, context) ← enrollment_init context assurance request_id host_nonce init_digest baseline_digest;
      Some (status, Some context)
  end.

Definition enrollment_accept_challenge (context : pbns_enrollment) (host_nonce server_nonce init_digest : ptr bytes)
    (signature_verified : bool) : option (pbns_status * pbns_enrollment) :=
  refused ← or_else (Some (bool_decide (host_nonce = None)))
            (or_else (all_zero server_nonce PBNS_ENROLLMENT_NONCE_SIZE) (Some (bool_decide (init_digest = None))));
  if (refused : bool) then Some (PBNS_ERR_ARGUMENT, context)
  else if negb (bool_decide (en_state context = PBNS_ENROLLMENT_INIT))
          || bool_decide (en_assurance context = PBNS_ENROLLMENT_ASSURANCE_INVALID)
  then Some (PBNS_ERR_STATE, context)
  else
  accepted ← and_then (Some signature_verified)
             (and_then (equal (en_host_nonce context) host_nonce PBNS_ENROLLMENT_NONCE_SIZE)
                       (equal (en_init_digest context) init_digest PBNS_ENROLLMENT_DIGEST_SIZE));
  if negb accepted then Some (fail_authentication context)
  else
  server_nonce ← memcpy_of server_nonce PBNS_ENROLLMENT_NONCE_SIZE;
  Some (PBNS_OK, mk_enrollment PBNS_ENROLLMENT_CHALLENGE_VERIFIED (en_assurance context) (en_request_id context)
                   (en_host_nonce context) server_nonce (en_init_digest context) (en_baseline_digest context)).

Definition pbns_enrollment_accept_challenge (context : ptr pbns_enrollment) (host_nonce server_nonce init_digest : ptr bytes)
    (signature_verified : bool) : option (pbns_status * ptr pbns_enrollment) :=
  match context with
  | None => Some (PBNS_ERR_ARGUMENT, None)
  | Some context =>
      '(status, context) ← enrollment_accept_challenge context host_nonce server_nonce init_digest signature_verified;
      Some (status, Some context)
  end.

Definition enrollment_prepare_proof (context : pbns_enrollment) (server_nonce init_digest baseline_digest : ptr bytes)
    (activation_verified identity_signature_verified : bool) : option (pbns_status * pbns_enrollment) :=
  if bool_decide (server_nonce = None) || bool_decide (init_digest = None) || bool_decide (baseline_digest = None)
  then Some (PBNS_ERR_ARGUMENT, context)
  else if negb (bool_decide (en_state context = PBNS_ENROLLMENT_CHALLENGE_VERIFIED)) then Some (PBNS_ERR_STATE, context)
  else
  let activation_accepted :=
    bool_decide (en_assurance context = PBNS_ENROLLMENT_ASSURANCE_SOFTWARE)
    || (bool_decide (en_assurance context = PBNS_ENROLLMENT_ASSURANCE_TPM) && activation_verified) in
  accepted ← and_then (Some (activation_accepted && identity_signature_verified))
             (and_then (equal (en_server_nonce context) server_nonce PBNS_ENROLLMENT_NONCE_SIZE)
             (and_then (equal (en_init_digest context) init_digest PBNS_ENROLLMENT_DIGEST_SIZE)
                       (equal (en_baseline_digest context) baseline_digest PBNS_ENROLLMENT_DIGEST_SIZE)));
  if negb accepted then Some (fail_authentication context)
  else Some (PBNS_OK, with_state PBNS_ENROLLMENT_PROOF_READY context).

Definition pbns_enrollment_prepare_proof (context : ptr pbns_enrollment) (server_nonce init_digest baseline_digest : ptr bytes)
    (activation_verified identity_signature_verified : bool) : option (pbns_status * ptr pbns_enrollment) :=
  match context with
  | None => Some (PBNS_ERR_ARGUMENT, None)
  | Some context =>
      '(status, context) ← enrollment_prepare_proof context server_nonce init_digest baseline_digest activation_verified
                             identity_signature_verified;
      Some (status, Some context)
  end.

Definition enrollment_complete (context : pbns_enrollment) (request_id server_nonce : ptr bytes)
    (receipt_signature_verified : bool) : option (pbns_status * pbns_enrollment) :=
  if bool_decide (request_id = None) || bool_decide (server_nonce = None) then Some (PBNS_ERR_ARGUMENT, context)
  else if negb (bool_decide (en_state context = PBNS_ENROLLMENT_PROOF_READY)) then Some (PBNS_ERR_STATE, context)
  else
  accepted ← and_then (Some receipt_signature_verified)
             (and_then (equal (en_request_id context) request_id PBNS_ENROLLMENT_REQUEST_ID_SIZE)
                       (equal (en_server_nonce context) server_nonce PBNS_ENROLLMENT_NONCE_SIZE));
  if negb accepted then Some (fail_authentication context)
  else Some (PBNS_OK, with_state PBNS_ENROLLMENT_COMPLETE context).

Definition pbns_enrollment_complete (context : ptr pbns_enrollment) (request_id server_nonce : ptr bytes)
    (receipt_signature_verified : bool) : option (pbns_status * ptr pbns_enrollment) :=
  match context with
  | None => Some (PBNS_ERR_ARGUMENT, None)
  | Some context =>
      '(status, context) ← enrollment_complete context request_id server_nonce receipt_signature_verified;
      Some (status, Some context)
  end.

Definition pbns_enrollment_reset (context : ptr pbns_enrollment) : ptr pbns_enrollment := (fun _ => zero_enrollment) <$> context.

(** ** Sequences of calls *)

Inductive enroll_op :=
| EInit (assurance : pbns_enrollment_assurance) (request_id host_nonce init_digest baseline_digest : ptr bytes)
| EChallenge (host_nonce server_nonce init_digest : ptr bytes) (signature_verified : bool)
| EProof (server_nonce init_digest baseline_digest : ptr bytes) (activation_verified identity_signature_verified : bool)
| EComplete (request_id server_nonce : ptr bytes) (receipt_signature_verified : bool)
| EReset.

Definition enroll_do (op : enroll_op) (c : pbns_enrollment) : option (pbns_status * pbns_enrollment) :=
  match op with
  | EInit a id host init baseline => enrollment_init c a id host init baseline
  | EChallenge host server init verified => enrollment_accept_challenge c host server init verified
  | EProof server init baseline activation identity => enrollment_prepare_proof c server init baseline activation identity
  | EComplete id server verified => enrollment_complete c id server verified
  | EReset => Some (PBNS_OK, zero_enrollment)
  end.

Fixpoint enroll_run (ops : list enroll_op) (c : pbns_enrollment) : option (list pbns_status * pbns_enrollment) :=
  match ops with
  | [] => Some ([], c)
  | op :: ops => '(st, c) ← enroll_do op c; '(sts, c) ← enroll_run ops c; Some (st :: sts, c)
  end.

(** The arrays have the sizes of their types. *)
Definition sized (n : Z) (p : ptr bytes) : Prop := match p with None => True | Some l => zlen l = n end.

Definition enroll_typed (op : enroll_op) : Prop :=
  match op with
  | EInit _ id host init baseline => sized 16 id /\ sized 32 host /\ sized 32 init /\ sized 32 baseline
  | EChallenge host server init _ => sized 32 host /\ sized 32 server /\ sized 32 init
  | EProof server init baseline _ _ => sized 32 server /\ sized 32 init /\ sized 32 baseline
  | EComplete id server _ => sized 16 id /\ sized 32 server
  | EReset => True
  end.

(** The calls that succeeded since the enrollment was started or reset. *)
Definition note (log : list enroll_op) (op : enroll_op) (st : pbns_status) : list enroll_op :=
  match op, st with
  | EReset, _ => []
  | EInit _ _ _ _ _, PBNS_OK => [op]
  | _, PBNS_OK => log ++ [op]
  | _, _ => log
  end.

(** The contexts that some sequence of calls leads to, with those calls. *)
Inductive enrolled : list enroll_op -> pbns_enrollment -> Prop :=
| enrolled_zero : enrolled [] zero_enrollment
| enrolled_do log c op st c' :
    enrolled log c -> enroll_typed op -> enroll_do op c = Some (st, c') -> enrolled (note log op st) c'.

(** The values that one enrollment is about. *)
Record enroll_values := mk_values {
  ev_assurance : pbns_enrollment_assurance;
  ev_request_id : bytes;
  ev_host_nonce : bytes;
  ev_server_nonce : bytes;
  ev_init_digest : bytes;
  ev_baseline_digest : bytes;
}.

Definition proper (n : Z) (l : bytes) : Prop := zlen l = n /\ ct_nonzero l = true.

Definition start_ok (v : enroll_values) : Prop :=
  ev_assurance v <> PBNS_ENROLLMENT_ASSURANCE_INVALID /\ proper 16 (ev_request_id v) /\ proper 32 (ev_host_nonce v)
  /\ proper 32 (ev_init_digest v) /\ proper 32 (ev_baseline_digest v).

(** The four calls of an enrollment; a TPM must have activated the credential. *)
Definition call_init (v : enroll_values) : enroll_op :=
  EInit (ev_assurance v) (Some (ev_request_id v)) (Some (ev_host_nonce v)) (Some (ev_init_digest v)) (Some (ev_baseline_digest v)).
Definition call_challenge (v : enroll_values) : enroll_op :=
  EChallenge (Some (ev_host_nonce v)) (Some (ev_server_nonce v)) (Some (ev_init_digest v)) true.
Definition call_proof (v : enroll_values) (activation : bool) : enroll_op :=
  EProof (Some (ev_server_nonce v)) (Some (ev_init_digest v)) (Some (ev_baseline_digest v)) activation true.
Definition call_complete (v : enroll_values) : enroll_op := EComplete (Some (ev_request_id v)) (Some (ev_server_nonce v)) true.

Definition activation_ok (v : enroll_values) (activation : bool) : Prop :=
  ev_assurance v = PBNS_ENROLLMENT_ASSURANCE_TPM -> activation = true.

Definition context_of (v : enroll_values) (state : pbns_enrollment_state) (server_nonce : bytes) : pbns_enrollment :=
  mk_enrollment state (ev_assurance v) (ev_request_id v) (ev_host_nonce v) server_nonce (ev_init_digest v) (ev_baseline_digest v).

(** What the calls that succeeded say about the context. *)
Inductive ledger : list enroll_op -> pbns_enrollment -> Prop :=
| ledger_idle : ledger [] zero_enrollment
| ledger_started v : start_ok v -> ledger [call_init v] (context_of v PBNS_ENROLLMENT_INIT (replicate 32 0))
| ledger_challenged v :
    start_ok v -> proper 32 (ev_server_nonce v) ->
    ledger [call_init v; call_challenge v] (context_of v PBNS_ENROLLMENT_CHALLENGE_VERIFIED (ev_server_nonce v))
| ledger_proved v activation :
    start_ok v -> proper 32 (ev_server_nonce v) -> activation_ok v activation ->
    ledger [call_init v; call_challenge v; call_proof v activation] (context_of v PBNS_ENROLLMENT_PROOF_READY (ev_server_nonce v))
| ledger_complete v activation :
    start_ok v -> proper 32 (ev_server_nonce v) -> activation_ok v activation ->
    ledger [call_init v; call_challenge v; call_proof v activation; call_complete v]
      (context_of v PBNS_ENROLLMENT_COMPLETE (ev_server_nonce v))
| ledger_failed log c :
    ledger log c -> en_state c <> PBNS_ENROLLMENT_COMPLETE -> en_state c <> PBNS_ENROLLMENT_FAILED ->
    ledger log (with_state PBNS_ENROLLMENT_FAILED c).

(** The arrays of a context keep their sizes. *)
Definition enrollment_sized (c : pbns_enrollment) : Prop :=
  zlen (en_request_id c) = 16 /\ zlen (en_host_nonce c) = 32 /\ zlen (en_server_nonce c) = 32
  /\ zlen (en_init_digest c) = 32 /\ zlen (en_baseline_digest c) = 32.

Lemma ledger_sized log c : ledger log c -> enrollment_sized c.
Proof.
  unfold enrollment_sized. induction 1 as [|v (_ & [? _] & [? _] & [? _] & [? _])|v (_ & [? _] & [? _] & [? _] & [? _]) [? _]
    |v activation (_ & [? _] & [? _] & [? _] & [? _]) [? _] _|v activation (_ & [? _] & [? _] & [? _] & [? _]) [? _] _|log c _ IH _ _];
    cbn; done.
Qed.

(** ** Reading the arrays *)

Lemma rd_slice_whole (l : bytes) n : zlen l = n -> rd_slice l 0 n = Some l.
Proof. intros <-. rewrite rd_slice_inside by lia. by rewrite slice_all. Qed.

Lemma all_zero_sized p n :
  sized n p -> all_zero p n = Some (match p with None => true | Some l => negb (ct_nonzero l) end).
Proof. destruct p as [l|]; [|done]. cbn. intros Hn. by rewrite (rd_slice_whole l n Hn). Qed.

Lemma equal_sized l p n :
  zlen l = n -> sized n p -> equal l p n = Some (bool_decide (p = Some l)).
Proof.
  intros Hl. destruct p as [r|]; [|done]. cbn. intros Hr. rewrite (rd_slice_whole l n Hl), (rd_slice_whole r n Hr).
  cbn [mbind option_bind]. f_equal. destruct (ct_equal l r) eqn:E; symmetry.
  - apply ct_equal_spec in E as ->; [|lia]. by apply bool_decide_eq_true.
  - apply bool_decide_eq_false. intros [= ->]. by rewrite (proj2 (ct_equal_spec l l eq_refl)) in E.
Qed.

(** ** Every call *)

(** A refused call leaves the context, one whose checks fail only ends it. *)
Definition enroll_outcome (c : pbns_enrollment) (st : pbns_status) (c' : pbns_enrollment) : Prop :=
  match st with
  | PBNS_OK => True
  | PBNS_ERR_AUTHENTICATION =>
      c' = with_state PBNS_ENROLLMENT_FAILED c /\ en_state c <> PBNS_ENROLLMENT_COMPLETE /\ en_state c <> PBNS_ENROLLMENT_FAILED
  | PBNS_ERR_ARGUMENT | PBNS_ERR_STATE => c' = c
  | _ => False
  end.

Definition enroll_spec (log : list enroll_op) (op : enroll_op) (c : pbns_enrollment) : Prop :=
  exists st c', enroll_do op c = Some (st, c') /\ ledger (note log op st) c' /\ enroll_outcome c st c'.

(** The two ways a call other than [reset] can leave early. *)
Lemma spec_refused log op c st :
  ledger log c -> op <> EReset -> st = PBNS_ERR_ARGUMENT \/ st = PBNS_ERR_STATE -> enroll_do op c = Some (st, c) ->
  enroll_spec log op c.
Proof. intros Hl Hop Hst E. exists st, c. split; [done|]. destruct Hst as [-> | ->]; destruct op; done. Qed.

Lemma spec_failed log op c :
  ledger log c -> op <> EReset -> en_state c <> PBNS_ENROLLMENT_COMPLETE -> en_state c <> PBNS_ENROLLMENT_FAILED ->
  enroll_do op c = Some (fail_authentication c) -> enroll_spec log op c.
Proof.
  intros Hl Hop Hc Hf E. unfold fail_authentication in E. do 2 eexists. split; [exact E|]. split; [|done].
  replace (note log op PBNS_ERR_AUTHENTICATION) with log by (by destruct op). by constructor.
Qed.

Lemma init_do log c a id host init baseline :
  ledger log c -> enroll_typed (EInit a id host init baseline) -> enroll_spec log (EInit a id host init baseline) c.
Proof.
  intros Hl (Hid & Hhost & Hinit & Hbase).
  destruct (bool_decide (a <> PBNS_ENROLLMENT_ASSURANCE_INVALID)) eqn:Ha; bools.
  2:{ apply dec_stable in Ha. subst. eapply spec_refused; [done..|by left|reflexivity]. }
  assert (Hg : negb (bool_decide (a = PBNS_ENROLLMENT_ASSURANCE_SOFTWARE))
    && negb (bool_decide (a = PBNS_ENROLLMENT_ASSURANCE_TPM)) = false) by (by destruct a).
  assert (E : enroll_do (EInit a id host init baseline) c
    = enrollment_init c a id host init baseline) by done.
  unfold enrollment_init in E. rewrite Hg in E.
  unfold PBNS_ENROLLMENT_REQUEST_ID_SIZE, PBNS_ENROLLMENT_NONCE_SIZE, PBNS_ENROLLMENT_DIGEST_SIZE in E.
  rewrite !all_zero_sized in E by done. cbn [or_else mbind option_bind] in E.
  destruct id as [id|]; [destruct (ct_nonzero id) eqn:Zid|]; cbn [negb] in E; [|eapply spec_refused; [done..|by left|exact E]..].
  destruct host as [host|]; [destruct (ct_nonzero host) eqn:Zhost|]; cbn [negb] in E; [|eapply spec_refused; [done..|by left|exact E]..].
  destruct init as [init|]; [destruct (ct_nonzero init) eqn:Zinit|]; cbn [negb] in E; [|eapply spec_refused; [done..|by left|exact E]..].
  destruct baseline as [baseline|]; [destruct (ct_nonzero baseline) eqn:Zbase|]; cbn [negb] in E; [|eapply spec_refused; [done..|by left|exact E]..].
  cbn [sized] in *. cbn [memcpy_of mbind option_bind] in E. rewrite !rd_slice_whole in E by done. cbn [mbind option_bind] in E.
  do 2 eexists. split; [exact E|]. split; [|done].
  apply (ledger_started (mk_values a id host [] init baseline)). by unfold start_ok, proper.
Qed.

(** A ledger whose context waits for a challenge, a proof or a receipt. *)
Lemma ledger_init log c :
  ledger log c -> en_state c = PBNS_ENROLLMENT_INIT -> en_assurance c <> PBNS_ENROLLMENT_ASSURANCE_INVALID ->
  exists v, start_ok v /\ log = [call_init v] /\ c = context_of v PBNS_ENROLLMENT_INIT (replicate 32 0).
Proof. intros H. destruct H; cbn; intros ? ?; try done. by eexists. Qed.

Lemma ledger_waits_proof log c :
  ledger log c -> en_state c = PBNS_ENROLLMENT_CHALLENGE_VERIFIED ->
  exists v, start_ok v /\ proper 32 (ev_server_nonce v) /\ log = [call_init v; call_challenge v]
  /\ c = context_of v PBNS_ENROLLMENT_CHALLENGE_VERIFIED (ev_server_nonce v).
Proof. intros H. destruct H; cbn; intros ?; try done. by eexists. Qed.

Lemma ledger_waits_receipt log c :
  ledger log c -> en_state c = PBNS_ENROLLMENT_PROOF_READY ->
  exists v activation, start_ok v /\ proper 32 (ev_server_nonce v) /\ activation_ok v activation
  /\ log = [call_init v; call_challenge v; call_proof v activation]
  /\ c = context_of v PBNS_ENROLLMENT_PROOF_READY (ev_server_nonce v).
Proof. intros H. destruct H; cbn; intros ?; try done. by eexists _, _. Qed.

Lemma challenge_do log c host server init verified :
  ledger log c -> enroll_typed (EChallenge host server init verified) -> enroll_spec log (EChallenge host server init verified) c.
Proof.
  intros Hl (Hhost & Hserver & Hinit).
  assert (E : enroll_do (EChallenge host server init verified) c
    = enrollment_accept_challenge c host server init verified) by done.
  unfold enrollment_accept_challenge, PBNS_ENROLLMENT_NONCE_SIZE, PBNS_ENROLLMENT_DIGEST_SIZE in E.
  rewrite all_zero_sized in E by done. cbn [or_else mbind option_bind] in E.
  destruct host as [host|]; cbn [bool_decide decide] in E; [|eapply spec_refused; [done..|by left|exact E]].
  destruct server as [server|]; [destruct (ct_nonzero server) eqn:Zs|]; cbn [negb] in E; [|eapply spec_refused; [done..|by left|exact E]..].
  destruct init as [init|]; [|eapply spec_refused; [done..|by left|exact E]].
  destruct (negb _ || _) eqn:Hg in E; [eapply spec_refused; [done..|by right|exact E]|]. bools.
  destruct (ledger_init log c) as (v & Hv & -> & ->); [done..|]. destruct Hv as (Ha & Hid & Hh & Hi & Hb).
  cbn [context_of en_host_nonce en_init_digest en_assurance en_request_id en_baseline_digest] in E. cbn [bool_decide decide] in E.
  rewrite !equal_sized in E by (try done; by destruct Hh, Hi). cbn [and_then mbind option_bind] in E.
  destruct verified; cbn [negb] in E; [|by apply spec_failed].
  destruct (bool_decide (Some host = _)) eqn:E1 in E; cbn [negb] in E; [|by apply spec_failed].
  destruct (bool_decide (Some init = _)) eqn:E2 in E; cbn [negb] in E; [|by apply spec_failed].
  bools. injection E1 as ->. injection E2 as ->. cbn [memcpy_of mbind option_bind] in E.
  rewrite rd_slice_whole in E by done. cbn [mbind option_bind] in E.
  do 2 eexists. split; [exact E|]. split; [|done].
  apply (ledger_challenged (mk_values (ev_assurance v) (ev_request_id v) (ev_host_nonce v) server (ev_init_digest v) (ev_baseline_digest v)));
    by unfold start_ok, proper.
Qed.

Lemma proof_do log c server init baseline activation identity :
  ledger log c -> enroll_typed (EProof server init baseline activation identity) ->
  enroll_spec log (EProof server init baseline activation identity) c.
Proof.
  intros Hl (Hserver & Hinit & Hbase).
  assert (E : enroll_do (EProof server init baseline activation identity) c
    = enrollment_prepare_proof c server init baseline activation identity) by done.
  unfold enrollment_prepare_proof, PBNS_ENROLLMENT_NONCE_SIZE, PBNS_ENROLLMENT_DIGEST_SIZE in E.
  destruct (_ || _) eqn:Hn in E; [eapply spec_refused; [done..|by left|exact E]|]. clear Hn.
  destruct (negb _) eqn:Hg in E; [eapply spec_refused; [done..|by right|exact E]|]. bools.
  destruct (ledger_waits_proof log c) as (v & (Ha & Hid & Hh & Hi & Hb) & Hs & -> & ->); [done..|]. cbv zeta in E.
  cbn [context_of en_server_nonce en_init_digest en_assurance en_baseline_digest] in E.
  rewrite !equal_sized in E by (try done; by destruct Hs, Hi, Hb). cbn [and_then mbind option_bind] in E.
  destruct (_ && identity) eqn:Hact in E; cbn [negb] in E; [|by apply spec_failed].
  destruct (bool_decide (server = _)) eqn:E1 in E; cbn [negb] in E; [|by apply spec_failed].
  destruct (bool_decide (init = _)) eqn:E2 in E; cbn [negb] in E; [|by apply spec_failed].
  destruct (bool_decide (baseline = _)) eqn:E3 in E; cbn [negb] in E; [|by apply spec_failed].
  apply andb_true_iff in Hact as [Hact ->]. apply bool_decide_eq_true in E1 as ->, E2 as ->, E3 as ->.
  do 2 eexists. split; [exact E|]. split; [|done]. apply (ledger_proved v activation); [by unfold start_ok|done|].
  intros Ht. rewrite Ht in Hact. done.
Qed.

Lemma complete_do log c id server verified :
  ledger log c -> enroll_typed (EComplete id server verified) -> enroll_spec log (EComplete id server verified) c.
Proof.
  intros Hl (Hid' & Hserver).
  assert (E : enroll_do (EComplete id server verified) c = enrollment_complete c id server verified) by done.
  unfold enrollment_complete, PBNS_ENROLLMENT_NONCE_SIZE, PBNS_ENROLLMENT_REQUEST_ID_SIZE in E.
  destruct (_ || _) eqn:Hn in E; [eapply spec_refused; [done..|by left|exact E]|]. clear Hn.
  destruct (negb _) eqn:Hg in E; [eapply spec_refused; [done..|by right|exact E]|]. bools.
  destruct (ledger_waits_receipt log c) as (v & activation & (Ha & Hid & Hh & Hi & Hb) & Hs & Hact & -> & ->); [done..|].
  cbn [context_of en_server_nonce en_request_id] in E.
  rewrite !equal_sized in E by (try done; by destruct Hs, Hid). cbn [and_then mbind option_bind] in E.
  destruct verified; cbn [negb] in E; [|by apply spec_failed].
  destruct (bool_decide (id = _)) eqn:E1 in E; cbn [negb] in E; [|by apply spec_failed].
  destruct (bool_decide (server = _)) eqn:E2 in E; cbn [negb] in E; [|by apply spec_failed].
  apply bool_decide_eq_true in E1 as ->, E2 as ->.
  do 2 eexists. split; [exact E|]. split; [|done]. apply (ledger_complete v activation); [by unfold start_ok|done..].
Qed.

Lemma enroll_do_spec log c op : ledger log c -> enroll_typed op -> enroll_spec log op c.
Proof.
  intros Hl Ht. destruct op; [by apply init_do|by apply challenge_do|by apply proof_do|by apply complete_do|].
  do 2 eexists. split; [reflexivity|]. split; [constructor|done].
Qed.

Lemma enrolled_ledger log c : enrolled log c -> ledger log c.
Proof.
  induction 1 as [|log c op st c' _ IH Ht E]; [constructor|].
  destruct (enroll_do_spec log c op IH Ht) as (st' & c2 & E' & Hl & _). rewrite E in E'. by injection E' as -> ->.
Qed.

(** The four calls of a proper enrollment. *)
Definition enroll_calls (v : enroll_values) (activation : bool) : list enroll_op :=
  [call_init v; call_challenge v; call_proof v activation; call_complete v].

Section proper_calls.
Context (v : enroll_values) (Hv : start_ok v).

Lemma init_succeeds c : enroll_do (call_init v) c = Some (PBNS_OK, context_of v PBNS_ENROLLMENT_INIT (replicate 32 0)).
Proof.
  destruct Hv as (Ha & [Lid Zid] & [Lh Zh] & [Li Zi] & [Lb Zb]).
  unfold call_init, enroll_do, enrollment_init, PBNS_ENROLLMENT_REQUEST_ID_SIZE, PBNS_ENROLLMENT_NONCE_SIZE,
    PBNS_ENROLLMENT_DIGEST_SIZE.
  rewrite !all_zero_sized, Zid, Zh, Zi, Zb by done.
  replace (negb _ && negb _) with false by (by destruct (ev_assurance v)). cbn [negb or_else mbind option_bind memcpy_of].
  by rewrite !rd_slice_whole.
Qed.

Context (Hs : proper 32 (ev_server_nonce v)).

Lemma challenge_succeeds nonce :
  enroll_do (call_challenge v) (context_of v PBNS_ENROLLMENT_INIT nonce)
  = Some (PBNS_OK, context_of v PBNS_ENROLLMENT_CHALLENGE_VERIFIED (ev_server_nonce v)).
Proof.
  destruct Hv as (Ha & _ & [Lh _] & [Li _] & _), Hs as [Ls Zs].
  unfold call_challenge, enroll_do, enrollment_accept_challenge, PBNS_ENROLLMENT_NONCE_SIZE, PBNS_ENROLLMENT_DIGEST_SIZE.
  rewrite all_zero_sized, Zs by done.
  cbn [context_of en_state en_assurance en_host_nonce en_init_digest en_request_id en_baseline_digest en_server_nonce].
  rewrite !equal_sized by done. rewrite (bool_decide_eq_false_2 (ev_assurance v = _)) by done. cbn [memcpy_of mbind option_bind].
  rewrite !rd_slice_whole by done. by rewrite !(bool_decide_eq_true_2 (Some _ = Some _)).
Qed.

Lemma proof_succeeds activation :
  activation_ok v activation ->
  enroll_do (call_proof v activation) (context_of v PBNS_ENROLLMENT_CHALLENGE_VERIFIED (ev_server_nonce v))
  = Some (PBNS_OK, context_of v PBNS_ENROLLMENT_PROOF_READY (ev_server_nonce v)).
Proof.
  destruct Hv as (Ha & _ & _ & [Li _] & [Lb _]), Hs as [Ls _]. intros Hact.
  unfold call_proof, enroll_do, enrollment_prepare_proof, PBNS_ENROLLMENT_NONCE_SIZE, PBNS_ENROLLMENT_DIGEST_SIZE.
  cbn [context_of en_state en_assurance en_host_nonce en_init_digest en_request_id en_baseline_digest en_server_nonce].
  rewrite !equal_sized by done. rewrite !(bool_decide_eq_true_2 (Some _ = Some _)) by done.
  unfold activation_ok in Hact. unfold context_of, with_state. cbn. destruct (ev_assurance v); [done..|]. by rewrite Hact.
Qed.

Lemma complete_succeeds :
  enroll_do (call_complete v) (context_of v PBNS_ENROLLMENT_PROOF_READY (ev_server_nonce v))
  = Some (PBNS_OK, context_of v PBNS_ENROLLMENT_COMPLETE (ev_server_nonce v)).
Proof.
  destruct Hv as (_ & [Lid _] & _), Hs as [Ls _].
  unfold call_complete, enroll_do, enrollment_complete, PBNS_ENROLLMENT_NONCE_SIZE, PBNS_ENROLLMENT_REQUEST_ID_SIZE.
  cbn [context_of en_state en_server_nonce en_request_id]. rewrite !equal_sized by done.
  by rewrite !(bool_decide_eq_true_2 (Some _ = Some _)).
Qed.

Lemma enroll_calls_succeed activation c :
  activation_ok v activation ->
  enroll_run (enroll_calls v activation) c
  = Some (replicate 4 PBNS_OK, context_of v PBNS_ENROLLMENT_COMPLETE (ev_server_nonce v)).
Proof.
  intros Hact. unfold enroll_calls. cbn [enroll_run]. rewrite init_succeeds. cbn [mbind option_bind].
  rewrite challenge_succeeds. cbn [mbind option_bind]. rewrite (proof_succeeds activation Hact). cbn [mbind option_bind].
  by rewrite complete_succeeds.
Qed.
End proper_calls.

(** ** Typing a token *)

(** What the keys mean on the text alone. *)
Definition edit_key (text : bytes) (key : Z) : pbns_status * bytes * pbns_enrollment_token_input_action :=
  if key =? 0 then (PBNS_OK, text, PBNS_ENROLLMENT_TOKEN_CONTINUE)
  else if key =? 13 then
    if zlen text =? 43 then (PBNS_OK, text, PBNS_ENROLLMENT_TOKEN_SUBMIT)
    else (PBNS_ERR_FORMAT, text, PBNS_ENROLLMENT_TOKEN_CONTINUE)
  else if key =? 8 then (PBNS_OK, removelast text, PBNS_ENROLLMENT_TOKEN_CONTINUE)
  else if token_character_valid key && (zlen text <? 43) then (PBNS_OK, text ++ [key], PBNS_ENROLLMENT_TOKEN_CONTINUE)
  else (PBNS_ERR_FORMAT, text, PBNS_ENROLLMENT_TOKEN_CONTINUE).

Fixpoint edit_keys (keys : list Z) (text : bytes) : list (pbns_status * pbns_enrollment_token_input_action) * bytes :=
  match keys with
  | [] => ([], text)
  | key :: keys =>
      let '(st, text, action) := edit_key text key in
      let '(out, text) := edit_keys keys text in ((st, action) :: out, text)
  end.

Fixpoint type_keys (keys : list Z) (input : pbns_enrollment_token_input)
  : option (list (pbns_status * pbns_enrollment_token_input_action) * pbns_enrollment_token_input) :=
  match keys with
  | [] => Some ([], input)
  | key :: keys =>
      '(st, input, action) ← pbns_enrollment_token_input_key (Some input) key (Some PBNS_ENROLLMENT_TOKEN_CONTINUE);
      input ← input; action ← action;
      '(out, input) ← type_keys keys input; Some ((st, action) :: out, input)
  end.

(** The input holds the text, and zeros behind it. *)
Definition holds_text (input : pbns_enrollment_token_input) (text : bytes) : Prop :=
  ti_text input = text ++ replicate (43 - length text) 0 /\ ti_length input = zlen text /\ zlen text <= 43
  /\ Forall (fun b => token_character_valid b = true) text.

Definition empty_input : pbns_enrollment_token_input := mk_token_input (replicate 43 0) 0.

Lemma character_byte c : token_character_valid c = true -> is_byte c.
Proof. unfold token_character_valid, is_byte. lia. Qed.

Lemma token_key_spec input text key :
  holds_text input text ->
  exists st text' action input', edit_key text key = (st, text', action) /\ holds_text input' text'
  /\ pbns_enrollment_token_input_key (Some input) key (Some PBNS_ENROLLMENT_TOKEN_CONTINUE)
     = Some (st, Some input', Some action).
Proof.
  intros (Ht & Hl & H43 & Hv). destruct input as [t l]. cbn in Ht, Hl. subst t l.
  unfold pbns_enrollment_token_input_key, token_input_key, edit_key, PBNS_ENROLLMENT_TOKEN_TEXT_SIZE. cbn [ti_length ti_text].
  rewrite (proj2 (Z.ltb_ge 43 (zlen text))) by lia.
  assert (Hsame : holds_text (mk_token_input (text ++ replicate (43 - length text) 0) (zlen text)) text) by done.
  destruct (key =? 0); [by eexists _, _, _, _|]. destruct (key =? 13).
  { destruct (zlen text =? 43); cbn [negb]; by eexists _, _, _, _. }
  destruct (key =? 8).
  { destruct (decide (text = [])) as [-> | Hne]; [by eexists _, _, _, _|]. destruct (exists_last Hne) as (t & x & ->).
    rewrite (proj2 (Z.ltb_lt 0 _)) by llia. rewrite removelast_last, <- app_assoc. cbn [app].
    replace (zlen (t ++ [x]) - 1) with (zlen t) by llia. rewrite wr_app_head by done. cbn [mbind option_bind].
    eexists _, _, _, _. split; [reflexivity|]. split; [|reflexivity]. apply Forall_app in Hv as [Hv _]. unfold holds_text. cbn.
    split; [|split; [done|split; [llia|done]]]. f_equal. rewrite length_app in *. cbn [length] in *.
    by replace (43 - length t)%nat with (S (43 - (length t + 1)))%nat by lia. }
  destruct (token_character_valid key) eqn:Hk; cbn [negb orb andb]; [|by eexists _, _, _, _].
  destruct (Z.leb_spec 43 (zlen text)); [rewrite (proj2 (Z.ltb_ge _ 43)) by lia; by eexists _, _, _, _|].
  rewrite (proj2 (Z.ltb_lt _ 43)) by lia. rewrite (u8_small key) by (by apply character_byte).
  replace (43 - length text)%nat with (S (43 - (length text + 1)))%nat by lia. cbn [replicate].
  rewrite wr_app_head by done. cbn [mbind option_bind]. eexists _, _, _, _. split; [reflexivity|]. split; [|reflexivity].
  unfold holds_text. cbn. lens. split; [by rewrite <- app_assoc|]. split; [lia|]. split; [lia|]. apply Forall_app. auto.
Qed.

Lemma type_keys_spec keys input text :
  holds_text input text ->
  exists input', type_keys keys input = Some (fst (edit_keys keys text), input') /\ holds_text input' (snd (edit_keys keys text)).
Proof.
  revert input text. induction keys as [|key keys IH]; intros input text Hi; cbn [type_keys edit_keys]; [by eexists|].
  destruct (token_key_spec input text key Hi) as (st & text' & action & input' & -> & Hi' & ->). cbn [mbind option_bind].
  destruct (IH input' text' Hi') as (input2 & -> & Hi2). destruct (edit_keys keys text') as [out text2]. cbn [fst snd] in *. by eexists.
Qed.

(** ** Properties *)

(** The three steps behind the start of an enrollment. *)
Definition is_step (op : enroll_op) : bool := match op with EChallenge _ _ _ _ | EProof _ _ _ _ _ | EComplete _ _ _ => true | _ => false end.

Definition ended (c : pbns_enrollment) : Prop := en_state c = PBNS_ENROLLMENT_COMPLETE \/ en_state c = PBNS_ENROLLMENT_FAILED.

Lemma ended_refuses c op :
  ended c -> enroll_typed op -> is_step op = true ->
  exists st, (st = PBNS_ERR_ARGUMENT \/ st = PBNS_ERR_STATE) /\ enroll_do op c = Some (st, c).
Proof.
  intros Hc Ht Hop. destruct op as [|host server init verified|server init baseline activation identity|id server verified|]; try done;
    cbn [enroll_do]; unfold enrollment_accept_challenge, enrollment_prepare_proof, enrollment_complete.
  - destruct Ht as (_ & Hs & _). unfold PBNS_ENROLLMENT_NONCE_SIZE at 1. rewrite all_zero_sized by done.
    assert (E : exists b, or_else (Some (bool_decide (host = None))) (or_else
      (Some match server with Some l => negb (ct_nonzero l) | None => true end) (Some (bool_decide (init = None)))) = Some b)
      by (cbn; repeat case_match; eauto).
    destruct E as [b ->]. cbn [mbind option_bind]. destruct b; [by eauto|].
    rewrite (bool_decide_eq_false_2 (en_state c = _)) by (by destruct Hc as [-> | ->]). cbn [negb orb]. eauto.
  - destruct (_ || _); [by eauto|]. rewrite (bool_decide_eq_false_2 (en_state c = _)) by (by destruct Hc as [-> | ->]).
    cbn [negb]. eauto.
  - destruct (_ || _); [by eauto|]. rewrite (bool_decide_eq_false_2 (en_state c = _)) by (by destruct Hc as [-> | ->]).
    cbn [negb]. eauto.
Qed.

Lemma ledger_complete_iff log c :
  ledger log c ->
  en_state c = PBNS_ENROLLMENT_COMPLETE
  <-> exists v activation, start_ok v /\ proper 32 (ev_server_nonce v) /\ activation_ok v activation /\ log = enroll_calls v activation.
Proof.
  intros Hl. split.
  - intros Hc. destruct Hl; try done. by eexists _, _.
  - intros (v & activation & _ & _ & _ & ->). remember (enroll_calls v activation) as calls eqn:E.
    induction Hl as [| | | | |log c Hl IH Hc Hf]; try done. by destruct (Hc (IH E)).
Qed.

(** C6: an enrollment completes only in order.  Whatever calls were made before, in
    any order and with any arguments: every call returns; the context is complete
    exactly when the calls that succeeded since the last start are the start, a
    verified challenge, a proof and a verified receipt, in this order and all with
    the same values, none of them zero, and with an activated credential when the
    assurance is that of a TPM; a call whose checks fail only ends the enrollment,
    and any other refused call changes nothing; an enrollment that completed or
    failed refuses all further steps; and the four proper calls complete an
    enrollment from any context. *)
Theorem enrollment_in_order (log : list enroll_op) (c : pbns_enrollment) :
  enrolled log c ->
  (en_state c = PBNS_ENROLLMENT_COMPLETE
   <-> exists v activation, start_ok v /\ proper 32 (ev_server_nonce v) /\ activation_ok v activation /\ log = enroll_calls v activation)
  /\ (forall op, enroll_typed op -> exists st c', enroll_do op c = Some (st, c') /\ enroll_outcome c st c'
      /\ (ended c -> is_step op = true -> (st = PBNS_ERR_ARGUMENT \/ st = PBNS_ERR_STATE) /\ c' = c))
  /\ forall v activation, start_ok v -> proper 32 (ev_server_nonce v) -> activation_ok v activation ->
     enroll_run (enroll_calls v activation) c
     = Some (replicate 4 PBNS_OK, context_of v PBNS_ENROLLMENT_COMPLETE (ev_server_nonce v)).
Proof.
  intros Hl%enrolled_ledger. split; [by apply ledger_complete_iff|]. split.
  - intros op Ht. destruct (enroll_do_spec log c op Hl Ht) as (st & c' & E & _ & Ho). exists st, c'. split; [done|]. split; [done|].
    intros He Hop. destruct (ended_refuses c op He Ht Hop) as (st2 & Hst & E2). rewrite E in E2. by injection E2 as -> ->.
  - intros v activation Hv Hs Hact. by apply enroll_calls_succeed.
Qed.

(** The token editor implements text editing.  Whatever keys are typed, every
    key returns and reports what it means on the text: characters of the URL-safe
    alphabet are appended up to 43 of them, backspace removes the last, anything
    else is refused; the buffer always holds exactly the text, with zeros behind
    it, so that a token is submitted only when it has 43 valid characters. *)
Theorem token_input_refines (keys : list Z) :
  exists out text input, type_keys keys empty_input = Some (out, input) /\ edit_keys keys [] = (out, text)
  /\ holds_text input text
  /\ forall key, exists st input' action,
     pbns_enrollment_token_input_key (Some input) key (Some PBNS_ENROLLMENT_TOKEN_CONTINUE) = Some (st, Some input', Some action)
     /\ (action = PBNS_ENROLLMENT_TOKEN_SUBMIT <-> key = 13 /\ length text = 43%nat)
     /\ (action = PBNS_ENROLLMENT_TOKEN_SUBMIT -> ti_text input' = text).
Proof.
  destruct (type_keys_spec keys empty_input []) as (input & E & Hi).
  { split; [done|]. split; [done|]. split; [cbn; lia|constructor]. }
  destruct (edit_keys keys []) as [out text]. exists out, text, input. split; [done|]. split; [done|]. split; [done|].
  intros key. destruct (token_key_spec input text key Hi) as (st & text' & action & input' & Hk & Hi' & E').
  exists st, input', action. split; [done|].
  assert (Hs : action = PBNS_ENROLLMENT_TOKEN_SUBMIT <-> key = 13 /\ length text = 43%nat).
  { unfold edit_key in Hk. repeat case_match; injection Hk as <- <- <-; bools; split; intros; try done; lia. }
  assert (Ht : action = PBNS_ENROLLMENT_TOKEN_SUBMIT -> text' = text).
  { unfold edit_key in Hk. repeat case_match; injection Hk as <- <- <-; done. }
  split; [done|]. intros Ha. destruct Hi' as (-> & _). rewrite (Ht Ha). apply Hs in Ha as [_ ->]. by rewrite app_nil_r.
Qed.

(** ** Witnesses *)

Definition ex_values : enroll_values :=
  mk_values PBNS_ENROLLMENT_ASSURANCE_TPM (replicate 16 1) (replicate 32 2) (replicate 32 3) (replicate 32 4) (replicate 32 5).

Lemma ex_values_ok : start_ok ex_values /\ proper 32 (ev_server_nonce ex_values).
Proof. split; [split; [discriminate|]|]; repeat split. Qed.

(** A failed enrollment, reached by a proof without activation. *)
Definition ex_failed_log : list enroll_op := [call_init ex_values; call_challenge ex_values].

Lemma ex_failed :
  enrolled ex_failed_log (context_of ex_values PBNS_ENROLLMENT_FAILED (ev_server_nonce ex_values)).
Proof.
  assert (H1 : enrolled [call_init ex_values] (context_of ex_values PBNS_ENROLLMENT_INIT (replicate 32 0))).
  { apply (enrolled_do [] zero_enrollment (call_init ex_values) PBNS_OK); [constructor|done|vm_compute; reflexivity]. }
  assert (H2 : enrolled ex_failed_log (context_of ex_values PBNS_ENROLLMENT_CHALLENGE_VERIFIED (ev_server_nonce ex_values))).
  { apply (enrolled_do _ _ (call_challenge ex_values) PBNS_OK _ H1); [done|vm_compute; reflexivity]. }
  apply (enrolled_do _ _ (call_proof ex_values false) PBNS_ERR_AUTHENTICATION _ H2); [done|vm_compute; reflexivity].
Qed.

Lemma enrollment_in_order_witness :
  (exists st, (st = PBNS_ERR_ARGUMENT \/ st = PBNS_ERR_STATE)
   /\ enroll_do (call_complete ex_values) (context_of ex_values PBNS_ENROLLMENT_FAILED (ev_server_nonce ex_values))
      = Some (st, context_of ex_values PBNS_ENROLLMENT_FAILED (ev_server_nonce ex_values)))
  /\ enroll_run (enroll_calls ex_values true) (context_of ex_values PBNS_ENROLLMENT_FAILED (ev_server_nonce ex_values))
     = Some (replicate 4 PBNS_OK, context_of ex_values PBNS_ENROLLMENT_COMPLETE (ev_server_nonce ex_values)).
Proof.
  destruct (enrollment_in_order ex_failed_log _ ex_failed) as (_ & Hdo & Hrun). split.
  - destruct (Hdo (call_complete ex_values)) as (st & c' & E & _ & Hend); [done|].
    destruct Hend as [Hst ->]; [by right|done|]. by exists st.
  - destruct ex_values_ok as [Hv Hs]. apply (Hrun ex_values true Hv Hs). done.
Defined.
