(* ===== verification/EnrollmentBaseline.v ===== *)
(** * Enrollment baselines ([include/pbns/enrollment_baseline.h], [src/core/enrollment_baseline.c])

    The state of the platform that an enrollment records: firmware, Secure Boot,
    four registers and the event log behind them.  Only a baseline with the four
    registers in order and a well-formed log is encoded, and the octets determine
    the baseline. *)

From stdpp Require Import base list numbers.
From Stdlib Require Import ZArith Lia.
From S2P Require Import Prelude Endian Status Buffers Cbor CborTree MeasuredBoot MeasuredLog MeasuredProps.

(** ** The code *)

(** "PBNS-ENROLLMENT-BASELINE-v1" *)
Definition PBNS_BASELINE_DOMAIN : bytes :=
  [80; 66; 78; 83; 45; 69; 78; 82; 79; 76; 76; 77; 69; 78; 84; 45; 66; 65; 83; 69; 76; 73; 78; 69; 45; 118; 49].
Definition PBNS_BASELINE_DIGEST_SIZE : Z := 32.
Definition PBNS_BASELINE_PCR_COUNT : Z := 4.

Record pbns_baseline_pcr := mk_baseline_pcr { bp_index : Z; bp_digest : bytes }.

Record pbns_enrollment_baseline := mk_baseline {
  eb_firmware_vendor_digest : bytes;
  eb_firmware_version_digest : bytes;
  eb_secure_boot : bool;
  eb_setup_mode : bool;
  eb_db_digest : bytes;
  eb_dbx_digest : bytes;
  eb_pcrs : list pbns_baseline_pcr;
  eb_event_log : pbns_view;
  eb_event_log_digest : bytes;
}.

Definition required_pcrs : list Z := [0; 2; 4; 7].

(** The comparison of the four indices, one after the other. *)
Fixpoint pcrs_match (pcrs : list pbns_baseline_pcr) (required : list Z) : option bool :=
  match required with
  | [] => Some true
  | r :: required =>
      match pcrs with
      | [] => None
      | pcr :: pcrs => if negb (bp_index pcr =? r) then Some false else pcrs_match pcrs required
      end
  end.

Definition baseline_is_valid (baseline : pbns_enrollment_baseline) : option bool :=
  if (v_ptr (eb_event_log baseline) =? 0) || (v_len (eb_event_log baseline) =? 0) then Some false
  else
  matched ← pcrs_match (eb_pcrs baseline) required_pcrs;
  if negb matched then Some false
  else
  '(status, _) ← pbns_measured_boot_validate_event_log (eb_event_log baseline) (Some zero_summary);
  Some (is_ok status).

Definition pcr_tree (pcr : pbns_baseline_pcr) : cbor_tree :=
  TMap [leaf (1, CUInt (bp_index pcr)); leaf (2, CBytes (bp_digest pcr))].

Definition baseline_tree (b : pbns_enrollment_baseline) : cbor_tree :=
  TMap [leaf (1, CText PBNS_BASELINE_DOMAIN); leaf (2, CBytes (eb_firmware_vendor_digest b));
        leaf (3, CBytes (eb_firmware_version_digest b)); (4, TBool (eb_secure_boot b)); (5, TBool (eb_setup_mode b));
        leaf (6, CBytes (eb_db_digest b)); leaf (7, CBytes (eb_dbx_digest b)); (8, TArray (pcr_tree <$> eb_pcrs b));
        leaf (9, CBytes (v_data (eb_event_log b))); leaf (10, CBytes (eb_event_log_digest b))].

Section code.
Context `{QCBORSpiffy}.

(** The status, the octets of the output and [*written], which a refused
    argument leaves alone. *)
Definition pbns_enrollment_baseline_encode (baseline : ptr pbns_enrollment_baseline) (output : pbns_buffer) (written : ptr Z)
  : option (pbns_status * bytes * ptr Z) :=
  match baseline with
  | None => Some (PBNS_ERR_ARGUMENT, b_data output, written)
  | Some b =>
      valid ← baseline_is_valid b;
      if negb valid || (b_ptr output =? 0) || (b_cap output =? 0) || negb (b_len output =? 0)
      then Some (PBNS_ERR_ARGUMENT, b_data output, written)
      else
      match written with
      | None => Some (PBNS_ERR_ARGUMENT, b_data output, None)
      | Some _ =>
          let '(error, encoded, data) := QCBOREncode_tree (baseline_tree b) (b_data output) in
          match error with
          | QCBOR_ERR_BUFFER_TOO_SMALL => Some (PBNS_ERR_LIMIT, data, Some 0)
          | QCBOR_ERR_OTHER => Some (PBNS_ERR_FORMAT, data, Some 0)
          | QCBOR_SUCCESS =>
              if (zlen encoded =? 0) || (b_cap output <? zlen encoded) then Some (PBNS_ERR_FORMAT, data, Some 0)
              else Some (PBNS_OK, data, Some (zlen encoded))
          end
      end
  end.
End code.

(** ** What is encoded *)

Definition pcr_sized (pcr : pbns_baseline_pcr) : Prop := 0 <= bp_index pcr <= UINT8_MAX /\ length (bp_digest pcr) = 32%nat.

(** The arrays have their sizes, and the log fits into an address space. *)
Definition baseline_sized (b : pbns_enrollment_baseline) : Prop :=
  length (eb_firmware_vendor_digest b) = 32%nat /\ length (eb_firmware_version_digest b) = 32%nat
  /\ length (eb_db_digest b) = 32%nat /\ length (eb_dbx_digest b) = 32%nat /\ length (eb_event_log_digest b) = 32%nat
  /\ length (eb_pcrs b) = 4%nat /\ Forall pcr_sized (eb_pcrs b) /\ bytes_ok (v_data (eb_event_log b))
  /\ v_len (eb_event_log b) <= UINT64_MAX.

(** The registers in order, over a well-formed log. *)
Definition baseline_proper (b : pbns_enrollment_baseline) : Prop :=
  map bp_index (eb_pcrs b) = required_pcrs /\ v_ptr (eb_event_log b) <> 0
  /\ v_len (eb_event_log b) <= PBNS_MEASURED_BOOT_EVENT_LOG_MAX_SIZE
  /\ exists h es, log_ok h es /\ v_data (eb_event_log b) = log_octets h es.

(** Equal but for the address of the log. *)
Definition same_baseline (a b : pbns_enrollment_baseline) : Prop :=
  eb_firmware_vendor_digest a = eb_firmware_vendor_digest b /\ eb_firmware_version_digest a = eb_firmware_version_digest b
  /\ eb_secure_boot a = eb_secure_boot b /\ eb_setup_mode a = eb_setup_mode b /\ eb_db_digest a = eb_db_digest b
  /\ eb_dbx_digest a = eb_dbx_digest b /\ eb_pcrs a = eb_pcrs b /\ v_data (eb_event_log a) = v_data (eb_event_log b)
  /\ eb_event_log_digest a = eb_event_log_digest b.

Lemma pcrs_match_spec pcrs required :
  length pcrs = length required -> pcrs_match pcrs required = Some (bool_decide (map bp_index pcrs = required)).
Proof.
  revert required. induction pcrs as [|pcr pcrs IH]; intros [|r required]; try done. intros [= E]. cbn [pcrs_match map].
  destruct (Z.eqb_spec (bp_index pcr) r) as [-> |Hne]; cbn [negb].
  - rewrite IH by done. f_equal. apply bool_decide_ext. split; congruence.
  - symmetry. f_equal. apply bool_decide_eq_false. congruence.
Qed.

Lemma log_octets_nonempty h es : log_ok h es -> log_octets h es <> [].
Proof.
  intros Hok E. assert (Hb : bytes_ok (log_octets h es)) by (rewrite E; constructor).
  pose proof Hok as (Hh & _). unfold log_octets in E. apply app_eq_nil in E as [E _].
  apply (f_equal length) in E. unfold header_octets in E. rewrite !length_app in E. cbn in E. lia.
Qed.

(** The checks decide which baselines are proper. *)
Lemma baseline_valid_spec b : baseline_sized b -> exists v, baseline_is_valid b = Some v /\ (v = true <-> baseline_proper b).
Proof.
  intros (_ & _ & _ & _ & _ & H4 & _ & Hok & _). unfold baseline_is_valid, baseline_proper. destruct (eb_event_log b) as [p log] eqn:El.
  unfold v_len in *. cbn [v_ptr v_data] in *. destruct (_ || _) eqn:Hn.
  { exists false. split; [done|]. split; [done|]. intros (_ & Hp & _ & h & es & Hlog & E). bools. destruct Hn as [Hn|Hn]; bools; [done|].
    destruct log; [|cbn in Hn; lia]. by destruct (log_octets_nonempty h es Hlog). }
  bools. rewrite pcrs_match_spec by done. cbn [mbind option_bind].
  destruct (bool_decide (map bp_index (eb_pcrs b) = required_pcrs)) eqn:Em; cbn [negb]; bools;
    [|exists false; split; [done|]; split; [done|]; by intros (? & _)].
  unfold pbns_measured_boot_validate_event_log, validate_event_log.
  destruct (parse_log_total (mk_view p log) Hok) as (r & Er & Hr). rewrite Er. cbn [mbind option_bind].
  destruct (decide (zlen log <= PBNS_MEASURED_BOOT_EVENT_LOG_MAX_SIZE)) as [Hmax|Hmax].
  - destruct (parse_log_cases p log) as [(h & es & Hlog & -> & Ep)|(st & Hst & Ep & Hno)]; [done|done|destruct log; cbn in *; lia|..];
      rewrite Ep in Er; injection Er as <-; cbn [mbind option_bind].
    + exists true. split; [done|]. split; [|done]. intros _. split; [done|]. split; [done|]. split; [done|]. by exists h, es.
    + exists (is_ok st). split; [done|]. split; [by destruct Hst as [->| ->]|]. intros (_ & _ & _ & h & es & Hlog & E). by destruct (Hno h es).
  - destruct r as [st|parsed].
    + exists (is_ok st). split; [done|]. split; [intros Hst%is_ok_spec; by destruct Hr|by intros (_ & _ & ? & _)].
    + unfold v_len in Hr. cbn [v_data] in Hr. by destruct Hr as (_ & [_ ?] & _).
Qed.

Lemma baseline_tree_ok b : baseline_sized b -> tree_ok (baseline_tree b).
Proof.
  intros (H1 & H2 & H3 & H4 & H5 & Hn & Hpcrs & _ & Hl). unfold baseline_tree, leaf, label_ok. cbn [fst snd tree_ok length].
  unfold v_len, UINT64_MAX, INT64_MAX in *. cbn [cbor_value_ok fold_right]. unfold label_ok, INT64_MAX, UINT64_MAX.
  rewrite ?length_fmap, ?H1, ?H2, ?H3, ?H4, ?H5, ?Hn. change (zlen PBNS_BASELINE_DOMAIN) with 27.
  assert (Hp : fold_right (fun x Q => tree_ok x /\ Q) True (pcr_tree <$> eb_pcrs b)).
  { clear Hn. induction Hpcrs as [|pcr pcrs [Hi Hd] _ IH]; [done|]. cbn [fmap list_fmap fold_right]. split; [|exact IH].
    unfold pcr_tree, leaf, label_ok, UINT8_MAX, UINT64_MAX, INT64_MAX in *. cbn [fst snd tree_ok length fold_right cbor_value_ok].
    unfold label_ok, UINT64_MAX, INT64_MAX. rewrite Hd. lia. }
  repeat split; try done; try lia; cbn [snd tree_ok cbor_value_ok]; unfold UINT64_MAX; rewrite ?length_fmap; lia.
Qed.

#[export] Instance pcr_tree_inj : Inj (=) (=) pcr_tree.
Proof. intros [i1 d1] [i2 d2] [= -> ->]. done. Qed.

Lemma pcrs_norm pcrs : map tree_norm (pcr_tree <$> pcrs) = pcr_tree <$> pcrs.
Proof. induction pcrs as [|pcr pcrs IH]; [done|]. cbn. by f_equal. Qed.

Lemma baseline_tree_inj a b :
  baseline_sized a -> baseline_sized b -> tree_encode (baseline_tree a) = tree_encode (baseline_tree b) -> same_baseline a b.
Proof.
  intros Ha Hb E. apply tree_encode_inj in E; [|by apply baseline_tree_ok..]. unfold baseline_tree, leaf in E.
  cbn [tree_norm map fst snd cbor_norm] in E. rewrite !pcrs_norm in E. injection E as E1 E2 E3 E4 E5 E6 E7 E8 E9.
  unfold same_baseline. apply (inj (fmap pcr_tree)) in E7. done.
Qed.

(** ** Properties *)

(** Only proper baselines are enrolled, and their encoding is exact.  Encoding
    always returns, whatever the event log contains.  It is refused exactly when
    the output is unusable or the baseline is not proper: registers 0, 2, 4 and 7
    in this order over a log that is well-formed in the sense of the event log
    specification.  A proper baseline gives its canonical octets, or too small an
    output is reported and nothing counts as written; the octets determine every
    field of the baseline. *)
Theorem baseline_encode_exact `{S : QCBORSpiffy} (b : pbns_enrollment_baseline) (output : pbns_buffer) (size0 : Z) :
  baseline_sized b -> b_cap output < UINT32_MAX ->
  exists st data size, pbns_enrollment_baseline_encode (Some b) output (Some size0) = Some (st, data, Some size)
  /\ length data = length (b_data output)
  /\ (st = PBNS_ERR_ARGUMENT <-> ~ (baseline_proper b /\ b_ptr output <> 0 /\ b_len output = 0 /\ 0 < b_cap output))
  /\ (st = PBNS_ERR_ARGUMENT -> data = b_data output /\ size = size0)
  /\ (st <> PBNS_ERR_ARGUMENT -> st = if b_cap output <? zlen (tree_encode (baseline_tree b)) then PBNS_ERR_LIMIT else PBNS_OK)
  /\ (st = PBNS_OK -> take (Z.to_nat size) data = tree_encode (baseline_tree b)
      /\ forall b', baseline_sized b' -> take (Z.to_nat size) data = tree_encode (baseline_tree b') -> same_baseline b b')
  /\ (st = PBNS_ERR_LIMIT -> size = 0).
Proof.
  intros Hs Hcap. destruct (baseline_valid_spec b Hs) as (v & Ev & Hv). unfold pbns_enrollment_baseline_encode.
  rewrite Ev. cbn [mbind option_bind]. destruct (_ || negb (b_len output =? 0)) eqn:Hg.
  { do 3 eexists. split; [reflexivity|]. split; [done|]. split; [|done]. split; [|done]. intros _ (Hp & H1 & H2 & H3). apply Hv in Hp as ->. lia. }
  bools. apply Hv in H. clear Hv Ev. destruct (QCBOREncode_tree (baseline_tree b) (b_data output)) as [[e out] data] eqn:E.
  destruct (QCBOREncode_tree_spec _ _ _ _ _ E) as (Hlen & Hok & Hfit & Hsmall). unfold b_cap in *.
  assert (Hpos : 0 < zlen (b_data output)) by lia.
  destruct (Z.ltb_spec (zlen (b_data output)) (zlen (tree_encode (baseline_tree b)))).
  - rewrite (Hsmall Hcap) by done. do 3 eexists. split; [reflexivity|]. split; [done|]. split; [|done].
    split; [done|]. intros Hn. destruct Hn. done.
  - rewrite (Hfit Hcap) in Hok |- * by done. destruct (Hok eq_refl) as (-> & _ & ->).
    pose proof (tree_encode_pos (baseline_tree b)). replace ((_ =? 0) || _) with false by lia.
    do 3 eexists. split; [reflexivity|]. split; [done|]. split; [split; [done|intros Hn; destruct Hn; done]|]. split; [done|]. split; [done|].
    split; [|done]. intros _. rewrite Nat2Z.id, take_app_length. split; [done|]. intros b' Hs'. by apply baseline_tree_inj.
Qed.

(** ** Witness *)

Definition ex_baseline : pbns_enrollment_baseline :=
  mk_baseline (replicate 32 1) (replicate 32 2) true false (replicate 32 3) (replicate 32 4)
    [mk_baseline_pcr 0 (replicate 32 5); mk_baseline_pcr 2 (replicate 32 6); mk_baseline_pcr 4 (replicate 32 7);
     mk_baseline_pcr 7 (replicate 32 8)] (mk_view 4096 ex_log) (replicate 32 9).

Lemma ex_baseline_sized : baseline_sized ex_baseline.
Proof.
  unfold baseline_sized, ex_baseline. cbn [eb_firmware_vendor_digest eb_firmware_version_digest eb_db_digest eb_dbx_digest
    eb_event_log_digest eb_pcrs eb_event_log v_data].
  do 6 (split; [reflexivity|]). split; [|split; [exact ex_log_bytes|vm_compute; discriminate]].
  repeat (apply Forall_cons_iff; split); try solve [constructor]; (split; [vm_compute; intuition discriminate|reflexivity]).
Qed.

Lemma baseline_encode_exact_witness :
  exists data size, @pbns_enrollment_baseline_encode tree_qcbor tree_spiffy (Some ex_baseline) (mk_buffer 8192 0 (replicate 1024 0)) (Some 7)
    = Some (PBNS_OK, data, Some size).
Proof.
  destruct (@baseline_encode_exact tree_qcbor tree_spiffy ex_baseline (mk_buffer 8192 0 (replicate 1024 0)) 7) as (st & data & size & E & _).
  - exact ex_baseline_sized.
  - vm_compute. reflexivity.
  - exists data, size. assert (Hs : st = PBNS_OK).
    { transitivity (default PBNS_ERR_IO ((fun r => fst (fst r)) <$> @pbns_enrollment_baseline_encode tree_qcbor tree_spiffy (Some ex_baseline)
        (mk_buffer 8192 0 (replicate 1024 0)) (Some 7))); [by rewrite E|vm_compute; reflexivity]. }
    by rewrite <- Hs.
Defined.
