(* ===== verification/InventoryText.v ===== *)
(** * Inventory texts ([include/pbns/inventory.h], [src/core/inventory.c])

    The texts of the platform inventory are printable and single-spaced.  The
    normalisation of a raw string is compared with its words joined by single
    spaces, and the check of a text decides which octets are of this form. *)

From stdpp Require Import base list numbers.
From Stdlib Require Import ZArith Lia.
From S2P Require Import Prelude Status Buffers.

(** ** The code *)

Definition PBNS_INVENTORY_TEXT_MAX_SIZE : Z := 96.

Record pbns_inventory_text := mk_text { tx_bytes : bytes; tx_len : Z }.

Definition zero_text : pbns_inventory_text := mk_text (replicate 96 0) 0.

(** The [for] loop of the check, from [index] on; [fuel] is the number of rounds. *)
Fixpoint text_loop (text : pbns_inventory_text) (index : Z) (fuel : nat) : option bool :=
  match fuel with
  | O => Some true
  | S fuel =>
      character ← rd (tx_bytes text) index;
      if (character <? 0x20) || (0x7e <? character) then Some false
      else if character =? 32 then
        if (index =? 0) || (index + 1 =? tx_len text) then Some false
        else
        previous ← rd (tx_bytes text) (index - 1);
        if previous =? 32 then Some false else text_loop text (index + 1) fuel
      else text_loop text (index + 1) fuel
  end.

Definition pbns_inventory_text_is_normalized (text : ptr pbns_inventory_text) : option bool :=
  match text with
  | None => Some false
  | Some text =>
      if PBNS_INVENTORY_TEXT_MAX_SIZE <? tx_len text then Some false
      else text_loop text 0 (Z.to_nat (tx_len text))
  end.

(** [normalized.bytes[normalized.len++] = character] *)
Definition put_character (text : pbns_inventory_text) (character : Z) : option pbns_inventory_text :=
  data ← wr (tx_bytes text) (tx_len text) character; Some (mk_text data (tx_len text + 1)).

Fixpoint normalize_loop (input : bytes) (normalized : pbns_inventory_text) (pending_space : bool)
  : option (pbns_status + pbns_inventory_text) :=
  match input with
  | [] => Some (inr normalized)
  | character :: input =>
      if (character =? 32) || (character =? 9) then normalize_loop input normalized (negb (tx_len normalized =? 0))
      else if (character <? 0x21) || (0x7e <? character) then Some (inl PBNS_ERR_FORMAT)
      else if pending_space && (tx_len normalized =? PBNS_INVENTORY_TEXT_MAX_SIZE) then Some (inl PBNS_ERR_LIMIT)
      else
      normalized ← (if pending_space then put_character normalized 32 else Some normalized);
      if tx_len normalized =? PBNS_INVENTORY_TEXT_MAX_SIZE then Some (inl PBNS_ERR_LIMIT)
      else
      normalized ← put_character normalized character;
      normalize_loop input normalized false
  end.

(** The status and the text that [output] holds afterwards. *)
Definition normalize_text (input : pbns_view) (output : ptr pbns_inventory_text)
  : option (pbns_status * ptr pbns_inventory_text) :=
  match output with
  | None => Some (PBNS_ERR_ARGUMENT, None)
  | Some old =>
      if negb (view_is_valid input) then Some (PBNS_ERR_ARGUMENT, Some old)
      else
      r ← normalize_loop (v_data input) zero_text false;
      match r with
      | inl status => Some (status, Some old)
      | inr normalized => Some (PBNS_OK, Some normalized)
      end
  end.

(** ** Words *)

Definition blank (c : Z) : bool := (c =? 32) || (c =? 9).
Definition graphic (c : Z) : Prop := 0x21 <= c <= 0x7e.

(** The maximal runs of characters that are not blank. *)
Fixpoint words (l : bytes) : list bytes :=
  match l with
  | [] => []
  | c :: l =>
      if blank c then words l
      else match l with
           | d :: _ => if blank d then [c] :: words l
                       else match words l with w :: ws => (c :: w) :: ws | [] => [[c]] end
           | [] => [[c]]
           end
  end.

(** Each word after a space. *)
Definition spaced (ws : list bytes) : bytes := concat (map (cons 32) ws).

(** The words joined by single spaces. *)
Definition unwords (ws : list bytes) : bytes := match ws with [] => [] | w :: ws => w ++ spaced ws end.

Definition single_spaced (l : bytes) : bytes := unwords (words l).

Definition word_ok (w : bytes) : Prop := w <> [] /\ Forall graphic w.

(** The octets of a text. *)
Definition text_of (text : pbns_inventory_text) : bytes := take (Z.to_nat (tx_len text)) (tx_bytes text).

(** The array has its size and the length stays inside. *)
Definition text_sized (text : pbns_inventory_text) : Prop :=
  length (tx_bytes text) = 96%nat /\ 0 <= tx_len text <= PBNS_INVENTORY_TEXT_MAX_SIZE.

(** The octets a text may have: words of graphic characters with single spaces. *)
Definition tidy (l : bytes) : Prop := exists ws, Forall word_ok ws /\ l = unwords ws.

(** *** Words of texts *)

Lemma graphic_not_blank c : graphic c -> blank c = false.
Proof. unfold graphic, blank. lia. Qed.

Lemma words_blank c l : blank c = true -> words (c :: l) = words l.
Proof. intros E. cbn [words]. by rewrite E. Qed.

Lemma words_nonblank_hd c l : blank c = false -> exists w ws, words (c :: l) = (c :: w) :: ws.
Proof.
  intros E. cbn [words]. rewrite E. destruct l as [|d l]; [by eexists _, _|].
  destruct (blank d); [by eexists _, _|]. destruct (words (d :: l)); by eexists _, _.
Qed.

(** A word before a blank is a word of its own, and otherwise it goes on. *)
Lemma words_before_blank c l : blank c = false -> head l = None \/ (exists d, head l = Some d /\ blank d = true) ->
  words (c :: l) = [c] :: words l.
Proof.
  intros E [Hd|(d & Hd & Eb)]; destruct l as [|d' l]; simplify_eq/=.
  - by rewrite E.
  - by rewrite E, Eb.
Qed.

Lemma words_go_on c d l w ws : blank c = false -> blank d = false -> words (d :: l) = w :: ws -> words (c :: d :: l) = (c :: w) :: ws.
Proof. intros E Ed Ew. change (words (c :: d :: l)) with (if blank c then words (d :: l) else if blank d then [c] :: words (d :: l) else match words (d :: l) with w :: ws => (c :: w) :: ws | [] => [[c]] end). by rewrite E, Ed, Ew. Qed.

Lemma words_word w l : w <> [] -> Forall graphic w -> head l = None \/ (exists d, head l = Some d /\ blank d = true) ->
  words (w ++ l) = w :: words l.
Proof.
  intros Hn Hw Hl. induction Hw as [|c w Hc Hw IH]; [done|]. pose proof (graphic_not_blank c Hc) as Ec.
  destruct w as [|d w]; [by apply words_before_blank|]. cbn [app]. inversion Hw as [|? ? Hd _]; subst.
  apply words_go_on; [done|by apply graphic_not_blank|]. by apply IH.
Qed.

Lemma words_spaced ws : Forall word_ok ws -> words (spaced ws) = ws.
Proof.
  induction 1 as [|w ws [Hn Hw] _ IH]; [done|]. unfold spaced. cbn [map concat app]. fold (spaced ws).
  rewrite words_blank by done. rewrite words_word; [by rewrite IH|done|done|].
  destruct ws as [|w' ws]; [by left|right]. by exists 32.
Qed.

Lemma words_unwords ws : Forall word_ok ws -> words (unwords ws) = ws.
Proof.
  destruct 1 as [|w ws [Hn Hw] Hws]; [done|]. cbn [unwords]. rewrite words_word; [by rewrite words_spaced|done|done|].
  destruct ws as [|w' ws]; [by left|right]. by exists 32.
Qed.

Lemma words_ok l : Forall (fun c => blank c = true \/ graphic c) l -> Forall word_ok (words l).
Proof.
  induction 1 as [|c l Hc Hl IH]; [constructor|]. destruct (blank c) eqn:Eb; [by rewrite words_blank|].
  assert (Hg : graphic c) by (destruct Hc; [congruence|done]).
  destruct l as [|d l]. { cbn [words]. rewrite Eb. constructor; [split; [done|constructor; [done|constructor]]|constructor]. }
  destruct (blank d) eqn:Ed.
  - rewrite words_before_blank; [|done|right; by exists d]. constructor; [|done]. split; [done|constructor; [done|constructor]].
  - destruct (words_nonblank_hd d l Ed) as (w & ws & Ew). rewrite (words_go_on c d l _ _ Eb Ed Ew).
    rewrite Ew in IH. inversion IH as [|? ? [_ Hw] Hws]; subst. constructor; [split; [done|by constructor]|done].
Qed.

(** The octets of a text are their own normal form. *)
Lemma tidy_iff l : Forall (fun c => blank c = true \/ graphic c) l -> tidy l <-> single_spaced l = l.
Proof.
  intros Hl. split.
  - intros (ws & Hws & ->). unfold single_spaced. by rewrite words_unwords.
  - intros E. exists (words l). split; [by apply words_ok|done].
Qed.

Lemma tidy_graphic l : tidy l -> Forall (fun c => c = 32 \/ graphic c) l.
Proof.
  assert (Hsp : forall ws, Forall word_ok ws -> Forall (fun c => c = 32 \/ graphic c) (spaced ws)).
  { induction 1 as [|w ws [_ Hw] _ IH]; [constructor|]. unfold spaced. cbn [map concat app]. constructor; [by left|].
    apply Forall_app. split; [|done]. eapply Forall_impl; [|exact Hw]. by right. }
  intros (ws & Hws & ->). destruct Hws as [|w ws [_ Hw] Hws]; [constructor|]. apply Forall_app. split; [|by apply Hsp].
  eapply Forall_impl; [|exact Hw]. by right.
Qed.

(** *** Normalisation *)

(** What the rest of the input adds to a text: [started] when the text is not
    empty, [pending] when a space is owed. *)
Definition added (started pending : bool) (l : bytes) : bytes :=
  if started && (pending || match l with [] => true | c :: _ => blank c end) then spaced (words l) else single_spaced l.

Lemma added_blank started pending c l :
  (pending = true -> started = true) -> blank c = true -> added started pending (c :: l) = added started started l.
Proof. intros Hp E. unfold added, single_spaced. rewrite words_blank, E by done. destruct started, pending; done. Qed.

Lemma added_graphic started pending c l : (pending = true -> started = true) -> blank c = false ->
  added started pending (c :: l) = (if pending then [32] else []) ++ c :: added true false l.
Proof.
  intros Hp E. assert (Hw : single_spaced (c :: l) = c :: added true false l).
  { unfold single_spaced, added. destruct l as [|d l]; [by rewrite words_before_blank by auto|]. destruct (blank d) eqn:Ed.
    - rewrite words_before_blank; [done|done|right; by exists d].
    - destruct (words_nonblank_hd d l Ed) as (w & ws & Ew). rewrite (words_go_on c d l _ _ E Ed Ew). cbn [andb orb].
      unfold single_spaced. by rewrite Ew. }
  rewrite <- Hw. unfold added. rewrite E, orb_false_r. destruct pending; [|by rewrite andb_false_r].
  rewrite Hp by done. cbn [andb]. unfold single_spaced. destruct (words_nonblank_hd c l E) as (w & ws & ->). done.
Qed.

Lemma put_character_spec text c : text_sized text -> tx_len text < PBNS_INVENTORY_TEXT_MAX_SIZE ->
  exists text', put_character text c = Some text' /\ text_sized text' /\ tx_len text' = tx_len text + 1
  /\ text_of text' = text_of text ++ [c].
Proof.
  intros [H96 Hl] Hlt. unfold put_character, PBNS_INVENTORY_TEXT_MAX_SIZE in *. rewrite wr_inside by lia. cbn [mbind option_bind].
  eexists. split; [done|]. split; [split; cbn [tx_bytes tx_len]; rewrite ?length_insert; unfold PBNS_INVENTORY_TEXT_MAX_SIZE; lia|].
  split; [done|]. unfold text_of. cbn [tx_bytes tx_len]. replace (Z.to_nat (tx_len text + 1)) with (S (Z.to_nat (tx_len text))) by lia.
  erewrite take_S_r by (apply list_lookup_insert_eq; lia). by rewrite take_insert_ge by lia.
Qed.

Lemma text_of_length text : text_sized text -> zlen (text_of text) = tx_len text.
Proof. intros [H96 Hl]. unfold text_of, PBNS_INVENTORY_TEXT_MAX_SIZE in *. rewrite length_take. lia. Qed.

Lemma normalize_loop_spec input : forall text pending, text_sized text -> (pending = true -> tx_len text <> 0) ->
  exists r, normalize_loop input text pending = Some r
  /\ match r with
     | inl st => (st = PBNS_ERR_FORMAT /\ ~ Forall (fun c => blank c = true \/ graphic c) input)
         \/ (st = PBNS_ERR_LIMIT /\ PBNS_INVENTORY_TEXT_MAX_SIZE < tx_len text + zlen (added (negb (tx_len text =? 0)) pending input))
     | inr text' => text_sized text' /\ Forall (fun c => blank c = true \/ graphic c) input
         /\ text_of text' = text_of text ++ added (negb (tx_len text =? 0)) pending input
     end.
Proof.
  induction input as [|c input IH]; intros text pending Hs Hp; cbn [normalize_loop].
  { eexists. split; [done|]. split; [done|]. split; [constructor|]. unfold added, single_spaced. cbn [words].
    destruct (_ && _); cbn; by rewrite app_nil_r. }
  assert (Hp' : pending = true -> negb (tx_len text =? 0) = true) by (intros ?; destruct (Z.eqb_spec (tx_len text) 0); [by destruct Hp|done]).
  fold (blank c). destruct (blank c) eqn:Eb.
  { destruct (IH text (negb (tx_len text =? 0)) Hs) as (r & E & Hr); [lia|]. exists r. split; [done|]. rewrite added_blank by done.
    destruct r as [st|text']; [destruct Hr as [[-> Hr]|?]; [left; split; [done|]|by right]; by intros [_ ?]%Forall_cons_iff|].
    destruct Hr as (Hs' & Hall & Ht). split; [done|]. split; [constructor; [by left|done]|done]. }
  rewrite added_graphic by done. destruct (_ || _) eqn:Eg.
  { eexists. split; [done|]. left. split; [done|]. intros [[?|Hc] _]%Forall_cons_iff; [congruence|]. unfold graphic in Hc. lia. }
  assert (Hg : graphic c) by (unfold graphic; lia). destruct (pending && _) eqn:Efull.
  { eexists. split; [done|]. right. split; [done|]. bools. destruct pending; [|done]. llia. }
  set (text1 := if pending then put_character text 32 else Some text).
  assert (H1 : exists t, text1 = Some t /\ text_sized t /\ tx_len t = tx_len text + zlen (if pending then [32] else [])
    /\ text_of t = text_of text ++ (if pending then [32] else [])).
  { unfold text1. destruct pending; [|exists text; rewrite app_nil_r; cbn; repeat split; try apply Hs; lia].
    cbn [andb] in Efull. bools. destruct (put_character_spec text 32 Hs) as (t & E & Ht & El & Eo); [destruct Hs; lia|]. by exists t. }
  destruct H1 as (t & -> & Ht & El & Eo). cbn [mbind option_bind]. destruct (Z.eqb_spec (tx_len t) PBNS_INVENTORY_TEXT_MAX_SIZE) as [Efl|Hne].
  { eexists. split; [done|]. right. split; [done|]. llia. }
  destruct (put_character_spec t c Ht) as (t' & -> & Ht' & El' & Eo'); [destruct Ht; lia|]. cbn [mbind option_bind].
  destruct (IH t' false Ht') as (r & E & Hr); [done|]. exists r. split; [done|].
  replace (negb (tx_len t' =? 0)) with true in Hr by (destruct Ht as [_ ?]; symmetry; apply negb_true_iff, Z.eqb_neq; lia).
  destruct r as [st|text'].
  - destruct Hr as [[-> Hr]|[-> Hr]]; [left; split; [done|]; by intros [_ ?]%Forall_cons_iff|right; split; [done|]; llia].
  - destruct Hr as (Hs' & Hall & Hto). split; [done|]. split; [constructor; [by right|done]|].
    rewrite Hto, Eo', Eo, <- !app_assoc. done.
Qed.

(** *** The check *)

Fixpoint tidy_from (after_space : bool) (l : bytes) : bool :=
  match l with
  | [] => true
  | c :: l =>
      if c =? 32 then negb after_space && negb (zlen l =? 0) && tidy_from true l
      else (0x21 <=? c) && (c <=? 0x7e) && tidy_from false l
  end.

Lemma tidy_from_sound l :
  (tidy_from true l = true -> tidy l)
  /\ (tidy_from false l = true -> exists w ws, Forall graphic w /\ Forall word_ok ws /\ l = w ++ spaced ws).
Proof.
  induction l as [|c l [IHt IHf]].
  { split; [intros _; exists []; split; [constructor|done]|intros _; exists [], []; repeat split; constructor]. }
  cbn [tidy_from]. destruct (Z.eqb_spec c 32) as [-> |Hne].
  - split; [done|]. intros E. bools. destruct IHt as (ws & Hws & ->); [done|]. exists [], ws. split; [constructor|]. split; [done|].
    destruct ws as [|w ws]; [done|]. done.
  - split; intros E; bools; destruct IHf as (w & ws & Hw & Hws & ->); try done.
    + exists ((c :: w) :: ws). split; [constructor; [split; [done|constructor; [unfold graphic; lia|done]]|done]|done].
    + exists (c :: w), ws. split; [constructor; [unfold graphic; lia|done]|]. done.
Qed.

Lemma tidy_from_complete ws : Forall word_ok ws -> forall w, Forall graphic w -> tidy_from false (w ++ spaced ws) = true.
Proof.
  assert (Hstep : forall w l, Forall graphic w -> tidy_from false l = true -> tidy_from false (w ++ l) = true).
  { intros w l Hw Hl. induction Hw as [|c w Hc _ IH]; [done|]. unfold graphic in Hc. cbn [app tidy_from].
    rewrite (proj2 (Z.eqb_neq c 32)), (proj2 (Z.leb_le 0x21 c)), (proj2 (Z.leb_le c 0x7e)) by lia. done. }
  induction 1 as [|w1 ws [Hn Hw1] _ IH]; intros w Hw; apply Hstep; try done.
  unfold spaced. cbn [map concat app tidy_from]. fold (spaced ws). destruct Hw1 as [|c w1 Hc Hw1]; [done|].
  unfold graphic in Hc. cbn [app tidy_from length].
  rewrite (proj2 (Z.eqb_neq c 32)), (proj2 (Z.leb_le 0x21 c)), (proj2 (Z.leb_le c 0x7e)) by lia. cbn [negb andb].
  by rewrite IH by done.
Qed.

Lemma tidy_from_spec l : tidy_from true l = true <-> tidy l.
Proof.
  split; [apply tidy_from_sound|]. intros (ws & Hws & ->). destruct Hws as [|w ws [Hn Hw] Hws]; [done|].
  destruct Hw as [|c w Hc Hw]; [done|]. unfold graphic in Hc. cbn [unwords app tidy_from].
  rewrite (proj2 (Z.eqb_neq c 32)), (proj2 (Z.leb_le 0x21 c)), (proj2 (Z.leb_le c 0x7e)) by lia. cbn [andb].
  by apply tidy_from_complete.
Qed.

(** The loop over the octets after [pre]. *)
Lemma text_loop_spec text : text_sized text -> forall suf pre, text_of text = pre ++ suf ->
  text_loop text (zlen pre) (length suf) = Some (tidy_from (List.last pre 32 =? 32) suf).
Proof.
  intros Hs. pose proof (text_of_length text Hs) as Hlen. destruct Hs as [H96 Hl]. unfold PBNS_INVENTORY_TEXT_MAX_SIZE in *.
  induction suf as [|c suf IH]; intros pre E; [done|]. rewrite E in Hlen.
  assert (Hrd : forall i, i < tx_len text -> rd (tx_bytes text) i = rd (pre ++ c :: suf) i).
  { intros i Hi. rewrite <- E, <- (take_drop (Z.to_nat (tx_len text)) (tx_bytes text)). apply rd_app_l. rewrite E. lia. }
  assert (Hnext : text_loop text (zlen pre + 1) (length suf) = Some (tidy_from (c =? 32) suf)).
  { replace (zlen pre + 1) with (zlen (pre ++ [c])) by llia. rewrite IH; [by rewrite List.last_last|]. by rewrite <- app_assoc. }
  cbn [length text_loop]. rewrite (Hrd (zlen pre)), rd_app_head by (done || llia). cbn [mbind option_bind tidy_from].
  destruct (Z.eqb_spec c 32) as [-> |Hne].
  - cbn [Z.ltb Z.compare Pos.compare Pos.compare_cont orb]. destruct pre as [|p pre _] using rev_ind; [done|].
    rewrite List.last_last. rewrite (proj2 (Z.eqb_neq (zlen (pre ++ [p])) 0)) by llia. cbn [orb].
    destruct (Z.eqb_spec (zlen (pre ++ [p]) + 1) (tx_len text)) as [Eend|Hend].
    + rewrite (proj2 (Z.eqb_eq (zlen suf) 0)) by llia. by rewrite andb_false_r.
    + rewrite (proj2 (Z.eqb_neq (zlen suf) 0)) by llia. rewrite Hrd by llia.
      rewrite (rd_eq _ pre p (32 :: suf)) by (by rewrite <- app_assoc || llia). cbn [mbind option_bind]. destruct (p =? 32); [done|].
      rewrite Hnext. done.
  - destruct (_ || _) eqn:Eg; [f_equal; symmetry; lia|]. rewrite Hnext. f_equal.
    replace (0x21 <=? c) with true by lia. by replace (c <=? 0x7e) with true by lia.
Qed.

Lemma text_is_normalized_spec text : text_sized text ->
  exists b, pbns_inventory_text_is_normalized (Some text) = Some b /\ (b = true <-> tidy (text_of text)).
Proof.
  intros Hs. pose proof (text_of_length text Hs) as Hlen. exists (tidy_from true (text_of text)). split; [|apply tidy_from_spec].
  unfold pbns_inventory_text_is_normalized. destruct Hs as [H96 Hl]. rewrite (proj2 (Z.ltb_ge _ _)) by lia.
  replace (Z.to_nat (tx_len text)) with (length (text_of text)) by lia.
  by apply (text_loop_spec text (conj H96 Hl) (text_of text) []).
Qed.

Lemma zero_text_sized : text_sized zero_text.
Proof. split; [done|]. cbn. unfold PBNS_INVENTORY_TEXT_MAX_SIZE. lia. Qed.

(** A string is normalised exactly when all its characters are blank or graphic
    and its words fit; the text is the words, single-spaced. *)
Lemma normalize_text_spec input old : view_is_valid input = true ->
  exists st text', normalize_text input (Some old) = Some (st, Some text')
  /\ (st = PBNS_OK <-> Forall (fun c => blank c = true \/ graphic c) (v_data input)
        /\ zlen (single_spaced (v_data input)) <= PBNS_INVENTORY_TEXT_MAX_SIZE)
  /\ (st = PBNS_OK -> text_sized text' /\ tidy (text_of text') /\ text_of text' = single_spaced (v_data input))
  /\ (st <> PBNS_OK -> text' = old).
Proof.
  intros Hv. unfold normalize_text. rewrite Hv. cbn [negb].
  destruct (normalize_loop_spec (v_data input) zero_text false zero_text_sized) as (r & -> & Hr); [done|].
  cbn [mbind option_bind]. change (added (negb (tx_len zero_text =? 0)) false (v_data input)) with (single_spaced (v_data input)) in Hr.
  change (text_of zero_text) with (@nil Z) in Hr. change (tx_len zero_text) with 0 in Hr. destruct r as [st|text'].
  - do 2 eexists. split; [done|]. split; [|destruct Hr as [[-> _]|[-> _]]; done].
    destruct Hr as [[-> Hr]|[-> Hr]]; (split; [done|]); intros [? ?]; [done|lia].
  - destruct Hr as (Hs & Hall & Ht). cbn [app] in Ht. do 2 eexists. split; [done|]. split; [|split; [|done]].
    + split; [|done]. intros _. split; [done|]. rewrite <- Ht, text_of_length by done. apply Hs.
    + intros _. split; [done|]. split; [|done]. rewrite Ht. exists (words (v_data input)). split; [by apply words_ok|done].
Qed.
