(* ===== verification/Smbios.v ===== *)
(** * SMBIOS tables ([include/pbns/inventory.h], [src/core/inventory.c])

    The collector walks a table of SMBIOS structures: a formatted area followed
    by a set of strings that ends in two zero octets.  It keeps the normalised
    texts of the firmware and the processor, the material that identifies the
    board and the sum of the memory.  The walk refines an abstract reading of the
    table as a sequence of records. *)

From stdpp Require Import base list numbers.
From Stdlib Require Import ZArith Lia.
From S2P Require Import Prelude Endian Status Buffers MeasuredBoot MeasuredLog InventoryText.

(** ** The code *)

Definition PBNS_INVENTORY_SMBIOS_RECORD_MAX : Z := 1024.
Definition PBNS_INVENTORY_SMBIOS_COUNT_MAX : Z := 1024.
(** [3U * (PBNS_INVENTORY_TEXT_MAX_SIZE + 1U)] *)
Definition BOARD_MATERIAL_SIZE : Z := 291.

Record pbns_inventory_smbios_collector := mk_collector {
  sc_firmware_vendor : pbns_inventory_text;
  sc_firmware_version : pbns_inventory_text;
  sc_cpu_class : pbns_inventory_text;
  sc_board_material : bytes;
  sc_board_material_len : Z;
  sc_memory_mib : Z;
  sc_record_count : Z;
  sc_end_seen : bool;
}.

Definition set_vendor (c : pbns_inventory_smbios_collector) t :=
  mk_collector t (sc_firmware_version c) (sc_cpu_class c) (sc_board_material c) (sc_board_material_len c)
    (sc_memory_mib c) (sc_record_count c) (sc_end_seen c).
Definition set_version (c : pbns_inventory_smbios_collector) t :=
  mk_collector (sc_firmware_vendor c) t (sc_cpu_class c) (sc_board_material c) (sc_board_material_len c)
    (sc_memory_mib c) (sc_record_count c) (sc_end_seen c).
Definition set_cpu_class (c : pbns_inventory_smbios_collector) t :=
  mk_collector (sc_firmware_vendor c) (sc_firmware_version c) t (sc_board_material c) (sc_board_material_len c)
    (sc_memory_mib c) (sc_record_count c) (sc_end_seen c).
Definition set_board (c : pbns_inventory_smbios_collector) material len :=
  mk_collector (sc_firmware_vendor c) (sc_firmware_version c) (sc_cpu_class c) material len
    (sc_memory_mib c) (sc_record_count c) (sc_end_seen c).
Definition set_memory (c : pbns_inventory_smbios_collector) memory :=
  mk_collector (sc_firmware_vendor c) (sc_firmware_version c) (sc_cpu_class c) (sc_board_material c)
    (sc_board_material_len c) memory (sc_record_count c) (sc_end_seen c).
Definition set_count (c : pbns_inventory_smbios_collector) count :=
  mk_collector (sc_firmware_vendor c) (sc_firmware_version c) (sc_cpu_class c) (sc_board_material c)
    (sc_board_material_len c) (sc_memory_mib c) count (sc_end_seen c).
Definition set_end (c : pbns_inventory_smbios_collector) :=
  mk_collector (sc_firmware_vendor c) (sc_firmware_version c) (sc_cpu_class c) (sc_board_material c)
    (sc_board_material_len c) (sc_memory_mib c) (sc_record_count c) true.

(** [while (end < record.len && record.ptr[end] != 0U) ++end] *)
Fixpoint string_end (data : bytes) (stop : Z) (fuel : nat) : option Z :=
  match fuel with
  | O => None
  | S fuel =>
      if zlen data <=? stop then Some stop
      else
      character ← rd data stop;
      if character =? 0 then Some stop else string_end data (stop + 1) fuel
  end.

Fixpoint string_loop (record : pbns_view) (position current_index string_index : Z) (fuel : nat)
  : option (pbns_status * pbns_view) :=
  match fuel with
  | O => None
  | S fuel =>
      if zlen (v_data record) <=? position + 1 then Some (PBNS_ERR_FORMAT, null_view)
      else
      first ← rd (v_data record) position;
      if first =? 0 then Some (PBNS_ERR_FORMAT, null_view)
      else
      stop ← string_end (v_data record) position (S (length (v_data record)));
      if zlen (v_data record) <=? stop then Some (PBNS_ERR_FORMAT, null_view)
      else if current_index =? string_index then
        octets ← rd_slice (v_data record) position (stop - position);
        Some (PBNS_OK, mk_view (v_ptr record + position) octets)
      else if current_index =? UINT8_MAX then Some (PBNS_ERR_LIMIT, null_view)
      else string_loop record (stop + 1) (current_index + 1) string_index fuel
  end.

(** The status and what [*result] holds; the result is never [NULL] here. *)
Definition smbios_string (record : pbns_view) (formatted_length string_index : Z) : option (pbns_status * pbns_view) :=
  if string_index =? 0 then Some (PBNS_OK, null_view)
  else string_loop record formatted_length 1 string_index (S (length (v_data record))).

Definition extract_text (record : pbns_view) (formatted_length index_offset : Z) (destination : pbns_inventory_text)
  : option (pbns_status * pbns_inventory_text) :=
  string_index ← rd (v_data record) index_offset;
  '(status, raw) ← smbios_string record formatted_length string_index;
  if negb (is_ok status) then Some (status, destination)
  else
  '(status, text) ← normalize_text raw (Some destination);
  Some (status, default destination text).

Definition append_board_text (collector : pbns_inventory_smbios_collector) (text : pbns_inventory_text)
  : option (pbns_status * pbns_inventory_smbios_collector) :=
  if (UINT8_MAX <? tx_len text) || (BOARD_MATERIAL_SIZE <? sc_board_material_len collector + 1 + tx_len text)
  then Some (PBNS_ERR_LIMIT, collector)
  else
  material ← wr (sc_board_material collector) (sc_board_material_len collector) (u8 (tx_len text));
  let len := sc_board_material_len collector + 1 in
  if negb (tx_len text =? 0) then
    octets ← rd_slice (tx_bytes text) 0 (tx_len text);
    material ← wr_list material len octets;
    Some (PBNS_OK, set_board collector material (len + tx_len text))
  else Some (PBNS_OK, set_board collector material len).

(** The two loops over the three fields of a board, from the field at [offset] on. *)
Fixpoint extract_fields (record : pbns_view) (formatted_length : Z) (offsets : list Z)
  : option (pbns_status + list pbns_inventory_text) :=
  match offsets with
  | [] => Some (inr [])
  | offset :: offsets =>
      '(status, field) ← extract_text record formatted_length offset zero_text;
      if negb (is_ok status) then Some (inl status)
      else
      r ← extract_fields record formatted_length offsets;
      Some (match r with inl status => inl status | inr fields => inr (field :: fields) end)
  end.

Fixpoint append_fields (collector : pbns_inventory_smbios_collector) (fields : list pbns_inventory_text)
  : option (pbns_status * pbns_inventory_smbios_collector) :=
  match fields with
  | [] => Some (PBNS_OK, collector)
  | field :: fields =>
      '(status, collector) ← append_board_text collector field;
      if negb (is_ok status) then Some (status, collector) else append_fields collector fields
  end.

Definition consume_board (collector : pbns_inventory_smbios_collector) (record : pbns_view) (formatted_length : Z)
  : option (pbns_status * pbns_inventory_smbios_collector) :=
  if (formatted_length <? 7) || negb (sc_board_material_len collector =? 0)
  then Some (if formatted_length <? 7 then PBNS_ERR_FORMAT else PBNS_OK, collector)
  else
  r ← extract_fields record formatted_length [4; 5; 6];
  match r with
  | inl status => Some (status, collector)
  | inr fields => append_fields collector fields
  end.

Definition consume_memory (collector : pbns_inventory_smbios_collector) (record : pbns_view) (formatted_length : Z)
  : option (pbns_status * pbns_inventory_smbios_collector) :=
  if formatted_length <? 14 then Some (PBNS_ERR_FORMAT, collector)
  else
  encoded ← load_u16 (v_data record) 12;
  if (encoded =? 0x7fff) && (formatted_length <? 32) then Some (PBNS_ERR_FORMAT, collector)
  else
  memory_mib ←
    (if encoded =? 0x7fff then load_u32 (v_data record) 28
     else if negb (encoded =? 0) && negb (encoded =? UINT16_MAX) then
       Some (if negb (Z.land encoded 0x8000 =? 0) then Z.land encoded 0x7fff / 1024 else encoded)
     else Some 0);
  if UINT64_MAX - sc_memory_mib collector <? memory_mib then Some (PBNS_ERR_LIMIT, collector)
  else Some (PBNS_OK, set_memory collector (sc_memory_mib collector + memory_mib)).

(** The scan for two zero octets: the first index from [index] on with both
    octets below [limit], counted from [offset]. *)
Fixpoint terminator_scan (data : bytes) (offset index limit : Z) (fuel : nat) : option (option Z) :=
  match fuel with
  | O => None
  | S fuel =>
      if limit <=? index + 1 then Some None
      else
      first ← rd data (offset + index);
      if first =? 0 then
        second ← rd data (offset + index + 1);
        if second =? 0 then Some (Some index) else terminator_scan data offset (index + 1) limit fuel
      else terminator_scan data offset (index + 1) limit fuel
  end.

(** The [switch] on the type of the structure. *)
Definition consume_type (collector : pbns_inventory_smbios_collector) (record : pbns_view) (formatted_length type : Z)
  : option (pbns_status * pbns_inventory_smbios_collector) :=
  if type =? 0 then
    if formatted_length <? 6 then Some (PBNS_ERR_FORMAT, collector)
    else
    '(status, vendor) ← extract_text record formatted_length 4 (sc_firmware_vendor collector);
    let collector := set_vendor collector vendor in
    if negb (is_ok status) then Some (status, collector)
    else
    '(status, version) ← extract_text record formatted_length 5 (sc_firmware_version collector);
    Some (status, set_version collector version)
  else if type =? 2 then consume_board collector record formatted_length
  else if type =? 4 then
    if formatted_length <? 17 then Some (PBNS_ERR_FORMAT, collector)
    else if tx_len (sc_cpu_class collector) =? 0 then
      '(status, cpu) ← extract_text record formatted_length 16 (sc_cpu_class collector);
      Some (status, set_cpu_class collector cpu)
    else Some (PBNS_OK, collector)
  else if type =? 17 then consume_memory collector record formatted_length
  else if type =? 127 then Some (PBNS_OK, set_end collector)
  else Some (PBNS_OK, collector).

Definition pbns_inventory_smbios_consume (collector : ptr pbns_inventory_smbios_collector) (record : pbns_view)
  : option (pbns_status * ptr pbns_inventory_smbios_collector) :=
  match collector with
  | None => Some (PBNS_ERR_ARGUMENT, None)
  | Some c =>
      if (v_ptr record =? 0) || sc_end_seen c then Some (PBNS_ERR_ARGUMENT, Some c)
      else if (v_len record <? 6) || (PBNS_INVENTORY_SMBIOS_RECORD_MAX <? v_len record) then Some (PBNS_ERR_FORMAT, Some c)
      else if PBNS_INVENTORY_SMBIOS_COUNT_MAX <=? sc_record_count c then Some (PBNS_ERR_LIMIT, Some c)
      else
      formatted_length ← rd (v_data record) 1;
      if (formatted_length <? 4) || (v_len record <? formatted_length + 2) then Some (PBNS_ERR_FORMAT, Some c)
      else
      found ← terminator_scan (v_data record) 0 formatted_length (v_len record) (S (length (v_data record)));
      let terminator_seen := match found with Some index => index + 2 =? v_len record | None => false end in
      if negb terminator_seen then Some (PBNS_ERR_FORMAT, Some c)
      else
      type ← rd (v_data record) 0;
      '(status, c) ← consume_type c record formatted_length type;
      Some (status, Some (if is_ok status then set_count c (sc_record_count c + 1) else c))
  end.

(** The extent of the structure at [offset], or the status that ends the walk. *)
Definition table_extent (table : pbns_view) (offset : Z) : option (pbns_status + Z) :=
  let remaining := v_len table - offset in
  if remaining <? 4 then Some (inl PBNS_ERR_FORMAT)
  else
  formatted_length ← rd (v_data table) (offset + 1);
  if (formatted_length <? 4) || (remaining <? formatted_length + 2) then Some (inl PBNS_ERR_FORMAT)
  else
  let scan_limit := if remaining <? PBNS_INVENTORY_SMBIOS_RECORD_MAX then remaining else PBNS_INVENTORY_SMBIOS_RECORD_MAX in
  found ← terminator_scan (v_data table) offset formatted_length scan_limit (S (length (v_data table)));
  Some (match found with
        | None => inl (if PBNS_INVENTORY_SMBIOS_RECORD_MAX <=? remaining then PBNS_ERR_LIMIT else PBNS_ERR_FORMAT)
        | Some index => inr (index + 2)
        end).

(** The [while] loop over the table: the status, the collector and the offset. *)
Fixpoint table_loop (collector : pbns_inventory_smbios_collector) (table : pbns_view) (offset : Z) (fuel : nat)
  : option (pbns_status * pbns_inventory_smbios_collector * Z) :=
  match fuel with
  | O => None
  | S fuel =>
      if (v_len table <=? offset) || sc_end_seen collector then Some (PBNS_OK, collector, offset)
      else
      next ← table_extent table offset;
      match next with
      | inl status => Some (status, collector, offset)
      | inr extent =>
          octets ← rd_slice (v_data table) offset extent;
          '(status, consumed) ← pbns_inventory_smbios_consume (Some collector) (mk_view (v_ptr table + offset) octets);
          let collector := default collector consumed in
          if negb (is_ok status) then Some (status, collector, offset)
          else table_loop collector table (offset + extent) fuel
      end
  end.

Definition pbns_inventory_smbios_consume_table (collector : ptr pbns_inventory_smbios_collector) (table : pbns_view)
  (require_exact_end : bool) : option (pbns_status * ptr pbns_inventory_smbios_collector) :=
  match collector with
  | None => Some (PBNS_ERR_ARGUMENT, None)
  | Some c =>
      if (v_ptr table =? 0) || (v_len table =? 0) then Some (PBNS_ERR_ARGUMENT, Some c)
      else
      '(status, c, offset) ← table_loop c table 0 (S (length (v_data table)));
      if negb (is_ok status) then Some (status, Some c)
      else if negb (sc_end_seen c) || (require_exact_end && negb (offset =? v_len table)) then Some (PBNS_ERR_FORMAT, Some c)
      else Some (PBNS_OK, Some c)
  end.

(** A hash function over one view: the status and the digest. *)
Definition pbns_inventory_hash_fn : Type := bytes -> pbns_status * bytes.

(** The status and the digest; a refused argument leaves the digest alone. *)
Definition pbns_inventory_smbios_finish (collector : ptr pbns_inventory_smbios_collector) (hash : ptr pbns_inventory_hash_fn)
  (board_digest : ptr bytes) : option (pbns_status * ptr bytes) :=
  match collector, hash, board_digest with
  | Some c, Some hash, Some digest =>
      if negb (sc_end_seen c) || (PBNS_INVENTORY_SMBIOS_COUNT_MAX <? sc_record_count c)
         || (BOARD_MATERIAL_SIZE <? sc_board_material_len c) then Some (PBNS_ERR_FORMAT, Some digest)
      else
      vendor ← pbns_inventory_text_is_normalized (Some (sc_firmware_vendor c));
      version ← pbns_inventory_text_is_normalized (Some (sc_firmware_version c));
      cpu ← pbns_inventory_text_is_normalized (Some (sc_cpu_class c));
      if negb vendor || negb version || negb cpu then Some (PBNS_ERR_FORMAT, Some digest)
      else
      material ← rd_slice (sc_board_material c) 0 (sc_board_material_len c);
      let '(status, digest) := hash material in
      Some (status, Some digest)
  | _, _, _ => Some (PBNS_ERR_ARGUMENT, board_digest)
  end.

(** ** What the table means *)

(** A structure: its formatted area, whose second octet is its length, and its
    strings.  A structure without strings has one empty string. *)
Record smbios_record := mk_record { sr_formatted : bytes; sr_strings : list bytes }.

Definition set_octets (strings : list bytes) : bytes := concat (map (fun s => s ++ [0]) strings) ++ [0].
Definition record_octets (r : smbios_record) : bytes := sr_formatted r ++ set_octets (sr_strings r).

Definition zero_free (s : bytes) : Prop := Forall (fun c => c <> 0) s.
Definition set_ok (strings : list bytes) : Prop :=
  strings <> [] /\ Forall zero_free strings /\ Forall (fun s => s <> []) (tail strings).

Definition record_ok (r : smbios_record) : Prop :=
  4 <= zlen (sr_formatted r) /\ rd (sr_formatted r) 1 = Some (zlen (sr_formatted r)) /\ set_ok (sr_strings r)
  /\ zlen (record_octets r) <= PBNS_INVENTORY_SMBIOS_RECORD_MAX.

(** The string with an index; index 0 stands for no string. *)
Definition record_string (r : smbios_record) (index : Z) : option bytes :=
  if index =? 0 then Some []
  else match sr_strings r with
       | [] :: _ => None
       | strings => strings !! Z.to_nat (index - 1)
       end.

Definition printable (s : bytes) : bool := forallb (fun c => blank c || ((0x21 <=? c) && (c <=? 0x7e))) s.

(** The text of a field that holds the index of a string. *)
Definition record_text (r : smbios_record) (offset : Z) : option bytes :=
  index ← rd (sr_formatted r) offset;
  s ← record_string r index;
  if printable s && (zlen (single_spaced s) <=? PBNS_INVENTORY_TEXT_MAX_SIZE) then Some (single_spaced s) else None.

(** What was learnt of the platform. *)
Record platform := mk_platform {
  pf_vendor : bytes;
  pf_version : bytes;
  pf_cpu : bytes;
  pf_board : bytes;
  pf_memory : Z;
  pf_records : Z;
  pf_ended : bool;
}.

(** A text with its length in front. *)
Definition prefixed (text : bytes) : bytes := zlen text :: text.

(** The size of a memory device in MiB: unknown and empty slots count nothing,
    a set high bit announces KiB, and 0x7fff an extended size. *)
Definition memory_size (formatted : bytes) : option Z :=
  let size := le_value (slice formatted 12 2) in
  if zlen formatted <? 14 then None
  else if size =? 0x7fff then if zlen formatted <? 32 then None else Some (le_value (slice formatted 28 4))
  else if (size =? 0) || (size =? 0xffff) then Some 0
  else if 0x8000 <=? size then Some ((size - 0x8000) / 1024)
  else Some size.

(** What one structure adds. *)
Definition gather_fields (p : platform) (r : smbios_record) : option platform :=
  let formatted := zlen (sr_formatted r) in
  type ← rd (sr_formatted r) 0;
  if type =? 0 then
    if formatted <? 6 then None
    else
    vendor ← record_text r 4;
    version ← record_text r 5;
    Some (mk_platform vendor version (pf_cpu p) (pf_board p) (pf_memory p) (pf_records p) (pf_ended p))
  else if type =? 2 then
    if formatted <? 7 then None
    else if bool_decide (pf_board p = []) then
      maker ← record_text r 4;
      product ← record_text r 5;
      version ← record_text r 6;
      Some (mk_platform (pf_vendor p) (pf_version p) (pf_cpu p) (prefixed maker ++ prefixed product ++ prefixed version)
              (pf_memory p) (pf_records p) (pf_ended p))
    else Some p
  else if type =? 4 then
    if formatted <? 17 then None
    else if bool_decide (pf_cpu p = []) then
      cpu ← record_text r 16;
      Some (mk_platform (pf_vendor p) (pf_version p) cpu (pf_board p) (pf_memory p) (pf_records p) (pf_ended p))
    else Some p
  else if type =? 17 then
    size ← memory_size (sr_formatted r);
    if UINT64_MAX <? pf_memory p + size then None
    else Some (mk_platform (pf_vendor p) (pf_version p) (pf_cpu p) (pf_board p) (pf_memory p + size) (pf_records p) (pf_ended p))
  else if type =? 127 then
    Some (mk_platform (pf_vendor p) (pf_version p) (pf_cpu p) (pf_board p) (pf_memory p) (pf_records p) true)
  else Some p.

Definition gather_record (p : platform) (r : smbios_record) : option platform :=
  if pf_ended p || (PBNS_INVENTORY_SMBIOS_COUNT_MAX <=? pf_records p) then None
  else
  p ← gather_fields p r;
  Some (mk_platform (pf_vendor p) (pf_version p) (pf_cpu p) (pf_board p) (pf_memory p) (pf_records p + 1) (pf_ended p)).

Fixpoint gather (p : platform) (rs : list smbios_record) : option platform :=
  match rs with
  | [] => Some p
  | r :: rs => p ← gather_record p r; gather p rs
  end.

Definition board_of (c : pbns_inventory_smbios_collector) : bytes :=
  take (Z.to_nat (sc_board_material_len c)) (sc_board_material c).

Definition platform_of (c : pbns_inventory_smbios_collector) : platform :=
  mk_platform (text_of (sc_firmware_vendor c)) (text_of (sc_firmware_version c)) (text_of (sc_cpu_class c)) (board_of c)
    (sc_memory_mib c) (sc_record_count c) (sc_end_seen c).

Definition text_ok (t : pbns_inventory_text) : Prop := text_sized t /\ tidy (text_of t).

(** The invariant of the collector. *)
Definition collector_ok (c : pbns_inventory_smbios_collector) : Prop :=
  text_ok (sc_firmware_vendor c) /\ text_ok (sc_firmware_version c) /\ text_ok (sc_cpu_class c)
  /\ zlen (sc_board_material c) = BOARD_MATERIAL_SIZE /\ 0 <= sc_board_material_len c <= BOARD_MATERIAL_SIZE
  /\ 0 <= sc_memory_mib c <= UINT64_MAX /\ 0 <= sc_record_count c <= PBNS_INVENTORY_SMBIOS_COUNT_MAX.

(** A collector as the callers clear it. *)
Definition zero_collector : pbns_inventory_smbios_collector :=
  mk_collector zero_text zero_text zero_text (replicate 291 0) 0 0 0 false.

(** ** Sets of strings *)

(** The set at the start of some octets, up to the first two zero octets, and what follows. *)
Fixpoint cut_set (l : bytes) : option (list bytes * bytes) :=
  match l with
  | [] => None
  | c :: l =>
      if c =? 0 then
        match l with
        | [] => None
        | d :: rest => if d =? 0 then Some ([[]], rest) else '(ss, rest) ← cut_set l; Some ([] :: ss, rest)
        end
      else
      '(ss, rest) ← cut_set l;
      match ss with [] => None | s :: ss => Some ((c :: s) :: ss, rest) end
  end.

Lemma set_octets_cons s ss : set_octets (s :: ss) = s ++ 0 :: set_octets ss.
Proof. unfold set_octets. cbn [map concat]. by rewrite <- !app_assoc. Qed.

Lemma cut_set_eq c l : cut_set (c :: l) =
  if c =? 0 then
    match l with
    | [] => None
    | d :: rest => if d =? 0 then Some ([[]], rest) else '(ss, rest) ← cut_set l; Some ([] :: ss, rest)
    end
  else
  '(ss, rest) ← cut_set l;
  match ss with [] => None | s :: ss => Some ((c :: s) :: ss, rest) end.
Proof. done. Qed.

Lemma cut_set_sound l : forall ss rest, cut_set l = Some (ss, rest) ->
  set_ok ss /\ l = set_octets ss ++ rest /\ (head l <> Some 0 -> head ss <> Some []).
Proof.
  induction l as [|c l IH]; intros ss rest E; [done|]. rewrite cut_set_eq in E. destruct (Z.eqb_spec c 0) as [-> |Hc].
  - destruct l as [|d l]; [done|]. destruct (Z.eqb_spec d 0) as [-> |Hd].
    { injection E as <- <-. split; [|done]. split; [done|]. split; [repeat constructor|constructor]. }
    destruct (cut_set (d :: l)) as [[ss' rest']|] eqn:E'; [|done]. cbn [mbind option_bind] in E. injection E as <- <-.
    destruct (IH _ _ eq_refl) as ((Hn & Hz & Ht) & El & Hh). split; [|split; [by rewrite El, set_octets_cons|done]].
    split; [done|]. split; [constructor; [constructor|done]|]. cbn [tail]. destruct ss' as [|s ss']; [done|].
    constructor; [|done]. intros ->. apply Hh; [|done]. by intros [= ->].
  - destruct (cut_set l) as [[ss' rest']|] eqn:E'; [|done]. cbn [mbind option_bind] in E. destruct ss' as [|s ss']; [done|].
    injection E as <- <-. destruct (IH _ _ eq_refl) as ((Hn & Hz & Ht) & -> & _). rewrite !set_octets_cons.
    split; [|done]. split; [done|]. apply Forall_cons_iff in Hz as [Hs Hz]. split; [constructor; [by constructor|done]|done].
Qed.

Lemma cut_set_complete ss : forall rest, set_ok ss -> cut_set (set_octets ss ++ rest) = Some (ss, rest).
Proof.
  induction ss as [|s ss IH]; intros rest (Hn & Hz & Ht); [done|]. clear Hn. apply Forall_cons_iff in Hz as [Hs Hz].
  rewrite set_octets_cons, <- app_assoc. cbn [tail app] in *. induction Hs as [|c s Hc Hs IHs].
  - cbn [app]. rewrite cut_set_eq. cbn [Z.eqb]. destruct ss as [|s ss]; [done|]. inversion Ht as [|? ? Hne Ht']; subst.
    destruct s as [|d s]; [done|]. inversion Hz as [|? ? Hd _]; subst. inversion Hd as [|? ? Hd' _]; subst.
    rewrite IH by done. rewrite set_octets_cons. cbn [app]. rewrite (proj2 (Z.eqb_neq d 0)) by done. done.
  - cbn [app]. rewrite cut_set_eq, (proj2 (Z.eqb_neq c 0)), IHs by done. done.
Qed.

Lemma set_octets_length ss : set_ok ss -> 2 <= zlen (set_octets ss).
Proof. destruct ss as [|s ss]; [by intros [? _]|]. intros _. rewrite set_octets_cons. unfold set_octets. lens. lia. Qed.

Lemma set_octets_count ss : (length ss < length (set_octets ss))%nat.
Proof. induction ss as [|s ss IH]; [cbn; lia|]. rewrite set_octets_cons. llia. Qed.

(** The scan finds the end of the set that [l] starts with. *)
Lemma terminator_scan_spec data offset limit : 0 <= offset -> forall l pre post index fuel,
  data = pre ++ l ++ post -> offset + index = zlen pre -> limit - index = zlen l -> (length l < fuel)%nat ->
  terminator_scan data offset index limit fuel
  = Some (match cut_set l with None => None | Some (ss, _) => Some (index + zlen (set_octets ss) - 2) end).
Proof.
  intros Ho. induction l as [|c l IH]; intros pre post index fuel Ed Ei El Hf; (destruct fuel as [|fuel]; [lia|]); cbn [terminator_scan].
  { rewrite (proj2 (Z.leb_le _ _)) by llia. done. }
  assert (Hnext : terminator_scan data offset (index + 1) limit fuel
    = Some (match cut_set l with None => None | Some (ss, _) => Some (index + 1 + zlen (set_octets ss) - 2) end)).
  { apply (IH (pre ++ [c]) post); [by rewrite <- app_assoc|llia..]. }
  destruct l as [|d l].
  { rewrite (proj2 (Z.leb_le _ _)) by llia. cbn [cut_set]. by destruct (c =? 0). }
  rewrite (proj2 (Z.leb_gt _ _)) by llia. rewrite (rd_eq data pre c ((d :: l) ++ post) (offset + index) Ed Ei). cbn [mbind option_bind].
  rewrite cut_set_eq. destruct (c =? 0).
  - rewrite (rd_eq data (pre ++ [c]) d (l ++ post)) by (rewrite ?Ed, <- ?app_assoc; done || llia). cbn [mbind option_bind].
    destruct (d =? 0); [f_equal; f_equal; unfold set_octets; cbn; lia|]. rewrite Hnext. destruct (cut_set (d :: l)) as [[ss rest]|]; [|done].
    cbn [mbind option_bind]. rewrite set_octets_cons. do 2 f_equal. llia.
  - rewrite Hnext. destruct (cut_set (d :: l)) as [[ss rest]|] eqn:Es; [|done]. cbn [mbind option_bind].
    destruct ss as [|s ss]; [by apply cut_set_sound in Es as ((? & _) & _)|]. rewrite !set_octets_cons. do 2 f_equal. llia.
Qed.

(** ** Records *)

(** The structure at the start of some octets, and what follows. *)
Definition take_record (l : bytes) : option (smbios_record * bytes) :=
  if zlen l <? 4 then None
  else
  formatted ← rd l 1;
  if (formatted <? 4) || (zlen l <? formatted + 2) then None
  else
  '(ss, _) ← cut_set (slice l formatted (Z.min (zlen l) PBNS_INVENTORY_SMBIOS_RECORD_MAX - formatted));
  let r := mk_record (slice l 0 formatted) ss in
  Some (r, drop (length (record_octets r)) l).

Lemma smbios_octets_length r : record_ok r -> zlen (sr_formatted r) + 2 <= zlen (record_octets r).
Proof. intros (_ & _ & Hs & _). unfold record_octets. pose proof (set_octets_length _ Hs). llia. Qed.

Lemma take_record_sound l r rest : bytes_ok l -> take_record l = Some (r, rest) -> record_ok r /\ l = record_octets r ++ rest.
Proof.
  intros Hl. unfold take_record. destruct (Z.ltb_spec (zlen l) 4); [done|]. destruct (rd l 1) as [f|] eqn:Ef; [|done].
  assert (Hf : is_byte f). { rewrite rd_inside in Ef by lia. by apply (Forall_lookup_1 _ _ _ _ Hl Ef). }
  unfold is_byte in Hf. cbn [mbind option_bind]. destruct (_ || _) eqn:Eg; [done|]. bools.
  set (lim := Z.min (zlen l) PBNS_INVENTORY_SMBIOS_RECORD_MAX).
  assert (Hlim : lim <= zlen l /\ lim <= 1024 /\ f + 2 <= lim) by (unfold lim, PBNS_INVENTORY_SMBIOS_RECORD_MAX; lia).
  destruct (cut_set _) as [[ss rest']|] eqn:Es; [|done]. cbn [mbind option_bind]. intros [= <- <-].
  apply cut_set_sound in Es as (Hok & Es & _).
  assert (El : l = slice l 0 f ++ set_octets ss ++ rest' ++ drop (Z.to_nat lim) l).
  { rewrite (app_assoc (set_octets ss)), <- Es, app_assoc. replace (slice l f (lim - f)) with (slice l (0 + f) (lim - f)) by (f_equal; lia).
    rewrite <- slice_split by lia. unfold slice. rewrite drop_0. replace (f + (lim - f)) with lim by lia. by rewrite take_drop. }
  assert (Hlen : zlen (slice l 0 f) = f) by (apply slice_length; lia).
  assert (Hset : zlen (set_octets ss) <= lim - f).
  { apply (f_equal length) in Es. pose proof (slice_length l f (lim - f) ltac:(lia) ltac:(lia) ltac:(lia)). rewrite length_app in Es. lia. }
  remember (slice l 0 f) as fm eqn:Efm. clear Efm. split.
  - split; [cbn [sr_formatted]; lia|]. cbn [sr_formatted sr_strings]. split; [rewrite Hlen, <- Ef, El; symmetry; apply rd_app_l; lia|].
    split; [done|]. unfold record_octets, PBNS_INVENTORY_SMBIOS_RECORD_MAX. cbn [sr_formatted sr_strings]. llia.
  - unfold record_octets. cbn [sr_formatted sr_strings]. rewrite app_assoc in El. rewrite El at 2. rewrite drop_app_length. exact El.
Qed.

Lemma take_record_complete r rest : record_ok r -> take_record (record_octets r ++ rest) = Some (r, rest).
Proof.
  intros Hr. pose proof (smbios_octets_length r Hr) as Hlen. destruct Hr as (H4 & H1 & Hs & Hmax).
  pose proof (set_octets_length _ Hs) as Hset. unfold take_record. set (l := record_octets r ++ rest).
  assert (Hl : zlen l = zlen (record_octets r) + zlen rest) by (unfold l; llia).
  rewrite (proj2 (Z.ltb_ge _ _)) by lia.
  assert (E1 : rd l 1 = Some (zlen (sr_formatted r))) by (unfold l; rewrite rd_app_l by lia; unfold record_octets; by rewrite rd_app_l by lia).
  rewrite E1. cbn [mbind option_bind]. replace (_ || _) with false by lia.
  set (lim := Z.min (zlen l) PBNS_INVENTORY_SMBIOS_RECORD_MAX).
  assert (Hlim : lim <= zlen l /\ zlen (record_octets r) <= lim) by (unfold lim; lia).
  assert (Esl : slice l (zlen (sr_formatted r)) (lim - zlen (sr_formatted r))
    = set_octets (sr_strings r) ++ take (Z.to_nat (lim - zlen (record_octets r))) rest).
  { unfold l, record_octets, slice. rewrite <- app_assoc, Nat2Z.id, drop_app_length, take_app_ge by (unfold record_octets in *; llia).
    do 2 f_equal. unfold record_octets in *. llia. }
  rewrite Esl, cut_set_complete by done. cbn [mbind option_bind].
  assert (Efm : slice l 0 (zlen (sr_formatted r)) = sr_formatted r).
  { unfold l, record_octets, slice. by rewrite drop_0, <- app_assoc, Nat2Z.id, take_app_length. }
  rewrite Efm. destruct r as [fm ss]. unfold l. cbn [sr_formatted sr_strings]. by rewrite drop_app_length.
Qed.

(** *** Strings *)

Lemma string_end_spec s : forall pre post fuel, zero_free s -> (length s < fuel)%nat ->
  string_end (pre ++ s ++ 0 :: post) (zlen pre) fuel = Some (zlen pre + zlen s).
Proof.
  induction s as [|c s IH]; intros pre post fuel Hs Hf; (destruct fuel as [|fuel]; [lia|]); cbn [string_end].
  - rewrite (proj2 (Z.leb_gt _ _)) by llia. cbn [app]. rewrite rd_app_head by done. cbn [mbind option_bind Z.eqb]. f_equal. cbn [length]. lia.
  - inversion Hs as [|? ? Hc Hs']; subst. rewrite (proj2 (Z.leb_gt _ _)) by llia. cbn [app]. rewrite rd_app_head by done.
    cbn [mbind option_bind]. rewrite (proj2 (Z.eqb_neq c 0)) by done.
    replace (pre ++ c :: s ++ 0 :: post) with ((pre ++ [c]) ++ s ++ 0 :: post) by (by rewrite <- app_assoc).
    replace (zlen pre + 1) with (zlen (pre ++ [c])) by llia. rewrite IH by (done || llia). f_equal. llia.
Qed.

Lemma string_loop_spec p index : index <= UINT8_MAX -> forall ss pre current fuel,
  Forall zero_free ss -> Forall (fun s => s <> []) ss -> current <= index -> (length ss < fuel)%nat ->
  string_loop (mk_view p (pre ++ set_octets ss)) (zlen pre) current index fuel
  = Some (match ss !! Z.to_nat (index - current) with
          | Some s => (PBNS_OK, mk_view (p + zlen pre + zlen (concat (map (fun s => s ++ [0]) (take (Z.to_nat (index - current)) ss)))) s)
          | None => (PBNS_ERR_FORMAT, null_view)
          end).
Proof.
  intros Hi. induction ss as [|s ss IH]; intros pre current fuel Hz Hn Hc Hf; (destruct fuel as [|fuel]; [cbn in Hf; lia|]); cbn [string_loop v_data v_ptr].
  { change (set_octets []) with [0]. rewrite (proj2 (Z.leb_le _ _)) by llia. by rewrite lookup_nil. }
  apply Forall_cons_iff in Hz as [Hs Hz]. apply Forall_cons_iff in Hn as [Hne Hn]. rewrite !set_octets_cons.
  assert (Hpos : 0 < zlen s) by (destruct s; [done|cbn; lia]). rewrite (proj2 (Z.leb_gt _ _)) by llia.
  assert (Hfirst : exists c, c <> 0 /\ rd (pre ++ s ++ 0 :: set_octets ss) (zlen pre) = Some c).
  { destruct s as [|c s]; [done|]. inversion Hs; subst. exists c. split; [done|]. by apply rd_app_head. }
  destruct Hfirst as (c & Hc0 & ->). cbn [mbind option_bind]. rewrite (proj2 (Z.eqb_neq c 0)) by done.
  rewrite string_end_spec by (done || llia). cbn [mbind option_bind]. rewrite (proj2 (Z.leb_gt _ _)) by llia.
  destruct (Z.eqb_spec current index) as [-> |Hci].
  - replace (zlen pre + zlen s - zlen pre) with (zlen s) by lia. rewrite rd_slice_app by done. cbn [mbind option_bind].
    rewrite Z.sub_diag. change (Z.to_nat 0) with O. cbn [lookup list_lookup take map concat length]. do 3 f_equal. lia.
  - rewrite (proj2 (Z.eqb_neq current UINT8_MAX)) by lia.
    replace (pre ++ s ++ 0 :: set_octets ss) with ((pre ++ s ++ [0]) ++ set_octets ss) by (by rewrite <- !app_assoc).
    replace (zlen pre + zlen s + 1) with (zlen (pre ++ s ++ [0])) by llia.
    cbn [length] in Hf. rewrite IH by (done || lia). replace (Z.to_nat (index - current)) with (S (Z.to_nat (index - (current + 1)))) by lia.
    cbn [lookup list_lookup take map concat]. destruct (ss !! _); [|done]. do 3 f_equal. rewrite !length_app. cbn. lia.
Qed.

Lemma smbios_string_spec p r index : 0 < p -> record_ok r -> 0 <= index <= UINT8_MAX ->
  exists st v, smbios_string (mk_view p (record_octets r)) (zlen (sr_formatted r)) index = Some (st, v)
  /\ match record_string r index with
     | Some s => st = PBNS_OK /\ v_data v = s /\ view_is_valid v = true
     | None => st <> PBNS_OK
     end.
Proof.
  intros Hp (H4 & _ & (Hn & Hz & Ht) & Hmax) Hi. unfold smbios_string, record_string. destruct (Z.eqb_spec index 0); [by eexists _, _|].
  unfold record_octets. destruct (sr_strings r) as [|[|c s] ss] eqn:Ess; [done|..].
  - cbn [v_data string_loop]. rewrite set_octets_cons. destruct (Z.leb_spec (zlen (sr_formatted r ++ [] ++ 0 :: set_octets ss)) (zlen (sr_formatted r) + 1));
      [by eexists _, _|]. cbn [app]. rewrite rd_app_head by done. by eexists _, _.
  - cbn [tail] in Ht. rewrite string_loop_spec; [|lia|done|by constructor|lia|].
    2: { pose proof (set_octets_count ((c :: s) :: ss)). cbn [v_data]. llia. }
    destruct (((c :: s) :: ss) !! _) as [s'|] eqn:E; [|by eexists _, _]. do 2 eexists. split; [done|]. split; [done|].
    split; [done|]. unfold view_is_valid. cbn [v_ptr]. rewrite (proj2 (Z.eqb_neq _ 0)) by lia. done.
Qed.
