(* ===== verification/SmbiosProps.v ===== *)
(** * SMBIOS tables: the collector refines the reading of the records *)

From stdpp Require Import base list numbers.
From Stdlib Require Import ZArith Lia.
From S2P Require Import Prelude Endian Status Buffers MeasuredBoot MeasuredLog InventoryText Smbios.

(** ** Fields *)

Lemma printable_spec s : printable s = true <-> Forall (fun c => blank c = true \/ graphic c) s.
Proof.
  unfold printable. rewrite forallb_forall, Forall_forall. unfold graphic.
  split; intros H c Hc; specialize (H c Hc); [destruct (blank c); [by left|right; cbn in H; lia]|destruct H as [-> |H]; [done|lia]].
Qed.

Section record.
Context (p : Z) (r : smbios_record) (Hp : 0 < p) (Hr : record_ok r) (Hoct : bytes_ok (record_octets r)).

Lemma formatted_byte offset : 0 <= offset < zlen (sr_formatted r) ->
  exists b, rd (sr_formatted r) offset = Some b /\ rd (record_octets r) offset = Some b /\ is_byte b.
Proof using Hoct.
  intros Ho. destruct (rd_some (sr_formatted r) offset Ho) as [b Eb]. exists b. split; [done|].
  assert (E : rd (record_octets r) offset = Some b) by (unfold record_octets; by rewrite rd_app_l by lia). split; [done|].
  rewrite rd_inside in E by (unfold record_octets; llia). by apply (Forall_lookup_1 _ _ _ _ Hoct E).
Qed.

(** A field is read as the text it stands for, and is left alone when there is none. *)
Lemma extract_text_spec offset destination : 0 <= offset < zlen (sr_formatted r) ->
  exists st t, extract_text (mk_view p (record_octets r)) (zlen (sr_formatted r)) offset destination = Some (st, t)
  /\ match record_text r offset with
     | Some s => st = PBNS_OK /\ text_ok t /\ text_of t = s
     | None => st <> PBNS_OK /\ t = destination
     end.
Proof using Hp Hr Hoct.
  intros Ho. destruct (formatted_byte offset Ho) as (index & Ef & Er & Hb). unfold extract_text, record_text. cbn [v_data].
  rewrite Ef, Er. cbn [mbind option_bind]. unfold is_byte in Hb.
  destruct (smbios_string_spec p r index Hp Hr ltac:(unfold UINT8_MAX; lia)) as (st & v & -> & Hs). cbn [mbind option_bind].
  destruct (record_string r index) as [s|]; [destruct Hs as (-> & <- & Hv)|].
  2: { cbn [mbind option_bind]. destruct (is_ok st) eqn:E; [by apply is_ok_spec in E|]. by eexists _, _. }
  cbn [is_ok negb mbind option_bind]. destruct (normalize_text_spec v destination Hv) as (st & t & -> & Hiff & Hok & Hno).
  cbn [mbind option_bind default]. do 2 eexists. split; [done|].
  destruct (printable (v_data v) && _) eqn:E.
  - bools. assert (Hst : st = PBNS_OK) by (apply Hiff; split; [by apply printable_spec|done]). destruct (Hok Hst) as (? & ? & ?). done.
  - assert (Hst : st <> PBNS_OK); [|by split; [|apply Hno]]. intros [H1%printable_spec H2]%Hiff.
    rewrite H1 in E. cbn [andb] in E. bools. lia.
Qed.

(** The fields of a board. *)
Lemma extract_fields_spec offsets : Forall (fun o => 0 <= o < zlen (sr_formatted r)) offsets ->
  exists res, extract_fields (mk_view p (record_octets r)) (zlen (sr_formatted r)) offsets = Some res
  /\ match mapM (record_text r) offsets with
     | Some ss => exists ts, res = inr ts /\ Forall text_ok ts /\ map text_of ts = ss
     | None => exists st, res = inl st /\ st <> PBNS_OK
     end.
Proof using Hp Hr Hoct.
  induction 1 as [|o offsets Ho _ IH]; [eexists; split; [done|]; by exists []|]. cbn [extract_fields mapM].
  destruct (extract_text_spec o zero_text Ho) as (st & t & -> & Ht). cbn [mbind option_bind].
  destruct (record_text r o) as [s|]; cbn [mbind option_bind].
  - destruct Ht as (-> & Htok & <-). cbn [is_ok negb]. destruct IH as (res & -> & Hres). cbn [mbind option_bind].
    destruct (mapM (record_text r) offsets) as [ss|]; cbn [mbind option_bind].
    + destruct Hres as (ts & -> & Hts & <-). eexists. split; [done|]. exists (t :: ts). split; [done|]. split; [by constructor|done].
    + destruct Hres as (st & -> & Hst). eexists. split; [done|]. by exists st.
  - destruct Ht as (Hst & _). destruct (is_ok st) eqn:E; [by apply is_ok_spec in E|]. eexists. split; [done|]. by exists st.
Qed.
End record.

(** ** The board *)

Definition material (ts : list pbns_inventory_text) : bytes := concat (map (fun t => prefixed (text_of t)) ts).

Lemma append_board_text_spec c t : collector_ok c -> text_ok t -> sc_board_material_len c + 97 <= BOARD_MATERIAL_SIZE ->
  exists data len, append_board_text c t = Some (PBNS_OK, set_board c data len)
  /\ collector_ok (set_board c data len) /\ len <= sc_board_material_len c + 97
  /\ board_of (set_board c data len) = board_of c ++ prefixed (text_of t).
Proof.
  intros (Hv & Hw & Hc & Hsz & Hlen & Hm & Hn) [Hs Htidy] Hroom. pose proof (text_of_length t Hs) as Htl. destruct Hs as [H96 Hl].
  unfold PBNS_INVENTORY_TEXT_MAX_SIZE, BOARD_MATERIAL_SIZE in *. unfold append_board_text, UINT8_MAX, BOARD_MATERIAL_SIZE.
  replace (_ || _) with false by lia. set (pre := board_of c). set (len := sc_board_material_len c) in *.
  assert (Hpre : zlen pre = len) by (unfold pre, board_of, len; rewrite length_take; lia).
  assert (Ed : sc_board_material c = pre ++ drop (Z.to_nat len) (sc_board_material c)) by (unfold pre, board_of; by rewrite take_drop).
  rewrite Ed. rewrite wr_next by llia. cbn [mbind option_bind]. rewrite u8_small by (unfold is_byte; lia).
  assert (Hfin : forall data n, n = len + 1 + tx_len t -> zlen data = 291 -> take (Z.to_nat n) data = pre ++ prefixed (text_of t) ->
    collector_ok (set_board c data n) /\ n <= len + 97 /\ board_of (set_board c data n) = pre ++ prefixed (text_of t)).
  { intros data n -> Hd Ht. split; [|split; [lia|done]]. split; [done|]. split; [done|]. split; [done|].
    cbn [set_board sc_board_material sc_board_material_len]. unfold BOARD_MATERIAL_SIZE. split; [lia|]. split; [lia|]. done. }
  destruct (Z.eqb_spec (tx_len t) 0) as [E0|Hne]; cbn [negb].
  - do 2 eexists. split; [done|]. assert (Et : text_of t = []) by (destruct (text_of t); [done|cbn in Htl; lia]).
    apply Hfin; [lia|llia|]. rewrite Et. unfold prefixed. cbn [length]. rewrite E0.
    replace (Z.to_nat (len + 1)) with (length (pre ++ [0])) by llia. by rewrite take_app_length.
  - unfold rd_slice. replace (_ && _) with true by lia. cbn [mbind option_bind]. change (slice (tx_bytes t) 0 (tx_len t)) with (text_of t).
    rewrite wr_list_next by llia. cbn [mbind option_bind]. do 2 eexists. split; [done|]. apply Hfin; [lia|llia|].
    unfold prefixed. rewrite Htl. replace (Z.to_nat (len + 1 + tx_len t)) with (length ((pre ++ [tx_len t]) ++ text_of t)) by llia.
    rewrite take_app_length. by rewrite <- app_assoc.
Qed.

Lemma append_fields_spec ts : forall c, collector_ok c -> Forall text_ok ts ->
  sc_board_material_len c + 97 * zlen ts <= BOARD_MATERIAL_SIZE ->
  exists data len, append_fields c ts = Some (PBNS_OK, set_board c data len)
  /\ collector_ok (set_board c data len) /\ board_of (set_board c data len) = board_of c ++ material ts.
Proof.
  induction ts as [|t ts IH]; intros c Hc Hts Hroom; cbn [append_fields].
  { exists (sc_board_material c), (sc_board_material_len c). destruct c. cbn [material map concat]. rewrite app_nil_r. done. }
  apply Forall_cons_iff in Hts as [Ht Hts]. cbn [length] in Hroom.
  destruct (append_board_text_spec c t Hc Ht) as (data & len & -> & Hc' & Hlen & Eb); [lia|]. cbn [mbind option_bind is_ok negb].
  destruct (IH (set_board c data len) Hc' Hts) as (data' & len' & -> & Hc'' & Eb'); [cbn [set_board sc_board_material_len]; lia|].
  exists data', len'. split; [done|]. split; [done|]. change (board_of (set_board c data' len')) with (board_of (set_board (set_board c data len) data' len')).
  rewrite Eb', Eb, <- app_assoc. done.
Qed.

Lemma board_empty c : collector_ok c -> board_of c = [] <-> sc_board_material_len c = 0.
Proof.
  intros (_ & _ & _ & Hsz & Hlen & _). unfold board_of, BOARD_MATERIAL_SIZE in *. split.
  - intros E%(f_equal length). rewrite length_take in E. cbn in E. lia.
  - by intros ->.
Qed.

Lemma text_empty t : text_sized t -> text_of t = [] <-> tx_len t = 0.
Proof. intros Hs. pose proof (text_of_length t Hs). destruct (text_of t); cbn in *; split; done || lia. Qed.

(** ** Memory *)

Lemma memory_word e : 0 <= e < 65536 ->
  negb (Z.land e 0x8000 =? 0) = (0x8000 <=? e) /\ (0x8000 <= e -> Z.land e 0x7fff = e - 0x8000).
Proof.
  intros He. change 0x7fff with (Z.ones 15). rewrite Z.land_ones by lia. change 0x8000 with (2 ^ 15).
  assert (Hb : Z.testbit e 15 = (2 ^ 15 <=? e)).
  { rewrite Z.testbit_odd, Z.shiftr_div_pow2 by lia. destruct (Z.leb_spec (2 ^ 15) e).
    - replace (e / 2 ^ 15) with 1; [done|]. apply (Z.div_unique _ _ _ (e - 2 ^ 15)); lia.
    - by rewrite Z.div_small by lia. }
  split.
  - rewrite <- Hb. destruct (Z.testbit e 15) eqn:E.
    + apply negb_true_iff, Z.eqb_neq. intros H0. apply (f_equal (fun z => Z.testbit z 15)) in H0.
      rewrite Z.land_spec, E, Z.bits_0 in H0. done.
    + apply negb_false_iff, Z.eqb_eq, Z.bits_inj'. intros n Hn. rewrite Z.land_spec, Z.bits_0, Z.pow2_bits_eqb by lia.
      destruct (Z.eqb_spec 15 n) as [<- |]; [by rewrite E|apply andb_false_r].
  - intros H. symmetry. apply (Z.mod_unique _ _ 1); lia.
Qed.

Lemma consume_memory_spec c p r : collector_ok c -> record_ok r -> bytes_ok (record_octets r) ->
  exists st c', consume_memory c (mk_view p (record_octets r)) (zlen (sr_formatted r)) = Some (st, c')
  /\ match memory_size (sr_formatted r) with
     | Some size => 0 <= size /\ (if UINT64_MAX <? sc_memory_mib c + size then st <> PBNS_OK /\ c' = c
                                 else st = PBNS_OK /\ c' = set_memory c (sc_memory_mib c + size))
     | None => st <> PBNS_OK /\ c' = c
     end.
Proof.
  intros Hc Hr Ho. pose proof (smbios_octets_length r Hr) as Hlen. unfold consume_memory, memory_size. cbn [v_data].
  destruct (Z.ltb_spec (zlen (sr_formatted r)) 14); [by eexists _, _|].
  assert (Hsl : forall i n, 0 <= i -> 0 <= n -> i + n <= zlen (sr_formatted r) -> slice (record_octets r) i n = slice (sr_formatted r) i n)
    by (intros; unfold record_octets; by apply slice_app_l).
  rewrite load_u16_value by (done || lia). rewrite Hsl by lia. cbn [mbind option_bind].
  assert (Hfm : bytes_ok (sr_formatted r)) by (unfold record_octets in Ho; by apply bytes_ok_app in Ho as [? _]).
  pose proof (le_value_bound (slice (sr_formatted r) 12 2) ltac:(auto with pbns)) as Hb. rewrite slice_length in Hb by lia.
  set (e := le_value (slice (sr_formatted r) 12 2)) in *. change (256 ^ 2) with 65536 in Hb.
  destruct (memory_word e Hb) as [Hbit Hlow]. rewrite Hbit. unfold UINT16_MAX.
  assert (Hfin : forall size, 0 <= size -> exists st c', (if UINT64_MAX - sc_memory_mib c <? size then Some (PBNS_ERR_LIMIT, c)
      else Some (PBNS_OK, set_memory c (sc_memory_mib c + size))) = Some (st, c') /\ 0 <= size /\ (if UINT64_MAX <? sc_memory_mib c + size then st <> PBNS_OK /\ c' = c
      else st = PBNS_OK /\ c' = set_memory c (sc_memory_mib c + size))).
  { intros size Hs. destruct (Z.ltb_spec (UINT64_MAX - sc_memory_mib c) size), (Z.ltb_spec UINT64_MAX (sc_memory_mib c + size)); try lia; by eexists _, _. }
  destruct (Z.eqb_spec e 0x7fff) as [->|Hne]; cbn [andb].
  - destruct (Z.ltb_spec (zlen (sr_formatted r)) 32); [by eexists _, _|]. rewrite load_u32_value by (done || lia). rewrite Hsl by lia.
    cbn [mbind option_bind]. apply Hfin. apply (le_value_bound (slice (sr_formatted r) 28 4)). auto with pbns.
  - rewrite <- negb_orb. destruct ((e =? 0) || (e =? 65535)) eqn:E0; cbn [negb mbind option_bind]; [by apply Hfin|].
    destruct (Z.leb_spec 0x8000 e); [|apply Hfin; lia]. rewrite Hlow by done. apply Hfin. apply Z.div_pos; lia.
Qed.

(** ** One structure *)

(** What an operation of the collector has to do with an abstract step. *)
Definition refines (c : pbns_inventory_smbios_collector) (res : option (pbns_status * pbns_inventory_smbios_collector))
  (next : option platform) : Prop :=
  exists st c', res = Some (st, c') /\ collector_ok c'
  /\ match next with Some q => st = PBNS_OK /\ platform_of c' = q | None => st <> PBNS_OK end.

Lemma refines_same c st next : collector_ok c -> match next with Some q => st = PBNS_OK /\ platform_of c = q | None => st <> PBNS_OK end ->
  refines c (Some (st, c)) next.
Proof. intros Hc H. by exists st, c. Qed.

Lemma consume_board_refines c p r : 0 < p -> collector_ok c -> record_ok r -> bytes_ok (record_octets r) ->
  rd (sr_formatted r) 0 = Some 2 ->
  refines c (consume_board c (mk_view p (record_octets r)) (zlen (sr_formatted r))) (gather_fields (platform_of c) r).
Proof.
  intros Hp Hc Hr Ho E0. unfold consume_board, gather_fields. rewrite E0. cbn [mbind option_bind Z.eqb Pos.eqb].
  destruct (Z.ltb_spec (zlen (sr_formatted r)) 7); [by apply refines_same|]. cbn [orb]. cbn [platform_of pf_board pf_vendor pf_version pf_cpu pf_memory pf_records pf_ended].
  destruct (Z.eqb_spec (sc_board_material_len c) 0) as [El|Hne]; cbn [negb].
  2: { rewrite bool_decide_eq_false_2 by (by rewrite board_empty). by apply refines_same. }
  apply (board_empty c Hc) in El as Eb. rewrite bool_decide_eq_true_2 by done.
  destruct (extract_fields_spec p r Hp Hr Ho [4; 5; 6]) as (res & -> & Hres); [repeat (constructor; [lia|]); constructor|].
  cbn [mbind option_bind]. cbn [mapM mbind option_bind] in Hres.
  destruct (record_text r 4) as [s1|]; cbn [mbind option_bind] in *; [|destruct Hres as (st & -> & Hst); by apply refines_same].
  destruct (record_text r 5) as [s2|]; cbn [mbind option_bind] in *; [|destruct Hres as (st & -> & Hst); by apply refines_same].
  destruct (record_text r 6) as [s3|]; cbn [mbind option_bind] in *; [|destruct Hres as (st & -> & Hst); by apply refines_same].
  destruct Hres as (ts & -> & Hts & Ets). destruct ts as [|t1 [|t2 [|t3 [|]]]]; try done. injection Ets as <- <- <-.
  destruct (append_fields_spec [t1; t2; t3] c Hc Hts) as (data & len & -> & Hc' & Em); [unfold BOARD_MATERIAL_SIZE; cbn; lia|].
  do 2 eexists. split; [done|]. split; [done|]. split; [done|]. unfold platform_of. rewrite Em, Eb. f_equal.
  unfold material. cbn [map concat app]. by rewrite app_nil_r.
Qed.

Lemma text_ok_set_vendor c t : collector_ok c -> text_ok t -> collector_ok (set_vendor c t).
Proof. intros (_ & H) Ht. by split. Qed.
Lemma text_ok_set_version c t : collector_ok c -> text_ok t -> collector_ok (set_version c t).
Proof. intros (H & _ & H') Ht. by split; [|split]. Qed.
Lemma text_ok_set_cpu c t : collector_ok c -> text_ok t -> collector_ok (set_cpu_class c t).
Proof. intros (H & H' & _ & H'') Ht. by split; [|split; [|split]]. Qed.

#[local] Hint Resolve text_ok_set_vendor text_ok_set_version text_ok_set_cpu : pbns.

Lemma consume_type_refines c p r type : 0 < p -> collector_ok c -> record_ok r -> bytes_ok (record_octets r) ->
  rd (sr_formatted r) 0 = Some type ->
  refines c (consume_type c (mk_view p (record_octets r)) (zlen (sr_formatted r)) type) (gather_fields (platform_of c) r).
Proof.
  intros Hp Hc Hr Ho E0. pose proof Hc as (Hv & Hw & Hcpu & Hsz & Hlen & Hm & Hn). unfold consume_type.
  destruct (Z.eqb_spec type 2) as [->|H2]; [by apply consume_board_refines|].
  unfold gather_fields. rewrite E0. cbn [mbind option_bind]. rewrite (proj2 (Z.eqb_neq type 2)) by done.
  cbn [platform_of pf_board pf_vendor pf_version pf_cpu pf_memory pf_records pf_ended].
  destruct (Z.eqb_spec type 0).
  { destruct (Z.ltb_spec (zlen (sr_formatted r)) 6); [by apply refines_same|].
    destruct (extract_text_spec p r Hp Hr Ho 4 (sc_firmware_vendor c) ltac:(lia)) as (st & t & -> & Ht). cbn [mbind option_bind].
    destruct (record_text r 4) as [s1|]; cbn [mbind option_bind].
    2: { destruct Ht as (Hst & ->). apply is_ok_false in Hst as Ef. rewrite Ef. do 2 eexists. split; [done|]. split; [by auto with pbns|done]. }
    destruct Ht as (-> & Htok & <-). cbn [is_ok negb].
    destruct (extract_text_spec p r Hp Hr Ho 5 (sc_firmware_version (set_vendor c t)) ltac:(lia)) as (st & t' & -> & Ht'). cbn [mbind option_bind].
    do 2 eexists. split; [done|]. destruct (record_text r 5) as [s2|]; cbn [mbind option_bind].
    - destruct Ht' as (-> & Htok' & <-). split; [by auto with pbns|done].
    - destruct Ht' as (Hst & ->). split; [by auto with pbns|done]. }
  destruct (Z.eqb_spec type 4).
  { destruct (Z.ltb_spec (zlen (sr_formatted r)) 17); [by apply refines_same|].
    pose proof (text_empty _ (proj1 Hcpu)) as He. destruct (Z.eqb_spec (tx_len (sc_cpu_class c)) 0).
    2: { rewrite bool_decide_eq_false_2 by (by rewrite He). by apply refines_same. }
    rewrite bool_decide_eq_true_2 by (by apply He).
    destruct (extract_text_spec p r Hp Hr Ho 16 (sc_cpu_class c) ltac:(lia)) as (st & t & -> & Ht). cbn [mbind option_bind].
    do 2 eexists. split; [done|]. destruct (record_text r 16) as [s1|]; cbn [mbind option_bind].
    - destruct Ht as (-> & Htok & <-). split; [by auto with pbns|done].
    - destruct Ht as (Hst & ->). split; [by auto with pbns|done]. }
  destruct (Z.eqb_spec type 17).
  { destruct (consume_memory_spec c p r Hc Hr Ho) as (st & c' & -> & Hmem). do 2 eexists. split; [done|].
    destruct (memory_size (sr_formatted r)) as [size|]; cbn [mbind option_bind]; [|by destruct Hmem as (? & ->)].
    destruct Hmem as (Hpos & Hmem). destruct (Z.ltb_spec UINT64_MAX (sc_memory_mib c + size)); destruct Hmem as (Hst & ->); [done|].
    split; [|done]. do 5 (split; [done|]). split; [cbn [set_memory sc_memory_mib]; lia|done]. }
  destruct (Z.eqb_spec type 127); [do 2 eexists; split; [done|]; split; done|by apply refines_same].
Qed.

(** A well-formed structure is consumed as the abstract step says. *)
Lemma consume_refines c p r : 0 < p -> collector_ok c -> sc_end_seen c = false -> record_ok r -> bytes_ok (record_octets r) ->
  exists st c', pbns_inventory_smbios_consume (Some c) (mk_view p (record_octets r)) = Some (st, Some c') /\ collector_ok c'
  /\ match gather_record (platform_of c) r with Some q => st = PBNS_OK /\ platform_of c' = q | None => st <> PBNS_OK end.
Proof.
  intros Hp Hc He Hr Ho. pose proof (smbios_octets_length r Hr) as Hlen. pose proof Hr as (H4 & H1 & Hs & Hmax).
  unfold pbns_inventory_smbios_consume, gather_record, v_len. cbn [v_ptr v_data]. rewrite He. cbn [platform_of pf_ended pf_records]. rewrite He.
  rewrite (proj2 (Z.eqb_neq p 0)) by lia. cbn [orb]. replace (_ || _) with false by lia.
  destruct (Z.leb_spec PBNS_INVENTORY_SMBIOS_COUNT_MAX (sc_record_count c)); [by eexists _, _|].
  assert (E1 : rd (record_octets r) 1 = Some (zlen (sr_formatted r))) by (unfold record_octets; by rewrite rd_app_l by lia).
  rewrite E1. cbn [mbind option_bind]. replace (_ || _) with false by lia.
  rewrite (terminator_scan_spec _ 0 _ ltac:(lia) (set_octets (sr_strings r)) (sr_formatted r) []);
    [|by rewrite app_nil_r|done|unfold record_octets; llia|unfold record_octets; llia].
  pose proof (cut_set_complete (sr_strings r) [] Hs) as Hcut. rewrite app_nil_r in Hcut. rewrite Hcut. cbn [mbind option_bind].
  rewrite (proj2 (Z.eqb_eq (_ + 2) _)) by (unfold record_octets; llia). cbn [negb].
  destruct (formatted_byte r Ho 0 ltac:(lia)) as (type & E0 & E0' & _). rewrite E0'. cbn [mbind option_bind].
  destruct (consume_type_refines c p r type Hp Hc Hr Ho E0) as (st & c' & -> & Hc' & Hg). cbn [mbind option_bind].
  destruct (gather_fields (platform_of c) r) as [q|] eqn:Eg; cbn [mbind option_bind].
  - destruct Hg as (-> & <-). cbn [is_ok]. do 2 eexists. split; [done|]. split; [|done].
    do 6 (split; [apply Hc'|]). cbn [set_count sc_record_count].
    assert (Ecount : sc_record_count c' = sc_record_count c).
    { assert (Hrec : forall a b, gather_fields a r = Some b -> pf_records b = pf_records a).
      { intros a b. unfold gather_fields. rewrite E0. cbn [mbind option_bind]. intros E. repeat (case_match; try discriminate E; simplify_option_eq; try done). }
      by apply (Hrec _ _ Eg). }
    destruct Hc as (_ & _ & _ & _ & _ & _ & Hn). lia.
  - apply is_ok_false in Hg as Ef. rewrite Ef. by eexists _, _.
Qed.

(** ** The table *)

(** The sequences of records that the octets [l] can be read as from [p] on:
    they end with the record that ends the table. *)
Definition table_reads (p : platform) (l : bytes) (q : platform) (rest : bytes) : Prop :=
  exists rs, l = concat (map record_octets rs) ++ rest /\ Forall record_ok rs /\ gather p rs = Some q /\ pf_ended q = true.

Lemma table_reads_ended p l q rest : pf_ended p = true -> table_reads p l q rest <-> q = p /\ rest = l.
Proof.
  intros He. split.
  - intros ([|r rs] & -> & _ & Eg & _); [by injection Eg as ->|]. cbn [gather] in Eg. unfold gather_record in Eg. by rewrite He in Eg.
  - intros [-> ->]. by exists [].
Qed.

Lemma table_reads_record p l q rest : bytes_ok l -> pf_ended p = false ->
  table_reads p l q rest <-> exists r l' p', take_record l = Some (r, l') /\ gather_record p r = Some p' /\ table_reads p' l' q rest.
Proof.
  intros Hl He. split.
  - intros ([|r rs] & -> & Hrs & Eg & Hq); [injection Eg as <-; congruence|]. apply Forall_cons_iff in Hrs as [Hr Hrs].
    cbn [gather map concat] in *. destruct (gather_record p r) as [p'|] eqn:E; [|done]. cbn [mbind option_bind] in Eg.
    exists r, (concat (map record_octets rs) ++ rest), p'. rewrite <- app_assoc, take_record_complete by done.
    split; [done|]. split; [done|]. by exists rs.
  - intros (r & l' & p' & Et & E & rs & -> & Hrs & Eg & Hq). apply take_record_sound in Et as [Hr ->]; [|done].
    exists (r :: rs). cbn [map concat gather]. rewrite <- app_assoc, E. split; [done|]. split; [by constructor|]. done.
Qed.

(** The walk finds the structures where the octets have them. *)
Lemma table_extent_spec tp pre l : bytes_ok l ->
  exists next, table_extent (mk_view tp (pre ++ l)) (zlen pre) = Some next
  /\ match take_record l with
     | Some (r, _) => next = inr (zlen (record_octets r))
     | None => exists st, next = inl st /\ st <> PBNS_OK
     end.
Proof.
  intros Hl. unfold table_extent, take_record, v_len. cbn [v_data]. replace (zlen (pre ++ l) - zlen pre) with (zlen l) by llia.
  destruct (Z.ltb_spec (zlen l) 4); [eexists; split; [done|]; by eexists|].
  assert (E1 : rd (pre ++ l) (zlen pre + 1) = rd l 1).
  { rewrite !rd_inside by llia. rewrite lookup_app_r by lia. f_equal. lia. }
  rewrite E1. destruct (rd_some l 1) as [f Ef]; [lia|]. rewrite Ef. cbn [mbind option_bind].
  destruct ((f <? 4) || (zlen l <? f + 2)) eqn:Eg; [eexists; split; [done|]; by eexists|]. bools.
  replace (if zlen l <? _ then _ else _) with (Z.min (zlen l) PBNS_INVENTORY_SMBIOS_RECORD_MAX)
    by (destruct (Z.ltb_spec (zlen l) PBNS_INVENTORY_SMBIOS_RECORD_MAX); lia).
  assert (Hfb : is_byte f). { rewrite rd_inside in Ef by lia. by apply (Forall_lookup_1 _ _ _ _ Hl Ef). }
  unfold is_byte in Hfb. set (lim := Z.min (zlen l) PBNS_INVENTORY_SMBIOS_RECORD_MAX).
  assert (Hlim : lim <= zlen l /\ f <= lim) by (unfold lim, PBNS_INVENTORY_SMBIOS_RECORD_MAX; lia).
  pose proof (slice_length l f (lim - f) ltac:(lia) ltac:(lia) ltac:(lia)) as Hls.
  pose proof (slice_length l 0 f ltac:(lia) ltac:(lia) ltac:(lia)) as Hlf.
  rewrite (terminator_scan_spec _ (zlen pre) lim ltac:(lia) (slice l f (lim - f)) (pre ++ slice l 0 f) (drop (Z.to_nat lim) l));
    [|..|rewrite length_app; lia|lia|rewrite length_app; lia].
  2: { rewrite <- app_assoc. f_equal. rewrite app_assoc. replace (slice l f (lim - f)) with (slice l (0 + f) (lim - f)) by (f_equal; lia).
       rewrite <- slice_split by lia. unfold slice. rewrite drop_0. replace (f + (lim - f)) with lim by lia. by rewrite take_drop. }
  cbn [mbind option_bind]. eexists. split; [done|].
  destruct (cut_set (slice l f (lim - f))) as [[ss rest']|]; cbn [mbind option_bind].
  - f_equal. unfold record_octets. cbn [sr_formatted sr_strings]. rewrite length_app. lia.
  - eexists. split; [done|]. by case_match.
Qed.

(** The loop from [offset] on, with [l] still to read. *)
Lemma table_loop_spec tp fuel : 0 < tp -> forall l pre c, bytes_ok l -> collector_ok c -> (length l < fuel)%nat ->
  exists st c' n, table_loop c (mk_view tp (pre ++ l)) (zlen pre) fuel = Some (st, c', zlen pre + Z.of_nat n) /\ collector_ok c'
  /\ (n <= length l)%nat
  /\ (forall q rest, table_reads (platform_of c) l q rest
       <-> st = PBNS_OK /\ pf_ended q = true /\ platform_of c' = q /\ rest = drop n l).
Proof.
  intros Htp. induction fuel as [|fuel IH]; intros l pre c Hl Hc Hf; [lia|]. cbn [table_loop]. unfold v_len. cbn [v_data v_ptr].
  destruct (sc_end_seen c) eqn:He.
  { rewrite orb_true_r. exists PBNS_OK, c, 0%nat. rewrite Z.add_0_r. split; [done|]. split; [done|]. split; [lia|]. intros q rest.
    rewrite table_reads_ended by done. split; [by intros [-> ->]|by intros (_ & _ & <- & ->)]. }
  rewrite orb_false_r. destruct (Z.leb_spec (zlen (pre ++ l)) (zlen pre)).
  { assert (l = []) as -> by (destruct l; [done|llia]). exists PBNS_OK, c, 0%nat. rewrite Z.add_0_r.
    split; [done|]. split; [done|]. split; [done|]. intros q rest. rewrite table_reads_record by (constructor || done). split; [by intros (? & ? & ? & ? & _)|].
    intros (_ & Hq & <- & _). cbn in Hq. congruence. }
  destruct (table_extent_spec tp pre l Hl) as (next & -> & Hnext). cbn [mbind option_bind].
  destruct (take_record l) as [[r l']|] eqn:Etake.
  2: { destruct Hnext as (st & -> & Hst). exists st, c, 0%nat. rewrite Z.add_0_r. split; [done|]. split; [done|]. split; [lia|]. intros q rest. rewrite table_reads_record by done.
       rewrite Etake. split; [by intros (? & ? & ? & ? & _)|by intros (? & _)]. }
  subst next. pose proof (take_record_sound l r l' Hl Etake) as [Hr ->]. rewrite rd_slice_app by done. cbn [mbind option_bind].
  apply bytes_ok_app in Hl as Hl2. destruct Hl2 as [Hro Hl'].
  destruct (consume_refines c (tp + zlen pre) r ltac:(lia) Hc He Hr Hro) as (st & c1 & -> & Hc1 & Hg). cbn [mbind option_bind default]. unfold id.
  pose proof (table_reads_record (platform_of c) (record_octets r ++ l')) as Hstep.
  destruct (gather_record (platform_of c) r) as [p'|] eqn:Egr.
  - destruct Hg as (-> & <-). cbn [is_ok negb]. pose proof (smbios_octets_length r Hr) as Hrl. pose proof Hr as (H4 & _).
    replace (zlen pre + zlen (record_octets r)) with (zlen (pre ++ record_octets r)) by llia. rewrite app_assoc.
    destruct (IH l' (pre ++ record_octets r) c1 Hl' Hc1) as (st & c' & n & E & Hc' & Hn & Hiff); [llia|].
    exists st, c', (length (record_octets r) + n)%nat. split; [rewrite E; do 2 f_equal; llia|]. split; [done|]. split; [llia|].
    intros q rest. rewrite Hstep, drop_app_add', <- Hiff by done. split; [|intros H2; by exists r, l', (platform_of c1)].
    intros (r2 & l2 & p2 & E2 & Eg2 & H2). rewrite Etake in E2. injection E2 as <- <-. rewrite Egr in Eg2. by injection Eg2 as <-.
  - apply is_ok_false in Hg as Hf'. rewrite Hf'. cbn [negb]. exists st, c1, 0%nat. rewrite Z.add_0_r. split; [done|]. split; [done|].
    split; [lia|]. intros q rest. rewrite Hstep by done. split; [|by intros (-> & _)].
    intros (r2 & l2 & p2 & E2 & Eg2 & _). rewrite Etake in E2. injection E2 as <- <-. congruence.
Qed.

(** The whole walk: there is at most one reading, and the collector holds it. *)
Lemma consume_table_reads c p table exact : 0 < p -> bytes_ok table -> table <> [] -> collector_ok c ->
  exists st c' rest0, pbns_inventory_smbios_consume_table (Some c) (mk_view p table) exact = Some (st, Some c') /\ collector_ok c'
  /\ (st = PBNS_OK -> sc_end_seen c' = true)
  /\ forall q rest, table_reads (platform_of c) table q rest /\ (exact = true -> rest = [])
       <-> st = PBNS_OK /\ platform_of c' = q /\ rest = rest0.
Proof.
  intros Hp Hok Hne Hc. unfold pbns_inventory_smbios_consume_table, v_len. cbn [v_ptr v_data].
  rewrite (proj2 (Z.eqb_neq p 0)), (proj2 (Z.eqb_neq (zlen table) 0)) by (destruct table; done || cbn; lia). cbn [orb].
  destruct (table_loop_spec p (S (length table)) Hp table [] c Hok Hc) as (st & c' & n & E & Hc' & Hn & Hiff); [lia|].
  cbn [app length] in E. change (Z.of_nat 0) with 0 in E. rewrite E. cbn [mbind option_bind]. rewrite Z.add_0_l. clear E.
  setoid_rewrite Hiff. assert (Hd : drop n table = [] <-> Z.of_nat n = zlen table).
  { split; [intros Ed%(f_equal length); rewrite length_drop in Ed; cbn in Ed; lia|intros; apply drop_ge; lia]. }
  destruct (is_ok st) eqn:Est; cbn [negb]; [apply is_ok_spec in Est as ->|].
  2: { exists st, c', []. split; [done|]. split; [done|]. apply is_ok_false in Est. split; [done|]. intros. tauto. }
  destruct (sc_end_seen c') eqn:He; cbn [negb orb].
  2: { exists PBNS_ERR_FORMAT, c', []. split; [done|]. split; [done|]. split; [done|]. intros q rest.
       split; [|by intros (? & _)]. intros ((_ & Hq & <- & _) & _). cbn in Hq. congruence. }
  destruct exact; cbn [andb].
  - destruct (Z.eqb_spec (Z.of_nat n) (zlen table)) as [En|Hneq]; cbn [negb].
    + exists PBNS_OK, c', []. split; [done|]. split; [done|]. split; [done|]. intros q rest. rewrite (proj2 Hd En).
      split; [by intros ((_ & _ & ? & ?) & _)|]. by intros (_ & <- & ->).
    + exists PBNS_ERR_FORMAT, c', []. split; [done|]. split; [done|]. split; [done|]. intros q rest.
      split; [|by intros (? & _)]. intros ((_ & _ & _ & ->) & Hr). destruct Hneq. by apply Hd, Hr.
  - exists PBNS_OK, c', (drop n table). split; [done|]. split; [done|]. split; [done|]. intros q rest.
    split; [by intros ((_ & _ & ? & ?) & _)|]. by intros (_ & <- & ->).
Qed.

(** A well-formed collector that has seen the end hashes its board. *)
Lemma smbios_finish_spec c hash digest0 : collector_ok c -> sc_end_seen c = true ->
  pbns_inventory_smbios_finish (Some c) (Some hash) (Some digest0) = Some (fst (hash (board_of c)), Some (snd (hash (board_of c)))).
Proof.
  intros ((Hv & Hvt) & (Hw & Hwt) & (Hcp & Hct) & Hsz & Hlen & Hm & Hn) He. unfold pbns_inventory_smbios_finish. rewrite He. cbn [negb orb].
  replace (_ || _) with false by lia.
  destruct (text_is_normalized_spec _ Hv) as (b1 & -> & Hb1). rewrite (proj2 Hb1 Hvt).
  destruct (text_is_normalized_spec _ Hw) as (b2 & -> & Hb2). rewrite (proj2 Hb2 Hwt).
  destruct (text_is_normalized_spec _ Hcp) as (b3 & -> & Hb3). rewrite (proj2 Hb3 Hct). cbn [mbind option_bind negb orb].
  rewrite rd_slice_inside by (unfold BOARD_MATERIAL_SIZE in *; lia). cbn [mbind option_bind].
  change (slice (sc_board_material c) 0 (sc_board_material_len c)) with (board_of c). by destruct (hash (board_of c)).
Qed.

(** ** Properties *)

(** C32: the collector reads an SMBIOS table as the sequence of its records.  Walking
    a table always returns and keeps the collector well-formed, whatever the
    octets are.  It succeeds exactly when the table starts with well-formed
    records, each a formatted area of the length it states and a set of strings
    that ends at the first two zero octets, of which only the last one ends the
    table, when what they say can be gathered, and when nothing follows if an
    exact end is required; the collector then holds the single-spaced texts, the
    length-prefixed identity of the first board and the sum of the memory sizes
    that those records give.  Finishing such a collector hashes exactly the
    identity of the board. *)
Theorem smbios_table_refines (c : pbns_inventory_smbios_collector) (p : Z) (table : bytes) (exact : bool)
  (hash : pbns_inventory_hash_fn) (digest0 : bytes) :
  0 < p -> bytes_ok table -> table <> [] -> collector_ok c ->
  exists st c', pbns_inventory_smbios_consume_table (Some c) (mk_view p table) exact = Some (st, Some c') /\ collector_ok c'
  /\ (st = PBNS_OK <-> exists rs rest q, table = concat (map record_octets rs) ++ rest /\ Forall record_ok rs
        /\ gather (platform_of c) rs = Some q /\ pf_ended q = true /\ (exact = true -> rest = []))
  /\ (forall rs rest q, table = concat (map record_octets rs) ++ rest -> Forall record_ok rs ->
        gather (platform_of c) rs = Some q -> pf_ended q = true -> (exact = true -> rest = []) -> platform_of c' = q)
  /\ (st = PBNS_OK -> pbns_inventory_smbios_finish (Some c') (Some hash) (Some digest0)
        = Some (fst (hash (pf_board (platform_of c'))), Some (snd (hash (pf_board (platform_of c')))))).
Proof.
  intros Hp Hok Hne Hc. destruct (consume_table_reads c p table exact Hp Hok Hne Hc) as (st & c' & rest0 & E & Hc' & He & Hiff).
  exists st, c'. split; [done|]. split; [done|]. split; [|split].
  - split.
    + intros ->. destruct (proj2 (Hiff (platform_of c') rest0)) as [(rs & Et & Hrs & Eg & Hq) Hx]; [done|]. by exists rs, rest0, (platform_of c').
    + intros (rs & rest & q & Et & Hrs & Eg & Hq & Hx). destruct (proj1 (Hiff q rest)) as (? & _); [split; [by exists rs|done]|done].
  - intros rs rest q Et Hrs Eg Hq Hx. destruct (proj1 (Hiff q rest)) as (_ & ? & _); [split; [by exists rs|done]|done].
  - intros Hst. apply smbios_finish_spec; auto.
Qed.

(** ** Witness *)

(** A BIOS structure with two strings, a board, a memory device and the end. *)
Definition ex_table : bytes :=
  [0; 6; 0; 0; 1; 2] ++ [32; 65; 9; 32; 66; 0; 49; 46; 48; 0; 0]
  ++ [2; 7; 1; 0; 1; 0; 2] ++ [88; 0; 89; 0; 0]
  ++ [17; 14; 2; 0; 0; 0; 0; 0; 0; 0; 0; 0; 0; 16] ++ [0; 0] ++ [127; 4; 3; 0; 0; 0].

Lemma zero_collector_ok : collector_ok zero_collector.
Proof.
  assert (Ht : text_ok zero_text) by (split; [exact zero_text_sized|exists []; split; [constructor|done]]).
  split; [exact Ht|]. split; [exact Ht|]. split; [exact Ht|]. vm_compute. intuition discriminate.
Qed.

Lemma smbios_table_refines_witness :
  exists c', pbns_inventory_smbios_consume_table (Some zero_collector) (mk_view 4096 ex_table) true = Some (PBNS_OK, Some c')
  /\ platform_of c' = mk_platform [65; 32; 66] [49; 46; 48] [] [1; 88; 0; 1; 89] 4096 4 true
  /\ pbns_inventory_smbios_finish (Some c') (Some (fun l => (PBNS_OK, l))) (Some []) = Some (PBNS_OK, Some [1; 88; 0; 1; 89]).
Proof.
  destruct (smbios_table_refines zero_collector 4096 ex_table true (fun l => (PBNS_OK, l)) []) as (st & c' & E & _ & Hiff & Hq & Hfin).
  - lia.
  - vm_compute. repeat (apply Forall_cons_iff; split; [split; [discriminate|reflexivity]|]). constructor.
  - discriminate.
  - exact zero_collector_ok.
  - set (rs := [mk_record [0; 6; 0; 0; 1; 2] [[32; 65; 9; 32; 66]; [49; 46; 48]]; mk_record [2; 7; 1; 0; 1; 0; 2] [[88]; [89]];
      mk_record [17; 14; 2; 0; 0; 0; 0; 0; 0; 0; 0; 0; 0; 16] [[]]; mk_record [127; 4; 3; 0] [[]]]).
    assert (Hrs : Forall record_ok rs).
    { repeat (apply Forall_cons_iff; split); try solve [constructor];
        (split; [vm_compute; discriminate|]; split; [reflexivity|]; split; [|vm_compute; discriminate]);
        (split; [discriminate|]; split; repeat (apply Forall_cons_iff; split); try solve [constructor]; try discriminate);
        repeat (apply Forall_cons_iff; split; [discriminate|]); constructor. }
    assert (Hst : st = PBNS_OK) by (apply Hiff; exists rs, []; eexists; split; [reflexivity|]; split; [exact Hrs|]; split; [vm_compute; reflexivity|]; done).
    subst st. exists c'. split; [exact E|].
    assert (Ep : platform_of c' = mk_platform [65; 32; 66] [49; 46; 48] [] [1; 88; 0; 1; 89] 4096 4 true)
      by (apply (Hq rs []); [reflexivity|exact Hrs|vm_compute; reflexivity|done|done]).
    split; [exact Ep|]. specialize (Hfin eq_refl). rewrite Ep in Hfin. exact Hfin.
Defined.
