(* ===== verification/Insertion.v ===== *)
(** * Insertion into a sorted array

    The inventory keeps arrays in order by moving the greater elements up one
    place, from the end, and storing the new element in the gap.  The file gives
    this loop over any element type, and the insertion sort built from it: the
    result is the sorted permutation. *)

From stdpp Require Import base list numbers sorting.
From Stdlib Require Import ZArith Lia.
From S2P Require Import Prelude.

(** ** The loops *)

(** [while (position != 0 && above (values[position - 1]))
       { values[position] = values[position - 1]; --position; }
     values[position] = value] *)
Fixpoint insert_shift {A} (above : A -> bool) (value : A) (values : list A) (position : nat) : option (list A) :=
  match position with
  | O => wr values 0 value
  | S before =>
      previous ← rd values (Z.of_nat before);
      if above previous then
        values ← wr values (Z.of_nat position) previous;
        insert_shift above value values before
      else wr values (Z.of_nat position) value
  end.

(** [for (index = 1; index < count; ++index)] with the insertion of
    [values[index]]; [rounds] is [count - index]. *)
Fixpoint insertion_sort {A} (above : A -> A -> bool) (values : list A) (index : nat) (rounds : nat) : option (list A) :=
  match rounds with
  | O => Some values
  | S rounds =>
      value ← rd values (Z.of_nat index);
      values ← insert_shift (above value) value values index;
      insertion_sort above values (S index) rounds
  end.

(** ** What they do *)

(** Only the values of the comparison matter. *)
Lemma insert_shift_ext {A} (f g : A -> bool) value position : (forall y, f y = g y) ->
  forall values, insert_shift f value values position = insert_shift g value values position.
Proof.
  intros Hfg. induction position as [|q IH]; intros values; [done|]. cbn [insert_shift].
  destruct (rd values _) as [y|]; [|done]. cbn [mbind option_bind]. rewrite Hfg. destruct (g y); [|done].
  destruct (wr values _ y); [|done]. apply IH.
Qed.

Lemma insertion_sort_ext {A} (f g : A -> A -> bool) rounds : (forall x y, f x y = g x y) ->
  forall values index, insertion_sort f values index rounds = insertion_sort g values index rounds.
Proof.
  intros Hfg. induction rounds as [|rounds IH]; intros values index; [done|]. cbn [insertion_sort]. destruct (rd values _) as [x|]; [|done].
  cbn [mbind option_bind]. rewrite (insert_shift_ext (f x) (g x)) by done. destruct (insert_shift _ _ _ _); [|done]. apply IH.
Qed.

Section insertion.
Context {A : Type} (R : relation A) `{!Transitive R, !Total R, forall x y, Decision (R x y)}.
Implicit Types l pre rest : list A.

(** [y] belongs behind [value]. *)
Definition above (value y : A) : bool := negb (bool_decide (R y value)).

Lemma insert_shift_spec before value pre : forall x rest,
  exists l1 l2, pre = l1 ++ l2 /\ Forall (fun y => before y = true) l2 /\ (forall y l, l1 = l ++ [y] -> before y = false)
  /\ insert_shift before value (pre ++ x :: rest) (length pre) = Some (l1 ++ value :: l2 ++ rest).
Proof.
  induction pre as [|y pre IH] using rev_ind; intros x rest.
  { exists [], []. split; [done|]. split; [constructor|]. split; [by intros y l ?%(f_equal length); rewrite length_app in H0; cbn in H0; lia|].
    done. }
  replace (length (pre ++ [y])) with (S (length pre)) by llia. cbn [insert_shift]. rewrite <- app_assoc. cbn [app].
  rewrite rd_app_head by done. cbn [mbind option_bind]. destruct (before y) eqn:Ey.
  - replace (pre ++ y :: x :: rest) with ((pre ++ [y]) ++ x :: rest) by (by rewrite <- app_assoc).
    rewrite wr_app_head by llia. cbn [mbind option_bind]. rewrite <- app_assoc. cbn [app].
    destruct (IH y (y :: rest)) as (l1 & l2 & -> & Hl2 & Hl1 & ->). exists l1, (l2 ++ [y]). split; [by rewrite app_assoc|].
    split; [apply Forall_app; split; [done|by repeat constructor]|]. split; [done|]. by rewrite <- app_assoc.
  - exists (pre ++ [y]), []. split; [by rewrite app_nil_r|]. split; [constructor|]. split.
    + intros z l E. apply app_inj_tail in E as [_ <-]. done.
    + replace (pre ++ y :: x :: rest) with ((pre ++ [y]) ++ x :: rest) by (by rewrite <- app_assoc). by rewrite wr_app_head by llia.
Qed.

Lemma above_false value y : above value y = false <-> R y value.
Proof. unfold above. rewrite negb_false_iff. apply bool_decide_eq_true. Qed.

Lemma above_true value y : above value y = true -> R value y.
Proof. unfold above. rewrite negb_true_iff, bool_decide_eq_false. intros Hn. by destruct (total R value y). Qed.

(** Inserting into a sorted prefix gives a sorted prefix with one element more. *)
Lemma insert_shift_sorted value pre x rest : StronglySorted R pre ->
  exists pre', insert_shift (above value) value (pre ++ x :: rest) (length pre) = Some (pre' ++ rest)
  /\ StronglySorted R pre' /\ pre' ≡ₚ value :: pre.
Proof.
  intros Hs. destruct (insert_shift_spec (above value) value pre x rest) as (l1 & l2 & -> & Hl2 & Hl1 & E).
  exists (l1 ++ value :: l2). split; [by rewrite E, <- app_assoc|]. split; [|by rewrite Permutation_middle].
  apply StronglySorted_app in Hs as (Hle & Hs1 & Hs2). apply StronglySorted_app. split; [|split; [done|]].
  - assert (Hv : forall y, y ∈ l1 -> R y value).
    { destruct l1 as [|z l1 _] using rev_ind; [by intros y ?%elem_of_nil|]. assert (Hz : R z value) by (apply above_false; by apply (Hl1 z l1)).
      apply StronglySorted_app in Hs1 as (Hle1 & _). intros y [Hy|Hy%list_elem_of_singleton]%elem_of_app; [|by subst].
      etransitivity; [|exact Hz]. apply Hle1; [done|]. by apply list_elem_of_singleton. }
    intros y w Hy Hw. apply elem_of_cons in Hw as [->|Hw]; [by apply Hv|]. by apply Hle.
  - constructor; [done|]. apply Forall_forall. intros w Hw. apply above_true. apply list_elem_of_In in Hw. rewrite Forall_forall in Hl2. by apply Hl2, list_elem_of_In.
Qed.

Lemma insertion_sort_spec rounds : forall pre rest tl, StronglySorted R pre -> length rest = rounds ->
  exists pre', insertion_sort above (pre ++ rest ++ tl) (length pre) rounds = Some (pre' ++ tl)
  /\ StronglySorted R pre' /\ pre' ≡ₚ pre ++ rest.
Proof.
  induction rounds as [|rounds IH]; intros pre rest tl Hs Hr.
  { destruct rest; [|done]. exists pre. rewrite app_nil_r. done. }
  destruct rest as [|x rest]; [done|]. injection Hr as Hr. cbn [insertion_sort app]. rewrite rd_app_head by done. cbn [mbind option_bind].
  destruct (insert_shift_sorted x pre x (rest ++ tl) Hs) as (pre1 & -> & Hs1 & Hp1). cbn [mbind option_bind].
  replace (S (length pre)) with (length pre1) by (by rewrite Hp1).
  destruct (IH pre1 rest tl Hs1 Hr) as (pre' & -> & Hs' & Hp'). exists pre'. split; [done|]. split; [done|].
  rewrite Hp', Hp1. cbn [app]. by rewrite Permutation_middle.
Qed.

(** The sort from index 1 on, over the first [n] elements. *)
Lemma insertion_sort_prefix l tl : exists l', insertion_sort above (l ++ tl) 1 (length l - 1) = Some (l' ++ tl)
  /\ StronglySorted R l' /\ l' ≡ₚ l.
Proof.
  destruct l as [|x l]; [exists []; repeat split; try done; constructor|]. cbn [length]. rewrite Nat.sub_succ, Nat.sub_0_r.
  apply (insertion_sort_spec (length l) [x] l tl); [|done]. repeat constructor.
Qed.
End insertion.
