(* ===== verification/Inventory.v ===== *)
(** * The platform inventory ([include/pbns/inventory.h], [src/core/inventory.c])

    The collectors of PCI functions, storage and Secure Boot variables, and the
    report: collected from the inputs with its lists in order, validated and
    encoded as CBOR. *)

From stdpp Require Import base list numbers.
From Stdlib Require Import ZArith Lia.
From S2P Require Import Prelude Endian Status Buffers Cbor CborTree InventoryText Smbios Insertion.

(** ** Capabilities and banks *)

Definition PBNS_INVENTORY_DIGEST_SIZE : Z := 32.
Definition PBNS_INVENTORY_PCI_FUNCTION_MAX : Z := 256.
Definition PBNS_INVENTORY_BLOCK_DEVICE_MAX : Z := 64.
Definition PBNS_INVENTORY_ENCODED_MAX_SIZE : Z := 65536.
Definition PBNS_INVENTORY_VARIABLE_MAX_SIZE : Z := 65536.
Definition PBNS_INVENTORY_TPM_BANK_MAX : Z := 8.
Definition PBNS_INVENTORY_TIMING_MAX : Z := 8.
Definition PBNS_INVENTORY_PCI_TUPLE_SIZE : Z := 12.

(** The enumerations are integers: the code checks their range. *)
Definition PBNS_INVENTORY_OK : Z := 0.
Definition PBNS_INVENTORY_ABSENT : Z := 1.
Definition PBNS_INVENTORY_UNSUPPORTED : Z := 2.
Definition PBNS_INVENTORY_MALFORMED : Z := 3.
Definition PBNS_INVENTORY_LIMIT : Z := 4.
Definition PBNS_INVENTORY_ERROR : Z := 5.

Definition capability_valid (value : Z) : bool := (PBNS_INVENTORY_OK <=? value) && (value <=? PBNS_INVENTORY_ERROR).

Definition pbns_inventory_classify_platform_result (result : Z) : Z :=
  match result with
  | 0 => PBNS_INVENTORY_OK
  | 1 => PBNS_INVENTORY_ABSENT
  | 2 => PBNS_INVENTORY_UNSUPPORTED
  | 3 => PBNS_INVENTORY_MALFORMED
  | 4 => PBNS_INVENTORY_LIMIT
  | _ => PBNS_INVENTORY_ERROR
  end.

(** The bits of the TCG bitmap and their algorithms. *)
Definition known_banks : list (Z * Z) := [(0x01, 0x0004); (0x02, 0x000b); (0x04, 0x000c); (0x08, 0x000d); (0x10, 0x0012)].

Fixpoint count_banks (active_bitmap : Z) (known : list (Z * Z)) (active_count : Z) : Z :=
  match known with
  | [] => active_count
  | (bitmap, _) :: known =>
      count_banks active_bitmap known (if negb (Z.land active_bitmap bitmap =? 0) then active_count + 1 else active_count)
  end.

Fixpoint store_banks (active_bitmap : Z) (known : list (Z * Z)) (banks : list Z) (bank_count : Z) : option (list Z * Z) :=
  match known with
  | [] => Some (banks, bank_count)
  | (bitmap, algorithm) :: known =>
      if negb (Z.land active_bitmap bitmap =? 0) then
        banks ← wr banks bank_count algorithm;
        store_banks active_bitmap known banks (bank_count + 1)
      else store_banks active_bitmap known banks bank_count
  end.

(** The status, the array and [*bank_count]; [bank_capacity] is the caller's word
    for the length of the array. *)
Definition pbns_inventory_tpm_active_banks (active_bitmap supported_bank_count : Z) (banks : ptr (list Z)) (bank_capacity : Z)
  (bank_count : ptr Z) : option (pbns_status * ptr (list Z) * ptr Z) :=
  match banks, bank_count with
  | Some array, Some _ =>
      if negb (Z.land active_bitmap (UINT32_MAX - 0x1f) =? 0) || (active_bitmap =? 0) then Some (PBNS_ERR_UNSUPPORTED, banks, Some 0)
      else
      let active_count := count_banks active_bitmap known_banks 0 in
      if (supported_bank_count =? 0) || (supported_bank_count <? active_count) then Some (PBNS_ERR_FORMAT, banks, Some 0)
      else if bank_capacity <? active_count then Some (PBNS_ERR_LIMIT, banks, Some 0)
      else
      '(array, count) ← store_banks active_bitmap known_banks array 0;
      Some (PBNS_OK, Some array, Some count)
  | _, _ => Some (PBNS_ERR_ARGUMENT, banks, bank_count)
  end.

(** ** PCI functions *)

Record pbns_inventory_pci_function := mk_pci_function {
  pci_segment : Z;
  pci_bus : Z;
  pci_device : Z;
  pci_function : Z;
  pci_vendor_id : Z;
  pci_device_id : Z;
  pci_class_code : Z;
  pci_subclass : Z;
  pci_prog_if : Z;
}.

Definition encode_pci_tuple (f : pbns_inventory_pci_function) : bytes :=
  [u8 (Z.shiftr (pci_segment f) 8); u8 (pci_segment f); pci_bus f; pci_device f; pci_function f;
   u8 (Z.shiftr (pci_vendor_id f) 8); u8 (pci_vendor_id f); u8 (Z.shiftr (pci_device_id f) 8); u8 (pci_device_id f);
   pci_class_code f; pci_subclass f; pci_prog_if f].

(** [memcmp (a, b, n) < 0], which compares runs of one length. *)
Fixpoint memcmp_less (a b : bytes) : bool :=
  match a, b with
  | x :: a, y :: b => if x =? y then memcmp_less a b else x <? y
  | [], _ :: _ => true
  | _, [] => false
  end.

(** The rows of [tuples] and [function_count]. *)
Record pbns_inventory_pci_collector := mk_pci_collector { pc_tuples : list bytes; pc_function_count : Z }.

Definition pbns_inventory_pci_add (collector : ptr pbns_inventory_pci_collector) (function : ptr pbns_inventory_pci_function)
  : option (pbns_status * ptr pbns_inventory_pci_collector) :=
  match collector, function with
  | Some c, Some f =>
      if (31 <? pci_device f) || (7 <? pci_function f) then Some (PBNS_ERR_FORMAT, Some c)
      else if PBNS_INVENTORY_PCI_FUNCTION_MAX <=? pc_function_count c then Some (PBNS_ERR_LIMIT, Some c)
      else
      let tuple := encode_pci_tuple f in
      tuples ← insert_shift (memcmp_less tuple) tuple (pc_tuples c) (Z.to_nat (pc_function_count c));
      Some (PBNS_OK, Some (mk_pci_collector tuples (pc_function_count c + 1)))
  | _, _ => Some (PBNS_ERR_ARGUMENT, collector)
  end.

Definition pbns_inventory_pci_finish (collector : ptr pbns_inventory_pci_collector) (hash : ptr pbns_inventory_hash_fn)
  (digest : ptr bytes) : option (pbns_status * ptr bytes) :=
  match collector, hash, digest with
  | Some c, Some hash, Some _ =>
      if PBNS_INVENTORY_PCI_FUNCTION_MAX <? pc_function_count c then Some (PBNS_ERR_ARGUMENT, digest)
      else
      octets ← rd_slice (concat (pc_tuples c)) 0 (pc_function_count c * PBNS_INVENTORY_PCI_TUPLE_SIZE);
      let '(status, digest) := hash octets in
      Some (status, Some digest)
  | _, _, _ => Some (PBNS_ERR_ARGUMENT, digest)
  end.

(** ** Storage *)

Record pbns_inventory_block_device := mk_block_device {
  bd_last_block : Z;
  bd_block_size : Z;
  bd_removable : bool;
  bd_logical_partition : bool;
}.

Record pbns_inventory_storage_collector := mk_storage { st_count : Z; st_total_bytes : Z }.

Definition pbns_inventory_storage_add (collector : ptr pbns_inventory_storage_collector) (device : ptr pbns_inventory_block_device)
  : pbns_status * ptr pbns_inventory_storage_collector :=
  match collector, device with
  | Some c, Some d =>
      if bd_removable d || bd_logical_partition d then (PBNS_OK, Some c)
      else if PBNS_INVENTORY_BLOCK_DEVICE_MAX <=? st_count c then (PBNS_ERR_LIMIT, Some c)
      else if (bd_block_size d =? 0) || (bd_last_block d =? UINT64_MAX) then (PBNS_ERR_LIMIT, Some c)
      else
      let block_count := u64 (bd_last_block d + 1) in
      if UINT64_MAX / bd_block_size d <? block_count then (PBNS_ERR_LIMIT, Some c)
      else
      let octets := u64 (block_count * bd_block_size d) in
      if UINT64_MAX - st_total_bytes c <? octets then (PBNS_ERR_LIMIT, Some c)
      else (PBNS_OK, Some (mk_storage (st_count c + 1) (u64 (st_total_bytes c + octets))))
  | _, _ => (PBNS_ERR_ARGUMENT, collector)
  end.

(** ** Variables *)

(** "PBNS UEFI VARIABLE ABSENT V1" and "PBNS UEFI VARIABLE PRESENT V1" *)
Definition absent_domain : bytes :=
  [80; 66; 78; 83; 32; 85; 69; 70; 73; 32; 86; 65; 82; 73; 65; 66; 76; 69; 32; 65; 66; 83; 69; 78; 84; 32; 86; 49].
Definition present_domain : bytes :=
  [80; 66; 78; 83; 32; 85; 69; 70; 73; 32; 86; 65; 82; 73; 65; 66; 76; 69; 32; 80; 82; 69; 83; 69; 78; 84; 32; 86; 49].

(** A hash function over several views: the status and the digest. *)
Definition pbns_inventory_hash_parts_fn : Type := list bytes -> pbns_status * bytes.

Definition variable_metadata (attributes length : Z) : bytes :=
  [u8 (Z.shiftr attributes 24); u8 (Z.shiftr attributes 16); u8 (Z.shiftr attributes 8); u8 attributes;
   u8 (Z.shiftr length 56); u8 (Z.shiftr length 48); u8 (Z.shiftr length 40); u8 (Z.shiftr length 32);
   u8 (Z.shiftr length 24); u8 (Z.shiftr length 16); u8 (Z.shiftr length 8); u8 length].

Definition pbns_inventory_hash_variable (hash : ptr pbns_inventory_hash_parts_fn) (present : bool) (attributes : Z)
  (variable : pbns_view) (digest : ptr bytes) : pbns_status * ptr bytes :=
  match hash, digest with
  | Some hash, Some _ =>
      if (PBNS_INVENTORY_VARIABLE_MAX_SIZE <? v_len variable) || negb (view_is_valid variable) then (PBNS_ERR_ARGUMENT, digest)
      else if negb present then
        if negb (attributes =? 0) || negb (v_ptr variable =? 0) || negb (v_len variable =? 0) then (PBNS_ERR_ARGUMENT, digest)
        else let '(status, digest) := hash [absent_domain] in (status, Some digest)
      else let '(status, digest) := hash [present_domain; variable_metadata attributes (v_len variable); v_data variable] in
           (status, Some digest)
  | _, _ => (PBNS_ERR_ARGUMENT, digest)
  end.

(** ** The report *)

Record pbns_inventory_timing := mk_timing { tm_key : Z; tm_microseconds : Z }.

Record pbns_inventory_secure_boot_input := mk_secure_boot_input {
  sb_status : Z;
  sb_secure_boot : bool;
  sb_setup_mode : bool;
  sb_db_digest : bytes;
  sb_dbx_digest : bytes;
}.

Record pbns_inventory_tpm_input := mk_tpm_input {
  tpm_status : Z;
  tpm_present : bool;
  tpm_manufacturer : Z;
  tpm_firmware_version : Z;
  tpm_active_banks : ptr (list Z);
  tpm_active_bank_count : Z;
}.

Record pbns_inventory_inputs := mk_inputs {
  in_host_fingerprint : pbns_view;
  in_smbios_status : Z;
  in_firmware_vendor : pbns_inventory_text;
  in_firmware_version : pbns_inventory_text;
  in_cpu_class : pbns_inventory_text;
  in_memory_mib : Z;
  in_board_model_digest : bytes;
  in_pci_status : Z;
  in_pci_digest : bytes;
  in_storage_status : Z;
  in_block_device_count : Z;
  in_storage_capacity_gib : Z;
  in_secure_boot : pbns_inventory_secure_boot_input;
  in_tpm : pbns_inventory_tpm_input;
  in_pbns_version : Z;
  in_pico_version : Z;
  in_gateway_version : Z;
  in_timings : ptr (list pbns_inventory_timing);
  in_timing_count : Z;
  in_prior_loader_efi_status : Z;
}.

Record pbns_inventory_report := mk_report {
  rp_host_fingerprint : bytes;
  rp_board_model_digest : bytes;
  rp_firmware_vendor : pbns_inventory_text;
  rp_firmware_version : pbns_inventory_text;
  rp_cpu_class : pbns_inventory_text;
  rp_memory_mib : Z;
  rp_pci_digest : bytes;
  rp_block_device_count : Z;
  rp_storage_capacity_gib : Z;
  rp_secure_boot : bool;
  rp_setup_mode : bool;
  rp_db_digest : bytes;
  rp_dbx_digest : bytes;
  rp_tpm_present : bool;
  rp_tpm_manufacturer : Z;
  rp_tpm_firmware_version : Z;
  rp_tpm_active_banks : list Z;
  rp_tpm_active_bank_count : Z;
  rp_pbns_version : Z;
  rp_pico_version : Z;
  rp_gateway_version : Z;
  rp_outcomes : list Z;
  rp_timings : list pbns_inventory_timing;
  rp_timing_count : Z;
  rp_prior_loader_efi_status : Z;
}.

Definition zero_timing : pbns_inventory_timing := mk_timing 0 0.

Definition zero_report : pbns_inventory_report :=
  mk_report (replicate 32 0) (replicate 32 0) zero_text zero_text zero_text 0 (replicate 32 0) 0 0 false false
    (replicate 32 0) (replicate 32 0) false 0 0 (replicate 8 0) 0 0 0 0 (replicate 5 0) (replicate 8 zero_timing) 0 0.

(** [values[position - 1] > value] and the same on keys. *)
Definition u32_above (value previous : Z) : bool := value <? previous.
Definition timing_above (value previous : pbns_inventory_timing) : bool := tm_key value <? tm_key previous.

Definition sort_u32 (values : list Z) (count : Z) : option (list Z) := insertion_sort u32_above values 1 (Z.to_nat count - 1).
Definition sort_timings (values : list pbns_inventory_timing) (count : Z) : option (list pbns_inventory_timing) :=
  insertion_sort timing_above values 1 (Z.to_nat count - 1).

(** [memcpy] of [count] elements into a cleared array, then the sort. *)
Definition copy_sorted {A} (sort : list A -> Z -> option (list A)) (array : list A) (source : ptr (list A)) (count : Z) : option (list A) :=
  if count =? 0 then Some array
  else
  from ← source;
  elements ← rd_slice from 0 count;
  array ← wr_list array 0 elements;
  sort array count.

(** The loop that refuses a zero key or a key twice, from [index] on. *)
Fixpoint timings_distinct (timings : list pbns_inventory_timing) (index : Z) (rounds : nat) : option bool :=
  match rounds with
  | O => Some true
  | S rounds =>
      timing ← rd timings index;
      if tm_key timing =? 0 then Some false
      else if negb (index =? 0) then
        previous ← rd timings (index - 1);
        if tm_key previous =? tm_key timing then Some false else timings_distinct timings (index + 1) rounds
      else timings_distinct timings (index + 1) rounds
  end.

Definition texts_normalized (vendor version cpu : pbns_inventory_text) : option bool :=
  vendor ← pbns_inventory_text_is_normalized (Some vendor);
  version ← pbns_inventory_text_is_normalized (Some version);
  cpu ← pbns_inventory_text_is_normalized (Some cpu);
  Some (vendor && version && cpu).

(** The checks of the inputs. *)
Definition inputs_valid (i : pbns_inventory_inputs) : option bool :=
  if (v_ptr (in_host_fingerprint i) =? 0) || negb (v_len (in_host_fingerprint i) =? PBNS_INVENTORY_DIGEST_SIZE)
     || negb (capability_valid (in_smbios_status i)) || negb (capability_valid (in_pci_status i))
     || negb (capability_valid (in_storage_status i)) || negb (capability_valid (sb_status (in_secure_boot i)))
     || negb (capability_valid (tpm_status (in_tpm i))) then Some false
  else
  normalized ← texts_normalized (in_firmware_vendor i) (in_firmware_version i) (in_cpu_class i);
  Some (normalized && negb ((PBNS_INVENTORY_BLOCK_DEVICE_MAX <? in_block_device_count i)
    || (PBNS_INVENTORY_TIMING_MAX <? in_timing_count i) || (PBNS_INVENTORY_TPM_BANK_MAX <? tpm_active_bank_count (in_tpm i))
    || (negb (in_timing_count i =? 0) && match in_timings i with None => true | Some _ => false end)
    || (negb (tpm_active_bank_count (in_tpm i) =? 0) && match tpm_active_banks (in_tpm i) with None => true | Some _ => false end))).

(** The status and the report; a refused argument leaves it alone. *)
Definition pbns_inventory_collect (inputs : ptr pbns_inventory_inputs) (report : ptr pbns_inventory_report)
  : option (pbns_status * ptr pbns_inventory_report) :=
  match inputs, report with
  | Some i, Some _ =>
      valid ← inputs_valid i;
      if negb valid then Some (PBNS_ERR_ARGUMENT, report)
      else
      banks ← copy_sorted sort_u32 (rp_tpm_active_banks zero_report) (tpm_active_banks (in_tpm i)) (tpm_active_bank_count (in_tpm i));
      timings ← copy_sorted sort_timings (rp_timings zero_report) (in_timings i) (in_timing_count i);
      distinct ← timings_distinct timings 0 (Z.to_nat (in_timing_count i));
      if negb distinct then Some (PBNS_ERR_ARGUMENT, Some zero_report)
      else
      Some (PBNS_OK, Some (mk_report (v_data (in_host_fingerprint i)) (in_board_model_digest i)
        (in_firmware_vendor i) (in_firmware_version i) (in_cpu_class i) (in_memory_mib i) (in_pci_digest i)
        (in_block_device_count i) (in_storage_capacity_gib i) (sb_secure_boot (in_secure_boot i)) (sb_setup_mode (in_secure_boot i))
        (sb_db_digest (in_secure_boot i)) (sb_dbx_digest (in_secure_boot i)) (tpm_present (in_tpm i)) (tpm_manufacturer (in_tpm i))
        (tpm_firmware_version (in_tpm i)) banks (tpm_active_bank_count (in_tpm i)) (in_pbns_version i) (in_pico_version i)
        (in_gateway_version i)
        [in_smbios_status i; in_pci_status i; in_storage_status i; sb_status (in_secure_boot i); tpm_status (in_tpm i)]
        timings (in_timing_count i) (in_prior_loader_efi_status i)))
  | _, _ => Some (PBNS_ERR_ARGUMENT, report)
  end.

Fixpoint banks_ordered (banks : list Z) (index : Z) (rounds : nat) : option bool :=
  match rounds with
  | O => Some true
  | S rounds =>
      previous ← rd banks (index - 1);
      bank ← rd banks index;
      if bank <? previous then Some false else banks_ordered banks (index + 1) rounds
  end.

Fixpoint timings_ordered (timings : list pbns_inventory_timing) (index : Z) (rounds : nat) : option bool :=
  match rounds with
  | O => Some true
  | S rounds =>
      timing ← rd timings index;
      if tm_key timing =? 0 then Some false
      else if negb (index =? 0) then
        previous ← rd timings (index - 1);
        if tm_key timing <=? tm_key previous then Some false else timings_ordered timings (index + 1) rounds
      else timings_ordered timings (index + 1) rounds
  end.

Definition report_valid (report : ptr pbns_inventory_report) : option bool :=
  match report with
  | None => Some false
  | Some r =>
      normalized ← texts_normalized (rp_firmware_vendor r) (rp_firmware_version r) (rp_cpu_class r);
      if negb normalized || (PBNS_INVENTORY_BLOCK_DEVICE_MAX <? rp_block_device_count r)
         || (PBNS_INVENTORY_TPM_BANK_MAX <? rp_tpm_active_bank_count r) || (PBNS_INVENTORY_TIMING_MAX <? rp_timing_count r)
      then Some false
      else
      outcomes ← rd_slice (rp_outcomes r) 0 5;
      if negb (forallb capability_valid outcomes) then Some false
      else
      ordered ← banks_ordered (rp_tpm_active_banks r) 1 (Z.to_nat (rp_tpm_active_bank_count r) - 1);
      if negb ordered then Some false
      else timings_ordered (rp_timings r) 0 (Z.to_nat (rp_timing_count r))
  end.

Definition uint_field (label value : Z) : Z * cbor_tree := leaf (label, CUInt value).
Definition bytes_field (label : Z) (value : bytes) : Z * cbor_tree := leaf (label, CBytes value).

(** The numbered_fields values of a map, the labels from [first] on. *)
Fixpoint numbered_fields (first : Z) (values : list Z) : list (Z * cbor_tree) :=
  match values with
  | [] => []
  | v :: values => uint_field first v :: numbered_fields (first + 1) values
  end.

(** What the encoder calls write. *)
Definition report_tree (r : pbns_inventory_report) : cbor_tree :=
  TMap [bytes_field 1 (rp_host_fingerprint r); bytes_field 2 (rp_board_model_digest r);
        leaf (3, CText (text_of (rp_firmware_vendor r))); leaf (4, CText (text_of (rp_firmware_version r)));
        leaf (5, CText (text_of (rp_cpu_class r))); uint_field 6 (rp_memory_mib r); bytes_field 7 (rp_pci_digest r);
        (8, TMap [uint_field 1 (rp_block_device_count r); uint_field 2 (rp_storage_capacity_gib r)]);
        (9, TBool (rp_secure_boot r)); (10, TBool (rp_setup_mode r)); bytes_field 11 (rp_db_digest r); bytes_field 12 (rp_dbx_digest r);
        (13, TMap [(1, TBool (rp_tpm_present r)); uint_field 2 (rp_tpm_manufacturer r); uint_field 3 (rp_tpm_firmware_version r);
                   (4, TArray (map (fun v => TValue (CUInt v)) (take (Z.to_nat (rp_tpm_active_bank_count r)) (rp_tpm_active_banks r))))]);
        (14, TMap [uint_field 1 (rp_pbns_version r); uint_field 2 (rp_pico_version r); uint_field 3 (rp_gateway_version r)]);
        (15, TMap (numbered_fields 1 (rp_outcomes r)));
        (16, TMap (map (fun t => uint_field (tm_key t) (tm_microseconds t)) (take (Z.to_nat (rp_timing_count r)) (rp_timings r))));
        uint_field 17 (rp_prior_loader_efi_status r)].

Section code.
Context `{QCBORSpiffy}.

(** The status, the octets of the output and [*written]. *)
Definition pbns_inventory_encode (report : ptr pbns_inventory_report) (output : pbns_buffer) (written : ptr Z)
  : option (pbns_status * bytes * ptr Z) :=
  valid ← report_valid report;
  match report, written with
  | Some r, Some _ =>
      if negb valid || (b_ptr output =? 0) || negb (b_len output =? 0) || (b_cap output =? 0)
         || (PBNS_INVENTORY_ENCODED_MAX_SIZE <? b_cap output) then Some (PBNS_ERR_ARGUMENT, b_data output, written)
      else
      let '(error, encoded, data) := QCBOREncode_tree (report_tree r) (b_data output) in
      match error with
      | QCBOR_ERR_BUFFER_TOO_SMALL => Some (PBNS_ERR_LIMIT, data, Some 0)
      | QCBOR_ERR_OTHER => Some (PBNS_ERR_FORMAT, data, Some 0)
      | QCBOR_SUCCESS =>
          if (zlen encoded =? 0) || (b_cap output <? zlen encoded) || (PBNS_INVENTORY_ENCODED_MAX_SIZE <? zlen encoded)
          then Some (PBNS_ERR_FORMAT, data, Some 0)
          else Some (PBNS_OK, data, Some (zlen encoded))
      end
  | _, _ => Some (PBNS_ERR_ARGUMENT, b_data output, written)
  end.
End code.
