(* ===== verification/PciInventory.v ===== *)
(** * The PCI inventory does not depend on the order of enumeration

    The collector keeps the tuples of the functions in the order of [memcmp], so
    the digest of the inventory is that of the sorted list: the same functions
    give the same digest in any order, and the hashed octets determine them. *)

From stdpp Require Import base list numbers sorting.
From Stdlib Require Import ZArith Lia.
From S2P Require Import Prelude Endian Status Buffers InventoryText Smbios Insertion Inventory.

(** ** The order of [memcmp] *)

Definition tuple_le (a b : bytes) : Prop := memcmp_less b a = false.

#[export] Instance tuple_le_dec a b : Decision (tuple_le a b).
Proof. unfold tuple_le. apply _. Defined.

Lemma memcmp_less_trans a : forall b c, memcmp_less a b = true -> memcmp_less b c = true -> memcmp_less a c = true.
Proof.
  induction a as [|x a IH]; intros [|y b] [|z c]; cbn; try done.
  intros H1 H2. destruct (Z.eqb_spec x z) as [->|Hxz], (Z.eqb_spec y z) as [->|Hyz]; try rewrite Z.eqb_refl in *.
  - by apply (IH b).
  - rewrite (proj2 (Z.eqb_neq z y)) in H1 by done. lia.
  - rewrite (proj2 (Z.eqb_neq x z)) in H1 by done. done.
  - destruct (Z.eqb_spec x y); lia.
Qed.

Lemma memcmp_less_trichotomy a : forall b, memcmp_less a b = true \/ a = b \/ memcmp_less b a = true.
Proof.
  induction a as [|x a IH]; intros [|y b]; cbn; auto. destruct (Z.eqb_spec x y) as [->|Hne].
  - rewrite Z.eqb_refl. destruct (IH b) as [?|[->|?]]; auto.
  - rewrite (proj2 (Z.eqb_neq y x)) by done. lia.
Qed.

Lemma memcmp_less_irrefl a : memcmp_less a a = false.
Proof. induction a as [|x a IH]; [done|]. cbn. by rewrite Z.eqb_refl. Qed.

#[export] Instance tuple_le_total : Total tuple_le.
Proof.
  intros a b. unfold tuple_le. destruct (memcmp_less b a) eqn:E; [|by left]. right.
  destruct (memcmp_less a b) eqn:E'; [|done]. pose proof (memcmp_less_trans _ _ _ E E') as H. by rewrite memcmp_less_irrefl in H.
Qed.

#[export] Instance tuple_le_antisymm : AntiSymm (=) tuple_le.
Proof. intros a b H1 H2. unfold tuple_le in *. destruct (memcmp_less_trichotomy a b) as [?|[?|?]]; [congruence|done|congruence]. Qed.

#[export] Instance tuple_le_trans : Transitive tuple_le.
Proof.
  intros a b c H1 H2. unfold tuple_le in *. destruct (memcmp_less c a) eqn:E; [|done].
  destruct (memcmp_less_trichotomy a b) as [Hab|[->|Hba]]; [|congruence..].
  pose proof (memcmp_less_trans _ _ _ E Hab). congruence.
Qed.

(** ** Tuples *)

Definition u16_ok (z : Z) : Prop := 0 <= z <= UINT16_MAX.

(** The ranges of the C types. *)
Definition pci_typed (f : pbns_inventory_pci_function) : Prop :=
  u16_ok (pci_segment f) /\ is_byte (pci_bus f) /\ is_byte (pci_device f) /\ is_byte (pci_function f) /\ u16_ok (pci_vendor_id f)
  /\ u16_ok (pci_device_id f) /\ is_byte (pci_class_code f) /\ is_byte (pci_subclass f) /\ is_byte (pci_prog_if f).

(** A device and a function number that PCI has. *)
Definition pci_in_range (f : pbns_inventory_pci_function) : bool := (pci_device f <=? 31) && (pci_function f <=? 7).

Lemma u16_two_octets z : u16_ok z -> 256 * u8 (Z.shiftr z 8) + u8 z = z.
Proof.
  unfold u16_ok, UINT16_MAX, u8. intros Hz. rewrite Z.shiftr_div_pow2 by lia. rewrite (Z.mod_small (z / 2 ^ 8)).
  - change (2 ^ 8) with 256. pose proof (Z.div_mod z 256 ltac:(lia)). lia.
  - split; [apply Z.div_pos; lia|apply Z.div_lt_upper_bound; lia].
Qed.

Lemma encode_pci_tuple_inj f g : pci_typed f -> pci_typed g -> encode_pci_tuple f = encode_pci_tuple g -> f = g.
Proof.
  intros (H1 & _ & _ & _ & H5 & H6 & _) (G1 & _ & _ & _ & G5 & G6 & _) E. destruct f, g. cbn in *.
  injection E as E1 E2 -> -> -> E5 E6 E7 E8 -> -> ->.
  f_equal; [rewrite <- (u16_two_octets _ H1), <- (u16_two_octets _ G1)|rewrite <- (u16_two_octets _ H5), <- (u16_two_octets _ G5)
    |rewrite <- (u16_two_octets _ H6), <- (u16_two_octets _ G6)]; congruence.
Qed.

Lemma tuples_inj fs : forall gs, Forall pci_typed fs -> Forall pci_typed gs ->
  map encode_pci_tuple fs = map encode_pci_tuple gs -> fs = gs.
Proof.
  induction fs as [|f fs IH]; intros [|g gs] Hf Hg E; try done. apply Forall_cons_iff in Hf as [Hf Hfs]. apply Forall_cons_iff in Hg as [Hg Hgs].
  f_equal; [apply encode_pci_tuple_inj; [done|done|exact (f_equal (List.hd []) E)]|apply IH; [done|done|exact (f_equal (@List.tl _) E)]].
Qed.

(** ** Collecting *)

Definition zero_pci : pbns_inventory_pci_collector := mk_pci_collector (replicate 256 (replicate 12 0)) 0.

(** The functions are added one after the other, whatever the answers are. *)
Fixpoint pci_add_all (c : pbns_inventory_pci_collector) (fs : list pbns_inventory_pci_function)
  : option (list pbns_status * pbns_inventory_pci_collector) :=
  match fs with
  | [] => Some ([], c)
  | f :: fs =>
      '(status, c') ← pbns_inventory_pci_add (Some c) (Some f);
      '(statuses, c'') ← pci_add_all (default c c') fs;
      Some (status :: statuses, c'')
  end.

(** The answers: a number out of range is refused, and so is a function without room. *)
Fixpoint pci_answers (room : nat) (fs : list pbns_inventory_pci_function) : list pbns_status :=
  match fs with
  | [] => []
  | f :: fs =>
      if pci_in_range f then
        match room with O => PBNS_ERR_LIMIT :: pci_answers O fs | S room => PBNS_OK :: pci_answers room fs end
      else PBNS_ERR_FORMAT :: pci_answers room fs
  end.

Definition pci_kept (fs : list pbns_inventory_pci_function) : list pbns_inventory_pci_function :=
  base.filter (fun f => pci_in_range f = true) fs.

(** The octets that are hashed. *)
Definition pci_octets (fs : list pbns_inventory_pci_function) : bytes := concat (merge_sort tuple_le (map encode_pci_tuple fs)).

(** The used rows are the sorted tuples of [fs]. *)
Definition pci_holds (c : pbns_inventory_pci_collector) (fs : list pbns_inventory_pci_function) : Prop :=
  exists rows rest, pc_tuples c = rows ++ rest /\ length (rows ++ rest) = 256%nat /\ pc_function_count c = zlen rows
  /\ StronglySorted tuple_le rows /\ rows ≡ₚ map encode_pci_tuple fs.

Lemma pci_add_keeps c f fs : pci_holds c fs -> pci_in_range f = true -> (length fs < 256)%nat ->
  exists c', pbns_inventory_pci_add (Some c) (Some f) = Some (PBNS_OK, Some c') /\ pci_holds c' (fs ++ [f]).
Proof.
  intros (rows & rest & Et & H256 & Hn & Hs & Hp) Hf Hroom. pose proof (Permutation_length Hp) as Hl. rewrite length_map in Hl.
  unfold pbns_inventory_pci_add, PBNS_INVENTORY_PCI_FUNCTION_MAX. unfold pci_in_range in Hf. replace (_ || _) with false by lia.
  rewrite Hn, (proj2 (Z.leb_gt 256 _)) by lia. destruct rest as [|x rest]; [llia|].
  rewrite (insert_shift_ext _ (above tuple_le (encode_pci_tuple f))).
  2: { intros y. unfold above. destruct (memcmp_less (encode_pci_tuple f) y) eqn:E;
         [rewrite bool_decide_eq_false_2|rewrite bool_decide_eq_true_2]; unfold tuple_le; (done || congruence). }
  rewrite Nat2Z.id, Et. destruct (insert_shift_sorted tuple_le (encode_pci_tuple f) rows x rest Hs) as (rows' & -> & Hs' & Hp').
  cbn [mbind option_bind]. pose proof (Permutation_length Hp') as Hl'. cbn [length] in Hl'. eexists. split; [done|].
  exists rows', rest. cbn [pc_tuples pc_function_count]. split; [done|]. split; [llia|]. split; [lia|]. split; [done|].
  rewrite Hp', Hp, map_app. cbn [map]. by rewrite Permutation_cons_append.
Qed.

Lemma pci_add_all_spec fs : forall c acc, pci_holds c acc -> (length acc <= 256)%nat ->
  exists c', pci_add_all c fs = Some (pci_answers (256 - length acc) fs, c')
  /\ pci_holds c' (acc ++ take (256 - length acc) (pci_kept fs)).
Proof.
  induction fs as [|f fs IH]; intros c acc Hc Hle; cbn [pci_add_all pci_answers].
  { exists c. unfold pci_kept. rewrite filter_nil, take_nil, app_nil_r. done. }
  unfold pci_kept at 1. rewrite filter_cons. fold (pci_kept fs). destruct (pci_in_range f) eqn:Hf.
  - rewrite decide_True by done. destruct (Nat.eq_dec (length acc) 256) as [E|Hne].
    + pose proof Hc as (rows & rest & Et & H256 & Hn & Hs & Hp). pose proof (Permutation_length Hp) as Hl. rewrite length_map in Hl.
      unfold pbns_inventory_pci_add at 1, PBNS_INVENTORY_PCI_FUNCTION_MAX. unfold pci_in_range in Hf. replace (_ || _) with false by lia.
      rewrite Hn, (proj2 (Z.leb_le 256 _)) by lia. cbn [mbind option_bind default]. unfold id. destruct (IH c acc Hc Hle) as (c' & -> & Hc').
      rewrite E in *. cbn [Nat.sub mbind option_bind] in *. exists c'. split; [done|]. rewrite take_0 in *. done.
    + destruct (pci_add_keeps c f acc Hc Hf) as (c1 & -> & Hc1); [lia|]. cbn [mbind option_bind default]. unfold id.
      destruct (IH c1 (acc ++ [f]) Hc1) as (c' & -> & Hc'); [llia|]. cbn [mbind option_bind]. exists c'.
      replace (256 - length acc)%nat with (S (256 - length (acc ++ [f]))) by llia. split; [done|].
      rewrite firstn_cons. rewrite <- app_assoc in Hc'. exact Hc'.
  - rewrite decide_False by congruence. unfold pbns_inventory_pci_add at 1. unfold pci_in_range in Hf. replace (_ || _) with true by lia.
    cbn [mbind option_bind default]. unfold id. destruct (IH c acc Hc Hle) as (c' & -> & Hc'). cbn [mbind option_bind]. by exists c'.
Qed.

Lemma pci_holds_zero : pci_holds zero_pci [].
Proof. exists [], (replicate 256 (replicate 12 0)). repeat split; try done. constructor. Qed.

Lemma concat_rows_length (rows : list bytes) : Forall (fun t => length t = 12%nat) rows -> length (concat rows) = (12 * length rows)%nat.
Proof. induction 1 as [|t rows Ht _ IH]; [done|]. cbn [concat length]. rewrite length_app. lia. Qed.

Lemma concat_rows_inj (a : list bytes) : forall b, Forall (fun t => length t = 12%nat) a -> Forall (fun t => length t = 12%nat) b ->
  concat a = concat b -> a = b.
Proof.
  induction a as [|x a IH]; intros b Ha Hb E.
  { destruct b as [|y b]; [done|]. apply Forall_cons_iff in Hb as [Hy _]. cbn in E. destruct y; done. }
  apply Forall_cons_iff in Ha as [Hx Ha]. destruct b as [|y b].
  { cbn in E. destruct x; done. }
  apply Forall_cons_iff in Hb as [Hy Hb]. cbn [concat] in E. apply app_inj_1 in E as [-> E]; [|congruence]. f_equal. by apply IH.
Qed.

Lemma tuples_sized fs rows : rows ≡ₚ map encode_pci_tuple fs -> Forall (fun t => length t = 12%nat) rows.
Proof. intros ->. apply Forall_forall. intros t Ht. apply list_elem_of_In, in_map_iff in Ht as (f & <- & _). done. Qed.

(** The hash is taken over the sorted tuples. *)
Lemma pci_finish_spec c fs hash digest0 : pci_holds c fs -> (length fs <= 256)%nat ->
  pbns_inventory_pci_finish (Some c) (Some hash) (Some digest0) = Some (fst (hash (pci_octets fs)), Some (snd (hash (pci_octets fs)))).
Proof.
  intros (rows & rest & Et & H256 & Hn & Hs & Hp) Hle. pose proof (Permutation_length Hp) as Hl. rewrite length_map in Hl.
  unfold pbns_inventory_pci_finish, PBNS_INVENTORY_PCI_FUNCTION_MAX, PBNS_INVENTORY_PCI_TUPLE_SIZE. rewrite (proj2 (Z.ltb_ge 256 _)) by lia.
  rewrite Et, concat_app, rd_slice_prefix by (rewrite Hn, (concat_rows_length rows (tuples_sized _ _ Hp)); lia).
  cbn [mbind option_bind]. replace (concat rows) with (pci_octets fs); [by destruct (hash (pci_octets fs))|].
  unfold pci_octets. f_equal. apply (StronglySorted_unique tuple_le); [apply StronglySorted_merge_sort; apply _|done|].
  by rewrite merge_sort_Permutation, Hp.
Qed.

(** ** Properties *)

(** The PCI inventory is canonical.  Adding any sequence of functions to a fresh
    collector always returns; each function is refused exactly when its device or
    function number is out of range or 256 functions were kept before it.  The
    digest is the hash of the sorted tuples of the functions that were kept.  So
    the order of enumeration does not matter, and two inventories that hash the
    same octets have the same functions. *)
Theorem pci_inventory_canonical (fs : list pbns_inventory_pci_function) (hash : pbns_inventory_hash_fn) (digest0 : bytes) :
  (exists c', pci_add_all zero_pci fs = Some (pci_answers 256 fs, c')
   /\ pbns_inventory_pci_finish (Some c') (Some hash) (Some digest0)
      = Some (fst (hash (pci_octets (take 256 (pci_kept fs)))), Some (snd (hash (pci_octets (take 256 (pci_kept fs)))))))
  /\ forall fs', Forall pci_typed fs -> Forall pci_typed fs' -> pci_octets fs = pci_octets fs' <-> fs ≡ₚ fs'.
Proof.
  split.
  - destruct (pci_add_all_spec fs zero_pci [] pci_holds_zero) as (c' & E & Hc'); [cbn; lia|]. exists c'. split; [exact E|].
    apply pci_finish_spec; [exact Hc'|]. rewrite length_take. lia.
  - intros fs' Hfs Hfs'. unfold pci_octets. split.
    + intros E. apply concat_rows_inj in E; [|apply (tuples_sized fs), merge_sort_Permutation|apply (tuples_sized fs'), merge_sort_Permutation].
      assert (Hp : map encode_pci_tuple fs ≡ₚ map encode_pci_tuple fs') by (rewrite <- (merge_sort_Permutation tuple_le (map encode_pci_tuple fs)), E; apply merge_sort_Permutation).
      apply Permutation_map_inv in Hp as (gs & Em & Hp). rewrite (tuples_inj fs gs Hfs); [done| |done].
      by rewrite <- Hp.
    + intros Hp. f_equal. apply (StronglySorted_unique tuple_le); [apply StronglySorted_merge_sort; apply _..|].
      rewrite !merge_sort_Permutation. by apply Permutation_map.
Qed.

(** ** Witness *)

Definition ex_bridge : pbns_inventory_pci_function := mk_pci_function 0 0 1 0 0x8086 0x1237 6 0 0.
Definition ex_nic : pbns_inventory_pci_function := mk_pci_function 0 2 0 3 0x10ec 0x8168 2 0 0.
Definition ex_broken : pbns_inventory_pci_function := mk_pci_function 0 2 32 0 1 1 0 0 0.

Lemma ex_pci_typed : Forall pci_typed [ex_bridge; ex_nic].
Proof. apply Forall_cons_iff; split; [|apply Forall_cons_iff; split; [|constructor]]; vm_compute; intuition discriminate. Qed.

Lemma pci_inventory_canonical_witness :
  pci_octets [ex_nic; ex_bridge] = pci_octets [ex_bridge; ex_nic]
  /\ (fst <$> pci_add_all zero_pci [ex_nic; ex_broken; ex_bridge]) = Some [PBNS_OK; PBNS_ERR_FORMAT; PBNS_OK]
  /\ pci_octets [ex_nic; ex_bridge]
     = [0; 0; 0; 1; 0; 128; 134; 18; 55; 6; 0; 0; 0; 0; 2; 0; 3; 16; 236; 129; 104; 2; 0; 0].
Proof.
  split; [|split; [|vm_compute; reflexivity]].
  - destruct (pci_inventory_canonical [ex_nic; ex_bridge] (fun l => (PBNS_OK, l)) []) as [_ H].
    apply H; [|exact ex_pci_typed|apply Permutation_swap]. apply Forall_cons_iff. split; [|apply Forall_cons_iff; split; [|constructor]];
      vm_compute; intuition discriminate.
  - destruct (pci_inventory_canonical [ex_nic; ex_broken; ex_bridge] (fun l => (PBNS_OK, l)) []) as [(c' & -> & _) _]. reflexivity.
Defined.
