(* ===== verification/InventoryReport.v ===== *)
(** * The inventory report is canonical

    Collecting sorts the banks and the timings and refuses repeated keys, so
    what is encoded depends only on the set of facts, and the octets determine
    the facts. *)

From stdpp Require Import base list numbers sorting.
From Stdlib Require Import ZArith Lia.
From S2P Require Import Prelude Endian Status Buffers Cbor CborTree InventoryText Smbios Insertion Inventory.

(** ** Sorted copies *)

Definition key_le (a b : pbns_inventory_timing) : Prop := tm_key a <= tm_key b.

#[export] Instance key_le_dec a b : Decision (key_le a b).
Proof. unfold key_le. apply _. Defined.
#[export] Instance key_le_trans : Transitive key_le.
Proof. intros a b c. unfold key_le. lia. Qed.
#[export] Instance key_le_total : Total key_le.
Proof. intros a b. unfold key_le. lia. Qed.

Section copy.
Context {A : Type} (R : relation A) `{!Transitive R, !Total R, forall x y, Decision (R x y)} (before : A -> A -> bool)
  (Hbefore : forall x y, before x y = above R x y).

(** The first [count] elements of the source, sorted, at the start of the array. *)
Lemma copy_sorted_spec array from count : 0 <= count <= zlen array -> (0 < count -> count <= zlen (default [] from)) ->
  exists l, copy_sorted (fun values n => insertion_sort before values 1 (Z.to_nat n - 1)) array from count
    = Some (l ++ drop (Z.to_nat count) array)
  /\ StronglySorted R l /\ l ≡ₚ take (Z.to_nat count) (default [] from) /\ zlen l = count.
Proof using All.
  intros Hc Hf. unfold copy_sorted. destruct (Z.eqb_spec count 0) as [->|Hne].
  { exists []. split; [done|]. split; [constructor|]. done. }
  destruct from as [from|]; [|cbn in Hf; lia]. cbn [default mbind option_bind] in *. unfold id in *. rewrite rd_slice_inside by lia. cbn [mbind option_bind].
  set (l := slice from 0 count). assert (Hl : zlen l = count) by (apply slice_length; lia).
  assert (Ew : wr_list array 0 l = Some (l ++ drop (Z.to_nat count) array)).
  { rewrite wr_list_splice by lia. unfold splice. cbn [Z.to_nat take app Nat.add]. by replace (length l) with (Z.to_nat count) by lia. }
  rewrite Ew. cbn [mbind option_bind]. rewrite (insertion_sort_ext _ _ _ Hbefore). replace (Z.to_nat count) with (length l) by lia.
  destruct (insertion_sort_prefix R l (drop (length l) array)) as (l' & E & Hs & Hp). exists l'. split; [exact E|]. split; [done|].
  pose proof (Permutation_length Hp). split; [|lia]. rewrite Hp. unfold l at 1, slice. rewrite drop_0.
  by replace (length l) with (Z.to_nat count) by lia.
Qed.
End copy.

Lemma u32_above_spec x y : u32_above x y = above Z.le x y.
Proof. unfold u32_above, above. destruct (Z.ltb_spec x y); [rewrite bool_decide_eq_false_2|rewrite bool_decide_eq_true_2]; done || lia. Qed.

Lemma timing_above_spec x y : timing_above x y = above key_le x y.
Proof.
  unfold timing_above, above. destruct (Z.ltb_spec (tm_key x) (tm_key y));
    [rewrite bool_decide_eq_false_2|rewrite bool_decide_eq_true_2]; unfold key_le; done || lia.
Qed.

(** ** The keys *)

(** Nonzero keys, each related to the one before it. *)
Fixpoint chain (related : Z -> Z -> bool) (previous : option Z) (l : list pbns_inventory_timing) : bool :=
  match l with
  | [] => true
  | t :: l =>
      negb (tm_key t =? 0) && match previous with None => true | Some k => related k (tm_key t) end && chain related (Some (tm_key t)) l
  end.

Definition last_key (pre : list pbns_inventory_timing) : option Z :=
  match pre with [] => None | _ => Some (tm_key (List.last pre zero_timing)) end.

Lemma last_key_snoc pre t : last_key (pre ++ [t]) = Some (tm_key t).
Proof. unfold last_key. destruct (pre ++ [t]) eqn:E; [by destruct pre|]. by rewrite <- E, List.last_last. Qed.

(** Both loops over the timings check a chain. *)
Lemma timings_distinct_spec l : forall pre tl,
  timings_distinct (pre ++ l ++ tl) (zlen pre) (length l) = Some (chain (fun k k' => negb (k =? k')) (last_key pre) l).
Proof.
  induction l as [|t l IH]; intros pre tl; [done|]. cbn [length timings_distinct chain app]. rewrite (rd_app_head pre t (l ++ tl) (zlen pre) eq_refl). cbn [mbind option_bind].
  assert (Hnext : timings_distinct (pre ++ t :: l ++ tl) (zlen pre + 1) (length l) = Some (chain (fun k k' => negb (k =? k')) (Some (tm_key t)) l)).
  { replace (pre ++ t :: l ++ tl) with ((pre ++ [t]) ++ l ++ tl) by (by rewrite <- app_assoc).
    replace (zlen pre + 1) with (zlen (pre ++ [t])) by llia. by rewrite IH, last_key_snoc. }
  destruct (tm_key t =? 0); [done|]. cbn [negb andb]. destruct pre as [|p pre _] using rev_ind; [exact Hnext|]. rewrite last_key_snoc.
  rewrite (proj2 (Z.eqb_neq (zlen (pre ++ [p])) 0)) by llia. cbn [negb].
  rewrite (rd_eq _ pre p (t :: l ++ tl)) by (by rewrite <- app_assoc || llia). cbn [mbind option_bind].
  destruct (tm_key p =? tm_key t); [done|exact Hnext].
Qed.

Lemma timings_ordered_spec l : forall pre tl,
  timings_ordered (pre ++ l ++ tl) (zlen pre) (length l) = Some (chain (fun k k' => negb (k' <=? k)) (last_key pre) l).
Proof.
  induction l as [|t l IH]; intros pre tl; [done|]. cbn [length timings_ordered chain app]. rewrite (rd_app_head pre t (l ++ tl) (zlen pre) eq_refl). cbn [mbind option_bind].
  assert (Hnext : timings_ordered (pre ++ t :: l ++ tl) (zlen pre + 1) (length l) = Some (chain (fun k k' => negb (k' <=? k)) (Some (tm_key t)) l)).
  { replace (pre ++ t :: l ++ tl) with ((pre ++ [t]) ++ l ++ tl) by (by rewrite <- app_assoc).
    replace (zlen pre + 1) with (zlen (pre ++ [t])) by llia. by rewrite IH, last_key_snoc. }
  destruct (tm_key t =? 0); [done|]. cbn [negb andb]. destruct pre as [|p pre _] using rev_ind; [exact Hnext|]. rewrite last_key_snoc.
  rewrite (proj2 (Z.eqb_neq (zlen (pre ++ [p])) 0)) by llia. cbn [negb].
  rewrite (rd_eq _ pre p (t :: l ++ tl)) by (by rewrite <- app_assoc || llia). cbn [mbind option_bind].
  destruct (tm_key t <=? tm_key p); [done|exact Hnext].
Qed.

(** On sorted timings, the chains are those of distinct keys. *)
Lemma chain_sorted l : forall k, StronglySorted key_le l -> Forall (fun t => k <= tm_key t) l ->
  chain (fun k k' => negb (k' <=? k)) (Some k) l = chain (fun k k' => negb (k =? k')) (Some k) l
  /\ (chain (fun k k' => negb (k =? k')) (Some k) l = true <-> Forall (fun t => tm_key t <> 0) l /\ NoDup (k :: map tm_key l)).
Proof.
  induction l as [|t l IH]; intros k Hs Hk.
  { split; [done|]. split; [|done]. intros _. split; [constructor|]. apply NoDup_singleton. }
  apply StronglySorted_inv in Hs as [Hs Ht]. apply Forall_cons_iff in Hk as [Hkt Hk].
  destruct (IH (tm_key t) Hs Ht) as [Eq Hiff]. cbn [chain]. rewrite Eq. split; [f_equal; f_equal; lia|].
  rewrite !andb_true_iff, Hiff, Forall_cons_iff, (NoDup_cons k). cbn [map]. rewrite not_elem_of_cons, negb_true_iff, Z.eqb_neq, negb_true_iff, Z.eqb_neq.
  assert (Hfar : k <> tm_key t -> k ∉ map tm_key l).
  { intros Hne Hin. apply list_elem_of_In, in_map_iff in Hin as (u & Eu & Hu). apply list_elem_of_In in Hu.
    rewrite Forall_forall in Ht. specialize (Ht u Hu). unfold key_le in Ht. lia. }
  naive_solver.
Qed.

Lemma chain_none l : StronglySorted key_le l ->
  chain (fun k k' => negb (k' <=? k)) None l = chain (fun k k' => negb (k =? k')) None l
  /\ (chain (fun k k' => negb (k =? k')) None l = true <-> Forall (fun t => tm_key t <> 0) l /\ NoDup (map tm_key l)).
Proof.
  destruct 1 as [|t l Hs Ht]; [repeat split; try done; constructor|].
  destruct (chain_sorted l (tm_key t) Hs Ht) as [Eq Hiff]. cbn [chain map]. rewrite Eq. split; [done|].
  rewrite !andb_true_iff, Hiff, Forall_cons_iff, negb_true_iff, Z.eqb_neq. naive_solver.
Qed.

Lemma banks_ordered_spec l : forall x pre tl, StronglySorted Z.le (x :: l) ->
  banks_ordered (pre ++ x :: l ++ tl) (zlen pre + 1) (length l) = Some true.
Proof.
  induction l as [|y l IH]; intros x pre tl Hs; [done|]. cbn [length banks_ordered]. replace (zlen pre + 1 - 1) with (zlen pre) by lia.
  rewrite (rd_app_head pre x _ (zlen pre) eq_refl). cbn [mbind option_bind app]. rewrite (rd_eq _ (pre ++ [x]) y (l ++ tl)) by (by rewrite <- app_assoc || llia).
  cbn [mbind option_bind]. apply StronglySorted_inv in Hs as [Hs Hx]. apply Forall_cons_iff in Hx as [Hx _].
  rewrite (proj2 (Z.ltb_ge y x)) by lia. replace (pre ++ x :: y :: l ++ tl) with ((pre ++ [x]) ++ y :: l ++ tl) by (by rewrite <- app_assoc).
  replace (zlen pre + 1 + 1) with (zlen (pre ++ [x]) + 1) by llia. by apply IH.
Qed.

Lemma banks_sorted_ordered l tl : StronglySorted Z.le l -> banks_ordered (l ++ tl) 1 (length l - 1) = Some true.
Proof.
  destruct l as [|x l]; [done|]. intros Hs. cbn [length app]. rewrite Nat.sub_succ, Nat.sub_0_r. by apply (banks_ordered_spec l x []).
Qed.

(** ** What is reported *)

Definition u32_ok (z : Z) : Prop := 0 <= z <= UINT32_MAX.
Definition u64_ok (z : Z) : Prop := 0 <= z <= UINT64_MAX.
Definition digest_ok (d : bytes) : Prop := zlen d = 32.
Definition timing_typed (t : pbns_inventory_timing) : Prop := u32_ok (tm_key t) /\ u64_ok (tm_microseconds t).

Definition given_banks (i : pbns_inventory_inputs) : list Z :=
  take (Z.to_nat (tpm_active_bank_count (in_tpm i))) (default [] (tpm_active_banks (in_tpm i))).
Definition given_timings (i : pbns_inventory_inputs) : list pbns_inventory_timing :=
  take (Z.to_nat (in_timing_count i)) (default [] (in_timings i)).
Definition given_outcomes (i : pbns_inventory_inputs) : list Z :=
  [in_smbios_status i; in_pci_status i; in_storage_status i; sb_status (in_secure_boot i); tpm_status (in_tpm i)].

(** The ranges of the C types, and arrays as long as the counts say. *)
Definition inputs_typed (i : pbns_inventory_inputs) : Prop :=
  digest_ok (in_board_model_digest i) /\ digest_ok (in_pci_digest i)
  /\ digest_ok (sb_db_digest (in_secure_boot i)) /\ digest_ok (sb_dbx_digest (in_secure_boot i))
  /\ text_sized (in_firmware_vendor i) /\ text_sized (in_firmware_version i) /\ text_sized (in_cpu_class i)
  /\ u64_ok (in_memory_mib i) /\ u64_ok (in_block_device_count i) /\ u64_ok (in_storage_capacity_gib i)
  /\ u32_ok (tpm_manufacturer (in_tpm i)) /\ u32_ok (tpm_firmware_version (in_tpm i)) /\ u32_ok (in_pbns_version i)
  /\ u32_ok (in_pico_version i) /\ u32_ok (in_gateway_version i) /\ u64_ok (in_prior_loader_efi_status i)
  /\ 0 <= tpm_active_bank_count (in_tpm i) /\ 0 <= in_timing_count i
  /\ (forall banks, tpm_active_banks (in_tpm i) = Some banks -> tpm_active_bank_count (in_tpm i) <= zlen banks /\ Forall u32_ok banks)
  /\ (forall timings, in_timings i = Some timings -> in_timing_count i <= zlen timings /\ Forall timing_typed timings).

(** The inputs that a report is made of. *)
Definition inputs_proper (i : pbns_inventory_inputs) : Prop :=
  v_ptr (in_host_fingerprint i) <> 0 /\ v_len (in_host_fingerprint i) = 32
  /\ Forall (fun s => 0 <= s <= PBNS_INVENTORY_ERROR) (given_outcomes i)
  /\ tidy (text_of (in_firmware_vendor i)) /\ tidy (text_of (in_firmware_version i)) /\ tidy (text_of (in_cpu_class i))
  /\ in_block_device_count i <= PBNS_INVENTORY_BLOCK_DEVICE_MAX
  /\ in_timing_count i <= PBNS_INVENTORY_TIMING_MAX /\ tpm_active_bank_count (in_tpm i) <= PBNS_INVENTORY_TPM_BANK_MAX
  /\ (in_timing_count i = 0 \/ in_timings i <> None) /\ (tpm_active_bank_count (in_tpm i) = 0 \/ tpm_active_banks (in_tpm i) <> None)
  /\ Forall (fun t => tm_key t <> 0) (given_timings i) /\ NoDup (map tm_key (given_timings i)).

(** The report with given banks and timings, and nothing else in the arrays. *)
Definition report_with (i : pbns_inventory_inputs) (banks : list Z) (timings : list pbns_inventory_timing) : pbns_inventory_report :=
  mk_report (v_data (in_host_fingerprint i)) (in_board_model_digest i)
    (in_firmware_vendor i) (in_firmware_version i) (in_cpu_class i) (in_memory_mib i) (in_pci_digest i)
    (in_block_device_count i) (in_storage_capacity_gib i) (sb_secure_boot (in_secure_boot i)) (sb_setup_mode (in_secure_boot i))
    (sb_db_digest (in_secure_boot i)) (sb_dbx_digest (in_secure_boot i)) (tpm_present (in_tpm i)) (tpm_manufacturer (in_tpm i))
    (tpm_firmware_version (in_tpm i)) banks (zlen banks) (in_pbns_version i) (in_pico_version i)
    (in_gateway_version i) (given_outcomes i) timings (zlen timings) (in_prior_loader_efi_status i).

(** The octets of the inventory: the lists sorted. *)
Definition inventory_octets (i : pbns_inventory_inputs) : bytes :=
  tree_encode (report_tree (report_with i (merge_sort Z.le (given_banks i)) (merge_sort key_le (given_timings i)))).

(** The same facts, the lists in any order. *)
Definition same_facts (i j : pbns_inventory_inputs) : Prop :=
  v_data (in_host_fingerprint i) = v_data (in_host_fingerprint j) /\ in_board_model_digest i = in_board_model_digest j
  /\ text_of (in_firmware_vendor i) = text_of (in_firmware_vendor j) /\ text_of (in_firmware_version i) = text_of (in_firmware_version j)
  /\ text_of (in_cpu_class i) = text_of (in_cpu_class j) /\ in_memory_mib i = in_memory_mib j /\ in_pci_digest i = in_pci_digest j
  /\ in_block_device_count i = in_block_device_count j /\ in_storage_capacity_gib i = in_storage_capacity_gib j
  /\ sb_secure_boot (in_secure_boot i) = sb_secure_boot (in_secure_boot j) /\ sb_setup_mode (in_secure_boot i) = sb_setup_mode (in_secure_boot j)
  /\ sb_db_digest (in_secure_boot i) = sb_db_digest (in_secure_boot j) /\ sb_dbx_digest (in_secure_boot i) = sb_dbx_digest (in_secure_boot j)
  /\ tpm_present (in_tpm i) = tpm_present (in_tpm j) /\ tpm_manufacturer (in_tpm i) = tpm_manufacturer (in_tpm j)
  /\ tpm_firmware_version (in_tpm i) = tpm_firmware_version (in_tpm j) /\ in_pbns_version i = in_pbns_version j
  /\ in_pico_version i = in_pico_version j /\ in_gateway_version i = in_gateway_version j /\ given_outcomes i = given_outcomes j
  /\ in_prior_loader_efi_status i = in_prior_loader_efi_status j
  /\ given_banks i ≡ₚ given_banks j /\ given_timings i ≡ₚ given_timings j.

(** ** Collecting *)

Lemma texts_normalized_spec a b c : text_sized a -> text_sized b -> text_sized c ->
  exists v, texts_normalized a b c = Some v /\ (v = true <-> tidy (text_of a) /\ tidy (text_of b) /\ tidy (text_of c)).
Proof.
  intros Ha Hb Hc. unfold texts_normalized.
  destruct (text_is_normalized_spec a Ha) as (va & -> & Ia). destruct (text_is_normalized_spec b Hb) as (vb & -> & Ib).
  destruct (text_is_normalized_spec c Hc) as (vc & -> & Ic). cbn [mbind option_bind]. eexists. split; [done|].
  rewrite !andb_true_iff, Ia, Ib, Ic. tauto.
Qed.

Lemma capability_valid_spec s : capability_valid s = true <-> 0 <= s <= PBNS_INVENTORY_ERROR.
Proof. unfold capability_valid, PBNS_INVENTORY_OK. lia. Qed.

(** Everything but the keys of the timings is checked before the report is touched. *)
Lemma inputs_valid_spec i : inputs_typed i -> exists v, inputs_valid i = Some v
  /\ (v = true /\ Forall (fun t => tm_key t <> 0) (given_timings i) /\ NoDup (map tm_key (given_timings i)) <-> inputs_proper i)
  /\ (v = true -> in_timing_count i <= 8 /\ tpm_active_bank_count (in_tpm i) <= 8
      /\ (in_timing_count i = 0 \/ in_timings i <> None) /\ (tpm_active_bank_count (in_tpm i) = 0 \/ tpm_active_banks (in_tpm i) <> None)).
Proof.
  intros (_ & _ & _ & _ & Hv & Hw & Hc & _ & _ & _ & _ & _ & _ & _ & _ & _ & Hb0 & Ht0 & _). unfold inputs_valid, inputs_proper.
  assert (Hout : Forall (fun s => 0 <= s <= PBNS_INVENTORY_ERROR) (given_outcomes i) <->
    (capability_valid (in_smbios_status i) && capability_valid (in_pci_status i) && capability_valid (in_storage_status i)
     && capability_valid (sb_status (in_secure_boot i)) && capability_valid (tpm_status (in_tpm i)) = true)).
  { unfold given_outcomes. rewrite !Forall_cons_iff, !andb_true_iff, !capability_valid_spec. pose proof (Forall_nil (fun s => 0 <= s <= PBNS_INVENTORY_ERROR)). tauto. }
  destruct (_ || negb (capability_valid (tpm_status (in_tpm i)))) eqn:E.
  { exists false. split; [done|]. split; [|done]. split; [by intros (? & _)|]. intros (H1 & H2 & H3%Hout & _).
    rewrite !andb_true_iff in H3. destruct H3 as [[[[C1 C2] C3] C4] C5]. rewrite C1, C2, C3, C4, C5 in E.
    unfold PBNS_INVENTORY_DIGEST_SIZE in E. lia. }
  destruct (texts_normalized_spec _ _ _ Hv Hw Hc) as (v & -> & Hiff). cbn [mbind option_bind]. eexists. split; [done|].
  unfold PBNS_INVENTORY_DIGEST_SIZE, PBNS_INVENTORY_TIMING_MAX, PBNS_INVENTORY_TPM_BANK_MAX in *.
  rewrite Hout, andb_true_iff, Hiff, negb_true_iff, !orb_false_iff, !andb_false_iff, !Z.ltb_ge, !negb_false_iff, !Z.eqb_eq. bools.
  assert (Hptr : forall (A : Type) (x : option A), match x with None => true | Some _ => false end = false <-> x <> None) by (intros A []; split; done).
  rewrite !Hptr. split; [|tauto].
  repeat match goal with C : capability_valid _ = true |- _ => rewrite C; clear C end. cbn [andb]. tauto.
Qed.

Lemma keys_permute l l' : l ≡ₚ l' ->
  Forall (fun t => tm_key t <> 0) l /\ NoDup (map tm_key l) <-> Forall (fun t => tm_key t <> 0) l' /\ NoDup (map tm_key l').
Proof. intros Hp. pose proof (Permutation_map tm_key Hp) as Hk. by rewrite Hk, Hp. Qed.

(** Distinct keys have one sorted order. *)
Lemma sorted_timings_unique l1 l2 : NoDup (map tm_key l1) -> StronglySorted key_le l1 -> StronglySorted key_le l2 -> l1 ≡ₚ l2 -> l1 = l2.
Proof.
  intros Hn H1 H2 Hp. apply (StronglySorted_unique_strong key_le); [|done..]. intros x y Hx Hy Hxy Hyx. rewrite <- Hp in Hy.
  unfold key_le in *. assert (Ek : tm_key x = tm_key y) by lia. clear H1 H2 Hp. induction l1 as [|t l1 IH]; [by apply elem_of_nil in Hx|].
  cbn [map] in Hn. apply NoDup_cons in Hn as [Ht Hn].
  assert (Hin : forall u, u ∈ l1 -> tm_key u ∈ map tm_key l1) by (intros u Hu; apply list_elem_of_In, in_map, list_elem_of_In, Hu).
  apply elem_of_cons in Hx as [->|Hx], Hy as [->|Hy]; [done|destruct Ht; rewrite Ek; by apply Hin|destruct Ht; rewrite <- Ek; by apply Hin|].
  by apply IH.
Qed.

Lemma sorted_merge_sort {A} (R : relation A) `{!Transitive R, !Total R, forall x y, Decision (R x y)} l : StronglySorted R (merge_sort R l).
Proof. apply StronglySorted_merge_sort; apply _. Qed.

Lemma report_valid_true r banks spare timings rest :
  text_ok (rp_firmware_vendor r) -> text_ok (rp_firmware_version r) -> text_ok (rp_cpu_class r) ->
  rp_block_device_count r <= PBNS_INVENTORY_BLOCK_DEVICE_MAX -> zlen (rp_outcomes r) = 5 ->
  Forall (fun s => 0 <= s <= PBNS_INVENTORY_ERROR) (rp_outcomes r) ->
  rp_tpm_active_banks r = banks ++ spare -> rp_tpm_active_bank_count r = zlen banks -> zlen banks <= 8 -> StronglySorted Z.le banks ->
  rp_timings r = timings ++ rest -> rp_timing_count r = zlen timings -> zlen timings <= 8 ->
  chain (fun k k' => negb (k' <=? k)) None timings = true -> report_valid (Some r) = Some true.
Proof.
  intros [Hv Htv] [Hw Htw] [Hc Htc] Hblock H5 Hout Eb Ebc Hb8 Hbs Et Etc Ht8 Hchain. unfold report_valid.
  destruct (texts_normalized_spec _ _ _ Hv Hw Hc) as (v & -> & Hiff). rewrite (proj2 Hiff) by done. cbn [mbind option_bind negb orb].
  unfold PBNS_INVENTORY_TPM_BANK_MAX, PBNS_INVENTORY_TIMING_MAX. rewrite Ebc, Etc. replace (_ || _) with false by lia.
  rewrite rd_slice_inside, slice_all by lia. cbn [mbind option_bind].
  rewrite (proj2 (forallb_forall capability_valid (rp_outcomes r))).
  2: { intros s Hs. apply capability_valid_spec. rewrite Forall_forall in Hout. apply Hout, list_elem_of_In, Hs. }
  cbn [negb]. rewrite Eb, Et, !Nat2Z.id, banks_sorted_ordered by done. cbn [mbind option_bind negb].
  pose proof (timings_ordered_spec timings [] rest) as Ed. cbn [app length] in Ed. change (Z.of_nat 0) with 0 in Ed. rewrite Ed. change (last_key []) with (@None Z).
  by rewrite Hchain.
Qed.

Lemma collect_spec i r0 : inputs_typed i ->
  exists st r', pbns_inventory_collect (Some i) (Some r0) = Some (st, Some r') /\ (st = PBNS_OK <-> inputs_proper i)
  /\ (st <> PBNS_OK -> st = PBNS_ERR_ARGUMENT /\ (r' = r0 \/ r' = zero_report))
  /\ (st = PBNS_OK -> report_valid (Some r') = Some true
      /\ report_tree r' = report_tree (report_with i (merge_sort Z.le (given_banks i)) (merge_sort key_le (given_timings i)))).
Proof.
  intros Hi. unfold pbns_inventory_collect. destruct (inputs_valid_spec i Hi) as (v & -> & Hiff & Hv). cbn [mbind option_bind].
  destruct v; cbn [negb]; [|exists PBNS_ERR_ARGUMENT, r0; split; [done|]; split; [split; [done|by intros [? _]%Hiff]|]; split; [by auto|done]].
  destruct (Hv eq_refl) as (Ht8 & Hb8 & Htn & Hbn). clear Hv.
  pose proof Hi as (_ & _ & _ & _ & Hv1 & Hv2 & Hv3 & _ & _ & _ & _ & _ & _ & _ & _ & _ & Hb0 & Ht0 & Hbl & Htl).
  destruct (copy_sorted_spec Z.le u32_above u32_above_spec (rp_tpm_active_banks zero_report) (tpm_active_banks (in_tpm i)) (tpm_active_bank_count (in_tpm i)))
    as (banks & Eb & Hbs & Hbp & Hbz); [cbn; lia|intros; destruct (tpm_active_banks (in_tpm i)) as [l|]; [by destruct (Hbl l)|by destruct Hbn as [?|[]]; [lia|]]|].
  unfold sort_u32 at 1. rewrite Eb. cbn [mbind option_bind].
  destruct (copy_sorted_spec key_le timing_above timing_above_spec (rp_timings zero_report) (in_timings i) (in_timing_count i))
    as (timings & Et & Hts & Htp & Htz); [cbn; lia|intros; destruct (in_timings i) as [l|]; [by destruct (Htl l)|by destruct Htn as [?|[]]; [lia|]]|].
  unfold sort_timings at 1. rewrite Et. cbn [mbind option_bind]. fold (given_timings i) in Htp. fold (given_banks i) in Hbp.
  replace (Z.to_nat (in_timing_count i)) with (length timings) by lia. set (rest := drop _ (rp_timings zero_report)).
  pose proof (timings_distinct_spec timings [] rest) as Ed. cbn [app length] in Ed. change (Z.of_nat 0) with 0 in Ed. rewrite Ed. cbn [mbind option_bind]. clear Ed.
  destruct (chain_none timings Hts) as [Eord Hchain]. rewrite (keys_permute _ _ Htp) in Hchain. change (last_key []) with (@None Z).
  destruct (chain (fun k k' => negb (k =? k')) None timings) eqn:Ec; cbn [negb].
  2: { do 2 eexists. split; [done|]. split; [|split; [by auto|done]]. split; [done|]. intros (_ & Hk)%Hiff. apply Hchain in Hk. congruence. }
  destruct (proj1 Hchain eq_refl) as [Hnz Hnd]. assert (Hp : inputs_proper i) by (by apply Hiff). do 2 eexists. split; [done|]. split; [done|].
  split; [done|]. intros _. pose proof Hp as (_ & _ & Hout & T1 & T2 & T3 & Hblock & _). split.
  - apply (report_valid_true _ banks (drop (Z.to_nat (tpm_active_bank_count (in_tpm i))) (rp_tpm_active_banks zero_report)) timings rest);
      try done; cbn [rp_tpm_active_bank_count rp_timing_count]; try lia.
  - unfold report_tree, report_with. cbn [rp_host_fingerprint rp_board_model_digest rp_firmware_vendor rp_firmware_version rp_cpu_class rp_memory_mib
      rp_pci_digest rp_block_device_count rp_storage_capacity_gib rp_secure_boot rp_setup_mode rp_db_digest rp_dbx_digest rp_tpm_present
      rp_tpm_manufacturer rp_tpm_firmware_version rp_tpm_active_banks rp_tpm_active_bank_count rp_pbns_version rp_pico_version rp_gateway_version
      rp_outcomes rp_timings rp_timing_count rp_prior_loader_efi_status].
    rewrite <- Hbz, <- Htz, !Nat2Z.id, !take_app_length, !take_ge by done.
    assert (Eb' : merge_sort Z.le (given_banks i) = banks).
    { apply (StronglySorted_unique Z.le); [apply sorted_merge_sort; apply _|done|]. by rewrite merge_sort_Permutation, Hbp. }
    rewrite Eb'.
    replace timings with (merge_sort key_le (given_timings i)); [done|].
    apply sorted_timings_unique; [by apply (keys_permute _ _ (merge_sort_Permutation key_le (given_timings i)))|apply sorted_merge_sort; apply _|done|by rewrite merge_sort_Permutation, Htp].
Qed.

(** ** Encoding *)

Section octets.
Context (i : pbns_inventory_inputs) (banks : list Z) (timings : list pbns_inventory_timing).

Lemma report_tree_eq : report_tree (report_with i banks timings) =
  TMap [bytes_field 1 (v_data (in_host_fingerprint i)); bytes_field 2 (in_board_model_digest i);
        leaf (3, CText (text_of (in_firmware_vendor i))); leaf (4, CText (text_of (in_firmware_version i)));
        leaf (5, CText (text_of (in_cpu_class i))); uint_field 6 (in_memory_mib i); bytes_field 7 (in_pci_digest i);
        (8, TMap [uint_field 1 (in_block_device_count i); uint_field 2 (in_storage_capacity_gib i)]);
        (9, TBool (sb_secure_boot (in_secure_boot i))); (10, TBool (sb_setup_mode (in_secure_boot i)));
        bytes_field 11 (sb_db_digest (in_secure_boot i)); bytes_field 12 (sb_dbx_digest (in_secure_boot i));
        (13, TMap [(1, TBool (tpm_present (in_tpm i))); uint_field 2 (tpm_manufacturer (in_tpm i)); uint_field 3 (tpm_firmware_version (in_tpm i));
                   (4, TArray (map (fun v => TValue (CUInt v)) banks))]);
        (14, TMap [uint_field 1 (in_pbns_version i); uint_field 2 (in_pico_version i); uint_field 3 (in_gateway_version i)]);
        (15, TMap (numbered_fields 1 (given_outcomes i)));
        (16, TMap (map (fun t => uint_field (tm_key t) (tm_microseconds t)) timings));
        uint_field 17 (in_prior_loader_efi_status i)].
Proof. unfold report_tree. cbn [rp_tpm_active_banks rp_tpm_active_bank_count rp_timings rp_timing_count report_with]. by rewrite !Nat2Z.id, !take_ge. Qed.

Lemma report_tree_ok : inputs_typed i -> inputs_proper i -> Forall u32_ok banks -> Forall timing_typed timings ->
  zlen banks <= 8 -> zlen timings <= 8 -> tree_ok (report_tree (report_with i banks timings)).
Proof.
  intros (D1 & D2 & D3 & D4 & T1 & T2 & T3 & N1 & N2 & N3 & N4 & N5 & N6 & N7 & N8 & N9 & _)
    (_ & Hfp & Hout & _) Hb Ht Hb8 Ht8. rewrite report_tree_eq. unfold v_len, digest_ok, u64_ok, u32_ok, timing_typed in *.
  apply text_of_length in T1 as L1, T2 as L2, T3 as L3. destruct T1 as [_ T1], T2 as [_ T2], T3 as [_ T3].
  assert (Hbanks : fold_right (fun x Q => tree_ok x /\ Q) True (map (fun v => TValue (CUInt v)) banks)).
  { clear Hb8. induction Hb as [|b bs Hb _ IH]; [done|]. cbn [map fold_right]. split; [|exact IH]. cbn. unfold UINT32_MAX, UINT64_MAX in *. lia. }
  assert (Htimings : fold_right (fun p Q => (label_ok (fst p) /\ tree_ok (snd p)) /\ Q) True (map (fun t => uint_field (tm_key t) (tm_microseconds t)) timings)).
  { clear Ht8. induction Ht as [|t ts [Hk Hm] _ IH]; [done|]. cbn [map fold_right]. split; [|exact IH].
    cbn. unfold label_ok, u32_ok, u64_ok, UINT32_MAX, UINT64_MAX, INT64_MAX in *. lia. }
  unfold given_outcomes, PBNS_INVENTORY_ERROR in *. rewrite !Forall_cons_iff in Hout.
  unfold PBNS_INVENTORY_TEXT_MAX_SIZE, UINT32_MAX, UINT64_MAX in *.
  cbn [tree_ok uint_field bytes_field leaf fst snd fold_right length cbor_value_ok numbered_fields]. unfold label_ok, INT64_MAX, UINT64_MAX.
  rewrite !length_map. repeat split; done || lia.
Qed.
End octets.

Lemma uint_trees_inj (l1 l2 : list Z) : map (fun v => TValue (CUInt v)) l1 = map (fun v => TValue (CUInt v)) l2 -> l1 = l2.
Proof. revert l2. induction l1 as [|x l1 IH]; intros [|y l2] E; try done. injection E as -> E. f_equal. by apply IH. Qed.

Lemma timing_trees_inj (l1 l2 : list pbns_inventory_timing) :
  map (fun t => uint_field (tm_key t) (tm_microseconds t)) l1 = map (fun t => uint_field (tm_key t) (tm_microseconds t)) l2 -> l1 = l2.
Proof.
  revert l2. induction l1 as [|[k1 m1] l1 IH]; intros [|[k2 m2] l2] E; try done. cbn [map uint_field leaf fst snd tm_key tm_microseconds] in E.
  injection E as -> -> E. f_equal. by apply IH.
Qed.

Lemma uint_trees_norm l : map tree_norm (map (fun v => TValue (CUInt v)) l) = map (fun v => TValue (CUInt v)) l.
Proof. rewrite map_map. done. Qed.

Lemma timing_trees_norm l : map (fun p => (fst p, tree_norm (snd p))) (map (fun t => uint_field (tm_key t) (tm_microseconds t)) l)
  = map (fun t => uint_field (tm_key t) (tm_microseconds t)) l.
Proof. rewrite map_map. done. Qed.

Lemma given_typed i : inputs_typed i -> Forall u32_ok (given_banks i) /\ Forall timing_typed (given_timings i).
Proof.
  intros (_ & _ & _ & _ & _ & _ & _ & _ & _ & _ & _ & _ & _ & _ & _ & _ & _ & _ & Hb & Ht). unfold given_banks, given_timings.
  split; apply Forall_take; [destruct (tpm_active_banks (in_tpm i)) as [l|]|destruct (in_timings i) as [l|]]; try constructor; cbn.
  - by apply (Hb l).
  - by apply (Ht l).
Qed.

(** The octets say everything, up to the order of the lists. *)
Lemma inventory_octets_iff i j : inputs_typed i -> inputs_typed j -> inputs_proper i -> inputs_proper j ->
  inventory_octets i = inventory_octets j <-> same_facts i j.
Proof.
  intros Hi Hj Pi Pj. unfold inventory_octets. set (bi := merge_sort Z.le (given_banks i)). set (bj := merge_sort Z.le (given_banks j)).
  set (ti := merge_sort key_le (given_timings i)). set (tj := merge_sort key_le (given_timings j)).
  assert (Hok : forall k, inputs_typed k -> inputs_proper k ->
    tree_ok (report_tree (report_with k (merge_sort Z.le (given_banks k)) (merge_sort key_le (given_timings k))))).
  { intros k Hk Pk. destruct (given_typed k Hk) as [G1 G2]. pose proof Pk as (_ & _ & _ & _ & _ & _ & _ & Pt & Pb & _).
    unfold PBNS_INVENTORY_TIMING_MAX, PBNS_INVENTORY_TPM_BANK_MAX in *.
    pose proof (Permutation_length (merge_sort_Permutation Z.le (given_banks k))) as L1.
    pose proof (Permutation_length (merge_sort_Permutation key_le (given_timings k))) as L2.
    apply report_tree_ok; [done|done|by rewrite merge_sort_Permutation|by rewrite merge_sort_Permutation|..].
    - rewrite L1. unfold given_banks. rewrite length_take. lia.
    - rewrite L2. unfold given_timings. rewrite length_take. lia. }
  split.
  - intros E. apply tree_encode_inj in E; [|by apply Hok..]. rewrite !report_tree_eq in E.
    cbn [tree_norm map fst snd uint_field bytes_field leaf cbor_norm numbered_fields given_outcomes] in E.
    rewrite !uint_trees_norm, !timing_trees_norm in E.
    injection E as F1 F2 F3 F4 F5 F6 F7 F8 F9 F10 F11 F12 F13 F14 F15 F16 F17 F18 F19 F20 F21 F22 F23 F24 F25 F26 F27.
    apply uint_trees_inj in F17. apply timing_trees_inj in F26.
    assert (Ho : given_outcomes i = given_outcomes j) by (unfold given_outcomes; congruence).
    assert (Hb : given_banks i ≡ₚ given_banks j) by (rewrite <- (merge_sort_Permutation Z.le (given_banks i)); fold bi; rewrite F17; apply merge_sort_Permutation).
    assert (Ht : given_timings i ≡ₚ given_timings j) by (rewrite <- (merge_sort_Permutation key_le (given_timings i)); fold ti; rewrite F26; apply merge_sort_Permutation).
    unfold same_facts. repeat (split; [done|]). done.
  - intros (E1 & E2 & E3 & E4 & E5 & E6 & E7 & E8 & E9 & E10 & E11 & E12 & E13 & E14 & E15 & E16 & E17 & E18 & E19 & E20 & E21 & Hb & Ht).
    f_equal. rewrite !report_tree_eq, E1, E2, E3, E4, E5, E6, E7, E8, E9, E10, E11, E12, E13, E14, E15, E16, E17, E18, E19, E20, E21.
    assert (Eb : bi = bj).
    { apply (StronglySorted_unique Z.le); [apply sorted_merge_sort; apply _..|]. unfold bi, bj. by rewrite !merge_sort_Permutation. }
    assert (Et : ti = tj).
    { apply sorted_timings_unique; [|apply sorted_merge_sort; apply _..|unfold ti, tj; by rewrite !merge_sort_Permutation].
      pose proof Pi as (_ & _ & _ & _ & _ & _ & _ & _ & _ & _ & _ & Hk). by apply (keys_permute _ _ (merge_sort_Permutation key_le (given_timings i))). }
    by rewrite Eb, Et.
Qed.

(** ** Properties *)

(** The inventory report is canonical.  Collecting always returns.  It succeeds
    exactly on proper inputs (a fingerprint of 32 octets, known outcomes, tidy
    texts, counts within the limits and distinct nonzero timing keys) and leaves
    on failure the old report or a cleared one.  A collected report is always
    accepted by the encoder and gives the canonical octets of its inputs, or too
    small an output is reported with nothing written.  The octets are the same
    exactly for the same facts: the order in which banks and timings were given
    does not matter, and everything else can be read off. *)
Theorem inventory_report_canonical `{S : QCBORSpiffy} (i : pbns_inventory_inputs) (r0 : pbns_inventory_report)
  (output : pbns_buffer) (size0 : Z) :
  inputs_typed i -> b_ptr output <> 0 -> b_len output = 0 -> 0 < b_cap output <= PBNS_INVENTORY_ENCODED_MAX_SIZE ->
  exists st r', pbns_inventory_collect (Some i) (Some r0) = Some (st, Some r')
  /\ (st = PBNS_OK <-> inputs_proper i)
  /\ (st <> PBNS_OK -> st = PBNS_ERR_ARGUMENT /\ (r' = r0 \/ r' = zero_report))
  /\ (st = PBNS_OK -> exists est data size, pbns_inventory_encode (Some r') output (Some size0) = Some (est, data, Some size)
      /\ length data = length (b_data output)
      /\ if b_cap output <? zlen (inventory_octets i) then est = PBNS_ERR_LIMIT /\ size = 0
         else est = PBNS_OK /\ take (Z.to_nat size) data = inventory_octets i)
  /\ (forall j, inputs_typed j -> inputs_proper i -> inputs_proper j -> inventory_octets i = inventory_octets j <-> same_facts i j).
Proof.
  intros Hi Hptr Hlen Hcap. destruct (collect_spec i r0 Hi) as (st & r' & E & Hiff & Hno & Hok). exists st, r'. split; [done|].
  split; [done|]. split; [done|]. split; [|intros j Hj Pi Pj; by apply inventory_octets_iff].
  intros Hst. destruct (Hok Hst) as [Hvalid Htree]. unfold pbns_inventory_encode. rewrite Hvalid. cbn [mbind option_bind negb orb].
  replace (_ || _) with false by lia. unfold inventory_octets. rewrite <- Htree. clear Htree. unfold b_cap, PBNS_INVENTORY_ENCODED_MAX_SIZE in *.
  destruct (tree_encode_cases (report_tree r') (b_data output)) as (e & out & data & -> & Hd & He); [unfold UINT32_MAX; lia|].
  pose proof (tree_encode_pos (report_tree r')) as Hpos. destruct (Z.ltb_spec (zlen (b_data output)) (zlen (tree_encode (report_tree r')))).
  - subst e. by do 3 eexists.
  - destruct He as (-> & -> & ->). replace (_ || _) with false by lia. do 3 eexists. split; [done|]. split; [done|]. split; [done|].
    by rewrite Nat2Z.id, take_app_length.
Qed.

(** ** Storage, variables and banks *)

(** The octets of a device that counts. *)
Definition device_octets (d : pbns_inventory_block_device) : Z := (bd_last_block d + 1) * bd_block_size d.
Definition device_fixed (d : pbns_inventory_block_device) : bool := negb (bd_removable d || bd_logical_partition d).
Definition device_typed (d : pbns_inventory_block_device) : Prop := u64_ok (bd_last_block d) /\ u32_ok (bd_block_size d).

(** Adding a device is exact 64-bit arithmetic: a fixed device is counted with its
    octets unless there are 64 already, its block size is zero, or the sum does not
    fit into 64 bits; then nothing changes. *)
Theorem storage_add_exact (c : pbns_inventory_storage_collector) (d : pbns_inventory_block_device) :
  device_typed d -> u64_ok (st_total_bytes c) ->
  pbns_inventory_storage_add (Some c) (Some d)
  = if negb (device_fixed d) then (PBNS_OK, Some c)
    else if (st_count c <? PBNS_INVENTORY_BLOCK_DEVICE_MAX) && (0 <? bd_block_size d) && (bd_last_block d <? UINT64_MAX)
            && (st_total_bytes c + device_octets d <=? UINT64_MAX)
    then (PBNS_OK, Some (mk_storage (st_count c + 1) (st_total_bytes c + device_octets d)))
    else (PBNS_ERR_LIMIT, Some c).
Proof.
  intros [Hl Hs] Ht. unfold pbns_inventory_storage_add, device_fixed, device_octets, u64_ok, u32_ok, PBNS_INVENTORY_BLOCK_DEVICE_MAX in *.
  rewrite negb_involutive. destruct (bd_removable d || bd_logical_partition d); [done|].
  destruct (Z.leb_spec 64 (st_count c)); [by rewrite (proj2 (Z.ltb_ge _ 64)) by lia|]. rewrite (proj2 (Z.ltb_lt _ 64)) by lia. cbn [andb].
  destruct (Z.eqb_spec (bd_block_size d) 0) as [E|Hne]; [by rewrite E|]. cbn [orb]. rewrite (proj2 (Z.ltb_lt 0 _)) by lia.
  destruct (Z.eqb_spec (bd_last_block d) UINT64_MAX) as [E|Hne2]; [by rewrite E|]. rewrite (proj2 (Z.ltb_lt _ UINT64_MAX)) by lia. cbn [andb].
  rewrite u64_small by lia. set (n := bd_last_block d + 1) in *. set (s := bd_block_size d) in *.
  assert (Hdiv : UINT64_MAX / s < n <-> UINT64_MAX < n * s).
  { split; intros H1; [pose proof (Z.mul_succ_div_gt UINT64_MAX s ltac:(lia)); nia|apply Z.div_lt_upper_bound; nia]. }
  destruct (Z.ltb_spec (UINT64_MAX / s) n) as [Hbig|Hsmall].
  - apply Hdiv in Hbig. by rewrite (proj2 (Z.leb_gt _ _)) by lia.
  - assert (Hfit : n * s <= UINT64_MAX) by (destruct (Z.le_gt_cases (n * s) UINT64_MAX) as [?|Hgt]; [done|apply Z.lt_nge in Hgt; lia]).
    rewrite (u64_small (n * s)) by nia. destruct (Z.ltb_spec (UINT64_MAX - st_total_bytes c) (n * s)).
    + by rewrite (proj2 (Z.leb_gt _ _)) by lia.
    + rewrite (proj2 (Z.leb_le _ _)), u64_small by nia. done.
Qed.

Lemma storage_add_exact_witness :
  pbns_inventory_storage_add (Some (mk_storage 1 512)) (Some (mk_block_device 1023 512 false false)) = (PBNS_OK, Some (mk_storage 2 524800)).
Proof. rewrite (storage_add_exact (mk_storage 1 512) (mk_block_device 1023 512 false false)); [reflexivity|vm_compute; intuition discriminate..]. Defined.

(** The parts that are hashed for a variable. *)
Definition variable_parts (present : bool) (attributes : Z) (contents : bytes) : list bytes :=
  if present then [present_domain; variable_metadata attributes (zlen contents); contents] else [absent_domain].

Lemma metadata_be attributes n : variable_metadata attributes n = be_bytes 4 attributes ++ be_bytes 8 n.
Proof. unfold variable_metadata. cbn [be_bytes app]. change (8 * Z.of_nat 0) with 0. by rewrite !Z.shiftr_0_r. Qed.

(** What is hashed for a variable tells an absent one from an empty one, and
    determines attributes and contents. *)
Theorem variable_hash_separates (hash : pbns_inventory_hash_parts_fn) (present : bool) (attributes : Z) (v : pbns_view) (digest0 : bytes) :
  u32_ok attributes -> v_len v <= PBNS_INVENTORY_VARIABLE_MAX_SIZE -> view_is_valid v = true ->
  (present = false -> attributes = 0 /\ v_ptr v = 0) ->
  pbns_inventory_hash_variable (Some hash) present attributes v (Some digest0)
    = (fst (hash (variable_parts present attributes (v_data v))), Some (snd (hash (variable_parts present attributes (v_data v)))))
  /\ forall present' attributes' contents', u32_ok attributes' -> zlen contents' <= PBNS_INVENTORY_VARIABLE_MAX_SIZE ->
     concat (variable_parts present attributes (v_data v)) = concat (variable_parts present' attributes' contents') ->
     present' = present /\ (present = true -> attributes' = attributes /\ contents' = v_data v).
Proof.
  intros Ha Hlen Hv Habs. split.
  - unfold pbns_inventory_hash_variable, variable_parts, v_len in *. rewrite (proj2 (Z.ltb_ge _ _)), Hv by lia. cbn [orb negb].
    destruct present; cbn [negb]; [by destruct (hash _)|]. destruct (Habs eq_refl) as [-> Hp]. unfold view_is_valid, v_len in Hv.
    replace (_ || _) with false by lia. by destruct (hash [absent_domain]).
  - intros p' a' c' Ha' Hc' E. unfold PBNS_INVENTORY_VARIABLE_MAX_SIZE, v_len in *.
    destruct present, p'; cbn [variable_parts concat] in E; rewrite ?app_nil_r in E; try done.
    split; [done|]. intros _. apply app_inv_head in E. rewrite !metadata_be, <- !app_assoc in E.
    apply app_inj_1 in E as [E1 E]; [|by rewrite !be_bytes_length]. apply app_inj_1 in E as [_ E]; [|by rewrite !be_bytes_length].
    split; [|done]. apply (f_equal be_value) in E1. rewrite !be_value_bytes in E1. unfold u32_ok, UINT32_MAX in *.
    rewrite !Z.mod_small in E1 by (cbn; lia). done.
Qed.

Lemma variable_hash_separates_witness :
  pbns_inventory_hash_variable (Some (fun parts => (PBNS_OK, concat parts))) false 0 null_view (Some []) = (PBNS_OK, Some absent_domain).
Proof.
  destruct (variable_hash_separates (fun parts => (PBNS_OK, concat parts)) false 0 null_view []) as [E _];
    [vm_compute; intuition discriminate|vm_compute; discriminate|reflexivity|done|]. exact E.
Defined.

(** The algorithms of the banks that a bitmap names. *)
Definition bank_algorithms (bitmap : Z) (known : list (Z * Z)) : list Z :=
  map snd (base.filter (fun b => Z.land bitmap (fst b) <> 0) known).

Lemma count_banks_spec bitmap known : forall n, count_banks bitmap known n = n + zlen (bank_algorithms bitmap known).
Proof.
  unfold bank_algorithms. induction known as [|[b a] known IH]; intros n; cbn [count_banks]; [cbn; lia|]. rewrite IH, filter_cons. cbn [fst].
  destruct (Z.eqb_spec (Z.land bitmap b) 0); cbn [negb]; [rewrite decide_False by auto|rewrite decide_True by done]; cbn [map length]; lia.
Qed.

Lemma store_banks_spec bitmap known : forall pre rest, zlen (bank_algorithms bitmap known) <= zlen rest ->
  store_banks bitmap known (pre ++ rest) (zlen pre) = Some ((pre ++ bank_algorithms bitmap known) ++ drop (length (bank_algorithms bitmap known)) rest,
    zlen pre + zlen (bank_algorithms bitmap known)).
Proof.
  unfold bank_algorithms. induction known as [|[b a] known IH]; intros pre rest Hr; cbn [store_banks].
  { cbn. by rewrite drop_0, app_nil_r, Z.add_0_r. }
  rewrite filter_cons in *. cbn [fst] in *. destruct (Z.eqb_spec (Z.land bitmap b) 0); cbn [negb].
  - rewrite decide_False in * by auto. by apply IH.
  - rewrite decide_True in * by done. cbn [map length snd] in *. rewrite wr_next by (done || lia). cbn [mbind option_bind].
    replace (zlen pre + 1) with (zlen (pre ++ [a])) by llia. rewrite IH by llia. rewrite drop_drop, <- (app_assoc pre [a]). do 2 f_equal. llia.
Qed.

(** A bitmap of known banks is listed in the order of the table. *)
Theorem tpm_banks_listed (bitmap supported capacity count0 : Z) (banks : list Z) :
  Z.land bitmap (UINT32_MAX - 0x1f) = 0 -> bitmap <> 0 -> zlen (bank_algorithms bitmap known_banks) <= supported ->
  supported <> 0 -> zlen (bank_algorithms bitmap known_banks) <= capacity <= zlen banks ->
  pbns_inventory_tpm_active_banks bitmap supported (Some banks) capacity (Some count0)
  = Some (PBNS_OK, Some (bank_algorithms bitmap known_banks ++ drop (length (bank_algorithms bitmap known_banks)) banks),
          Some (zlen (bank_algorithms bitmap known_banks))).
Proof.
  intros Hmask Hne Hs Hs0 Hc. unfold pbns_inventory_tpm_active_banks. rewrite Hmask, count_banks_spec, Z.add_0_l. cbn [Z.eqb negb orb].
  rewrite (proj2 (Z.eqb_neq bitmap 0)), (proj2 (Z.eqb_neq supported 0)) by done. cbn [orb].
  rewrite (proj2 (Z.ltb_ge _ _)), (proj2 (Z.ltb_ge _ _)) by lia. 
  pose proof (store_banks_spec bitmap known_banks [] banks ltac:(lia)) as E. rewrite app_nil_l in E. change (zlen []) with 0 in E. rewrite E. done.
Qed.

Lemma tpm_banks_listed_witness :
  pbns_inventory_tpm_active_banks 0x12 2 (Some [0; 0; 0]) 3 (Some 7) = Some (PBNS_OK, Some [0x000b; 0x0012; 0], Some 2).
Proof. rewrite (tpm_banks_listed 0x12 2 3 7 [0; 0; 0]); [reflexivity|vm_compute; intuition discriminate..]. Defined.

(** ** Witness *)

Definition ex_inputs : pbns_inventory_inputs :=
  mk_inputs (mk_view 4096 (replicate 32 1)) 0 zero_text zero_text zero_text 4096 (replicate 32 2) 0 (replicate 32 3) 1 0 0
    (mk_secure_boot_input 0 true false (replicate 32 4) (replicate 32 5))
    (mk_tpm_input 0 true 1 2 (Some [12; 11]) 2) 1 2 3 (Some [mk_timing 5 70; mk_timing 2 90]) 2 0.

Lemma ex_inputs_typed : inputs_typed ex_inputs.
Proof.
  assert (Hz : forall n : Z, (0 <=? n) && (n <=? 4096) = true -> u32_ok n /\ u64_ok n) by (unfold u32_ok, u64_ok, UINT32_MAX, UINT64_MAX; lia).
  do 4 (split; [reflexivity|]). do 3 (split; [exact zero_text_sized|]). do 3 (split; [by apply Hz|]). do 5 (split; [by apply Hz|]).
  split; [by apply Hz|]. split; [done|]. split; [done|]. split; intros l [= <-]; (split; [done|]).
  - do 2 (apply Forall_cons_iff; split; [by apply Hz|]). constructor.
  - do 2 (apply Forall_cons_iff; split; [split; by apply Hz|]). constructor.
Qed.

Lemma inventory_report_canonical_witness :
  exists r' data size, pbns_inventory_collect (Some ex_inputs) (Some zero_report) = Some (PBNS_OK, Some r')
  /\ @pbns_inventory_encode tree_qcbor tree_spiffy (Some r') (mk_buffer 8192 0 (replicate 1024 0)) (Some 7) = Some (PBNS_OK, data, Some size)
  /\ take (Z.to_nat size) data = inventory_octets ex_inputs.
Proof.
  destruct (@inventory_report_canonical tree_qcbor tree_spiffy ex_inputs zero_report (mk_buffer 8192 0 (replicate 1024 0)) 7)
    as (st & r' & E & _ & _ & Hok & _).
  - exact ex_inputs_typed.
  - discriminate.
  - reflexivity.
  - vm_compute. intuition discriminate.
  - assert (Hst : st = PBNS_OK).
    { transitivity (default PBNS_ERR_IO (fst <$> pbns_inventory_collect (Some ex_inputs) (Some zero_report))); [by rewrite E|vm_compute; reflexivity]. }
    destruct (Hok Hst) as (est & data & size & Ee & _ & Hsz). exists r', data, size. subst st. split; [exact E|].
    replace (b_cap _ <? zlen _) with false in Hsz by (vm_compute; reflexivity). destruct Hsz as [-> Hd]. split; [exact Ee|exact Hd].
Defined.
