(* ===== verification/ControlledBaseline.v ===== *)
(** * Controlled baselines ([include/pbns/controlled_baseline.h], [src/core/controlled_baseline.c])

    The platform state that an operator approves: the measurements, Secure Boot,
    the digests of its databases and of the firmware identity, and the size of the
    machine.  It is derived from an inventory report, and only a state with Secure
    Boot on, setup mode off and no digest missing is derived or encoded. *)

From stdpp Require Import base list numbers.
From Stdlib Require Import ZArith Lia.
From S2P Require Import Prelude Endian Status Buffers Cbor CborTree Compare InventoryText Smbios SmbiosProps Inventory InventoryReport.

(** ** The code *)

Definition PBNS_CONTROLLED_BASELINE_DIGEST_SIZE : Z := 32.

(** "PBNS-FIRMWARE-IDENTITY-v1" *)
Definition firmware_domain : bytes :=
  [80; 66; 78; 83; 45; 70; 73; 82; 77; 87; 65; 82; 69; 45; 73; 68; 69; 78; 84; 73; 84; 89; 45; 118; 49].

Record pbns_controlled_baseline := mk_controlled {
  cb_measurement_digest : bytes;
  cb_secure_boot : bool;
  cb_setup_mode : bool;
  cb_db_digest : bytes;
  cb_dbx_digest : bytes;
  cb_firmware_digest : bytes;
  cb_memory_mib : Z;
  cb_storage_gib : Z;
  cb_block_devices : Z;
  cb_memory_mib_delta : Z;
  cb_storage_gib_delta : Z;
  cb_block_device_delta : Z;
}.

Definition zero_controlled : pbns_controlled_baseline :=
  mk_controlled (replicate 32 0) false false (replicate 32 0) (replicate 32 0) (replicate 32 0) 0 0 0 0 0 0.

(** A hash function over several views: the status and the digest. *)
Definition pbns_controlled_baseline_hash_fn : Type := list bytes -> pbns_status * bytes.

Definition nonzero_digest (value : bytes) : bool := ct_nonzero value.

Definition controlled_valid (value : ptr pbns_controlled_baseline) : bool :=
  match value with
  | None => false
  | Some v =>
      nonzero_digest (cb_measurement_digest v) && cb_secure_boot v && negb (cb_setup_mode v) && nonzero_digest (cb_db_digest v)
      && nonzero_digest (cb_dbx_digest v) && nonzero_digest (cb_firmware_digest v)
  end.

Definition pbns_controlled_baseline_firmware_identity (vendor version : pbns_view) (hash : ptr pbns_controlled_baseline_hash_fn)
  (digest : ptr bytes) : pbns_status * ptr bytes :=
  let zeroed := (fun _ => replicate 32 0) <$> digest in
  match hash, digest with
  | Some hash, Some _ =>
      if (96 <? v_len vendor) || (96 <? v_len version) || negb (view_is_valid vendor) || negb (view_is_valid version)
      then (PBNS_ERR_ARGUMENT, zeroed)
      else if (v_len vendor =? 0) || (v_len version =? 0) then (PBNS_ERR_FORMAT, zeroed)
      else
      let '(status, digest) := hash [firmware_domain; v_data vendor; [0]; v_data version] in
      (status, if is_ok status then Some digest else zeroed)
  | _, _ => (PBNS_ERR_ARGUMENT, zeroed)
  end.

(** The view of the octets of a text that lies at [address]. *)
Definition text_view (address : Z) (text : pbns_inventory_text) : option pbns_view :=
  octets ← rd_slice (tx_bytes text) 0 (tx_len text); Some (mk_view address octets).

(** [vendor_at] and [version_at] are the addresses of the texts of the report. *)
Definition pbns_controlled_baseline_from_inventory (measurement_digest : ptr bytes) (inventory : ptr pbns_inventory_report)
  (vendor_at version_at : Z) (hash : ptr pbns_controlled_baseline_hash_fn) (value : ptr pbns_controlled_baseline)
  : option (pbns_status * ptr pbns_controlled_baseline) :=
  let cleared := (fun _ => zero_controlled) <$> value in
  match measurement_digest, inventory, hash, value with
  | Some measurement, Some r, Some _, Some _ =>
      smbios ← rd (rp_outcomes r) 0;
      storage ← rd (rp_outcomes r) 2;
      secure_boot ← rd (rp_outcomes r) 3;
      if negb (smbios =? PBNS_INVENTORY_OK) || negb (storage =? PBNS_INVENTORY_OK) || negb (secure_boot =? PBNS_INVENTORY_OK)
         || (tx_len (rp_firmware_vendor r) =? 0) || (tx_len (rp_firmware_version r) =? 0) then Some (PBNS_ERR_FORMAT, cleared)
      else
      vendor_ok ← pbns_inventory_text_is_normalized (Some (rp_firmware_vendor r));
      version_ok ← pbns_inventory_text_is_normalized (Some (rp_firmware_version r));
      if negb vendor_ok || negb version_ok || (PBNS_INVENTORY_BLOCK_DEVICE_MAX <? rp_block_device_count r)
      then Some (PBNS_ERR_FORMAT, cleared)
      else
      vendor ← text_view vendor_at (rp_firmware_vendor r);
      version ← text_view version_at (rp_firmware_version r);
      let '(status, firmware) := pbns_controlled_baseline_firmware_identity vendor version hash (Some (replicate 32 0)) in
      let v := mk_controlled measurement (rp_secure_boot r) (rp_setup_mode r) (rp_db_digest r) (rp_dbx_digest r)
                 (default [] firmware) (rp_memory_mib r) (rp_storage_capacity_gib r) (rp_block_device_count r) 0 0 0 in
      if negb (is_ok status) || negb (controlled_valid (Some v))
      then Some (if is_ok status then PBNS_ERR_FORMAT else status, cleared)
      else Some (PBNS_OK, Some v)
  | _, _, _, _ => Some (PBNS_ERR_ARGUMENT, cleared)
  end.

Definition controlled_tree (v : pbns_controlled_baseline) : cbor_tree :=
  TMap [(1, TMap [uint_field 1 1; bytes_field 2 (cb_measurement_digest v); (3, TBool (cb_secure_boot v)); (4, TBool (cb_setup_mode v));
                  bytes_field 5 (cb_db_digest v); bytes_field 6 (cb_dbx_digest v); bytes_field 7 (cb_firmware_digest v);
                  (8, TMap [uint_field 1 (cb_memory_mib_delta v); uint_field 2 (cb_storage_gib_delta v); uint_field 3 (cb_block_device_delta v)])]);
        uint_field 2 (cb_memory_mib v); uint_field 3 (cb_storage_gib v); uint_field 4 (cb_block_devices v)].

Section code.
Context `{QCBORSpiffy}.

(** The status, the octets of the output and [*written]. *)
Definition pbns_controlled_baseline_encode (value : ptr pbns_controlled_baseline) (output : pbns_buffer) (written : ptr Z)
  : pbns_status * bytes * ptr Z :=
  let written := (fun _ => 0) <$> written in
  let output_valid := negb (b_ptr output =? 0) && (b_len output =? 0) && (0 <? b_cap output) in
  let zeroed := replicate (length (b_data output)) 0 in
  let data := if output_valid then zeroed else b_data output in
  match written with
  | None => (PBNS_ERR_ARGUMENT, data, None)
  | Some _ =>
      if negb output_valid then (PBNS_ERR_ARGUMENT, data, written)
      else
      match value with
      | None => (PBNS_ERR_FORMAT, data, written)
      | Some v =>
          if negb (controlled_valid value) then (PBNS_ERR_FORMAT, data, written)
          else
          let '(error, encoded, data) := QCBOREncode_tree (controlled_tree v) data in
          match error with
          | QCBOR_ERR_BUFFER_TOO_SMALL => (PBNS_ERR_LIMIT, zeroed, written)
          | QCBOR_ERR_OTHER => (PBNS_ERR_FORMAT, zeroed, written)
          | QCBOR_SUCCESS =>
              if (zlen encoded =? 0) || (b_cap output <? zlen encoded) then (PBNS_ERR_FORMAT, zeroed, written)
              else (PBNS_OK, data, Some (zlen encoded))
          end
      end
  end.
End code.

(** ** What is derived and encoded *)

(** The parts that identify the firmware. *)
Definition identity_parts (vendor version : bytes) : list bytes := [firmware_domain; vendor; [0]; version].

Definition some_bit (digest : bytes) : Prop := ~ Forall (fun b => b = 0) digest.

(** A report of a platform in a state that can be approved. *)
Definition approvable (r : pbns_inventory_report) (measurement : bytes) : Prop :=
  rp_outcomes r !! 0%nat = Some PBNS_INVENTORY_OK /\ rp_outcomes r !! 2%nat = Some PBNS_INVENTORY_OK
  /\ rp_outcomes r !! 3%nat = Some PBNS_INVENTORY_OK /\ text_of (rp_firmware_vendor r) <> [] /\ text_of (rp_firmware_version r) <> []
  /\ tidy (text_of (rp_firmware_vendor r)) /\ tidy (text_of (rp_firmware_version r))
  /\ rp_block_device_count r <= PBNS_INVENTORY_BLOCK_DEVICE_MAX /\ rp_secure_boot r = true /\ rp_setup_mode r = false
  /\ some_bit measurement /\ some_bit (rp_db_digest r) /\ some_bit (rp_dbx_digest r).

(** The baseline of a report. *)
Definition derived (r : pbns_inventory_report) (measurement firmware : bytes) : pbns_controlled_baseline :=
  mk_controlled measurement (rp_secure_boot r) (rp_setup_mode r) (rp_db_digest r) (rp_dbx_digest r) firmware
    (rp_memory_mib r) (rp_storage_capacity_gib r) (rp_block_device_count r) 0 0 0.

Definition report_sized (r : pbns_inventory_report) : Prop :=
  text_sized (rp_firmware_vendor r) /\ text_sized (rp_firmware_version r) /\ zlen (rp_outcomes r) = 5.

(** The ranges of the C types. *)
Definition controlled_typed (v : pbns_controlled_baseline) : Prop :=
  zlen (cb_measurement_digest v) = 32 /\ zlen (cb_db_digest v) = 32 /\ zlen (cb_dbx_digest v) = 32 /\ zlen (cb_firmware_digest v) = 32
  /\ u64_ok (cb_memory_mib v) /\ u64_ok (cb_storage_gib v) /\ u64_ok (cb_block_devices v)
  /\ u64_ok (cb_memory_mib_delta v) /\ u64_ok (cb_storage_gib_delta v) /\ u64_ok (cb_block_device_delta v).

Lemma zero_split (a a' b b' : bytes) : zero_free a -> zero_free a' -> a ++ 0 :: b = a' ++ 0 :: b' -> a = a' /\ b = b'.
Proof.
  intros Ha. revert a'. induction Ha as [|x a Hx _ IH]; intros a' Ha' E; destruct Ha' as [|y a' Hy Ha']; cbn [app] in E.
  - split; congruence.
  - congruence.
  - congruence.
  - injection E as E1 E2. subst y. destruct (IH a' Ha' E2) as [-> ->]. done.
Qed.

Lemma tidy_zero_free l : tidy l -> zero_free l.
Proof. intros H. apply tidy_graphic in H. eapply Forall_impl; [|exact H]. intros c [->|Hc]; [done|]. unfold graphic in Hc. lia. Qed.

(** The firmware identity tells vendor and version apart. *)
Lemma identity_parts_inj v w v' w' : tidy v -> tidy v' -> concat (identity_parts v w) = concat (identity_parts v' w') -> v = v' /\ w = w'.
Proof.
  intros Hv Hv' E. unfold identity_parts in E. cbn [concat] in E. rewrite !app_nil_r in E. apply app_inv_head in E. cbn [app] in E.
  apply zero_split in E; [done|by apply tidy_zero_free..].
Qed.

Lemma text_view_spec address t : text_sized t -> text_view address t = Some (mk_view address (text_of t)).
Proof.
  intros [H96 Hl]. unfold text_view, PBNS_INVENTORY_TEXT_MAX_SIZE in *. rewrite rd_slice_inside by lia. done.
Qed.

Lemma from_inventory_spec measurement r va wa hash v0 : report_sized r -> 0 < va -> 0 < wa ->
  let firmware := hash (identity_parts (text_of (rp_firmware_vendor r)) (text_of (rp_firmware_version r))) in
  exists st v', pbns_controlled_baseline_from_inventory (Some measurement) (Some r) va wa (Some hash) (Some v0) = Some (st, Some v')
  /\ (st = PBNS_OK <-> approvable r measurement /\ fst firmware = PBNS_OK /\ some_bit (snd firmware))
  /\ v' = if is_ok st then derived r measurement (snd firmware) else zero_controlled.
Proof.
  intros (Hv & Hw & H5) Hva Hwa firmware. unfold pbns_controlled_baseline_from_inventory, approvable.
  pose proof (text_empty _ Hv) as Ev. pose proof (text_empty _ Hw) as Ew. pose proof (text_of_length _ Hv) as Lv. pose proof (text_of_length _ Hw) as Lw.
  destruct (text_is_normalized_spec _ Hv) as (bv & Env & Hbv). destruct (text_is_normalized_spec _ Hw) as (bw & Enw & Hbw).
  destruct (rp_outcomes r) as [|o0 [|o1 [|o2 [|o3 [|o4 [|]]]]]]; try (cbn in H5; lia).
  change (rd [o0; o1; o2; o3; o4] 0) with (Some o0). change (rd [o0; o1; o2; o3; o4] 2) with (Some o2). change (rd [o0; o1; o2; o3; o4] 3) with (Some o3).
  cbn [mbind option_bind lookup list_lookup fmap option_fmap option_map].
  destruct (_ || (tx_len (rp_firmware_version r) =? 0)) eqn:E1.
  { do 2 eexists. split; [done|]. split; [|done]. split; [done|]. intros ((H0 & H2 & H3 & Hnv & Hnw & _) & _). simplify_eq.
    rewrite Ev in Hnv. rewrite Ew in Hnw. unfold PBNS_INVENTORY_OK in E1. lia. }
  bools. simplify_eq. rewrite Env, Enw. cbn [mbind option_bind].
  destruct (_ || (PBNS_INVENTORY_BLOCK_DEVICE_MAX <? rp_block_device_count r)) eqn:E2.
  { do 2 eexists. split; [done|]. split; [|done]. split; [done|]. intros ((_ & _ & _ & _ & _ & Tv & Tw & Hb & _) & _).
    apply Hbv in Tv as ->. apply Hbw in Tw as ->. cbn in E2. lia. }
  bools. rewrite !text_view_spec by done. cbn [mbind option_bind]. unfold pbns_controlled_baseline_firmware_identity, v_len, view_is_valid.
  cbn [v_data v_ptr fmap option_fmap option_map]. destruct Hv as [_ Hv], Hw as [_ Hw]. unfold PBNS_INVENTORY_TEXT_MAX_SIZE in *.
  rewrite Lv, Lw. replace (_ || _ || _ || _) with false by (symmetry; rewrite !orb_false_iff; lia). replace (_ || _) with false by lia.
  fold (identity_parts (text_of (rp_firmware_vendor r)) (text_of (rp_firmware_version r))). fold firmware. destruct firmware as [hst digest]. cbn [fst snd].
  destruct (is_ok hst) eqn:Eh; cbn [negb orb].
  2: { apply is_ok_false in Eh as Hne. exists hst, zero_controlled. rewrite Eh. split; [done|]. split; [|done]. split; [done|]. by intros (_ & ? & _). }
  apply is_ok_spec in Eh as ->. cbn [default]. unfold id. unfold controlled_valid, nonzero_digest.
  cbn [cb_measurement_digest cb_secure_boot cb_setup_mode cb_db_digest cb_dbx_digest cb_firmware_digest].
  destruct (_ && ct_nonzero digest) eqn:Ec; cbn [negb].
  - do 2 eexists. split; [done|]. split; [|done]. split; [|done]. intros _. bools. unfold some_bit. rewrite <- !ct_nonzero_spec.
    split_and!; first [done | (intros X; apply Ev in X; lia) | (intros X; apply Ew in X; lia) | by apply Hbv | by apply Hbw].
  - do 2 eexists. split; [done|]. split; [|done]. split; [done|]. intros ((_ & _ & _ & _ & _ & _ & _ & _ & Hsb & Hsm & M1 & M2 & M3) & _ & M4).
    unfold some_bit in *. apply ct_nonzero_spec in M1, M2, M3, M4. rewrite Hsb, Hsm, M1, M2, M3, M4 in Ec. done.
Qed.

Lemma controlled_tree_ok v : controlled_typed v -> tree_ok (controlled_tree v).
Proof.
  intros (D1 & D2 & D3 & D4 & N). unfold u64_ok, UINT64_MAX in *. unfold controlled_tree, uint_field, bytes_field, leaf.
  cbn [tree_ok fst snd fold_right length cbor_value_ok]. unfold label_ok, INT64_MAX, UINT64_MAX. repeat split; done || lia.
Qed.

Lemma controlled_tree_inj v w : controlled_typed v -> controlled_typed w -> tree_encode (controlled_tree v) = tree_encode (controlled_tree w) -> v = w.
Proof.
  intros Hv Hw E. apply tree_encode_inj in E; [|by apply controlled_tree_ok..]. destruct v, w. unfold controlled_tree, uint_field, bytes_field, leaf in E.
  cbn in E. by simplify_eq.
Qed.

(** ** Properties *)

(** C34: only an approvable platform state becomes a controlled baseline, and its
    encoding is exact.  Deriving always returns: it succeeds exactly when the SMBIOS,
    storage and Secure Boot collectors succeeded, the firmware texts are there, Secure
    Boot is on and setup mode off, no digest is all zeros and the hash succeeded, and it
    leaves a cleared baseline otherwise.  The firmware digest is the hash of parts that
    no other vendor and version share.  A derived baseline is accepted by the encoder,
    which gives its canonical octets or reports too small an output with everything
    zeroed, and the octets determine the baseline. *)
Theorem controlled_baseline_exact `{S : QCBORSpiffy} (measurement : bytes) (r : pbns_inventory_report) (vendor_at version_at : Z)
  (hash : pbns_controlled_baseline_hash_fn) (v0 : pbns_controlled_baseline) (output : pbns_buffer) (size0 : Z) :
  report_sized r -> 0 < vendor_at -> 0 < version_at -> b_ptr output <> 0 -> b_len output = 0 -> 0 < b_cap output < UINT32_MAX ->
  let parts := identity_parts (text_of (rp_firmware_vendor r)) (text_of (rp_firmware_version r)) in
  exists st v', pbns_controlled_baseline_from_inventory (Some measurement) (Some r) vendor_at version_at (Some hash) (Some v0) = Some (st, Some v')
  /\ (st = PBNS_OK <-> approvable r measurement /\ fst (hash parts) = PBNS_OK /\ some_bit (snd (hash parts)))
  /\ (st <> PBNS_OK -> v' = zero_controlled)
  /\ (st = PBNS_OK -> v' = derived r measurement (snd (hash parts))
      /\ (exists data size, pbns_controlled_baseline_encode (Some v') output (Some size0)
            = (if b_cap output <? zlen (tree_encode (controlled_tree v')) then PBNS_ERR_LIMIT else PBNS_OK, data, Some size)
          /\ length data = length (b_data output)
          /\ if b_cap output <? zlen (tree_encode (controlled_tree v')) then size = 0 /\ Forall (fun b => b = 0) data
             else take (Z.to_nat size) data = tree_encode (controlled_tree v'))
      /\ (forall w, controlled_typed v' -> controlled_typed w -> tree_encode (controlled_tree v') = tree_encode (controlled_tree w) -> v' = w)
      /\ (forall v w, tidy v -> concat parts = concat (identity_parts v w) ->
            v = text_of (rp_firmware_vendor r) /\ w = text_of (rp_firmware_version r))).
Proof.
  intros Hr Hva Hwa Hptr Hlen Hcap parts. destruct (from_inventory_spec measurement r vendor_at version_at hash v0 Hr Hva Hwa) as (st & v' & E & Hiff & Hv').
  exists st, v'. split; [done|]. split; [done|]. split; [intros Hne; apply is_ok_false in Hne; by rewrite Hne in Hv'|].
  intros ->. cbn [is_ok] in Hv'. subst v'. destruct (proj1 Hiff eq_refl) as (Ha & Hh & Hd). split; [done|].
  split; [|split; [intros w Hw1 Hw2; by apply controlled_tree_inj|]].
  - set (v := derived r measurement _). unfold pbns_controlled_baseline_encode.
    assert (Hvalid : controlled_valid (Some v) = true).
    { destruct Ha as (_ & _ & _ & _ & _ & _ & _ & _ & Hsb & Hsm & M1 & M2 & M3). unfold some_bit in *. apply ct_nonzero_spec in M1, M2, M3, Hd.
      unfold controlled_valid, nonzero_digest, v, derived.
      cbn [cb_measurement_digest cb_secure_boot cb_setup_mode cb_db_digest cb_dbx_digest cb_firmware_digest]. unfold parts. by rewrite M1, M2, M3, Hsb, Hsm, Hd. }
    replace (negb (b_ptr output =? 0) && (b_len output =? 0) && (0 <? b_cap output)) with true by lia. rewrite Hvalid.
    cbn [fmap option_fmap option_map negb].
    destruct (tree_encode_cases (controlled_tree v) (replicate (length (b_data output)) 0)) as (e & out & data & -> & Hd' & He);
      [rewrite length_replicate; unfold b_cap in Hcap; lia|]. rewrite length_replicate in *. fold (b_cap output) in *.
    pose proof (tree_encode_pos (controlled_tree v)) as Hpos. destruct (Z.ltb_spec (b_cap output) (zlen (tree_encode (controlled_tree v)))).
    + subst e. do 2 eexists. split; [done|]. rewrite length_replicate. split; [done|]. split; [done|]. by apply Forall_replicate.
    + destruct He as (-> & -> & ->). replace (_ || _) with false by lia. do 2 eexists. split; [done|]. split; [done|]. by rewrite Nat2Z.id, take_app_length.
  - intros v w Hv Ep. destruct Ha as (_ & _ & _ & _ & _ & Tv & _). destruct (identity_parts_inj _ _ _ _ Tv Hv Ep) as [-> ->]. done.
Qed.

(** ** Witness *)

Definition ex_text (octets : bytes) : pbns_inventory_text := mk_text (octets ++ replicate (96 - length octets) 0) (zlen octets).

Definition ex_approved : pbns_inventory_report :=
  mk_report (replicate 32 1) (replicate 32 2) (ex_text [65; 66]) (ex_text [49; 46; 50]) zero_text 8192 (replicate 32 3) 1 500 true false
    (replicate 32 4) (replicate 32 5) false 0 0 (replicate 8 0) 0 0 0 0 (replicate 5 0) (replicate 8 zero_timing) 0 0.

Definition ex_parts_hash : pbns_controlled_baseline_hash_fn := fun _ => (PBNS_OK, replicate 32 7).

Lemma ex_approved_sized : report_sized ex_approved.
Proof. unfold report_sized, text_sized. repeat split; vm_compute; (reflexivity || discriminate). Qed.

Lemma controlled_baseline_exact_witness :
  exists st v', pbns_controlled_baseline_from_inventory (Some (replicate 32 6)) (Some ex_approved) 4096 8192 (Some ex_parts_hash)
                  (Some zero_controlled) = Some (st, Some v')
  /\ st = PBNS_OK /\ v' = derived ex_approved (replicate 32 6) (replicate 32 7)
  /\ exists data size, @pbns_controlled_baseline_encode tree_qcbor tree_spiffy (Some v') (mk_buffer 64 0 (replicate 256 9)) (Some 5)
       = (PBNS_OK, data, Some size).
Proof.
  destruct (@controlled_baseline_exact tree_qcbor tree_spiffy (replicate 32 6) ex_approved 4096 8192 ex_parts_hash zero_controlled
    (mk_buffer 64 0 (replicate 256 9)) 5 ex_approved_sized) as (st & v' & E & _ & _ & H).
  - lia.
  - lia.
  - discriminate.
  - reflexivity.
  - vm_compute. split; reflexivity.
  - exists st, v'. split; [exact E|].
    assert (Hst : st = PBNS_OK).
    { pose (result := fun o : option (pbns_status * ptr pbns_controlled_baseline) => match o with Some (st, _) => st | None => PBNS_ERR_FORMAT end).
      transitivity (result (Some (st, Some v'))); [reflexivity|]. rewrite <- E. vm_compute. reflexivity. }
    split; [exact Hst|]. destruct (H Hst) as (Hv & (data & size & Ee & _) & _). split; [exact Hv|]. exists data, size.
    rewrite Ee. rewrite Hv. vm_compute. reflexivity.
Defined.
