(* ===== verification/TreeReads.v ===== *)
(** * Reading nested CBOR items in order

    What the sources rely on when they take nested items one by one: the QCBOR
    decoder hands out the items of a well-formed tree depth first, each with its
    nesting level, label and tags.  The class [TreeReads] states this for the
    serialization that the encoder writes; the reference decoder satisfies it. *)

From stdpp Require Import base list numbers.
From Stdlib Require Import ZArith Lia.
From S2P Require Import Prelude Endian Buffers Cbor CborTree RecoveryManifest.

(** The item that is handed out stands for the one of the tree: the members of
    the unions that its types select agree, and a string has an address. *)
Record item_agrees (spec item : QCBORItem) : Prop := mk_agrees {
  agrees_type : uDataType item = uDataType spec;
  agrees_level : uNestingLevel item = uNestingLevel spec;
  agrees_label_type : uLabelType item = uLabelType spec;
  agrees_label : uLabelType spec = QCBOR_TYPE_INT64 -> label_int64 item = label_int64 spec;
  agrees_int : uDataType spec = QCBOR_TYPE_INT64 -> val_int64 item = val_int64 spec;
  agrees_uint : uDataType spec = QCBOR_TYPE_UINT64 -> val_uint64 item = val_uint64 spec;
  agrees_count : uDataType spec = QCBOR_TYPE_ARRAY \/ uDataType spec = QCBOR_TYPE_MAP -> val_uCount item = val_uCount spec;
  agrees_string : uDataType spec = QCBOR_TYPE_BYTE_STRING \/ uDataType spec = QCBOR_TYPE_TEXT_STRING ->
    val_string item = val_string spec /\ val_string_ptr item <> 0;
}.

(** [to_read] is what the decoder has still to hand out: the items with their tags. *)
Class TreeReads `{S : QCBORSpiffy} := {
  to_read : QCBORDecodeContext -> option (list (QCBORItem * list Z));
  tree_next : forall d spec tags rest, to_read d = Some ((spec, tags) :: rest) ->
    exists item d', QCBORDecode_GetNext d = (Some item, d') /\ to_read d' = Some rest /\ item_agrees spec item
    /\ forall n, 0 <= n -> QCBORDecode_GetNthTag d' item n = default CBOR_TAG_INVALID64 (tags !! Z.to_nat n);
  tree_start : forall t, tree_readable t ->
    to_read (QCBORDecode_Init (tree_encode t)) = Some (tree_items 0 QCBOR_TYPE_NONE 0 [] (tree_norm t));
  tree_end : forall d, to_read d = Some [] -> QCBORDecode_Finish d = true;
}.

Section reading.
Context `{Q : QCBORSpiffy} `{!TreeReads}.

(** An expected item is taken. *)
Lemma expect_reads d spec tags rest test :
  to_read d = Some ((spec, tags) :: rest) -> (forall item, item_agrees spec item -> test item = true) ->
  exists item d', expect_item d test = Some (item, d') /\ to_read d' = Some rest /\ item_agrees spec item
  /\ forall n, 0 <= n -> QCBORDecode_GetNthTag d' item n = default CBOR_TAG_INVALID64 (tags !! Z.to_nat n).
Proof.
  intros Hd Ht. destruct (tree_next _ _ _ _ Hd) as (item & d' & E & Hr & Ha & Htag). exists item, d'. unfold expect_item. rewrite E.
  cbn [mbind option_bind]. by rewrite Ht.
Qed.

(** A labelled item of the outer map is taken. *)
Lemma next_item_reads d spec tags rest label :
  to_read d = Some ((spec, tags) :: rest) -> uNestingLevel spec = 1 -> uLabelType spec = QCBOR_TYPE_INT64 -> label_int64 spec = label ->
  exists item d', next_item d label = (Some item, d') /\ to_read d' = Some rest /\ item_agrees spec item.
Proof.
  intros Hd Hl Ht Hlab. destruct (tree_next _ _ _ _ Hd) as (item & d' & E & Hr & Ha & _). exists item, d'. unfold next_item. rewrite E.
  destruct Ha as [H1 H2 H3 H4 H5 H6 H7 H8] eqn:EA. rewrite H2, H3, H4, Hl, Ht, Hlab, !Z.eqb_refl by done. cbn [negb orb].
  split; [done|]. split; [done|]. exact Ha.
Qed.

(** An unsigned integer, whichever of the two types it has. *)
Lemma uint_agrees level label_type label tags v spec item :
  0 <= v <= UINT64_MAX -> tree_items level label_type label tags (TValue (CUInt v)) = [(spec, tags)] ->
  item_agrees spec item -> item_to_uint64 item = Some v.
Proof.
  intros Hv E [H1 _ _ _ H5 H6 _ _]. unfold item_to_uint64. cbn [tree_items] in E.
  destruct (v <=? INT64_MAX); injection E as <-; cbn in *; rewrite H1; cbn.
  - rewrite H5 by done. by rewrite (proj2 (Z.leb_le 0 v)) by lia.
  - by rewrite H6.
Qed.
End reading.

Lemma items_agree_self spec : val_string_ptr spec <> 0 -> item_agrees spec spec.
Proof. by constructor. Qed.

Definition addressed (p : QCBORItem * list Z) : Prop := val_string_ptr (fst p) <> 0.

Lemma tree_items_addressed depth level label_type label tags t : (tree_depth t <= depth)%nat ->
  Forall addressed (tree_items level label_type label tags t).
Proof.
  revert level label_type label tags t. induction depth as [|depth IH]; intros level label_type label tags t Hd; [destruct t; cbn in Hd; lia|].
  destruct t as [v|b|items|fields|tag content]; cbn [tree_items tree_depth] in *.
  - destruct v as [v| | |]; [case_match|..]; by repeat constructor.
  - by repeat constructor.
  - constructor; [done|]. apply Forall_concat, Forall_map, Forall_forall. intros x Hx. apply IH.
    apply (in_list_max tree_depth items x); [done|lia].
  - constructor; [done|]. apply Forall_concat, Forall_map, Forall_forall. intros x Hx. apply IH.
    apply (in_list_max (fun p : Z * cbor_tree => tree_depth (snd p)) fields x); [done|lia].
  - apply IH. lia.
Qed.

(** The reference decoder: only the items that have an address are left to read. *)
#[export] Instance tree_tree_reads : @TreeReads tree_qcbor tree_spiffy.
Proof.
  refine (@Build_TreeReads tree_qcbor tree_spiffy (fun d : @QCBORDecodeContext tree_qcbor =>
    match td_maps d with
    | Some [] => if forallb (fun p => negb (val_string_ptr (fst p) =? 0)) (td_items d) then Some (td_items d) else None
    | _ => None
    end) _ _ _).
  - intros [items tags0 t maps] spec tags rest. cbn [td_maps td_items]. destruct maps as [[|]|]; try done.
    destruct (forallb _ items) eqn:E; [|done]. intros [= ->]. cbn [forallb fst] in E. apply andb_true_iff in E as [E1 E2].
    exists spec, (mk_tree_decoder rest tags t (Some [])). cbn. rewrite E2. split; [done|]. split; [done|].
    split; [apply items_agree_self; bools; done|done].
  - intros t (Hok & _ & Hd & _). cbn [QCBORDecode_Init tree_qcbor]. unfold tree_init.
    rewrite <- (app_nil_r (tree_encode _)), parse_tree_encode by (done || lia). cbn [td_maps td_items].
    assert (Hall : forallb (fun p : QCBORItem * list Z => negb (val_string_ptr (fst p) =? 0)) (tree_items 0 QCBOR_TYPE_NONE 0 [] (tree_norm t)) = true).
    { apply forallb_forall. intros x Hx. apply negb_true_iff, Z.eqb_neq.
      pose proof (tree_items_addressed _ 0 QCBOR_TYPE_NONE 0 [] (tree_norm t) (le_n _)) as HF.
      rewrite Forall_forall in HF. by apply HF. }
    by rewrite Hall.
  - intros [items tags0 t maps]. cbn [td_maps td_items]. destruct maps as [[|]|]; try done.
    destruct (forallb _ items); [|done]. intros [= ->]. done.
Qed.
