(* ===== verification/AttestationReceipt.v ===== *)
(** * Attestation receipts ([include/pbns/attestation_receipt.h], [src/core/attestation_receipt.c])

    The verifier answers evidence with a signed receipt: its verdict, the reasons
    for it, and what it judged.  The receipt is a canonical CBOR map inside a
    canonical COSE_Sign1 message, signed over data that names the request. *)

From stdpp Require Import base list numbers.
From Stdlib Require Import ZArith Lia.
From S2P Require Import Prelude Endian Status Buffers Cbor CborTree Compare Crypto RecoveryManifest.

(** ** Constants: "PBNS-ATTESTATION-RECEIPT-v1" and "PBNS-ATTESTATION-RECEIPT-SIGN-v1" *)

Definition PBNS_ATTESTATION_RECEIPT_DOMAIN : bytes :=
  [80; 66; 78; 83; 45; 65; 84; 84; 69; 83; 84; 65; 84; 73; 79; 78; 45; 82; 69; 67; 69; 73; 80; 84; 45; 118; 49].
Definition PBNS_ATTESTATION_RECEIPT_AAD_DOMAIN : bytes :=
  [80; 66; 78; 83; 45; 65; 84; 84; 69; 83; 84; 65; 84; 73; 79; 78; 45; 82; 69; 67; 69; 73; 80; 84; 45; 83; 73; 71; 78; 45; 118; 49].
Definition PBNS_ATTESTATION_RECEIPT_VERSION : Z := 1.
Definition PBNS_ATTESTATION_RECEIPT_SERVICE : Z := 3.
Definition PBNS_ATTESTATION_RECEIPT_REQUEST_ID_SIZE : Z := 16.
Definition PBNS_ATTESTATION_RECEIPT_DIGEST_SIZE : Z := 32.
Definition PBNS_ATTESTATION_RECEIPT_MAX_KEY_ID_SIZE : Z := 64.
Definition PBNS_ATTESTATION_RECEIPT_MAX_REASONS : Z := 16.
Definition PBNS_ATTESTATION_RECEIPT_MAX_PAYLOAD_SIZE : Z := 512.
Definition PBNS_ATTESTATION_RECEIPT_MAX_SIGNED_SIZE : Z := 4096.
Definition PBNS_ATTESTATION_RECEIPT_MAX_AAD_SIZE : Z := 320.

Definition PBNS_ATTESTATION_RECEIPT_FULL : Z := 1.
Definition PBNS_ATTESTATION_RECEIPT_REDUCED : Z := 2.
Definition PBNS_ATTESTATION_RECEIPT_FAILURE : Z := 3.

Definition PBNS_ATTESTATION_DISPLAY_FULL : Z := 1.
Definition PBNS_ATTESTATION_DISPLAY_REDUCED : Z := 2.
Definition PBNS_ATTESTATION_DISPLAY_FAILURE : Z := 3.

Definition PBNS_COSE_SIGN1_TAG : Z := 18.
Definition PBNS_COSE_ES256 : Z := -7.

(** ** Data *)

Record pbns_attestation_receipt_expectation := mk_receipt_expectation {
  ae_request_id : bytes;
  ae_verifier_nonce : bytes;
  ae_host_fingerprint : bytes;
  ae_evidence_digest : bytes;
  ae_baseline_id : bytes;
  ae_key_id : pbns_view;
}.

Record pbns_attestation_receipt_result := mk_receipt_result {
  rr_verdict : Z;
  rr_reasons : list Z;
  rr_reason_count : Z;
  rr_display_state : Z;
}.

Record pbns_attestation_receipt_workspace := mk_receipt_workspace {
  rw_canonical_payload : pbns_buffer;
  rw_canonical_cose : pbns_buffer;
  rw_aad : pbns_buffer;
}.

Record decoded_receipt := mk_decoded_receipt {
  dr_domain : pbns_view;
  dr_version : Z;
  dr_service : Z;
  dr_request_id : bytes;
  dr_verifier_nonce : bytes;
  dr_host_fingerprint : bytes;
  dr_evidence_digest : bytes;
  dr_baseline_id : bytes;
  dr_verdict : Z;
  dr_reasons : list Z;
  dr_key_id : pbns_view;
}.

(** [reason_count] reasons of the array [reasons] are in use: the list holds those. *)
Definition dr_reason_count (receipt : decoded_receipt) : Z := zlen (dr_reasons receipt).

(** The result before a receipt is accepted. *)
Definition failed_result : pbns_attestation_receipt_result :=
  mk_receipt_result PBNS_ATTESTATION_RECEIPT_FAILURE (replicate 16 0) 0 PBNS_ATTESTATION_DISPLAY_FAILURE.

(** ** Checks *)

Section checks.
Context `{Machine}.

Definition workspaces_overlap (workspace : pbns_attestation_receipt_workspace) : bool :=
  let payload := mk_view (b_ptr (rw_canonical_payload workspace)) (b_data (rw_canonical_payload workspace)) in
  let cose := mk_view (b_ptr (rw_canonical_cose workspace)) (b_data (rw_canonical_cose workspace)) in
  view_overlaps payload (rw_canonical_cose workspace) || view_overlaps payload (rw_aad workspace)
  || view_overlaps cose (rw_aad workspace).
End checks.

Definition receipt_expectation_valid (e : pbns_attestation_receipt_expectation) : bool :=
  ct_nonzero (ae_request_id e) && ct_nonzero (ae_verifier_nonce e) && ct_nonzero (ae_host_fingerprint e)
  && ct_nonzero (ae_evidence_digest e) && ct_nonzero (ae_baseline_id e)
  && view_is_valid (ae_key_id e) && (0 <? v_len (ae_key_id e))
  && (v_len (ae_key_id e) <=? PBNS_ATTESTATION_RECEIPT_MAX_KEY_ID_SIZE).

(** The loop of [reasons_valid]: in range, and above the reason before. *)
Fixpoint reasons_ascending (previous : option Z) (reasons : list Z) : bool :=
  match reasons with
  | [] => true
  | reason :: rest =>
      if (reason <? 1) || (16 <? reason) || match previous with Some p => reason <=? p | None => false end then false
      else reasons_ascending (Some reason) rest
  end.

Definition reasons_valid (receipt : decoded_receipt) : bool :=
  if negb (reasons_ascending None (dr_reasons receipt)) then false
  else if dr_verdict receipt =? PBNS_ATTESTATION_RECEIPT_FULL then dr_reason_count receipt =? 0
  else if dr_verdict receipt =? PBNS_ATTESTATION_RECEIPT_REDUCED
  then (dr_reason_count receipt =? 1) && (default 0 (dr_reasons receipt !! 0%nat) =? 1)
  else (dr_verdict receipt =? PBNS_ATTESTATION_RECEIPT_FAILURE) && (0 <? dr_reason_count receipt).

Definition decoded_shape_valid (receipt : decoded_receipt) : bool :=
  negb (v_ptr (dr_domain receipt) =? 0) && (v_len (dr_domain receipt) =? zlen PBNS_ATTESTATION_RECEIPT_DOMAIN)
  && bytes_eqb (v_data (dr_domain receipt)) PBNS_ATTESTATION_RECEIPT_DOMAIN
  && (dr_version receipt =? PBNS_ATTESTATION_RECEIPT_VERSION) && (dr_service receipt =? PBNS_ATTESTATION_RECEIPT_SERVICE)
  && ct_nonzero (dr_request_id receipt) && ct_nonzero (dr_verifier_nonce receipt) && ct_nonzero (dr_host_fingerprint receipt)
  && ct_nonzero (dr_evidence_digest receipt) && ct_nonzero (dr_baseline_id receipt)
  && negb (v_ptr (dr_key_id receipt) =? 0) && (0 <? v_len (dr_key_id receipt))
  && (v_len (dr_key_id receipt) <=? PBNS_ATTESTATION_RECEIPT_MAX_KEY_ID_SIZE) && reasons_valid receipt.

Definition bindings_match (receipt : decoded_receipt) (e : pbns_attestation_receipt_expectation) : bool :=
  ct_equal (dr_request_id receipt) (ae_request_id e) && ct_equal (dr_verifier_nonce receipt) (ae_verifier_nonce e)
  && ct_equal (dr_host_fingerprint receipt) (ae_host_fingerprint e) && ct_equal (dr_evidence_digest receipt) (ae_evidence_digest e)
  && ct_equal (dr_baseline_id receipt) (ae_baseline_id e)
  && (v_len (dr_key_id receipt) =? v_len (ae_key_id e)) && ct_equal (v_data (dr_key_id receipt)) (v_data (ae_key_id e)).

(** ** Encoding *)

Definition receipt_tree (receipt : decoded_receipt) : cbor_tree :=
  TMap [(1, TValue (CText (v_data (dr_domain receipt)))); (2, TValue (CUInt (dr_version receipt)));
        (3, TValue (CUInt (dr_service receipt))); (4, TValue (CBytes (dr_request_id receipt)));
        (5, TValue (CBytes (dr_verifier_nonce receipt))); (6, TValue (CBytes (dr_host_fingerprint receipt)));
        (7, TValue (CBytes (dr_evidence_digest receipt))); (8, TValue (CBytes (dr_baseline_id receipt)));
        (9, TValue (CUInt (dr_verdict receipt)));
        (10, TArray (map (fun reason => TValue (CUInt reason)) (dr_reasons receipt)));
        (11, TValue (CBytes (v_data (dr_key_id receipt))))].

Definition receipt_aad_tree (e : pbns_attestation_receipt_expectation) : cbor_tree :=
  TArray [TValue (CText PBNS_ATTESTATION_RECEIPT_AAD_DOMAIN); TValue (CUInt PBNS_ATTESTATION_RECEIPT_VERSION);
          TValue (CUInt PBNS_ATTESTATION_RECEIPT_SERVICE); TValue (CBytes (ae_request_id e));
          TValue (CBytes (ae_verifier_nonce e)); TValue (CBytes (ae_host_fingerprint e));
          TValue (CBytes (ae_evidence_digest e)); TValue (CBytes (ae_baseline_id e));
          TValue (CBytes (v_data (ae_key_id e)))].

Definition cose_tree (protected_headers payload signature : bytes) : cbor_tree :=
  TTag PBNS_COSE_SIGN1_TAG
    (TArray [TValue (CBytes protected_headers); TMap []; TValue (CBytes payload); TValue (CBytes signature)]).

Section code.
Context `{QCBORSpiffy}.

(** The common end of [encode_payload] and [make_aad]: the status, the octets of the output and [*written]. *)
Definition encode_into (tree : cbor_tree) (output : pbns_buffer) : pbns_status * bytes * Z :=
  let '(error, encoded, data) := QCBOREncode_tree tree (b_data output) in
  match error with
  | QCBOR_ERR_BUFFER_TOO_SMALL => (PBNS_ERR_LIMIT, data, 0)
  | QCBOR_ERR_OTHER => (PBNS_ERR_FORMAT, data, 0)
  | QCBOR_SUCCESS => (PBNS_OK, data, zlen encoded)
  end.

Definition encode_payload (receipt : decoded_receipt) (output : pbns_buffer) : pbns_status * bytes * Z :=
  encode_into (receipt_tree receipt) output.

Definition make_aad (e : pbns_attestation_receipt_expectation) (output : pbns_buffer) : pbns_status * bytes * Z :=
  encode_into (receipt_aad_tree e) output.

(** ** Decoding *)

Definition next_labeled (decoder : QCBORDecodeContext) (label : Z) : option (QCBORItem * QCBORDecodeContext) :=
  let '(item, decoder) := next_item decoder label in
  item ← item; Some (item, decoder).

(** The view of the string of an item. *)
Definition string_view (item : QCBORItem) : pbns_view := mk_view (val_string_ptr item) (val_string item).

Definition decode_uint (decoder : QCBORDecodeContext) (label : Z) : option (Z * QCBORDecodeContext) :=
  '(item, decoder) ← next_labeled decoder label;
  value ← item_to_uint64 item;
  Some (value, decoder).

Definition decode_fixed (decoder : QCBORDecodeContext) (label length : Z) : option (bytes * QCBORDecodeContext) :=
  '(item, decoder) ← next_labeled decoder label;
  if negb (uDataType item =? QCBOR_TYPE_BYTE_STRING) || negb (zlen (val_string item) =? length) then None
  else Some (val_string item, decoder).

Fixpoint decode_reasons (count : nat) (decoder : QCBORDecodeContext) : option (list Z * QCBORDecodeContext) :=
  match count with
  | O => Some ([], decoder)
  | S count =>
      '(item, decoder) ← expect_item decoder (fun item => (uNestingLevel item =? 2) && (uLabelType item =? QCBOR_TYPE_NONE));
      reason ← item_to_uint64 item;
      '(reasons, decoder) ← decode_reasons count decoder;
      Some (reason :: reasons, decoder)
  end.

(** [None] is [PBNS_ERR_FORMAT]. *)
Definition decode_payload (payload : bytes) : option decoded_receipt :=
  '(_, decoder) ← expect_item (QCBORDecode_Init payload) (fun item =>
    (uDataType item =? QCBOR_TYPE_MAP) && (uLabelType item =? QCBOR_TYPE_NONE) && (val_uCount item =? 11));
  '(domain, decoder) ← next_labeled decoder 1;
  if negb (uDataType domain =? QCBOR_TYPE_TEXT_STRING) then None
  else
  '(version, decoder) ← decode_uint decoder 2;
  '(service, decoder) ← decode_uint decoder 3;
  '(request_id, decoder) ← decode_fixed decoder 4 PBNS_ATTESTATION_RECEIPT_REQUEST_ID_SIZE;
  '(verifier_nonce, decoder) ← decode_fixed decoder 5 PBNS_ATTESTATION_RECEIPT_DIGEST_SIZE;
  '(host_fingerprint, decoder) ← decode_fixed decoder 6 PBNS_ATTESTATION_RECEIPT_DIGEST_SIZE;
  '(evidence_digest, decoder) ← decode_fixed decoder 7 PBNS_ATTESTATION_RECEIPT_DIGEST_SIZE;
  '(baseline_id, decoder) ← decode_fixed decoder 8 PBNS_ATTESTATION_RECEIPT_DIGEST_SIZE;
  '(verdict, decoder) ← decode_uint decoder 9;
  '(item, decoder) ← next_labeled decoder 10;
  if negb (uDataType item =? QCBOR_TYPE_ARRAY) || (PBNS_ATTESTATION_RECEIPT_MAX_REASONS <? val_uCount item) then None
  else
  '(reasons, decoder) ← decode_reasons (Z.to_nat (val_uCount item)) decoder;
  '(key_id, decoder) ← next_labeled decoder 11;
  if negb (uDataType key_id =? QCBOR_TYPE_BYTE_STRING) || negb (QCBORDecode_Finish decoder) then None
  else
  let receipt := mk_decoded_receipt (string_view domain) version service request_id verifier_nonce host_fingerprint
                   evidence_digest baseline_id verdict reasons (string_view key_id) in
  if decoded_shape_valid receipt then Some receipt else None.

(** ** The COSE profile *)

Definition cose_element (type : Z) (item : QCBORItem) : bool := (uNestingLevel item =? 1) && (uDataType item =? type).

(** The protected headers, the payload and the signature. *)
Definition cose_parts (signed_receipt : bytes) : option (bytes * bytes * bytes) :=
  '(item, decoder) ← expect_item (QCBORDecode_Init signed_receipt) (fun item =>
    (uDataType item =? QCBOR_TYPE_ARRAY) && (uLabelType item =? QCBOR_TYPE_NONE) && (val_uCount item =? 4));
  if negb (QCBORDecode_GetNthTag decoder item 0 =? PBNS_COSE_SIGN1_TAG)
     || negb (QCBORDecode_GetNthTag decoder item 1 =? CBOR_TAG_INVALID64) then None
  else
  '(protected_headers, decoder) ← expect_item decoder (cose_element QCBOR_TYPE_BYTE_STRING);
  '(_, decoder) ← expect_item decoder (fun item => cose_element QCBOR_TYPE_MAP item && (val_uCount item =? 0));
  '(payload, decoder) ← expect_item decoder (fun item =>
    cose_element QCBOR_TYPE_BYTE_STRING item && negb (zlen (val_string item) =? 0));
  '(signature, decoder) ← expect_item decoder (fun item =>
    cose_element QCBOR_TYPE_BYTE_STRING item && (zlen (val_string item) =? 64));
  if QCBORDecode_Finish decoder then Some (val_string protected_headers, val_string payload, val_string signature) else None.

Definition receipt_headers_accepted (protected_headers : bytes) (expected_kid : pbns_view) : bool :=
  match
    '(_, headers) ← expect_item (QCBORDecode_Init protected_headers) (fun item =>
      (uDataType item =? QCBOR_TYPE_MAP) && (val_uCount item =? 2));
    '(_, headers) ← expect_item headers (fun item => header 1 QCBOR_TYPE_INT64 item && (val_int64 item =? PBNS_COSE_ES256));
    '(_, headers) ← expect_item headers (fun item =>
      header 4 QCBOR_TYPE_BYTE_STRING item && (zlen (val_string item) =? v_len expected_kid)
      && ct_equal (val_string item) (v_data expected_kid));
    Some (QCBORDecode_Finish headers)
  with
  | Some true => true
  | _ => false
  end.

(** The check of the profile, by how the headers are read: whether the profile
    holds, and the octets of [canonical_cose]. *)
Definition profile_check (headers_accepted : bytes -> pbns_view -> bool) (signed_receipt : bytes) (expected_kid : pbns_view)
    (canonical_cose : pbns_buffer) : bool * bytes :=
  match cose_parts signed_receipt with
  | None => (false, b_data canonical_cose)
  | Some (protected_headers, payload, signature) =>
      if negb (headers_accepted protected_headers expected_kid) then (false, b_data canonical_cose)
      else
      let '(error, encoded_headers, _) := QCBOREncode_map (profile_fields expected_kid) (replicate 96 0) in
      match error with
      | QCBOR_SUCCESS =>
          if negb (zlen encoded_headers =? zlen protected_headers) || negb (bytes_eqb encoded_headers protected_headers)
          then (false, b_data canonical_cose)
          else
          let '(error, canonical, data) :=
            QCBOREncode_tree (cose_tree protected_headers payload signature) (b_data canonical_cose) in
          (match error with
           | QCBOR_SUCCESS => (zlen canonical =? zlen signed_receipt) && bytes_eqb canonical signed_receipt
           | _ => false
           end, data)
      | _ => (false, b_data canonical_cose)
      end
  end.

Definition receipt_profile_valid : bytes -> pbns_view -> pbns_buffer -> bool * bytes := profile_check receipt_headers_accepted.

Context {W : Type} `{Machine}.

(** The display state of a verdict. *)
Definition display_of (verdict : Z) : Z :=
  if verdict =? PBNS_ATTESTATION_RECEIPT_FULL then PBNS_ATTESTATION_DISPLAY_FULL
  else if verdict =? PBNS_ATTESTATION_RECEIPT_REDUCED then PBNS_ATTESTATION_DISPLAY_REDUCED
  else PBNS_ATTESTATION_DISPLAY_FAILURE.

(** The status, the workspace, the result and the world.  [key_id] of the
    expectation does not lie in the workspace. *)
Definition receipt_verify (verifier : pbns_crypto W) (signed_receipt : pbns_view) (e : pbns_attestation_receipt_expectation)
    (workspace : pbns_attestation_receipt_workspace) (w : W)
  : option (pbns_status * pbns_attestation_receipt_workspace * pbns_attestation_receipt_result * W) :=
  let '(mk_receipt_workspace canonical_payload canonical_cose aad) := workspace in
  if negb (view_is_valid signed_receipt) || (v_len signed_receipt =? 0)
     || (PBNS_ATTESTATION_RECEIPT_MAX_SIGNED_SIZE <? v_len signed_receipt) || negb (receipt_expectation_valid e)
     || negb (buffer_is_valid canonical_payload) || negb (buffer_is_valid canonical_cose) || negb (buffer_is_valid aad)
     || view_overlaps signed_receipt canonical_payload || view_overlaps signed_receipt canonical_cose
     || view_overlaps signed_receipt aad || workspaces_overlap workspace
  then Some (PBNS_ERR_ARGUMENT, workspace, failed_result, w)
  else if (b_cap canonical_payload <? PBNS_ATTESTATION_RECEIPT_MAX_PAYLOAD_SIZE) || (b_cap canonical_cose <? v_len signed_receipt)
          || (b_cap aad <? PBNS_ATTESTATION_RECEIPT_MAX_AAD_SIZE)
  then Some (PBNS_ERR_LIMIT, workspace, failed_result, w)
  else
  let '(profile, cose_data) := receipt_profile_valid (v_data signed_receipt) (ae_key_id e) canonical_cose in
  let canonical_cose := with_data canonical_cose cose_data in
  if negb profile then Some (PBNS_ERR_AUTHENTICATION, mk_receipt_workspace canonical_payload canonical_cose aad, failed_result, w)
  else
  let '(status, aad_data, aad_size) := make_aad e aad in
  let aad := with_data aad aad_data in
  if negb (is_ok status) then Some (status, mk_receipt_workspace canonical_payload canonical_cose aad, failed_result, w)
  else
  external_aad ← rd_slice (b_data aad) 0 aad_size;
  let '(status, payload, w) :=
    pbns_sign1_verify (Some verifier) signed_receipt (mk_view (b_ptr aad) external_aad) (Some null_view) w in
  if negb (is_ok status)
  then Some (PBNS_ERR_AUTHENTICATION, mk_receipt_workspace canonical_payload canonical_cose aad, failed_result, w)
  else
  let payload := default null_view payload in
  match decode_payload (v_data payload) with
  | None => Some (PBNS_ERR_FORMAT, mk_receipt_workspace canonical_payload canonical_cose aad, failed_result, w)
  | Some decoded =>
      let '(status, payload_data, canonical_size) := encode_payload decoded canonical_payload in
      let canonical_payload := with_data canonical_payload payload_data in
      let workspace := mk_receipt_workspace canonical_payload canonical_cose aad in
      if negb (is_ok status) || negb (canonical_size =? v_len payload) then Some (PBNS_ERR_FORMAT, workspace, failed_result, w)
      else
      canonical ← rd_slice payload_data 0 (v_len payload);
      if negb (bytes_eqb canonical (v_data payload)) then Some (PBNS_ERR_FORMAT, workspace, failed_result, w)
      else if negb (bindings_match decoded e) then Some (PBNS_ERR_AUTHENTICATION, workspace, failed_result, w)
      else
      reasons ← wr_list (rr_reasons failed_result) 0 (dr_reasons decoded);
      Some (PBNS_OK, workspace,
            mk_receipt_result (dr_verdict decoded) reasons (dr_reason_count decoded) (display_of (dr_verdict decoded)), w)
  end.

Definition pbns_attestation_receipt_verify (verifier : ptr (pbns_crypto W)) (signed_receipt : pbns_view)
    (expectation : ptr pbns_attestation_receipt_expectation) (workspace : ptr pbns_attestation_receipt_workspace)
    (result : ptr pbns_attestation_receipt_result) (w : W)
  : option (pbns_status * ptr pbns_attestation_receipt_workspace * ptr pbns_attestation_receipt_result * W) :=
  match verifier, expectation, workspace, result with
  | Some verifier, Some e, Some workspace, Some _ =>
      '(status, workspace, result, w) ← receipt_verify verifier signed_receipt e workspace w;
      Some (status, Some workspace, Some result, w)
  | _, _, _, _ => Some (PBNS_ERR_ARGUMENT, workspace, (fun _ => failed_result) <$> result, w)
  end.
End code.
