(* ===== verification/ReceiptProps.v ===== *)
(** * Attestation receipts: correctness

    A receipt is accepted exactly when the message is the canonical COSE_Sign1
    message of the pinned key, the verifier vouches for its payload over data that
    names the request, and the payload is the canonical encoding of a receipt for
    this request whose verdict and reasons agree. *)

From stdpp Require Import base list numbers.
From Stdlib Require Import ZArith Lia Sorted.
From S2P Require Import Prelude Endian Status Buffers Cbor CborTree Compare Crypto RecoveryManifest ManifestProps TreeReads AttestationReceipt.

(** ** What a receipt says *)

(** Reasons are numbers from 1 to 16 in strictly ascending order; there are none
    for a full verdict, the first alone for a reduced one and some for a failure. *)
Definition judged (verdict : Z) (reasons : list Z) : Prop :=
  Forall (fun r => 1 <= r <= 16) reasons /\ StronglySorted Z.lt reasons
  /\ (verdict = PBNS_ATTESTATION_RECEIPT_FULL /\ reasons = []
      \/ verdict = PBNS_ATTESTATION_RECEIPT_REDUCED /\ reasons = [1]
      \/ verdict = PBNS_ATTESTATION_RECEIPT_FAILURE /\ reasons <> []).

Definition receipt_sized (r : decoded_receipt) : Prop :=
  zlen (dr_request_id r) = 16 /\ zlen (dr_verifier_nonce r) = 32 /\ zlen (dr_host_fingerprint r) = 32
  /\ zlen (dr_evidence_digest r) = 32 /\ zlen (dr_baseline_id r) = 32.

Definition some_octet (l : bytes) : Prop := ~ Forall (fun b => b = 0) l.

(** A receipt that the verifier can issue. *)
Record issued (r : decoded_receipt) : Prop := mk_issued {
  is_sized : receipt_sized r;
  is_domain : v_data (dr_domain r) = PBNS_ATTESTATION_RECEIPT_DOMAIN;
  is_version : dr_version r = PBNS_ATTESTATION_RECEIPT_VERSION;
  is_service : dr_service r = PBNS_ATTESTATION_RECEIPT_SERVICE;
  is_marked : some_octet (dr_request_id r) /\ some_octet (dr_verifier_nonce r) /\ some_octet (dr_host_fingerprint r)
    /\ some_octet (dr_evidence_digest r) /\ some_octet (dr_baseline_id r);
  is_key : 0 < v_len (dr_key_id r) <= PBNS_ATTESTATION_RECEIPT_MAX_KEY_ID_SIZE;
  is_judged : judged (dr_verdict r) (dr_reasons r);
}.

(** Equal but for the addresses of the strings. *)
Definition same_receipt (a b : decoded_receipt) : Prop :=
  v_data (dr_domain a) = v_data (dr_domain b) /\ dr_version a = dr_version b /\ dr_service a = dr_service b
  /\ dr_request_id a = dr_request_id b /\ dr_verifier_nonce a = dr_verifier_nonce b
  /\ dr_host_fingerprint a = dr_host_fingerprint b /\ dr_evidence_digest a = dr_evidence_digest b
  /\ dr_baseline_id a = dr_baseline_id b /\ dr_verdict a = dr_verdict b /\ dr_reasons a = dr_reasons b
  /\ v_data (dr_key_id a) = v_data (dr_key_id b).

Definition receipt_octets (r : decoded_receipt) : bytes := tree_encode (receipt_tree r).

(** The receipt answers this request of this host. *)
Definition answers (r : decoded_receipt) (e : pbns_attestation_receipt_expectation) : Prop :=
  dr_request_id r = ae_request_id e /\ dr_verifier_nonce r = ae_verifier_nonce e /\ dr_host_fingerprint r = ae_host_fingerprint e
  /\ dr_evidence_digest r = ae_evidence_digest e /\ dr_baseline_id r = ae_baseline_id e
  /\ v_data (dr_key_id r) = v_data (ae_key_id e).

Definition receipt_expectation_sized (e : pbns_attestation_receipt_expectation) : Prop :=
  zlen (ae_request_id e) = 16 /\ zlen (ae_verifier_nonce e) = 32 /\ zlen (ae_host_fingerprint e) = 32
  /\ zlen (ae_evidence_digest e) = 32 /\ zlen (ae_baseline_id e) = 32.

(** The data that the signature covers beside the payload. *)
Definition receipt_aad_octets (e : pbns_attestation_receipt_expectation) : bytes := tree_encode (receipt_aad_tree e).

(** The canonical message of a key. *)
Definition cose_octets (kid : pbns_view) (payload signature : bytes) : bytes :=
  tree_encode (cose_tree (cbor_map (profile_fields kid)) payload signature).

(** The result of an accepted receipt. *)
Definition result_of (r : decoded_receipt) : pbns_attestation_receipt_result :=
  mk_receipt_result (dr_verdict r) (dr_reasons r ++ replicate (16 - length (dr_reasons r)) 0) (zlen (dr_reasons r)) (display_of (dr_verdict r)).

(** ** Verdict and reasons *)

Lemma ascending_spec previous l : reasons_ascending previous l = true <->
  Forall (fun r => 1 <= r <= 16) l /\ StronglySorted Z.lt l /\ match previous with Some p => Forall (Z.lt p) l | None => True end.
Proof.
  revert previous. induction l as [|r l IH]; intros previous; cbn [reasons_ascending].
  { split; [|done]. intros _. split; [constructor|]. split; [constructor|]. by destruct previous. }
  destruct (_ || _) eqn:E.
  - split; [done|]. intros (HF & _ & Hp). inversion_clear HF as [|? ? Hr _]. destruct previous as [p|]; [|lia].
    inversion_clear Hp as [|? ? Hpr _]. lia.
  - rewrite IH. assert (Hr : 1 <= r <= 16) by lia. assert (Hp : match previous with Some p => p < r | None => True end) by (destruct previous; [lia|done]).
    clear E. rewrite Forall_cons_iff. split.
    + intros (HF & Hs & Hl). split; [done|]. split; [by constructor|]. destruct previous as [p|]; [|done]. constructor; [done|].
      eapply Forall_impl; [|exact Hl]. cbn. lia.
    + intros ((_ & HF) & Hs & _). inversion_clear Hs as [|? ? Hs' Hl]. done.
Qed.

Lemma reasons_valid_spec r : reasons_valid r = true <-> judged (dr_verdict r) (dr_reasons r).
Proof.
  unfold reasons_valid, judged, dr_reason_count. pose proof (ascending_spec None (dr_reasons r)) as Ha.
  unfold PBNS_ATTESTATION_RECEIPT_FULL, PBNS_ATTESTATION_RECEIPT_REDUCED, PBNS_ATTESTATION_RECEIPT_FAILURE.
  destruct (reasons_ascending None (dr_reasons r)); cbn [negb]; [|split; [done|]; intros (? & ? & _); exfalso; assert (false = true) by (by apply Ha); done].
  destruct (proj1 Ha eq_refl) as (HF & Hs & _). clear Ha. destruct (Z.eqb_spec (dr_verdict r) 1) as [-> |H1]; [|destruct (Z.eqb_spec (dr_verdict r) 2) as [-> |H2]].
  - rewrite Z.eqb_eq. destruct (dr_reasons r); cbn; intuition (done || lia).
  - rewrite andb_true_iff, !Z.eqb_eq. destruct (dr_reasons r) as [|x [|y l]]; cbn; intuition (done || lia || congruence).
  - rewrite andb_true_iff, Z.eqb_eq, Z.ltb_lt. destruct (dr_reasons r); cbn; intuition (done || lia).
Qed.

Lemma ascending_length p l : reasons_ascending (Some p) l = true -> p <= 16 -> zlen l <= 16 - p.
Proof.
  revert p. induction l as [|r l IH]; intros p; cbn [reasons_ascending length]; [lia|]. destruct (_ || _) eqn:E; [done|]. intros H Hp.
  specialize (IH r H). lia.
Qed.

Lemma judged_length verdict reasons : judged verdict reasons -> zlen reasons <= 16.
Proof.
  intros (HF & Hs & _). apply (ascending_length 0); [|lia]. apply ascending_spec. split; [done|]. split; [done|].
  eapply Forall_impl; [|exact HF]. cbn. lia.
Qed.

(** ** Sizes of encodings *)

Lemma value_length v : zlen (cbor_encode v) <= 9 + match v with CText s | CBytes s => zlen s | _ => 0 end.
Proof.
  destruct v as [v|v|s|s]; cbn [cbor_encode]; rewrite ?length_app; [pose proof (cbor_head_at_most 0 v)|pose proof (cbor_int_at_most v)|
    pose proof (cbor_head_at_most 3 (zlen s))|pose proof (cbor_head_at_most 2 (zlen s))]; lia.
Qed.

(** A number below 24 takes one octet. *)
Lemma small_uint v : 0 <= v < 24 -> zlen (cbor_encode (CUInt v)) = 1.
Proof. intros Hv. cbn [cbor_encode]. unfold cbor_head. by rewrite (proj2 (Z.ltb_lt v 24)) by lia. Qed.

Lemma small_label v : 0 <= v < 24 -> zlen (cbor_int v) = 1.
Proof. intros Hv. unfold cbor_int. rewrite (proj2 (Z.ltb_ge v 0)) by lia. by apply (small_uint v). Qed.

Lemma reasons_octets reasons : Forall (fun r => 1 <= r <= 16) reasons ->
  zlen (concat (map tree_encode (map (fun reason => TValue (CUInt reason)) reasons))) = zlen reasons.
Proof.
  induction 1 as [|r l Hr _ IH]; [done|]. cbn [map concat length]. rewrite length_app. cbn [tree_encode].
  pose proof (small_uint r ltac:(lia)). lia.
Qed.

Lemma receipt_octets_length r : issued r -> 0 < zlen (receipt_octets r) <= 512.
Proof.
  intros [(L1 & L2 & L3 & L4 & L5) Hd Hv Hs _ Hk Hj]. split; [pose proof (tree_encode_pos (receipt_tree r)); unfold receipt_octets; lia|].
  pose proof (judged_length _ _ Hj) as Hl. destruct Hj as (HF & _ & Hverdict).
  unfold receipt_octets, receipt_tree, v_len, PBNS_ATTESTATION_RECEIPT_MAX_KEY_ID_SIZE in *. cbn [tree_encode map concat fst snd]. rewrite !length_app, !Nat2Z.inj_add, reasons_octets by done.
  rewrite !small_label by lia. rewrite Hd, Hv, Hs, length_map.
  assert (Hvd : 0 <= dr_verdict r < 24).
  { unfold PBNS_ATTESTATION_RECEIPT_FULL, PBNS_ATTESTATION_RECEIPT_REDUCED, PBNS_ATTESTATION_RECEIPT_FAILURE in *. lia. }
  rewrite !small_uint by (done || (vm_compute; done)).
  pose proof (value_length (CText PBNS_ATTESTATION_RECEIPT_DOMAIN)) as B1. pose proof (value_length (CBytes (dr_request_id r))) as B2.
  pose proof (value_length (CBytes (dr_verifier_nonce r))) as B3. pose proof (value_length (CBytes (dr_host_fingerprint r))) as B4.
  pose proof (value_length (CBytes (dr_evidence_digest r))) as B5. pose proof (value_length (CBytes (dr_baseline_id r))) as B6.
  pose proof (value_length (CBytes (v_data (dr_key_id r)))) as B7. pose proof (cbor_head_at_most 4 (zlen (dr_reasons r))).
  match goal with |- context [cbor_head 5 ?n] => pose proof (cbor_head_at_most 5 n) end.
  cbn match in *. change (zlen PBNS_ATTESTATION_RECEIPT_DOMAIN) with 27 in *. change (zlen (@nil Z)) with 0. lia.
Qed.

Lemma reasons_tree_ok reasons : Forall (fun r => 1 <= r <= 16) reasons ->
  fold_right (fun x Q => tree_ok x /\ Q) True (map (fun reason => TValue (CUInt reason)) reasons).
Proof. induction 1 as [|r l Hr _ IH]; [done|]. split; [|done]. cbn. unfold UINT64_MAX. lia. Qed.

Lemma receipt_tree_ok r : issued r -> tree_ok (receipt_tree r).
Proof.
  intros [(L1 & L2 & L3 & L4 & L5) Hd Hv Hs _ Hk Hj]. pose proof (judged_length _ _ Hj). destruct Hj as (HF & _ & Hverdict).
  unfold receipt_tree, v_len, PBNS_ATTESTATION_RECEIPT_MAX_KEY_ID_SIZE in *. rewrite Hd, Hv, Hs.
  assert (L : forall label, 0 <= label <= 20 -> label_ok label) by (intros; unfold label_ok, INT64_MAX; lia).
  unfold PBNS_ATTESTATION_RECEIPT_FULL, PBNS_ATTESTATION_RECEIPT_REDUCED, PBNS_ATTESTATION_RECEIPT_FAILURE in *.
  assert (B : forall s : bytes, zlen s <= 64 -> cbor_value_ok (CBytes s)) by (intros; cbn; unfold UINT64_MAX; lia).
  assert (U : forall v, 0 <= v <= 3 -> cbor_value_ok (CUInt v)) by (intros; cbn; unfold UINT64_MAX; lia).
  assert (D : cbor_value_ok (CText PBNS_ATTESTATION_RECEIPT_DOMAIN)) by (vm_compute; discriminate).
  cbn [tree_ok fold_right fst snd]. split; [vm_compute; discriminate|].
  repeat split; try (apply L; lia); try (apply B; lia); try (apply U; unfold PBNS_ATTESTATION_RECEIPT_VERSION, PBNS_ATTESTATION_RECEIPT_SERVICE; lia);
    [exact D|rewrite length_map; unfold UINT64_MAX; lia|by apply reasons_tree_ok].
Qed.

Lemma reasons_distinct reasons : forallb labels_distinct (map (fun reason => TValue (CUInt reason)) reasons) = true.
Proof. by induction reasons. Qed.

Lemma reasons_depth reasons : (list_max (map tree_depth (map (fun reason => TValue (CUInt reason)) reasons)) <= 1)%nat.
Proof. induction reasons as [|r l IH]; [cbn; lia|]. cbn [map list_max fold_right tree_depth]. fold (list_max (map tree_depth (map (fun reason => TValue (CUInt reason)) l))). lia. Qed.

Lemma receipt_readable r : issued r -> tree_readable (receipt_tree r).
Proof.
  intros Hr. split; [by apply receipt_tree_ok|]. split.
  { unfold receipt_tree. cbn [labels_distinct map fst snd forallb]. by rewrite reasons_distinct. }
  split; [|pose proof (receipt_octets_length r Hr); unfold receipt_octets, UINT16_MAX in *; lia].
  unfold receipt_tree. pose proof (reasons_depth (dr_reasons r)). cbn [tree_depth map snd list_max fold_right] in *. lia.
Qed.

Lemma receipt_octets_inj a b : issued a -> issued b -> receipt_octets a = receipt_octets b -> same_receipt a b.
Proof.
  intros Ha Hb E. apply tree_encode_inj in E; [|by apply receipt_tree_ok..]. unfold receipt_tree in E.
  cbn [tree_norm map fst snd cbor_norm] in E. rewrite !map_map in E. cbn [tree_norm cbor_norm] in E.
  assert (M : forall l l' : list Z, map (fun x => TValue (CUInt x)) l = map (fun x => TValue (CUInt x)) l' -> l = l').
  { induction l as [|x l IH]; intros [|y l'] El; try done. cbn in El. injection El as <- El. f_equal. by apply IH. }
  injection E. intros. unfold same_receipt. split_and!; try congruence. by apply M.
Qed.

(** ** Decoding *)

Lemma issued_same a b : issued a -> same_receipt a b -> issued b.
Proof.
  intros [Hs Hd Hv Hsv Hm Hk Hj] (E1 & E2 & E3 & E4 & E5 & E6 & E7 & E8 & E9 & E10 & E11).
  constructor; unfold receipt_sized, v_len in *; rewrite <- ?E1, <- ?E2, <- ?E3, <- ?E4, <- ?E5, <- ?E6, <- ?E7, <- ?E8, <- ?E9, <- ?E10, <- ?E11; done.
Qed.

Lemma same_receipt_octets a b : same_receipt a b -> receipt_octets a = receipt_octets b.
Proof.
  intros (E1 & E2 & E3 & E4 & E5 & E6 & E7 & E8 & E9 & E10 & E11). unfold receipt_octets, receipt_tree.
  by rewrite E1, E2, E3, E4, E5, E6, E7, E8, E9, E10, E11.
Qed.

Lemma shape_issued r : receipt_sized r -> decoded_shape_valid r = true -> issued r.
Proof.
  intros Hs H. unfold decoded_shape_valid in H. bools. constructor; try done.
  - by apply bytes_eqb_spec.
  - unfold some_octet. rewrite <- !ct_nonzero_spec. done.
  - by apply reasons_valid_spec.
Qed.

Lemma issued_shape r : issued r -> v_ptr (dr_domain r) <> 0 -> v_ptr (dr_key_id r) <> 0 -> decoded_shape_valid r = true.
Proof.
  intros [_ Hd Hv Hs (M1 & M2 & M3 & M4 & M5) Hk Hj] Hp1 Hp2. unfold some_octet in *. apply ct_nonzero_spec in M1, M2, M3, M4, M5.
  apply reasons_valid_spec in Hj. unfold decoded_shape_valid, v_len in *. rewrite Hd, Hv, Hs, M1, M2, M3, M4, M5, Hj, bytes_eqb_refl, !Z.eqb_refl.
  rewrite (proj2 (Z.eqb_neq _ _) Hp1), (proj2 (Z.eqb_neq _ _) Hp2), (proj2 (Z.ltb_lt 0 _)), (proj2 (Z.leb_le _ _)) by lia. done.
Qed.

Lemma decode_fixed_length `{S : QCBORSpiffy} d label n s d' : decode_fixed d label n = Some (s, d') -> zlen s = n.
Proof.
  unfold decode_fixed. destruct (next_labeled d label) as [[item d1]|]; [|done]. cbn [mbind option_bind].
  destruct (_ || _) eqn:E; [done|]. intros [= <- _]. bools. done.
Qed.

(** The steps of the decoder that succeeded. *)
Ltac decoder_step H :=
  match type of H with
  | mbind _ ?o = Some _ => let x := fresh "x" in let d := fresh "d" in let E := fresh "E" in destruct o as [[x d]|] eqn:E; [|done]; cbn [mbind option_bind] in H
  | (if ?b then None else _) = Some _ => let E := fresh "E" in destruct b eqn:E; [done|]
  end.

Lemma decode_payload_issued `{S : QCBORSpiffy} payload r : decode_payload payload = Some r -> issued r.
Proof.
  unfold decode_payload. intros H. do 16 (decoder_step H). cbv zeta in H. destruct (decoded_shape_valid _) eqn:Hv; [|done]. injection H as <-.
  apply shape_issued; [|done]. unfold receipt_sized. cbn. split_and!; eapply decode_fixed_length; eassumption.
Qed.

Section reads.
Context `{Q : QCBORSpiffy} `{!TreeReads}.

(** The items of a field of the outer map. *)
Notation field_items label value := (tree_items 1 QCBOR_TYPE_INT64 label [] (TValue value)).

Lemma next_labeled_reads d label v rest : to_read d = Some (field_items label v ++ rest) ->
  exists spec item d', field_items label v = [(spec, [])] /\ next_labeled d label = Some (item, d') /\ to_read d' = Some rest /\ item_agrees spec item.
Proof.
  intros Hd. assert (Hs : exists spec, field_items label v = [(spec, [])] /\ uNestingLevel spec = 1 /\ uLabelType spec = QCBOR_TYPE_INT64 /\ label_int64 spec = label).
  { destruct v as [v| | |]; cbn [tree_items]; [destruct (v <=? INT64_MAX)|..]; (eexists; split; [reflexivity|done]). }
  destruct Hs as (spec & Es & H1 & H2 & H3). rewrite Es in Hd. destruct (next_item_reads _ _ _ _ label Hd H1 H2 H3) as (item & d' & E & Hr & Ha).
  exists spec, item, d'. split; [done|]. unfold next_labeled. rewrite E. done.
Qed.

Lemma decode_uint_reads d label v rest : to_read d = Some (field_items label (CUInt v) ++ rest) -> 0 <= v <= UINT64_MAX ->
  exists d', decode_uint d label = Some (v, d') /\ to_read d' = Some rest.
Proof.
  intros Hd Hv. destruct (next_labeled_reads _ _ _ _ Hd) as (spec & item & d' & Es & E & Hr & Ha). exists d'. unfold decode_uint. rewrite E.
  cbn [mbind option_bind]. by rewrite (uint_agrees _ _ _ _ _ _ _ Hv Es Ha).
Qed.

Lemma string_reads d label (v : cbor_value) type s rest : (type, v) = (QCBOR_TYPE_BYTE_STRING, CBytes s) \/ (type, v) = (QCBOR_TYPE_TEXT_STRING, CText s) ->
  to_read d = Some (field_items label v ++ rest) ->
  exists item d', next_labeled d label = Some (item, d') /\ to_read d' = Some rest /\ uDataType item = type /\ val_string item = s /\ val_string_ptr item <> 0.
Proof.
  intros Hv Hd. destruct (next_labeled_reads _ _ _ _ Hd) as (spec & item & d' & Es & E & Hr & [H1 _ _ _ _ _ _ H8]). exists item, d'. split; [done|]. split; [done|].
  destruct Hv as [[= -> ->]|[= -> ->]]; cbn [tree_items] in Es; injection Es as <-; cbn in *; (split; [done|]); apply H8; auto.
Qed.

Lemma decode_fixed_reads d label s rest n : to_read d = Some (field_items label (CBytes s) ++ rest) -> zlen s = n ->
  exists d', decode_fixed d label n = Some (s, d') /\ to_read d' = Some rest.
Proof.
  intros Hd <-. destruct (string_reads d label (CBytes s) QCBOR_TYPE_BYTE_STRING s rest) as (item & d' & E & Hr & Ht & Hs & _); [by left|done|].
  exists d'. unfold decode_fixed. rewrite E. cbn [mbind option_bind]. by rewrite Ht, Hs, !Z.eqb_refl.
Qed.

Lemma decode_reasons_reads reasons d rest :
  to_read d = Some (concat (map (fun r => tree_items 2 QCBOR_TYPE_NONE 0 [] (TValue (CUInt r))) reasons) ++ rest) ->
  Forall (fun r => 1 <= r <= 16) reasons ->
  exists d', decode_reasons (length reasons) d = Some (reasons, d') /\ to_read d' = Some rest.
Proof.
  revert d. induction reasons as [|r reasons IH]; intros d Hd HF; [by exists d|]. inversion_clear HF as [|? ? Hr HF'].
  cbn [map concat] in Hd. rewrite <- app_assoc in Hd.
  set (spec := mk_item QCBOR_TYPE_INT64 2 QCBOR_TYPE_NONE 0 r 0 0 [] 4096).
  assert (Es : tree_items 2 QCBOR_TYPE_NONE 0 [] (TValue (CUInt r)) = [(spec, [])]) by (cbn [tree_items]; rewrite (proj2 (Z.leb_le r INT64_MAX)) by (unfold INT64_MAX; lia); done).
  rewrite Es in Hd. cbn [app] in Hd. cbn [length decode_reasons].
  destruct (expect_reads d spec [] _ (fun item => (uNestingLevel item =? 2) && (uLabelType item =? QCBOR_TYPE_NONE)) Hd) as (item & d1 & E & Hr1 & Ha & _).
  { intros item [_ H2 H3 _ _ _ _ _]. by rewrite H2, H3. }
  rewrite E. cbn [mbind option_bind]. rewrite (uint_agrees 2 QCBOR_TYPE_NONE 0 [] r spec item ltac:(unfold UINT64_MAX; lia) Es Ha).
  cbn [mbind option_bind]. destruct (IH d1 Hr1 HF') as (d' & E' & Hr'). exists d'. by rewrite E'.
Qed.
(** An issued receipt is read back. *)
Lemma decode_payload_reads r : issued r -> exists r', decode_payload (receipt_octets r) = Some r' /\ same_receipt r r'.
Proof.
  intros Hi. pose proof Hi as [(L1 & L2 & L3 & L4 & L5) Hd Hv Hs _ Hk Hj]. pose proof (judged_length _ _ Hj) as Hl. pose proof Hj as (HF & _ & Hverdict).
  unfold PBNS_ATTESTATION_RECEIPT_FULL, PBNS_ATTESTATION_RECEIPT_REDUCED, PBNS_ATTESTATION_RECEIPT_FAILURE in Hverdict.
  pose proof (tree_start _ (receipt_readable r Hi)) as O. unfold decode_payload, receipt_octets, PBNS_ATTESTATION_RECEIPT_REQUEST_ID_SIZE, PBNS_ATTESTATION_RECEIPT_DIGEST_SIZE. set (d := QCBORDecode_Init _) in *. clearbody d.
  unfold receipt_tree in O. cbn [tree_norm map fst snd cbor_norm] in O. rewrite map_map in O. cbn [tree_norm cbor_norm] in O.
  match type of O with _ = Some (tree_items _ _ _ _ (TMap ?l)) =>
    change (tree_items 0 QCBOR_TYPE_NONE 0 [] (TMap l)) with
      ((mk_item QCBOR_TYPE_MAP 0 QCBOR_TYPE_NONE 0 0 0 (zlen l) [] 4096, @nil Z)
       :: concat (map (fun p => tree_items 1 QCBOR_TYPE_INT64 (fst p) [] (snd p)) l)) in O
  end. cbn [map concat fst snd] in O. rewrite !app_nil_r in O.
  destruct (expect_reads d _ _ _ (fun item => (uDataType item =? QCBOR_TYPE_MAP) && (uLabelType item =? QCBOR_TYPE_NONE) && (val_uCount item =? 11)) O)
    as (head & d0 & -> & O0 & _).
  { intros item [H1 _ H3 _ _ _ H7 _]. rewrite H1, H3, H7 by (right; done). done. }
  cbn [mbind option_bind]. clear O d.
  destruct (string_reads d0 1 _ QCBOR_TYPE_TEXT_STRING (v_data (dr_domain r)) _ (or_intror eq_refl) O0) as (it1 & d1 & -> & O1 & T1 & S1 & P1).
  cbn [mbind option_bind]. rewrite T1. cbn [negb Z.eqb Pos.eqb QCBOR_TYPE_TEXT_STRING].
  destruct (decode_uint_reads _ _ _ _ O1) as (d2 & -> & O2); [rewrite Hv; done|]. cbn [mbind option_bind].
  destruct (decode_uint_reads _ _ _ _ O2) as (d3 & -> & O3); [rewrite Hs; done|]. cbn [mbind option_bind].
  destruct (decode_fixed_reads _ _ _ _ _ O3 L1) as (d4 & -> & O4). cbn [mbind option_bind].
  destruct (decode_fixed_reads _ _ _ _ _ O4 L2) as (d5 & -> & O5). cbn [mbind option_bind].
  destruct (decode_fixed_reads _ _ _ _ _ O5 L3) as (d6 & -> & O6). cbn [mbind option_bind].
  destruct (decode_fixed_reads _ _ _ _ _ O6 L4) as (d7 & -> & O7). cbn [mbind option_bind].
  destruct (decode_fixed_reads _ _ _ _ _ O7 L5) as (d8 & -> & O8). cbn [mbind option_bind].
  destruct (decode_uint_reads _ _ _ _ O8) as (d9 & -> & O9); [unfold UINT64_MAX; lia|]. cbn [mbind option_bind].
  match type of O9 with _ = Some (tree_items _ _ _ _ (TArray ?l) ++ ?r) =>
    change (tree_items 1 QCBOR_TYPE_INT64 10 [] (TArray l) ++ r) with
      ((mk_item QCBOR_TYPE_ARRAY 1 QCBOR_TYPE_INT64 10 0 0 (zlen l) [] 4096, @nil Z)
       :: concat (map (tree_items 2 QCBOR_TYPE_NONE 0 []) l) ++ r) in O9
  end. rewrite map_map in O9.
  destruct (next_item_reads d9 _ _ _ 10 O9 eq_refl eq_refl eq_refl) as (it10 & d10 & E10 & O10 & [T10 _ _ _ _ _ C10 _]).
  assert (N10 : next_labeled d9 10 = Some (it10, d10)) by (unfold next_labeled; by rewrite E10). rewrite N10.
  cbn [mbind option_bind]. rewrite T10, C10 by (left; done). cbn [uDataType val_uCount]. rewrite length_map.
  rewrite (proj2 (Z.ltb_ge PBNS_ATTESTATION_RECEIPT_MAX_REASONS _) Hl). cbn [negb Z.eqb Pos.eqb QCBOR_TYPE_ARRAY orb].
  rewrite Nat2Z.id. destruct (decode_reasons_reads _ _ _ O10 HF) as (d11 & -> & O11). cbn [mbind option_bind].
  rewrite <- (app_nil_r (tree_items _ _ _ _ _)) in O11.
  destruct (string_reads d11 11 _ QCBOR_TYPE_BYTE_STRING (v_data (dr_key_id r)) _ (or_introl eq_refl) O11) as (it12 & d12 & -> & O12 & T12 & S12 & P12).
  cbn [mbind option_bind]. rewrite T12, (tree_end _ O12). cbn [negb Z.eqb Pos.eqb QCBOR_TYPE_BYTE_STRING orb].
  set (r' := mk_decoded_receipt _ _ _ _ _ _ _ _ _ _ _). assert (Hsame : same_receipt r r') by (unfold same_receipt, r'; cbn; rewrite ?S1, ?S12; done).
  pose proof (issued_same _ _ Hi Hsame).
  rewrite issued_shape by done. by exists r'.
Qed.
End reads.

(** ** The profile of the message *)

Lemma expect_item_test `{S : QCBORSpiffy} d test item d' : expect_item d test = Some (item, d') -> test item = true.
Proof.
  unfold expect_item. destruct (QCBORDecode_GetNext d) as [[i|] d1]; [|done]. cbn [mbind option_bind]. destruct (test i) eqn:E; [|done]. by intros [= <- <-].
Qed.

Lemma cose_parts_sized `{S : QCBORSpiffy} signed headers payload signature :
  cose_parts signed = Some (headers, payload, signature) -> payload <> [] /\ zlen signature = 64.
Proof.
  unfold cose_parts. intros H. do 6 (decoder_step H). destruct (QCBORDecode_Finish _); [|done]. injection H as _ <- <-.
  repeat match goal with E : expect_item _ _ = Some _ |- _ => apply expect_item_test in E end. bools.
  split; [|done]. intros Hn. rewrite Hn in *. done.
Qed.

Lemma profile_length kid : v_len kid <= 64 -> 0 < zlen (cbor_map (profile_fields kid)) <= 96.
Proof.
  unfold v_len. intros Hk. unfold cbor_map, profile_fields. cbn [fmap list_fmap concat]. unfold cbor_pair. cbn [fst snd]. rewrite !length_app, !Nat2Z.inj_add.
  rewrite !small_label by lia. change (zlen (cbor_encode (CInt (-7)))) with 1. pose proof (value_length (CBytes (v_data kid))) as Hb. cbn match in Hb.
  match goal with |- context [zlen (cbor_head 5 ?n)] => change (zlen (cbor_head 5 n)) with 1 end. change (zlen (@nil Z)) with 0. lia.
Qed.

Lemma cose_readable kid payload signature : v_len kid <= 64 -> zlen (cose_octets kid payload signature) <= 4096 ->
  tree_readable (cose_tree (cbor_map (profile_fields kid)) payload signature).
Proof.
  intros Hk Hl. pose proof (profile_length kid Hk). unfold cose_octets in Hl. split; [|split; [done|split; [cbn; lia|unfold UINT16_MAX; lia]]].
  unfold cose_tree in *. cbn [tree_encode map concat cbor_encode] in Hl. rewrite !length_app in Hl.
  cbn [tree_ok fold_right cbor_value_ok length]. unfold PBNS_COSE_SIGN1_TAG, UINT64_MAX. repeat split; cbn; lia.
Qed.

Lemma profile_readable kid : v_len kid <= 64 -> tree_readable (TMap (leaf <$> profile_fields kid)).
Proof.
  intros Hk. split; [|split; [done|split; [cbn; lia|change (tree_encode _) with (cbor_map (profile_fields kid)); pose proof (profile_length kid Hk); unfold UINT16_MAX; lia]]].
  unfold profile_fields, v_len in *. cbn [fmap list_fmap leaf tree_ok fold_right fst snd cbor_value_ok length]. unfold label_ok, INT64_MAX, UINT64_MAX. repeat split; lia.
Qed.

Section profile_reads.
Context `{Q : QCBORSpiffy} `{!TreeReads}.

Lemma bytes_spec_agrees (spec item : QCBORItem) : item_agrees spec item -> uNestingLevel spec = 1 -> uDataType spec = QCBOR_TYPE_BYTE_STRING ->
  cose_element QCBOR_TYPE_BYTE_STRING item = true /\ val_string item = val_string spec.
Proof. intros [H1 H2 _ _ _ _ _ H8] Hl Ht. unfold cose_element. rewrite H1, H2, Hl, Ht. split; [done|]. apply H8. by left. Qed.

Lemma cose_parts_reads kid payload signature : v_len kid <= 64 -> zlen (cose_octets kid payload signature) <= 4096 ->
  payload <> [] -> zlen signature = 64 ->
  cose_parts (cose_octets kid payload signature) = Some (cbor_map (profile_fields kid), payload, signature).
Proof.
  intros Hk Hl Hp Hs. pose proof (tree_start _ (cose_readable kid payload signature Hk Hl)) as O. unfold cose_parts, cose_octets.
  set (d := QCBORDecode_Init _) in *. clearbody d. set (headers := cbor_map (profile_fields kid)) in *. clearbody headers.
  cbn [cose_tree tree_norm map cbor_norm tree_items concat app] in O.
  destruct (expect_reads d _ _ _ (fun item => (uDataType item =? QCBOR_TYPE_ARRAY) && (uLabelType item =? QCBOR_TYPE_NONE) && (val_uCount item =? 4)) O)
    as (head & d0 & -> & O0 & _ & Ht).
  { intros item [H1 _ H3 _ _ _ H7 _]. rewrite H1, H3, H7 by (left; done). done. }
  cbn [mbind option_bind]. rewrite !Ht by lia. cbn [lookup list_lookup Z.to_nat default from_option negb orb PBNS_COSE_SIGN1_TAG Z.eqb Pos.eqb CBOR_TAG_INVALID64].
  change (id 18 =? 18) with true. change (Pos.to_nat 1) with 1%nat. cbn [list_lookup default from_option]. change (id UINT64_MAX =? UINT64_MAX) with true. cbn [negb orb].
  destruct (expect_reads d0 _ _ _ (cose_element QCBOR_TYPE_BYTE_STRING) O0) as (it1 & d1 & -> & O1 & A1 & _).
  { intros item Ha. by apply (bytes_spec_agrees _ _ Ha). }
  cbn [mbind option_bind]. destruct (expect_reads d1 _ _ _ (fun item => cose_element QCBOR_TYPE_MAP item && (val_uCount item =? 0)) O1) as (it2 & d2 & -> & O2 & _).
  { intros item [H1 H2 _ _ _ _ H7 _]. unfold cose_element. rewrite H1, H2, H7 by (right; done). done. }
  cbn [mbind option_bind].
  destruct (expect_reads d2 _ _ _ (fun item => cose_element QCBOR_TYPE_BYTE_STRING item && negb (zlen (val_string item) =? 0)) O2) as (it3 & d3 & -> & O3 & A3 & _).
  { intros item Ha. destruct (bytes_spec_agrees _ _ Ha eq_refl eq_refl) as [-> ->]. cbn [val_string]. destruct payload; done. }
  cbn [mbind option_bind].
  destruct (expect_reads d3 _ _ _ (fun item => cose_element QCBOR_TYPE_BYTE_STRING item && (zlen (val_string item) =? 64)) O3) as (it4 & d4 & -> & O4 & A4 & _).
  { intros item Ha. destruct (bytes_spec_agrees _ _ Ha eq_refl eq_refl) as [-> ->]. cbn [val_string]. by rewrite Hs. }
  cbn [mbind option_bind]. rewrite (tree_end _ O4). apply bytes_spec_agrees in A1 as [_ ->], A3 as [_ ->], A4 as [_ ->]; done.
Qed.

Lemma headers_reads kid : v_len kid <= 64 -> receipt_headers_accepted (cbor_map (profile_fields kid)) kid = true.
Proof.
  intros Hk. pose proof (tree_start _ (profile_readable kid Hk)) as O. unfold receipt_headers_accepted.
  change (tree_encode (TMap (leaf <$> profile_fields kid))) with (cbor_map (profile_fields kid)) in O.
  set (d := QCBORDecode_Init _) in *. clearbody d. cbn [profile_fields fmap list_fmap leaf tree_norm map cbor_norm tree_items concat app fst snd] in O.
  change (cbor_norm (CInt (-7))) with (CInt (-7)) in O. cbn [tree_items app] in O.
  destruct (expect_reads d _ _ _ (fun item => (uDataType item =? QCBOR_TYPE_MAP) && (val_uCount item =? 2)) O) as (head & d0 & -> & O0 & _).
  { intros item [H1 _ _ _ _ _ H7 _]. rewrite H1, H7 by (right; done). done. }
  cbn [mbind option_bind].
  destruct (expect_reads d0 _ _ _ (fun item => header 1 QCBOR_TYPE_INT64 item && (val_int64 item =? PBNS_COSE_ES256)) O0) as (it1 & d1 & -> & O1 & _).
  { intros item [H1 H2 H3 H4 H5 _ _ _]. unfold header. rewrite H1, H2, H3, H4, H5 by done. done. }
  cbn [mbind option_bind].
  destruct (expect_reads d1 _ _ _ (fun item => header 4 QCBOR_TYPE_BYTE_STRING item && (zlen (val_string item) =? v_len kid)
    && ct_equal (val_string item) (v_data kid)) O1) as (it2 & d2 & -> & O2 & _).
  { intros item [H1 H2 H3 H4 _ _ _ H8]. unfold header, v_len. rewrite H1, H2, H3, H4, (proj1 (H8 (or_introl eq_refl))) by done. cbn [val_string].
    rewrite (Z.eqb_refl (zlen (v_data kid))), (proj2 (ct_equal_spec (v_data kid) (v_data kid) eq_refl) eq_refl). reflexivity. }
  cbn [mbind option_bind]. by rewrite (tree_end _ O2).
Qed.
End profile_reads.

(** Encoding into an array with room. *)
Lemma encode_into_fits `{S : QCBORSpiffy} tree output : b_cap output < UINT32_MAX -> zlen (tree_encode tree) <= b_cap output ->
  exists data, encode_into tree output = (PBNS_OK, data, zlen (tree_encode tree)) /\ length data = length (b_data output)
  /\ rd_slice data 0 (zlen (tree_encode tree)) = Some (tree_encode tree).
Proof.
  unfold b_cap. intros Hu Hfit. unfold encode_into. destruct (tree_encode_cases tree (b_data output) Hu) as (e & out & data & -> & Hl & He).
  rewrite (proj2 (Z.ltb_ge _ _)) in He by lia. destruct He as (-> & -> & ->). eexists. split; [done|]. split; [done|]. by apply rd_slice_prefix.
Qed.

Definition in_profile (kid : pbns_view) (signed : bytes) : Prop :=
  exists payload signature, signed = cose_octets kid payload signature /\ payload <> [] /\ zlen signature = 64.

Lemma profile_check_spec `{S : QCBORSpiffy} `{!TreeReads} headers_accepted signed kid cose :
  headers_accepted (cbor_map (profile_fields kid)) kid = true -> b_cap cose < UINT32_MAX -> zlen signed <= b_cap cose -> zlen signed <= 4096 -> v_len kid <= 64 ->
  exists b data, profile_check headers_accepted signed kid cose = (b, data) /\ length data = length (b_data cose) /\ (b = true <-> in_profile kid signed).
Proof.
  intros Hacc Hu Hfit Hmax Hk. unfold profile_check, in_profile. pose proof (profile_length kid Hk) as Hlen.
  assert (Hread : forall payload signature, signed = cose_octets kid payload signature -> payload <> [] -> zlen signature = 64 ->
    cose_parts signed = Some (cbor_map (profile_fields kid), payload, signature)) by (intros payload signature ->; by apply cose_parts_reads).
  destruct (cose_parts signed) as [[[headers payload] signature]|] eqn:Ep.
  2: { do 2 eexists. split; [done|]. split; [done|]. split; [done|]. intros (p & s & Es & Hp & Hs). by specialize (Hread p s Es Hp Hs). }
  destruct (cose_parts_sized _ _ _ _ Ep) as [Hp Hs].
  assert (Hh : forall p s, signed = cose_octets kid p s -> p <> [] -> zlen s = 64 -> headers = cbor_map (profile_fields kid) /\ payload = p /\ signature = s)
    by (intros p s Es Hp' Hs'; specialize (Hread p s Es Hp' Hs'); by injection Hread).
  destruct (headers_accepted headers kid) eqn:Ea; cbn [negb].
  2: { do 2 eexists. split; [done|]. split; [done|]. split; [done|]. intros (p & s & Es & Hp' & Hs'). destruct (Hh p s Es Hp' Hs') as [-> _]. congruence. }
  destruct (QCBOREncode_map (profile_fields kid) (replicate 96 0)) as [[e out] data] eqn:Em.
  destruct (QCBOREncode_map_spec _ _ _ _ _ Em) as (_ & Hok & Hm & _). rewrite length_replicate in Hm. specialize (Hm ltac:(done) ltac:(lia)). subst e.
  destruct (Hok eq_refl) as (-> & _). destruct (_ || _) eqn:Eh.
  { do 2 eexists. split; [done|]. split; [done|]. split; [done|]. intros (p & s & Es & Hp' & Hs'). destruct (Hh p s Es Hp' Hs') as [-> _].
    by rewrite Z.eqb_refl, bytes_eqb_refl in Eh. }
  bools. match goal with Hb : bytes_eqb _ headers = true |- _ => apply bytes_eqb_spec in Hb as <- end.
  unfold b_cap in *. destruct (tree_encode_cases (cose_tree (cbor_map (profile_fields kid)) payload signature) (b_data cose) Hu) as (e & out & data' & -> & Hl & He).
  do 2 eexists. split; [done|]. split; [done|]. fold (cose_octets kid payload signature) in He. destruct (Z.ltb_spec (zlen (b_data cose)) (zlen (cose_octets kid payload signature))).
  - subst e. split; [done|]. intros (p & s & -> & Hp' & Hs'). destruct (Hh p s eq_refl Hp' Hs') as (_ & -> & ->). lia.
  - destruct He as (-> & -> & _). rewrite andb_true_iff, bytes_eqb_spec, Z.eqb_eq. split; [intros [_ <-]; by exists payload, signature|].
    intros (p & s & -> & Hp' & Hs'). by destruct (Hh p s eq_refl Hp' Hs') as (_ & -> & ->).
Qed.

(** ** Bindings and additional data *)

Lemma bindings_match_spec r e : receipt_sized r -> receipt_expectation_sized e -> bindings_match r e = true <-> answers r e.
Proof.
  intros (A1 & A2 & A3 & A4 & A5) (B1 & B2 & B3 & B4 & B5). unfold bindings_match, answers, v_len. rewrite !andb_true_iff, !ct_equal_spec, Z.eqb_eq by lia.
  split; [intros ((((((-> & ->) & ->) & ->) & ->) & Hl) & Hk)|intros (-> & -> & -> & -> & -> & Hk)].
  - apply ct_equal_spec in Hk; [|lia]. done.
  - rewrite Hk. by rewrite ct_equal_spec.
Qed.

Lemma receipt_aad_length e : receipt_expectation_sized e -> v_len (ae_key_id e) <= 64 -> zlen (receipt_aad_octets e) <= 320.
Proof.
  intros (B1 & B2 & B3 & B4 & B5) Hk. unfold receipt_aad_octets, receipt_aad_tree, v_len in *. cbn [tree_encode map concat]. rewrite !length_app, !Nat2Z.inj_add.
  match goal with |- context [zlen (cbor_head 4 ?n)] => change (zlen (cbor_head 4 n)) with 1 end. rewrite !small_uint by (vm_compute; done).
  pose proof (value_length (CText PBNS_ATTESTATION_RECEIPT_AAD_DOMAIN)) as L0. pose proof (value_length (CBytes (ae_request_id e))) as L1.
  pose proof (value_length (CBytes (ae_verifier_nonce e))) as L2. pose proof (value_length (CBytes (ae_host_fingerprint e))) as L3.
  pose proof (value_length (CBytes (ae_evidence_digest e))) as L4. pose proof (value_length (CBytes (ae_baseline_id e))) as L5.
  pose proof (value_length (CBytes (v_data (ae_key_id e)))) as L6. cbn match in *. change (zlen PBNS_ATTESTATION_RECEIPT_AAD_DOMAIN) with 32 in *.
  change (zlen (@nil Z)) with 0. lia.
Qed.

Definition same_request (a b : pbns_attestation_receipt_expectation) : Prop :=
  ae_request_id a = ae_request_id b /\ ae_verifier_nonce a = ae_verifier_nonce b /\ ae_host_fingerprint a = ae_host_fingerprint b
  /\ ae_evidence_digest a = ae_evidence_digest b /\ ae_baseline_id a = ae_baseline_id b /\ v_data (ae_key_id a) = v_data (ae_key_id b).

Lemma receipt_aad_ok e : receipt_expectation_sized e -> v_len (ae_key_id e) <= 64 -> tree_ok (receipt_aad_tree e).
Proof.
  intros (B1 & B2 & B3 & B4 & B5) Hk. unfold receipt_aad_tree, v_len in *. cbn [tree_ok fold_right cbor_value_ok length]. unfold UINT64_MAX.
  repeat split; try lia; vm_compute; discriminate.
Qed.

Lemma receipt_aad_inj a b : receipt_expectation_sized a -> receipt_expectation_sized b -> v_len (ae_key_id a) <= 64 -> v_len (ae_key_id b) <= 64 ->
  receipt_aad_octets a = receipt_aad_octets b -> same_request a b.
Proof.
  intros Ha Hb Ka Kb E. apply tree_encode_inj in E; [|by apply receipt_aad_ok..]. unfold receipt_aad_tree in E. cbn [tree_norm map cbor_norm] in E.
  injection E. intros. unfold same_request. split_and!; congruence.
Qed.

(** ** The whole check *)

(** The arguments are usable: a message of at most 4096 octets, an expectation
    with its bindings, and three buffers that are large enough and apart. *)
Record receipt_call `{Machine} (signed : pbns_view) (e : pbns_attestation_receipt_expectation) (ws : pbns_attestation_receipt_workspace) : Prop := mk_receipt_call {
  rk_signed : view_is_valid signed = true /\ 0 < v_len signed <= PBNS_ATTESTATION_RECEIPT_MAX_SIGNED_SIZE;
  rk_expectation : receipt_expectation_valid e = true;
  rk_buffers : buffer_is_valid (rw_canonical_payload ws) = true /\ buffer_is_valid (rw_canonical_cose ws) = true /\ buffer_is_valid (rw_aad ws) = true;
  rk_apart : view_overlaps signed (rw_canonical_payload ws) = false /\ view_overlaps signed (rw_canonical_cose ws) = false
    /\ view_overlaps signed (rw_aad ws) = false /\ workspaces_overlap ws = false;
  rk_room : PBNS_ATTESTATION_RECEIPT_MAX_PAYLOAD_SIZE <= b_cap (rw_canonical_payload ws) < UINT32_MAX
    /\ v_len signed <= b_cap (rw_canonical_cose ws) < UINT32_MAX /\ PBNS_ATTESTATION_RECEIPT_MAX_AAD_SIZE <= b_cap (rw_aad ws) < UINT32_MAX;
}.

(** What becomes of the payload that the verifier vouched for. *)
Inductive judged_payload (payload : bytes) (e : pbns_attestation_receipt_expectation) : pbns_status -> pbns_attestation_receipt_result -> Prop :=
| payload_accepted r : issued r -> payload = receipt_octets r -> answers r e -> judged_payload payload e PBNS_OK (result_of r)
| payload_unbound r : issued r -> payload = receipt_octets r -> ~ answers r e -> judged_payload payload e PBNS_ERR_AUTHENTICATION failed_result
| payload_malformed : (forall r, issued r -> payload <> receipt_octets r) -> judged_payload payload e PBNS_ERR_FORMAT failed_result.

(** What becomes of a message. *)
Inductive judged_message `{Machine} {W : Type} (verifier : pbns_crypto W) (signed : pbns_view) (e : pbns_attestation_receipt_expectation) (aad_at : Z) (w : W)
  : pbns_status -> pbns_attestation_receipt_result -> W -> Prop :=
| message_foreign : ~ in_profile (ae_key_id e) (v_data signed) -> judged_message verifier signed e aad_at w PBNS_ERR_AUTHENTICATION failed_result w
| message_refused st p w' : in_profile (ae_key_id e) (v_data signed) ->
    pbns_sign1_verify (Some verifier) signed (mk_view aad_at (receipt_aad_octets e)) (Some null_view) w = (st, p, w') -> st <> PBNS_OK ->
    judged_message verifier signed e aad_at w PBNS_ERR_AUTHENTICATION failed_result w'
| message_vouched verify p st result w' : in_profile (ae_key_id e) (v_data signed) -> provider (Some verifier) co_sign1_verify = Some verify ->
    verify w signed (mk_view aad_at (receipt_aad_octets e)) = (PBNS_OK, p, w') -> judged_payload (v_data p) e st result ->
    judged_message verifier signed e aad_at w st result w'.

Lemma reasons_stored reasons : zlen reasons <= 16 -> wr_list (replicate 16 0) 0 reasons = Some (reasons ++ replicate (16 - length reasons) 0).
Proof.
  intros Hl. change (replicate 16 0) with ([] ++ replicate 16 0). rewrite wr_list_next by (done || (rewrite length_replicate; lia)).
  cbn [app]. by rewrite drop_replicate.
Qed.

(** The end of the check: decoding, the canonical form and the bindings. *)
Lemma payload_judged `{Q : QCBORSpiffy} `{!TreeReads} payload e buffer : receipt_expectation_sized e ->
  PBNS_ATTESTATION_RECEIPT_MAX_PAYLOAD_SIZE <= b_cap buffer < UINT32_MAX ->
  match decode_payload payload with
  | None => judged_payload payload e PBNS_ERR_FORMAT failed_result
  | Some decoded =>
      exists data, encode_payload decoded buffer = (PBNS_OK, data, zlen (receipt_octets decoded))
      /\ rd_slice data 0 (zlen (receipt_octets decoded)) = Some (receipt_octets decoded)
      /\ (receipt_octets decoded <> payload -> judged_payload payload e PBNS_ERR_FORMAT failed_result)
      /\ (receipt_octets decoded = payload -> judged_payload payload e (if bindings_match decoded e then PBNS_OK else PBNS_ERR_AUTHENTICATION)
            (if bindings_match decoded e then result_of decoded else failed_result))
  end.
Proof.
  intros He [Hcap Hu]. unfold PBNS_ATTESTATION_RECEIPT_MAX_PAYLOAD_SIZE in *.
  assert (Hread : forall r, issued r -> payload = receipt_octets r -> exists r', decode_payload payload = Some r' /\ same_receipt r r') by (intros r Hr ->; by apply decode_payload_reads).
  destruct (decode_payload payload) as [decoded|] eqn:Ed.
  2: { apply payload_malformed. intros r Hr Ep. by destruct (Hread r Hr Ep) as (r' & ? & _). }
  pose proof (decode_payload_issued _ _ Ed) as Hi. pose proof (receipt_octets_length decoded Hi).
  destruct (encode_into_fits (receipt_tree decoded) buffer) as (data & E & _ & Hs); [done|unfold receipt_octets in *; lia|].
  exists data. split; [exact E|]. split; [exact Hs|]. split.
  - intros Hne. apply payload_malformed. intros r Hr Ep. destruct (Hread r Hr Ep) as (r' & [= <-] & Hsame). apply Hne. by rewrite Ep, (same_receipt_octets _ _ Hsame).
  - intros Heq. pose proof (bindings_match_spec decoded e (is_sized _ Hi) He) as Hb. destruct (bindings_match decoded e).
    + apply (payload_accepted _ _ decoded); [done..|by apply Hb].
    + apply (payload_unbound _ _ decoded); [done..|]. intros Ha. by apply Hb in Ha.
Qed.

Lemma receipt_verify_judged `{Q : QCBORSpiffy} `{!TreeReads} `{M : Machine} {W} (verifier : pbns_crypto W) signed e ws w :
  receipt_expectation_sized e -> receipt_call signed e ws ->
  exists st ws' result w', receipt_verify verifier signed e ws w = Some (st, ws', result, w') /\ judged_message verifier signed e (b_ptr (rw_aad ws)) w st result w'.
Proof.
  intros Hes [[Hv Hl] He (V1 & V2 & V3) (P1 & P2 & P3 & P4) (R1 & R2 & R3)]. destruct ws as [payload cose aad]. cbn [rw_canonical_payload rw_canonical_cose rw_aad] in *.
  unfold PBNS_ATTESTATION_RECEIPT_MAX_PAYLOAD_SIZE, PBNS_ATTESTATION_RECEIPT_MAX_AAD_SIZE, PBNS_ATTESTATION_RECEIPT_MAX_SIGNED_SIZE in *.
  assert (Hk : v_len (ae_key_id e) <= 64) by (unfold receipt_expectation_valid in He; bools; done).
  unfold receipt_verify. rewrite Hv, He, V1, V2, V3, P1, P2, P3, P4. cbn [negb orb].
  rewrite (proj2 (Z.eqb_neq (v_len signed) 0)), (proj2 (Z.ltb_ge PBNS_ATTESTATION_RECEIPT_MAX_SIGNED_SIZE _)) by (unfold PBNS_ATTESTATION_RECEIPT_MAX_SIGNED_SIZE; lia).
  rewrite (proj2 (Z.ltb_ge (b_cap payload) _)), (proj2 (Z.ltb_ge (b_cap cose) _)), (proj2 (Z.ltb_ge (b_cap aad) _))
    by (unfold PBNS_ATTESTATION_RECEIPT_MAX_PAYLOAD_SIZE, PBNS_ATTESTATION_RECEIPT_MAX_AAD_SIZE; lia). cbn [orb].
  unfold receipt_profile_valid. destruct (profile_check_spec receipt_headers_accepted (v_data signed) (ae_key_id e) cose) as (profile & cdata & -> & _ & Hprof);
    [by apply headers_reads|unfold v_len in *; lia..|].
  destruct profile; cbn [negb].
  2: { do 4 eexists. split; [done|]. apply message_foreign. intros Hin. by apply Hprof in Hin. }
  assert (Hin : in_profile (ae_key_id e) (v_data signed)) by (by apply Hprof).
  destruct (encode_into_fits (receipt_aad_tree e) aad) as (adata & Ea & _ & Hs); [lia|pose proof (receipt_aad_length e Hes Hk); unfold receipt_aad_octets in *; lia|].
  fold (receipt_aad_octets e) in Ea, Hs. unfold make_aad. rewrite Ea. cbn [is_ok negb with_data b_data]. rewrite Hs. cbn [mbind option_bind].
  change (b_ptr (with_data aad adata)) with (b_ptr aad).
  destruct (pbns_sign1_verify (Some verifier) signed (mk_view (b_ptr aad) (receipt_aad_octets e)) (Some null_view) w) as [[st2 p2] w'] eqn:Ev.
  destruct (is_ok st2) eqn:Ok; cbn [negb].
  2: { apply is_ok_false in Ok. do 4 eexists. split; [done|]. by eapply message_refused. }
  apply is_ok_spec in Ok. destruct (verify_calls_provider _ _ _ _ _ _ _ Ev Ok) as (verify & p & Hprov & -> & Hcall). cbn [default from_option]. unfold id.
  pose proof (payload_judged (v_data p) e payload Hes R1) as HP. destruct (decode_payload (v_data p)) as [decoded|] eqn:Ed.
  2: { do 4 eexists. split; [done|]. by eapply message_vouched. }
  destruct HP as (data & -> & Hslice & Hne & Heq). cbn [is_ok negb orb]. unfold v_len. destruct (Z.eqb_spec (zlen (receipt_octets decoded)) (zlen (v_data p))) as [Hz|Hz]; cbn [negb].
  2: { do 4 eexists. split; [done|]. eapply message_vouched; [done..|]. apply Hne. congruence. }
  rewrite <- Hz, Hslice. cbn [mbind option_bind]. destruct (bytes_eqb (receipt_octets decoded) (v_data p)) eqn:Eb; cbn [negb].
  2: { do 4 eexists. split; [done|]. eapply message_vouched; [done..|]. apply Hne. intros Heq'. rewrite Heq', bytes_eqb_refl in Eb. done. }
  apply bytes_eqb_spec in Eb. specialize (Heq Eb). destruct (bindings_match decoded e); cbn [negb]; [|do 4 eexists; split; [done|by eapply message_vouched]].
  cbn [failed_result rr_reasons]. rewrite reasons_stored by (eapply judged_length, is_judged, decode_payload_issued; exact Ed). cbn [mbind option_bind].
  do 4 eexists. split; [done|]. by eapply message_vouched.
Qed.

(** A message that is accepted, with the receipt that it carries. *)
Definition acceptable {W : Type} (verifier : pbns_crypto W) (signed : pbns_view) (e : pbns_attestation_receipt_expectation) (aad_at : Z) (w : W)
    (r : decoded_receipt) : Prop :=
  in_profile (ae_key_id e) (v_data signed) /\ issued r /\ answers r e
  /\ exists verify p w', provider (Some verifier) co_sign1_verify = Some verify
     /\ verify w signed (mk_view aad_at (receipt_aad_octets e)) = (PBNS_OK, p, w') /\ v_data p = receipt_octets r.

Lemma answers_same a b e : same_receipt a b -> answers a e -> answers b e.
Proof. intros (_ & _ & _ & E4 & E5 & E6 & E7 & E8 & _ & _ & E11). unfold answers. by rewrite E4, E5, E6, E7, E8, E11. Qed.

Lemma message_acceptable `{M : Machine} {W} (verifier : pbns_crypto W) signed e aad_at w st result w' r :
  view_is_valid signed = true -> aad_at <> 0 -> acceptable verifier signed e aad_at w r -> judged_message verifier signed e aad_at w st result w' -> st = PBNS_OK.
Proof.
  intros Hv Ha (Hin & Hi & Hans & verify & p & w1 & Hprov & Hcall & Hp) [Hno|st2 p2 w2 _ Ev Hne|verify2 p2 st2 result2 w2 _ Hprov2 Hcall2 HP]; [done| |].
  - unfold pbns_sign1_verify in Ev. rewrite Hprov, Hv in Ev. unfold view_is_valid in Ev. cbn [v_ptr] in Ev. rewrite (proj2 (Z.eqb_neq aad_at 0) Ha) in Ev.
    cbn [negb orb] in Ev. rewrite Hcall in Ev. congruence.
  - rewrite Hprov in Hprov2. injection Hprov2 as <-. rewrite Hcall in Hcall2. injection Hcall2 as <- <-.
    destruct HP as [|r2 Hi2 Hp2 Hno|Hno]; [done| |]; exfalso.
    + apply Hno. eapply answers_same; [|exact Hans]. apply receipt_octets_inj; congruence.
    + by apply (Hno r).
Qed.

Lemma judged_accepts `{M : Machine} {W} (verifier : pbns_crypto W) signed e aad_at w st result w' :
  judged_message verifier signed e aad_at w st result w' -> st = PBNS_OK -> exists r, acceptable verifier signed e aad_at w r /\ result = result_of r.
Proof.
  intros HJ. destruct HJ as [| |verify p st result w' Hin Hprov Hcall HP]; [done..|]. destruct HP as [r Hi Hp Ha| |]; [|done..]. intros _. exists r.
  split; [|done]. split; [done|]. split; [done|]. split; [done|]. by exists verify, p, w'.
Qed.

(** ** Properties *)

(** C18: a receipt is accepted exactly when it should be.  On usable arguments the
    check always returns.  It succeeds if and only if the message is the canonical
    COSE_Sign1 message of the pinned key with a signature of 64 octets, the verifier
    vouches for its payload over the data of this request, and the payload is the
    canonical encoding of a receipt for this request, host, evidence and baseline
    whose reasons fit its verdict; the result then shows that verdict and those
    reasons.  A message outside the profile never reaches the verifier and fails
    authentication, as does a receipt for another request; a payload that encodes no
    receipt is a format error; every failure shows the verdict of failure.  No other
    request has the same signed data. *)
Theorem receipt_accepted_exactly `{Q : QCBORSpiffy} `{R : !TreeReads} `{M : Machine} {W : Type} (verifier : pbns_crypto W) (signed : pbns_view)
    (e : pbns_attestation_receipt_expectation) (ws : pbns_attestation_receipt_workspace) (w : W) :
  receipt_expectation_sized e -> receipt_call signed e ws ->
  exists st ws' result w', receipt_verify verifier signed e ws w = Some (st, ws', result, w')
  /\ (st = PBNS_OK <-> exists r, acceptable verifier signed e (b_ptr (rw_aad ws)) w r)
  /\ (st = PBNS_OK -> exists r, acceptable verifier signed e (b_ptr (rw_aad ws)) w r /\ result = result_of r
      /\ (rr_display_state result = PBNS_ATTESTATION_DISPLAY_FULL <-> dr_verdict r = PBNS_ATTESTATION_RECEIPT_FULL)
      /\ (rr_verdict result = PBNS_ATTESTATION_RECEIPT_FULL <-> rr_reason_count result = 0))
  /\ (st <> PBNS_OK -> result = failed_result)
  /\ judged_message verifier signed e (b_ptr (rw_aad ws)) w st result w'
  /\ (forall other, receipt_expectation_sized other -> v_len (ae_key_id other) <= 64 -> receipt_aad_octets other = receipt_aad_octets e -> same_request other e).
Proof.
  intros He Hc. destruct (receipt_verify_judged verifier signed e ws w He Hc) as (st & ws' & result & w' & E & HJ). exists st, ws', result, w'. split; [done|].
  pose proof (judged_accepts _ _ _ _ _ _ _ _ HJ) as Hok.
  assert (Hk : v_len (ae_key_id e) <= 64) by (pose proof (rk_expectation _ _ _ Hc) as Hv; unfold receipt_expectation_valid in Hv; bools; done).
  split; [split; [intros Hst; destruct (Hok Hst) as (r & ? & _); by exists r|]|].
  { intros (r & Hr). destruct Hc as [[Hv _] _ (_ & _ & Hb) _ (_ & _ & Hcap)]. eapply message_acceptable; [exact Hv| |exact Hr|exact HJ].
    apply buffer_is_valid_spec in Hb as [_ [?|Hn]]; [done|]. unfold b_cap, PBNS_ATTESTATION_RECEIPT_MAX_AAD_SIZE in Hcap. rewrite Hn in Hcap. cbn in Hcap. lia. }
  split; [|split; [|split; [done|intros other Ho Hko Eo; by apply receipt_aad_inj]]].
  - intros Hst. destruct (Hok Hst) as (r & Hr & ->). exists r. split; [done|]. split; [done|]. destruct Hr as (_ & Hi & _). destruct (is_judged _ Hi) as (_ & _ & Hv).
    unfold result_of, display_of, PBNS_ATTESTATION_RECEIPT_FULL, PBNS_ATTESTATION_RECEIPT_REDUCED, PBNS_ATTESTATION_RECEIPT_FAILURE, PBNS_ATTESTATION_DISPLAY_FULL,
      PBNS_ATTESTATION_DISPLAY_REDUCED, PBNS_ATTESTATION_DISPLAY_FAILURE in *. cbn [rr_display_state rr_verdict rr_reason_count].
    destruct Hv as [[-> ->]|[[-> ->]|[-> Hne]]]; cbn; [done..|]. split; [done|]. destruct (dr_reasons r); cbn; split; done || lia.
  - destruct HJ as [| |verify p st result w' _ _ _ HP]; [done..|]. by destruct HP.
Qed.

(** ** Witness *)

Definition ex_receipt_expectation : pbns_attestation_receipt_expectation :=
  mk_receipt_expectation (replicate 16 9) (replicate 32 8) (replicate 32 7) (replicate 32 6) (replicate 32 5) (mk_view 128 [6; 6]).

(** A failure for the reasons 2 and 5. *)
Definition ex_receipt : decoded_receipt :=
  mk_decoded_receipt (mk_view 4096 PBNS_ATTESTATION_RECEIPT_DOMAIN) 1 3 (replicate 16 9) (replicate 32 8) (replicate 32 7) (replicate 32 6) (replicate 32 5)
    3 [2; 5] (mk_view 4096 [6; 6]).

Definition ex_signed_receipt : bytes := cose_octets (mk_view 128 [6; 6]) (receipt_octets ex_receipt) (replicate 64 1).

Definition ex_receipt_verifier : pbns_crypto nat :=
  mk_crypto (Some (mk_crypto_ops None None (Some (fun w _ _ => (PBNS_OK, mk_view 4096 (receipt_octets ex_receipt), S w))) None None None)) 1.

Definition ex_receipt_workspace : pbns_attestation_receipt_workspace :=
  mk_receipt_workspace (mk_buffer 65536 0 (replicate 512 0)) (mk_buffer 131072 0 (replicate 1024 0)) (mk_buffer 262144 0 (replicate 320 0)).

Lemma ex_receipt_call : @receipt_call x86_64 (mk_view 512 ex_signed_receipt) ex_receipt_expectation ex_receipt_workspace.
Proof. constructor; vm_compute; repeat split; (reflexivity || discriminate). Qed.

Lemma receipt_accepted_exactly_witness :
  exists st ws' result w',
    @receipt_verify tree_qcbor tree_spiffy nat x86_64 ex_receipt_verifier (mk_view 512 ex_signed_receipt) ex_receipt_expectation ex_receipt_workspace 0%nat
      = Some (st, ws', result, w')
  /\ st = PBNS_OK /\ rr_verdict result = PBNS_ATTESTATION_RECEIPT_FAILURE /\ rr_reason_count result = 2
  /\ exists r, acceptable ex_receipt_verifier (mk_view 512 ex_signed_receipt) ex_receipt_expectation 262144 0%nat r.
Proof.
  destruct (@receipt_accepted_exactly tree_qcbor tree_spiffy tree_tree_reads x86_64 nat ex_receipt_verifier (mk_view 512 ex_signed_receipt)
    ex_receipt_expectation ex_receipt_workspace 0%nat) as (st & ws' & result & w' & E & Hiff & _).
  - repeat split.
  - exact ex_receipt_call.
  - exists st, ws', result, w'. split; [exact E|].
    assert (H : (st, rr_verdict result, rr_reason_count result) = (PBNS_OK, 3, 2)).
    { pose (view := fun o : option (pbns_status * pbns_attestation_receipt_workspace * pbns_attestation_receipt_result * nat) =>
        match o with Some (st, _, result, _) => (st, rr_verdict result, rr_reason_count result) | None => (PBNS_ERR_FORMAT, 0, 0) end).
      transitivity (view (Some (st, ws', result, w'))); [reflexivity|].
      transitivity (view (@receipt_verify tree_qcbor tree_spiffy nat x86_64 ex_receipt_verifier (mk_view 512 ex_signed_receipt) ex_receipt_expectation
        ex_receipt_workspace 0%nat)); [exact (f_equal view (eq_sym E))|]. vm_compute. reflexivity. }
    assert (Hst : st = PBNS_OK) by exact (f_equal (fun x => fst (fst x)) H).
    split; [exact Hst|]. split; [exact (f_equal (fun x => snd (fst x)) H)|]. split; [exact (f_equal snd H)|]. exact (proj1 Hiff Hst).
Defined.
