(* ===== verification/AttestationChallenge.v ===== *)
(** * Attestation challenges ([include/pbns/attestation.h], [src/core/attestation.c], first part)

    The verifier opens an attestation with a signed challenge: the registers to
    quote, a nonce, the key to encrypt for and how long the challenge lasts.  The
    host accepts it only in its canonical form, for its own request and within
    trusted time. *)

From stdpp Require Import base list numbers.
From Stdlib Require Import ZArith Lia.
From S2P Require Import Prelude Endian Status Buffers Cbor CborTree Compare Crypto Frame TrustedTime MeasuredBoot RecoveryManifest AttestationReceipt.

(** ** Constants: "PBNS-ATTESTATION-v1" and "PBNS-ATTESTATION-CHALLENGE-SIGN-v1" *)

Definition PBNS_ATTESTATION_DOMAIN : bytes :=
  [80; 66; 78; 83; 45; 65; 84; 84; 69; 83; 84; 65; 84; 73; 79; 78; 45; 118; 49].
Definition PBNS_ATTESTATION_CHALLENGE_AAD_DOMAIN : bytes :=
  [80; 66; 78; 83; 45; 65; 84; 84; 69; 83; 84; 65; 84; 73; 79; 78; 45; 67; 72; 65; 76; 76; 69; 78; 71; 69; 45; 83; 73; 71; 78; 45; 118; 49].
Definition PBNS_ATTESTATION_PROTOCOL_VERSION : Z := 1.
Definition PBNS_ATTESTATION_NONCE_SIZE : Z := 32.
Definition PBNS_ATTESTATION_DIGEST_SIZE : Z := 32.
Definition PBNS_ATTESTATION_CHALLENGE_MAX_SIZE : Z := 4096.
Definition PBNS_ATTESTATION_AAD_MAX_SIZE : Z := 256.
Definition PBNS_ATTESTATION_COMMON_FIELD_COUNT : Z := 9.
Definition PBNS_ATTESTATION_CHALLENGE_FIELD_COUNT : Z := 5.
Definition PBNS_ATTESTATION_PCR_BANK_MAX : Z := UINT16_MAX.
Definition PBNS_ATTESTATION_PCR_INDEX_MAX : Z := 23.

(** ** Data *)

Record pbns_attestation_challenge_expected := mk_challenge_expected {
  ce_request_id : bytes;
  ce_host_fingerprint : bytes;
  ce_verifier_nonce : bytes;
  ce_recipient_kid : pbns_view;
  ce_challenge_kid : pbns_view;
}.

(** [ch_selection_items] and [ch_recipient_kid] are the parts of the arrays that
    [selection_count] and [recipient_kid_len] say are in use. *)
Record pbns_attestation_challenge := mk_challenge {
  ch_request_id : bytes;
  ch_host_fingerprint : bytes;
  ch_verifier_nonce : bytes;
  ch_selection_items : list pbns_measured_boot_selection_item;
  ch_recipient_kid : bytes;
  ch_issued_at_ns : Z;
  ch_expiry_ns : Z;
  ch_consumed : bool;
}.

Definition ch_selection_count (challenge : pbns_attestation_challenge) : Z := zlen (ch_selection_items challenge).
Definition ch_recipient_kid_len (challenge : pbns_attestation_challenge) : Z := zlen (ch_recipient_kid challenge).

Definition zero_challenge : pbns_attestation_challenge := mk_challenge (replicate 16 0) (replicate 32 0) (replicate 32 0) [] [] 0 0 false.

Record pbns_attestation_challenge_workspace := mk_challenge_workspace {
  cw_canonical : pbns_buffer;
  cw_aad : pbns_buffer;
}.

(** ** Checks *)

Definition wipe_buffer (buffer : pbns_buffer) : pbns_buffer :=
  if buffer_is_valid buffer then with_data buffer (replicate (length (b_data buffer)) 0) else buffer.

(** [bytes_equal] on views of one length. *)
Definition octets_equal (left right : pbns_view) : bool :=
  negb (v_ptr left =? 0) && negb (v_ptr right =? 0) && ct_equal (v_data left) (v_data right).

Definition attestation_views_equal (left right : pbns_view) : bool :=
  (v_len left =? v_len right) && ((v_len left =? 0) || octets_equal left right).

Section layout.
Context `{Machine}.

(** [ranges_overlap]: a range is its address and length. *)
Definition regions_overlap (left right : Z * Z) : bool :=
  if (snd left =? 0) || (snd right =? 0) then false
  else if (fst left =? 0) || (fst right =? 0) || (UINTPTR_MAX - fst left <? snd left) || (UINTPTR_MAX - fst right <? snd right) then true
  else (fst left <? fst right + snd right) && (fst right <? fst left + snd left).

Definition buffer_range (buffer : pbns_buffer) : Z * Z := (b_ptr buffer, b_cap buffer).
Definition view_range (view : pbns_view) : Z * Z := (v_ptr view, v_len view).

(** The loops over the ranges that are written: each is apart from those before it and from all that is read. *)
Fixpoint ranges_apart (before writable immutable : list (Z * Z)) : bool :=
  match writable with
  | [] => true
  | range :: rest =>
      if existsb (regions_overlap range) before then false
      else if existsb (regions_overlap range) immutable then false
      else ranges_apart (before ++ [range]) rest immutable
  end.
End layout.

(** The loop of [selection_valid]; [previous] is the entry before, if any. *)
Fixpoint selection_ordered (previous : option pbns_measured_boot_selection_item) (items : list pbns_measured_boot_selection_item) : bool :=
  match items with
  | [] => true
  | item :: rest =>
      if PBNS_ATTESTATION_PCR_INDEX_MAX <? sel_pcr_index item then false
      else if match previous with Some previous => item_out_of_order previous item | None => false end then false
      else selection_ordered (Some item) rest
  end.

Definition selection_valid (items : list pbns_measured_boot_selection_item) : bool :=
  if (zlen items =? 0) || (PBNS_MEASURED_BOOT_SELECTION_MAX_COUNT <? zlen items) then false else selection_ordered None items.

(** ** Encoding *)

Definition common_tree (c : pbns_attestation_challenge) : cbor_tree :=
  TMap [(1, TValue (CText PBNS_ATTESTATION_DOMAIN)); (2, TValue (CUInt PBNS_ATTESTATION_PROTOCOL_VERSION));
        (3, TValue (CUInt PBNS_SERVICE_PLATFORM_ATTESTATION)); (4, TValue (CBytes (ch_request_id c)));
        (5, TValue (CBytes (ch_host_fingerprint c))); (6, TValue (CBytes (ch_verifier_nonce c)));
        (7, TValue (CUInt (ch_issued_at_ns c))); (8, TValue (CUInt (ch_expiry_ns c))); (9, TValue (CBytes []))].

(** The loops of [encode_selection]: the bank that is open, its indices so far, and the entries that follow. *)
Fixpoint bank_loop (algorithm : Z) (indices : list Z) (items : list pbns_measured_boot_selection_item) : list (Z * list Z) :=
  match items with
  | [] => [(algorithm, indices)]
  | item :: rest =>
      if sel_hash_algorithm item =? algorithm then bank_loop algorithm (indices ++ [sel_pcr_index item]) rest
      else (algorithm, indices) :: bank_loop (sel_hash_algorithm item) [sel_pcr_index item] rest
  end.

Definition selection_banks (items : list pbns_measured_boot_selection_item) : list (Z * list Z) :=
  match items with
  | [] => []
  | item :: rest => bank_loop (sel_hash_algorithm item) [sel_pcr_index item] rest
  end.

Definition bank_tree (bank : Z * list Z) : cbor_tree :=
  TMap [(1, TValue (CUInt (fst bank))); (2, TArray (map (fun index => TValue (CUInt index)) (snd bank)))].

Definition selection_tree (items : list pbns_measured_boot_selection_item) : cbor_tree := TArray (map bank_tree (selection_banks items)).

Definition challenge_tree (c : pbns_attestation_challenge) : cbor_tree :=
  TMap [(1, common_tree c); (10, TValue (CBytes (ch_verifier_nonce c))); (11, selection_tree (ch_selection_items c));
        (12, TValue (CBytes (ch_recipient_kid c))); (13, TValue (CUInt (ch_expiry_ns c)))].

(** The prefix that [encode_aad_prefix] adds. *)
Definition aad_prefix (domain : bytes) : list cbor_tree := [TValue (CText domain); TValue (CUInt PBNS_ATTESTATION_PROTOCOL_VERSION)].

Definition challenge_aad_tree (e : pbns_attestation_challenge_expected) : cbor_tree :=
  TArray (aad_prefix PBNS_ATTESTATION_CHALLENGE_AAD_DOMAIN
          ++ [TValue (CUInt PBNS_SERVICE_PLATFORM_ATTESTATION); TValue (CBytes (ce_request_id e)); TValue (CBytes (ce_host_fingerprint e));
              TValue (CBytes (ce_verifier_nonce e)); TValue (CBytes (v_data (ce_recipient_kid e)))]).

Section code.
Context `{QCBORSpiffy}.

(** The status, the octets of the output and [*written]. *)
Definition challenge_encode (c : pbns_attestation_challenge) (output : pbns_buffer) : pbns_status * bytes * Z :=
  if negb (buffer_is_valid output) || (PBNS_ATTESTATION_CHALLENGE_MAX_SIZE <? b_cap output) || negb (selection_valid (ch_selection_items c))
     || (ch_recipient_kid_len c =? 0) || (PBNS_ENCRYPT_MAX_RECIPIENT_KID <? ch_recipient_kid_len c)
     || (ch_expiry_ns c <? ch_issued_at_ns c) || (INT64_MAX <? ch_expiry_ns c)
  then (PBNS_ERR_ARGUMENT, b_data output, 0)
  else encode_into (challenge_tree c) output.

Definition pbns_attestation_challenge_encode (challenge : ptr pbns_attestation_challenge) (output : pbns_buffer) (written : ptr Z)
  : pbns_status * bytes * ptr Z :=
  match written, challenge with
  | Some _, Some c => let '(status, data, written) := challenge_encode c output in (status, data, Some written)
  | _, _ => (PBNS_ERR_ARGUMENT, b_data output, (fun _ => 0) <$> written)
  end.

Definition challenge_aad (e : pbns_attestation_challenge_expected) (output : pbns_buffer) : pbns_status * bytes * Z :=
  if negb (buffer_is_valid output) || (PBNS_ATTESTATION_AAD_MAX_SIZE <? b_cap output) || negb (view_is_valid (ce_recipient_kid e))
     || (v_len (ce_recipient_kid e) =? 0) || (PBNS_ENCRYPT_MAX_RECIPIENT_KID <? v_len (ce_recipient_kid e))
  then (PBNS_ERR_ARGUMENT, b_data output, 0)
  else encode_into (challenge_aad_tree e) output.

Definition pbns_attestation_challenge_aad (expected : ptr pbns_attestation_challenge_expected) (output : pbns_buffer) (written : ptr Z)
  : pbns_status * bytes * ptr Z :=
  match written, expected with
  | Some _, Some e => let '(status, data, written) := challenge_aad e output in (status, data, Some written)
  | _, _ => (PBNS_ERR_ARGUMENT, b_data output, (fun _ => 0) <$> written)
  end.

(** ** Decoding *)

(** [next_labeled] of [attestation.c], which also checks the nesting level. *)
Definition next_nested (decoder : QCBORDecodeContext) (nesting label : Z) : option (QCBORItem * QCBORDecodeContext) :=
  expect_item decoder (fun item => (uNestingLevel item =? nesting) && (uLabelType item =? QCBOR_TYPE_INT64) && (label_int64 item =? label)).

(** The value is stored in a [uint64_t]. *)
Definition nested_uint (decoder : QCBORDecodeContext) (nesting label : Z) : option (Z * QCBORDecodeContext) :=
  '(item, decoder) ← next_nested decoder nesting label;
  value ← item_to_uint64 item;
  Some (u64 value, decoder).

(** A string that is not empty has an address. *)
Definition nested_bytes (decoder : QCBORDecodeContext) (nesting label length : Z) : option (bytes * QCBORDecodeContext) :=
  '(item, decoder) ← next_nested decoder nesting label;
  if negb (uDataType item =? QCBOR_TYPE_BYTE_STRING) || negb (zlen (val_string item) =? length) then None
  else Some (val_string item, decoder).

(** The request identifier, the host fingerprint, the nonce, the time of issue and the expiry. *)
Definition decode_challenge_common (decoder : QCBORDecodeContext) : option (bytes * bytes * bytes * Z * Z * QCBORDecodeContext) :=
  '(item, decoder) ← next_nested decoder 1 1;
  if negb (uDataType item =? QCBOR_TYPE_MAP) || negb (val_uCount item =? PBNS_ATTESTATION_COMMON_FIELD_COUNT) then None
  else
  '(item, decoder) ← next_nested decoder 2 1;
  if negb (uDataType item =? QCBOR_TYPE_TEXT_STRING) || negb (attestation_views_equal (string_view item) (mk_view 1 PBNS_ATTESTATION_DOMAIN)) then None
  else
  '(version, decoder) ← nested_uint decoder 2 2;
  if negb (version =? PBNS_ATTESTATION_PROTOCOL_VERSION) then None
  else
  '(service, decoder) ← nested_uint decoder 2 3;
  if negb (service =? PBNS_SERVICE_PLATFORM_ATTESTATION) then None
  else
  '(request_id, decoder) ← nested_bytes decoder 2 4 PBNS_REQUEST_ID_SIZE;
  '(host_fingerprint, decoder) ← nested_bytes decoder 2 5 PBNS_ATTESTATION_DIGEST_SIZE;
  '(verifier_nonce, decoder) ← nested_bytes decoder 2 6 PBNS_ATTESTATION_NONCE_SIZE;
  '(issued_at_ns, decoder) ← nested_uint decoder 2 7;
  '(expiry_ns, decoder) ← nested_uint decoder 2 8;
  '(_, decoder) ← nested_bytes decoder 2 9 0;
  Some (request_id, host_fingerprint, verifier_nonce, issued_at_ns, expiry_ns, decoder).

(** The inner loop: [items] are the entries so far. *)
Fixpoint decode_indices (count : nat) (algorithm : Z) (items : list pbns_measured_boot_selection_item) (decoder : QCBORDecodeContext)
  : option (list pbns_measured_boot_selection_item * QCBORDecodeContext) :=
  match count with
  | O => Some (items, decoder)
  | S count =>
      if PBNS_MEASURED_BOOT_SELECTION_MAX_COUNT <=? zlen items then None
      else
      '(item, decoder) ← expect_item decoder (fun item => (uNestingLevel item =? 4) && (uLabelType item =? QCBOR_TYPE_NONE));
      index ← item_to_uint64 item;
      if PBNS_ATTESTATION_PCR_INDEX_MAX <? index then None
      else decode_indices count algorithm (items ++ [mk_selection_item (u16 algorithm) (u8 index)]) decoder
  end.

Fixpoint decode_banks (count : nat) (items : list pbns_measured_boot_selection_item) (decoder : QCBORDecodeContext)
  : option (list pbns_measured_boot_selection_item * QCBORDecodeContext) :=
  match count with
  | O => Some (items, decoder)
  | S count =>
      '(_, decoder) ← expect_item decoder (fun item => (uNestingLevel item =? 2) && (uDataType item =? QCBOR_TYPE_MAP)
        && (uLabelType item =? QCBOR_TYPE_NONE) && (val_uCount item =? 2));
      '(algorithm, decoder) ← nested_uint decoder 3 1;
      if PBNS_ATTESTATION_PCR_BANK_MAX <? algorithm then None
      else
      '(item, decoder) ← next_nested decoder 3 2;
      if negb (uDataType item =? QCBOR_TYPE_ARRAY) || (val_uCount item =? 0) then None
      else
      '(items, decoder) ← decode_indices (Z.to_nat (val_uCount item)) algorithm items decoder;
      decode_banks count items decoder
  end.

Definition decode_selection (decoder : QCBORDecodeContext) : option (list pbns_measured_boot_selection_item * QCBORDecodeContext) :=
  '(item, decoder) ← next_nested decoder 1 11;
  if negb (uDataType item =? QCBOR_TYPE_ARRAY) || (val_uCount item =? 0) then None
  else
  '(items, decoder) ← decode_banks (Z.to_nat (val_uCount item)) [] decoder;
  if selection_valid items then Some (items, decoder) else None.

(** [None] is [PBNS_ERR_FORMAT]; the challenge is zeroed before. *)
Definition decode_challenge (payload : bytes) : option pbns_attestation_challenge :=
  '(_, decoder) ← expect_item (QCBORDecode_Init payload) (fun item => (uDataType item =? QCBOR_TYPE_MAP)
    && (uLabelType item =? QCBOR_TYPE_NONE) && (val_uCount item =? PBNS_ATTESTATION_CHALLENGE_FIELD_COUNT));
  '(request_id, host_fingerprint, verifier_nonce, issued_at_ns, expiry_ns, decoder) ← decode_challenge_common decoder;
  '(nonce, decoder) ← nested_bytes decoder 1 10 PBNS_ATTESTATION_NONCE_SIZE;
  if negb (ct_equal nonce verifier_nonce) then None
  else
  '(items, decoder) ← decode_selection decoder;
  '(item, decoder) ← next_nested decoder 1 12;
  if negb (uDataType item =? QCBOR_TYPE_BYTE_STRING) || (zlen (val_string item) =? 0)
     || (PBNS_ENCRYPT_MAX_RECIPIENT_KID <? zlen (val_string item)) then None
  else
  '(duplicated_expiry, decoder) ← nested_uint decoder 1 13;
  if negb (duplicated_expiry =? expiry_ns) || (expiry_ns <? issued_at_ns) || (INT64_MAX <? expiry_ns) || negb (QCBORDecode_Finish decoder) then None
  else Some (mk_challenge request_id host_fingerprint verifier_nonce items (val_string item) issued_at_ns expiry_ns false).

(** ** Acceptance *)

Definition challenge_headers_accepted (protected_headers : bytes) (expected_kid : pbns_view) : bool :=
  match
    '(_, headers) ← expect_item (QCBORDecode_Init protected_headers) (fun item => (uDataType item =? QCBOR_TYPE_MAP) && (val_uCount item =? 2));
    '(item, headers) ← next_nested headers 1 1;
    if negb (uDataType item =? QCBOR_TYPE_INT64) || negb (val_int64 item =? PBNS_COSE_ES256) then None
    else
    '(item, headers) ← next_nested headers 1 4;
    if negb (uDataType item =? QCBOR_TYPE_BYTE_STRING) || negb (attestation_views_equal (string_view item) expected_kid) then None
    else Some (QCBORDecode_Finish headers)
  with
  | Some true => true
  | _ => false
  end.

(** The comparisons of octets are those of the receipts; none of the views is [NULL] there. *)
Definition challenge_cose_profile_valid : bytes -> pbns_view -> pbns_buffer -> bool * bytes := profile_check challenge_headers_accepted.

Context {W : Type} `{Machine}.

(** Where the structures of the call lie and how large they are. *)
Record challenge_places := mk_challenge_places {
  at_challenge : Z * Z;
  at_expected : Z * Z;
  at_trusted_time : Z * Z;
  at_verifier : Z * Z;
  at_workspace : Z * Z;
}.

Definition challenge_workspace_valid (signed_challenge : pbns_view) (e : pbns_attestation_challenge_expected) (ws : pbns_attestation_challenge_workspace)
    (places : challenge_places) : bool :=
  if negb (view_is_valid signed_challenge) || (v_len signed_challenge =? 0) || (PBNS_ATTESTATION_CHALLENGE_MAX_SIZE <? v_len signed_challenge)
     || negb (buffer_is_valid (cw_canonical ws)) || negb (buffer_is_valid (cw_aad ws))
     || negb (b_cap (cw_canonical ws) =? PBNS_ATTESTATION_CHALLENGE_MAX_SIZE) || negb (b_cap (cw_aad ws) =? PBNS_ATTESTATION_AAD_MAX_SIZE)
     || negb (view_is_valid (ce_challenge_kid e)) || (v_len (ce_challenge_kid e) =? 0) || (PBNS_ENCRYPT_MAX_RECIPIENT_KID <? v_len (ce_challenge_kid e))
  then false
  else ranges_apart [] [buffer_range (cw_canonical ws); buffer_range (cw_aad ws); at_challenge places]
         [view_range signed_challenge; at_expected places; view_range (ce_recipient_kid e); view_range (ce_challenge_kid e);
          at_trusted_time places; at_verifier places; at_workspace places].

Definition challenge_bound (c : pbns_attestation_challenge) (e : pbns_attestation_challenge_expected) : bool :=
  ct_equal (ch_request_id c) (ce_request_id e) && ct_equal (ch_host_fingerprint c) (ce_host_fingerprint e)
  && ct_equal (ch_verifier_nonce c) (ce_verifier_nonce e) && attestation_views_equal (mk_view 1 (ch_recipient_kid c)) (ce_recipient_kid e).

Definition challenge_expired (c : pbns_attestation_challenge) (time : pbns_time_interval) : bool :=
  (ti_earliest_ns time <? 0) || (ti_latest_ns time <? 0) || (ti_latest_ns time <? ti_earliest_ns time)
  || (u64 (ti_earliest_ns time) <? ch_issued_at_ns c) || (ch_expiry_ns c <? u64 (ti_latest_ns time)).

(** The checks on a payload that was vouched for: the status and the parsed challenge. *)
Definition challenge_check (payload : pbns_view) (e : pbns_attestation_challenge_expected) (time : pbns_time_interval) (canonical : pbns_buffer)
  : option (pbns_status * pbns_attestation_challenge) :=
  if (PBNS_ATTESTATION_CHALLENGE_MAX_SIZE <? v_len payload) || (b_cap canonical <? v_len payload) then Some (PBNS_ERR_LIMIT, zero_challenge)
  else
  match decode_challenge (v_data payload) with
  | None => Some (PBNS_ERR_FORMAT, zero_challenge)
  | Some parsed =>
      let '(status, data, canonical_size) := challenge_encode parsed canonical in
      if negb (is_ok status) then Some (status, zero_challenge)
      else if negb (canonical_size =? v_len payload) then Some (PBNS_ERR_FORMAT, zero_challenge)
      else
      octets ← rd_slice data 0 (v_len payload);
      if negb (octets_equal (mk_view (b_ptr canonical) octets) payload) then Some (PBNS_ERR_FORMAT, zero_challenge)
      else if negb (challenge_bound parsed e) then Some (PBNS_ERR_AUTHENTICATION, zero_challenge)
      else if challenge_expired parsed time then Some (PBNS_ERR_TIMEOUT, zero_challenge)
      else Some (PBNS_OK, parsed)
  end.

(** The status, the workspace, the challenge and the world. *)
Definition accept_challenge (verifier : pbns_crypto W) (signed_challenge : pbns_view) (e : pbns_attestation_challenge_expected) (time : pbns_time_interval)
    (ws : pbns_attestation_challenge_workspace) (c : pbns_attestation_challenge) (places : challenge_places) (w : W)
  : option (pbns_status * pbns_attestation_challenge_workspace * pbns_attestation_challenge * W) :=
  if negb (challenge_workspace_valid signed_challenge e ws places) then Some (PBNS_ERR_ARGUMENT, ws, c, w)
  else
  let wiped := mk_challenge_workspace (wipe_buffer (cw_canonical ws)) (wipe_buffer (cw_aad ws)) in
  let '(profile, data) := challenge_cose_profile_valid (v_data signed_challenge) (ce_challenge_kid e) (cw_canonical ws) in
  let canonical := with_data (cw_canonical ws) data in
  if negb profile then Some (PBNS_ERR_FORMAT, wiped, zero_challenge, w)
  else
  let '(status, aad_data, aad_size) := challenge_aad e (cw_aad ws) in
  if negb (is_ok status) then Some (status, wiped, zero_challenge, w)
  else
  external_aad ← rd_slice aad_data 0 aad_size;
  let '(status, payload, w) :=
    pbns_sign1_verify_profile (Some verifier) signed_challenge (mk_view (b_ptr (cw_aad ws)) external_aad) (ce_challenge_kid e) (Some null_view) w in
  if negb (is_ok status) then Some (status, wiped, zero_challenge, w)
  else
  '(status, parsed) ← challenge_check (default null_view payload) e time canonical;
  Some (status, wiped, parsed, w).

Definition pbns_attestation_accept_challenge (verifier : ptr (pbns_crypto W)) (signed_challenge : pbns_view) (expected : ptr pbns_attestation_challenge_expected)
    (trusted_time : ptr pbns_time_interval) (workspace : ptr pbns_attestation_challenge_workspace) (challenge : ptr pbns_attestation_challenge)
    (places : challenge_places) (w : W)
  : option (pbns_status * ptr pbns_attestation_challenge_workspace * ptr pbns_attestation_challenge * W) :=
  match verifier, expected, trusted_time, workspace, challenge with
  | Some verifier, Some e, Some time, Some ws, Some c =>
      '(status, ws, c, w) ← accept_challenge verifier signed_challenge e time ws c places w;
      Some (status, Some ws, Some c, w)
  | _, _, _, _, _ => Some (PBNS_ERR_ARGUMENT, workspace, challenge, w)
  end.

Definition pbns_attestation_challenge_reset (challenge : ptr pbns_attestation_challenge) : ptr pbns_attestation_challenge := (fun _ => zero_challenge) <$> challenge.
End code.
