(* ===== verification/ChallengeProps.v ===== *)
(** * Attestation challenges: correctness

    A challenge is accepted exactly when the message is the canonical COSE_Sign1
    message of the pinned key, the verifier vouches for its payload over data that
    names the request, the payload is the canonical encoding of a challenge for this
    request, and trusted time lies within its validity. *)

From stdpp Require Import base list numbers.
From Stdlib Require Import ZArith Lia Sorted.
From S2P Require Import Prelude Endian Status Buffers Cbor CborTree Compare Crypto Frame TrustedTime MeasuredBoot RecoveryManifest ManifestProps TreeReads AttestationReceipt ReceiptProps AttestationChallenge.

(** ** Selections of registers *)

(** By algorithm and then by index. *)
Definition item_before (a b : pbns_measured_boot_selection_item) : Prop :=
  sel_hash_algorithm a < sel_hash_algorithm b \/ sel_hash_algorithm a = sel_hash_algorithm b /\ sel_pcr_index a < sel_pcr_index b.

Definition item_typed (i : pbns_measured_boot_selection_item) : Prop := 0 <= sel_hash_algorithm i <= UINT16_MAX /\ 0 <= sel_pcr_index i <= 23.

(** Between one and 24 registers, each once, in order. *)
Definition selected (items : list pbns_measured_boot_selection_item) : Prop :=
  0 < zlen items <= 24 /\ Forall item_typed items /\ Sorted item_before items.

Lemma out_of_order_spec a b : item_out_of_order a b = false <-> item_before a b.
Proof. unfold item_out_of_order, item_before. rewrite orb_false_iff, andb_false_iff, Z.ltb_ge, Z.eqb_neq, Z.leb_gt. lia. Qed.

Lemma selection_ordered_spec previous items : selection_ordered previous items = true <->
  Forall (fun i => sel_pcr_index i <= 23) items /\ Sorted item_before items /\ match previous with Some p => HdRel item_before p items | None => True end.
Proof.
  revert previous. induction items as [|i items IH]; intros previous; cbn [selection_ordered].
  { split; [|done]. intros _. split; [constructor|]. split; [constructor|]. destruct previous; [constructor|done]. }
  unfold PBNS_ATTESTATION_PCR_INDEX_MAX. rewrite Forall_cons_iff. destruct (Z.ltb_spec 23 (sel_pcr_index i)); [split; [done|lia]|].
  destruct (match previous with Some p => item_out_of_order p i | None => false end) eqn:E.
  - split; [done|]. intros (_ & _ & Hp). destruct previous as [p|]; [|done]. inversion_clear Hp as [|? ? Hb]. apply out_of_order_spec in Hb. congruence.
  - rewrite IH. assert (Hp : match previous with Some p => item_before p i | None => True end) by (destruct previous; [by apply out_of_order_spec|done]).
    split.
    + intros (HF & Hs & Hh). split; [done|]. split; [by constructor|]. destruct previous; [by constructor|done].
    + intros ((_ & HF) & Hs & _). apply Sorted_inv in Hs. tauto.
Qed.

Lemma selection_valid_spec items : Forall (fun i => 0 <= sel_hash_algorithm i <= UINT16_MAX /\ 0 <= sel_pcr_index i) items ->
  selection_valid items = true <-> selected items.
Proof.
  intros HT. unfold selection_valid, selected, PBNS_MEASURED_BOOT_SELECTION_MAX_COUNT. pose proof (selection_ordered_spec None items) as Hs.
  assert (HF : Forall item_typed items <-> Forall (fun i => sel_pcr_index i <= 23) items).
  { unfold item_typed. rewrite !Forall_forall in *. split; intros H x Hx; specialize (H x Hx); specialize (HT x Hx); lia. }
  destruct (_ || _) eqn:E; [split; [done|lia]|]. rewrite Hs, HF. intuition lia.
Qed.

(** The entries of banks. *)
Definition bank_items (bank : Z * list Z) : list pbns_measured_boot_selection_item := map (mk_selection_item (fst bank)) (snd bank).
Definition banks_items (banks : list (Z * list Z)) : list pbns_measured_boot_selection_item := concat (map bank_items banks).

Lemma bank_loop_items algorithm indices items : banks_items (bank_loop algorithm indices items) = map (mk_selection_item algorithm) indices ++ items.
Proof.
  unfold banks_items. revert algorithm indices. induction items as [|[a i] items IH]; intros algorithm indices; cbn [bank_loop map concat sel_hash_algorithm sel_pcr_index]; [done|].
  destruct (Z.eqb_spec a algorithm) as [-> |_].
  - rewrite IH, map_app, <- app_assoc. done.
  - cbn [map concat]. rewrite IH. done.
Qed.

(** Grouping by banks loses nothing. *)
Lemma selection_banks_items items : banks_items (selection_banks items) = items.
Proof. destruct items as [|[a i] items]; [done|]. cbn [selection_banks]. by rewrite bank_loop_items. Qed.

Definition bank_proper (bank : Z * list Z) : Prop := snd bank <> [].

Lemma bank_loop_proper algorithm indices items : indices <> [] -> Forall bank_proper (bank_loop algorithm indices items).
Proof.
  revert algorithm indices. induction items as [|[a i] items IH]; intros algorithm indices Hne; cbn [bank_loop]; [by repeat constructor|].
  case_match; [|constructor; [done|]]; apply IH; [by destruct indices|done].
Qed.

Lemma selection_banks_proper items : Forall bank_proper (selection_banks items).
Proof. destruct items as [|[a i] items]; [constructor|]. by apply bank_loop_proper. Qed.

Lemma banks_fewer banks : Forall bank_proper banks -> zlen banks <= zlen (banks_items banks).
Proof.
  unfold banks_items. induction 1 as [|[a ix] banks Hb _ IH]; [done|]. cbn [map concat length]. rewrite length_app. unfold bank_items at 1. rewrite length_map. cbn [snd fst].
  unfold bank_proper in Hb. cbn in Hb. destruct ix; [done|]. cbn [length]. lia.
Qed.

(** What typed entries say of their bank. *)
Definition bank_typed (bank : Z * list Z) : Prop := 0 <= fst bank <= UINT16_MAX /\ Forall (fun i => 0 <= i <= 23) (snd bank).

Lemma banks_typed banks : Forall bank_proper banks -> Forall item_typed (banks_items banks) -> Forall bank_typed banks.
Proof.
  unfold banks_items. induction 1 as [|[a ix] banks Hb _ IH]; [constructor|]. cbn [map concat]. rewrite Forall_app. intros [Hi HF]. constructor; [|by apply IH].
  unfold bank_items in Hi. cbn [fst snd] in Hi. rewrite Forall_map in Hi. unfold bank_typed, bank_proper, item_typed in *. cbn [fst snd] in *. split.
  - destruct ix as [|i ix]; [done|]. inversion_clear Hi as [|? ? H _]. cbn in H. lia.
  - eapply Forall_impl; [|exact Hi]. cbn. tauto.
Qed.

(** ** Challenges *)

Definition challenge_sized (c : pbns_attestation_challenge) : Prop :=
  zlen (ch_request_id c) = 16 /\ zlen (ch_host_fingerprint c) = 32 /\ zlen (ch_verifier_nonce c) = 32.

(** A challenge that the verifier can issue. *)
Record challenge_issued (c : pbns_attestation_challenge) : Prop := mk_challenge_issued {
  ci_sized : challenge_sized c;
  ci_selected : selected (ch_selection_items c);
  ci_kid : 0 < ch_recipient_kid_len c <= PBNS_ENCRYPT_MAX_RECIPIENT_KID;
  ci_time : 0 <= ch_issued_at_ns c <= ch_expiry_ns c /\ ch_expiry_ns c <= INT64_MAX;
  ci_fresh : ch_consumed c = false;
}.

Definition challenge_octets (c : pbns_attestation_challenge) : bytes := tree_encode (challenge_tree c).

Lemma bank_octets bank : bank_typed bank -> zlen (tree_encode (bank_tree bank)) <= 29 + zlen (snd bank).
Proof.
  intros [Ha Hi]. unfold bank_tree. cbn [tree_encode map concat fst snd]. rewrite !length_app, !Nat2Z.inj_add, !small_label by lia.
  pose proof (value_length (CUInt (fst bank))) as Hv. cbn match in Hv. rewrite length_map.
  assert (Hc : zlen (concat (map tree_encode (map (fun index => TValue (CUInt index)) (snd bank)))) = zlen (snd bank)).
  { induction Hi as [|i l Hr _ IH]; [done|]. cbn [map concat length tree_encode]. rewrite length_app. pose proof (small_uint i ltac:(lia)). lia. }
  rewrite Hc. pose proof (cbor_head_at_most 4 (zlen (snd bank))). match goal with |- context [zlen (cbor_head 5 ?n)] => pose proof (cbor_head_at_most 5 n) end.
  change (zlen (@nil Z)) with 0. cbn [length] in *. lia.
Qed.

Lemma banks_octets banks : Forall bank_typed banks ->
  zlen (concat (map tree_encode (map bank_tree banks))) <= 29 * zlen banks + zlen (banks_items banks).
Proof.
  unfold banks_items. induction 1 as [|bank banks Hb _ IH]; [done|]. cbn [map concat length]. rewrite !length_app. pose proof (bank_octets bank Hb).
  unfold bank_items at 1. rewrite length_map. lia.
Qed.

Lemma selected_banks items : selected items -> Forall bank_typed (selection_banks items) /\ 0 < zlen (selection_banks items) <= zlen items.
Proof.
  intros (Hl & HT & _). pose proof (selection_banks_proper items) as Hp. pose proof (selection_banks_items items) as E. split.
  - apply banks_typed; [done|]. by rewrite E.
  - pose proof (banks_fewer _ Hp) as Hf. rewrite E in Hf. split; [|done]. destruct (selection_banks items) eqn:Eb; [|cbn; lia]. cbn in E. subst items. cbn in Hl. lia.
Qed.

Lemma challenge_octets_length c : challenge_issued c -> 0 < zlen (challenge_octets c) <= 4096.
Proof.
  intros [(L1 & L2 & L3) Hs Hk Ht _]. split; [pose proof (tree_encode_pos (challenge_tree c)); unfold challenge_octets; lia|].
  destruct (selected_banks _ Hs) as [HT Hn]. pose proof (banks_octets _ HT) as Hb. rewrite selection_banks_items in Hb. destruct Hs as (Hl & _ & _).
  unfold challenge_octets, challenge_tree, common_tree, selection_tree, ch_recipient_kid_len, PBNS_ENCRYPT_MAX_RECIPIENT_KID in *. cbn [tree_encode map concat fst snd].
  rewrite !length_app, !Nat2Z.inj_add, !small_label, length_map by lia. rewrite !small_uint by (vm_compute; done).
  pose proof (value_length (CText PBNS_ATTESTATION_DOMAIN)) as V1. pose proof (value_length (CBytes (ch_request_id c))) as V2.
  pose proof (value_length (CBytes (ch_host_fingerprint c))) as V3. pose proof (value_length (CBytes (ch_verifier_nonce c))) as V4.
  pose proof (value_length (CUInt (ch_issued_at_ns c))) as V5. pose proof (value_length (CUInt (ch_expiry_ns c))) as V6. pose proof (value_length (CBytes [])) as V7.
  pose proof (value_length (CBytes (ch_recipient_kid c))) as V8. pose proof (cbor_head_at_most 4 (zlen (selection_banks (ch_selection_items c)))).
  repeat match goal with |- context [zlen (cbor_head 5 ?n)] => change (zlen (cbor_head 5 n)) with 1 end.
  cbn match in *. change (zlen PBNS_ATTESTATION_DOMAIN) with 19 in *. change (zlen (@nil Z)) with 0 in *. lia.
Qed.

Lemma bank_tree_ok bank : bank_typed bank -> zlen (snd bank) <= 24 -> tree_ok (bank_tree bank).
Proof.
  intros [Ha Hi] Hl. unfold bank_tree, UINT16_MAX in *. cbn [tree_ok fold_right fst snd cbor_value_ok length]. unfold label_ok, INT64_MAX, UINT64_MAX. rewrite length_map.
  assert (Hf : fold_right (fun x Q => tree_ok x /\ Q) True (map (fun index => TValue (CUInt index)) (snd bank))).
  { induction Hi as [|i l Hr _ IH]; [done|]. cbn [length] in Hl. split; [cbn; unfold UINT64_MAX; lia|apply IH; lia]. }
  repeat split; try lia. exact Hf.
Qed.

Lemma banks_each_short banks : Forall (fun bank => zlen (snd bank) <= zlen (banks_items banks)) banks.
Proof.
  induction banks as [|b banks IH]; [constructor|]. assert (E : zlen (banks_items (b :: banks)) = zlen (snd b) + zlen (banks_items banks)).
  { unfold banks_items. cbn [map concat]. rewrite length_app. unfold bank_items at 1. rewrite length_map. lia. }
  rewrite E. constructor; [lia|]. eapply Forall_impl; [|exact IH]. cbn. lia.
Qed.

Lemma selection_tree_ok items : selected items -> tree_ok (selection_tree items).
Proof.
  intros Hs. destruct (selected_banks _ Hs) as [HT Hn]. destruct Hs as (Hl & _). pose proof (banks_each_short (selection_banks items)) as Hsh. rewrite selection_banks_items in Hsh.
  unfold selection_tree. cbn [tree_ok]. rewrite length_map. split; [unfold UINT64_MAX; lia|]. clear Hn. induction HT as [|b banks Hb _ IH]; [done|].
  inversion_clear Hsh as [|? ? H1 H2]. split; [apply bank_tree_ok; [done|lia]|by apply IH].
Qed.

Lemma challenge_tree_ok c : challenge_issued c -> tree_ok (challenge_tree c).
Proof.
  intros [(L1 & L2 & L3) Hs Hk Ht _]. pose proof (selection_tree_ok _ Hs) as Hsel. unfold ch_recipient_kid_len, PBNS_ENCRYPT_MAX_RECIPIENT_KID, INT64_MAX in *.
  unfold challenge_tree, common_tree. set (st := selection_tree (ch_selection_items c)) in *. clearbody st.
  assert (L : forall label, 0 <= label <= 20 -> label_ok label) by (intros; unfold label_ok, INT64_MAX; lia).
  assert (B : forall s : bytes, zlen s <= 64 -> cbor_value_ok (CBytes s)) by (intros; cbn; unfold UINT64_MAX; lia).
  assert (U : forall v, 0 <= v <= INT64_MAX -> cbor_value_ok (CUInt v)) by (intros; cbn; unfold UINT64_MAX, INT64_MAX in *; lia). unfold INT64_MAX in U.
  assert (D : cbor_value_ok (CText PBNS_ATTESTATION_DOMAIN)) by (vm_compute; discriminate).
  assert (M : forall fields, zlen fields <= 20 -> Forall (fun p => label_ok (fst p) /\ tree_ok (snd p)) fields -> tree_ok (TMap fields)).
  { intros fields Hf HF. split; [unfold UINT64_MAX; lia|]. by induction HF as [|p fields Hp _ IH]; [|split; [|apply IH; cbn in Hf; lia]]. }
  assert (C : 0 <= PBNS_ATTESTATION_PROTOCOL_VERSION <= 3 /\ 0 <= PBNS_SERVICE_PLATFORM_ATTESTATION <= 3) by (vm_compute; intuition discriminate).
  assert (F : forall label t, 0 <= label <= 20 -> tree_ok t -> label_ok (fst (label, t)) /\ tree_ok (snd (label, t))) by (intros; split; [by apply L|done]).
  apply M; [cbn; lia|]. repeat apply Forall_cons_2; try apply Forall_nil_2; apply F; try lia; try exact Hsel; try (apply B; cbn; lia); try (apply U; lia).
  apply M; [cbn; lia|]. repeat apply Forall_cons_2; try apply Forall_nil_2; apply F; try lia; try exact D; try (apply B; cbn; lia); try (apply U; lia).
Qed.

Lemma banks_distinct banks : forallb labels_distinct (map bank_tree banks) = true.
Proof. induction banks as [|b banks IH]; [done|]. cbn [map forallb]. rewrite IH. unfold bank_tree. cbn [labels_distinct map fst snd forallb]. by rewrite reasons_distinct. Qed.

Lemma banks_depth banks : (list_max (map tree_depth (map bank_tree banks)) <= 3)%nat.
Proof.
  induction banks as [|b banks IH]; [cbn; lia|]. pose proof (reasons_depth (snd b)). cbn [map list_max fold_right].
  fold (list_max (map tree_depth (map bank_tree banks))). unfold bank_tree at 1. cbn [tree_depth map snd list_max fold_right] in *. lia.
Qed.

Lemma challenge_readable c : challenge_issued c -> tree_readable (challenge_tree c).
Proof.
  intros Hc. split; [by apply challenge_tree_ok|]. split.
  { unfold challenge_tree, common_tree, selection_tree. cbn [labels_distinct map fst snd forallb]. by rewrite banks_distinct. }
  split; [|pose proof (challenge_octets_length c Hc); unfold challenge_octets, UINT16_MAX in *; lia].
  unfold challenge_tree, common_tree, selection_tree. pose proof (banks_depth (selection_banks (ch_selection_items c))).
  cbn [tree_depth map snd list_max fold_right] in *. lia.
Qed.

Lemma bank_tree_norm bank : tree_norm (bank_tree bank) = bank_tree bank.
Proof. unfold bank_tree. cbn [tree_norm map fst snd cbor_norm]. by rewrite map_map. Qed.

Lemma banks_norm banks : map tree_norm (map bank_tree banks) = map bank_tree banks.
Proof. rewrite map_map. apply map_ext. exact bank_tree_norm. Qed.

Lemma bank_tree_inj a b : bank_tree a = bank_tree b -> a = b.
Proof.
  destruct a as [x l], b as [y m]. unfold bank_tree. cbn [fst snd]. intros E. injection E as <- E. f_equal. revert m E.
  induction l as [|i l IH]; intros [|j m] E; try done. cbn in E. injection E as <- E. f_equal. by apply IH.
Qed.

Lemma challenge_octets_inj a b : challenge_issued a -> challenge_issued b -> challenge_octets a = challenge_octets b -> a = b.
Proof.
  intros Ha Hb E. apply tree_encode_inj in E; [|by apply challenge_tree_ok..]. unfold challenge_tree, common_tree, selection_tree in E.
  cbn [tree_norm map fst snd cbor_norm] in E. rewrite !banks_norm in E. pose proof (ci_fresh _ Ha) as Fa. pose proof (ci_fresh _ Hb) as Fb.
  injection E as E1 E2 E3 E4 E5 _ E7 E8.
  assert (Es : ch_selection_items a = ch_selection_items b).
  { rewrite <- (selection_banks_items (ch_selection_items a)), <- (selection_banks_items (ch_selection_items b)). f_equal.
    eapply list_fmap_eq_inj; [exact bank_tree_inj|]. assumption. }
  destruct a, b. cbn in *. congruence.
Qed.

(** ** Decoding *)

Definition stored_typed (i : pbns_measured_boot_selection_item) : Prop := 0 <= sel_hash_algorithm i <= UINT16_MAX /\ 0 <= sel_pcr_index i.

Lemma stored_item algorithm index : stored_typed (mk_selection_item (u16 algorithm) (u8 index)).
Proof. unfold stored_typed, u16, u8, UINT16_MAX. cbn [sel_hash_algorithm sel_pcr_index]. pose proof (Z.mod_pos_bound algorithm (2 ^ 16)). pose proof (Z.mod_pos_bound index (2 ^ 8)). lia. Qed.

Lemma decode_indices_typed `{Q : QCBORSpiffy} count algorithm items d items' d' : Forall stored_typed items ->
  decode_indices count algorithm items d = Some (items', d') -> Forall stored_typed items'.
Proof.
  revert items d. induction count as [|count IH]; intros items d HF; cbn [decode_indices]; [by intros [= <- _]|]. case_match; [done|].
  destruct (expect_item d _) as [[item d1]|]; [|done]. cbn [mbind option_bind]. destruct (item_to_uint64 item) as [index|]; [|done]. cbn [mbind option_bind].
  case_match; [done|]. apply IH. apply Forall_app. split; [done|]. constructor; [apply stored_item|constructor].
Qed.

Lemma decode_banks_typed `{Q : QCBORSpiffy} count items d items' d' : Forall stored_typed items ->
  decode_banks count items d = Some (items', d') -> Forall stored_typed items'.
Proof.
  revert items d. induction count as [|count IH]; intros items d HF; cbn [decode_banks]; [by intros [= <- _]|]. intros H. do 5 (decoder_step H).
  destruct (decode_indices _ _ items _) as [[items1 d9]|] eqn:Ei; [|done]. cbn [mbind option_bind] in H. eapply IH; [|exact H]. by eapply decode_indices_typed.
Qed.

Lemma nested_bytes_length `{Q : QCBORSpiffy} d n label size s d' : nested_bytes d n label size = Some (s, d') -> zlen s = size.
Proof.
  unfold nested_bytes. destruct (next_nested d n label) as [[item d1]|]; [|done]. cbn [mbind option_bind]. destruct (_ || _) eqn:E; [done|]. intros [= <- _]. bools. done.
Qed.

Lemma nested_uint_range `{Q : QCBORSpiffy} d n label v d' : nested_uint d n label = Some (v, d') -> 0 <= v <= UINT64_MAX.
Proof.
  unfold nested_uint. destruct (next_nested d n label) as [[item d1]|]; [|done]. cbn [mbind option_bind]. destruct (item_to_uint64 item) as [x|]; [|done].
  intros [= <- _]. unfold u64, UINT64_MAX. pose proof (Z.mod_pos_bound x (2 ^ 64)). lia.
Qed.

Lemma decode_common_ranges `{Q : QCBORSpiffy} d id host nonce issued_at expiry d' :
  decode_challenge_common d = Some (id, host, nonce, issued_at, expiry, d') ->
  zlen id = 16 /\ zlen host = 32 /\ zlen nonce = 32 /\ 0 <= issued_at.
Proof.
  unfold decode_challenge_common. intros H. do 14 (decoder_step H). injection H as <- <- <- <- <- _.
  repeat match goal with
  | E : nested_bytes _ _ _ _ = Some _ |- _ => apply nested_bytes_length in E
  | E : nested_uint _ _ _ = Some _ |- _ => apply nested_uint_range in E
  end. unfold PBNS_REQUEST_ID_SIZE, PBNS_ATTESTATION_DIGEST_SIZE, PBNS_ATTESTATION_NONCE_SIZE in *. split_and!; lia.
Qed.

Lemma decode_challenge_issued `{Q : QCBORSpiffy} payload c : decode_challenge payload = Some c -> challenge_issued c.
Proof.
  unfold decode_challenge. intros H. decoder_step H.
  destruct (decode_challenge_common _) as [[[[[[id host] nonce] issued_at] expiry] d1]|] eqn:Ec; [|done]. cbn [mbind option_bind] in H.
  do 3 (decoder_step H). match goal with E : decode_selection _ = Some (?items, _) |- _ => rename E into Es; set (sel := items) in *; clearbody sel end.
  do 4 (decoder_step H). injection H as <-. apply decode_common_ranges in Ec as (L1 & L2 & L3 & Hi). bools.
  constructor; cbn; [done| |unfold ch_recipient_kid_len, PBNS_ENCRYPT_MAX_RECIPIENT_KID in *; cbn; lia|lia|done].
  unfold decode_selection in Es. do 2 (decoder_step Es). destruct (decode_banks _ [] _) as [[items d9]|] eqn:Eb; [|done]. cbn [mbind option_bind] in Es.
  destruct (selection_valid items) eqn:Ev; [|done]. injection Es as <- _. apply selection_valid_spec; [|done]. eapply decode_banks_typed; [constructor|exact Eb].
Qed.

Section reads.
Context `{Q : QCBORSpiffy} `{!TreeReads}.

(** A labelled item at its level. *)
Lemma next_nested_reads d spec tags rest n label :
  to_read d = Some ((spec, tags) :: rest) -> uNestingLevel spec = n -> uLabelType spec = QCBOR_TYPE_INT64 -> label_int64 spec = label ->
  exists item d', next_nested d n label = Some (item, d') /\ to_read d' = Some rest /\ item_agrees spec item.
Proof.
  intros Hd <- Ht <-. destruct (expect_reads d spec tags rest (fun item => (uNestingLevel item =? uNestingLevel spec) && (uLabelType item =? QCBOR_TYPE_INT64)
    && (label_int64 item =? label_int64 spec)) Hd) as (item & d' & E & Hr & Ha & _).
  { intros item [_ H2 H3 H4 _ _ _ _]. by rewrite H2, H3, H4, Ht, !Z.eqb_refl. }
  by exists item, d'.
Qed.

Lemma nested_value_reads d n label v rest : to_read d = Some (tree_items n QCBOR_TYPE_INT64 label [] (TValue v) ++ rest) ->
  exists spec item d', tree_items n QCBOR_TYPE_INT64 label [] (TValue v) = [(spec, [])] /\ next_nested d n label = Some (item, d')
  /\ to_read d' = Some rest /\ item_agrees spec item.
Proof.
  intros Hd. assert (Hs : exists spec, tree_items n QCBOR_TYPE_INT64 label [] (TValue v) = [(spec, [])]
    /\ uNestingLevel spec = n /\ uLabelType spec = QCBOR_TYPE_INT64 /\ label_int64 spec = label).
  { destruct v as [v| | |]; cbn [tree_items]; [destruct (v <=? INT64_MAX)|..]; (eexists; split; [reflexivity|done]). }
  destruct Hs as (spec & Es & H1 & H2 & H3). rewrite Es in Hd. destruct (next_nested_reads _ _ _ _ n label Hd H1 H2 H3) as (item & d' & E & Hr & Ha).
  by exists spec, item, d'.
Qed.

Lemma nested_uint_reads d n label v rest : to_read d = Some (tree_items n QCBOR_TYPE_INT64 label [] (TValue (CUInt v)) ++ rest) -> 0 <= v <= UINT64_MAX ->
  exists d', nested_uint d n label = Some (v, d') /\ to_read d' = Some rest.
Proof.
  intros Hd Hv. destruct (nested_value_reads _ _ _ _ _ Hd) as (spec & item & d' & Es & E & Hr & Ha). exists d'. unfold nested_uint. rewrite E.
  cbn [mbind option_bind]. rewrite (uint_agrees _ _ _ _ _ _ _ Hv Es Ha). cbn [mbind option_bind]. by rewrite u64_small.
Qed.

Lemma nested_string_reads d n label (v : cbor_value) type s rest : (type, v) = (QCBOR_TYPE_BYTE_STRING, CBytes s) \/ (type, v) = (QCBOR_TYPE_TEXT_STRING, CText s) ->
  to_read d = Some (tree_items n QCBOR_TYPE_INT64 label [] (TValue v) ++ rest) ->
  exists item d', next_nested d n label = Some (item, d') /\ to_read d' = Some rest /\ uDataType item = type /\ val_string item = s /\ val_string_ptr item <> 0.
Proof.
  intros Hv Hd. destruct (nested_value_reads _ _ _ _ _ Hd) as (spec & item & d' & Es & E & Hr & [H1 _ _ _ _ _ _ H8]). exists item, d'. split; [done|]. split; [done|].
  destruct Hv as [[= -> ->]|[= -> ->]]; cbn [tree_items] in Es; injection Es as <-; cbn in *; (split; [done|]); apply H8; auto.
Qed.

Lemma nested_bytes_reads d n label s rest size : to_read d = Some (tree_items n QCBOR_TYPE_INT64 label [] (TValue (CBytes s)) ++ rest) -> zlen s = size ->
  exists d', nested_bytes d n label size = Some (s, d') /\ to_read d' = Some rest.
Proof.
  intros Hd <-. destruct (nested_string_reads d n label (CBytes s) QCBOR_TYPE_BYTE_STRING s rest) as (item & d' & E & Hr & Ht & Hs & _); [by left|done|].
  exists d'. unfold nested_bytes. rewrite E. cbn [mbind option_bind]. by rewrite Ht, Hs, !Z.eqb_refl.
Qed.

Lemma decode_indices_reads indices algorithm items d rest :
  to_read d = Some (concat (map (fun i => tree_items 4 QCBOR_TYPE_NONE 0 [] (TValue (CUInt i))) indices) ++ rest) ->
  Forall (fun i => 0 <= i <= 23) indices -> 0 <= algorithm <= UINT16_MAX -> zlen items + zlen indices <= 24 ->
  exists d', decode_indices (length indices) algorithm items d = Some (items ++ map (mk_selection_item algorithm) indices, d') /\ to_read d' = Some rest.
Proof.
  intros Hd HF Ha. revert d items Hd. induction HF as [|i indices Hi _ IH]; intros d items Hd Hl; [exists d; by rewrite app_nil_r|].
  cbn [map concat] in Hd. rewrite <- app_assoc in Hd. set (spec := mk_item QCBOR_TYPE_INT64 4 QCBOR_TYPE_NONE 0 i 0 0 [] 4096).
  assert (Es : tree_items 4 QCBOR_TYPE_NONE 0 [] (TValue (CUInt i)) = [(spec, [])]) by (cbn [tree_items]; rewrite (proj2 (Z.leb_le i INT64_MAX)) by (unfold INT64_MAX; lia); done).
  rewrite Es in Hd. cbn [app] in Hd. cbn [length decode_indices]. cbn [length] in Hl. rewrite (proj2 (Z.leb_gt PBNS_MEASURED_BOOT_SELECTION_MAX_COUNT _)) by (unfold PBNS_MEASURED_BOOT_SELECTION_MAX_COUNT; lia).
  destruct (expect_reads d spec [] _ (fun item => (uNestingLevel item =? 4) && (uLabelType item =? QCBOR_TYPE_NONE)) Hd) as (item & d1 & E & Hr1 & Hag & _).
  { intros item [_ H2 H3 _ _ _ _ _]. by rewrite H2, H3. }
  rewrite E. cbn [mbind option_bind]. rewrite (uint_agrees 4 QCBOR_TYPE_NONE 0 [] i spec item ltac:(unfold UINT64_MAX; lia) Es Hag). cbn [mbind option_bind].
  rewrite (proj2 (Z.ltb_ge PBNS_ATTESTATION_PCR_INDEX_MAX i)) by (unfold PBNS_ATTESTATION_PCR_INDEX_MAX; lia).
  assert (E16 : u16 algorithm = algorithm) by (unfold u16, UINT16_MAX in *; apply Z.mod_small; lia). rewrite E16, u8_small by (unfold is_byte; lia).
  destruct (IH d1 (items ++ [mk_selection_item algorithm i]) Hr1) as (d' & E' & Hr'); [rewrite length_app; cbn; lia|]. exists d'. rewrite E'. split; [|done]. do 2 f_equal.
  by rewrite <- app_assoc.
Qed.
(** The items of a bank, in order. *)
Lemma bank_tree_items bank :
  tree_items 2 QCBOR_TYPE_NONE 0 [] (bank_tree bank)
  = (mk_item QCBOR_TYPE_MAP 2 QCBOR_TYPE_NONE 0 0 0 2 [] 4096, @nil Z) :: tree_items 3 QCBOR_TYPE_INT64 1 [] (TValue (CUInt (fst bank)))
    ++ (mk_item QCBOR_TYPE_ARRAY 3 QCBOR_TYPE_INT64 2 0 0 (zlen (snd bank)) [] 4096, @nil Z)
    :: concat (map (fun i => tree_items 4 QCBOR_TYPE_NONE 0 [] (TValue (CUInt i))) (snd bank)).
Proof.
  unfold bank_tree. change (tree_items 2 QCBOR_TYPE_NONE 0 [] (TMap ?l)) with
    ((mk_item QCBOR_TYPE_MAP 2 QCBOR_TYPE_NONE 0 0 0 (zlen l) [] 4096, @nil Z) :: concat (map (fun p => tree_items 3 QCBOR_TYPE_INT64 (fst p) [] (snd p)) l)).
  cbn [map concat fst snd length]. rewrite app_nil_r. f_equal. f_equal.
  change (tree_items 3 QCBOR_TYPE_INT64 2 [] (TArray ?l)) with
    ((mk_item QCBOR_TYPE_ARRAY 3 QCBOR_TYPE_INT64 2 0 0 (zlen l) [] 4096, @nil Z) :: concat (map (tree_items 4 QCBOR_TYPE_NONE 0 []) l)).
  rewrite length_map, map_map. done.
Qed.

Lemma decode_banks_reads banks items d rest :
  to_read d = Some (concat (map (fun b => tree_items 2 QCBOR_TYPE_NONE 0 [] (bank_tree b)) banks) ++ rest) ->
  Forall bank_typed banks -> Forall bank_proper banks -> zlen items + zlen (banks_items banks) <= 24 ->
  exists d', decode_banks (length banks) items d = Some (items ++ banks_items banks, d') /\ to_read d' = Some rest.
Proof.
  intros Hd HT. revert d items Hd. induction HT as [|b banks [Ha Hi] _ IH]; intros d items Hd HP Hl; [exists d; unfold banks_items; cbn; by rewrite app_nil_r|].
  inversion_clear HP as [|? ? Hb HP']. unfold banks_items in Hl. cbn [map concat] in Hl, Hd. fold (banks_items banks) in Hl. rewrite length_app in Hl.
  assert (Hlb : zlen (bank_items b) = zlen (snd b)) by (unfold bank_items; by rewrite length_map).
  rewrite bank_tree_items in Hd. cbn [app] in Hd. rewrite <- !app_assoc in Hd. cbn [app] in Hd. cbn [length decode_banks].
  destruct (expect_reads d _ _ _ (fun item => (uNestingLevel item =? 2) && (uDataType item =? QCBOR_TYPE_MAP) && (uLabelType item =? QCBOR_TYPE_NONE) && (val_uCount item =? 2)) Hd)
    as (head & d1 & -> & O1 & _).
  { intros item [H1 H2 H3 _ _ _ H7 _]. rewrite H1, H2, H3, H7 by (right; done). done. }
  cbn [mbind option_bind]. destruct (nested_uint_reads _ _ _ _ _ O1) as (d2 & -> & O2); [unfold UINT16_MAX, UINT64_MAX in *; lia|]. cbn [mbind option_bind].
  rewrite (proj2 (Z.ltb_ge PBNS_ATTESTATION_PCR_BANK_MAX (fst b))) by (unfold PBNS_ATTESTATION_PCR_BANK_MAX; lia).
  destruct (next_nested_reads d2 _ _ _ 3 2 O2 eq_refl eq_refl eq_refl) as (item & d3 & -> & O3 & [T3 _ _ _ _ _ C3 _]). cbn [mbind option_bind].
  rewrite T3, C3 by (left; done). cbn [uDataType val_uCount].
  assert (Hnz : (zlen (snd b) =? 0) = false) by (apply Z.eqb_neq; unfold bank_proper in Hb; destruct (snd b); [done|cbn; lia]). rewrite Hnz.
  cbn [negb Z.eqb Pos.eqb QCBOR_TYPE_ARRAY orb]. rewrite Nat2Z.id.
  destruct (decode_indices_reads (snd b) (fst b) items d3 _ O3 Hi Ha) as (d4 & -> & O4); [lia|]. cbn [mbind option_bind].
  destruct (IH d4 (items ++ map (mk_selection_item (fst b)) (snd b)) O4 HP') as (d' & E' & Hr'); [rewrite length_app, length_map; lia|].
  exists d'. rewrite E'. split; [|done]. do 2 f_equal. unfold banks_items, bank_items. cbn [map concat]. by rewrite <- app_assoc.
Qed.

Lemma decode_selection_reads items d rest : selected items ->
  to_read d = Some (tree_items 1 QCBOR_TYPE_INT64 11 [] (selection_tree items) ++ rest) ->
  exists d', decode_selection d = Some (items, d') /\ to_read d' = Some rest.
Proof.
  intros Hs O. destruct (selected_banks _ Hs) as [HT Hn]. pose proof (selection_banks_items items) as Ei. unfold selection_tree in O.
  change (tree_items 1 QCBOR_TYPE_INT64 11 [] (TArray ?l)) with
    ((mk_item QCBOR_TYPE_ARRAY 1 QCBOR_TYPE_INT64 11 0 0 (zlen l) [] 4096, @nil Z) :: concat (map (tree_items 2 QCBOR_TYPE_NONE 0 []) l)) in O.
  rewrite length_map, map_map in O. cbn [app] in O. unfold decode_selection.
  destruct (next_nested_reads d _ _ _ 1 11 O eq_refl eq_refl eq_refl) as (item & d1 & -> & O1 & [T1 _ _ _ _ _ C1 _]). cbn [mbind option_bind].
  rewrite T1, C1 by (left; done). cbn [uDataType val_uCount].
  rewrite (proj2 (Z.eqb_neq (zlen (selection_banks items)) 0)) by lia. cbn [negb Z.eqb Pos.eqb QCBOR_TYPE_ARRAY orb]. rewrite Nat2Z.id.
  destruct (decode_banks_reads _ [] d1 _ O1 HT (selection_banks_proper items)) as (d2 & -> & O2); [rewrite Ei; cbn; destruct Hs as (Hl & _); lia|].
  cbn [mbind option_bind app]. rewrite Ei.
  assert (HF : Forall (fun i => 0 <= sel_hash_algorithm i <= UINT16_MAX /\ 0 <= sel_pcr_index i) items)
    by (destruct Hs as (_ & HF & _); eapply Forall_impl; [|exact HF]; unfold item_typed; cbn; lia).
  rewrite (proj2 (selection_valid_spec items HF) Hs). by exists d2.
Qed.
Lemma common_tree_items c rest : tree_items 1 QCBOR_TYPE_INT64 1 [] (common_tree c) ++ rest
  = (mk_item QCBOR_TYPE_MAP 1 QCBOR_TYPE_INT64 1 0 0 9 [] 4096, @nil Z)
    :: tree_items 2 QCBOR_TYPE_INT64 1 [] (TValue (CText PBNS_ATTESTATION_DOMAIN)) ++ tree_items 2 QCBOR_TYPE_INT64 2 [] (TValue (CUInt PBNS_ATTESTATION_PROTOCOL_VERSION))
    ++ tree_items 2 QCBOR_TYPE_INT64 3 [] (TValue (CUInt PBNS_SERVICE_PLATFORM_ATTESTATION)) ++ tree_items 2 QCBOR_TYPE_INT64 4 [] (TValue (CBytes (ch_request_id c)))
    ++ tree_items 2 QCBOR_TYPE_INT64 5 [] (TValue (CBytes (ch_host_fingerprint c))) ++ tree_items 2 QCBOR_TYPE_INT64 6 [] (TValue (CBytes (ch_verifier_nonce c)))
    ++ tree_items 2 QCBOR_TYPE_INT64 7 [] (TValue (CUInt (ch_issued_at_ns c))) ++ tree_items 2 QCBOR_TYPE_INT64 8 [] (TValue (CUInt (ch_expiry_ns c)))
    ++ tree_items 2 QCBOR_TYPE_INT64 9 [] (TValue (CBytes [])) ++ rest.
Proof.
  unfold common_tree. change (tree_items 1 QCBOR_TYPE_INT64 1 [] (TMap ?l)) with
    ((mk_item QCBOR_TYPE_MAP 1 QCBOR_TYPE_INT64 1 0 0 (zlen l) [] 4096, @nil Z) :: concat (map (fun p => tree_items 2 QCBOR_TYPE_INT64 (fst p) [] (snd p)) l)).
  cbn [map concat fst snd length]. rewrite <- !app_comm_cons, <- !app_assoc. done.
Qed.

Lemma challenge_common_reads c d rest : challenge_issued c -> to_read d = Some (tree_items 1 QCBOR_TYPE_INT64 1 [] (common_tree c) ++ rest) ->
  exists d', decode_challenge_common d = Some (ch_request_id c, ch_host_fingerprint c, ch_verifier_nonce c, ch_issued_at_ns c, ch_expiry_ns c, d') /\ to_read d' = Some rest.
Proof.
  intros [(L1 & L2 & L3) _ _ Ht _] O. rewrite common_tree_items in O. unfold decode_challenge_common, INT64_MAX in *.
  destruct (next_nested_reads d _ _ _ 1 1 O eq_refl eq_refl eq_refl) as (it0 & d0 & -> & O0 & [T0 _ _ _ _ _ C0 _]). cbn [mbind option_bind].
  rewrite T0, C0 by (right; done). change (negb (QCBOR_TYPE_MAP =? QCBOR_TYPE_MAP) || negb (9 =? PBNS_ATTESTATION_COMMON_FIELD_COUNT)) with false.
  destruct (nested_string_reads d0 2 1 _ QCBOR_TYPE_TEXT_STRING PBNS_ATTESTATION_DOMAIN _ (or_intror eq_refl) O0) as (it1 & d1 & -> & O1 & T1 & S1 & P1). cbn [mbind option_bind].
  assert (V1 : attestation_views_equal (string_view it1) (mk_view 1 PBNS_ATTESTATION_DOMAIN) = true).
  { unfold attestation_views_equal, octets_equal, string_view, v_len. cbn [v_ptr v_data]. rewrite S1, Z.eqb_refl, (proj2 (Z.eqb_neq _ _) P1). done. }
  rewrite T1, V1. change (negb (QCBOR_TYPE_TEXT_STRING =? QCBOR_TYPE_TEXT_STRING) || negb true) with false.
  destruct (nested_uint_reads _ _ _ _ _ O1) as (d2 & -> & O2); [done|]. cbn [mbind option_bind]. rewrite Z.eqb_refl. cbn [negb].
  destruct (nested_uint_reads _ _ _ _ _ O2) as (d3 & -> & O3); [done|]. cbn [mbind option_bind]. rewrite Z.eqb_refl. cbn [negb].
  destruct (nested_bytes_reads _ _ _ _ _ PBNS_REQUEST_ID_SIZE O3) as (d4 & -> & O4); [done|]. cbn [mbind option_bind].
  destruct (nested_bytes_reads _ _ _ _ _ PBNS_ATTESTATION_DIGEST_SIZE O4) as (d5 & -> & O5); [done|]. cbn [mbind option_bind].
  destruct (nested_bytes_reads _ _ _ _ _ PBNS_ATTESTATION_NONCE_SIZE O5) as (d6 & -> & O6); [done|]. cbn [mbind option_bind].
  destruct (nested_uint_reads _ _ _ _ _ O6) as (d7 & -> & O7); [unfold UINT64_MAX; lia|]. cbn [mbind option_bind].
  destruct (nested_uint_reads _ _ _ _ _ O7) as (d8 & -> & O8); [unfold UINT64_MAX; lia|]. cbn [mbind option_bind].
  destruct (nested_bytes_reads _ _ _ _ _ 0 O8) as (d9 & -> & O9); [done|]. cbn [mbind option_bind]. by exists d9.
Qed.

(** An issued challenge is read back. *)
Lemma decode_challenge_reads c : challenge_issued c -> decode_challenge (challenge_octets c) = Some c.
Proof.
  intros Hi. pose proof Hi as [(L1 & L2 & L3) Hs Hk Ht Hf]. pose proof (tree_start _ (challenge_readable c Hi)) as O. unfold decode_challenge, challenge_octets.
  set (d := QCBORDecode_Init _) in *. clearbody d. unfold challenge_tree in O. cbn [tree_norm map fst snd cbor_norm] in O.
  assert (Nc : tree_norm (common_tree c) = common_tree c) by done. assert (Ns : tree_norm (selection_tree (ch_selection_items c)) = selection_tree (ch_selection_items c)).
  { unfold selection_tree. cbn [tree_norm]. by rewrite banks_norm. }
  rewrite Nc, Ns in O. change (tree_items 0 QCBOR_TYPE_NONE 0 [] (TMap ?l)) with
    ((mk_item QCBOR_TYPE_MAP 0 QCBOR_TYPE_NONE 0 0 0 (zlen l) [] 4096, @nil Z) :: concat (map (fun p => tree_items 1 QCBOR_TYPE_INT64 (fst p) [] (snd p)) l)) in O.
  cbn [map concat fst snd] in O. unfold ch_recipient_kid_len, PBNS_ENCRYPT_MAX_RECIPIENT_KID, INT64_MAX in *.
  destruct (expect_reads d _ _ _ (fun item => (uDataType item =? QCBOR_TYPE_MAP) && (uLabelType item =? QCBOR_TYPE_NONE)
    && (val_uCount item =? PBNS_ATTESTATION_CHALLENGE_FIELD_COUNT)) O) as (head & d0 & -> & O0 & _).
  { intros item [H1 _ H3 _ _ _ H7 _]. rewrite H1, H3, H7 by (right; done). done. }
  cbn [mbind option_bind]. destruct (challenge_common_reads c d0 _ Hi O0) as (d1 & -> & O1). cbn [mbind option_bind].
  destruct (nested_bytes_reads _ _ _ _ _ PBNS_ATTESTATION_NONCE_SIZE O1) as (d2 & -> & O2); [done|]. cbn [mbind option_bind].
  rewrite (proj2 (ct_equal_spec (ch_verifier_nonce c) (ch_verifier_nonce c) eq_refl) eq_refl). cbn [negb].
  destruct (decode_selection_reads _ d2 _ Hs O2) as (d3 & -> & O3). cbn [mbind option_bind].
  destruct (nested_string_reads d3 1 12 _ QCBOR_TYPE_BYTE_STRING (ch_recipient_kid c) _ (or_introl eq_refl) O3) as (it & d4 & -> & O4 & T4 & S4 & _). cbn [mbind option_bind].
  rewrite T4, S4, (proj2 (Z.eqb_neq (zlen (ch_recipient_kid c)) 0)), (proj2 (Z.ltb_ge 64 _)) by lia. cbn [negb Z.eqb Pos.eqb QCBOR_TYPE_BYTE_STRING orb].
  destruct (nested_uint_reads _ _ _ _ _ O4) as (d5 & -> & O5); [unfold UINT64_MAX; lia|]. cbn [mbind option_bind].
  rewrite Z.eqb_refl, (tree_end _ O5), (proj2 (Z.ltb_ge (ch_expiry_ns c) _)), (proj2 (Z.ltb_ge 9223372036854775807 _)) by lia. cbn [negb orb].
  destruct c. cbn in *. by rewrite Hf.
Qed.
End reads.

(** ** Acceptance *)

Definition challenge_answers (c : pbns_attestation_challenge) (e : pbns_attestation_challenge_expected) : Prop :=
  ch_request_id c = ce_request_id e /\ ch_host_fingerprint c = ce_host_fingerprint e /\ ch_verifier_nonce c = ce_verifier_nonce e
  /\ ch_recipient_kid c = v_data (ce_recipient_kid e) /\ v_ptr (ce_recipient_kid e) <> 0.

(** The whole interval of trusted time lies within the validity. *)
Definition challenge_timely (c : pbns_attestation_challenge) (time : pbns_time_interval) : Prop :=
  ch_issued_at_ns c <= ti_earliest_ns time <= ti_latest_ns time /\ ti_latest_ns time <= ch_expiry_ns c.

Definition expected_sized (e : pbns_attestation_challenge_expected) : Prop :=
  zlen (ce_request_id e) = 16 /\ zlen (ce_host_fingerprint e) = 32 /\ zlen (ce_verifier_nonce e) = 32.

Definition time_typed (time : pbns_time_interval) : Prop :=
  - 2 ^ 63 <= ti_earliest_ns time <= INT64_MAX /\ - 2 ^ 63 <= ti_latest_ns time <= INT64_MAX.

Lemma challenge_views_equal_spec a b : 0 < v_len a -> v_ptr a <> 0 -> attestation_views_equal a b = true <-> v_data a = v_data b /\ v_ptr b <> 0.
Proof.
  unfold attestation_views_equal, octets_equal, v_len. intros Hl Ha. rewrite (proj2 (Z.eqb_neq _ 0)) by lia. rewrite (proj2 (Z.eqb_neq _ _) Ha). cbn [negb andb orb].
  rewrite !andb_true_iff, negb_true_iff, Z.eqb_neq, Z.eqb_eq. split.
  - intros (El & Hb & Hc). apply ct_equal_spec in Hc; [done|lia].
  - intros (-> & Hb). split; [done|]. split; [done|]. by apply ct_equal_spec.
Qed.

Lemma challenge_bound_spec c e : challenge_issued c -> expected_sized e -> challenge_bound c e = true <-> challenge_answers c e.
Proof.
  intros [(A1 & A2 & A3) _ Hk _ _] (B1 & B2 & B3). unfold challenge_bound, challenge_answers, ch_recipient_kid_len in *.
  rewrite !andb_true_iff, (challenge_views_equal_spec (mk_view 1 (ch_recipient_kid c))) by (unfold v_len; cbn; lia || done). cbn [v_data]. rewrite !ct_equal_spec by lia. tauto.
Qed.

Lemma challenge_expired_spec c time : challenge_issued c -> time_typed time -> challenge_expired c time = false <-> challenge_timely c time.
Proof.
  intros [_ _ _ Ht _] [T1 T2]. unfold challenge_expired, challenge_timely, INT64_MAX in *.
  destruct (Z.ltb_spec (ti_earliest_ns time) 0); [split; [done|lia]|]. destruct (Z.ltb_spec (ti_latest_ns time) 0); [split; [done|lia]|]. cbn [orb].
  rewrite !u64_small by (unfold UINT64_MAX; lia). rewrite !orb_false_iff, !Z.ltb_ge. lia.
Qed.

Lemma challenge_encode_issued `{Q : QCBORSpiffy} c output : challenge_issued c -> buffer_is_valid output = true -> b_cap output = 4096 ->
  exists data, challenge_encode c output = (PBNS_OK, data, zlen (challenge_octets c)) /\ rd_slice data 0 (zlen (challenge_octets c)) = Some (challenge_octets c).
Proof.
  intros Hi Hb Hcap. pose proof (challenge_octets_length c Hi) as Hl. destruct Hi as [_ Hs Hk Ht _]. unfold challenge_encode, ch_recipient_kid_len in *. rewrite Hb.
  assert (HF : Forall (fun i => 0 <= sel_hash_algorithm i <= UINT16_MAX /\ 0 <= sel_pcr_index i) (ch_selection_items c))
    by (destruct Hs as (_ & HF & _); eapply Forall_impl; [|exact HF]; unfold item_typed; cbn; lia).
  rewrite (proj2 (selection_valid_spec _ HF) Hs). cbn [negb orb]. unfold PBNS_ATTESTATION_CHALLENGE_MAX_SIZE.
  rewrite (proj2 (Z.ltb_ge 4096 _)), (proj2 (Z.eqb_neq _ 0)), (proj2 (Z.ltb_ge PBNS_ENCRYPT_MAX_RECIPIENT_KID _)), (proj2 (Z.ltb_ge (ch_expiry_ns c) _)), (proj2 (Z.ltb_ge INT64_MAX _)) by lia.
  cbn [orb]. destruct (encode_into_fits (challenge_tree c) output) as (data & E & _ & Hsl); [unfold UINT32_MAX; lia|unfold challenge_octets in *; lia|]. by exists data.
Qed.

(** What a payload must be. *)
Definition challenge_payload (payload : pbns_view) (c : pbns_attestation_challenge) : Prop :=
  challenge_issued c /\ v_ptr payload <> 0 /\ v_data payload = challenge_octets c.

Lemma challenge_check_spec `{Q : QCBORSpiffy} `{!TreeReads} payload e time canonical : expected_sized e -> time_typed time ->
  buffer_is_valid canonical = true -> b_cap canonical = 4096 ->
  exists st c, challenge_check payload e time canonical = Some (st, c)
  /\ (st = PBNS_OK -> challenge_payload payload c /\ challenge_answers c e /\ challenge_timely c time)
  /\ (st <> PBNS_OK -> c = zero_challenge)
  /\ (forall c', challenge_payload payload c' ->
      st = if challenge_bound c' e then if challenge_expired c' time then PBNS_ERR_TIMEOUT else PBNS_OK else PBNS_ERR_AUTHENTICATION).
Proof.
  intros He Ht Hb Hcap. unfold challenge_check. rewrite Hcap. unfold PBNS_ATTESTATION_CHALLENGE_MAX_SIZE.
  assert (Hptr : b_ptr canonical <> 0) by (apply buffer_is_valid_spec in Hb as [_ [?|Hn]]; [done|unfold b_cap in Hcap; rewrite Hn in Hcap; done]).
  destruct (_ || _) eqn:El.
  { do 2 eexists. split; [done|]. split; [done|]. split; [done|]. intros c' (Hi & _ & Ep). pose proof (challenge_octets_length c' Hi). unfold v_len in El. rewrite Ep in El. lia. }
  destruct (decode_challenge (v_data payload)) as [c|] eqn:Ed.
  2: { do 2 eexists. split; [done|]. split; [done|]. split; [done|]. intros c' (Hi & _ & Ep). rewrite Ep, decode_challenge_reads in Ed; done. }
  pose proof (decode_challenge_issued _ _ Ed) as Hi. destruct (challenge_encode_issued c canonical Hi Hb Hcap) as (data & -> & Hsl). cbn [is_ok negb]. unfold v_len.
  assert (Hsame : forall c', challenge_payload payload c' -> c' = c) by (intros c' (Hi' & _ & Ep); rewrite Ep, decode_challenge_reads in Ed by done; congruence).
  destruct (Z.eqb_spec (zlen (challenge_octets c)) (zlen (v_data payload))) as [Hz|Hz]; cbn [negb].
  2: { do 2 eexists. split; [done|]. split; [done|]. split; [done|]. intros c' Hc'. destruct (Hsame _ Hc'). destruct Hc' as (_ & _ & Ep). rewrite Ep in Hz. done. }
  rewrite <- Hz, Hsl. cbn [mbind option_bind]. unfold octets_equal. cbn [v_ptr v_data]. rewrite (proj2 (Z.eqb_neq _ _) Hptr). cbn [negb andb].
  destruct (negb (v_ptr payload =? 0) && ct_equal (challenge_octets c) (v_data payload)) eqn:Eq; cbn [negb].
  2: { do 2 eexists. split; [done|]. split; [done|]. split; [done|]. intros c' Hc'. destruct (Hsame _ Hc'). destruct Hc' as (_ & Hp & Ep). rewrite Ep in Eq.
       rewrite (proj2 (Z.eqb_neq _ _) Hp), (proj2 (ct_equal_spec _ _ eq_refl) eq_refl) in Eq. done. }
  bools. match goal with Hc : ct_equal _ _ = true |- _ => apply ct_equal_spec in Hc; [|lia] end.
  assert (Hp : challenge_payload payload c) by done. pose proof (challenge_bound_spec c e Hi He) as Hbound. pose proof (challenge_expired_spec c time Hi Ht) as Hexp.
  destruct (challenge_bound c e) eqn:Eb; cbn [negb]; [destruct (challenge_expired c time) eqn:Ee|];
    (do 2 eexists; split; [done|]; split; [|split; [done|intros c' Hc'; rewrite (Hsame _ Hc'), Eb; try rewrite Ee; done]]); try done.
  intros _. split; [done|]. split; [by apply Hbound|by apply Hexp].
Qed.

Section headers.
Context `{Q : QCBORSpiffy} `{!TreeReads}.

Lemma challenge_headers_reads kid : 0 < v_len kid <= 64 -> v_ptr kid <> 0 -> challenge_headers_accepted (cbor_map (profile_fields kid)) kid = true.
Proof.
  intros Hk Hptr. pose proof (tree_start _ (profile_readable kid (proj2 Hk))) as O. unfold challenge_headers_accepted.
  change (tree_encode (TMap (leaf <$> profile_fields kid))) with (cbor_map (profile_fields kid)) in O.
  set (d := QCBORDecode_Init _) in *. clearbody d. cbn [profile_fields fmap list_fmap leaf tree_norm map cbor_norm tree_items concat app fst snd] in O.
  change (cbor_norm (CInt (-7))) with (CInt (-7)) in O. cbn [tree_items app] in O.
  destruct (expect_reads d _ _ _ (fun item => (uDataType item =? QCBOR_TYPE_MAP) && (val_uCount item =? 2)) O) as (head & d0 & -> & O0 & _).
  { intros item [H1 _ _ _ _ _ H7 _]. rewrite H1, H7 by (right; done). done. }
  cbn [mbind option_bind]. destruct (next_nested_reads d0 _ _ _ 1 1 O0 eq_refl eq_refl eq_refl) as (it1 & d1 & -> & O1 & [T1 _ _ _ I1 _ _ _]). cbn [mbind option_bind].
  rewrite T1, I1 by done. cbn [uDataType val_int64]. change (negb (QCBOR_TYPE_INT64 =? QCBOR_TYPE_INT64) || negb (-7 =? PBNS_COSE_ES256)) with false.
  destruct (next_nested_reads d1 _ _ _ 1 4 O1 eq_refl eq_refl eq_refl) as (it2 & d2 & -> & O2 & [T2 _ _ _ _ _ _ S2]). cbn [mbind option_bind].
  destruct (S2 (or_introl eq_refl)) as [Es Hp2]. cbn [val_string] in Es. rewrite T2. cbn [uDataType].
  assert (V : attestation_views_equal (string_view it2) kid = true).
  { apply challenge_views_equal_spec; unfold string_view, v_len in *; cbn [v_ptr v_data]; [rewrite Es; lia|done|]. by rewrite Es. }
  rewrite V, (tree_end _ O2). done.
Qed.
End headers.

Definition challenge_aad_octets (e : pbns_attestation_challenge_expected) : bytes := tree_encode (challenge_aad_tree e).

Lemma challenge_aad_length e : expected_sized e -> v_len (ce_recipient_kid e) <= 64 -> zlen (challenge_aad_octets e) <= 256.
Proof.
  intros (B1 & B2 & B3) Hk. unfold challenge_aad_octets, challenge_aad_tree, aad_prefix, v_len in *. cbn [app tree_encode map concat]. rewrite !length_app, !Nat2Z.inj_add.
  match goal with |- context [zlen (cbor_head 4 ?n)] => change (zlen (cbor_head 4 n)) with 1 end. rewrite !small_uint by (vm_compute; done).
  pose proof (value_length (CText PBNS_ATTESTATION_CHALLENGE_AAD_DOMAIN)) as L0. pose proof (value_length (CBytes (ce_request_id e))) as L1.
  pose proof (value_length (CBytes (ce_host_fingerprint e))) as L2. pose proof (value_length (CBytes (ce_verifier_nonce e))) as L3.
  pose proof (value_length (CBytes (v_data (ce_recipient_kid e)))) as L4. cbn match in *. change (zlen PBNS_ATTESTATION_CHALLENGE_AAD_DOMAIN) with 34 in *.
  change (zlen (@nil Z)) with 0. lia.
Qed.

(** A challenge that is accepted. *)
Definition challenge_acceptable {W : Type} (verifier : pbns_crypto W) (signed : pbns_view) (e : pbns_attestation_challenge_expected) (time : pbns_time_interval)
    (aad_at : Z) (w : W) (c : pbns_attestation_challenge) : Prop :=
  in_profile (ce_challenge_kid e) (v_data signed) /\ challenge_answers c e /\ challenge_timely c time
  /\ exists verify p w', provider (Some verifier) co_sign1_verify_profile = Some verify
     /\ verify w signed (mk_view aad_at (challenge_aad_octets e)) (ce_challenge_kid e) = (PBNS_OK, p, w') /\ challenge_payload p c.

Definition all_zeros (buffer : pbns_buffer) : Prop := Forall (fun b => b = 0) (b_data buffer).

Lemma wipe_buffer_zero buffer : buffer_is_valid buffer = true -> all_zeros (wipe_buffer buffer) /\ b_cap (wipe_buffer buffer) = b_cap buffer.
Proof. intros Hb. unfold wipe_buffer, all_zeros, b_cap, with_data. rewrite Hb. cbn [b_data]. rewrite length_replicate. split; [by apply Forall_replicate|done]. Qed.

Lemma verify_profile_calls {W} `{Machine} (crypto : ptr (pbns_crypto W)) cose aad kid verify w :
  view_is_valid cose = true -> view_is_valid aad = true -> view_is_valid kid = true -> 0 < v_len kid -> provider crypto co_sign1_verify_profile = Some verify ->
  pbns_sign1_verify_profile crypto cose aad kid (Some null_view) w = let '(st, p, w') := verify w cose aad kid in (st, Some p, w').
Proof. intros H1 H2 H3 H4 Hp. unfold pbns_sign1_verify_profile. rewrite Hp, H1, H2, H3. cbn [negb orb]. by rewrite (proj2 (Z.eqb_neq _ 0)) by lia. Qed.

(** The call on usable arguments, as its outcomes. *)
Lemma accept_outcome `{Q : QCBORSpiffy} `{!TreeReads} `{M : Machine} {W} (verifier : pbns_crypto W) signed e time ws c0 places w :
  expected_sized e -> time_typed time -> challenge_workspace_valid signed e ws places = true ->
  exists st c w', accept_challenge verifier signed e time ws c0 places w
      = Some (st, mk_challenge_workspace (wipe_buffer (cw_canonical ws)) (wipe_buffer (cw_aad ws)), c, w')
  /\ (st = PBNS_OK -> challenge_acceptable verifier signed e time (b_ptr (cw_aad ws)) w c) /\ (st <> PBNS_OK -> c = zero_challenge)
  /\ (~ in_profile (ce_challenge_kid e) (v_data signed) -> st = PBNS_ERR_FORMAT /\ w' = w)
  /\ (forall verify p w1 c', in_profile (ce_challenge_kid e) (v_data signed) -> view_is_valid (ce_recipient_kid e) = true -> 0 < v_len (ce_recipient_kid e) <= 64 ->
      provider (Some verifier) co_sign1_verify_profile = Some verify ->
      verify w signed (mk_view (b_ptr (cw_aad ws)) (challenge_aad_octets e)) (ce_challenge_kid e) = (PBNS_OK, p, w1) -> challenge_payload p c' ->
      st = if challenge_bound c' e then if challenge_expired c' time then PBNS_ERR_TIMEOUT else PBNS_OK else PBNS_ERR_AUTHENTICATION).
Proof.
  intros He Ht Hws. unfold accept_challenge. rewrite Hws. cbn [negb]. unfold challenge_workspace_valid in Hws. destruct (_ || _) eqn:Ea; [done|]. clear Hws. bools.
  unfold PBNS_ATTESTATION_CHALLENGE_MAX_SIZE, PBNS_ATTESTATION_AAD_MAX_SIZE, PBNS_ENCRYPT_MAX_RECIPIENT_KID, v_len in *.
  rename select (view_is_valid signed = true) into Hsv. rename select (view_is_valid (ce_challenge_kid e) = true) into Hkv.
  rename select (buffer_is_valid (cw_canonical ws) = true) into Hcb. rename select (buffer_is_valid (cw_aad ws) = true) into Hab.
  rename select (b_cap (cw_canonical ws) = 4096) into Hcc. rename select (b_cap (cw_aad ws) = 256) into Hac.
  assert (Hkp : v_ptr (ce_challenge_kid e) <> 0) by (apply view_is_valid_spec in Hkv as [?|Hn]; [done|]; rewrite Hn in *; done).
  assert (Hap : b_ptr (cw_aad ws) <> 0) by (apply buffer_is_valid_spec in Hab as [_ [?|Hn]]; [done|unfold b_cap in Hac; rewrite Hn in Hac; done]).
  unfold challenge_cose_profile_valid. destruct (profile_check_spec challenge_headers_accepted (v_data signed) (ce_challenge_kid e) (cw_canonical ws)) as (profile & cdata & -> & Hcl & Hprof);
    [apply challenge_headers_reads; [unfold v_len; lia|done]|unfold UINT32_MAX, v_len; lia..|].
  destruct profile; cbn [negb]; [|do 3 eexists; split; [done|]; split; [done|]; split; [done|]; split; [done|]; intros ? ? ? ? Hin; by apply Hprof in Hin].
  assert (Hin : in_profile (ce_challenge_kid e) (v_data signed)) by (by apply Hprof).
  assert (Haad : challenge_aad e (cw_aad ws) = (PBNS_ERR_ARGUMENT, b_data (cw_aad ws), 0) /\ ~ (view_is_valid (ce_recipient_kid e) = true /\ 0 < v_len (ce_recipient_kid e) <= 64)
    \/ exists data, challenge_aad e (cw_aad ws) = (PBNS_OK, data, zlen (challenge_aad_octets e)) /\ rd_slice data 0 (zlen (challenge_aad_octets e)) = Some (challenge_aad_octets e)).
  { unfold challenge_aad. rewrite Hab, Hac. cbn [negb orb]. change (PBNS_ATTESTATION_AAD_MAX_SIZE <? 256) with false. cbn [orb].
    destruct (_ || _) eqn:Er; [left; split; [done|]; intros [Hv Hl]; rewrite Hv in Er; unfold PBNS_ENCRYPT_MAX_RECIPIENT_KID in Er; cbn in Er; lia|]. right. bools.
    destruct (encode_into_fits (challenge_aad_tree e) (cw_aad ws)) as (data & E & _ & Hs); [unfold UINT32_MAX; lia| |by exists data].
    unfold PBNS_ENCRYPT_MAX_RECIPIENT_KID in *. pose proof (challenge_aad_length e He ltac:(lia)). unfold challenge_aad_octets in *. lia. }
  destruct Haad as [[-> Hno]|(adata & -> & Hs)]; cbn [is_ok negb].
  { do 3 eexists. split; [done|]. split; [done|]. split; [done|]. split; [done|]. intros ? ? ? ? _ Hv Hl. exfalso. by apply Hno. }
  rewrite Hs. cbn [mbind option_bind].
  destruct (pbns_sign1_verify_profile (Some verifier) signed _ _ (Some null_view) w) as [[st2 p2] w'] eqn:Ev.
  assert (Hcalls : forall verify, provider (Some verifier) co_sign1_verify_profile = Some verify ->
    (let '(st, p, w') := verify w signed (mk_view (b_ptr (cw_aad ws)) (challenge_aad_octets e)) (ce_challenge_kid e) in (st, Some p, w')) = (st2, p2, w')).
  { intros verify Hp. rewrite <- Ev. symmetry. apply verify_profile_calls; [done| |done|unfold v_len; lia|done]. unfold view_is_valid. cbn [v_ptr]. by rewrite (proj2 (Z.eqb_neq _ _) Hap). }
  destruct (is_ok st2) eqn:Ok; cbn [negb].
  2: { apply is_ok_false in Ok. do 3 eexists. split; [done|]. split; [done|]. split; [done|]. split; [done|]. intros verify p w1 c' _ _ _ Hp Hc _. specialize (Hcalls _ Hp). rewrite Hc in Hcalls. congruence. }
  apply is_ok_spec in Ok. subst st2.
  assert (Hprov : exists verify p, provider (Some verifier) co_sign1_verify_profile = Some verify /\ p2 = Some p
    /\ verify w signed (mk_view (b_ptr (cw_aad ws)) (challenge_aad_octets e)) (ce_challenge_kid e) = (PBNS_OK, p, w')).
  { unfold pbns_sign1_verify_profile in Ev. destruct (provider (Some verifier) co_sign1_verify_profile) as [verify|] eqn:Hp; [|done]. specialize (Hcalls _ eq_refl).
    destruct (verify w signed _ _) as [[st p] w2] eqn:Ec. injection Hcalls as -> <- ->. by exists verify, p. }
  destruct Hprov as (verify & p & Hp & -> & Hcall). cbn [default from_option]. unfold id.
  destruct (challenge_check_spec p e time (with_data (cw_canonical ws) cdata) He Ht) as (st & c & -> & Hok & Hz & Hall);
    [unfold buffer_is_valid, b_cap in *; cbn; by rewrite Hcl|unfold b_cap in *; cbn; by rewrite Hcl|]. cbn [mbind option_bind].
  do 3 eexists. split; [done|]. split; [|split; [done|split; [done|]]].
  - intros Hst. destruct (Hok Hst) as (Hpay & Hans & Htime). split; [done|]. split; [done|]. split; [done|]. by exists verify, p, w'.
  - intros verify2 p3 w3 c' _ _ _ Hp' Hc' Hpay. apply Hall. rewrite Hp in Hp'. injection Hp' as <-. rewrite Hcall in Hc'. injection Hc' as <- <-. done.
Qed.

Lemma answers_recipient c e : challenge_issued c -> challenge_answers c e -> view_is_valid (ce_recipient_kid e) = true /\ 0 < v_len (ce_recipient_kid e) <= 64.
Proof.
  intros [_ _ Hk _ _] (_ & _ & _ & E & Hp). unfold ch_recipient_kid_len, PBNS_ENCRYPT_MAX_RECIPIENT_KID in Hk. rewrite E in Hk. split; [|done]. by apply view_is_valid_spec; left.
Qed.

(** ** Properties *)

(** C19: a challenge is accepted exactly when it should be.  The call always returns;
    unusable arguments change nothing.  Otherwise both buffers are wiped, and the call
    succeeds if and only if the message is the canonical COSE_Sign1 message of the
    pinned key, the verifier vouches for its payload over the data of this request,
    and the payload is the one canonical encoding of a challenge for this request,
    host, nonce and recipient whose validity contains the whole interval of trusted
    time; the challenge that is handed out is that one.  Every failure leaves a zeroed
    challenge; a message outside the profile never reaches the verifier; a proper
    challenge for another request fails authentication and one out of time is a
    timeout. *)
Theorem challenge_accepted_exactly `{Q : QCBORSpiffy} `{R : !TreeReads} `{M : Machine} {W : Type} (verifier : pbns_crypto W) (signed : pbns_view)
    (e : pbns_attestation_challenge_expected) (time : pbns_time_interval) (ws : pbns_attestation_challenge_workspace) (c0 : pbns_attestation_challenge)
    (places : challenge_places) (w : W) :
  expected_sized e -> time_typed time ->
  exists st ws' c w', accept_challenge verifier signed e time ws c0 places w = Some (st, ws', c, w')
  /\ (challenge_workspace_valid signed e ws places = false -> st = PBNS_ERR_ARGUMENT /\ ws' = ws /\ c = c0 /\ w' = w)
  /\ (challenge_workspace_valid signed e ws places = true ->
      (st = PBNS_OK <-> exists c1, challenge_acceptable verifier signed e time (b_ptr (cw_aad ws)) w c1)
      /\ (forall c1, challenge_acceptable verifier signed e time (b_ptr (cw_aad ws)) w c1 -> c = c1)
      /\ (st <> PBNS_OK -> c = zero_challenge)
      /\ all_zeros (cw_canonical ws') /\ all_zeros (cw_aad ws')
      /\ (~ in_profile (ce_challenge_kid e) (v_data signed) -> st = PBNS_ERR_FORMAT /\ w' = w)
      /\ (forall verify p w1 c1, in_profile (ce_challenge_kid e) (v_data signed) -> provider (Some verifier) co_sign1_verify_profile = Some verify ->
          verify w signed (mk_view (b_ptr (cw_aad ws)) (challenge_aad_octets e)) (ce_challenge_kid e) = (PBNS_OK, p, w1) -> challenge_payload p c1 ->
          challenge_answers c1 e -> ~ challenge_timely c1 time -> st = PBNS_ERR_TIMEOUT)).
Proof.
  intros He Ht. destruct (challenge_workspace_valid signed e ws places) eqn:Hws.
  2: { exists PBNS_ERR_ARGUMENT, ws, c0, w. unfold accept_challenge. rewrite Hws. done. }
  destruct (accept_outcome verifier signed e time ws c0 places w He Ht Hws) as (st & c & w' & E & Hok & Hz & Hfmt & Hall).
  do 4 eexists. split; [exact E|]. split; [done|]. intros _.
  assert (Hacc : forall c1, challenge_acceptable verifier signed e time (b_ptr (cw_aad ws)) w c1 -> st = PBNS_OK).
  { intros c1 (Hin & Hans & Htime & verify & p & w1 & Hp & Hc & Hpay). pose proof Hpay as (Hi & _). destruct (answers_recipient _ _ Hi Hans) as [Hrv Hrl].
    rewrite (Hall verify p w1 c1 Hin Hrv Hrl Hp Hc Hpay). apply (challenge_bound_spec c1 e Hi He) in Hans as ->. by apply (challenge_expired_spec c1 time Hi Ht) in Htime as ->. }
  assert (Hws' := Hws). unfold challenge_workspace_valid in Hws'. destruct (_ || _) eqn:Ea in Hws'; [done|]. bools.
  split; [split; [intros Hst; exists c; by apply Hok|intros (c1 & Hc1); by apply (Hacc c1)]|]. split; [|split; [done|split; [by apply wipe_buffer_zero|split; [by apply wipe_buffer_zero|split; [done|]]]]].
  - intros c1 Hc1. destruct (Hok (Hacc c1 Hc1)) as (_ & _ & _ & v2 & p2 & w2 & Hp2 & Hc2 & (Hi2 & _ & Eo2)).
    destruct Hc1 as (_ & _ & _ & v1 & p1 & w1 & Hp1 & Hcall1 & (Hi1 & _ & Eo1)). rewrite Hp1 in Hp2. injection Hp2 as <-. rewrite Hcall1 in Hc2. injection Hc2 as <- <-.
    apply challenge_octets_inj; congruence.
  - intros verify p w1 c1 Hin Hp Hc Hpay Hans Hnt. pose proof Hpay as (Hi & _). destruct (answers_recipient _ _ Hi Hans) as [Hrv Hrl].
    rewrite (Hall verify p w1 c1 Hin Hrv Hrl Hp Hc Hpay). apply (challenge_bound_spec c1 e Hi He) in Hans as ->. destruct (challenge_expired c1 time) eqn:Ee; [done|].
    by apply (challenge_expired_spec c1 time Hi Ht) in Ee.
Qed.

(** ** Witness *)

Definition ex_challenge_expected : pbns_attestation_challenge_expected :=
  mk_challenge_expected (replicate 16 9) (replicate 32 8) (replicate 32 7) (mk_view 200 [1; 2]) (mk_view 128 [6; 6]).

Definition ex_challenge : pbns_attestation_challenge :=
  mk_challenge (replicate 16 9) (replicate 32 8) (replicate 32 7) [mk_selection_item 11 0; mk_selection_item 11 7; mk_selection_item 12 1] [1; 2] 1000 9000 false.

Definition ex_signed_challenge : bytes := cose_octets (mk_view 128 [6; 6]) (challenge_octets ex_challenge) (replicate 64 1).

Definition ex_challenge_verifier : pbns_crypto nat :=
  mk_crypto (Some (mk_crypto_ops None None None (Some (fun w _ _ _ => (PBNS_OK, mk_view 4096 (challenge_octets ex_challenge), S w))) None None)) 1.

Definition ex_challenge_workspace : pbns_attestation_challenge_workspace :=
  mk_challenge_workspace (mk_buffer 65536 0 (replicate 4096 3)) (mk_buffer 131072 0 (replicate 256 3)).

Definition ex_challenge_places : challenge_places := mk_challenge_places (262144, 320) (300, 80) (400, 16) (420, 16) (440, 48).

Lemma challenge_accepted_exactly_witness :
  exists st ws' c w',
    @accept_challenge tree_qcbor tree_spiffy nat x86_64 ex_challenge_verifier (mk_view 512 ex_signed_challenge) ex_challenge_expected (mk_interval 2000 3000)
      ex_challenge_workspace zero_challenge ex_challenge_places 0%nat = Some (st, ws', c, w')
  /\ st = PBNS_OK /\ all_zeros (cw_canonical ws')
  /\ exists c1, challenge_acceptable ex_challenge_verifier (mk_view 512 ex_signed_challenge) ex_challenge_expected (mk_interval 2000 3000) 131072 0%nat c1.
Proof.
  destruct (@challenge_accepted_exactly tree_qcbor tree_spiffy tree_tree_reads x86_64 nat ex_challenge_verifier (mk_view 512 ex_signed_challenge) ex_challenge_expected
    (mk_interval 2000 3000) ex_challenge_workspace zero_challenge ex_challenge_places 0%nat) as (st & ws' & c & w' & E & _ & H).
  - repeat split.
  - unfold time_typed, INT64_MAX. cbn. lia.
  - exists st, ws', c, w'. split; [exact E|].
    assert (Hst : st = PBNS_OK).
    { pose (view := fun o : option (pbns_status * pbns_attestation_challenge_workspace * pbns_attestation_challenge * nat) =>
        match o with Some (st, _, _, _) => st | None => PBNS_ERR_FORMAT end).
      transitivity (view (Some (st, ws', c, w'))); [reflexivity|].
      transitivity (view (@accept_challenge tree_qcbor tree_spiffy nat x86_64 ex_challenge_verifier (mk_view 512 ex_signed_challenge) ex_challenge_expected
        (mk_interval 2000 3000) ex_challenge_workspace zero_challenge ex_challenge_places 0%nat)); [exact (f_equal view (eq_sym E))|]. vm_compute. reflexivity. }
    assert (Hv : @challenge_workspace_valid x86_64 (mk_view 512 ex_signed_challenge) ex_challenge_expected ex_challenge_workspace ex_challenge_places = true)
      by (vm_compute; reflexivity).
    destruct (H Hv) as (Hiff & _ & _ & Hz & _). split; [exact Hst|]. split; [exact Hz|]. exact (proj1 Hiff Hst).
Defined.
