(* ===== verification/AttestationEvidence.v ===== *)
(** * Attestation evidence ([include/pbns/attestation.h], [src/core/attestation.c], second part)

    A challenge is answered once: the inventory and the measured boot are checked
    against the challenge, the TPM quotes the registers over a digest that binds all
    of them, the evidence is encoded, signed, hashed, encrypted for the verifier and
    sent in records.  Every buffer is wiped at the end. *)

From stdpp Require Import base list numbers.
From Stdlib Require Import ZArith Lia.
From S2P Require Import Prelude Endian Status Buffers Cbor CborTree Compare Crypto Frame MeasuredBoot Inventory Step AttestationReceipt AttestationChallenge.

(** ** Constants: "PBNS-ATTESTATION-SIGN-v1", "PBNS-ATTESTATION-ENCRYPT-v1" and "PBNS-ATTESTATION-v1" *)

Definition PBNS_ATTESTATION_SIGN_AAD_DOMAIN : bytes :=
  [80; 66; 78; 83; 45; 65; 84; 84; 69; 83; 84; 65; 84; 73; 79; 78; 45; 83; 73; 71; 78; 45; 118; 49].
Definition PBNS_ATTESTATION_ENCRYPT_AAD_DOMAIN : bytes :=
  [80; 66; 78; 83; 45; 65; 84; 84; 69; 83; 84; 65; 84; 73; 79; 78; 45; 69; 78; 67; 82; 89; 80; 84; 45; 118; 49].
Definition PBNS_ATTESTATION_QUALIFYING_DOMAIN : bytes :=
  [80; 66; 78; 83; 45; 65; 84; 84; 69; 83; 84; 65; 84; 73; 79; 78; 45; 118; 49].
Definition PBNS_ATTESTATION_AK_NAME_MAX_SIZE : Z := 128.
Definition PBNS_ATTESTATION_AK_REFERENCE_MAX_SIZE : Z := 4096.
Definition PBNS_ATTESTATION_QUOTE_MAX_SIZE : Z := 4096.
Definition PBNS_ATTESTATION_QUOTE_SIGNATURE_MAX_SIZE : Z := 1024.
Definition PBNS_ATTESTATION_SIGNED_OVERHEAD_MAX_SIZE : Z := 256.
Definition PBNS_ATTESTATION_EVIDENCE_OVERHEAD_MAX_SIZE : Z := 8192.
Definition PBNS_ATTESTATION_EVIDENCE_MAX_SIZE : Z :=
  PBNS_MEASURED_BOOT_EVENT_LOG_MAX_SIZE + PBNS_INVENTORY_ENCODED_MAX_SIZE + PBNS_ATTESTATION_EVIDENCE_OVERHEAD_MAX_SIZE.
Definition PBNS_ATTESTATION_SIGNED_MAX_SIZE : Z := PBNS_ATTESTATION_EVIDENCE_MAX_SIZE + PBNS_ATTESTATION_SIGNED_OVERHEAD_MAX_SIZE.
Definition PBNS_ATTESTATION_ENCRYPTED_MAX_SIZE : Z := PBNS_ATTESTATION_SIGNED_MAX_SIZE + 512.
Definition PBNS_ATTESTATION_SELECTION_WORKSPACE_SIZE : Z := PBNS_MEASURED_BOOT_SELECTION_MAX_COUNT * PBNS_MEASURED_BOOT_CANONICAL_ITEM_SIZE.

(** ** Data *)

Record pbns_attestation_workspace := mk_attestation_workspace {
  aw_inventory : pbns_buffer;
  aw_selection : pbns_buffer;
  aw_quote : pbns_buffer;
  aw_quote_signature : pbns_buffer;
  aw_evidence : pbns_buffer;
  aw_signed_evidence : pbns_buffer;
  aw_ciphertext : pbns_buffer;
  aw_aad : pbns_buffer;
}.

(** The callbacks act on the world; [quote] gives the octets and the size of the
    quote and of its signature.  A region is its address and length. *)
Record pbns_attestation_submission (W : Type) := mk_submission {
  as_inventory_report : ptr pbns_inventory_report;
  as_measured_boot : ptr pbns_measured_boot_evidence;
  as_ak_name : pbns_view;
  as_ak_reference : pbns_view;
  as_host_signer : ptr (pbns_crypto W);
  as_recipient_encrypter : ptr (pbns_crypto W);
  as_sha256 : ptr (W -> pbns_view -> pbns_status * bytes * W);
  as_quote : ptr (W -> pbns_measured_boot_selection -> bytes -> pbns_buffer -> pbns_buffer -> pbns_status * bytes * Z * bytes * Z * W);
  as_consume : ptr (W -> bytes -> bytes -> pbns_status * W);
  as_send_data : ptr (W -> bytes -> Z -> pbns_view -> bool -> pbns_status * W);
  as_evidence_digest : pbns_buffer;
  as_sha256_context : Z;
  as_quote_context : Z;
  as_consume_context : Z;
  as_send_context : Z;
  as_host_signer_context_region : Z * Z;
  as_recipient_encrypter_context_region : Z * Z;
  as_sha256_context_region : Z * Z;
  as_quote_context_region : Z * Z;
  as_consume_context_region : Z * Z;
  as_send_context_region : Z * Z;
}.
Arguments as_inventory_report {W}.
Arguments as_measured_boot {W}.
Arguments as_ak_name {W}.
Arguments as_ak_reference {W}.
Arguments as_host_signer {W}.
Arguments as_recipient_encrypter {W}.
Arguments as_sha256 {W}.
Arguments as_quote {W}.
Arguments as_consume {W}.
Arguments as_send_data {W}.
Arguments as_evidence_digest {W}.
Arguments as_sha256_context {W}.
Arguments as_quote_context {W}.
Arguments as_consume_context {W}.
Arguments as_send_context {W}.
Arguments as_host_signer_context_region {W}.
Arguments as_recipient_encrypter_context_region {W}.
Arguments as_sha256_context_region {W}.
Arguments as_quote_context_region {W}.
Arguments as_consume_context_region {W}.
Arguments as_send_context_region {W}.

(** Where the structures of the call lie and how large they are. *)
Record submission_places := mk_submission_places {
  sp_challenge : Z * Z;
  sp_submission : Z * Z;
  sp_inventory_report : Z * Z;
  sp_measured_boot : Z * Z;
  sp_host_signer : Z * Z;
  sp_recipient_encrypter : Z * Z;
  sp_workspace : Z * Z;
}.

(** ** Qualifying data *)

(** The digest buffer is wiped first and again when the hash failed; the scratch
    buffer is wiped after the hash.  The status, the scratch, the digest and the world. *)
Definition qualifying_data {W} (sha256 : W -> pbns_view -> pbns_status * bytes * W) (request_id verifier_nonce report_digest selection_digest event_log_digest : bytes)
    (scratch : pbns_buffer) (w : W) : option (pbns_status * pbns_buffer * bytes * W) :=
  let required := zlen PBNS_ATTESTATION_QUALIFYING_DOMAIN + PBNS_REQUEST_ID_SIZE + 4 * PBNS_ATTESTATION_DIGEST_SIZE in
  if negb (buffer_is_valid scratch) || (b_cap scratch <? required) then Some (PBNS_ERR_ARGUMENT, scratch, replicate 32 0, w)
  else
  let offset := 0 in
  data ← wr_list (b_data scratch) offset PBNS_ATTESTATION_QUALIFYING_DOMAIN;
  let offset := offset + zlen PBNS_ATTESTATION_QUALIFYING_DOMAIN in
  data ← wr_list data offset request_id;
  let offset := offset + PBNS_REQUEST_ID_SIZE in
  data ← wr_list data offset verifier_nonce;
  let offset := offset + PBNS_ATTESTATION_NONCE_SIZE in
  data ← wr_list data offset report_digest;
  let offset := offset + PBNS_ATTESTATION_DIGEST_SIZE in
  data ← wr_list data offset selection_digest;
  let offset := offset + PBNS_ATTESTATION_DIGEST_SIZE in
  data ← wr_list data offset event_log_digest;
  let offset := offset + PBNS_ATTESTATION_DIGEST_SIZE in
  input ← rd_slice data 0 offset;
  let '(status, digest, w) := sha256 w (mk_view (b_ptr scratch) input) in
  Some (status, wipe_buffer scratch, if is_ok status then digest else replicate 32 0, w).

Definition pbns_attestation_qualifying_data {W} (sha256 : ptr (W -> pbns_view -> pbns_status * bytes * W))
    (request_id verifier_nonce report_digest selection_digest event_log_digest : ptr bytes) (scratch : pbns_buffer) (qualifying : ptr bytes) (w : W)
  : option (pbns_status * pbns_buffer * ptr bytes * W) :=
  match sha256, request_id, verifier_nonce, report_digest, selection_digest, event_log_digest, qualifying with
  | Some sha256, Some id, Some nonce, Some report, Some selection, Some log, Some _ =>
      '(status, scratch, digest, w) ← qualifying_data sha256 id nonce report selection log scratch w;
      Some (status, scratch, Some digest, w)
  | _, _, _, _, _, _, _ => Some (PBNS_ERR_ARGUMENT, scratch, (fun _ => replicate 32 0) <$> qualifying, w)
  end.

(** ** Encodings *)

Definition sign_aad_tree (c : pbns_attestation_challenge) (ak_name : bytes) : cbor_tree :=
  TArray (aad_prefix PBNS_ATTESTATION_SIGN_AAD_DOMAIN
          ++ [TValue (CBytes (ch_request_id c)); TValue (CBytes (ch_host_fingerprint c)); TValue (CBytes (ch_verifier_nonce c)); TValue (CBytes ak_name)]).

Definition encrypt_aad_tree (c : pbns_attestation_challenge) : cbor_tree :=
  TArray (aad_prefix PBNS_ATTESTATION_ENCRYPT_AAD_DOMAIN
          ++ [TValue (CUInt PBNS_SERVICE_PLATFORM_ATTESTATION); TValue (CBytes (ch_request_id c)); TValue (CBytes (ch_host_fingerprint c));
              TValue (CBytes (ch_verifier_nonce c)); TValue (CBytes (ch_recipient_kid c))]).

Definition pcr_tree (pcr : pbns_measured_boot_pcr_value) : cbor_tree :=
  TMap [(1, TValue (CUInt (sel_hash_algorithm (pv_selection pcr)))); (2, TValue (CUInt (sel_pcr_index (pv_selection pcr))));
        (3, TValue (CBytes (take (Z.to_nat (pv_digest_size pcr)) (pv_digest pcr))))].

(** [QCBOREncode_AddEncodedToMapN] adds an item that is already encoded: [inventory] is its tree. *)
Definition evidence_tree (c : pbns_attestation_challenge) (measured : pbns_measured_boot_evidence) (ak_name ak_reference : bytes)
    (inventory : cbor_tree) (quote quote_signature report_digest : bytes) : cbor_tree :=
  TMap [(1, common_tree c); (20, inventory); (21, TValue (CBytes quote)); (22, TValue (CBytes quote_signature));
        (23, TArray (map pcr_tree (take (Z.to_nat (me_pcr_count measured)) (me_pcrs measured)))); (24, TValue (CBytes (v_data (me_event_log measured))));
        (25, TValue (CBytes ak_name)); (26, TValue (CBytes ak_reference)); (27, TValue (CBytes report_digest));
        (28, TValue (CBytes (me_selection_digest measured))); (29, TValue (CBytes (me_event_log_digest measured)))].

Section code.
Context `{QCBORSpiffy} {W : Type} `{Machine}.

Definition sign_aad (c : pbns_attestation_challenge) (ak_name : pbns_view) (output : pbns_buffer) : pbns_status * bytes * Z :=
  if negb (view_is_valid ak_name) || (v_len ak_name =? 0) || (PBNS_ATTESTATION_AK_NAME_MAX_SIZE <? v_len ak_name)
     || negb (buffer_is_valid output) || (PBNS_ATTESTATION_AAD_MAX_SIZE <? b_cap output)
  then (PBNS_ERR_ARGUMENT, b_data output, 0)
  else encode_into (sign_aad_tree c (v_data ak_name)) output.

Definition pbns_attestation_sign_aad (challenge : ptr pbns_attestation_challenge) (ak_name : pbns_view) (output : pbns_buffer) (written : ptr Z)
  : pbns_status * bytes * ptr Z :=
  match written, challenge with
  | Some _, Some c => let '(status, data, written) := sign_aad c ak_name output in (status, data, Some written)
  | _, _ => (PBNS_ERR_ARGUMENT, b_data output, (fun _ => 0) <$> written)
  end.

Definition encrypt_aad (c : pbns_attestation_challenge) (output : pbns_buffer) : pbns_status * bytes * Z :=
  if (ch_recipient_kid_len c =? 0) || (PBNS_ENCRYPT_MAX_RECIPIENT_KID <? ch_recipient_kid_len c) || negb (buffer_is_valid output)
     || (PBNS_ATTESTATION_AAD_MAX_SIZE <? b_cap output)
  then (PBNS_ERR_ARGUMENT, b_data output, 0)
  else encode_into (encrypt_aad_tree c) output.

Definition pbns_attestation_encrypt_aad (challenge : ptr pbns_attestation_challenge) (output : pbns_buffer) (written : ptr Z)
  : pbns_status * bytes * ptr Z :=
  match written, challenge with
  | Some _, Some c => let '(status, data, written) := encrypt_aad c output in (status, data, Some written)
  | _, _ => (PBNS_ERR_ARGUMENT, b_data output, (fun _ => 0) <$> written)
  end.

(** The status, the octets of the output, [*written] and the world. *)
Definition pbns_attestation_encrypt_message (crypto : ptr (pbns_crypto W)) (recipient_kid plaintext external_aad : pbns_view) (output : pbns_buffer)
    (written : ptr Z) (w : W) : pbns_status * bytes * ptr Z * W :=
  match written with
  | None => (PBNS_ERR_ARGUMENT, b_data output, None, w)
  | Some _ =>
      match provider crypto co_encrypt_for_recipient with
      | None => (PBNS_ERR_ARGUMENT, b_data output, Some 0, w)
      | Some encrypt =>
          if negb (view_is_valid recipient_kid) || (v_len recipient_kid =? 0) || (PBNS_ENCRYPT_MAX_RECIPIENT_KID <? v_len recipient_kid)
             || negb (view_is_valid plaintext) || (v_len plaintext =? 0) || (PBNS_ATTESTATION_SIGNED_MAX_SIZE <? v_len plaintext)
             || negb (view_is_valid external_aad) || (PBNS_ATTESTATION_AAD_MAX_SIZE <? v_len external_aad)
             || negb (buffer_is_valid output) || (b_cap output =? 0) || (PBNS_ATTESTATION_ENCRYPTED_MAX_SIZE <? b_cap output)
             || regions_overlap (view_range recipient_kid) (buffer_range output) || regions_overlap (view_range plaintext) (buffer_range output)
             || regions_overlap (view_range external_aad) (buffer_range output)
          then (PBNS_ERR_ARGUMENT, b_data output, Some 0, w)
          else
          let '(status, data, written, w) := encrypt w recipient_kid plaintext external_aad output in
          let '(status, data, written) := require_bounded_output status output data written in
          (status, data, Some written, w)
      end
  end.

(** ** Checks on the arguments *)

Definition workspace_buffers (ws : pbns_attestation_workspace) : list pbns_buffer :=
  [aw_inventory ws; aw_selection ws; aw_quote ws; aw_quote_signature ws; aw_evidence ws; aw_signed_evidence ws; aw_ciphertext ws; aw_aad ws].

Definition workspace_capacities : list Z :=
  [PBNS_INVENTORY_ENCODED_MAX_SIZE; PBNS_ATTESTATION_SELECTION_WORKSPACE_SIZE; PBNS_ATTESTATION_QUOTE_MAX_SIZE; PBNS_ATTESTATION_QUOTE_SIGNATURE_MAX_SIZE;
   PBNS_ATTESTATION_EVIDENCE_MAX_SIZE; PBNS_ATTESTATION_SIGNED_MAX_SIZE; PBNS_ATTESTATION_ENCRYPTED_MAX_SIZE; PBNS_ATTESTATION_AAD_MAX_SIZE].

Definition submission_input_views (sub : pbns_attestation_submission W) (measured : pbns_measured_boot_evidence) (places : submission_places) : list (Z * Z) :=
  [sp_challenge places; sp_submission places; sp_inventory_report places; sp_measured_boot places; view_range (me_event_log measured);
   view_range (as_ak_name sub); view_range (as_ak_reference sub); sp_host_signer places; sp_recipient_encrypter places; sp_workspace places;
   as_host_signer_context_region sub; as_recipient_encrypter_context_region sub; as_sha256_context_region sub; as_quote_context_region sub;
   as_consume_context_region sub; as_send_context_region sub].

(** The first loop of [workspace_layout_valid]. *)
Fixpoint buffers_apart (before : list (Z * Z)) (buffers : list pbns_buffer) (capacities : list Z) : bool :=
  match buffers, capacities with
  | buffer :: buffers, capacity :: capacities =>
      if negb (buffer_is_valid buffer) || negb (b_cap buffer =? capacity) then false
      else if existsb (regions_overlap (buffer_range buffer)) before then false
      else buffers_apart (before ++ [buffer_range buffer]) buffers capacities
  | _, _ => true
  end.

Definition workspace_layout_valid (sub : pbns_attestation_submission W) (measured : pbns_measured_boot_evidence) (ws : pbns_attestation_workspace)
    (places : submission_places) : bool :=
  let inputs := submission_input_views sub measured places in
  let digest_output := buffer_range (as_evidence_digest sub) in
  if negb (buffers_apart [] (workspace_buffers ws) workspace_capacities) then false
  else if existsb (fun buffer => existsb (regions_overlap (buffer_range buffer)) inputs || regions_overlap (buffer_range buffer) digest_output)
            (workspace_buffers ws) then false
  else negb (existsb (regions_overlap digest_output) inputs).

Definition context_region_valid (context : Z) (region : Z * Z) : bool :=
  if (fst region =? 0) && negb (snd region =? 0) then false
  else if context =? 0 then (fst region =? 0) && (snd region =? 0)
  else (fst region =? context) && (0 <? snd region).

(** What the call is given once no pointer is [NULL]. *)
Record submission_parts := mk_parts {
  sb_report : pbns_inventory_report;
  sb_measured : pbns_measured_boot_evidence;
  sb_signer : pbns_crypto W;
  sb_encrypter : pbns_crypto W;
  sb_sha256 : W -> pbns_view -> pbns_status * bytes * W;
  sb_quote : W -> pbns_measured_boot_selection -> bytes -> pbns_buffer -> pbns_buffer -> pbns_status * bytes * Z * bytes * Z * W;
  sb_consume : W -> bytes -> bytes -> pbns_status * W;
  sb_send_data : W -> bytes -> Z -> pbns_view -> bool -> pbns_status * W;
}.

Definition parts_of (sub : pbns_attestation_submission W) : option submission_parts :=
  report ← as_inventory_report sub; measured ← as_measured_boot sub; signer ← as_host_signer sub; encrypter ← as_recipient_encrypter sub;
  sha256 ← as_sha256 sub; quote ← as_quote sub; consume ← as_consume sub; send_data ← as_send_data sub;
  Some (mk_parts report measured signer encrypter sha256 quote consume send_data).

Definition submission_arguments_valid (c : pbns_attestation_challenge) (sub : pbns_attestation_submission W) (parts : submission_parts)
    (ws : pbns_attestation_workspace) (places : submission_places) : bool :=
  let measured := sb_measured parts in
  if negb (context_region_valid (cy_context (sb_signer parts)) (as_host_signer_context_region sub))
     || negb (context_region_valid (cy_context (sb_encrypter parts)) (as_recipient_encrypter_context_region sub))
     || negb (context_region_valid (as_sha256_context sub) (as_sha256_context_region sub))
     || negb (context_region_valid (as_quote_context sub) (as_quote_context_region sub))
     || negb (context_region_valid (as_consume_context sub) (as_consume_context_region sub))
     || negb (context_region_valid (as_send_context sub) (as_send_context_region sub))
     || negb (view_is_valid (as_ak_name sub)) || (v_len (as_ak_name sub) =? 0) || (PBNS_ATTESTATION_AK_NAME_MAX_SIZE <? v_len (as_ak_name sub))
     || negb (view_is_valid (as_ak_reference sub)) || (v_len (as_ak_reference sub) =? 0)
     || (PBNS_ATTESTATION_AK_REFERENCE_MAX_SIZE <? v_len (as_ak_reference sub))
     || negb (selection_valid (ch_selection_items c))
     || negb (view_is_valid (me_event_log measured)) || (v_len (me_event_log measured) =? 0)
     || (PBNS_MEASURED_BOOT_EVENT_LOG_MAX_SIZE <? v_len (me_event_log measured))
     || negb (me_pcr_count measured =? ch_selection_count c)
     || negb (buffer_is_valid (as_evidence_digest sub)) || negb (b_cap (as_evidence_digest sub) =? PBNS_ATTESTATION_DIGEST_SIZE)
  then false
  else workspace_layout_valid sub measured ws places.

Definition wipe_workspace (ws : pbns_attestation_workspace) : pbns_attestation_workspace :=
  mk_attestation_workspace (wipe_buffer (aw_inventory ws)) (wipe_buffer (aw_selection ws)) (wipe_buffer (aw_quote ws)) (wipe_buffer (aw_quote_signature ws))
    (wipe_buffer (aw_evidence ws)) (wipe_buffer (aw_signed_evidence ws)) (wipe_buffer (aw_ciphertext ws)) (wipe_buffer (aw_aad ws)).
End code.
Arguments submission_parts : clear implicits.
Arguments mk_parts {W}.
Arguments sb_report {W}.
Arguments sb_measured {W}.
Arguments sb_signer {W}.
Arguments sb_encrypter {W}.
Arguments sb_sha256 {W}.
Arguments sb_quote {W}.
Arguments sb_consume {W}.
Arguments sb_send_data {W}.
