(* ===== verification/AttestationSubmit.v ===== *)
(** * Submitting evidence ([include/pbns/attestation.h], [src/core/attestation.c], third part)

    The steps of a submission, each taken only when all before it succeeded: the
    nonce is consumed, the platform is checked against the challenge, the registers
    are quoted, the evidence is encoded, signed, hashed, encrypted and sent. *)

From stdpp Require Import base list numbers.
From Stdlib Require Import ZArith Lia.
From S2P Require Import Prelude Endian Status Buffers Cbor CborTree Compare Crypto Frame MeasuredBoot Inventory Step AttestationReceipt AttestationChallenge AttestationEvidence.

Section code.
Context `{QCBORSpiffy} {W : Type} `{Machine}.

(** A call that changes the world; a status that is not [PBNS_OK] ends the submission. *)
Definition world_call {A} (f : W -> pbns_status * A * W) : step unit W A := fun s w =>
  let '(status, x, w) := f w in Some (if is_ok status then inr x else inl status, s, w).

Definition local_call {A} (result : option (pbns_status * A)) : step unit W A := fun s w =>
  '(status, x) ← result; Some (if is_ok status then inr x else inl status, s, w).

Definition guard (condition : bool) (status : pbns_status) : step unit W unit :=
  if condition then ret_step tt else end_step status.

(** The first [size] octets of the contents, as a view of the buffer. *)
Definition prefix_view (buffer : pbns_buffer) (data : bytes) (size : Z) : step unit W pbns_view := fun s w =>
  octets ← rd_slice data 0 size; Some (inr (mk_view (b_ptr buffer) octets), s, w).

(** The loop of [verify_measured_binding] over the registers. *)
Fixpoint registers_match (items : list pbns_measured_boot_selection_item) (pcrs : list pbns_measured_boot_pcr_value) : option pbns_status :=
  match items with
  | [] => Some PBNS_OK
  | item :: items =>
      match pcrs with
      | [] => None
      | pcr :: pcrs =>
          if negb (sel_hash_algorithm (pv_selection pcr) =? sel_hash_algorithm item) || negb (sel_pcr_index (pv_selection pcr) =? sel_pcr_index item)
             || negb (pv_digest_size pcr =? PBNS_MEASURED_BOOT_DIGEST_SIZE)
          then Some PBNS_ERR_AUTHENTICATION
          else registers_match items pcrs
      end
  end.

Definition challenge_selection (c : pbns_attestation_challenge) : pbns_measured_boot_selection :=
  mk_selection (Some (ch_selection_items c)) (ch_selection_count c).

Definition verify_measured_binding (c : pbns_attestation_challenge) (parts : submission_parts W) (ws : pbns_attestation_workspace) : step unit W unit :=
  let measured := sb_measured parts in
  let* _ := local_call (status ← registers_match (ch_selection_items c) (me_pcrs measured); Some (status, tt)) in
  let* (data, size) := local_call ('(status, data, size) ← pbns_measured_boot_encode_canonical_selection (challenge_selection c) (aw_selection ws) (Some 0);
    size ← size; Some (status, (data, size))) in
  let* canonical := prefix_view (aw_selection ws) data size in
  let* digest := world_call (fun w => sb_sha256 parts w canonical) in
  let* _ := guard (ct_equal digest (me_selection_digest measured)) PBNS_ERR_AUTHENTICATION in
  let* _ := local_call (pbns_measured_boot_validate_event_log (me_event_log measured) (Some zero_summary)) in
  let* digest := world_call (fun w => sb_sha256 parts w (me_event_log measured)) in
  guard (ct_equal digest (me_event_log_digest measured)) PBNS_ERR_AUTHENTICATION.

(** The inventory, the measured boot and the qualifying data: the report digest and the qualifying data. *)
Definition bind_platform (c : pbns_attestation_challenge) (parts : submission_parts W) (ws : pbns_attestation_workspace) : step unit W (bytes * bytes) :=
  let measured := sb_measured parts in
  let* _ := guard (ct_equal (rp_host_fingerprint (sb_report parts)) (ch_host_fingerprint c)) PBNS_ERR_AUTHENTICATION in
  let* (data, size) := local_call ('(status, data, size) ← pbns_inventory_encode (Some (sb_report parts)) (aw_inventory ws) (Some 0);
    size ← size; Some (status, (data, size))) in
  let* inventory := prefix_view (aw_inventory ws) data size in
  let* report_digest := world_call (fun w => sb_sha256 parts w inventory) in
  let* _ := verify_measured_binding c parts ws in
  let* qualifying := (fun s w =>
    '(status, _, digest, w) ← qualifying_data (sb_sha256 parts) (ch_request_id c) (ch_verifier_nonce c) report_digest (me_selection_digest measured)
      (me_event_log_digest measured) (aw_aad ws) w;
    Some (if is_ok status then inr digest else inl status, s, w)) in
  ret_step (report_digest, qualifying).

(** The quote and its signature. *)
Definition take_quote (c : pbns_attestation_challenge) (parts : submission_parts W) (ws : pbns_attestation_workspace) (qualifying : bytes)
  : step unit W (pbns_view * pbns_view) :=
  let* (quote, quote_size, signature, signature_size) := world_call (fun w =>
    let '(status, quote, quote_size, signature, signature_size, w) :=
      sb_quote parts w (challenge_selection c) qualifying (aw_quote ws) (aw_quote_signature ws) in
    (status, (quote, quote_size, signature, signature_size), w)) in
  let* _ := guard (negb ((quote_size =? 0) || (b_cap (aw_quote ws) <? quote_size) || (signature_size =? 0)
                         || (b_cap (aw_quote_signature ws) <? signature_size))) PBNS_ERR_LIMIT in
  let* quote := prefix_view (aw_quote ws) quote quote_size in
  let* signature := prefix_view (aw_quote_signature ws) signature signature_size in
  ret_step (quote, signature).

(** The evidence, signed. *)
Definition sign_evidence (c : pbns_attestation_challenge) (sub : pbns_attestation_submission W) (parts : submission_parts W) (ws : pbns_attestation_workspace)
    (quote signature : pbns_view) (report_digest : bytes) : step unit W pbns_view :=
  let '(status, data, size) :=
    encode_into (evidence_tree c (sb_measured parts) (v_data (as_ak_name sub)) (v_data (as_ak_reference sub)) (report_tree (sb_report parts))
      (v_data quote) (v_data signature) report_digest) (aw_evidence ws) in
  let* _ := local_call (Some (status, tt)) in
  let* evidence := prefix_view (aw_evidence ws) data size in
  let '(status, data, size) := sign_aad c (as_ak_name sub) (wipe_buffer (aw_aad ws)) in
  let* _ := local_call (Some (status, tt)) in
  let* aad := prefix_view (aw_aad ws) data size in
  let* (data, size) := world_call (fun w =>
    let '(status, data, size, w) := pbns_sign1_sign (Some (sb_signer parts)) evidence aad (aw_signed_evidence ws) (Some 0) w in
    (status, (data, default 0 size), w)) in
  let* _ := guard (negb ((size =? 0) || (b_cap (aw_signed_evidence ws) <? size))) PBNS_ERR_LIMIT in
  prefix_view (aw_signed_evidence ws) data size.

(** The ciphertext of the signed evidence and its size. *)
Definition encrypt_evidence (c : pbns_attestation_challenge) (kid_at : Z) (parts : submission_parts W) (ws : pbns_attestation_workspace) (signed : pbns_view)
  : step unit W (bytes * Z) :=
  let '(status, data, size) := encrypt_aad c (wipe_buffer (aw_aad ws)) in
  let* _ := local_call (Some (status, tt)) in
  let* aad := prefix_view (aw_aad ws) data size in
  let* (data, size) := world_call (fun w =>
    let '(status, data, size, w) :=
      pbns_attestation_encrypt_message (Some (sb_encrypter parts)) (mk_view kid_at (ch_recipient_kid c)) signed aad (aw_ciphertext ws) (Some 0) w in
    (status, (data, default 0 size), w)) in
  let* _ := guard (negb ((size =? 0) || (b_cap (aw_ciphertext ws) <? size))) PBNS_ERR_LIMIT in
  ret_step (data, size).

(** The loop that sends the records. *)
Fixpoint send_records (fuel : nat) (send_data : W -> bytes -> Z -> pbns_view -> bool -> pbns_status * W) (request_id : bytes) (address : Z)
    (ciphertext : bytes) (size offset sequence : Z) : step unit W unit :=
  match fuel with
  | O => fun _ _ => None
  | S fuel =>
      if negb (offset <? size) then ret_step tt
      else
      let remaining := size - offset in
      let chunk_size := if PBNS_FRAME_V1_DATA_PAYLOAD_MAX <? remaining then PBNS_FRAME_V1_DATA_PAYLOAD_MAX else remaining in
      let final_record := chunk_size =? remaining in
      let* payload := (fun s w => octets ← rd_slice ciphertext offset chunk_size; Some (inr (mk_view (address + offset) octets), s, w)) in
      let* _ := world_call (fun w => let '(status, w) := send_data w request_id sequence payload final_record in (status, tt, w)) in
      let* sequence := if final_record then ret_step sequence
                       else if sequence =? UINT32_MAX then end_step PBNS_ERR_LIMIT else ret_step (sequence + 1) in
      send_records fuel send_data request_id address ciphertext size (offset + chunk_size) sequence
  end.

Definition send_fuel (size : Z) : nat := Z.to_nat (size / PBNS_FRAME_V1_DATA_PAYLOAD_MAX + 2).

(** The digest of the signed evidence. *)
Definition submit_steps (c : pbns_attestation_challenge) (kid_at : Z) (sub : pbns_attestation_submission W) (parts : submission_parts W)
    (ws : pbns_attestation_workspace) : step unit W bytes :=
  let* _ := world_call (fun w => let '(status, w) := sb_consume parts w (ch_request_id c) (ch_verifier_nonce c) in (status, tt, w)) in
  let* (report_digest, qualifying) := bind_platform c parts ws in
  let* (quote, signature) := take_quote c parts ws qualifying in
  let* signed := sign_evidence c sub parts ws quote signature report_digest in
  let* digest := world_call (fun w => sb_sha256 parts w signed) in
  let* (data, size) := encrypt_evidence c kid_at parts ws signed in
  let* _ := send_records (send_fuel size) (sb_send_data parts) (ch_request_id c) (b_ptr (aw_ciphertext ws)) data size 0 0 in
  ret_step digest.

Definition consume_challenge (c : pbns_attestation_challenge) : pbns_attestation_challenge :=
  mk_challenge (ch_request_id c) (ch_host_fingerprint c) (ch_verifier_nonce c) (ch_selection_items c) (ch_recipient_kid c) (ch_issued_at_ns c) (ch_expiry_ns c) true.

(** The status, the challenge, the digest buffer, the workspace and the world; [kid_at]
    is the address of the recipient key inside the challenge. *)
Definition attestation_submit (c : pbns_attestation_challenge) (kid_at : Z) (sub : pbns_attestation_submission W) (parts : submission_parts W)
    (ws : pbns_attestation_workspace) (places : submission_places) (w : W)
  : option (pbns_status * pbns_attestation_challenge * pbns_buffer * pbns_attestation_workspace * W) :=
  if negb (submission_arguments_valid c sub parts ws places) then Some (PBNS_ERR_ARGUMENT, c, as_evidence_digest sub, ws, w)
  else
  let digest_buffer := wipe_buffer (as_evidence_digest sub) in
  if ch_consumed c then Some (PBNS_ERR_ARGUMENT, c, digest_buffer, wipe_workspace ws, w)
  else
  let c := consume_challenge c in
  '(result, _, w) ← submit_steps c kid_at sub parts ws tt w;
  Some (match result with
        | inl status => (status, c, digest_buffer, wipe_workspace ws, w)
        | inr digest => (PBNS_OK, c, with_data digest_buffer digest, wipe_workspace ws, w)
        end).

Definition pbns_attestation_submit (challenge : ptr pbns_attestation_challenge) (kid_at : Z) (submission : ptr (pbns_attestation_submission W))
    (workspace : ptr pbns_attestation_workspace) (places : submission_places) (w : W)
  : option (pbns_status * ptr pbns_attestation_challenge * ptr pbns_buffer * ptr pbns_attestation_workspace * W) :=
  match challenge, submission, workspace with
  | Some c, Some sub, Some ws =>
      match parts_of sub with
      | None => Some (PBNS_ERR_ARGUMENT, challenge, Some (as_evidence_digest sub), workspace, w)
      | Some parts =>
          '(status, c, digest, ws, w) ← attestation_submit c kid_at sub parts ws places w;
          Some (status, Some c, Some digest, Some ws, w)
      end
  | _, _, _ => Some (PBNS_ERR_ARGUMENT, challenge, as_evidence_digest <$> submission, workspace, w)
  end.
End code.
