(* ===== verification/SubmitProps.v ===== *)
(** * Submitting evidence: correctness

    A submission that succeeds took every step, in order and over the data of its
    challenge; one that fails leaves no digest; a challenge is used at most once. *)

From stdpp Require Import base list numbers.
From Stdlib Require Import ZArith Lia.
From S2P Require Import Prelude Endian Status Buffers Cbor CborTree Compare Crypto Frame MeasuredBoot MeasuredLog MeasuredProps InventoryText Inventory InventoryReport Step TreeReads AttestationReceipt ReceiptProps AttestationChallenge ChallengeProps AttestationEvidence AttestationSubmit.

(** ** What the callbacks promise: digests of 32 octets, outputs of the size of their buffers *)

Class EvidenceLaws {W : Type} (parts : submission_parts W) : Prop := {
  law_sha256 : forall w v st d w', sb_sha256 parts w v = (st, d, w') -> zlen d = 32;
  law_quote : forall w sel q qb sb st qd qn sd sn w', sb_quote parts w sel q qb sb = (st, qd, qn, sd, sn, w') ->
    length qd = length (b_data qb) /\ length sd = length (b_data sb) /\ 0 <= qn /\ 0 <= sn;
  law_sign : forall sign w p a b st d n w', provider (Some (sb_signer parts)) co_sign1_sign = Some sign -> sign w p a b = (st, d, n, w') ->
    length d = length (b_data b) /\ 0 <= n;
  law_encrypt : forall encrypt w k p a b st d n w', provider (Some (sb_encrypter parts)) co_encrypt_for_recipient = Some encrypt ->
    encrypt w k p a b = (st, d, n, w') -> length d = length (b_data b) /\ 0 <= n;
}.

(** ** Logic of the steps *)

Definition any_unit (_ _ : unit) : Prop := True.
#[export] Instance any_unit_preorder : PreOrder any_unit.
Proof. by split. Qed.

Notation wp m w P := (wp_step any_unit m tt w (fun x _ w' => P x w')).

Section logic.
Context {W : Type}.
Implicit Types w : W.

Lemma wp_seq {A B} (m : step unit W A) (f : A -> step unit W B) w (R : A -> W -> Prop) (P : B -> W -> Prop) :
  wp m w R -> (forall x w', R x w' -> wp (f x) w' P) -> wp (bind_step m f) w P.
Proof. intros Hm Hf. eapply wps_bind; [apply _|exact Hm|]. intros x [] w' _ Hx. by apply Hf. Qed.

Lemma wp_done {A} (x : A) w (P : A -> W -> Prop) : P x w -> wp (ret_step x) w P.
Proof. intros Hx. by eapply wps_ret. Qed.

Lemma wp_world {A} (f : W -> pbns_status * A * W) w (P : A -> W -> Prop) :
  (forall x w', f w = (PBNS_OK, x, w') -> P x w') -> wp (world_call f) w P.
Proof.
  intros Hf. unfold wp_step, world_call. destruct (f w) as [[st x] w'] eqn:E. do 3 eexists. split; [done|]. split; [done|].
  destruct (is_ok st) eqn:Ok; [apply is_ok_spec in Ok as ->; by apply Hf|by apply is_ok_false].
Qed.

Lemma wp_local {A} (result : option (pbns_status * A)) w (P : A -> W -> Prop) st x :
  result = Some (st, x) -> (st = PBNS_OK -> P x w) -> wp (local_call result) w P.
Proof.
  intros -> Hf. unfold wp_step, local_call. cbn [mbind option_bind]. do 3 eexists. split; [done|]. split; [done|].
  destruct (is_ok st) eqn:Ok; [apply Hf; by apply is_ok_spec|by apply is_ok_false].
Qed.

Lemma wp_guard (condition : bool) st w (P : unit -> W -> Prop) : st <> PBNS_OK -> (condition = true -> P tt w) -> wp (guard condition st) w P.
Proof. intros Hst HP. unfold guard. destruct condition; [apply wp_done; by apply HP|]. exists (inl st), tt, w. done. Qed.

Lemma wp_prefix buffer data size w (P : pbns_view -> W -> Prop) :
  0 <= size <= zlen data -> P (mk_view (b_ptr buffer) (take (Z.to_nat size) data)) w -> wp (prefix_view buffer data size) w P.
Proof. intros Hs HP. unfold wp_step, prefix_view. rewrite rd_slice_inside by lia. unfold slice. rewrite drop_0. cbn [mbind option_bind]. by do 3 eexists. Qed.

Lemma wp_weaken {A} (m : step unit W A) w (P R : A -> W -> Prop) : wp m w P -> (forall x w', P x w' -> R x w') -> wp m w R.
Proof. intros Hm HR. eapply wps_mono; [exact Hm|]. intros x s w' _. apply HR. Qed.

(** The same, followed by the rest of the steps. *)
Lemma wp_then_call {A B} (f : W -> pbns_status * A * W) (k : A -> step unit W B) w (P : B -> W -> Prop) :
  (forall x w', f w = (PBNS_OK, x, w') -> wp (k x) w' P) -> wp (bind_step (world_call f) k) w P.
Proof. intros Hk. eapply wp_seq; [|exact Hk]. by apply wp_world. Qed.

Lemma wp_then_guard {B} condition st (k : unit -> step unit W B) w (P : B -> W -> Prop) :
  st <> PBNS_OK -> (condition = true -> wp (k tt) w P) -> wp (bind_step (guard condition st) k) w P.
Proof. intros Hst Hk. eapply wp_seq with (R := fun _ w' => w' = w /\ condition = true); [by apply wp_guard|]. intros [] w' [-> Hc]. by apply Hk. Qed.

Lemma wp_then_local {A B} (result : option (pbns_status * A)) (k : A -> step unit W B) w (P : B -> W -> Prop) st x :
  result = Some (st, x) -> (st = PBNS_OK -> wp (k x) w P) -> wp (bind_step (local_call result) k) w P.
Proof. intros E Hk. eapply wp_seq with (R := fun y w' => y = x /\ w' = w /\ st = PBNS_OK); [by eapply wp_local|]. intros y w' (-> & -> & Hst). by apply Hk. Qed.

Lemma wp_then_prefix {B} buffer data size octets (k : pbns_view -> step unit W B) w (P : B -> W -> Prop) :
  rd_slice data 0 size = Some octets -> wp (k (mk_view (b_ptr buffer) octets)) w P -> wp (bind_step (prefix_view buffer data size) k) w P.
Proof.
  intros E Hk. eapply wp_seq with (R := fun v w' => v = mk_view (b_ptr buffer) octets /\ w' = w).
  - unfold wp_step, prefix_view. rewrite E. cbn [mbind option_bind]. by do 3 eexists.
  - by intros v w' [-> ->].
Qed.

Lemma prefix_slice (data : bytes) size (octets : bytes) : 0 <= size <= zlen data -> take (Z.to_nat size) data = octets -> rd_slice data 0 size = Some octets.
Proof. intros Hs E. rewrite rd_slice_inside by lia. unfold slice. by rewrite drop_0, E. Qed.

(** Encoding into a buffer that may be too small. *)
Lemma encode_into_spec `{Q : QCBORSpiffy} tree output : exists st data n, encode_into tree output = (st, data, n)
  /\ (st = PBNS_OK -> n = zlen (tree_encode tree) /\ 0 <= n <= zlen data /\ take (Z.to_nat n) data = tree_encode tree).
Proof.
  unfold encode_into. destruct (QCBOREncode_tree tree (b_data output)) as [[e out] data] eqn:E. destruct (QCBOREncode_tree_spec _ _ _ _ _ E) as (Hl & Hok & _).
  destruct e; (do 3 eexists; split; [done|]); try done. intros _. destruct (Hok eq_refl) as (-> & Hfit & ->). split; [done|]. split; [rewrite length_app; lia|].
  by rewrite Nat2Z.id, take_app_length.
Qed.
End logic.

(** ** The parts of a submission *)

(** The arrays of the report have their sizes. *)
Definition report_arrays (r : pbns_inventory_report) : Prop :=
  text_sized (rp_firmware_vendor r) /\ text_sized (rp_firmware_version r) /\ text_sized (rp_cpu_class r) /\ zlen (rp_outcomes r) = 5
  /\ zlen (rp_tpm_active_banks r) = 8 /\ zlen (rp_timings r) = 8 /\ zlen (rp_host_fingerprint r) = 32
  /\ 0 <= rp_tpm_active_bank_count r /\ 0 <= rp_timing_count r.

Lemma banks_ordered_total banks rounds index : 1 <= index -> (rounds <> 0%nat -> index + Z.of_nat rounds <= zlen banks) -> exists b, banks_ordered banks index rounds = Some b.
Proof.
  revert index. induction rounds as [|rounds IH]; intros index Hi Hl; cbn [banks_ordered]; [by eexists|]. specialize (Hl ltac:(done)).
  destruct (rd_some banks (index - 1) ltac:(lia)) as [p ->]. destruct (rd_some banks index ltac:(lia)) as [b ->]. cbn [mbind option_bind].
  case_match; [by eexists|]. apply IH; [lia|]. intros _. lia.
Qed.

Lemma timings_ordered_total timings rounds index : 0 <= index -> index + Z.of_nat rounds <= zlen timings -> exists b, timings_ordered timings index rounds = Some b.
Proof.
  revert index. induction rounds as [|rounds IH]; intros index Hi Hl; cbn [timings_ordered]; [by eexists|].
  destruct (rd_some timings index ltac:(lia)) as [t ->]. cbn [mbind option_bind]. case_match; [by eexists|]. destruct (Z.eqb_spec index 0); cbn [negb]; [apply IH; lia|].
  destruct (rd_some timings (index - 1) ltac:(lia)) as [p ->]. cbn [mbind option_bind]. case_match; [by eexists|]. apply IH; lia.
Qed.

Lemma report_valid_total r : report_arrays r -> exists b, report_valid (Some r) = Some b.
Proof.
  intros (Hv & Hw & Hc & Ho & Hb & Ht & _ & Hbc & Htc). unfold report_valid. destruct (texts_normalized_spec _ _ _ Hv Hw Hc) as (n & -> & _). cbn [mbind option_bind].
  destruct (_ || _) eqn:E; [by eexists|]. unfold PBNS_INVENTORY_TPM_BANK_MAX, PBNS_INVENTORY_TIMING_MAX in E. bools.
  rewrite rd_slice_inside by lia. cbn [mbind option_bind]. case_match; [by eexists|].
  destruct (banks_ordered_total (rp_tpm_active_banks r) (Z.to_nat (rp_tpm_active_bank_count r) - 1) 1) as (b & ->); [lia|lia|]. cbn [mbind option_bind]. case_match; [by eexists|].
  apply timings_ordered_total; lia.
Qed.

Lemma inventory_encode_spec `{Q : QCBORSpiffy} r output : report_arrays r -> exists st data n, pbns_inventory_encode (Some r) output (Some 0) = Some (st, data, Some n)
  /\ (st = PBNS_OK -> report_valid (Some r) = Some true /\ n = zlen (tree_encode (report_tree r)) /\ 0 <= n <= zlen data /\ take (Z.to_nat n) data = tree_encode (report_tree r)).
Proof.
  intros Hr. unfold pbns_inventory_encode. destruct (report_valid_total r Hr) as (valid & ->). cbn [mbind option_bind]. destruct (_ || _) eqn:E; [by do 3 eexists|]. bools. subst valid.
  destruct (QCBOREncode_tree (report_tree r) (b_data output)) as [[e out] data] eqn:Ee. destruct (QCBOREncode_tree_spec _ _ _ _ _ Ee) as (Hl & Hok & _).
  destruct e; try (by do 3 eexists). destruct (Hok eq_refl) as (-> & Hfit & ->). case_match; [by do 3 eexists|]. do 3 eexists. split; [done|]. intros _.
  split; [done|]. split; [done|]. split; [rewrite length_app; lia|]. by rewrite Nat2Z.id, take_app_length.
Qed.

(** The registers are those of the challenge, each with a digest of 32 octets. *)
Definition register_of (item : pbns_measured_boot_selection_item) (pcr : pbns_measured_boot_pcr_value) : Prop := pv_selection pcr = item /\ pv_digest_size pcr = 32.

Lemma registers_match_spec items pcrs : (length items <= length pcrs)%nat ->
  exists st, registers_match items pcrs = Some st /\ (st = PBNS_OK -> Forall2 register_of items (take (length items) pcrs)).
Proof.
  revert pcrs. induction items as [|i items IH]; intros [|p pcrs] Hl; cbn [length] in Hl; try lia; cbn [registers_match].
  1, 2: eexists; split; [done|constructor].
  destruct (_ || _) eqn:E; [by eexists|]. destruct (IH pcrs ltac:(lia)) as (st & -> & Hok). eexists. split; [done|]. intros Hst. cbn [length take]. constructor; [|by apply Hok].
  unfold PBNS_MEASURED_BOOT_DIGEST_SIZE in E. bools. split; [|done]. destruct (pv_selection p), i. cbn in *. congruence.
Qed.

Section parts.
Context `{Q : QCBORSpiffy} {W : Type} `{M : Machine} (c : pbns_attestation_challenge) (parts : submission_parts W) (ws : pbns_attestation_workspace) `{L : !EvidenceLaws parts}.
Implicit Types w : W.

(** What the checks before assure of the arguments. *)
Record submission_given : Prop := mk_given {
  sg_report : report_arrays (sb_report parts);
  sg_challenge : zlen (ch_request_id c) = 16 /\ zlen (ch_host_fingerprint c) = 32 /\ zlen (ch_verifier_nonce c) = 32;
  sg_selection : Forall (fun i => 0 <= sel_hash_algorithm i <= UINT16_MAX /\ 0 <= sel_pcr_index i <= 255) (ch_selection_items c);
  sg_measured : zlen (me_pcrs (sb_measured parts)) = 24 /\ zlen (me_selection_digest (sb_measured parts)) = 32 /\ zlen (me_event_log_digest (sb_measured parts)) = 32
    /\ bytes_ok (v_data (me_event_log (sb_measured parts)));
}.

(** The measured boot is that of the challenge, and its digests are right. *)
Definition measured_bound w w' : Prop :=
  Forall2 register_of (ch_selection_items c) (take (length (ch_selection_items c)) (me_pcrs (sb_measured parts)))
  /\ (exists h es, log_ok h es /\ v_data (me_event_log (sb_measured parts)) = log_octets h es)
  /\ exists w1, sb_sha256 parts w (mk_view (b_ptr (aw_selection ws)) (items_octets (ch_selection_items c))) = (PBNS_OK, me_selection_digest (sb_measured parts), w1)
     /\ sb_sha256 parts w1 (me_event_log (sb_measured parts)) = (PBNS_OK, me_event_log_digest (sb_measured parts), w').

Hypothesis (G : submission_given) (Hsel : selection_valid (ch_selection_items c) = true).
Hypothesis (Hlog : v_ptr (me_event_log (sb_measured parts)) <> 0 /\ 0 < v_len (me_event_log (sb_measured parts)) <= PBNS_MEASURED_BOOT_EVENT_LOG_MAX_SIZE).
Hypothesis (Hbuf : b_cap (aw_selection ws) = 72).

Lemma selection_short : zlen (ch_selection_items c) <= 24.
Proof. clear - Hsel. unfold selection_valid, PBNS_MEASURED_BOOT_SELECTION_MAX_COUNT in Hsel. destruct (_ || _) eqn:E in Hsel; [done|]. lia. Qed.

Lemma wp_measured w : wp (verify_measured_binding c parts ws) w (fun _ w' => measured_bound w w').
Proof.
  destruct G as [_ _ HT (Hp & Hsd & Hld & Hb)]. pose proof selection_short as Hs. unfold verify_measured_binding.
  destruct (registers_match_spec (ch_selection_items c) (me_pcrs (sb_measured parts)) ltac:(lia)) as (st & E & Hreg).
  eapply wp_then_local; [by rewrite E|]. intros Hst. specialize (Hreg Hst).
  assert (Htyped : selection_typed (challenge_selection c)).
  { split; [done|]. eapply Forall_impl; [|exact HT]. unfold UINT16_MAX, is_byte. cbn. lia. }
  destruct (encode_selection_spec (challenge_selection c) (b_data (aw_selection ws)) Htyped) as (st1 & data & n & E1 & _ & Hok1); [unfold b_cap in Hbuf; lia|].
  unfold pbns_measured_boot_encode_canonical_selection. destruct (_ || _); [eapply wp_then_local; [done|]; done|]. rewrite E1. cbn [mbind option_bind].
  eapply wp_then_local; [done|]. intros Hst1. destruct (Hok1 Hst1) as (items & [= <-] & -> & Hr).
  eapply wp_then_prefix; [exact Hr|]. apply wp_then_call. intros d1 w1 Hs1. apply wp_then_guard; [done|]. intros Hc1.
  apply ct_equal_spec in Hc1; [|pose proof (law_sha256 _ _ _ _ _ Hs1); lia]. subst d1.
  destruct (me_event_log (sb_measured parts)) as [lp log] eqn:El. unfold v_len in Hlog. cbn [v_ptr v_data] in *.
  assert (Hval : exists st2 s2, pbns_measured_boot_validate_event_log (mk_view lp log) (Some zero_summary) = Some (st2, s2)
    /\ (st2 = PBNS_OK -> exists h es, log_ok h es /\ log = log_octets h es)).
  { unfold pbns_measured_boot_validate_event_log, validate_event_log.
    destruct (parse_log_cases lp log (proj1 Hlog) Hb (proj2 Hlog)) as [(h & es & Hlo & Eo & ->)|(st2 & Hst2 & -> & _)]; cbn [mbind option_bind]; (do 2 eexists; split; [done|]).
    - intros _. by exists h, es.
    - intros ->. by destruct Hst2. }
  destruct Hval as (st2 & s2 & E2 & Hlo). eapply wp_then_local; [exact E2|]. intros Hst2. apply wp_then_call. intros d2 w2 Hs2.
  apply wp_guard; [done|]. intros Hc. apply ct_equal_spec in Hc; [|pose proof (law_sha256 _ _ _ _ _ Hs2); lia]. subst d2. split; [done|]. rewrite El. split; [by apply Hlo|]. by exists w1.
Qed.
(** What is hashed into the qualifying data. *)
Definition qualifying_octets (report_digest : bytes) : bytes :=
  PBNS_ATTESTATION_QUALIFYING_DOMAIN ++ ch_request_id c ++ ch_verifier_nonce c ++ report_digest ++ me_selection_digest (sb_measured parts)
  ++ me_event_log_digest (sb_measured parts).

Hypothesis (Haad : buffer_is_valid (aw_aad ws) = true /\ b_cap (aw_aad ws) = 256).

Lemma qualifying_spec w report_digest : zlen report_digest = 32 ->
  qualifying_data (sb_sha256 parts) (ch_request_id c) (ch_verifier_nonce c) report_digest (me_selection_digest (sb_measured parts))
    (me_event_log_digest (sb_measured parts)) (aw_aad ws) w
  = let '(st, d, w') := sb_sha256 parts w (mk_view (b_ptr (aw_aad ws)) (qualifying_octets report_digest)) in
    Some (st, wipe_buffer (aw_aad ws), if is_ok st then d else replicate 32 0, w').
Proof.
  intros Hr. destruct G as [_ (L1 & L2 & L3) _ (_ & Hsd & Hld & _)]. destruct Haad as [Hv Hc]. unfold qualifying_data, qualifying_octets. rewrite Hv, Hc.
  change (256 <? zlen PBNS_ATTESTATION_QUALIFYING_DOMAIN + PBNS_REQUEST_ID_SIZE + 4 * PBNS_ATTESTATION_DIGEST_SIZE) with false. cbn [negb orb].
  assert (HP : zlen PBNS_ATTESTATION_QUALIFYING_DOMAIN = 19) by done. rewrite HP. unfold PBNS_REQUEST_ID_SIZE, PBNS_ATTESTATION_NONCE_SIZE, PBNS_ATTESTATION_DIGEST_SIZE, b_cap in *.
  set (D := b_data (aw_aad ws)) in *. set (P := PBNS_ATTESTATION_QUALIFYING_DOMAIN) in *. clearbody P.
  change D with ([] ++ D) at 1. rewrite wr_list_next by (done || lia). cbn [mbind option_bind app].
  do 5 (rewrite wr_list_next by (rewrite ?length_app, ?length_drop; lia); cbn [mbind option_bind]).
  rewrite <- !app_assoc. rewrite !app_assoc. rewrite rd_slice_prefix by (rewrite !length_app; lia). cbn [mbind option_bind]. rewrite <- !app_assoc.
  destruct (sb_sha256 parts w _) as [[st d] w']. done.
Qed.

(** The platform is bound: its report and its measurements, under one digest. *)
Definition platform_bound w report_digest qualifying w' : Prop :=
  rp_host_fingerprint (sb_report parts) = ch_host_fingerprint c /\ report_valid (Some (sb_report parts)) = Some true
  /\ exists w1 w2, sb_sha256 parts w (mk_view (b_ptr (aw_inventory ws)) (tree_encode (report_tree (sb_report parts)))) = (PBNS_OK, report_digest, w1)
     /\ measured_bound w1 w2
     /\ sb_sha256 parts w2 (mk_view (b_ptr (aw_aad ws)) (qualifying_octets report_digest)) = (PBNS_OK, qualifying, w').

Lemma wp_platform w : wp (bind_platform c parts ws) w (fun p w' => platform_bound w (fst p) (snd p) w').
Proof.
  pose proof (sg_report G) as Hr. pose proof (sg_challenge G) as (_ & Hh & _). unfold bind_platform. apply wp_then_guard; [done|]. intros Hc.
  apply ct_equal_spec in Hc; [|destruct Hr as (_ & _ & _ & _ & _ & _ & Hf & _); lia].
  destruct (inventory_encode_spec (sb_report parts) (aw_inventory ws) Hr) as (st & data & n & E & Hok). rewrite E. cbn [mbind option_bind].
  eapply wp_then_local; [done|]. intros Hst. destruct (Hok Hst) as (Hv & -> & Hn & Ht). eapply wp_then_prefix; [by apply prefix_slice|].
  apply wp_then_call. intros rd w1 Hs1. eapply wp_seq; [apply wp_measured|]. intros [] w2 Hm. pose proof (law_sha256 _ _ _ _ _ Hs1) as Hrd. cbn beta in Hm.
  eapply wp_seq with (R := fun q w' => sb_sha256 parts w2 (mk_view (b_ptr (aw_aad ws)) (qualifying_octets rd)) = (PBNS_OK, q, w')).
  { unfold wp_step. rewrite qualifying_spec by done. destruct (sb_sha256 parts w2 _) as [[st3 d3] w3] eqn:E3. cbn [mbind option_bind]. do 3 eexists. split; [done|]. split; [done|].
    destruct (is_ok st3) eqn:Ok; [apply is_ok_spec in Ok; congruence|by apply is_ok_false]. }
  intros q w3 Hq. apply wp_done. split; [done|]. split; [done|]. by exists w1, w2.
Qed.

(** The TPM quoted the registers of the challenge over the qualifying data. *)
Definition quoted w qualifying (quote signature : pbns_view) w' : Prop :=
  exists qd qn sd sn, sb_quote parts w (challenge_selection c) qualifying (aw_quote ws) (aw_quote_signature ws) = (PBNS_OK, qd, qn, sd, sn, w')
  /\ 0 < qn <= b_cap (aw_quote ws) /\ 0 < sn <= b_cap (aw_quote_signature ws)
  /\ quote = mk_view (b_ptr (aw_quote ws)) (take (Z.to_nat qn) qd) /\ signature = mk_view (b_ptr (aw_quote_signature ws)) (take (Z.to_nat sn) sd).

Lemma wp_quote w qualifying : wp (take_quote c parts ws qualifying) w (fun p w' => quoted w qualifying (fst p) (snd p) w').
Proof.
  unfold take_quote. apply wp_then_call. intros [[[qd qn] sd] sn] w1 Hq.
  destruct (sb_quote parts w (challenge_selection c) qualifying (aw_quote ws) (aw_quote_signature ws)) as [[[[[st qd'] qn'] sd'] sn'] w2] eqn:E. injection Hq as -> -> -> -> -> ->.
  destruct (law_quote _ _ _ _ _ _ _ _ _ _ _ E) as (Lq & Ls & Nq & Ns). apply wp_then_guard; [done|]. intros Hg. unfold b_cap in Hg. bools.
  eapply wp_then_prefix; [apply prefix_slice; [rewrite Lq; lia|done]|]. eapply wp_then_prefix; [apply prefix_slice; [rewrite Ls; lia|done]|].
  apply wp_done. exists qd, qn, sd, sn. unfold b_cap. cbn [fst snd]. split; [done|]. split; [lia|]. split; [lia|]. done.
Qed.
End parts.

(** ** Signing and encrypting *)

Lemma wiped_valid b : buffer_is_valid (wipe_buffer b) = buffer_is_valid b /\ b_ptr (wipe_buffer b) = b_ptr b /\ b_cap (wipe_buffer b) = b_cap b.
Proof. unfold wipe_buffer. destruct (buffer_is_valid b) eqn:E; [|done]. unfold buffer_is_valid, b_cap, with_data in *. cbn [b_len b_ptr b_data] in *. by rewrite length_replicate. Qed.

Lemma sign1_sign_ok {W} `{M : Machine} (crypto : pbns_crypto W) payload aad output n0 w data n w' :
  pbns_sign1_sign (Some crypto) payload aad output (Some n0) w = (PBNS_OK, data, n, w') ->
  exists sign m, provider (Some crypto) co_sign1_sign = Some sign /\ n = Some m /\ sign w payload aad output = (PBNS_OK, data, m, w').
Proof.
  unfold pbns_sign1_sign. destruct (provider (Some crypto) co_sign1_sign) as [sign|]; [|done]. destruct (_ || _); [done|].
  destruct (sign w payload aad output) as [[[st d] m] w1] eqn:E. unfold require_bounded_output. destruct (is_ok st && _); [done|]. intros [= -> -> <- ->]. by exists sign, m.
Qed.

Lemma encrypt_message_ok {W} `{M : Machine} (crypto : pbns_crypto W) kid plaintext aad output n0 w data n w' :
  pbns_attestation_encrypt_message (Some crypto) kid plaintext aad output (Some n0) w = (PBNS_OK, data, n, w') ->
  exists encrypt m, provider (Some crypto) co_encrypt_for_recipient = Some encrypt /\ n = Some m /\ encrypt w kid plaintext aad output = (PBNS_OK, data, m, w').
Proof.
  unfold pbns_attestation_encrypt_message. destruct (provider (Some crypto) co_encrypt_for_recipient) as [encrypt|]; [|done]. destruct (_ || _); [done|].
  destruct (encrypt w kid plaintext aad output) as [[[st d] m] w1] eqn:E. unfold require_bounded_output. destruct (is_ok st && _); [done|]. intros [= -> -> <- ->]. by exists encrypt, m.
Qed.

Section sending.
Context `{Q : QCBORSpiffy} {W : Type} `{M : Machine} (c : pbns_attestation_challenge) (sub : pbns_attestation_submission W) (parts : submission_parts W)
  (ws : pbns_attestation_workspace) `{L : !EvidenceLaws parts}.
Implicit Types w : W.

Definition evidence_octets (quote signature report_digest : bytes) : bytes :=
  tree_encode (evidence_tree c (sb_measured parts) (v_data (as_ak_name sub)) (v_data (as_ak_reference sub)) (report_tree (sb_report parts)) quote signature report_digest).

(** The signer signed the evidence over the data of the challenge. *)
Definition evidence_signed w (quote signature report_digest : bytes) (signed : pbns_view) w' : Prop :=
  exists sign data n, provider (Some (sb_signer parts)) co_sign1_sign = Some sign
  /\ sign w (mk_view (b_ptr (aw_evidence ws)) (evidence_octets quote signature report_digest))
       (mk_view (b_ptr (aw_aad ws)) (tree_encode (sign_aad_tree c (v_data (as_ak_name sub))))) (aw_signed_evidence ws) = (PBNS_OK, data, n, w')
  /\ 0 < n <= b_cap (aw_signed_evidence ws) /\ signed = mk_view (b_ptr (aw_signed_evidence ws)) (take (Z.to_nat n) data).

Lemma wp_sign w quote signature report_digest :
  wp (sign_evidence c sub parts ws quote signature report_digest) w (fun signed w' => evidence_signed w (v_data quote) (v_data signature) report_digest signed w').
Proof.
  unfold sign_evidence. match goal with |- context [encode_into ?t ?b] => destruct (encode_into_spec t b) as (st & data & n & E & Hok) end. rewrite E.
  eapply wp_then_local; [done|]. intros Hst. destruct (Hok Hst) as (-> & Hn & Ht). eapply wp_then_prefix; [by apply prefix_slice|].
  unfold sign_aad. destruct (_ || _); [eapply wp_then_local; [done|]; done|].
  match goal with |- context [encode_into ?t ?b] => destruct (encode_into_spec t b) as (st2 & data2 & n2 & E2 & Hok2) end. rewrite E2.
  eapply wp_then_local; [done|]. intros Hst2. destruct (Hok2 Hst2) as (-> & Hn2 & Ht2). eapply wp_then_prefix; [by apply prefix_slice|].
  apply wp_then_call. intros [d m] w1 Hs. destruct (pbns_sign1_sign _ _ _ _ _ w) as [[[st3 d3] m3] w3] eqn:E3. injection Hs as -> -> <- ->.
  apply sign1_sign_ok in E3 as (sign & k & Hp & -> & Hcall). cbn [default from_option]. unfold id. destruct (law_sign _ _ _ _ _ _ _ _ _ Hp Hcall) as [Hl Hk].
  apply wp_then_guard; [done|]. intros Hg. unfold b_cap in Hg. bools. apply wp_prefix; [rewrite Hl; lia|]. exists sign, d, k. split; [done|]. split; [exact Hcall|]. unfold b_cap. split; [lia|done].
Qed.

(** The encrypter encrypted the signed evidence for the recipient of the challenge. *)
Definition evidence_encrypted w (kid_at : Z) (signed : pbns_view) (ciphertext : bytes) w' : Prop :=
  exists encrypt data n, provider (Some (sb_encrypter parts)) co_encrypt_for_recipient = Some encrypt
  /\ encrypt w (mk_view kid_at (ch_recipient_kid c)) signed (mk_view (b_ptr (aw_aad ws)) (tree_encode (encrypt_aad_tree c))) (aw_ciphertext ws) = (PBNS_OK, data, n, w')
  /\ 0 < n <= b_cap (aw_ciphertext ws) /\ ciphertext = take (Z.to_nat n) data.

Lemma wp_encrypt w kid_at signed :
  wp (encrypt_evidence c kid_at parts ws signed) w (fun p w' => 0 < snd p <= zlen (fst p) /\ snd p <= b_cap (aw_ciphertext ws)
    /\ evidence_encrypted w kid_at signed (take (Z.to_nat (snd p)) (fst p)) w').
Proof.
  unfold encrypt_evidence, encrypt_aad. destruct (_ || _); [eapply wp_then_local; [done|]; done|].
  match goal with |- context [encode_into ?t ?b] => destruct (encode_into_spec t b) as (st2 & data2 & n2 & E2 & Hok2) end. rewrite E2.
  eapply wp_then_local; [done|]. intros Hst2. destruct (Hok2 Hst2) as (-> & Hn2 & Ht2). eapply wp_then_prefix; [by apply prefix_slice|].
  apply wp_then_call. intros [d m] w1 Hs. destruct (pbns_attestation_encrypt_message _ _ _ _ _ _ w) as [[[st3 d3] m3] w3] eqn:E3. injection Hs as -> -> <- ->.
  apply encrypt_message_ok in E3 as (encrypt & k & Hp & -> & Hcall). cbn [default from_option]. unfold id. destruct (law_encrypt _ _ _ _ _ _ _ _ _ _ Hp Hcall) as [Hl Hk].
  apply wp_then_guard; [done|]. intros Hg. unfold b_cap in *. bools. apply wp_done. cbn [fst snd]. split; [lia|]. split; [lia|]. exists encrypt, d, k. split; [done|]. split; [exact Hcall|]. unfold b_cap. split; [lia|done].
Qed.

(** Records in order: full ones, and a last one that is marked. *)
Inductive records_sent (address : Z) : Z -> Z -> list bytes -> W -> W -> Prop :=
| sent_last offset sequence payload w w' : 0 < zlen payload <= PBNS_FRAME_V1_DATA_PAYLOAD_MAX ->
    sb_send_data parts w (ch_request_id c) sequence (mk_view (address + offset) payload) true = (PBNS_OK, w') ->
    records_sent address offset sequence [payload] w w'
| sent_more offset sequence payload payloads w w1 w' : zlen payload = PBNS_FRAME_V1_DATA_PAYLOAD_MAX ->
    sb_send_data parts w (ch_request_id c) sequence (mk_view (address + offset) payload) false = (PBNS_OK, w1) ->
    records_sent address (offset + zlen payload) (sequence + 1) payloads w1 w' ->
    records_sent address offset sequence (payload :: payloads) w w'.

Lemma wp_send fuel address data size offset sequence w :
  0 <= offset < size -> size <= zlen data -> size - offset <= Z.of_nat fuel * PBNS_FRAME_V1_DATA_PAYLOAD_MAX - PBNS_FRAME_V1_DATA_PAYLOAD_MAX ->
  0 <= sequence -> sequence + (size - offset) <= UINT32_MAX ->
  wp (send_records fuel (sb_send_data parts) (ch_request_id c) address data size offset sequence) w
    (fun _ w' => exists payloads, records_sent address offset sequence payloads w w' /\ concat payloads = slice data offset (size - offset)).
Proof.
  unfold PBNS_FRAME_V1_DATA_PAYLOAD_MAX. revert offset sequence w. induction fuel as [|fuel IH]; intros offset sequence w Ho Hs Hf Hq Hb; [lia|]. cbn [send_records].
  rewrite (proj2 (Z.ltb_lt offset size)) by lia. cbn [negb]. unfold PBNS_FRAME_V1_DATA_PAYLOAD_MAX. set (chunk := if 16384 <? size - offset then 16384 else size - offset).
  assert (Hc : 0 < chunk <= size - offset /\ chunk <= 16384 /\ (chunk = 16384 \/ chunk = size - offset)) by (unfold chunk; case_match; bools; lia). clearbody chunk.
  assert (Hl : zlen (slice data offset chunk) = chunk) by (apply slice_length; lia).
  eapply wp_seq with (R := fun v w' => v = mk_view (address + offset) (slice data offset chunk) /\ w' = w).
  { unfold wp_step. rewrite rd_slice_inside by lia. cbn [mbind option_bind]. by do 3 eexists. }
  intros v w0 [-> ->]. apply wp_then_call. intros [] w1 Hsend. destruct (sb_send_data parts w _ _ _ _) as [st1 w1'] eqn:E. injection Hsend as -> ->.
  destruct (Z.eqb_spec chunk (size - offset)) as [Hfin|Hnf].
  - eapply wp_seq; [apply wp_done with (P := fun _ w' => w' = w1); done|]. intros q w0 ->. destruct fuel as [|fuel']; [lia|]. cbn [send_records].
    rewrite (proj2 (Z.ltb_ge (offset + chunk) size)) by lia. cbn [negb]. apply wp_done. exists [slice data offset chunk]. split.
    + apply sent_last; [unfold PBNS_FRAME_V1_DATA_PAYLOAD_MAX; lia|exact E].
    + cbn. by rewrite app_nil_r, Hfin.
  - rewrite (proj2 (Z.eqb_neq sequence UINT32_MAX)) by lia. eapply wp_seq; [apply wp_done with (P := fun q w' => q = sequence + 1 /\ w' = w1); done|]. intros q w0 [-> ->].
    eapply wp_weaken; [apply IH; lia|]. intros [] w' (payloads & Hr & Ec). exists (slice data offset chunk :: payloads). split.
    + eapply sent_more; [unfold PBNS_FRAME_V1_DATA_PAYLOAD_MAX; lia|exact E|]. rewrite Hl. exact Hr.
    + cbn [concat]. rewrite Ec. rewrite <- (slice_split data offset chunk (size - (offset + chunk))) by lia. f_equal. lia.
Qed.
End sending.

(** ** The whole submission *)

Section submission.
Context `{Q : QCBORSpiffy} {W : Type} `{M : Machine}.

(** Every step of a submission, in order: the nonce was consumed, the platform bound, the
    registers quoted, the evidence signed, hashed, encrypted and sent. *)
Definition submission_made (c : pbns_attestation_challenge) (kid_at : Z) (sub : pbns_attestation_submission W) (parts : submission_parts W)
    (ws : pbns_attestation_workspace) (w : W) (digest : bytes) (w' : W) : Prop :=
  exists w1 report_digest qualifying w2 quote signature w3 signed w4 w5 ciphertext w6 payloads,
    sb_consume parts w (ch_request_id c) (ch_verifier_nonce c) = (PBNS_OK, w1)
    /\ platform_bound c parts ws w1 report_digest qualifying w2
    /\ quoted c parts ws w2 qualifying quote signature w3
    /\ evidence_signed c sub parts ws w3 (v_data quote) (v_data signature) report_digest signed w4
    /\ sb_sha256 parts w4 signed = (PBNS_OK, digest, w5)
    /\ evidence_encrypted c parts ws w5 kid_at signed ciphertext w6
    /\ records_sent c parts (b_ptr (aw_ciphertext ws)) 0 0 payloads w6 w' /\ concat payloads = ciphertext.

Lemma buffers_apart_first before b bs k ks : buffers_apart before (b :: bs) (k :: ks) = true ->
  buffer_is_valid b = true /\ b_cap b = k /\ exists before', buffers_apart before' bs ks = true.
Proof. cbn [buffers_apart]. destruct (_ || _) eqn:E; [done|]. case_match; [done|]. intros H'. bools. split; [done|]. split; [done|]. by eexists. Qed.

(** The buffers that the steps rely on. *)
Lemma layout_buffers (sub : pbns_attestation_submission W) measured ws places : workspace_layout_valid sub measured ws places = true ->
  b_cap (aw_selection ws) = 72 /\ b_cap (aw_ciphertext ws) = PBNS_ATTESTATION_ENCRYPTED_MAX_SIZE /\ buffer_is_valid (aw_aad ws) = true /\ b_cap (aw_aad ws) = 256
  /\ Forall (fun b => buffer_is_valid b = true) (workspace_buffers ws).
Proof.
  unfold workspace_layout_valid. destruct (buffers_apart [] _ _) eqn:E; [|done]. intros _. unfold workspace_buffers, workspace_capacities in *.
  apply buffers_apart_first in E as (V1 & _ & b1 & E). apply buffers_apart_first in E as (V2 & C2 & b2 & E). apply buffers_apart_first in E as (V3 & _ & b3 & E).
  apply buffers_apart_first in E as (V4 & _ & b4 & E). apply buffers_apart_first in E as (V5 & _ & b5 & E). apply buffers_apart_first in E as (V6 & _ & b6 & E).
  apply buffers_apart_first in E as (V7 & C7 & b7 & E). apply buffers_apart_first in E as (V8 & C8 & _).
  split; [done|]. split; [done|]. split; [done|]. split; [done|]. by repeat constructor.
Qed.

Lemma wp_submit c kid_at (sub : pbns_attestation_submission W) parts ws places `{L : !EvidenceLaws parts} w :
  submission_given c parts -> submission_arguments_valid c sub parts ws places = true ->
  wp (submit_steps c kid_at sub parts ws) w (fun digest w' => submission_made c kid_at sub parts ws w digest w').
Proof.
  intros Hg Ha. unfold submission_arguments_valid in Ha. destruct (_ || _) eqn:E in Ha; [done|]. destruct (layout_buffers _ _ _ _ Ha) as (C2 & C7 & V8 & C8 & _).
  rewrite !orb_false_iff, !negb_false_iff in E. destruct E as [[[[[[[_ Hsel] Hlv] Hl0] Hl1] _] _] _]. bools.
  assert (Hlog : v_ptr (me_event_log (sb_measured parts)) <> 0 /\ 0 < v_len (me_event_log (sb_measured parts)) <= PBNS_MEASURED_BOOT_EVENT_LOG_MAX_SIZE).
  { apply view_is_valid_spec in Hlv as [Hp|Hn]; [split; [done|unfold v_len in *; lia]|]. unfold v_len in Hl0. rewrite Hn in Hl0. done. }
  unfold submit_steps. apply wp_then_call. intros [] w1 Hc. destruct (sb_consume parts w _ _) as [st1 w1'] eqn:E1. injection Hc as -> ->.
  eapply wp_seq; [by apply wp_platform|]. intros [rd q] w2 Hp. cbn [fst snd] in Hp. eapply wp_seq; [by apply wp_quote|]. intros [quote signature] w3 Hq. cbn [fst snd] in Hq.
  eapply wp_seq; [by apply wp_sign|]. intros signed w4 Hs. cbn beta in Hs. apply wp_then_call. intros digest w5 Hd.
  eapply wp_seq; [by apply wp_encrypt|]. intros [data size] w6 (Hz & Hcap & He). cbn [fst snd] in Hz, Hcap, He. rewrite C7 in Hcap.
  assert (Hmax : PBNS_ATTESTATION_ENCRYPTED_MAX_SIZE < UINT32_MAX) by done.
  eapply wp_seq; [apply wp_send; [lia|lia| |lia|lia]|].
  { unfold send_fuel, PBNS_FRAME_V1_DATA_PAYLOAD_MAX. pose proof (Z.div_mod size 16384 ltac:(lia)). pose proof (Z.mod_pos_bound size 16384 ltac:(lia)).
    pose proof (Z.div_pos size 16384 ltac:(lia) ltac:(lia)). rewrite Z2Nat.id by lia. lia. }
  intros [] w7 (payloads & Hsent & Ec). apply wp_done. unfold slice in Ec. rewrite drop_0, Z.sub_0_r in Ec.
  by exists w1, rd, q, w2, quote, signature, w3, signed, w4, w5, (take (Z.to_nat size) data), w6, payloads.
Qed.
End submission.

Section contract.
Context `{Q : QCBORSpiffy} {W : Type} `{M : Machine}.
Implicit Types (c : pbns_attestation_challenge) (w : W).

Lemma given_consumed c (parts : submission_parts W) : submission_given c parts -> submission_given (consume_challenge c) parts.
Proof. by intros []. Qed.

Lemma wiped_workspace ws : Forall (fun b => buffer_is_valid b = true) (workspace_buffers ws) -> Forall all_zeros (workspace_buffers (wipe_workspace ws)).
Proof.
  intros HF. unfold workspace_buffers, wipe_workspace in *. cbn [aw_inventory aw_selection aw_quote aw_quote_signature aw_evidence aw_signed_evidence aw_ciphertext aw_aad].
  repeat (apply Forall_cons_iff in HF as [? HF]). repeat (apply Forall_cons_2; [by apply wipe_buffer_zero|]). apply Forall_nil_2.
Qed.

(** What a call leaves, on usable arguments. *)
Record submit_left c kid_at (sub : pbns_attestation_submission W) (parts : submission_parts W) ws w (st : pbns_status) c' (digest : pbns_buffer) ws' w' : Prop := mk_submit_left {
  sl_wiped : Forall all_zeros (workspace_buffers ws');
  sl_consumed : c' = consume_challenge c;
  sl_again : ch_consumed c = true -> st = PBNS_ERR_ARGUMENT /\ w' = w;
  sl_made : st = PBNS_OK -> ch_consumed c = false /\ submission_made (consume_challenge c) kid_at sub parts ws w (b_data digest) w';
  sl_failed : st <> PBNS_OK -> all_zeros digest;
}.

Lemma consume_consumed c : ch_consumed c = true -> c = consume_challenge c.
Proof. destruct c. cbn. by intros ->. Qed.

Lemma submit_returns c kid_at (sub : pbns_attestation_submission W) parts ws places `{L : !EvidenceLaws parts} w : submission_given c parts ->
  exists st c' digest ws' w', attestation_submit c kid_at sub parts ws places w = Some (st, c', digest, ws', w')
  /\ (submission_arguments_valid c sub parts ws places = false -> st = PBNS_ERR_ARGUMENT /\ c' = c /\ digest = as_evidence_digest sub /\ ws' = ws /\ w' = w)
  /\ (submission_arguments_valid c sub parts ws places = true -> submit_left c kid_at sub parts ws w st c' digest ws' w').
Proof.
  intros Hg. unfold attestation_submit. destruct (submission_arguments_valid c sub parts ws places) eqn:Ha; cbn [negb]; [|by do 5 eexists].
  assert (Ha' := Ha). unfold submission_arguments_valid in Ha'. destruct (_ || _) eqn:Ea in Ha'; [done|]. destruct (layout_buffers _ _ _ _ Ha') as (_ & _ & _ & _ & HV).
  apply wiped_workspace in HV. apply orb_false_iff in Ea as [Ea _]. apply orb_false_iff in Ea as [_ Hd]. apply negb_false_iff in Hd.
  destruct (wipe_buffer_zero _ Hd) as [Hz _]. destruct (ch_consumed c) eqn:Hc.
  { do 5 eexists. split; [done|]. split; [done|]. intros _. constructor; try done. by apply consume_consumed. }
  destruct (wp_submit (consume_challenge c) kid_at sub parts ws places w (given_consumed _ _ Hg) Ha) as (r & [] & w' & -> & _ & Hr). cbn [mbind option_bind].
  destruct r as [st|digest]; (do 5 eexists; split; [done|]; split; [done|]); intros _; (constructor; [exact HV|done|intros; congruence| |done]).
  - intros ->. by destruct Hr.
  - intros _. split; [exact Hc|exact Hr].
Qed.

(** ** Attempts with one challenge *)

Record attempt := mk_attempt {
  at_kid : Z;
  at_submission : pbns_attestation_submission W;
  at_parts : submission_parts W;
  at_buffers : pbns_attestation_workspace;
  at_where : submission_places;
}.

Fixpoint submit_all (attempts : list attempt) c w : option (list pbns_status * pbns_attestation_challenge * W) :=
  match attempts with
  | [] => Some ([], c, w)
  | a :: attempts =>
      '(st, c, _, _, w) ← attestation_submit c (at_kid a) (at_submission a) (at_parts a) (at_buffers a) (at_where a) w;
      '(sts, c, w) ← submit_all attempts c w;
      Some (st :: sts, c, w)
  end.

Definition attempt_given c (a : attempt) : Prop := EvidenceLaws (at_parts a) /\ submission_given c (at_parts a).

Lemma consumed_refuses attempts c w : ch_consumed c = true -> Forall (attempt_given c) attempts ->
  exists sts, submit_all attempts c w = Some (sts, c, w) /\ Forall (fun st => st = PBNS_ERR_ARGUMENT) sts.
Proof.
  intros Hc HF. induction HF as [|a attempts [L G] _ IH]; [exists []; by repeat constructor|]. cbn [submit_all].
  destruct (submit_returns c (at_kid a) (at_submission a) (at_parts a) (at_buffers a) (at_where a) w G) as (st & c' & digest & ws' & w' & -> & Hno & Hyes). cbn [mbind option_bind].
  assert (H : st = PBNS_ERR_ARGUMENT /\ c' = c /\ w' = w).
  { destruct (submission_arguments_valid _ _ _ _ _); [|destruct (Hno eq_refl) as (-> & -> & _ & _ & ->); done].
    destruct (Hyes eq_refl) as [_ -> Hag _ _]. destruct (Hag Hc) as [-> ->]. split; [done|]. split; [by rewrite <- consume_consumed|done]. }
  destruct H as (-> & -> & ->). destruct IH as (sts & -> & Hs). cbn [mbind option_bind]. eexists. split; [done|]. by constructor.
Qed.

Lemma attempts_given c attempts : Forall (attempt_given c) attempts -> Forall (attempt_given (consume_challenge c)) attempts.
Proof. intros HF. eapply Forall_impl; [|exact HF]. intros a [L G]. split; [done|]. by apply given_consumed. Qed.

Lemma submit_all_length attempts c w sts c' w' : submit_all attempts c w = Some (sts, c', w') -> length sts = length attempts.
Proof.
  revert c w sts. induction attempts as [|a attempts IH]; intros c w sts; cbn [submit_all]; [by intros [= <-]|].
  destruct (attestation_submit c _ _ _ _ _ w) as [[[[[st1 c1] d1] ws1] w1]|]; [|done]. cbn [mbind option_bind].
  destruct (submit_all attempts c1 w1) as [[[sts1 c2] w2]|] eqn:E; [|done]. cbn [mbind option_bind]. intros [= <- -> ->]. cbn. f_equal. by eapply IH.
Qed.

(** At most one attempt succeeds, and the refused ones before and after it change nothing. *)
Lemma submit_all_once attempts c w : Forall (attempt_given c) attempts ->
  exists sts c' w', submit_all attempts c w = Some (sts, c', w') /\ length sts = length attempts
  /\ (forall i j, sts !! i = Some PBNS_OK -> sts !! j = Some PBNS_OK -> i = j)
  /\ ((w' = w /\ Forall (fun st => st = PBNS_ERR_ARGUMENT) sts)
      \/ exists n a st, attempts !! n = Some a /\ sts !! n = Some st /\ ch_consumed c = false
         /\ (exists c1 digest ws1, attestation_submit c (at_kid a) (at_submission a) (at_parts a) (at_buffers a) (at_where a) w = Some (st, c1, digest, ws1, w'))
         /\ forall i st', i <> n -> sts !! i = Some st' -> st' = PBNS_ERR_ARGUMENT).
Proof.
  intros HF. induction HF as [|a attempts [L G] HF IH]; [exists [], c, w; by repeat split; try (left; by repeat constructor)|]. cbn [submit_all].
  destruct (submit_returns c (at_kid a) (at_submission a) (at_parts a) (at_buffers a) (at_where a) w G) as (st & c' & digest & ws' & w' & E & Hno & Hyes). rewrite E. cbn [mbind option_bind].
  destruct (submission_arguments_valid _ _ _ _ _).
  - destruct (Hyes eq_refl) as [_ -> Hag Hmade _]. destruct (consumed_refuses attempts (consume_challenge c) w' eq_refl (attempts_given _ _ HF)) as (sts & E2 & Hs). rewrite E2. cbn [mbind option_bind].
    pose proof (submit_all_length _ _ _ _ _ _ E2) as Hl.
    rewrite Forall_lookup in Hs. do 3 eexists. split; [done|]. split; [cbn; lia|]. split.
    { intros [|i] [|j] H1 H2; cbn in H1, H2; [done|by specialize (Hs _ _ H2)|by specialize (Hs _ _ H1)|by specialize (Hs _ _ H1)]. }
    destruct (ch_consumed c) eqn:Hc.
    + left. destruct (Hag eq_refl) as [-> ->]. split; [done|]. constructor; [done|]. by apply Forall_lookup.
    + right. exists 0%nat, a, st. split; [done|]. split; [done|]. split; [done|]. split; [by do 3 eexists|]. intros [|i] st' Hi; [done|]. cbn. by apply Hs.
  - destruct (Hno eq_refl) as (-> & -> & -> & -> & ->). destruct IH as (sts & c2 & w2 & -> & Hl & Hone & Hcase). cbn [mbind option_bind]. do 3 eexists. split; [done|]. split; [cbn; lia|]. split.
    { intros [|i] [|j] H1 H2; cbn in H1, H2; try done. f_equal. by apply Hone. }
    destruct Hcase as [[-> Hs]|(n & a' & st & H1 & H2 & H3 & H4 & H5)]; [left; split; [done|by constructor]|right].
    exists (S n), a', st. split; [done|]. split; [done|]. split; [done|]. split; [done|]. intros [|i] st' Hi; cbn; [congruence|]. intros Hst. apply (H5 i); [congruence|done].
Qed.
End contract.

(** ** Properties *)


(** ** Witness *)

Definition ex_measured : pbns_measured_boot_evidence :=
  mk_evidence (mk_view 4096 [1; 2; 3]) (replicate 32 7) (replicate 32 7) (replicate 24 zero_pcr_value) 3 1 0 0 0.

Definition ex_provider : pbns_crypto nat :=
  mk_crypto (Some (mk_crypto_ops (Some (fun w _ _ b => (PBNS_OK, b_data b, 1, S w))) None None None (Some (fun w _ _ _ b => (PBNS_OK, b_data b, 1, S w))) None)) 1.

Definition ex_parts : submission_parts nat :=
  mk_parts zero_report ex_measured ex_provider ex_provider (fun w _ => (PBNS_OK, replicate 32 7, S w))
    (fun w _ _ q s => (PBNS_OK, b_data q, 1, b_data s, 1, S w)) (fun w _ _ => (PBNS_OK, S w)) (fun w _ _ _ _ => (PBNS_OK, S w)).

#[export] Instance ex_parts_laws : EvidenceLaws ex_parts.
Proof.
  constructor.
  - by intros w v st d w' [= <- <- <-].
  - by intros w sel q qb sb st qd qn sd sn w' [= <- <- <- <- <- <-].
  - intros sign w p a b st d n w' [= <-] [= <- <- <- <-]. done.
  - intros encrypt w k p a b st d n w' [= <-] [= <- <- <- <-]. done.
Qed.

Lemma ex_parts_given : submission_given ex_challenge ex_parts.
Proof.
  constructor.
  - unfold report_arrays, text_sized. repeat split; vm_compute; (reflexivity || discriminate).
  - done.
  - repeat constructor; vm_compute; (reflexivity || discriminate).
  - split; [done|]. split; [done|]. split; [done|]. repeat constructor; vm_compute; (reflexivity || discriminate).
Qed.

Definition ex_space (address size : Z) : pbns_buffer := mk_buffer address 0 (replicate (Z.to_nat size) 1).

Lemma ex_space_cap address size : 0 <= size -> b_cap (ex_space address size) = size.
Proof. intros Hs. unfold b_cap, ex_space. change (Z.of_nat (length (replicate (Z.to_nat size) 1)) = size). rewrite length_replicate. lia. Qed.

Lemma ex_space_at address size : b_ptr (ex_space address size) = address /\ b_len (ex_space address size) = 0.
Proof. done. Qed.

(** One buffer per 16 MiB. *)
Definition ex_workspace : pbns_attestation_workspace :=
  mk_attestation_workspace (ex_space 16777216 PBNS_INVENTORY_ENCODED_MAX_SIZE) (ex_space 33554432 PBNS_ATTESTATION_SELECTION_WORKSPACE_SIZE)
    (ex_space 50331648 PBNS_ATTESTATION_QUOTE_MAX_SIZE) (ex_space 67108864 PBNS_ATTESTATION_QUOTE_SIGNATURE_MAX_SIZE)
    (ex_space 83886080 PBNS_ATTESTATION_EVIDENCE_MAX_SIZE) (ex_space 100663296 PBNS_ATTESTATION_SIGNED_MAX_SIZE)
    (ex_space 117440512 PBNS_ATTESTATION_ENCRYPTED_MAX_SIZE) (ex_space 134217728 PBNS_ATTESTATION_AAD_MAX_SIZE).

Definition ex_attempt : attempt (W := nat) :=
  mk_attempt 512
    (mk_submission nat (Some zero_report) (Some ex_measured) (mk_view 600 [1]) (mk_view 700 [2]) (Some ex_provider) (Some ex_provider) (Some (sb_sha256 ex_parts))
       (Some (sb_quote ex_parts)) (Some (sb_consume ex_parts)) (Some (sb_send_data ex_parts)) (ex_space 800 32) 0 0 0 0 (1, 8) (1, 8) (0, 0) (0, 0) (0, 0) (0, 0))
    ex_parts ex_workspace (mk_submission_places (10, 1) (12, 1) (14, 1) (16, 1) (18, 1) (20, 1) (22, 1)).

Lemma ex_attempts_given : Forall (attempt_given ex_challenge) [ex_attempt; ex_attempt].
Proof. repeat (apply Forall_cons_2; [split; [exact ex_parts_laws|exact ex_parts_given]|]). apply Forall_nil_2. Qed.

Lemma ex_attempt_usable :
  @submission_arguments_valid nat x86_64 ex_challenge (at_submission ex_attempt) (at_parts ex_attempt) (at_buffers ex_attempt) (at_where ex_attempt) = true.
Proof.
  unfold submission_arguments_valid, workspace_layout_valid. cbn [at_submission at_parts at_buffers at_where ex_attempt as_evidence_digest].
  unfold workspace_buffers, buffers_apart, buffer_is_valid, buffer_range, ex_workspace.
  cbn [aw_inventory aw_selection aw_quote aw_quote_signature aw_evidence aw_signed_evidence aw_ciphertext aw_aad existsb].
  rewrite !ex_space_cap, !(fun a n => proj1 (ex_space_at a n)), !(fun a n => proj2 (ex_space_at a n)) by done. vm_compute. reflexivity.
Qed.

