(* ===== verification/AttestationRun.v ===== *)
(** * A run of attestation ([include/pbns/attestation_run.h], [src/core/attestation_run.c])

    The whole exchange: a challenge is asked for and accepted, the platform is
    captured, evidence is submitted through the upload adapter, the receipt is
    checked, and only then a verdict is shown.  Every step is gated by a deadline and
    by the user, and everything is wiped at the end. *)

From stdpp Require Import base list numbers.
From Stdlib Require Import ZArith Lia.
From S2P Require Import Prelude Endian Status Buffers Cbor CborTree Compare Crypto Frame Stream RecordReader Broker TrustedTime MeasuredBoot Inventory Step Identity AttestationWire AttestationUpload AttestationReceipt AttestationChallenge AttestationEvidence AttestationSubmit.

Definition PBNS_ATTESTATION_RUN_KID_MAX_SIZE : Z := 64.
Definition PBNS_NS_PER_MS : Z := 1000000.

(** ** Data *)

Record pbns_attestation_run_result := mk_run_result {
  nr_verdict : Z;
  nr_reasons : list Z;
  nr_reason_count : Z;
  nr_display_state : Z;
}.

Definition zero_run_result : pbns_attestation_run_result := mk_run_result 0 (replicate 16 0) 0 0.

(** Each callback gives what it stores through its pointers; the contents of a scratch
    buffer or an arena are not read by the run. *)
Record pbns_attestation_run_ops (W : Type) := mk_run_ops {
  ro_trusted_time : ptr (W -> pbns_status * pbns_time_interval * W);
  ro_monotonic_ms : ptr (W -> pbns_status * Z * W);
  ro_cancel_requested : ptr (W -> pbns_status * bool * W);
  ro_capture_inventory : ptr (W -> pbns_buffer -> pbns_status * pbns_inventory_report * W);
  ro_capture_measured : ptr (W -> pbns_measured_boot_selection -> pbns_buffer -> pbns_status * pbns_measured_boot_evidence * W);
  ro_display_authenticated : ptr (W -> pbns_attestation_run_result -> pbns_status * W);
}.
Arguments mk_run_ops {W}.
Arguments ro_trusted_time {W}.
Arguments ro_monotonic_ms {W}.
Arguments ro_cancel_requested {W}.
Arguments ro_capture_inventory {W}.
Arguments ro_capture_measured {W}.
Arguments ro_display_authenticated {W}.

(** The broker is an argument of its own.  Its model keeps no contexts: the
    configuration has the addresses of those of its transport and its platform. *)
Record pbns_attestation_run_config (W : Type) := mk_run_config {
  rc_broker_transport_context : Z;
  rc_broker_platform_context : Z;
  rc_broker_transport_context_region : Z * Z;
  rc_broker_platform_context_region : Z * Z;
  rc_identity_assurance : Z;
  rc_host_fingerprint : bytes;
  rc_recipient_kid : pbns_view;
  rc_challenge_kid : pbns_view;
  rc_receipt_kid : pbns_view;
  rc_ak_name : pbns_view;
  rc_ak_reference : pbns_view;
  rc_challenge_verifier : ptr (pbns_crypto W);
  rc_receipt_verifier : ptr (pbns_crypto W);
  rc_challenge_verifier_context_region : Z * Z;
  rc_receipt_verifier_context_region : Z * Z;
  rc_submission_template : pbns_attestation_submission W;
  rc_ops : pbns_attestation_run_ops W;
  rc_context : Z;
  rc_context_region : Z * Z;
  rc_timeout_ms : Z;
}.
Arguments mk_run_config {W}.
Arguments rc_broker_transport_context {W}.
Arguments rc_broker_platform_context {W}.
Arguments rc_broker_transport_context_region {W}.
Arguments rc_broker_platform_context_region {W}.
Arguments rc_identity_assurance {W}.
Arguments rc_host_fingerprint {W}.
Arguments rc_recipient_kid {W}.
Arguments rc_challenge_kid {W}.
Arguments rc_receipt_kid {W}.
Arguments rc_ak_name {W}.
Arguments rc_ak_reference {W}.
Arguments rc_challenge_verifier {W}.
Arguments rc_receipt_verifier {W}.
Arguments rc_challenge_verifier_context_region {W}.
Arguments rc_receipt_verifier_context_region {W}.
Arguments rc_submission_template {W}.
Arguments rc_ops {W}.
Arguments rc_context {W}.
Arguments rc_context_region {W}.
Arguments rc_timeout_ms {W}.

Record pbns_attestation_run_workspace := mk_run_workspace {
  nw_issue_wire : pbns_buffer;
  nw_issue_canonical : pbns_buffer;
  nw_submit_wire : pbns_buffer;
  nw_submit_canonical : pbns_buffer;
  nw_challenge : pbns_attestation_challenge_workspace;
  nw_inventory_variable_scratch : pbns_buffer;
  nw_event_log_arena : pbns_buffer;
  nw_attestation : pbns_attestation_workspace;
  nw_receipt : pbns_attestation_receipt_workspace;
  nw_evidence_digest : pbns_buffer;
}.

(** Where the structures of the call and of its frame lie. *)
Record run_places := mk_run_places {
  pl_config : Z * Z;
  pl_workspace : Z * Z;
  pl_result : Z * Z;
  pl_broker : Z * Z;
  pl_transport_ops : Z * Z;
  pl_platform_ops : Z * Z;
  pl_challenge_verifier : Z * Z;
  pl_receipt_verifier : Z * Z;
  pl_challenge_verifier_ops : Z * Z;
  pl_receipt_verifier_ops : Z * Z;
  pl_host_signer : Z * Z;
  pl_host_signer_ops : Z * Z;
  pl_recipient_encrypter : Z * Z;
  pl_recipient_encrypter_ops : Z * Z;
  pl_host_fingerprint : Z;
  pl_static : Z;
  pl_request_id : Z;
  pl_recipient_kid : Z;
  pl_accept : challenge_places;
  pl_submit : submission_places;
  pl_consume : Z * Z;
  pl_send : Z * Z;
}.

(** What the run is given once no pointer is [NULL]. *)
Record run_parts (W : Type) := mk_run_parts {
  rp_challenge_verifier : pbns_crypto W;
  rp_receipt_verifier : pbns_crypto W;
  rp_signer : pbns_crypto W;
  rp_encrypter : pbns_crypto W;
  rp_sha256 : W -> pbns_view -> pbns_status * bytes * W;
  rp_quote : W -> pbns_measured_boot_selection -> bytes -> pbns_buffer -> pbns_buffer -> pbns_status * bytes * Z * bytes * Z * W;
  rp_trusted_time : W -> pbns_status * pbns_time_interval * W;
  rp_monotonic_ms : W -> pbns_status * Z * W;
  rp_cancel_requested : W -> pbns_status * bool * W;
  rp_capture_inventory : W -> pbns_buffer -> pbns_status * pbns_inventory_report * W;
  rp_capture_measured : W -> pbns_measured_boot_selection -> pbns_buffer -> pbns_status * pbns_measured_boot_evidence * W;
  rp_display : W -> pbns_attestation_run_result -> pbns_status * W;
}.
Arguments mk_run_parts {W}.
Arguments rp_challenge_verifier {W}.
Arguments rp_receipt_verifier {W}.
Arguments rp_signer {W}.
Arguments rp_encrypter {W}.
Arguments rp_sha256 {W}.
Arguments rp_quote {W}.
Arguments rp_trusted_time {W}.
Arguments rp_monotonic_ms {W}.
Arguments rp_cancel_requested {W}.
Arguments rp_capture_inventory {W}.
Arguments rp_capture_measured {W}.
Arguments rp_display {W}.

Definition run_parts_of {W} (config : pbns_attestation_run_config W) : option (run_parts W) :=
  challenge_verifier ← rc_challenge_verifier config; receipt_verifier ← rc_receipt_verifier config;
  signer ← as_host_signer (rc_submission_template config); encrypter ← as_recipient_encrypter (rc_submission_template config);
  sha256 ← as_sha256 (rc_submission_template config); quote ← as_quote (rc_submission_template config);
  trusted_time ← ro_trusted_time (rc_ops config); monotonic_ms ← ro_monotonic_ms (rc_ops config);
  cancel_requested ← ro_cancel_requested (rc_ops config); capture_inventory ← ro_capture_inventory (rc_ops config);
  capture_measured ← ro_capture_measured (rc_ops config); display ← ro_display_authenticated (rc_ops config);
  Some (mk_run_parts challenge_verifier receipt_verifier signer encrypter sha256 quote trusted_time monotonic_ms cancel_requested
          capture_inventory capture_measured display).

(** ** Checks on the arguments *)

Section checks.
Context {W : Type} `{Machine}.

Definition kid_valid (kid : pbns_view) : bool :=
  view_is_valid kid && (0 <? v_len kid) && (v_len kid <=? PBNS_ATTESTATION_RUN_KID_MAX_SIZE).

Definition null_region (region : Z * Z) : bool := (fst region =? 0) && (snd region =? 0).

Definition clean_template (submission : pbns_attestation_submission W) : bool :=
  negb (not_null (as_inventory_report submission)) && negb (not_null (as_measured_boot submission))
  && null_region (view_range (as_ak_name submission)) && null_region (view_range (as_ak_reference submission))
  && negb (not_null (as_consume submission)) && negb (not_null (as_send_data submission))
  && (as_consume_context submission =? 0) && (as_send_context submission =? 0)
  && null_region (as_consume_context_region submission) && null_region (as_send_context_region submission)
  && (b_ptr (as_evidence_digest submission) =? 0) && (b_len (as_evidence_digest submission) =? 0) && (b_cap (as_evidence_digest submission) =? 0).

Definition crypto_valid {F : Type} (crypto : pbns_crypto W) (select : pbns_crypto_ops W -> ptr F) (region : Z * Z) : bool :=
  not_null (provider (Some crypto) select) && context_region_valid (cy_context crypto) region.

Definition broker_valid (config : pbns_attestation_run_config W) (broker : pbns_broker W) : bool :=
  k_initialized broker && negb (k_active broker) && negb (k_opened broker) && transport_is_valid (k_transport broker)
  && platform_is_valid (k_platform broker)
  && negb (rc_broker_transport_context config =? 0) && negb (rc_broker_platform_context config =? 0)
  && context_region_valid (rc_broker_transport_context config) (rc_broker_transport_context_region config)
  && context_region_valid (rc_broker_platform_context config) (rc_broker_platform_context_region config).

Definition config_valid (config : pbns_attestation_run_config W) (parts : run_parts W) (broker : pbns_broker W) : bool :=
  let template := rc_submission_template config in
  broker_valid config broker && (rc_identity_assurance config =? PBNS_IDENTITY_TPM_UNVERIFIED_EK) && ct_nonzero (rc_host_fingerprint config)
  && kid_valid (rc_recipient_kid config) && kid_valid (rc_challenge_kid config) && kid_valid (rc_receipt_kid config)
  && view_is_valid (rc_ak_name config) && negb (v_len (rc_ak_name config) =? 0) && (v_len (rc_ak_name config) <=? PBNS_ATTESTATION_AK_NAME_MAX_SIZE)
  && view_is_valid (rc_ak_reference config) && negb (v_len (rc_ak_reference config) =? 0)
  && (v_len (rc_ak_reference config) <=? PBNS_ATTESTATION_AK_REFERENCE_MAX_SIZE)
  && crypto_valid (rp_challenge_verifier parts) co_sign1_verify_profile (rc_challenge_verifier_context_region config)
  && crypto_valid (rp_receipt_verifier parts) co_sign1_verify (rc_receipt_verifier_context_region config)
  && crypto_valid (rp_signer parts) co_sign1_sign (as_host_signer_context_region template)
  && crypto_valid (rp_encrypter parts) co_encrypt_for_recipient (as_recipient_encrypter_context_region template)
  && negb (as_sha256_context template =? 0) && negb (as_quote_context template =? 0)
  && context_region_valid (as_sha256_context template) (as_sha256_context_region template)
  && context_region_valid (as_quote_context template) (as_quote_context_region template)
  && clean_template template && negb (rc_context config =? 0) && context_region_valid (rc_context config) (rc_context_region config)
  && negb (rc_timeout_ms config =? 0).

Definition collect_buffers (ws : pbns_attestation_run_workspace) : list pbns_buffer :=
  [nw_issue_wire ws; nw_issue_canonical ws; nw_submit_wire ws; nw_submit_canonical ws; cw_canonical (nw_challenge ws); cw_aad (nw_challenge ws);
   nw_inventory_variable_scratch ws; nw_event_log_arena ws] ++ workspace_buffers (nw_attestation ws)
  ++ [rw_canonical_payload (nw_receipt ws); rw_canonical_cose (nw_receipt ws)].

Definition extra_buffers (ws : pbns_attestation_run_workspace) : list pbns_buffer := [rw_aad (nw_receipt ws); nw_evidence_digest ws].

Definition run_capacities : list Z :=
  [PBNS_ATTESTATION_WIRE_MAX_SIZE; PBNS_ATTESTATION_WIRE_MAX_SIZE; PBNS_ATTESTATION_WIRE_MAX_SIZE; PBNS_ATTESTATION_WIRE_MAX_SIZE;
   PBNS_ATTESTATION_CHALLENGE_MAX_SIZE; PBNS_ATTESTATION_AAD_MAX_SIZE; PBNS_INVENTORY_VARIABLE_MAX_SIZE; PBNS_MEASURED_BOOT_EVENT_LOG_MAX_SIZE]
  ++ workspace_capacities
  ++ [PBNS_ATTESTATION_RECEIPT_MAX_PAYLOAD_SIZE; PBNS_ATTESTATION_RECEIPT_MAX_SIGNED_SIZE; PBNS_ATTESTATION_RECEIPT_MAX_AAD_SIZE; PBNS_ATTESTATION_DIGEST_SIZE].

Definition capacities_valid (ws : pbns_attestation_run_workspace) : bool :=
  forallb (fun '(buffer, capacity) => buffer_is_valid buffer && (b_cap buffer =? capacity)) (zip (collect_buffers ws ++ extra_buffers ws) run_capacities).

(** The inputs before and after the result, which is the third of them. *)
Definition run_inputs_before (places : run_places) : list (Z * Z) := [pl_config places; pl_workspace places].

Definition run_inputs_after (config : pbns_attestation_run_config W) (broker : pbns_broker W) (places : run_places) : list (Z * Z) :=
  let template := rc_submission_template config in
  [pl_broker places; pl_transport_ops places; pl_platform_ops places; rc_broker_transport_context_region config; rc_broker_platform_context_region config;
   view_range (rc_recipient_kid config); view_range (rc_challenge_kid config); view_range (rc_receipt_kid config); view_range (rc_ak_name config);
   view_range (rc_ak_reference config); pl_challenge_verifier places; pl_receipt_verifier places; pl_challenge_verifier_ops places;
   pl_receipt_verifier_ops places; pl_host_signer places; pl_host_signer_ops places; pl_recipient_encrypter places; pl_recipient_encrypter_ops places;
   rc_challenge_verifier_context_region config; rc_receipt_verifier_context_region config; rc_context_region config;
   as_host_signer_context_region template; as_recipient_encrypter_context_region template; as_sha256_context_region template;
   as_quote_context_region template; buffer_range (st_encoded (k_storage broker)); buffer_range (st_raw_scratch (k_storage broker));
   buffer_range (st_receive (k_storage broker)); buffer_range (st_decoded (k_storage broker))].

Definition clear_of (range : Z * Z) (others : list (Z * Z)) : bool := negb (existsb (regions_overlap range) others).

(** The loop over the buffers: apart from the result, the buffers before, the inputs and the extra buffers. *)
Fixpoint run_buffers_apart (before : list (Z * Z)) (result : Z * Z) (inputs extra : list (Z * Z)) (buffers : list pbns_buffer) : bool :=
  match buffers with
  | [] => true
  | buffer :: buffers =>
      negb (regions_overlap result (buffer_range buffer)) && clear_of (buffer_range buffer) before && clear_of (buffer_range buffer) inputs
      && clear_of (buffer_range buffer) extra && run_buffers_apart (before ++ [buffer_range buffer]) result inputs extra buffers
  end.

Definition run_layout_valid (config : pbns_attestation_run_config W) (broker : pbns_broker W) (ws : pbns_attestation_run_workspace) (places : run_places) : bool :=
  let inputs := run_inputs_before places ++ [pl_result places] ++ run_inputs_after config broker places in
  let aad := buffer_range (rw_aad (nw_receipt ws)) in
  let digest := buffer_range (nw_evidence_digest ws) in
  clear_of (pl_result places) (run_inputs_before places ++ run_inputs_after config broker places)
  && run_buffers_apart [] (pl_result places) inputs [aad; digest] (collect_buffers ws)
  && negb (regions_overlap aad digest) && negb (regions_overlap (pl_result places) aad) && negb (regions_overlap (pl_result places) digest)
  && clear_of aad inputs && clear_of digest inputs.

Definition arguments_valid (config : pbns_attestation_run_config W) (parts : run_parts W) (broker : pbns_broker W) (ws : pbns_attestation_run_workspace)
    (places : run_places) : bool :=
  config_valid config parts broker && capacities_valid ws && run_layout_valid config broker ws places.

(** ** Helpers *)

Definition run_wipe_buffer (buffer : pbns_buffer) : pbns_buffer :=
  if b_ptr buffer =? 0 then buffer else with_data buffer (replicate (length (b_data buffer)) 0).

Definition wipe_run_workspace (ws : pbns_attestation_run_workspace) : pbns_attestation_run_workspace :=
  let a := nw_attestation ws in
  mk_run_workspace (run_wipe_buffer (nw_issue_wire ws)) (run_wipe_buffer (nw_issue_canonical ws)) (run_wipe_buffer (nw_submit_wire ws))
    (run_wipe_buffer (nw_submit_canonical ws))
    (mk_challenge_workspace (run_wipe_buffer (cw_canonical (nw_challenge ws))) (run_wipe_buffer (cw_aad (nw_challenge ws))))
    (run_wipe_buffer (nw_inventory_variable_scratch ws)) (run_wipe_buffer (nw_event_log_arena ws))
    (mk_attestation_workspace (run_wipe_buffer (aw_inventory a)) (run_wipe_buffer (aw_selection a)) (run_wipe_buffer (aw_quote a))
       (run_wipe_buffer (aw_quote_signature a)) (run_wipe_buffer (aw_evidence a)) (run_wipe_buffer (aw_signed_evidence a))
       (run_wipe_buffer (aw_ciphertext a)) (run_wipe_buffer (aw_aad a)))
    (mk_receipt_workspace (run_wipe_buffer (rw_canonical_payload (nw_receipt ws))) (run_wipe_buffer (rw_canonical_cose (nw_receipt ws)))
       (run_wipe_buffer (rw_aad (nw_receipt ws))))
    (run_wipe_buffer (nw_evidence_digest ws)).

Definition view_contained_in_buffer (view : pbns_view) (buffer : pbns_buffer) : bool :=
  if (v_ptr view =? 0) || (v_len view =? 0) || (b_ptr buffer =? 0) || (b_cap buffer =? 0) then false
  else if (v_ptr view <? b_ptr buffer) || (UINTPTR_MAX - v_ptr view <? v_len view) || (UINTPTR_MAX - b_ptr buffer <? b_cap buffer) then false
  else v_ptr view + v_len view <=? b_ptr buffer + b_cap buffer.

Definition saturating_add (left right : Z) : Z := if UINT64_MAX - left <? right then UINT64_MAX else left + right.

Definition challenge_deadline (start_ms : Z) (trusted_time : pbns_time_interval) (challenge : pbns_attestation_challenge) (global_deadline : Z) : Z :=
  let latest := u64 (ti_latest_ns trusted_time) in
  let delta_ns := u64 (ch_expiry_ns challenge - latest) in
  let expiry_deadline := saturating_add start_ms (delta_ns / PBNS_NS_PER_MS) in
  if expiry_deadline <? global_deadline then expiry_deadline else global_deadline.

Definition copy_result (source : pbns_attestation_receipt_result) : option pbns_attestation_run_result :=
  reasons ← rd_slice (rr_reasons source) 0 (rr_reason_count source);
  reasons ← wr_list (replicate 16 0) 0 reasons;
  Some (mk_run_result (rr_verdict source) reasons (rr_reason_count source) (rr_display_state source)).

Context (parts : run_parts W).

(** The status, the milliseconds left and the world. *)
Definition remaining_ms (deadline_ms : Z) (w : W) : pbns_status * Z * W :=
  let '(status, now, w) := rp_monotonic_ms parts w in
  if negb (is_ok status) then (status, 0, w)
  else if deadline_ms <=? now then (PBNS_ERR_TIMEOUT, 0, w)
  else
  let amount := deadline_ms - now in
  (PBNS_OK, if UINT32_MAX <? amount then UINT32_MAX else u32 amount, w).

Definition gate (deadline_ms : Z) (w : W) : pbns_status * Z * W :=
  let '(status, cancelled, w) := rp_cancel_requested parts w in
  if negb (is_ok status) then (status, 0, w)
  else if cancelled : bool then (PBNS_ERR_STATE, 0, w)
  else remaining_ms deadline_ms w.
End checks.

(** ** The submission inside a run

    The callbacks of the submission act on the upload, on whether the nonce was
    consumed, on the broker and on the world.  A broker that faults or runs out of fuel
    leaves no such state, and then the run has no result. *)

Section run.
Context `{Q : QCBORSpiffy} {W : Type} `{Machine} (parts : run_parts W).

Definition run_world : Type := option (pbns_attestation_upload * bool * (pbns_broker W * W)).

(** A callback of the caller, which sees only the world. *)
Definition in_run {A} (lost : A) (f : W -> pbns_status * A * W) (y : run_world) : pbns_status * A * run_world :=
  match y with
  | None => (PBNS_ERR_IO, lost, None)
  | Some (u, consumed, (b, w)) => let '(status, x, w) := f w in (status, x, Some (u, consumed, (b, w)))
  end.

Definition run_sha256 (y : run_world) (input : pbns_view) : pbns_status * bytes * run_world :=
  in_run (replicate 32 0) (fun w => rp_sha256 parts w input) y.

Definition run_quote (y : run_world) (selection : pbns_measured_boot_selection) (qualifying : bytes) (quote signature : pbns_buffer)
  : pbns_status * bytes * Z * bytes * Z * run_world :=
  let '(status, (data, size, signature_data, signature_size), y) :=
    in_run (b_data quote, 0, b_data signature, 0)
      (fun w => let '(status, data, size, signature_data, signature_size, w) := rp_quote parts w selection qualifying quote signature in
                (status, (data, size, signature_data, signature_size), w)) y in
  (status, data, size, signature_data, signature_size, y).

(** A producer of octets for an output buffer. *)
Definition run_output (output : pbns_buffer) (f : W -> pbns_status * bytes * Z * W) (y : run_world) : pbns_status * bytes * Z * run_world :=
  let '(status, (data, size), y) :=
    in_run (b_data output, 0) (fun w => let '(status, data, size, w) := f w in (status, (data, size), w)) y in
  (status, data, size, y).

Definition run_crypto (crypto : pbns_crypto W) : pbns_crypto run_world :=
  mk_crypto ((fun ops => mk_crypto_ops
      ((fun f y payload aad output => run_output output (fun w => f w payload aad output) y) <$> co_sign1_sign ops)
      None None None
      ((fun f y kid plaintext aad output => run_output output (fun w => f w kid plaintext aad output) y) <$> co_encrypt_for_recipient ops)
      None) <$> cy_ops crypto) (cy_context crypto).

Definition consume_once (request_id nonce : bytes) (y : run_world) (id verifier_nonce : bytes) : pbns_status * run_world :=
  match y with
  | None => (PBNS_ERR_IO, None)
  | Some (u, consumed, c) =>
      if consumed || negb (ct_equal id request_id) || negb (ct_equal verifier_nonce nonce) then (PBNS_ERR_STATE, y)
      else (PBNS_OK, Some (u, true, c))
  end.

Definition set_timeout_ms (x : Z) (u : pbns_attestation_upload) : pbns_attestation_upload :=
  mk_upload (au_request_id u) (au_encoded_request u) (au_response_payload u) x (au_next_sequence u) (au_started u) (au_response_received u)
    (au_finished u) (au_cancelled u).

Definition send_with_gate (fuel : nat) (deadline_ms : Z) (y : run_world) (request_id : bytes) (sequence : Z) (payload : pbns_view) (final_record : bool)
  : pbns_status * run_world :=
  match y with
  | None => (PBNS_ERR_IO, None)
  | Some (u, consumed, (b, w)) =>
      let '(status, remaining, w) := gate parts deadline_ms w in
      if negb (is_ok status) then (status, Some (u, consumed, (b, w)))
      else
      let u := if negb (au_started u) then set_timeout_ms remaining u else u in
      match attestation_upload_send fuel u request_id sequence payload final_record (b, w) with
      | Ret (status, u, c) => (status, Some (u, consumed, c))
      | _ => (PBNS_ERR_IO, None)
      end
  end.

Definition run_submission_parts (fuel : nat) (deadline_ms : Z) (challenge : pbns_attestation_challenge) (inventory : pbns_inventory_report)
    (measured : pbns_measured_boot_evidence) : submission_parts run_world :=
  mk_parts inventory measured (run_crypto (rp_signer parts)) (run_crypto (rp_encrypter parts)) run_sha256 run_quote
    (consume_once (ch_request_id challenge) (ch_verifier_nonce challenge)) (send_with_gate fuel deadline_ms).

(** The template, filled in. *)
Definition run_submission (config : pbns_attestation_run_config W) (places : run_places) (evidence_digest : pbns_buffer) (p : submission_parts run_world)
  : pbns_attestation_submission run_world :=
  let template := rc_submission_template config in
  mk_submission run_world (Some (sb_report p)) (Some (sb_measured p)) (rc_ak_name config) (rc_ak_reference config) (Some (sb_signer p)) (Some (sb_encrypter p))
    (Some (sb_sha256 p)) (Some (sb_quote p)) (Some (sb_consume p)) (Some (sb_send_data p)) evidence_digest
    (as_sha256_context template) (as_quote_context template) (fst (pl_consume places)) (fst (pl_send places))
    (as_host_signer_context_region template) (as_recipient_encrypter_context_region template) (as_sha256_context_region template)
    (as_quote_context_region template) (pl_consume places) (pl_send places).

(** ** The steps *)

Definition run_step (A : Type) : Type := step pbns_attestation_upload (pbns_broker W * W) A.

Definition outcome {A} (status : pbns_status) (x : A) : pbns_status + A := if is_ok status then inr x else inl status.

Definition outside {A} (f : W -> pbns_status * A * W) : run_step A := fun u '(b, w) =>
  let '(status, x, w) := f w in Some (outcome status x, u, (b, w)).

Definition inside {A} (result : option (pbns_status * A)) : run_step A := fun u c => '(status, x) ← result; Some (outcome status x, u, c).

Definition run_guard (condition : bool) (status : pbns_status) : run_step unit := if condition then ret_step tt else end_step status.

(** A part of memory, when it exists. *)
Definition memory {A} (x : option A) : run_step A := fun u c => y ← x; Some (inr y, u, c).

Definition on_broker {A} (m : M W (pbns_status * A)) : run_step A := fun u c =>
  match m c with Ret (status, x, c) => Some (outcome status x, u, c) | _ => None end.

Definition on_upload (m : pbns_attestation_upload -> M W (pbns_status * pbns_attestation_upload)) : run_step unit := fun u c =>
  match m u c with Ret (status, u, c) => Some (outcome status tt, u, c) | _ => None end.

Context (fuel : nat) (config : pbns_attestation_run_config W) (ws : pbns_attestation_run_workspace) (places : run_places).

Definition host_view : pbns_view := mk_view (pl_host_fingerprint places) (rc_host_fingerprint config).

Definition same_kid (kid : pbns_view) : bool := (v_len kid =? v_len (rc_recipient_kid config)) && ct_equal (v_data kid) (v_data (rc_recipient_kid config)).

Definition time_ordered (time : pbns_time_interval) : bool :=
  negb ((ti_earliest_ns time <? 0) || (ti_latest_ns time <? 0) || (ti_latest_ns time <? ti_earliest_ns time)).

(** The answer to the request for a challenge. *)
Definition ask_challenge (timeout : Z) : run_step pbns_attestation_wire_response :=
  let '(status, data, written) := wire_encode_issue_request (pl_static places) host_view (nw_issue_wire ws) in
  let* _ := inside (Some (status, tt)) in
  let* request := memory (rd_slice data 0 written) in
  let* response := on_broker (broker_request fuel PBNS_SERVICE_PLATFORM_ATTESTATION None (mk_view (b_ptr (nw_issue_wire ws)) request) timeout) in
  let payload := v_data (rs_payload response) in
  let* _ := run_guard (negb (b_cap (nw_issue_wire ws) <? zlen payload)) PBNS_ERR_LIMIT in
  let* data := memory (wr_list data 0 payload) in
  let* octets := memory (rd_slice data 0 (zlen payload)) in
  let* issue := inside (let '(status, _, issue) :=
    wire_decode_issue_response (mk_view (b_ptr (nw_issue_wire ws)) octets) (nw_issue_canonical ws) zero_wire_response in Some (status, issue)) in
  let* _ := run_guard (same_kid (wr_recipient_kid issue)) PBNS_ERR_AUTHENTICATION in
  ret_step issue.

Definition run_expected (issue : pbns_attestation_wire_response) : pbns_attestation_challenge_expected :=
  mk_challenge_expected (wr_challenge_request_id issue) (rc_host_fingerprint config) (wr_verifier_nonce issue) (rc_recipient_kid config) (rc_challenge_kid config).

(** The challenge and the deadline that its expiry leaves. *)
Definition take_challenge (start_ms deadline_ms : Z) (issue : pbns_attestation_wire_response) : run_step (pbns_attestation_challenge * Z) :=
  let* time := outside (rp_trusted_time parts) in
  let* _ := run_guard (time_ordered time) PBNS_ERR_AUTHENTICATION in
  let* _ := outside (gate parts deadline_ms) in
  let* challenge := (fun u '(b, w) =>
    '(status, _, challenge, w) ← accept_challenge (rp_challenge_verifier parts) (wr_object issue) (run_expected issue) time (nw_challenge ws) zero_challenge
      (pl_accept places) w;
    Some (outcome status challenge, u, (b, w))) in
  let deadline_ms := challenge_deadline start_ms time challenge deadline_ms in
  let* _ := outside (gate parts deadline_ms) in
  ret_step (challenge, deadline_ms).

(** The inventory, the measured boot and the time left. *)
Definition capture_platform (deadline_ms : Z) (challenge : pbns_attestation_challenge)
  : run_step (pbns_inventory_report * pbns_measured_boot_evidence * Z) :=
  let* inventory := outside (fun w => rp_capture_inventory parts w (nw_inventory_variable_scratch ws)) in
  let* _ := outside (gate parts deadline_ms) in
  let* _ := outside (gate parts deadline_ms) in
  let* measured := outside (fun w => rp_capture_measured parts w (challenge_selection challenge) (nw_event_log_arena ws)) in
  let* _ := run_guard (view_contained_in_buffer (me_event_log measured) (nw_event_log_arena ws)) PBNS_ERR_ARGUMENT in
  let* timeout := outside (gate parts deadline_ms) in
  ret_step (inventory, measured, timeout).

Definition challenge_id_view (challenge : pbns_attestation_challenge) : pbns_view := mk_view (pl_request_id places) (ch_request_id challenge).

(** The digest of the evidence that was submitted; the upload is the one that was used. *)
Definition submit_evidence (deadline_ms timeout : Z) (challenge : pbns_attestation_challenge) (inventory : pbns_inventory_report)
    (measured : pbns_measured_boot_evidence) : run_step bytes :=
  let '(status, data, written) := wire_encode_submit_request (pl_static places) (challenge_id_view challenge) (nw_submit_wire ws) in
  let* _ := inside (Some (status, tt)) in
  let* request := memory (rd_slice data 0 written) in
  let upload := mk_upload (ch_request_id challenge) (mk_view (b_ptr (nw_submit_wire ws)) request) null_view timeout 0 false false false false in
  let p := run_submission_parts fuel deadline_ms challenge inventory measured in
  fun _ c =>
    '(status, _, digest, _, y) ← attestation_submit challenge (pl_recipient_kid places) (run_submission config places (nw_evidence_digest ws) p) p
      (nw_attestation ws) (pl_submit places) (Some (upload, false, c));
    '(u, consumed, c) ← y;
    Some (if negb (is_ok status) then inl status else if negb consumed || negb (au_response_received u) then inl PBNS_ERR_STATE else inr (b_data digest), u, c).

Definition run_expectation (challenge : pbns_attestation_challenge) (digest baseline_id : bytes) : pbns_attestation_receipt_expectation :=
  mk_receipt_expectation (ch_request_id challenge) (ch_verifier_nonce challenge) (rc_host_fingerprint config) digest baseline_id (rc_receipt_kid config).

(** The verdict of the receipt. *)
Definition check_receipt (deadline_ms : Z) (challenge : pbns_attestation_challenge) (digest : bytes) : run_step pbns_attestation_run_result :=
  let* answer := (fun u c => Some (inr (au_response_payload u), u, c)) in
  let* response := inside (let '(status, _, response) :=
    wire_decode_submit_response answer (challenge_id_view challenge) (nw_submit_canonical ws) zero_wire_response in Some (status, response)) in
  let* _ := run_guard (ct_equal (wr_evidence_digest response) digest) PBNS_ERR_AUTHENTICATION in
  let* receipt := (fun u '(b, w) =>
    '(status, _, receipt, w) ← receipt_verify (rp_receipt_verifier parts) (wr_object response) (run_expectation challenge digest (wr_baseline_id response))
      (nw_receipt ws) w;
    Some (outcome status receipt, u, (b, w))) in
  let* _ := outside (gate parts deadline_ms) in
  let* staged := memory (copy_result receipt) in
  let* _ := on_upload attestation_upload_finish in
  ret_step staged.

Definition run_steps : run_step pbns_attestation_run_result :=
  let* start_ms := outside (rp_monotonic_ms parts) in
  let deadline_ms := saturating_add start_ms (rc_timeout_ms config) in
  let* timeout := outside (gate parts deadline_ms) in
  let* issue := ask_challenge timeout in
  let* (challenge, deadline_ms) := take_challenge start_ms deadline_ms issue in
  let* (inventory, measured, timeout) := capture_platform deadline_ms challenge in
  let* digest := submit_evidence deadline_ms timeout challenge inventory measured in
  check_receipt deadline_ms challenge digest.
End run.

(** ** The run *)

Section entry.
Context `{Q : QCBORSpiffy} {W : Type} `{Machine}.

Definition clear_decoded (b : pbns_broker W) : pbns_broker W :=
  let s := k_storage b in
  let decoded := run_wipe_buffer (st_decoded s) in
  Broker.set_storage (Broker.mk_storage (st_encoded s) (st_raw_scratch s) (st_receive s) (mk_buffer (b_ptr decoded) 0 (b_data decoded))) b.

(** The status, the result, the workspace, the broker and the world. *)
Definition attestation_run (fuel : nat) (config : pbns_attestation_run_config W) (parts : run_parts W) (broker : pbns_broker W)
    (ws : pbns_attestation_run_workspace) (places : run_places) (result : pbns_attestation_run_result) (w : W)
  : option (pbns_status * pbns_attestation_run_result * pbns_attestation_run_workspace * pbns_broker W * W) :=
  if negb (arguments_valid config parts broker ws places) then Some (PBNS_ERR_ARGUMENT, result, ws, broker, w)
  else
  let ws := wipe_run_workspace ws in
  '(outcome, upload, c) ← run_steps parts fuel config ws places zero_upload (broker, w);
  '(broker, w) ← match outcome with
    | inl _ =>
        if au_started upload && negb (au_finished upload) && negb (au_cancelled upload)
        then match attestation_upload_cancel upload c with Ret (_, _, c) => Some c | _ => None end
        else Some c
    | inr _ => Some c
    end;
  let broker := clear_decoded broker in
  let ws := wipe_run_workspace ws in
  match outcome with
  | inl status => Some (status, zero_run_result, ws, broker, w)
  | inr staged =>
      let '(status, w) := rp_display parts w staged in
      Some (if negb (is_ok status) then status else if nr_verdict staged =? PBNS_ATTESTATION_RECEIPT_FAILURE then PBNS_ERR_AUTHENTICATION else PBNS_OK,
            staged, ws, broker, w)
  end.

Definition pbns_attestation_run (fuel : nat) (config : ptr (pbns_attestation_run_config W)) (broker : ptr (pbns_broker W))
    (workspace : ptr pbns_attestation_run_workspace) (places : run_places) (result : ptr pbns_attestation_run_result) (w : W)
  : option (pbns_status * ptr pbns_attestation_run_result * ptr pbns_attestation_run_workspace * ptr (pbns_broker W) * W) :=
  match config, workspace, result, broker with
  | Some config, Some ws, Some res, Some b =>
      match run_parts_of config with
      | None => Some (PBNS_ERR_ARGUMENT, result, workspace, broker, w)
      | Some parts =>
          '(status, res, ws, b, w) ← attestation_run fuel config parts b ws places res w;
          Some (status, Some res, Some ws, Some b, w)
      end
  | _, _, _, _ => Some (PBNS_ERR_ARGUMENT, result, workspace, broker, w)
  end.
End entry.
