(* ===== verification/RunProps.v ===== *)
(** * A run of attestation: correctness

    A run always returns, leaves no session and no octet of it behind, and shows only a
    verdict that the pinned key signed for the challenge that was accepted and the
    evidence that was submitted in this run. *)

From stdpp Require Import base list numbers.
From Stdlib Require Import ZArith Lia.
From S2P Require Import Prelude Endian Status Buffers Cbor FlatMap CborTree Compare Crypto Frame Stream RecordReader Broker BrokerLogic BrokerReceive BrokerRequest BrokerProps BrokerBulk BrokerUpload BrokerSetup TrustedTime MeasuredBoot Inventory InventoryReport Step Identity AttestationWire AttestationUpload TreeReads AttestationReceipt ReceiptProps AttestationChallenge ChallengeProps AttestationEvidence AttestationSubmit SubmitProps AttestationRun.

(** ** Octets of messages *)

Lemma cbor_head_ok major arg : 0 <= major <= 7 -> 0 <= arg -> bytes_ok (cbor_head major arg).
Proof.
  intros Hm Ha. pose proof be_bytes_ok as Hbe. unfold cbor_head, is_byte. repeat case_match; bools; repeat (apply Forall_cons_2; [unfold is_byte; lia|]); try apply Hbe; apply Forall_nil_2.
Qed.

Definition value_octets (v : cbor_value) : Prop :=
  match v with CUInt n => 0 <= n | CInt _ => True | CText t => bytes_ok t | CBytes d => bytes_ok d end.

Lemma cbor_map_ok fields : Forall (fun p => 0 <= fst p /\ value_octets (snd p)) fields -> bytes_ok (cbor_map fields).
Proof.
  intros HF. unfold cbor_map. apply bytes_ok_app. split; [apply cbor_head_ok; lia|]. induction HF as [|[k v] fields [Hk Hv] _ IH]; [apply Forall_nil_2|]. cbn [fmap list_fmap concat].
  apply bytes_ok_app. split; [|exact IH]. unfold cbor_pair. cbn [fst snd] in *. apply bytes_ok_app. split.
  - unfold cbor_int. rewrite (proj2 (Z.ltb_ge k 0)) by done. apply cbor_head_ok; lia.
  - destruct v as [n|n|t|d]; cbn [cbor_encode value_octets] in *.
    + apply cbor_head_ok; lia.
    + unfold cbor_int. case_match; bools; apply cbor_head_ok; lia.
    + apply bytes_ok_app. split; [apply cbor_head_ok; lia|done].
    + apply bytes_ok_app. split; [apply cbor_head_ok; lia|done].
Qed.

Lemma encoded_prefix (data fields : bytes) n : n = zlen fields -> take (Z.to_nat n) data = fields -> rd_slice data 0 n = Some fields.
Proof.
  intros -> E. apply prefix_slice; [|exact E]. rewrite Nat2Z.id in E. apply (f_equal length) in E. rewrite length_take in E. lia.
Qed.

(** The field of a decoded answer is made of octets when the answer is. *)
Lemma wire_id_ok r : bytes_ok (wire_encoded r) -> bytes_ok (wr_challenge_request_id r).
Proof.
  unfold wire_encoded, cbor_map, wire_response_fields, cbor_pair. cbn [fmap list_fmap concat fst snd cbor_encode]. rewrite !bytes_ok_app. tauto.
Qed.

(** ** Logic of the steps

    A step returns, keeps an invariant of the upload, the broker and the world on every
    path, and ends with a status that is not [PBNS_OK] or goes on. *)

Section logic.
Context {W : Type}.
Implicit Types (u : pbns_attestation_upload) (c : pbns_broker W * W) (I : pbns_attestation_upload -> pbns_broker W * W -> Prop).

Definition runs {A} (m : run_step A) u c I (P : A -> pbns_attestation_upload -> pbns_broker W * W -> Prop) : Prop :=
  exists r u' c', m u c = Some (r, u', c') /\ I u' c' /\ match r with inl st => st <> PBNS_OK | inr x => P x u' c' end.

Lemma runs_bind {A B} (m : run_step A) (f : A -> run_step B) u c I R P :
  runs m u c I R -> (forall x u' c', I u' c' -> R x u' c' -> runs (f x) u' c' I P) -> runs (bind_step m f) u c I P.
Proof.
  intros (r & u1 & c1 & E & Hi & Hr) Hf. unfold runs, bind_step. rewrite E. destruct r as [st|x]; [by do 3 eexists|]. by apply Hf.
Qed.

Lemma runs_ret {A} (x : A) u c I (P : A -> _ -> _ -> Prop) : I u c -> P x u c -> runs (ret_step x) u c I P.
Proof. intros Hi HP. by exists (inr x), u, c. Qed.

Lemma runs_weaken {A} (m : run_step A) u c I J (P R : A -> _ -> _ -> Prop) :
  runs m u c I P -> (forall u' c', I u' c' -> J u' c') -> (forall x u' c', I u' c' -> P x u' c' -> R x u' c') -> runs m u c J R.
Proof. intros (r & u1 & c1 & E & Hi & Hr) HJ HR. exists r, u1, c1. split; [done|]. split; [by apply HJ|]. destruct r; [done|by apply HR]. Qed.

Lemma outcome_spec {A} st (x : A) : match outcome st x with inl s => s <> PBNS_OK | inr y => st = PBNS_OK /\ y = x end.
Proof. unfold outcome. destruct (is_ok st) eqn:E; [by apply is_ok_spec in E|by apply is_ok_false]. Qed.

Lemma runs_outcome {A} (m : run_step A) u c u' c' st x I (P : A -> _ -> _ -> Prop) :
  m u c = Some (outcome st x, u', c') -> I u' c' -> (st = PBNS_OK -> P x u' c') -> runs m u c I P.
Proof. intros E Hi HP. exists (outcome st x), u', c'. split; [done|]. split; [done|]. pose proof (outcome_spec st x). destruct (outcome st x); [done|]. destruct H as [Hst ->]. by apply HP. Qed.

(** The same, followed by the rest of the steps. *)
Lemma runs_outside {A B} (f : W -> pbns_status * A * W) (k : A -> run_step B) u b w I (P : B -> _ -> _ -> Prop) :
  (forall st x w', f w = (st, x, w') -> I u (b, w') /\ (st = PBNS_OK -> runs (k x) u (b, w') I P)) -> runs (bind_step (outside f) k) u (b, w) I P.
Proof.
  intros Hf. destruct (f w) as [[st x] w'] eqn:E. destruct (Hf _ _ _ eq_refl) as [Hi Hk]. eapply runs_bind with (R := fun y u1 c1 => st = PBNS_OK /\ y = x /\ u1 = u /\ c1 = (b, w')).
  - eapply (runs_outcome _ _ _ u (b, w') st x); [unfold outside; by rewrite E|done|done].
  - intros y u1 c1 _ (Hst & -> & -> & ->). by apply Hk.
Qed.

Lemma runs_inside {A B} (result : option (pbns_status * A)) (k : A -> run_step B) u c I (P : B -> _ -> _ -> Prop) st x :
  result = Some (st, x) -> I u c -> (st = PBNS_OK -> runs (k x) u c I P) -> runs (bind_step (inside result) k) u c I P.
Proof.
  intros -> Hi Hk. eapply runs_bind with (R := fun y u1 c1 => st = PBNS_OK /\ y = x /\ u1 = u /\ c1 = c).
  - eapply (runs_outcome _ _ _ u c st x); [done|done|done].
  - intros y u1 c1 _ (Hst & -> & -> & ->). by apply Hk.
Qed.

Lemma runs_guard {B} (condition : bool) st (k : unit -> run_step B) u c I (P : B -> _ -> _ -> Prop) :
  st <> PBNS_OK -> I u c -> (condition = true -> runs (k tt) u c I P) -> runs (bind_step (run_guard condition st) k) u c I P.
Proof. intros Hst Hi Hk. destruct condition; [by apply Hk|]. by exists (inl st), u, c. Qed.

Lemma runs_memory {A B} (m : option A) (k : A -> run_step B) u c I (P : B -> _ -> _ -> Prop) x :
  m = Some x -> runs (k x) u c I P -> runs (bind_step (memory m) k) u c I P.
Proof. intros -> Hk. exact Hk. Qed.
End logic.

(** ** What the callbacks promise

    They do not touch the connection of the broker; their outputs have the sizes of the
    arrays and buffers they fill. *)

Section laws.
Context {W : Type} (e : endpoint W) `{L : !EndpointLaws e}.

Definition measured_typed (m : pbns_measured_boot_evidence) : Prop :=
  zlen (me_pcrs m) = 24 /\ zlen (me_selection_digest m) = 32 /\ zlen (me_event_log_digest m) = 32 /\ bytes_ok (v_data (me_event_log m)).

Class RunLaws (parts : run_parts W) : Prop := {
  rl_sha256 : forall w v st d w', rp_sha256 parts w v = (st, d, w') -> zlen d = 32 /\ quiet e w w';
  rl_quote : forall w sel q qb sb st qd qn sd sn w', rp_quote parts w sel q qb sb = (st, qd, qn, sd, sn, w') ->
    length qd = length (b_data qb) /\ length sd = length (b_data sb) /\ 0 <= qn /\ 0 <= sn /\ quiet e w w';
  rl_sign : forall sign w p a b st d n w', provider (Some (rp_signer parts)) co_sign1_sign = Some sign -> sign w p a b = (st, d, n, w') ->
    length d = length (b_data b) /\ 0 <= n /\ quiet e w w';
  rl_encrypt : forall encrypt w k p a b st d n w', provider (Some (rp_encrypter parts)) co_encrypt_for_recipient = Some encrypt ->
    encrypt w k p a b = (st, d, n, w') -> length d = length (b_data b) /\ bytes_ok d /\ 0 <= n /\ quiet e w w';
  rl_verify_profile : forall verify w s a k st p w', provider (Some (rp_challenge_verifier parts)) co_sign1_verify_profile = Some verify ->
    verify w s a k = (st, p, w') -> quiet e w w';
  rl_verify : forall verify w s a st p w', provider (Some (rp_receipt_verifier parts)) co_sign1_verify = Some verify ->
    verify w s a = (st, p, w') -> quiet e w w';
  rl_time : forall w st t w', rp_trusted_time parts w = (st, t, w') -> time_typed t /\ quiet e w w';
  rl_clock : forall w st now w', rp_monotonic_ms parts w = (st, now, w') -> quiet e w w';
  rl_cancel : forall w st b w', rp_cancel_requested parts w = (st, b, w') -> quiet e w w';
  rl_inventory : forall w scratch st r w', rp_capture_inventory parts w scratch = (st, r, w') -> report_arrays r /\ quiet e w w';
  rl_measured : forall w selection arena st m w', rp_capture_measured parts w selection arena = (st, m, w') -> measured_typed m /\ quiet e w w';
  rl_display : forall w result st w', rp_display parts w result = (st, w') -> quiet e w w';
}.

Context `{M : Machine} `{Q : QCBOR}.
Implicit Types (u : pbns_attestation_upload) (b : pbns_broker W) (w : W).

(** Nothing was uploaded yet. *)
Definition ready u (c : pbns_broker W * W) : Prop := u = zero_upload /\ no_session e (fst c) (snd c) /\ deadline_bounded (fst c).

(** The upload is in one of its phases. *)
Definition active u (c : pbns_broker W * W) : Prop :=
  upload_given u /\ deadline_bounded (fst c) /\ exists payloads, upload_phase e u (fst c) (snd c) payloads.

Lemma ready_quiet u b w w' : ready u (b, w) -> quiet e w w' -> ready u (b, w').
Proof. intros (-> & (Hwf & Hi & Hl) & Hd) (E & _). unfold ready, no_session. cbn [fst snd] in *. by rewrite E. Qed.

Lemma phase_quiet u b w w' payloads : upload_phase e u b w payloads -> quiet e w w' -> upload_phase e u b w' payloads.
Proof.
  intros Hp (E1 & E2 & E3). destruct Hp as [Hfl Hn (Hwf & Hi & Hl)|p prefix Hfl Hn Hm Hu Hl Hs|p prefix w0 resp Hfl Hwf Ha Hm Hr Hid Hl Hs Hans Hpl Hlen|p Hs He (Hwf & Hi & Hl)].
  - apply phase_ready; [done|done|]. split; [done|]. split; [done|congruence].
  - apply (phase_sending e _ _ _ p prefix); try done; congruence.
  - apply (phase_answered e _ _ _ p prefix w0 resp); try done; try congruence. destruct Hans as (record & rest & Hd & Hrest). exists record, rest. split; [congruence|done].
  - apply phase_over; [done|done|]. split; [done|]. split; [done|congruence].
Qed.

Lemma active_quiet u b w w' : active u (b, w) -> quiet e w w' -> active u (b, w').
Proof. intros (Hg & Hd & p & Hp) Hq. split; [done|]. split; [done|]. exists p. by eapply phase_quiet. Qed.

Lemma zero_given : upload_given zero_upload.
Proof. split; [|apply Forall_nil_2]. split; [|done]. change (Forall is_byte (replicate 16 0)). apply Forall_replicate. unfold is_byte. lia. Qed.

Lemma ready_active u c : ready u c -> active u c.
Proof. intros (-> & Hn & Hd). split; [apply zero_given|]. split; [done|]. exists []. by apply phase_ready. Qed.

Context (parts : run_parts W) `{R : !RunLaws parts}.

Lemma gate_quiet deadline w st x w' : gate parts deadline w = (st, x, w') -> quiet e w w'.
Proof.
  unfold gate, remaining_ms. destruct (rp_cancel_requested parts w) as [[st1 cancelled] w1] eqn:E1. apply rl_cancel in E1.
  destruct (negb (is_ok st1)); [by intros [= <- <- <-]|]. destruct cancelled; [by intros [= <- <- <-]|].
  destruct (rp_monotonic_ms parts w1) as [[st2 now] w2] eqn:E2. apply rl_clock in E2. pose proof (quiet_trans e _ _ _ E1 E2).
  repeat case_match; by intros [= <- <- <-].
Qed.
End laws.

(** ** The checks do not touch the connection either *)

Section checks.
Context `{Q : QCBORSpiffy} `{M : Machine} {W : Type} (e : endpoint W) `{L : !EndpointLaws e} (parts : run_parts W) `{R : !RunLaws e parts}.

Lemma accept_quiet signed ex time ws c0 places w st ws' c w' :
  accept_challenge (rp_challenge_verifier parts) signed ex time ws c0 places w = Some (st, ws', c, w') -> quiet e w w'.
Proof.
  unfold accept_challenge. case_match; [by intros [= <- <- <- <-]|]. destruct (challenge_cose_profile_valid _ _ _) as [profile data]. case_match; [by intros [= <- <- <- <-]|].
  destruct (challenge_aad ex (cw_aad ws)) as [[st1 d1] n1]. case_match; [by intros [= <- <- <- <-]|]. destruct (rd_slice d1 0 n1) as [aad|]; [|done]. cbn [mbind option_bind].
  destruct (pbns_sign1_verify_profile _ _ _ _ _ w) as [[st2 p] w1] eqn:Ev.
  assert (Hq : quiet e w w1).
  { unfold pbns_sign1_verify_profile in Ev. destruct (provider _ co_sign1_verify_profile) as [verify|] eqn:Hp; [|by injection Ev as <- <- <-]. case_match; [by injection Ev as <- <- <-|].
    destruct (verify w _ _ _) as [[st3 p3] w3] eqn:E3. injection Ev as <- <- <-. by eapply rl_verify_profile. }
  case_match; [by intros [= <- <- <- <-]|]. destruct (challenge_check _ _ _ _) as [[st3 c3]|]; [|done]. cbn [mbind option_bind]. by intros [= <- <- <- <-].
Qed.

Lemma receipt_quiet signed ex ws w st ws' result w' : receipt_verify (rp_receipt_verifier parts) signed ex ws w = Some (st, ws', result, w') -> quiet e w w'.
Proof.
  unfold receipt_verify. destruct ws as [payload cose aad]. case_match; [by intros [= <- <- <- <-]|]. case_match; [by intros [= <- <- <- <-]|].
  destruct (receipt_profile_valid _ _ _) as [profile data]. case_match; [by intros [= <- <- <- <-]|]. destruct (make_aad ex aad) as [[st1 d1] n1]. case_match; [by intros [= <- <- <- <-]|].
  destruct (rd_slice _ 0 n1) as [octets|]; [|done]. cbn [mbind option_bind]. destruct (pbns_sign1_verify _ _ _ _ w) as [[st2 p] w1] eqn:Ev.
  assert (Hq : quiet e w w1).
  { unfold pbns_sign1_verify in Ev. destruct (provider _ co_sign1_verify) as [verify|] eqn:Hp; [|by injection Ev as <- <- <-]. case_match; [by injection Ev as <- <- <-|].
    destruct (verify w _ _) as [[st3 p3] w3] eqn:E3. injection Ev as <- <- <-. by eapply (rl_verify e). }
  case_match; [by intros [= <- <- <- <-]|]. destruct (decode_payload _) as [decoded|]; [|by intros [= <- <- <- <-]]. destruct (encode_payload decoded payload) as [[st3 d3] n3].
  case_match; [by intros [= <- <- <- <-]|]. destruct (rd_slice d3 0 _) as [octets2|]; [|done]. cbn [mbind option_bind]. repeat (case_match; [by intros [= <- <- <- <-]|]).
  destruct (wr_list _ 0 _) as [reasons|]; [|done]. cbn [mbind option_bind]. by intros [= <- <- <- <-].
Qed.
End checks.

(** ** Asking for a challenge *)

Section steps.
Context `{Q : QCBORSpiffy} `{T : !TreeReads} `{M : Machine} {W : Type} (e : endpoint W) `{L : !EndpointLaws e} `{K : !Ticking e}.
Context (parts : run_parts W) `{R : !RunLaws e parts}.
Context (fuel : nat) (config : pbns_attestation_run_config W) (ws : pbns_attestation_run_workspace) (places : run_places).
Hypothesis (Hfuel : (enough_fuel <= fuel)%nat).
Hypothesis (Hhost : length (rc_host_fingerprint config) = 32%nat /\ bytes_ok (rc_host_fingerprint config)).
Implicit Types (u : pbns_attestation_upload) (b : pbns_broker W) (w : W).

Definition issue_taken (issue : pbns_attestation_wire_response) : Prop := wire_sized issue /\ issue_ok issue /\ bytes_ok (wr_challenge_request_id issue).

Lemma issue_request_ok output st data n : wire_encode_issue_request (pl_static places) (host_view config places) output = (st, data, n) ->
  st = PBNS_OK -> length data = length (b_data output) /\ exists octets, rd_slice data 0 n = Some octets /\ bytes_ok octets.
Proof.
  unfold wire_encode_issue_request, wire_encode_request. repeat (case_match; [by intros [= <- _ _]|]). intros E ->. apply encode_flat_spec in E as (Hl & Hok & _).
  split; [done|]. destruct (Hok eq_refl) as [-> Ht]. eexists. split; [by apply encoded_prefix|]. apply cbor_map_ok.
  apply Forall_cons_2; [done|]. apply Forall_cons_2; [split; [done|exact (proj2 Hhost)]|]. apply Forall_cons_2; [|apply Forall_nil_2]. split; [done|].
  cbn [snd value_octets v_data]. apply Forall_replicate. unfold is_byte. lia.
Qed.

Lemma request_ready b w body timeout : no_session e b w -> deadline_bounded b -> bytes_ok (v_data body) ->
  exists st resp b' w', broker_request fuel PBNS_SERVICE_PLATFORM_ATTESTATION None body timeout (b, w) = Ret (st, resp, (b', w'))
  /\ ready e zero_upload (b', w') /\ (st = PBNS_OK -> bytes_ok (v_data (rs_payload resp))).
Proof.
  intros (Hwf & Hi & Hl) Hd Hb. destruct (request_returns e b w PBNS_SERVICE_PLATFORM_ATTESTATION timeout None body Hwf Hi Hl) as (f0 & Hf & Hret); [done|done|].
  destruct (Hret fuel) as (st & resp & b' & w' & E & Hpost); [specialize (Hf Hd); lia|]. exists st, resp, b', w'. split; [done|].
  pose proof (bounded_request _ _ _ _ _ _ _ _ E Hd) as Hd'. cbn [fst] in Hd'. destruct Hpost as [(-> & -> & -> & Hne)|((Hwf' & Hi' & Hl' & _) & _ & Hok)].
  - split; [done|]. intros ->. done.
  - split; [done|]. intros Hst. destruct (Hok Hst) as (id & record & rest & _ & _ & _ & _ & [_ (_ & Hp & _)] & _). exact Hp.
Qed.

Lemma runs_ask timeout b w : ready e zero_upload (b, w) ->
  runs (ask_challenge fuel config ws places timeout) zero_upload (b, w) (ready e) (fun issue u c => issue_taken issue).
Proof.
  intros Hr. unfold ask_challenge. destruct (wire_encode_issue_request _ _ _) as [[st data] n] eqn:E. eapply runs_inside; [done|done|]. intros Hst.
  destruct (issue_request_ok _ _ _ _ E Hst) as (Hl & octets & Es & Hb). eapply runs_memory; [exact Es|]. pose proof Hr as (_ & Hn & Hd). cbn [fst snd] in Hn, Hd.
  destruct (request_ready b w (mk_view (b_ptr (nw_issue_wire ws)) octets) timeout Hn Hd Hb) as (st2 & resp & b' & w' & E2 & Hr' & Hp).
  eapply runs_bind with (R := fun r u c => r = resp /\ u = zero_upload /\ c = (b', w') /\ st2 = PBNS_OK).
  { eapply (runs_outcome _ _ _ zero_upload (b', w') st2 resp); [unfold on_broker; by rewrite E2|done|done]. }
  intros r u c _ (-> & -> & -> & Hst2). specialize (Hp Hst2). apply runs_guard; [done|done|]. intros Hg. unfold b_cap in Hg. bools.
  assert (Ew : wr_list data 0 (v_data (rs_payload resp)) = Some (v_data (rs_payload resp) ++ drop (length (v_data (rs_payload resp))) data)).
  { change data with ([] ++ data) at 1. by rewrite wr_list_next by (done || lia). }
  eapply runs_memory; [exact Ew|]. eapply runs_memory; [by apply rd_slice_prefix|].
  destruct (wire_decode_issue_response _ _ _) as [[st3 data3] issue] eqn:E3. apply issue_decode_spec in E3 as (_ & Hok3). eapply runs_inside; [done|done|].
  intros Hst3. destruct (Hok3 Hst3) as (Henc & Hsz & Hiss). cbn [v_data] in Henc. apply runs_guard; [done|done|]. intros _. apply runs_ret; [done|].
  split; [done|]. split; [done|]. apply wire_id_ok. by rewrite <- Henc.
Qed.

(** ** The challenge and the platform *)

Definition challenge_taken (issue : pbns_attestation_wire_response) (c : pbns_attestation_challenge) : Prop :=
  exists time w1, challenge_acceptable (rp_challenge_verifier parts) (wr_object issue) (run_expected config issue) time (b_ptr (cw_aad (nw_challenge ws))) w1 c.

Lemma runs_take start deadline issue b w : issue_taken issue -> ready e zero_upload (b, w) ->
  runs (take_challenge parts config ws places start deadline issue) zero_upload (b, w) (ready e) (fun p u _ => u = zero_upload /\ challenge_taken issue (fst p)).
Proof.
  intros ((S1 & S2 & _) & Hi & Hid) Hr. unfold take_challenge. apply runs_outside. intros st time w1 E1. apply (rl_time e) in E1 as [Ht Q1]. pose proof (ready_quiet e _ _ _ _ Hr Q1) as Hr1.
  split; [done|]. intros _. apply runs_guard; [done|done|]. intros _. apply runs_outside. intros st2 t2 w2 E2. apply (gate_quiet e parts) in E2.
  pose proof (ready_quiet e _ _ _ _ Hr1 E2) as Hr2. split; [done|]. intros _. set (ex := run_expected config issue).
  assert (Hex : expected_sized ex) by (unfold expected_sized, ex, run_expected; cbn; rewrite S1, S2, (proj1 Hhost); done).
  assert (Hacc : exists st ws' c w', accept_challenge (rp_challenge_verifier parts) (wr_object issue) ex time (nw_challenge ws) zero_challenge (pl_accept places) w2 = Some (st, ws', c, w')
    /\ (st = PBNS_OK -> challenge_taken issue c)).
  { destruct (challenge_workspace_valid (wr_object issue) ex (nw_challenge ws) (pl_accept places)) eqn:Hv.
    - destruct (accept_outcome (rp_challenge_verifier parts) (wr_object issue) ex time (nw_challenge ws) zero_challenge (pl_accept places) w2 Hex Ht Hv) as (st3 & c & w3 & E & Hok & _).
      do 4 eexists. split; [exact E|]. intros Hst. exists time, w2. by apply Hok.
    - do 4 eexists. unfold accept_challenge. rewrite Hv. split; [done|]. done. }
  destruct Hacc as (st3 & ws3 & c & w3 & E3 & Hok). pose proof (ready_quiet e _ _ _ _ Hr2 (accept_quiet e parts _ _ _ _ _ _ _ _ _ _ _ E3)) as Hr3.
  eapply runs_bind with (R := fun c' u cf => c' = c /\ u = zero_upload /\ cf = (b, w3) /\ st3 = PBNS_OK).
  { eapply (runs_outcome _ _ _ zero_upload (b, w3) st3 c); [by rewrite E3|done|done]. }
  intros c' u cf _ (-> & -> & -> & Hst3). apply runs_outside. intros st4 t4 w4 E4. apply (gate_quiet e parts) in E4.
  pose proof (ready_quiet e _ _ _ _ Hr3 E4) as Hr4. split; [done|]. intros _. apply runs_ret; [done|]. split; [done|]. by apply Hok.
Qed.

Lemma runs_capture deadline c b w : ready e zero_upload (b, w) ->
  runs (capture_platform parts ws deadline c) zero_upload (b, w) (ready e) (fun p u _ => u = zero_upload /\ report_arrays (fst (fst p)) /\ measured_typed (snd (fst p))).
Proof.
  intros Hr. unfold capture_platform. apply runs_outside. intros st inventory w1 E1. apply (rl_inventory e) in E1 as [Hi Q1]. pose proof (ready_quiet e _ _ _ _ Hr Q1) as Hr1. split; [done|]. intros _.
  apply runs_outside. intros st2 t2 w2 E2. apply (gate_quiet e parts) in E2. pose proof (ready_quiet e _ _ _ _ Hr1 E2) as Hr2. split; [done|]. intros _.
  apply runs_outside. intros st3 t3 w3 E3. apply (gate_quiet e parts) in E3. pose proof (ready_quiet e _ _ _ _ Hr2 E3) as Hr3. split; [done|]. intros _.
  apply runs_outside. intros st4 measured w4 E4. apply (rl_measured e) in E4 as [Hm Q4]. pose proof (ready_quiet e _ _ _ _ Hr3 Q4) as Hr4. split; [done|]. intros _.
  apply runs_guard; [done|done|]. intros _. apply runs_outside. intros st5 t5 w5 E5. apply (gate_quiet e parts) in E5. pose proof (ready_quiet e _ _ _ _ Hr4 E5) as Hr5. split; [done|]. intros _.
  by apply runs_ret.
Qed.
End steps.

(** ** A submission keeps what its callbacks keep *)

Section keeps.
Context `{Q : QCBORSpiffy} `{M : Machine} {W : Type} (inv : W -> Prop) (parts : submission_parts W).
Hypothesis (Ksha : forall w v st d w', inv w -> sb_sha256 parts w v = (st, d, w') -> inv w').
Hypothesis (Kquote : forall w sel q qb sb st qd qn sd sn w', inv w -> sb_quote parts w sel q qb sb = (st, qd, qn, sd, sn, w') -> inv w').
Hypothesis (Ksign : forall sign w p a b st d n w', inv w -> provider (Some (sb_signer parts)) co_sign1_sign = Some sign -> sign w p a b = (st, d, n, w') -> inv w').
Hypothesis (Kencrypt : forall encrypt w k p a b st d n w', inv w -> provider (Some (sb_encrypter parts)) co_encrypt_for_recipient = Some encrypt ->
  encrypt w k p a b = (st, d, n, w') -> inv w' /\ bytes_ok d).
Hypothesis (Kconsume : forall w id nonce st w', inv w -> sb_consume parts w id nonce = (st, w') -> inv w').
Hypothesis (Ksend : forall w id sequence payload final st w', inv w -> bytes_ok (v_data payload) -> sb_send_data parts w id sequence payload final = (st, w') -> inv w').

Definition keeps {A} (m : step unit W A) (P : A -> Prop) : Prop :=
  forall s w r s' w', inv w -> m s w = Some (r, s', w') -> inv w' /\ match r with inr x => P x | inl _ => True end.

Lemma keeps_bind {A B} (m : step unit W A) (f : A -> step unit W B) (P : A -> Prop) (R : B -> Prop) :
  keeps m P -> (forall x, P x -> keeps (f x) R) -> keeps (bind_step m f) R.
Proof.
  intros Hm Hf s w r s' w' Hw E. unfold bind_step in E. destruct (m s w) as [[[r1 s1] w1]|] eqn:E1; [|done]. destruct (Hm _ _ _ _ _ Hw E1) as [Hw1 Hr1].
  destruct r1 as [st|x]; [by injection E as <- <- <-|]. by eapply Hf.
Qed.

Lemma keeps_ret {A} (x : A) (P : A -> Prop) : P x -> keeps (ret_step x) P.
Proof. by intros HP s w r s' w' Hw [= <- <- <-]. Qed.

Lemma keeps_call {A} (f : W -> pbns_status * A * W) (P : A -> Prop) :
  (forall w st x w', inv w -> f w = (st, x, w') -> inv w' /\ (st = PBNS_OK -> P x)) -> keeps (world_call f) P.
Proof.
  intros Hf s w r s' w' Hw. unfold world_call. destruct (f w) as [[st x] w1] eqn:E. destruct (Hf _ _ _ _ Hw E) as [Hw1 HP]. intros [= <- <- <-]. split; [done|].
  destruct (is_ok st) eqn:Ok; [|done]. apply HP. by apply is_ok_spec.
Qed.

Lemma keeps_local {A} (result : option (pbns_status * A)) : keeps (local_call result) (fun _ => True).
Proof. intros s w r s' w' Hw. unfold local_call. destruct result as [[st x]|]; [|done]. intros [= <- <- <-]. split; [done|]. by destruct (is_ok st). Qed.

Lemma keeps_guard condition st : keeps (guard condition st) (fun _ => True).
Proof. intros s w r s' w' Hw. unfold guard. destruct condition; by intros [= <- <- <-]. Qed.

Lemma keeps_prefix buffer data size : keeps (prefix_view buffer data size) (fun _ => True).
Proof. intros s w r s' w' Hw. unfold prefix_view. destruct (rd_slice data 0 size); [|done]. by intros [= <- <- <-]. Qed.

Lemma keeps_hash v : keeps (world_call (fun w => sb_sha256 parts w v)) (fun _ => True).
Proof. apply keeps_call. intros w st d w' Hw E. split; [by eapply Ksha|done]. Qed.

Ltac keeps_tac := repeat first [eassumption | apply keeps_local | apply keeps_guard | apply keeps_prefix | apply keeps_hash | (apply keeps_ret; exact I)
  | match goal with |- keeps (match ?x with _ => _ end) _ => destruct x end | (eapply keeps_bind with (P := fun _ => True); [|intros ? _])].

Lemma keeps_measured c ws : keeps (verify_measured_binding c parts ws) (fun _ => True).
Proof. unfold verify_measured_binding. keeps_tac. Qed.

Lemma keeps_platform c ws : keeps (bind_platform c parts ws) (fun _ => True).
Proof.
  pose proof (keeps_measured c ws). unfold bind_platform. keeps_tac. intros s w r s' w' Hw. unfold qualifying_data. case_match; [cbn [mbind option_bind is_ok]; by intros [= <- <- <-]|].
  destruct (wr_list _ _ _) as [d1|]; [|done]. cbn [mbind option_bind]. do 5 (destruct (wr_list _ _ _) as [?|]; [|done]; cbn [mbind option_bind]).
  destruct (rd_slice _ _ _) as [input|]; [|done]. cbn [mbind option_bind]. destruct (sb_sha256 parts w _) as [[st d] w1] eqn:E. cbn [mbind option_bind]. intros [= <- <- <-].
  split; [by eapply Ksha|]. by destruct (is_ok st).
Qed.

Lemma keeps_take_quote c ws qualifying : keeps (take_quote c parts ws qualifying) (fun _ => True).
Proof.
  unfold take_quote. eapply keeps_bind with (P := fun _ => True); [|intros ? _; keeps_tac]. apply keeps_call. intros w st x w' Hw.
  destruct (sb_quote parts w _ _ _ _) as [[[[[st1 qd] qn] sd] sn] w1] eqn:E. intros [= <- <- <-]. split; [by eapply Kquote|done].
Qed.

Lemma keeps_sign c sub ws quote signature rd : keeps (sign_evidence c sub parts ws quote signature rd) (fun _ => True).
Proof.
  unfold sign_evidence. keeps_tac.
  apply keeps_call. intros w st3 y w' Hw. unfold pbns_sign1_sign. destruct (provider _ co_sign1_sign) as [sign|] eqn:Hp; [|by intros [= <- <- <-]]. destruct (_ || _); [by intros [= <- <- <-]|].
  destruct (sign w _ _ _) as [[[st4 d4] n4] w4] eqn:E. unfold require_bounded_output. destruct (is_ok st4 && _); intros [= <- <- <-]; (split; [by eapply Ksign|done]).
Qed.

Lemma keeps_encrypt c kid_at ws signed : keeps (encrypt_evidence c kid_at parts ws signed) (fun p => bytes_ok (fst p)).
Proof.
  unfold encrypt_evidence. destruct (encrypt_aad _ _) as [[st data] size]. eapply keeps_bind; [apply keeps_local|intros _ _]. eapply keeps_bind; [apply keeps_prefix|intros aad _].
  eapply keeps_bind with (P := fun p => bytes_ok (fst p)).
  - apply keeps_call. intros w st2 x w' Hw. unfold pbns_attestation_encrypt_message. destruct (provider _ co_encrypt_for_recipient) as [encrypt|] eqn:Hp; [|by intros [= <- <- <-]].
    destruct (_ || _); [by intros [= <- <- <-]|]. destruct (encrypt w _ _ _ _) as [[[st4 d4] n4] w4] eqn:E. destruct (Kencrypt _ _ _ _ _ _ _ _ _ _ Hw eq_refl E) as [Hw4 Hb].
    unfold require_bounded_output. destruct (is_ok st4 && _); intros [= <- <- <-]; (split; [done|done]).
  - intros [d n] Hd. eapply keeps_bind; [apply keeps_guard|intros _ _]. by apply keeps_ret.
Qed.

Lemma keeps_send fuel id address data size offset sequence : bytes_ok data -> keeps (send_records fuel (sb_send_data parts) id address data size offset sequence) (fun _ => True).
Proof.
  intros Hb. revert offset sequence. induction fuel as [|fuel IH]; intros offset sequence; cbn [send_records]; [by intros s w r s' w' _|]. case_match; [by apply keeps_ret|].
  set (chunk := if _ <? size - offset then _ else _). clearbody chunk. eapply keeps_bind with (P := fun v => bytes_ok (v_data v)).
  { intros s w r s' w' Hw. destruct (rd_slice data offset chunk) as [octets|] eqn:E; [|done]. cbn [mbind option_bind]. intros [= <- <- <-]. split; [done|]. cbn. by eapply rd_slice_ok. }
  intros v Hv. eapply keeps_bind with (P := fun _ => True).
  { apply keeps_call. intros w st x w' Hw. destruct (sb_send_data parts w _ _ _ _) as [st1 w1] eqn:E. intros [= <- <- <-]. split; [by eapply Ksend|done]. }
  intros _ _. eapply keeps_bind with (P := fun _ => True); [|intros ? _; apply IH].
  repeat case_match; [by apply keeps_ret| |by apply keeps_ret]. by intros s w r s' w' Hw [= <- <- <-].
Qed.

Lemma keeps_steps c kid_at sub ws : keeps (submit_steps c kid_at sub parts ws) (fun _ => True).
Proof.
  unfold submit_steps. eapply keeps_bind with (P := fun _ => True).
  { apply keeps_call. intros w st x w' Hw. destruct (sb_consume parts w _ _) as [st1 w1] eqn:E. intros [= <- <- <-]. split; [by eapply Kconsume|done]. }
  intros _ _. eapply keeps_bind; [apply keeps_platform|intros [rd q] _]. eapply keeps_bind; [apply keeps_take_quote|intros [quote signature] _].
  eapply keeps_bind; [apply keeps_sign|intros signed _]. eapply keeps_bind; [apply keeps_hash|intros digest _].
  eapply keeps_bind; [apply keeps_encrypt|intros [data size] Hd]. eapply keeps_bind; [by apply keeps_send|intros _ _]. by apply keeps_ret.
Qed.

Lemma submit_keeps c kid_at sub ws places w st c' digest ws' w' :
  attestation_submit c kid_at sub parts ws places w = Some (st, c', digest, ws', w') -> inv w -> inv w'.
Proof.
  unfold attestation_submit. intros E Hw. case_match; [by injection E as <- <- <- <- <-|]. case_match; [by injection E as <- <- <- <- <-|].
  destruct (submit_steps _ _ _ _ _ tt w) as [[[r s] w1]|] eqn:Es; [|done]. cbn [mbind option_bind] in E. destruct (keeps_steps _ _ _ _ _ _ _ _ _ Hw Es) as [Hw1 _].
  destruct r; by injection E as <- <- <- <- <-.
Qed.
End keeps.

(** ** The submission of a run *)

Section submission.
Context `{Q : QCBORSpiffy} `{M : Machine} {W : Type} (e : endpoint W) `{L : !EndpointLaws e} `{K : !Ticking e}.
Context (parts : run_parts W) `{R : !RunLaws e parts} (fuel : nat).
Hypothesis (Hfuel : (enough_fuel <= fuel)%nat).
Implicit Types (u : pbns_attestation_upload) (b : pbns_broker W) (w : W).

Definition good (y : run_world (W := W)) : Prop := exists u consumed c, y = Some (u, consumed, c) /\ active e u c.

Lemma good_in_run {A} (lost : A) f y st x y' :
  (forall w st x w', f w = (st, x, w') -> quiet e w w') -> good y -> in_run lost f y = (st, x, y') -> good y'.
Proof.
  intros Hf (u & k & [b w] & -> & Ha). unfold in_run. destruct (f w) as [[st1 x1] w1] eqn:E. intros [= <- <- <-]. apply Hf in E.
  exists u, k, (b, w1). split; [done|]. by eapply active_quiet.
Qed.

Lemma in_run_keeps {A} (lost : A) f y st x y' (P : A -> Prop) :
  P lost -> (forall w st x w', f w = (st, x, w') -> P x) -> in_run lost f y = (st, x, y') -> P x.
Proof.
  intros Hl Hf. destruct y as [[[u k] [b w]]|]; unfold in_run; [|by intros [= <- <- <-]]. destruct (f w) as [[st1 x1] w1] eqn:E. intros [= <- <- <-]. by eapply Hf.
Qed.

Lemma run_output_spec output f y st d n y' (P : bytes -> Z -> Prop) :
  (forall w st d n w', f w = (st, d, n, w') -> P d n /\ quiet e w w') -> P (b_data output) 0 -> run_output output f y = (st, d, n, y') -> P d n /\ (good y -> good y').
Proof.
  intros Hf H0. unfold run_output. set (g := fun w => let '(st, d, n, w) := f w in (st, (d, n), w)). destruct (in_run _ g y) as [[st1 [d1 n1]] y1] eqn:E. intros [= <- <- <- <-].
  assert (Hg : forall w st x w', g w = (st, x, w') -> P (fst x) (snd x) /\ quiet e w w').
  { intros w st2 x w' Eg. unfold g in Eg. destruct (f w) as [[[st3 d3] n3] w3] eqn:Ef. injection Eg as <- <- <-. by eapply Hf. }
  split.
  - eapply (in_run_keeps (b_data output, 0) g y st1 (d1, n1) y1 (fun x => P (fst x) (snd x))); [done| |exact E]. intros w st2 x w' Eg. by eapply Hg.
  - intros Hy. eapply good_in_run; [|exact Hy|exact E]. intros w st2 x w' Eg. by eapply Hg.
Qed.

Lemma provider_run_sign crypto sign' : provider (Some (run_crypto crypto)) co_sign1_sign = Some sign' ->
  exists sign, provider (Some crypto) co_sign1_sign = Some sign /\ sign' = (fun y payload aad output => run_output output (fun w => sign w payload aad output) y).
Proof.
  unfold provider, run_crypto. destruct crypto as [[ops|] context]; [|done]. cbn. destruct (co_sign1_sign ops) as [f|]; [|done]. cbn.
  destruct (context =? 0); [done|]. intros [= <-]. by exists f.
Qed.

Lemma provider_run_encrypt crypto encrypt' : provider (Some (run_crypto crypto)) co_encrypt_for_recipient = Some encrypt' ->
  exists encrypt, provider (Some crypto) co_encrypt_for_recipient = Some encrypt
  /\ encrypt' = (fun y kid plaintext aad output => run_output output (fun w => encrypt w kid plaintext aad output) y).
Proof.
  unfold provider, run_crypto. destruct crypto as [[ops|] context]; [|done]. cbn. destruct (co_encrypt_for_recipient ops) as [f|]; [|done]. cbn.
  destruct (context =? 0); [done|]. intros [= <-]. by exists f.
Qed.

Context (deadline : Z) (c : pbns_attestation_challenge) (inventory : pbns_inventory_report) (measured : pbns_measured_boot_evidence).
Let p := run_submission_parts parts fuel deadline c inventory measured.

#[local] Instance run_evidence_laws : EvidenceLaws p.
Proof.
  constructor.
  - intros y v st d y' E. eapply (in_run_keeps (replicate 32 0) _ y st d y' (fun d => zlen d = 32)); [done| |exact E]. intros w st1 d1 w1 E1. exact (proj1 (rl_sha256 e _ _ _ _ _ E1)).
  - intros y sel q qb sb st qd qn sd sn y' E. cbn in E. unfold run_quote in E.
    pose (Pq := fun x : bytes * Z * bytes * Z => length (fst (fst (fst x))) = length (b_data qb) /\ length (snd (fst x)) = length (b_data sb) /\ 0 <= snd (fst (fst x)) /\ 0 <= snd x).
    destruct (in_run _ _ y) as [[st1 [[[qd1 qn1] sd1] sn1]] y1] eqn:E1.
    assert (Hp : Pq (qd1, qn1, sd1, sn1)).
    { eapply (in_run_keeps _ _ y st1 _ y1 Pq); [| |exact E1]; [unfold Pq; cbn; split; [done|]; split; [done|]; lia|]. intros w st2 x w2 E2. cbn beta in E2.
      destruct (rp_quote parts w sel q qb sb) as [[[[[st3 qd3] qn3] sd3] sn3] w3] eqn:E3. injection E2 as <- <- <-. apply (rl_quote e) in E3. unfold Pq. cbn. tauto. }
    injection E as <- <- <- <- <- <-. exact Hp.
  - intros sign' y pl a bf st d n y' Hs E. apply provider_run_sign in Hs as (sign & Hs & ->).
    eapply (run_output_spec _ _ _ _ _ _ _ (fun d n => length d = length (b_data bf) /\ 0 <= n)) in E; [exact (proj1 E)| |done]. intros w st1 d1 n1 w1 E1.
    destruct (rl_sign e _ _ _ _ _ _ _ _ _ Hs E1) as (? & ? & ?). done.
  - intros encrypt' y k pl a bf st d n y' Hs E. apply provider_run_encrypt in Hs as (encrypt & Hs & ->).
    eapply (run_output_spec _ _ _ _ _ _ _ (fun d n => length d = length (b_data bf) /\ 0 <= n)) in E; [exact (proj1 E)| |done]. intros w st1 d1 n1 w1 E1.
    destruct (rl_encrypt e _ _ _ _ _ _ _ _ _ _ Hs E1) as (? & ? & ? & ?). done.
Qed.
Lemma bounded_run_send u id sequence payload final : BrokerProps.bounded (W := W) (attestation_upload_send fuel u id sequence payload final).
Proof.
  unfold attestation_upload_send, upload_record, AttestationUpload.abort_upload.
  repeat first [apply bounded_upload_send | apply bounded_upload_begin | apply bounded_broker_cancel | apply bounded_ret | (apply bounded_bind; [|intros])
    | match goal with |- BrokerProps.bounded (match ?x with _ => _ end) => destruct x end].
Qed.

Lemma timeout_active u cf x : active e u cf -> au_started u = false -> active e (set_timeout_ms x u) cf.
Proof.
  intros (Hg & Hd & payloads & Hp) Hs. split; [done|]. split; [done|]. exists [].
  destruct Hp as [Hfl Hn Hno|p0 prefix Hfl|p0 prefix w0 resp Hfl|p0 Hst]; [by apply phase_ready|destruct Hfl; congruence..|congruence].
Qed.

Lemma send_good y id sequence payload final st y' :
  good y -> bytes_ok (v_data payload) -> send_with_gate parts fuel deadline y id sequence payload final = (st, y') -> good y'.
Proof.
  intros (u & k & [b w] & -> & Ha) Hb. unfold send_with_gate. destruct (gate parts deadline w) as [[st1 remaining] w1] eqn:E1. apply (gate_quiet e parts) in E1.
  pose proof (active_quiet e _ _ _ _ Ha E1) as Ha1. case_match; [intros [= <- <-]; by exists u, k, (b, w1)|].
  set (u1 := if negb (au_started u) then _ else _). assert (Hu1 : active e u1 (b, w1)) by (unfold u1; destruct (au_started u) eqn:Es; cbn [negb]; [done|by apply timeout_active]).
  destruct Hu1 as (Hg & Hd & payloads & Hp). destruct (send_returns e u1 b w1 payloads id sequence payload final Hg Hp Hb) as (f0 & Hf & Hret).
  destruct (Hret fuel) as (st2 & u2 & b2 & w2 & E2 & Hsg & Hph & _); [specialize (Hf Hd); lia|]. rewrite E2. intros [= <- <-]. exists u2, k, (b2, w2). split; [done|].
  split; [by eapply same_given_ok|]. split; [exact (bounded_run_send _ _ _ _ _ _ _ _ E2 Hd)|]. by eexists.
Qed.

Lemma submit_good kid_at sub ws places y st c' digest ws' y' :
  attestation_submit c kid_at sub p ws places y = Some (st, c', digest, ws', y') -> good y -> good y'.
Proof.
  apply submit_keeps.
  - intros y1 v st1 d y2 Hy E. eapply good_in_run; [|exact Hy|exact E]. intros w st2 x w' E2. exact (proj2 (rl_sha256 e _ _ _ _ _ E2)).
  - intros y1 sel q qb sb st1 qd qn sd sn y2 Hy E. cbn in E. unfold run_quote in E. destruct (in_run _ _ y1) as [[st2 [[[qd1 qn1] sd1] sn1]] y3] eqn:E1. injection E as <- <- <- <- <- <-.
    eapply good_in_run; [|exact Hy|exact E1]. intros w st3 x w' E2. cbn beta in E2. destruct (rp_quote parts w sel q qb sb) as [[[[[st4 qd4] qn4] sd4] sn4] w4] eqn:E4.
    injection E2 as <- <- <-. apply (rl_quote e) in E4. tauto.
  - intros sign' y1 pl a bf st1 d n y2 Hy Hs E. apply provider_run_sign in Hs as (sign & Hs & ->). eapply (run_output_spec _ _ _ _ _ _ _ (fun _ _ => True)) in E; [by apply E| |done].
    intros w st2 d2 n2 w2 E2. split; [done|]. apply (rl_sign e _ _ _ _ _ _ _ _ _ Hs) in E2. tauto.
  - intros encrypt' y1 k pl a bf st1 d n y2 Hy Hs E. apply provider_run_encrypt in Hs as (encrypt & Hs & ->). destruct Hy as (u & kc & [b w] & -> & Ha).
    unfold run_output, in_run in E. destruct (encrypt w k pl a bf) as [[[st2 d2] n2] w2] eqn:E2. injection E as <- <- <- <-. destruct (rl_encrypt e _ _ _ _ _ _ _ _ _ _ Hs E2) as (_ & Hb & _ & Hq).
    split; [|done]. exists u, kc, (b, w2). split; [done|]. by eapply active_quiet.
  - intros y1 id nonce st1 y2 (u & k & cf & -> & Ha) E. cbn in E. case_match; injection E as <- <-; (do 3 eexists; split; [reflexivity|exact Ha]).
  - intros y1 id sequence payload final st1 y2 Hy Hb E. exact (send_good _ _ _ _ _ _ _ Hy Hb E).
Qed.
End submission.

(** ** Submitting, and the receipt *)

Section verdict.
Context `{Q : QCBORSpiffy} `{T : !TreeReads} `{M : Machine} {W : Type} (e : endpoint W) `{L : !EndpointLaws e} `{K : !Ticking e}.
Context (parts : run_parts W) `{R : !RunLaws e parts} (fuel : nat) (config : pbns_attestation_run_config W) (ws : pbns_attestation_run_workspace) (places : run_places).
Hypothesis (Hfuel : (enough_fuel <= fuel)%nat).
Hypothesis (Hhost : length (rc_host_fingerprint config) = 32%nat /\ bytes_ok (rc_host_fingerprint config)).
Implicit Types (u : pbns_attestation_upload) (b : pbns_broker W) (w : W) (c : pbns_attestation_challenge).

(** Evidence with this digest was submitted for the challenge, and the nonce consumed. *)
Definition evidence_submitted c (digest : bytes) : Prop :=
  exists deadline inventory measured request timeout before u1 after,
    let p := run_submission_parts parts fuel deadline c inventory measured in
    submission_made (consume_challenge c) (pl_recipient_kid places) (run_submission config places (nw_evidence_digest ws) p) p (nw_attestation ws)
      (Some (mk_upload (ch_request_id c) (mk_view (b_ptr (nw_submit_wire ws)) request) null_view timeout 0 false false false false, false, before)) digest (Some (u1, true, after)).

Lemma submit_request_ok c output st data n : bytes_ok (ch_request_id c) -> wire_encode_submit_request (pl_static places) (challenge_id_view places c) output = (st, data, n) ->
  st = PBNS_OK -> exists octets, rd_slice data 0 n = Some octets /\ bytes_ok octets.
Proof.
  intros Hid. unfold wire_encode_submit_request, wire_encode_request. repeat (case_match; [by intros [= <- _ _]|]). intros E ->. apply encode_flat_spec in E as (Hl & Hok & _).
  destruct (Hok eq_refl) as [-> Ht]. eexists. split; [by apply encoded_prefix|]. apply cbor_map_ok.
  apply Forall_cons_2; [done|]. apply Forall_cons_2; [split; [done|]|apply Forall_cons_2; [split; [done|exact Hid]|apply Forall_nil_2]].
  cbn [snd value_octets v_data]. apply Forall_replicate. unfold is_byte. lia.
Qed.

Lemma runs_submit deadline timeout c inventory measured b w :
  challenge_issued c -> bytes_ok (ch_request_id c) -> report_arrays inventory -> measured_typed measured -> ready e zero_upload (b, w) ->
  runs (submit_evidence parts fuel config ws places deadline timeout c inventory measured) zero_upload (b, w) (active e)
    (fun digest _ _ => zlen digest = 32 /\ evidence_submitted c digest).
Proof.
  intros Hi Hid Hrep Hmeas Hr. pose proof (ready_active e _ _ Hr) as Ha. pose proof Hr as (_ & Hn & Hd). cbn [fst snd] in Hn, Hd. unfold submit_evidence.
  destruct (wire_encode_submit_request _ _ _) as [[st data] n] eqn:E. eapply runs_inside; [done|done|]. intros Hst.
  destruct (submit_request_ok c _ _ _ _ Hid E Hst) as (request & Es & Hb). eapply runs_memory; [exact Es|].
  set (u0 := mk_upload _ _ _ _ _ _ _ _ _). set (p := run_submission_parts parts fuel deadline c inventory measured). set (sub := run_submission config places (nw_evidence_digest ws) p).
  pose proof (run_evidence_laws e parts fuel Hfuel deadline c inventory measured) as HL.
  destruct Hi as [Hsz (_ & Hsel & _) _ _ _].
  assert (Hgiven : submission_given c p).
  { constructor; [done|done| |exact Hmeas]. eapply Forall_impl; [|exact Hsel]. unfold item_typed. intros i. lia. }
  assert (Hu0 : active e u0 (b, w)).
  { split; [split; [split; [done|destruct Hsz; cbn; lia]|done]|]. split; [done|]. exists []. by apply phase_ready. }
  destruct (submit_returns c (pl_recipient_kid places) sub p (nw_attestation ws) (pl_submit places) (Some (u0, false, (b, w))) Hgiven) as (st2 & c2 & digest & ws2 & y2 & E2 & Hbad & Hok).
  destruct (submit_good e parts fuel Hfuel deadline c inventory measured _ _ _ _ _ _ _ _ _ _ E2) as (u2 & k2 & cf2 & -> & Ha2); [by exists u0, false, (b, w)|].
  eexists _, u2, cf2. split; [fold p sub; rewrite E2; reflexivity|]. split; [done|]. destruct (is_ok st2) eqn:Ok; cbn [negb]; [|by apply is_ok_false].
  apply is_ok_spec in Ok. destruct k2; cbn [negb orb]; [|done]. destruct (au_response_received u2); cbn [negb]; [|done].
  destruct (submission_arguments_valid c sub p (nw_attestation ws) (pl_submit places)) eqn:Hv; [|by destruct (Hbad eq_refl) as (-> & _)].
  destruct (Hok eq_refl) as [_ _ _ Hmade _]. destruct (Hmade Ok) as [_ Hm]. split.
  - destruct Hm as (w1 & rd & q & w2 & quote & sig & w3 & signed & w4 & w5 & ct & w6 & pl & _ & _ & _ & _ & Hdig & _). by eapply law_sha256.
  - by exists deadline, inventory, measured, request, timeout, (b, w), u2, cf2.
Qed.
Definition shown (r : decoded_receipt) : pbns_attestation_run_result :=
  mk_run_result (dr_verdict r) (dr_reasons r ++ replicate (16 - length (dr_reasons r)) 0) (zlen (dr_reasons r)) (display_of (dr_verdict r)).

Lemma copy_shown r : issued r -> copy_result (result_of r) = Some (shown r).
Proof.
  intros Hi. unfold copy_result, result_of. cbn [rr_reasons rr_reason_count rr_verdict rr_display_state]. rewrite rd_slice_prefix by done. cbn [mbind option_bind].
  rewrite reasons_stored by (eapply judged_length, is_judged; exact Hi). done.
Qed.

Hypothesis (Hbuf : Forall2 (fun bf k => buffer_is_valid bf = true /\ b_cap bf = k) [rw_canonical_payload (nw_receipt ws); rw_canonical_cose (nw_receipt ws); rw_aad (nw_receipt ws)]
  [PBNS_ATTESTATION_RECEIPT_MAX_PAYLOAD_SIZE; PBNS_ATTESTATION_RECEIPT_MAX_SIGNED_SIZE; PBNS_ATTESTATION_RECEIPT_MAX_AAD_SIZE]).

Lemma receipt_returns signed ex w : receipt_expectation_sized ex ->
  exists st ws' result w', receipt_verify (rp_receipt_verifier parts) signed ex (nw_receipt ws) w = Some (st, ws', result, w')
  /\ (st = PBNS_OK -> exists r, acceptable (rp_receipt_verifier parts) signed ex (b_ptr (rw_aad (nw_receipt ws))) w r /\ result = result_of r).
Proof.
  intros Hex. destruct (nw_receipt ws) as [payload cose aad] eqn:Ew. cbn [rw_canonical_payload rw_canonical_cose rw_aad] in *.
  apply Forall2_cons_1 in Hbuf as [[V1 C1] Hb]. apply Forall2_cons_1 in Hb as [[V2 C2] Hb]. apply Forall2_cons_1 in Hb as [[V3 C3] _].
  assert (Hcall : receipt_call signed ex (nw_receipt ws) \/ exists st, receipt_verify (rp_receipt_verifier parts) signed ex (nw_receipt ws) w = Some (st, nw_receipt ws, failed_result, w) /\ st <> PBNS_OK).
  { rewrite Ew. unfold receipt_verify. rewrite V1, V2, V3. cbn [negb]. destruct (_ || _) eqn:E1; [right; exists PBNS_ERR_ARGUMENT; done|]. destruct (_ || _) eqn:E2; [right; exists PBNS_ERR_LIMIT; done|]. left. bools.
    unfold PBNS_ATTESTATION_RECEIPT_MAX_PAYLOAD_SIZE, PBNS_ATTESTATION_RECEIPT_MAX_SIGNED_SIZE, PBNS_ATTESTATION_RECEIPT_MAX_AAD_SIZE, UINT32_MAX, v_len in *.
    constructor; cbn [rw_canonical_payload rw_canonical_cose rw_aad]; unfold PBNS_ATTESTATION_RECEIPT_MAX_PAYLOAD_SIZE, PBNS_ATTESTATION_RECEIPT_MAX_SIGNED_SIZE, PBNS_ATTESTATION_RECEIPT_MAX_AAD_SIZE, UINT32_MAX, v_len;
      [split; [done|lia]|done|done|done|lia]. }
  rewrite <- Ew. destruct Hcall as [Hcall|(st & E & Hne)]; [|exists st, (nw_receipt ws), failed_result, w; split; [exact E|done]].
  destruct (receipt_verify_judged (rp_receipt_verifier parts) signed ex (nw_receipt ws) w Hex Hcall) as (st & ws' & result & w' & E & HJ). do 4 eexists. split; [exact E|].
  rewrite Ew in HJ. exact (judged_accepts _ _ _ _ _ _ _ _ HJ).
Qed.

(** The verdict is that of a receipt for this challenge and this evidence. *)
Definition receipt_taken c (digest : bytes) (staged : pbns_attestation_run_result) : Prop :=
  exists response w2 r, submit_ok response (ch_request_id c) /\ wr_evidence_digest response = digest
  /\ acceptable (rp_receipt_verifier parts) (wr_object response) (run_expectation config c digest (wr_baseline_id response)) (b_ptr (rw_aad (nw_receipt ws))) w2 r
  /\ staged = shown r.

Lemma bounded_run_finish u : BrokerProps.bounded (W := W) (attestation_upload_finish u).
Proof.
  unfold attestation_upload_finish, broker_upload_finish.
  repeat first [apply bounded_finish_session | apply bounded_ret | apply bounded_gets | (apply bounded_bind; [|intros])
    | match goal with |- BrokerProps.bounded (match ?x with _ => _ end) => destruct x end].
Qed.

Lemma runs_check deadline c digest u b w : challenge_issued c -> zlen digest = 32 -> active e u (b, w) ->
  runs (check_receipt parts config ws places deadline c digest) u (b, w) (active e)
    (fun staged u' cf => au_finished u' = true /\ no_session e (fst cf) (snd cf) /\ receipt_taken c digest staged).
Proof.
  intros Hi Hdl Ha. destruct (ci_sized c Hi) as (Z1 & _ & Z3). unfold check_receipt.
  eapply runs_bind with (R := fun v u' cf => u' = u /\ cf = (b, w)); [eexists (inr _), u, (b, w); done|]. intros answer u1 cf1 _ [-> ->].
  destruct (wire_decode_submit_response _ _ _ _) as [[st data] response] eqn:E. apply submit_decode_spec in E as (_ & Hok). eapply runs_inside; [done|done|]. intros Hst.
  destruct (Hok Hst) as (_ & (_ & _ & S3 & S4) & Hsub & _). cbn [challenge_id_view v_data] in Hsub. apply runs_guard; [done|done|]. intros Hc. apply ct_equal_spec in Hc; [|lia].
  set (ex := run_expectation config c digest (wr_baseline_id response)).
  assert (Hex : receipt_expectation_sized ex) by (unfold receipt_expectation_sized, ex, run_expectation; cbn; rewrite S4, (proj1 Hhost); done).
  destruct (receipt_returns (wr_object response) ex w Hex) as (st2 & ws2 & result & w2 & E2 & Hacc). pose proof (active_quiet e _ _ _ _ Ha (receipt_quiet e parts _ _ _ _ _ _ _ _ E2)) as Ha2.
  eapply runs_bind with (R := fun r u' cf => r = result /\ u' = u /\ cf = (b, w2) /\ st2 = PBNS_OK).
  { eapply (runs_outcome _ _ _ u (b, w2) st2 result); [by rewrite E2|done|done]. }
  intros r0 u0 cf0 _ (-> & -> & -> & Hst2). destruct (Hacc Hst2) as (r & Hr & ->). apply runs_outside. intros st3 t3 w3 E3. apply (gate_quiet e parts) in E3.
  pose proof (active_quiet e _ _ _ _ Ha2 E3) as Ha3. split; [done|]. intros _. eapply runs_memory; [apply copy_shown; by destruct Hr as (_ & ? & _)|].
  destruct Ha3 as (Hg & Hd & payloads & Hp). destruct (finish_returns e u b w3 payloads Hg Hp) as (st4 & u4 & b4 & w4 & E4 & Hsg & Hph & Hfin & _).
  assert (Ha4 : active e u4 (b4, w4)).
  { split; [by eapply same_given_ok|]. split; [exact (bounded_run_finish _ _ _ _ E4 Hd)|]. by eexists. }
  eapply runs_bind with (R := fun _ u' cf => u' = u4 /\ cf = (b4, w4) /\ st4 = PBNS_OK).
  { eapply (runs_outcome _ _ _ u4 (b4, w4) st4 tt); [unfold on_upload; by rewrite E4|done|done]. }
  intros _ u5 cf5 _ (-> & -> & Hst4). apply runs_ret; [done|]. destruct Hfin as [[Hf Hn]|(-> & _)]; [|done]. split; [done|]. split; [done|]. by exists response, w, r.
Qed.
End verdict.

(** ** The whole run *)

Section run.
Context `{Q : QCBORSpiffy} `{T : !TreeReads} `{M : Machine} {W : Type} (e : endpoint W) `{L : !EndpointLaws e} `{K : !Ticking e}.
Context (parts : run_parts W) `{R : !RunLaws e parts} (fuel : nat) (config : pbns_attestation_run_config W) (places : run_places).
Implicit Types (u : pbns_attestation_upload) (b : pbns_broker W) (w : W) (ws : pbns_attestation_run_workspace).

Definition run_buffers ws : list pbns_buffer := collect_buffers ws ++ extra_buffers ws.

Definition sized_buffer (buffer : pbns_buffer) (capacity : Z) : Prop := buffer_is_valid buffer = true /\ b_cap buffer = capacity.

Lemma capacities_sized ws : capacities_valid ws = true -> Forall2 sized_buffer (run_buffers ws) run_capacities.
Proof.
  unfold capacities_valid. fold (run_buffers ws). assert (Hl : length (run_buffers ws) = length run_capacities) by done.
  generalize dependent run_capacities. generalize (run_buffers ws). intros buffers. induction buffers as [|bf buffers IH]; intros [|k ks] Hl E; [done..|].
  cbn [zip zip_with forallb] in E. bools. constructor; [done|]. apply IH; [by injection Hl|done].
Qed.

Lemma wiped_buffer bf k : sized_buffer bf k -> sized_buffer (run_wipe_buffer bf) k /\ all_zeros (run_wipe_buffer bf) /\ b_ptr (run_wipe_buffer bf) = b_ptr bf.
Proof.
  intros [Hv Hc]. unfold run_wipe_buffer. destruct (Z.eqb_spec (b_ptr bf) 0) as [Hp|Hp].
  - split; [done|]. split; [|done]. unfold all_zeros. apply buffer_is_valid_spec in Hv as [_ [?|Hn]]; [done|]. rewrite Hn. constructor.
  - unfold sized_buffer, buffer_is_valid, b_cap, all_zeros, with_data in *. cbn [b_len b_ptr b_data] in *. rewrite length_replicate. split; [done|]. split; [by apply Forall_replicate|done].
Qed.

Lemma run_buffers_wiped ws : run_buffers (wipe_run_workspace ws) = map run_wipe_buffer (run_buffers ws).
Proof. done. Qed.

Lemma wiped_sized ws : Forall2 sized_buffer (run_buffers ws) run_capacities ->
  Forall2 sized_buffer (run_buffers (wipe_run_workspace ws)) run_capacities /\ Forall all_zeros (run_buffers (wipe_run_workspace ws)).
Proof.
  rewrite run_buffers_wiped. induction 1 as [|bf k buffers ks Hb _ [IH1 IH2]]; [by split; constructor|]. destruct (wiped_buffer _ _ Hb) as (H1 & H2 & _). cbn [map]. split; by constructor.
Qed.

(** A verdict that was shown: a challenge was accepted, evidence submitted for it, and the
    verdict signed for both. *)
Definition attested ws (staged : pbns_attestation_run_result) : Prop :=
  exists issue c digest, challenge_taken parts config ws issue c /\ evidence_submitted parts fuel config ws places c digest
  /\ receipt_taken parts config ws c digest staged.

Hypothesis (Hfuel : (enough_fuel <= fuel)%nat).
Hypothesis (Hhost : length (rc_host_fingerprint config) = 32%nat /\ bytes_ok (rc_host_fingerprint config)).

Lemma receipt_buffers ws : Forall2 sized_buffer (run_buffers ws) run_capacities ->
  Forall2 (fun bf k => buffer_is_valid bf = true /\ b_cap bf = k) [rw_canonical_payload (nw_receipt ws); rw_canonical_cose (nw_receipt ws); rw_aad (nw_receipt ws)]
    [PBNS_ATTESTATION_RECEIPT_MAX_PAYLOAD_SIZE; PBNS_ATTESTATION_RECEIPT_MAX_SIGNED_SIZE; PBNS_ATTESTATION_RECEIPT_MAX_AAD_SIZE].
Proof.
  intros HF. constructor; [exact (Forall2_lookup_lr _ _ _ 16 _ _ HF eq_refl eq_refl)|]. constructor; [exact (Forall2_lookup_lr _ _ _ 17 _ _ HF eq_refl eq_refl)|].
  constructor; [exact (Forall2_lookup_lr _ _ _ 18 _ _ HF eq_refl eq_refl)|constructor].
Qed.

Lemma runs_all ws b w : Forall2 sized_buffer (run_buffers ws) run_capacities -> ready e zero_upload (b, w) ->
  runs (run_steps parts fuel config ws places) zero_upload (b, w) (active e)
    (fun staged u' cf => au_finished u' = true /\ no_session e (fst cf) (snd cf) /\ attested ws staged).
Proof.
  intros Hws Hr. unfold run_steps. apply runs_outside. intros st start w1 E1. apply (rl_clock e) in E1. pose proof (ready_quiet e _ _ _ _ Hr E1) as Hr1. split; [by apply ready_active|]. intros _.
  apply runs_outside. intros st2 timeout w2 E2. apply (gate_quiet e parts) in E2. pose proof (ready_quiet e _ _ _ _ Hr1 E2) as Hr2. split; [by apply ready_active|]. intros _.
  assert (Hweak : forall {A} (m : run_step A) u c P, runs m u c (ready e) P -> runs m u c (active e) (fun x u' c' => ready e u' c' /\ P x u' c')).
  { intros A m u0 c0 P Hm. eapply runs_weaken; [exact Hm|apply ready_active|done]. }
  eapply runs_bind; [by apply Hweak, (runs_ask e)|]. intros issue u [b3 w3] _ [Hr3 Hiss]. pose proof Hr3 as (-> & _).
  eapply runs_bind; [by apply Hweak, (runs_take e)|]. intros [c deadline] u [b4 w4] _ (Hr4 & -> & Hch). cbn [fst] in Hch.
  eapply runs_bind; [by apply Hweak, (runs_capture e)|]. intros [[inventory measured] t5] u [b5 w5] _ (Hr5 & -> & Hinv & Hmeas). cbn [fst snd] in Hinv, Hmeas.
  assert (Hc : challenge_issued c /\ bytes_ok (ch_request_id c)).
  { destruct Hch as (time & w0 & _ & (Hid & _) & _ & verify & p & w' & _ & _ & Hi & _). split; [done|]. rewrite Hid. by destruct Hiss as (_ & _ & Hb). }
  destruct Hc as [Hi Hid]. eapply runs_bind; [by apply (runs_submit e)|]. intros digest u [b6 w6] Ha6 [Hdl Hsub].
  eapply runs_weaken; [apply (runs_check e parts fuel config ws places); [done|done|by apply receipt_buffers|done|done|done]|done|]. intros staged u7 c7 _ (Hf & Hn & Hrec). split; [done|]. split; [done|]. by exists issue, c, digest.
Qed.

Lemma cleared b w : no_session e b w -> no_session e (clear_decoded b) w /\ is_wiped (st_decoded (k_storage (clear_decoded b))).
Proof.
  intros (Hwf & Hi & Hl). pose proof Hwf as (_ & _ & _ & Hs & _). pose proof Hs as (P1 & P2 & P3 & P4 & C1 & C2 & C3 & C4 & Ov & B1 & B2 & B3). unfold clear_decoded, run_wipe_buffer.
  rewrite (proj2 (Z.eqb_neq (b_ptr (st_decoded (k_storage b))) 0)) by lia. split; [split; [|split; [|done]]|].
  - apply (wf_set_storage e); [done| |].
    + split; [done|]. split; [done|]. split; [done|]. unfold same_geom, with_data. cbn. by rewrite length_replicate.
    + unfold storage_ok, b_cap, with_data in *. cbn [st_encoded st_raw_scratch st_receive st_decoded b_ptr b_data]. rewrite length_replicate. by split_and!.
  - unfold idle in *. cbn. tauto.
  - unfold is_wiped, with_data. cbn. by rewrite length_replicate.
Qed.

(** An upload that is not in the middle of a session. *)
Lemma settled u cf : active e u cf -> au_started u && negb (au_finished u) && negb (au_cancelled u) = false -> no_session e (fst cf) (snd cf).
Proof.
  intros (_ & _ & payloads & Hp) E. destruct Hp as [Hfl Hn Hno|p0 prefix (F1 & F2 & F3 & F4)|p0 prefix w0 resp (F1 & F2 & F3 & F4)|p0 Hst He Hno]; [done|by rewrite F1, F3, F4 in E..|done].
Qed.

(** What a run leaves, on usable arguments. *)
Record run_left ws b w (st : pbns_status) (result : pbns_attestation_run_result) ws' b' w' : Prop := mk_run_left {
  rn_idle : no_session e b' w';
  rn_decoded : is_wiped (st_decoded (k_storage b'));
  rn_wiped : Forall all_zeros (run_buffers ws');
  rn_verdict : (result = zero_run_result /\ st <> PBNS_OK)
    \/ (attested (wipe_run_workspace ws) result
        /\ exists w0 shown_st, rp_display parts w0 result = (shown_st, w')
           /\ st = if is_ok shown_st then if nr_verdict result =? PBNS_ATTESTATION_RECEIPT_FAILURE then PBNS_ERR_AUTHENTICATION else PBNS_OK else shown_st);
}.

Lemma run_returns ws b w result : no_session e b w -> deadline_bounded b -> arguments_valid config parts b ws places = true ->
  exists st result' ws' b' w', attestation_run fuel config parts b ws places result w = Some (st, result', ws', b', w') /\ run_left ws b w st result' ws' b' w'.
Proof.
  intros Hn Hd Hv. unfold attestation_run. rewrite Hv. cbn [negb]. unfold arguments_valid in Hv. rewrite !andb_true_iff in Hv. destruct Hv as [[_ Hcap] _].
  apply capacities_sized, wiped_sized in Hcap as [Hsz _]. destruct (wiped_sized _ Hsz) as [_ Hz].
  destruct (runs_all (wipe_run_workspace ws) b w Hsz) as (r & u & [b1 w1] & E & Ha & Hr); [done|]. rewrite E. cbn [mbind option_bind]. destruct r as [st|staged].
  - assert (Hend : exists b2 w2, (if au_started u && negb (au_finished u) && negb (au_cancelled u)
      then match attestation_upload_cancel u (b1, w1) with Ret (_, _, cf) => Some cf | _ => None end else Some (b1, w1)) = Some (b2, w2) /\ no_session e b2 w2).
    { destruct (_ && _) eqn:Es; [|exists b1, w1; split; [done|by apply (settled u (b1, w1))]]. destruct Ha as (Hg & _ & payloads & Hp).
      destruct (cancel_call_returns e u b1 w1 payloads Hg Hp) as (st2 & u2 & b2 & w2 & -> & _ & _ & Hn2 & _). by exists b2, w2. }
    destruct Hend as (b2 & w2 & Eq & Hn2). unfold cfg in *. rewrite Eq. cbn [mbind option_bind]. destruct (cleared b2 w2 Hn2) as [Hn3 Hw3]. do 5 eexists. split; [done|]. constructor; [done|done|done|by left].
  - destruct Hr as (_ & Hn1 & Hat). cbn [fst snd mbind option_bind] in *. destruct (cleared b1 w1 Hn1) as [(Hwf & Hi & Hl) Hw3]. destruct (rp_display parts w1 staged) as [st2 w2] eqn:Ed.
    do 5 eexists. split; [done|]. constructor; [|done|done|right; split; [done|]; exists w1, st2; split; [done|]; by destruct (is_ok st2)].
    split; [done|]. split; [done|]. destruct (rl_display e _ _ _ _ Ed) as [El _]. by rewrite El.
Qed.
End run.

(** ** Properties *)


(** ** Witness *)

Definition ex_run_crypto : pbns_crypto script :=
  mk_crypto (Some (mk_crypto_ops (Some (fun w _ _ b => (PBNS_OK, b_data b, 1, w))) None (Some (fun w _ _ => (PBNS_OK, null_view, w)))
    (Some (fun w _ _ _ => (PBNS_OK, null_view, w))) (Some (fun w _ _ _ b => (PBNS_OK, replicate (length (b_data b)) 1, 1, w))) None)) 1.

Definition ex_run_parts : run_parts script :=
  mk_run_parts ex_run_crypto ex_run_crypto ex_run_crypto ex_run_crypto (fun w _ => (PBNS_OK, replicate 32 7, w))
    (fun w _ _ q s => (PBNS_OK, b_data q, 1, b_data s, 1, w)) (fun w => (PBNS_OK, mk_interval 2000 3000, w)) (fun w => (PBNS_OK, 5, w))
    (fun w => (PBNS_OK, false, w)) (fun w _ => (PBNS_OK, zero_report, w)) (fun w _ _ => (PBNS_OK, ex_measured, w)) (fun w _ => (PBNS_OK, w)).

#[export] Instance ex_run_laws : RunLaws scripted ex_run_parts.
Proof.
  constructor.
  - by intros w v st d w' [= <- <- <-].
  - by intros w sel q qb sb st qd qn sd sn w' [= <- <- <- <- <- <-].
  - by intros sign w p a b st d n w' [= <-] [= <- <- <- <-].
  - intros encrypt w k p a b st d n w' [= <-] [= <- <- <- <-]. rewrite length_replicate. split; [done|]. split; [apply Forall_replicate; unfold is_byte; lia|done].
  - by intros verify w s a k st p w' [= <-] [= <- <- <-].
  - by intros verify w s a st p w' [= <-] [= <- <- <-].
  - by intros w st t w' [= <- <- <-].
  - by intros w st now w' [= <- <- <-].
  - by intros w st b w' [= <- <- <-].
  - intros w scratch st r w' [= <- <- <-]. split; [exact (sg_report _ _ ex_parts_given)|done].
  - intros w selection arena st m w' [= <- <- <-]. split; [exact (sg_measured _ _ ex_parts_given)|done].
  - by intros w result st w' [= <- <-].
Qed.

Definition ex_template : pbns_attestation_submission script :=
  mk_submission script None None null_view null_view (Some (rp_signer ex_run_parts)) (Some (rp_encrypter ex_run_parts)) (Some (rp_sha256 ex_run_parts))
    (Some (rp_quote ex_run_parts)) None None null_buffer 1 1 0 0 (1, 8) (1, 8) (1, 8) (1, 8) (0, 0) (0, 0).

Definition ex_run_config : pbns_attestation_run_config script :=
  mk_run_config 1 1 (1, 8) (1, 8) PBNS_IDENTITY_TPM_UNVERIFIED_EK (replicate 32 8) (mk_view 40 [1; 2]) (mk_view 50 [6; 6]) (mk_view 60 [6; 6]) (mk_view 70 [1]) (mk_view 80 [2])
    (Some (rp_challenge_verifier ex_run_parts)) (Some (rp_receipt_verifier ex_run_parts)) (1, 8) (1, 8) ex_template
    (mk_run_ops (Some (rp_trusted_time ex_run_parts)) (Some (rp_monotonic_ms ex_run_parts)) (Some (rp_cancel_requested ex_run_parts))
       (Some (rp_capture_inventory ex_run_parts)) (Some (rp_capture_measured ex_run_parts)) (Some (rp_display ex_run_parts))) 1 (1, 8) 1000.

Definition ex_run_places : run_places :=
  mk_run_places (100, 8) (110, 8) (120, 8) (130, 8) (140, 8) (150, 8) (160, 8) (170, 8) (180, 8) (190, 8) (200, 8) (210, 8) (220, 8) (230, 8) 104 240 250 260
    (mk_challenge_places (250, 40) (300, 8) (310, 8) (160, 8) (112, 2)) (mk_submission_places (250, 40) (320, 8) (330, 8) (340, 8) (200, 8) (220, 8) (114, 2)) (350, 8) (360, 8).

Definition ex_run_workspace : pbns_attestation_run_workspace :=
  mk_run_workspace (ex_space 1073741824 PBNS_ATTESTATION_WIRE_MAX_SIZE) (ex_space 1090519040 PBNS_ATTESTATION_WIRE_MAX_SIZE) (ex_space 1107296256 PBNS_ATTESTATION_WIRE_MAX_SIZE)
    (ex_space 1124073472 PBNS_ATTESTATION_WIRE_MAX_SIZE)
    (mk_challenge_workspace (ex_space 1140850688 PBNS_ATTESTATION_CHALLENGE_MAX_SIZE) (ex_space 1157627904 PBNS_ATTESTATION_AAD_MAX_SIZE))
    (ex_space 1174405120 PBNS_INVENTORY_VARIABLE_MAX_SIZE) (ex_space 1191182336 PBNS_MEASURED_BOOT_EVENT_LOG_MAX_SIZE) ex_workspace
    (mk_receipt_workspace (ex_space 1207959552 PBNS_ATTESTATION_RECEIPT_MAX_PAYLOAD_SIZE) (ex_space 1224736768 PBNS_ATTESTATION_RECEIPT_MAX_SIGNED_SIZE)
       (ex_space 1241513984 PBNS_ATTESTATION_RECEIPT_MAX_AAD_SIZE))
    (ex_space 1258291200 PBNS_ATTESTATION_DIGEST_SIZE).

Lemma ex_run_usable : run_parts_of ex_run_config = Some ex_run_parts
  /\ @arguments_valid script x86_64 ex_run_config ex_run_parts ex_broker ex_run_workspace ex_run_places = true.
Proof.
  split; [reflexivity|]. unfold arguments_valid. apply andb_true_intro. split; [apply andb_true_intro; split; [vm_compute; reflexivity|]|].
  - unfold capacities_valid, collect_buffers, extra_buffers, workspace_buffers, run_capacities, workspace_capacities, ex_run_workspace, ex_workspace, buffer_is_valid.
    cbn [nw_issue_wire nw_issue_canonical nw_submit_wire nw_submit_canonical nw_challenge nw_inventory_variable_scratch nw_event_log_arena nw_attestation nw_receipt nw_evidence_digest
      cw_canonical cw_aad rw_canonical_payload rw_canonical_cose rw_aad aw_inventory aw_selection aw_quote aw_quote_signature aw_evidence aw_signed_evidence aw_ciphertext aw_aad
      app zip zip_with forallb].
    rewrite !ex_space_cap, !(fun a n => proj1 (ex_space_at a n)), !(fun a n => proj2 (ex_space_at a n)) by done. vm_compute. reflexivity.
  - unfold run_layout_valid, collect_buffers, workspace_buffers, run_buffers_apart, buffer_range, ex_run_workspace, ex_workspace.
    cbn [nw_issue_wire nw_issue_canonical nw_submit_wire nw_submit_canonical nw_challenge nw_inventory_variable_scratch nw_event_log_arena nw_attestation nw_receipt nw_evidence_digest
      cw_canonical cw_aad rw_canonical_payload rw_canonical_cose rw_aad aw_inventory aw_selection aw_quote aw_quote_signature aw_evidence aw_signed_evidence aw_ciphertext aw_aad
      app].
    rewrite !ex_space_cap, !(fun a n => proj1 (ex_space_at a n)) by done. vm_compute. reflexivity.
Qed.

