(* ===== verification/EnrollmentWire.v ===== *)
(** * Enrollment messages ([include/pbns/enrollment_wire.h], [src/core/enrollment_wire.c])

    Enrollment exchanges four signed objects: an initialisation, a challenge, a
    proof and a receipt.  Each is a canonical CBOR map with the common context
    as its first field; the first and the third exist in a software and in a TPM
    flavour.  Sealed objects travel in an envelope, and everything travels in an
    outer object that names the operation.  A decoder reads the fields by label,
    checks them, encodes what it read into a scratch buffer and compares.  The
    associated data of the seals and signatures are concatenations that begin
    with the purpose. *)

From stdpp Require Import base list numbers.
From Stdlib Require Import ZArith Lia.
From S2P Require Import Prelude Status Buffers Cbor CborTree FlatMap Compare Enrollment.

(** ** Constants *)

(** "PBNS-ENROLLMENT-v1" *)
Definition PBNS_ENROLLMENT_DOMAIN : bytes := [80; 66; 78; 83; 45; 69; 78; 82; 79; 76; 76; 77; 69; 78; 84; 45; 118; 49].
Definition PBNS_ENROLLMENT_VERSION : Z := 1.
Definition PBNS_ENROLLMENT_SERVICE : Z := 4.
Definition PBNS_ENROLLMENT_STAGE_INIT : Z := 1.
Definition PBNS_ENROLLMENT_STAGE_CHALLENGE : Z := 2.
Definition PBNS_ENROLLMENT_STAGE_PROOF : Z := 3.
Definition PBNS_ENROLLMENT_STAGE_RECEIPT : Z := 4.
Definition PBNS_ENROLLMENT_FLOW_SOFTWARE : Z := 1.
Definition PBNS_ENROLLMENT_FLOW_TPM : Z := 2.
Definition PBNS_ENROLLMENT_KEY_ID_MAX_SIZE : Z := 64.
Definition PBNS_ENROLLMENT_PUBLIC_KEY_MAX_SIZE : Z := 16384.
Definition PBNS_ENROLLMENT_BASELINE_MAX_SIZE : Z := 60 * 1024.
Definition PBNS_ENROLLMENT_OBJECT_MAX_SIZE : Z := 65536.

(** ** Objects *)

Record pbns_enrollment_common_context := mk_common {
  ec_request_id : bytes;
  ec_host_fingerprint : bytes;
  ec_nonce : bytes;
  ec_stage : Z;
  ec_sequence : Z;
  ec_key_id : pbns_view;
}.

Record pbns_enrollment_software_init := mk_software_init {
  si_context : pbns_enrollment_common_context;
  si_token : bytes;
  si_identity_cose_key : pbns_view;
  si_initial_evidence_digest : bytes;
  si_host_nonce : bytes;
}.

Record pbns_enrollment_tpm_init := mk_tpm_init {
  ti_context : pbns_enrollment_common_context;
  ti_token : bytes;
  ti_ek_public : pbns_view;
  ti_ak_public : pbns_view;
  ti_ak_name : pbns_view;
  ti_ek_certificate : pbns_view;
  ti_identity_cose_key : pbns_view;
  ti_initial_evidence_digest : bytes;
  ti_host_nonce : bytes;
  ti_identity_tpm_public : pbns_view;
}.

Record pbns_enrollment_challenge_object := mk_challenge_object {
  co_context : pbns_enrollment_common_context;
  co_host_nonce : bytes;
  co_server_nonce : bytes;
  co_init_digest : bytes;
  co_credential_blob : pbns_view;
  co_encrypted_secret : pbns_view;
  co_flow : Z;
}.

Record pbns_enrollment_software_proof := mk_software_proof {
  sp_context : pbns_enrollment_common_context;
  sp_server_nonce : bytes;
  sp_init_digest : bytes;
  sp_baseline_digest : bytes;
  sp_baseline_evidence : pbns_view;
}.

Record pbns_enrollment_tpm_proof := mk_tpm_proof {
  tp_context : pbns_enrollment_common_context;
  tp_server_nonce : bytes;
  tp_init_digest : bytes;
  tp_activated_credential : pbns_view;
  tp_certify_attestation : pbns_view;
  tp_certify_signature : pbns_view;
  tp_baseline_digest : bytes;
  tp_baseline_evidence : pbns_view;
}.

Record pbns_enrollment_receipt_object := mk_receipt_object {
  ro_context : pbns_enrollment_common_context;
  ro_fingerprint : bytes;
  ro_assurance : pbns_view;
  ro_baseline_digest : bytes;
  ro_enrolled_at_unix : Z;
  ro_key_id : pbns_view;
}.

Record pbns_enrollment_encrypted_envelope := mk_envelope {
  ee_request_id : bytes;
  ee_host_nonce : bytes;
  ee_recipient_key_id : pbns_view;
  ee_ciphertext : pbns_view;
}.

Record pbns_enrollment_wire_object := mk_wire_object {
  wo_operation : Z;
  wo_object : pbns_view;
}.

Definition zero_common : pbns_enrollment_common_context :=
  mk_common (replicate 16 0) (replicate 32 0) (replicate 32 0) 0 0 null_view.
Definition zero_challenge_object : pbns_enrollment_challenge_object :=
  mk_challenge_object zero_common (replicate 32 0) (replicate 32 0) (replicate 32 0) null_view null_view 0.
Definition zero_receipt_object : pbns_enrollment_receipt_object :=
  mk_receipt_object zero_common (replicate 32 0) null_view (replicate 32 0) 0 null_view.
Definition zero_envelope : pbns_enrollment_encrypted_envelope :=
  mk_envelope (replicate 16 0) (replicate 32 0) null_view null_view.
Definition zero_wire_object : pbns_enrollment_wire_object := mk_wire_object 0 null_view.

(** ** Validity

    [nonzero] and [equal] on arrays of the objects, which are never null, are
    [ct_nonzero] and [ct_equal]. *)

Definition view_equal (left right : pbns_view) : bool :=
  (v_len left =? v_len right)
  && ((v_len left =? 0) || (negb (v_ptr left =? 0) && negb (v_ptr right =? 0) && ct_equal (v_data left) (v_data right))).

(** [view_valid(value) && 0 < value.len && value.len <= limit] *)
Definition view_within (limit : Z) (value : pbns_view) : bool :=
  view_is_valid value && (0 <? v_len value) && (v_len value <=? limit).

Definition common_valid (c : pbns_enrollment_common_context) (stage sequence : Z) : bool :=
  ct_nonzero (ec_request_id c) && ct_nonzero (ec_host_fingerprint c) && ct_nonzero (ec_nonce c)
  && (ec_stage c =? stage) && (ec_sequence c =? sequence) && view_within PBNS_ENROLLMENT_KEY_ID_MAX_SIZE (ec_key_id c).

Definition software_init_valid (v : pbns_enrollment_software_init) : bool :=
  common_valid (si_context v) PBNS_ENROLLMENT_STAGE_INIT 0 && ct_nonzero (si_token v)
  && view_within PBNS_ENROLLMENT_PUBLIC_KEY_MAX_SIZE (si_identity_cose_key v)
  && ct_nonzero (si_initial_evidence_digest v) && ct_equal (si_host_nonce v) (ec_nonce (si_context v)).

Definition tpm_init_valid (v : pbns_enrollment_tpm_init) : bool :=
  common_valid (ti_context v) PBNS_ENROLLMENT_STAGE_INIT 0 && ct_nonzero (ti_token v)
  && view_within PBNS_ENROLLMENT_PUBLIC_KEY_MAX_SIZE (ti_ek_public v)
  && view_within PBNS_ENROLLMENT_PUBLIC_KEY_MAX_SIZE (ti_ak_public v) && view_within 64 (ti_ak_name v)
  && view_is_valid (ti_ek_certificate v) && (v_len (ti_ek_certificate v) <=? PBNS_ENROLLMENT_PUBLIC_KEY_MAX_SIZE)
  && view_within PBNS_ENROLLMENT_PUBLIC_KEY_MAX_SIZE (ti_identity_cose_key v)
  && view_within PBNS_ENROLLMENT_PUBLIC_KEY_MAX_SIZE (ti_identity_tpm_public v)
  && ct_nonzero (ti_initial_evidence_digest v) && ct_equal (ti_host_nonce v) (ec_nonce (ti_context v)).

Definition challenge_valid (v : pbns_enrollment_challenge_object) : bool :=
  common_valid (co_context v) PBNS_ENROLLMENT_STAGE_CHALLENGE 0 && ct_equal (co_host_nonce v) (ec_nonce (co_context v))
  && ct_nonzero (co_server_nonce v) && ct_nonzero (co_init_digest v) && view_is_valid (co_credential_blob v)
  && view_is_valid (co_encrypted_secret v)
  && ((co_flow v =? PBNS_ENROLLMENT_FLOW_SOFTWARE) || (co_flow v =? PBNS_ENROLLMENT_FLOW_TPM))
  && (negb (co_flow v =? PBNS_ENROLLMENT_FLOW_SOFTWARE)
      || ((v_len (co_credential_blob v) =? 0) && (v_len (co_encrypted_secret v) =? 0))).

Definition software_proof_valid (v : pbns_enrollment_software_proof) : bool :=
  common_valid (sp_context v) PBNS_ENROLLMENT_STAGE_PROOF 1 && ct_nonzero (sp_server_nonce v) && ct_nonzero (sp_init_digest v)
  && ct_nonzero (sp_baseline_digest v) && view_within PBNS_ENROLLMENT_BASELINE_MAX_SIZE (sp_baseline_evidence v).

Definition tpm_proof_valid (v : pbns_enrollment_tpm_proof) : bool :=
  common_valid (tp_context v) PBNS_ENROLLMENT_STAGE_PROOF 1 && ct_nonzero (tp_server_nonce v) && ct_nonzero (tp_init_digest v)
  && view_within 64 (tp_activated_credential v) && view_within 2048 (tp_certify_attestation v)
  && view_within 512 (tp_certify_signature v) && ct_nonzero (tp_baseline_digest v)
  && view_within PBNS_ENROLLMENT_BASELINE_MAX_SIZE (tp_baseline_evidence v).

Definition receipt_valid (v : pbns_enrollment_receipt_object) : bool :=
  common_valid (ro_context v) PBNS_ENROLLMENT_STAGE_RECEIPT 2 && ct_nonzero (ro_fingerprint v)
  && view_within 64 (ro_assurance v) && ct_nonzero (ro_baseline_digest v) && (0 <? ro_enrolled_at_unix v)
  && view_is_valid (ro_key_id v) && view_equal (ec_key_id (ro_context v)) (ro_key_id v).

Definition envelope_valid (v : pbns_enrollment_encrypted_envelope) : bool :=
  ct_nonzero (ee_request_id v) && ct_nonzero (ee_host_nonce v)
  && view_within PBNS_ENROLLMENT_KEY_ID_MAX_SIZE (ee_recipient_key_id v)
  && view_within PBNS_ENROLLMENT_OBJECT_MAX_SIZE (ee_ciphertext v).

Definition wire_object_valid (v : pbns_enrollment_wire_object) : bool :=
  ((wo_operation v =? 1) || (wo_operation v =? 2)) && view_within PBNS_ENROLLMENT_OBJECT_MAX_SIZE (wo_object v).

(** ** Encoding: what the encoder calls of each function write *)

Definition enroll_common_tree (c : pbns_enrollment_common_context) : cbor_tree :=
  TMap [leaf (1, CText PBNS_ENROLLMENT_DOMAIN); leaf (2, CUInt PBNS_ENROLLMENT_VERSION); leaf (3, CUInt PBNS_ENROLLMENT_SERVICE);
        leaf (4, CBytes (ec_request_id c)); leaf (5, CBytes (ec_host_fingerprint c)); leaf (6, CBytes (ec_nonce c));
        leaf (7, CUInt (ec_stage c)); leaf (8, CUInt (ec_sequence c)); leaf (9, CBytes (v_data (ec_key_id c)))].

Definition software_init_tree (v : pbns_enrollment_software_init) : cbor_tree :=
  TMap [(1, enroll_common_tree (si_context v)); leaf (10, CBytes (si_token v)); leaf (11, CBytes []); (12, TArray []);
        leaf (13, CBytes []); leaf (14, CBytes []); leaf (15, CBytes (v_data (si_identity_cose_key v)));
        leaf (16, CBytes (si_initial_evidence_digest v)); leaf (17, CBytes (si_host_nonce v));
        leaf (18, CUInt PBNS_ENROLLMENT_FLOW_SOFTWARE); leaf (19, CBytes []); leaf (20, CBytes []); leaf (21, CBytes []);
        leaf (22, CBytes [])].

Definition tpm_init_tree (v : pbns_enrollment_tpm_init) : cbor_tree :=
  TMap [(1, enroll_common_tree (ti_context v)); leaf (10, CBytes (ti_token v)); leaf (11, CBytes (v_data (ti_ek_public v)));
        (12, TArray (if 0 <? v_len (ti_ek_certificate v) then [TValue (CBytes (v_data (ti_ek_certificate v)))] else []));
        leaf (13, CBytes (v_data (ti_ak_public v))); leaf (14, CBytes (v_data (ti_ak_name v)));
        leaf (15, CBytes (v_data (ti_identity_cose_key v))); leaf (16, CBytes (ti_initial_evidence_digest v));
        leaf (17, CBytes (ti_host_nonce v)); leaf (18, CUInt PBNS_ENROLLMENT_FLOW_TPM); leaf (19, CBytes []);
        leaf (20, CBytes []); leaf (21, CBytes []); leaf (22, CBytes (v_data (ti_identity_tpm_public v)))].

Definition challenge_object_tree (v : pbns_enrollment_challenge_object) : cbor_tree :=
  TMap [(1, enroll_common_tree (co_context v)); leaf (20, CBytes (co_host_nonce v)); leaf (21, CBytes (co_server_nonce v));
        leaf (22, CBytes (co_init_digest v)); leaf (23, CBytes (v_data (co_credential_blob v)));
        leaf (24, CBytes (v_data (co_encrypted_secret v))); leaf (25, CUInt (co_flow v))].

Definition software_proof_tree (v : pbns_enrollment_software_proof) : cbor_tree :=
  TMap [(1, enroll_common_tree (sp_context v)); leaf (30, CBytes (sp_server_nonce v)); leaf (31, CBytes (sp_init_digest v));
        leaf (32, CBytes []); leaf (33, CBytes []); leaf (34, CBytes []); leaf (35, CBytes (sp_baseline_digest v));
        leaf (36, CBytes (v_data (sp_baseline_evidence v))); leaf (37, CUInt PBNS_ENROLLMENT_FLOW_SOFTWARE)].

Definition tpm_proof_tree (v : pbns_enrollment_tpm_proof) : cbor_tree :=
  TMap [(1, enroll_common_tree (tp_context v)); leaf (30, CBytes (tp_server_nonce v)); leaf (31, CBytes (tp_init_digest v));
        leaf (32, CBytes (v_data (tp_activated_credential v))); leaf (33, CBytes (v_data (tp_certify_attestation v)));
        leaf (34, CBytes (v_data (tp_certify_signature v))); leaf (35, CBytes (tp_baseline_digest v));
        leaf (36, CBytes (v_data (tp_baseline_evidence v))); leaf (37, CUInt PBNS_ENROLLMENT_FLOW_TPM)].

Definition receipt_object_tree (v : pbns_enrollment_receipt_object) : cbor_tree :=
  TMap [(1, enroll_common_tree (ro_context v)); leaf (40, CBytes (ro_fingerprint v)); leaf (41, CText (v_data (ro_assurance v)));
        leaf (42, CBytes (ro_baseline_digest v)); leaf (43, CInt (ro_enrolled_at_unix v)); leaf (44, CBytes (v_data (ro_key_id v)))].

Definition envelope_tree (v : pbns_enrollment_encrypted_envelope) : cbor_tree :=
  TMap [leaf (1, CBytes (ee_request_id v)); leaf (2, CBytes (ee_host_nonce v)); leaf (3, CBytes (v_data (ee_recipient_key_id v)));
        leaf (4, CBytes (v_data (ee_ciphertext v)))].

Definition wire_object_tree (v : pbns_enrollment_wire_object) : cbor_tree :=
  TMap [leaf (1, CUInt (wo_operation v)); leaf (2, CBytes (v_data (wo_object v)))].

Section code.
Context `{S : QCBORSpiffy}.

(** [finish]: the status and [*written], which is stored on success only. *)
Definition enroll_finish (error : QCBORError) (encoded : bytes) : pbns_status * Z :=
  match error with
  | QCBOR_ERR_BUFFER_TOO_SMALL => (PBNS_ERR_LIMIT, 0)
  | QCBOR_ERR_OTHER => (PBNS_ERR_FORMAT, 0)
  | QCBOR_SUCCESS =>
      if (zlen encoded =? 0) || (PBNS_ENROLLMENT_OBJECT_MAX_SIZE <? zlen encoded) then (PBNS_ERR_FORMAT, 0)
      else (PBNS_OK, zlen encoded)
  end.

(** The encoder calls of a function, then [finish]: the status, the octets of the
    storage and [*written]. *)
Definition enroll_encode (tree : cbor_tree) (storage : bytes) : pbns_status * bytes * Z :=
  let '(error, encoded, data) := QCBOREncode_tree tree storage in
  let '(status, written) := enroll_finish error encoded in
  (status, data, written).

Definition challenge_encode_unchecked (v : pbns_enrollment_challenge_object) : bytes -> pbns_status * bytes * Z :=
  enroll_encode (challenge_object_tree v).
Definition receipt_encode_unchecked (v : pbns_enrollment_receipt_object) : bytes -> pbns_status * bytes * Z :=
  enroll_encode (receipt_object_tree v).
Definition envelope_encode_unchecked (v : pbns_enrollment_encrypted_envelope) : bytes -> pbns_status * bytes * Z :=
  enroll_encode (envelope_tree v).
Definition wire_encode_unchecked (v : pbns_enrollment_wire_object) : bytes -> pbns_status * bytes * Z :=
  enroll_encode (wire_object_tree v).

(** [*written] is cleared first; the number of octets of the output that may be
    used is limited. *)
Definition begin_encode (output : pbns_buffer) (written : ptr Z) : pbns_status * Z * ptr Z :=
  let written := (fun _ => 0) <$> written in
  match written with
  | None => (PBNS_ERR_ARGUMENT, b_cap output, None)
  | Some _ =>
      if negb (buffer_is_valid output) then (PBNS_ERR_ARGUMENT, b_cap output, written)
      else (PBNS_OK, if PBNS_ENROLLMENT_OBJECT_MAX_SIZE <? b_cap output then PBNS_ENROLLMENT_OBJECT_MAX_SIZE else b_cap output, written)
  end.

(** The frame of every encoder: [begin_encode], the checks of the object, and
    the encoder calls into the limited output.  The result is the status, the
    octets of the output and [*written]. *)
Definition encode_object {A} (valid : A -> bool) (encode : A -> bytes -> pbns_status * bytes * Z) (value : ptr A) (output : pbns_buffer)
    (written : ptr Z) : pbns_status * bytes * ptr Z :=
  let '(status, cap, written) := begin_encode output written in
  match value with
  | None => (PBNS_ERR_ARGUMENT, b_data output, written)
  | Some v =>
      if negb (is_ok status) then (PBNS_ERR_ARGUMENT, b_data output, written)
      else if negb (valid v) then (PBNS_ERR_FORMAT, b_data output, written)
      else
      let '(status, data, size) := encode v (take (Z.to_nat cap) (b_data output)) in
      (status, data ++ drop (Z.to_nat cap) (b_data output), (fun _ => size) <$> written)
  end.

Definition pbns_enrollment_software_init_encode : ptr pbns_enrollment_software_init -> pbns_buffer -> ptr Z -> pbns_status * bytes * ptr Z :=
  encode_object software_init_valid (fun v => enroll_encode (software_init_tree v)).
Definition pbns_enrollment_tpm_init_encode : ptr pbns_enrollment_tpm_init -> pbns_buffer -> ptr Z -> pbns_status * bytes * ptr Z :=
  encode_object tpm_init_valid (fun v => enroll_encode (tpm_init_tree v)).
Definition pbns_enrollment_challenge_encode : ptr pbns_enrollment_challenge_object -> pbns_buffer -> ptr Z -> pbns_status * bytes * ptr Z :=
  encode_object challenge_valid challenge_encode_unchecked.
Definition pbns_enrollment_software_proof_encode : ptr pbns_enrollment_software_proof -> pbns_buffer -> ptr Z -> pbns_status * bytes * ptr Z :=
  encode_object software_proof_valid (fun v => enroll_encode (software_proof_tree v)).
Definition pbns_enrollment_tpm_proof_encode : ptr pbns_enrollment_tpm_proof -> pbns_buffer -> ptr Z -> pbns_status * bytes * ptr Z :=
  encode_object tpm_proof_valid (fun v => enroll_encode (tpm_proof_tree v)).
Definition pbns_enrollment_receipt_encode : ptr pbns_enrollment_receipt_object -> pbns_buffer -> ptr Z -> pbns_status * bytes * ptr Z :=
  encode_object receipt_valid receipt_encode_unchecked.
Definition pbns_enrollment_envelope_encode : ptr pbns_enrollment_encrypted_envelope -> pbns_buffer -> ptr Z -> pbns_status * bytes * ptr Z :=
  encode_object envelope_valid envelope_encode_unchecked.
Definition pbns_enrollment_wire_object_encode : ptr pbns_enrollment_wire_object -> pbns_buffer -> ptr Z -> pbns_status * bytes * ptr Z :=
  encode_object wire_object_valid wire_encode_unchecked.

(** ** Decoding *)

(** [None] is [PBNS_ERR_FORMAT]; the decoder goes on in both cases. *)
Definition decode_enroll_common (decoder : QCBORDecodeContext) : option pbns_enrollment_common_context * QCBORDecodeContext :=
  let decoder := QCBORDecode_EnterMapFromMapN decoder 1 in
  let '(domain, decoder) := QCBORDecode_GetTextStringInMapN decoder 1 in
  let '(version, decoder) := QCBORDecode_GetUInt64InMapN decoder 2 in
  let '(service, decoder) := QCBORDecode_GetUInt64InMapN decoder 3 in
  let '(request_id, decoder) := QCBORDecode_GetByteStringInMapN decoder 4 in
  let '(fingerprint, decoder) := QCBORDecode_GetByteStringInMapN decoder 5 in
  let '(nonce, decoder) := QCBORDecode_GetByteStringInMapN decoder 6 in
  let '(stage, decoder) := QCBORDecode_GetUInt64InMapN decoder 7 in
  let '(sequence, decoder) := QCBORDecode_GetUInt64InMapN decoder 8 in
  let '(key_id, decoder) := QCBORDecode_GetByteStringInMapN decoder 9 in
  let decoder := QCBORDecode_ExitMap decoder in
  let domain := default null_view domain in
  let request_id := default null_view request_id in
  let fingerprint := default null_view fingerprint in
  let nonce := default null_view nonce in
  let key_id := default null_view key_id in
  if negb (default 0 version =? PBNS_ENROLLMENT_VERSION) || negb (default 0 service =? PBNS_ENROLLMENT_SERVICE)
     || negb (v_len domain =? zlen PBNS_ENROLLMENT_DOMAIN) || negb (bytes_eqb (v_data domain) PBNS_ENROLLMENT_DOMAIN)
     || negb (v_len request_id =? PBNS_ENROLLMENT_REQUEST_ID_SIZE) || negb (v_len fingerprint =? PBNS_ENROLLMENT_DIGEST_SIZE)
     || negb (v_len nonce =? PBNS_ENROLLMENT_NONCE_SIZE) || (v_len key_id =? 0) || (PBNS_ENROLLMENT_KEY_ID_MAX_SIZE <? v_len key_id)
  then (None, decoder)
  else (Some (mk_common (v_data request_id) (v_data fingerprint) (v_data nonce) (default 0 stage) (default 0 sequence) key_id), decoder).

(** The fields of each object, up to the check of the decoded object; [None] is
    [PBNS_ERR_FORMAT]. *)
Definition read_challenge (encoded : bytes) : option pbns_enrollment_challenge_object :=
  let decoder := QCBORDecode_EnterMap (QCBORDecode_Init encoded) in
  let '(context, decoder) := decode_enroll_common decoder in
  let '(host_nonce, decoder) := QCBORDecode_GetByteStringInMapN decoder 20 in
  let '(server_nonce, decoder) := QCBORDecode_GetByteStringInMapN decoder 21 in
  let '(init_digest, decoder) := QCBORDecode_GetByteStringInMapN decoder 22 in
  let '(credential, decoder) := QCBORDecode_GetByteStringInMapN decoder 23 in
  let '(encrypted, decoder) := QCBORDecode_GetByteStringInMapN decoder 24 in
  let '(flow, decoder) := QCBORDecode_GetUInt64InMapN decoder 25 in
  let decoder := QCBORDecode_ExitMap decoder in
  let host_nonce := default null_view host_nonce in
  let server_nonce := default null_view server_nonce in
  let init_digest := default null_view init_digest in
  match context with
  | None => None
  | Some context =>
      if negb (QCBORDecode_Finish decoder) || negb (v_len host_nonce =? PBNS_ENROLLMENT_NONCE_SIZE)
         || negb (v_len server_nonce =? PBNS_ENROLLMENT_NONCE_SIZE) || negb (v_len init_digest =? PBNS_ENROLLMENT_DIGEST_SIZE)
      then None
      else Some (mk_challenge_object context (v_data host_nonce) (v_data server_nonce) (v_data init_digest)
                   (default null_view credential) (default null_view encrypted) (default 0 flow))
  end.

Definition read_receipt (encoded : bytes) : option pbns_enrollment_receipt_object :=
  let decoder := QCBORDecode_EnterMap (QCBORDecode_Init encoded) in
  let '(context, decoder) := decode_enroll_common decoder in
  let '(fingerprint, decoder) := QCBORDecode_GetByteStringInMapN decoder 40 in
  let '(assurance, decoder) := QCBORDecode_GetTextStringInMapN decoder 41 in
  let '(baseline_digest, decoder) := QCBORDecode_GetByteStringInMapN decoder 42 in
  let '(enrolled_at, decoder) := QCBORDecode_GetInt64InMapN decoder 43 in
  let '(key_id, decoder) := QCBORDecode_GetByteStringInMapN decoder 44 in
  let decoder := QCBORDecode_ExitMap decoder in
  let fingerprint := default null_view fingerprint in
  let baseline_digest := default null_view baseline_digest in
  match context with
  | None => None
  | Some context =>
      if negb (QCBORDecode_Finish decoder) || negb (v_len fingerprint =? PBNS_ENROLLMENT_DIGEST_SIZE)
         || negb (v_len baseline_digest =? PBNS_ENROLLMENT_DIGEST_SIZE)
      then None
      else Some (mk_receipt_object context (v_data fingerprint) (default null_view assurance) (v_data baseline_digest)
                   (default 0 enrolled_at) (default null_view key_id))
  end.

Definition read_envelope (encoded : bytes) : option pbns_enrollment_encrypted_envelope :=
  let decoder := QCBORDecode_EnterMap (QCBORDecode_Init encoded) in
  let '(request_id, decoder) := QCBORDecode_GetByteStringInMapN decoder 1 in
  let '(host_nonce, decoder) := QCBORDecode_GetByteStringInMapN decoder 2 in
  let '(recipient_key_id, decoder) := QCBORDecode_GetByteStringInMapN decoder 3 in
  let '(ciphertext, decoder) := QCBORDecode_GetByteStringInMapN decoder 4 in
  let decoder := QCBORDecode_ExitMap decoder in
  let request_id := default null_view request_id in
  let host_nonce := default null_view host_nonce in
  if negb (QCBORDecode_Finish decoder) || negb (v_len request_id =? PBNS_ENROLLMENT_REQUEST_ID_SIZE)
     || negb (v_len host_nonce =? PBNS_ENROLLMENT_NONCE_SIZE)
  then None
  else Some (mk_envelope (v_data request_id) (v_data host_nonce) (default null_view recipient_key_id) (default null_view ciphertext)).

Definition read_wire_object (encoded : bytes) : option pbns_enrollment_wire_object :=
  let decoder := QCBORDecode_EnterMap (QCBORDecode_Init encoded) in
  let '(operation, decoder) := QCBORDecode_GetUInt64InMapN decoder 1 in
  let '(object, decoder) := QCBORDecode_GetByteStringInMapN decoder 2 in
  let decoder := QCBORDecode_ExitMap decoder in
  let object := default null_view object in
  if negb (QCBORDecode_Finish decoder) || (v_len object =? 0) || (PBNS_ENROLLMENT_OBJECT_MAX_SIZE <? v_len object)
  then None
  else Some (mk_wire_object (default 0 operation) object).

Context `{M : Machine}.

Definition decode_inputs (encoded expected_key_id : pbns_view) (scratch : pbns_buffer) (output : bool) : pbns_status :=
  if negb (view_is_valid encoded) || (v_len encoded =? 0) || (PBNS_ENROLLMENT_OBJECT_MAX_SIZE <? v_len encoded)
     || negb (view_is_valid expected_key_id) || (v_len expected_key_id =? 0)
     || (PBNS_ENROLLMENT_KEY_ID_MAX_SIZE <? v_len expected_key_id)
     || negb (buffer_is_valid scratch) || (b_cap scratch <? v_len encoded) || negb output
  then PBNS_ERR_ARGUMENT
  else if ranges_overlap (v_ptr encoded) (v_len encoded) (b_ptr scratch) (b_cap scratch) then PBNS_ERR_ARGUMENT else PBNS_OK.

(** The frame of every decoder once its arguments are accepted: the fields are
    read, the object is checked, encoded again and compared with what was
    received, and must be the expected one.  The result is the status, the octets
    of the scratch buffer and the object, zero unless it is accepted. *)
Definition decode_object {A} (zero : A) (read : bytes -> option A) (valid : A -> bool) (encode : A -> bytes -> pbns_status * bytes * Z)
    (expected : A -> pbns_status) (encoded : pbns_view) (scratch : pbns_buffer) : pbns_status * bytes * A :=
  match read (v_data encoded) with
  | None => (PBNS_ERR_FORMAT, b_data scratch, zero)
  | Some v =>
      if negb (valid v) then (PBNS_ERR_FORMAT, b_data scratch, zero)
      else
      let '(status, data, canonical_size) := encode v (b_data scratch) in
      if negb (is_ok status) || negb (same_encoding canonical_size data (v_data encoded)) then (PBNS_ERR_FORMAT, data, zero)
      else if negb (is_ok (expected v)) then (expected v, data, zero)
      else (PBNS_OK, data, v)
  end.

Definition decode_checked {A} (zero : A) (inputs : bool -> pbns_status) (decode : pbns_status * bytes * A) (scratch : pbns_buffer) (value : ptr A)
  : pbns_status * bytes * ptr A :=
  match value with
  | None => (inputs false, b_data scratch, None)
  | Some _ =>
      if negb (is_ok (inputs true)) then (inputs true, b_data scratch, Some zero)
      else let '(status, data, v) := decode in (status, data, Some v)
  end.

(** The keys that the challenge, the receipt and the envelope must name. *)
Definition challenge_expected (key : pbns_view) (v : pbns_enrollment_challenge_object) : pbns_status :=
  if view_equal (ec_key_id (co_context v)) key then PBNS_OK else PBNS_ERR_AUTHENTICATION.
Definition receipt_expected (key : pbns_view) (v : pbns_enrollment_receipt_object) : pbns_status :=
  if view_equal (ec_key_id (ro_context v)) key && view_equal (ro_key_id v) key then PBNS_OK else PBNS_ERR_AUTHENTICATION.
Definition envelope_expected (key : pbns_view) (v : pbns_enrollment_encrypted_envelope) : pbns_status :=
  if view_equal (ee_recipient_key_id v) key then PBNS_OK else PBNS_ERR_AUTHENTICATION.
Definition wire_object_expected (operation : Z) (v : pbns_enrollment_wire_object) : pbns_status :=
  if wo_operation v =? operation then PBNS_OK else PBNS_ERR_SERVICE.

Definition pbns_enrollment_challenge_decode (encoded expected_signing_key_id : pbns_view) (canonical_scratch : pbns_buffer)
    (value : ptr pbns_enrollment_challenge_object) : pbns_status * bytes * ptr pbns_enrollment_challenge_object :=
  decode_checked zero_challenge_object (decode_inputs encoded expected_signing_key_id canonical_scratch)
    (decode_object zero_challenge_object read_challenge challenge_valid challenge_encode_unchecked
       (challenge_expected expected_signing_key_id) encoded canonical_scratch) canonical_scratch value.

Definition pbns_enrollment_receipt_decode (encoded expected_signing_key_id : pbns_view) (canonical_scratch : pbns_buffer)
    (value : ptr pbns_enrollment_receipt_object) : pbns_status * bytes * ptr pbns_enrollment_receipt_object :=
  decode_checked zero_receipt_object (decode_inputs encoded expected_signing_key_id canonical_scratch)
    (decode_object zero_receipt_object read_receipt receipt_valid receipt_encode_unchecked
       (receipt_expected expected_signing_key_id) encoded canonical_scratch) canonical_scratch value.

Definition pbns_enrollment_envelope_decode (encoded expected_recipient_key_id : pbns_view) (canonical_scratch : pbns_buffer)
    (value : ptr pbns_enrollment_encrypted_envelope) : pbns_status * bytes * ptr pbns_enrollment_encrypted_envelope :=
  decode_checked zero_envelope (decode_inputs encoded expected_recipient_key_id canonical_scratch)
    (decode_object zero_envelope read_envelope envelope_valid envelope_encode_unchecked
       (envelope_expected expected_recipient_key_id) encoded canonical_scratch) canonical_scratch value.

(** The outer object is not checked further before it is encoded again; the
    address of the constant key is [static_ptr]. *)
Definition wire_object_inputs (static_ptr : Z) (encoded : pbns_view) (expected_operation : Z) (scratch : pbns_buffer) (output : bool)
  : pbns_status :=
  let status := decode_inputs encoded (mk_view static_ptr [1]) scratch output in
  if negb (is_ok status) then status
  else if negb (expected_operation =? 1) && negb (expected_operation =? 2) then PBNS_ERR_ARGUMENT else PBNS_OK.

Definition pbns_enrollment_wire_object_decode (static_ptr : Z) (encoded : pbns_view) (expected_operation : Z)
    (canonical_scratch : pbns_buffer) (value : ptr pbns_enrollment_wire_object)
  : pbns_status * bytes * ptr pbns_enrollment_wire_object :=
  decode_checked zero_wire_object (wire_object_inputs static_ptr encoded expected_operation canonical_scratch)
    (decode_object zero_wire_object read_wire_object (fun _ => true) wire_encode_unchecked
       (wire_object_expected expected_operation) encoded canonical_scratch) canonical_scratch value.
End code.

(** ** Associated data *)

(** [append_part] on the octets of the output and the offset; [None] is
    [PBNS_ERR_LIMIT]. *)
Definition append_part (data : bytes) (offset : Z) (part : bytes) : option (bytes * Z) :=
  if zlen data - offset <? zlen part then None
  else Some (take (Z.to_nat offset) data ++ part ++ drop (Z.to_nat offset + length part) data, offset + zlen part).

(** The status, the octets of the output and the offset. *)
Fixpoint append_parts (data : bytes) (offset : Z) (parts : list bytes) : pbns_status * bytes * Z :=
  match parts with
  | [] => (PBNS_OK, data, offset)
  | part :: parts =>
      match append_part data offset part with
      | None => (PBNS_ERR_LIMIT, data, offset)
      | Some (data, offset) => append_parts data offset parts
      end
  end.

(** [aad_begin]: the status and [*written], cleared. *)
Definition aad_begin (output : pbns_buffer) (written : ptr Z) : pbns_status * ptr Z :=
  let written := (fun _ => 0) <$> written in
  match written with
  | None => (PBNS_ERR_ARGUMENT, None)
  | Some _ => (if negb (buffer_is_valid output) then PBNS_ERR_ARGUMENT else PBNS_OK, written)
  end.

(** The frame of the five functions: the checks, the parts in order, and
    [*written] on success. *)
Definition build_aad (valid : bool) (parts : list bytes) (output : pbns_buffer) (written : ptr Z) : pbns_status * bytes * ptr Z :=
  let '(status, written) := aad_begin output written in
  if negb (is_ok status) || negb valid then (PBNS_ERR_ARGUMENT, b_data output, written)
  else
  let '(status, data, offset) := append_parts (b_data output) 0 parts in
  (status, data, if is_ok status then (fun _ => offset) <$> written else written).

(** "PBNS-ENROLLMENT-" and the purpose *)
Definition AAD_STEM : bytes := [80; 66; 78; 83; 45; 69; 78; 82; 79; 76; 76; 77; 69; 78; 84; 45].
(** "ENVELOPE-v1" *)
Definition ENVELOPE_PREFIX : bytes := AAD_STEM ++ [69; 78; 86; 69; 76; 79; 80; 69; 45; 118; 49].
(** "CHALLENGE-v1" *)
Definition CHALLENGE_PREFIX : bytes := AAD_STEM ++ [67; 72; 65; 76; 76; 69; 78; 71; 69; 45; 118; 49].
(** "PROOF-v1" *)
Definition PROOF_PREFIX : bytes := AAD_STEM ++ [80; 82; 79; 79; 70; 45; 118; 49].
(** "RECEIPT-v1" *)
Definition RECEIPT_PREFIX : bytes := AAD_STEM ++ [82; 69; 67; 69; 73; 80; 84; 45; 118; 49].

Definition envelope_aad_valid (request_id host_nonce : ptr bytes) (key_id : pbns_view) : bool :=
  match request_id, host_nonce with
  | Some id, Some nonce => ct_nonzero id && ct_nonzero nonce && view_within PBNS_ENROLLMENT_KEY_ID_MAX_SIZE key_id
  | _, _ => false
  end.

Definition pbns_enrollment_envelope_aad (request_id host_nonce : ptr bytes) (key_id : pbns_view)
  : pbns_buffer -> ptr Z -> pbns_status * bytes * ptr Z :=
  build_aad (envelope_aad_valid request_id host_nonce key_id)
    [ENVELOPE_PREFIX; default [] request_id; default [] host_nonce; v_data key_id].

Definition challenge_parts (c : pbns_enrollment_challenge_object) : list bytes :=
  [CHALLENGE_PREFIX; ec_request_id (co_context c); co_host_nonce c; co_server_nonce c; co_init_digest c; v_data (ec_key_id (co_context c))].

Definition pbns_enrollment_challenge_aad (challenge : ptr pbns_enrollment_challenge_object)
  : pbns_buffer -> ptr Z -> pbns_status * bytes * ptr Z :=
  match challenge with
  | None => build_aad false []
  | Some c => build_aad (challenge_valid c) (challenge_parts c)
  end.

(** A proof has the same associated data in both flavours. *)
Definition proof_parts (context : pbns_enrollment_common_context) (server_nonce init_digest : bytes) : list bytes :=
  [PROOF_PREFIX; ec_request_id context; ec_nonce context; server_nonce; init_digest; v_data (ec_key_id context)].

Definition proof_aad_valid (context : pbns_enrollment_common_context) (server_nonce init_digest : bytes) : bool :=
  common_valid context PBNS_ENROLLMENT_STAGE_PROOF 1 && ct_nonzero server_nonce && ct_nonzero init_digest.

Definition pbns_enrollment_proof_aad (proof : ptr pbns_enrollment_software_proof) : pbns_buffer -> ptr Z -> pbns_status * bytes * ptr Z :=
  match proof with
  | None => build_aad false []
  | Some p => build_aad (proof_aad_valid (sp_context p) (sp_server_nonce p) (sp_init_digest p))
                (proof_parts (sp_context p) (sp_server_nonce p) (sp_init_digest p))
  end.

Definition pbns_enrollment_tpm_proof_aad (proof : ptr pbns_enrollment_tpm_proof) : pbns_buffer -> ptr Z -> pbns_status * bytes * ptr Z :=
  match proof with
  | None => build_aad false []
  | Some p => build_aad (proof_aad_valid (tp_context p) (tp_server_nonce p) (tp_init_digest p))
                (proof_parts (tp_context p) (tp_server_nonce p) (tp_init_digest p))
  end.

Definition receipt_parts (r : pbns_enrollment_receipt_object) (server_nonce : bytes) : list bytes :=
  [RECEIPT_PREFIX; ec_request_id (ro_context r); ec_nonce (ro_context r); server_nonce; ro_fingerprint r; v_data (ro_key_id r)].

Definition pbns_enrollment_receipt_aad (receipt : ptr pbns_enrollment_receipt_object) (server_nonce : ptr bytes)
  : pbns_buffer -> ptr Z -> pbns_status * bytes * ptr Z :=
  match receipt, server_nonce with
  | Some r, Some nonce => build_aad (receipt_valid r && ct_nonzero nonce) (receipt_parts r nonce)
  | _, _ => build_aad false []
  end.
