(* ===== verification/EnrollmentWireProps.v ===== *)
(** * What the enrollment messages promise

    The encoders write canonical octets that determine the message; the decoders
    accept exactly the canonical, valid and expected objects; the associated
    data separates purposes and contents. *)

From stdpp Require Import base list numbers.
From Stdlib Require Import ZArith Lia.
From S2P Require Import Prelude Status Buffers Cbor CborTree FlatMap Compare Enrollment EnrollmentWire.

(** ** Messages, the types of their fields, and their contents *)

Inductive enrollment_message :=
| MSoftwareInit (v : pbns_enrollment_software_init)
| MTpmInit (v : pbns_enrollment_tpm_init)
| MChallenge (v : pbns_enrollment_challenge_object)
| MSoftwareProof (v : pbns_enrollment_software_proof)
| MTpmProof (v : pbns_enrollment_tpm_proof)
| MReceipt (v : pbns_enrollment_receipt_object)
| MEnvelope (v : pbns_enrollment_encrypted_envelope)
| MWire (v : pbns_enrollment_wire_object).

Definition view_typed (v : pbns_view) : Prop := v_len v <= UINT64_MAX.

(** The arrays have their sizes, the integers their widths. *)
Definition common_typed (c : pbns_enrollment_common_context) : Prop :=
  zlen (ec_request_id c) = 16 /\ zlen (ec_host_fingerprint c) = 32 /\ zlen (ec_nonce c) = 32
  /\ 0 <= ec_stage c <= UINT64_MAX /\ 0 <= ec_sequence c <= UINT64_MAX /\ view_typed (ec_key_id c).

Definition challenge_typed (v : pbns_enrollment_challenge_object) : Prop :=
  common_typed (co_context v) /\ zlen (co_host_nonce v) = 32 /\ zlen (co_server_nonce v) = 32 /\ zlen (co_init_digest v) = 32
  /\ view_typed (co_credential_blob v) /\ view_typed (co_encrypted_secret v) /\ 0 <= co_flow v <= UINT64_MAX.

Definition receipt_typed (v : pbns_enrollment_receipt_object) : Prop :=
  common_typed (ro_context v) /\ zlen (ro_fingerprint v) = 32 /\ view_typed (ro_assurance v) /\ zlen (ro_baseline_digest v) = 32
  /\ - 2 ^ 63 <= ro_enrolled_at_unix v <= INT64_MAX /\ view_typed (ro_key_id v).

Definition envelope_typed (v : pbns_enrollment_encrypted_envelope) : Prop :=
  zlen (ee_request_id v) = 16 /\ zlen (ee_host_nonce v) = 32 /\ view_typed (ee_recipient_key_id v) /\ view_typed (ee_ciphertext v).

Definition wire_object_typed (v : pbns_enrollment_wire_object) : Prop := 0 <= wo_operation v <= UINT64_MAX /\ view_typed (wo_object v).

Definition message_typed (m : enrollment_message) : Prop :=
  match m with
  | MSoftwareInit v =>
      common_typed (si_context v) /\ zlen (si_token v) = 32 /\ view_typed (si_identity_cose_key v)
      /\ zlen (si_initial_evidence_digest v) = 32 /\ zlen (si_host_nonce v) = 32
  | MTpmInit v =>
      common_typed (ti_context v) /\ zlen (ti_token v) = 32 /\ view_typed (ti_ek_public v) /\ view_typed (ti_ak_public v)
      /\ view_typed (ti_ak_name v) /\ view_typed (ti_ek_certificate v) /\ view_typed (ti_identity_cose_key v)
      /\ zlen (ti_initial_evidence_digest v) = 32 /\ zlen (ti_host_nonce v) = 32 /\ view_typed (ti_identity_tpm_public v)
  | MChallenge v => challenge_typed v
  | MSoftwareProof v =>
      common_typed (sp_context v) /\ zlen (sp_server_nonce v) = 32 /\ zlen (sp_init_digest v) = 32 /\ zlen (sp_baseline_digest v) = 32
      /\ view_typed (sp_baseline_evidence v)
  | MTpmProof v =>
      common_typed (tp_context v) /\ zlen (tp_server_nonce v) = 32 /\ zlen (tp_init_digest v) = 32
      /\ view_typed (tp_activated_credential v) /\ view_typed (tp_certify_attestation v) /\ view_typed (tp_certify_signature v)
      /\ zlen (tp_baseline_digest v) = 32 /\ view_typed (tp_baseline_evidence v)
  | MReceipt v => receipt_typed v
  | MEnvelope v => envelope_typed v
  | MWire v => wire_object_typed v
  end.

(** The contents of an object: its fields without the addresses of the views. *)
Definition octets_of (v : pbns_view) : pbns_view := mk_view 0 (v_data v).

Definition common_content (c : pbns_enrollment_common_context) : pbns_enrollment_common_context :=
  mk_common (ec_request_id c) (ec_host_fingerprint c) (ec_nonce c) (ec_stage c) (ec_sequence c) (octets_of (ec_key_id c)).

Definition challenge_content (v : pbns_enrollment_challenge_object) : pbns_enrollment_challenge_object :=
  mk_challenge_object (common_content (co_context v)) (co_host_nonce v) (co_server_nonce v) (co_init_digest v)
    (octets_of (co_credential_blob v)) (octets_of (co_encrypted_secret v)) (co_flow v).

Definition receipt_content (v : pbns_enrollment_receipt_object) : pbns_enrollment_receipt_object :=
  mk_receipt_object (common_content (ro_context v)) (ro_fingerprint v) (octets_of (ro_assurance v)) (ro_baseline_digest v)
    (ro_enrolled_at_unix v) (octets_of (ro_key_id v)).

Definition envelope_content (v : pbns_enrollment_encrypted_envelope) : pbns_enrollment_encrypted_envelope :=
  mk_envelope (ee_request_id v) (ee_host_nonce v) (octets_of (ee_recipient_key_id v)) (octets_of (ee_ciphertext v)).

Definition wire_object_content (v : pbns_enrollment_wire_object) : pbns_enrollment_wire_object :=
  mk_wire_object (wo_operation v) (octets_of (wo_object v)).

Definition message_content (m : enrollment_message) : enrollment_message :=
  match m with
  | MSoftwareInit v =>
      MSoftwareInit (mk_software_init (common_content (si_context v)) (si_token v) (octets_of (si_identity_cose_key v))
        (si_initial_evidence_digest v) (si_host_nonce v))
  | MTpmInit v =>
      MTpmInit (mk_tpm_init (common_content (ti_context v)) (ti_token v) (octets_of (ti_ek_public v)) (octets_of (ti_ak_public v))
        (octets_of (ti_ak_name v)) (octets_of (ti_ek_certificate v)) (octets_of (ti_identity_cose_key v))
        (ti_initial_evidence_digest v) (ti_host_nonce v) (octets_of (ti_identity_tpm_public v)))
  | MChallenge v => MChallenge (challenge_content v)
  | MSoftwareProof v =>
      MSoftwareProof (mk_software_proof (common_content (sp_context v)) (sp_server_nonce v) (sp_init_digest v) (sp_baseline_digest v)
        (octets_of (sp_baseline_evidence v)))
  | MTpmProof v =>
      MTpmProof (mk_tpm_proof (common_content (tp_context v)) (tp_server_nonce v) (tp_init_digest v)
        (octets_of (tp_activated_credential v)) (octets_of (tp_certify_attestation v)) (octets_of (tp_certify_signature v))
        (tp_baseline_digest v) (octets_of (tp_baseline_evidence v)))
  | MReceipt v => MReceipt (receipt_content v)
  | MEnvelope v => MEnvelope (envelope_content v)
  | MWire v => MWire (wire_object_content v)
  end.

Definition message_tree (m : enrollment_message) : cbor_tree :=
  match m with
  | MSoftwareInit v => software_init_tree v
  | MTpmInit v => tpm_init_tree v
  | MChallenge v => challenge_object_tree v
  | MSoftwareProof v => software_proof_tree v
  | MTpmProof v => tpm_proof_tree v
  | MReceipt v => receipt_object_tree v
  | MEnvelope v => envelope_tree v
  | MWire v => wire_object_tree v
  end.

Definition message_octets (m : enrollment_message) : bytes := tree_encode (message_tree m).

Definition message_valid (m : enrollment_message) : bool :=
  match m with
  | MSoftwareInit v => software_init_valid v
  | MTpmInit v => tpm_init_valid v
  | MChallenge v => challenge_valid v
  | MSoftwareProof v => software_proof_valid v
  | MTpmProof v => tpm_proof_valid v
  | MReceipt v => receipt_valid v
  | MEnvelope v => envelope_valid v
  | MWire v => wire_object_valid v
  end.

Definition message_encode `{S : QCBORSpiffy} (m : enrollment_message) : pbns_buffer -> ptr Z -> pbns_status * bytes * ptr Z :=
  match m with
  | MSoftwareInit v => pbns_enrollment_software_init_encode (Some v)
  | MTpmInit v => pbns_enrollment_tpm_init_encode (Some v)
  | MChallenge v => pbns_enrollment_challenge_encode (Some v)
  | MSoftwareProof v => pbns_enrollment_software_proof_encode (Some v)
  | MTpmProof v => pbns_enrollment_tpm_proof_encode (Some v)
  | MReceipt v => pbns_enrollment_receipt_encode (Some v)
  | MEnvelope v => pbns_enrollment_envelope_encode (Some v)
  | MWire v => pbns_enrollment_wire_object_encode (Some v)
  end.

(** ** The octets determine the message *)

(** A leaf of an object has a constant label; its value has its type. *)
Ltac leaf_ok :=
  cbn [fst snd leaf tree_ok cbor_value_ok]; split; [split; vm_compute; discriminate|];
  unfold view_typed, v_len in *; first [done | unfold UINT64_MAX in *; lia].

Ltac fields_ok := split; [vm_compute; discriminate|]; cbn [fold_right]; repeat match goal with |- (_ /\ _) /\ _ => split; [try leaf_ok|] end; try exact I.

Lemma common_tree_ok c : common_typed c -> tree_ok (enroll_common_tree c).
Proof. intros (H1 & H2 & H3 & H4 & H5 & H6). unfold enroll_common_tree. cbn [tree_ok]. fields_ok. Qed.

Lemma context_leaf_ok c : common_typed c -> label_ok (fst (1, enroll_common_tree c)) /\ tree_ok (snd (1, enroll_common_tree c)).
Proof. intros Hc. split; [split; vm_compute; discriminate|]. by apply common_tree_ok. Qed.

Lemma message_tree_ok m : message_typed m -> tree_ok (message_tree m).
Proof.
  destruct m as [v|v|v|v|v|v|v|v]; cbn [message_typed message_tree]; unfold challenge_typed, receipt_typed, envelope_typed, wire_object_typed;
    intros Ht; decompose [and] Ht; clear Ht; cbn [tree_ok]; fields_ok; try (by apply context_leaf_ok).
  - split; [split; vm_compute; discriminate|]. cbn [snd tree_ok]. unfold view_typed in *.
    destruct (0 <? v_len (ti_ek_certificate v)); (split; [vm_compute; discriminate|]); cbn [fold_right tree_ok cbor_value_ok]; done.
Qed.

(** The certificate is written when there is one. *)
Definition certificate_items (v : pbns_view) : list cbor_tree := if 0 <? v_len v then [TValue (CBytes (v_data v))] else [].

Lemma certificate_inj a b : map tree_norm (certificate_items a) = map tree_norm (certificate_items b) -> v_data a = v_data b.
Proof.
  unfold certificate_items, v_len. destruct (v_data a), (v_data b); cbn; try done. by intros [= -> ->].
Qed.

Lemma int_norm_inj a b : cbor_norm (CInt a) = cbor_norm (CInt b) -> a = b.
Proof. cbn. destruct (Z.ltb_spec a 0), (Z.ltb_spec b 0); by intros [= ->]. Qed.

Lemma message_octets_inj a b : message_typed a -> message_typed b -> message_octets a = message_octets b ->
  message_content a = message_content b.
Proof.
  intros Ha Hb E. apply tree_encode_inj in E; [|by apply message_tree_ok..]. clear Ha Hb.
  destruct a, b; cbn [message_tree] in E; try discriminate E; injection E; intros; cbn [message_content];
    unfold challenge_content, receipt_content, envelope_content, wire_object_content, common_content, octets_of; try congruence.
  - match goal with H : map tree_norm _ = map tree_norm _ |- _ => apply (certificate_inj (ti_ek_certificate v)) in H end. congruence.
  - match goal with H : _ = (if _ <? 0 then _ else _) |- _ => apply int_norm_inj in H end. congruence.
Qed.

(** ** Encoding *)

Section encoding.
Context `{S : QCBORSpiffy}.

Lemma enroll_encode_spec tree storage st data size :
  enroll_encode tree storage = (st, data, size) ->
  length data = length storage
  /\ (st = PBNS_OK -> size = zlen (tree_encode tree) /\ zlen (tree_encode tree) <= PBNS_ENROLLMENT_OBJECT_MAX_SIZE
      /\ data = tree_encode tree ++ drop (length (tree_encode tree)) storage)
  /\ (st <> PBNS_OK -> size = 0)
  /\ (zlen storage < UINT32_MAX ->
      st = if zlen storage <? zlen (tree_encode tree) then PBNS_ERR_LIMIT
           else if PBNS_ENROLLMENT_OBJECT_MAX_SIZE <? zlen (tree_encode tree) then PBNS_ERR_FORMAT else PBNS_OK).
Proof.
  unfold enroll_encode. destruct (QCBOREncode_tree tree storage) as [[e out] data0] eqn:E.
  destruct (QCBOREncode_tree_spec _ _ _ _ _ E) as (Hlen & Hok & Hfit & Hsmall). pose proof (tree_encode_pos tree).
  destruct (enroll_finish e out) as [st0 size0] eqn:Ef. intros [= <- <- <-]. split; [done|]. unfold enroll_finish in Ef.
  assert (Hmax : 0 < PBNS_ENROLLMENT_OBJECT_MAX_SIZE) by done. destruct e.
  - destruct (Hok eq_refl) as (-> & Hle & ->). clear Hok Hfit. rewrite (proj2 (Z.eqb_neq _ 0)) in Ef by lia. cbn [orb] in Ef.
    destruct (Z.ltb_spec PBNS_ENROLLMENT_OBJECT_MAX_SIZE (zlen (tree_encode tree))); injection Ef as <- <-;
      (split; [done|]; split; [done|]); intros; by rewrite (proj2 (Z.ltb_ge (zlen storage) _)) by lia.
  - injection Ef as <- <-. split; [done|]. split; [done|]. intros Hu. destruct (Z.ltb_spec (zlen storage) (zlen (tree_encode tree))); [done|].
    by specialize (Hfit Hu ltac:(lia)).
  - injection Ef as <- <-. split; [done|]. split; [done|]. intros Hu. destruct (Z.ltb_spec (zlen storage) (zlen (tree_encode tree))).
    + by specialize (Hsmall Hu ltac:(lia)).
    + by specialize (Hfit Hu ltac:(lia)).
Qed.

(** What an encoder does with a usable and with an unusable output. *)
Definition encoded_exactly (valid : bool) (octets : bytes) (output : pbns_buffer) (result : pbns_status * bytes * ptr Z) : Prop :=
  exists st data size, result = (st, data, Some size) /\ length data = length (b_data output)
  /\ st = (if negb (buffer_is_valid output) then PBNS_ERR_ARGUMENT else if negb valid then PBNS_ERR_FORMAT
           else if Z.min (b_cap output) PBNS_ENROLLMENT_OBJECT_MAX_SIZE <? zlen octets then PBNS_ERR_LIMIT else PBNS_OK)
  /\ (st = PBNS_OK -> size = zlen octets /\ data = octets ++ drop (length octets) (b_data output))
  /\ (st <> PBNS_OK -> size = 0) /\ (st = PBNS_ERR_ARGUMENT \/ st = PBNS_ERR_FORMAT -> data = b_data output).

Lemma encode_object_spec {A} (valid : A -> bool) (tree : A -> cbor_tree) (v : A) (output : pbns_buffer) (size0 : Z) :
  encoded_exactly (valid v) (tree_encode (tree v)) output (encode_object valid (fun v => enroll_encode (tree v)) (Some v) output (Some size0)).
Proof.
  unfold encoded_exactly, encode_object, begin_encode. cbn [fmap option_fmap option_map].
  destruct (buffer_is_valid output); cbn [negb is_ok]; [|by do 3 eexists].
  destruct (valid v); cbn [negb]; [|by do 3 eexists].
  set (cap := if PBNS_ENROLLMENT_OBJECT_MAX_SIZE <? b_cap output then PBNS_ENROLLMENT_OBJECT_MAX_SIZE else b_cap output).
  assert (Hcap : cap = Z.min (b_cap output) PBNS_ENROLLMENT_OBJECT_MAX_SIZE) by (unfold cap; destruct (Z.ltb_spec PBNS_ENROLLMENT_OBJECT_MAX_SIZE (b_cap output)); lia).
  clearbody cap. assert (Hl : zlen (take (Z.to_nat cap) (b_data output)) = cap).
  { rewrite length_take. unfold b_cap, PBNS_ENROLLMENT_OBJECT_MAX_SIZE in *. lia. }
  destruct (enroll_encode (tree v) _) as [[st data] size] eqn:E. apply enroll_encode_spec in E as (Hlen & Hok & Hz & Hst).
  rewrite Hl in Hst. specialize (Hst ltac:(unfold PBNS_ENROLLMENT_OBJECT_MAX_SIZE, UINT32_MAX in *; lia)).
  exists st, (data ++ drop (Z.to_nat cap) (b_data output)), size. split; [done|]. split; [rewrite length_app, Hlen, length_take, length_drop; lia|].
  rewrite <- Hcap. assert (Hst' : st = if cap <? zlen (tree_encode (tree v)) then PBNS_ERR_LIMIT else PBNS_OK).
  { rewrite Hst. destruct (Z.ltb_spec cap (zlen (tree_encode (tree v)))); [done|]. rewrite (proj2 (Z.ltb_ge _ _)) by lia. done. }
  split; [done|]. split; [|split; [done|intros [Hs|Hs]; rewrite Hst' in Hs; by destruct (cap <? _)]].
  intros Hs. destruct (Hok Hs) as (-> & _ & ->). split; [done|]. rewrite <- app_assoc. f_equal.
  rewrite <- (take_drop (Z.to_nat cap) (b_data output)) at 3. rewrite drop_app_le; [done|].
  rewrite Hs in Hst'. destruct (Z.ltb_spec cap (zlen (tree_encode (tree v)))); [done|]. lia.
Qed.

Lemma message_encode_spec m output size0 :
  encoded_exactly (message_valid m) (message_octets m) output (message_encode m output (Some size0)).
Proof. destruct m; apply encode_object_spec. Qed.
End encoding.

(** ** Objects that can be accepted *)

Definition common_proper (c : pbns_enrollment_common_context) (stage sequence : Z) : Prop :=
  proper 16 (ec_request_id c) /\ proper 32 (ec_host_fingerprint c) /\ proper 32 (ec_nonce c) /\ ec_stage c = stage
  /\ ec_sequence c = sequence /\ view_is_valid (ec_key_id c) = true /\ 0 < v_len (ec_key_id c) <= 64.

Definition challenge_proper (v : pbns_enrollment_challenge_object) : Prop :=
  challenge_typed v /\ common_proper (co_context v) PBNS_ENROLLMENT_STAGE_CHALLENGE 0 /\ co_host_nonce v = ec_nonce (co_context v)
  /\ proper 32 (co_server_nonce v) /\ proper 32 (co_init_digest v)
  /\ view_is_valid (co_credential_blob v) = true /\ view_is_valid (co_encrypted_secret v) = true
  /\ (co_flow v = PBNS_ENROLLMENT_FLOW_TPM
      \/ co_flow v = PBNS_ENROLLMENT_FLOW_SOFTWARE /\ v_data (co_credential_blob v) = [] /\ v_data (co_encrypted_secret v) = []).

Definition receipt_proper (v : pbns_enrollment_receipt_object) : Prop :=
  receipt_typed v /\ common_proper (ro_context v) PBNS_ENROLLMENT_STAGE_RECEIPT 2 /\ proper 32 (ro_fingerprint v)
  /\ view_is_valid (ro_assurance v) = true /\ 0 < v_len (ro_assurance v) <= 64 /\ proper 32 (ro_baseline_digest v)
  /\ 0 < ro_enrolled_at_unix v /\ view_is_valid (ro_key_id v) = true /\ v_data (ro_key_id v) = v_data (ec_key_id (ro_context v)).

Definition envelope_proper (v : pbns_enrollment_encrypted_envelope) : Prop :=
  envelope_typed v /\ proper 16 (ee_request_id v) /\ proper 32 (ee_host_nonce v)
  /\ view_is_valid (ee_recipient_key_id v) = true /\ 0 < v_len (ee_recipient_key_id v) <= 64
  /\ view_is_valid (ee_ciphertext v) = true /\ 0 < v_len (ee_ciphertext v) <= 65536.

Definition wire_object_proper (v : pbns_enrollment_wire_object) : Prop :=
  wire_object_typed v /\ 0 < v_len (wo_object v) <= 65536.

Lemma view_equal_spec a b : view_is_valid a = true -> view_is_valid b = true -> view_equal a b = true <-> v_data a = v_data b.
Proof.
  intros Ha Hb. apply view_is_valid_spec in Ha, Hb. unfold view_equal, v_len. rewrite andb_true_iff, Z.eqb_eq. split.
  - intros [Hl Hc]. bools. destruct Hc as [Hc|Hc]; bools.
    + destruct (v_data a), (v_data b); done.
    + apply ct_equal_spec; [lia|done].
  - intros E. rewrite E. split; [done|]. destruct (v_data b) as [|x l] eqn:Eb; [done|]. destruct Ha as [Ha|Ha]; [|congruence].
    destruct Hb as [Hb|Hb]; [|done]. rewrite (proj2 (Z.eqb_neq (v_ptr a) 0) Ha), (proj2 (Z.eqb_neq (v_ptr b) 0) Hb). cbn [negb andb].
    rewrite (proj2 (ct_equal_spec _ _ eq_refl)) by done. by rewrite orb_true_r.
Qed.

Lemma view_within_spec limit v : view_within limit v = true <-> view_is_valid v = true /\ 0 < v_len v <= limit.
Proof. unfold view_within. rewrite !andb_true_iff, Z.ltb_lt, Z.leb_le. tauto. Qed.

Lemma common_valid_spec c stage sequence : common_typed c -> common_valid c stage sequence = true <-> common_proper c stage sequence.
Proof.
  intros (H1 & H2 & H3 & _). unfold common_valid, common_proper, proper. rewrite !andb_true_iff, !Z.eqb_eq, view_within_spec.
  unfold PBNS_ENROLLMENT_KEY_ID_MAX_SIZE. tauto.
Qed.

Lemma challenge_valid_spec v : challenge_typed v -> challenge_valid v = true <-> challenge_proper v.
Proof.
  intros Ht. pose proof Ht as (Hc & H1 & H2 & H3 & _). pose proof Hc as (_ & _ & Hn & _). unfold challenge_valid, challenge_proper, proper.
  rewrite !andb_true_iff, !orb_true_iff, andb_true_iff, negb_true_iff, Z.eqb_neq, !Z.eqb_eq, common_valid_spec, ct_equal_spec by (done || lia).
  unfold v_len, PBNS_ENROLLMENT_FLOW_SOFTWARE, PBNS_ENROLLMENT_FLOW_TPM.
  assert (Hnil : forall l : bytes, zlen l = 0 <-> l = []) by (intros []; done). rewrite !Hnil. intuition (try lia).
Qed.

Lemma receipt_valid_spec v : receipt_typed v -> receipt_valid v = true <-> receipt_proper v.
Proof.
  intros Ht. pose proof Ht as (Hc & H1 & _ & H2 & _). unfold receipt_valid, receipt_proper, proper.
  rewrite !andb_true_iff, view_within_spec, Z.ltb_lt, common_valid_spec by done.
  assert (Hk : common_proper (ro_context v) PBNS_ENROLLMENT_STAGE_RECEIPT 2 -> view_is_valid (ro_key_id v) = true ->
    view_equal (ec_key_id (ro_context v)) (ro_key_id v) = true <-> v_data (ro_key_id v) = v_data (ec_key_id (ro_context v))).
  { intros (_ & _ & _ & _ & _ & Hv & _) Hv'. rewrite view_equal_spec by done. split; congruence. }
  tauto.
Qed.

Lemma envelope_valid_spec v : envelope_typed v -> envelope_valid v = true <-> envelope_proper v.
Proof.
  intros Ht. pose proof Ht as (H1 & H2 & _). unfold envelope_valid, envelope_proper, proper. rewrite !andb_true_iff, !view_within_spec.
  unfold PBNS_ENROLLMENT_KEY_ID_MAX_SIZE, PBNS_ENROLLMENT_OBJECT_MAX_SIZE. tauto.
Qed.

(** ** Decoding *)

(** Arguments that a decoder takes: the octets, the expected key and a scratch
    buffer that can hold the octets and does not overlap them. *)
Definition inputs_usable `{Machine} (encoded key : pbns_view) (scratch : pbns_buffer) : Prop :=
  view_is_valid encoded = true /\ 0 < v_len encoded <= 65536 /\ view_is_valid key = true /\ 0 < v_len key <= 64
  /\ buffer_is_valid scratch = true /\ v_len encoded <= b_cap scratch
  /\ ranges_overlap (v_ptr encoded) (v_len encoded) (b_ptr scratch) (b_cap scratch) = false.

Lemma decode_inputs_spec `{Machine} encoded key scratch :
  decode_inputs encoded key scratch true = PBNS_OK /\ inputs_usable encoded key scratch
  \/ decode_inputs encoded key scratch true = PBNS_ERR_ARGUMENT /\ ~ inputs_usable encoded key scratch.
Proof.
  unfold decode_inputs, inputs_usable, PBNS_ENROLLMENT_OBJECT_MAX_SIZE, PBNS_ENROLLMENT_KEY_ID_MAX_SIZE.
  destruct (_ || negb true) eqn:E.
  - right. split; [done|]. intros (H1 & H2 & H3 & H4 & H5 & H6 & _). rewrite H1, H3, H5 in E. cbn [negb orb] in E. lia.
  - bools. unfold v_len in *. destruct (ranges_overlap _ _ _ _); [right|left]; (split; [done|]).
    + by intros (_ & _ & _ & _ & _ & _ & ?).
    + split_and!; try done; lia.
Qed.

(** A decoder accepts exactly the objects that are proper, canonical and wanted.
    Whatever the CBOR decoder does, nothing else is accepted and a refusal leaves
    the zero object; a decoder that reads what was written lets all of them pass. *)
Definition accepted_exactly `{S : QCBORSpiffy} {A} (zero : A) (tree : A -> cbor_tree) (proper wanted : A -> Prop) (content : A -> A)
    (refusal : pbns_status) (usable : Prop) (encoded : pbns_view) (scratch : pbns_buffer) (result : pbns_status * bytes * ptr A) : Prop :=
  exists st data v, result = (st, data, Some v) /\ length data = length (b_data scratch)
  /\ (st = PBNS_ERR_ARGUMENT <-> ~ usable) /\ (st <> PBNS_OK -> v = zero)
  /\ (st = PBNS_OK \/ st = PBNS_ERR_ARGUMENT \/ st = PBNS_ERR_FORMAT \/ st = refusal)
  /\ (st = PBNS_OK -> v_data encoded = tree_encode (tree v) /\ proper v /\ wanted v)
  /\ (st = refusal -> exists c, v_data encoded = tree_encode (tree c) /\ proper c /\ ~ wanted c)
  /\ forall (R : SpiffyReads) c, usable -> v_len encoded <= UINT16_MAX -> b_cap scratch < UINT32_MAX ->
     v_data encoded = tree_encode (tree c) -> proper c ->
     (wanted c -> st = PBNS_OK /\ content v = content c) /\ (~ wanted c -> st = refusal).

Lemma decode_refused `{S : QCBORSpiffy} {A} (zero : A) tree proper wanted content refusal usable inputs decode encoded scratch v0 :
  refusal <> PBNS_ERR_ARGUMENT -> inputs true = PBNS_ERR_ARGUMENT -> ~ usable ->
  accepted_exactly zero tree proper wanted content refusal usable encoded scratch (decode_checked zero inputs decode scratch (Some v0)).
Proof.
  intros R2 Hin Hu. unfold accepted_exactly, decode_checked. rewrite Hin. cbn [is_ok negb].
  do 3 eexists. split; [done|]. split_and!; try done; tauto.
Qed.

Section objects.
Context `{S : QCBORSpiffy} {A : Type}.
Context (zero : A) (read : bytes -> option A) (valid : A -> bool) (tree : A -> cbor_tree) (expected : A -> pbns_status).
Context (proper wanted : A -> Prop) (content : A -> A) (refusal : pbns_status).

(** What is particular to an object. *)
Hypothesis refusal_other : refusal <> PBNS_OK /\ refusal <> PBNS_ERR_ARGUMENT /\ refusal <> PBNS_ERR_FORMAT.
Hypothesis read_proper : forall s c, read s = Some c -> s = tree_encode (tree c) -> zlen s <= 65536 -> valid c = true -> proper c.
Hypothesis expected_spec : forall c, proper c -> expected c = PBNS_OK /\ wanted c \/ expected c = refusal /\ ~ wanted c.
Hypothesis read_back : forall (R : SpiffyReads) c, proper c -> zlen (tree_encode (tree c)) <= UINT16_MAX ->
  exists c', read (tree_encode (tree c)) = Some c' /\ proper c' /\ valid c' = true /\ content c' = content c /\ tree c' = tree c
  /\ (wanted c' <-> wanted c).

Lemma decode_object_spec encoded scratch st data v :
  v_len encoded <= 65536 -> decode_object zero read valid (fun v => enroll_encode (tree v)) expected encoded scratch = (st, data, v) ->
  length data = length (b_data scratch) /\ (st <> PBNS_OK -> v = zero) /\ (st = PBNS_OK \/ st = PBNS_ERR_FORMAT \/ st = refusal)
  /\ (st = PBNS_OK -> v_data encoded = tree_encode (tree v) /\ proper v /\ wanted v)
  /\ (st = refusal -> exists c, v_data encoded = tree_encode (tree c) /\ proper c /\ ~ wanted c).
Proof.
  intros Hl. destruct refusal_other as (R1 & R2 & R3). unfold decode_object. destruct (read (v_data encoded)) as [c|] eqn:Er.
  2:{ intros [= <- <- <-]. split_and!; try done; try tauto. }
  destruct (valid c) eqn:Ev; cbn [negb].
  2:{ intros [= <- <- <-]. split_and!; try done; try tauto. }
  destruct (enroll_encode (tree c) (b_data scratch)) as [[st0 data0] size] eqn:E. apply enroll_encode_spec in E as (Hlen & Hok & _).
  destruct (negb (is_ok st0) || _) eqn:Hg.
  { intros [= <- <- <-]. split_and!; try done; try tauto. }
  apply orb_false_iff in Hg as [Hs Hc]. apply negb_false_iff in Hs, Hc. apply is_ok_spec in Hs. destruct (Hok Hs) as (-> & _ & ->).
  unfold same_encoding in Hc. apply andb_true_iff in Hc as [_ Hc]. apply bytes_eqb_spec in Hc. rewrite Nat2Z.id, take_app_length in Hc.
  assert (Hp : proper c) by (apply (read_proper (v_data encoded)); done).
  destruct (expected_spec c Hp) as [[He Hw]|[He Hw]]; rewrite He.
  - cbn [is_ok negb]. intros [= <- <- <-]. split_and!; try done; try tauto.
  - destruct (is_ok refusal) eqn:Eo; [by apply is_ok_spec in Eo|]. cbn [negb]. intros [= <- <- <-]. split_and!; try done; try tauto.
    intros _. exists c. done.
Qed.

Lemma decode_object_reads {R : SpiffyReads} encoded scratch c :
  v_data encoded = tree_encode (tree c) -> proper c -> v_len encoded <= UINT16_MAX -> v_len encoded <= b_cap scratch < UINT32_MAX ->
  exists c' data, content c' = content c /\ (wanted c' <-> wanted c) /\ proper c'
  /\ decode_object zero read valid (fun v => enroll_encode (tree v)) expected encoded scratch
     = (expected c', data, if is_ok (expected c') then c' else zero).
Proof.
  unfold v_len, b_cap. intros He Hp Hl Hcap. rewrite He in Hl, Hcap.
  destruct (read_back R c Hp Hl) as (c' & Er & Hp' & Hv & Hc & Ht & Hw). exists c'. unfold decode_object. rewrite He, Er, Hv. cbn [negb].
  destruct (enroll_encode (tree c') (b_data scratch)) as [[st data] size] eqn:E. apply enroll_encode_spec in E as (_ & Hok & _ & Hst).
  exists data. split; [done|]. split; [done|]. split; [done|]. rewrite Ht in Hok, Hst. specialize (Hst ltac:(lia)).
  rewrite (proj2 (Z.ltb_ge (zlen (b_data scratch)) _)), (proj2 (Z.ltb_ge PBNS_ENROLLMENT_OBJECT_MAX_SIZE _)) in Hst
    by (unfold PBNS_ENROLLMENT_OBJECT_MAX_SIZE, UINT16_MAX in *; lia).
  subst st. destruct (Hok eq_refl) as (-> & _ & ->). unfold same_encoding. rewrite Nat2Z.id, take_app_length, Z.eqb_refl, bytes_eqb_refl.
  cbn [is_ok negb orb andb]. destruct (is_ok (expected c')) eqn:Eo; cbn [negb]; [|done]. apply is_ok_spec in Eo. by rewrite Eo.
Qed.

Lemma decode_accepts (usable : Prop) (inputs : bool -> pbns_status) encoded scratch v0 :
  (usable -> v_len encoded <= 65536 /\ v_len encoded <= b_cap scratch) ->
  inputs true = PBNS_OK /\ usable \/ inputs true = PBNS_ERR_ARGUMENT /\ ~ usable ->
  accepted_exactly zero tree proper wanted content refusal usable encoded scratch
    (decode_checked zero inputs (decode_object zero read valid (fun v => enroll_encode (tree v)) expected encoded scratch) scratch (Some v0)).
Proof.
  intros Hsize Hin. destruct refusal_other as (R1 & R2 & R3). destruct Hin as [[Hin Hu]|[Hin Hu]]; [|by apply decode_refused].
  unfold accepted_exactly, decode_checked. rewrite Hin. cbn [is_ok negb].
  destruct (decode_object _ _ _ _ _ _ _) as [[st data] v] eqn:E. exists st, data, v. split; [done|].
  destruct (decode_object_spec _ _ _ _ _ (proj1 (Hsize Hu)) E) as (Hlen & Hz & Hst & Hok & Href).
  split; [done|]. split; [|split; [done|]; split; [tauto|]; split; [done|]; split; [done|]].
  - split; [|done]. intros ->. naive_solver.
  - intros R c _ Hl Hcap He Hp. destruct (decode_object_reads encoded scratch c He Hp Hl) as (c' & data' & Hc & Hw & Hp' & E'); [split; [by apply Hsize|done]|].
    rewrite E in E'. injection E' as -> -> ->. destruct (expected_spec c' Hp') as [[-> Hx]|[-> Hx]]; cbn [is_ok]; [|destruct (is_ok refusal); tauto].
    tauto.
Qed.
End objects.

(** ** What is read is typed *)

(** Goes past the decoder calls that begin a function. *)
Ltac past_calls := repeat match goal with |- (let '(_, _) := ?call in _) = _ -> _ => destruct call as [? ?] eqn:? | |- _ => progress cbv zeta end.

Section typed.
Context `{S : QCBORSpiffy}.

Lemma read_common_typed d c d' : decode_enroll_common d = (Some c, d') -> common_typed c.
Proof.
  unfold decode_enroll_common. past_calls.
  destruct (_ || (PBNS_ENROLLMENT_KEY_ID_MAX_SIZE <? _)) eqn:Hg; [done|]. intros [= <- _]. bools.
  repeat match goal with H : QCBORDecode_GetUInt64InMapN _ _ = _ |- _ => apply uint_default_range in H end.
  unfold common_typed, view_typed, PBNS_ENROLLMENT_KEY_ID_MAX_SIZE, PBNS_ENROLLMENT_REQUEST_ID_SIZE, PBNS_ENROLLMENT_DIGEST_SIZE,
    PBNS_ENROLLMENT_NONCE_SIZE in *. cbn [ec_request_id ec_host_fingerprint ec_nonce ec_stage ec_sequence ec_key_id].
  unfold v_len in *. split_and!; try lia. unfold UINT64_MAX. lia.
Qed.

Lemma leaf_short fields label v : In (leaf (label, v)) fields -> zlen (cbor_encode v) <= zlen (tree_encode (TMap fields)).
Proof.
  intros Hin. cbn [tree_encode]. rewrite length_app. enough (zlen (cbor_encode v) <= zlen (concat (map (fun p => cbor_int (fst p) ++ tree_encode (snd p)) fields))) by lia.
  induction fields as [|p fields IH]; [done|]. cbn [map concat]. rewrite !length_app.
  destruct Hin as [->|Hin]; [cbn [leaf fst snd tree_encode]; lia|specialize (IH Hin); lia].
Qed.

(** A view of an object that was received is no longer than what was received. *)
Lemma view_short fields label (view : pbns_view) s : s = tree_encode (TMap fields) -> zlen s <= 65536 ->
  In (leaf (label, CBytes (v_data view))) fields \/ In (leaf (label, CText (v_data view))) fields -> view_typed view.
Proof.
  intros -> Hs Hin. assert (Hl : zlen (v_data view) <= zlen (tree_encode (TMap fields))).
  { destruct Hin as [Hin|Hin]; apply leaf_short in Hin; cbn [cbor_encode] in Hin; rewrite length_app in Hin; lia. }
  unfold view_typed, v_len, UINT64_MAX. lia.
Qed.

Lemma read_challenge_proper s c : read_challenge s = Some c -> s = tree_encode (challenge_object_tree c) -> zlen s <= 65536 ->
  challenge_valid c = true -> challenge_proper c.
Proof.
  unfold read_challenge. past_calls. destruct o as [context|]; [|done].
  match goal with H : decode_enroll_common _ = _ |- _ => apply read_common_typed in H; rename H into Hc end.
  destruct (_ || _) eqn:Hg; [done|]. intros [= <-] Hs Hl. apply challenge_valid_spec.
  match goal with H : QCBORDecode_GetUInt64InMapN _ _ = _ |- _ => apply uint_default_range in H end.
  unfold challenge_typed. cbn [co_context co_host_nonce co_server_nonce co_init_digest co_credential_blob co_encrypted_secret co_flow].
  bools. unfold v_len, PBNS_ENROLLMENT_NONCE_SIZE, PBNS_ENROLLMENT_DIGEST_SIZE in *. split_and!; try done; try lia.
  - apply (view_short _ 23 _ _ Hs Hl). left. cbn. tauto.
  - apply (view_short _ 24 _ _ Hs Hl). left. cbn. tauto.
Qed.

Lemma read_receipt_proper s c : read_receipt s = Some c -> s = tree_encode (receipt_object_tree c) -> zlen s <= 65536 ->
  receipt_valid c = true -> receipt_proper c.
Proof.
  unfold read_receipt. past_calls. destruct o as [context|]; [|done].
  match goal with H : decode_enroll_common _ = _ |- _ => apply read_common_typed in H; rename H into Hc end.
  destruct (_ || _) eqn:Hg; [done|]. intros [= <-] Hs Hl. apply receipt_valid_spec.
  match goal with H : QCBORDecode_GetInt64InMapN _ _ = _ |- _ => apply int_default_range in H end.
  unfold receipt_typed. cbn [ro_context ro_fingerprint ro_assurance ro_baseline_digest ro_enrolled_at_unix ro_key_id].
  bools. unfold v_len, PBNS_ENROLLMENT_NONCE_SIZE, PBNS_ENROLLMENT_DIGEST_SIZE in *. split_and!; try done; try lia.
  - apply (view_short _ 41 _ _ Hs Hl). right. cbn. tauto.
  - apply (view_short _ 44 _ _ Hs Hl). left. cbn. tauto.
Qed.

Lemma read_envelope_proper s c : read_envelope s = Some c -> s = tree_encode (envelope_tree c) -> zlen s <= 65536 ->
  envelope_valid c = true -> envelope_proper c.
Proof.
  unfold read_envelope. past_calls. destruct (_ || _) eqn:Hg; [done|]. intros [= <-] Hs Hl. apply envelope_valid_spec.
  unfold envelope_typed. cbn [ee_request_id ee_host_nonce ee_recipient_key_id ee_ciphertext].
  bools. unfold v_len, PBNS_ENROLLMENT_NONCE_SIZE, PBNS_ENROLLMENT_REQUEST_ID_SIZE in *. split_and!; try done; try lia.
  - apply (view_short _ 3 _ _ Hs Hl). left. cbn. tauto.
  - apply (view_short _ 4 _ _ Hs Hl). left. cbn. tauto.
Qed.

Lemma read_wire_object_proper s c : read_wire_object s = Some c -> wire_object_proper c.
Proof.
  unfold read_wire_object. past_calls. destruct (_ || _) eqn:Hg; [done|]. intros [= <-].
  match goal with H : QCBORDecode_GetUInt64InMapN _ _ = _ |- _ => apply uint_default_range in H end.
  unfold wire_object_proper, wire_object_typed, view_typed. cbn [wo_operation wo_object].
  bools. unfold v_len, PBNS_ENROLLMENT_OBJECT_MAX_SIZE in *. split_and!; try lia; unfold UINT64_MAX; lia.
Qed.
End typed.

(** ** What was written is read back *)

Definition view_at (p : Z) (v : pbns_view) : pbns_view := mk_view p (v_data v).

Definition common_at (p : Z) (c : pbns_enrollment_common_context) : pbns_enrollment_common_context :=
  mk_common (ec_request_id c) (ec_host_fingerprint c) (ec_nonce c) (ec_stage c) (ec_sequence c) (view_at p (ec_key_id c)).

Lemma view_at_valid p v : p <> 0 -> view_is_valid (view_at p v) = true.
Proof. intros. apply view_is_valid_spec. by left. Qed.

Section reads.
Context `{R : SpiffyReads}.

Lemma decode_enroll_common_reads c stage sequence d outer : common_typed c -> common_proper c stage sequence ->
  open_maps d = Some [outer] -> field 1 outer = Some (tree_norm (enroll_common_tree c)) ->
  exists p d', p <> 0 /\ open_maps d' = Some [outer] /\ decode_enroll_common d = (Some (common_at p c), d').
Proof.
  intros (L1 & L2 & L3 & R1 & R2 & _) (_ & _ & _ & _ & _ & _ & Hk) Ho Hf.
  set (inner := norm_map [leaf (1, CText PBNS_ENROLLMENT_DOMAIN); leaf (2, CUInt PBNS_ENROLLMENT_VERSION); leaf (3, CUInt PBNS_ENROLLMENT_SERVICE);
        leaf (4, CBytes (ec_request_id c)); leaf (5, CBytes (ec_host_fingerprint c)); leaf (6, CBytes (ec_nonce c));
        leaf (7, CUInt (ec_stage c)); leaf (8, CUInt (ec_sequence c)); leaf (9, CBytes (v_data (ec_key_id c)))]).
  pose proof (reads_nested d outer [] 1 inner Ho Hf) as O0.
  destruct (reads_text _ inner [outer] 1 PBNS_ENROLLMENT_DOMAIN O0 eq_refl) as (p1 & d1 & E1 & _ & O1). rewrite O0 in O1.
  destruct (reads_uint _ inner [outer] 2 1 O1 eq_refl ltac:(unfold UINT64_MAX; lia)) as (d2 & E2 & O2). rewrite O1 in O2.
  destruct (reads_uint _ inner [outer] 3 4 O2 eq_refl ltac:(unfold UINT64_MAX; lia)) as (d3 & E3 & O3). rewrite O2 in O3.
  destruct (reads_bytes _ inner [outer] 4 (ec_request_id c) O3 eq_refl) as (p4 & d4 & E4 & _ & O4). rewrite O3 in O4.
  destruct (reads_bytes _ inner [outer] 5 (ec_host_fingerprint c) O4 eq_refl) as (p5 & d5 & E5 & _ & O5). rewrite O4 in O5.
  destruct (reads_bytes _ inner [outer] 6 (ec_nonce c) O5 eq_refl) as (p6 & d6 & E6 & _ & O6). rewrite O5 in O6.
  destruct (reads_uint _ inner [outer] 7 (ec_stage c) O6 eq_refl R1) as (d7 & E7 & O7). rewrite O6 in O7.
  destruct (reads_uint _ inner [outer] 8 (ec_sequence c) O7 eq_refl R2) as (d8 & E8 & O8). rewrite O7 in O8.
  destruct (reads_bytes _ inner [outer] 9 (v_data (ec_key_id c)) O8 eq_refl) as (p9 & d9 & E9 & N9 & O9). rewrite O8 in O9.
  exists p9, (QCBORDecode_ExitMap d9). split; [done|]. split; [by apply (reads_exit d9 inner)|].
  unfold decode_enroll_common. rewrite E1, E2, E3, E4, E5, E6, E7, E8, E9. cbn [default from_option id]. unfold v_len in *. cbn [v_data].
  rewrite L1, L2, L3, bytes_eqb_refl, (proj2 (Z.eqb_neq (zlen (v_data (ec_key_id c))) 0)), (proj2 (Z.ltb_ge PBNS_ENROLLMENT_KEY_ID_MAX_SIZE _))
    by (unfold PBNS_ENROLLMENT_KEY_ID_MAX_SIZE; lia). reflexivity.
Qed.

Definition challenge_at (p q r : Z) (v : pbns_enrollment_challenge_object) : pbns_enrollment_challenge_object :=
  mk_challenge_object (common_at p (co_context v)) (co_host_nonce v) (co_server_nonce v) (co_init_digest v)
    (view_at q (co_credential_blob v)) (view_at r (co_encrypted_secret v)) (co_flow v).

Lemma common_at_proper p c stage sequence : p <> 0 -> common_proper c stage sequence -> common_proper (common_at p c) stage sequence.
Proof.
  intros Hp (H1 & H2 & H3 & H4 & H5 & _ & H6). do 5 (split; [done|]). split; [by apply view_at_valid|exact H6].
Qed.

Lemma challenge_at_proper p q r v : p <> 0 -> q <> 0 -> r <> 0 -> challenge_proper v -> challenge_proper (challenge_at p q r v).
Proof.
  intros Hp Hq Hr (H1 & H2 & H3 & H4 & H5 & _ & _ & H6). split; [exact H1|]. split; [by apply common_at_proper|].
  do 3 (split; [done|]). split; [by apply view_at_valid|]. split; [by apply view_at_valid|exact H6].
Qed.

Lemma object_readable m : message_typed m -> zlen (message_octets m) <= UINT16_MAX -> tree_readable (message_tree m).
Proof.
  intros Ht Hl. split; [by apply message_tree_ok|]. split; [|split; [|exact Hl]].
  - destruct m as [|v| | | | | |]; try reflexivity. cbn [message_tree]. unfold tpm_init_tree. by destruct (0 <? v_len (ti_ek_certificate v)).
  - destruct m as [|v| | | | | |]; try (vm_compute; lia). cbn [message_tree]. unfold tpm_init_tree.
    destruct (0 <? v_len (ti_ek_certificate v)); vm_compute; lia.
Qed.

Lemma read_challenge_back c : challenge_proper c -> zlen (tree_encode (challenge_object_tree c)) <= UINT16_MAX ->
  exists p q r, p <> 0 /\ q <> 0 /\ r <> 0 /\ read_challenge (tree_encode (challenge_object_tree c)) = Some (challenge_at p q r c).
Proof.
  intros Hp Hl. pose proof Hp as (Ht & Hc & _). pose proof (object_readable (MChallenge c) Ht Hl) as Hr.
  destruct Ht as (Htc & L1 & L2 & L3 & _ & _ & Rf). apply reads_enter in Hr. fold (challenge_object_tree c) in Hr.
  match type of Hr with _ = Some [?f] => set (outer := f) in Hr end.
  destruct (decode_enroll_common_reads _ _ _ _ outer Htc Hc Hr eq_refl) as (p & d0 & Np & O0 & Ec).
  destruct (reads_bytes _ outer [] 20 (co_host_nonce c) O0 eq_refl) as (p1 & d1 & E1 & _ & O1). rewrite O0 in O1.
  destruct (reads_bytes _ outer [] 21 (co_server_nonce c) O1 eq_refl) as (p2 & d2 & E2 & _ & O2). rewrite O1 in O2.
  destruct (reads_bytes _ outer [] 22 (co_init_digest c) O2 eq_refl) as (p3 & d3 & E3 & _ & O3). rewrite O2 in O3.
  destruct (reads_bytes _ outer [] 23 (v_data (co_credential_blob c)) O3 eq_refl) as (p4 & d4 & E4 & N4 & O4). rewrite O3 in O4.
  destruct (reads_bytes _ outer [] 24 (v_data (co_encrypted_secret c)) O4 eq_refl) as (p5 & d5 & E5 & N5 & O5). rewrite O4 in O5.
  destruct (reads_uint _ outer [] 25 (co_flow c) O5 eq_refl Rf) as (d6 & E6 & O6). rewrite O5 in O6.
  exists p, p4, p5. split; [done|]. split; [done|]. split; [done|]. unfold read_challenge. rewrite Ec, E1, E2, E3, E4, E5, E6.
  rewrite (reads_end _ (reads_exit _ _ _ O6)). cbn [default from_option id]. unfold v_len. cbn [v_data]. rewrite L1, L2, L3. reflexivity.
Qed.

Definition receipt_at (p q r : Z) (v : pbns_enrollment_receipt_object) : pbns_enrollment_receipt_object :=
  mk_receipt_object (common_at p (ro_context v)) (ro_fingerprint v) (view_at q (ro_assurance v)) (ro_baseline_digest v)
    (ro_enrolled_at_unix v) (view_at r (ro_key_id v)).

Lemma receipt_at_proper p q r v : p <> 0 -> q <> 0 -> r <> 0 -> receipt_proper v -> receipt_proper (receipt_at p q r v).
Proof.
  intros Hp Hq Hr (H1 & H2 & H3 & _ & H4 & H5 & H6 & _ & H7). split; [exact H1|]. split; [by apply common_at_proper|]. split; [done|].
  split; [by apply view_at_valid|]. do 3 (split; [done|]). split; [by apply view_at_valid|exact H7].
Qed.

Lemma read_receipt_back c : receipt_proper c -> zlen (tree_encode (receipt_object_tree c)) <= UINT16_MAX ->
  exists p q r, p <> 0 /\ q <> 0 /\ r <> 0 /\ read_receipt (tree_encode (receipt_object_tree c)) = Some (receipt_at p q r c).
Proof.
  intros Hp Hl. pose proof Hp as (Ht & Hc & _). pose proof (object_readable (MReceipt c) Ht Hl) as Hr.
  destruct Ht as (Htc & L1 & _ & L2 & Ri & _). apply reads_enter in Hr. fold (receipt_object_tree c) in Hr.
  match type of Hr with _ = Some [?f] => set (outer := f) in Hr end.
  destruct (decode_enroll_common_reads _ _ _ _ outer Htc Hc Hr eq_refl) as (p & d0 & Np & O0 & Ec).
  destruct (reads_bytes _ outer [] 40 (ro_fingerprint c) O0 eq_refl) as (p1 & d1 & E1 & _ & O1). rewrite O0 in O1.
  destruct (reads_text _ outer [] 41 (v_data (ro_assurance c)) O1 eq_refl) as (p2 & d2 & E2 & N2 & O2). rewrite O1 in O2.
  destruct (reads_bytes _ outer [] 42 (ro_baseline_digest c) O2 eq_refl) as (p3 & d3 & E3 & _ & O3). rewrite O2 in O3.
  destruct (reads_int _ outer [] 43 (ro_enrolled_at_unix c) O3 eq_refl Ri) as (d4 & E4 & O4). rewrite O3 in O4.
  destruct (reads_bytes _ outer [] 44 (v_data (ro_key_id c)) O4 eq_refl) as (p5 & d5 & E5 & N5 & O5). rewrite O4 in O5.
  exists p, p2, p5. split; [done|]. split; [done|]. split; [done|]. unfold read_receipt. rewrite Ec, E1, E2, E3, E4, E5.
  rewrite (reads_end _ (reads_exit _ _ _ O5)). cbn [default from_option id]. unfold v_len. cbn [v_data]. rewrite L1, L2. reflexivity.
Qed.

Definition envelope_at (p q : Z) (v : pbns_enrollment_encrypted_envelope) : pbns_enrollment_encrypted_envelope :=
  mk_envelope (ee_request_id v) (ee_host_nonce v) (view_at p (ee_recipient_key_id v)) (view_at q (ee_ciphertext v)).

Lemma envelope_at_proper p q v : p <> 0 -> q <> 0 -> envelope_proper v -> envelope_proper (envelope_at p q v).
Proof.
  intros Hp Hq (H1 & H2 & H3 & _ & H4 & _ & H5). do 3 (split; [done|]). split; [by apply view_at_valid|]. split; [done|].
  split; [by apply view_at_valid|exact H5].
Qed.

Lemma read_envelope_back c : envelope_proper c -> zlen (tree_encode (envelope_tree c)) <= UINT16_MAX ->
  exists p q, p <> 0 /\ q <> 0 /\ read_envelope (tree_encode (envelope_tree c)) = Some (envelope_at p q c).
Proof.
  intros Hp Hl. pose proof Hp as (Ht & _). pose proof (object_readable (MEnvelope c) Ht Hl) as O0.
  destruct Ht as (L1 & L2 & _). apply reads_enter in O0. fold (envelope_tree c) in O0.
  match type of O0 with _ = Some [?f] => set (outer := f) in O0 end.
  destruct (reads_bytes _ outer [] 1 (ee_request_id c) O0 eq_refl) as (p1 & d1 & E1 & _ & O1). rewrite O0 in O1.
  destruct (reads_bytes _ outer [] 2 (ee_host_nonce c) O1 eq_refl) as (p2 & d2 & E2 & _ & O2). rewrite O1 in O2.
  destruct (reads_bytes _ outer [] 3 (v_data (ee_recipient_key_id c)) O2 eq_refl) as (p3 & d3 & E3 & N3 & O3). rewrite O2 in O3.
  destruct (reads_bytes _ outer [] 4 (v_data (ee_ciphertext c)) O3 eq_refl) as (p4 & d4 & E4 & N4 & O4). rewrite O3 in O4.
  exists p3, p4. split; [done|]. split; [done|]. unfold read_envelope. rewrite E1, E2, E3, E4.
  rewrite (reads_end _ (reads_exit _ _ _ O4)). cbn [default from_option id]. unfold v_len. cbn [v_data]. rewrite L1, L2. reflexivity.
Qed.

Definition wire_object_at (p : Z) (v : pbns_enrollment_wire_object) : pbns_enrollment_wire_object :=
  mk_wire_object (wo_operation v) (view_at p (wo_object v)).

Lemma read_wire_object_back c : wire_object_proper c -> zlen (tree_encode (wire_object_tree c)) <= UINT16_MAX ->
  exists p, read_wire_object (tree_encode (wire_object_tree c)) = Some (wire_object_at p c).
Proof.
  intros Hp Hl. pose proof Hp as (Ht & Ho). pose proof (object_readable (MWire c) Ht Hl) as O0.
  destruct Ht as (Rop & _). apply reads_enter in O0. fold (wire_object_tree c) in O0.
  match type of O0 with _ = Some [?f] => set (outer := f) in O0 end.
  destruct (reads_uint _ outer [] 1 (wo_operation c) O0 eq_refl Rop) as (d1 & E1 & O1). rewrite O0 in O1.
  destruct (reads_bytes _ outer [] 2 (v_data (wo_object c)) O1 eq_refl) as (p2 & d2 & E2 & N2 & O2). rewrite O1 in O2.
  exists p2. unfold read_wire_object. rewrite E1, E2, (reads_end _ (reads_exit _ _ _ O2)). cbn [default from_option id]. unfold v_len in *. cbn [v_data].
  rewrite (proj2 (Z.eqb_neq (zlen (v_data (wo_object c))) 0)), (proj2 (Z.ltb_ge PBNS_ENROLLMENT_OBJECT_MAX_SIZE _))
    by (unfold PBNS_ENROLLMENT_OBJECT_MAX_SIZE; lia). reflexivity.
Qed.
End reads.

(** ** Each decoder *)

Section decoders.
Context `{S : QCBORSpiffy} `{M : Machine}.

Definition challenge_names (key : pbns_view) (v : pbns_enrollment_challenge_object) : Prop := v_data (ec_key_id (co_context v)) = v_data key.
Definition receipt_names (key : pbns_view) (v : pbns_enrollment_receipt_object) : Prop := v_data (ro_key_id v) = v_data key.
Definition envelope_names (key : pbns_view) (v : pbns_enrollment_encrypted_envelope) : Prop := v_data (ee_recipient_key_id v) = v_data key.
Definition wire_object_names (operation : Z) (v : pbns_enrollment_wire_object) : Prop := wo_operation v = operation.

Lemma key_expected (a b : pbns_view) : view_is_valid a = true -> view_is_valid b = true ->
  view_equal a b = true /\ v_data a = v_data b \/ view_equal a b = false /\ v_data a <> v_data b.
Proof.
  intros Ha Hb. pose proof (view_equal_spec a b Ha Hb) as H. destruct (view_equal a b); [left|right]; (split; [done|]); [by apply H|].
  intros E. by apply H in E.
Qed.

Lemma usable_sizes encoded key scratch : inputs_usable encoded key scratch -> v_len encoded <= 65536 /\ v_len encoded <= b_cap scratch.
Proof. intros (_ & H1 & _ & _ & _ & H2 & _). lia. Qed.

(** A key that is not valid is an argument that is refused. *)
Lemma key_cases encoded key scratch : view_is_valid key = true
  \/ decode_inputs encoded key scratch true = PBNS_ERR_ARGUMENT /\ ~ inputs_usable encoded key scratch.
Proof.
  destruct (decode_inputs_spec encoded key scratch) as [[_ Hu]|Hu]; [left|by right]. by destruct Hu as (_ & _ & ? & _).
Qed.

Lemma challenge_decode_exact encoded key scratch v0 :
  accepted_exactly zero_challenge_object challenge_object_tree challenge_proper (challenge_names key) challenge_content PBNS_ERR_AUTHENTICATION
    (inputs_usable encoded key scratch) encoded scratch (pbns_enrollment_challenge_decode encoded key scratch (Some v0)).
Proof.
  destruct (key_cases encoded key scratch) as [Hk|[Hin Hu]]; [|by apply decode_refused].
  apply decode_accepts; [done|apply read_challenge_proper|..|apply usable_sizes|apply decode_inputs_spec].
  - intros c (_ & (_ & _ & _ & _ & _ & Hv & _) & _). unfold challenge_expected, challenge_names.
    destruct (key_expected _ _ Hv Hk) as [[-> ?]|[-> ?]]; tauto.
  - intros R c Hp Hl. destruct (read_challenge_back c Hp Hl) as (p & q & r & Np & Nq & Nr & E). exists (challenge_at p q r c).
    pose proof (challenge_at_proper p q r c Np Nq Nr Hp) as Hp'. split; [done|]. split; [done|].
    split; [apply challenge_valid_spec; [apply Hp'|done]|]. done.
Qed.

Lemma receipt_decode_exact encoded key scratch v0 :
  accepted_exactly zero_receipt_object receipt_object_tree receipt_proper (receipt_names key) receipt_content PBNS_ERR_AUTHENTICATION
    (inputs_usable encoded key scratch) encoded scratch (pbns_enrollment_receipt_decode encoded key scratch (Some v0)).
Proof.
  destruct (key_cases encoded key scratch) as [Hk|[Hin Hu]]; [|by apply decode_refused].
  apply decode_accepts; [done|apply read_receipt_proper|..|apply usable_sizes|apply decode_inputs_spec].
  - intros c (_ & (_ & _ & _ & _ & _ & Hv & _) & _ & _ & _ & _ & _ & Hv' & Heq). unfold receipt_expected, receipt_names.
    destruct (key_expected _ _ Hv Hk) as [[-> E1]|[-> E1]], (key_expected _ _ Hv' Hk) as [[-> E2]|[-> E2]]; cbn [andb]; try tauto; congruence.
  - intros R c Hp Hl. destruct (read_receipt_back c Hp Hl) as (p & q & r & Np & Nq & Nr & E). exists (receipt_at p q r c).
    pose proof (receipt_at_proper p q r c Np Nq Nr Hp) as Hp'. split; [done|]. split; [done|].
    split; [apply receipt_valid_spec; [apply Hp'|done]|]. done.
Qed.

Lemma envelope_decode_exact encoded key scratch v0 :
  accepted_exactly zero_envelope envelope_tree envelope_proper (envelope_names key) envelope_content PBNS_ERR_AUTHENTICATION
    (inputs_usable encoded key scratch) encoded scratch (pbns_enrollment_envelope_decode encoded key scratch (Some v0)).
Proof.
  destruct (key_cases encoded key scratch) as [Hk|[Hin Hu]]; [|by apply decode_refused].
  apply decode_accepts; [done|apply read_envelope_proper|..|apply usable_sizes|apply decode_inputs_spec].
  - intros c (_ & _ & _ & Hv & _). unfold envelope_expected, envelope_names.
    destruct (key_expected _ _ Hv Hk) as [[-> ?]|[-> ?]]; tauto.
  - intros R c Hp Hl. destruct (read_envelope_back c Hp Hl) as (p & q & Np & Nq & E). exists (envelope_at p q c).
    pose proof (envelope_at_proper p q c Np Nq Hp) as Hp'. split; [done|]. split; [done|].
    split; [apply envelope_valid_spec; [apply Hp'|done]|]. done.
Qed.

(** The outer object names one of two operations. *)
Definition wire_usable (static_ptr : Z) (encoded : pbns_view) (operation : Z) (scratch : pbns_buffer) : Prop :=
  inputs_usable encoded (mk_view static_ptr [1]) scratch /\ (operation = 1 \/ operation = 2).

Lemma wire_decode_exact static_ptr encoded operation scratch v0 :
  accepted_exactly zero_wire_object wire_object_tree wire_object_proper (wire_object_names operation) wire_object_content PBNS_ERR_SERVICE
    (wire_usable static_ptr encoded operation scratch) encoded scratch
    (pbns_enrollment_wire_object_decode static_ptr encoded operation scratch (Some v0)).
Proof.
  apply decode_accepts; [done|intros s c E _ _ _; by apply (read_wire_object_proper s)|..].
  - intros c _. unfold wire_object_expected, wire_object_names. destruct (Z.eqb_spec (wo_operation c) operation); tauto.
  - intros R c Hp Hl. destruct (read_wire_object_back c Hp Hl) as (p & E). by exists (wire_object_at p c).
  - intros [H _]. by apply usable_sizes in H.
  - unfold wire_object_inputs, wire_usable. destruct (decode_inputs_spec encoded (mk_view static_ptr [1]) scratch) as [[-> Hu]|[-> Hu]]; cbn [is_ok negb]; [|tauto].
    destruct (Z.eqb_spec operation 1), (Z.eqb_spec operation 2); cbn [negb andb]; tauto.
Qed.
End decoders.

(** ** Associated data *)

(** Two parts written one after the other. *)
Lemma splice_twice (data a b : bytes) n : (n + length a <= length data)%nat ->
  let once := take n data ++ a ++ drop (n + length a) data in
  take (n + length a) once ++ b ++ drop (n + length a + length b) once = take n data ++ (a ++ b) ++ drop (n + length (a ++ b)) data.
Proof.
  intros Hn. cbv zeta. assert (Hl : length (take n data ++ a) = (n + length a)%nat) by (rewrite length_app, length_take; lia).
  rewrite !(app_assoc (take n data) a), (take_app_length' (take n data ++ a)) by done.
  rewrite (drop_app_ge (take n data ++ a)) by lia. rewrite drop_drop, Hl, <- !app_assoc. do 3 f_equal. f_equal. rewrite length_app. lia.
Qed.

Lemma append_parts_spec data offset parts st data' offset' :
  0 <= offset <= zlen data -> append_parts data offset parts = (st, data', offset') ->
  length data' = length data /\ st = (if zlen data - offset <? zlen (concat parts) then PBNS_ERR_LIMIT else PBNS_OK)
  /\ (st = PBNS_OK -> offset' = offset + zlen (concat parts)
      /\ data' = take (Z.to_nat offset) data ++ concat parts ++ drop (Z.to_nat offset + length (concat parts)) data).
Proof.
  revert data offset. induction parts as [|part parts IH]; intros data offset Ho; cbn [append_parts concat].
  - intros [= <- <- <-]. split; [done|]. rewrite (proj2 (Z.ltb_ge _ _)) by (cbn; lia). split; [done|]. intros _. cbn [length app].
    rewrite Nat.add_0_r, take_drop. split; [lia|done].
  - unfold append_part. destruct (Z.ltb_spec (zlen data - offset) (zlen part)) as [Hl|Hl].
    + intros [= <- <- <-]. rewrite length_app. split; [done|]. by rewrite (proj2 (Z.ltb_lt _ _)) by lia.
    + set (data1 := take (Z.to_nat offset) data ++ part ++ drop (Z.to_nat offset + length part) data).
      assert (Hlen : length data1 = length data).
      { unfold data1. rewrite !length_app, length_take, length_drop. lia. }
      intros E. apply IH in E as (Hl' & Hst & Hok); [|lia]. rewrite Hlen in Hl', Hst. rewrite length_app. split; [done|]. split.
      { rewrite Hst. destruct (Z.ltb_spec (zlen data - (offset + zlen part)) (zlen (concat parts))),
          (Z.ltb_spec (zlen data - offset) (Z.of_nat (length part + length (concat parts)))); done || lia. }
      intros Hs. destruct (Hok Hs) as [-> ->]. split; [lia|]. unfold data1.
      replace (Z.to_nat (offset + zlen part)) with (Z.to_nat offset + length part)%nat by lia.
      pose proof (splice_twice data part (concat parts) (Z.to_nat offset) ltac:(lia)) as Ht. rewrite length_app in Ht. exact Ht.
Qed.

Inductive enrollment_binding :=
| BEnvelope (request_id host_nonce : bytes) (key_id : pbns_view)
| BChallenge (challenge : pbns_enrollment_challenge_object)
| BSoftwareProof (proof : pbns_enrollment_software_proof)
| BTpmProof (proof : pbns_enrollment_tpm_proof)
| BReceipt (receipt : pbns_enrollment_receipt_object) (server_nonce : bytes).

Definition binding_typed (b : enrollment_binding) : Prop :=
  match b with
  | BEnvelope id nonce _ => zlen id = 16 /\ zlen nonce = 32
  | BChallenge c => message_typed (MChallenge c)
  | BSoftwareProof p => message_typed (MSoftwareProof p)
  | BTpmProof p => message_typed (MTpmProof p)
  | BReceipt r nonce => message_typed (MReceipt r) /\ zlen nonce = 32
  end.

Definition binding_valid (b : enrollment_binding) : bool :=
  match b with
  | BEnvelope id nonce key => ct_nonzero id && ct_nonzero nonce && view_within PBNS_ENROLLMENT_KEY_ID_MAX_SIZE key
  | BChallenge c => challenge_valid c
  | BSoftwareProof p => proof_aad_valid (sp_context p) (sp_server_nonce p) (sp_init_digest p)
  | BTpmProof p => proof_aad_valid (tp_context p) (tp_server_nonce p) (tp_init_digest p)
  | BReceipt r nonce => receipt_valid r && ct_nonzero nonce
  end.

Definition binding_aad (b : enrollment_binding) : pbns_buffer -> ptr Z -> pbns_status * bytes * ptr Z :=
  match b with
  | BEnvelope id nonce key => pbns_enrollment_envelope_aad (Some id) (Some nonce) key
  | BChallenge c => pbns_enrollment_challenge_aad (Some c)
  | BSoftwareProof p => pbns_enrollment_proof_aad (Some p)
  | BTpmProof p => pbns_enrollment_tpm_proof_aad (Some p)
  | BReceipt r nonce => pbns_enrollment_receipt_aad (Some r) (Some nonce)
  end.

(** What a binding is about: the purpose and the values it ties together. *)
Definition binding_subject (b : enrollment_binding) : bytes * list bytes :=
  match b with
  | BEnvelope id nonce key => (ENVELOPE_PREFIX, [id; nonce; v_data key])
  | BChallenge c =>
      (CHALLENGE_PREFIX, [ec_request_id (co_context c); co_host_nonce c; co_server_nonce c; co_init_digest c; v_data (ec_key_id (co_context c))])
  | BSoftwareProof p =>
      (PROOF_PREFIX, [ec_request_id (sp_context p); ec_nonce (sp_context p); sp_server_nonce p; sp_init_digest p; v_data (ec_key_id (sp_context p))])
  | BTpmProof p =>
      (PROOF_PREFIX, [ec_request_id (tp_context p); ec_nonce (tp_context p); tp_server_nonce p; tp_init_digest p; v_data (ec_key_id (tp_context p))])
  | BReceipt r nonce =>
      (RECEIPT_PREFIX, [ec_request_id (ro_context r); ec_nonce (ro_context r); nonce; ro_fingerprint r; v_data (ro_key_id r)])
  end.

Definition binding_octets (b : enrollment_binding) : bytes := concat (fst (binding_subject b) :: snd (binding_subject b)).

Lemma binding_aad_spec b output size0 : exists st data size,
  binding_aad b output (Some size0) = (st, data, Some size) /\ length data = length (b_data output)
  /\ st = (if negb (buffer_is_valid output) || negb (binding_valid b) then PBNS_ERR_ARGUMENT
           else if b_cap output <? zlen (binding_octets b) then PBNS_ERR_LIMIT else PBNS_OK)
  /\ (st = PBNS_OK -> size = zlen (binding_octets b) /\ data = binding_octets b ++ drop (length (binding_octets b)) (b_data output))
  /\ (st <> PBNS_OK -> size = 0).
Proof.
  assert (Hb : binding_aad b = build_aad (binding_valid b) (fst (binding_subject b) :: snd (binding_subject b))) by (by destruct b).
  rewrite Hb. unfold build_aad, aad_begin. cbn [fmap option_fmap option_map].
  destruct (buffer_is_valid output); cbn [negb is_ok orb]; [|by do 3 eexists]. destruct (binding_valid b); cbn [negb]; [|by do 3 eexists].
  destruct (append_parts _ _ _) as [[st data] offset] eqn:E. apply append_parts_spec in E as (Hl & Hst & Hok); [|lia].
  fold (binding_octets b) in Hst, Hok. rewrite Z.sub_0_r in Hst. exists st, data, (if is_ok st then offset else 0).
  split; [by destruct (is_ok st)|]. split; [done|]. split; [exact Hst|]. split.
  - intros Hs. rewrite Hs. destruct (Hok Hs) as [-> ->]. done.
  - intros Hs. by apply is_ok_false in Hs as ->.
Qed.

(** Runs of fixed lengths before a last one are found again in the concatenation. *)
Lemma concat_inj (a b : list bytes) : length a = length b -> map (fun l : bytes => zlen l) (removelast a) = map (fun l : bytes => zlen l) (removelast b) -> concat a = concat b -> a = b.
Proof.
  revert b. induction a as [|x a IH]; intros [|y b] Hl Hx E; try done. cbn [concat] in E. injection Hl as Hl.
  destruct a as [|x' a], b as [|y' b]; try done.
  - cbn in E. rewrite !app_nil_r in E. by rewrite E.
  - cbn [removelast map] in Hx. injection Hx as Hxy Hx. apply app_inj_1 in E as [-> E]; [|lia]. f_equal. apply IH; [done|exact Hx|exact E].
Qed.

Definition binding_parts (b : enrollment_binding) : list bytes := fst (binding_subject b) :: snd (binding_subject b).

Definition binding_kind (b : enrollment_binding) : Z :=
  match b with BEnvelope _ _ _ => 69 | BChallenge _ => 67 | BSoftwareProof _ | BTpmProof _ => 80 | BReceipt _ _ => 82 end.

(** The octet after the common stem tells the purposes apart. *)
Lemma binding_kind_octet b : binding_octets b !! 16%nat = Some (binding_kind b).
Proof. by destruct b. Qed.

Lemma binding_shape b : binding_typed b ->
  map (fun l : bytes => zlen l) (removelast (binding_parts b))
  = match b with
    | BEnvelope _ _ _ => [27; 16; 32] | BChallenge _ => [28; 16; 32; 32; 32]
    | BSoftwareProof _ | BTpmProof _ => [24; 16; 32; 32; 32] | BReceipt _ _ => [26; 16; 32; 32; 32]
    end.
Proof.
  destruct b as [id nonce key|c|p|p|r nonce]; cbn [binding_typed message_typed]; unfold challenge_typed, receipt_typed, common_typed;
    intros Ht; decompose [and] Ht; unfold binding_parts; cbn [binding_subject fst snd removelast map]; repeat f_equal; done.
Qed.

Lemma binding_octets_inj a b : binding_typed a -> binding_typed b -> binding_octets a = binding_octets b -> binding_subject a = binding_subject b.
Proof.
  intros Ha Hb E. pose proof (binding_kind_octet a) as Hk. rewrite E, binding_kind_octet in Hk. injection Hk as Hk.
  apply binding_shape in Ha, Hb. assert (Hp : binding_parts a = binding_parts b).
  { apply concat_inj; [destruct a, b; done| |exact E]. rewrite Ha, Hb. destruct a, b; done. }
  unfold binding_parts in Hp. destruct (binding_subject a), (binding_subject b). cbn [fst snd] in Hp. congruence.
Qed.

(** ** Properties *)

(** C39: every enrollment message is written exactly and is unambiguous.  Whatever
    the message, the encoder refuses an unusable output, a message that is not
    valid, and an output that is too small or would need more than 65536 octets;
    otherwise the canonical octets are written at the start of the output, their
    number is stored and the rest of the output is as before.  A refusal stores
    zero.  The octets determine the message: no two messages that differ in kind,
    flow or any field have the same octets. *)
Theorem enrollment_messages_exact `{S : QCBORSpiffy} (m : enrollment_message) (output : pbns_buffer) (size0 : Z) :
  message_typed m ->
  encoded_exactly (message_valid m) (message_octets m) output (message_encode m output (Some size0))
  /\ forall m', message_typed m' -> message_octets m' = message_octets m -> message_content m' = message_content m.
Proof. intros Ht. split; [apply message_encode_spec|]. intros m' Ht'. by apply message_octets_inj. Qed.

(** C16: the decoders accept exactly what they should.  Challenges, receipts,
    envelopes and outer objects are accepted only canonical, valid for their stage
    and sequence, and naming the expected key or operation; with a CBOR decoder
    that reads what was written every such object is accepted and read back, and
    one that names another key or operation is refused as such.  The arguments are
    refused exactly when they are unusable, and every refusal leaves a zero
    object. *)
Theorem enrollment_objects_accepted_exactly `{S : QCBORSpiffy} `{M : Machine} (static_ptr : Z) (encoded key : pbns_view) (operation : Z)
    (scratch : pbns_buffer) c0 r0 e0 w0 :
  accepted_exactly zero_challenge_object challenge_object_tree challenge_proper (challenge_names key) challenge_content PBNS_ERR_AUTHENTICATION
    (inputs_usable encoded key scratch) encoded scratch (pbns_enrollment_challenge_decode encoded key scratch (Some c0))
  /\ accepted_exactly zero_receipt_object receipt_object_tree receipt_proper (receipt_names key) receipt_content PBNS_ERR_AUTHENTICATION
    (inputs_usable encoded key scratch) encoded scratch (pbns_enrollment_receipt_decode encoded key scratch (Some r0))
  /\ accepted_exactly zero_envelope envelope_tree envelope_proper (envelope_names key) envelope_content PBNS_ERR_AUTHENTICATION
    (inputs_usable encoded key scratch) encoded scratch (pbns_enrollment_envelope_decode encoded key scratch (Some e0))
  /\ accepted_exactly zero_wire_object wire_object_tree wire_object_proper (wire_object_names operation) wire_object_content PBNS_ERR_SERVICE
    (wire_usable static_ptr encoded operation scratch) encoded scratch
    (pbns_enrollment_wire_object_decode static_ptr encoded operation scratch (Some w0)).
Proof.
  split; [apply challenge_decode_exact|]. split; [apply receipt_decode_exact|]. split; [apply envelope_decode_exact|apply wire_decode_exact].
Qed.

(** C40: associated data binds a purpose and its values.  The data of an envelope, a
    challenge, a proof or a receipt is written in full or not counted as written;
    invalid values and unusable outputs are refused.  Two bindings have the same
    octets only when they have the same purpose and agree on the request, the
    nonces, the digest and the key, although the last part has no fixed length. *)
Theorem enrollment_bindings_exact (b : enrollment_binding) (output : pbns_buffer) (size0 : Z) :
  binding_typed b ->
  exists st data size, binding_aad b output (Some size0) = (st, data, Some size) /\ length data = length (b_data output)
  /\ st = (if negb (buffer_is_valid output) || negb (binding_valid b) then PBNS_ERR_ARGUMENT
           else if b_cap output <? zlen (binding_octets b) then PBNS_ERR_LIMIT else PBNS_OK)
  /\ (st <> PBNS_OK -> size = 0)
  /\ (st = PBNS_OK -> data = binding_octets b ++ drop (length (binding_octets b)) (b_data output)
      /\ forall b', binding_typed b' -> take (Z.to_nat size) data = binding_octets b' -> binding_subject b' = binding_subject b).
Proof.
  intros Ht. destruct (binding_aad_spec b output size0) as (st & data & size & E & Hl & Hst & Hok & Hz). exists st, data, size.
  split; [done|]. split; [done|]. split; [done|]. split; [done|]. intros Hs. destruct (Hok Hs) as [-> ->]. split; [done|].
  intros b' Ht'. rewrite Nat2Z.id, take_app_length. intros Eq. by apply binding_octets_inj.
Qed.

(** ** Witnesses *)

Definition ex_enroll_common (stage sequence : Z) : pbns_enrollment_common_context :=
  mk_common (replicate 16 1) (replicate 32 2) (replicate 32 3) stage sequence (mk_view 64 [7; 8]).

Definition ex_challenge_object : pbns_enrollment_challenge_object :=
  mk_challenge_object (ex_enroll_common 2 0) (replicate 32 3) (replicate 32 4) (replicate 32 5) (mk_view 128 [9]) (mk_view 160 [10; 11]) 2.

Definition ex_challenge_octets : pbns_view := mk_view 4096 (tree_encode (challenge_object_tree ex_challenge_object)).

Lemma ex_challenge_proper : challenge_proper ex_challenge_object.
Proof.
  assert (Ht : challenge_typed ex_challenge_object) by (unfold challenge_typed, common_typed, view_typed; vm_compute; intuition discriminate).
  by apply challenge_valid_spec.
Qed.

Lemma enrollment_messages_exact_witness :
  exists data size, @message_encode tree_qcbor tree_spiffy (MChallenge ex_challenge_object) (mk_buffer 8192 0 (replicate 512 0)) (Some 7)
    = (PBNS_OK, data, Some size).
Proof.
  destruct (@enrollment_messages_exact tree_qcbor tree_spiffy (MChallenge ex_challenge_object) (mk_buffer 8192 0 (replicate 512 0)) 7)
    as [(st & data & size & E & _ & Hst & _) _]; [apply ex_challenge_proper|].
  assert (Hs : st = PBNS_OK) by (rewrite Hst; vm_compute; reflexivity). exists data, size. rewrite <- Hs. exact E.
Defined.

Lemma enrollment_objects_accepted_exactly_witness :
  exists data v, @pbns_enrollment_challenge_decode tree_qcbor tree_spiffy x86_64 ex_challenge_octets (mk_view 512 [7; 8])
    (mk_buffer 8192 0 (replicate 512 0)) (Some zero_challenge_object) = (PBNS_OK, data, Some v)
  /\ challenge_content v = challenge_content ex_challenge_object.
Proof.
  destruct (@enrollment_objects_accepted_exactly tree_qcbor tree_spiffy x86_64 64 ex_challenge_octets (mk_view 512 [7; 8]) 1
    (mk_buffer 8192 0 (replicate 512 0)) zero_challenge_object zero_receipt_object zero_envelope zero_wire_object)
    as ((st & data & v & E & _ & _ & _ & _ & _ & _ & Hr) & _).
  destruct (Hr tree_reads ex_challenge_object) as [Hw _].
  - vm_compute. intuition discriminate.
  - vm_compute. discriminate.
  - vm_compute. reflexivity.
  - reflexivity.
  - exact ex_challenge_proper.
  - destruct (Hw eq_refl) as [Hs Hc]. exists data, v. split; [rewrite <- Hs; exact E|exact Hc].
Defined.

Lemma enrollment_bindings_exact_witness :
  exists data size, binding_aad (BChallenge ex_challenge_object) (mk_buffer 8192 0 (replicate 256 0)) (Some 7) = (PBNS_OK, data, Some size).
Proof.
  destruct (enrollment_bindings_exact (BChallenge ex_challenge_object) (mk_buffer 8192 0 (replicate 256 0)) 7)
    as (st & data & size & E & _ & Hst & _); [apply ex_challenge_proper|].
  assert (Hs : st = PBNS_OK) by (rewrite Hst; vm_compute; reflexivity). exists data, size. rewrite <- Hs. exact E.
Defined.
